(* ===== verification/_CoqProject ===== *)
-Q . S2P
Prelude.v
GoStrings.v
Decimal.v
GoTime.v
BusinessClock.v
Status.v
NumberRule.v
PaymentTerm.v
ProjectService.v
ImportPolicy.v
Utf8.v
PhoneCipher.v
CRMProvision.v
ApprovalRule.v
Workflow.v
ContractApproval.v
StatusWorkflow.v
Store.v
Outbound.v
IntegrationOutbox.v
Dispatch.v
Handover.v
Numbering.v
Repository.v
Scenario.v
Changes.v
Refinement.v
Frames.v
NumberIssue.v
Integrity.v
Approvals.v
Completion.v
Signing.v
SigningFlow.v
QueueFlow.v
DeliveryFlow.v
AuditOutbox.v
AuditFlow.v
Intake.v
IntakeFlow.v
HandoverFlow.v
Access.v
Like.v
Ledger.v
Reports.v
SigningLedger.v
Templates.v
Drafting.v
Prepared.v
LedgerFlow.v
Service.v
UseCases.v
DraftCases.v
ServiceFlow.v
Authority.v
ServiceState.v
ImportBatch.v
ImportConfirm.v
ImportTargets.v
ImportRules.v
ImportJobs.v
ImportCases.v
ImportExecute.v
ImportRelease.v
ImportTasks.v
ImportState.v
ImportFlow.v
ImportSafety.v
Tables.v
Catalog.v
CatalogSafety.v
TemplateStore.v
TemplateFiles.v
TemplateSafety.v
NumberAudit.v
Migration.v
NumberRules.v
Authorization.v
SessionStore.v
Authenticator.v
