(* ===== verification/Prelude.v ===== *)
(** * Contract management backend: a Rocq model of its core logic

    The program is a Go service that keeps the contracts of a company: their
    numbers, payment plans, approvals, stamped documents and signing, and the
    events it owes to the CRM, project, settlement, audit and notification
    systems.  Its parts under src/internal:

    - domain/ and businessclock/: pure rules (statuses, numbers, plans,
      approval rules, import policy, the Beijing calendar);
    - workflows/: Temporal workflows that run approvals and call activities;
    - infrastructure/mysql/: the repository, one transaction per operation on
      tables with unique keys, and the outboxes it fills;
    - integration/, auditoutbox/: workers that claim outbox rows and deliver;
    - application/: the use cases: they check the licence, the caller's
      permission and scope and the request, and then call one repository
      operation or the workflow engine;
    - infrastructure/platform/, sessiongovernance/: login at the identity
      provider, browser sessions, and the permissions the platform grants;
    - transport/, config/, cmd/: HTTP, environment variables, wiring.

    A session's cookie makes a request authenticated; it enters a use case, which reads the tables, asks remote services
    and calls the repository; the repository's transaction changes the rows
    and queues events; workers deliver them; workflows call back into the
    repository.

    ** Files

    Vocabulary of Go: Prelude (errors, the error monad, tactics), GoStrings
    (package strings, unicode), Decimal (numerals), GoTime (package time), Utf8
    (cutting a text to a column), BusinessClock (businessclock.go).

    Domain: Status (status.go), NumberRule (number_rule.go), PaymentTerm
    (payment_term.go and the normaliser of payment_terms.go), ProjectService
    (project_service.go and the service items of model.go), ImportPolicy
    (import*.go), PhoneCipher (phonecipher.go), CRMProvision
    (import_crm_provision.go of the domain and of the repository), ApprovalRule
    (domain/approval).

    Workflows: Workflow (types.go, helpers.go, activities.go), ContractApproval
    (contract_approval.go), StatusWorkflow (status_change.go,
    import_confirmation.go, expired_archive.go).

    Tables and repository: Store (models.go: rows, keys, the transaction monad
    with the statements that fail), Outbound (audit, life cycle,
    responsibility and financial events), IntegrationOutbox (outboxes and their
    operations), Numbering (contract_number.go), Repository
    (repository.go, contracts_lifecycle.go, draft.go, archive.go,
    contract_source.go), Signing (contracts_stamped.go,
    contracts_signing_actions.go, contracts_policy.go), Handover (both
    handover.go), Intake (opportunity intakes, their review and link), Dispatch
    (the workers of integration/), AuditOutbox (auditoutbox/).

    Reads: Like (literalLikePattern and MySQL's LIKE), Ledger (repository.go,
    contracts_approved.go, integration_contract_lists.go), Reports (dashboard,
    approvals, contract_summary.go), SigningLedger
    (contracts_signing_query.go).

    Use cases: Access (Principal, scopes, draft.go), Templates (templates.go,
    rules.go, validateRule), Drafting (the checks of service.go,
    contract_sources.go, crm_references.go, detection_categories.go,
    contractdocument/document.go), Service (the monad and its environment),
    UseCases and DraftCases (service.go, draft.go,
    contract_financial_change.go, integration_contract_lists.go).

    Imports (application/contract_import_*.go, import_*.go and the repository
    files of the same names): ImportBatch (the ledger of batches and
    identities), ImportConfirm (manual and automatic confirmation, the tenant's
    setting), ImportTargets (the work owed to other systems), ImportRules
    (checks, access, error codes), ImportJobs (the monad of the use cases and the
    answers of other systems), ImportCases (batches, sources, manifests,
    previews, commits, cleanup), ImportExecute (submission, the dispatcher's
    round, CRM provisioning), ImportRelease and ImportTasks (releases, frozen
    commands, recovery, target dispatch).

    Further tables: Tables (transactions over the tables of a component beside
    those of Store, and use cases over them), Catalog (local_catalog*.go of the
    repository, of application/ and of platform/), TemplateStore and TemplateFiles
    (templates.go, template_file_lifecycle.go, template_file_dispatcher.go),
    NumberRules (application/contract_number.go), NumberAudit
    (migration/preflight.go, workflows/number_audit.go), Migration
    (migration/migration.go).

    Identity (infrastructure/platform/ and sessiongovernance/): Authorization
    (authorization*.go, catalog.go: the local catalog, and what an answer of the
    platform makes of a caller), SessionStore (oidc_store.go,
    session_governance_store.go: login transactions, sessions, logout replays),
    Authenticator (oidc.go, session_*.go, backchannel_logout.go,
    contract_import_actor.go, sessiongovernance/client.go: the handlers).

    Scenario: the concrete rows and answers that the witnesses share.

    ** How state and operations correspond

    A table is a map or a list of row records in [Store.DB], with the unique
    keys of migrations written into the statements.  A repository method is a
    [Tx] program: it reads and writes tables, each statement may fail
    ([Oracle]), and [transaction] rolls back on an error.  A method keeps its
    name; its transaction closure is [*_body].  A use case is a [Svc] program
    over a session: each interaction takes a step, other requests may change
    the tables between two steps ([ev_others]), and the trace records the
    effects.  A use case whose name a repository method has is called
    [*View] or [*Case], or is told apart by its file.  [XTx E] and [Req E] are the
    same monads over [With E], the tables of Store with the component's own [E].

    ** What the theorems show

    - Refinement: the repository implements an abstract specification of what
      a call may do to contracts, approvals and events (Refinement, Integrity),
      with invariants by rule induction over every sequence of calls
      (Changes, Frames, Integrity): numbers are unique, plans match
      amounts, audit and responsibility streams replay to the tables.
    - Numbers: the allocation against a reference search (NumberIssue), the sample
      an accepted rule promises (NumberRules), the audit is exact, and clean in
      every history of an installation that numbers its contracts itself
      (NumberAudit); migrations are applied in order, each recorded after its
      success (Migration).
    - Approvals: the workflow accepts exactly the decisions the nodes allow
      (ContractApproval), activities take effect once (Approvals), an approval
      activates a contract and numbers it (NumberIssue, Completion), and what
      calls in between can do (Completion).
    - Signing and stamped documents (SigningFlow), opportunity intakes
      (IntakeFlow), handover (HandoverFlow).
    - Delivery: leases are exclusive, events are kept and settled by the answer of one
      delivery, queues drain (QueueFlow, DeliveryFlow); an undelivered audit event
      survives purging, though its two statements are not one transaction (AuditFlow).
    - Reads: pages show every contract once, and SQL conditions and predicates
      over loaded contracts agree (Like, LedgerFlow).
    - Use cases: a logic for effects (ServiceFlow), the effects a caller is
      allowed (Authority), what a prepared contract satisfies (Prepared), and
      the invariants requests keep (ServiceState).
    - Local catalog: versions protect entries and grants, and a draft only names what
      its author may use (CatalogSafety).  Templates: a source in use is
      its template's current one, and a retired source is released and never used
      again (TemplateSafety).
    - Identity: what a caller may do is exactly what the platform's answer says, and
      only a valid session leads to it (Authorization, Authenticator); a login
      state is used once, a session that ended stays ended (SessionStore).
    - Imports: invariants of the ledger kept by every statement, request and
      tick of the dispatcher in any interleaving (ImportState, ImportFlow), from
      which an external record is imported once and lost rounds cannot write
      (ImportSafety, with a batch that runs through the CRM channel to its
      targets).  ImportSafety also states which operations, import confirmations
      included, change the status of a contract, and to what.

    ** Bounds and fuel

    Integers are Z with the wrap-around written where the code can overflow.
    Loops with fuel: [delay_loop] 10 and [backoff_loop] 8 doublings reach their
    caps; [purgeBatches] 20 is the code's own bound; the paged count of
    responsibilities needs more fuel than there are responsibilities, which
    its theorem proves enough; [await_transfer] runs the attempts of the code;
    the workflows' fuel bounds the number of wake-ups, and their theorems quantify
    over it; [target_pages] 100 and [deliver_batch] 20 are the code's own bounds, and
    the audit workflow's five attempts its retry policy.

    ** Choices of the model

    Text in SQL is compared by bytes in ORDER BY and cursors and in the ascii_bin
    columns, and by the collation's characters in LIKE, in the filter on
    contract_type and in the unique keys that need it ([CharCollation],
    [Collation]).  What a DATETIME(3) or DECIMAL column keeps of a value matters for
    intakes, whose answer is also stored as JSON: there it is the parameter
    [StoredColumns]; elsewhere a row holds the value that was written.  Rows a statement leaves unordered come in the
    table's order.  Code outside src/ is a parameter: the clock, identifiers and
    failures ([Oracle]), remote answers ([Environment], [ImportEnvironment]),
    [GoUnicode], [TzDatabase], [Sha256], [Aead], [PhoneKeyEnv], [Ulid], [MediaTypes]; the
    codecs of DOCX and PDF ([Documents], [TemplateEngine]) are parameters as
    well, since their work is done by zip, XML and PDF packages; so are the file
    service ([TemplateGateway]), the platform's directory ([CatalogEnvironment]), MySQL's
    UPPER and row order in reports ([AuditSql]) and the effect of a migration's SQL
    ([MigrationEnv]).  The identity provider, the platform and the random source are
    the class [Network]; a question asked while a row is locked is part of the
    transaction ([xask]).  A time in a session row is compared as it is stored;
    cookies, redirects and HTTP statuses are results of the handlers.

    ** Not modelled

    transport/httpapi (routing and encoding on gin), in infrastructure/platform
    the discovery, OAuth2 and ID token libraries, service tokens, the personnel
    directory and audit reports, the HTTP clients of integration/ below the dispatchers, config/ and cmd/ (start-up), the SQL of
    the migrations, the DOCX and PDF codecs, logs, metrics and the wording of reports.
    In the imports: the JSON of stored payloads and of requests (a payload is
    the value it encodes, and [ImportDigest] a function of such values), the size limit of responses, and the texts of rejected uploads.
    The invariants of Integrity are about the calls of the repository's own
    interface; confirming an import changes a status without a life cycle row,
    as the code does. *)

From stdpp Require Export base tactics decidable option list strings gmap.
From Stdlib Require Export ZArith Lia.
From Stdlib Require Import OrdersEx.

#[global] Open Scope Z_scope.

(** ** Errors

    Every sentinel error of the code that a caller can test with [errors.Is]
    is a constructor.  [fmt.Errorf("%w: ...", sentinel)] keeps the sentinel;
    the text of a message is not modelled.  [ErrStorage] is a failure reported
    by the database driver, [ErrDuplicatedKey] and [ErrRelationMissing] are MySQL's
    1062 and 1146, [ErrRecordNotFound] is gorm's "no row", and
    [ErrOther] is an error without a sentinel.  The error types of the imports
    carry the fields their callers read.  [ErrPanic] stands for a
    run-time panic. *)
Inductive goerr : Type :=
  | ErrInvalidStatus | ErrInvalidTransition
  | ErrInvalidNumberRule | ErrNumberExhausted | ErrNumberConflict
  | ErrPaymentTermsInvalid
  | ErrImportPolicy | ErrImportMixedLifecycle | ErrImportManifest
  | ErrImportCRMProvisionKey | ErrImportCRMProvisionState
  | ErrImportCRMProvisionAttempt | ErrImportCRMProvisionError
  | ErrInvalidExpression
  | ErrNotFound | ErrVersionConflict | ErrStateConflict
  | ErrValidation | ErrContractSourceConflict
  | ErrFinancialChangeApprovalRequired | ErrFinancialChangeCurrencyLocked
  | ErrFinancialChangeEventNotQueued | ErrForbidden | ErrImportUnsupported
  | ErrOpportunityLinkRejected | ErrCommercialLicense
  | ErrHandoverValidation | ErrHandoverConflict | ErrHandoverNotFound | ErrHandoverFrozen
  | ErrImportCorrectionRequired | ErrFinancialChangeDisabled
  | ErrApprovalTargetForbidden | ErrApprovalAssigneeUnavailable
  | ErrPersonnelDirectoryUnavailable | ErrApprovalWorkflowUnavailable
  | ErrDetectionCategoryDirectoryUnavailable | ErrCRMActorContextRequired
  | ErrCRMReferenceInvalid | ErrCRMReferenceDirectoryUnavailable
  | ErrLocalReferenceInvalid | ErrLocalCatalogUnavailable | ErrAlreadyStarted
  | ErrContractSummarySourceUnavailable
  | ErrImportConflict | ErrImportNeedsReview | ErrImportAutoApproveDisabled
  | ErrImportIdentityConflict (contractID itemID kind : string)
  | ErrImportProvision (field code : string) (retryable : bool) (message reason : string)
  | ErrCRMProvision (unavailable : bool) (code : string)
  | ErrProvisionOwnerNotFound | ErrProvisionOwnerAmbiguous | ErrProvisionOwnerDirectoryUnavailable
  | ErrCRMProvisionNotConfigured
  | ErrImportTargetWaiting | ErrImportTargetWait (code : string)
  | ErrImportTargetReceipt | ErrImportTargetHTTP (status : Z) (code : string)
  | ErrTemplateUploadPending | ErrTemplateUploadFailed | ErrTemplateUploadRejected
  | ErrUnauthenticated | ErrAuthorizationServiceUnavailable
  | ErrAuthorizationUnauthorized | ErrAuthorizationForbidden
  | ErrAuthorizationUnavailable | ErrAuthorizationInvalid
  | ErrRefreshTokenMissing | ErrRefreshTokenRejected
  | ErrInactive | ErrUnavailable | ErrBindingConflict
  | ErrRecordNotFound | ErrDuplicatedKey | ErrRelationMissing
  | ErrStorage | ErrPanic | ErrOther.

#[export] Instance goerr_eq_dec : EqDecision goerr.
Proof. solve_decision. Defined.

(** A Go call that returns [(A, error)]. *)
Inductive res (A : Type) : Type :=
  | Ok (a : A)
  | Err (e : goerr).
Arguments Ok {_} _.
Arguments Err {_} _.

#[export] Instance res_ret : MRet res := λ A a, Ok a.
#[export] Instance res_bind : MBind res := λ A B f m,
  match m with Ok a => f a | Err e => Err e end.
#[export] Instance res_eq_dec {A} `{EqDecision A} : EqDecision (res A).
Proof. solve_decision. Defined.

(** [if cond { return err }]. *)
Definition fail_if (b : bool) (e : goerr) : res unit :=
  if b then Err e else Ok tt.

Definition is_ok {A} (r : res A) : bool :=
  match r with Ok _ => true | Err _ => false end.

Lemma bind_ok {A B} (f : A → res B) (m : res A) (b : B) :
  (m ≫= f) = Ok b ↔ ∃ a, m = Ok a ∧ f a = Ok b.
Proof. destruct m; simpl; naive_solver. Qed.

Lemma fail_if_ok (b : bool) (e : goerr) (u : unit) :
  fail_if b e = Ok u ↔ b = false.
Proof. destruct b, u; naive_solver. Qed.

Lemma fail_if_pass (b : bool) (e : goerr) : b = false → fail_if b e = Ok tt.
Proof. by intros ->. Qed.
Lemma fail_if_fail (b : bool) (e : goerr) : b = true → fail_if b e = Err e.
Proof. by intros ->. Qed.

Lemma bind_err {A B} (f : A → res B) (m : res A) e :
  (m ≫= f) = Err e ↔ m = Err e ∨ ∃ a, m = Ok a ∧ f a = Err e.
Proof. destruct m; simpl; naive_solver. Qed.
Lemma fail_if_err (b : bool) (e e' : goerr) : fail_if b e = Err e' ↔ b = true ∧ e = e'.
Proof. destruct b; naive_solver. Qed.

(** [inv_err H] enumerates the steps that can have failed. *)
Ltac inv_err H :=
  repeat match type of H with
  | (_ ≫= _) = Err _ =>
      let a := fresh "v" in let Ha := fresh "Hv" in
      apply bind_err in H as [H | (a & Ha & H)]
  | fail_if _ _ = Err _ => apply fail_if_err in H as [? H]; subst
  | Err _ = Err _ => injection H as H; subst
  | Ok _ = Err _ => discriminate H
  | mret _ = Err _ => discriminate H
  end.

Lemma bind_pass {A} b e (f : unit → res A) :
  b = false → (fail_if b e ≫= f) = f tt.
Proof. by intros ->. Qed.
Lemma bind_fail {A} b e (f : unit → res A) :
  b = true → (fail_if b e ≫= f) = Err e.
Proof. by intros ->. Qed.

(** Run the first guard of the computation on the left of the goal: it does
    not stop ([pass]) or it does ([refuse]); [tac] proves its condition. *)
Tactic Notation "pass" "by" tactic3(tac) :=
  lazymatch goal with
  | |- (fail_if ?b ?e ≫= ?f) = _ =>
      rewrite (bind_pass b e f) by tac; cbv beta
  end.
Tactic Notation "refuse" "by" tactic3(tac) :=
  lazymatch goal with
  | |- (fail_if ?b ?e ≫= ?f) = _ =>
      rewrite (bind_fail b e f) by tac; cbv beta
  end.

(** [inv_ok H] turns a successful computation into the facts its guards
    established. *)
Ltac inv_ok H :=
  repeat match type of H with
  | (_ ≫= _) = Ok _ =>
      let a := fresh "v" in let Ha := fresh "Hv" in
      apply bind_ok in H as (a & Ha & H); try inv_ok Ha
  | fail_if _ _ = Ok _ => apply fail_if_ok in H
  | Ok _ = Ok _ => injection H as H; subst
  | Err _ = Ok _ => discriminate H
  | mret _ = Ok _ => unfold mret, res_ret in H
  end.

(** A loop that applies a fallible function to every element, and stops at the
    first error. *)
Section MapRes.
Context {A B : Type} (f : A → res B).

Fixpoint map_res (l : list A) : res (list B) :=
  match l with
  | [] => Ok []
  | x :: rest => y ← f x; ys ← map_res rest; Ok (y :: ys)
  end.

End MapRes.

(** A loop that updates an accumulator and stops at the first error. *)
Section FoldRes.
Context {S A : Type} (f : S → A → res S).

Fixpoint fold_res (s : S) (l : list A) : res S :=
  match l with
  | [] => Ok s
  | x :: rest => s' ← f s x; fold_res s' rest
  end.

End FoldRes.

(** When every step either fails with [e] or gives [g x], depending on a test
    [ok], so does the loop. *)
Lemma map_res_spec {A B} (f : A → res B) (ok : A → bool) (g : A → B) e l :
  (∀ x, x ∈ l → f x = if ok x then Ok (g x) else Err e) →
  map_res f l = if forallb ok l then Ok (map g l) else Err e.
Proof.
  induction l as [|x l IH]; [done|]. intros H. cbn [map_res forallb map].
  rewrite (H x) by set_solver. destruct (ok x); [|done]. cbn [mbind res_bind andb].
  rewrite IH by (intros y Hy; apply H; set_solver). by destruct (forallb ok l).
Qed.

(** ** Booleans *)

Ltac bool_hyps :=
  repeat match goal with
  | H : _ && _ = true |- _ => apply andb_true_iff in H as [? ?]
  | H : _ || _ = false |- _ => apply orb_false_iff in H as [? ?]
  | H : negb _ = true |- _ => apply negb_true_iff in H
  | H : negb _ = false |- _ => apply negb_false_iff in H
  | H : bool_decide _ = true |- _ => apply bool_decide_eq_true_1 in H
  | H : bool_decide _ = false |- _ => apply bool_decide_eq_false_1 in H
  | H : (_ <? _) = true |- _ => apply Z.ltb_lt in H
  | H : (_ <? _) = false |- _ => apply Z.ltb_ge in H
  | H : (_ <=? _) = true |- _ => apply Z.leb_le in H
  | H : (_ <=? _) = false |- _ => apply Z.leb_gt in H
  | H : (_ =? _) = true |- _ => apply Z.eqb_eq in H
  | H : (_ =? _) = false |- _ => apply Z.eqb_neq in H
  end.

(** The same, with a case for each way a conjunction or disjunction holds. *)
Ltac bool_cases :=
  repeat (bool_hyps; match goal with
  | H : _ || _ = true |- _ => apply orb_true_iff in H as [H|H]
  | H : _ && _ = false |- _ => apply andb_false_iff in H as [H|H]
  end); bool_hyps.

(** Prove that a test of integers is false (or true) by refuting the other. *)
Ltac bool_lia :=
  try match goal with
  | |- false = _ => symmetry
  | |- true = _ => symmetry
  end;
  match goal with
  | |- ?b = false => destruct b eqn:?; [exfalso; bool_cases; lia|reflexivity]
  | |- ?b = true => destruct b eqn:?; [reflexivity|exfalso; bool_cases; lia]
  end.

(** String equality as the code's [==]. *)
Definition streq (a b : string) : bool := bool_decide (a = b).
Infix "=s" := streq (at level 70).

Lemma streq_true a b : (a =s b) = true ↔ a = b.
Proof. apply bool_decide_eq_true. Qed.
Lemma streq_false a b : (a =s b) = false ↔ a ≠ b.
Proof. apply bool_decide_eq_false. Qed.
Lemma streq_refl a : (a =s a) = true.
Proof. by apply streq_true. Qed.

(** Decide the comparisons of literals in the goal or a hypothesis. *)
Ltac eval_streq :=
  repeat match goal with
  | |- context [streq ?a ?b] =>
      let v := eval vm_compute in (streq a b) in
      match v with
      | true => change (streq a b) with true
      | false => change (streq a b) with false
      end
  | H : context [streq ?a ?b] |- _ =>
      let v := eval vm_compute in (streq a b) in
      match v with
      | true => change (streq a b) with true in H
      | false => change (streq a b) with false in H
      end
  end.

(** [s == ""]. *)
Definition empty_str (s : string) : bool := s =s "".

(** A [for ... if x == target return true] loop over a slice of strings. *)
Definition contains (values : list string) (target : string) : bool :=
  existsb (λ v, v =s target) values.

Lemma contains_spec values target :
  contains values target = true ↔ target ∈ values.
Proof.
  unfold contains. rewrite existsb_exists. split.
  - intros (x & Hx & He). apply streq_true in He as ->. by apply list_elem_of_In.
  - intros H. exists target. split; [by apply list_elem_of_In | apply streq_refl].
Qed.

Lemma contains_false values target :
  contains values target = false ↔ target ∉ values.
Proof. rewrite <- contains_spec. by destruct (contains values target). Qed.

(** ** Machine integers *)

Definition int64_max : Z := 2 ^ 63 - 1.
Definition int64_min : Z := - 2 ^ 63.
Definition uint64_max : Z := 2 ^ 64 - 1.

(** Two's complement wrap-around of a 64-bit signed result. *)
Definition wrap_int64 (z : Z) : Z := (z + 2 ^ 63) mod 2 ^ 64 - 2 ^ 63.

Definition in_int64 (z : Z) : Prop := int64_min ≤ z ≤ int64_max.

Lemma wrap_int64_id z : in_int64 z → wrap_int64 z = z.
Proof.
  unfold in_int64, int64_min, int64_max, wrap_int64. intros H.
  rewrite Z.mod_small; lia.
Qed.

(** ** Lists *)

(** A loop that keeps the first occurrence of every value accepted so far. *)
Fixpoint dedup_from (seen values : list string) : list string :=
  match values with
  | [] => []
  | v :: rest =>
      if empty_str v || contains seen v then dedup_from seen rest
      else v :: dedup_from (v :: seen) rest
  end.

Lemma dedup_from_elem seen values x :
  x ∈ dedup_from seen values ↔ x ∈ values ∧ x ≠ "" ∧ x ∉ seen.
Proof.
  revert seen. induction values as [|v rest IH]; intros seen; simpl; [set_solver|].
  destruct (empty_str v) eqn:He; simpl.
  { apply streq_true in He as ->. rewrite IH. set_solver. }
  apply streq_false in He.
  destruct (contains seen v) eqn:Hc.
  - apply contains_spec in Hc. rewrite IH. set_solver.
  - apply contains_false in Hc. rewrite !elem_of_cons, IH. 
    destruct (decide (x = v)); set_solver.
Qed.

Lemma dedup_from_nodup seen values : NoDup (dedup_from seen values).
Proof.
  revert seen. induction values as [|v rest IH]; intros seen; simpl; [constructor|].
  destruct (_ || _); [apply IH|].
  constructor; [|apply IH]. rewrite dedup_from_elem. set_solver.
Qed.

Lemma dedup_from_id seen values :
  NoDup values → "" ∉ values → (∀ x, x ∈ values → x ∉ seen) →
  dedup_from seen values = values.
Proof.
  revert seen. induction values as [|v rest IH]; intros seen Hnd He Hs; simpl; [done|].
  apply NoDup_cons in Hnd as [Hv Hnd].
  replace (empty_str v) with false by (symmetry; apply streq_false; set_solver).
  replace (contains seen v) with false by (symmetry; apply contains_false; set_solver).
  simpl. f_equal. apply IH; set_solver.
Qed.

(** Filters that keep everything or nothing. *)
Section Filters.
Context {A : Type} (P : A → Prop) `{!∀ x, Decision (P x)}.

Lemma filter_all (l : list A) : Forall P l → filter P l = l.
Proof. induction 1 as [|x l Hx _ IH]; [done|]. by rewrite filter_cons_True, IH. Qed.
Lemma filter_none (l : list A) : Forall (λ x, ¬ P x) l → filter P l = [].
Proof. induction 1 as [|x l Hx _ IH]; [done|]. by rewrite filter_cons_False. Qed.
Lemma filter_every (l : list A) : (∀ x, x ∈ l → P x) → filter P l = l.
Proof. intros Hl. by apply filter_all, Forall_forall. Qed.
Lemma filter_nothing (l : list A) : (∀ x, x ∈ l → ¬ P x) → filter P l = [].
Proof. intros Hl. by apply filter_none, Forall_forall. Qed.

End Filters.

(** ** The order of texts *)

#[local] Open Scope string_scope.

Lemma ltb_spec a b : String.ltb a b = true ↔ String.compare a b = Lt.
Proof. unfold String.ltb. destruct (String.compare a b); naive_solver. Qed.
Lemma leb_spec a b : String.leb a b = true ↔ a = b ∨ String.compare a b = Lt.
Proof.
  unfold String.leb. destruct (String.compare a b) eqn:E.
  - apply String.compare_eq_iff in E. naive_solver.
  - naive_solver.
  - split; [done|]. intros [->|]; [|done].
    destruct (String.leb_total b b) as [Hb|Hb]; unfold String.leb in Hb; by rewrite E in Hb.
Qed.
Lemma ltb_trans a b c : String.ltb a b = true → String.ltb b c = true → String.ltb a c = true.
Proof. rewrite !ltb_spec. apply String_as_OT.lt_strorder. Qed.
Lemma ltb_irrefl a : String.ltb a a = false.
Proof.
  destruct (String.ltb a a) eqn:E; [|done]. apply ltb_spec in E.
  by apply (StrictOrder_Irreflexive (R := String_as_OT.lt)) in E.
Qed.
Lemma leb_trans a b c : String.leb a b = true → String.leb b c = true → String.leb a c = true.
Proof.
  rewrite !leb_spec. intros [->|H1] [->|H2]; auto. right.
  by eapply (StrictOrder_Transitive (R := String_as_OT.lt)).
Qed.
Lemma leb_ltb a b : String.leb a b = true → a ≠ b → String.ltb a b = true.
Proof. rewrite leb_spec, ltb_spec. naive_solver. Qed.
Lemma ltb_leb a b : String.ltb a b = true → String.leb a b = true.
Proof. rewrite leb_spec, ltb_spec. auto. Qed.
(** After a common length the rest decides. *)
Lemma compare_app a b s t :
  String.length a = String.length b →
  String.compare (a +:+ s) (b +:+ t) =
    match String.compare a b with Eq => String.compare s t | c => c end.
Proof.
  revert b. induction a as [|x a IH]; intros [|y b]; try discriminate; [done|].
  intros [= El]. change (String x a +:+ s) with (String x (a +:+ s)).
  change (String y b +:+ t) with (String y (b +:+ t)). cbn [String.compare].
  destruct (Ascii.compare x y); [by apply IH|done..].
Qed.

(** The shared hint databases: [cm] for side conditions of the components,
    [cm_rw] for the rewriting rules that normalise their definitions. *)
Create HintDb cm.
Create Rewrite HintDb cm_rw.
#[export] Hint Resolve streq_refl : cm.
#[export] Hint Rewrite streq_true streq_false contains_spec contains_false
  fail_if_ok : cm_rw.
