(* ===== verification/GoStrings.v ===== *)
(** * Go strings

    Byte strings with the operations of the Go standard library the code uses:
    [strings.TrimSpace], [strings.ToUpper], [strings.Split], UTF-8 decoding of
    [for range] loops and [[]rune(s)], decimal formatting and
    [strconv.ParseInt].  A Go string is a sequence of bytes, so it is modelled
    by [string] (a list of 8-bit characters); a literal of the source denotes
    its UTF-8 bytes. *)

From Stdlib Require Import Ascii.
From S2P Require Import Prelude.

#[local] Open Scope string_scope.
#[local] Open Scope Z_scope.

Abbreviation byte := Ascii.ascii.

Definition code (c : byte) : Z := Z.of_N (Ascii.N_of_ascii c).
Definition chr (z : Z) : byte := Ascii.ascii_of_N (Z.to_N z).

Abbreviation bytes := String.list_ascii_of_string.
Abbreviation of_bytes := String.string_of_list_ascii.

Lemma code_range c : 0 ≤ code c < 256.
Proof. unfold code. pose proof (Ascii.N_ascii_bounded c). lia. Qed.

Lemma chr_code c : chr (code c) = c.
Proof. unfold chr, code. rewrite N2Z.id. apply Ascii.ascii_N_embedding. Qed.

Lemma code_chr z : 0 ≤ z < 256 → code (chr z) = z.
Proof.
  intros H. unfold chr, code.
  rewrite Ascii.N_ascii_embedding; [apply Z2N.id; lia | lia].
Qed.

(** [len(s)]. *)
Definition slen (s : string) : Z := Z.of_nat (String.length s).

Lemma bytes_of_bytes l : bytes (of_bytes l) = l.
Proof. apply String.list_ascii_of_string_of_list_ascii. Qed.
Lemma of_bytes_bytes s : of_bytes (bytes s) = s.
Proof. apply String.string_of_list_ascii_of_string. Qed.
Lemma bytes_inj a b : bytes a = bytes b → a = b.
Proof. intros H. by rewrite <- (of_bytes_bytes a), H, of_bytes_bytes. Qed.
Lemma length_bytes s : length (bytes s) = String.length s.
Proof. induction s; simpl; auto. Qed.
Lemma slen_of_bytes l : slen (of_bytes l) = Z.of_nat (length l).
Proof. unfold slen. by rewrite <- length_bytes, bytes_of_bytes. Qed.
Lemma bytes_app a b : bytes (a +:+ b) = (bytes a ++ bytes b)%list.
Proof. induction a as [|c a IH]; [done|]. change (c :: bytes (a +:+ b) = c :: (bytes a ++ bytes b)%list). by rewrite IH. Qed.
Lemma of_bytes_app a b : of_bytes (a ++ b)%list = of_bytes a +:+ of_bytes b.
Proof. apply bytes_inj. by rewrite bytes_app, !bytes_of_bytes. Qed.
Lemma slen_app a b : slen (a +:+ b) = slen a + slen b.
Proof.
  unfold slen. rewrite <- !length_bytes, bytes_app, length_app. lia.
Qed.
Lemma slen_nonneg s : 0 ≤ slen s.
Proof. unfold slen. lia. Qed.

Create Rewrite HintDb go_str.
#[export] Hint Rewrite bytes_of_bytes of_bytes_bytes bytes_app of_bytes_app
  slen_app slen_of_bytes : go_str.

(** ** White space

    [unicode.IsSpace] accepts U+0009..U+000D, U+0020, U+0085, U+00A0, U+1680,
    U+2000..U+200A, U+2028, U+2029, U+202F, U+205F and U+3000.  The first five
    groups have one or two UTF-8 bytes, the others three. *)
Definition space1 (b : byte) : bool :=
  ((9 <=? code b) && (code b <=? 13)) || (code b =? 32).
Definition space2 (b c : byte) : bool :=
  (code b =? 0xC2) && ((code c =? 0x85) || (code c =? 0xA0)).
Definition space3 (b c d : byte) : bool :=
  ((code b =? 0xE1) && (code c =? 0x9A) && (code d =? 0x80)) ||
  ((code b =? 0xE2) && (code c =? 0x80) &&
     (((0x80 <=? code d) && (code d <=? 0x8A)) ||
      (code d =? 0xA8) || (code d =? 0xA9) || (code d =? 0xAF))) ||
  ((code b =? 0xE2) && (code c =? 0x81) && (code d =? 0x9F)) ||
  ((code b =? 0xE3) && (code c =? 0x80) && (code d =? 0x80)).

Section Trim.
Variable s2 : byte → byte → bool.
Variable s3 : byte → byte → byte → bool.

(** Drop encoded spaces from the front. *)
Fixpoint drop_spaces (l : list byte) : list byte :=
  match l with
  | [] => []
  | b :: l1 =>
      if space1 b then drop_spaces l1
      else match l1 with
           | [] => l
           | c :: l2 =>
               if s2 b c then drop_spaces l2
               else match l2 with
                    | [] => l
                    | d :: l3 => if s3 b c d then drop_spaces l3 else l
                    end
           end
  end.

(** No space is encoded at the front. *)
Definition settled (l : list byte) : bool :=
  match l with
  | [] => true
  | b :: l1 =>
      negb (space1 b) &&
      match l1 with
      | [] => true
      | c :: l2 =>
          negb (s2 b c) &&
          match l2 with [] => true | d :: _ => negb (s3 b c d) end
      end
  end.

Lemma drop_settled l : settled l = true → drop_spaces l = l.
Proof.
  destruct l as [|b [|c [|d l]]]; simpl; intros H; bool_hyps;
    repeat match goal with E : _ = false |- _ => rewrite E; clear E end; done.
Qed.

Lemma settled_drop_n n l : (length l ≤ n)%nat → settled (drop_spaces l) = true.
Proof.
  revert l. induction n as [|n IH]; intros l Hn.
  { destruct l; [done | simpl in Hn; lia]. }
  destruct l as [|b l]; [done|]. cbn.
  destruct (space1 b) eqn:E1; [apply IH; simpl in Hn; lia|].
  destruct l as [|c l]; [cbn; by rewrite E1|].
  destruct (s2 b c) eqn:E2; [apply IH; simpl in Hn; lia|].
  destruct l as [|d l]; [cbn; by rewrite E1, E2|].
  destruct (s3 b c d) eqn:E3; [apply IH; simpl in Hn; lia|].
  cbn. by rewrite E1, E2, E3.
Qed.

Lemma settled_drop l : settled (drop_spaces l) = true.
Proof. by apply (settled_drop_n (length l)). Qed.

Lemma settled_prefix l k : settled (l ++ k) = true → settled l = true.
Proof.
  destruct l as [|b [|c [|d l]]]; simpl; auto; intros H; bool_hyps;
    repeat (apply andb_true_iff; split); auto using negb_true_iff;
    repeat match goal with E : _ = false |- _ => rewrite E; clear E end; done.
Qed.

Lemma drop_suffix_n n l : (length l ≤ n)%nat → ∃ p, l = (p ++ drop_spaces l)%list.
Proof.
  revert l. induction n as [|n IH]; intros l Hn.
  { destruct l; [by exists [] | simpl in Hn; lia]. }
  destruct l as [|b l]; [by exists []|]. cbn.
  destruct (space1 b) eqn:E1.
  { destruct (IH l) as [p Hp]; [simpl in Hn; lia|].
    exists (b :: p). simpl. by f_equal. }
  destruct l as [|c l]; [by exists []|].
  destruct (s2 b c) eqn:E2.
  { destruct (IH l) as [p Hp]; [simpl in Hn; lia|].
    exists (b :: c :: p). simpl. by do 2 f_equal. }
  destruct l as [|d l]; [by exists []|].
  destruct (s3 b c d) eqn:E3; [|by exists []].
  destruct (IH l) as [p Hp]; [simpl in Hn; lia|].
  exists (b :: c :: d :: p). simpl. by do 3 f_equal.
Qed.

Lemma drop_suffix l : ∃ p, l = (p ++ drop_spaces l)%list.
Proof. by apply (drop_suffix_n (length l)). Qed.
End Trim.

Definition trim_left : list byte → list byte := drop_spaces space2 space3.
(** From the back the bytes of an encoded space come in reverse order. *)
Definition trim_right (l : list byte) : list byte :=
  rev (drop_spaces (λ c b, space2 b c) (λ d c b, space3 b c d) (rev l)).

(** [strings.TrimSpace]. *)
Definition TrimSpace (s : string) : string :=
  of_bytes (trim_right (trim_left (bytes s))).

(** The string has no white space at either end. *)
Definition trimmed (s : string) : bool :=
  settled space2 space3 (bytes s) &&
  settled (λ c b, space2 b c) (λ d c b, space3 b c d) (rev (bytes s)).

Lemma TrimSpace_trimmed s : trimmed (TrimSpace s) = true.
Proof.
  unfold trimmed, TrimSpace, trim_right. rewrite bytes_of_bytes, rev_involutive.
  apply andb_true_iff; split; [|apply settled_drop].
  set (l := trim_left (bytes s)).
  destruct (drop_suffix (λ c b, space2 b c) (λ d c b, space3 b c d) (rev l)) as [p Hp].
  apply (settled_prefix _ _ _ (rev p)).
  rewrite <- rev_app_distr, <- Hp, rev_involutive. apply settled_drop.
Qed.

Lemma TrimSpace_id s : trimmed s = true → TrimSpace s = s.
Proof.
  unfold trimmed, TrimSpace, trim_right, trim_left. intros [H1 H2]%andb_true_iff.
  rewrite (drop_settled _ _ _ H1), (drop_settled _ _ _ H2).
  by rewrite rev_involutive, of_bytes_bytes.
Qed.

Lemma TrimSpace_idemp s : TrimSpace (TrimSpace s) = TrimSpace s.
Proof. apply TrimSpace_id, TrimSpace_trimmed. Qed.

(** Visible ASCII characters are no spaces. *)
Lemma trimmed_visible s :
  Forall (λ c, 32 < code c < 128) (bytes s) → trimmed s = true.
Proof.
  assert (∀ c, 32 < code c < 128 → space1 c = false ∧ (∀ d, space2 c d = false) ∧
    (∀ d, space2 d c = false) ∧ (∀ d e, space3 c d e = false) ∧
    (∀ d e, space3 d e c = false)) as Hc.
  { intros c Hc. unfold space1, space2, space3. split_and!; intros; bool_lia. }
  intros H. unfold trimmed. apply andb_true_iff; split.
  - destruct (bytes s) as [|b [|c [|d l]]]; cbn; [done| | |];
      repeat match goal with H : Forall _ (_ :: _) |- _ =>
        apply Forall_cons_1 in H as [?%Hc H]; destruct_and! end;
      repeat match goal with E : _ |- _ => rewrite E end; done.
  - apply Forall_rev in H. destruct (rev (bytes s)) as [|b [|c [|d l]]]; cbn; [done| | |];
      repeat match goal with H : Forall _ (_ :: _) |- _ =>
        apply Forall_cons_1 in H as [?%Hc H]; destruct_and! end;
      repeat match goal with E : _ |- _ => rewrite E end; done.
Qed.

#[export] Hint Resolve TrimSpace_trimmed : cm.
#[export] Hint Rewrite TrimSpace_idemp : cm_rw.

(** ** UTF-8

    [utf8.DecodeRune]: the accepted ranges of the second byte follow its
    table; a byte that starts no valid encoding yields U+FFFD and advances by
    one. *)
Definition cont (c : byte) : bool := (0x80 <=? code c) && (code c <=? 0xBF).
Definition within (lo hi : Z) (c : byte) : bool := (lo <=? code c) && (code c <=? hi).

Definition enc2 (b c : byte) : bool := within 0xC2 0xDF b && cont c.
Definition enc3 (b c d : byte) : bool :=
  (((code b =? 0xE0) && within 0xA0 0xBF c) ||
   ((within 0xE1 0xEC b || within 0xEE 0xEF b) && cont c) ||
   ((code b =? 0xED) && within 0x80 0x9F c)) && cont d.
Definition enc4 (b c d e : byte) : bool :=
  (((code b =? 0xF0) && within 0x90 0xBF c) ||
   (within 0xF1 0xF3 b && cont c) ||
   ((code b =? 0xF4) && within 0x80 0x8F c)) && cont d && cont e.

Definition rune_error : Z := 0xFFFD.
Definition rune2 (b c : byte) : Z := (code b - 0xC0) * 64 + (code c - 0x80).
Definition rune3 (b c d : byte) : Z :=
  (code b - 0xE0) * 4096 + (code c - 0x80) * 64 + (code d - 0x80).
Definition rune4 (b c d e : byte) : Z :=
  (code b - 0xF0) * 262144 + (code c - 0x80) * 4096 + (code d - 0x80) * 64 + (code e - 0x80).

(** [[]rune(s)], the values of [for _, char := range s]. *)
Fixpoint runes_of (l : list byte) : list Z :=
  match l with
  | [] => []
  | b :: l1 =>
      if code b <? 0x80 then code b :: runes_of l1
      else match l1 with
      | [] => rune_error :: runes_of l1
      | c :: l2 =>
          if enc2 b c then rune2 b c :: runes_of l2
          else match l2 with
          | [] => rune_error :: runes_of l1
          | d :: l3 =>
              if enc3 b c d then rune3 b c d :: runes_of l3
              else match l3 with
              | [] => rune_error :: runes_of l1
              | e :: l4 =>
                  if enc4 b c d e then rune4 b c d e :: runes_of l4
                  else rune_error :: runes_of l1
              end
          end
      end
  end.

Definition runes (s : string) : list Z := runes_of (bytes s).
(** [len([]rune(s))]. *)
Definition rune_count (s : string) : Z := Z.of_nat (length (runes s)).

(** Only ASCII runes: every byte is its own rune. *)
Lemma runes_of_ascii l :
  Forall (λ r, r < 0x80) (runes_of l) → runes_of l = map code l.
Proof.
  assert (∀ n l, (length l ≤ n)%nat → Forall (λ r, r < 0x80) (runes_of l) →
            runes_of l = map code l) as Hn; [|by apply (Hn (length l))].
  clear l. induction n as [|n IH]; intros [|b l]; simpl; try done; [lia|].
  intros Hlen. unfold rune_error.
  destruct (code b <? 0x80) eqn:Eb.
  { intros H. apply Forall_cons_1 in H as [_ H]. f_equal. apply IH; [lia|done]. }
  destruct l as [|c l]; [by intros H; apply Forall_cons_1 in H as [? _]; lia|].
  destruct (enc2 b c) eqn:E2.
  { intros H. apply Forall_cons_1 in H as [H _].
    unfold enc2, within, cont, rune2 in *. bool_hyps. lia. }
  destruct l as [|d l]; [by intros H; apply Forall_cons_1 in H as [? _]; lia|].
  destruct (enc3 b c d) eqn:E3.
  { intros H. apply Forall_cons_1 in H as [H _].
    unfold enc3, within, cont, rune3 in *. bool_hyps. 
    repeat match goal with E : _ || _ = true |- _ => apply orb_true_iff in E as [?|?] end;
      bool_hyps; lia. }
  destruct l as [|e l]; [by intros H; apply Forall_cons_1 in H as [? _]; lia|].
  destruct (enc4 b c d e) eqn:E4; [|by intros H; apply Forall_cons_1 in H as [? _]; lia].
  intros H. apply Forall_cons_1 in H as [H _].
  unfold enc4, within, cont, rune4 in *. bool_hyps.
  repeat match goal with E : _ || _ = true |- _ => apply orb_true_iff in E as [?|?] end;
    bool_hyps; lia.
Qed.

Lemma runes_of_ascii_bytes l :
  Forall (λ c, code c < 0x80) l → runes_of l = map code l.
Proof.
  induction l as [|b l IH]; [done|]. intros [Hb Hl]%Forall_cons_1. simpl.
  replace (code b <? 0x80) with true by (symmetry; apply Z.ltb_lt; lia).
  f_equal. by apply IH.
Qed.

Lemma length_runes_of l : (length (runes_of l) ≤ length l)%nat.
Proof.
  assert (∀ n l, (length l ≤ n)%nat → (length (runes_of l) ≤ length l)%nat) as Hn;
    [|by apply (Hn (length l))].
  clear l. induction n as [|n IH]; intros [|b l]; simpl; try lia. intros Hlen.
  pose proof (IH l ltac:(lia)) as Hl.
  destruct (code b <? 0x80); [simpl; lia|].
  destruct l as [|c l]; [simpl; lia|].
  pose proof (IH l ltac:(simpl in *; lia)).
  destruct (enc2 b c); [simpl in *; lia|].
  destruct l as [|d l]; [simpl in *; lia|].
  pose proof (IH l ltac:(simpl in *; lia)).
  destruct (enc3 b c d); [simpl in *; lia|].
  destruct l as [|e l]; [simpl in *; lia|].
  pose proof (IH l ltac:(simpl in *; lia)).
  destruct (enc4 b c d e); simpl in *; lia.
Qed.

Lemma rune_count_le s : rune_count s ≤ slen s.
Proof.
  unfold rune_count, runes, slen. rewrite <- length_bytes.
  pose proof (length_runes_of (bytes s)). lia.
Qed.

(** ** Letter case

    On ASCII strings the mapping is explicit.  The case tables of the
    [unicode] package are generated data: for a string with a byte above 127
    the result is the parameter [upper_wide] (or [lower_wide], [fold_wide]). *)
Class GoUnicode := {
  upper_wide : string → string;
  lower_wide : string → string;
  fold_wide : string → string → bool;
}.

Definition is_ascii (s : string) : bool := forallb (λ c, code c <? 0x80) (bytes s).
Definition upper_byte (c : byte) : byte :=
  if within 97 122 c then chr (code c - 32) else c.
Definition lower_byte (c : byte) : byte :=
  if within 65 90 c then chr (code c + 32) else c.

Definition ToUpper `{GoUnicode} (s : string) : string :=
  if is_ascii s then of_bytes (map upper_byte (bytes s)) else upper_wide s.
Definition ToLower `{GoUnicode} (s : string) : string :=
  if is_ascii s then of_bytes (map lower_byte (bytes s)) else lower_wide s.
(** [strings.EqualFold]. *)
Definition EqualFold `{GoUnicode} (a b : string) : bool :=
  if is_ascii a && is_ascii b then ToLower a =s ToLower b else fold_wide a b.

Lemma EqualFold_refl_ascii `{GoUnicode} a : is_ascii a = true → EqualFold a a = true.
Proof. intros Ha. unfold EqualFold. rewrite Ha. simpl. apply streq_refl. Qed.

(** A concrete instance, used to evaluate the definitions. *)
Definition ascii_unicode : GoUnicode :=
  {| upper_wide := λ s, s; lower_wide := λ s, s; fold_wide := streq |}.

(** ** Prefixes and splitting *)

(** [strings.HasPrefix]. *)
Definition HasPrefix (s p : string) : bool := String.prefix p s.

(** [strings.Split(s, sep)] for a one-byte separator. *)
Fixpoint split_bytes (sep : byte) (l : list byte) : list (list byte) :=
  match l with
  | [] => [[]]
  | c :: l1 =>
      if bool_decide (c = sep) then [] :: split_bytes sep l1
      else match split_bytes sep l1 with
           | h :: t => (c :: h) :: t
           | [] => [[c]]
           end
  end.

Lemma split_bytes_none sep l : sep ∉ l → split_bytes sep l = [l].
Proof.
  induction l as [|c l IH]; [done|]. intros [Hc Hl]%not_elem_of_cons. simpl.
  rewrite bool_decide_false by congruence. by rewrite IH.
Qed.

Lemma split_bytes_app sep a b :
  sep ∉ a → split_bytes sep (a ++ sep :: b) = a :: split_bytes sep b.
Proof.
  induction a as [|c a IH]; simpl.
  - intros _. by rewrite bool_decide_true.
  - intros [Hc Hl]%not_elem_of_cons. rewrite bool_decide_false by congruence.
    by rewrite IH.
Qed.

Lemma split_bytes_nonempty sep l : split_bytes sep l ≠ [].
Proof.
  destruct l as [|c l]; simpl; [done|]. destruct (bool_decide _); [done|].
  by destruct (split_bytes sep l).
Qed.
