(* ===== verification/Decimal.v ===== *)
(** * Decimal numerals

    [strconv.Itoa]/[%d], zero-padded [%0*d], and [strconv.ParseInt(s, 10, 64)],
    with the facts the components share: a printed numeral denotes its number,
    has the expected length, and parses back. *)

From Stdlib Require Import Ascii.
From S2P Require Import Prelude GoStrings.

#[local] Open Scope Z_scope.

(** Decimal digits, most significant first; [fuel] bounds their number. *)
Fixpoint digits (fuel : nat) (n : Z) : list Z :=
  match fuel with
  | O => []
  | S f => if n <? 10 then [n] else digits f (n / 10) ++ [n mod 10]
  end.

Definition value (ds : list Z) : Z := fold_left (λ acc d, acc * 10 + d) ds 0.

Definition digit_char (d : Z) : byte := chr (48 + d).
Definition is_digit (c : byte) : bool := within 48 57 c.
Definition digit_val (c : byte) : Z := code c - 48.

(** 64-bit numbers have at most 20 digits. *)
Definition dec (n : Z) : list byte := map digit_char (digits 20 n).
(** [fmt.Sprintf("%0*d", width, n)] for [n >= 0]. *)
Definition dec_pad (width n : Z) : list byte :=
  let ds := dec n in
  replicate (Z.to_nat width - length ds) (digit_char 0) ++ ds.
(** [strconv.Itoa] and [%d]. *)
Definition Itoa (n : Z) : string :=
  of_bytes (if n <? 0 then chr 45 :: dec (- n) else dec n).

Lemma value_app ds d : value (ds ++ [d]) = value ds * 10 + d.
Proof. unfold value. by rewrite fold_left_app. Qed.

Lemma value_digits fuel n : 0 ≤ n < 10 ^ Z.of_nat fuel → value (digits fuel n) = n.
Proof.
  revert n. induction fuel as [|f IH]; intros n Hn.
  { change (10 ^ Z.of_nat 0) with 1 in Hn. unfold value. simpl. lia. }
  cbn [digits]. destruct (n <? 10) eqn:E; bool_hyps; [unfold value; simpl; lia|].
  rewrite value_app, IH.
  - pose proof (Z.div_mod n 10). lia.
  - rewrite Nat2Z.inj_succ, Z.pow_succ_r in Hn by lia. split.
    + apply Z.div_pos; lia.
    + apply Z.div_lt_upper_bound; lia.
Qed.

Lemma digits_range fuel n :
  0 ≤ n → Forall (λ d, 0 ≤ d < 10) (digits fuel n).
Proof.
  revert n. induction fuel as [|f IH]; intros n Hn; cbn [digits]; [constructor|].
  destruct (n <? 10) eqn:E; bool_hyps; [repeat constructor; lia|].
  apply Forall_app; split; [apply IH, Z.div_pos; lia|].
  repeat constructor; pose proof (Z.mod_pos_bound n 10); lia.
Qed.

Lemma length_digits fuel k n :
  (1 ≤ k)%nat → 0 ≤ n < 10 ^ Z.of_nat k → (length (digits fuel n) ≤ k)%nat.
Proof.
  revert k n. induction fuel as [|f IH]; intros k n Hk Hn; cbn [digits]; [simpl; lia|].
  destruct (n <? 10) eqn:E; bool_hyps; [simpl; lia|].
  rewrite length_app. simpl. destruct k as [|[|k]]; [lia| |].
  { change (10 ^ Z.of_nat 1) with 10 in Hn. lia. }
  assert (length (digits f (n / 10)) ≤ S k)%nat; [|lia].
  apply IH; [lia|]. rewrite Nat2Z.inj_succ, Z.pow_succ_r in Hn by lia. split.
  - apply Z.div_pos; lia.
  - apply Z.div_lt_upper_bound; lia.
Qed.

Lemma digits_nonempty fuel n : (1 ≤ fuel)%nat → digits fuel n ≠ [].
Proof.
  destruct fuel; [lia|]. intros _. simpl. destruct (n <? 10); [done|].
  by destruct (digits fuel (n / 10)).
Qed.

Lemma digit_char_val d : 0 ≤ d < 10 → digit_val (digit_char d) = d.
Proof. intros H. unfold digit_val, digit_char. rewrite code_chr; lia. Qed.

Lemma digit_char_digit d : 0 ≤ d < 10 → is_digit (digit_char d) = true.
Proof.
  intros H. unfold is_digit, within, digit_char. rewrite code_chr by lia.
  apply andb_true_iff; split; apply Z.leb_le; lia.
Qed.

(** The number a digit string denotes. *)
Definition dec_value (l : list byte) : Z := value (map digit_val l).

Lemma map_digit_val ds :
  Forall (λ d, 0 ≤ d < 10) ds → map digit_val (map digit_char ds) = ds.
Proof.
  induction 1 as [|d ds Hd _ IH]; [done|]. simpl. by rewrite digit_char_val, IH.
Qed.

Lemma all_digits ds :
  Forall (λ d, 0 ≤ d < 10) ds → forallb is_digit (map digit_char ds) = true.
Proof. induction 1; simpl; [done|]. by rewrite digit_char_digit. Qed.

Lemma value_zeros k ds : value (replicate k 0 ++ ds) = value ds.
Proof.
  unfold value. rewrite fold_left_app. f_equal.
  induction k as [|k IH]; [done|]. cbn. done.
Qed.

Lemma dec_value_dec n : 0 ≤ n < 10 ^ 20 → dec_value (dec n) = n.
Proof.
  intros Hn. unfold dec_value, dec. rewrite map_digit_val by (apply digits_range; lia).
  apply value_digits. exact Hn.
Qed.

Lemma dec_all_digits n : 0 ≤ n → forallb is_digit (dec n) = true.
Proof. intros Hn. apply all_digits, digits_range, Hn. Qed.

Lemma dec_nonempty n : dec n ≠ [].
Proof.
  unfold dec. intros H. apply map_eq_nil in H.
  by apply (digits_nonempty 20 n) in H; [|lia].
Qed.

Lemma dec_inj a b :
  0 ≤ a < 10 ^ 20 → 0 ≤ b < 10 ^ 20 → dec a = dec b → a = b.
Proof. intros Ha Hb H. by rewrite <- (dec_value_dec a), H, dec_value_dec. Qed.

Lemma dec_value_pad w n : 0 ≤ n < 10 ^ 20 → dec_value (dec_pad w n) = n.
Proof.
  intros Hn. unfold dec_value, dec_pad. rewrite map_app.
  replace (map digit_val (replicate _ (digit_char 0)))
    with (replicate (Z.to_nat w - length (dec n)) 0).
  - rewrite value_zeros. by apply dec_value_dec.
  - generalize (Z.to_nat w - length (dec n))%nat. intros k.
    induction k as [|k IH]; [done|]. simpl. by rewrite <- IH.
Qed.

Lemma dec_pad_digits w n : 0 ≤ n → forallb is_digit (dec_pad w n) = true.
Proof.
  intros Hn. unfold dec_pad. rewrite forallb_app, dec_all_digits by done.
  rewrite andb_true_r.
  induction (Z.to_nat w - length (dec n))%nat as [|k IH]; [done|].
  simpl. rewrite IH. done.
Qed.

(** A value that fits the width is printed with exactly [w] characters. *)
Lemma length_dec_pad w n :
  1 ≤ w → 0 ≤ n < 10 ^ w → length (dec_pad w n) = Z.to_nat w.
Proof.
  intros Hw Hn. unfold dec_pad. rewrite length_app, length_replicate.
  assert (length (dec n) ≤ Z.to_nat w)%nat; [|lia].
  unfold dec. rewrite length_map. apply length_digits; [lia|].
  by rewrite Z2Nat.id by lia.
Qed.

Lemma dec_pad_inj w a b :
  0 ≤ a < 10 ^ 20 → 0 ≤ b < 10 ^ 20 → dec_pad w a = dec_pad w b → a = b.
Proof. intros Ha Hb H. by rewrite <- (dec_value_pad w a), H, dec_value_pad. Qed.

(** ** Parsing *)

(** [strconv.ParseInt(s, 10, 64)]: an optional sign, decimal digits, and a
    range check; [None] stands for its error. *)
Definition parse_int64 (l : list byte) : option Z :=
  let '(neg, ds) := match l with
    | c :: r => if code c =? 45 then (true, r)
                else if code c =? 43 then (false, r) else (false, l)
    | [] => (false, l)
    end in
  match ds with
  | [] => None
  | _ =>
      if forallb is_digit ds then
        let v := if (neg : bool) then - dec_value ds else dec_value ds in
        if (int64_min <=? v) && (v <=? int64_max) then Some v else None
      else None
  end.

Lemma digit_not_sign c : is_digit c = true → (code c =? 45) = false ∧ (code c =? 43) = false.
Proof.
  unfold is_digit, within. intros H. bool_hyps.
  split; apply Z.eqb_neq; lia.
Qed.

(** On a digit string the result is its value, unless it leaves int64. *)
Lemma parse_int64_digits l :
  l ≠ [] → forallb is_digit l = true →
  parse_int64 l = if dec_value l <=? int64_max then Some (dec_value l) else None.
Proof.
  intros Hne Hd. destruct l as [|c r]; [done|]. unfold parse_int64.
  assert (Hc : is_digit c = true) by (simpl in Hd; by apply andb_true_iff in Hd as [? _]).
  destruct (digit_not_sign c Hc) as [-> ->]. rewrite Hd.
  replace (int64_min <=? dec_value (c :: r)) with true; [done|].
  symmetry. apply Z.leb_le. transitivity 0; [done|].
  clear Hne Hc. unfold dec_value, value. rewrite <- fold_left_rev_right.
  assert (Forall (λ d, 0 ≤ d) (rev (map digit_val (c :: r)))) as Hf.
  { apply Forall_rev, Forall_map, Forall_forall. intros x Hx.
    rewrite forallb_forall in Hd. specialize (Hd x (proj1 (list_elem_of_In _ _) Hx)).
    unfold is_digit, within in Hd. bool_hyps. unfold digit_val. simpl. lia. }
  induction Hf; simpl; lia.
Qed.

(** Digit strings of one length are determined by their value. *)
Lemma dec_value_snoc l c : dec_value (l ++ [c]) = dec_value l * 10 + digit_val c.
Proof. unfold dec_value. rewrite map_app. apply value_app. Qed.

Lemma digit_val_range c : is_digit c = true → 0 ≤ digit_val c < 10.
Proof. unfold is_digit, within, digit_val. intros H. bool_hyps. lia. Qed.

Lemma digit_val_inj a b : digit_val a = digit_val b → a = b.
Proof.
  unfold digit_val. intros H. rewrite <- (chr_code a), <- (chr_code b). f_equal. lia.
Qed.

Lemma dec_value_inj a b :
  length a = length b → forallb is_digit a = true → forallb is_digit b = true →
  dec_value a = dec_value b → a = b.
Proof.
  revert b. induction a as [|x a IH] using rev_ind; intros b Hl Ha Hb Hv.
  { by destruct b. }
  destruct b as [|y b _] using rev_ind; [rewrite length_app in Hl; simpl in Hl; lia|].
  rewrite !length_app in Hl. simpl in Hl.
  rewrite !forallb_app in Ha, Hb. simpl in Ha, Hb. bool_hyps.
  rewrite !dec_value_snoc in Hv.
  pose proof (digit_val_range x ltac:(done)). pose proof (digit_val_range y ltac:(done)).
  f_equal; [apply IH; auto; lia|]. f_equal. apply digit_val_inj. lia.
Qed.

Lemma dec_value_range l :
  forallb is_digit l = true → 0 ≤ dec_value l < 10 ^ Z.of_nat (length l).
Proof.
  induction l as [|x l IH] using rev_ind; [done|].
  rewrite forallb_app. simpl. intros H. bool_hyps.
  rewrite dec_value_snoc, length_app. simpl length.
  pose proof (digit_val_range x ltac:(done)). specialize (IH ltac:(done)).
  replace (Z.of_nat (length l + 1)) with (Z.succ (Z.of_nat (length l))) by lia.
  rewrite Z.pow_succ_r by lia. lia.
Qed.

Lemma dec_pad_value w l :
  1 ≤ w ≤ 20 → length l = Z.to_nat w → forallb is_digit l = true →
  dec_pad w (dec_value l) = l.
Proof.
  intros Hw Hl Hd. pose proof (dec_value_range l Hd) as Hr.
  rewrite Hl, Z2Nat.id in Hr by lia.
  pose proof (Z.pow_le_mono_r 10 w 20 ltac:(lia) ltac:(lia)).
  apply dec_value_inj; auto.
  - rewrite length_dec_pad; lia.
  - apply dec_pad_digits. lia.
  - apply dec_value_pad. lia.
Qed.
