(* ===== verification/GoTime.v ===== *)
(** * Go time

    Instants, the proleptic Gregorian calendar of package [time], and the two
    layouts the code parses and prints ("2006-01-02").  An instant is the
    number of nanoseconds since the Unix epoch; Go's zero [time.Time] is
    January 1 of year 1. *)

From Stdlib Require Import Ascii.
From S2P Require Import Prelude GoStrings Decimal.

#[local] Open Scope Z_scope.

Abbreviation Time := Z (only parsing).
Abbreviation Duration := Z (only parsing).

Definition Nanosecond : Duration := 1.
Definition Millisecond : Duration := 1000000.
Definition Second : Duration := 1000000000.
Definition Minute : Duration := 60 * Second.
Definition Hour : Duration := 60 * Minute.

Definition zero_time : Time := -62135596800 * Second.
Definition IsZero (t : Time) : bool := t =? zero_time.
(** [time.Unix(s, 0)] and [t.Unix()]. *)
Definition of_unix (s : Z) : Time := s * Second.
Definition unix (t : Time) : Z := t / Second.

(** ** Civil dates *)

Record Date : Type := mkDate { d_year : Z; d_month : Z; d_day : Z }.

#[export] Instance Date_eq_dec : EqDecision Date.
Proof. solve_decision. Defined.

Definition is_leap (y : Z) : bool :=
  (y mod 4 =? 0) && (negb (y mod 100 =? 0) || (y mod 400 =? 0)).
Definition days_in (m y : Z) : Z :=
  if m =? 2 then (if is_leap y then 29 else 28)
  else if (m =? 4) || (m =? 6) || (m =? 9) || (m =? 11) then 30 else 31.

Definition valid_date (d : Date) : bool :=
  (1 <=? d_month d) && (d_month d <=? 12) &&
  (1 <=? d_day d) && (d_day d <=? days_in (d_month d) (d_year d)).

(** Days since 1970-01-01; the computation counts from 0000-03-01, in cycles
    of 400 years. *)
Definition days_of_civil (d : Date) : Z :=
  let y := if d_month d <=? 2 then d_year d - 1 else d_year d in
  let mp := if d_month d <=? 2 then d_month d + 9 else d_month d - 3 in
  let doy := (153 * mp + 2) / 5 + d_day d - 1 in
  let doe := (y mod 400) * 365 + (y mod 400) / 4 - (y mod 400) / 100 + doy in
  (y / 400) * 146097 + doe - 719468.

Definition civil_of_days (n : Z) : Date :=
  let z := n + 719468 in
  let doe := z mod 146097 in
  let yoe := (doe - doe / 1460 + doe / 36524 - doe / 146096) / 365 in
  let doy := doe - (365 * yoe + yoe / 4 - yoe / 100) in
  let mp := (5 * doy + 2) / 153 in
  let m := if mp <? 10 then mp + 3 else mp - 9 in
  let y := yoe + (z / 146097) * 400 in
  mkDate (if m <=? 2 then y + 1 else y) m (doy - (153 * mp + 2) / 5 + 1).

Section CivilCycle.
Variable doe : Z.
Hypothesis Hdoe : 0 ≤ doe < 146097.

Definition cycle_year : Z := (doe - doe / 1460 + doe / 36524 - doe / 146096) / 365.
Definition cycle_day : Z := doe - (365 * cycle_year + cycle_year / 4 - cycle_year / 100).

Lemma cycle_year_range : 0 ≤ cycle_year < 400.
Proof. unfold cycle_year. Z.div_mod_to_equations. lia. Qed.

Lemma cycle_day_range : 0 ≤ cycle_day ≤ 366.
Proof. unfold cycle_day, cycle_year. Z.div_mod_to_equations. lia. Qed.
End CivilCycle.

(** Every day has one civil date. *)
Lemma days_of_civil_of_days n : days_of_civil (civil_of_days n) = n.
Proof.
  unfold civil_of_days. set (z := n + 719468). set (doe := z mod 146097).
  pose proof (Z.mod_pos_bound z 146097 ltac:(lia)) as Hdoe. fold doe in Hdoe.
  pose proof (cycle_year_range doe Hdoe) as Hy.
  pose proof (cycle_day_range doe Hdoe) as Hd.
  change ((doe - doe / 1460 + doe / 36524 - doe / 146096) / 365) with (cycle_year doe).
  change (doe - (365 * cycle_year doe + cycle_year doe / 4 - cycle_year doe / 100))
    with (cycle_day doe).
  set (yoe := cycle_year doe) in *. set (doy := cycle_day doe) in *.
  assert (Hdef : doe = 365 * yoe + yoe / 4 - yoe / 100 + doy).
  { unfold doy, cycle_day. fold yoe. lia. }
  set (mp := (5 * doy + 2) / 153).
  assert (Hmp : 0 ≤ mp ≤ 11) by (unfold mp; Z.div_mod_to_equations; lia).
  pose proof (Z.div_mod z 146097 ltac:(lia)) as Hz. fold doe in Hz.
  unfold days_of_civil. cbn [d_year d_month d_day].
  destruct (mp <? 10) eqn:Em; bool_hyps.
  - replace (mp + 3 <=? 2) with false by (symmetry; apply Z.leb_gt; lia).
    rewrite Z.add_comm, Z.mod_add, Z.div_add by lia.
    all: rewrite ?(Z.add_comm _ yoe), ?Z.mod_add, ?Z.div_add by lia.
    rewrite (Z.mod_small yoe 400), (Z.div_small yoe 400) by lia.
    replace (mp + 3 - 3) with mp by lia. lia.
  - replace (mp - 9 <=? 2) with true by (symmetry; apply Z.leb_le; lia).
    replace (yoe + z / 146097 * 400 + 1 - 1) with (yoe + z / 146097 * 400) by lia.
    rewrite Z.mod_add, Z.div_add by lia.
    rewrite (Z.mod_small yoe 400), (Z.div_small yoe 400) by lia.
    replace (mp - 9 + 9) with mp by lia. lia.
Qed.

Lemma civil_of_days_inj a b : civil_of_days a = civil_of_days b → a = b.
Proof. intros H. by rewrite <- (days_of_civil_of_days a), H, days_of_civil_of_days. Qed.

(** ** The layout "2006-01-02" *)

Definition dash : byte := chr 45.

(** [time.Parse("2006-01-02", s)]: four, two and two digits, a month and a
    day of that month; anything after the day is refused. *)
Definition ParseDate (s : string) : option Date :=
  match bytes s with
  | [y1; y2; y3; y4; h1; m1; m2; h2; e1; e2] =>
      let d := mkDate (dec_value [y1; y2; y3; y4]) (dec_value [m1; m2]) (dec_value [e1; e2]) in
      if forallb is_digit [y1; y2; y3; y4; m1; m2; e1; e2] &&
         bool_decide (h1 = dash) && bool_decide (h2 = dash) && valid_date d
      then Some d else None
  | _ => None
  end.

(** [t.Format("2006-01-02")] of a date in the years 0 to 9999. *)
Definition FormatDate (d : Date) : string :=
  of_bytes (dec_pad 4 (d_year d) ++ dash :: dec_pad 2 (d_month d) ++ dash :: dec_pad 2 (d_day d)).

(** The instant of a date's 00:00 UTC. *)
Definition midnight (d : Date) : Time := days_of_civil d * 24 * Hour.

Lemma days_in_range m y : 28 ≤ days_in m y ≤ 31.
Proof. unfold days_in. repeat case_match; lia. Qed.

Lemma ParseDate_FormatDate d :
  valid_date d = true → 0 ≤ d_year d ≤ 9999 → ParseDate (FormatDate d) = Some d.
Proof.
  intros Hv Hy. pose proof Hv as Hv'. unfold valid_date in Hv. bool_hyps.
  pose proof (days_in_range (d_month d) (d_year d)).
  unfold ParseDate, FormatDate. rewrite bytes_of_bytes.
  pose proof (length_dec_pad 4 (d_year d) ltac:(lia) ltac:(lia)) as L4.
  pose proof (length_dec_pad 2 (d_month d) ltac:(lia) ltac:(lia)) as L2.
  pose proof (length_dec_pad 2 (d_day d) ltac:(lia) ltac:(lia)) as L2'.
  pose proof (dec_value_pad 4 (d_year d) ltac:(lia)) as V4.
  pose proof (dec_value_pad 2 (d_month d) ltac:(lia)) as V2.
  pose proof (dec_value_pad 2 (d_day d) ltac:(lia)) as V2'.
  pose proof (dec_pad_digits 4 (d_year d) ltac:(lia)) as D4.
  pose proof (dec_pad_digits 2 (d_month d) ltac:(lia)) as D2.
  pose proof (dec_pad_digits 2 (d_day d) ltac:(lia)) as D2'.
  destruct (dec_pad 4 (d_year d)) as [|y1 [|y2 [|y3 [|y4 [|]]]]]; try discriminate L4.
  destruct (dec_pad 2 (d_month d)) as [|m1 [|m2 [|]]]; try discriminate L2.
  destruct (dec_pad 2 (d_day d)) as [|e1 [|e2 [|]]]; try discriminate L2'.
  cbn [app]. rewrite V4, V2, V2', !bool_decide_true by done.
  cbn [forallb] in *. bool_hyps.
  repeat match goal with E : is_digit _ = true |- _ => rewrite E; clear E end.
  destruct d. simpl in *. by rewrite Hv'.
Qed.

Lemma FormatDate_ParseDate s d :
  ParseDate s = Some d → FormatDate d = s ∧ valid_date d = true ∧ 0 ≤ d_year d ≤ 9999.
Proof.
  unfold ParseDate. intros H. repeat case_match; try discriminate H. bool_hyps.
  injection H as <-. subst.
  cbn [forallb] in *. bool_hyps. split; [|split; [done|]].
  - unfold FormatDate. cbn [d_year d_month d_day].
    rewrite !dec_pad_value by
      (first [lia | done | cbn [forallb];
        repeat match goal with E : is_digit _ = true |- _ => rewrite E; clear E end; done]).
    apply bytes_inj. rewrite bytes_of_bytes. by symmetry.
  - cbn [d_year]. pose proof (dec_value_range [a; a0; a1; a2]) as Hr.
    cbn [forallb] in Hr.
    repeat match goal with E : is_digit _ = true |- _ => rewrite E in Hr; clear E end.
    specialize (Hr eq_refl). simpl length in Hr. lia.
Qed.

Lemma civil_of_days_fields n :
  1 ≤ d_month (civil_of_days n) ≤ 12 ∧ 1 ≤ d_day (civil_of_days n) ≤ 31.
Proof.
  unfold civil_of_days. set (z := n + 719468). set (doe := z mod 146097).
  pose proof (Z.mod_pos_bound z 146097 ltac:(lia)) as Hdoe. fold doe in Hdoe.
  pose proof (cycle_day_range doe Hdoe) as Hd.
  change (doe - (365 * ((doe - doe / 1460 + doe / 36524 - doe / 146096) / 365)
    + (doe - doe / 1460 + doe / 36524 - doe / 146096) / 365 / 4
    - (doe - doe / 1460 + doe / 36524 - doe / 146096) / 365 / 100))
    with (cycle_day doe).
  set (doy := cycle_day doe) in *. set (mp := (5 * doy + 2) / 153).
  assert (0 ≤ mp ≤ 11) by (unfold mp; Z.div_mod_to_equations; lia).
  cbn [d_month d_day]. split; [case_match; bool_hyps; lia|].
  unfold mp. Z.div_mod_to_equations. lia.
Qed.

Lemma midnight_of_days n : midnight (civil_of_days n) = n * 24 * Hour.
Proof. unfold midnight. by rewrite days_of_civil_of_days. Qed.
