(* ===== verification/BusinessClock.v ===== *)
(** * internal/businessclock: the Beijing calendar

    Every business date of the code (number years, ledger "today", expiry) is
    computed here.  The time zone is Asia/Shanghai of the IANA database when
    the runtime can load it and a fixed +08:00 otherwise.  The database is not
    part of the repository: [load_location] is a parameter, the hypotheses on
    it are those of package [time] and of the zone's published history. *)

From S2P Require Import Prelude GoTime.

(** What [Location.lookup(sec)] returns: the offset in force at [sec] and the
    interval of Unix seconds where it stays in force. *)
Record ZoneSpan : Type := mkSpan { zs_offset : Z; zs_start : Z; zs_end : Z }.
Abbreviation Zone := (Z → ZoneSpan).

(** [time.LoadLocation("Asia/Shanghai")]; [None] is an error. *)
Class TzDatabase := { load_location : option Zone }.

Definition fixedZoneOffset : Z := 8 * 60 * 60.
(** [time.FixedZone(name, offset)]: one span for all of time. *)
Definition FixedZone (offset : Z) : Zone := λ _, mkSpan offset int64_min int64_max.

(** The [sync.OnceValue] computation of [location]. *)
Definition Location `{TzDatabase} : Zone :=
  match load_location with
  | Some loaded => loaded
  | None => FixedZone fixedZoneOffset
  end.

Definition day_seconds : Z := 86400.

(** The seconds of the wall clock of [t.In(loc)], counted as if it were UTC. *)
Definition wall_seconds (loc : Zone) (t : Time) : Z := unix t + zs_offset (loc (unix t)).
(** [Year(), Month(), Day()] of [t.In(loc)]. *)
Definition local_date (loc : Zone) (t : Time) : Date :=
  civil_of_days (wall_seconds loc t / day_seconds).

(** [time.Date(y, m, d, 0, 0, 0, 0, loc)]: the offset is looked up at the wall
    clock read as UTC, and again at the corrected instant when that instant
    leaves the span found first. *)
Definition date_in (loc : Zone) (d : Date) : Time :=
  let unix := days_of_civil d * day_seconds in
  let span := loc unix in
  if zs_offset span =? 0 then of_unix unix
  else
    let utc := unix - zs_offset span in
    let offset :=
      if (utc <? zs_start span) || (zs_end span <=? utc) then zs_offset (loc utc)
      else zs_offset span in
    of_unix (unix - offset).

Definition DayStartOf `{TzDatabase} (t : Time) : Time :=
  date_in Location (local_date Location t).
Definition MonthStartOf `{TzDatabase} (t : Time) : Time :=
  let local := local_date Location t in
  date_in Location (mkDate (d_year local) (d_month local) 1).
Definition YearOf `{TzDatabase} (t : Time) : Z := d_year (local_date Location t).
(** The business date written as 00:00 UTC. *)
Definition CalendarDay `{TzDatabase} (t : Time) : Time := midnight (local_date Location t).
Definition CalendarDayBefore `{TzDatabase} (a b : Time) : bool :=
  CalendarDay a <? CalendarDay b.

(** The day number of an instant in the business zone. *)
Definition business_day `{TzDatabase} (t : Time) : Z := wall_seconds Location t / day_seconds.
(** The day number on a clock that is always eight hours ahead of UTC. *)
Definition beijing_day (t : Time) : Z := (unix t + fixedZoneOffset) / day_seconds.

(** The published history of the zone: since 1991-09-15 (01:00 local time, the
    end of the last daylight saving period) the offset is +08:00. *)
Definition fixed_since : Z := 684867600.
Class ShanghaiHistory `{TzDatabase} : Prop := {
  shanghai_history : ∀ zone sec, load_location = Some zone → fixed_since ≤ sec →
    zs_offset (zone sec) = fixedZoneOffset ∧ zs_start (zone sec) ≤ fixed_since ∧
    zs_end (zone sec) = int64_max
}.

(** ** Lemmas *)

Lemma unix_of_unix s : unix (of_unix s) = s.
Proof. unfold unix, of_unix. apply Z.div_mul. done. Qed.

Lemma unix_mono a b : a ≤ b → unix a ≤ unix b.
Proof. intros. unfold unix. apply Z.div_le_mono; [done|lia]. Qed.

Lemma unix_bounds t : of_unix (unix t) ≤ t < of_unix (unix t) + Second.
Proof.
  unfold of_unix, unix. pose proof (Z.mod_pos_bound t Second ltac:(done)).
  pose proof (Z.div_mod t Second ltac:(done)). lia.
Qed.

Lemma CalendarDay_day `{TzDatabase} t : CalendarDay t = business_day t * 24 * Hour.
Proof. apply midnight_of_days. Qed.

Lemma CalendarDay_utc_day `{TzDatabase} t :
  unix (CalendarDay t) = business_day t * day_seconds.
Proof.
  rewrite CalendarDay_day. unfold unix, Hour, Minute, day_seconds.
  replace (business_day t * 24 * (60 * (60 * Second)))
    with (business_day t * 86400 * Second) by lia.
  by rewrite Z.div_mul.
Qed.

(** The clock's calculations agree for two zones that agree after a point. *)
Lemma location_fixed `{ShanghaiHistory} sec :
  fixed_since ≤ sec → zs_offset (Location sec) = fixedZoneOffset.
Proof.
  intros Hs. unfold Location. destruct load_location as [zone|] eqn:E; [|done].
  by apply (shanghai_history zone).
Qed.

Lemma business_day_fixed `{ShanghaiHistory} t :
  fixed_since ≤ unix t → business_day t = beijing_day t.
Proof. intros Ht. unfold business_day, wall_seconds. by rewrite location_fixed. Qed.

Lemma date_in_fixed `{ShanghaiHistory} d :
  fixed_since + fixedZoneOffset ≤ days_of_civil d * day_seconds →
  date_in Location d = of_unix (days_of_civil d * day_seconds - fixedZoneOffset).
Proof.
  intros Hd. unfold date_in. set (u := days_of_civil d * day_seconds) in *.
  assert (0 ≤ fixedZoneOffset) by done.
  rewrite location_fixed by lia. cbn. change (fixedZoneOffset =? 0) with false. cbn.
  case_match; [|done]. rewrite location_fixed by lia. done.
Qed.

Lemma local_date_day `{TzDatabase} t : days_of_civil (local_date Location t) = business_day t.
Proof. apply days_of_civil_of_days. Qed.

(** One day of slack after the change of 1991. *)
Definition settled_clock (t : Time) : Prop := fixed_since + 2 * day_seconds ≤ unix t.

Lemma DayStartOf_fixed `{ShanghaiHistory} t :
  settled_clock t → DayStartOf t = of_unix (beijing_day t * day_seconds - fixedZoneOffset).
Proof.
  unfold settled_clock. intros Ht. assert (day_seconds = 86400) by done.
  assert (fixedZoneOffset = 28800) by done.
  unfold DayStartOf. rewrite date_in_fixed, local_date_day, business_day_fixed; try lia.
  rewrite local_date_day, business_day_fixed by lia.
  unfold beijing_day. Z.div_mod_to_equations. lia.
Qed.

(** The environment without a time zone database. *)
Definition no_database : TzDatabase := {| load_location := None |}.

Lemma no_database_history : @ShanghaiHistory no_database.
Proof. split. intros zone sec H. discriminate H. Qed.
#[export] Hint Resolve no_database_history : cm.

Lemma local_date_fixed `{ShanghaiHistory} t :
  fixed_since ≤ unix t → local_date Location t = civil_of_days (beijing_day t).
Proof.
  intros Ht. unfold local_date. fold (business_day t). by rewrite business_day_fixed.
Qed.

Lemma days_of_month_start d :
  days_of_civil (mkDate (d_year d) (d_month d) 1) = days_of_civil d - (d_day d - 1).
Proof. unfold days_of_civil. cbn [d_year d_month d_day]. lia. Qed.

Lemma MonthStartOf_fixed `{ShanghaiHistory} t :
  fixed_since + 33 * day_seconds ≤ unix t →
  MonthStartOf t = of_unix ((beijing_day t - (d_day (civil_of_days (beijing_day t)) - 1))
                              * day_seconds - fixedZoneOffset).
Proof.
  intros Ht. assert (day_seconds = 86400) by done. assert (fixedZoneOffset = 28800) by done.
  pose proof (civil_of_days_fields (beijing_day t)) as [_ Hday].
  unfold MonthStartOf. rewrite local_date_fixed by lia. set (n := beijing_day t) in *.
  assert (fixed_since + 32 * day_seconds ≤ n * day_seconds).
  { subst n. unfold beijing_day. Z.div_mod_to_equations. lia. }
  rewrite date_in_fixed; rewrite days_of_month_start, days_of_civil_of_days; [done|lia].
Qed.

(** ** Properties *)

(** [CalendarDayBefore] compares business dates only: it holds exactly
    when the day of the first instant, on a clock eight hours ahead of UTC, is
    an earlier day than that of the second. *)
Theorem CalendarDayBefore_spec `{ShanghaiHistory} a b :
  fixed_since ≤ unix a → fixed_since ≤ unix b →
  CalendarDayBefore a b = true ↔ beijing_day a < beijing_day b.
Proof.
  intros Ha Hb. unfold CalendarDayBefore. rewrite !CalendarDay_day, !business_day_fixed by done.
  rewrite Z.ltb_lt. unfold Hour, Minute, Second. lia.
Qed.

(** The day start is the beginning of the business day that contains the
    instant: not later than it, less than 24 hours before it, on the same
    business date, and at a Beijing midnight. *)
Theorem DayStartOf_spec `{ShanghaiHistory} t :
  settled_clock t →
  DayStartOf t ≤ t < DayStartOf t + 24 * Hour ∧
  CalendarDay (DayStartOf t) = CalendarDay t ∧
  DayStartOf (DayStartOf t) = DayStartOf t.
Proof.
  intros Ht. pose proof (DayStartOf_fixed t Ht) as Hd. unfold settled_clock in Ht.
  assert (day_seconds = 86400) by done. assert (fixedZoneOffset = 28800) by done.
  pose proof (unix_bounds t) as Hu.
  assert (unix (DayStartOf t) = beijing_day t * day_seconds - fixedZoneOffset) as Hud
    by (by rewrite Hd, unix_of_unix).
  assert (beijing_day (DayStartOf t) = beijing_day t) as Hsame.
  { unfold beijing_day at 1. rewrite Hud. by rewrite Z.sub_add, Z.div_mul. }
  assert (fixed_since ≤ unix (DayStartOf t)) as Hlate.
  { rewrite Hud. unfold beijing_day. Z.div_mod_to_equations. lia. }
  split; [|split].
  - assert (beijing_day t * day_seconds - fixedZoneOffset ≤ unix t
      < beijing_day t * day_seconds - fixedZoneOffset + 86400) as Hb
      by (unfold beijing_day; generalize (unix t); intros u;
          change day_seconds with 86400; clear; Z.div_mod_to_equations; lia).
    rewrite Hd. change (24 * Hour) with (86400 * Second). unfold of_unix in *.
    assert (0 < Second) as Hs by done. clear - Hb Hu Hs. nia.
  - rewrite !CalendarDay_day, !business_day_fixed; [by rewrite Hsame|lia|done].
  - unfold DayStartOf at 1. rewrite date_in_fixed, local_date_day, business_day_fixed; auto.
    { by rewrite Hsame, Hd. }
    rewrite local_date_day, business_day_fixed, Hsame by done.
    unfold beijing_day. Z.div_mod_to_equations. lia.
Qed.

(** The fallback clock is equivalent to the IANA zone: with any zone that
    follows the published history, the day start, month start, year and
    calendar day of an instant after 1991 are those of the fixed +08:00 zone. *)
Theorem location_fallback_equiv {D : TzDatabase} {HD : ShanghaiHistory} t :
  fixed_since + 33 * day_seconds ≤ unix t →
  DayStartOf t = @DayStartOf no_database t ∧
  MonthStartOf t = @MonthStartOf no_database t ∧
  YearOf t = @YearOf no_database t ∧
  CalendarDay t = @CalendarDay no_database t.
Proof.
  intros Ht. pose proof no_database_history as Hn.
  assert (settled_clock t) by (unfold settled_clock; assert (day_seconds = 86400) by done; lia).
  assert (fixed_since ≤ unix t) by (assert (day_seconds = 86400) by done; lia).
  unfold YearOf, CalendarDay.
  rewrite (@DayStartOf_fixed D HD t), (@MonthStartOf_fixed D HD t),
    (@local_date_fixed D HD t) by done.
  rewrite (@DayStartOf_fixed no_database Hn t), (@MonthStartOf_fixed no_database Hn t),
    (@local_date_fixed no_database Hn t) by done.
  done.
Qed.

(** ** Concrete instances *)

(** A loaded zone with a daylight saving span before 1991. *)
Definition sample_zone : Zone := λ sec,
  if sec <? fixed_since then mkSpan (9 * 3600) int64_min fixed_since
  else mkSpan (8 * 3600) fixed_since int64_max.
Definition sample_database : TzDatabase := {| load_location := Some sample_zone |}.

Lemma sample_history : @ShanghaiHistory sample_database.
Proof.
  split. intros zone sec [= <-] Hs. unfold sample_zone.
  replace (sec <? fixed_since) with false by (symmetry; apply Z.ltb_ge; lia).
  done.
Qed.

(** 2026-01-01 00:30 in Beijing is still 2025 in UTC. *)
Definition sample_instant : Time := of_unix 1767198600.

Lemma CalendarDayBefore_spec_witness :
  @CalendarDayBefore sample_database (sample_instant - Hour) sample_instant = true ↔
  beijing_day (sample_instant - Hour) < beijing_day sample_instant.
Proof. apply (@CalendarDayBefore_spec sample_database sample_history); vm_compute; discriminate. Defined.

Lemma DayStartOf_spec_witness :
  @DayStartOf sample_database sample_instant = of_unix (1767198600 - 1800) ∧
  @DayStartOf sample_database sample_instant ≤ sample_instant <
    @DayStartOf sample_database sample_instant + 24 * Hour.
Proof.
  split; [reflexivity|].
  refine (proj1 (@DayStartOf_spec sample_database sample_history sample_instant _)).
  vm_compute. discriminate.
Defined.

Lemma location_fallback_equiv_witness :
  @YearOf sample_database sample_instant = 2026 ∧
  @DayStartOf sample_database sample_instant = @DayStartOf no_database sample_instant.
Proof.
  split; [reflexivity|].
  refine (proj1 (@location_fallback_equiv sample_database sample_history sample_instant _)).
  vm_compute. discriminate.
Defined.
