(* ===== verification/Status.v ===== *)
(** * domain/contract/status.go: the contract life cycle

    The nine persisted statuses, the transition table and its predicates, and
    what the table means for a contract's history. *)

From S2P Require Import Prelude.

#[local] Open Scope string_scope.
#[local] Open Scope list_scope.

(** A status is a string column: it can hold any value. *)
Abbreviation Status := string (only parsing).

Definition StatusDraft : Status := "draft".
Definition StatusPending : Status := "pending".
Definition StatusApproved : Status := "approved".
Definition StatusActive : Status := "active".
Definition StatusInProgress : Status := "in_progress".
Definition StatusPendingPay : Status := "pending_pay".
Definition StatusCompleted : Status := "completed".
Definition StatusTerminated : Status := "terminated".
Definition StatusArchived : Status := "archived".

Definition transitions : gmap Status (list Status) :=
  list_to_map [
    (StatusDraft, [StatusPending]);
    (StatusPending, [StatusDraft; StatusApproved]);
    (StatusApproved, [StatusActive]);
    (StatusActive, [StatusInProgress; StatusTerminated; StatusArchived]);
    (StatusInProgress, [StatusPendingPay; StatusCompleted; StatusTerminated; StatusArchived]);
    (StatusPendingPay, [StatusCompleted; StatusTerminated; StatusArchived]);
    (StatusCompleted, [StatusArchived]);
    (StatusTerminated, [StatusArchived]);
    (StatusArchived, [])].

Definition Valid (s : Status) : bool := bool_decide (is_Some (transitions !! s)).
Definition Terminal (s : Status) : bool := s =s StatusArchived.

Definition ApprovalPassedStatuses : list Status :=
  [StatusApproved; StatusActive; StatusInProgress; StatusPendingPay; StatusCompleted;
   StatusTerminated; StatusArchived].
(** The [switch] of [ApprovalPassed]. *)
Definition ApprovalPassed (s : Status) : bool :=
  (s =s StatusApproved) || (s =s StatusActive) || (s =s StatusInProgress) ||
  (s =s StatusPendingPay) || (s =s StatusCompleted) || (s =s StatusTerminated) ||
  (s =s StatusArchived).

Definition expiryStatuses : list Status :=
  [StatusActive; StatusInProgress; StatusPendingPay].
Definition ExpiryTracked (s : Status) : bool := contains expiryStatuses s.

Definition RequiresApproval (s : Status) : bool :=
  (s =s StatusInProgress) || (s =s StatusPendingPay) || (s =s StatusTerminated) ||
  (s =s StatusArchived).

Definition CanTransition (from to : Status) : bool :=
  match transitions !! from with
  | Some allowed => contains allowed to
  | None => false
  end.

Definition ValidateTransition (from to : Status) : res unit :=
  fail_if (negb (Valid from) || negb (Valid to)) ErrInvalidStatus;;
  fail_if (negb (CanTransition from to)) ErrInvalidTransition.

(** ** The nine statuses *)

Definition all_statuses : list Status :=
  [StatusDraft; StatusPending; StatusApproved; StatusActive; StatusInProgress;
   StatusPendingPay; StatusCompleted; StatusTerminated; StatusArchived].

Lemma transitions_domain : map_to_list transitions ≡ₚ
  map (λ s, (s, default [] (transitions !! s))) all_statuses.
Proof.
  unfold transitions. rewrite map_to_list_to_map; [reflexivity|].
  apply (bool_decide_unpack _). vm_compute. exact I.
Qed.

Lemma Valid_spec s : Valid s = true ↔ s ∈ all_statuses.
Proof.
  unfold Valid. rewrite bool_decide_eq_true. split.
  - intros [l Hl]. apply elem_of_map_to_list in Hl. rewrite transitions_domain in Hl.
    apply list_elem_of_fmap in Hl as (y & [= -> _] & Hy). done.
  - intros H. unfold all_statuses in H. set_unfold.
    repeat destruct H as [->|H]; try (eexists; reflexivity).
    done.
Qed.

Lemma CanTransition_valid from to :
  CanTransition from to = true → Valid from = true ∧ Valid to = true.
Proof.
  unfold CanTransition. destruct (transitions !! from) as [l|] eqn:El; [|done].
  intros Hto. split; [unfold Valid; apply bool_decide_eq_true; eauto|].
  assert (Valid from = true) as Hf by (unfold Valid; apply bool_decide_eq_true; eauto).
  apply contains_spec in Hto. apply Valid_spec in Hf. apply Valid_spec.
  unfold all_statuses in Hf. set_unfold.
  repeat destruct Hf as [->|Hf]; try done;
    (vm_compute in El; injection El as El; subst l; unfold all_statuses; set_solver).
Qed.

(** A property of every pair of statuses is decided by enumeration. *)
Lemma valid_forall (P : Status → bool) :
  forallb P all_statuses = true → ∀ s, Valid s = true → P s = true.
Proof.
  intros H s Hs. apply Valid_spec, list_elem_of_In in Hs.
  by eapply forallb_forall in H.
Qed.

Lemma transition_forall (P : Status → Status → bool) :
  forallb (λ a, forallb (λ b, negb (CanTransition a b) || P a b) all_statuses) all_statuses = true →
  ∀ a b, CanTransition a b = true → P a b = true.
Proof.
  intros H a b Hab. apply CanTransition_valid in Hab as Hv. destruct Hv as [Ha Hb].
  pose proof (valid_forall _ H a Ha) as H1. cbv beta in H1.
  pose proof (valid_forall _ H1 b Hb) as H2. cbv beta in H2.
  by rewrite Hab in H2.
Qed.

(** ** Histories *)

(** [history s t path]: the contract moved from [s] to [t] through the
    statuses of [path], [t] included. *)
Inductive history : Status → Status → list Status → Prop :=
  | history_nil s : history s s []
  | history_step s u t path :
      CanTransition s u = true → history u t path → history s t (u :: path).

Definition reachable (s t : Status) : Prop := ∃ path, history s t path.

Lemma history_invariant (P : Status → Prop) :
  (∀ a b, CanTransition a b = true → P a → P b) →
  ∀ s t path, history s t path → P s → P t ∧ Forall P path.
Proof.
  intros Hstep s t path H. induction H as [s|s u t path Hsu _ IH]; intros Hs; [auto|].
  destruct (IH (Hstep _ _ Hsu Hs)). split; [done|]. constructor; eauto.
Qed.

Lemma passed_step a b :
  CanTransition a b = true → ApprovalPassed a = true → ApprovalPassed b = true.
Proof.
  intros Hab Ha.
  pose proof (transition_forall (λ a b, negb (ApprovalPassed a) || ApprovalPassed b)
    ltac:(reflexivity) a b Hab) as H.
  cbv beta in H. by rewrite Ha in H.
Qed.

Lemma enter_passed a b :
  CanTransition a b = true → ApprovalPassed a = false → ApprovalPassed b = true →
  a = StatusPending ∧ b = StatusApproved.
Proof.
  intros Hab Ha Hb.
  pose proof (transition_forall (λ a b, ApprovalPassed a || negb (ApprovalPassed b) ||
    ((a =s StatusPending) && (b =s StatusApproved))) ltac:(reflexivity) a b Hab) as H.
  cbv beta in H. rewrite Ha, Hb in H. simpl in H. bool_hyps.
  by split; apply streq_true.
Qed.

Lemma gate_from s t path :
  history s t path → ApprovalPassed s = false → ApprovalPassed t = true →
  ∃ before after, path = before ++ StatusApproved :: after ∧
    last (s :: before) = Some StatusPending ∧
    Forall (λ s, ApprovalPassed s = false) before ∧
    Forall (λ s, ApprovalPassed s = true) after.
Proof.
  intros H. induction H as [s|s u t path Hsu Hut IH]; intros Hs Ht; [congruence|].
  destruct (ApprovalPassed u) eqn:Hu.
  - destruct (enter_passed s u Hsu Hs Hu) as [-> ->].
    exists [], path. split_and!; try done.
    by eapply (history_invariant (λ s, ApprovalPassed s = true) passed_step) in Hut as [_ ?].
  - destruct (IH eq_refl Ht) as (before & after & -> & Hl & Hb & Ha).
    exists (u :: before), after. split_and!; auto.
Qed.

(** ** Properties *)

(** [ValidateTransition] accepts exactly the moves of the table between
    known statuses, reports an unknown status before an illegal move, and
    otherwise reports the illegal move. *)
Theorem ValidateTransition_spec from to :
  ValidateTransition from to =
    if bool_decide (from ∈ all_statuses) && bool_decide (to ∈ all_statuses) then
      if CanTransition from to then Ok tt else Err ErrInvalidTransition
    else Err ErrInvalidStatus.
Proof.
  unfold ValidateTransition.
  replace (bool_decide (from ∈ all_statuses)) with (Valid from)
    by (apply Bool.eq_iff_eq_true; rewrite Valid_spec, bool_decide_eq_true; done).
  replace (bool_decide (to ∈ all_statuses)) with (Valid to)
    by (apply Bool.eq_iff_eq_true; rewrite Valid_spec, bool_decide_eq_true; done).
  destruct (Valid from), (Valid to); simpl; try done.
  by destruct (CanTransition from to).
Qed.

(** A contract that starts as a draft and has reached an approved or
    later status went through pending and then approved; once there, every
    later status is approved or later too, so it can never be edited as a
    draft or rejected again. *)
Theorem approval_gate t path :
  history StatusDraft t path → ApprovalPassed t = true →
  ∃ before after, path = before ++ StatusApproved :: after ∧
    last (StatusDraft :: before) = Some StatusPending ∧
    Forall (λ s, ApprovalPassed s = false) before ∧
    Forall (λ s, ApprovalPassed s = true) after.
Proof.
  intros Hh Ht. by apply (gate_from StatusDraft t path Hh).
Qed.

(** Archived is the only terminal status and every status can reach it:
    no contract is stuck before archiving, and none leaves the archive. *)
Theorem archived_terminal s :
  Valid s = true →
  reachable s StatusArchived ∧
  (Terminal s = true ↔ ∀ u, CanTransition s u = false) ∧
  (∀ u, reachable StatusArchived u → u = StatusArchived).
Proof.
  intros Hs. assert (∀ u, CanTransition StatusArchived u = false) as Hend.
  { intros u. destruct (CanTransition StatusArchived u) eqn:E; [|done].
    exact (eq_sym (transition_forall (λ a _, negb (a =s StatusArchived))
      ltac:(reflexivity) _ _ E)). }
  assert (∀ a path, history a StatusArchived path → ∀ b, CanTransition b a = true →
    reachable b StatusArchived) as Hback by (intros; eexists; econstructor; eauto).
  split; [|split].
  - apply Valid_spec in Hs. unfold all_statuses in Hs. set_unfold.
    assert (reachable StatusActive StatusArchived) as Hact
      by (eapply Hback; [apply history_nil|reflexivity]).
    assert (reachable StatusApproved StatusArchived) as Happ
      by (destruct Hact; eapply Hback; [eassumption|reflexivity]).
    assert (reachable StatusPending StatusArchived) as Hpend
      by (destruct Happ; eapply Hback; [eassumption|reflexivity]).
    repeat destruct Hs as [->|Hs]; try done;
      first [ by exists []; apply history_nil
            | destruct Hpend; eapply Hback; [eassumption|reflexivity]
            | eapply Hback; [apply history_nil|reflexivity] ].
  - split; [by intros ->%streq_true|]. intros Hno.
    pose proof (valid_forall (λ s, Terminal s || existsb (CanTransition s) all_statuses)
      ltac:(reflexivity) s Hs) as H. cbv beta in H.
    apply orb_true_iff in H as [H|H]; [done|].
    apply existsb_exists in H as (u & _ & Hu). by rewrite Hno in Hu.
  - intros u [path Hp]. inversion Hp; subst; [done|]. by rewrite Hend in *.
Qed.

(** ** Concrete instances *)

Lemma approval_gate_witness :
  ∃ before after,
    [StatusPending; StatusDraft; StatusPending; StatusApproved; StatusActive]
      = before ++ StatusApproved :: after ∧
    last (StatusDraft :: before) = Some StatusPending ∧
    Forall (λ s, ApprovalPassed s = false) before ∧
    Forall (λ s, ApprovalPassed s = true) after.
Proof.
  apply (approval_gate StatusActive); [|reflexivity].
  repeat (eapply history_step; [reflexivity|]). apply history_nil.
Defined.

Lemma archived_terminal_witness : reachable StatusDraft StatusArchived.
Proof. apply (archived_terminal StatusDraft). reflexivity. Defined.
