(* ===== verification/NumberRule.v ===== *)
(** * domain/contract/number_rule.go: contract numbers

    The system-wide rule that contract numbers are built from, its
    normalisation, the bucket key of a year's sequence, and the assembly of a
    number.  SHA-256 is library code: its hexadecimal digest is a parameter. *)

From Stdlib Require Import Ascii.
From S2P Require Import Prelude GoStrings Decimal.

#[local] Open Scope string_scope.
#[local] Open Scope Z_scope.

Definition NumberYearSegmentNone : string := "NONE".
Definition NumberYearSegmentYY : string := "YY".
Definition NumberYearSegmentYYYY : string := "YYYY".
Definition ContractNumberMaxLength : Z := 64.
Definition ContractNumberAffixMaxLength : Z := 32.
Definition ContractNumberSeqWidthMin : Z := 1.
Definition ContractNumberSeqWidthMax : Z := 9.

Record ContractNumberRule : Type := mkRule {
  Prefix : string; YearSegment : string; SeqWidth : Z; Suffix : string;
  UpdatedBy : string; UpdatedAt : Z
}.

#[export] Instance ContractNumberRule_eq_dec : EqDecision ContractNumberRule.
Proof. solve_decision. Defined.

Definition DefaultContractNumberRule : ContractNumberRule :=
  mkRule "HT-" NumberYearSegmentYYYY 4 "" "" 0.

Definition ContractNumberAffixAllowed (char : Z) : bool :=
  ((65 <=? char) && (char <=? 90)) || ((97 <=? char) && (char <=? 122)) ||
  ((48 <=? char) && (char <=? 57)) ||
  (char =? 45) || (char =? 95) || (char =? 46) || (char =? 47).

Definition validateContractNumberAffix (value : string) : res unit :=
  fail_if (ContractNumberAffixMaxLength <? rune_count value) ErrInvalidNumberRule;;
  fail_if (negb (forallb ContractNumberAffixAllowed (runes value))) ErrInvalidNumberRule.

Definition contractNumberYearSegmentLength (segment : string) : Z :=
  if segment =s NumberYearSegmentYY then 2
  else if segment =s NumberYearSegmentYYYY then 4 else 0.

Definition NormalizeContractNumberRule `{GoUnicode} (rule : ContractNumberRule)
    : res ContractNumberRule :=
  let prefix := TrimSpace (Prefix rule) in
  let suffix := TrimSpace (Suffix rule) in
  let segment0 := ToUpper (TrimSpace (YearSegment rule)) in
  let segment := if empty_str segment0 then NumberYearSegmentYYYY else segment0 in
  let width := SeqWidth rule in
  validateContractNumberAffix prefix;;
  validateContractNumberAffix suffix;;
  fail_if (negb ((segment =s NumberYearSegmentNone) || (segment =s NumberYearSegmentYY) ||
                 (segment =s NumberYearSegmentYYYY))) ErrInvalidNumberRule;;
  fail_if ((width <? ContractNumberSeqWidthMin) || (ContractNumberSeqWidthMax <? width))
    ErrInvalidNumberRule;;
  let longest := rune_count prefix + contractNumberYearSegmentLength segment +
                 width + rune_count suffix in
  fail_if (ContractNumberMaxLength <? longest) ErrInvalidNumberRule;;
  mret (mkRule prefix segment width suffix (UpdatedBy rule) (UpdatedAt rule)).

(** [hex.EncodeToString(sha256.Sum256(s))]. *)
Class Sha256 := { sha256_hex : string → string }.

Definition nul : string := String "000"%char "".

(** The hashed text of [ContractNumberRuleKey]. *)
Definition key_material (r : ContractNumberRule) : string :=
  Prefix r +:+ nul +:+ YearSegment r +:+ nul +:+ Itoa (SeqWidth r) +:+ nul +:+ Suffix r.

Definition ContractNumberRuleKey `{GoUnicode} `{Sha256} (rule : ContractNumberRule)
    : res string :=
  normalized ← NormalizeContractNumberRule rule;
  mret (sha256_hex (key_material normalized)).

(** The loop that multiplies [limit] by ten [width] times, in [uint64]. *)
Definition ContractNumberSeqLimit (width : Z) : Z :=
  if (width <? ContractNumberSeqWidthMin) || (ContractNumberSeqWidthMax <? width) then 0
  else Nat.iter (Z.to_nat width) (λ limit, (limit * 10) mod 2 ^ 64) 1 - 1.

(** [fmt.Sprintf("%0*d", width, n)]: a sign takes one of the columns. *)
Definition sprintf_0d (width n : Z) : string :=
  of_bytes (if n <? 0 then chr 45 :: dec_pad (width - 1) (- n) else dec_pad width n).

(** Go's [%] truncates towards zero: [Z.rem]. *)
Definition contractNumberYearPart (segment : string) (year : Z) : string :=
  if segment =s NumberYearSegmentYY then sprintf_0d 2 (Z.rem (Z.rem year 100 + 100) 100)
  else if segment =s NumberYearSegmentYYYY then sprintf_0d 4 year
  else "".

Definition assemble_number (r : ContractNumberRule) (year sequence : Z) : string :=
  Prefix r +:+ contractNumberYearPart (YearSegment r) year +:+
  sprintf_0d (SeqWidth r) sequence +:+ Suffix r.

Definition BuildContractNumber `{GoUnicode} (rule : ContractNumberRule) (year sequence : Z)
    : res string :=
  normalized ← NormalizeContractNumberRule rule;
  fail_if (sequence =? 0) ErrInvalidNumberRule;;
  let limit := ContractNumberSeqLimit (SeqWidth normalized) in
  fail_if (limit <? sequence) ErrNumberExhausted;;
  let number := assemble_number normalized year sequence in
  fail_if (ContractNumberMaxLength <? rune_count number) ErrInvalidNumberRule;;
  mret number.

(** ** Well-formed rules *)

Definition affix_ok (s : string) : bool :=
  forallb (λ c, ContractNumberAffixAllowed (code c)) (bytes s) && (slen s <=? 32).
Definition segment_ok (s : string) : bool :=
  (s =s NumberYearSegmentNone) || (s =s NumberYearSegmentYY) || (s =s NumberYearSegmentYYYY).

Definition rule_ok (r : ContractNumberRule) : bool :=
  affix_ok (Prefix r) && affix_ok (Suffix r) && segment_ok (YearSegment r) &&
  (1 <=? SeqWidth r) && (SeqWidth r <=? 9) &&
  (slen (Prefix r) + contractNumberYearSegmentLength (YearSegment r) + SeqWidth r +
     slen (Suffix r) <=? 64).

Lemma allowed_range c : ContractNumberAffixAllowed c = true → 32 < c < 128.
Proof. unfold ContractNumberAffixAllowed. intros H. bool_cases; lia. Qed.

Lemma allowed_bytes s :
  forallb ContractNumberAffixAllowed (runes s) =
  forallb (λ c, ContractNumberAffixAllowed (code c)) (bytes s).
Proof.
  assert (∀ l, forallb (λ c, ContractNumberAffixAllowed (code c)) l =
    forallb ContractNumberAffixAllowed (map code l)) as Hm.
  { induction l as [|c l IH]; [done|]. simpl. by rewrite IH. }
  rewrite Hm. apply Bool.eq_iff_eq_true. unfold runes. split; intros H.
  - rewrite <- runes_of_ascii; [done|]. apply Forall_forall. intros r Hr%list_elem_of_In.
    rewrite forallb_forall in H. apply H, allowed_range in Hr. lia.
  - rewrite runes_of_ascii_bytes; [done|]. apply Forall_forall. intros c Hc%list_elem_of_In.
    rewrite forallb_forall in H. 
    pose proof (H (code c) (in_map code _ _ Hc)) as Ha. apply allowed_range in Ha. lia.
Qed.

Lemma affix_visible s : affix_ok s = true → Forall (λ c, 32 < code c < 128) (bytes s).
Proof.
  unfold affix_ok. intros [H _]%andb_true_iff. apply Forall_forall.
  intros c Hc%list_elem_of_In. rewrite forallb_forall in H. by apply allowed_range, H.
Qed.

Lemma rune_count_visible s :
  Forall (λ c, 32 < code c < 128) (bytes s) → rune_count s = slen s.
Proof.
  intros H. unfold rune_count, runes, slen.
  rewrite runes_of_ascii_bytes, length_map, length_bytes; [done|].
  eapply Forall_impl; [exact H|]. simpl. lia.
Qed.

Lemma affix_rune_count s : affix_ok s = true → rune_count s = slen s.
Proof. intros H. by apply rune_count_visible, affix_visible. Qed.

Lemma affix_trimmed s : affix_ok s = true → TrimSpace s = s.
Proof. intros H. by apply TrimSpace_id, trimmed_visible, affix_visible. Qed.

Lemma validate_affix_spec s u : validateContractNumberAffix s = Ok u ↔ affix_ok s = true.
Proof.
  unfold validateContractNumberAffix, ContractNumberAffixMaxLength.
  destruct u. rewrite bind_ok. setoid_rewrite fail_if_ok.
  split.
  - intros (_ & Hl & Ha%negb_false_iff). rewrite allowed_bytes in Ha. unfold affix_ok. rewrite Ha. simpl.
    rewrite Z.ltb_ge in Hl. apply Z.leb_le.
    rewrite rune_count_visible in Hl; [done|]. apply Forall_forall.
    intros c Hc%list_elem_of_In. rewrite forallb_forall in Ha. by apply allowed_range, Ha.
  - intros H. exists tt. rewrite (affix_rune_count s H).
    unfold affix_ok in H. apply andb_true_iff in H as [Ha H%Z.leb_le].
    rewrite allowed_bytes, Ha. split; [by apply Z.ltb_ge|done].
Qed.

Section Unicode.
Context `{GoUnicode}.

Lemma segment_fixed s : segment_ok s = true → ToUpper (TrimSpace s) = s ∧ empty_str s = false.
Proof. unfold segment_ok. intros Hs. bool_cases; apply streq_true in Hs as ->; done. Qed.

(** The exact outcome of a successful normalisation. *)
Lemma normalize_ok rule n :
  NormalizeContractNumberRule rule = Ok n →
  rule_ok n = true ∧ UpdatedBy n = UpdatedBy rule ∧ UpdatedAt n = UpdatedAt rule ∧
  SeqWidth n = SeqWidth rule ∧ Prefix n = TrimSpace (Prefix rule) ∧
  Suffix n = TrimSpace (Suffix rule).
Proof.
  unfold NormalizeContractNumberRule. intros Hn. inv_ok Hn.
  repeat match goal with E : validateContractNumberAffix _ = Ok _ |- _ =>
    apply validate_affix_spec in E end.
  unfold rule_ok. cbn [Prefix Suffix SeqWidth YearSegment UpdatedBy UpdatedAt].
  split_and!; auto.
  repeat match goal with E : fail_if _ _ = Ok _ |- _ => apply fail_if_ok in E end.
  bool_hyps.
  repeat match goal with E : affix_ok _ = true, L : context [rune_count ?s] |- _ =>
    rewrite (affix_rune_count s) in L by done end.
  unfold ContractNumberSeqWidthMin, ContractNumberSeqWidthMax, ContractNumberMaxLength in *.
  unfold segment_ok. rewrite !andb_true_iff. split_and!; try done; by apply Z.leb_le.
Qed.

Lemma normalize_fixed r : rule_ok r = true → NormalizeContractNumberRule r = Ok r.
Proof.
  unfold rule_ok. intros Hr. bool_hyps. unfold NormalizeContractNumberRule.
  rewrite (affix_trimmed (Prefix r)), (affix_trimmed (Suffix r)) by done.
  pose proof (segment_fixed (YearSegment r)) as [-> ->]; [done|].
  replace (validateContractNumberAffix (Prefix r)) with (Ok tt)
    by (symmetry; by apply validate_affix_spec).
  replace (validateContractNumberAffix (Suffix r)) with (Ok tt)
    by (symmetry; by apply validate_affix_spec).
  unfold segment_ok in *. rewrite !affix_rune_count by done.
  unfold ContractNumberSeqWidthMin, ContractNumberSeqWidthMax, ContractNumberMaxLength.
  match goal with E : _ || _ || _ = true |- _ => rewrite E end.
  rewrite (fail_if_pass (negb true)) by done. cbn [mbind res_bind].
  rewrite (fail_if_pass (_ || _)) by bool_lia. cbn [mbind res_bind].
  rewrite (fail_if_pass (64 <? _)) by (apply Z.ltb_ge; lia).
  by destruct r.
Qed.

End Unicode.

(** ** Assembled numbers *)

Lemma seq_limit w : 1 ≤ w ≤ 9 → ContractNumberSeqLimit w = 10 ^ w - 1.
Proof.
  intros Hw. assert (w ∈ [1; 2; 3; 4; 5; 6; 7; 8; 9]) as Hin by (set_unfold; lia).
  set_unfold. repeat destruct Hin as [->|Hin]; try done. 
Qed.

Lemma seq_bound w n : 1 ≤ w ≤ 9 → n ≤ ContractNumberSeqLimit w → n < 10 ^ w ∧ 10 ^ w ≤ 10 ^ 9.
Proof.
  intros Hw Hn. rewrite seq_limit in Hn by done.
  split; [lia|]. apply Z.pow_le_mono_r; lia.
Qed.

(** The year segment of years 0 to 9999. *)
Definition year_class (segment : string) (year : Z) : Z :=
  if segment =s NumberYearSegmentYY then year mod 100
  else if segment =s NumberYearSegmentYYYY then year else 0.

Lemma sprintf_0d_nonneg w n : 0 ≤ n → sprintf_0d w n = of_bytes (dec_pad w n).
Proof.
  intros Hn. unfold sprintf_0d. by replace (n <? 0) with false by (symmetry; apply Z.ltb_ge; lia).
Qed.

Lemma yy_part year : 0 ≤ year → Z.rem (Z.rem year 100 + 100) 100 = year mod 100.
Proof.
  intros Hy. rewrite (Z.rem_mod_nonneg year) by lia.
  pose proof (Z.mod_pos_bound year 100 ltac:(lia)).
  rewrite Z.rem_mod_nonneg by lia.
  rewrite <- Z.add_mod_idemp_r, Z.add_0_r by lia. by rewrite Z.mod_mod.
Qed.

(** Every field of a number is a block of allowed characters of known length. *)
Lemma year_part_spec segment year :
  segment_ok segment = true → 0 ≤ year ≤ 9999 →
  ∃ l, contractNumberYearPart segment year = of_bytes l ∧ forallb is_digit l = true ∧
    Z.of_nat (length l) = contractNumberYearSegmentLength segment ∧
    dec_value l = year_class segment year.
Proof.
  unfold segment_ok, contractNumberYearPart, contractNumberYearSegmentLength, year_class.
  intros Hs Hy. pose proof (Z.mod_pos_bound year 100 ltac:(lia)).
  destruct (segment =s NumberYearSegmentYY).
  - rewrite yy_part, sprintf_0d_nonneg by lia. exists (dec_pad 2 (year mod 100)).
    rewrite dec_pad_digits, length_dec_pad, dec_value_pad by lia. done.
  - destruct (segment =s NumberYearSegmentYYYY).
    + rewrite sprintf_0d_nonneg by lia. exists (dec_pad 4 year).
      rewrite dec_pad_digits, length_dec_pad, dec_value_pad by lia. done.
    + by exists [].
Qed.

Lemma digit_allowed l :
  forallb is_digit l = true → Forall (λ c, 32 < code c < 128) l.
Proof.
  intros H. apply Forall_forall. intros c Hc%list_elem_of_In.
  rewrite forallb_forall in H. apply H in Hc. unfold is_digit, within in Hc. bool_hyps. lia.
Qed.

Lemma rule_ok_fields r :
  rule_ok r = true →
  affix_ok (Prefix r) = true ∧ affix_ok (Suffix r) = true ∧ segment_ok (YearSegment r) = true ∧
  1 ≤ SeqWidth r ≤ 9 ∧
  slen (Prefix r) + contractNumberYearSegmentLength (YearSegment r) + SeqWidth r
    + slen (Suffix r) ≤ 64.
Proof. unfold rule_ok. intros H. bool_hyps. by split_and!. Qed.

(** A number's layout. *)
Lemma number_layout r year n :
  rule_ok r = true → 0 ≤ year ≤ 9999 → 1 ≤ n ≤ ContractNumberSeqLimit (SeqWidth r) →
  ∃ ly ln, assemble_number r year n =
      Prefix r +:+ of_bytes ly +:+ of_bytes ln +:+ Suffix r ∧
    forallb is_digit ly = true ∧ forallb is_digit ln = true ∧
    Z.of_nat (length ly) = contractNumberYearSegmentLength (YearSegment r) ∧
    length ln = Z.to_nat (SeqWidth r) ∧
    dec_value ly = year_class (YearSegment r) year ∧ dec_value ln = n.
Proof.
  intros (Hp & Hx & Hs & Hw & _)%rule_ok_fields Hy Hn.
  destruct (year_part_spec (YearSegment r) year Hs Hy) as (ly & Ely & Dy & Ly & Vy).
  destruct (seq_bound _ _ Hw (proj2 Hn)) as [Hlt Hle].
  exists ly, (dec_pad (SeqWidth r) n). unfold assemble_number.
  rewrite Ely, sprintf_0d_nonneg, dec_pad_digits, length_dec_pad, dec_value_pad by lia.
  done.
Qed.

Lemma number_rune_count r year n :
  rule_ok r = true → 0 ≤ year ≤ 9999 → 1 ≤ n ≤ ContractNumberSeqLimit (SeqWidth r) →
  rune_count (assemble_number r year n) ≤ 64.
Proof.
  intros Hr Hy Hn. destruct (number_layout r year n Hr Hy Hn)
    as (ly & ln & -> & Dy & Dn & Ly & Ln & _).
  apply rule_ok_fields in Hr as (Hp & Hx & _ & Hw & Hlen).
  rewrite rune_count_visible.
  - autorewrite with go_str. rewrite Ln. lia.
  - autorewrite with go_str. rewrite !Forall_app.
    split_and!; auto using affix_visible, digit_allowed.
Qed.

Lemma app_eq_same_length {A} (a b c d : list A) :
  length a = length c → (a ++ b = c ++ d)%list → a = c ∧ b = d.
Proof. intros Hl. by apply app_inj_1. Qed.

Lemma number_inj r y1 n1 y2 n2 :
  rule_ok r = true → 0 ≤ y1 ≤ 9999 → 0 ≤ y2 ≤ 9999 →
  1 ≤ n1 ≤ ContractNumberSeqLimit (SeqWidth r) → 1 ≤ n2 ≤ ContractNumberSeqLimit (SeqWidth r) →
  assemble_number r y1 n1 = assemble_number r y2 n2 →
  n1 = n2 ∧ year_class (YearSegment r) y1 = year_class (YearSegment r) y2.
Proof.
  intros Hr Hy1 Hy2 Hn1 Hn2 E.
  destruct (number_layout r y1 n1 Hr Hy1 Hn1) as (a & b & E1 & _ & _ & La & Lb & Va & Vb).
  destruct (number_layout r y2 n2 Hr Hy2 Hn2) as (c & d & E2 & _ & _ & Lc & Ld & Vc & Vd).
  rewrite E1, E2 in E. apply (f_equal bytes) in E. autorewrite with go_str in E.
  apply app_inv_head in E. apply app_eq_same_length in E as [-> E]; [|lia].
  apply app_eq_same_length in E as [-> _]; [|lia].
  split; congruence.
Qed.

(** The two sequence values give one number exactly when the year segment
    does not tell the years apart. *)
Lemma number_eq r y1 y2 n :
  rule_ok r = true → 0 ≤ y1 ≤ 9999 → 0 ≤ y2 ≤ 9999 →
  year_class (YearSegment r) y1 = year_class (YearSegment r) y2 →
  assemble_number r y1 n = assemble_number r y2 n.
Proof.
  intros _ Hy1 Hy2 E. unfold assemble_number. do 2 f_equal.
  unfold year_class, contractNumberYearPart in *.
  case_match; [by rewrite !yy_part, E by lia|]. case_match; by rewrite ?E.
Qed.

(** ** Keys *)

Lemma affix_no_nul s : affix_ok s = true → "000"%char ∉ bytes s.
Proof.
  intros Hs Hin. apply affix_visible in Hs. rewrite Forall_forall in Hs.
  apply Hs in Hin. assert (code "000"%char = 0) by done. lia.
Qed.

Lemma segment_no_nul s : segment_ok s = true → "000"%char ∉ bytes s.
Proof.
  unfold segment_ok. intros H.
  assert (∀ k, bool_decide ("000"%char ∉ bytes k) = true → "000"%char ∉ bytes k) as Hk
    by (intros k; apply bool_decide_eq_true_1).
  bool_cases; apply streq_true in H as ->; by apply Hk.
Qed.

Lemma width_text w : 1 ≤ w ≤ 9 → bytes (Itoa w) = dec w ∧ "000"%char ∉ dec w.
Proof.
  intros Hw. split.
  - unfold Itoa. replace (w <? 0) with false by bool_lia. apply bytes_of_bytes.
  - intros Hin. pose proof (digit_allowed (dec w) (dec_all_digits w ltac:(lia))) as H.
    rewrite Forall_forall in H. apply H in Hin.
    assert (code "000"%char = 0) by done. lia.
Qed.

Lemma key_material_split r :
  rule_ok r = true →
  split_bytes "000"%char (bytes (key_material r)) =
    [bytes (Prefix r); bytes (YearSegment r); dec (SeqWidth r); bytes (Suffix r)].
Proof.
  intros (Hp & Hx & Hs & Hw & _)%rule_ok_fields.
  destruct (width_text _ Hw) as [Ew Nw].
  unfold key_material. autorewrite with go_str. rewrite Ew.
  change (bytes nul) with ["000"%char]. cbn [app].
  rewrite split_bytes_app by (by apply affix_no_nul).
  rewrite split_bytes_app by (by apply segment_no_nul).
  rewrite split_bytes_app by done.
  by rewrite split_bytes_none by (by apply affix_no_nul).
Qed.

(** The fields that make numbers: everything but who changed the rule when. *)
Definition numbering (r : ContractNumberRule) : string * string * Z * string :=
  (Prefix r, YearSegment r, SeqWidth r, Suffix r).

Lemma key_material_inj a b :
  rule_ok a = true → rule_ok b = true → key_material a = key_material b →
  numbering a = numbering b.
Proof.
  intros Ha Hb E. pose proof (key_material_split a Ha) as Sa.
  rewrite E, (key_material_split b Hb) in Sa. injection Sa as E1 E2 E3 E4.
  apply rule_ok_fields in Ha as (_ & _ & _ & Hwa & _).
  apply rule_ok_fields in Hb as (_ & _ & _ & Hwb & _).
  apply bytes_inj in E1, E2, E4. apply dec_inj in E3; [|lia..].
  unfold numbering. congruence.
Qed.

(** ** Properties *)

(** Normalisation accepts a rule exactly when its result is well formed
    (allowed characters only, affixes of at most 32, a known year segment, a
    width of 1 to 9, and at most 64 characters in the longest number), and
    the results are exactly its fixed points. *)
Theorem normalize_rule_spec `{GoUnicode} rule n :
  (NormalizeContractNumberRule rule = Ok n →
     rule_ok n = true ∧ NormalizeContractNumberRule n = Ok n) ∧
  (NormalizeContractNumberRule n = Ok n ↔ rule_ok n = true) ∧
  (∀ e, NormalizeContractNumberRule rule = Err e → e = ErrInvalidNumberRule).
Proof.
  split_and!.
  - intros (Hn & _)%normalize_ok. auto using normalize_fixed.
  - split; [by intros (Hn & _)%normalize_ok|apply normalize_fixed].
  - unfold NormalizeContractNumberRule, validateContractNumberAffix.
    intros e He. by inv_err He.
Qed.

(** For an accepted rule and a four-digit year, building a number fails
    only for sequence 0 and for a sequence beyond the width's largest value,
    which is reported as exhaustion; otherwise the number has at most 64
    characters, so the final length check never fails. *)
Theorem build_number_total `{GoUnicode} rule n year sequence :
  NormalizeContractNumberRule rule = Ok n → 0 ≤ year ≤ 9999 → 0 ≤ sequence ≤ uint64_max →
  BuildContractNumber rule year sequence =
    (if sequence =? 0 then Err ErrInvalidNumberRule
     else if 10 ^ SeqWidth rule - 1 <? sequence then Err ErrNumberExhausted
     else Ok (assemble_number n year sequence)).
Proof.
  intros Hn Hy Hs. unfold BuildContractNumber. rewrite Hn. cbn [mbind res_bind].
  apply normalize_ok in Hn as (Hok & _ & _ & Ew & _).
  pose proof (rule_ok_fields n Hok) as (_ & _ & _ & Hw & _).
  rewrite <- Ew, seq_limit by done.
  destruct (sequence =? 0) eqn:E0; [done|]. cbn [fail_if mbind res_bind].
  destruct (_ <? sequence) eqn:El; [done|]. cbn [fail_if mbind res_bind]. bool_hyps.
  rewrite fail_if_pass; [done|]. apply Z.ltb_ge, number_rune_count; auto.
  rewrite seq_limit by done. lia.
Qed.

(** Two numbers built with one rule are equal exactly when their sequence
    values are equal and their years have the same year segment; within a
    year, different sequence values never give the same number. *)
Theorem build_number_injective `{GoUnicode} rule y1 s1 y2 s2 a b :
  0 ≤ y1 ≤ 9999 → 0 ≤ y2 ≤ 9999 → 0 ≤ s1 → 0 ≤ s2 →
  BuildContractNumber rule y1 s1 = Ok a → BuildContractNumber rule y2 s2 = Ok b →
  a = b ↔ s1 = s2 ∧ ∀ n, NormalizeContractNumberRule rule = Ok n →
    year_class (YearSegment n) y1 = year_class (YearSegment n) y2.
Proof.
  intros Hy1 Hy2 P1 P2 H1 H2. unfold BuildContractNumber in H1, H2.
  destruct (NormalizeContractNumberRule rule) as [n|] eqn:Hn; [|discriminate H1].
  cbn [mbind res_bind] in H1, H2. inv_ok H1. inv_ok H2. bool_hyps.
  apply normalize_ok in Hn as (Hok & _). split.
  - intros E. destruct (number_inj n y1 s1 y2 s2 Hok) as [-> Ey]; try lia; [done|].
    split; [done|]. by intros ? [= <-].
  - intros [-> Ey]. apply number_eq; auto.
Qed.

(** Rules with the same bucket key have the same numbering fields after
    normalisation, unless two different texts have one SHA-256 digest; rules
    that differ only in surrounding white space, in the case of the year
    segment or in audit data share their bucket. *)
Theorem rule_key_identifies `{GoUnicode} `{Sha256} a b na nb k :
  NormalizeContractNumberRule a = Ok na → NormalizeContractNumberRule b = Ok nb →
  ContractNumberRuleKey a = Ok k →
  (numbering na = numbering nb → ContractNumberRuleKey b = Ok k) ∧
  (ContractNumberRuleKey b = Ok k →
     numbering na = numbering nb ∨
     ∃ x y, x ≠ y ∧ sha256_hex x = sha256_hex y).
Proof.
  unfold ContractNumberRuleKey. intros Ha Hb. rewrite Ha, Hb. intros [= <-]. split.
  - intros [= E1 E2 E3 E4]. cbn. unfold key_material. by rewrite E1, E2, E3, E4.
  - intros [= E]. apply normalize_ok in Ha as (Ha & _), Hb as (Hb & _).
    destruct (decide (key_material na = key_material nb)) as [Em|Em].
    + left. by apply key_material_inj.
    + right. by exists (key_material na), (key_material nb).
Qed.

(** ** Concrete instances *)

Definition sample_sha : Sha256 := {| sha256_hex := λ s, s |}.
Definition sample_rule : ContractNumberRule := mkRule " HT- " "yyyy" 4 "" "admin" 7.
#[local] Existing Instance ascii_unicode.

Lemma normalize_sample :
  NormalizeContractNumberRule sample_rule = Ok (mkRule "HT-" "YYYY" 4 "" "admin" 7).
Proof. vm_compute. reflexivity. Qed.

Lemma build_number_total_witness :
  BuildContractNumber sample_rule 2026 42 = Ok "HT-20260042".
Proof.
  rewrite (build_number_total sample_rule _ 2026 42 normalize_sample);
    [vm_compute; reflexivity|lia|unfold uint64_max; lia].
Defined.

Lemma build_number_injective_witness : "HT-20260042" = "HT-20260042" ↔ 42 = 42 ∧
  ∀ n, NormalizeContractNumberRule sample_rule = Ok n →
    year_class (YearSegment n) 2026 = year_class (YearSegment n) 2026.
Proof. apply (build_number_injective sample_rule 2026 42 2026 42); try lia; vm_compute; reflexivity. Defined.

Lemma rule_key_identifies_witness :
  ∃ k, @ContractNumberRuleKey _ sample_sha DefaultContractNumberRule = Ok k ∧
       @ContractNumberRuleKey _ sample_sha sample_rule = Ok k.
Proof.
  eexists. split; [reflexivity|].
  eapply (@rule_key_identifies _ sample_sha DefaultContractNumberRule sample_rule);
    vm_compute; reflexivity.
Defined.
