(* ===== verification/PaymentTerm.v ===== *)
(** * Payment plans

    domain/contract/payment_term.go (the plan entered with a contract) and the
    parser of infrastructure/mysql/payment_terms.go (the plan read back before
    a financial event is written).  Amounts are cents in an [int64]. *)

From stdpp Require Import sorting.
From S2P Require Import Prelude GoStrings Decimal GoTime.

#[local] Open Scope string_scope.
#[local] Open Scope Z_scope.

Definition MaxPaymentTerms : Z := 100.

Record PaymentTerm : Type := mkTerm {
  InstallmentNo : Z; DueDate : string; Amount : string
}.

#[export] Instance PaymentTerm_eq_dec : EqDecision PaymentTerm.
Proof. solve_decision. Defined.

Definition dot : byte := chr 46.
Definition zero_char : byte := chr 48.

(** [for _, char := range s { if char < '0' || char > '9' { return err } }]. *)
Definition all_digit_runes (l : list byte) : bool :=
  forallb (λ r, (48 <=? r) && (r <=? 57)) (runes_of l).
(** [for len(fraction) < 2 { fraction += "0" }]. *)
Definition pad_fraction (l : list byte) : list byte :=
  l ++ replicate (2 - length l) zero_char.
(** [strings.TrimLeft(s, "0")]. *)
Fixpoint trim_zeros (l : list byte) : list byte :=
  match l with
  | c :: rest => if bool_decide (c = zero_char) then trim_zeros rest else l
  | [] => []
  end.

(** [strconv.ParseInt(s, 10, 64)]. *)
Definition ParseInt (l : list byte) (e : goerr) : res Z :=
  match parse_int64 l with Some n => Ok n | None => Err e end.

Definition PaymentAmountMinor (value : string) : res Z :=
  let value := TrimSpace value in
  let parts := split_bytes dot (bytes value) in
  let whole := nth 0 parts [] in
  fail_if ((2 <? Z.of_nat (length parts)) || bool_decide (whole = [])) ErrPaymentTermsInvalid;;
  let two := Z.of_nat (length parts) =? 2 in
  let fraction := if two then nth 1 parts [] else [] in
  fail_if (two && ((Z.of_nat (length fraction) =? 0) || (2 <? Z.of_nat (length fraction))))
    ErrPaymentTermsInvalid;;
  fail_if (negb (all_digit_runes (whole ++ fraction))) ErrPaymentTermsInvalid;;
  let digits := trim_zeros (whole ++ pad_fraction fraction) in
  if bool_decide (digits = []) then mret 0 else ParseInt digits ErrPaymentTermsInvalid.

(** [fmt.Sprintf("%d.%02d", minor/100, minor%100)] of a positive amount. *)
Definition formatAmountMinor (minor : Z) : string :=
  of_bytes (dec (minor / 100) ++ dot :: dec_pad 2 (minor mod 100)).

Definition currency_ok `{GoUnicode} (currency : string) : bool :=
  let currency := ToUpper (TrimSpace currency) in
  (slen currency =? 3) && forallb (λ r, (65 <=? r) && (r <=? 90)) (runes currency).

(** One turn of the loop over the terms: the numbers seen, the running total
    and the normalised term. *)
Definition normalize_term (seen : gset Z) (total : Z) (term : PaymentTerm)
    : res (gset Z * Z * PaymentTerm) :=
  let no := InstallmentNo term in
  fail_if ((no <? 1) || (MaxPaymentTerms <? no) || bool_decide (no ∈ seen))
    ErrPaymentTermsInvalid;;
  let date := TrimSpace (DueDate term) in
  due ← (match ParseDate date with Some d => Ok d | None => Err ErrPaymentTermsInvalid end);
  fail_if ((d_year due <? 1000) || negb (FormatDate due =s date)) ErrPaymentTermsInvalid;;
  minor ← PaymentAmountMinor (Amount term);
  fail_if ((minor <=? 0) || (wrap_int64 (int64_max - total) <? minor)) ErrPaymentTermsInvalid;;
  mret ({[no]} ∪ seen, wrap_int64 (total + minor), mkTerm no date (formatAmountMinor minor)).

Fixpoint normalize_terms (seen : gset Z) (total : Z) (terms : list PaymentTerm)
    : res (Z * list PaymentTerm) :=
  match terms with
  | [] => mret (total, [])
  | term :: rest =>
      r ← normalize_term seen total term;
      let '(seen', total', normal) := r in
      r' ← normalize_terms seen' total' rest;
      let '(final, out) := r' in
      mret (final, normal :: out)
  end.

Definition by_number (a b : PaymentTerm) : Prop := InstallmentNo a ≤ InstallmentNo b.
#[export] Instance by_number_dec : RelDecision by_number.
Proof. intros a b. unfold by_number. solve_decision. Defined.
#[export] Instance by_number_total : Total by_number.
Proof. intros a b. unfold by_number. lia. Qed.
#[export] Instance by_number_trans : Transitive by_number.
Proof. intros a b c. unfold by_number. lia. Qed.

(** [sort.Slice] by installment number; the numbers are distinct, so every
    sorting algorithm gives the same list. *)
Definition sort_terms : list PaymentTerm → list PaymentTerm := merge_sort by_number.

Definition NormalizePaymentTerms `{GoUnicode} (terms : list PaymentTerm) (amountMinor : Z)
    (currency : string) : res (list PaymentTerm) :=
  if bool_decide (terms = []) then mret terms else
  fail_if ((MaxPaymentTerms <? Z.of_nat (length terms)) || (amountMinor <=? 0))
    ErrPaymentTermsInvalid;;
  fail_if (negb (currency_ok currency)) ErrPaymentTermsInvalid;;
  r ← normalize_terms ∅ 0 terms;
  let '(total, result) := r in
  fail_if (negb (total =? amountMinor)) ErrPaymentTermsInvalid;;
  mret (sort_terms result).

(** ** infrastructure/mysql/payment_terms.go *)

(** [strings.SplitN(s, ".", 2)]. *)
Fixpoint split_first (sep : byte) (l : list byte) : list byte * option (list byte) :=
  match l with
  | [] => ([], None)
  | c :: rest =>
      if bool_decide (c = sep) then ([], Some rest)
      else let '(h, t) := split_first sep rest in (c :: h, t)
  end.

Definition parseAmountMinor (value : string) : res Z :=
  let trimmed := TrimSpace value in
  fail_if (empty_str trimmed) ErrPaymentTermsInvalid;;
  let '(whole, rest) := split_first dot (bytes trimmed) in
  let frac := default [] rest in
  fail_if (bool_decide (whole = []) || (2 <? Z.of_nat (length frac))) ErrPaymentTermsInvalid;;
  fail_if (negb (all_digit_runes (whole ++ frac))) ErrPaymentTermsInvalid;;
  minor ← ParseInt (whole ++ pad_fraction frac) ErrPaymentTermsInvalid;
  fail_if (minor <=? 0) ErrPaymentTermsInvalid;;
  mret minor.

(** The columns [normalizePaymentTerms] fills. *)
Record paymentTermRecord : Type := mkTermRecord {
  tr_InstallmentNo : Z; tr_DueDate : Date; tr_AmountMinor : Z
}.

Fixpoint normalize_records (seen : gset Z) (total limit : Z) (terms : list PaymentTerm)
    : res (Z * list paymentTermRecord) :=
  match terms with
  | [] => mret (total, [])
  | term :: rest =>
      let no := InstallmentNo term in
      fail_if (no <? 1) ErrPaymentTermsInvalid;;
      fail_if (bool_decide (no ∈ seen)) ErrPaymentTermsInvalid;;
      due ← (match ParseDate (TrimSpace (DueDate term)) with
             | Some d => Ok d | None => Err ErrPaymentTermsInvalid end);
      minor ← parseAmountMinor (Amount term);
      fail_if (wrap_int64 (limit - total) <? minor) ErrPaymentTermsInvalid;;
      r ← normalize_records ({[no]} ∪ seen) (wrap_int64 (total + minor)) limit rest;
      let '(final, out) := r in
      mret (final, mkTermRecord no due minor :: out)
  end.

Definition normalizePaymentTerms (terms : list PaymentTerm) (contractAmountMinor : Z)
    : res (list paymentTermRecord * Z) :=
  fail_if (bool_decide (terms = [])) ErrPaymentTermsInvalid;;
  r ← normalize_records ∅ 0 contractAmountMinor terms;
  let '(total, records) := r in
  fail_if (negb (total =? contractAmountMinor)) ErrPaymentTermsInvalid;;
  mret (records, total).

(** ** Amount texts *)

Lemma all_digit_runes_bytes l : all_digit_runes l = forallb is_digit l.
Proof.
  unfold all_digit_runes. apply Bool.eq_iff_eq_true. split; intros H.
  - rewrite runes_of_ascii in H.
    + rewrite forallb_forall in *. intros c Hc. apply (H (code c)), in_map, Hc.
    + apply Forall_forall. intros r Hr%list_elem_of_In. rewrite forallb_forall in H.
      apply H in Hr. bool_hyps. lia.
  - rewrite runes_of_ascii_bytes.
    + rewrite forallb_forall in *. intros r (c & <- & Hc)%in_map_iff. by apply H in Hc.
    + apply Forall_forall. intros c Hc%list_elem_of_In. rewrite forallb_forall in H.
      apply H in Hc. unfold is_digit, within in Hc. bool_hyps. lia.
Qed.

Lemma pad_fraction_digits l : forallb is_digit (pad_fraction l) = forallb is_digit l.
Proof.
  unfold pad_fraction. rewrite forallb_app.
  assert (∀ k, forallb is_digit (replicate k zero_char) = true) as ->
    by (intros k; induction k; [done|]; simpl; rewrite IHk; reflexivity).
  apply andb_true_r.
Qed.

Lemma dec_value_cons_zero l : dec_value (zero_char :: l) = dec_value l.
Proof. unfold dec_value. cbn [map]. apply (value_zeros 1). Qed.

Lemma trim_zeros_spec l :
  forallb is_digit l = true →
  forallb is_digit (trim_zeros l) = true ∧ dec_value (trim_zeros l) = dec_value l.
Proof.
  induction l as [|c l IH]; [done|]. cbn [trim_zeros forallb]. intros [Hc Hl]%andb_true_iff.
  destruct (bool_decide (c = zero_char)) eqn:E; [|cbn [forallb]; by rewrite Hc, Hl].
  apply bool_decide_eq_true in E as ->. rewrite dec_value_cons_zero. auto.
Qed.

Lemma trim_then_parse l :
  forallb is_digit l = true →
  (if bool_decide (trim_zeros l = []) then mret 0
   else ParseInt (trim_zeros l) ErrPaymentTermsInvalid) =
  if dec_value l <=? int64_max then Ok (dec_value l) else Err ErrPaymentTermsInvalid.
Proof.
  intros [Hd Hv]%trim_zeros_spec. rewrite <- Hv. unfold ParseInt.
  destruct (bool_decide _) eqn:E.
  - apply bool_decide_eq_true in E as ->. done.
  - apply bool_decide_eq_false in E. rewrite parse_int64_digits by done. by destruct (_ <=? _).
Qed.

(** The cents an amount text denotes, without any bound: digits, and at most
    one dot followed by one or two digits. *)
Definition amount_cents (value : string) : option Z :=
  match split_bytes dot (bytes (TrimSpace value)) with
  | [whole] =>
      if forallb is_digit whole && negb (bool_decide (whole = []))
      then Some (dec_value (whole ++ pad_fraction [])) else None
  | [whole; [f]] =>
      if forallb is_digit (whole ++ [f]) && negb (bool_decide (whole = []))
      then Some (dec_value (whole ++ pad_fraction [f])) else None
  | [whole; [f; g]] =>
      if forallb is_digit (whole ++ [f; g]) && negb (bool_decide (whole = []))
      then Some (dec_value (whole ++ [f; g])) else None
  | _ => None
  end.

Lemma payment_amount_eq value :
  PaymentAmountMinor value =
    match amount_cents value with
    | Some v => if v <=? int64_max then Ok v else Err ErrPaymentTermsInvalid
    | None => Err ErrPaymentTermsInvalid
    end.
Proof.
  unfold PaymentAmountMinor, amount_cents. 
  pose proof (split_bytes_nonempty dot (bytes (TrimSpace value))) as Hne.
  assert (∀ whole fraction : list byte,
    forallb is_digit (whole ++ fraction) = true →
    (if bool_decide (trim_zeros (whole ++ pad_fraction fraction) = []) then mret 0
     else ParseInt (trim_zeros (whole ++ pad_fraction fraction)) ErrPaymentTermsInvalid) =
    if dec_value (whole ++ pad_fraction fraction) <=? int64_max
    then Ok (dec_value (whole ++ pad_fraction fraction)) else Err ErrPaymentTermsInvalid) as Hend.
  { intros whole fraction Hd. apply trim_then_parse.
    rewrite forallb_app in *. by rewrite pad_fraction_digits. }
  destruct (split_bytes dot _) as [|whole [|fraction [|third rest]]]; [done| | |].
  - cbn [nth length]. change (2 <? Z.of_nat 1) with false. change (Z.of_nat 1 =? 2) with false.
    cbn [andb orb fail_if mbind res_bind]. rewrite all_digit_runes_bytes.
    destruct (bool_decide (whole = [])); [by rewrite andb_false_r|].
    specialize (Hend whole []). rewrite app_nil_r in *.
    destruct (forallb is_digit whole); [|done]. by apply Hend.
  - cbn [nth length]. change (2 <? Z.of_nat 2) with false. change (Z.of_nat 2 =? 2) with true.
    cbn [andb orb fail_if mbind res_bind]. rewrite all_digit_runes_bytes.
    destruct (bool_decide (whole = [])).
    { destruct fraction as [|f [|g [|]]]; rewrite ?andb_false_r; done. }
    specialize (Hend whole fraction).
    destruct fraction as [|f [|g [|h fraction]]]; try done.
    1, 2: cbn [length]; change (fail_if (_ || _)) with (fail_if false);
      cbn [fail_if mbind res_bind];
      destruct (forallb is_digit _); [by apply Hend|done].
    by rewrite (fail_if_fail (_ || _)) by (apply orb_true_iff; right; apply Z.ltb_lt; cbn [length]; lia).
  - cbn [nth length]. rewrite (fail_if_fail (_ || bool_decide _));
      [by destruct fraction as [|f [|g [|h fraction]]]|].
    apply orb_true_iff. left. apply Z.ltb_lt. lia.
Qed.

(** The texts the code writes denote the amount they were written for. *)
Lemma dot_not_digit l : forallb is_digit l = true → dot ∉ l.
Proof.
  intros H Hin%list_elem_of_In. rewrite forallb_forall in H. apply H in Hin.
  by vm_compute in Hin.
Qed.

Lemma visible_digit l :
  forallb is_digit l = true → Forall (λ c, 32 < code c < 128) l.
Proof.
  intros H. apply Forall_forall. intros c Hc%list_elem_of_In.
  rewrite forallb_forall in H. apply H in Hc. unfold is_digit, within in Hc. bool_hyps. lia.
Qed.

Lemma dec_value_app a b :
  dec_value (a ++ b) = dec_value a * 10 ^ Z.of_nat (length b) + dec_value b.
Proof.
  induction b as [|x b IH] using rev_ind.
  { rewrite app_nil_r. cbn. change (dec_value []) with 0. lia. }
  rewrite app_assoc, !dec_value_snoc, IH, length_app. cbn [length].
  replace (Z.of_nat (length b + 1)) with (Z.succ (Z.of_nat (length b))) by lia.
  rewrite Z.pow_succ_r by lia. ring.
Qed.

Section Format.
Variable m : Z.
Hypothesis Hm : 0 ≤ m ≤ int64_max.

Lemma format_parts :
  0 ≤ m / 100 < 10 ^ 20 ∧ 0 ≤ m mod 100 < 100.
Proof. unfold int64_max in Hm. Z.div_mod_to_equations. lia. Qed.

Lemma format_digits :
  forallb is_digit (dec (m / 100)) = true ∧ forallb is_digit (dec_pad 2 (m mod 100)) = true.
Proof. pose proof format_parts. split; [apply dec_all_digits|apply dec_pad_digits]; lia. Qed.

Lemma format_trimmed : TrimSpace (formatAmountMinor m) = formatAmountMinor m.
Proof.
  destruct format_digits as [H1 H2]. apply TrimSpace_id, trimmed_visible.
  unfold formatAmountMinor. rewrite bytes_of_bytes. apply Forall_app. split.
  - by apply visible_digit.
  - constructor; [vm_compute; done|by apply visible_digit].
Qed.

Lemma format_fraction : ∃ f g, dec_pad 2 (m mod 100) = [f; g].
Proof.
  pose proof format_parts as [_ H]. pose proof (length_dec_pad 2 (m mod 100) ltac:(lia) ltac:(lia)) as L.
  destruct (dec_pad 2 (m mod 100)) as [|f [|g [|]]]; try discriminate L. eauto.
Qed.

Lemma format_split :
  split_bytes dot (bytes (formatAmountMinor m)) = [dec (m / 100); dec_pad 2 (m mod 100)].
Proof.
  destruct format_digits as [H1 H2]. unfold formatAmountMinor. rewrite bytes_of_bytes.
  rewrite split_bytes_app by (by apply dot_not_digit).
  by rewrite split_bytes_none by (by apply dot_not_digit).
Qed.

Lemma format_value : dec_value (dec (m / 100) ++ dec_pad 2 (m mod 100)) = m.
Proof.
  pose proof format_parts as [H1 H2]. rewrite dec_value_app, length_dec_pad by lia.
  rewrite dec_value_dec, dec_value_pad by lia.
  change (10 ^ Z.of_nat (Z.to_nat 2)) with 100.
  pose proof (Z.div_mod m 100 ltac:(lia)). lia.
Qed.

Lemma amount_cents_format : amount_cents (formatAmountMinor m) = Some m.
Proof.
  unfold amount_cents. rewrite format_trimmed, format_split.
  destruct format_digits as [H1 H2]. pose proof format_value as Hv.
  destruct format_fraction as (f & g & E). rewrite E in *.
  rewrite forallb_app, H1, H2. rewrite bool_decide_false by apply dec_nonempty.
  cbn [andb negb]. by rewrite Hv.
Qed.

Lemma payment_amount_format : PaymentAmountMinor (formatAmountMinor m) = Ok m.
Proof.
  rewrite payment_amount_eq, amount_cents_format.
  by replace (m <=? int64_max) with true by bool_lia.
Qed.

Lemma split_first_app sep a b :
  sep ∉ a → split_first sep (a ++ sep :: b) = (a, Some b).
Proof.
  induction a as [|c a IH]; cbn [split_first app].
  - intros _. by rewrite bool_decide_true.
  - intros [Hc Ha]%not_elem_of_cons. rewrite bool_decide_false by congruence. by rewrite IH.
Qed.

Lemma parse_amount_format : 0 < m → parseAmountMinor (formatAmountMinor m) = Ok m.
Proof.
  intros Hpos. unfold parseAmountMinor. rewrite format_trimmed.
  destruct format_digits as [H1 H2]. pose proof format_value as Hv.
  destruct format_fraction as (f & g & E).
  rewrite fail_if_pass; cycle 1.
  { apply streq_false. intros Ee. apply (f_equal bytes) in Ee. unfold formatAmountMinor in Ee.
    rewrite bytes_of_bytes in Ee. by destruct (dec (m / 100)). }
  unfold formatAmountMinor. rewrite bytes_of_bytes, split_first_app by (by apply dot_not_digit).
  rewrite E in *. change (default [] (Some [f; g])) with [f; g]. cbn [mbind res_bind].
  rewrite all_digit_runes_bytes, forallb_app, H1, H2.
  rewrite bool_decide_false by apply dec_nonempty. cbn [length orb].
  change (fail_if (2 <? _)) with (fail_if false). cbn [fail_if mbind res_bind negb andb].
  change (pad_fraction [f; g]) with [f; g]. unfold ParseInt.
  rewrite parse_int64_digits, Hv.
  - replace (m <=? int64_max) with true by bool_lia. cbn [mbind res_bind].
    by rewrite fail_if_pass by bool_lia.
  - intros En. apply app_eq_nil in En as [_ ?]. done.
  - by rewrite forallb_app, H1, H2.
Qed.
End Format.

Lemma amount_cents_nonneg s v : amount_cents s = Some v → 0 ≤ v.
Proof.
  assert (∀ a b : list byte, forallb is_digit (a ++ b) = true →
    0 ≤ dec_value (a ++ pad_fraction b)) as Hn.
  { intros a b Hd. apply dec_value_range. rewrite forallb_app in *.
    by rewrite pad_fraction_digits. }
  unfold amount_cents. intros H. repeat case_match; try discriminate H;
    injection H as <-; bool_hyps.
  - apply (Hn l []). by rewrite app_nil_r.
  - by apply (Hn l [_]).
  - by apply (Hn l [_; _]).
Qed.

(** ** Whole plans *)

Definition term_cents (t : PaymentTerm) : Z := default 0 (amount_cents (Amount t)).
Definition plan_cents (terms : list PaymentTerm) : Z := foldr (λ t acc, term_cents t + acc) 0 terms.
Definition term_due (t : PaymentTerm) : option Date := ParseDate (TrimSpace (DueDate t)).

(** What one term must satisfy, without machine integers. *)
Definition term_ok (t : PaymentTerm) : bool :=
  (1 <=? InstallmentNo t) && (InstallmentNo t <=? MaxPaymentTerms) &&
  match term_due t with Some d => 1000 <=? d_year d | None => false end &&
  match amount_cents (Amount t) with Some v => 0 <? v | None => false end.

Definition normal_term (t : PaymentTerm) : PaymentTerm :=
  mkTerm (InstallmentNo t) (TrimSpace (DueDate t)) (formatAmountMinor (term_cents t)).

Lemma term_ok_cents t :
  term_ok t = true → ∃ v d, amount_cents (Amount t) = Some v ∧ term_cents t = v ∧ 0 < v ∧
    term_due t = Some d ∧ 1000 ≤ d_year d ∧ 1 ≤ InstallmentNo t ≤ MaxPaymentTerms.
Proof.
  unfold term_ok, term_cents. intros H. bool_hyps.
  destruct (term_due t) as [d|]; [|done]. destruct (amount_cents _) as [v|]; [|done].
  bool_hyps. exists v, d. by split_and!.
Qed.

Lemma plan_cents_nonneg terms : forallb term_ok terms = true → 0 ≤ plan_cents terms.
Proof.
  induction terms as [|t terms IH]; cbn [forallb plan_cents foldr]; [lia|].
  intros [Ht%term_ok_cents Hr]%andb_true_iff. destruct Ht as (v & d & _ & -> & ? & _).
  fold (plan_cents terms). specialize (IH Hr). lia.
Qed.

Lemma normalize_term_ok seen total t r :
  0 ≤ total ≤ int64_max →
  normalize_term seen total t = Ok r ↔
    term_ok t = true ∧ InstallmentNo t ∉ seen ∧ total + term_cents t ≤ int64_max ∧
    r = ({[InstallmentNo t]} ∪ seen, total + term_cents t, normal_term t).
Proof.
  intros Ht. assert (int64_max = 9223372036854775807) as Emax by done.
  assert (wrap_int64 (int64_max - total) = int64_max - total) as Ew
    by (apply wrap_int64_id; unfold in_int64, int64_min; lia).
  unfold normalize_term. rewrite Ew, payment_amount_eq. split.
  - intros H. inv_ok H. bool_hyps.
    destruct (ParseDate (TrimSpace (DueDate t))) as [d|] eqn:Ed; [|done]. inv_ok Hv0. bool_hyps.
    destruct (amount_cents (Amount t)) as [c|] eqn:Ev; [|done].
    destruct (c <=? int64_max) eqn:El; [|done]. inv_ok Hv2. bool_hyps.
    assert (term_cents t = v2) as Ec by (unfold term_cents; by rewrite Ev).
    rewrite wrap_int64_id by (unfold in_int64, int64_min; lia).
    unfold normal_term. rewrite Ec. split_and!; auto; [|lia].
    unfold term_ok, term_due. rewrite Ed, Ev. rewrite !andb_true_iff. split_and!; bool_lia.
  - intros (Hok & Hseen & Hsum & ->). apply term_ok_cents in Hok as (v & d & Ev & Ec & Hpos & Ed & Hy & Hno).
    unfold term_due in Ed. rewrite Ed, Ev. unfold normal_term. rewrite Ec in *.
    rewrite (bool_decide_false (_ ∈ seen)) by done.
    rewrite (fail_if_pass (_ || false)) by (rewrite orb_false_r; bool_lia). cbn [mbind res_bind].
    destruct (FormatDate_ParseDate _ _ Ed) as (-> & _). rewrite streq_refl.
    rewrite (fail_if_pass ((_ <? 1000) || _)) by bool_lia. cbn [mbind res_bind].
    replace (v <=? int64_max) with true by bool_lia. cbn [mbind res_bind].
    rewrite (fail_if_pass (_ || _)) by bool_lia. cbn [mbind res_bind].
    rewrite wrap_int64_id by (unfold in_int64, int64_min; lia). done.
Qed.

Lemma normalize_term_err seen total t e :
  normalize_term seen total t = Err e → e = ErrPaymentTermsInvalid.
Proof.
  unfold normalize_term. rewrite payment_amount_eq. intros H. inv_err H; try done.
  - destruct (ParseDate _); [done|]. by injection H as ->.
  - destruct (amount_cents _); [case_match|]; congruence.
Qed.

Lemma normalize_terms_ok seen total terms r :
  0 ≤ total ≤ int64_max →
  normalize_terms seen total terms = Ok r ↔
    forallb term_ok terms = true ∧ NoDup (map InstallmentNo terms) ∧
    (∀ t, t ∈ terms → InstallmentNo t ∉ seen) ∧
    total + plan_cents terms ≤ int64_max ∧
    r = (total + plan_cents terms, map normal_term terms).
Proof.
  revert seen total r. induction terms as [|t terms IH]; intros seen total r Hr.
  - cbn. split.
    + intros [= <-]. split_and!; auto; [constructor|set_solver|lia|].
      f_equal. lia.
    + intros (_ & _ & _ & _ & ->). f_equal. f_equal. lia.
  - cbn [normalize_terms forallb map plan_cents foldr]. fold (plan_cents terms). split.
    + intros H. inv_ok H. destruct v as [[seen' total'] normal]. inv_ok H.
      destruct v as [final out]. inv_ok H.
      apply normalize_term_ok in Hv as (Hok & Hs & Hsum & [= -> -> ->]); [|done].
      pose proof (term_ok_cents t Hok) as (v & d & _ & Ec & Hpos & _).
      apply IH in Hv0 as (Hall & Hnd & Hdis & Hle & [= -> ->]); [|lia].
      rewrite Hok, Hall. split_and!; auto; [| |lia|by rewrite Z.add_assoc].
      * constructor; [|done]. intros (t' & E & Hin)%list_elem_of_fmap.
        apply (Hdis t' Hin). rewrite E. set_solver.
      * intros t' [->|Hin]%elem_of_cons; [done|]. specialize (Hdis t' Hin). set_solver.
    + intros ([Hok Hall]%andb_true_iff & [Hno Hnd]%NoDup_cons & Hdis & Hle & ->).
      pose proof (term_ok_cents t Hok) as (v & d & _ & Ec & Hpos & _).
      pose proof (plan_cents_nonneg terms Hall).
      assert (normalize_term seen total t =
        Ok ({[InstallmentNo t]} ∪ seen, total + term_cents t, normal_term t)) as ->.
      { apply normalize_term_ok; [done|]. split_and!; auto; [|lia]. apply Hdis. set_solver. }
      cbn [mbind res_bind].
      assert (normalize_terms ({[InstallmentNo t]} ∪ seen) (total + term_cents t) terms =
        Ok (total + term_cents t + plan_cents terms, map normal_term terms)) as ->.
      { apply IH; [lia|]. split_and!; auto; [|lia]. intros t' Hin.
        assert (InstallmentNo t' ∉ seen) by (apply Hdis; set_solver).
        assert (InstallmentNo t' ≠ InstallmentNo t); [|set_solver].
        intros E. apply Hno. rewrite <- E. by apply list_elem_of_fmap_2. }
      cbn [mbind res_bind]. by rewrite Z.add_assoc.
Qed.

Lemma normalize_terms_err seen total terms e :
  normalize_terms seen total terms = Err e → e = ErrPaymentTermsInvalid.
Proof.
  revert seen total. induction terms as [|t terms IH]; intros seen total; [done|].
  cbn [normalize_terms]. intros H. inv_err H; [by eapply normalize_term_err|].
  destruct v as [[seen' total'] normal]. inv_err H; [by eapply IH|].
  by destruct v as [final out].
Qed.

(** What a whole plan must satisfy. *)
Definition plan_ok `{GoUnicode} (terms : list PaymentTerm) (amount : Z) (currency : string) : Prop :=
  Z.of_nat (length terms) ≤ MaxPaymentTerms ∧ 0 < amount ∧ currency_ok currency = true ∧
  forallb term_ok terms = true ∧ NoDup (map InstallmentNo terms) ∧
  plan_cents terms = amount.

#[export] Instance plan_ok_dec `{GoUnicode} terms amount currency :
  Decision (plan_ok terms amount currency).
Proof. unfold plan_ok. solve_decision. Defined.

Lemma plan_normalized `{GoUnicode} terms amount currency :
  in_int64 amount → terms ≠ [] →
  NormalizePaymentTerms terms amount currency =
    if bool_decide (plan_ok terms amount currency)
    then Ok (sort_terms (map normal_term terms)) else Err ErrPaymentTermsInvalid.
Proof.
  intros Ha Hne. unfold in_int64 in Ha. unfold NormalizePaymentTerms.
  rewrite (bool_decide_false (terms = [])) by done.
  assert (0 ≤ 0 ≤ int64_max) as H0 by done.
  case_bool_decide as Hok.
  - destruct Hok as (Hlen & Hpos & Hc & Hall & Hnd & Hsum).
    pass by bool_lia. pass by (by rewrite Hc).
    assert (normalize_terms ∅ 0 terms = Ok (0 + plan_cents terms, map normal_term terms)) as ->
      by (apply normalize_terms_ok; [done|]; split_and!; auto; [set_solver|lia]).
    cbn [mbind res_bind]. rewrite Hsum, Z.add_0_l, Z.eqb_refl. done.
  - match goal with |- ?m = _ => destruct m as [out|e] eqn:E end.
    + exfalso. apply Hok. inv_ok E. destruct v1 as [total result]. inv_ok E. bool_hyps.
      apply normalize_terms_ok in Hv1 as (Hall & Hnd & _ & Hle & [= -> ->]); [|done].
      split_and!; auto; lia.
    + f_equal. inv_err E; try done; [by eapply normalize_terms_err|].
      destruct v1. by inv_err E.
Qed.

(** ** The normalised plan *)

Lemma normal_term_cents t :
  term_ok t = true → term_cents t ≤ int64_max →
  amount_cents (Amount (normal_term t)) = Some (term_cents t).
Proof.
  intros (v & d & _ & Ec & Hpos & _)%term_ok_cents Hle. rewrite Ec in *.
  cbn [Amount normal_term]. rewrite Ec. apply amount_cents_format. lia.
Qed.

Lemma normal_term_ok t :
  term_ok t = true → term_cents t ≤ int64_max →
  term_ok (normal_term t) = true ∧ term_cents (normal_term t) = term_cents t ∧
  normal_term (normal_term t) = normal_term t.
Proof.
  intros Hok Hle. pose proof (normal_term_cents t Hok Hle) as Hc.
  assert (term_cents (normal_term t) = term_cents t) as E
    by (unfold term_cents at 1; by rewrite Hc).
  split_and!; [|done|].
  - apply term_ok_cents in Hok as (v & d & _ & Ec & Hpos & Hd & Hy & Hno).
    unfold term_ok. rewrite Hc. unfold term_due in *.
    cbn [InstallmentNo DueDate normal_term]. rewrite TrimSpace_idemp, Hd, Ec.
    rewrite !andb_true_iff. split_and!; bool_lia.
  - unfold normal_term at 1. rewrite E. unfold normal_term. cbn [InstallmentNo DueDate].
    by rewrite TrimSpace_idemp.
Qed.

Lemma plan_term_le terms t :
  forallb term_ok terms = true → t ∈ terms → term_cents t ≤ plan_cents terms.
Proof.
  induction terms as [|u terms IH]; [set_solver|]. cbn [forallb plan_cents foldr].
  fold (plan_cents terms). intros [Hu Hall]%andb_true_iff.
  pose proof (plan_cents_nonneg terms Hall).
  apply term_ok_cents in Hu as (v & d & _ & Ec & Hpos & _).
  intros [->|Hin]%elem_of_cons; [lia|]. specialize (IH Hall Hin). lia.
Qed.

Lemma forallb_perm {A} (f : A → bool) l k : l ≡ₚ k → forallb f l = forallb f k.
Proof.
  induction 1; cbn [forallb]; [done|congruence| |congruence].
  by rewrite !andb_assoc, (andb_comm (f y)).
Qed.

Lemma plan_cents_perm l k : l ≡ₚ k → plan_cents l = plan_cents k.
Proof. unfold plan_cents. induction 1; cbn [foldr]; lia. Qed.

Lemma sort_perm l : sort_terms l ≡ₚ l.
Proof. apply merge_sort_Permutation. Qed.

Lemma sort_sorted l : Sorted by_number (sort_terms l).
Proof. apply Sorted_merge_sort; apply _. Qed.

Lemma distinct_numbers l a b :
  NoDup (map InstallmentNo l) → a ∈ l → b ∈ l → InstallmentNo a = InstallmentNo b → a = b.
Proof.
  induction l as [|c l IH]; [set_solver|]. cbn [map]. intros [Hc Hnd]%NoDup_cons.
  intros [->|Ha]%elem_of_cons [->|Hb]%elem_of_cons E; auto.
  - exfalso. apply Hc. rewrite E. by apply list_elem_of_fmap_2.
  - exfalso. apply Hc. rewrite <- E. by apply list_elem_of_fmap_2.
Qed.

Lemma sort_fixed l :
  NoDup (map InstallmentNo l) → Sorted by_number l → sort_terms l = l.
Proof.
  intros Hnd Hs. apply (Sorted_unique_strong by_number); auto using sort_sorted, sort_perm.
  intros x y Hx Hy Hxy Hyx. rewrite sort_perm in Hx.
  apply (distinct_numbers l); auto. unfold by_number in *. lia.
Qed.

Lemma map_normal_id l :
  (∀ t, t ∈ l → normal_term t = t) → map normal_term l = l.
Proof.
  induction l as [|t l IH]; [done|]. intros H. cbn [map].
  rewrite (H t), IH; set_solver.
Qed.

Section Normalised.
Context `{GoUnicode} (terms : list PaymentTerm) (amount : Z) (currency : string).
Hypothesis Hamount : in_int64 amount.
Hypothesis Hok : plan_ok terms amount currency.
Let out := sort_terms (map normal_term terms).

Lemma terms_bound t : t ∈ terms → term_ok t = true ∧ term_cents t ≤ int64_max.
Proof using Hamount Hok.
  destruct Hok as (_ & _ & _ & Hall & _ & Hsum). intros Hin. split.
  - rewrite forallb_forall in Hall. by apply Hall, list_elem_of_In.
  - pose proof (plan_term_le terms t Hall Hin). unfold in_int64 in *. lia.
Qed.

Lemma out_elem t : t ∈ out → ∃ t0, t0 ∈ terms ∧ t = normal_term t0.
Proof using.
  unfold out. rewrite sort_perm. intros (t0 & -> & Hin)%list_elem_of_fmap. eauto.
Qed.

Lemma out_numbers : map InstallmentNo out ≡ₚ map InstallmentNo terms.
Proof using.
  unfold out. rewrite sort_perm, map_map. reflexivity.
Qed.

Lemma out_cents : plan_cents out = amount.
Proof using Hamount Hok.
  unfold out. rewrite (plan_cents_perm _ _ (sort_perm _)).
  pose proof terms_bound as Hb. destruct Hok as (_ & _ & _ & _ & _ & <-).
  clear -Hb. unfold plan_cents. induction terms as [|t l IH]; [done|]. cbn [map foldr].
  destruct (Hb t ltac:(set_solver)) as [Ht Hle].
  destruct (normal_term_ok t Ht Hle) as (_ & -> & _).
  rewrite IH; [done|]. intros u Hu. apply Hb. set_solver.
Qed.

Lemma out_plan_ok : plan_ok out amount currency.
Proof using Hamount Hok.
  destruct Hok as (Hlen & Hpos & Hc & Hall & Hnd & Hsum). split_and!; auto.
  - unfold out. rewrite (Permutation_length (sort_perm _)), length_map. done.
  - apply forallb_forall. intros t (t0 & Hin & ->)%list_elem_of_In%out_elem.
    by apply normal_term_ok; apply terms_bound.
  - rewrite out_numbers. done.
  - apply out_cents.
Qed.

Lemma out_fixed : sort_terms (map normal_term out) = out.
Proof using Hamount Hok.
  rewrite map_normal_id.
  - apply sort_fixed; [rewrite out_numbers; apply Hok|apply sort_sorted].
  - intros t (t0 & Hin & ->)%out_elem. by apply normal_term_ok; apply terms_bound.
Qed.

(** The repository's reading of a normalised term. *)
Definition term_record (t : PaymentTerm) : paymentTermRecord :=
  mkTermRecord (InstallmentNo t) (default (mkDate 0 1 1) (term_due t)) (term_cents t).

Lemma records_of_terms seen total l :
  (∀ t, t ∈ l → ∃ t0, t0 ∈ terms ∧ t = normal_term t0) →
  NoDup (map InstallmentNo l) → (∀ t, t ∈ l → InstallmentNo t ∉ seen) →
  0 ≤ total → total + plan_cents l ≤ amount →
  normalize_records seen total amount l = Ok (total + plan_cents l, map term_record l).
Proof using Hamount Hok.
  revert seen total. induction l as [|t l IH]; intros seen total Hl Hnd Hs H0 Hle.
  { cbn. by rewrite Z.add_0_r. }
  cbn [normalize_records plan_cents foldr map] in *. fold (plan_cents l) in *.
  destruct (Hl t ltac:(set_solver)) as (t0 & Hin & ->).
  destruct (terms_bound t0 Hin) as [Ht Hb].
  destruct (normal_term_ok t0 Ht Hb) as (Hn & Ec & _). rewrite Ec in *.
  apply term_ok_cents in Hn as (v & d & _ & Ec' & Hpos & Hd & _ & Hno).
  apply NoDup_cons in Hnd as [Hnew Hnd].
  assert (0 ≤ plan_cents l) as Hrest.
  { apply plan_cents_nonneg, forallb_forall. intros u Hu%list_elem_of_In.
    destruct (Hl u ltac:(set_solver)) as (u0 & Hu0 & ->).
    by apply normal_term_ok; apply terms_bound. }
  unfold in_int64 in Hamount. assert (int64_max = 9223372036854775807) by done.
  pass by bool_lia.
  pass by (apply bool_decide_eq_false; apply Hs; set_solver).
  unfold term_due in Hd. rewrite Hd. cbn [mbind res_bind].
  change (Amount (normal_term t0)) with (formatAmountMinor (term_cents t0)).
  rewrite (parse_amount_format (term_cents t0)) by lia. cbn [mbind res_bind].
  rewrite !wrap_int64_id by (unfold in_int64, int64_min; lia).
  pass by bool_lia.
  rewrite IH; [| set_solver | done | | lia | lia].
  - cbn [mbind res_bind]. unfold term_record at 2. unfold term_due. rewrite Hd, Ec.
    by rewrite Z.add_assoc.
  - intros u Hu. assert (InstallmentNo u ≠ InstallmentNo (normal_term t0)).
    { intros E. apply Hnew. rewrite <- E. by apply list_elem_of_fmap_2. }
    specialize (Hs u ltac:(set_solver)). set_solver.
Qed.
End Normalised.

(** The facts about an accepted plan; [term_text] is how a stored record is
    written back as a term. *)
Definition term_text (r : paymentTermRecord) : PaymentTerm :=
  mkTerm (tr_InstallmentNo r) (FormatDate (tr_DueDate r)) (formatAmountMinor (tr_AmountMinor r)).

Lemma term_text_record `{GoUnicode} terms amount currency t :
  in_int64 amount → plan_ok terms amount currency → t ∈ terms →
  term_text (term_record (normal_term t)) = normal_term t.
Proof.
  intros Ha Hok Ht. destruct (terms_bound terms amount currency Ha Hok t Ht) as [Hto Hb].
  destruct (normal_term_ok t Hto Hb) as (Hn & Ec & _).
  apply term_ok_cents in Hn as (v & d & _ & _ & _ & Hd & _).
  unfold term_text, term_record. cbn [tr_InstallmentNo tr_DueDate tr_AmountMinor].
  rewrite Hd, Ec. cbn [from_option id]. unfold term_due in Hd.
  apply FormatDate_ParseDate in Hd as [-> _]. cbn [DueDate normal_term].
  by rewrite TrimSpace_idemp.
Qed.

Lemma plan_stable `{GoUnicode} terms amount currency out :
  in_int64 amount → terms ≠ [] → NormalizePaymentTerms terms amount currency = Ok out →
  Sorted by_number out ∧ map InstallmentNo out ≡ₚ map InstallmentNo terms ∧
  plan_cents out = amount ∧
  NormalizePaymentTerms out amount currency = Ok out ∧
  normalizePaymentTerms out amount = Ok (map term_record out, amount) ∧
  map term_text (map term_record out) = out ∧ out ≠ [] ∧ plan_ok out amount currency.
Proof.
  intros Ha Hne. rewrite plan_normalized by done. case_bool_decide as Hok; [|done].
  intros [= <-]. set (out := sort_terms (map normal_term terms)).
  assert (out ≠ []) as Hout.
  { intros E. apply Hne. apply (f_equal length) in E. unfold out in E.
    rewrite (Permutation_length (sort_perm _)), length_map in E. by destruct terms. }
  pose proof (out_plan_ok terms amount currency Ha Hok) as Hok2. fold out in Hok2.
  pose proof (out_cents terms amount currency Ha Hok) as Hc. fold out in Hc.
  split_and!; auto.
  - apply sort_sorted.
  - apply out_numbers.
  - rewrite plan_normalized by done. rewrite bool_decide_true by done.
    f_equal. apply (out_fixed terms amount currency Ha Hok).
  - unfold normalizePaymentTerms. pass by (by apply bool_decide_eq_false).
    rewrite (records_of_terms terms amount currency Ha Hok); auto using out_elem; try lia.
    + cbn [mbind res_bind]. rewrite Z.add_0_l, Hc. pass by (by rewrite Z.eqb_refl). done.
    + apply Hok2.
    + set_solver.
  - rewrite map_map. rewrite <- (map_id out) at 2. apply map_ext_in.
    intros t (t0 & Hin & ->)%list_elem_of_In%out_elem.
    by apply (term_text_record terms amount currency).
Qed.

(** ** Properties *)

(** An amount text is accepted exactly when it is a decimal with at most
    two fraction digits whose value in cents fits 64 bits, and the result is
    that value: no rounding and no overflow; printing an amount and reading it
    back, with either parser, gives the amount. *)
Theorem payment_amount_exact s m :
  (PaymentAmountMinor s = Ok m ↔ amount_cents s = Some m ∧ 0 ≤ m ≤ int64_max) ∧
  (0 ≤ m ≤ int64_max → PaymentAmountMinor (formatAmountMinor m) = Ok m) ∧
  (0 < m ≤ int64_max → parseAmountMinor (formatAmountMinor m) = Ok m).
Proof.
  split_and!.
  - rewrite payment_amount_eq. destruct (amount_cents s) as [v|] eqn:E; [|naive_solver].
    pose proof (amount_cents_nonneg s v E). case_match; bool_hyps.
    + split; [by intros [= ->]|]. by intros [[= ->] _].
    + split; [done|]. intros [[= ->] ?]. lia.
  - apply payment_amount_format.
  - intros Hm. apply parse_amount_format; lia.
Qed.

(** C39: a plan is accepted exactly when it satisfies the plan conditions over
    unbounded integers (at most 100 terms with distinct numbers 1 to 100,
    valid dates from year 1000, positive amounts that add up to the contract
    amount, a three-letter currency); the 64-bit arithmetic decides exactly
    that, and the result is the list of normalised terms in number order. *)
Theorem normalize_plan_exact `{GoUnicode} terms amount currency :
  in_int64 amount → terms ≠ [] →
  NormalizePaymentTerms terms amount currency =
    (if bool_decide (plan_ok terms amount currency)
     then Ok (sort_terms (map normal_term terms)) else Err ErrPaymentTermsInvalid).
Proof. apply plan_normalized. Qed.

(** An accepted plan is sorted by installment, keeps the installments,
    sums to the contract amount, is unchanged by a second normalisation, and
    the repository's own check accepts it with the same total. *)
Theorem normalize_plan_stable `{GoUnicode} terms amount currency out :
  in_int64 amount → terms ≠ [] → NormalizePaymentTerms terms amount currency = Ok out →
  Sorted by_number out ∧ map InstallmentNo out ≡ₚ map InstallmentNo terms ∧
  plan_cents out = amount ∧
  NormalizePaymentTerms out amount currency = Ok out ∧
  normalizePaymentTerms out amount = Ok (map term_record out, amount).
Proof.
  intros Ha Hne Hn. destruct (plan_stable terms amount currency out Ha Hne Hn) as
    (? & ? & ? & ? & ? & _). done.
Qed.

(** ** Concrete instances *)

#[local] Existing Instance ascii_unicode.

Definition sample_terms : list PaymentTerm :=
  [mkTerm 2 " 2026-02-28" "20"; mkTerm 1 "2026-01-31" "10.5"].

Lemma payment_amount_exact_witness :
  PaymentAmountMinor "1234.5" = Ok 123450 ∧
  PaymentAmountMinor (formatAmountMinor 123450) = Ok 123450.
Proof.
  split; [apply (payment_amount_exact "1234.5" 123450)|
          apply (proj1 (proj2 (payment_amount_exact "" 123450)))];
    unfold int64_max; [|lia]. split; [vm_compute; reflexivity|lia].
Defined.

Lemma normalize_plan_exact_witness :
  NormalizePaymentTerms sample_terms 3050 "cny" =
    Ok [mkTerm 1 "2026-01-31" "10.50"; mkTerm 2 "2026-02-28" "20.00"].
Proof.
  rewrite (normalize_plan_exact sample_terms 3050 "cny");
    [vm_compute; reflexivity|unfold in_int64, int64_min, int64_max; lia|discriminate].
Defined.

Lemma normalize_plan_stable_witness :
  normalizePaymentTerms [mkTerm 1 "2026-01-31" "10.50"; mkTerm 2 "2026-02-28" "20.00"] 3050 =
    Ok ([mkTermRecord 1 (mkDate 2026 1 31) 1050; mkTermRecord 2 (mkDate 2026 2 28) 2000], 3050).
Proof.
  destruct (normalize_plan_stable sample_terms 3050 "cny"
    [mkTerm 1 "2026-01-31" "10.50"; mkTerm 2 "2026-02-28" "20.00"]) as (_ & _ & _ & _ & H).
  - unfold in_int64, int64_min, int64_max; lia.
  - discriminate.
  - vm_compute. reflexivity.
  - rewrite H. vm_compute. reflexivity.
Defined.
