(* ===== verification/ProjectService.v ===== *)
(** * domain/contract/project_service.go, model.go (service items)

    The projection of a contract's service items into the independently
    selectable items the project system receives. *)

From S2P Require Import Prelude GoStrings Decimal NumberRule.

#[local] Open Scope string_scope.
#[local] Open Scope Z_scope.
#[local] Open Scope list_scope.

Record SystemInfo : Type := mkSystem { sys_Name : string; sys_Level : string }.
#[export] Instance SystemInfo_eq_dec : EqDecision SystemInfo.
Proof. solve_decision. Defined.

Record ServiceItem : Type := mkItem {
  it_CategoryID : string; it_CategoryVersion : Z; it_SourceID : string; it_Name : string;
  it_ServiceType : string; it_Site : string; it_Batch : string; it_Category : string;
  it_Requirement : string; it_TestMode : string; it_Systems : list SystemInfo
}.
#[export] Instance ServiceItem_eq_dec : EqDecision ServiceItem.
Proof. solve_decision. Defined.

Record ProjectServiceItem : Type := mkProjectItem {
  ps_SourceID : string; ps_Name : string; ps_ServiceType : string; ps_Site : string;
  ps_Batch : string; ps_Category : string; ps_System : string; ps_SystemLevel : string;
  ps_Requirement : string; ps_TestMode : string
}.
#[export] Instance ProjectServiceItem_eq_dec : EqDecision ProjectServiceItem.
Proof. solve_decision. Defined.

(** [strings.Contains]. *)
Fixpoint Contains (s sub : string) : bool :=
  String.prefix sub s || match s with "" => false | String _ rest => Contains rest sub end.

Fixpoint firstProjectValue (values : list string) : string :=
  match values with
  | [] => ""
  | v :: rest => if empty_str (TrimSpace v) then firstProjectValue rest else TrimSpace v
  end.

(** [fmt.Sprintf("%s-%02d", prefix, n)]. *)
Definition numbered (prefix : string) (n : Z) : string := prefix +:+ "-" +:+ sprintf_0d 2 n.

Section ProjectServiceItems.
Context `{GoUnicode}.
Variable contractID : string.

Definition item_source_id (itemIndex : nat) (item : ServiceItem) : string :=
  let id := TrimSpace (it_SourceID item) in
  if empty_str id then numbered (TrimSpace contractID) (Z.of_nat itemIndex + 1) else id.

Definition item_systems (item : ServiceItem) : list SystemInfo :=
  match it_Systems item with [] => [mkSystem "" ""] | systems => systems end.

Definition item_mode (item : ServiceItem) : string :=
  let mode := ToUpper (TrimSpace (it_TestMode item)) in
  if empty_str mode then
    if Contains (it_ServiceType item) "渗透" ||
       Contains (ToLower (it_ServiceType item)) "penetration" then "PENETRATION" else "STANDARD"
  else mode.

Definition project_item (item : ServiceItem) (sourceID : string) (system : SystemInfo)
    : ProjectServiceItem :=
  mkProjectItem sourceID (firstProjectValue [it_Name item; it_ServiceType item])
    (TrimSpace (it_ServiceType item)) (firstProjectValue [it_Site item; "默认场所"])
    (firstProjectValue [it_Batch item; "默认批次"])
    (firstProjectValue [it_Category item; it_ServiceType item]) (TrimSpace (sys_Name system))
    (TrimSpace (sys_Level system)) (TrimSpace (it_Requirement item)) (item_mode item).

(** The inner loop, from system number [k]. *)
Fixpoint project_systems (item : ServiceItem) (sourceID : string) (many : bool) (k : nat)
    (systems : list SystemInfo) : list ProjectServiceItem :=
  match systems with
  | [] => []
  | system :: rest =>
      project_item item (if many then numbered sourceID (Z.of_nat k + 1) else sourceID) system
      :: project_systems item sourceID many (S k) rest
  end.

(** The outer loop, from item number [i]. *)
Fixpoint project_items (i : nat) (items : list ServiceItem) : list ProjectServiceItem :=
  match items with
  | [] => []
  | item :: rest =>
      let systems := item_systems item in
      project_systems item (item_source_id i item) (1 <? length systems)%nat 0 systems
      ++ project_items (S i) rest
  end.

Definition ProjectServiceItems (items : list ServiceItem) : list ProjectServiceItem :=
  project_items 0 items.

(** ** Lemmas *)

Definition systems_of (item : ServiceItem) : nat := length (item_systems item).

Lemma systems_of_pos item : (1 ≤ systems_of item)%nat.
Proof. unfold systems_of, item_systems. destruct (it_Systems item); simpl; lia. Qed.

Lemma project_systems_length item id many k systems :
  length (project_systems item id many k systems) = length systems.
Proof. revert k. induction systems; intros k; simpl; auto. Qed.

Lemma project_items_length i items :
  length (project_items i items) = foldr (λ item n, systems_of item + n)%nat 0%nat items.
Proof.
  revert i. induction items as [|item rest IH]; intros i; [done|].
  cbn [project_items foldr]. by rewrite length_app, project_systems_length, IH.
Qed.

(** What identifies a projected item: the number of its service item, and the
    number of its system when the item has several. *)
Fixpoint system_keys (i : nat) (many : bool) (k n : nat) : list (nat * option nat) :=
  match n with
  | O => []
  | S n' => (i, if many then Some k else None) :: system_keys i many (S k) n'
  end.
Fixpoint item_keys (i : nat) (items : list ServiceItem) : list (nat * option nat) :=
  match items with
  | [] => []
  | item :: rest =>
      system_keys i (1 <? systems_of item)%nat 0 (systems_of item) ++ item_keys (S i) rest
  end.
Definition key_id (key : nat * option nat) : string :=
  let id := numbered (TrimSpace contractID) (Z.of_nat key.1 + 1) in
  match key.2 with Some k => numbered id (Z.of_nat k + 1) | None => id end.

Lemma project_systems_ids item i many k systems :
  TrimSpace (it_SourceID item) = "" →
  map ps_SourceID (project_systems item (item_source_id i item) many k systems)
  = map key_id (system_keys i many k (length systems)).
Proof.
  intros Hb. assert (Hid : item_source_id i item = numbered (TrimSpace contractID) (Z.of_nat i + 1)).
  { unfold item_source_id. by rewrite Hb. }
  rewrite Hid. revert k. induction systems as [|s rest IH]; intros k; simpl; [done|].
  rewrite IH. by destruct many.
Qed.

Lemma project_ids i items :
  Forall (λ item, TrimSpace (it_SourceID item) = "") items →
  map ps_SourceID (project_items i items) = map key_id (item_keys i items).
Proof.
  intros Hb. revert i. induction Hb as [|item rest Hi Hb IH]; intros i; simpl; [done|].
  by rewrite !map_app, IH, project_systems_ids.
Qed.

Lemma system_keys_elem i many k n key :
  key ∈ system_keys i many k n →
  key.1 = i ∧ match key.2 with
              | Some j => many = true ∧ (k ≤ j < k + n)%nat | None => many = false end.
Proof.
  revert k. induction n as [|n IH]; intros k; simpl; [set_solver|].
  intros [->|Hk]%elem_of_cons.
  - destruct many; simpl; split; [done|split; [done|lia]|done|done].
  - apply IH in Hk as [-> Hk]. split; [done|]. destruct key.2; [|done].
    destruct Hk. split; [done|lia].
Qed.

Lemma system_keys_nodup i k n : NoDup (system_keys i (1 <? n)%nat k n).
Proof.
  destruct (1 <? n)%nat eqn:Hn.
  - clear Hn. revert k. induction n as [|n IH]; intros k; simpl; constructor; [|apply IH].
    intros Hin. apply system_keys_elem in Hin as [_ Hin]. simpl in Hin. lia.
  - apply Nat.ltb_ge in Hn. destruct n as [|[|n]]; simpl; [constructor| |lia].
    apply NoDup_singleton.
Qed.

Lemma item_keys_elem i items key :
  key ∈ item_keys i items → (i ≤ key.1 < i + length items)%nat ∧
    match key.2 with Some k => (k < foldr (λ it n, systems_of it + n)%nat 0%nat items)%nat
                | None => True end.
Proof.
  revert i. induction items as [|item rest IH]; intros i; simpl; [set_solver|].
  intros [Hk|Hk]%elem_of_app.
  - apply system_keys_elem in Hk as [-> Hk]. split; [lia|]. destruct key.2; lia.
  - apply IH in Hk as [Hi Hk]. split; [lia|]. destruct key.2; lia.
Qed.

Lemma item_keys_nodup i items : NoDup (item_keys i items).
Proof.
  revert i. induction items as [|item rest IH]; intros i; simpl; [constructor|].
  apply NoDup_app. split; [apply system_keys_nodup|]. split; [|apply IH].
  intros key H1 H2. apply system_keys_elem in H1 as [H1 _]. apply item_keys_elem in H2 as [H2 _].
  lia.
Qed.

Lemma bytes_numbered p n :
  0 ≤ n → bytes (numbered p n) = bytes p ++ chr 45 :: dec_pad 2 n.
Proof.
  intros Hn. unfold numbered. by rewrite !bytes_app, sprintf_0d_nonneg, bytes_of_bytes.
Qed.

Lemma dash_not_digit w n : 0 ≤ n → chr 45 ∉ dec_pad w n.
Proof.
  intros Hn Hin. pose proof (dec_pad_digits w n Hn) as Hd. rewrite forallb_forall in Hd.
  specialize (Hd _ (proj1 (list_elem_of_In _ _) Hin)). by vm_compute in Hd.
Qed.

(** The numbers of a derived identifier can be read back. *)
Definition key_parts (key : nat * option nat) : list (list byte) :=
  dec_pad 2 (Z.of_nat key.1 + 1) ::
  match key.2 with Some k => [dec_pad 2 (Z.of_nat k + 1)] | None => [] end.

Lemma key_id_parts key rest :
  bytes (key_id key) = bytes (TrimSpace contractID) ++ chr 45 :: rest →
  split_bytes (chr 45) rest = key_parts key.
Proof.
  destruct key as [i [k|]]; unfold key_id, key_parts; simpl; rewrite !bytes_numbered by lia;
    rewrite <- ?app_assoc; intros Hr; simplify_list_eq.
  - rewrite split_bytes_app by (apply dash_not_digit; lia).
    by rewrite split_bytes_none by (apply dash_not_digit; lia).
  - by rewrite split_bytes_none by (apply dash_not_digit; lia).
Qed.

Lemma key_id_prefix key : ∃ rest,
  bytes (key_id key) = bytes (TrimSpace contractID) ++ chr 45 :: rest.
Proof.
  destruct key as [i [k|]]; unfold key_id; simpl; rewrite !bytes_numbered by lia;
    rewrite <- ?app_assoc; simpl; by eexists.
Qed.

Definition small_key (key : nat * option nat) : Prop :=
  Z.of_nat key.1 + 1 < 10 ^ 20 ∧
  match key.2 with Some k => Z.of_nat k + 1 < 10 ^ 20 | None => True end.

Lemma list_eq_cons {A} (x y : A) (l k : list A) : x :: l = y :: k → x = y ∧ l = k.
Proof. by injection 1. Qed.

Lemma key_id_inj a b :
  small_key a → small_key b → key_id a = key_id b → a = b.
Proof.
  intros [Ha1 Ha2] [Hb1 Hb2] E. destruct (key_id_prefix a) as [rest Hr].
  pose proof (key_id_parts a rest Hr) as Pa. rewrite E in Hr.
  rewrite (key_id_parts b rest Hr) in Pa. destruct a as [i x], b as [j y].
  unfold key_parts in Pa; simpl in *. apply list_eq_cons in Pa as [Pi Px].
  apply (f_equal dec_value) in Pi. rewrite !dec_value_pad in Pi by lia.
  assert (i = j) as -> by lia.
  destruct x as [k|], y as [l|]; [|discriminate Px|discriminate Px|done].
  apply list_eq_cons in Px as [Px _].
  apply (f_equal dec_value) in Px. rewrite !dec_value_pad in Px by lia.
  do 2 f_equal. lia.
Qed.

End ProjectServiceItems.

(** ** Properties *)

(** Projection of the service items.  Every service item gives one
    projected item for each of its systems, and one when it has none.  When no
    service item carries a source identifier of its own, as for the contracts
    created from an external document, the derived identifiers are pairwise
    distinct, so that the project system can select and deduplicate the items
    independently. *)
Theorem project_items_identified `{GoUnicode} contractID items :
  Z.of_nat (length items) < 10 ^ 19 →
  Z.of_nat (foldr (λ item n, systems_of item + n)%nat 0%nat items) < 10 ^ 19 →
  Forall (λ item, TrimSpace (it_SourceID item) = "") items →
  length (ProjectServiceItems contractID items)
  = foldr (λ item n, systems_of item + n)%nat 0%nat items ∧
  NoDup (map ps_SourceID (ProjectServiceItems contractID items)).
Proof.
  intros Hl Hs Hb. unfold ProjectServiceItems. split.
  - apply project_items_length.
  - rewrite project_ids by done. apply NoDup_fmap_2_strong; [|apply item_keys_nodup].
    intros a b Ha Hb' E. apply item_keys_elem in Ha as [Ha1 Ha2], Hb' as [Hb1 Hb2].
    apply (key_id_inj contractID); [| |done]; (split; [lia|]).
    + destruct a.2; [lia|done].
    + destruct b.2; [lia|done].
Qed.

Definition sample_items : list ServiceItem :=
  [ mkItem "" 0 "" "" "等保测评" "" "" "" "" "" [mkSystem "OA" "3"; mkSystem "CRM" "2"];
    mkItem "" 0 " " "Web" "渗透测试" "" "" "" "" "" [] ].

Lemma project_items_identified_witness :
  length (ProjectServiceItems (H := ascii_unicode) "K1" sample_items) = 3%nat ∧
  NoDup (map ps_SourceID (ProjectServiceItems (H := ascii_unicode) "K1" sample_items)).
Proof.
  refine (project_items_identified (H := ascii_unicode) "K1" sample_items _ _ _);
    [vm_compute; reflexivity | vm_compute; reflexivity |].
  repeat constructor.
Defined.

Example sample_projection :
  map (λ p, (ps_SourceID p, ps_TestMode p))
    (ProjectServiceItems (H := ascii_unicode) "K1" sample_items)
  = [("K1-01-01", "STANDARD"); ("K1-01-02", "STANDARD"); ("K1-02", "PENETRATION")].
Proof. vm_compute. reflexivity. Qed.
