(* ===== verification/ImportPolicy.v ===== *)
(** * domain/contract/import_policy.go, import_origin.go, import.go, import_history.go

    What an import of historical contracts may declare: the policy of each
    import mode, the shape of a manifest and the evidence of a historical item. *)

From S2P Require Import Prelude GoStrings Decimal GoTime Status PaymentTerm ProjectService.

#[local] Open Scope string_scope.
#[local] Open Scope Z_scope.
#[local] Open Scope list_scope.

Definition ImportMode : Type := string.
Definition ImportNormal : ImportMode := "NORMAL".
Definition ImportArchiveOnly : ImportMode := "ARCHIVE_ONLY".
Definition ImportContinueLive : ImportMode := "CONTINUE_LIVE".
Definition ImportHistoricalClosed : ImportMode := "HISTORICAL_CLOSED".

Record ImportPolicy : Type := mkPolicy {
  ip_Version : Z; ip_ProjectMode : string; ip_FinanceMode : string; ip_ReportMode : string;
  ip_ResponsibilityMode : string; ip_SigningMode : string
}.
#[export] Instance ImportPolicy_eq_dec : EqDecision ImportPolicy.
Proof. solve_decision. Defined.

Definition validImportPresentation (p : ImportPolicy) : bool :=
  ((ip_ReportMode p =s "ARCHIVE_SEPARATE") || (ip_ReportMode p =s "HISTORICAL_SEPARATE")) &&
  (ip_SigningMode p =s "DECLARED_ONLY").

(** The [switch] on the mode. *)
Definition mode_allows (mode : ImportMode) (p : ImportPolicy) : bool :=
  if mode =s ImportArchiveOnly then
    (ip_ProjectMode p =s "NONE") && (ip_FinanceMode p =s "NONE") &&
    (ip_ReportMode p =s "ARCHIVE_SEPARATE") && (ip_ResponsibilityMode p =s "INACTIVE")
  else if mode =s ImportContinueLive then
    ((ip_ProjectMode p =s "CREATE_NEW") || (ip_ProjectMode p =s "LINK_EXISTING")) &&
    (ip_FinanceMode p =s "FULL_REPLAY") && (ip_ResponsibilityMode p =s "ACTIVATE_ON_RELEASE")
  else if mode =s ImportHistoricalClosed then
    (ip_ProjectMode p =s "NONE") && (ip_ResponsibilityMode p =s "INACTIVE") &&
    ((ip_FinanceMode p =s "EVIDENCE_ONLY") || (ip_FinanceMode p =s "FULL_REPLAY"))
  else false.

Definition ValidateImportPolicy (mode : ImportMode) (policy : option ImportPolicy) : res unit :=
  if empty_str mode || (mode =s ImportNormal) then
    match policy with Some _ => Err ErrImportPolicy | None => Ok tt end
  else match policy with
       | None => Err ErrImportPolicy
       | Some p =>
           fail_if (negb (ip_Version p =? 1) || negb (validImportPresentation p)) ErrImportPolicy;;
           fail_if (negb (mode_allows mode p)) ErrImportPolicy
       end.

(** [OperationalOrigin], on the columns it reads. *)
Definition OperationalOrigin (originImportItemID originKind : string) (importMode : ImportMode)
    (policy : option ImportPolicy) : bool :=
  if negb (empty_str originImportItemID) &&
     (negb (originKind =s "NORMAL") || negb (importMode =s ImportNormal)) then false
  else (empty_str originKind || (originKind =s "NORMAL")) &&
       (empty_str importMode || (importMode =s ImportNormal)) &&
       bool_decide (policy = None).

(** ** Manifests *)

(** The regular expression [^[A-Za-z0-9_.:-]{1,128}$]. *)
Definition key_char (c : byte) : bool :=
  within 65 90 c || within 97 122 c || within 48 57 c ||
  (code c =? 95) || (code c =? 46) || (code c =? 58) || (code c =? 45).
Definition importKey (s : string) : bool :=
  (1 <=? slen s) && (slen s <=? 128) && forallb key_char (bytes s).

Record ImportFact : Type := mkFact {
  f_SourceSystem : string; f_FactType : string; f_ExternalFactID : string
}.
#[export] Instance ImportFact_eq_dec : EqDecision ImportFact.
Proof. solve_decision. Defined.

Record ImportHistoryEvidence : Type := mkEvidence {
  e_DeclaredSignedDate : string; e_HistoricalStatus : string; e_HistoricalCustomerName : string;
  e_HistoricalOwnerLabel : string; e_TargetOwnerUserID : string; e_ExistingProjectID : string;
  e_ExpectedProjectVersion : Z; e_Relationship : string; e_OriginalContractRef : string;
  e_ExpectedFacts : option (list ImportFact); e_ReportRequiredChannels : string
}.

Record ImportMetadata : Type := mkMetadata {
  m_Title : string; m_ContractType : string; m_ServiceType : string; m_OpportunityID : string;
  m_OpportunityName : string; m_CounterpartySource : string; m_LocalCounterpartyID : string;
  m_CounterpartyVersion : Z; m_CategorySource : string; m_CRMCustomerID : Z;
  m_CustomerName : string; m_CustomerAddress : string; m_CustomerContact : string;
  m_CustomerPhone : string; m_Systems : list SystemInfo; m_ServiceItems : list ServiceItem;
  m_CustomerCreditLevel : string; m_AmountMinor : Z; m_Currency : string;
  m_PaymentTerms : list PaymentTerm; m_Content : string; m_StartDate : option Time;
  m_EndDate : option Time; m_ExternalPaperNumber : string; m_SalesName : string;
  m_CustomerType : string; m_Industry : string; m_Region : string
}.

Record ImportItem : Type := mkImportItem {
  i_Key : string; i_ExternalRecordID : string; i_Mode : ImportMode; i_SourceFileRef : string;
  i_Policy : option ImportPolicy; i_Metadata : ImportMetadata;
  i_HistoryEvidence : option ImportHistoryEvidence
}.

Record ImportManifest : Type := mkManifest {
  mf_SchemaVersion : Z; mf_SourceSystem : string; mf_Items : list ImportItem
}.

Definition is_normal (item : ImportItem) : bool := i_Mode item =s ImportNormal.

(** The test of one item, apart from the repetitions. *)
Definition item_ok (item : ImportItem) : bool :=
  importKey (i_Key item) && importKey (i_ExternalRecordID item) &&
  negb (empty_str (i_SourceFileRef item)) &&
  is_ok (ValidateImportPolicy (i_Mode item) (i_Policy item)) && negb (empty_str (i_Mode item)).

Fixpoint validate_items (normal : bool) (keys ids : list string) (items : list ImportItem)
    : res unit :=
  match items with
  | [] => Ok tt
  | item :: rest =>
      fail_if (xorb (is_normal item) normal) ErrImportMixedLifecycle;;
      fail_if (negb (item_ok item) || contains keys (i_Key item) ||
               contains ids (i_ExternalRecordID item)) ErrImportManifest;;
      validate_items normal (i_Key item :: keys) (i_ExternalRecordID item :: ids) rest
  end.

(** [Validate(max)]. *)
Definition ValidateManifest (m : ImportManifest) (max : Z) : res unit :=
  fail_if (negb (mf_SchemaVersion m =? 1) || (64 <? slen (mf_SourceSystem m)) ||
           negb (importKey (mf_SourceSystem m)) || (Z.of_nat (length (mf_Items m)) =? 0) ||
           (max <? Z.of_nat (length (mf_Items m)))) ErrImportManifest;;
  match mf_Items m with
  | [] => Err ErrPanic
  | first :: _ => validate_items (is_normal first) [] [] (mf_Items m)
  end.

(** ** The evidence of a historical item *)

Definition fact_key (f : ImportFact) : string :=
  f_SourceSystem f +:+ "/" +:+ f_FactType f +:+ "/" +:+ f_ExternalFactID f.

Definition fact_ok (f : ImportFact) : bool :=
  (slen (f_SourceSystem f) <=? 64) && importKey (f_SourceSystem f) &&
  importKey (f_ExternalFactID f) &&
  ((f_FactType f =s "RECEIPT") || (f_FactType f =s "ALLOCATION")).

Fixpoint validate_facts (seen : list string) (facts : list ImportFact) : res unit :=
  match facts with
  | [] => Ok tt
  | f :: rest =>
      fail_if (negb (fact_ok f) || contains seen (fact_key f)) ErrImportManifest;;
      validate_facts (fact_key f :: seen) rest
  end.

Definition live_statuses : list Status := ["active"; "in_progress"; "pending_pay"].
Definition closed_statuses : list Status := ["completed"; "terminated"; "archived"].

(** The statuses a historical contract of each mode may have had. *)
Definition mode_statuses (mode : ImportMode) : list Status :=
  if mode =s ImportArchiveOnly then ["archived"]
  else if mode =s ImportContinueLive then live_statuses
  else if mode =s ImportHistoricalClosed then closed_statuses else [].

Definition validate_project (p : ImportPolicy) (e : ImportHistoryEvidence)
    (start : option Time) : res unit :=
  fail_if ((64 <? slen (e_ExistingProjectID e)) || (128 <? slen (e_OriginalContractRef e)))
    ErrImportManifest;;
  fail_if (negb (ip_ProjectMode p =s "NONE") && bool_decide (start = None)) ErrImportManifest;;
  (if ip_ProjectMode p =s "LINK_EXISTING" then
     fail_if (empty_str (e_ExistingProjectID e) || (e_ExpectedProjectVersion e =? 0) ||
              empty_str (e_OriginalContractRef e) ||
              (negb (e_Relationship e =s "PRIMARY") && negb (e_Relationship e =s "SUPPLEMENT")))
       ErrImportManifest
   else
     fail_if (negb (empty_str (e_ExistingProjectID e)) ||
              negb (e_ExpectedProjectVersion e =? 0) || negb (empty_str (e_OriginalContractRef e)))
       ErrImportManifest);;
  fail_if ((ip_ProjectMode p =s "CREATE_NEW") && negb (e_Relationship e =s "PRIMARY"))
    ErrImportManifest.

Definition ValidateHistoryEvidence (item : ImportItem) : res unit :=
  if is_normal item then
    match i_HistoryEvidence item with Some _ => Err ErrImportManifest | None => Ok tt end
  else match i_HistoryEvidence item with
  | None => Err ErrImportManifest
  | Some e =>
      fail_if (negb (is_ok (ValidateImportPolicy (i_Mode item) (i_Policy item))) ||
               empty_str (e_TargetOwnerUserID e) || (64 <? slen (e_TargetOwnerUserID e)) ||
               (255 <? rune_count (e_HistoricalCustomerName e)) ||
               (128 <? rune_count (e_HistoricalOwnerLabel e))) ErrImportManifest;;
      fail_if (negb (empty_str (e_DeclaredSignedDate e)) &&
               bool_decide (ParseDate (e_DeclaredSignedDate e) = None)) ErrImportManifest;;
      fail_if (negb (e_ReportRequiredChannels e =s "API_ONLY") &&
               negb (e_ReportRequiredChannels e =s "API_AND_SOURCE_FACTS")) ErrImportManifest;;
      fail_if (negb (contains (mode_statuses (i_Mode item)) (e_HistoricalStatus e)))
        ErrImportManifest;;
      match i_Policy item with
      | None => Err ErrPanic
      | Some p =>
          validate_project p e (m_StartDate (i_Metadata item));;
          fail_if ((ip_FinanceMode p =s "FULL_REPLAY") &&
                   (bool_decide (e_ExpectedFacts e = None) ||
                    bool_decide (m_PaymentTerms (i_Metadata item) = []))) ErrImportManifest;;
          match e_ExpectedFacts e with
          | None => Ok tt
          | Some facts =>
              fail_if (1000 <? Z.of_nat (length facts)) ErrImportManifest;;
              validate_facts [] facts
          end
      end
  end.

(** ** Lemmas *)

Lemma fail_if_is_ok b e : is_ok (fail_if b e) = negb b.
Proof. by destruct b. Qed.

(** Only three pairs of project and finance mode survive, and only one of them
    hands the contract to the living business. *)
Lemma policy_cases mode policy :
  ValidateImportPolicy mode policy = Ok tt →
  (policy = None ∧ (mode = "" ∨ mode = ImportNormal)) ∨
  ∃ p, policy = Some p ∧ ip_Version p = 1 ∧ ip_SigningMode p = "DECLARED_ONLY" ∧
    mode_allows mode p = true.
Proof.
  unfold ValidateImportPolicy. destruct (empty_str mode || _) eqn:Hm.
  - destruct policy; [discriminate|]. intros _. left. split; [done|].
    apply orb_true_iff in Hm as [Hm|Hm]; apply streq_true in Hm; auto.
  - destruct policy as [p|]; [|discriminate]. intros H. inv_ok H. right. exists p.
    unfold validImportPresentation in *. bool_hyps. rewrite !streq_true in *. done.
Qed.

Lemma key_char_not_slash c : key_char c = true → c ≠ chr 47.
Proof. by intros H ->. Qed.

Lemma importKey_no_slash s : importKey s = true → chr 47 ∉ bytes s.
Proof.
  unfold importKey. intros H Hin. bool_hyps.
  match goal with H : forallb _ _ = true |- _ => rewrite forallb_forall in H; rename H into Hc end.
  apply (key_char_not_slash (chr 47)); [|done]. by apply Hc, list_elem_of_In.
Qed.

Lemma fact_key_inj f g :
  fact_ok f = true → fact_ok g = true → fact_key f = fact_key g → f = g.
Proof.
  destruct f as [s t x], g as [s' t' x']. unfold fact_ok, fact_key; simpl. intros Hf Hg E.
  bool_hyps. apply (f_equal bytes) in E. rewrite !bytes_app in E. simpl in E.
  assert (Hs : chr 47 ∉ bytes s ∧ chr 47 ∉ bytes s') by eauto using importKey_no_slash.
  apply (f_equal (split_bytes (chr 47))) in E.
  change (Ascii.Ascii true true true true false true false false) with (chr 47) in E.
  assert (Ht : ∀ t, (t =s "RECEIPT") || (t =s "ALLOCATION") = true → chr 47 ∉ bytes t).
  { intros u Hu. apply orb_true_iff in Hu as [Hu|Hu]; apply streq_true in Hu as ->;
      vm_compute; set_solver. }
  rewrite !split_bytes_app in E by (tauto || auto).
  rewrite !split_bytes_none in E by auto using importKey_no_slash.
  injection E as E1 E2 E3. f_equal; by apply bytes_inj.
Qed.

Lemma validate_facts_spec seen facts :
  validate_facts seen facts = Ok tt ↔
  Forall (λ f, fact_ok f = true) facts ∧ NoDup (map fact_key facts) ∧
  (∀ f, f ∈ facts → fact_key f ∉ seen).
Proof.
  revert seen. induction facts as [|f rest IH]; intros seen; cbn [validate_facts map].
  { split; [|done]. intros _. split; [constructor|]. split; [constructor|set_solver]. }
  rewrite bind_ok, Forall_cons, NoDup_cons. split.
  - intros (u & Hf & H). apply fail_if_ok in Hf. bool_hyps. apply IH in H as (Hall & Hnd & Hfresh).
    rewrite contains_false in *. split_and!; [done|done| |done|].
    + intros (g & E & Hg)%list_elem_of_fmap. pose proof (Hfresh g Hg). rewrite E in *. set_solver.
    + intros g [->|Hg]%elem_of_cons; [done|]. specialize (Hfresh g Hg). set_solver.
  - intros ((Hf & Hr) & (Hn & Hd) & Hs). exists tt. split.
    + apply fail_if_pass. rewrite Hf. simpl. apply contains_false. apply Hs. set_solver.
    + apply IH. split_and!; [done|done|]. intros g Hg. apply not_elem_of_cons. split; [|set_solver].
      intros E. apply Hn. rewrite <- E. by apply list_elem_of_fmap_2.
Qed.

Lemma facts_nodup facts :
  Forall (λ f, fact_ok f = true) facts → NoDup (map fact_key facts) → NoDup facts.
Proof. intros _. apply NoDup_fmap_1. Qed.

(** The items still to check: none of their keys was seen. *)
Definition items_ok (normal : bool) (keys ids : list string) (items : list ImportItem) : Prop :=
  Forall (λ i, is_normal i = normal ∧ item_ok i = true) items ∧
  NoDup (map i_Key items) ∧ NoDup (map i_ExternalRecordID items) ∧
  (∀ i, i ∈ items → i_Key i ∉ keys ∧ i_ExternalRecordID i ∉ ids).

Lemma items_ok_cons normal keys ids item rest :
  items_ok normal keys ids (item :: rest) ↔
  is_normal item = normal ∧ item_ok item = true ∧ i_Key item ∉ keys ∧
  i_ExternalRecordID item ∉ ids ∧
  items_ok normal (i_Key item :: keys) (i_ExternalRecordID item :: ids) rest.
Proof.
  unfold items_ok. cbn [map]. rewrite Forall_cons, !NoDup_cons. split.
  - intros ((Hn & Hr) & (Hk & Hks) & (Hi & His) & Hs).
    destruct (Hs item ltac:(set_solver)). destruct Hn. split_and!; try done.
    intros i Hi'. destruct (Hs i ltac:(set_solver)).
    split; apply not_elem_of_cons; (split; [|done]); intros E.
    + apply Hk. rewrite <- E. by apply list_elem_of_fmap_2.
    + apply Hi. rewrite <- E. by apply list_elem_of_fmap_2.
  - intros (Hn & Ho & Hk & Hi & Hr & Hks & His & Hs). split_and!; try done.
    + intros (j & E & Hj)%list_elem_of_fmap. apply Hs in Hj as [Hj _]. set_solver.
    + intros (j & E & Hj)%list_elem_of_fmap. apply Hs in Hj as [_ Hj]. set_solver.
    + intros j [->|Hj]%elem_of_cons; [done|]. apply Hs in Hj as [H1 H2]. set_solver.
Qed.

Lemma validate_items_ok normal keys ids items :
  validate_items normal keys ids items = Ok tt ↔ items_ok normal keys ids items.
Proof.
  revert keys ids. induction items as [|item rest IH]; intros keys ids; cbn [validate_items].
  { split; [|done]. intros _. unfold items_ok. split_and!; try constructor; set_solver. }
  rewrite items_ok_cons, <- IH, bind_ok. split.
  - intros (u & Hx & H). apply fail_if_ok in Hx. apply bind_ok in H as (v & Hy & H).
    apply fail_if_ok in Hy. bool_hyps. rewrite contains_false in *.
    split_and!; try done. by destruct (is_normal item), normal.
  - intros (Hn & Ho & Hk & Hi & H). exists tt. split.
    { apply fail_if_pass. rewrite Hn. by destruct normal. }
    rewrite bind_pass; [done|]. rewrite Ho. simpl. apply orb_false_iff.
    by rewrite !contains_false.
Qed.

(** The first error is that of the first item that breaks a rule. *)
Lemma validate_items_err normal keys ids items e :
  validate_items normal keys ids items = Err e →
  (e = ErrImportMixedLifecycle ∧ ∃ i, i ∈ items ∧ is_normal i ≠ normal) ∨ e = ErrImportManifest.
Proof.
  revert keys ids. induction items as [|item rest IH]; intros keys ids; cbn [validate_items];
    [discriminate|].
  intros H. apply bind_err in H as [H|(u & _ & H)].
  - apply fail_if_err in H as [Hx <-]. left. split; [done|]. exists item. split; [set_solver|].
    by destruct (is_normal item), normal.
  - apply bind_err in H as [H|(v & _ & H)].
    + apply fail_if_err in H as [_ <-]. by right.
    + apply IH in H as [(-> & i & Hi & Hn)| ->]; [left|by right]. split; [done|].
      exists i. split; [set_solver|done].
Qed.

(** ** Properties *)

(** Manifests.  A manifest is accepted exactly when its schema, its source
    and its size are within the limits, all its items belong to the same life
    cycle, each is well formed under a policy its mode allows, and neither item
    keys nor external record identifiers repeat.  A mixture of life cycles is
    the only reason for [ErrImportMixedLifecycle]. *)
Theorem manifest_validate_spec m max :
  (ValidateManifest m max = Ok tt ↔
   mf_SchemaVersion m = 1 ∧ slen (mf_SourceSystem m) ≤ 64 ∧
   importKey (mf_SourceSystem m) = true ∧ 1 ≤ Z.of_nat (length (mf_Items m)) ≤ max ∧
   (∃ normal, Forall (λ i, is_normal i = normal ∧ item_ok i = true) (mf_Items m)) ∧
   NoDup (map i_Key (mf_Items m)) ∧ NoDup (map i_ExternalRecordID (mf_Items m))) ∧
  (∀ e, ValidateManifest m max = Err e →
   e = ErrImportManifest ∨
   (e = ErrImportMixedLifecycle ∧
    ∃ i j, i ∈ mf_Items m ∧ j ∈ mf_Items m ∧ is_normal i ≠ is_normal j)).
Proof.
  unfold ValidateManifest. split.
  - rewrite bind_ok. split.
    + intros (u & Hf & H). apply fail_if_ok in Hf. bool_hyps.
      destruct (mf_Items m) as [|first rest] eqn:Hi; [discriminate H|].
      apply validate_items_ok in H as (Ha & Hk & Hx & _).
      split_and!; try done; [lia|by eexists].
    + intros (Hv & Hs & Hk & Hl & (normal & Ha) & Hks & His). exists tt. split.
      { apply fail_if_pass. rewrite Hk. bool_lia. }
      destruct (mf_Items m) as [|first rest] eqn:Hi; [simpl in Hl; lia|].
      apply validate_items_ok. unfold items_ok. split_and!; [|done|done|set_solver].
      pose proof (Forall_inv Ha) as [E _]. by rewrite E.
  - intros e H. apply bind_err in H as [H|(u & Hf & H)].
    { apply fail_if_err in H as [_ <-]. by left. }
    apply fail_if_ok in Hf. bool_hyps.
    destruct (mf_Items m) as [|first rest] eqn:Hi; [done|].
    apply validate_items_err in H as [(-> & i & Hin & Hn)| ->]; [right|by left].
    split; [done|]. exists i, first. split_and!; [done|set_solver|done].
Qed.

(** Historical evidence.  Evidence that is accepted belongs to an item
    whose policy is legal for its mode, names a responsible owner, declares one
    of the statuses that mode covers, and lists no external fact twice; an item
    that hands the contract to the living business has a start date and, since
    its finance is replayed, a payment plan and expected facts. *)
Theorem history_evidence_consistent item e :
  ValidateHistoryEvidence item = Ok tt → i_HistoryEvidence item = Some e →
  ∃ p, i_Policy item = Some p ∧ mode_allows (i_Mode item) p = true ∧
    e_TargetOwnerUserID e ≠ "" ∧ e_HistoricalStatus e ∈ mode_statuses (i_Mode item) ∧
    (∀ facts, e_ExpectedFacts e = Some facts → NoDup facts ∧ Z.of_nat (length facts) ≤ 1000) ∧
    (i_Mode item = ImportContinueLive →
     is_Some (m_StartDate (i_Metadata item)) ∧ is_Some (e_ExpectedFacts e) ∧
     m_PaymentTerms (i_Metadata item) ≠ []).
Proof.
  unfold ValidateHistoryEvidence. intros H He. rewrite He in H.
  destruct (is_normal item) eqn:Hn; [discriminate|].
  apply bind_ok in H as (u1 & Hg1 & H). apply fail_if_ok in Hg1. bool_hyps.
  apply bind_ok in H as (u2 & _ & H). apply bind_ok in H as (u3 & _ & H).
  apply bind_ok in H as (u4 & Hg4 & H). apply fail_if_ok in Hg4. bool_hyps.
  destruct (i_Policy item) as [p|] eqn:Hp; [|discriminate].
  destruct (ValidateImportPolicy (i_Mode item) (Some p)) as [[]|] eqn:Hv; [|done].
  apply policy_cases in Hv as [[? ?]|(p' & [= <-] & _ & _ & Hm)]; [done|].
  apply bind_ok in H as (u5 & Hg5 & H). apply bind_ok in H as (u6 & Hg6 & H).
  apply fail_if_ok in Hg6. unfold validate_project in Hg5.
  apply bind_ok in Hg5 as (u7 & _ & Hg5). apply bind_ok in Hg5 as (u8 & Hg8 & _).
  apply fail_if_ok in Hg8. exists p. split_and!; try done.
  - by apply streq_false.
  - by apply contains_spec.
  - intros facts Hf. rewrite Hf in H. apply bind_ok in H as (u9 & Hg9 & H).
    apply fail_if_ok in Hg9. bool_hyps. apply validate_facts_spec in H as (Ha & Hd & _).
    split; [by apply NoDup_fmap_1 in Hd|lia].
  - intros Hc. rewrite Hc in Hm. unfold mode_allows in Hm. 
    change (ImportContinueLive =s ImportArchiveOnly) with false in Hm.
    change (ImportContinueLive =s ImportContinueLive) with true in Hm. cbv iota in Hm.
    bool_hyps. rewrite streq_true in *.
    match goal with H : ip_FinanceMode p = _ |- _ => rewrite H in Hg6 end.
    change ("FULL_REPLAY" =s "FULL_REPLAY") with true in Hg6. simpl in Hg6. bool_hyps.
    match goal with H : _ || _ = true |- _ => rename H into Hpm end.
    assert (Hnone : (ip_ProjectMode p =s "NONE") = false).
    { apply orb_true_iff in Hpm as [E|E]; apply streq_true in E as ->; reflexivity. }
    rewrite Hnone in Hg8. simpl in Hg8. bool_hyps. rewrite <- !not_eq_None_Some. done.
Qed.

Definition sample_policy : ImportPolicy :=
  mkPolicy 1 "CREATE_NEW" "FULL_REPLAY" "HISTORICAL_SEPARATE" "ACTIVATE_ON_RELEASE" "DECLARED_ONLY".
Definition sample_evidence : ImportHistoryEvidence :=
  mkEvidence "2024-02-29" "active" "ACME" "Li" "U1" "" 0 "PRIMARY" ""
    (Some [mkFact "erp" "RECEIPT" "R-1"; mkFact "erp" "ALLOCATION" "R-1"]) "API_ONLY".
Definition sample_metadata : ImportMetadata :=
  mkMetadata "T" "" "" "" "" "" "" 0 "" 0 "ACME" "" "" "" [] [] "" 100 "CNY"
    [mkTerm 1 "2024-03-01" "1.00"] "" (Some 0) None "" "" "" "" "".
Definition sample_import : ImportItem :=
  mkImportItem "k1" "ext:1" ImportContinueLive "f1" (Some sample_policy) sample_metadata
    (Some sample_evidence).

Lemma history_evidence_consistent_witness :
  ∃ p, i_Policy sample_import = Some p ∧ mode_allows ImportContinueLive p = true.
Proof.
  destruct (history_evidence_consistent sample_import sample_evidence) as (p & Hp & Hm & _);
    [vm_compute; reflexivity | reflexivity |].
  exists p. split; [exact Hp|exact Hm].
Defined.

Example manifest_accepted :
  ValidateManifest (mkManifest 1 "erp" [sample_import]) 10 = Ok tt.
Proof. vm_compute. reflexivity. Qed.
Example manifest_mixed :
  ValidateManifest (mkManifest 1 "erp"
    [sample_import; mkImportItem "k2" "ext:2" ImportNormal "f2" None sample_metadata None]) 10
  = Err ErrImportMixedLifecycle.
Proof. vm_compute. reflexivity. Qed.
