(* ===== verification/Utf8.v ===== *)
(** * Cutting a message to a column width

    [for index := range message] visits the first byte of every rune.  Two ways
    of cutting a message live in the code: at a rune boundary
    ([TruncateImportCRMProvisionMessage], domain/contract/import_crm_provision.go)
    and at a byte ([message[:1000]], the delivery outboxes of
    infrastructure/mysql). *)

From S2P Require Import Prelude GoStrings.

#[local] Open Scope string_scope.
#[local] Open Scope Z_scope.
#[local] Open Scope list_scope.

(** The number of bytes [utf8.DecodeRune] consumes. *)
Definition rune_width (l : list byte) : nat :=
  match l with
  | [] => 0%nat
  | b :: l1 =>
      if code b <? 0x80 then 1%nat
      else match l1 with
      | [] => 1%nat
      | c :: l2 =>
          if enc2 b c then 2%nat
          else match l2 with
          | [] => 1%nat
          | d :: l3 =>
              if enc3 b c d then 3%nat
              else match l3 with
                   | [] => 1%nat
                   | e :: _ => if enc4 b c d e then 4%nat else 1%nat
                   end
          end
      end
  end.

(** [utf8.Valid]: no byte is decoded on its own unless it is ASCII. *)
Fixpoint utf8_valid (l : list byte) : bool :=
  match l with
  | [] => true
  | b :: l1 =>
      if code b <? 0x80 then utf8_valid l1
      else match l1 with
      | [] => false
      | c :: l2 =>
          if enc2 b c then utf8_valid l2
          else match l2 with
          | [] => false
          | d :: l3 =>
              if enc3 b c d then utf8_valid l3
              else match l3 with [] => false | e :: l4 => enc4 b c d e && utf8_valid l4 end
          end
      end
  end.

(** The loop [for index := range message { if index > max { break }; limit = index }]. *)
Fixpoint last_start (fuel : nat) (max pos limit : Z) (l : list byte) : Z :=
  match fuel, l with
  | S n, _ :: _ =>
      if max <? pos then limit
      else last_start n max (pos + Z.of_nat (rune_width l)) pos (drop (rune_width l) l)
  | _, _ => limit
  end.

Definition ImportCRMProvisionMaxErrorMessageBytes : Z := 512.

Definition TruncateImportCRMProvisionMessage (message : string) : string :=
  if slen message <=? ImportCRMProvisionMaxErrorMessageBytes then message
  else of_bytes (take (Z.to_nat (last_start (length (bytes message))
                   ImportCRMProvisionMaxErrorMessageBytes 0 0 (bytes message))) (bytes message)).

(** [if len(s) > n { s = s[:n] }]. *)
Definition cut_bytes (n : Z) (s : string) : string :=
  if n <? slen s then of_bytes (take (Z.to_nat n) (bytes s)) else s.

(** [utf8.AppendRune]: a value that is no Unicode scalar is written as U+FFFD. *)
Definition encode_rune (r : Z) : list byte :=
  if (0 <=? r) && (r <? 0x80) then [chr r]
  else if (0x80 <=? r) && (r <? 0x800) then [chr (0xC0 + r / 64); chr (0x80 + r mod 64)]
  else if (r <? 0) || (0x10FFFF <? r) || ((0xD800 <=? r) && (r <=? 0xDFFF))
  then [chr 0xEF; chr 0xBF; chr 0xBD]
  else if r <? 0x10000 then
    [chr (0xE0 + r / 4096); chr (0x80 + r / 64 mod 64); chr (0x80 + r mod 64)]
  else
    [chr (0xF0 + r / 262144); chr (0x80 + r / 4096 mod 64); chr (0x80 + r / 64 mod 64);
     chr (0x80 + r mod 64)].
(** [string(runes)]. *)
Definition string_of_runes (rs : list Z) : string := of_bytes (concat (map encode_rune rs)).

(** ** Lemmas *)

Definition scalar (r : Z) : bool :=
  (0 <=? r) && (r <=? 0x10FFFF) && negb ((0xD800 <=? r) && (r <=? 0xDFFF)).

(** The positions at which a rune starts, and the end. *)
Inductive boundary : list byte → nat → Prop :=
  | boundary_here l : boundary l 0
  | boundary_next l n : l ≠ [] → boundary (drop (rune_width l) l) n → boundary l (rune_width l + n).

Lemma rune_width_range l : l ≠ [] → (1 ≤ rune_width l ≤ 4)%nat ∧ (rune_width l ≤ length l)%nat.
Proof.
  destruct l as [|b [|c [|d [|e l]]]]; [done|..]; intros _; simpl;
    repeat match goal with |- context [if ?b then _ else _] => destruct b end; simpl; lia.
Qed.

Lemma utf8_step l :
  l ≠ [] → utf8_valid l = true → ∀ k, utf8_valid (take (rune_width l) l ++ k) = utf8_valid k.
Proof.
  destruct l as [|b l1]; [done|]. intros _ H k. simpl in H |- *.
  destruct (code b <? 0x80) eqn:E1; [simpl; by rewrite E1|].
  destruct l1 as [|c l2]; [done|]. destruct (enc2 b c) eqn:E2; [simpl; by rewrite E1, E2|].
  destruct l2 as [|d l3]; [done|].
  destruct (enc3 b c d) eqn:E3; [simpl; by rewrite E1, E2, E3|].
  destruct l3 as [|e l4]; [done|]. apply andb_true_iff in H as [E4 _]. rewrite E4. simpl.
  by rewrite E1, E2, E3, E4.
Qed.

Lemma utf8_drop l : utf8_valid l = true → utf8_valid (drop (rune_width l) l) = true.
Proof.
  intros H. destruct (decide (l = [])) as [->|Hl]; [done|].
  rewrite <- (utf8_step l Hl H). by rewrite take_drop.
Qed.

Lemma take_plus {A} (a b : nat) (l : list A) : take (a + b) l = take a l ++ take b (drop a l).
Proof. revert l. induction a as [|a IH]; intros [|x l]; simpl; rewrite ?take_nil, ?IH; done. Qed.

(** A valid string cut at a boundary is valid. *)
Lemma utf8_boundary l n : boundary l n → utf8_valid l = true → utf8_valid (take n l) = true.
Proof.
  induction 1 as [l|l n Hl Hb IH]; intros Hv; [by rewrite take_0|].
  rewrite take_plus, utf8_step by done. by apply IH, utf8_drop.
Qed.

(** What the loop leaves in [limit]: the last boundary up to [max]. *)
Lemma last_start_spec fuel max pos limit l :
  (length l ≤ fuel)%nat → 0 ≤ pos ≤ max → l ≠ [] → ∃ n,
  last_start fuel max pos limit l = pos + Z.of_nat n ∧ boundary l n ∧
  (n < length l)%nat ∧ pos + Z.of_nat n ≤ max ∧
  (max < pos + Z.of_nat (n + rune_width (drop n l)) ∨ (n + rune_width (drop n l) = length l)%nat).
Proof.
  revert pos limit l. induction fuel as [|fuel IH]; intros pos limit l Hf Hp Hl.
  { destruct l; simpl in Hf; [done|lia]. }
  pose proof (rune_width_range l Hl) as [Hw1 Hw2]. 
  set (w := rune_width l) in *.
  assert (Hone : last_start (S fuel) max pos limit l
                 = last_start fuel max (pos + Z.of_nat w) pos (drop w l)).
  { destruct l as [|b l]; [done|]. cbn [last_start]. fold w.
    by replace (max <? pos) with false by (symmetry; apply Z.ltb_ge; lia). }
  rewrite Hone.
  destruct (decide (drop w l = [])) as [Hd|Hd].
  { exists 0%nat. assert (length (drop w l) = 0%nat) as E by (by rewrite Hd).
    rewrite length_drop in E. rewrite drop_0. fold w. split_and!; try lia; [|constructor].
    rewrite Hd. destruct fuel; simpl; lia. }
  assert (length (drop w l) ≠ 0)%nat as E by (destruct (drop w l); simpl; [done|lia]).
  rewrite length_drop in E.
  destruct (max <? pos + Z.of_nat w) eqn:Em; bool_hyps.
  - exists 0%nat. rewrite drop_0. fold w. split_and!; try lia; [|constructor].
    destruct fuel as [|fuel]; simpl; [lia|]. destruct (drop w l); [done|].
    replace (max <? pos + Z.of_nat w) with true by (symmetry; apply Z.ltb_lt; lia). lia.
  - destruct (IH (pos + Z.of_nat w) pos (drop w l)) as (n & En & Hb & Hn & Hm & Hlast);
      [rewrite length_drop; lia|lia|done|].
    rewrite length_drop in *. rewrite drop_drop in Hlast.
    exists (w + n)%nat. rewrite En. split_and!; try lia. by apply boundary_next.
Qed.

(** ** Runes *)

#[local] Ltac Zify.zify_post_hook ::= Z.to_euclidean_division_equations.

(** Decoding gives scalar values only. *)
Lemma enc2_scalar b c : enc2 b c = true → scalar (rune2 b c) = true.
Proof. unfold enc2, within, cont, scalar, rune2. intros H. bool_cases; bool_lia. Qed.
Lemma enc3_scalar b c d : enc3 b c d = true → scalar (rune3 b c d) = true.
Proof. unfold enc3, within, cont, scalar, rune3. intros H. bool_cases; bool_lia. Qed.
Lemma enc4_scalar b c d e : enc4 b c d e = true → scalar (rune4 b c d e) = true.
Proof. unfold enc4, within, cont, scalar, rune4. intros H. bool_cases; bool_lia. Qed.

Lemma runes_of_scalar l : Forall (λ r, scalar r = true) (runes_of l).
Proof.
  assert (∀ n l, (length l ≤ n)%nat → Forall (λ r, scalar r = true) (runes_of l)) as Hn;
    [|by apply (Hn (length l))].
  clear l. induction n as [|n IH]; intros [|b l]; simpl; try constructor; [lia|]. intros Hl.
  pose proof (IH l ltac:(lia)) as Hrest. pose proof (code_range b).
  destruct (code b <? 0x80) eqn:Eb; [constructor; [unfold scalar; bool_lia|done]|].
  destruct l as [|c l]; [by constructor|].
  destruct (enc2 b c) eqn:E2; [constructor; [by apply enc2_scalar|apply IH; simpl in *; lia]|].
  destruct l as [|d l]; [by constructor|].
  destruct (enc3 b c d) eqn:E3; [constructor; [by apply enc3_scalar|apply IH; simpl in *; lia]|].
  destruct l as [|e l]; [by constructor|].
  destruct (enc4 b c d e) eqn:E4; [constructor; [by apply enc4_scalar|apply IH; simpl in *; lia]|].
  by constructor.
Qed.

(** Decide the tests on the left of the goal by arithmetic. *)
Ltac run_ifs :=
  repeat lazymatch goal with
  | |- (if ?b then _ else _) = _ =>
      first [replace b with true by bool_lia | replace b with false by bool_lia]; cbv iota
  end.

(** Encoding a scalar value and decoding it gives it back. *)
Lemma runes_of_encode r l : scalar r = true → runes_of (encode_rune r ++ l) = r :: runes_of l.
Proof.
  unfold scalar. intros H. bool_hyps. unfold encode_rune.
  repeat match goal with |- context [if ?b then _ else _] => destruct b eqn:? end; bool_cases;
    try lia; cbn [app runes_of]; unfold enc2, enc3, enc4, within, cont, rune2, rune3, rune4;
    rewrite !code_chr by lia; run_ifs; f_equal; lia.
Qed.

Lemma runes_of_string rs l :
  Forall (λ r, scalar r = true) rs →
  runes_of (bytes (string_of_runes rs) ++ l) = rs ++ runes_of l.
Proof.
  unfold string_of_runes. rewrite bytes_of_bytes.
  induction 1 as [|r rs Hr _ IH]; [done|]. cbn [map concat]. rewrite <- app_assoc.
  rewrite runes_of_encode by done. by rewrite IH.
Qed.

(** ** Properties *)

(** The message of a failed CRM provision.  The cut keeps a prefix of at
    most 512 bytes that ends at a rune boundary, loses at most three bytes of
    the room, and keeps a valid UTF-8 message valid.  The cut at a byte of the
    delivery outboxes does not: it can leave half a character. *)
Theorem truncate_message_sound message :
  let cut := TruncateImportCRMProvisionMessage message in
  slen cut ≤ 512 ∧ (∃ rest, message = cut +:+ rest) ∧
  (utf8_valid (bytes message) = true → utf8_valid (bytes cut) = true) ∧
  (512 < slen message → 509 ≤ slen cut) ∧
  (∃ s, utf8_valid (bytes s) = true ∧ utf8_valid (bytes (cut_bytes 1000 s)) = false).
Proof.
  intros cut.
  assert (Hbad : ∃ s, utf8_valid (bytes s) = true ∧ utf8_valid (bytes (cut_bytes 1000 s)) = false).
  { exists (of_bytes (replicate 999 (chr 97) ++ bytes "合")). split; vm_compute; reflexivity. }
  subst cut. unfold TruncateImportCRMProvisionMessage, ImportCRMProvisionMaxErrorMessageBytes.
  destruct (slen message <=? 512) eqn:El; bool_hyps.
  { split_and!; [done| |done|lia|done]. exists "". apply bytes_inj. by rewrite bytes_app, app_nil_r. }
  set (l := bytes message). assert (Hl : 512 < Z.of_nat (length l)).
  { unfold l. rewrite length_bytes. done. }
  assert (Hne : l ≠ []) by (intros E; rewrite E in Hl; simpl in Hl; lia).
  destruct (last_start_spec (length l) 512 0 0 l) as (n & -> & Hb & Hn & Hm & Hlast);
    [lia|lia|done|].
  rewrite Z.add_0_l, Nat2Z.id, slen_of_bytes, length_take, bytes_of_bytes. split_and!.
  - lia.
  - exists (of_bytes (drop n l)). rewrite <- of_bytes_app, take_drop. unfold l.
    by rewrite of_bytes_bytes.
  - by apply utf8_boundary.
  - assert (Hd : drop n l ≠ []).
    { intros E. apply (f_equal length) in E. rewrite length_drop in E. simpl in E. lia. }
    pose proof (rune_width_range _ Hd). lia.
  - done.
Qed.
