(* ===== verification/PhoneCipher.v ===== *)
(** * domain/contract/phonecipher.go: the recipient's phone at rest

    The phone of a signing record is stored encrypted ("enc:v1:" and the
    standard base64 text of nonce and sealed bytes) and shown masked.  The key
    is the value of an environment variable; AES-GCM is a parameter with its
    documented behaviour ([AeadLaws]). *)

From S2P Require Import Prelude GoStrings Utf8.

#[local] Open Scope string_scope.
#[local] Open Scope Z_scope.
#[local] Open Scope list_scope.

(** ** encoding/base64, StdEncoding *)

Definition b64_char (v : Z) : byte :=
  if v <? 26 then chr (65 + v) else if v <? 52 then chr (97 + (v - 26))
  else if v <? 62 then chr (48 + (v - 52)) else if v =? 62 then chr 43 else chr 47.

Definition b64_val (c : byte) : option Z :=
  if within 65 90 c then Some (code c - 65)
  else if within 97 122 c then Some (code c - 97 + 26)
  else if within 48 57 c then Some (code c - 48 + 52)
  else if code c =? 43 then Some 62 else if code c =? 47 then Some 63 else None.

Definition pad_char : byte := chr 61.

(** Four digits of 24 bits. *)
Definition b64_quad (v : Z) : list byte :=
  [b64_char (v / 2 ^ 18); b64_char (v / 2 ^ 12 mod 64); b64_char (v / 2 ^ 6 mod 64);
   b64_char (v mod 64)].

Fixpoint b64_encode (l : list byte) : list byte :=
  match l with
  | a :: b :: c :: rest =>
      b64_quad (code a * 2 ^ 16 + code b * 2 ^ 8 + code c) ++ b64_encode rest
  | [a; b] => take 3 (b64_quad (code a * 2 ^ 16 + code b * 2 ^ 8)) ++ [pad_char]
  | [a] => take 2 (b64_quad (code a * 2 ^ 16)) ++ [pad_char; pad_char]
  | [] => []
  end.

Definition EncodeToString (l : list byte) : string := of_bytes (b64_encode l).

Definition newline (c : byte) : bool := (code c =? 10) || (code c =? 13).

(** Padding only at the end; the bits that padding cuts off are ignored. *)
Fixpoint b64_decode (l : list byte) : option (list byte) :=
  match l with
  | [] => Some []
  | a :: b :: c :: d :: rest =>
      x ← b64_val a; y ← b64_val b;
      let first := chr (x * 4 + y / 16) in
      match b64_val c, b64_val d with
      | Some z, Some w =>
          out ← b64_decode rest;
          Some (first :: chr (y mod 16 * 16 + z / 4) :: chr (z mod 4 * 64 + w) :: out)
      | Some z, None =>
          if Ascii.eqb d pad_char && (length rest =? 0)%nat
          then Some [first; chr (y mod 16 * 16 + z / 4)] else None
      | None, _ =>
          if Ascii.eqb c pad_char && Ascii.eqb d pad_char && (length rest =? 0)%nat
          then Some [first] else None
      end
  | _ => None
  end.

(** [DecodeString] skips line ends. *)
Definition DecodeString (s : string) : option (list byte) :=
  b64_decode (filter (λ c, newline c = false) (bytes s)).

(** ** Sealing *)

(** [cipher.AEAD] of a 32-byte AES key: [Seal(nil, nonce, plaintext, aad)] and
    [Open(nil, nonce, ciphertext, aad)]. *)
Class Aead := {
  Seal : list byte → list byte → list byte → list byte → list byte;
  Open : list byte → list byte → list byte → list byte → option (list byte)
}.
Definition nonce_size : nat := 12.
Definition aead_overhead : nat := 16.
Class AeadLaws `{Aead} := {
  open_seal key nonce plain aad : Open key nonce (Seal key nonce plain aad) aad = Some plain;
  length_seal key nonce plain aad :
    length (Seal key nonce plain aad) = (length plain + aead_overhead)%nat
}.

(** The value of SIGNING_PHONE_ENCRYPTION_KEY_BASE64. *)
Class PhoneKeyEnv := { phone_key_env : string }.

Definition signingPhoneCipherPrefix : string := "enc:v1:".
Definition MaxSigningPhonePlaintextLen : Z := 20.
Definition signingPhoneAADPrefix : string := "signing-phone:".
Definition signingPhoneColumnLimit : Z := 80.

Section Cipher.
Context `{Aead} `{PhoneKeyEnv}.

Definition signingPhoneKey : res (list byte) :=
  let raw := TrimSpace phone_key_env in
  if empty_str raw then Err ErrOther
  else match DecodeString raw with
       | None => Err ErrOther
       | Some key => if (length key =? 32)%nat then Ok key else Err ErrOther
       end.

Definition signingPhoneAAD (contractID : string) : list byte :=
  bytes (signingPhoneAADPrefix +:+ contractID).

Definition IsSigningPhoneCiphertext (value : string) : bool :=
  HasPrefix value signingPhoneCipherPrefix.

(** [nonce]: what [rand.Read] puts into the 12 bytes. *)
Definition EncryptSigningPhone (nonce : list byte) (contractID plaintext : string) : res string :=
  let plaintext := TrimSpace plaintext in
  if empty_str plaintext then Ok ""
  else
    key ← signingPhoneKey;
    let sealed := Seal key nonce (bytes plaintext) (signingPhoneAAD contractID) in
    Ok (signingPhoneCipherPrefix +:+ EncodeToString (nonce ++ sealed)).

(** [strings.TrimPrefix]. *)
Definition TrimPrefix (s p : string) : string :=
  if HasPrefix s p then of_bytes (drop (length (bytes p)) (bytes s)) else s.

Definition DecryptSigningPhone (contractID stored : string) : res string :=
  if negb (IsSigningPhoneCiphertext stored) then Err ErrOther
  else match DecodeString (TrimPrefix stored signingPhoneCipherPrefix) with
       | None => Err ErrOther
       | Some payload =>
           key ← signingPhoneKey;
           if (length payload <? nonce_size + aead_overhead)%nat then Err ErrOther
           else match Open key (take nonce_size payload) (drop nonce_size payload)
                        (signingPhoneAAD contractID) with
                | None => Err ErrOther
                | Some plain => Ok (of_bytes plain)
                end
       end.

(** ** Masking *)

Definition stars (n : nat) : string := of_bytes (replicate n (chr 42)).

Definition MaskPhone (phone : string) : string :=
  let phone := TrimSpace phone in
  if empty_str phone then ""
  else
    let rs := runes phone in
    let n := length rs in
    if (n <=? 4)%nat then stars n
    else if (n <=? 7)%nat then string_of_runes (take 2 rs) +:+ stars (n - 2)
    else string_of_runes (take 3 rs) +:+ "****" +:+ string_of_runes (drop (n - 4) rs).

(** infrastructure/mysql/contracts_signing_helpers.go. *)
Definition maskStoredSigningPhone (contractID stored : string) : string :=
  if empty_str stored then ""
  else if IsSigningPhoneCiphertext stored then
    match DecryptSigningPhone contractID stored with
    | Err _ => "***"
    | Ok plain => MaskPhone plain
    end
  else MaskPhone stored.

(** What [repairSigningPhonePlaintext] writes in place of a stored plain text:
    nothing, or the encrypted text. *)
Definition repairedPhone (nonce : list byte) (contractID stored : string) : option string :=
  if empty_str stored || IsSigningPhoneCiphertext stored then None
  else match EncryptSigningPhone nonce contractID stored with
       | Err _ => None
       | Ok repaired => if signingPhoneColumnLimit <? slen repaired then None else Some repaired
       end.

End Cipher.

(** ** Base64 lemmas *)

#[local] Ltac Zify.zify_post_hook ::= Z.to_euclidean_division_equations.

Lemma b64_digit v :
  0 ≤ v < 64 → b64_val (b64_char v) = Some v ∧ newline (b64_char v) = false ∧
    Ascii.eqb (b64_char v) pad_char = false.
Proof.
  intros Hv.
  assert (forallb (λ v, bool_decide (b64_val (b64_char v) = Some v) &&
            negb (newline (b64_char v)) && negb (Ascii.eqb (b64_char v) pad_char)) (seqZ 0 64) = true)
    as Hall by (vm_compute; reflexivity).
  rewrite forallb_forall in Hall. specialize (Hall v).
  rewrite <- list_elem_of_In, elem_of_seqZ in Hall. specialize (Hall ltac:(lia)). bool_hyps. done.
Qed.

Lemma chr_eq v c : v = code c → chr v = c.
Proof. intros ->. apply chr_code. Qed.

Lemma three_by_three (P : list byte → Prop) :
  P [] → (∀ a, P [a]) → (∀ a b, P [a; b]) → (∀ a b c l, P l → P (a :: b :: c :: l)) → ∀ l, P l.
Proof.
  intros H0 H1 H2 H3. fix IH 1. intros [|a [|b [|c l]]]; [done..|]. apply H3, IH.
Qed.

Lemma b64_decode_encode l : b64_decode (b64_encode l) = Some l.
Proof.
  induction l as [|a|a b|a b c l IH] using three_by_three; [done|..];
    cbn [b64_encode b64_quad take app b64_decode];
    repeat match goal with
    | x : byte |- _ => lazymatch goal with
        | _ : 0 ≤ code x < 256 |- _ => fail | _ => pose proof (code_range x) end
    end;
    repeat match goal with
    | |- context [b64_val (b64_char ?v)] =>
        rewrite (proj1 (b64_digit v ltac:(lia))); cbn [mbind option_bind]
    end.
  - change (b64_val pad_char) with (@None Z). cbn. repeat f_equal; apply chr_eq; lia.
  - change (b64_val pad_char) with (@None Z). cbn [Ascii.eqb andb length Nat.eqb].
    rewrite Ascii.eqb_refl. cbn. repeat f_equal; apply chr_eq; lia.
  - rewrite IH. cbn [mbind option_bind]. repeat f_equal; apply chr_eq; lia.
Qed.

Lemma b64_encode_lines l : Forall (λ c, newline c = false) (b64_encode l).
Proof.
  induction l as [|a|a b|a b c l IH] using three_by_three; [constructor|..];
    cbn [b64_encode b64_quad take app];
    repeat match goal with
    | x : byte |- _ => lazymatch goal with
        | _ : 0 ≤ code x < 256 |- _ => fail | _ => pose proof (code_range x) end
    end;
    repeat (apply Forall_cons_2; [first [done | eapply b64_digit; lia]|]); done || constructor.
Qed.

Lemma length_b64_encode l :
  Z.of_nat (length (b64_encode l)) = 4 * ((Z.of_nat (length l) + 2) / 3).
Proof.
  induction l as [|a|a b|a b c l IH] using three_by_three; [done..|].
  cbn [b64_encode b64_quad app length]. rewrite !Nat2Z.inj_succ, IH. lia.
Qed.

Lemma DecodeString_encode l : DecodeString (EncodeToString l) = Some l.
Proof.
  unfold DecodeString, EncodeToString.
  rewrite bytes_of_bytes, filter_all by apply b64_encode_lines. apply b64_decode_encode.
Qed.

(** ** Properties *)

Lemma HasPrefix_app p s : HasPrefix (p +:+ s) p = true.
Proof.
  unfold HasPrefix. induction p as [|c p IH]; [by destruct s|].
  change (String c p +:+ s) with (String c (p +:+ s)). cbn [String.prefix].
  destruct (Ascii.ascii_dec c c); [done|congruence].
Qed.
Lemma TrimPrefix_app p s : TrimPrefix (p +:+ s) p = s.
Proof.
  unfold TrimPrefix. rewrite HasPrefix_app, bytes_app, drop_app_length. apply of_bytes_bytes.
Qed.

(** C40: The phone is stored encrypted or not at all, and what is stored reads back.
    With the key configured the stored text is a cipher text whose decryption
    is the trimmed phone and whose mask is the mask of the phone; without it
    nothing is stored.  The text fits the column exactly when the phone has at
    most 26 bytes: every phone of 20 ASCII characters does, but the limit of 20
    characters admits phones that do not. *)
Theorem signing_phone_roundtrip `{AeadLaws} `{PhoneKeyEnv} nonce id phone :
  length nonce = nonce_size → TrimSpace phone ≠ "" →
  match signingPhoneKey with
  | Err e => EncryptSigningPhone nonce id phone = Err e
  | Ok _ => ∃ stored, EncryptSigningPhone nonce id phone = Ok stored ∧
      DecryptSigningPhone id stored = Ok (TrimSpace phone) ∧
      maskStoredSigningPhone id stored = MaskPhone phone ∧
      (slen stored ≤ signingPhoneColumnLimit ↔ slen (TrimSpace phone) ≤ 26)
  end ∧
  (∃ wide, rune_count wide ≤ MaxSigningPhonePlaintextLen ∧ 26 < slen (TrimSpace wide)).
Proof.
  intros Hn Hp. split.
  2:{ exists (of_bytes (concat (replicate 20 (bytes "号")))). split; [by vm_compute|done]. }
  destruct signingPhoneKey as [key|e] eqn:Ek; unfold EncryptSigningPhone;
    (replace (empty_str (TrimSpace phone)) with false by (symmetry; by apply streq_false));
    rewrite Ek; [|done].
  cbn [mbind res_bind].
  set (sealed := Seal key nonce (bytes (TrimSpace phone)) (signingPhoneAAD id)).
  set (stored := signingPhoneCipherPrefix +:+ EncodeToString (nonce ++ sealed)).
  assert (Hlen : length sealed = (length (bytes (TrimSpace phone)) + aead_overhead)%nat)
    by apply length_seal.
  assert (Hc : IsSigningPhoneCiphertext stored = true) by apply HasPrefix_app.
  assert (Hd : DecryptSigningPhone id stored = Ok (TrimSpace phone)).
  { unfold DecryptSigningPhone. rewrite Hc. cbn [negb]. unfold stored.
    rewrite TrimPrefix_app, DecodeString_encode, Ek. cbn [mbind res_bind].
    rewrite length_app, Hn, Hlen.
    replace (_ <? _)%nat with false by (symmetry; apply Nat.ltb_ge; lia).
    rewrite <- Hn, take_app_length, drop_app_length. unfold sealed.
    by rewrite open_seal, of_bytes_bytes. }
  exists stored. split_and!; [done|done| |].
  - unfold maskStoredSigningPhone. rewrite Hc, Hd. unfold stored. cbn [empty_str].
    unfold MaskPhone. by rewrite TrimSpace_idemp.
  - unfold stored, EncodeToString. rewrite slen_app, slen_of_bytes, length_b64_encode, length_app.
    rewrite Hn, Hlen, length_bytes. unfold slen, signingPhoneColumnLimit, nonce_size, aead_overhead.
    change (String.length signingPhoneCipherPrefix) with 7%nat. lia.
Qed.

(** The mask of a phone, as characters: it shows at most the first three and
    the last four, and otherwise depends only on how long the phone is; a phone
    of up to four characters shows nothing, one of up to seven only its first
    two. *)
Theorem mask_phone_reveals phone :
  let rs := runes (TrimSpace phone) in
  let n := length rs in
  runes (MaskPhone phone) =
    (if (n <=? 4)%nat then replicate n 42
     else if (n <=? 7)%nat then take 2 rs ++ replicate (n - 2) 42
     else take 3 rs ++ replicate 4 42 ++ drop (n - 4) rs).
Proof.
  intros rs n. unfold MaskPhone. fold rs n.
  assert (Hs : ∀ k, runes_of (bytes (stars k)) = replicate k 42).
  { intros k. unfold stars. rewrite bytes_of_bytes. induction k as [|k IH]; [done|].
    cbn [replicate runes_of]. by rewrite IH. }
  assert (Hr : ∀ l k, l ⊆ rs → runes_of (bytes (string_of_runes l) ++ k) = l ++ runes_of k).
  { intros l k Hl. apply runes_of_string, Forall_forall. intros r Hin.
    pose proof (runes_of_scalar (bytes (TrimSpace phone))) as Hall.
    rewrite Forall_forall in Hall. apply Hall, Hl, Hin. }
  assert (Htake : ∀ k, take k rs ⊆ rs) by (intros k; apply subseteq_take).
  unfold runes at 1.
  destruct (empty_str (TrimSpace phone)) eqn:Ee.
  { apply streq_true in Ee. unfold n, rs. by rewrite Ee. }
  destruct (n <=? 4)%nat; [apply Hs|]. destruct (n <=? 7)%nat; rewrite !bytes_app.
  - rewrite Hr by apply Htake. by rewrite Hs.
  - rewrite Hr by apply Htake. change (bytes "****") with (map chr [42; 42; 42; 42]).
    cbn [map app runes_of replicate]. rewrite !code_chr by lia. cbn. do 5 f_equal.
    rewrite <- (app_nil_r (bytes _)), Hr; [cbn; by rewrite app_nil_r|].
    apply subseteq_drop.
Qed.

(** ** A concrete key and cipher *)

(** The cipher that appends sixteen zero bytes. *)
Definition sample_aead : Aead := {|
  Seal := λ _ _ plain _, plain ++ replicate aead_overhead (chr 0);
  Open := λ _ _ sealed _, Some (take (length sealed - aead_overhead) sealed)
|}.
Lemma sample_aead_laws : @AeadLaws sample_aead.
Proof.
  constructor; intros key nonce plain aad; cbn [Seal Open sample_aead].
  - rewrite length_app, length_replicate. f_equal.
    replace (_ - _)%nat with (length plain) by lia. apply take_app_length.
  - by rewrite length_app, length_replicate.
Qed.
Definition sample_key_env : PhoneKeyEnv :=
  {| phone_key_env := EncodeToString (replicate 32 (chr 7)) |}.

Lemma signing_phone_roundtrip_witness :
  ∃ stored, @EncryptSigningPhone sample_aead sample_key_env (replicate 12 (chr 1)) "c1" " 13812345678 "
            = Ok stored ∧
    @maskStoredSigningPhone sample_aead sample_key_env "c1" stored = "138****5678".
Proof.
  pose proof (@signing_phone_roundtrip sample_aead sample_aead_laws sample_key_env
                (replicate 12 (chr 1)) "c1" " 13812345678 " eq_refl) as H.
  assert (Hk : @signingPhoneKey sample_key_env = Ok (replicate 32 (chr 7))) by (by vm_compute).
  rewrite Hk in H. destruct (H ltac:(by vm_compute)) as [(stored & He & _ & Hm & _) _].
  exists stored. split; [exact He|]. rewrite Hm. vm_compute. reflexivity.
Defined.
