(* ===== verification/CRMProvision.v ===== *)
(** * domain/contract/import_crm_provision.go, infrastructure/mysql/import_crm_provision.go

    The ledger of the customers and opportunities an import opens in the CRM:
    one row per external record, advanced by compare-and-swap. *)

From S2P Require Import Prelude GoStrings GoTime ImportPolicy Utf8.

#[local] Open Scope string_scope.
#[local] Open Scope Z_scope.
#[local] Open Scope list_scope.

(** ** The state machine *)

Definition ImportCRMProvisionPending : string := "PENDING".
Definition ImportCRMProvisionCustomerReady : string := "CUSTOMER_READY".
Definition ImportCRMProvisionContractReady : string := "CONTRACT_READY".
Definition ImportCRMProvisionOpportunityReady : string := "OPPORTUNITY_READY".
Definition ImportCRMProvisionCompleted : string := "COMPLETED".
Definition ImportCRMProvisionBlocked : string := "BLOCKED".
Definition ImportCRMProvisionMaxErrorCodeLength : Z := 64.

(** [importCRMProvisionNext]; a missing key reads as the empty string. *)
Definition importCRMProvisionNext (state : string) : option string :=
  if state =s ImportCRMProvisionPending then Some ImportCRMProvisionCustomerReady
  else if state =s ImportCRMProvisionCustomerReady then Some ImportCRMProvisionContractReady
  else if state =s ImportCRMProvisionContractReady then Some ImportCRMProvisionOpportunityReady
  else if state =s ImportCRMProvisionOpportunityReady then Some ImportCRMProvisionCompleted
  else None.
Definition ImportCRMProvisionNextState (state : string) : string :=
  match importCRMProvisionNext state with Some s => s | None => "" end.
Definition ImportCRMProvisionTerminal (state : string) : bool :=
  (state =s ImportCRMProvisionCompleted) || (state =s ImportCRMProvisionBlocked).
Definition ImportCRMProvisionKnownState (state : string) : bool :=
  match importCRMProvisionNext state with
  | Some _ => true
  | None => ImportCRMProvisionTerminal state
  end.

Definition ImportCRMProvisionTransitionAllowed (from to : string) : bool :=
  if negb (ImportCRMProvisionKnownState from) || negb (ImportCRMProvisionKnownState to) then false
  else if ImportCRMProvisionTerminal from then false
  else if to =s ImportCRMProvisionBlocked then true
  else ImportCRMProvisionNextState from =s to.

Definition ImportCRMProvisionRetryAllowed (from to : string) : bool :=
  (from =s ImportCRMProvisionBlocked) && (to =s ImportCRMProvisionPending).

Record ImportCRMProvisionKey : Type := mkKey {
  k_TenantID : string; k_SourceSystem : string; k_ExternalRecordID : string
}.
#[export] Instance ImportCRMProvisionKey_eq_dec : EqDecision ImportCRMProvisionKey.
Proof. solve_decision. Defined.
#[export] Instance ImportCRMProvisionKey_countable : Countable ImportCRMProvisionKey.
Proof.
  refine (inj_countable' (λ k, (k_TenantID k, k_SourceSystem k, k_ExternalRecordID k))
    (λ p, mkKey p.1.1 p.1.2 p.2) _). by intros [].
Defined.

Definition ValidateKey (key : ImportCRMProvisionKey) : res unit :=
  fail_if (negb (slen (k_TenantID key) =? 26)) ErrImportCRMProvisionKey;;
  fail_if ((slen (k_SourceSystem key) =? 0) || (64 <? slen (k_SourceSystem key)) ||
           negb (importKey (k_SourceSystem key))) ErrImportCRMProvisionKey;;
  fail_if ((slen (k_ExternalRecordID key) =? 0) || (128 <? slen (k_ExternalRecordID key)) ||
           negb (importKey (k_ExternalRecordID key))) ErrImportCRMProvisionKey.

Record ImportCRMProvision : Type := mkProvision {
  v_Key : ImportCRMProvisionKey; v_BatchID : string; v_CustomerID : Z; v_CustomerCreated : bool;
  v_OpportunityID : Z; v_OpportunityCreated : bool; v_State : string; v_Attempt : Z;
  v_LastErrorCode : string; v_LastErrorMessage : string; v_CreatedAt : Time; v_UpdatedAt : Time
}.

Definition ValidateProvision (value : ImportCRMProvision) : res unit :=
  ValidateKey (v_Key value);;
  fail_if (negb (ImportCRMProvisionKnownState (v_State value)) || (v_Attempt value <? 0))
    ErrImportCRMProvisionState;;
  fail_if ((ImportCRMProvisionMaxErrorCodeLength <? slen (v_LastErrorCode value)) ||
           (ImportCRMProvisionMaxErrorMessageBytes <? slen (v_LastErrorMessage value)))
    ErrImportCRMProvisionError.

Record ImportCRMProvisionAdvance : Type := mkAdvance {
  a_From : string; a_To : string; a_ExpectedAttempt : Z; a_CustomerID : Z;
  a_CustomerCreated : bool; a_OpportunityID : Z; a_OpportunityCreated : bool
}.

Definition ValidateAdvance (a : ImportCRMProvisionAdvance) : res unit :=
  fail_if (a_ExpectedAttempt a <? 0) ErrImportCRMProvisionState;;
  fail_if (negb (ImportCRMProvisionTransitionAllowed (a_From a) (a_To a)))
    ErrImportCRMProvisionState;;
  fail_if ((a_To a =s ImportCRMProvisionCustomerReady) && (a_CustomerID a =? 0))
    ErrImportCRMProvisionState;;
  fail_if ((a_To a =s ImportCRMProvisionOpportunityReady) && (a_OpportunityID a =? 0))
    ErrImportCRMProvisionState.

(** The in-memory [Advance]. *)
Definition AdvanceProvision (value : ImportCRMProvision) (a : ImportCRMProvisionAdvance)
    : res ImportCRMProvision :=
  ValidateAdvance a;;
  fail_if (negb (v_State value =s a_From a)) ErrImportCRMProvisionState;;
  fail_if (negb (v_Attempt value =? a_ExpectedAttempt a)) ErrImportCRMProvisionAttempt;;
  let customer := negb (a_CustomerID a =? 0) in
  let opportunity := negb (a_OpportunityID a =? 0) in
  Ok (mkProvision (v_Key value) (v_BatchID value)
        (if customer then a_CustomerID a else v_CustomerID value)
        (if customer then a_CustomerCreated a else v_CustomerCreated value)
        (if opportunity then a_OpportunityID a else v_OpportunityID value)
        (if opportunity then a_OpportunityCreated a else v_OpportunityCreated value)
        (a_To a) (v_Attempt value + 1) "" "" (v_CreatedAt value) (v_UpdatedAt value)).

Definition ValidateImportCRMProvisionErrorCode (code : string) : res unit :=
  fail_if (empty_str code || (ImportCRMProvisionMaxErrorCodeLength <? slen code))
    ErrImportCRMProvisionError.

(** ** The table *)

Record importCRMProvisionRecord : Type := mkProvisionRow {
  p_BatchID : option string; p_CustomerID : option Z; p_CustomerCreated : bool;
  p_OpportunityID : option Z; p_OpportunityCreated : bool; p_State : string; p_Attempt : Z;
  p_LastErrorCode : option string; p_LastErrorMessage : option string;
  p_CreatedAt : Time; p_UpdatedAt : Time
}.

Notation ledger := (gmap ImportCRMProvisionKey importCRMProvisionRecord).

Definition stringValue (s : option string) : string := match s with Some x => x | None => "" end.
Definition uint64Value (n : option Z) : Z := match n with Some x => x | None => 0 end.
Definition optionalString (s : string) : option string := if empty_str s then None else Some s.

Definition importCRMProvisionValue (key : ImportCRMProvisionKey) (row : importCRMProvisionRecord)
    : ImportCRMProvision :=
  mkProvision key (stringValue (p_BatchID row)) (uint64Value (p_CustomerID row))
    (p_CustomerCreated row) (uint64Value (p_OpportunityID row)) (p_OpportunityCreated row)
    (p_State row) (p_Attempt row) (stringValue (p_LastErrorCode row))
    (stringValue (p_LastErrorMessage row)) (p_CreatedAt row) (p_UpdatedAt row).

Definition GetImportCRMProvision (L : ledger) (key : ImportCRMProvisionKey)
    : res ImportCRMProvision :=
  ValidateKey key;;
  match L !! key with
  | None => Err ErrNotFound
  | Some row => Ok (importCRMProvisionValue key row)
  end.

(** The operations return the new table with their result; a statement the
    database refuses leaves the table as it is and is not listed here. *)
Section Operations.
Variable now : Time.
Variable key : ImportCRMProvisionKey.

Definition UpsertStartImportCRMProvision (batchID : string) (L : ledger)
    : res (ledger * ImportCRMProvision) :=
  ValidateKey key;;
  fail_if (26 <? slen batchID) ErrImportCRMProvisionKey;;
  let row :=
    match L !! key with
    | None => mkProvisionRow (optionalString batchID) None false None false
                ImportCRMProvisionPending 0 None None now now
    | Some r =>
        mkProvisionRow (match optionalString batchID with Some b => Some b | None => p_BatchID r end)
          (p_CustomerID r) (p_CustomerCreated r) (p_OpportunityID r) (p_OpportunityCreated r)
          (p_State r) (p_Attempt r + 1) None None (p_CreatedAt r) now
    end in
  Ok (<[key := row]> L, importCRMProvisionValue key row).

(** [UPDATE ... WHERE <key> AND state = ? AND attempt = ?], and the read that
    follows when a row matched. *)
Definition update_where (state : string) (attempt : Z)
    (f : importCRMProvisionRecord → importCRMProvisionRecord) (L : ledger)
    : res (ledger * ImportCRMProvision) :=
  match L !! key with
  | Some r =>
      if (p_State r =s state) && (p_Attempt r =? attempt) then
        let L' := <[key := f r]> L in
        value ← GetImportCRMProvision L' key; Ok (L', value)
      else Err ErrStateConflict
  | None => Err ErrStateConflict
  end.

Definition advance_row (a : ImportCRMProvisionAdvance) (r : importCRMProvisionRecord)
    : importCRMProvisionRecord :=
  let customer := negb (a_CustomerID a =? 0) in
  let opportunity := negb (a_OpportunityID a =? 0) in
  mkProvisionRow (p_BatchID r)
    (if customer then Some (a_CustomerID a) else p_CustomerID r)
    (if customer then a_CustomerCreated a else p_CustomerCreated r)
    (if opportunity then Some (a_OpportunityID a) else p_OpportunityID r)
    (if opportunity then a_OpportunityCreated a else p_OpportunityCreated r)
    (a_To a) (a_ExpectedAttempt a + 1) None None (p_CreatedAt r) now.

Definition AdvanceImportCRMProvision (a : ImportCRMProvisionAdvance) (L : ledger)
    : res (ledger * ImportCRMProvision) :=
  ValidateKey key;; ValidateAdvance a;;
  update_where (a_From a) (a_ExpectedAttempt a) (advance_row a) L.

Definition reset_row (expected : Z) (r : importCRMProvisionRecord) : importCRMProvisionRecord :=
  mkProvisionRow (p_BatchID r) (p_CustomerID r) (p_CustomerCreated r) (p_OpportunityID r)
    (p_OpportunityCreated r) ImportCRMProvisionPending (expected + 1) None None (p_CreatedAt r) now.

Definition ResetImportCRMProvision (expected : Z) (L : ledger)
    : res (ledger * ImportCRMProvision) :=
  ValidateKey key;;
  fail_if (expected <? 0) ErrImportCRMProvisionState;;
  update_where ImportCRMProvisionBlocked expected (reset_row expected) L.

Definition error_row (code message : string) (r : importCRMProvisionRecord)
    : importCRMProvisionRecord :=
  mkProvisionRow (p_BatchID r) (p_CustomerID r) (p_CustomerCreated r) (p_OpportunityID r)
    (p_OpportunityCreated r) ImportCRMProvisionBlocked (p_Attempt r) (Some code)
    (Some (TruncateImportCRMProvisionMessage message)) (p_CreatedAt r) now.

Definition RecordImportCRMProvisionError (from : string) (expected : Z) (code message : string)
    (L : ledger) : res (ledger * ImportCRMProvision) :=
  ValidateKey key;;
  ValidateImportCRMProvisionErrorCode code;;
  fail_if (expected <? 0) ErrImportCRMProvisionState;;
  update_where from expected (error_row code message) L.

End Operations.

(** ** Every history of the table *)

Inductive provision_op : Type :=
  | OUpsert (batchID : string)
  | OAdvance (a : ImportCRMProvisionAdvance)
  | OReset (expected : Z)
  | OError (from : string) (expected : Z) (code message : string).

Definition run_op (now : Time) (key : ImportCRMProvisionKey) (op : provision_op) (L : ledger)
    : res (ledger * ImportCRMProvision) :=
  match op with
  | OUpsert b => UpsertStartImportCRMProvision now key b L
  | OAdvance a => AdvanceImportCRMProvision now key a L
  | OReset n => ResetImportCRMProvision now key n L
  | OError from n code message => RecordImportCRMProvisionError now key from n code message L
  end.

(** Concurrent callers: any operation, with any arguments, at any time. *)
Inductive provision_steps : ledger → ledger → Prop :=
  | steps_refl L : provision_steps L L
  | steps_op L now key op L1 value L2 :
      run_op now key op L = Ok (L1, value) → provision_steps L1 L2 → provision_steps L L2.

(** ** Lemmas *)

Definition past_customer (s : string) : bool :=
  contains [ImportCRMProvisionCustomerReady; ImportCRMProvisionContractReady;
            ImportCRMProvisionOpportunityReady; ImportCRMProvisionCompleted] s.
Definition past_opportunity (s : string) : bool :=
  contains [ImportCRMProvisionOpportunityReady; ImportCRMProvisionCompleted] s.

Record row_ok (r : importCRMProvisionRecord) : Prop := {
  row_state : ImportCRMProvisionKnownState (p_State r) = true;
  row_attempt : 0 ≤ p_Attempt r;
  row_code : slen (stringValue (p_LastErrorCode r)) ≤ 64;
  row_message : slen (stringValue (p_LastErrorMessage r)) ≤ 512;
  row_customer : past_customer (p_State r) = true → uint64Value (p_CustomerID r) ≠ 0;
  row_opportunity : past_opportunity (p_State r) = true → uint64Value (p_OpportunityID r) ≠ 0;
  row_customer_id : p_CustomerID r ≠ Some 0;
  row_opportunity_id : p_OpportunityID r ≠ Some 0
}.

Definition ledger_ok (L : ledger) : Prop :=
  map_Forall (λ key r, ValidateKey key = Ok tt ∧ row_ok r) L.

(** Every state is one of the six. *)
Lemma known_cases s :
  ImportCRMProvisionKnownState s = true →
  s = ImportCRMProvisionPending ∨ s = ImportCRMProvisionCustomerReady ∨
  s = ImportCRMProvisionContractReady ∨ s = ImportCRMProvisionOpportunityReady ∨
  s = ImportCRMProvisionCompleted ∨ s = ImportCRMProvisionBlocked.
Proof.
  unfold ImportCRMProvisionKnownState, importCRMProvisionNext, ImportCRMProvisionTerminal.
  repeat match goal with
  | |- context [if ?a =s ?b then _ else _] => destruct (a =s b) eqn:?
  end; rewrite ?orb_true_iff, !streq_true in *; tauto.
Qed.

(** An allowed edge reaches a state only with what that state needs. *)
Lemma allowed_cases from to :
  ImportCRMProvisionTransitionAllowed from to = true →
  ImportCRMProvisionKnownState to = true ∧ ImportCRMProvisionTerminal from = false ∧
  (past_customer to = true → past_customer from = true ∨ to = ImportCRMProvisionCustomerReady) ∧
  (past_opportunity to = true → past_opportunity from = true ∨ to = ImportCRMProvisionOpportunityReady).
Proof.
  unfold ImportCRMProvisionTransitionAllowed. intros H.
  destruct (ImportCRMProvisionKnownState from) eqn:Ef; [|discriminate].
  destruct (ImportCRMProvisionKnownState to) eqn:Et; [|discriminate].
  cbn [negb orb] in H. split; [done|].
  apply known_cases in Ef as [->|[->|[->|[->|[->| ->]]]]];
    apply known_cases in Et as [->|[->|[->|[->|[->| ->]]]]];
    vm_compute in H; try discriminate H; vm_compute; auto.
Qed.

Lemma key_of_run now key op L L1 v : run_op now key op L = Ok (L1, v) → ValidateKey key = Ok tt.
Proof.
  destruct op; simpl; unfold UpsertStartImportCRMProvision, AdvanceImportCRMProvision,
    ResetImportCRMProvision, RecordImportCRMProvisionError; intros H;
    apply bind_ok in H as ([] & Hk & _); done.
Qed.

Lemma update_where_ok key state attempt f L L1 v :
  update_where key state attempt f L = Ok (L1, v) →
  ∃ r, L !! key = Some r ∧ p_State r = state ∧ p_Attempt r = attempt ∧
    L1 = <[key := f r]> L ∧ v = importCRMProvisionValue key (f r).
Proof.
  unfold update_where. destruct (L !! key) as [r|] eqn:Hr; [|discriminate].
  destruct (_ && _) eqn:Hc; [|discriminate]. bool_hyps. rewrite streq_true in *.
  intros Hx. apply bind_ok in Hx as (v' & Hg & Hx). injection Hx as <- <-.
  unfold GetImportCRMProvision in Hg. apply bind_ok in Hg as (u & _ & Hg).
  rewrite lookup_insert_eq in Hg. injection Hg as <-. eauto 10.
Qed.

Lemma update_where_intro key f L r :
  ValidateKey key = Ok tt → L !! key = Some r →
  update_where key (p_State r) (p_Attempt r) f L
  = Ok (<[key := f r]> L, importCRMProvisionValue key (f r)).
Proof.
  intros Hk Hr. unfold update_where. rewrite Hr, streq_refl, Z.eqb_refl. cbn [andb].
  unfold GetImportCRMProvision. rewrite Hk. cbn [mbind res_bind].
  by rewrite lookup_insert_eq.
Qed.

Definition fresh_row (now : Time) (batchID : string) : importCRMProvisionRecord :=
  mkProvisionRow (optionalString batchID) None false None false ImportCRMProvisionPending 0
    None None now now.

Lemma upsert_new now key b L :
  ValidateKey key = Ok tt → slen b ≤ 26 → L !! key = None →
  run_op now key (OUpsert b) L
  = Ok (<[key := fresh_row now b]> L, importCRMProvisionValue key (fresh_row now b)).
Proof.
  intros Hk Hb Hr. simpl. unfold UpsertStartImportCRMProvision. rewrite Hk, Hr.
  cbn [mbind res_bind]. by pass by bool_lia.
Qed.

Lemma advance_intro now key a L r :
  ValidateKey key = Ok tt → ValidateAdvance a = Ok tt → L !! key = Some r →
  p_State r = a_From a → p_Attempt r = a_ExpectedAttempt a →
  run_op now key (OAdvance a) L
  = Ok (<[key := advance_row now a r]> L, importCRMProvisionValue key (advance_row now a r)).
Proof.
  intros Hk Ha Hr Hs Hn. simpl. unfold AdvanceImportCRMProvision. rewrite Hk, Ha, <- Hs, <- Hn.
  cbn [mbind res_bind]. by apply update_where_intro.
Qed.

(** What an operation does to the row of its key. *)
Inductive row_step (now : Time) : option importCRMProvisionRecord → importCRMProvisionRecord →
    provision_op → Prop :=
  | row_new b : row_step now None (mkProvisionRow (optionalString b) None false None false
      ImportCRMProvisionPending 0 None None now now) (OUpsert b)
  | row_again b r batch : row_step now (Some r) (mkProvisionRow batch
      (p_CustomerID r) (p_CustomerCreated r) (p_OpportunityID r) (p_OpportunityCreated r)
      (p_State r) (p_Attempt r + 1) None None (p_CreatedAt r) now) (OUpsert b)
  | row_advance r a : ValidateAdvance a = Ok tt → p_State r = a_From a →
      p_Attempt r = a_ExpectedAttempt a → row_step now (Some r) (advance_row now a r) (OAdvance a)
  | row_reset r n : 0 ≤ n → p_State r = ImportCRMProvisionBlocked → p_Attempt r = n →
      row_step now (Some r) (reset_row now n r) (OReset n)
  | row_error r from n code message : ValidateImportCRMProvisionErrorCode code = Ok tt →
      p_State r = from → p_Attempt r = n →
      row_step now (Some r) (error_row now code message r) (OError from n code message).

Lemma run_op_step now key op L L1 v :
  run_op now key op L = Ok (L1, v) →
  ∃ r', row_step now (L !! key) r' op ∧ L1 = <[key := r']> L ∧ v = importCRMProvisionValue key r'.
Proof.
  destruct op as [b|a|n|from n code message]; simpl; intros H.
  - unfold UpsertStartImportCRMProvision in H. apply bind_ok in H as ([] & _ & H).
    apply bind_ok in H as ([] & _ & H). injection H as <- <-.
    eexists; split; [|done]. destruct (L !! key); constructor.
  - unfold AdvanceImportCRMProvision in H. apply bind_ok in H as ([] & _ & H).
    apply bind_ok in H as ([] & Ha & H). apply update_where_ok in H as (r & -> & Hs & Hn & -> & ->).
    eexists; split; [by constructor|done].
  - unfold ResetImportCRMProvision in H. apply bind_ok in H as ([] & _ & H).
    apply bind_ok in H as ([] & Ha & H). apply fail_if_ok in Ha. bool_hyps.
    apply update_where_ok in H as (r & -> & Hs & Hn & -> & ->).
    eexists; split; [by constructor|done].
  - unfold RecordImportCRMProvisionError in H. apply bind_ok in H as ([] & _ & H).
    apply bind_ok in H as ([] & Hc & H). apply bind_ok in H as ([] & Ha & H).
    apply update_where_ok in H as (r & -> & Hs & Hn & -> & ->).
    eexists; split; [by constructor|done].
Qed.

Lemma truncate_length m : slen (TruncateImportCRMProvisionMessage m) ≤ 512.
Proof.
  unfold TruncateImportCRMProvisionMessage, ImportCRMProvisionMaxErrorMessageBytes.
  destruct (slen m <=? 512) eqn:E; bool_hyps; [done|].
  assert (Hm : 512 < Z.of_nat (length (bytes m))) by (by rewrite length_bytes).
  destruct (last_start_spec (length (bytes m)) 512 0 0 (bytes m)) as (n & -> & _ & _ & Hn & _);
    [lia|lia|intros E'; rewrite E' in Hm; simpl in Hm; lia|].
  rewrite slen_of_bytes, length_take. lia.
Qed.

Lemma row_step_ok now o r' op :
  row_step now o r' op → (∀ r, o = Some r → row_ok r) → row_ok r'.
Proof.
  intros Hstep Hold. destruct Hstep as [b|b r batch|r a Ha Hs Hn|r n Hn Hs Ha|r from n code message Hc Hs Hn];
    try specialize (Hold r eq_refl).
  - by split; vm_compute.
  - destruct Hold. split; simpl; try done; lia.
  - destruct Hold as [Hks Hat _ _ Hcu Hop Hc0 Ho0]. unfold ValidateAdvance in Ha.
    apply bind_ok in Ha as ([] & H1 & Ha). apply bind_ok in Ha as ([] & H2 & Ha).
    apply bind_ok in Ha as ([] & H3 & H4). apply fail_if_ok in H1, H2, H3, H4. bool_hyps.
    match goal with H : ImportCRMProvisionTransitionAllowed _ _ = true |- _ =>
      apply allowed_cases in H as (Hk & Ht & Hpc & Hpo) end.
    rewrite <- Hs in *. split; simpl; try done; [lia| | | |].
    + intros Hp. destruct (a_CustomerID a =? 0) eqn:Ec; bool_hyps; [|done]. simpl.
      destruct (Hpc Hp) as [?| Eto]; [by apply Hcu|]. rewrite Eto in H3. discriminate H3.
    + intros Hp. destruct (a_OpportunityID a =? 0) eqn:Ec; bool_hyps; [|done]. simpl.
      destruct (Hpo Hp) as [?| Eto]; [by apply Hop|]. rewrite Eto in H4. discriminate H4.
    + destruct (a_CustomerID a =? 0) eqn:Ec; bool_hyps; simpl; congruence.
    + destruct (a_OpportunityID a =? 0) eqn:Ec; bool_hyps; simpl; congruence.
  - destruct Hold. split; simpl; try done; lia.
  - destruct Hold. unfold ValidateImportCRMProvisionErrorCode in Hc. apply fail_if_ok in Hc.
    bool_hyps. split; simpl; try done. apply truncate_length.
Qed.

Lemma ledger_ok_op now key op L L1 v :
  run_op now key op L = Ok (L1, v) → ledger_ok L → ledger_ok L1.
Proof.
  intros H HL. pose proof (key_of_run _ _ _ _ _ _ H) as Hk.
  apply run_op_step in H as (r' & Hstep & -> & _).
  apply map_Forall_insert_2; [|done]. split; [done|].
  eapply row_step_ok; [done|]. intros r Hr. by apply HL in Hr as [_ ?].
Qed.

Lemma ledger_ok_steps L L2 : provision_steps L L2 → ledger_ok L → ledger_ok L2.
Proof. induction 1; eauto using ledger_ok_op. Qed.

(** The attempt of a row never goes back, and no identifier is forgotten. *)
Definition row_le (r r2 : importCRMProvisionRecord) : Prop :=
  p_Attempt r ≤ p_Attempt r2 ∧
  (is_Some (p_CustomerID r) → is_Some (p_CustomerID r2)) ∧
  (is_Some (p_OpportunityID r) → is_Some (p_OpportunityID r2)).

Lemma row_step_le now r r' op : row_step now (Some r) r' op → row_le r r'.
Proof.
  intros H. inversion H; subst; unfold row_le; simpl; split_and!; try done; try lia;
    case_match; simpl; eauto.
Qed.

Lemma steps_le L L2 key r :
  provision_steps L L2 → L !! key = Some r → ∃ r2, L2 !! key = Some r2 ∧ row_le r r2.
Proof.
  intros H. revert r. induction H as [L|L now k op L1 v L2 Hop Hst IH]; intros r Hr.
  { exists r. split; [done|]. by unfold row_le. }
  apply run_op_step in Hop as (r' & Hstep & -> & _).
  destruct (decide (k = key)) as [->|Hne].
  - rewrite Hr in Hstep. apply row_step_le in Hstep as (A & B & C).
    destruct (IH r') as (r2 & ? & A' & B' & C'); [by rewrite lookup_insert_eq|].
    exists r2. split; [done|]. unfold row_le. split_and!; [lia|auto|auto].
  - apply IH. by rewrite lookup_insert_ne.
Qed.

(** The expected attempt of a compare-and-swap. *)
Definition expects (op : provision_op) : option Z :=
  match op with
  | OUpsert _ => None
  | OAdvance a => Some (a_ExpectedAttempt a)
  | OReset n => Some n
  | OError _ n _ _ => Some n
  end.

Lemma row_step_expects now o r' op n :
  row_step now o r' op → expects op = Some n → ∃ r, o = Some r ∧ p_Attempt r = n.
Proof. intros H E. destruct H; simplify_eq/=; eauto. Qed.

(** ** Properties *)

(** C36: the provision ledger.  In every table the four operations can produce,
    whatever their arguments and however the callers interleave, every row
    satisfies the domain's own [Validate], a row that claims a customer holds a
    customer identifier and a row that claims an opportunity holds one. *)
Theorem provision_ledger_invariant L key r :
  provision_steps ∅ L → L !! key = Some r →
  ValidateProvision (importCRMProvisionValue key r) = Ok tt ∧
  (past_customer (p_State r) = true → v_CustomerID (importCRMProvisionValue key r) ≠ 0) ∧
  (past_opportunity (p_State r) = true → v_OpportunityID (importCRMProvisionValue key r) ≠ 0).
Proof.
  intros HL Hr. apply ledger_ok_steps in HL; [|by apply map_Forall_empty].
  apply HL in Hr as [Hk [Hs Ha Hc Hm Hcu Hop _ _]]. split; [|done].
  unfold ValidateProvision. simpl. rewrite Hk. simpl.
  rewrite Hs. pass by (simpl; bool_lia).
  apply fail_if_pass. unfold ImportCRMProvisionMaxErrorCodeLength,
    ImportCRMProvisionMaxErrorMessageBytes. bool_lia.
Qed.

(** Compare-and-swap.  When an advance or a reset at some attempt has
    succeeded, then in every later table no advance, reset or failure record
    that expects this attempt or an earlier one can succeed, and identifiers
    obtained so far are still there: of two workers that read the same row at
    most one moves it. *)
Theorem provision_cas now key op n L L1 v :
  run_op now key op L = Ok (L1, v) → (∃ a, op = OAdvance a) ∨ (∃ k, op = OReset k) →
  expects op = Some n →
  ∀ L2, provision_steps L1 L2 →
  (∀ now' op' m, expects op' = Some m → m ≤ n → is_ok (run_op now' key op' L2) = false) ∧
  (∃ r2, L2 !! key = Some r2 ∧ n < p_Attempt r2 ∧
    (v_CustomerID v ≠ 0 → is_Some (p_CustomerID r2)) ∧
    (v_OpportunityID v ≠ 0 → is_Some (p_OpportunityID r2))).
Proof.
  intros H Hop Hn L2 HL2. apply run_op_step in H as (r' & Hstep & -> & ->).
  assert (Hr' : p_Attempt r' = n + 1).
  { destruct Hop as [(a & ->)|(k & ->)]; inversion Hstep; simplify_eq/=; done. }
  destruct (steps_le _ _ key r' HL2) as (r2 & Hr2 & Ha & Hc & Ho); [by rewrite lookup_insert_eq|].
  split.
  - intros now' op' m Hm Hle. destruct (run_op now' key op' L2) as [[L3 v3]|e] eqn:E; [|done].
    apply run_op_step in E as (r3 & Hs3 & _ & _).
    apply (row_step_expects _ _ _ _ m) in Hs3 as (r & Er & Hm'); [|done].
    rewrite Hr2 in Er. injection Er as <-. lia.
  - exists r2. split_and!; [done|lia| |]; simpl; intros Hv; [apply Hc|apply Ho].
    + destruct (p_CustomerID r'); [by eexists|done].
    + destruct (p_OpportunityID r'); [by eexists|done].
Qed.

(** Failures of a completed provision.  The state machine gives COMPLETED
    no outgoing edge, and [AdvanceImportCRMProvision] enforces this; but
    [RecordImportCRMProvisionError] does not consult it: called with the state
    and attempt of a completed row it blocks that row, from where a reset
    starts the provision again. *)
Theorem completed_provision_can_be_blocked now key code message L r :
  ValidateKey key = Ok tt → ValidateImportCRMProvisionErrorCode code = Ok tt →
  L !! key = Some r → p_State r = ImportCRMProvisionCompleted → 0 ≤ p_Attempt r →
  (∀ to, ImportCRMProvisionTransitionAllowed ImportCRMProvisionCompleted to = false) ∧
  ∃ L1 v, RecordImportCRMProvisionError now key ImportCRMProvisionCompleted (p_Attempt r)
            code message L = Ok (L1, v) ∧ v_State v = ImportCRMProvisionBlocked ∧
    ∃ L2 v2, ResetImportCRMProvision now key (p_Attempt r) L1 = Ok (L2, v2) ∧
      v_State v2 = ImportCRMProvisionPending.
Proof.
  intros Hk Hc Hr Hs Ha. split.
  { intros to. unfold ImportCRMProvisionTransitionAllowed.
    destruct (ImportCRMProvisionKnownState to); reflexivity. }
  set (L1 := <[key := error_row now code message r]> L).
  exists L1, (importCRMProvisionValue key (error_row now code message r)). split_and!; [|done|].
  - unfold RecordImportCRMProvisionError. rewrite Hk, Hc. cbn [mbind res_bind].
    pass by bool_lia. rewrite <- Hs. by apply update_where_intro.
  - eexists _, _. unfold ResetImportCRMProvision. rewrite Hk. cbn [mbind res_bind]. split.
    { pass by bool_lia.
      apply (update_where_intro key _ L1 (error_row now code message r)); [done|].
      unfold L1. by rewrite lookup_insert_eq. }
    done.
Qed.

(** ** Witnesses *)

Definition sample_key : ImportCRMProvisionKey :=
  mkKey "01ARZ3NDEKTSV4RRFFQ69G5FAV" "erp" "ext:1".
Definition sample_advance : ImportCRMProvisionAdvance :=
  mkAdvance ImportCRMProvisionPending ImportCRMProvisionCustomerReady 0 7 true 0 false.
Definition sample_start : ledger := <[sample_key := fresh_row 1 "B"]> ∅.
Definition sample_row : importCRMProvisionRecord := advance_row 2 sample_advance (fresh_row 1 "B").
Definition sample_ready : ledger := <[sample_key := sample_row]> sample_start.

Lemma sample_advance_ok :
  run_op 2 sample_key (OAdvance sample_advance) sample_start
  = Ok (sample_ready, importCRMProvisionValue sample_key sample_row).
Proof.
  apply advance_intro; [vm_compute; reflexivity | vm_compute; reflexivity | | reflexivity ..].
  unfold sample_start. by rewrite lookup_insert_eq.
Qed.

Lemma sample_ready_reachable : provision_steps ∅ sample_ready.
Proof.
  eapply (steps_op _ 1 sample_key (OUpsert "B")).
  { apply upsert_new; [vm_compute; reflexivity | vm_compute; discriminate | apply lookup_empty]. }
  eapply steps_op; [exact sample_advance_ok | apply steps_refl].
Qed.

Lemma provision_ledger_invariant_witness :
  ValidateProvision (importCRMProvisionValue sample_key sample_row) = Ok tt.
Proof.
  assert (H : sample_ready !! sample_key = Some sample_row) by apply lookup_insert_eq.
  exact (proj1 (provision_ledger_invariant sample_ready sample_key sample_row
    sample_ready_reachable H)).
Defined.

Lemma provision_cas_witness :
  is_ok (run_op 3 sample_key (OAdvance sample_advance) sample_ready) = false.
Proof.
  exact (proj1 (provision_cas 2 sample_key (OAdvance sample_advance) 0 sample_start sample_ready
    (importCRMProvisionValue sample_key sample_row) sample_advance_ok
    (or_introl (ex_intro _ sample_advance eq_refl)) eq_refl sample_ready (steps_refl sample_ready))
    3 (OAdvance sample_advance) 0 eq_refl (Z.le_refl 0)).
Defined.

Definition completed_row : importCRMProvisionRecord :=
  mkProvisionRow (Some "B") (Some 7) true (Some 8) true ImportCRMProvisionCompleted 4 None None 1 2.
Lemma completed_provision_can_be_blocked_witness :
  ∃ L1 v, RecordImportCRMProvisionError 9 sample_key ImportCRMProvisionCompleted 4 "E" "late"
            {[sample_key := completed_row]} = Ok (L1, v) ∧ v_State v = ImportCRMProvisionBlocked.
Proof.
  destruct (completed_provision_can_be_blocked 9 sample_key "E" "late"
    {[sample_key := completed_row]} completed_row) as (_ & L1 & v & H & Hv & _);
    [vm_compute; reflexivity | vm_compute; reflexivity | apply lookup_singleton_eq | reflexivity
    | vm_compute; discriminate |].
  exists L1, v. split; [exact H|exact Hv].
Defined.
