(* ===== verification/ApprovalRule.v ===== *)
(** * domain/approval: approval rules

    The rule table that chooses the approval nodes of a new contract:
    expressions over contract facts, their size limits, and the choice of the
    rule with the highest priority. *)

From stdpp Require Import sorting.
From S2P Require Import Prelude GoStrings.

#[local] Open Scope string_scope.
#[local] Open Scope Z_scope.

(** ** Data *)

Abbreviation Kind := string (only parsing).
Abbreviation ApprovalStatus := string (only parsing).
Abbreviation NodeStatus := string (only parsing).
Abbreviation CountersignMode := string (only parsing).

Definition KindContract : Kind := "contract_approval".
Definition KindStatusChange : Kind := "status_change".
Definition StatusRunning : ApprovalStatus := "running".
Definition StatusApproved : ApprovalStatus := "approved".
Definition StatusRejected : ApprovalStatus := "rejected".
Definition StatusWithdrawn : ApprovalStatus := "withdrawn".
Definition StatusExpired : ApprovalStatus := "expired".
Definition StatusFailed : ApprovalStatus := "failed".
Definition NodePending : NodeStatus := "pending".
Definition NodeActive : NodeStatus := "active".
Definition NodeApproved : NodeStatus := "approved".
Definition NodeRejected : NodeStatus := "rejected".
Definition NodeSkipped : NodeStatus := "skipped".
Definition CountersignAll : CountersignMode := "all".
Definition CountersignAny : CountersignMode := "any".

Record Node : Type := mkNode {
  n_ID : string; n_Name : string; n_RoleCode : string; n_AssigneeIDs : list string;
  n_Countersign : CountersignMode; n_Timeout : Z
}.

#[export] Instance Node_eq_dec : EqDecision Node.
Proof. solve_decision. Defined.

(** A [float64]: not a number, an infinity, or [m * 2 ^ e]. *)
Inductive float64 : Type :=
  | FNaN
  | FInf (negative : bool)
  | FFin (m e : Z).

(** Converting a float outside the range of [int64] is implementation-defined
    in Go: the value of [int64(n)] and of [float64(int64(n)) == n] there. *)
Class GoFloat := { wide_to_int64 : float64 → Z * bool }.

(** The dynamic types a decoded condition value can have. *)
Inductive GoValue : Type :=
  | VNil
  | VInt (n : Z)
  | VInt64 (n : Z)
  | VFloat64 (x : float64)
  | VBool (b : bool)
  | VString (s : string)
  | VStrings (l : list string)
  | VAnys (l : list GoValue)
  | VOther.

Definition LogicalAnd : string := "and".
Definition LogicalOr : string := "or".
Definition FieldAmountMinor : string := "amount_minor".
Definition FieldServiceType : string := "service_type".
Definition FieldCustomerCredit : string := "customer_credit_level".
Definition FieldContractType : string := "contract_type".
Definition FieldTermsIdentical : string := "terms_identical".
Definition OperatorEQ : string := "eq".
Definition OperatorNE : string := "ne".
Definition OperatorGT : string := "gt".
Definition OperatorGTE : string := "gte".
Definition OperatorLT : string := "lt".
Definition OperatorLTE : string := "lte".
Definition OperatorIn : string := "in".

Definition MaxExpressionGroups : Z := 50.
Definition MaxExpressionConditions : Z := 50.
Definition MaxExpressionDepth : Z := 8.

Record Condition : Type := mkCondition {
  c_Field : string; c_Operator : string; c_Value : GoValue
}.

Inductive Expression : Type :=
  mkExpression (Logical : string) (Conditions : list Condition) (Groups : list Expression).

Record Rule : Type := mkApprovalRule {
  r_ID : string; r_TenantID : string; r_Name : string; r_Priority : Z; r_Enabled : bool;
  r_Expression : Expression; r_Nodes : list Node; r_Version : Z
}.

Record Facts : Type := mkFacts {
  f_AmountMinor : Z; f_ServiceType : string; f_CustomerCreditLevel : string;
  f_ContractType : string; f_TermsIdentical : bool
}.

(** ** Conditions *)

Definition numberToInt64 `{GoFloat} (value : GoValue) : Z * bool :=
  match value with
  | VInt n | VInt64 n => (n, true)
  | VFloat64 (FFin m e) =>
      let n := if 0 <=? e then m * 2 ^ e else Z.quot m (2 ^ (- e)) in
      if (int64_min <=? n) && (n <=? int64_max)
      then (n, if 0 <=? e then true else n * 2 ^ (- e) =? m)
      else wide_to_int64 (FFin m e)
  | VFloat64 x => (fst (wide_to_int64 x), false)
  | _ => (0, false)
  end.

Definition compareInt (actual expected : Z) (op : string) : res bool :=
  if op =s OperatorEQ then mret (actual =? expected)
  else if op =s OperatorNE then mret (negb (actual =? expected))
  else if op =s OperatorGT then mret (expected <? actual)
  else if op =s OperatorGTE then mret (expected <=? actual)
  else if op =s OperatorLT then mret (actual <? expected)
  else if op =s OperatorLTE then mret (actual <=? expected)
  else Err ErrInvalidExpression.

Fixpoint strings_of (raw : list GoValue) : res (list string) :=
  match raw with
  | [] => mret []
  | VString s :: rest => values ← strings_of rest; mret (s :: values)
  | _ :: _ => Err ErrInvalidExpression
  end.

Definition compareString (actual : string) (expected : GoValue) (op : string) : res bool :=
  let actual := TrimSpace actual in
  if (op =s OperatorEQ) || (op =s OperatorNE) then
    match expected with
    | VString value =>
        let matched := actual =s TrimSpace value in
        mret (Bool.eqb matched (op =s OperatorEQ))
    | _ => Err ErrInvalidExpression
    end
  else if op =s OperatorIn then
    values ← (match expected with
              | VStrings values => mret values
              | VAnys raw => strings_of raw
              | _ => Err ErrInvalidExpression
              end);
    mret (existsb (λ value, actual =s TrimSpace value) values)
  else Err ErrInvalidExpression.

Definition string_fact (field : string) (f : Facts) : string :=
  if field =s FieldServiceType then f_ServiceType f
  else if field =s FieldCustomerCredit then f_CustomerCreditLevel f
  else f_ContractType f.

Definition match_condition `{GoFloat} (f : Facts) (c : Condition) : res bool :=
  if c_Field c =s FieldAmountMinor then
    let '(value, ok) := numberToInt64 (c_Value c) in
    fail_if (negb ok) ErrInvalidExpression;;
    compareInt (f_AmountMinor f) value (c_Operator c)
  else if c_Field c =s FieldTermsIdentical then
    match c_Value c with
    | VBool value =>
        fail_if (negb (c_Operator c =s OperatorEQ) && negb (c_Operator c =s OperatorNE))
          ErrInvalidExpression;;
        mret (Bool.eqb (Bool.eqb (f_TermsIdentical f) value) (c_Operator c =s OperatorEQ))
    | _ => Err ErrInvalidExpression
    end
  else if (c_Field c =s FieldServiceType) || (c_Field c =s FieldCustomerCredit) ||
          (c_Field c =s FieldContractType) then
    compareString (string_fact (c_Field c) f) (c_Value c) (c_Operator c)
  else Err ErrInvalidExpression.

(** ** Expressions *)

(** The empty operator stands for [and]. *)
Definition effective (logical : string) : string :=
  if empty_str logical then LogicalAnd else logical.

(** The conditions, then the groups, are all evaluated before the results are
    combined. *)
Fixpoint Match `{GoFloat} (f : Facts) (e : Expression) {struct e} : res bool :=
  let '(mkExpression logical0 conditions groups) := e in
  let logical := effective logical0 in
  fail_if (negb (logical =s LogicalAnd) && negb (logical =s LogicalOr)) ErrInvalidExpression;;
  results1 ← map_res (match_condition f) conditions;
  results2 ← map_res (λ g, Match f g) groups;
  let results := (results1 ++ results2)%list in
  fail_if (bool_decide (results = [])) ErrInvalidExpression;;
  if logical =s LogicalAnd then mret (forallb id results) else mret (existsb id results).

(** [expressionLimits]: groups and conditions counted so far. *)
Fixpoint walkLimits (depth : Z) (counts : Z * Z) (e : Expression) {struct e} : res (Z * Z) :=
  let '(mkExpression _ conditions groups) := e in
  fail_if (MaxExpressionDepth <? depth) ErrInvalidExpression;;
  let groups' := fst counts + 1 in
  let conditions' := snd counts + Z.of_nat (length conditions) in
  fail_if ((MaxExpressionGroups <? groups') || (MaxExpressionConditions <? conditions'))
    ErrInvalidExpression;;
  fold_res (λ counts g, walkLimits (depth + 1) counts g) (groups', conditions') groups.

Definition ValidateLimits (e : Expression) : res unit :=
  walkLimits 1 (0, 0) e;; mret tt.

(** ** The choice of a rule *)

(** [sort.SliceStable] by decreasing priority: a stable sort has one result. *)
Fixpoint insert_rule (r : Rule) (l : list Rule) : list Rule :=
  match l with
  | [] => [r]
  | x :: rest => if r_Priority x <=? r_Priority r then r :: l else x :: insert_rule r rest
  end.
Definition sort_rules (rules : list Rule) : list Rule := foldr insert_rule [] rules.

Fixpoint first_match `{GoFloat} (candidates : list Rule) (facts : Facts) : res (option Rule) :=
  match candidates with
  | [] => mret None
  | r :: rest =>
      if negb (r_Enabled r) then first_match rest facts
      else
        matched ← Match facts (r_Expression r);
        if (matched : bool) then mret (Some r) else first_match rest facts
  end.

Definition MatchHighest `{GoFloat} (rules : list Rule) (facts : Facts) : res (option Rule) :=
  first_match (sort_rules rules) facts.

(** ** What an expression means

    Whether it is well formed does not depend on the facts. *)

Definition condition_ok `{GoFloat} (c : Condition) : bool :=
  let op := c_Operator c in
  if c_Field c =s FieldAmountMinor then
    snd (numberToInt64 (c_Value c)) &&
    contains [OperatorEQ; OperatorNE; OperatorGT; OperatorGTE; OperatorLT; OperatorLTE] op
  else if c_Field c =s FieldTermsIdentical then
    match c_Value c with VBool _ => contains [OperatorEQ; OperatorNE] op | _ => false end
  else if contains [FieldServiceType; FieldCustomerCredit; FieldContractType] (c_Field c) then
    match c_Value c with
    | VString _ => contains [OperatorEQ; OperatorNE] op
    | VStrings _ => op =s OperatorIn
    | VAnys l => (op =s OperatorIn) && is_ok (strings_of l)
    | _ => false
    end
  else false.

Definition condition_holds `{GoFloat} (f : Facts) (c : Condition) : bool :=
  match match_condition f c with Ok b => b | Err _ => false end.

Fixpoint well_formed `{GoFloat} (e : Expression) : bool :=
  let '(mkExpression logical conditions groups) := e in
  contains [LogicalAnd; LogicalOr] (effective logical) &&
  forallb condition_ok conditions && forallb (λ g, well_formed g) groups &&
  negb (bool_decide (conditions = []) && bool_decide (groups = [])).

Fixpoint denote `{GoFloat} (f : Facts) (e : Expression) : bool :=
  let '(mkExpression logical conditions groups) := e in
  if effective logical =s LogicalAnd
  then forallb (condition_holds f) conditions && forallb (λ g, denote f g) groups
  else existsb (condition_holds f) conditions || existsb (λ g, denote f g) groups.

Fixpoint depth (e : Expression) : Z :=
  let '(mkExpression _ _ groups) := e in
  1 + foldr (λ g m, Z.max (depth g) m) 0 groups.
Fixpoint group_count (e : Expression) : Z :=
  let '(mkExpression _ _ groups) := e in
  1 + foldr (λ g m, group_count g + m) 0 groups.
Fixpoint condition_count (e : Expression) : Z :=
  let '(mkExpression _ conditions groups) := e in
  Z.of_nat (length conditions) + foldr (λ g m, condition_count g + m) 0 groups.

(** ** Lemmas *)

(** Induction over an expression and its groups. *)
Lemma Expression_nested_ind (P : Expression → Prop) :
  (∀ logical conditions groups, Forall P groups → P (mkExpression logical conditions groups)) →
  ∀ e, P e.
Proof.
  intros H. fix IH 1. intros [logical conditions groups]. apply H.
  induction groups as [|g groups IHg]; constructor; [apply IH|exact IHg].
Qed.

Ltac case_streq :=
  repeat match goal with
  | |- context [streq ?a ?b] =>
      let E := fresh "E" in
      destruct (streq a b) eqn:E;
        [apply streq_true in E; rewrite ?E in *|apply streq_false in E]
  end.

Lemma contains_cons x l s : contains (x :: l) s = (x =s s) || contains l s.
Proof. done. Qed.
Lemma streq_sym a b : (a =s b) = (b =s a).
Proof. apply Bool.eq_iff_eq_true. rewrite !streq_true. naive_solver. Qed.

Lemma compareInt_spec a b op :
  compareInt a b op =
    if contains [OperatorEQ; OperatorNE; OperatorGT; OperatorGTE; OperatorLT; OperatorLTE] op
    then Ok (match compareInt a b op with Ok r => r | Err _ => false end)
    else Err ErrInvalidExpression.
Proof.
  unfold compareInt. rewrite !contains_cons, !(streq_sym _ op).
  repeat (destruct (op =s _); cbn [orb]; [done|]). done.
Qed.

Lemma strings_of_err raw e : strings_of raw = Err e → e = ErrInvalidExpression.
Proof.
  induction raw as [|v raw IH]; [done|]. destruct v; cbn [strings_of]; try by intros [= <-].
  intros H. inv_err H; auto.
Qed.

(** A condition fails exactly when it is malformed, whatever the facts. *)
Lemma match_condition_spec `{GoFloat} f c :
  match_condition f c =
    if condition_ok c then Ok (condition_holds f c) else Err ErrInvalidExpression.
Proof.
  unfold condition_holds, match_condition, condition_ok.
  destruct (c_Field c =s FieldAmountMinor).
  { destruct (numberToInt64 (c_Value c)) as [v []]; cbn [snd negb fail_if mbind res_bind andb];
      [apply compareInt_spec|done]. }
  destruct (c_Field c =s FieldTermsIdentical).
  { destruct (c_Value c); try done. rewrite !contains_cons, !(streq_sym _ (c_Operator c)).
    by destruct (c_Operator c =s OperatorEQ), (c_Operator c =s OperatorNE). }
  rewrite !contains_cons, !(streq_sym _ (c_Field c)). rewrite orb_false_r, orb_assoc.
  destruct (_ || _); [|done]. unfold compareString.
  assert (OperatorEQ ≠ OperatorIn ∧ OperatorNE ≠ OperatorIn) as [N1 N2] by done.
  destruct (c_Value c); rewrite ?contains_cons, ?(streq_sym _ (c_Operator c)), ?orb_false_r;
    destruct (c_Operator c =s OperatorEQ) eqn:E1; cbn [orb];
    destruct (c_Operator c =s OperatorNE) eqn:E2; cbn [orb];
    destruct (c_Operator c =s OperatorIn) eqn:E3; try done;
    repeat match goal with E : (_ =s _) = true |- _ => apply streq_true in E end;
    try congruence.
  destruct (strings_of l) eqn:E; [done|]. by apply strings_of_err in E as ->.
Qed.

Lemma forallb_map {A B} (f : B → bool) (g : A → B) l :
  forallb f (map g l) = forallb (λ x, f (g x)) l.
Proof. induction l as [|x l IH]; [done|]. simpl. by rewrite IH. Qed.
Lemma existsb_map {A B} (f : B → bool) (g : A → B) l :
  existsb f (map g l) = existsb (λ x, f (g x)) l.
Proof. induction l as [|x l IH]; [done|]. simpl. by rewrite IH. Qed.

Lemma match_denotes `{GoFloat} f e :
  Match f e = if well_formed e then Ok (denote f e) else Err ErrInvalidExpression.
Proof.
  induction e as [logical conditions groups IH] using Expression_nested_ind.
  cbn [Match well_formed denote].
  change (λ g, well_formed g) with (well_formed : Expression → bool).
  change (λ g, denote f g) with (denote f).
  rewrite !contains_cons, !(streq_sym _ (effective logical)), orb_false_r.
  rewrite (map_res_spec _ condition_ok (condition_holds f) ErrInvalidExpression)
    by (intros; apply match_condition_spec).
  rewrite (map_res_spec _ well_formed (denote f) ErrInvalidExpression)
    by (intros g Hg; rewrite Forall_forall in IH; by apply IH).
  destruct (effective logical =s LogicalAnd), (effective logical =s LogicalOr); try done;
    cbn [negb andb orb fail_if mbind res_bind];
    (destruct (forallb condition_ok conditions); [|done]; cbn [mbind res_bind andb];
     destruct (forallb well_formed groups); [|done]; cbn [mbind res_bind andb];
     destruct conditions as [|c conditions], groups as [|g groups]; try done;
     rewrite fail_if_pass by (by apply bool_decide_eq_false));
    cbn [mbind res_bind]; rewrite ?forallb_app, ?existsb_app, ?forallb_map, ?existsb_map; done.
Qed.

(** ** Size limits *)

Lemma group_count_pos e : 1 ≤ group_count e.
Proof.
  induction e as [logical conditions groups IH] using Expression_nested_ind.
  cbn [group_count]. induction IH; cbn [foldr]; lia.
Qed.
Lemma condition_count_nonneg e : 0 ≤ condition_count e.
Proof.
  induction e as [logical conditions groups IH] using Expression_nested_ind.
  cbn [condition_count]. assert (0 ≤ foldr (λ g m, condition_count g + m) 0 groups); [|lia].
  induction IH; cbn [foldr]; lia.
Qed.

Definition within_limits (d : Z) (counts : Z * Z) (dep grp cond : Z) : bool :=
  (d + dep <=? MaxExpressionDepth) && (fst counts + grp <=? MaxExpressionGroups) &&
  (snd counts + cond <=? MaxExpressionConditions).

Lemma fold_groups_spec d groups counts :
  Forall (λ g, ∀ d counts, walkLimits d counts g =
    if within_limits (d - 1) counts (depth g) (group_count g) (condition_count g)
    then Ok (fst counts + group_count g, snd counts + condition_count g)
    else Err ErrInvalidExpression) groups →
  d ≤ MaxExpressionDepth → fst counts ≤ MaxExpressionGroups →
  snd counts ≤ MaxExpressionConditions →
  fold_res (λ counts g, walkLimits (d + 1) counts g) counts groups =
    if within_limits d counts (foldr (λ g m, Z.max (depth g) m) 0 groups)
         (foldr (λ g m, group_count g + m) 0 groups)
         (foldr (λ g m, condition_count g + m) 0 groups)
    then Ok (fst counts + foldr (λ g m, group_count g + m) 0 groups,
             snd counts + foldr (λ g m, condition_count g + m) 0 groups)
    else Err ErrInvalidExpression.
Proof.
  intros Hall Hd. revert counts.
  induction Hall as [|g groups Hg _ IH]; intros [cg cc] H1 H2; cbn [fst snd] in *.
  { cbn [fold_res foldr]. unfold within_limits. cbn [fst snd].
    replace (_ && _) with true by bool_lia. by rewrite !Z.add_0_r. }
  cbn [fold_res foldr]. rewrite Hg. replace (d + 1 - 1) with d by lia.
  unfold within_limits at 1. cbn [fst snd].
  pose proof (group_count_pos g). pose proof (condition_count_nonneg g).
  assert (0 ≤ foldr (λ g m, group_count g + m) 0 groups) as N1.
  { clear. induction groups as [|g l]; cbn [foldr]; [done|]. pose proof (group_count_pos g). lia. }
  assert (0 ≤ foldr (λ g m, condition_count g + m) 0 groups) as N2.
  { clear. induction groups as [|g l]; cbn [foldr]; [done|]. pose proof (condition_count_nonneg g). lia. }
  destruct (_ && _) eqn:E.
  - bool_hyps. cbn [mbind res_bind]. rewrite IH by (cbn [fst snd]; lia).
    unfold within_limits. cbn [fst snd]. rewrite !Z.add_assoc.
    match goal with |- (if ?a then _ else _) = (if ?b then _ else _) => replace b with a; [done|] end.
    apply Bool.eq_iff_eq_true. rewrite !andb_true_iff, !Z.leb_le. lia.
  - cbn [mbind res_bind]. unfold within_limits. cbn [fst snd].
    by replace (_ && _) with false by bool_lia.
Qed.

Lemma walk_limits_spec e : ∀ d counts,
  walkLimits d counts e =
    if within_limits (d - 1) counts (depth e) (group_count e) (condition_count e)
    then Ok (fst counts + group_count e, snd counts + condition_count e)
    else Err ErrInvalidExpression.
Proof.
  induction e as [logical conditions groups IH] using Expression_nested_ind.
  intros d [cg cc]. cbn [walkLimits depth group_count condition_count fst snd].
  assert (0 ≤ foldr (λ g m, Z.max (depth g) m) 0 groups) as N0
    by (clear; induction groups; cbn [foldr]; lia).
  assert (0 ≤ foldr (λ g m, group_count g + m) 0 groups) as N1.
  { clear. induction groups as [|g l]; cbn [foldr]; [done|]. pose proof (group_count_pos g). lia. }
  assert (0 ≤ foldr (λ g m, condition_count g + m) 0 groups) as N2.
  { clear. induction groups as [|g l]; cbn [foldr]; [done|]. pose proof (condition_count_nonneg g). lia. }
  unfold within_limits at 1. cbn [fst snd].
  destruct (MaxExpressionDepth <? d) eqn:E1; cbn [fail_if mbind res_bind].
  { replace (_ && _) with false by bool_lia. done. }
  destruct (_ || _) eqn:E2; cbn [fail_if mbind res_bind].
  { replace (_ && _) with false by bool_lia. done. }
  bool_hyps. rewrite fold_groups_spec by (done || cbn [fst snd]; lia).
  unfold within_limits. cbn [fst snd]. rewrite !Z.add_assoc.
  match goal with |- (if ?a then _ else _) = (if ?b then _ else _) => replace b with a; [done|] end.
  apply Bool.eq_iff_eq_true. rewrite !andb_true_iff, !Z.leb_le. lia.
Qed.

(** ** Precedence *)

(** The rule decides the outcome: it is enabled, and it is malformed or it
    matches. *)
Definition decisive `{GoFloat} (f : Facts) (r : Rule) : bool :=
  r_Enabled r && (negb (well_formed (r_Expression r)) || denote f (r_Expression r)).

Lemma first_match_find `{GoFloat} f l :
  first_match l f =
    match List.find (decisive f) l with
    | Some r => if well_formed (r_Expression r) then Ok (Some r) else Err ErrInvalidExpression
    | None => Ok None
    end.
Proof.
  induction l as [|r l IH]; [done|]. cbn [first_match List.find]. unfold decisive at 1.
  rewrite match_denotes. destruct (r_Enabled r); cbn [negb andb]; [|done].
  destruct (well_formed _) eqn:E; cbn [negb orb mbind res_bind]; [|by rewrite E].
  destruct (denote _ _); [by rewrite E|done].
Qed.

(** Among the candidates of [l], the first by priority, then by position. *)
Fixpoint best (P : Rule → bool) (l : list Rule) : option Rule :=
  match l with
  | [] => None
  | r :: rest =>
      match best P rest with
      | Some y => if P r && (r_Priority y <=? r_Priority r) then Some r else Some y
      | None => if P r then Some r else None
      end
  end.

Definition by_priority (a b : Rule) : Prop := r_Priority b ≤ r_Priority a.

Lemma find_sorted_le P x l :
  StronglySorted by_priority (x :: l) →
  ∀ y, List.find P l = Some y → r_Priority y ≤ r_Priority x.
Proof.
  intros [_ H]%StronglySorted_inv y [Hy _]%find_some. rewrite Forall_forall in H.
  apply H. by apply list_elem_of_In.
Qed.

Lemma insert_find P r l :
  StronglySorted by_priority l →
  List.find P (insert_rule r l) =
    match List.find P l with
    | Some y => if P r && (r_Priority y <=? r_Priority r) then Some r else Some y
    | None => if P r then Some r else None
    end.
Proof.
  induction l as [|x l IH]; intros Hs; cbn [insert_rule List.find]; [done|].
  pose proof (find_sorted_le P x l Hs) as Hle. apply StronglySorted_inv in Hs as [Hs _].
  destruct (r_Priority x <=? r_Priority r) eqn:E; cbn [List.find]; bool_hyps.
  - destruct (P r); cbn [andb]; [|by destruct (P x); [|destruct (List.find P l)]].
    destruct (P x).
    + by replace (_ <=? _) with true by bool_lia.
    + destruct (List.find P l) as [y|]; [|done]. specialize (Hle y eq_refl).
      by replace (_ <=? _) with true by bool_lia.
  - destruct (P x).
    + replace (_ <=? _) with false by bool_lia. by rewrite andb_false_r.
    + by apply IH.
Qed.

Lemma insert_elem r l x : x ∈ insert_rule r l ↔ x = r ∨ x ∈ l.
Proof.
  induction l as [|y l IH]; cbn [insert_rule]; [set_solver|].
  destruct (_ <=? _); [set_solver|]. rewrite !elem_of_cons, IH. tauto.
Qed.

Lemma insert_sorted r l :
  StronglySorted by_priority l → StronglySorted by_priority (insert_rule r l).
Proof.
  induction l as [|y l IH]; cbn [insert_rule]; intros Hs; [repeat constructor|].
  apply StronglySorted_inv in Hs as [Hs Hall].
  destruct (_ <=? _) eqn:E; bool_hyps.
  - repeat constructor; auto. eapply Forall_impl; [exact Hall|].
    unfold by_priority. intros; simpl in *; lia.
  - constructor; [by apply IH|]. apply Forall_forall. intros z [->|Hz]%insert_elem.
    + unfold by_priority. lia.
    + rewrite Forall_forall in Hall. by apply Hall.
Qed.

Lemma sort_rules_sorted l : StronglySorted by_priority (sort_rules l).
Proof. induction l; [constructor|]. by apply insert_sorted. Qed.

Lemma find_sort_rules P l : List.find P (sort_rules l) = best P l.
Proof.
  induction l as [|r l IH]; [done|]. cbn [sort_rules foldr best]. fold (sort_rules l).
  by rewrite insert_find, IH by apply sort_rules_sorted.
Qed.

Lemma best_none P l : best P l = None ↔ ∀ r, r ∈ l → P r = false.
Proof.
  induction l as [|x l IH]; cbn [best]; [set_solver|]. split.
  - destruct (best P l); [by destruct (_ && _)|]. destruct (P x) eqn:E; [done|].
    intros _ r [->|Hr]%elem_of_cons; [done|]. by apply IH.
  - intros H. destruct IH as [_ ->]; [|set_solver]. by rewrite (H x) by set_solver.
Qed.

(** [i] comes before [j] in the order of evaluation. *)
Definition precedes (rules : list Rule) (i j : nat) : Prop :=
  ∃ a b, rules !! i = Some a ∧ rules !! j = Some b ∧
    (r_Priority b < r_Priority a ∨ r_Priority b = r_Priority a ∧ (i < j)%nat).

Lemma best_some P l r :
  best P l = Some r →
  ∃ i, l !! i = Some r ∧ P r = true ∧
    ∀ j b, l !! j = Some b → P b = true → j ≠ i → precedes l i j.
Proof.
  revert r. induction l as [|x l IH]; intros r; cbn [best]; [done|].
  destruct (best P l) as [y|] eqn:Ey.
  - destruct (IH y eq_refl) as (i & Hi & Hy & Hfirst).
    destruct (P x && _) eqn:E; bool_hyps; intros [= <-].
    + exists 0%nat. split_and!; auto. intros [|j] b Hb HPb Hj; [done|]. change (l !! j = Some b) in Hb.
      exists x, b. split_and!; auto.
      destruct (decide (j = i)) as [->|Hne].
      * rewrite Hi in Hb. injection Hb as ->. destruct (decide (r_Priority b = r_Priority x)); lia.
      * destruct (Hfirst j b Hb HPb Hne) as (a' & b' & Ha' & Hb' & Hp).
        rewrite Hi in Ha'. rewrite Hb in Hb'. simplify_eq.
        destruct (decide (r_Priority b' = r_Priority x)); lia.
    + exists (S i). split_and!; auto. intros [|j] b Hb HPb Hj.
      * injection Hb as ->. exists y, b. split_and!; auto. left.
        rewrite HPb in E. cbn [andb] in E. bool_hyps. lia.
      * change (l !! j = Some b) in Hb. destruct (Hfirst j b Hb HPb ltac:(lia)) as (a' & b' & Ha' & Hb' & Hp).
        exists a', b'. split_and!; auto. lia.
  - destruct (P x) eqn:E; [|done]. intros [= <-]. exists 0%nat. split_and!; auto.
    intros [|j] b Hb HPb Hj; [done|]. change (l !! j = Some b) in Hb.
    assert (P b = false) by (eapply best_none; [exact Ey|by eapply list_elem_of_lookup_2]).
    congruence.
Qed.

(** ** Properties *)

(** Evaluating an expression fails exactly when it is malformed, which
    does not depend on the facts and is never hidden by a result that is
    already decided; otherwise the result is the conjunction or disjunction
    the expression denotes. *)
Theorem match_spec `{GoFloat} f e :
  Match f e = (if well_formed e then Ok (denote f e) else Err ErrInvalidExpression).
Proof. apply match_denotes. Qed.

(** The counting walk that stops at the first excess accepts exactly the
    expressions of depth at most 8 with at most 50 groups and 50 conditions. *)
Theorem validate_limits_spec e :
  ValidateLimits e =
    (if (depth e <=? 8) && (group_count e <=? 50) && (condition_count e <=? 50)
     then Ok tt else Err ErrInvalidExpression).
Proof.
  unfold ValidateLimits. rewrite walk_limits_spec. unfold within_limits. cbn [fst snd].
  rewrite !Z.add_0_l. by destruct (_ && _ && _).
Qed.

(** The rule chosen for a contract is the enabled, matching rule that is
    first by priority and, among equals, by position; a malformed enabled rule
    before it is reported instead of skipped; no rule is chosen only when
    every enabled rule is well formed and does not match. *)
Theorem match_highest_spec `{GoFloat} rules f :
  match MatchHighest rules f with
  | Ok None => ∀ r, r ∈ rules → r_Enabled r = true →
      well_formed (r_Expression r) = true ∧ denote f (r_Expression r) = false
  | Ok (Some r) =>
      r_Enabled r = true ∧ well_formed (r_Expression r) = true ∧
      denote f (r_Expression r) = true ∧
      ∃ i, rules !! i = Some r ∧
        ∀ j b, rules !! j = Some b → decisive f b = true → j ≠ i → precedes rules i j
  | Err e => e = ErrInvalidExpression ∧
      ∃ i r, rules !! i = Some r ∧ r_Enabled r = true ∧ well_formed (r_Expression r) = false ∧
        ∀ j b, rules !! j = Some b → decisive f b = true → j ≠ i → precedes rules i j
  end.
Proof.
  unfold MatchHighest. rewrite first_match_find, find_sort_rules.
  destruct (best (decisive f) rules) as [r|] eqn:E.
  - destruct (best_some _ _ _ E) as (i & Hi & Hd & Hf).
    unfold decisive in Hd. apply andb_true_iff in Hd as [Hen Hd].
    destruct (well_formed (r_Expression r)) eqn:Ew; cbn [negb orb] in Hd; eauto 10.
  - intros r Hr Hen. rewrite best_none in E. specialize (E r Hr). unfold decisive in E.
    rewrite Hen in E. cbn [andb] in E. apply orb_false_iff in E as [E%negb_false_iff ?]. done.
Qed.
