(* ===== verification/Workflow.v ===== *)
(** * workflows/types.go, helpers.go, activities.go: what workflows share

    The records that workflows, activities and the application exchange, a
    monad in which the workflow functions are written, and the rules to prove
    properties of its programs.

    A Temporal workflow is a deterministic function of its history.  The
    history of a run is a [World]: the clock, the outcomes of its activities in
    order, and the answers of its selectors in order, each with the time that
    passes.  A program either goes on with a value, returns from the workflow,
    waits for a part of the history that does not exist yet, or has used up its
    fuel (which the theorems exclude).  Every activity it asks for is recorded
    in the trace with its outcome. *)

From S2P Require Import Prelude GoStrings Decimal GoTime Status ApprovalRule.

#[local] Open Scope string_scope.
#[local] Open Scope Z_scope.
#[local] Open Scope list_scope.

(** ** Records *)

Definition ActionApprove : string := "approve".
Definition ActionReject : string := "reject".
Definition ActionAddSign : string := "add_sign".
Definition ActionTransfer : string := "transfer".
Definition ActionReturn : string := "return".
Definition ActionWithdraw : string := "withdraw".
Definition ActionUrge : string := "urge".
Definition ActionComment : string := "comment".

Record AuditMeta : Type := mkAudit {
  LoginIP : string; ClientIP : string; IPSource : string; RequestID : string
}.

Record ContractApprovalInput : Type := mkContractInput {
  ci_ApprovalID : string; ci_Audit : AuditMeta; ci_TenantID : string; ci_ContractID : string;
  ci_ContractVersion : Z; ci_ApplicantUserID : string; ci_ApplicantDisplayName : string;
  ci_ContentHash : string; ci_RuleID : string; ci_RuleVersion : Z; ci_Nodes : list Node;
  ci_DefaultNodeTimeout : Z; ci_ReminderInterval : Z
}.

Record StatusChangeInput : Type := mkStatusInput {
  si_ApprovalID : string; si_Audit : AuditMeta; si_TenantID : string; si_ContractID : string;
  si_ContractVersion : Z; si_ApplicantUserID : string; si_ApplicantDisplayName : string;
  si_FromStatus : Status; si_TargetStatus : Status; si_Reason : string;
  si_AdminUserIDs : list string; si_Timeout : Z
}.

Record ApprovalCommand : Type := mkCommand {
  CommandID : string; Action : string; ActorUserID : string; ActorDisplayName : string;
  RoleNodeOrSign : bool; Comment : string; TargetUserIDs : list string;
  Countersign : string; TargetNodeID : string; OccurredAt : Z
}.

Record RuntimeNode : Type := mkRuntime {
  rn_Node : Node; rn_Status : string; ApprovedBy : gset string;
  AddedSignerIDs : list string; rn_StartedAt : Z; rn_CompletedAt : Z
}.

Record ApprovalState : Type := mkState {
  st_ApprovalID : string; st_Kind : string; st_Status : string; st_ContractID : string;
  st_ApplicantUserID : string; st_ApplicantDisplayName : string; st_CurrentNodeIndex : nat;
  st_Nodes : list RuntimeNode; st_StartedAt : Z; st_UpdatedAt : Z; st_CompletedAt : Z;
  st_FailureReason : string; st_ProcessedCommandIDs : list string
}.

Record StartApprovalActivityInput : Type := mkStart {
  sa_ApprovalID : string; sa_TenantID : string; sa_ContractID : string;
  sa_ApplicantUserID : string; sa_ApplicantDisplayName : string; sa_ExpectedVersion : Z;
  sa_Kind : string; sa_FromStatus : Status; sa_TargetStatus : Status; sa_Reason : string;
  sa_RuleID : string; sa_RuleVersion : Z; sa_ContentHash : string; sa_WorkflowID : string;
  sa_RunID : string; sa_Nodes : list Node; sa_Audit : AuditMeta
}.

Record RecordCommandActivityInput : Type := mkRecord {
  rc_ApprovalID : string; rc_TenantID : string; rc_ContractID : string; rc_NodeID : string;
  rc_Command : ApprovalCommand; rc_State : ApprovalState
}.

Record CompleteApprovalActivityInput : Type := mkComplete {
  ca_ApprovalID : string; ca_TenantID : string; ca_ContractID : string;
  ca_ActorUserID : string; ca_Status : string; ca_Reason : string; ca_WorkflowID : string;
  ca_TargetStatus : Status; ca_Audit : AuditMeta
}.

Record NotifyActivityInput : Type := mkNotify {
  na_TenantID : string; na_ApprovalID : string; na_ContractID : string; na_Type : string;
  na_Recipients : list string; na_RoleRecipients : list string;
  na_Title : string; na_Content : string; na_DedupeKey : string
}.

(** [workflow.GetInfo(ctx).WorkflowExecution]. *)
Record WorkflowExecution : Type := mkExecution { we_ID : string; we_RunID : string }.

(** ** Pure helpers *)

Definition initializeNode (node : Node) : RuntimeNode :=
  let mode := if empty_str (n_Countersign node) then CountersignAll else n_Countersign node in
  mkRuntime (mkNode (n_ID node) (n_Name node) (n_RoleCode node) (n_AssigneeIDs node) mode
               (n_Timeout node))
    NodePending ∅ [] zero_time zero_time.
Definition initializeNodes (nodes : list Node) : list RuntimeNode := map initializeNode nodes.

Definition unique (values : list string) : list string := dedup_from [] values.

Definition validateCommonCommand (command : ApprovalCommand) : res unit :=
  fail_if (empty_str (CommandID command) || empty_str (ActorUserID command)) ErrOther;;
  fail_if (contains [ActionReject; ActionAddSign; ActionTransfer; ActionReturn; ActionWithdraw]
             (Action command) && empty_str (Comment command)) ErrOther.

(** The sentinel errors that no retry can repair. *)
Definition businessConflict (e : goerr) : bool :=
  match e with
  | ErrNotFound | ErrVersionConflict | ErrStateConflict | ErrInvalidTransition
  | ErrInvalidStatus | ErrNumberExhausted | ErrInvalidNumberRule | ErrNumberConflict => true
  | _ => false
  end.

(** What an activity reports to its workflow. *)
Inductive ActivityError : Type :=
  | NonRetryable (type : string) (cause : goerr)
  | Retryable (cause : goerr).

Definition commercialLicenseErrorType : string := "COMMERCIAL_LICENSE_RESTRICTED".
Definition contractBusinessConflictErrorType : string := "CONTRACT_BUSINESS_CONFLICT".
Definition importConflictErrorType : string := "IMPORT_CONFLICT".

Definition criticalActivityError (err : option goerr) : option ActivityError :=
  match err with
  | None => None
  | Some e => Some (if businessConflict e
                    then NonRetryable contractBusinessConflictErrorType e else Retryable e)
  end.

Definition isContractBusinessConflict (e : goerr) : bool :=
  match criticalActivityError (Some e) with
  | Some (NonRetryable type _) => type =s contractBusinessConflictErrorType
  | _ => false
  end.

Definition importConfirmationError (err : option goerr) : option ActivityError :=
  match err with
  | None => None
  | Some e =>
      if negb (bool_decide (e = ErrImportManifest)) && negb (isContractBusinessConflict e)
      then Some (Retryable e)
      else Some (NonRetryable importConflictErrorType e)
  end.

(** ** Histories and traces *)

(** The outcome of one execution of an activity: success, an error, or the
    error of a restricted licence, after which the sleep of the retry loop ends
    normally or with an error (a cancelled workflow). *)
Inductive ActivityOutcome : Type :=
  | AOk
  | AErr (e : goerr)
  | ALicense (sleep : option goerr).

Inductive Effect : Type :=
  | EStart (i : StartApprovalActivityInput)
  | ERecord (i : RecordCommandActivityInput)
  | EComplete (i : CompleteApprovalActivityInput)
  | ENotify (i : NotifyActivityInput).

Definition critical (e : Effect) : bool :=
  match e with ENotify _ => false | _ => true end.

Record World : Type := mkWorld {
  w_now : Z;
  w_activities : list (nat * ActivityOutcome);
  (** [None]: the timer fires; [Some c]: the signal [c] is received. *)
  w_selects : list (nat * option ApprovalCommand);
  (** [GetVersion(...) != DefaultVersion] for the code's one change id. *)
  w_patched : bool;
  w_trace : list (Effect * ActivityOutcome)
}.

(** The result of the workflow function: a state and an error. *)
Definition Returned : Type := ApprovalState * option goerr.

Inductive ctrl (A : Type) : Type :=
  | Val (a : A)
  | Ret (r : Returned)
  | Waiting
  | OutOfFuel.
Arguments Val {_} _.
Arguments Ret {_} _.
Arguments Waiting {_}.
Arguments OutOfFuel {_}.

Definition W (A : Type) : Type := World → ctrl A * World.

#[export] Instance W_ret : MRet W := λ A a w, (Val a, w).
#[export] Instance W_bind : MBind W := λ A B f m w,
  match m w with
  | (Val a, w') => f a w'
  | (Ret r, w') => (Ret r, w')
  | (Waiting, w') => (Waiting, w')
  | (OutOfFuel, w') => (OutOfFuel, w')
  end.

(** [workflow.Now(ctx)]. *)
Definition now : W Z := λ w, (Val (w_now w), w).
(** [workflow.GetVersion(ctx, ...) != workflow.DefaultVersion]. *)
Definition patched : W bool := λ w, (Val (w_patched w), w).
(** [return state, err]. *)
Definition ret_wf {A} (st : ApprovalState) (err : option goerr) : W A :=
  λ w, (Ret (st, err), w).
Definition no_fuel {A} : W A := λ w, (OutOfFuel, w).

(** The loop of [executeLicensedActivity]: it runs the activity again while
    the licence is restricted, with a sleep of 30 seconds in between. *)
Fixpoint licensed_loop (e : Effect) (acts : list (nat * ActivityOutcome)) (w : World)
    : ctrl (option goerr) * World :=
  match acts with
  | [] => (Waiting, mkWorld (w_now w) [] (w_selects w) (w_patched w) (w_trace w))
  | (d, outcome) :: rest =>
      let t := w_now w + Z.of_nat d in
      let step t' := mkWorld t' rest (w_selects w) (w_patched w) (w_trace w ++ [(e, outcome)]) in
      match outcome with
      | AOk => (Val None, step t)
      | AErr err => (Val (Some err), step t)
      | ALicense (Some err) => (Val (Some err), step t)
      | ALicense None => licensed_loop e rest (step (t + 30 * Second))
      end
  end.

Definition executeLicensedActivity (e : Effect) : W (option goerr) :=
  λ w, licensed_loop e (w_activities w) w.

(** An activity whose error ends the workflow. *)
Definition critical_activity (e : Effect) (st : ApprovalState) : W unit :=
  err ← executeLicensedActivity e;
  match err with Some _ => ret_wf st err | None => mret tt end.

(** [selector.Select] between the command channel and a timer of [wait]. *)
Definition select_command (wait : Z) : W (option ApprovalCommand) := λ w,
  match w_selects w with
  | [] => (Waiting, w)
  | (d, answer) :: rest =>
      let t := match answer with
               | None => w_now w + Z.max wait 0 + Z.of_nat d
               | Some _ => w_now w + Z.of_nat d
               end in
      (Val answer, mkWorld t (w_activities w) rest (w_patched w) (w_trace w))
  end.

(** ** Notifications

    Their errors are logged and dropped. *)

Definition notifyBestEffort (input : NotifyActivityInput) : W unit :=
  executeLicensedActivity (ENotify input);; mret tt.

Definition notifyCurrentNode (tenantID : string) (state : ApprovalState)
    (typ title content : string) : W unit :=
  match st_Nodes state !! st_CurrentNodeIndex state with
  | None => mret tt
  | Some node =>
      t ← now;
      notifyBestEffort (mkNotify tenantID (st_ApprovalID state) (st_ContractID state) typ
        (n_AssigneeIDs (rn_Node node)) [] title content
        (st_ApprovalID state +:+ ":" +:+ n_ID (rn_Node node) +:+ ":" +:+ typ +:+ ":" +:+
           Itoa (Z.quot (unix t) 3600)))
  end.

Definition notifyRecipients (tenantID : string) (state : ApprovalState)
    (typ title content keySuffix : string) (recipients : list string) : W unit :=
  notifyBestEffort (mkNotify tenantID (st_ApprovalID state) (st_ContractID state) typ
    (unique recipients) [] title content (st_ApprovalID state +:+ ":" +:+ keySuffix)).

Definition notifyAssignedUsers (tenantID : string) (state : ApprovalState)
    (command : ApprovalCommand) (recipients : list string) : W unit :=
  if bool_decide (unique recipients = []) then mret tt
  else notifyRecipients tenantID state "approval_assigned" "您已被指派合同审批待办"
    "您已被指派参与当前合同审批，请及时处理" ("assigned:" +:+ CommandID command) recipients.

Definition notifyRoles (tenantID : string) (state : ApprovalState)
    (typ title content keySuffix : string) (roles : list string) : W unit :=
  notifyBestEffort (mkNotify tenantID (st_ApprovalID state) (st_ContractID state) typ
    [] (unique roles) title content (st_ApprovalID state +:+ ":" +:+ keySuffix)).

(** ** Program logic

    [triple P m Q R]: from a world in [P], [m] either goes on in [Q], returns
    from the workflow in [R], or waits; it does not run out of fuel.  [I] holds
    of the trace whenever it stops to wait. *)
Definition triple {A} (I : World → Prop) (P : World → Prop) (m : W A)
    (Q : A → World → Prop) (R : Returned → World → Prop) : Prop :=
  ∀ w, P w → match m w with
             | (Val a, w') => Q a w'
             | (Ret r, w') => R r w'
             | (Waiting, w') => I w'
             | (OutOfFuel, _) => False
             end.

Lemma triple_ret {A} I (P : World → Prop) (a : A) (Q : A → World → Prop) R :
  (∀ w, P w → Q a w) → triple I P (mret a) Q R.
Proof. intros H w Hw. by apply H. Qed.

Lemma triple_bind {A B} I P (m : W A) (f : A → W B) Q S R :
  triple I P m S R → (∀ a, triple I (S a) (f a) Q R) → triple I P (m ≫= f) Q R.
Proof.
  intros Hm Hf w Hw. specialize (Hm w Hw). unfold mbind, W_bind.
  destruct (m w) as [[a|r| |] w']; auto. by apply Hf.
Qed.

Lemma triple_weaken {A} I P P' (m : W A) (Q Q' : A → World → Prop) (R R' : Returned → World → Prop) :
  triple I P' m Q' R' → (∀ w, P w → P' w) → (∀ a w, Q' a w → Q a w) →
  (∀ r w, R' r w → R r w) → triple I P m Q R.
Proof.
  intros Hm HP HQ HR w Hw. specialize (Hm w (HP w Hw)).
  destruct (m w) as [[a|r| |] w']; auto.
Qed.

Lemma triple_now I (P : World → Prop) R : triple I P now (λ _, P) R.
Proof. by intros w Hw. Qed.

Lemma triple_patched I (P : World → Prop) R : triple I P patched (λ _, P) R.
Proof. by intros w Hw. Qed.

Lemma triple_ret_wf {A} I (P : World → Prop) st err (Q : A → World → Prop)
    (R : Returned → World → Prop) :
  (∀ w, P w → R (st, err) w) → triple I P (ret_wf st err) Q R.
Proof. intros H w Hw. by apply H. Qed.

(** Assertions on the trace that also bound the selector answers left. *)
Definition on (T : list (Effect * ActivityOutcome) → Prop) (n : nat) (w : World) : Prop :=
  T (w_trace w) ∧ (length (w_selects w) ≤ n)%nat.

(** An activity adds its executions to the trace: restricted ones, then at
    most one with another outcome, whose result it returns. *)
Lemma triple_licensed e (T U V : list (Effect * ActivityOutcome) → Prop) n I R :
  (∀ tr, T tr → T (tr ++ [(e, ALicense None)])) →
  (∀ tr, T tr → U (tr ++ [(e, AOk)])) →
  (∀ tr err, T tr → V (tr ++ [(e, AErr err)])) →
  (∀ tr err, T tr → V (tr ++ [(e, ALicense (Some err))])) →
  (∀ w, on T n w → I w) →
  triple I (on T n) (executeLicensedActivity e)
    (λ err w, match err with None => on U n w | Some _ => on V n w end) R.
Proof.
  intros Hlic Hok Herr Hcan HI w Hw. unfold executeLicensedActivity.
  generalize (w_activities w) as acts. intros acts. revert w Hw.
  induction acts as [|[d outcome] acts IH]; intros w [HT Hn]; cbn [licensed_loop].
  { apply HI. by split. }
  destruct outcome as [|err|[err|]]; [split; cbn [w_trace w_selects]; auto..|].
  apply IH. split; cbn [w_trace w_selects]; auto.
Qed.

(** A selector takes one answer; a timer has waited at least its duration. *)
Lemma triple_select I T n wait (Q : option ApprovalCommand → World → Prop) R :
  (∀ w, on T n w → I w) →
  (∀ m answer, n = S m → ∀ w t, on T m w → (answer = None → t + wait ≤ w_now w) → Q answer w) →
  triple I (λ w, on T n w) (select_command wait) Q R.
Proof.
  intros HI H w [HT Hn]. unfold select_command.
  destruct (w_selects w) as [|[d answer] rest] eqn:E; [apply HI; split; rewrite ?E; done|].
  destruct n as [|m]; [cbn in Hn; lia|]. apply (H m answer eq_refl _ (w_now w)).
  - split; cbn [w_trace w_selects]; [done|]. cbn in Hn. lia.
  - intros ->. cbn [w_now]. lia.
Qed.

(** ** What a run has done

    The critical activities that succeeded, in order. *)
Definition succeeded (p : Effect * ActivityOutcome) : bool :=
  critical (fst p) && match snd p with AOk => true | _ => false end.
Definition successes (tr : list (Effect * ActivityOutcome)) : list Effect :=
  map fst (List.filter succeeded tr).

(** The run ends with a critical activity that did not succeed. *)
Definition critical_failure (tr : list (Effect * ActivityOutcome)) : Prop :=
  ∃ e o, last tr = Some (e, o) ∧ critical e = true ∧ o ≠ AOk.

(** Assertions on the successes. *)
Abbreviation did P n := (on (λ tr, P (successes tr)) n).

(** The assertion of a workflow that returns: [F] of the final state without
    an error; with an error, the successes satisfy [L] and a critical activity
    failed. *)
Definition outcome (F : ApprovalState → list Effect → Prop) (L : list Effect → Prop)
    (r : Returned) (w : World) : Prop :=
  match snd r with
  | None => F (fst r) (successes (w_trace w))
  | Some _ => L (successes (w_trace w)) ∧ critical_failure (w_trace w)
  end.

Lemma successes_snoc tr e o :
  successes (tr ++ [(e, o)]) =
    successes tr ++ (if succeeded (e, o) then [e] else []).
Proof.
  unfold successes. rewrite List.filter_app, map_app. cbn [List.filter].
  by destruct (succeeded (e, o)).
Qed.

Lemma successes_other tr e o : succeeded (e, o) = false → successes (tr ++ [(e, o)]) = successes tr.
Proof. intros E. by rewrite successes_snoc, E, app_nil_r. Qed.

Section Rules.
Variable L : list Effect → Prop.
Variable F : ApprovalState → list Effect → Prop.
Let I (w : World) : Prop := L (successes (w_trace w)).
Let R := outcome F L.

Lemma did_legal (P : list Effect → Prop) n : (∀ s, P s → L s) → ∀ w, did P n w → I w.
Proof. intros H w [HP _]. by apply H. Qed.

(** Notifications change nothing that counts, whatever their outcome. *)
Lemma triple_notify i (P : list Effect → Prop) n :
  (∀ s, P s → L s) → triple I (did P n) (notifyBestEffort i) (λ _, did P n) R.
Proof.
  intros HL. unfold notifyBestEffort. eapply triple_bind.
  - apply (triple_licensed _ _ (λ tr, P (successes tr)) (λ tr, P (successes tr)));
      try (intros; by rewrite successes_other). by apply did_legal.
  - intros err. apply triple_ret. intros w. by destruct err.
Qed.

Lemma triple_notifyCurrentNode tenant st typ title content (P : list Effect → Prop) n :
  (∀ s, P s → L s) →
  triple I (did P n) (notifyCurrentNode tenant st typ title content) (λ _, did P n) R.
Proof.
  intros HL. unfold notifyCurrentNode. destruct (_ !! _) as [node|]; [|by apply triple_ret].
  eapply triple_bind; [apply triple_now|intros t; by apply triple_notify].
Qed.

Lemma triple_notifyAssignedUsers tenant st c l (P : list Effect → Prop) n :
  (∀ s, P s → L s) → triple I (did P n) (notifyAssignedUsers tenant st c l) (λ _, did P n) R.
Proof.
  intros HL. unfold notifyAssignedUsers. case_bool_decide; [by apply triple_ret|].
  by apply triple_notify.
Qed.

Lemma triple_when (b : bool) (m : W unit) (P : list Effect → Prop) n :
  triple I (did P n) m (λ _, did P n) R →
  triple I (did P n) (if b then m else mret tt) (λ _, did P n) R.
Proof. destruct b; [done|]. intros _. by apply triple_ret. Qed.

(** A critical activity succeeds, or the workflow fails with its error. *)
Lemma triple_critical e st (P Q : list Effect → Prop) n :
  critical e = true → (∀ s, P s → L s) → (∀ s, P s → Q (s ++ [e])) →
  triple I (did P n) (critical_activity e st) (λ _, did Q n) R.
Proof.
  intros He HL HQ. unfold critical_activity. eapply triple_bind.
  - apply (triple_licensed _ _ (λ tr, Q (successes tr))
      (λ tr, L (successes tr) ∧ critical_failure tr)).
    + intros tr HP. rewrite successes_other; [done|]. unfold succeeded. by rewrite andb_false_r.
    + intros tr HP. rewrite successes_snoc. unfold succeeded. cbn [fst snd]. rewrite He. by apply HQ.
    + intros tr err HP. rewrite successes_other by (unfold succeeded; by rewrite andb_false_r).
      split; [by apply HL|]. exists e, (AErr err). by rewrite last_snoc.
    + intros tr err HP. rewrite successes_other by (unfold succeeded; by rewrite andb_false_r).
      split; [by apply HL|]. exists e, (ALicense (Some err)). by rewrite last_snoc.
    + by apply did_legal.
  - intros [err|]; [|by apply triple_ret]. apply triple_ret_wf. intros w [Hw _]. done.
Qed.
End Rules.
