(* ===== verification/ContractApproval.v ===== *)
(** * workflows/contract_approval.go: the approval of a contract

    The commands of approvers on a sequence of nodes and the workflow that
    serves them: timers, reminders, records and the completion. *)

From S2P Require Import Prelude GoStrings GoTime Status ApprovalRule Workflow.

#[local] Open Scope string_scope.
#[local] Open Scope Z_scope.
#[local] Open Scope list_scope.

(** ** Assignments to fields *)

Definition rn_set_status (n : RuntimeNode) (s : string) : RuntimeNode :=
  mkRuntime (rn_Node n) s (ApprovedBy n) (AddedSignerIDs n) (rn_StartedAt n) (rn_CompletedAt n).
Definition rn_set_started (n : RuntimeNode) (t : Z) : RuntimeNode :=
  mkRuntime (rn_Node n) (rn_Status n) (ApprovedBy n) (AddedSignerIDs n) t (rn_CompletedAt n).
Definition rn_set_completed (n : RuntimeNode) (t : Z) : RuntimeNode :=
  mkRuntime (rn_Node n) (rn_Status n) (ApprovedBy n) (AddedSignerIDs n) (rn_StartedAt n) t.
Definition rn_set_approved (n : RuntimeNode) (a : gset string) : RuntimeNode :=
  mkRuntime (rn_Node n) (rn_Status n) a (AddedSignerIDs n) (rn_StartedAt n) (rn_CompletedAt n).
Definition rn_set_added (n : RuntimeNode) (l : list string) : RuntimeNode :=
  mkRuntime (rn_Node n) (rn_Status n) (ApprovedBy n) l (rn_StartedAt n) (rn_CompletedAt n).
Definition rn_set_assignees (n : RuntimeNode) (l : list string) : RuntimeNode :=
  let d := rn_Node n in
  mkRuntime (mkNode (n_ID d) (n_Name d) (n_RoleCode d) l (n_Countersign d) (n_Timeout d))
    (rn_Status n) (ApprovedBy n) (AddedSignerIDs n) (rn_StartedAt n) (rn_CompletedAt n).
Definition rn_set_countersign (n : RuntimeNode) (c : string) : RuntimeNode :=
  let d := rn_Node n in
  mkRuntime (mkNode (n_ID d) (n_Name d) (n_RoleCode d) (n_AssigneeIDs d) c (n_Timeout d))
    (rn_Status n) (ApprovedBy n) (AddedSignerIDs n) (rn_StartedAt n) (rn_CompletedAt n).

Definition st_update (st : ApprovalState) (status : string) (index : nat)
    (nodes : list RuntimeNode) (updated completed : Z) (failure : string)
    (processed : list string) : ApprovalState :=
  mkState (st_ApprovalID st) (st_Kind st) status (st_ContractID st) (st_ApplicantUserID st)
    (st_ApplicantDisplayName st) index nodes (st_StartedAt st) updated completed failure processed.
Definition st_set_status (st : ApprovalState) (s : string) : ApprovalState :=
  st_update st s (st_CurrentNodeIndex st) (st_Nodes st) (st_UpdatedAt st) (st_CompletedAt st)
    (st_FailureReason st) (st_ProcessedCommandIDs st).
Definition st_set_failure (st : ApprovalState) (r : string) : ApprovalState :=
  st_update st (st_Status st) (st_CurrentNodeIndex st) (st_Nodes st) (st_UpdatedAt st)
    (st_CompletedAt st) r (st_ProcessedCommandIDs st).
Definition st_set_index (st : ApprovalState) (i : nat) : ApprovalState :=
  st_update st (st_Status st) i (st_Nodes st) (st_UpdatedAt st) (st_CompletedAt st)
    (st_FailureReason st) (st_ProcessedCommandIDs st).
Definition st_set_nodes (st : ApprovalState) (l : list RuntimeNode) : ApprovalState :=
  st_update st (st_Status st) (st_CurrentNodeIndex st) l (st_UpdatedAt st) (st_CompletedAt st)
    (st_FailureReason st) (st_ProcessedCommandIDs st).
Definition st_set_updated (st : ApprovalState) (t : Z) : ApprovalState :=
  st_update st (st_Status st) (st_CurrentNodeIndex st) (st_Nodes st) t (st_CompletedAt st)
    (st_FailureReason st) (st_ProcessedCommandIDs st).
Definition st_set_completed (st : ApprovalState) (t : Z) : ApprovalState :=
  st_update st (st_Status st) (st_CurrentNodeIndex st) (st_Nodes st) (st_UpdatedAt st) t
    (st_FailureReason st) (st_ProcessedCommandIDs st).
Definition st_set_processed (st : ApprovalState) (l : list string) : ApprovalState :=
  st_update st (st_Status st) (st_CurrentNodeIndex st) (st_Nodes st) (st_UpdatedAt st)
    (st_CompletedAt st) (st_FailureReason st) l.
Definition st_set_node (st : ApprovalState) (i : nat) (n : RuntimeNode) : ApprovalState :=
  st_set_nodes st (<[i := n]> (st_Nodes st)).

(** ** Commands *)

Definition approvalNodePassed (node : RuntimeNode) (roleNodeOrSign : bool) : bool :=
  let approved id := bool_decide (id ∈ ApprovedBy node) in
  let added := AddedSignerIDs node in
  let assignees := n_AssigneeIDs (rn_Node node) in
  if bool_decide (added = []) then
    if (n_Countersign (rn_Node node) =s CountersignAny) || roleNodeOrSign then true
    else forallb approved assignees
  else
    let originalApproved := existsb (λ id, negb (contains added id) && approved id) assignees in
    if negb originalApproved then false
    else if n_Countersign (rn_Node node) =s CountersignAny then existsb approved added
    else forallb approved added.

(** [for i, id := range l { if id == from { l[i] = to; break } }]. *)
Fixpoint replace_first (from to : string) (l : list string) : list string :=
  match l with
  | [] => []
  | id :: rest => if id =s from then to :: rest else id :: replace_first from to rest
  end.

(** [if !contains(l, target) { l = append(l, target) }]. *)
Definition add_missing (l : list string) (target : string) : list string :=
  if contains l target then l else l ++ [target].

(** The first of the first [n] nodes that has the given id and is approved. *)
Fixpoint find_return (target : string) (nodes : list RuntimeNode) (n : nat) : option nat :=
  match n, nodes with
  | S n', node :: rest =>
      if (n_ID (rn_Node node) =s target) && (rn_Status node =s NodeApproved) then Some 0%nat
      else S <$> find_return target rest n'
  | _, _ => None
  end.

Definition reset_node (n : RuntimeNode) : RuntimeNode :=
  mkRuntime (rn_Node n) NodePending ∅ (AddedSignerIDs n) zero_time zero_time.
(** [for i := target; i <= current; i++]. *)
Definition reset_nodes (target current : nat) (nodes : list RuntimeNode) : list RuntimeNode :=
  imap (λ i n, if bool_decide (target ≤ i ∧ i ≤ current)%nat then reset_node n else n) nodes.

(** The state the call leaves, [changed], [terminal] and the error. *)
Definition applied : Type := ApprovalState * (bool * bool * option goerr).
Definition refused (st : ApprovalState) : applied := (st, (false, false, Some ErrOther)).

Definition apply_approve (st : ApprovalState) (node : RuntimeNode) (c : ApprovalCommand) : applied :=
  if ActorUserID c =s st_ApplicantUserID st then refused st
  else
    let node1 := rn_set_approved node ({[ActorUserID c]} ∪ ApprovedBy node) in
    let i := st_CurrentNodeIndex st in
    if approvalNodePassed node1 (RoleNodeOrSign c) then
      let node2 := rn_set_completed (rn_set_status node1 NodeApproved) (OccurredAt c) in
      (st_set_index (st_set_node st i node2) (S i), (true, false, None))
    else (st_set_node st i node1, (true, false, None)).

(** One turn of the loop over the targets of an added signature. *)
Definition add_signer (n : RuntimeNode) (target : string) : RuntimeNode :=
  rn_set_added (rn_set_assignees n (add_missing (n_AssigneeIDs (rn_Node n)) target))
    (add_missing (AddedSignerIDs n) target).

Definition apply_add_sign (st : ApprovalState) (node : RuntimeNode) (c : ApprovalCommand) : applied :=
  let targets := unique (TargetUserIDs c) in
  if bool_decide (targets = []) then refused st
  else if negb (Countersign c =s CountersignAll) && negb (Countersign c =s CountersignAny)
  then refused st
  else
    let node1 := fold_left add_signer targets node in
    let node2 := rn_set_approved node1 ({[ActorUserID c]} ∪ ApprovedBy node1) in
    (st_set_node st (st_CurrentNodeIndex st) (rn_set_countersign node2 (Countersign c)),
     (true, false, None)).

Definition apply_transfer (st : ApprovalState) (node : RuntimeNode) (c : ApprovalCommand) : applied :=
  if negb (empty_str (TargetNodeID c)) && negb (n_ID (rn_Node node) =s TargetNodeID c)
  then refused st
  else
    match unique (TargetUserIDs c) with
    | [target] =>
        let node1 := rn_set_assignees node
          (replace_first (ActorUserID c) target (n_AssigneeIDs (rn_Node node))) in
        let node2 := rn_set_added node1
          (replace_first (ActorUserID c) target (AddedSignerIDs node1)) in
        let node3 := rn_set_approved node2 (ApprovedBy node2 ∖ {[ActorUserID c]}) in
        (st_set_node st (st_CurrentNodeIndex st) node3, (true, false, None))
    | _ => refused st
    end.

Definition apply_return (st : ApprovalState) (c : ApprovalCommand) : applied :=
  match find_return (TargetNodeID c) (st_Nodes st) (st_CurrentNodeIndex st) with
  | None => refused st
  | Some target =>
      (st_set_index (st_set_nodes st (reset_nodes target (st_CurrentNodeIndex st) (st_Nodes st)))
         target, (true, false, None))
  end.

(** An index outside [state.Nodes] panics: [ErrPanic]. *)
Definition applyContractCommand (st : ApprovalState) (c : ApprovalCommand) : applied :=
  if Action c =s ActionWithdraw then
    if negb (ActorUserID c =s st_ApplicantUserID st) then refused st
    else (st_set_failure (st_set_status st StatusWithdrawn) (Comment c), (true, true, None))
  else if (Action c =s ActionUrge) || (Action c =s ActionComment) then (st, (true, false, None))
  else
    match st_Nodes st !! st_CurrentNodeIndex st with
    | None => (st, (false, false, Some ErrPanic))
    | Some node =>
        if negb (contains (n_AssigneeIDs (rn_Node node)) (ActorUserID c)) then refused st
        else if Action c =s ActionApprove then apply_approve st node c
        else if Action c =s ActionReject then
          (st_set_failure (st_set_status
             (st_set_node st (st_CurrentNodeIndex st) (rn_set_status node NodeRejected))
             StatusRejected) (Comment c), (true, true, None))
        else if Action c =s ActionAddSign then apply_add_sign st node c
        else if Action c =s ActionTransfer then apply_transfer st node c
        else if Action c =s ActionReturn then apply_return st c
        else refused st
    end.

(** ** The workflow *)

Definition node_status (st : ApprovalState) (i : nat) : string :=
  match st_Nodes st !! i with Some n => rn_Status n | None => "" end.
Definition node_id (st : ApprovalState) (i : nat) : string :=
  match st_Nodes st !! i with Some n => n_ID (rn_Node n) | None => "" end.

(** [node.Status, node.StartedAt = approval.NodeActive, t]. *)
Definition activate (st : ApprovalState) (i : nat) (t : Z) : ApprovalState :=
  match st_Nodes st !! i with
  | Some n => st_set_node st i (rn_set_started (rn_set_status n NodeActive) t)
  | None => st
  end.

Section ContractApprovalWorkflow.
Variable exec : WorkflowExecution.
Variable input : ContractApprovalInput.

Definition node_timeout (node : RuntimeNode) : Z :=
  let configured := n_Timeout (rn_Node node) in
  let default := if ci_DefaultNodeTimeout input <=? 0 then 72 * Hour else ci_DefaultNodeTimeout input in
  if configured <=? 0 then default else configured.
Definition reminder_interval : Z :=
  if ci_ReminderInterval input <=? 0 then 24 * Hour else ci_ReminderInterval input.

Definition initial_state (t : Z) : ApprovalState :=
  mkState (ci_ApprovalID input) KindContract StatusRunning (ci_ContractID input)
    (ci_ApplicantUserID input) (ci_ApplicantDisplayName input) 0 (initializeNodes (ci_Nodes input))
    t t zero_time "" [].

Definition start_input : StartApprovalActivityInput :=
  mkStart (ci_ApprovalID input) (ci_TenantID input) (ci_ContractID input)
    (ci_ApplicantUserID input) (ci_ApplicantDisplayName input) (ci_ContractVersion input)
    KindContract StatusDraft StatusPending "" (ci_RuleID input) (ci_RuleVersion input)
    (ci_ContentHash input) (we_ID exec) (we_RunID exec) (ci_Nodes input) (ci_Audit input).

Definition complete_input (actor : string) (status reason : string) (target : Status)
    : CompleteApprovalActivityInput :=
  mkComplete (ci_ApprovalID input) (ci_TenantID input) (ci_ContractID input) actor status reason
    (we_ID exec) target (ci_Audit input).

(** All nodes passed. *)
Definition finish_approved (st : ApprovalState) : W ApprovalState :=
  t ← now;
  let st := st_set_updated (st_set_completed (st_set_status st StatusApproved) t) t in
  critical_activity (EComplete (complete_input "" (st_Status st) "all approval nodes passed"
    StatusActive)) st;;
  notifyRecipients (ci_TenantID input) st "approved" "合同审批已通过" "合同已批准并生效" "approved"
    [ci_ApplicantUserID input];;
  p ← patched;
  (if (p : bool) then notifyRoles (ci_TenantID input) st "signing_pending" "合同审批已通过，待办理签署"
     "有一份已生效合同等待登记寄出和回传跟踪" "contract-specialist-signing" ["contract_specialist"]
   else mret tt);;
  mret st.

(** The timer fires after the deadline. *)
Definition finish_expired (st : ApprovalState) (t : Z) : W ApprovalState :=
  let st := st_set_updated (st_set_completed (st_set_failure (st_set_status st StatusExpired)
              "current approval node timed out") t) t in
  critical_activity (EComplete (complete_input "" (st_Status st) (st_FailureReason st) StatusDraft)) st;;
  notifyRecipients (ci_TenantID input) st "rejected" "合同审批已超时" (st_FailureReason st) "expired"
    [ci_ApplicantUserID input];;
  mret st.

(** A command ends the approval. *)
Definition finish_command (st : ApprovalState) (command : ApprovalCommand) : W ApprovalState :=
  t ← now;
  let st := st_set_completed st t in
  critical_activity (EComplete (complete_input (ActorUserID command) (st_Status st)
    (Comment command) StatusDraft)) st;;
  let withdrawn := st_Status st =s StatusWithdrawn in
  notifyRecipients (ci_TenantID input) st (if withdrawn then "status_change" else "rejected")
    (if withdrawn then "合同审批已撤回" else "合同审批已拒绝") (Comment command) (st_Status st)
    [ci_ApplicantUserID input];;
  mret st.

(** A signal is received while node [i] is current: the state after the turn of
    the loop.  Invalid, repeated and refused commands are dropped. *)
Definition handle_command (i : nat) (st : ApprovalState) (command : ApprovalCommand)
    : W ApprovalState :=
  if negb (is_ok (validateCommonCommand command)) then mret st
  else if contains (st_ProcessedCommandIDs st) (CommandID command) then mret st
  else
    let previousNodeIndex := st_CurrentNodeIndex st in
    let '(st, (changed, terminal, err)) := applyContractCommand st command in
    if bool_decide (err ≠ None) then mret st
    else
      t ← now;
      let st := st_set_updated st t in
      let advancedToNextNode :=
        changed && negb terminal &&
        negb (bool_decide (st_CurrentNodeIndex st = previousNodeIndex)) &&
        bool_decide (st_CurrentNodeIndex st < length (st_Nodes st))%nat in
      let st := if advancedToNextNode then activate st (st_CurrentNodeIndex st) (st_UpdatedAt st)
                else st in
      let st := if changed then st_set_processed st (st_ProcessedCommandIDs st ++ [CommandID command])
                else st in
      (if changed then critical_activity (ERecord (mkRecord (ci_ApprovalID input)
         (ci_TenantID input) (ci_ContractID input) (node_id st i) command st)) st
       else mret tt);;
      (if changed && ((Action command =s ActionAddSign) || (Action command =s ActionTransfer))
       then notifyAssignedUsers (ci_TenantID input) st command (TargetUserIDs command)
       else mret tt);;
      (if advancedToNextNode
       then notifyCurrentNode (ci_TenantID input) st "pending_approval" "合同审批待处理"
              "您有一项新的合同审批待办"
       else mret tt);;
      (if Action command =s ActionUrge
       then notifyCurrentNode (ci_TenantID input) st "approval_reminder" "合同审批催办" (Comment command)
       else mret tt);;
      if terminal then finish_command st command else mret st.

(** The loop over timers and signals while node [i] is active. *)
Fixpoint node_loop (fuel : nat) (i : nat) (deadline : Z) (st : ApprovalState) (nextReminder : Z)
    : W ApprovalState :=
  match fuel with
  | O => no_fuel
  | S fuel =>
      if negb (st_Status st =s StatusRunning) || negb (node_status st i =s NodeActive)
      then mret st
      else
        t ← now;
        let wakeAt := if nextReminder <? deadline then nextReminder else deadline in
        answer ← select_command (if wakeAt - t <? 0 then 0 else wakeAt - t);
        match (answer : option ApprovalCommand) with
        | None =>
            t ← now;
            if negb (t <? deadline) then finish_expired st t
            else
              notifyCurrentNode (ci_TenantID input) st "approval_reminder" "合同审批即将超时"
                "请及时处理合同审批待办";;
              node_loop fuel i deadline st (t + reminder_interval)
        | Some command =>
            st ← handle_command i st command;
            node_loop fuel i deadline st nextReminder
        end
  end.

(** The loop over nodes. *)
Fixpoint approval_loop (inner : nat) (fuel : nat) (st : ApprovalState) : W ApprovalState :=
  match fuel with
  | O => no_fuel
  | S fuel =>
      if negb (st_Status st =s StatusRunning) then mret st
      else
        let i := st_CurrentNodeIndex st in
        match st_Nodes st !! i with
        | None => finish_approved st
        | Some node =>
            st ← (if negb (rn_Status node =s NodeActive) then
                    t ← now;
                    let st := st_set_updated (activate st i t) t in
                    notifyCurrentNode (ci_TenantID input) st "pending_approval" "合同审批待处理"
                      "您有一项新的合同审批待办";;
                    mret st
                  else mret st);
            let started := match st_Nodes st !! i with Some n => rn_StartedAt n | None => 0 end in
            let deadline := started + node_timeout node in
            t ← now;
            st ← node_loop inner i deadline st (t + reminder_interval);
            approval_loop inner fuel st
        end
  end.

Definition input_invalid : bool :=
  empty_str (ci_ApprovalID input) || empty_str (ci_ContractID input) ||
  empty_str (ci_ApplicantUserID input) || bool_decide (ci_Nodes input = []).

Definition zero_state : ApprovalState :=
  mkState "" "" "" "" "" "" 0 [] zero_time zero_time zero_time "" [].

(** The whole function; every way out is a return of the workflow. *)
Definition ContractApprovalWorkflow (fuel : nat) : W Empty_set :=
  if input_invalid then ret_wf zero_state (Some ErrOther)
  else
    t ← now;
    let st := initial_state t in
    critical_activity (EStart start_input) st;;
    st ← approval_loop fuel fuel st;
    ret_wf st None.
End ContractApprovalWorkflow.

(** ** Invariants *)

(** A view of the state as the plan sees it: the nodes before the current one
    are approved, those after it are pending, and the plan's identifiers and
    time limits are untouched. *)
Definition nodes_inv (plan : list Node) (st : ApprovalState) : Prop :=
  length (st_Nodes st) = length plan ∧
  (st_CurrentNodeIndex st ≤ length (st_Nodes st))%nat ∧
  ∀ j n, st_Nodes st !! j = Some n →
    ((j < st_CurrentNodeIndex st)%nat → rn_Status n = NodeApproved) ∧
    ((st_CurrentNodeIndex st < j)%nat → rn_Status n = NodePending) ∧
    ∀ d, plan !! j = Some d → n_ID (rn_Node n) = n_ID d ∧ n_Timeout (rn_Node n) = n_Timeout d.

(** A node changed only in what commands may change. *)
Definition same_node (a b : RuntimeNode) : Prop :=
  n_ID (rn_Node a) = n_ID (rn_Node b) ∧ n_Timeout (rn_Node a) = n_Timeout (rn_Node b).

Lemma inv_initial input t : nodes_inv (ci_Nodes input) (initial_state input t).
Proof.
  unfold nodes_inv, initial_state, initializeNodes. cbn [st_Nodes st_CurrentNodeIndex].
  rewrite length_map. split_and!; [done|lia|]. intros j n Hj.
  apply list_lookup_fmap_Some in Hj as (d & -> & Hd). split_and!; [lia|done|].
  intros d' Hd'. rewrite Hd in Hd'. by injection Hd' as <-.
Qed.

(** Replacing the current node and possibly moving on from it. *)
Lemma inv_update plan st node node' index :
  nodes_inv plan st → st_Nodes st !! st_CurrentNodeIndex st = Some node →
  same_node node' node →
  (index = st_CurrentNodeIndex st ∨
     index = S (st_CurrentNodeIndex st) ∧ rn_Status node' = NodeApproved) →
  nodes_inv plan (st_set_index (st_set_node st (st_CurrentNodeIndex st) node') index).
Proof.
  intros (Hlen & Hcur & Hall) Hnode [E1 E2] Hindex.
  pose proof (lookup_lt_Some _ _ _ Hnode) as Hlt.
  unfold nodes_inv. cbn [st_Nodes st_CurrentNodeIndex st_set_index st_set_node st_set_nodes st_update].
  rewrite length_insert. split_and!; [done|lia|]. intros j n Hj.
  destruct (decide (j = st_CurrentNodeIndex st)) as [->|Hne].
  - rewrite list_lookup_insert_eq in Hj by done. injection Hj as <-.
    destruct (Hall _ _ Hnode) as (_ & _ & Hid). rewrite E1, E2.
    split_and!; [|lia|done]. destruct Hindex as [->|[-> ?]]; [lia|done].
  - rewrite list_lookup_insert_ne in Hj by done. destruct (Hall _ _ Hj) as (H1 & H2 & H3).
    split_and!; [intros; apply H1; lia|intros; apply H2; lia|done].
Qed.

Lemma inv_set_index_same plan st node' :
  nodes_inv plan (st_set_index (st_set_node st (st_CurrentNodeIndex st) node')
                    (st_CurrentNodeIndex st)) →
  nodes_inv plan (st_set_node st (st_CurrentNodeIndex st) node').
Proof. done. Qed.

Lemma find_return_spec target nodes n k :
  find_return target nodes n = Some k →
  (k < n)%nat ∧ ∃ node, nodes !! k = Some node ∧ n_ID (rn_Node node) = target ∧
    rn_Status node = NodeApproved.
Proof.
  revert nodes k. induction n as [|n IH]; intros [|node nodes] k; cbn [find_return]; try done.
  destruct (_ && _) eqn:E.
  - intros [= <-]. apply andb_true_iff in E as [E1%streq_true E2%streq_true].
    split; [lia|]. by exists node.
  - intros H. apply fmap_Some in H as (k' & Hk & ->). apply IH in Hk as (? & ?). split; [lia|done].
Qed.

Lemma inv_return plan st target :
  nodes_inv plan st → (target < st_CurrentNodeIndex st)%nat →
  nodes_inv plan (st_set_index (st_set_nodes st
    (reset_nodes target (st_CurrentNodeIndex st) (st_Nodes st))) target).
Proof.
  intros (Hlen & Hcur & Hall) Ht. unfold nodes_inv.
  cbn [st_Nodes st_CurrentNodeIndex st_set_index st_set_nodes st_update]. unfold reset_nodes.
  rewrite length_imap. split_and!; [done|lia|]. intros j n Hj.
  apply list_lookup_imap_Some in Hj as (m & Hm & ->). destruct (Hall _ _ Hm) as (H1 & H2 & H3).
  case_bool_decide as Hr; cbn [rn_Status rn_Node reset_node].
  - split_and!; [intros; lia|done|done].
  - split_and!; [intros; apply H1; lia|intros; apply H2; lia|done].
Qed.

(** What the identity part of a state is. *)
Definition same_case (a b : ApprovalState) : Prop :=
  st_ProcessedCommandIDs a = st_ProcessedCommandIDs b ∧
  st_ApplicantUserID a = st_ApplicantUserID b ∧ st_ApprovalID a = st_ApprovalID b ∧
  st_ContractID a = st_ContractID b.

(** The effect of an accepted command. *)
Inductive progress (st : ApprovalState) (c : ApprovalCommand) (st' : ApprovalState) : Prop :=
  | Stay node' node :
      st_Nodes st !! st_CurrentNodeIndex st = Some node →
      st' = st_set_node st (st_CurrentNodeIndex st) node' → same_node node' node →
      rn_Status node' = rn_Status node → progress st c st'
  | Noted : st' = st → Action c = ActionUrge ∨ Action c = ActionComment → progress st c st'
  | Passed node node' :
      st_Nodes st !! st_CurrentNodeIndex st = Some node →
      st' = st_set_index (st_set_node st (st_CurrentNodeIndex st) node')
              (S (st_CurrentNodeIndex st)) →
      Action c = ActionApprove → ActorUserID c ≠ st_ApplicantUserID st →
      ActorUserID c ∈ n_AssigneeIDs (rn_Node node) →
      approvalNodePassed (rn_set_approved node ({[ActorUserID c]} ∪ ApprovedBy node))
        (RoleNodeOrSign c) = true →
      same_node node' node → rn_Status node' = NodeApproved → progress st c st'
  | Returned_to target node :
      st_Nodes st !! st_CurrentNodeIndex st = Some node →
      Action c = ActionReturn → ActorUserID c ∈ n_AssigneeIDs (rn_Node node) →
      (target < st_CurrentNodeIndex st)%nat →
      st' = st_set_index (st_set_nodes st (reset_nodes target (st_CurrentNodeIndex st)
              (st_Nodes st))) target → progress st c st'.

(** The effect of a command that ends the approval. *)
Inductive ending (st : ApprovalState) (c : ApprovalCommand) (st' : ApprovalState) : Prop :=
  | Withdrawn :
      Action c = ActionWithdraw → ActorUserID c = st_ApplicantUserID st →
      st' = st_set_failure (st_set_status st StatusWithdrawn) (Comment c) → ending st c st'
  | Rejected node :
      st_Nodes st !! st_CurrentNodeIndex st = Some node →
      Action c = ActionReject → ActorUserID c ∈ n_AssigneeIDs (rn_Node node) →
      st' = st_set_failure (st_set_status
              (st_set_node st (st_CurrentNodeIndex st) (rn_set_status node NodeRejected))
              StatusRejected) (Comment c) → ending st c st'.

Lemma add_targets_same targets node :
  let node' := fold_left add_signer targets node in
  same_node node' node ∧ rn_Status node' = rn_Status node.
Proof.
  revert node. induction targets as [|t targets IH]; intros node; [done|]. cbn [fold_left].
  destruct (IH (add_signer node t)) as [[E1 E2] E3].
  cbv zeta. rewrite E3. split; [split; [rewrite E1|rewrite E2]|]; done.
Qed.

Lemma apply_cases st c st' changed terminal err :
  applyContractCommand st c = (st', (changed, terminal, err)) →
  (st' = st ∧ changed = false ∧ terminal = false ∧ (err = Some ErrOther ∨
     err = Some ErrPanic ∧ st_Nodes st !! st_CurrentNodeIndex st = None)) ∨
  (err = None ∧ changed = true ∧ terminal = false ∧ progress st c st') ∨
  (err = None ∧ changed = true ∧ terminal = true ∧ ending st c st').
Proof.
  unfold applyContractCommand, refused. intros H.
  destruct (Action c =s ActionWithdraw) eqn:Ew.
  { apply streq_true in Ew. destruct (_ =s _) eqn:Ea; injection H as <- <- <- <-; [|by auto 6].
    apply streq_true in Ea. right; right. split_and!; auto. by apply Withdrawn. }
  destruct (_ || _) eqn:Eu.
  { injection H as <- <- <- <-. right; left. split_and!; auto. apply Noted; [done|].
    apply orb_true_iff in Eu as [E%streq_true|E%streq_true]; auto. }
  destruct (st_Nodes st !! st_CurrentNodeIndex st) as [node|] eqn:En;
    [|injection H as <- <- <- <-; by auto 8].
  destruct (contains _ _) eqn:Ec; [|injection H as <- <- <- <-; by auto 6].
  apply contains_spec in Ec. cbn [negb] in H.
  destruct (Action c =s ActionApprove) eqn:E1.
  { apply streq_true in E1. unfold apply_approve, refused in H.
    destruct (ActorUserID c =s _) eqn:Ea; [injection H as <- <- <- <-; by auto 6|].
    apply streq_false in Ea. destruct (approvalNodePassed _ _) eqn:Ep; injection H as <- <- <- <-.
    - right; left. split_and!; auto. eapply Passed; [done|reflexivity|done..].
    - right; left. split_and!; auto. eapply Stay; [done|reflexivity|done..]. }
  destruct (Action c =s ActionReject) eqn:E2.
  { apply streq_true in E2. injection H as <- <- <- <-. right; right. split_and!; auto.
    by eapply Rejected. }
  destruct (Action c =s ActionAddSign) eqn:E3.
  { unfold apply_add_sign, refused in H. destruct (bool_decide _); [injection H as <- <- <- <-; by auto 6|].
    destruct (negb _ && negb _); injection H as <- <- <- <-; [by auto 6|].
    pose proof (add_targets_same (unique (TargetUserIDs c)) node) as [[S1 S2] S3].
    right; left. split_and!; auto. eapply Stay; [done|reflexivity|split; cbn; auto|done]. }
  destruct (Action c =s ActionTransfer) eqn:E4.
  { unfold apply_transfer, refused in H. destruct (negb _ && negb _); [injection H as <- <- <- <-; by auto 6|].
    destruct (unique (TargetUserIDs c)) as [|t [|]]; injection H as <- <- <- <-; try by auto 6.
    right; left. split_and!; auto. eapply Stay; [done|reflexivity|done|done]. }
  destruct (Action c =s ActionReturn) eqn:E5; [|injection H as <- <- <- <-; by auto 6].
  apply streq_true in E5. unfold apply_return, refused in H.
  destruct (find_return _ _ _) as [k|] eqn:Ef; injection H as <- <- <- <-; [|by auto 6].
  apply find_return_spec in Ef as [Hk _]. right; left. split_and!; auto. by eapply Returned_to.
Qed.

Lemma progress_inv plan st c st' :
  nodes_inv plan st → progress st c st' →
  nodes_inv plan st' ∧ same_case st' st ∧ st_Status st' = st_Status st.
Proof.
  intros Hinv [node' node Hn -> Hs _| -> _|node node' Hn -> _ _ _ _ Hs Ha|k node Hn _ _ Hk ->];
    (split; [|done]).
  - apply inv_set_index_same. by eapply inv_update; eauto.
  - done.
  - eapply inv_update; eauto.
  - by apply inv_return.
Qed.

(** ** The shape of a run *)

Section Runs.
Variable exec : WorkflowExecution.
Variable input : ContractApprovalInput.

Definition recorded_ids (rs : list RecordCommandActivityInput) : list string :=
  map (λ r, CommandID (rc_Command r)) rs.

(** A recorded approval, not by the applicant, moved on to node [S j]. *)
Definition approves (j : nat) (r : RecordCommandActivityInput) : Prop :=
  Action (rc_Command r) = ActionApprove ∧
  ActorUserID (rc_Command r) ≠ ci_ApplicantUserID input ∧
  st_CurrentNodeIndex (rc_State r) = S j.

(** The approval was started, the commands [ids] were recorded, each once, and
    every node before [current] has its recorded approval. *)
Definition recorded (ids : list string) (current : nat) (s : list Effect) : Prop :=
  NoDup ids ∧ ∃ rs, recorded_ids rs = ids ∧
    s = EStart (start_input exec input) :: map ERecord rs ∧
    ∀ j, (j < current)%nat → ∃ r, r ∈ rs ∧ approves j r.

(** The plan's invariant, for the case's applicant. *)
Definition case_inv (st : ApprovalState) : Prop :=
  nodes_inv (ci_Nodes input) st ∧ st_ApplicantUserID st = ci_ApplicantUserID input.

(** The completion agrees with the final state. *)
Definition agrees (st : ApprovalState) (c : CompleteApprovalActivityInput) : Prop :=
  ca_ApprovalID c = ci_ApprovalID input ∧ ca_ContractID c = ci_ContractID input ∧
  ca_Status c = st_Status st ∧
  (st_Status st = StatusApproved ∧ ca_TargetStatus c = StatusActive ∧
     st_CurrentNodeIndex st = length (ci_Nodes input) ∧
     length (st_Nodes st) = length (ci_Nodes input) ∧
     Forall (λ n, rn_Status n = NodeApproved) (st_Nodes st) ∨
   st_Status st ∈ [StatusRejected; StatusWithdrawn; StatusExpired] ∧
     ca_TargetStatus c = StatusDraft).

(** ... and then completed, once. *)
Definition completed (st : ApprovalState) (s : list Effect) : Prop :=
  ∃ c before, agrees st c ∧ recorded (st_ProcessedCommandIDs st) (st_CurrentNodeIndex st) before ∧
    s = before ++ [EComplete c].

Definition legal (s : list Effect) : Prop :=
  s = [] ∨ (∃ ids current, recorded ids current s) ∨ (∃ st, completed st s).

Abbreviation I := (λ w, legal (successes (w_trace w))).
Abbreviation R := (outcome completed legal).

Lemma recorded_legal ids current s : recorded ids current s → legal s.
Proof. intros H. right; left. by exists ids, current. Qed.
Lemma completed_legal st s : completed st s → legal s.
Proof. intros H. right; right. by exists st. Qed.
#[local] Hint Resolve recorded_legal completed_legal : core.

Lemma recorded_snoc ids current s r id current' :
  recorded ids current s → id ∉ ids → CommandID (rc_Command r) = id →
  (current' ≤ current)%nat ∨ current' = S current ∧ approves current r →
  recorded (ids ++ [id]) current' (s ++ [ERecord r]).
Proof.
  intros (Hnd & rs & Hids & -> & Happ) Hnew <- Hcur. split.
  - apply NoDup_app. split_and!; [done|set_solver|apply NoDup_singleton].
  - exists (rs ++ [r]). unfold recorded_ids in *. rewrite !map_app, Hids. split_and!; auto.
    intros j Hj. destruct (decide (j < current)%nat) as [Hlt|Hge].
    + destruct (Happ j Hlt) as (r' & Hr' & ?). exists r'. set_solver.
    + exists r. destruct Hcur as [|[-> Ha]]; [lia|]. replace j with current by lia. set_solver.
Qed.

(** The state in the loop of node [i]: still there, moved away from it, or
    done. *)
Definition at_node (i : nat) (st : ApprovalState) : Prop :=
  st_Status st = StatusRunning ∧ case_inv st ∧
  (st_CurrentNodeIndex st = i ∨ node_status st i ≠ NodeActive).
Definition loop_state (i : nat) (n : nat) (st : ApprovalState) (w : World) : Prop :=
  at_node i st ∧ did (recorded (st_ProcessedCommandIDs st) (st_CurrentNodeIndex st)) n w ∨
  st_Status st ≠ StatusRunning ∧ did (completed st) n w.

Lemma finish_command_triple st command n :
  st_Status st ∈ [StatusRejected; StatusWithdrawn; StatusExpired] →
  triple I (did (recorded (st_ProcessedCommandIDs st) (st_CurrentNodeIndex st)) n) (finish_command exec input st command)
    (λ st' w, st_Status st' ≠ StatusRunning ∧ did (completed st') n w) R.
Proof.
  intros Hst. unfold finish_command. eapply triple_bind; [apply triple_now|]. intros t.
  set (st' := st_set_completed st t).
  eapply triple_bind; [apply (triple_critical legal completed _ _ _ (completed st')); eauto|].
  - intros s Hs. eexists _, s. split_and!; [|exact Hs|reflexivity].
    unfold agrees. cbn. split_and!; auto.
  - intros []. eapply triple_bind; [apply triple_notify; eauto|]. intros [].
    apply triple_ret. intros w Hw. split; [|done].
    unfold st'. cbn. intros E. rewrite E in Hst. set_unfold. naive_solver.
Qed.

Lemma finish_expired_triple st t n :
  triple I (did (recorded (st_ProcessedCommandIDs st) (st_CurrentNodeIndex st)) n) (finish_expired exec input st t)
    (λ st' w, st_Status st' ≠ StatusRunning ∧ did (completed st') n w) R.
Proof.
  unfold finish_expired. set (st' := st_set_updated _ t).
  eapply triple_bind; [apply (triple_critical legal completed _ _ _ (completed st')); eauto|].
  - intros s Hs. eexists _, s. split_and!; [|exact Hs|reflexivity].
    unfold agrees. cbn. split_and!; auto. right. split; [set_solver|done].
  - intros []. eapply triple_bind; [apply triple_notify; eauto|]. intros [].
    by apply triple_ret.
Qed.

Lemma finish_approved_triple st n :
  case_inv st → st_Nodes st !! st_CurrentNodeIndex st = None →
  triple I (did (recorded (st_ProcessedCommandIDs st) (st_CurrentNodeIndex st)) n) (finish_approved exec input st)
    (λ st' w, st_Status st' ≠ StatusRunning ∧ did (completed st') n w) R.
Proof.
  intros ((Hlen & Hcur & Hall) & _) Hend%lookup_ge_None. unfold finish_approved.
  eapply triple_bind; [apply triple_now|]. intros t.
  set (st' := st_set_updated _ t).
  eapply triple_bind; [apply (triple_critical legal completed _ _ _ (completed st')); eauto|].
  - intros s Hs. eexists _, s. split_and!; [|exact Hs|reflexivity].
    unfold agrees. cbn. split_and!; auto. left. split_and!; auto; [lia|].
    apply Forall_lookup. intros j m Hm. apply (Hall j m Hm).
    apply lookup_lt_Some in Hm. lia.
  - intros []. eapply triple_bind; [apply triple_notify; eauto|]. intros [].
    eapply triple_bind; [apply triple_patched|]. intros p. cbv beta.
    eapply triple_bind; [apply triple_when, triple_notify; eauto|]. intros [].
    by apply triple_ret.
Qed.

Lemma activate_inv plan st t :
  nodes_inv plan st → nodes_inv plan (activate st (st_CurrentNodeIndex st) t).
Proof.
  intros Hinv. unfold activate. destruct (_ !! _) as [node|] eqn:E; [|done].
  apply inv_set_index_same. eapply inv_update; [done|exact E|done|by left].
Qed.

Lemma activate_other st i t : i ≠ st_CurrentNodeIndex st →
  node_status (activate st (st_CurrentNodeIndex st) t) i = node_status st i.
Proof.
  intros Hne. unfold activate, node_status.
  destruct (st_Nodes st !! st_CurrentNodeIndex st) as [node|] eqn:E; [|done].
  cbn. by rewrite list_lookup_insert_ne.
Qed.

Lemma activate_case st t : case_inv st → case_inv (activate st (st_CurrentNodeIndex st) t).
Proof.
  intros [Hinv Happ]. split; [by apply activate_inv|]. unfold activate. by destruct (_ !! _).
Qed.

Lemma progress_case st c st' :
  case_inv st → progress st c st' →
  case_inv st' ∧ same_case st' st ∧ st_Status st' = st_Status st.
Proof.
  intros [Hinv Happ] Hp. destruct (progress_inv _ _ _ _ Hinv Hp) as (? & Hsame & ?).
  split_and!; auto. split; [done|]. destruct Hsame as (_ & E & _). congruence.
Qed.

(** The approval moves forward only by an approval that is not the
    applicant's. *)
Lemma progress_index st c st' :
  case_inv st → progress st c st' →
  (st_CurrentNodeIndex st' ≤ st_CurrentNodeIndex st)%nat ∨
  st_CurrentNodeIndex st' = S (st_CurrentNodeIndex st) ∧ Action c = ActionApprove ∧
    ActorUserID c ≠ ci_ApplicantUserID input.
Proof.
  intros [_ <-] [node' node Hn -> _ _| -> _|node node' Hn -> ? ? _ _ _ Ha|k node Hn _ _ Hk ->];
    [left; cbn; lia|left; lia|by right|left; cbn; lia].
Qed.

(** A command that moves the approval leaves its node inactive. *)
Lemma progress_at st c st' :
  st_Status st = StatusRunning → case_inv st → progress st c st' →
  st_Status st' = StatusRunning ∧ case_inv st' ∧
  (st_CurrentNodeIndex st' = st_CurrentNodeIndex st ∨
     st_CurrentNodeIndex st' ≠ st_CurrentNodeIndex st ∧
     node_status st' (st_CurrentNodeIndex st) ≠ NodeActive).
Proof.
  intros Hrun Hinv Hp. destruct (progress_case _ _ _ Hinv Hp) as (Hinv' & _ & Es).
  split_and!; [congruence|done|].
  destruct Hp as [node' node Hn -> _ _| -> _|node node' Hn -> _ _ _ _ _ Ha|k node Hn _ _ Hk ->];
    [by left|by left|right|right].
  - split; [cbn; lia|]. unfold node_status. cbn.
    rewrite list_lookup_insert_eq by (by eapply lookup_lt_Some). by rewrite Ha.
  - split; [cbn; lia|]. unfold node_status. cbn. unfold reset_nodes.
    rewrite list_lookup_imap, Hn. cbn. by rewrite bool_decide_true by lia.
Qed.

(** What the loop does with the state of an accepted command. *)
Lemma progress_activated st c st1 t :
  st_Status st = StatusRunning → case_inv st → progress st c st1 →
  let st2 := st_set_updated st1 t in
  let advanced := negb (bool_decide (st_CurrentNodeIndex st2 = st_CurrentNodeIndex st)) &&
    bool_decide (st_CurrentNodeIndex st2 < length (st_Nodes st2))%nat in
  let st3 := if advanced then activate st2 (st_CurrentNodeIndex st2) (st_UpdatedAt st2) else st2 in
  st_ProcessedCommandIDs st3 = st_ProcessedCommandIDs st ∧
  st_CurrentNodeIndex st3 = st_CurrentNodeIndex st1 ∧
  at_node (st_CurrentNodeIndex st) (st_set_processed st3 (st_ProcessedCommandIDs st3 ++ [CommandID c])).
Proof.
  intros Hrun Hinv Hp. destruct (progress_case _ _ _ Hinv Hp) as (_ & (Epr & _) & _).
  destruct (progress_at _ _ _ Hrun Hinv Hp) as (Hrun1 & Hinv1 & Hat).
  intros st2 advanced st3.
  assert (case_inv st2) as Hinv2 by done.
  assert (st_ProcessedCommandIDs st3 = st_ProcessedCommandIDs st ∧ st_Status st3 = StatusRunning ∧
    case_inv st3 ∧ st_CurrentNodeIndex st3 = st_CurrentNodeIndex st1 ∧
    (st_CurrentNodeIndex st1 ≠ st_CurrentNodeIndex st →
       node_status st3 (st_CurrentNodeIndex st) = node_status st1 (st_CurrentNodeIndex st)))
    as (E1 & E2 & E3 & E4 & E5).
  { unfold st3. destruct advanced; [|done]. split_and!; try (by apply activate_case);
      [| | |intros Hne; by rewrite activate_other by (cbn; congruence)];
      unfold activate; destruct (_ !! _); done. }
  split; [done|]. split; [done|]. unfold at_node. split_and!; [done|done|]. cbn [st_CurrentNodeIndex st_set_processed st_update].
  destruct Hat as [Hsame|[Hne Hina]]; [left; congruence|right].
  change (node_status st3 (st_CurrentNodeIndex st) ≠ NodeActive). by rewrite E5.
Qed.

Lemma handle_command_triple i st command n :
  st_Status st = StatusRunning → case_inv st → st_CurrentNodeIndex st = i →
  triple I (did (recorded (st_ProcessedCommandIDs st) (st_CurrentNodeIndex st)) n) (handle_command exec input i st command)
    (loop_state i n) R.
Proof.
  intros Hrun Hinv Hi.
  assert (triple I (did (recorded (st_ProcessedCommandIDs st) (st_CurrentNodeIndex st)) n) (mret st) (loop_state i n) R) as Hskip.
  { apply triple_ret. intros w Hw. left. split; [|done]. split_and!; auto. }
  unfold handle_command. destruct (is_ok _); cbn [negb]; [|exact Hskip].
  destruct (contains _ _) eqn:Enew; [exact Hskip|]. apply contains_false in Enew.
  destruct (applyContractCommand st command) as [st1 [[changed terminal] err]] eqn:Eapp.
  apply apply_cases in Eapp as [(-> & -> & -> & Herr)|[(-> & -> & -> & Hp)|(-> & -> & -> & He)]].
  { rewrite bool_decide_true by naive_solver. exact Hskip. }
  - (* the approval goes on *)
    rewrite bool_decide_false by naive_solver.
    eapply triple_bind; [apply triple_now|]. intros t. cbv beta.
    pose proof (progress_activated st command st1 t Hrun Hinv Hp) as (Epr & Ecur & Hat).
    cbn [andb negb]. set (st2 := st_set_updated st1 t) in *.
    set (advanced := negb _ && _) in *. set (st3 := if advanced then _ else _) in *.
    set (st4 := st_set_processed st3 _) in *.
    eapply triple_bind; [apply (triple_critical legal completed _ _ _
      (recorded (st_ProcessedCommandIDs st4) (st_CurrentNodeIndex st4))); eauto|].
    { intros s Hs. unfold st4. cbn. rewrite Epr. apply (recorded_snoc _ (st_CurrentNodeIndex st)); auto.
      rewrite Ecur. destruct (progress_index _ _ _ Hinv Hp) as [?|(E & ? & ?)]; [by left|right].
      split; [done|]. split_and!; auto. cbn. by rewrite Ecur. }
    intros []. eapply triple_bind; [apply triple_when, triple_notifyAssignedUsers; eauto|].
    intros []. eapply triple_bind; [apply triple_when, triple_notifyCurrentNode; eauto|].
    intros []. eapply triple_bind; [apply triple_when, triple_notifyCurrentNode; eauto|].
    intros []. apply triple_ret. intros w Hw. left. split; [|done]. by rewrite <- Hi.
  - (* the command ends it *)
    rewrite bool_decide_false by naive_solver.
    eapply triple_bind; [apply triple_now|]. intros t. cbv beta. cbn [andb negb].
    set (st4 := st_set_processed (st_set_updated st1 t) _).
    assert (st_ProcessedCommandIDs st4 = st_ProcessedCommandIDs st ++ [CommandID command] ∧
      st_CurrentNodeIndex st4 = st_CurrentNodeIndex st ∧
      st_Status st4 ∈ [StatusRejected; StatusWithdrawn; StatusExpired]) as (Epr & Ecur & Est).
    { destruct He as [_ _ ->|node _ _ _ ->]; split_and!; try done; set_solver. }
    eapply triple_bind; [apply (triple_critical legal completed _ _ _
      (recorded (st_ProcessedCommandIDs st4) (st_CurrentNodeIndex st4))); eauto|].
    { intros s Hs. rewrite Epr, Ecur. eapply recorded_snoc; eauto. }
    intros []. eapply triple_bind; [apply triple_when, triple_notifyAssignedUsers; eauto|].
    intros []. eapply triple_bind;
      [apply (triple_ret _ _ tt (λ _, did (recorded (st_ProcessedCommandIDs st4) (st_CurrentNodeIndex st4)) n)); auto|].
    intros []. eapply triple_bind; [apply triple_when, triple_notifyCurrentNode; eauto|].
    intros []. eapply triple_weaken; [by apply finish_command_triple|done| |done].
    intros st' w Hw. by right.
Qed.

Lemma on_weaken T m n w : (m ≤ n)%nat → on T m w → on T n w.
Proof. intros Hmn [HT Hm]. split; [done|lia]. Qed.

Lemma loop_state_weaken i m n st w : (m ≤ n)%nat → loop_state i m st w → loop_state i n st w.
Proof. intros Hmn [[H1 H2]|[H1 H2]]; [left|right]; eauto using on_weaken. Qed.

(** With fuel for the answers left, the loop of a node ends with the node
    passed, left or the approval done, and it has used an answer. *)
Lemma node_loop_triple fuel i deadline st reminder n :
  (n < fuel)%nat → at_node i st →
  triple I (did (recorded (st_ProcessedCommandIDs st) (st_CurrentNodeIndex st)) n)
    (node_loop exec input fuel i deadline st reminder)
    (λ st' w, loop_state i n st' w ∧ (st_Status st' = StatusRunning → node_status st' i ≠ NodeActive) ∧
       (node_status st i = NodeActive → (length (w_selects w) < n)%nat)) R.
Proof.
  revert st reminder n. induction fuel as [|fuel IH]; intros st reminder n Hn Hat; [lia|].
  cbn [node_loop]. pose proof Hat as (Hrun & Hinv & Hcur).
  destruct (negb _ || negb _) eqn:Estop.
  { apply triple_ret. intros w Hw. apply orb_true_iff in Estop.
    destruct Estop as [E|E]; apply negb_true_iff, streq_false in E; [done|].
    split_and!; [by left|done|by intros]. }
  bool_hyps. repeat match goal with E : (_ =s _) = true |- _ => apply streq_true in E end.
  destruct Hcur as [Hcur|?]; [|done].
  eapply triple_bind; [apply triple_now|]. intros t. cbv beta.
  eapply triple_bind; [apply (triple_select _ _ _ _ (λ _ w,
    ∃ m, n = S m ∧ did (recorded (st_ProcessedCommandIDs st) (st_CurrentNodeIndex st)) m w))|].
  { apply did_legal; eauto. }
  { intros m answer -> w t' Hw _. eauto. }
  intros [command|].
  - intros w (m & -> & Hw). revert w Hw.
    change (triple I (did (recorded (st_ProcessedCommandIDs st) (st_CurrentNodeIndex st)) m)
      (st' ← handle_command exec input i st command; node_loop exec input fuel i deadline st' reminder)
      (λ st' w, loop_state i (S m) st' w ∧ (st_Status st' = StatusRunning → node_status st' i ≠ NodeActive) ∧
         (node_status st i = NodeActive → (length (w_selects w) < S m)%nat)) R).
    eapply triple_bind; [by apply handle_command_triple|]. intros st1 w [[Hat1 Hw]|[Hdone Hw]].
    + revert w Hw. eapply triple_weaken; [apply (IH st1 reminder m ltac:(lia) Hat1)|done| |done].
      intros st' w (H1 & H2 & _). split_and!; [by eapply loop_state_weaken; [|exact H1]; lia|done|].
      intros _. destruct H1 as [[_ [_ ?]]|[_ [_ ?]]]; lia.
    + destruct fuel as [|fuel]; [lia|]. cbn [node_loop].
      replace (st_Status st1 =s StatusRunning) with false by (symmetry; by apply streq_false).
      cbn. split_and!; [right; split; [done|]|done|].
      * by eapply on_weaken; [|exact Hw]; lia.
      * intros _. destruct Hw. lia.
  - intros w (m & -> & Hw). revert w Hw.
    match goal with |- ∀ w, _ → match ?f w with _ => _ end =>
      change (triple I (did (recorded (st_ProcessedCommandIDs st) (st_CurrentNodeIndex st)) m) f
        (λ st' w, loop_state i (S m) st' w ∧
           (st_Status st' = StatusRunning → node_status st' i ≠ NodeActive) ∧
           (node_status st i = NodeActive → (length (w_selects w) < S m)%nat)) R) end.
    eapply triple_bind; [apply triple_now|]. intros t'. cbv beta.
    destruct (negb (t' <? deadline)).
    + eapply triple_weaken; [apply finish_expired_triple|done| |done].
      intros st' w [Hd Hw]. split_and!; [right; split; [done|]|done|].
      * by eapply on_weaken; [|exact Hw]; lia.
      * intros _. destruct Hw. lia.
    + eapply triple_bind; [apply triple_notifyCurrentNode; eauto|]. intros [].
      eapply triple_weaken; [apply (IH st _ m ltac:(lia) Hat)|done| |done].
      intros st' w (H1 & H2 & _). split_and!; [by eapply loop_state_weaken; [|exact H1]; lia|done|].
      intros _. destruct H1 as [[_ [_ ?]]|[_ [_ ?]]]; lia.
Qed.

Lemma approval_loop_triple inner fuel st n :
  (n < inner)%nat → (n < fuel)%nat → st_Status st = StatusRunning → case_inv st →
  triple I (did (recorded (st_ProcessedCommandIDs st) (st_CurrentNodeIndex st)) n) (approval_loop exec input inner fuel st)
    (λ st' w, did (completed st') n w) R.
Proof.
  intros Hinner. revert st n Hinner.
  induction fuel as [|fuel IH]; intros st n Hinner Hn Hrun Hinv; [lia|]. cbn [approval_loop].
  replace (st_Status st =s StatusRunning) with true by (symmetry; by apply streq_true). cbn [negb].
  destruct (st_Nodes st !! st_CurrentNodeIndex st) as [node|] eqn:Enode; cycle 1.
  { eapply triple_weaken; [by apply finish_approved_triple|done| |done]. by intros st' w [_ ?]. }
  set (i := st_CurrentNodeIndex st).
  assert (∀ st1, st_ProcessedCommandIDs st1 = st_ProcessedCommandIDs st →
    st_CurrentNodeIndex st1 = st_CurrentNodeIndex st → at_node i st1 →
    node_status st1 i = NodeActive → ∀ deadline,
    triple I (did (recorded (st_ProcessedCommandIDs st) (st_CurrentNodeIndex st)) n)
      (t ← now;
       st' ← node_loop exec input inner i deadline st1 (t + reminder_interval input);
       approval_loop exec input inner fuel st') (λ st' w, did (completed st') n w) R) as Hserve.
  { intros st1 E1 E2 Hat Hact deadline. eapply triple_bind; [apply triple_now|]. intros t. cbv beta.
    rewrite <- E1, <- E2. eapply triple_bind; [by apply node_loop_triple|].
    intros st2 w (Hloop & Hout & Hused). specialize (Hused Hact).
    destruct Hloop as [[(Hrun2 & Hinv2 & _) Hw]|[Hdone Hw]].
    - destruct Hw as [Hw _].
      assert (did (recorded (st_ProcessedCommandIDs st2) (st_CurrentNodeIndex st2)) (length (w_selects w)) w) as Hw' by done.
      revert w Hused Hw Hw'. intros w Hused _ Hw.
      pose proof (IH st2 (length (w_selects w)) ltac:(lia) ltac:(lia) Hrun2 Hinv2 w Hw) as Hend.
      destruct (approval_loop _ _ _ _ _ w) as [[st3|r| |] w']; auto.
      eapply on_weaken; [|exact Hend]. lia.
    - destruct fuel as [|fuel]; [lia|]. cbn [approval_loop].
      replace (st_Status st2 =s StatusRunning) with false by (symmetry; by apply streq_false).
      cbn. done. }
  destruct (rn_Status node =s NodeActive) eqn:Eact; cbn [negb].
  - apply streq_true in Eact. eapply triple_bind; [apply (triple_ret _ _ st (λ st' w,
      st' = st ∧ did (recorded (st_ProcessedCommandIDs st) (st_CurrentNodeIndex st)) n w)); auto|].
    intros st1 w [-> Hw]. revert w Hw. apply Hserve; [done|done| |].
    + split_and!; auto.
    + unfold node_status, i. by rewrite Enode.
  - eapply triple_bind.
    { eapply triple_bind; [apply triple_now|]. intros t. cbv beta.
      eapply triple_bind; [apply triple_notifyCurrentNode; eauto|]. intros [].
      apply (triple_ret _ _ _ (λ st' w, (∃ t, st' = st_set_updated (activate st i t) t) ∧
        did (recorded (st_ProcessedCommandIDs st) (st_CurrentNodeIndex st)) n w)). eauto. }
    intros st1 w [[t ->] Hw]. revert w Hw. apply Hserve.
    + unfold activate. by destruct (_ !! _).
    + unfold activate. by destruct (_ !! _).
    + split_and!; [|by apply activate_case|left]; unfold activate; by destruct (_ !! _).
    + unfold node_status, activate. unfold i. rewrite Enode. cbn.
      by rewrite list_lookup_insert_eq by (by eapply lookup_lt_Some).
Qed.

Lemma workflow_triple fuel n :
  (n < fuel)%nat →
  triple I (λ w, w_trace w = [] ∧ (length (w_selects w) ≤ n)%nat)
    (ContractApprovalWorkflow exec input fuel) (λ _ _, False)
    (λ r w, if input_invalid input then r = (zero_state, Some ErrOther) ∧ w_trace w = [] else R r w).
Proof.
  intros Hn. unfold ContractApprovalWorkflow. destruct (input_invalid input).
  { apply triple_ret_wf. by intros w [? _]. }
  eapply triple_bind; [apply triple_now|]. intros t. cbv beta.
  eapply (triple_bind _ _ _ _ _ (λ _, did (recorded [] 0) n)).
  { eapply triple_weaken; [apply (triple_critical legal completed _ _ (λ s, s = []) (recorded [] 0) n)
      |intros w [E ?]; unfold on; by rewrite E|done|done];
      [done|by intros s ->; left|].
    intros s ->. split; [constructor|]. exists []. split_and!; [done|done|intros; lia]. }
  intros []. eapply triple_bind;
    [apply (approval_loop_triple fuel fuel (initial_state input t) n);
      [done|done|done|split; [apply inv_initial|done]]|].
  intros st. apply triple_ret_wf. by intros w [Hw _].
Qed.
End Runs.

(** ** Properties *)

(** C7: for every history, the approval workflow stops or waits, never runs
    out of its fuel, and what it did is lawful.  If it returns without an error,
    it started the approval once, recorded every accepted command once, and
    completed the approval exactly once, last; the completion carries the final
    status, and the contract becomes active exactly when the status is approved,
    in which case every node of the plan is approved and has a recorded approval
    by a user who is not the applicant; otherwise the contract goes back to
    draft.  If it returns an error, its input was invalid and it did nothing, or
    a critical activity failed. *)
Theorem contract_workflow_sound exec input fuel w :
  w_trace w = [] → (length (w_selects w) < fuel)%nat →
  match ContractApprovalWorkflow exec input fuel w with
  | (Val v, _) => match v with end
  | (OutOfFuel, _) => False
  | (Waiting, w') => legal exec input (successes (w_trace w'))
  | (Ret (st, None), w') =>
      ∃ c rs, agrees input st c ∧
        successes (w_trace w') = EStart (start_input exec input) :: map ERecord rs ++ [EComplete c] ∧
        recorded_ids rs = st_ProcessedCommandIDs st ∧ NoDup (recorded_ids rs) ∧
        (st_Status st = StatusApproved → ∀ j, (j < length (ci_Nodes input))%nat →
           ∃ r, r ∈ rs ∧ approves input j r)
  | (Ret (st, Some e), w') =>
      input_invalid input = true ∧ w_trace w' = [] ∨
      legal exec input (successes (w_trace w')) ∧ critical_failure (w_trace w')
  end.
Proof.
  intros Ht Hfuel.
  pose proof (workflow_triple exec input fuel _ Hfuel w (conj Ht (le_n _))) as H.
  destruct (ContractApprovalWorkflow exec input fuel w) as [[v|[st err]| |] w']; auto.
  { destruct H. }
  destruct (input_invalid input).
  { destruct H as [E Et]. injection E as -> ->. by left. }
  destruct err as [e|]; [by right|]. unfold outcome in H. cbn [fst snd] in H.
  destruct H as (c & before & Hagree & (Hnd & rs & Hids & -> & Happ) & ->).
  exists c, rs. split_and!; auto; [by rewrite Hids|].
  intros Hst j Hj. apply Happ. destruct Hagree as (_ & _ & _ & Hcases).
  destruct Hcases as [(_ & _ & Hcur & _)|[Hin _]].
  - lia.
  - rewrite Hst in Hin. set_unfold. naive_solver.
Qed.

(** Commands are refused without any effect, or have exactly the effect of
    their kind: only an approval moves to the next node, and it must come from an
    assignee of the current node who is not the applicant, when the node's
    countersigning rule is met; only a withdrawal by the applicant or a rejection
    by an assignee ends the approval; a return goes back to an earlier approved
    node; and the order of the plan is preserved by every command. *)
Theorem command_effects plan st c st' changed terminal err :
  nodes_inv plan st → (st_CurrentNodeIndex st < length (st_Nodes st))%nat →
  applyContractCommand st c = (st', (changed, terminal, err)) →
  match err with
  | Some _ => st' = st ∧ changed = false ∧ terminal = false
  | None =>
      changed = true ∧ (terminal = false → nodes_inv plan st' ∧ progress st c st') ∧
      (terminal = true → ending st c st')
  end ∧ err ≠ Some ErrPanic.
Proof.
  intros Hinv Hlt H. apply lookup_lt_is_Some in Hlt as [node Hnode].
  apply apply_cases in H as [(-> & -> & -> & [->|[-> E]])|[(-> & -> & -> & Hp)|(-> & -> & -> & He)]];
    try congruence; split_and!; try done.
  intros _. split; [|done]. by destruct (progress_inv _ _ _ _ Hinv Hp).
Qed.

(** A node that can never pass again by approvals: it has added signers, and
    all its assignees are among them. *)
Definition stuck (node : RuntimeNode) : Prop :=
  AddedSignerIDs node ≠ [] ∧
  ∀ id, id ∈ n_AssigneeIDs (rn_Node node) → id ∈ AddedSignerIDs node.

Lemma stuck_never_passes node role : stuck node → approvalNodePassed node role = false.
Proof.
  intros [Hne Hall]. unfold approvalNodePassed. rewrite bool_decide_false by done.
  assert (existsb (λ id, negb (contains (AddedSignerIDs node) id) &&
    bool_decide (id ∈ ApprovedBy node)) (n_AssigneeIDs (rn_Node node)) = false) as ->; [|done].
  apply not_true_iff_false. rewrite existsb_exists. intros (id & Hin & H).
  apply andb_true_iff in H as [H%negb_true_iff%contains_false _].
  by apply H, Hall, list_elem_of_In.
Qed.

Lemma add_missing_elem l t x : x ∈ add_missing l t ↔ x ∈ l ∨ x = t.
Proof.
  unfold add_missing. destruct (contains l t) eqn:E; [|set_solver].
  apply contains_spec in E. set_solver.
Qed.

Lemma add_targets_elem targets node :
  let node' := fold_left add_signer targets node in
  (∀ x, x ∈ n_AssigneeIDs (rn_Node node') ↔ x ∈ n_AssigneeIDs (rn_Node node) ∨ x ∈ targets) ∧
  (∀ x, x ∈ AddedSignerIDs node' ↔ x ∈ AddedSignerIDs node ∨ x ∈ targets).
Proof.
  revert node. induction targets as [|t targets IH]; intros node; cbn [fold_left]; [set_solver|].
  destruct (IH (add_signer node t)) as [H1 H2].
  cbv zeta. split; intros x; [rewrite H1|rewrite H2]; cbn; rewrite add_missing_elem; set_solver.
Qed.

Lemma approve_stuck st a node :
  Action a = ActionApprove → st_Nodes st !! st_CurrentNodeIndex st = Some node → stuck node →
  let st' := fst (applyContractCommand st a) in
  ∃ node', st_Nodes st' !! st_CurrentNodeIndex st = Some node' ∧ stuck node' ∧
    st_CurrentNodeIndex st' = st_CurrentNodeIndex st.
Proof.
  intros Ha Hn Hs. unfold applyContractCommand. rewrite Ha, Hn. eval_streq. cbn [orb].
  destruct (contains _ _); cbn; [|by exists node]. unfold apply_approve, refused.
  destruct (_ =s _); cbn; [by exists node|].
  rewrite stuck_never_passes by done. cbn.
  rewrite list_lookup_insert_eq by (by eapply lookup_lt_Some). by eexists.
Qed.

(** Adding the current assignees themselves as signers blocks the node for
    good: every assignee then counts as an added signer, no original assignee is
    left, and no later approval, by anyone and in any number, passes the node.
    (The code means added signers to sign in addition to the original
    approvers.) *)
Theorem add_sign_of_assignees_blocks st node c st' approvals :
  st_Nodes st !! st_CurrentNodeIndex st = Some node →
  Action c = ActionAddSign →
  (∀ id, id ∈ n_AssigneeIDs (rn_Node node) → id ∈ unique (TargetUserIDs c)) →
  applyContractCommand st c = (st', (true, false, None)) →
  Forall (λ a, Action a = ActionApprove) approvals →
  st_CurrentNodeIndex (foldl (λ s a, fst (applyContractCommand s a)) st' approvals) =
    st_CurrentNodeIndex st.
Proof.
  intros Hnode Hact Hall Happly Happrovals.
  assert (∃ node', st_Nodes st' !! st_CurrentNodeIndex st = Some node' ∧ stuck node' ∧
    st_CurrentNodeIndex st' = st_CurrentNodeIndex st) as Hstuck.
  { unfold applyContractCommand in Happly. rewrite Hact, Hnode in Happly.
    eval_streq. cbn [orb] in Happly. destruct (contains _ _) eqn:Ec; [|done]. cbn in Happly.
    unfold apply_add_sign, refused in Happly. case_bool_decide as Ht; [done|].
    destruct (negb _ && negb _); [done|]. injection Happly as <-.
    eexists. split; [cbn; by rewrite list_lookup_insert_eq by (by eapply lookup_lt_Some)|].
    split; [|done]. pose proof (add_targets_elem (unique (TargetUserIDs c)) node) as [H1 H2].
    unfold stuck. cbn [AddedSignerIDs n_AssigneeIDs rn_Node rn_set_countersign rn_set_approved].
    split.
    - destruct (unique (TargetUserIDs c)) as [|t l]; [done|]. intros E.
      assert (t ∈ @nil string) as Hin by (rewrite <- E; apply H2; set_solver). set_solver.
    - intros id Hid. apply H1 in Hid. apply H2. naive_solver. }
  clear Happly Hall Hact Hnode. revert st' Hstuck.
  induction Happrovals as [|a approvals Ha _ IH]; intros st' (node' & Hn & Hs & Hi); [done|].
  cbn [foldl]. apply IH. rewrite <- Hi in Hn |- *. by apply (approve_stuck st' a node').
Qed.

(** An applicant who is an assignee of the current node cannot approve, but
    can add a signer instead, and that counts as the original approval: when the
    added signer then approves, the node passes with no approval by anyone else.
    (The code means that an applicant never confirms a node of their own
    approval.) *)
Theorem applicant_add_sign_counts st node applicant friend c1 c2 :
  st_Nodes st !! st_CurrentNodeIndex st = Some node →
  st_ApplicantUserID st = applicant → applicant ∈ n_AssigneeIDs (rn_Node node) →
  AddedSignerIDs node = [] → ApprovedBy node = ∅ →
  friend ∉ n_AssigneeIDs (rn_Node node) → friend ≠ "" →
  Action c1 = ActionAddSign → ActorUserID c1 = applicant → TargetUserIDs c1 = [friend] →
  Countersign c1 = CountersignAll →
  Action c2 = ActionApprove → ActorUserID c2 = friend →
  let st2 := fst (applyContractCommand (fst (applyContractCommand st c1)) c2) in
  st_CurrentNodeIndex st2 = S (st_CurrentNodeIndex st) ∧
  ∃ node2, st_Nodes st2 !! st_CurrentNodeIndex st = Some node2 ∧
    rn_Status node2 = NodeApproved ∧ ApprovedBy node2 = {[friend; applicant]}.
Proof.
  intros Hnode Happ Hin Hadd Happroved Hfriend Hne A1 B1 T1 M1 A2 B2.
  assert (friend ≠ applicant) as Hdiff by congruence.
  assert (contains (n_AssigneeIDs (rn_Node node)) applicant = true) as Ca by by apply contains_spec.
  assert (contains (n_AssigneeIDs (rn_Node node)) friend = false) as Cf by by apply contains_false.
  set (node1 := rn_set_countersign (rn_set_approved (add_signer node friend) {[applicant]}) CountersignAll).
  assert (fst (applyContractCommand st c1) = st_set_node st (st_CurrentNodeIndex st) node1) as ->.
  { unfold applyContractCommand. rewrite A1, Hnode. eval_streq. cbn [orb]. rewrite B1, Ca. cbn [negb].
    unfold apply_add_sign, unique. rewrite T1. cbn [dedup_from]. unfold empty_str.
    replace (friend =s "") with false by (symmetry; by apply streq_false). cbn [orb contains existsb].
    rewrite bool_decide_false by done. rewrite M1. eval_streq. cbn [negb andb fold_left fst].
    unfold node1. rewrite B1. do 3 f_equal. cbn. rewrite Happroved. set_solver. }
  set (st1 := st_set_node _ _ _).
  assert (st_Nodes st1 !! st_CurrentNodeIndex st1 = Some node1) as Hn1
    by (cbn; by rewrite list_lookup_insert_eq by (by eapply lookup_lt_Some)).
  assert (n_AssigneeIDs (rn_Node node1) = n_AssigneeIDs (rn_Node node) ++ [friend]) as Easg
    by (cbn; unfold add_missing; by rewrite Cf).
  assert (AddedSignerIDs node1 = [friend]) as Eadd by (cbn; unfold add_missing; by rewrite Hadd).
  unfold applyContractCommand. rewrite A2, Hn1. eval_streq. cbn [orb]. rewrite B2.
  replace (contains (n_AssigneeIDs (rn_Node node1)) friend) with true
    by (symmetry; apply contains_spec; rewrite Easg; set_solver). cbn [negb].
  unfold apply_approve. rewrite B2.
  replace (friend =s st_ApplicantUserID st1) with false
    by (symmetry; apply streq_false; cbn; congruence).
  assert (approvalNodePassed (rn_set_approved node1 ({[friend]} ∪ ApprovedBy node1))
    (RoleNodeOrSign c2) = true) as ->.
  { unfold approvalNodePassed.
    change (AddedSignerIDs (rn_set_approved node1 _)) with (AddedSignerIDs node1).
    change (rn_Node (rn_set_approved node1 _)) with (rn_Node node1).
    change (ApprovedBy (rn_set_approved node1 _)) with ({[friend]} ∪ ApprovedBy node1).
    rewrite Easg, Eadd. rewrite bool_decide_false by done.
    replace (existsb _ _) with true.
    - cbn [negb]. change (n_Countersign (rn_Node node1)) with CountersignAll. eval_streq.
      cbn [forallb]. by rewrite bool_decide_true by set_solver.
    - symmetry. apply existsb_exists. exists applicant. split; [apply list_elem_of_In; set_solver|].
      rewrite bool_decide_true by set_solver. rewrite andb_true_r. apply negb_true_iff.
      apply contains_false. set_solver. }
  cbn [fst]. split; [done|]. eexists. split; [cbn; rewrite list_lookup_insert_eq; [done|]|].
  - cbn. rewrite length_insert. by eapply lookup_lt_Some.
  - done.
Qed.

(** ** Concrete runs *)

Definition sample_audit : AuditMeta := mkAudit "" "" "" "".
Definition sample_plan : list Node :=
  [mkNode "manager" "m" "manager" ["u1"] "" 0; mkNode "finance" "f" "finance" ["u2"; "u3"] "any" 0].
Definition sample_input : ContractApprovalInput :=
  mkContractInput "a1" sample_audit "t1" "c1" 1 "u0" "Zero" "h" "r1" 1 sample_plan 0 0.
Definition sample_exec : WorkflowExecution := mkExecution "wf" "run".
Definition sample_command (id action actor : string) : ApprovalCommand :=
  mkCommand id action actor actor false "ok" [] "" "" 0.
(** Two approvals after a reminder; the licence is restricted once and a
    notification fails. *)
Definition sample_world : World :=
  mkWorld 0 ((1%nat, ALicense None) :: (1%nat, AOk) :: (0%nat, AErr ErrStorage) :: repeat (0%nat, AOk) 20)
    [(5%nat, None); (7%nat, Some (sample_command "k1" ActionApprove "u1"));
     (7%nat, Some (sample_command "k1" ActionApprove "u1"));
     (9%nat, Some (sample_command "k2" ActionApprove "u3"))] true [].

Lemma contract_workflow_sound_witness :
  match ContractApprovalWorkflow sample_exec sample_input 10 sample_world with
  | (Ret (st, None), w') => st_Status st = StatusApproved ∧
      ∃ c rs, agrees sample_input st c ∧
        successes (w_trace w') = EStart (start_input sample_exec sample_input) :: map ERecord rs ++ [EComplete c]
  | _ => False
  end.
Proof.
  pose proof (contract_workflow_sound sample_exec sample_input 10 sample_world eq_refl) as H.
  assert (length (w_selects sample_world) < 10)%nat as Hl by (cbn; lia). specialize (H Hl).
  destruct (ContractApprovalWorkflow sample_exec sample_input 10 sample_world)
    as [[v|[st [e|]]| |] w'] eqn:E; vm_compute in E; try discriminate E.
  destruct H as (c & rs & Hc & Hs & _). split; [injection E as <- _; reflexivity|].
  by exists c, rs.
Defined.

Definition sample_state : ApprovalState := activate (initial_state sample_input 0) 0 0.

Lemma command_effects_witness :
  nodes_inv sample_plan
    (fst (applyContractCommand sample_state (sample_command "k" ActionApprove "u1"))).
Proof.
  assert (nodes_inv sample_plan sample_state) as Hinv.
  { apply (activate_inv sample_plan (initial_state sample_input 0)). apply (inv_initial sample_input). }
  assert (st_CurrentNodeIndex sample_state < length (st_Nodes sample_state))%nat as Hlt by (cbn; lia).
  destruct (command_effects sample_plan sample_state (sample_command "k" ActionApprove "u1")
    (fst (applyContractCommand sample_state (sample_command "k" ActionApprove "u1")))
    true false None Hinv Hlt) as [(_ & H & _) _]; [vm_compute; reflexivity|].
  by apply H.
Defined.

Definition blocking_command : ApprovalCommand :=
  mkCommand "k" ActionAddSign "u1" "u1" false "ok" ["u1"; "u5"] CountersignAll "" 0.

Lemma add_sign_of_assignees_blocks_witness :
  st_CurrentNodeIndex (foldl (λ s a, fst (applyContractCommand s a))
    (fst (applyContractCommand sample_state blocking_command))
    [sample_command "k2" ActionApprove "u1"; sample_command "k3" ActionApprove "u5"]) = 0%nat.
Proof.
  apply (add_sign_of_assignees_blocks sample_state
    (rn_set_started (rn_set_status (initializeNode (mkNode "manager" "m" "manager" ["u1"] "" 0)) NodeActive) 0)
    blocking_command).
  - reflexivity.
  - reflexivity.
  - intros id Hid. change (id ∈ ["u1"]) in Hid. vm_compute. set_solver.
  - reflexivity.
  - repeat constructor.
Defined.

Definition own_state : ApprovalState :=
  activate (initial_state (mkContractInput "a1" sample_audit "t1" "c1" 1 "u1" "One" "h" "r1" 1
    sample_plan 0 0) 0) 0 0.

Lemma applicant_add_sign_counts_witness :
  st_CurrentNodeIndex (fst (applyContractCommand (fst (applyContractCommand own_state
    (mkCommand "k" ActionAddSign "u1" "u1" false "ok" ["u7"] CountersignAll "" 0)))
    (sample_command "k2" ActionApprove "u7"))) = 1%nat.
Proof.
  apply (applicant_add_sign_counts own_state
    (rn_set_started (rn_set_status (initializeNode (mkNode "manager" "m" "manager" ["u1"] "" 0)) NodeActive) 0)
    "u1" "u7"
    (mkCommand "k" ActionAddSign "u1" "u1" false "ok" ["u7"] CountersignAll "" 0)
    (sample_command "k2" ActionApprove "u7")); try reflexivity; try discriminate;
    change (n_AssigneeIDs _) with ["u1"]; set_solver.
Defined.
