(* ===== verification/StatusWorkflow.v ===== *)
(** * workflows/status_change.go, import_confirmation.go, expired_archive.go

    The approval of a life cycle change by one administrator, and the two
    workflows that poll or call a single activity: the confirmation of an
    import and the daily archiving. *)

From S2P Require Import Prelude GoStrings GoTime BusinessClock Status ApprovalRule Workflow.
From S2P Require Import ContractApproval.

#[local] Open Scope string_scope.
#[local] Open Scope Z_scope.
#[local] Open Scope list_scope.

(** ** The change of a status *)

Definition validateStatusChange (input : StatusChangeInput) : res unit :=
  fail_if (empty_str (si_ApprovalID input) || empty_str (si_ContractID input) ||
           empty_str (si_ApplicantUserID input) || bool_decide (si_AdminUserIDs input = [])) ErrOther;;
  ValidateTransition (si_FromStatus input) (si_TargetStatus input);;
  fail_if (negb (RequiresApproval (si_TargetStatus input))) ErrOther;;
  fail_if (empty_str (si_Reason input)) ErrOther.

Section StatusChangeWorkflow.
Variable exec : WorkflowExecution.
Variable input : StatusChangeInput.

Definition change_timeout : Z :=
  if si_Timeout input <=? 0 then 72 * Hour else si_Timeout input.
Definition admin_node : Node :=
  mkNode "admin" "管理员审批" "admin" (unique (si_AdminUserIDs input)) CountersignAny change_timeout.

Definition change_state (t : Z) : ApprovalState :=
  activate (mkState (si_ApprovalID input) KindStatusChange StatusRunning (si_ContractID input)
    (si_ApplicantUserID input) (si_ApplicantDisplayName input) 0 (initializeNodes [admin_node])
    t t zero_time "" []) 0 t.

Definition change_start : StartApprovalActivityInput :=
  mkStart (si_ApprovalID input) (si_TenantID input) (si_ContractID input)
    (si_ApplicantUserID input) (si_ApplicantDisplayName input) (si_ContractVersion input)
    KindStatusChange (si_FromStatus input) (si_TargetStatus input) (si_Reason input) "" 0 ""
    (we_ID exec) (we_RunID exec) [admin_node] (si_Audit input).

Definition change_record (st : ApprovalState) (command : ApprovalCommand)
    : RecordCommandActivityInput :=
  mkRecord (si_ApprovalID input) (si_TenantID input) (si_ContractID input) (n_ID admin_node)
    command st.

Definition change_complete (actor : string) (st : ApprovalState) (reason : string)
    (target : Status) : CompleteApprovalActivityInput :=
  mkComplete (si_ApprovalID input) (si_TenantID input) (si_ContractID input) actor
    (st_Status st) reason (we_ID exec) target (si_Audit input).

Definition set_node0_status (st : ApprovalState) (s : string) : ApprovalState :=
  match st_Nodes st !! 0%nat with
  | Some n => st_set_node st 0 (rn_set_status n s)
  | None => st
  end.

(** The [switch]: the state a deciding command leads to, or [None] for a command
    that is ignored. *)
Definition decide_change (st : ApprovalState) (command : ApprovalCommand) : option ApprovalState :=
  let admin := contains (n_AssigneeIDs admin_node) (ActorUserID command) in
  let own := ActorUserID command =s si_ApplicantUserID input in
  if (Action command =s ActionWithdraw) && own then Some (st_set_status st StatusWithdrawn)
  else if admin && (Action command =s ActionApprove) && negb own then
    Some (set_node0_status (st_set_status st StatusApproved) NodeApproved)
  else if admin && (Action command =s ActionReject) then
    Some (st_set_failure (set_node0_status (st_set_status st StatusRejected) NodeRejected)
            (Comment command))
  else None.

Definition finish_decided (st : ApprovalState) (command : ApprovalCommand) : W ApprovalState :=
  t1 ← now;
  t2 ← now;
  let st := st_set_updated (st_set_completed st t1) t2 in
  critical_activity (ERecord (change_record st command)) st;;
  let target := if st_Status st =s StatusApproved then si_TargetStatus input
                else si_FromStatus input in
  critical_activity (EComplete (change_complete (ActorUserID command) st (Comment command) target)) st;;
  let approved := st_Status st =s StatusApproved in
  let withdrawn := st_Status st =s StatusWithdrawn in
  notifyRecipients (si_TenantID input) st
    (if approved || withdrawn then "status_change" else "rejected")
    (if approved then "合同状态已变更" else if withdrawn then "状态变更申请已撤回" else "状态变更申请已拒绝")
    (Comment command) (st_Status st) [si_ApplicantUserID input];;
  mret st.

Definition finish_change_expired (st : ApprovalState) : W ApprovalState :=
  t ← now;
  let st := st_set_updated (st_set_completed (st_set_failure (st_set_status st StatusExpired)
              "status change approval timed out") t) t in
  critical_activity (EComplete (change_complete "" st (st_FailureReason st) "")) st;;
  notifyRecipients (si_TenantID input) st "rejected" "状态变更审批已超时" (st_FailureReason st)
    "expired" [si_ApplicantUserID input];;
  mret st.

(** The loop; [deadline] is when the one timer fires. *)
Fixpoint change_loop (fuel : nat) (deadline : Z) (st : ApprovalState) : W ApprovalState :=
  match fuel with
  | O => no_fuel
  | S fuel =>
      if negb (st_Status st =s StatusRunning) then mret st
      else
        t ← now;
        answer ← select_command (deadline - t);
        match (answer : option ApprovalCommand) with
        | None => finish_change_expired st
        | Some command =>
            if negb (is_ok (validateCommonCommand command)) then change_loop fuel deadline st
            else if (Action command =s ActionUrge) || (Action command =s ActionComment) then
              critical_activity (ERecord (change_record st command)) st;;
              (if Action command =s ActionUrge
               then notifyCurrentNode (si_TenantID input) st "approval_reminder" "合同状态变更催办"
                      (Comment command)
               else mret tt);;
              change_loop fuel deadline st
            else
              match decide_change st command with
              | None => change_loop fuel deadline st
              | Some st => finish_decided st command
              end
        end
  end.

Definition StatusChangeWorkflow (fuel : nat) : W Empty_set :=
  match validateStatusChange input with
  | Err e => ret_wf zero_state (Some e)
  | Ok _ =>
      t ← now;
      let st := change_state t in
      critical_activity (EStart change_start) st;;
      notifyCurrentNode (si_TenantID input) st "pending_approval" "合同状态变更待审批" (si_Reason input);;
      t ← now;
      st ← change_loop fuel (t + change_timeout) st;
      ret_wf st None
  end.
End StatusChangeWorkflow.

(** ** Polling the confirmation of an import *)

(** What one poll of the loop meets: the state of the batch, an error, or a
    restricted licence; and whether the sleep after it fails. *)
Inductive PollOutcome : Type :=
  | PState (state : string) (sleep : option goerr)
  | PErr (e : goerr)
  | PLicense (sleep : option goerr).

Definition import_terminal (state : string) : bool :=
  contains ["APPROVED"; "REJECTED"; "WITHDRAWN"; "EXPIRED"] state.

(** [None] when the history ends; the clock advances with every sleep. *)
Fixpoint import_loop (t : Z) (polls : list PollOutcome) : option (Z * string * option goerr) :=
  match polls with
  | [] => None
  | PErr e :: _ => Some (t, "", Some e)
  | PLicense (Some e) :: _ => Some (t, "", Some e)
  | PLicense None :: rest => import_loop (t + 30 * Second) rest
  | PState state sleep :: rest =>
      if import_terminal state then Some (t, state, None)
      else match sleep with
           | Some e => Some (t, state, Some e)
           | None => import_loop (t + 5 * Second) rest
           end
  end.

Record ImportConfirmationInput : Type := mkConfirmation {
  ic_TenantID : string; ic_BatchID : string; ic_Digest : string; ic_Revision : Z
}.

Definition ImportConfirmationWorkflow (input : ImportConfirmationInput) (t : Z)
    (polls : list PollOutcome) : option (Z * string * option goerr) :=
  if empty_str (ic_BatchID input) || empty_str (ic_Digest input) || (ic_Revision input =? 0)
  then Some (t, "", Some ErrOther)
  else import_loop t polls.

(** ** The date of the daily archiving *)

(** [workflow.Now(ctx).In(businessclock.Location()).Format(time.DateOnly)]. *)
Definition archive_date `{TzDatabase} (as_of : string) (t : Z) : string :=
  if empty_str as_of then FormatDate (local_date Location t) else as_of.

(** ** The shape of a run *)

Section ChangeRuns.
Variable exec : WorkflowExecution.
Variable input : StatusChangeInput.

(** A note: a reminder or a comment. *)
Definition is_note (r : RecordCommandActivityInput) : Prop :=
  Action (rc_Command r) = ActionUrge ∨ Action (rc_Command r) = ActionComment.

(** Started, with notes recorded. *)
Definition noted (s : list Effect) : Prop :=
  ∃ rs, Forall is_note rs ∧ s = EStart (change_start exec input) :: map ERecord rs.

(** The decision recorded by [r] leads to the final status and the target. *)
Definition decides (r : RecordCommandActivityInput) (st : ApprovalState) (target : Status) : Prop :=
  let c := rc_Command r in
  let admin := ActorUserID c ∈ si_AdminUserIDs input in
  st_Status st = StatusApproved ∧ target = si_TargetStatus input ∧ Action c = ActionApprove ∧
    admin ∧ ActorUserID c ≠ si_ApplicantUserID input ∨
  st_Status st = StatusRejected ∧ target = si_FromStatus input ∧ Action c = ActionReject ∧ admin ∨
  st_Status st = StatusWithdrawn ∧ target = si_FromStatus input ∧ Action c = ActionWithdraw ∧
    ActorUserID c = si_ApplicantUserID input.

(** A decision, then the completion; or the expiry without a decision. *)
Definition concluded (st : ApprovalState) (s : list Effect) : Prop :=
  ∃ c before, noted before ∧ ca_Status c = st_Status st ∧
    ca_ApprovalID c = si_ApprovalID input ∧ ca_ContractID c = si_ContractID input ∧
    ((∃ r, decides r st (ca_TargetStatus c) ∧ s = before ++ [ERecord r; EComplete c]) ∨
     (st_Status st = StatusExpired ∧ ca_TargetStatus c = "" ∧ s = before ++ [EComplete c])).

Definition decision_recorded (st : ApprovalState) (s : list Effect) : Prop :=
  ∃ r before, noted before ∧ s = before ++ [ERecord r] ∧
    ∃ target, decides r st target.

Definition lawful (s : list Effect) : Prop :=
  s = [] ∨ noted s ∨ (∃ st, decision_recorded st s) ∨ (∃ st, concluded st s).

Abbreviation I := (λ w, lawful (successes (w_trace w))).
Abbreviation R := (outcome concluded lawful).

Lemma noted_lawful s : noted s → lawful s.
Proof. intros H. right; left. done. Qed.
Lemma decision_lawful st s : decision_recorded st s → lawful s.
Proof. intros H. right; right; left. by exists st. Qed.
Lemma concluded_lawful st s : concluded st s → lawful s.
Proof. intros H. right; right; right. by exists st. Qed.
#[local] Hint Resolve noted_lawful decision_lawful concluded_lawful : core.

Lemma noted_snoc s r : noted s → is_note r → noted (s ++ [ERecord r]).
Proof.
  intros (rs & Hall & ->) Hr. exists (rs ++ [r]). split; [|by rewrite map_app].
  apply Forall_app. split; [done|by constructor].
Qed.

Lemma decide_change_spec st command st' :
  decide_change input st command = Some st' →
  ∃ target, decides (change_record input st' command) st' target ∧
    target = (if st_Status st' =s StatusApproved then si_TargetStatus input else si_FromStatus input).
Proof.
  unfold decide_change, decides. cbn [rc_Command change_record].
  assert (∀ s, st_Status (set_node0_status st s) = st_Status st) as Hset
    by (intros s; unfold set_node0_status; by destruct (_ !! _)).
  assert (contains (n_AssigneeIDs (admin_node input)) (ActorUserID command) = true →
    ActorUserID command ∈ si_AdminUserIDs input) as Hadm.
  { intros H%contains_spec. cbn in H. unfold unique in H. apply dedup_from_elem in H. tauto. }
  destruct (_ && _) eqn:E1.
  { bool_hyps. repeat match goal with E : (_ =s _) = true |- _ => apply streq_true in E end.
    intros [= <-]. eexists. split; [|reflexivity]. right; right. by split_and!. }
  destruct (_ && _ && _) eqn:E2.
  { bool_hyps. intros [= <-]. eexists. split; [|reflexivity]. left.
    repeat match goal with
    | E : (_ =s _) = true |- _ => apply streq_true in E
    | E : (_ =s _) = false |- _ => apply streq_false in E
    end. unfold set_node0_status. destruct (_ !! _); by split_and!; auto. }
  destruct (contains (n_AssigneeIDs (admin_node input)) (ActorUserID command) &&
    (Action command =s ActionReject)) eqn:E3; [|by intros [=]].
  clear E1 E2. bool_hyps. intros [= <-]. eexists. split; [|reflexivity]. right; left.
  repeat match goal with E : (_ =s _) = true |- _ => apply streq_true in E end.
  unfold set_node0_status. destruct (_ !! _); by split_and!; auto.
Qed.

Lemma finish_decided_triple st command n target :
  decides (change_record input st command) st target →
  target = (if st_Status st =s StatusApproved then si_TargetStatus input else si_FromStatus input) →
  triple I (did noted n) (finish_decided exec input st command)
    (λ st' w, did (concluded st') n w) R.
Proof.
  intros Hd Htarget. unfold finish_decided.
  eapply triple_bind; [apply triple_now|]. intros t1. cbv beta.
  eapply triple_bind; [apply triple_now|]. intros t2. cbv beta.
  set (st' := st_set_updated _ t2).
  assert (decides (change_record input st' command) st' target) as Hd' by exact Hd.
  eapply triple_bind; [apply (triple_critical lawful concluded _ _ _ (decision_recorded st')); eauto|].
  { intros s Hs. eexists _, s. split_and!; [done|reflexivity|by exists target]. }
  intros []. eapply triple_bind; [apply (triple_critical lawful concluded _ _ _ (concluded st')); eauto|].
  { intros s (r & before & Hb & -> & target' & Hr).
    eexists (change_complete exec input _ st' _ _), before.
    split_and!; [done|reflexivity..|]. left. exists r. rewrite <- app_assoc. split; [|reflexivity]. cbn [ca_TargetStatus change_complete].
    assert (target' = (if st_Status st' =s StatusApproved then si_TargetStatus input
                       else si_FromStatus input)) as <-; [|done].
    destruct Hr as [(E & -> & _)|[(E & -> & _)|(E & -> & _)]]; rewrite E; by eval_streq. }
  intros []. eapply triple_bind; [apply triple_notify; eauto|]. intros [].
  by apply triple_ret.
Qed.

Lemma finish_change_expired_triple st n :
  triple I (did noted n) (finish_change_expired exec input st) (λ st' w, did (concluded st') n w) R.
Proof.
  unfold finish_change_expired. eapply triple_bind; [apply triple_now|]. intros t. cbv beta.
  set (st' := st_set_updated _ t).
  eapply triple_bind; [apply (triple_critical lawful concluded _ _ _ (concluded st')); eauto|].
  { intros s Hs. eexists (change_complete exec input _ st' _ _), s.
    split_and!; [done|reflexivity..|]. right. by split_and!. }
  intros []. eapply triple_bind; [apply triple_notify; eauto|]. intros [].
  by apply triple_ret.
Qed.

Lemma change_loop_triple fuel deadline st n :
  (n < fuel)%nat → st_Status st = StatusRunning →
  triple I (did noted n) (change_loop exec input fuel deadline st)
    (λ st' w, did (concluded st') n w) R.
Proof.
  revert n. induction fuel as [|fuel IH]; intros n Hn Hrun; [lia|]. cbn [change_loop].
  rewrite Hrun. eval_streq. cbn [negb].
  eapply triple_bind; [apply triple_now|]. intros t. cbv beta.
  eapply triple_bind; [apply (triple_select _ _ _ _ (λ _ w, ∃ m, n = S m ∧ did noted m w))|].
  { apply did_legal; eauto. }
  { intros m answer -> w t' Hw _. eauto. }
  assert (∀ (m : W ApprovalState), (∀ k, n = S k → triple I (did noted k) m (λ st' w, did (concluded st') k w) R) →
    triple I (λ w, ∃ m, n = S m ∧ did noted m w) m (λ st' w, did (concluded st') n w) R) as Hwrap.
  { intros m Hm w (k & -> & Hw). specialize (Hm k eq_refl w Hw).
    destruct (m w) as [[st'|r| |] w']; auto. eapply on_weaken; [|exact Hm]. lia. }
  intros [command|]; apply Hwrap; intros k ->; [|apply finish_change_expired_triple].
  assert (triple I (did noted k) (change_loop exec input fuel deadline st)
    (λ st' w, did (concluded st') k w) R) as Hnext by (apply IH; [lia|done]).
  destruct (is_ok _); cbn [negb]; [|exact Hnext].
  destruct (_ || _) eqn:Enote.
  - eapply triple_bind; [apply (triple_critical lawful concluded _ _ _ noted); eauto|].
    { intros s Hs. apply noted_snoc; [done|]. unfold is_note. cbn.
      apply orb_true_iff in Enote as [E%streq_true|E%streq_true]; auto. }
    intros []. eapply triple_bind; [apply triple_when, triple_notifyCurrentNode; eauto|].
    intros []. exact Hnext.
  - destruct (decide_change input st command) as [st'|] eqn:Ed; [|exact Hnext].
    apply decide_change_spec in Ed as (target & Hd & Ht). by eapply finish_decided_triple.
Qed.

Lemma change_triple fuel n :
  (n < fuel)%nat →
  triple I (λ w, w_trace w = [] ∧ (length (w_selects w) ≤ n)%nat)
    (StatusChangeWorkflow exec input fuel) (λ _ _, False)
    (λ r w, match validateStatusChange input with
            | Err e => r = (zero_state, Some e) ∧ w_trace w = []
            | Ok _ => R r w
            end).
Proof.
  intros Hn. unfold StatusChangeWorkflow. destruct (validateStatusChange input) as [|e].
  2:{ apply triple_ret_wf. by intros w [? _]. }
  eapply triple_bind; [apply triple_now|]. intros t. cbv beta.
  eapply (triple_bind _ _ _ _ _ (λ _, did noted n)).
  { eapply triple_weaken; [apply (triple_critical lawful concluded _ _ (λ s, s = []) noted n)
      |intros w [E ?]; unfold on; by rewrite E|done|done];
      [done|by intros s ->; left|]. intros s ->. by exists []. }
  intros []. eapply triple_bind; [apply triple_notifyCurrentNode; eauto|]. intros [].
  eapply triple_bind; [apply triple_now|]. intros t'. cbv beta.
  eapply triple_bind; [by apply (change_loop_triple fuel _ _ n)|].
  intros st. apply triple_ret_wf. by intros w [Hw _].
Qed.
End ChangeRuns.

(** ** Properties *)

(** C35: for every history, the workflow of a status change stops or waits,
    never runs out of fuel, and completes the change at most once.  When it
    returns without an error, the last recorded command decided the outcome:
    approved, with the requested target, only by an administrator who is not
    the applicant; rejected only by an administrator and withdrawn only by the
    applicant, with the contract's own status as target; without a decision it
    is expired.  All other recorded commands are notes. *)
Theorem status_change_sound exec input fuel w :
  w_trace w = [] → (length (w_selects w) < fuel)%nat →
  match StatusChangeWorkflow exec input fuel w with
  | (Val v, _) => match v with end
  | (OutOfFuel, _) => False
  | (Waiting, w') => lawful exec input (successes (w_trace w'))
  | (Ret (st, None), w') =>
      validateStatusChange input = Ok tt ∧
      ∃ rs c, Forall is_note rs ∧ ca_Status c = st_Status st ∧
        ((∃ r, decides input r st (ca_TargetStatus c) ∧ successes (w_trace w') =
            EStart (change_start exec input) :: map ERecord rs ++ [ERecord r; EComplete c]) ∨
         (st_Status st = StatusExpired ∧ ca_TargetStatus c = "" ∧ successes (w_trace w') =
            EStart (change_start exec input) :: map ERecord rs ++ [EComplete c]))
  | (Ret (st, Some e), w') =>
      validateStatusChange input = Err e ∧ w_trace w' = [] ∨
      lawful exec input (successes (w_trace w')) ∧ critical_failure (w_trace w')
  end.
Proof.
  intros Ht Hfuel.
  pose proof (change_triple exec input fuel _ Hfuel w (conj Ht (le_n _))) as H.
  destruct (StatusChangeWorkflow exec input fuel w) as [[v|[st err]| |] w']; auto.
  { destruct H. }
  destruct (validateStatusChange input) as [[]|e].
  2:{ destruct H as [E Et]. injection E as -> ->. by left. }
  destruct err as [e|]; [by right|]. split; [done|].
  destruct H as (c & before & (rs & Hall & ->) & Hs & _ & _ & H). exists rs, c.
  split; [done|]. split; [done|]. destruct H as [(r & Hr & E)|(Hst & Hta & E)].
  - left. by exists r.
  - by right.
Qed.

(** The polls the confirmation goes on after, with the sleep that follows, and those
    that end it, with the result. *)
Definition decided : list string := ["APPROVED"; "REJECTED"; "WITHDRAWN"; "EXPIRED"].
Inductive goes_on : PollOutcome → Z → Prop :=
  | goes_on_state s : s ∉ decided → goes_on (PState s None) (5 * Second)
  | goes_on_license : goes_on (PLicense None) (30 * Second).
Inductive ends : PollOutcome → string → option goerr → Prop :=
  | ends_decided s sleep : s ∈ decided → ends (PState s sleep) s None
  | ends_sleep s e : s ∉ decided → ends (PState s (Some e)) s (Some e)
  | ends_error e : ends (PErr e) "" (Some e)
  | ends_license e : ends (PLicense (Some e)) "" (Some e).

Lemma import_terminal_decided s : import_terminal s = true ↔ s ∈ decided.
Proof. apply contains_spec. Qed.

(** One poll of the loop. *)
Lemma import_loop_poll t p polls :
  (∃ state err, ends p state err ∧ import_loop t (p :: polls) = Some (t, state, err)) ∨
  (∃ d, goes_on p d ∧ import_loop t (p :: polls) = import_loop (t + d) polls).
Proof.
  destruct p as [s sleep|e|[e|]]; cbn [import_loop].
  - destruct (import_terminal s) eqn:Es.
    + apply import_terminal_decided in Es. left. exists s, None. by split; [constructor|].
    + assert (s ∉ decided) by (rewrite <- import_terminal_decided, Es; done).
      destruct sleep as [e|]; [left; exists s, (Some e)|right; exists (5 * Second)];
        by split; [constructor|].
  - left. exists "", (Some e). by split; [constructor|].
  - left. exists "", (Some e). by split; [constructor|].
  - right. exists (30 * Second). by split; [constructor|].
Qed.
Lemma ends_exact p state err state' err' :
  ends p state err → ends p state' err' → state' = state ∧ err' = err.
Proof. intros []; inversion 1; subst; done. Qed.
Lemma ends_goes_on p state err d : ends p state err → goes_on p d → False.
Proof. intros []; inversion 1; subst; done. Qed.
Lemma goes_on_exact p d d' : goes_on p d → goes_on p d' → d' = d.
Proof. intros []; inversion 1; subst; done. Qed.

(** C38: The confirmation workflow of a valid input ends exactly at the first poll
    that decides it: one that reports the batch approved, rejected, withdrawn or
    expired, with that state and no error; or one that fails (the poll itself, or
    the sleep after another state or after a licence restriction), with the error
    of that poll and the state it reported, if any.  Until then it has slept 5
    seconds after every other state and 30 seconds after every licence
    restriction.  It is still running exactly as long as no poll has decided it:
    nothing ends it but the polls. *)
Theorem import_confirmation_sound input t polls :
  ic_BatchID input ≠ "" → ic_Digest input ≠ "" → ic_Revision input ≠ 0 →
  (∀ t' state err,
     ImportConfirmationWorkflow input t polls = Some (t', state, err) ↔
     ∃ before p after delays, polls = before ++ p :: after ∧
       Forall2 goes_on before delays ∧ t' = foldl Z.add t delays ∧ ends p state err) ∧
  (ImportConfirmationWorkflow input t polls = None ↔ Forall (λ p, ∃ d, goes_on p d) polls).
Proof.
  intros H1%streq_false H2%streq_false H3%Z.eqb_neq. unfold ImportConfirmationWorkflow, empty_str.
  rewrite H1, H2, H3. cbn [orb]. clear H1 H2 H3. revert t.
  induction polls as [|p polls IH]; intros t.
  { split; [|by split]. intros t' state err. split; [done|].
    by intros ([|? ?] & ? & ? & ? & ? & _). }
  destruct (import_loop_poll t p polls) as [(state0 & err0 & He & ->)|(d & Hd & ->)].
  - split.
    + intros t' state err. split.
      * intros [= <- <- <-]. exists [], p, polls, []. by split_and!; [|constructor| |].
      * intros (before & q & after & delays & E & Hb & -> & Hq).
        destruct before as [|x before]; injection E as <- ->.
        -- apply Forall2_nil_inv_l in Hb as ->. by destruct (ends_exact _ _ _ _ _ He Hq) as [-> ->].
        -- apply Forall2_cons_inv_l in Hb as (d & ? & Hd & _). by destruct (ends_goes_on _ _ _ _ He Hd).
    + split; [done|]. intros Hall. apply Forall_cons in Hall as [[d Hd] _].
      by destruct (ends_goes_on _ _ _ _ He Hd).
  - destruct (IH (t + d)) as [IHs IHn]. split.
    + intros t' state err. rewrite IHs. split.
      * intros (before & q & after & delays & -> & Hb & -> & Hq).
        exists (p :: before), q, after, (d :: delays). by split_and!; [|constructor| |].
      * intros (before & q & after & delays & E & Hb & -> & Hq).
        destruct before as [|x before]; injection E as <- ->; [by destruct (ends_goes_on _ _ _ _ Hq Hd)|].
        apply Forall2_cons_inv_l in Hb as (d' & delays' & Hd' & Hb & ->).
        rewrite (goes_on_exact _ _ _ Hd Hd'). by exists before, q, after, delays'.
    + rewrite IHn. split; [intros Hall; constructor; [by exists d|done]|by intros [_ ?]%Forall_cons].
Qed.

(** Approvals and import confirmations classify the errors of the store
    alike: an error stops the retries of one exactly when it stops those of the
    other, except a manifest conflict, which only imports know; database and
    network errors stay retryable in both. *)
Theorem conflict_classification e :
  (∃ c, importConfirmationError (Some e) = Some (NonRetryable importConflictErrorType c)) ↔
  (e = ErrImportManifest ∨
   ∃ c, criticalActivityError (Some e) = Some (NonRetryable contractBusinessConflictErrorType c)).
Proof.
  unfold importConfirmationError, isContractBusinessConflict, criticalActivityError.
  destruct (decide (e = ErrImportManifest)) as [->|Hne]; [cbn; split; eauto|].
  rewrite (bool_decide_false (e = ErrImportManifest)) by done.
  destruct (businessConflict e); eval_streq; cbn [negb andb]; [split; eauto|].
  split; [by intros [c [=]]|]. by intros [?|[c [=]]].
Qed.

(** ** Concrete runs *)

Definition sample_change : StatusChangeInput :=
  mkStatusInput "a2" sample_audit "t1" "c1" 3 "u0" "Zero" StatusActive StatusTerminated "stop"
    ["u0"; "u8"] 0.
Definition change_world : World :=
  mkWorld 0 (repeat (0%nat, AOk) 20)
    [(5%nat, Some (sample_command "k0" ActionApprove "u0"));
     (7%nat, Some (sample_command "k1" ActionUrge "u0"));
     (9%nat, Some (sample_command "k2" ActionApprove "u8"))] true [].

Lemma status_change_sound_witness :
  match StatusChangeWorkflow sample_exec sample_change 10 change_world with
  | (Ret (st, None), w') => st_Status st = StatusApproved ∧
      ∃ rs c, Forall is_note rs ∧ ca_Status c = st_Status st
  | _ => False
  end.
Proof.
  pose proof (status_change_sound sample_exec sample_change 10 change_world eq_refl) as H.
  assert (length (w_selects change_world) < 10)%nat as Hl by (cbn; lia). specialize (H Hl).
  destruct (StatusChangeWorkflow sample_exec sample_change 10 change_world)
    as [[v|[st [e|]]| |] w'] eqn:E; vm_compute in E; try discriminate E.
  destruct H as (_ & rs & c & Hn & Hs & _). split; [injection E as <- _; reflexivity|].
  by exists rs, c.
Defined.

Lemma import_confirmation_sound_witness :
  ImportConfirmationWorkflow (mkConfirmation "t1" "b1" "d" 1) 0
    [PState "PENDING" None; PLicense None; PState "APPROVED" None; PErr ErrOther] =
    Some (35 * Second, "APPROVED", None) ∧
  ImportConfirmationWorkflow (mkConfirmation "t1" "b1" "d" 1) 0 [PLicense None] = None.
Proof.
  split.
  - apply (import_confirmation_sound (mkConfirmation "t1" "b1" "d" 1)); [discriminate..|].
    exists [PState "PENDING" None; PLicense None], (PState "APPROVED" None), [PErr ErrOther],
      [5 * Second; 30 * Second].
    split; [reflexivity|]. split; [|split; [reflexivity|]].
    + constructor; [|constructor; [constructor|constructor]].
      constructor. apply (bool_decide_eq_true_1 _). vm_compute. reflexivity.
    + constructor. apply (bool_decide_eq_true_1 _). vm_compute. reflexivity.
  - apply (import_confirmation_sound (mkConfirmation "t1" "b1" "d" 1)); [discriminate..|].
    constructor; [|constructor]. eexists. constructor.
Defined.
