(* ===== verification/Store.v ===== *)
(** * infrastructure/mysql: the tables and transactions

    The rows of infrastructure/mysql/models.go, the tables with their unique
    keys (migrations/*.sql), and transactions over them.

    A column of JSON text holds the value it decodes to.  Primary keys filled
    by [newID] are not checked for repetition: [newID] gives fresh values.  A
    transaction sees the tables as they are when it runs: every operation of
    the repository locks the contract row (or a single row) first, so that
    transactions on one contract run one after the other. *)

From S2P Require Import Prelude GoStrings GoTime Status NumberRule PaymentTerm ProjectService.
From S2P Require Import ImportPolicy ApprovalRule Workflow.

#[local] Open Scope string_scope.
#[local] Open Scope Z_scope.
#[local] Open Scope list_scope.

(** A JSON column: empty, text the decoder rejects, or the text of a value. *)
Inductive json (A : Type) : Type :=
  | JsonEmpty
  | JsonBad
  | JsonOf (a : A).
Arguments JsonEmpty {_}.
Arguments JsonBad {_}.
Arguments JsonOf {_} _.

Definition json_empty {A} (j : json A) : bool :=
  match j with JsonEmpty => true | _ => false end.
(** [json.Unmarshal]: no value can be read from an empty text either. *)
Definition unmarshal {A} (j : json A) : res A :=
  match j with JsonOf a => Ok a | _ => Err ErrOther end.

Definition stringPtr (value : string) : option string :=
  if empty_str value then None else Some value.
Definition uintPtr (value : Z) : option Z := if value =? 0 then None else Some value.
Definition timePtr (value : Time) : option Time := if IsZero value then None else Some value.
Definition valueOrEmpty (value : option string) : string :=
  match value with Some s => s | None => "" end.
Definition uintValueOrZero (value : option Z) : Z := match value with Some n => n | None => 0 end.

(** ** Rows *)

(** The columns of [contractRecord], in groups. *)
Record partyColumns : Type := mkParty {
  c_OpportunityID : option string; c_OpportunityName : option string;
  c_CounterpartySource : string; c_LocalCounterpartyID : option string;
  c_CounterpartyVersion : option Z; c_CategorySource : string; c_IntegrationPolicy : string;
  c_CRMCustomerID : option Z; c_CustomerName : option string; c_CustomerAddress : option string;
  c_CustomerContact : option string; c_CustomerPhone : option string;
  c_CustomerCreditLevel : option string
}.
Record ownerColumns : Type := mkOwner {
  c_OwnerIdentityID : option string; c_OwnerOrgID : option string; c_ProjectID : option string;
  c_OwnerUserID : string; c_OwnerDisplayName : string
}.
Record termsColumns : Type := mkTerms {
  c_Title : string; c_ContractType : string; c_ServiceType : string;
  c_Systems : json (list SystemInfo); c_ServiceItems : json (list ServiceItem);
  c_AmountMinor : Z; c_Currency : string; c_StartDate : option Time; c_EndDate : option Time
}.
Record documentColumns : Type := mkDocument {
  c_Content : string; c_TemplateID : option string; c_TemplateValues : json (gmap string string);
  c_RenderedDocument : string; c_DocumentFormat : string; c_SourceMediaType : string;
  c_SourceFilename : string; c_SourceSHA256 : string; c_ExternalPaperNumber : string;
  c_SourceFileID : string; c_SourceFileStatus : string; c_SourceFileLastError : string;
  c_ContentHash : option string
}.
Record originColumns : Type := mkOrigin {
  c_OriginKind : string; c_ImportMode : string; c_OriginImportItemID : option string;
  c_HistoricalStatus : string; c_HistoricalCustomerName : string; c_HistoricalOwnerLabel : string;
  c_ImportSourceRevision : Z; c_ImportReportReleaseVersion : Z;
  c_ImportReportRequiredChannels : string; c_DeclaredSignedDate : option Time;
  c_ImportConfirmedAt : option Time; c_ImportResponsibilityActivatedAt : option Time;
  c_ImportPolicy : json ImportPolicy
}.
Record contractRecord : Type := mkContract {
  c_ID : string; c_TenantID : string; c_ContractNumber : option string;
  c_ContractNumberFormat : string; c_party : partyColumns; c_owner : ownerColumns;
  c_terms : termsColumns; c_document : documentColumns; c_origin : originColumns;
  c_Status : Status; c_Version : Z; c_CreatedAt : Time; c_CreatedBy : string;
  c_UpdatedAt : Time; c_UpdatedBy : string
}.

Record lifecycleEventRecord : Type := mkLifecycle {
  l_ID : string; l_TenantID : string; l_ContractID : string; l_FromStatus : Status;
  l_ToStatus : Status; l_ActorUserID : option string; l_Reason : option string;
  l_ApprovalID : option string; l_WorkflowID : option string; l_IdempotencyKey : string;
  l_OccurredAt : Time
}.

Record approvalInstanceRecord : Type := mkInstance {
  ai_ID : string; ai_TenantID : string; ai_ContractID : string; ai_Kind : string;
  ai_Status : string; ai_ApplicantUserID : string; ai_ApplicantDisplayName : string;
  ai_FromStatus : Status; ai_TargetStatus : Status; ai_Reason : option string;
  ai_RuleID : option string; ai_RuleVersion : option Z; ai_ContentHash : option string;
  ai_Nodes : list Node; ai_RuntimeState : json ApprovalState; ai_CurrentNodeIndex : Z;
  ai_TemporalWorkflowID : string; ai_TemporalRunID : string;
  ai_ActiveStatusChangeKey : option string; ai_CompletionApplied : bool;
  ai_CompletedAt : option Time; ai_CreatedAt : Time; ai_UpdatedAt : Time
}.

Record approvalActionRecord : Type := mkAction {
  aa_ID : string; aa_TenantID : string; aa_ApprovalID : string; aa_ContractID : string;
  aa_NodeID : option string; aa_CommandID : string; aa_Action : string; aa_ActorUserID : string;
  aa_ActorDisplayName : string; aa_Comment : option string; aa_Payload : ApprovalCommand;
  aa_OccurredAt : Time
}.

Record approvalTaskRecord : Type := mkTask {
  t_ApprovalID : string; t_NodeID : string; t_AssigneeUserID : string; t_NodeName : string;
  t_NodeIndex : nat; t_Status : string; t_Approved : bool; t_StartedAt : option Time;
  t_CompletedAt : option Time
}.

(** The contract row and the payment plan an approval was submitted with. *)
Record approvalSnapshotRecord : Type := mkSnapshot {
  as_ApprovalID : string; as_TenantID : string; as_ContractID : string;
  as_ContractVersion : Z; as_ContentHash : option string; as_Contract : contractRecord;
  as_PaymentTerms : list PaymentTerm; as_RenderedDocument : string; as_RuleID : option string;
  as_RuleVersion : option Z; as_CreatedAt : Time
}.

Record paymentTermRow : Type := mkTermRow {
  pr_ID : string; pr_TenantID : string; pr_ContractID : string; pr_term : paymentTermRecord;
  pr_CreatedAt : Time; pr_UpdatedAt : Time
}.

(** The columns every outbox has for its delivery. *)
Record deliveryColumns : Type := mkColumns {
  dv_DeliveryStatus : string; dv_Attempts : Z; dv_NextAttemptAt : Time;
  dv_LockedAt : option Time; dv_DeliveredAt : option Time; dv_LastError : option string
}.
(** A row that waits for its first attempt. *)
Definition queued (next : Time) : deliveryColumns := mkColumns "pending" 0 next None None None.

Record notificationOutboxRecord : Type := mkNotification {
  no_ID : string; no_TenantID : string; no_RecipientKey : string;
  no_RecipientUserID : option string; no_RecipientRoleCode : option string;
  no_NotificationType : string; no_Title : string; no_Content : string;
  no_ContractID : option string; no_ApprovalID : option string; no_DedupeKey : string;
  no_Delivery : deliveryColumns; no_CreatedAt : Time
}.

(** [projectDeliveryOutboxRecord], [financialEffectiveOutboxRecord] and
    [contractResponsibilityOutbox] have the same columns; they differ in the
    payload. *)
Record deliveryOutboxRecord (P : Type) : Type := mkDelivery {
  do_ID : string; do_TenantID : string; do_ContractID : string; do_ContractVersion : Z;
  do_Payload : json P; do_Delivery : deliveryColumns; do_CreatedAt : Time
}.
Arguments mkDelivery {_} _ _ _ _ _ _ _.
Arguments do_ID {_} _.
Arguments do_TenantID {_} _.
Arguments do_ContractID {_} _.
Arguments do_ContractVersion {_} _.
Arguments do_Payload {_} _.
Arguments do_Delivery {_} _.
Arguments do_CreatedAt {_} _.

Record projectActivationPayload : Type := mkActivation {
  pa_ContractID : string; pa_ContractNumber : string; pa_ContractVersion : string;
  pa_ContractName : string; pa_Customer : string; pa_CustomerID : string; pa_EffectiveAt : Time;
  pa_StampedContractUploaded : bool; pa_Services : list ProjectServiceItem
}.
Record financialEffectivePayload : Type := mkFinancial {
  fp_EventID : string; fp_EventType : string; fp_TenantID : string; fp_OccurredAt : Time;
  fp_AggregateID : string; fp_AggregateVersion : Z; fp_ID : string; fp_No : string;
  fp_Version : Z; fp_CustomerID : string; fp_CustomerName : string; fp_OwnerUserID : string;
  fp_ProjectID : string; fp_Currency : string; fp_Amount : string;
  fp_PaymentTerms : list PaymentTerm
}.
Record responsibilityPayload : Type := mkResponsibility {
  rp_EventID : string; rp_EventType : string; rp_TenantID : string; rp_OccurredAt : Time;
  rp_SourceContractID : string; rp_SourceVersion : Z; rp_OwnerUserID : string; rp_Active : bool
}.

Record contractResponsibilityStream : Type := mkStream {
  rs_OwnerUserID : string; rs_Active : bool; rs_Version : Z; rs_UpdatedAt : Time
}.

Record stampedDocumentRecord : Type := mkStamped {
  sd_ContractID : string; sd_TenantID : string; sd_OriginalFilename : string;
  sd_ContentSHA256 : string; sd_Version : Z; sd_Document : string; sd_UploadedAt : Time;
  sd_UploadedBy : string; sd_PlatformFileID : string; sd_FileGatewayState : string;
  sd_FileGatewayLastError : string; sd_SupersededAt : option Time; sd_SupersededBy : option string
}.

Record signingRecord : Type := mkSigning {
  sg_ContractID : string; sg_TenantID : string; sg_Method : string; sg_Status : string;
  sg_CourierNumber : option string; sg_RecipientName : option string;
  sg_RecipientPhone : option string; sg_RecipientAddress : option string;
  sg_MailedAt : option Time; sg_CustomerReceivedAt : option Time; sg_SignedAt : option Time;
  sg_ConfirmedAt : option Time; sg_ConfirmedDocumentVersion : option Z;
  sg_ConfirmedContentSHA256 : option string; sg_SealVerified : bool;
  sg_SignatureVerified : bool; sg_ReminderCount : Z; sg_LastRemindedAt : option Time;
  sg_Version : Z; sg_UpdatedAt : Time; sg_UpdatedBy : string
}.

Record signingConfirmationRecord : Type := mkSignConfirmation {
  sc_ID : string; sc_TenantID : string; sc_ContractID : string; sc_DocumentVersion : Z;
  sc_ContentSHA256 : string; sc_SealVerified : bool; sc_SignatureVerified : bool;
  sc_SignedAt : Time; sc_ConfirmedAt : Time; sc_ConfirmedBy : string; sc_CreatedAt : Time
}.

Record contractNumberRegistryRecord : Type := mkRegistered {
  nr_ContractNumber : string; nr_TenantID : string; nr_ContractID : string; nr_SeqYear : Z;
  nr_RuleKey : string; nr_IssuedAt : Time
}.

(** The CRM's signed opportunities, their review, and the callback that tells
    the CRM about it. *)
Record opportunityIntakeRecord : Type := mkIntake {
  oi_IntakeID : string; oi_TenantID : string; oi_EventID : string; oi_OpportunityID : Z;
  oi_EventVersion : Z; oi_CustomerID : Z; oi_OpportunityNo : string; oi_ContractRef : string;
  oi_ContractID : option string; oi_ContractNumber : option string; oi_ExpectedAmount : string;
  oi_OccurredAt : Time; oi_SourceRequestID : option string; oi_Status : string; oi_Version : Z;
  oi_ReviewedBy : option string; oi_ReviewerDisplayName : option string;
  oi_ReviewReason : option string; oi_ReviewedAt : option Time; oi_CreatedAt : Time;
  oi_UpdatedAt : Time
}.
(** [OpportunityIntake], the value of a row; empty texts for absent columns. *)
Record OpportunityIntake : Type := mkOpportunity {
  op_IntakeID : string; op_TenantID : string; op_EventID : string; op_OpportunityID : Z;
  op_EventVersion : Z; op_OpportunityNo : string; op_CustomerID : Z; op_ContractRef : string;
  op_ContractID : string; op_ContractNumber : string; op_ExpectedAmount : string;
  op_OccurredAt : Time; op_SourceRequestID : string; op_Status : string; op_Version : Z;
  op_ReviewedBy : string; op_ReviewerDisplayName : string; op_ReviewedAt : option Time;
  op_ReviewReason : string; op_CreatedAt : Time
}.
Record opportunityIntakeReviewRecord : Type := mkReview {
  ov_ReviewID : string; ov_TenantID : string; ov_IntakeID : string; ov_IdempotencyKey : string;
  ov_RequestHash : string; ov_Decision : string; ov_Reason : string; ov_Version : Z;
  ov_ReviewerID : string; ov_ReviewerDisplayName : option string;
  ov_Response : json OpportunityIntake; ov_CreatedAt : Time
}.
Record OpportunityLinkCallback : Type := mkCallback {
  cb_EventID : string; cb_IntakeID : string; cb_OpportunityID : Z; cb_ContractID : string;
  cb_ContractNumber : string; cb_Status : string; cb_LinkedAt : option Time; cb_SyncVersion : Z
}.
Record opportunityLinkOutboxRecord : Type := mkLink {
  lo_ID : string; lo_TenantID : string; lo_IntakeID : string; lo_EventID : string;
  lo_Payload : json OpportunityLinkCallback; lo_Delivery : deliveryColumns; lo_CreatedAt : Time
}.

(** The handover of a leaving user's responsibilities. *)
Record handoverFreezeRecord : Type := mkFreeze {
  hf_ID : string; hf_TenantID : string; hf_BatchID : string; hf_RequestID : string;
  hf_UserID : string; hf_Status : string; hf_FrozenAt : Time; hf_ReleasedAt : option Time;
  hf_Outcome : option string; hf_CreatedAt : Time; hf_UpdatedAt : Time
}.
Record handoverReceiptRecord : Type := mkReceipt {
  hr_ID : string; hr_TenantID : string; hr_BatchID : string; hr_ItemID : string;
  hr_ResourceType : string; hr_ResourceID : string; hr_FromUserID : string;
  hr_ToUserID : string; hr_IdempotencyKey : string; hr_Status : string;
  hr_AppliedVersion : Z; hr_ReasonCode : option string; hr_EvidenceRef : option string;
  hr_ReceivedAt : Time; hr_CreatedAt : Time
}.

(** A rule of approval; its JSON columns hold what a decoded request gave. *)
Record approvalRuleRecord : Type := mkRuleRow {
  ru_ID : string; ru_TenantID : string; ru_Name : string; ru_Priority : Z; ru_Enabled : bool;
  ru_Expression : json Expression; ru_Nodes : json (list Node); ru_Version : Z;
  ru_CreatedAt : Time; ru_CreatedBy : string; ru_UpdatedAt : Time; ru_UpdatedBy : string
}.

(** The JSON payload of an audit event. *)
Inductive auditPayload : Type :=
  | PStatusChange (contract_id : string) (from to : Status) (reason : string)
  | PCommand (approval_id command_id command node_id countersign : string)
  | PCreated (contract_id : string) (status : Status) (contract_type : string) (amount : Z)
      (currency : string)
  | PUpdated (contract_id : string) (from_version to_version : Z) (status : Status) (amount : Z)
      (currency : string)
  | PHandedOff (contract_id : string) (version : Z) (service_items : Z)
  | PFinancialChange (contract_id : string) (from_version to_version from_amount to_amount : Z)
      (currency : string) (installments : Z) (reason : string)
  | PRetry (kind id event : string) (previous_attempts : Z) (previous_last_error : string)
  | PLinkConfirmed (intake_id event_id operator display : string)
      (before_opportunity : string) (before_customer : Z) (opportunity_id : string)
      (crm_customer_id : Z)
  | PImportConfirmed (manifest_digest policy policy_source : string) (policy_version : Z)
      (upgraded : bool)
  | PImportAutoApproved (batch_id item_id historical_status : string) (source_revision : Z)
      (setting_version : Z)
  | PAutoApproveSetting (enabled previous_enabled : bool) (version : Z)
  | PTargetRejected (item_id target command_id : string) (generation : Z)
      (request_digest : string) (http_status : Z) (recipient_code : string)
  | PFinanceRetry (item_id target old_command_id old_request_digest : string)
      (rejected_http_status : Z) (recipient_code command_id : string) (generation : Z)
  | PDocumentAccess (contract_id document_kind : string)
  | PNothing
  | PCatalogGrant (entry_kind entry_id subject_type subject_id : string) (enabled : bool)
      (old_version new_version : Z)
  | PTemplate (template_id name : string).

(** The addresses are kept as the texts of the request. *)
Record auditOutboxRecord : Type := mkAuditRow {
  au_ID : string; au_TenantID : string; au_EventID : string; au_ActorID : option string;
  au_Action : string; au_ResourceType : string; au_ResourceID : string;
  au_RequestID : option string; au_LoginIP : string; au_ClientIP : string; au_IPSource : string;
  au_Result : string; au_Payload : auditPayload; au_Delivery : deliveryColumns;
  au_CreatedAt : Time
}.

(** [AuditOutboxEntry]; [Result] is never set by the modelled callers. *)
Record AuditOutboxEntry : Type := mkEntry {
  ae_ActorID : string; ae_Action : string; ae_ResourceType : string; ae_ResourceID : string;
  ae_Meta : AuditMeta; ae_Payload : auditPayload
}.

(** ** The tables *)

(** The four tables of contract numbers; without migrations 37 and 38 they do
    not exist. *)
Record numberTables : Type := mkNumbers {
  nt_rule : option ContractNumberRule;
  nt_sequence : gmap (Z * string) Z;
  (** keyed by the collation key of the number *)
  nt_registry : gmap string contractNumberRegistryRecord
}.

Record DB : Type := mkDB {
  db_contracts : gmap string contractRecord;
  db_approvals : gmap string approvalInstanceRecord;
  db_actions : gmap string approvalActionRecord;
  db_tasks : gmap (string * string * string) approvalTaskRecord;
  db_snapshots : gmap string approvalSnapshotRecord;
  db_lifecycle : list lifecycleEventRecord;
  db_audit : list auditOutboxRecord;
  db_notifications : list notificationOutboxRecord;
  db_project : list (deliveryOutboxRecord projectActivationPayload);
  db_financial : list (deliveryOutboxRecord financialEffectivePayload);
  db_responsibility : list (deliveryOutboxRecord responsibilityPayload);
  db_streams : gmap (string * string) contractResponsibilityStream;
  db_payment : list paymentTermRow;
  db_numbers : option numberTables;
  db_stamped : list stampedDocumentRecord;
  db_signing : gmap string signingRecord;
  db_confirmations : list signingConfirmationRecord;
  db_intakes : list opportunityIntakeRecord;
  db_reviews : list opportunityIntakeReviewRecord;
  db_links : list opportunityLinkOutboxRecord;
  db_freezes : list handoverFreezeRecord;
  db_receipts : list handoverReceiptRecord;
  db_rules : list approvalRuleRecord
}.

Definition empty_db : DB :=
  mkDB ∅ ∅ ∅ ∅ ∅ [] [] [] [] [] [] ∅ [] None [] ∅ [] [] [] [] [] [] [].

Definition set_contracts x d := mkDB x (db_approvals d) (db_actions d) (db_tasks d)
  (db_snapshots d) (db_lifecycle d) (db_audit d) (db_notifications d) (db_project d)
  (db_financial d) (db_responsibility d) (db_streams d) (db_payment d) (db_numbers d)
  (db_stamped d) (db_signing d) (db_confirmations d) (db_intakes d) (db_reviews d) (db_links d)
  (db_freezes d) (db_receipts d) (db_rules d).
Definition set_approvals x d := mkDB (db_contracts d) x (db_actions d) (db_tasks d)
  (db_snapshots d) (db_lifecycle d) (db_audit d) (db_notifications d) (db_project d)
  (db_financial d) (db_responsibility d) (db_streams d) (db_payment d) (db_numbers d)
  (db_stamped d) (db_signing d) (db_confirmations d) (db_intakes d) (db_reviews d) (db_links d)
  (db_freezes d) (db_receipts d) (db_rules d).
Definition set_actions x d := mkDB (db_contracts d) (db_approvals d) x (db_tasks d)
  (db_snapshots d) (db_lifecycle d) (db_audit d) (db_notifications d) (db_project d)
  (db_financial d) (db_responsibility d) (db_streams d) (db_payment d) (db_numbers d)
  (db_stamped d) (db_signing d) (db_confirmations d) (db_intakes d) (db_reviews d) (db_links d)
  (db_freezes d) (db_receipts d) (db_rules d).
Definition set_tasks x d := mkDB (db_contracts d) (db_approvals d) (db_actions d) x
  (db_snapshots d) (db_lifecycle d) (db_audit d) (db_notifications d) (db_project d)
  (db_financial d) (db_responsibility d) (db_streams d) (db_payment d) (db_numbers d)
  (db_stamped d) (db_signing d) (db_confirmations d) (db_intakes d) (db_reviews d) (db_links d)
  (db_freezes d) (db_receipts d) (db_rules d).
Definition set_snapshots x d := mkDB (db_contracts d) (db_approvals d) (db_actions d)
  (db_tasks d) x (db_lifecycle d) (db_audit d) (db_notifications d) (db_project d)
  (db_financial d) (db_responsibility d) (db_streams d) (db_payment d) (db_numbers d)
  (db_stamped d) (db_signing d) (db_confirmations d) (db_intakes d) (db_reviews d) (db_links d)
  (db_freezes d) (db_receipts d) (db_rules d).
Definition set_lifecycle x d := mkDB (db_contracts d) (db_approvals d) (db_actions d)
  (db_tasks d) (db_snapshots d) x (db_audit d) (db_notifications d) (db_project d)
  (db_financial d) (db_responsibility d) (db_streams d) (db_payment d) (db_numbers d)
  (db_stamped d) (db_signing d) (db_confirmations d) (db_intakes d) (db_reviews d) (db_links d)
  (db_freezes d) (db_receipts d) (db_rules d).
Definition set_audit x d := mkDB (db_contracts d) (db_approvals d) (db_actions d) (db_tasks d)
  (db_snapshots d) (db_lifecycle d) x (db_notifications d) (db_project d) (db_financial d)
  (db_responsibility d) (db_streams d) (db_payment d) (db_numbers d) (db_stamped d)
  (db_signing d) (db_confirmations d) (db_intakes d) (db_reviews d) (db_links d)
  (db_freezes d) (db_receipts d) (db_rules d).
Definition set_notifications x d := mkDB (db_contracts d) (db_approvals d) (db_actions d)
  (db_tasks d) (db_snapshots d) (db_lifecycle d) (db_audit d) x (db_project d) (db_financial d)
  (db_responsibility d) (db_streams d) (db_payment d) (db_numbers d) (db_stamped d)
  (db_signing d) (db_confirmations d) (db_intakes d) (db_reviews d) (db_links d)
  (db_freezes d) (db_receipts d) (db_rules d).
Definition set_project x d := mkDB (db_contracts d) (db_approvals d) (db_actions d) (db_tasks d)
  (db_snapshots d) (db_lifecycle d) (db_audit d) (db_notifications d) x (db_financial d)
  (db_responsibility d) (db_streams d) (db_payment d) (db_numbers d) (db_stamped d)
  (db_signing d) (db_confirmations d) (db_intakes d) (db_reviews d) (db_links d)
  (db_freezes d) (db_receipts d) (db_rules d).
Definition set_financial x d := mkDB (db_contracts d) (db_approvals d) (db_actions d)
  (db_tasks d) (db_snapshots d) (db_lifecycle d) (db_audit d) (db_notifications d)
  (db_project d) x (db_responsibility d) (db_streams d) (db_payment d) (db_numbers d)
  (db_stamped d) (db_signing d) (db_confirmations d) (db_intakes d) (db_reviews d) (db_links d)
  (db_freezes d) (db_receipts d) (db_rules d).
Definition set_responsibility x d := mkDB (db_contracts d) (db_approvals d) (db_actions d)
  (db_tasks d) (db_snapshots d) (db_lifecycle d) (db_audit d) (db_notifications d)
  (db_project d) (db_financial d) x (db_streams d) (db_payment d) (db_numbers d) (db_stamped d)
  (db_signing d) (db_confirmations d) (db_intakes d) (db_reviews d) (db_links d)
  (db_freezes d) (db_receipts d) (db_rules d).
Definition set_streams x d := mkDB (db_contracts d) (db_approvals d) (db_actions d) (db_tasks d)
  (db_snapshots d) (db_lifecycle d) (db_audit d) (db_notifications d) (db_project d)
  (db_financial d) (db_responsibility d) x (db_payment d) (db_numbers d) (db_stamped d)
  (db_signing d) (db_confirmations d) (db_intakes d) (db_reviews d) (db_links d)
  (db_freezes d) (db_receipts d) (db_rules d).
Definition set_payment x d := mkDB (db_contracts d) (db_approvals d) (db_actions d) (db_tasks d)
  (db_snapshots d) (db_lifecycle d) (db_audit d) (db_notifications d) (db_project d)
  (db_financial d) (db_responsibility d) (db_streams d) x (db_numbers d) (db_stamped d)
  (db_signing d) (db_confirmations d) (db_intakes d) (db_reviews d) (db_links d)
  (db_freezes d) (db_receipts d) (db_rules d).
Definition set_numbers x d := mkDB (db_contracts d) (db_approvals d) (db_actions d) (db_tasks d)
  (db_snapshots d) (db_lifecycle d) (db_audit d) (db_notifications d) (db_project d)
  (db_financial d) (db_responsibility d) (db_streams d) (db_payment d) x (db_stamped d)
  (db_signing d) (db_confirmations d) (db_intakes d) (db_reviews d) (db_links d)
  (db_freezes d) (db_receipts d) (db_rules d).
Definition set_stamped x d := mkDB (db_contracts d) (db_approvals d) (db_actions d) (db_tasks d)
  (db_snapshots d) (db_lifecycle d) (db_audit d) (db_notifications d) (db_project d)
  (db_financial d) (db_responsibility d) (db_streams d) (db_payment d) (db_numbers d) x
  (db_signing d) (db_confirmations d) (db_intakes d) (db_reviews d) (db_links d)
  (db_freezes d) (db_receipts d) (db_rules d).
Definition set_signing x d := mkDB (db_contracts d) (db_approvals d) (db_actions d) (db_tasks d)
  (db_snapshots d) (db_lifecycle d) (db_audit d) (db_notifications d) (db_project d)
  (db_financial d) (db_responsibility d) (db_streams d) (db_payment d) (db_numbers d)
  (db_stamped d) x (db_confirmations d) (db_intakes d) (db_reviews d) (db_links d)
  (db_freezes d) (db_receipts d) (db_rules d).
Definition set_confirmations x d := mkDB (db_contracts d) (db_approvals d) (db_actions d)
  (db_tasks d) (db_snapshots d) (db_lifecycle d) (db_audit d) (db_notifications d)
  (db_project d) (db_financial d) (db_responsibility d) (db_streams d) (db_payment d)
  (db_numbers d) (db_stamped d) (db_signing d) x (db_intakes d) (db_reviews d) (db_links d)
  (db_freezes d) (db_receipts d) (db_rules d).
Definition set_intakes x d := mkDB (db_contracts d) (db_approvals d) (db_actions d) (db_tasks d)
  (db_snapshots d) (db_lifecycle d) (db_audit d) (db_notifications d) (db_project d)
  (db_financial d) (db_responsibility d) (db_streams d) (db_payment d) (db_numbers d)
  (db_stamped d) (db_signing d) (db_confirmations d) x (db_reviews d) (db_links d)
  (db_freezes d) (db_receipts d) (db_rules d).
Definition set_reviews x d := mkDB (db_contracts d) (db_approvals d) (db_actions d) (db_tasks d)
  (db_snapshots d) (db_lifecycle d) (db_audit d) (db_notifications d) (db_project d)
  (db_financial d) (db_responsibility d) (db_streams d) (db_payment d) (db_numbers d)
  (db_stamped d) (db_signing d) (db_confirmations d) (db_intakes d) x (db_links d)
  (db_freezes d) (db_receipts d) (db_rules d).
Definition set_links x d := mkDB (db_contracts d) (db_approvals d) (db_actions d) (db_tasks d)
  (db_snapshots d) (db_lifecycle d) (db_audit d) (db_notifications d) (db_project d)
  (db_financial d) (db_responsibility d) (db_streams d) (db_payment d) (db_numbers d)
  (db_stamped d) (db_signing d) (db_confirmations d) (db_intakes d) (db_reviews d) x
  (db_freezes d) (db_receipts d) (db_rules d).
Definition set_freezes x d := mkDB (db_contracts d) (db_approvals d) (db_actions d) (db_tasks d)
  (db_snapshots d) (db_lifecycle d) (db_audit d) (db_notifications d) (db_project d)
  (db_financial d) (db_responsibility d) (db_streams d) (db_payment d) (db_numbers d)
  (db_stamped d) (db_signing d) (db_confirmations d) (db_intakes d) (db_reviews d) (db_links d)
  x (db_receipts d) (db_rules d).
Definition set_receipts x d := mkDB (db_contracts d) (db_approvals d) (db_actions d) (db_tasks d)
  (db_snapshots d) (db_lifecycle d) (db_audit d) (db_notifications d) (db_project d)
  (db_financial d) (db_responsibility d) (db_streams d) (db_payment d) (db_numbers d)
  (db_stamped d) (db_signing d) (db_confirmations d) (db_intakes d) (db_reviews d) (db_links d)
  (db_freezes d) x (db_rules d).
Definition set_rules x d := mkDB (db_contracts d) (db_approvals d) (db_actions d) (db_tasks d)
  (db_snapshots d) (db_lifecycle d) (db_audit d) (db_notifications d) (db_project d)
  (db_financial d) (db_responsibility d) (db_streams d) (db_payment d) (db_numbers d)
  (db_stamped d) (db_signing d) (db_confirmations d) (db_intakes d) (db_reviews d) (db_links d)
  (db_freezes d) (db_receipts d) x.

(** ** Transactions

    A statement can fail; the oracle says which.  Each statement, each reading
    of the clock and each new identifier takes one tick. *)
Class Oracle := {
  o_fault : nat → bool;
  o_now : nat → Time;
  o_id : nat → string;
  (** The outcome of the commit: done, done but reported as failed (the
      acknowledgement is lost), or not done. *)
  o_commit : option bool
}.

Definition Tx (A : Type) : Type := nat * DB → res A * (nat * DB).
#[export] Instance Tx_ret : MRet Tx := λ A a s, (Ok a, s).
#[export] Instance Tx_bind : MBind Tx := λ A B f m s,
  match m s with
  | (Ok a, s') => f a s'
  | (Err e, s') => (Err e, s')
  end.

Definition throw {A} (e : goerr) : Tx A := λ s, (Err e, s).
Definition lift {A} (r : res A) : Tx A := λ s, (r, s).
(** [if cond { return err }]. *)
Definition guard (b : bool) (e : goerr) : Tx unit := lift (fail_if b e).

Section Statements.
Context `{Oracle}.

Definition query {A} (f : DB → A) : Tx A := λ '(t, d),
  if o_fault t then (Err ErrStorage, (S t, d)) else (Ok (f d), (S t, d)).
(** A statement that changes tables, or is refused by a unique key. *)
Definition exec {A} (f : DB → res (A * DB)) : Tx A := λ '(t, d),
  if o_fault t then (Err ErrStorage, (S t, d))
  else match f d with Ok (a, d') => (Ok a, (S t, d')) | Err e => (Err e, (S t, d)) end.
Definition modify (f : DB → DB) : Tx unit := exec (λ d, Ok (tt, f d)).
Definition time_now : Tx Time := λ '(t, d), (Ok (o_now t), (S t, d)).
Definition newID : Tx string := λ '(t, d), (Ok (o_id t), (S t, d)).

(** [db.Transaction(f)]: roll back on an error. *)
Definition transaction {A} (m : Tx A) (d : DB) : res A * DB :=
  match m (0%nat, d) with
  | (Ok a, (_, d')) =>
      match o_commit with
      | None => (Ok a, d')
      | Some true => (Err ErrStorage, d')
      | Some false => (Err ErrStorage, d)
      end
  | (Err e, _) => (Err e, d)
  end.

(** ** Statements the components share *)

Definition find_contract (tenantID id : string) : Tx (option contractRecord) :=
  query (λ d, match db_contracts d !! id with
              | Some c => if c_TenantID c =s tenantID then Some c else None
              | None => None
              end).
(** [Take]: no row is an error. *)
Definition take_row {A} (m : Tx (option A)) (missing : goerr) : Tx A :=
  r ← m; match r with Some a => mret a | None => throw missing end.
Definition take_contract (tenantID id : string) (missing : goerr) : Tx contractRecord :=
  take_row (find_contract tenantID id) missing.

(** [UPDATE con_contract ... WHERE tenant_id = ? AND id = ? AND ...]: the number
    of rows changed. *)
Definition update_contract (tenantID id : string) (where_ : contractRecord → bool)
    (f : contractRecord → contractRecord) : Tx Z :=
  exec (λ d, match db_contracts d !! id with
             | Some c => if (c_TenantID c =s tenantID) && where_ c
                         then Ok (1, set_contracts (<[id := f c]> (db_contracts d)) d)
                         else Ok (0, d)
             | None => Ok (0, d)
             end).

End Statements.

(** ** Hoare triples

    What holds after a transaction's body succeeds; a body that fails is rolled
    back. *)
Definition hoare {A} (P : DB → Prop) (m : Tx A) (Q : A → DB → Prop) : Prop :=
  ∀ t d a t' d', P d → m (t, d) = (Ok a, (t', d')) → Q a d'.

Lemma hoare_ret {A} (P : DB → Prop) (a : A) Q : (∀ d, P d → Q a d) → hoare P (mret a) Q.
Proof. intros HQ t d a' t' d' HP E. injection E as <- <- <-. auto. Qed.

Lemma hoare_throw {A} P e (Q : A → DB → Prop) : hoare P (throw e) Q.
Proof. intros t d a t' d' _ [=]. Qed.

Lemma hoare_bind {A B} P (m : Tx A) (f : A → Tx B) R Q :
  hoare P m R → (∀ a, hoare (R a) (f a) Q) → hoare P (m ≫= f) Q.
Proof.
  intros Hm Hf t d b t' d' HP E. unfold mbind, Tx_bind in E.
  destruct (m (t, d)) as [[a|e] [t1 d1]] eqn:Em; [|discriminate].
  eapply Hf; [|exact E]. by eapply Hm.
Qed.

Lemma hoare_lift {A} (P : DB → Prop) (r : res A) (Q : A → DB → Prop) :
  (∀ a d, r = Ok a → P d → Q a d) → hoare P (lift r) Q.
Proof. intros HQ t d a t' d' HP E. injection E as -> <- <-. auto. Qed.

Lemma hoare_weaken {A} (P P' : DB → Prop) (m : Tx A) (Q Q' : A → DB → Prop) :
  hoare P' m Q' → (∀ d, P d → P' d) → (∀ a d, Q' a d → Q a d) → hoare P m Q.
Proof. intros Hm HP HQ t d a t' d' H E. eapply HQ, Hm; eauto. Qed.

Lemma hoare_pre {A} (P P' : DB → Prop) (m : Tx A) Q :
  hoare P' m Q → (∀ d, P d → P' d) → hoare P m Q.
Proof. intros Hm HP. eapply hoare_weaken; eauto. Qed.

Lemma hoare_pure {A} (X : Prop) P (m : Tx A) Q :
  (X → hoare P m Q) → hoare (λ d, X ∧ P d) m Q.
Proof. intros Hm t d a t' d' [HX HP] E. by eapply Hm. Qed.

Section Triples.
Context `{Oracle}.

Lemma hoare_query {A} (P : DB → Prop) (f : DB → A) (Q : A → DB → Prop) :
  (∀ d, P d → Q (f d) d) → hoare P (query f) Q.
Proof.
  intros HQ t d a t' d' HP E. unfold query in E. destruct (o_fault t); [discriminate|].
  injection E as <- <- <-. auto.
Qed.

Lemma hoare_exec {A} (P : DB → Prop) (f : DB → res (A * DB)) (Q : A → DB → Prop) :
  (∀ d a d', P d → f d = Ok (a, d') → Q a d') → hoare P (exec f) Q.
Proof.
  intros HQ t d a t' d' HP E. unfold exec in E. destruct (o_fault t); [discriminate|].
  destruct (f d) as [[a1 d1]|e] eqn:Ef; [|discriminate]. injection E as <- <- <-. eauto.
Qed.

Lemma hoare_modify (P : DB → Prop) f Q : (∀ d, P d → Q tt (f d)) → hoare P (modify f) Q.
Proof. intros HQ. apply hoare_exec. intros d a d' HP [= <- <-]. auto. Qed.

Lemma hoare_now (P : DB → Prop) : hoare P time_now (λ _, P).
Proof. intros t d a t' d' HP E. by injection E as <- <- <-. Qed.
Lemma hoare_id (P : DB → Prop) : hoare P newID (λ _, P).
Proof. intros t d a t' d' HP E. by injection E as <- <- <-. Qed.

(** A transaction leaves the tables alone, or its body succeeded. *)
Lemma transaction_cases {A} (P : DB → Prop) (m : Tx A) Q d r d' :
  hoare P m Q → P d → transaction m d = (r, d') →
  (∃ e, r = Err e ∧ d' = d) ∨ (∃ a, Q a d' ∧ (r = Ok a ∨ r = Err ErrStorage)).
Proof.
  intros Hm HP E. unfold transaction in E.
  destruct (m (0%nat, d)) as [[a|e] [t1 d1]] eqn:Em; [|left; naive_solver].
  pose proof (Hm _ _ _ _ _ HP Em) as HQ.
  destruct o_commit as [[]|]; simplify_eq; [right|left|right]; eauto.
Qed.

(** A transaction preserves what its body preserves. *)
Lemma transaction_keeps {A} (I : DB → Prop) (m : Tx A) d r d' :
  hoare I m (λ _, I) → I d → transaction m d = (r, d') → I d'.
Proof.
  intros Hm HI E. destruct (transaction_cases I m _ d r d' Hm HI E) as [(e & _ & ->)|(a & ? & _)];
    done.
Qed.

End Triples.
