(* ===== verification/Outbound.v ===== *)
(** * infrastructure/mysql: what a change of a contract writes besides its row

    The audit and life cycle logs, the responsibility stream and its outbox,
    the payment plan, and the two outboxes of a contract that takes effect
    (repository.go, audit_outbox.go, contract_responsibility.go,
    payment_terms.go, project_delivery.go, local_outbound.go,
    import_origin.go).  Each is a statement sequence inside the transaction of
    its caller. *)

From stdpp Require Import sorting.
From S2P Require Import Prelude GoStrings Decimal GoTime Status PaymentTerm ProjectService.
From S2P Require Import ImportPolicy ApprovalRule Workflow Store.

#[local] Open Scope string_scope.
#[local] Open Scope Z_scope.
#[local] Open Scope list_scope.

(** ** Where a contract comes from *)

Definition CounterpartyLocal : string := "LOCAL".
Definition CategoryLocal : string := "LOCAL".
Definition IntegrationNotApplicable : string := "NOT_APPLICABLE".

Definition localOutboundNotApplicable (row : contractRecord) : res bool :=
  let party := c_party row in
  if negb ((c_CounterpartySource party =s CounterpartyLocal) ||
           (c_CategorySource party =s CategoryLocal)) then Ok false
  else if negb (c_IntegrationPolicy party =s IntegrationNotApplicable)
       then Err ErrContractSourceConflict
  else Ok true.

Definition ordinaryContractRecord (row : contractRecord) : bool :=
  let o := c_origin row in
  (empty_str (c_OriginKind o) || (c_OriginKind o =s "NORMAL")) &&
  (empty_str (c_ImportMode o) || (c_ImportMode o =s "NORMAL")) && json_empty (c_ImportPolicy o).

Definition responsibilityActive (row : contractRecord) : bool :=
  let o := c_origin row in
  let eligible :=
    ordinaryContractRecord row ||
    ((c_OriginKind o =s "IMPORTED") && (c_ImportMode o =s "CONTINUE_LIVE") &&
     bool_decide (c_ImportResponsibilityActivatedAt o ≠ None) &&
     match unmarshal (c_ImportPolicy o) with
     | Ok policy => is_ok (ValidateImportPolicy ImportContinueLive (Some policy)) &&
                    (ip_ResponsibilityMode policy =s "ACTIVATE_ON_RELEASE")
     | Err _ => false
     end) in
  eligible && negb (empty_str (c_OwnerUserID (c_owner row))) &&
  negb (c_Status row =s "terminated") && negb (c_Status row =s "archived").

(** [customerIDOf]. *)
Definition customerIDOf (crmCustomerID : option Z) : string :=
  match crmCustomerID with
  | None => ""
  | Some n => if n =? 0 then "" else Itoa n
  end.

(** ** Logs *)

(** The request an operation runs under ([auditctx.Meta]). *)
Record requestMeta : Type := mkMeta { rm_Audit : AuditMeta; rm_ActorID : string }.

(** The part of [StartApprovalActivityInput] that [insertLifecycle] reads. *)
Record lifecycleInput : Type := mkLifecycleInput {
  li_ApprovalID : string; li_TenantID : string; li_ContractID : string; li_WorkflowID : string
}.

(** Rows with a unique key. *)
Definition insert_unique {R} (same : R → R → bool) (r : R) (rows : list R) : res (list R) :=
  if existsb (same r) rows then Err ErrDuplicatedKey else Ok (rows ++ [r]).
Definition insert_ignore {R} (same : R → R → bool) (r : R) (rows : list R) : list R :=
  if existsb (same r) rows then rows else rows ++ [r].

Definition same_lifecycle (a b : lifecycleEventRecord) : bool :=
  l_IdempotencyKey a =s l_IdempotencyKey b.
Definition same_notification (a b : notificationOutboxRecord) : bool :=
  (no_TenantID a =s no_TenantID b) && (no_RecipientKey a =s no_RecipientKey b) &&
  (no_DedupeKey a =s no_DedupeKey b).
Definition same_delivery {P} (a b : deliveryOutboxRecord P) : bool :=
  (do_TenantID a =s do_TenantID b) && (do_ContractID a =s do_ContractID b) &&
  (do_ContractVersion a =? do_ContractVersion b).
Definition same_term (a b : paymentTermRow) : bool :=
  (pr_TenantID a =s pr_TenantID b) && (pr_ContractID a =s pr_ContractID b) &&
  (tr_InstallmentNo (pr_term a) =? tr_InstallmentNo (pr_term b)).

Section Outbound.
Context `{Oracle}.

Definition insertAuditOutbox (tenantID eventID : string) (entry : AuditOutboxEntry) : Tx unit :=
  now ← time_now;
  id ← newID;
  let ipSource := if empty_str (IPSource (ae_Meta entry)) then "UNKNOWN"
                  else IPSource (ae_Meta entry) in
  modify (λ d, set_audit (db_audit d ++
    [mkAuditRow id tenantID eventID (stringPtr (ae_ActorID entry)) (ae_Action entry)
       (ae_ResourceType entry) (ae_ResourceID entry) (stringPtr (RequestID (ae_Meta entry)))
       (LoginIP (ae_Meta entry)) (ClientIP (ae_Meta entry)) ipSource "SUCCESS"
       (ae_Payload entry) (queued now) now]) d).

Definition insert_lifecycle_row (ignore : bool) (r : lifecycleEventRecord) : Tx unit :=
  exec (λ d,
    if ignore then Ok (tt, set_lifecycle (insert_ignore same_lifecycle r (db_lifecycle d)) d)
    else rows ← insert_unique same_lifecycle r (db_lifecycle d); Ok (tt, set_lifecycle rows d)).

Definition insertLifecycle (meta : requestMeta) (inp : lifecycleInput) (from to : Status)
    (actor reason key : string) : Tx unit :=
  id ← newID;
  now ← time_now;
  insert_lifecycle_row true
    (mkLifecycle id (li_TenantID inp) (li_ContractID inp) from to (stringPtr actor)
       (stringPtr reason) (stringPtr (li_ApprovalID inp)) (stringPtr (li_WorkflowID inp)) key now);;
  event ← newID;
  insertAuditOutbox (li_TenantID inp) event
    (mkEntry actor "CONTRACT_MANAGEMENT:STATUS_CHANGE" "contract" (li_ContractID inp)
       (rm_Audit meta) (PStatusChange (li_ContractID inp) from to reason)).

(** ** The responsibility stream *)

Definition newResponsibilityPayload (eventID : string) (row : contractRecord) (version : Z)
    (now : Time) : responsibilityPayload :=
  mkResponsibility eventID "contract.responsibility_changed.v1" (c_TenantID row) now (c_ID row)
    version (c_OwnerUserID (c_owner row)) (responsibilityActive row).

Definition new_delivery {P} (id tenantID contractID : string) (version : Z) (payload : P)
    (next created : Time) : deliveryOutboxRecord P :=
  mkDelivery id tenantID contractID version (JsonOf payload) (queued next) created.

Definition enqueueContractResponsibility (tenantID contractID : string) : Tx unit :=
  row ← take_contract tenantID contractID ErrRecordNotFound;
  seeded ← time_now;
  let key := (tenantID, contractID) in
  modify (λ d, match db_streams d !! key with
               | Some _ => d
               | None => set_streams (<[key := mkStream "" false 0 seeded]> (db_streams d)) d
               end);;
  stream ← take_row (query (λ d, db_streams d !! key)) ErrRecordNotFound;
  let active := responsibilityActive row in
  let owner := c_OwnerUserID (c_owner row) in
  if (0 <? rs_Version stream) && (rs_OwnerUserID stream =s owner) &&
     Bool.eqb (rs_Active stream) active then mret tt
  else
    now ← time_now;
    let version := rs_Version stream + 1 in
    modify (λ d, set_streams (<[key := mkStream owner active version now]> (db_streams d)) d);;
    skip ← lift (localOutboundNotApplicable row);
    if (skip : bool) then mret tt
    else
      id ← newID;
      let record := new_delivery id tenantID contractID version
        (newResponsibilityPayload id row version now) now now in
      exec (λ d, rows ← insert_unique same_delivery record (db_responsibility d);
                 Ok (tt, set_responsibility rows d)).

(** ** The status of a contract *)

Definition contract_set_status (to : Status) (now : Time) (actor : string) (c : contractRecord)
    : contractRecord :=
  mkContract (c_ID c) (c_TenantID c) (c_ContractNumber c) (c_ContractNumberFormat c) (c_party c)
    (c_owner c) (c_terms c) (c_document c) (c_origin c) to (c_Version c + 1) (c_CreatedAt c)
    (c_CreatedBy c) now actor.

Definition updateStatus (tenantID contractID : string) (from to : Status) (actor : string)
    : Tx unit :=
  lift (ValidateTransition from to);;
  now ← time_now;
  rows ← update_contract tenantID contractID (λ c, c_Status c =s from)
           (contract_set_status to now actor);
  guard (negb (rows =? 1)) ErrStateConflict;;
  enqueueContractResponsibility tenantID contractID.

Definition is_running (tenantID contractID : string) (kinds : list string)
    (i : approvalInstanceRecord) : bool :=
  (ai_TenantID i =s tenantID) && (ai_ContractID i =s contractID) && contains kinds (ai_Kind i) &&
  (ai_Status i =s StatusRunning).
Definition count_approvals (p : approvalInstanceRecord → bool) (d : DB) : Z :=
  Z.of_nat (length (filter (λ i, p i = true) (map_to_list (db_approvals d)).*2)).
Definition countRunningApprovals (tenantID contractID : string) (kinds : list string) : Tx Z :=
  query (count_approvals (is_running tenantID contractID kinds)).

(** ** The payment plan *)

Definition of_contract (tenantID contractID : string) (r : paymentTermRow) : bool :=
  (pr_TenantID r =s tenantID) && (pr_ContractID r =s contractID).

(** [WHERE tenant_id = ? AND contract_id = ? ORDER BY installment_no ASC]. *)
Definition by_installment (a b : paymentTermRow) : Prop :=
  tr_InstallmentNo (pr_term a) ≤ tr_InstallmentNo (pr_term b).
#[export] Instance by_installment_dec : RelDecision by_installment.
Proof. intros a b. unfold by_installment. apply _. Defined.

Definition terms_of (tenantID contractID : string) (d : DB) : list paymentTermRow :=
  merge_sort by_installment (filter (λ r, of_contract tenantID contractID r = true) (db_payment d)).

Definition term_from_record (r : paymentTermRecord) : PaymentTerm :=
  mkTerm (tr_InstallmentNo r) (FormatDate (tr_DueDate r)) (formatAmountMinor (tr_AmountMinor r)).
Lemma term_from_record_text : term_from_record = term_text.
Proof. reflexivity. Qed.

Definition ListContractPaymentTerms (tenantID contractID : string) : Tx (list PaymentTerm) :=
  query (λ d, map (λ r, term_from_record (pr_term r)) (terms_of tenantID contractID d)).

Definition as_validation {A} (r : res A) : res A :=
  match r with Ok a => Ok a | Err _ => Err ErrValidation end.

Fixpoint insert_terms (rows new : list paymentTermRow) : res (list paymentTermRow) :=
  match new with
  | [] => Ok rows
  | r :: rest => rows' ← insert_unique same_term r rows; insert_terms rows' rest
  end.

Fixpoint term_rows (tenantID contractID : string) (now : Time) (records : list paymentTermRecord)
    : Tx (list paymentTermRow) :=
  match records with
  | [] => mret []
  | r :: rest =>
      id ← newID;
      rows ← term_rows tenantID contractID now rest;
      mret (mkTermRow id tenantID contractID r now now :: rows)
  end.

Definition replaceContractPaymentTerms `{GoUnicode} (tenantID contractID : string)
    (terms : list PaymentTerm) (amountMinor : Z) (currency : string) : Tx unit :=
  terms ← lift (as_validation (NormalizePaymentTerms terms amountMinor currency));
  modify (λ d, set_payment (filter (λ r, of_contract tenantID contractID r = false)
                              (db_payment d)) d);;
  if bool_decide (terms = []) then mret tt
  else
    records ← lift (as_validation (normalizePaymentTerms terms amountMinor));
    now ← time_now;
    rows ← term_rows tenantID contractID now records.1;
    exec (λ d, all ← insert_terms (db_payment d) rows; Ok (tt, set_payment all d)).

(** ** The financial event *)

Definition financialSkipNotOrdinary : string := "not_ordinary_contract".
Definition financialSkipMissingIdentity : string := "missing_contract_number_or_customer".
Definition financialSkipInvalidTerms : string := "invalid_currency_amount_or_version".
Definition financialSkipNoPaymentTerms : string := "payment_terms_missing".
Definition financialSkipTotalMismatch : string := "payment_terms_total_mismatch".

Definition terms_total (terms : list paymentTermRow) : Z :=
  fold_left (λ acc r, wrap_int64 (acc + tr_AmountMinor (pr_term r))) terms 0.

Definition financialEffectiveSkipReason (row : contractRecord) (terms : list paymentTermRow)
    : string :=
  let party := c_party row in
  if (c_IntegrationPolicy party =s IntegrationNotApplicable) &&
     ((c_CounterpartySource party =s CounterpartyLocal) ||
      (c_CategorySource party =s CategoryLocal)) then "local_source_not_applicable"
  else if negb (ordinaryContractRecord row) then financialSkipNotOrdinary
  else if empty_str (valueOrEmpty (c_ContractNumber row)) ||
          empty_str (customerIDOf (c_CRMCustomerID party)) ||
          empty_str (valueOrEmpty (c_CustomerName party)) then financialSkipMissingIdentity
  else if negb (slen (TrimSpace (c_Currency (c_terms row))) =? 3) ||
          (c_AmountMinor (c_terms row) <=? 0) || (c_Version row =? 0) then financialSkipInvalidTerms
  else if bool_decide (length terms = 0%nat) then financialSkipNoPaymentTerms
  else if negb (terms_total terms =? c_AmountMinor (c_terms row)) then financialSkipTotalMismatch
  else "".

(** The row, its plan, and whether an event may be produced. *)
Definition financialEffectiveEligible (tenantID contractID : string)
    : Tx (contractRecord * list paymentTermRow * bool) :=
  row ← take_contract tenantID contractID ErrRecordNotFound;
  skip ← lift (localOutboundNotApplicable row);
  if (skip : bool) then mret (row, [], false)
  else
    terms ← query (terms_of tenantID contractID);
    mret (row, terms, empty_str (financialEffectiveSkipReason row terms)).

Record financialEffectiveEnqueue : Type := mkEnqueue { Enqueued : bool; SkipReason : string }.

Definition newFinancialEffectivePayload `{GoUnicode} (eventID : string) (row : contractRecord)
    (terms : list paymentTermRow) (occurredAt : Time) : financialEffectivePayload :=
  mkFinancial eventID "contract.financial_effective.v1" (c_TenantID row)
    (of_unix (unix occurredAt)) (c_ID row) (wrap_int64 (c_Version row)) (c_ID row)
    (valueOrEmpty (c_ContractNumber row)) (wrap_int64 (c_Version row))
    (customerIDOf (c_CRMCustomerID (c_party row))) (valueOrEmpty (c_CustomerName (c_party row)))
    (c_OwnerUserID (c_owner row)) (valueOrEmpty (c_ProjectID (c_owner row)))
    (ToUpper (TrimSpace (c_Currency (c_terms row))))
    (formatAmountMinor (c_AmountMinor (c_terms row)))
    (map (λ r, term_from_record (pr_term r)) terms).

Definition enqueueFinancialEffective `{GoUnicode} (tenantID contractID : string)
    : Tx financialEffectiveEnqueue :=
  r ← financialEffectiveEligible tenantID contractID;
  let '(row, terms, eligible) := r in
  if negb eligible then mret (mkEnqueue false (financialEffectiveSkipReason row terms))
  else
    id ← newID;
    next ← time_now;
    created ← time_now;
    occurred ← time_now;
    let record := new_delivery id tenantID (c_ID row) (c_Version row)
      (newFinancialEffectivePayload id row terms occurred) next created in
    modify (λ d, set_financial (insert_ignore same_delivery record (db_financial d)) d);;
    mret (mkEnqueue true "").

(** ** The project event *)

Definition count_stamped (tenantID contractID : string) (d : DB) : Z :=
  Z.of_nat (length (filter (λ r, (sd_TenantID r =s tenantID) && (sd_ContractID r =s contractID)
                                  = true) (db_stamped d))).

Definition newProjectActivationPayload (row : contractRecord) (effectiveAt : Time) (stamped : bool)
    (services : list ProjectServiceItem) : projectActivationPayload :=
  mkActivation (c_ID row) (valueOrEmpty (c_ContractNumber row)) (Itoa (c_Version row))
    (c_Title (c_terms row))
    (firstProjectValue [valueOrEmpty (c_CustomerName (c_party row)); "未指定客户"])
    (customerIDOf (c_CRMCustomerID (c_party row))) effectiveAt stamped services.

Definition enqueueProjectActivation `{GoUnicode} (meta : requestMeta) (tenantID contractID : string)
    : Tx unit :=
  row ← take_contract tenantID contractID ErrRecordNotFound;
  skip ← lift (localOutboundNotApplicable row);
  if (skip : bool) then mret tt
  else if negb (ordinaryContractRecord row) then mret tt
  else
    items ← lift (unmarshal (c_ServiceItems (c_terms row)));
    let services := ProjectServiceItems contractID items in
    now0 ← time_now;
    let effectiveAt := match c_StartDate (c_terms row) with Some t => t | None => now0 end in
    stamped ← query (count_stamped tenantID contractID);
    now ← time_now;
    id ← newID;
    let record := new_delivery id tenantID (c_ID row) (c_Version row)
      (newProjectActivationPayload row effectiveAt (0 <? stamped) services) now now in
    modify (λ d, set_project (insert_ignore same_delivery record (db_project d)) d);;
    let actor := if empty_str (rm_ActorID meta) then "SYSTEM" else rm_ActorID meta in
    event ← newID;
    insertAuditOutbox tenantID event
      (mkEntry actor "CONTRACT_MANAGEMENT:HANDED_OFF_TO_PROJECT" "contract" (c_ID row)
         (rm_Audit meta)
         (PHandedOff (c_ID row) (c_Version row) (Z.of_nat (length services)))).

End Outbound.
