(* ===== verification/IntegrationOutbox.v ===== *)
(** * The outboxes as queues

    infrastructure/mysql: payment_terms.go, contract_responsibility.go,
    project_delivery.go, opportunity_link_outbox.go and notification_delivery.go
    repeat the same statements on five tables: a worker claims due rows and
    leases them for five minutes, and marks each delivered or failed.  [Queue] is
    what a table offers to these statements. *)

From stdpp Require Import sorting.
From S2P Require Import Prelude GoStrings GoTime NumberRule PaymentTerm ProjectService.
From S2P Require Import ImportPolicy ApprovalRule Utf8 Workflow Store.
From S2P Require Import Outbound.

#[local] Open Scope string_scope.
#[local] Open Scope Z_scope.
#[local] Open Scope list_scope.

Class Queue (R P : Type) := {
  q_ID : R → string;
  q_TenantID : R → string;
  q_Payload : R → P;
  q_Delivery : R → deliveryColumns;
  q_CreatedAt : R → Time;
  q_with : deliveryColumns → R → R;
  q_rows : DB → list R;
  q_set : list R → DB → DB
}.
Class QueueLaws (R P : Type) `{Queue R P} : Prop := {
  q_ID_with c r : q_ID (q_with c r) = q_ID r;
  q_TenantID_with c r : q_TenantID (q_with c r) = q_TenantID r;
  q_Payload_with c r : q_Payload (q_with c r) = q_Payload r;
  q_CreatedAt_with c r : q_CreatedAt (q_with c r) = q_CreatedAt r;
  q_Delivery_with c r : q_Delivery (q_with c r) = c;
  q_with_id r : q_with (q_Delivery r) r = r;
  q_with_with c c' r : q_with c (q_with c' r) = q_with c r;
  q_rows_set l d : q_rows (q_set l d) = l;
  q_set_rows d : q_set (q_rows d) d = d;
  q_set_set l l' d : q_set l (q_set l' d) = q_set l d
}.

(** What a worker takes along. *)
Record Delivery (P : Type) : Type := mkDelivered {
  dl_ID : string; dl_TenantID : string; dl_Payload : P; dl_Attempts : Z
}.
Arguments mkDelivered {_} _ _ _ _.
Arguments dl_ID {_} _.
Arguments dl_TenantID {_} _.
Arguments dl_Payload {_} _.
Arguments dl_Attempts {_} _.

Definition lease : Duration := 5 * Minute.

(** [(delivery_status = 'pending' AND next_attempt_at <= now) OR
     (delivery_status = 'processing' AND locked_at < now - 5 minutes)]. *)
Definition due (now : Time) (c : deliveryColumns) : bool :=
  ((dv_DeliveryStatus c =s "pending") && (dv_NextAttemptAt c <=? now)) ||
  ((dv_DeliveryStatus c =s "processing") &&
   match dv_LockedAt c with Some t => t <? now - lease | None => false end).

Definition columns_locked (attempts : Z) (now : Time) (c : deliveryColumns) : deliveryColumns :=
  mkColumns "processing" attempts (dv_NextAttemptAt c) (Some now) (dv_DeliveredAt c)
    (dv_LastError c).
Definition columns_delivered (now : Time) (c : deliveryColumns) : deliveryColumns :=
  mkColumns "delivered" (dv_Attempts c) (dv_NextAttemptAt c) None (Some now) None.
Definition columns_failed (status message : string) (next : Time) (c : deliveryColumns)
    : deliveryColumns :=
  mkColumns status (dv_Attempts c) next None (dv_DeliveredAt c) (Some message).
Definition processing (c : deliveryColumns) : bool := dv_DeliveryStatus c =s "processing".

Definition boundedDeliveryClaimLimit (limit : Z) : Z :=
  if (limit <=? 0) || (200 <? limit) then 100 else limit.

(** [for count := uint(1); count < attempts && delay < 10*time.Minute; count++
    { delay *= 2 }]: ten rounds pass ten minutes. *)
Fixpoint delay_loop (fuel : nat) (count attempts : Z) (delay : Duration) : Duration :=
  match fuel with
  | O => delay
  | S fuel =>
      if (count <? attempts) && (delay <? 10 * Minute)
      then delay_loop fuel (count + 1) attempts (wrap_int64 (delay * 2)) else delay
  end.
Definition failure_delay (attempts : Z) : Duration :=
  let delay := delay_loop 10 1 attempts Second in
  if 10 * Minute <? delay then 10 * Minute else delay.

Section Queue.
Context {R P : Type} `{Queue R P}.

(** [ORDER BY next_attempt_at ASC, created_at ASC]. *)
Definition queue_le (a b : R) : Prop :=
  dv_NextAttemptAt (q_Delivery a) < dv_NextAttemptAt (q_Delivery b) ∨
  (dv_NextAttemptAt (q_Delivery a) = dv_NextAttemptAt (q_Delivery b) ∧
   q_CreatedAt a ≤ q_CreatedAt b).
#[export] Instance queue_le_dec : RelDecision queue_le.
Proof. intros a b. unfold queue_le. apply _. Defined.

(** The rows a claim selects; [locked] are those another transaction holds
    (SKIP LOCKED).  The database may order equal keys otherwise. *)
Definition claimable (locked : string → bool) (now : Time) (limit : Z) (rows : list R) : list R :=
  take (Z.to_nat limit)
    (filter (λ r, due now (q_Delivery r) && negb (locked (q_ID r)) = true)
       (merge_sort queue_le rows)).

Context `{Oracle}.

Definition update_queue (id : string) (where_ : deliveryColumns → bool)
    (f : deliveryColumns → deliveryColumns) : Tx Z :=
  exec (λ d,
    let hit r := (q_ID r =s id) && where_ (q_Delivery r) in
    Ok (Z.of_nat (length (filter (λ r, hit r = true) (q_rows d))),
        q_set (map (λ r, if hit r then q_with (f (q_Delivery r)) r else r) (q_rows d)) d)).

Fixpoint claim_each (now : Time) (rows : list R) : Tx (list (Delivery P)) :=
  match rows with
  | [] => mret []
  | r :: rest =>
      let attempts := dv_Attempts (q_Delivery r) + 1 in
      update_queue (q_ID r) (λ _, true) (columns_locked attempts now);;
      others ← claim_each now rest;
      mret (mkDelivered (q_ID r) (q_TenantID r) (q_Payload r) attempts :: others)
  end.
Definition claim_body (locked : string → bool) (limit : Z) : Tx (list (Delivery P)) :=
  now ← time_now;
  rows ← query (λ d, claimable locked now limit (q_rows d));
  claim_each now rows.

(** The first due row, for the queues that are claimed one by one. *)
Definition claim_one (locked : string → bool) : Tx (option (Delivery P)) :=
  now ← time_now;
  row ← query (λ d, head (claimable locked now 1 (q_rows d)));
  match row with
  | None => mret None
  | Some r =>
      let attempts := dv_Attempts (q_Delivery r) + 1 in
      update_queue (q_ID r) (λ _, true) (columns_locked attempts now);;
      mret (Some (mkDelivered (q_ID r) (q_TenantID r) (q_Payload r) attempts))
  end.

(** One statement; when it changes no row there is nothing to roll back. *)
Definition mark_delivered (missing : goerr) (id : string) : Tx unit :=
  now ← time_now;
  n ← update_queue id processing (columns_delivered now);
  guard (negb (n =? 1)) missing.
Definition mark_failed (id message : string) (attempts : Z) (dead : bool) : Tx unit :=
  now ← time_now;
  let status := if dead then "dead" else "pending" in
  update_queue id processing
    (columns_failed status (cut_bytes 1000 message) (now + failure_delay attempts));;
  mret tt.

End Queue.

(** * infrastructure/mysql: the integration outboxes

    The five instances of [Queue], the operations of payment_terms.go,
    contract_responsibility.go, project_delivery.go, opportunity_link_outbox.go
    and notification_delivery.go on them, and the dead letters of
    integration_outbox.go (infrastructure/mysql and application). *)

(** ** The queues *)

Definition delivery_with {P} (c : deliveryColumns) (r : deliveryOutboxRecord P)
    : deliveryOutboxRecord P :=
  mkDelivery (do_ID r) (do_TenantID r) (do_ContractID r) (do_ContractVersion r) (do_Payload r) c
    (do_CreatedAt r).

#[export] Instance financial_queue
    : Queue (deliveryOutboxRecord financialEffectivePayload) (json financialEffectivePayload) :=
  {| q_ID := do_ID; q_TenantID := do_TenantID; q_Payload := do_Payload; q_Delivery := do_Delivery;
     q_CreatedAt := do_CreatedAt; q_with := delivery_with; q_rows := db_financial;
     q_set := set_financial |}.
#[export] Instance responsibility_queue
    : Queue (deliveryOutboxRecord responsibilityPayload) (json responsibilityPayload) :=
  {| q_ID := do_ID; q_TenantID := do_TenantID; q_Payload := do_Payload; q_Delivery := do_Delivery;
     q_CreatedAt := do_CreatedAt; q_with := delivery_with; q_rows := db_responsibility;
     q_set := set_responsibility |}.
#[export] Instance project_queue
    : Queue (deliveryOutboxRecord projectActivationPayload) (json projectActivationPayload) :=
  {| q_ID := do_ID; q_TenantID := do_TenantID; q_Payload := do_Payload; q_Delivery := do_Delivery;
     q_CreatedAt := do_CreatedAt; q_with := delivery_with; q_rows := db_project;
     q_set := set_project |}.
#[export] Instance link_queue
    : Queue opportunityLinkOutboxRecord (json OpportunityLinkCallback) :=
  {| q_ID := lo_ID; q_TenantID := lo_TenantID; q_Payload := lo_Payload; q_Delivery := lo_Delivery;
     q_CreatedAt := lo_CreatedAt;
     q_with := λ c r, mkLink (lo_ID r) (lo_TenantID r) (lo_IntakeID r) (lo_EventID r)
                        (lo_Payload r) c (lo_CreatedAt r);
     q_rows := db_links; q_set := set_links |}.

(** [notification.Delivery], less the columns of every delivery. *)
Record notificationContent : Type := mkNotificationContent {
  nd_RecipientKey : string; nd_RecipientUserID : option string;
  nd_RecipientRoleCode : option string; nd_NotificationType : string; nd_Title : string;
  nd_Content : string; nd_ContractID : option string; nd_ApprovalID : option string;
  nd_DedupeKey : string; nd_CreatedAt : Time
}.
#[export] Instance notification_queue : Queue notificationOutboxRecord notificationContent :=
  {| q_ID := no_ID; q_TenantID := no_TenantID;
     q_Payload := λ r, mkNotificationContent (no_RecipientKey r) (no_RecipientUserID r)
                         (no_RecipientRoleCode r) (no_NotificationType r) (no_Title r)
                         (no_Content r) (no_ContractID r) (no_ApprovalID r) (no_DedupeKey r)
                         (no_CreatedAt r);
     q_Delivery := no_Delivery; q_CreatedAt := no_CreatedAt;
     q_with := λ c r, mkNotification (no_ID r) (no_TenantID r) (no_RecipientKey r)
                        (no_RecipientUserID r) (no_RecipientRoleCode r) (no_NotificationType r)
                        (no_Title r) (no_Content r) (no_ContractID r) (no_ApprovalID r)
                        (no_DedupeKey r) c (no_CreatedAt r);
     q_rows := db_notifications; q_set := set_notifications |}.

Ltac queue_laws := split; intros; try reflexivity; 
  by match goal with r : _ |- _ => destruct r end.

#[export] Instance financial_queue_laws :
  QueueLaws (deliveryOutboxRecord financialEffectivePayload) (json financialEffectivePayload).
Proof. queue_laws. Qed.
#[export] Instance responsibility_queue_laws :
  QueueLaws (deliveryOutboxRecord responsibilityPayload) (json responsibilityPayload).
Proof. queue_laws. Qed.
#[export] Instance project_queue_laws :
  QueueLaws (deliveryOutboxRecord projectActivationPayload) (json projectActivationPayload).
Proof. queue_laws. Qed.
#[export] Instance link_queue_laws :
  QueueLaws opportunityLinkOutboxRecord (json OpportunityLinkCallback).
Proof. queue_laws. Qed.
#[export] Instance notification_queue_laws :
  QueueLaws notificationOutboxRecord notificationContent.
Proof. queue_laws. Qed.

(** ** Claiming and marking *)

Section Operations.
Context `{Oracle}.
Variable locked : string → bool.

Definition ClaimFinancialEffectiveDeliveries (limit : Z)
    : DB → res (list (Delivery (json financialEffectivePayload))) * DB :=
  transaction (claim_body (R := deliveryOutboxRecord financialEffectivePayload) locked
                 (boundedDeliveryClaimLimit limit)).
Definition ClaimFinancialEffectiveDelivery (d : DB)
    : res (option (Delivery (json financialEffectivePayload))) * DB :=
  let '(r, d') := ClaimFinancialEffectiveDeliveries 1 d in
  (match r with Ok deliveries => Ok (head deliveries) | Err e => Err e end, d').
Definition MarkFinancialEffectiveDelivered (id : string) : DB → res unit * DB :=
  transaction (mark_delivered (R := deliveryOutboxRecord financialEffectivePayload) ErrNotFound id).
Definition MarkFinancialEffectiveFailed (id message : string) (attempts : Z) (dead : bool)
    : DB → res unit * DB :=
  transaction (mark_failed (R := deliveryOutboxRecord financialEffectivePayload) id message
                 attempts dead).

Definition ClaimContractResponsibilityDeliveries (limit : Z)
    : DB → res (list (Delivery (json responsibilityPayload))) * DB :=
  transaction (claim_body (R := deliveryOutboxRecord responsibilityPayload) locked
                 (boundedDeliveryClaimLimit limit)).
Definition ClaimContractResponsibilityDelivery (d : DB)
    : res (option (Delivery (json responsibilityPayload))) * DB :=
  let '(r, d') := ClaimContractResponsibilityDeliveries 1 d in
  (match r with Ok deliveries => Ok (head deliveries) | Err e => Err e end, d').
Definition MarkContractResponsibilityDelivered (id : string) : DB → res unit * DB :=
  transaction (mark_delivered (R := deliveryOutboxRecord responsibilityPayload)
                 ErrRecordNotFound id).
Definition MarkContractResponsibilityFailed (id message : string) (attempts : Z) (dead : bool)
    : DB → res unit * DB :=
  transaction (mark_failed (R := deliveryOutboxRecord responsibilityPayload) id message
                 attempts dead).

Definition ClaimProjectDelivery : DB → res (option (Delivery (json projectActivationPayload))) * DB :=
  transaction (claim_one (R := deliveryOutboxRecord projectActivationPayload) locked).
Definition MarkProjectDeliveryDelivered (id : string) : DB → res unit * DB :=
  transaction (mark_delivered (R := deliveryOutboxRecord projectActivationPayload) ErrNotFound id).
Definition MarkProjectDeliveryFailed (id message : string) (attempts : Z) (dead : bool)
    : DB → res unit * DB :=
  transaction (mark_failed (R := deliveryOutboxRecord projectActivationPayload) id message
                 attempts dead).

Definition ClaimOpportunityLink : DB → res (option (Delivery (json OpportunityLinkCallback))) * DB :=
  transaction (claim_one (R := opportunityLinkOutboxRecord) locked).
Definition MarkOpportunityLinkDelivered (id : string) : DB → res unit * DB :=
  transaction (mark_delivered (R := opportunityLinkOutboxRecord) ErrNotFound id).
Definition MarkOpportunityLinkFailed (id message : string) (attempts : Z) (dead : bool)
    : DB → res unit * DB :=
  transaction (mark_failed (R := opportunityLinkOutboxRecord) id message attempts dead).

Definition ClaimNotificationDelivery : DB → res (option (Delivery notificationContent)) * DB :=
  transaction (claim_one (R := notificationOutboxRecord) locked).
Definition MarkNotificationDelivered (id : string) : DB → res unit * DB :=
  transaction (mark_delivered (R := notificationOutboxRecord) ErrNotFound id).
Definition MarkNotificationFailed (id message : string) (attempts : Z) (dead : bool)
    : DB → res unit * DB :=
  transaction (mark_failed (R := notificationOutboxRecord) id message attempts dead).

End Operations.

(** ** Dead letters *)

Definition IntegrationOutboxFinancial : string := "financial".
Definition IntegrationOutboxResponsibility : string := "responsibility".
Definition IntegrationOutboxProject : string := "project".
Definition IntegrationOutboxLink : string := "link".
Definition IntegrationOutboxKinds : list string :=
  [IntegrationOutboxFinancial; IntegrationOutboxResponsibility; IntegrationOutboxProject;
   IntegrationOutboxLink].
Definition ValidIntegrationOutboxKind (kind : string) : bool :=
  existsb (λ candidate, kind =s candidate) IntegrationOutboxKinds.

Definition integrationOutboxEvent (kind : string) : string :=
  if kind =s IntegrationOutboxFinancial then "contract.financial_effective.v1"
  else if kind =s IntegrationOutboxResponsibility then "contract.responsibility_changed.v1"
  else if kind =s IntegrationOutboxProject then "contract.activation"
  else if kind =s IntegrationOutboxLink then "crm.opportunity_contract_link"
  else "".

(** The table of a kind; an unknown kind has none. *)
Definition integrationOutboxModel {A} (kind : string)
    (f : ∀ R P, Queue R P → (R → string) → A) : option A :=
  if kind =s IntegrationOutboxFinancial then Some (f _ _ financial_queue do_ContractID)
  else if kind =s IntegrationOutboxResponsibility then
    Some (f _ _ responsibility_queue do_ContractID)
  else if kind =s IntegrationOutboxProject then Some (f _ _ project_queue do_ContractID)
  else if kind =s IntegrationOutboxLink then Some (f _ _ link_queue lo_IntakeID)
  else None.

Record FailedIntegrationEvent : Type := mkFailedEvent {
  fe_ID : string; fe_Kind : string; fe_AggregateID : string; fe_Event : string;
  fe_Attempts : Z; fe_LastError : string; fe_CreatedAt : Time; fe_UpdatedAt : Time
}.

Definition failed_event {R P} (kind : string) (Q : Queue R P) (aggregate : R → string) (r : R)
    : FailedIntegrationEvent :=
  let c := q_Delivery r in
  let updatedAt := match dv_LockedAt c with
                   | Some t => if q_CreatedAt r <? t then t else q_CreatedAt r
                   | None => q_CreatedAt r
                   end in
  mkFailedEvent (q_ID r) kind (aggregate r) (integrationOutboxEvent kind) (dv_Attempts c)
    (valueOrEmpty (dv_LastError c)) (q_CreatedAt r) updatedAt.

Definition is_dead {R P} (Q : Queue R P) (tenantID : string) (r : R) : bool :=
  (q_TenantID r =s tenantID) && (dv_DeliveryStatus (q_Delivery r) =s "dead").

(** [ORDER BY created_at DESC]. *)
Definition newer_first {R P} (Q : Queue R P) (a b : R) : Prop := q_CreatedAt b ≤ q_CreatedAt a.
#[export] Instance newer_first_dec {R P} (Q : Queue R P) : RelDecision (newer_first Q).
Proof. intros a b. unfold newer_first. apply _. Defined.

(** The columns of a dead letter that is tried again. *)
Definition columns_retry (now : Time) (c : deliveryColumns) : deliveryColumns :=
  mkColumns "pending" 0 now None (dv_DeliveredAt c) None.

Section DeadLetters.
Context `{Oracle}.

Definition ListFailedIntegrationEvents (tenantID kind : string) (limit : Z)
    : Tx (list FailedIntegrationEvent) :=
  let limit := if (limit <=? 0) || (200 <? limit) then 100 else limit in
  match integrationOutboxModel kind (λ R P Q aggregate,
      query (λ d, map (failed_event kind Q aggregate)
        (take (Z.to_nat limit) (merge_sort (newer_first Q)
           (filter (λ r, is_dead Q tenantID r = true) (q_rows d)))))) with
  | Some m => m
  | None => throw ErrValidation
  end.

Definition retry_body {R P} (Q : Queue R P) (meta : requestMeta) (tenantID kind id actorID : string) : Tx bool :=
  prior ← query (λ d, head (filter (λ r, is_dead Q tenantID r && (q_ID r =s id) = true) (q_rows d)));
  match prior with
  | None => mret false
  | Some r =>
      now ← time_now;
      n ← exec (λ d,
        let hit r := is_dead Q tenantID r && (q_ID r =s id) in
        Ok (Z.of_nat (length (filter (λ r, hit r = true) (q_rows d))),
            q_set (map (λ r, if hit r then q_with (columns_retry now (q_Delivery r)) r else r)
                     (q_rows d)) d));
      if negb (n =? 1) then mret false
      else
        let actor := TrimSpace actorID in
        let actor := if empty_str actor then rm_ActorID meta else actor in
        let actor := if empty_str actor then "SYSTEM" else actor in
        event ← newID;
        insertAuditOutbox tenantID event
          (mkEntry actor "CONTRACT_MANAGEMENT:INTEGRATION_OUTBOX_RETRY" "integration_outbox" id
             (rm_Audit meta)
             (PRetry kind id (integrationOutboxEvent kind) (dv_Attempts (q_Delivery r))
                (valueOrEmpty (dv_LastError (q_Delivery r)))));;
        mret true
  end.

Definition RetryFailedIntegrationEvent (meta : requestMeta) (tenantID kind id actorID : string)
    (d : DB) : res bool * DB :=
  match integrationOutboxModel kind (λ R P Q _, retry_body Q meta tenantID kind id actorID) with
  | Some m => transaction m d
  | None => (Err ErrValidation, d)
  end.

Fixpoint count_dead (kinds : list string) : Tx (list (string * Z)) :=
  match kinds with
  | [] => mret []
  | kind :: rest =>
      match integrationOutboxModel kind (λ R P Q _,
          query (λ d, Z.of_nat (length (filter
            (λ r, (dv_DeliveryStatus (q_Delivery r) =s "dead") = true) (q_rows d))))) with
      | None => throw ErrValidation
      | Some m => n ← m; others ← count_dead rest; mret ((kind, n) :: others)
      end
  end.
Definition CountDeadIntegrationOutboxEvents : Tx (list (string * Z)) :=
  count_dead IntegrationOutboxKinds.

End DeadLetters.

(** application/integration_outbox.go: the operator's side. *)
Definition retry_request (manager : bool) (tenantID kind id : string) : res (string * string) :=
  fail_if (negb manager) ErrForbidden;;
  let kind := TrimSpace kind in
  let id := TrimSpace id in
  fail_if (negb (ValidIntegrationOutboxKind kind) || empty_str id || (64 <? slen id)) ErrValidation;;
  fail_if (empty_str (TrimSpace tenantID)) ErrForbidden;;
  Ok (kind, id).
