(* ===== verification/Dispatch.v ===== *)
(** * integration/settlement, project, crm and notification: the dispatchers

    Each worker claims from its outbox, sends over HTTP, and marks the row.  The
    remote system, the token source and the licence gate are the [attempt] a
    delivery meets; a cancelled context is the flag [at_Cancelled].  Writing the
    mark does not depend on the cancellation (lifecycle.PersistContext). *)

From S2P Require Import Prelude GoStrings GoTime NumberRule PaymentTerm ProjectService.
From S2P Require Import ImportPolicy ApprovalRule Utf8 Workflow Store Outbound IntegrationOutbox.

#[local] Open Scope string_scope.
#[local] Open Scope Z_scope.
#[local] Open Scope list_scope.

(** What a delivery meets: can the request be built, is a token there, does the
    licence allow it, and what does the receiver answer (a status, or no
    answer). *)
Record attempt : Type := mkAttempt {
  at_Oracle : Oracle; at_Cancelled : bool; at_Request : bool; at_Token : bool;
  at_License : bool; at_Answer : option Z; at_Message : string
}.

(** How an attempt ends. *)
Inductive verdict : Type :=
  | Accepted
  | Refused (message : string) (permanent : bool)
  | Unlicensed.

Definition success (status : Z) : bool := (200 <=? status) && (status <? 300).

Definition StatusRequestTimeout : Z := 408.
Definition StatusTooManyRequests : Z := 429.
Definition permanentDeliveryFailure (status : Z) : bool :=
  if (status <? 400) || (500 <=? status) then false
  else negb (status =? StatusRequestTimeout) && negb (status =? StatusTooManyRequests).

(** The request of settlement.deliver and project.dispatchOne; [permanent] tells
    the answers that are not worth another attempt. *)
Definition send (permanent : Z → bool) (a : attempt) : verdict :=
  if negb (at_Request a) || negb (at_Token a) then Refused (at_Message a) false
  else if negb (at_License a) then Unlicensed
  else match at_Answer a with
       | None => Refused (at_Message a) false
       | Some status => if success status then Accepted
                        else Refused (at_Message a) (permanent status)
       end.

Definition settlementEndpoint (eventType : string) : string :=
  if eventType =s "contract.responsibility_changed.v1"
  then "/internal/v1/settlement/events/contract-responsibility"
  else "/internal/v1/settlement/events/contracts".

(** The end of a delivery: [delivered] and [failed] write the mark.  A refusal
    returns its error after the mark; a licence that is denied leaves the row to
    the lease. *)
Definition settle {P} (delivered : string → DB → res unit * DB)
    (failed : string → string → Z → bool → DB → res unit * DB) (maxAttempts : Z)
    (delivery : Delivery P) (v : verdict) (d : DB) : res unit * DB :=
  match v with
  | Accepted => delivered (dl_ID delivery) d
  | Unlicensed => (Err ErrForbidden, d)
  | Refused message permanent =>
      let dead := permanent || (maxAttempts <=? dl_Attempts delivery) in
      let '(_, d') := failed (dl_ID delivery) message (dl_Attempts delivery) dead d in
      (Err ErrOther, d')
  end.

(** ** integration/settlement/client.go *)

Definition defaultDeliveryBatchSize : Z := 25.
Definition maxDeliveryBatchSize : Z := 200.
Definition batchSize (size : Z) : Z :=
  if size <=? 0 then defaultDeliveryBatchSize
  else if maxDeliveryBatchSize <? size then maxDeliveryBatchSize else size.

Definition deliver_financial (maxAttempts : Z) (a : attempt)
    (delivery : Delivery (json financialEffectivePayload)) : DB → res unit * DB :=
  settle (@MarkFinancialEffectiveDelivered (at_Oracle a))
    (@MarkFinancialEffectiveFailed (at_Oracle a)) maxAttempts delivery
    (send permanentDeliveryFailure a).
Definition deliver_responsibility (maxAttempts : Z) (a : attempt)
    (delivery : Delivery (json responsibilityPayload)) : DB → res unit * DB :=
  settle (@MarkContractResponsibilityDelivered (at_Oracle a))
    (@MarkContractResponsibilityFailed (at_Oracle a)) maxAttempts delivery
    (send permanentDeliveryFailure a).

(** One delivery after the other; the first error is reported. *)
Fixpoint deliverAll {P} (deliver : attempt → Delivery P → DB → res unit * DB)
    (attempts : nat → attempt) (deliveries : list (Delivery P)) (d : DB) : res unit * DB :=
  match deliveries with
  | [] => (Ok tt, d)
  | delivery :: rest =>
      if at_Cancelled (attempts O) then (Ok tt, d)
      else
        let '(r, d1) := deliver (attempts O) delivery d in
        let '(r', d2) := deliverAll deliver (λ n, attempts (S n)) rest d1 in
        (match r with Ok _ => r' | Err e => Err e end, d2)
  end.

(** The world of one round: the licence, the claim, the deliveries. *)
Record round : Type := mkRound {
  ro_License : bool; ro_Oracle : Oracle; ro_Locked : string → bool; ro_Attempt : nat → attempt
}.

Definition dispatchFinancial (maxAttempts limit : Z) (w : round) (d : DB) : res unit * DB :=
  if negb (ro_License w) then (Err ErrForbidden, d)
  else match @ClaimFinancialEffectiveDeliveries (ro_Oracle w) (ro_Locked w) limit d with
       | (Err e, d1) => (Err e, d1)
       | (Ok deliveries, d1) =>
           deliverAll (deliver_financial maxAttempts) (ro_Attempt w) deliveries d1
       end.
Definition dispatchResponsibilities (maxAttempts limit : Z) (w : round) (d : DB)
    : res unit * DB :=
  if negb (ro_License w) then (Err ErrForbidden, d)
  else match @ClaimContractResponsibilityDeliveries (ro_Oracle w) (ro_Locked w) limit d with
       | (Err e, d1) => (Err e, d1)
       | (Ok deliveries, d1) =>
           deliverAll (deliver_responsibility maxAttempts) (ro_Attempt w) deliveries d1
       end.
Definition dispatch (maxAttempts limit : Z) (cancelled : bool) (w1 w2 : round) (d : DB)
    : res unit * DB :=
  let '(r1, d1) := dispatchResponsibilities maxAttempts limit w1 d in
  if cancelled then (r1, d1)
  else
    let '(r2, d2) := dispatchFinancial maxAttempts limit w2 d1 in
    (match r1 with Ok _ => r2 | Err e => Err e end, d2).

(** ** integration/project/client.go and integration/crm/link.go *)

Definition dispatch_single {P} (claim : DB → res (option (Delivery P)) * DB)
    (deliver : attempt → Delivery P → DB → res unit * DB) (a : attempt) (d : DB)
    : res unit * DB :=
  match claim d with
  | (Err e, d1) => (Err e, d1)
  | (Ok None, d1) => (Ok tt, d1)
  | (Ok (Some delivery), d1) => deliver a delivery d1
  end.

Definition deliver_project (maxAttempts : Z) (a : attempt)
    (delivery : Delivery (json projectActivationPayload)) : DB → res unit * DB :=
  settle (@MarkProjectDeliveryDelivered (at_Oracle a)) (@MarkProjectDeliveryFailed (at_Oracle a))
    maxAttempts delivery (send (λ _, false) a).
Definition dispatch_project (maxAttempts : Z) (w : round) (d : DB) : res unit * DB :=
  if negb (ro_License w) then (Err ErrForbidden, d)
  else dispatch_single (@ClaimProjectDelivery (ro_Oracle w) (ro_Locked w))
         (deliver_project maxAttempts) (ro_Attempt w O) d.

Definition deliver_link (maxAttempts : Z) (a : attempt)
    (delivery : Delivery (json OpportunityLinkCallback)) : DB → res unit * DB :=
  settle (@MarkOpportunityLinkDelivered (at_Oracle a)) (@MarkOpportunityLinkFailed (at_Oracle a))
    maxAttempts delivery (send (λ _, false) a).
Definition dispatch_link (maxAttempts : Z) (w : round) (d : DB) : res unit * DB :=
  if negb (ro_License w) then (Err ErrForbidden, d)
  else dispatch_single (@ClaimOpportunityLink (ro_Oracle w) (ro_Locked w))
         (deliver_link maxAttempts) (ro_Attempt w O) d.

(** ** integration/notification/dispatcher.go *)

(** The directory: the users of a role, or a failure; [None] when no resolver is
    configured. *)
Definition resolver : Type := option (string → string → res (list string)).

Definition resolveRecipients (resolve : resolver) (delivery : Delivery notificationContent)
    : res (list string) :=
  let role := valueOrEmpty (nd_RecipientRoleCode (dl_Payload delivery)) in
  let user := valueOrEmpty (nd_RecipientUserID (dl_Payload delivery)) in
  if negb (empty_str (TrimSpace role)) then
    match resolve with
    | None => Err ErrOther
    | Some f => f (dl_TenantID delivery) role
    end
  else if negb (empty_str (TrimSpace user)) then Ok [user]
  else Ok [].

Definition priorityFor (notificationType : string) : string :=
  if (notificationType =s "signing_pending") || (notificationType =s "expired")
  then "HIGH" else "NORMAL".
Definition targetURLFor (c : notificationContent) : string :=
  let contract := valueOrEmpty (nd_ContractID c) in
  let approval := valueOrEmpty (nd_ApprovalID c) in
  if negb (empty_str contract) then "/contract_management/contracts/" +:+ contract
  else if negb (empty_str approval) then "/contract_management/approvals/" +:+ approval
  else "".
Definition referenceTypeFor (c : notificationContent) : string :=
  if negb (empty_str (valueOrEmpty (nd_ContractID c))) then "CONTRACT"
  else if negb (empty_str (valueOrEmpty (nd_ApprovalID c))) then "APPROVAL"
  else "".
Definition referenceIDFor (c : notificationContent) : string :=
  let contract := valueOrEmpty (nd_ContractID c) in
  if negb (empty_str contract) then contract else valueOrEmpty (nd_ApprovalID c).
