(* ===== verification/Handover.v ===== *)
(** * application/handover.go and infrastructure/mysql/handover.go

    The machine protocol by which a leaving user's responsibilities are frozen,
    listed, transferred one by one with idempotent receipts, and released. *)

From stdpp Require Import sorting.
From S2P Require Import Prelude GoStrings GoTime NumberRule PaymentTerm ProjectService.
From S2P Require Import ImportPolicy ApprovalRule Workflow Store Outbound.

#[local] Open Scope string_scope.
#[local] Open Scope Z_scope.
#[local] Open Scope list_scope.

Definition HandoverReceiptApplied : string := "APPLIED".
Definition HandoverReceiptRejected : string := "REJECTED".
Definition HandoverReceiptRetryable : string := "RETRYABLE".
Definition HandoverFreezeFrozen : string := "FROZEN".
Definition HandoverFreezeReleased : string := "RELEASED".
Definition HandoverCategoryContractOwner : string := "CONTRACT_OWNER".
Definition HandoverCategoryApprovalAssignee : string := "APPROVAL_ASSIGNEE".
Definition HandoverResourceApprovalTask : string := "approval_task".
Definition handoverClosedContractStatuses : list string := ["archived"; "terminated"; "completed"].

Record HandoverResponsibility : Type := mkResponsible {
  hp_ResourceType : string; hp_ResourceID : string; hp_ResourceName : string;
  hp_OwnerUserID : string; hp_Category : string; hp_Version : Z; hp_UpdatedAt : Time
}.
Record HandoverFreeze : Type := mkHandoverFreeze {
  fz_ID : string; fz_TenantID : string; fz_BatchID : string; fz_RequestID : string;
  fz_UserID : string; fz_Status : string; fz_FrozenAt : Time; fz_ReleasedAt : option Time;
  fz_Outcome : string
}.
Record HandoverTransferInput : Type := mkTransfer {
  tf_TenantID : string; tf_BatchID : string; tf_ItemID : string; tf_RequestID : string;
  tf_ResourceType : string; tf_ResourceID : string; tf_FromUserID : string;
  tf_ToUserID : string; tf_ToDisplayName : string; tf_ExpectedVersion : Z;
  tf_IdempotencyKey : string
}.
Record HandoverReceipt : Type := mkHandoverReceipt {
  ho_TenantID : string; ho_BatchID : string; ho_ItemID : string; ho_ResourceType : string;
  ho_ResourceID : string; ho_FromUserID : string; ho_ToUserID : string;
  ho_IdempotencyKey : string; ho_Status : string; ho_AppliedVersion : Z;
  ho_ReasonCode : string; ho_EvidenceRef : string; ho_ReceivedAt : Time
}.

(** ** Rows *)

Definition optionalString (value : string) : option string :=
  if empty_str (TrimSpace value) then None else Some (TrimSpace value).
Definition handoverFreezeFromRecord (r : handoverFreezeRecord) : HandoverFreeze :=
  mkHandoverFreeze (hf_ID r) (hf_TenantID r) (hf_BatchID r) (hf_RequestID r) (hf_UserID r)
    (hf_Status r) (hf_FrozenAt r) (hf_ReleasedAt r) (valueOrEmpty (hf_Outcome r)).
Definition handoverReceiptFromRecord (r : handoverReceiptRecord) : HandoverReceipt :=
  mkHandoverReceipt (hr_TenantID r) (hr_BatchID r) (hr_ItemID r) (hr_ResourceType r)
    (hr_ResourceID r) (hr_FromUserID r) (hr_ToUserID r) (hr_IdempotencyKey r) (hr_Status r)
    (hr_AppliedVersion r) (valueOrEmpty (hr_ReasonCode r)) (valueOrEmpty (hr_EvidenceRef r))
    (hr_ReceivedAt r).

Definition freeze_of (tenantID batchID userID : string) (r : handoverFreezeRecord) : bool :=
  (hf_TenantID r =s tenantID) && (hf_BatchID r =s batchID) && (hf_UserID r =s userID).
Definition same_freeze (a b : handoverFreezeRecord) : bool :=
  (hf_ID a =s hf_ID b) || freeze_of (hf_TenantID a) (hf_BatchID a) (hf_UserID a) b.
Definition receipt_of (tenantID key : string) (r : handoverReceiptRecord) : bool :=
  (hr_TenantID r =s tenantID) && (hr_IdempotencyKey r =s key).
Definition same_receipt (a b : handoverReceiptRecord) : bool :=
  (hr_ID a =s hr_ID b) || receipt_of (hr_TenantID a) (hr_IdempotencyKey a) b.

(** The receipt of a transfer of a contract. *)
Definition transfer_receipt (inp : HandoverTransferInput) (id status : string) (version : Z)
    (reason evidence : option string) (now : Time) : handoverReceiptRecord :=
  mkReceipt id (tf_TenantID inp) (tf_BatchID inp) (tf_ItemID inp) (tf_ResourceType inp)
    (tf_ResourceID inp) (tf_FromUserID inp) (tf_ToUserID inp) (tf_IdempotencyKey inp) status
    version reason evidence now now.

(** The display name stays when the directory gave none. *)
Definition contract_set_owner (to display : string) (now : Time) (c : contractRecord)
    : contractRecord :=
  let o := c_owner c in
  mkContract (c_ID c) (c_TenantID c) (c_ContractNumber c) (c_ContractNumberFormat c) (c_party c)
    (mkOwner (Some to) (c_OwnerOrgID o) (c_ProjectID o) to
       (if empty_str (TrimSpace display) then c_OwnerDisplayName o else display))
    (c_terms c) (c_document c) (c_origin c) (c_Status c) (c_Version c + 1) (c_CreatedAt c)
    (c_CreatedBy c) now to.

(** ** Responsibilities *)

(** An open contract the user owns. *)
Definition owned_open (tenantID userID : string) (c : contractRecord) : bool :=
  (c_TenantID c =s tenantID) && (c_OwnerUserID (c_owner c) =s userID) &&
  negb (contains handoverClosedContractStatuses (c_Status c)).
Definition contract_responsibility (c : contractRecord) : HandoverResponsibility :=
  mkResponsible "contract" (c_ID c) (c_Title (c_terms c)) (c_OwnerUserID (c_owner c))
    HandoverCategoryContractOwner (c_Version c) (c_UpdatedAt c).

(** An active task of a running approval of the tenant. *)
Definition assigned_active (tenantID userID : string) (d : DB) (t : approvalTaskRecord) : bool :=
  (t_AssigneeUserID t =s userID) && (t_Status t =s "active") &&
  match db_approvals d !! t_ApprovalID t with
  | Some a => (ai_TenantID a =s tenantID) && (ai_Status a =s "running")
  | None => false
  end.
Definition task_resource (t : approvalTaskRecord) : string :=
  t_ApprovalID t +:+ ":" +:+ t_NodeID t.
Definition approval_responsibility (userID : string) (t : approvalTaskRecord)
    : HandoverResponsibility :=
  mkResponsible HandoverResourceApprovalTask (task_resource t) (t_NodeName t) userID
    HandoverCategoryApprovalAssignee 0 (default zero_time (t_StartedAt t)).

(** The orders of the two queries and of the merged page. *)
Definition contract_le (a b : contractRecord) : Prop := String.leb (c_ID a) (c_ID b) = true.
Definition task_le (a b : approvalTaskRecord) : Prop :=
  String.ltb (t_ApprovalID a) (t_ApprovalID b) = true ∨
  (t_ApprovalID a = t_ApprovalID b ∧ String.leb (t_NodeID a) (t_NodeID b) = true).
Definition resource_le (a b : HandoverResponsibility) : Prop :=
  String.leb (hp_ResourceID a) (hp_ResourceID b) = true.
#[export] Instance contract_le_dec : RelDecision contract_le.
Proof. intros a b. unfold contract_le. apply _. Defined.
#[export] Instance task_le_dec : RelDecision task_le.
Proof. intros a b. unfold task_le. apply _. Defined.
#[export] Instance resource_le_dec : RelDecision resource_le.
Proof. intros a b. unfold resource_le. apply _. Defined.

(** [id > cursor], when there is a cursor. *)
Definition after_cursor (cursor id : string) : bool :=
  empty_str (TrimSpace cursor) || String.ltb (TrimSpace cursor) id.

Definition contract_rows (tenantID userID : string) (d : DB) : list contractRecord :=
  filter (λ c, owned_open tenantID userID c = true) (map snd (map_to_list (db_contracts d))).
Definition task_rows (tenantID userID : string) (d : DB) : list approvalTaskRecord :=
  filter (λ t, assigned_active tenantID userID d t = true) (map snd (map_to_list (db_tasks d))).

Definition contract_page (tenantID userID cursor : string) (limit : nat) (d : DB)
    : list HandoverResponsibility :=
  map contract_responsibility
    (take limit (merge_sort contract_le
       (filter (λ c, after_cursor cursor (c_ID c) = true) (contract_rows tenantID userID d)))).
Definition approval_page (tenantID userID cursor : string) (limit : nat) (d : DB)
    : list HandoverResponsibility :=
  map (approval_responsibility userID)
    (take limit (merge_sort task_le
       (filter (λ t, after_cursor cursor (task_resource t) = true) (task_rows tenantID userID d)))).

(** ** The repository *)

Section Repository.
Context `{Oracle}.

Definition ListOwnedResponsibilities (tenantID userID cursor : string) (limit : Z)
    : Tx (list HandoverResponsibility) :=
  let limit := Z.to_nat (if limit <=? 0 then 100 else limit) in
  contracts ← query (contract_page tenantID userID cursor limit);
  approvals ← query (approval_page tenantID userID cursor limit);
  mret (take limit (merge_sort resource_le (contracts ++ approvals))).

(** Whether a row was made. *)
Definition CreateFreeze (f : HandoverFreeze) (d : DB) : res (HandoverFreeze * bool) * DB :=
  let row := mkFreeze (fz_ID f) (fz_TenantID f) (fz_BatchID f) (fz_RequestID f) (fz_UserID f)
               (fz_Status f) (fz_FrozenAt f) None None (fz_FrozenAt f) (fz_FrozenAt f) in
  let insert : Tx unit :=
    exec (λ d, rows ← insert_unique same_freeze row (db_freezes d); Ok (tt, set_freezes rows d)) in
  match insert (0%nat, d) with
  | (Ok _, (_, d1)) => (Ok (handoverFreezeFromRecord row, true), d1)
  | (Err ErrDuplicatedKey, (t, d1)) =>
      let found := take_row (query (λ d, head (filter
        (λ r, freeze_of (fz_TenantID f) (fz_BatchID f) (fz_UserID f) r = true) (db_freezes d))))
        ErrRecordNotFound in
      match found (t, d1) with
      | (Ok r, _) => (Ok (handoverFreezeFromRecord r, false), d1)
      | (Err e, _) => (Err e, d1)
      end
  | (Err e, (_, d1)) => (Err e, d1)
  end.

Definition release (outcome : string) (now : Time) (r : handoverFreezeRecord)
    : handoverFreezeRecord :=
  mkFreeze (hf_ID r) (hf_TenantID r) (hf_BatchID r) (hf_RequestID r) (hf_UserID r)
    HandoverFreezeReleased (hf_FrozenAt r) (Some now) (Some outcome) (hf_CreatedAt r) now.
Definition in_batch (tenantID batchID : string) (r : handoverFreezeRecord) : bool :=
  (hf_TenantID r =s tenantID) && (hf_BatchID r =s batchID).
Definition ReleaseFreeze (tenantID batchID outcome : string) (now : Time) : Tx unit :=
  let hit r := in_batch tenantID batchID r && (hf_Status r =s HandoverFreezeFrozen) in
  rows ← exec (λ d, Ok (length (filter (λ r, hit r = true) (db_freezes d)),
    set_freezes (map (λ r, if hit r then release outcome now r else r) (db_freezes d)) d));
  if (rows =? 0)%nat then
    count ← query (λ d, length (filter (λ r, in_batch tenantID batchID r = true) (db_freezes d)));
    guard (count =? 0)%nat ErrHandoverNotFound
  else mret tt.

(** [ORDER BY frozen_at DESC], the first row. *)
Definition frozen_first (a b : handoverFreezeRecord) : Prop := hf_FrozenAt b ≤ hf_FrozenAt a.
#[export] Instance frozen_first_dec : RelDecision frozen_first.
Proof. intros a b. unfold frozen_first. apply _. Defined.
Definition active_freeze (tenantID userID : string) (r : handoverFreezeRecord) : bool :=
  (hf_TenantID r =s tenantID) && (hf_UserID r =s userID) &&
  (hf_Status r =s HandoverFreezeFrozen).
Definition ActiveFreeze (tenantID userID : string) : Tx (option HandoverFreeze) :=
  query (λ d, handoverFreezeFromRecord <$> head (merge_sort frozen_first
    (filter (λ r, active_freeze tenantID userID r = true) (db_freezes d)))).

Definition find_receipt (tenantID key : string) : Tx (option handoverReceiptRecord) :=
  query (λ d, head (filter (λ r, receipt_of tenantID key r = true) (db_receipts d))).
Definition FindReceipt (tenantID key : string) : Tx (option HandoverReceipt) :=
  r ← find_receipt tenantID key; mret (handoverReceiptFromRecord <$> r).
Definition insert_receipt (r : handoverReceiptRecord) : Tx unit :=
  exec (λ d, rows ← insert_unique same_receipt r (db_receipts d); Ok (tt, set_receipts rows d)).

(** An insert that does nothing when the key is there. *)
Definition SaveReceipt (r : HandoverReceipt) : Tx unit :=
  id ← newID;
  now ← time_now;
  modify (λ d, set_receipts (insert_ignore same_receipt
    (mkReceipt id (ho_TenantID r) (ho_BatchID r) (ho_ItemID r) (ho_ResourceType r)
       (ho_ResourceID r) (ho_FromUserID r) (ho_ToUserID r) (ho_IdempotencyKey r) (ho_Status r)
       (ho_AppliedVersion r) (optionalString (ho_ReasonCode r)) (optionalString (ho_EvidenceRef r))
       (ho_ReceivedAt r) now) (db_receipts d)) d).

Definition transfer_body (inp : HandoverTransferInput) (now : Time) : Tx HandoverReceipt :=
  let tenantID := tf_TenantID inp in
  let contractID := tf_ResourceID inp in
  existing ← find_receipt tenantID (tf_IdempotencyKey inp);
  match existing with
  | Some r => mret (handoverReceiptFromRecord r)
  | None =>
      row ← take_contract tenantID contractID ErrHandoverNotFound;
      guard (negb (ordinaryContractRecord row)) ErrImportCorrectionRequired;;
      if negb (c_Version row =? tf_ExpectedVersion inp) ||
         negb (c_OwnerUserID (c_owner row) =s tf_FromUserID inp)
      then
        id ← newID;
        let rejected := transfer_receipt inp id HandoverReceiptRejected 0
                          (optionalString "CONTRACT_VERSION_CONFLICT") None now in
        insert_receipt rejected;;
        mret (handoverReceiptFromRecord rejected)
      else
        n ← update_contract tenantID contractID
              (λ c, (c_Version c =? tf_ExpectedVersion inp) &&
                    (c_OwnerUserID (c_owner c) =s tf_FromUserID inp))
              (contract_set_owner (tf_ToUserID inp) (tf_ToDisplayName inp) now);
        guard (negb (n =? 1)) ErrHandoverConflict;;
        enqueueContractResponsibility tenantID contractID;;
        id ← newID;
        let applied := transfer_receipt inp id HandoverReceiptApplied (tf_ExpectedVersion inp + 1)
                         None (optionalString ("contract:" +:+ contractID)) now in
        insert_receipt applied;;
        mret (handoverReceiptFromRecord applied)
  end.
Definition TransferOwnership (inp : HandoverTransferInput) (now : Time)
    : DB → res HandoverReceipt * DB := transaction (transfer_body inp now).

End Repository.

(** ** The service *)

(** [strings.Cut(s, ":")]. *)
Fixpoint cut_colon (l : list byte) : option (list byte * list byte) :=
  match l with
  | [] => None
  | b :: rest =>
      if bool_decide (b = chr 58) then Some ([], rest)
      else match cut_colon rest with Some (x, y) => Some (b :: x, y) | None => None end
  end.
Definition Cut (s : string) : option (string * string) :=
  match cut_colon (bytes s) with Some (x, y) => Some (of_bytes x, of_bytes y) | None => None end.

Record UserReference : Type := mkUserReference {
  ur_UserID : string; ur_DisplayName : string; ur_Roles : list string
}.

Section Service.
Context `{Oracle}.

(** Pages of 200 until one is not full; [None]: the fuel does not suffice. *)
Fixpoint countResponsibilities (fuel : nat) (tenantID userID cursor : string) (total : Z)
    : Tx (option Z) :=
  match fuel with
  | O => mret None
  | S fuel =>
      page ← ListOwnedResponsibilities tenantID userID cursor 200;
      let total := total + Z.of_nat (length page) in
      match last page with
      | Some final =>
          if Z.of_nat (length page) <? 200 then mret (Some total)
          else countResponsibilities fuel tenantID userID (hp_ResourceID final) total
      | None => mret (Some total)
      end
  end.

(** The freeze comes first; the count is of what is there then. *)
Definition Freeze (fuel : nat) (freezeID : res string) (now : Time)
    (tenantID batchID requestID userID : string) (d : DB)
    : res (HandoverFreeze * option Z) * DB :=
  let tenantID := TrimSpace tenantID in
  let batchID := TrimSpace batchID in
  let requestID := TrimSpace requestID in
  let userID := TrimSpace userID in
  if empty_str tenantID || empty_str batchID || empty_str requestID || empty_str userID
  then (Err ErrHandoverValidation, d)
  else match freezeID with
  | Err e => (Err e, d)
  | Ok id =>
      match CreateFreeze (mkHandoverFreeze id tenantID batchID requestID userID
                            HandoverFreezeFrozen now None "") d with
      | (Err e, d1) => (Err e, d1)
      | (Ok (freeze, _), d1) =>
          match countResponsibilities fuel tenantID userID "" 0 (2%nat, d1) with
          | (Err e, _) => (Err e, d1)
          | (Ok count, _) => (Ok (freeze, count), d1)
          end
      end
  end.

Definition Responsibilities (tenantID userID cursor : string) (limit : Z)
    : Tx (list HandoverResponsibility * string) :=
  let tenantID := TrimSpace tenantID in
  let userID := TrimSpace userID in
  guard (empty_str tenantID || empty_str userID) ErrHandoverValidation;;
  let limit := if (limit <=? 0) || (200 <? limit) then 100 else limit in
  items ← ListOwnedResponsibilities tenantID userID (TrimSpace cursor) limit;
  let items := map (λ i,
    mkResponsible (if empty_str (TrimSpace (hp_ResourceType i)) then "contract" else hp_ResourceType i)
      (hp_ResourceID i) (hp_ResourceName i) (hp_OwnerUserID i)
      (if empty_str (TrimSpace (hp_Category i)) then HandoverCategoryContractOwner
       else hp_Category i) (hp_Version i) (hp_UpdatedAt i)) items in
  let next := if Z.of_nat (length items) =? limit
              then match last items with Some i => hp_ResourceID i | None => "" end else "" in
  mret (items, next).

Definition set_display (display : string) (i : HandoverTransferInput) : HandoverTransferInput :=
  mkTransfer (tf_TenantID i) (tf_BatchID i) (tf_ItemID i) (tf_RequestID i) (tf_ResourceType i)
    (tf_ResourceID i) (tf_FromUserID i) (tf_ToUserID i) display (tf_ExpectedVersion i)
    (tf_IdempotencyKey i).
Definition trim_transfer (i : HandoverTransferInput) : HandoverTransferInput :=
  mkTransfer (TrimSpace (tf_TenantID i)) (TrimSpace (tf_BatchID i)) (TrimSpace (tf_ItemID i))
    (tf_RequestID i) (TrimSpace (tf_ResourceType i)) (TrimSpace (tf_ResourceID i))
    (TrimSpace (tf_FromUserID i)) (TrimSpace (tf_ToUserID i)) (tf_ToDisplayName i)
    (tf_ExpectedVersion i) (TrimSpace (tf_IdempotencyKey i)).

(** What [Transfer] checks before it writes: a receipt that is there already, or
    the request with the successor's name.  [owners] is the answer of the owner
    directory, when one is configured. *)
Definition transfer_checks (owners : option (res UserReference)) (input : HandoverTransferInput)
    : Tx (HandoverReceipt + HandoverTransferInput) :=
  let i := trim_transfer input in
  guard (empty_str (tf_TenantID i) || empty_str (tf_BatchID i) || empty_str (tf_ItemID i) ||
         empty_str (tf_ResourceID i) || empty_str (tf_FromUserID i) || empty_str (tf_ToUserID i) ||
         empty_str (tf_IdempotencyKey i)) ErrHandoverValidation;;
  guard (tf_FromUserID i =s tf_ToUserID i) ErrHandoverValidation;;
  existing ← FindReceipt (tf_TenantID i) (tf_IdempotencyKey i);
  match existing with
  | Some r => mret (inl r)
  | None =>
      freeze ← ActiveFreeze (tf_TenantID i) (tf_ToUserID i);
      guard (match freeze with
             | Some f => fz_Status f =s HandoverFreezeFrozen
             | None => false
             end) ErrHandoverFrozen;;
      match owners with
      | None => mret (inr i)
      | Some answer =>
          owner ← lift answer;
          guard (negb (TrimSpace (ur_UserID owner) =s tf_ToUserID i) ||
                 empty_str (TrimSpace (ur_DisplayName owner))) ErrHandoverValidation;;
          mret (inr (set_display (TrimSpace (ur_DisplayName owner)) i))
      end
  end.

Definition set_status (status reason evidence : string) (r : HandoverReceipt) : HandoverReceipt :=
  mkHandoverReceipt (ho_TenantID r) (ho_BatchID r) (ho_ItemID r) (ho_ResourceType r)
    (ho_ResourceID r) (ho_FromUserID r) (ho_ToUserID r) (ho_IdempotencyKey r) status
    (ho_AppliedVersion r) reason evidence (ho_ReceivedAt r).

(** [approvals] is what the workflow command answers, when one is configured. *)
Definition transferApprovalTask (approvals : option (res string)) (now : Time)
    (i : HandoverTransferInput) (d : DB) : res HandoverReceipt * DB :=
  match Cut (tf_ResourceID i) with
  | None => (Err ErrHandoverValidation, d)
  | Some (approvalID, nodeID) =>
      if empty_str (TrimSpace approvalID) || empty_str (TrimSpace nodeID)
      then (Err ErrHandoverValidation, d)
      else
        let base := mkHandoverReceipt (tf_TenantID i) (tf_BatchID i) (tf_ItemID i)
                      (tf_ResourceType i) (tf_ResourceID i) (tf_FromUserID i) (tf_ToUserID i)
                      (tf_IdempotencyKey i) "" 0 "" "" now in
        match approvals with
        | None => (Ok (set_status HandoverReceiptRetryable "APPROVAL_DISPATCH_UNAVAILABLE" "" base), d)
        | Some (Err _) =>
            (Ok (set_status HandoverReceiptRetryable "APPROVAL_COMMAND_FAILED" "" base), d)
        | Some (Ok evidence) =>
            let done := set_status HandoverReceiptApplied "" evidence base in
            match SaveReceipt done (0%nat, d) with
            | (Ok _, (_, d1)) => (Ok done, d1)
            | (Err _, (_, d1)) =>
                (Ok (set_status HandoverReceiptRetryable "APPROVAL_RECEIPT_PERSIST_FAILED" evidence
                       base), d1)
            end
        end
  end.

(** [others] is what other sessions commit between the checks and the write. *)
Definition Transfer (owners : option (res UserReference)) (approvals : option (res string))
    (now : Time) (input : HandoverTransferInput) (others : DB → DB) (d : DB)
    : res HandoverReceipt * DB :=
  match transfer_checks owners input (0%nat, d) with
  | (Err e, _) => (Err e, d)
  | (Ok (inl receipt), _) => (Ok receipt, d)
  | (Ok (inr i), _) =>
      if tf_ResourceType i =s HandoverResourceApprovalTask
      then transferApprovalTask approvals now i (others d)
      else TransferOwnership i now (others d)
  end.

Definition Receipt (tenantID key : string) : Tx HandoverReceipt :=
  take_row (FindReceipt (TrimSpace tenantID) (TrimSpace key)) ErrHandoverNotFound.

Definition Complete `{GoUnicode} (tenantID batchID outcome : string) (now : Time) : Tx unit :=
  let tenantID := TrimSpace tenantID in
  let batchID := TrimSpace batchID in
  let outcome := ToUpper (TrimSpace outcome) in
  guard (empty_str tenantID || empty_str batchID ||
         (negb (outcome =s "COMPLETED") && negb (outcome =s "CANCELLED"))) ErrHandoverValidation;;
  ReleaseFreeze tenantID batchID outcome now.

Definition EnsureOwnerNotFrozen (checker : bool) (tenantID ownerUserID : string) : Tx unit :=
  if negb checker || empty_str (TrimSpace ownerUserID) then mret tt
  else
    freeze ← ActiveFreeze tenantID (TrimSpace ownerUserID);
    guard (match freeze with
           | Some f => fz_Status f =s HandoverFreezeFrozen
           | None => false
           end) ErrHandoverFrozen.

End Service.
