(* ===== verification/Numbering.v ===== *)
(** * infrastructure/mysql/contract_number.go, formatContractNumber (repository.go)

    How an approved contract gets its number: a sequence per year and rule, and
    a registry whose primary key makes every issued number unique in the whole
    system. *)

From S2P Require Import Prelude GoStrings Decimal GoTime BusinessClock Status NumberRule.
From S2P Require Import PaymentTerm ProjectService ImportPolicy ApprovalRule Workflow Store.
From S2P Require Import Outbound.

#[local] Open Scope string_scope.
#[local] Open Scope Z_scope.
#[local] Open Scope list_scope.

(** The collation utf8mb4_unicode_ci, as MySQL documents it: two texts are
    equal in a key exactly when their sort keys are. *)
Class Collation := { collate : string → string }.

(** Checks of document bytes and the rewriting of a DOCX; the ZIP and XML
    processing of internal/docx and internal/pdf is not modelled. *)
Class Documents := {
  docx_valid : string → res unit;
  pdf_valid : string → res unit;
  ReplaceSystemContractNumber : string → string → res string;
  PlainText : string → res string
}.

Definition globalContractNumberRuleID : Z := 1.
Definition contractNumberConflictAttempts : nat := 50.
Definition uint32_max : Z := 2 ^ 32 - 1.

(** ** The template format *)

Definition DefaultNumberFormat : string := "HT-{YYYYMMDD}-{ID8}".

(** [strings.NewReplacer(...).Replace]: none of the patterns is a prefix of
    another, so at most one matches at a position. *)
Fixpoint match_pattern (pairs : list (list byte * list byte)) (l : list byte)
    : option (nat * list byte) :=
  match pairs with
  | [] => None
  | (p, v) :: rest =>
      if bool_decide (take (length p) l = p) then Some (length p, v) else match_pattern rest l
  end.
Fixpoint replace_bytes (fuel : nat) (pairs : list (list byte * list byte)) (l : list byte)
    : list byte :=
  match fuel, l with
  | S n, b :: rest =>
      match match_pattern pairs l with
      | Some (k, v) => v ++ replace_bytes n pairs (drop k l)
      | None => b :: replace_bytes n pairs rest
      end
  | _, _ => []
  end.

(** The last eight bytes. *)
Definition id8 (id : string) : string :=
  if 8 <? slen id then of_bytes (drop (length (bytes id) - 8) (bytes id)) else id.

Definition formatContractNumber `{TzDatabase} (format id : string) (now : Time) : string :=
  let format := if empty_str format then DefaultNumberFormat else format in
  let day := local_date Location now in
  let y := sprintf_0d 4 (d_year day) in
  let m := sprintf_0d 2 (d_month day) in
  let d := sprintf_0d 2 (d_day day) in
  let pairs := [ (bytes "{YYYYMMDD}", bytes (y +:+ m +:+ d)); (bytes "{YYYY}", bytes y);
                 (bytes "{MM}", bytes m); (bytes "{DD}", bytes d); (bytes "{ID8}", bytes (id8 id)) ] in
  of_bytes (replace_bytes (length (bytes format)) pairs (bytes format)).

(** ** Allocation *)

Section Allocation.
Context `{Oracle} `{GoUnicode} `{Sha256} `{TzDatabase} `{Collation}.

(** [None]: the rule table does not exist (error 1146); [Some None]: no row. *)
Definition readContractNumberRule : Tx (option (option ContractNumberRule)) :=
  query (λ d, match db_numbers d with None => None | Some n => Some (nt_rule n) end).

Definition update_numbers (f : numberTables → res (Z * numberTables)) : Tx Z :=
  exec (λ d, match db_numbers d with
             | None => Err ErrRelationMissing
             | Some n => r ← f n; Ok (r.1, set_numbers (Some r.2) d)
             end).

(** [INSERT ... ON DUPLICATE KEY UPDATE current_value = LAST_INSERT_ID(current_value + 1)],
    and the reading of [LAST_INSERT_ID()]. *)
Definition nextContractNumberSequence (ruleKey : string) (year : Z) : Tx Z :=
  current ← update_numbers (λ n,
    let v := match nt_sequence n !! (year, ruleKey) with Some v => v + 1 | None => 1 end in
    fail_if (uint32_max <? v) ErrStorage;;
    Ok (v, mkNumbers (nt_rule n) (<[(year, ruleKey) := v]> (nt_sequence n)) (nt_registry n)));
  current ← query (λ _, current);
  guard (current =? 0) ErrNumberExhausted;;
  mret current.

(** 1 when the row was inserted, 0 for a duplicate key. *)
Definition insert_registry (r : contractNumberRegistryRecord) : Tx Z :=
  update_numbers (λ n,
    let key := collate (nr_ContractNumber r) in
    match nt_registry n !! key with
    | Some _ => Ok (0, n)
    | None => Ok (1, mkNumbers (nt_rule n) (nt_sequence n) (<[key := r]> (nt_registry n)))
    end).

Definition contractNumberRegisteredInTx (number : string) : Tx bool :=
  query (λ d, match db_numbers d with
              | Some n => bool_decide (is_Some (nt_registry n !! collate number))
              | None => false
              end).

Definition reserveContractNumberInTx (number tenantID contractID : string) (year : Z)
    (ruleKey : string) (now : Time) : Tx bool :=
  inserted ← insert_registry (mkRegistered number tenantID contractID year ruleKey now);
  if inserted =? 1 then mret true
  else
    registered ← contractNumberRegisteredInTx number;
    if (registered : bool) then mret false else throw ErrDuplicatedKey.

Fixpoint allocate_loop (attempts : nat) (rule : ContractNumberRule) (ruleKey : string) (year : Z)
    (tenantID contractID : string) (now : Time) : Tx string :=
  match attempts with
  | O => throw ErrNumberExhausted
  | S n =>
      sequence ← nextContractNumberSequence ruleKey year;
      number ← lift (BuildContractNumber rule year sequence);
      reserved ← reserveContractNumberInTx number tenantID contractID year ruleKey now;
      if (reserved : bool) then mret number
      else allocate_loop n rule ruleKey year tenantID contractID now
  end.

Definition allocateContractNumberInTx (tenantID contractID legacyFormat : string) (now : Time)
    : Tx string :=
  found ← readContractNumberRule;
  match found with
  | None | Some None => mret (formatContractNumber legacyFormat contractID now)
  | Some (Some rule) =>
      ruleKey ← lift (ContractNumberRuleKey rule);
      allocate_loop contractNumberConflictAttempts rule ruleKey (YearOf now) tenantID contractID now
  end.

End Allocation.

(** ** The document of an approved contract *)

Definition FormatDOCX : string := "DOCX".
Definition FormatPDF : string := "PDF".

Section Documents.
Context `{Documents} `{Sha256}.

(** contractdocument.EffectiveDocumentFormat. *)
Definition EffectiveDocumentFormat (format document : string) : res string :=
  if empty_str format && empty_str document then Ok ""
  else if empty_str format || (format =s FormatDOCX) then docx_valid document;; Ok FormatDOCX
  else if format =s FormatPDF then pdf_valid document;; Ok FormatPDF
  else Err ErrOther.

(** The columns [approvedNumberUpdates] rewrites. *)
Record numberUpdates : Type := mkUpdates {
  u_ContractNumber : string;
  u_document : option (string * string * string);  (** document, text, hash *)
  u_TemplateValues : option (json (gmap string string))
}.

Definition number_keys : list string := ["合同编号"; "系统合同编号"].

Definition approvedNumberUpdates (current : contractRecord) (number : string)
    : res numberUpdates :=
  let doc := c_document current in
  let plain := mkUpdates number None None in
  if empty_str (c_RenderedDocument doc) then Ok plain
  else
    format ← EffectiveDocumentFormat (c_DocumentFormat doc) (c_RenderedDocument doc);
    if format =s FormatPDF then Ok plain
    else
      document ← ReplaceSystemContractNumber (c_RenderedDocument doc) number;
      if document =s c_RenderedDocument doc then Ok plain
      else
        content ← PlainText document;
        let rewritten := Some (document, content, sha256_hex document) in
        if json_empty (c_TemplateValues doc) then Ok (mkUpdates number rewritten None)
        else
          values ← unmarshal (c_TemplateValues doc);
          let values' := foldl (λ m key, match m !! key with
                                         | Some _ => <[key := number]> m | None => m end)
                           values number_keys in
          Ok (mkUpdates number rewritten (Some (JsonOf values'))).

End Documents.

Definition contract_set_number (u : numberUpdates) (now : Time) (c : contractRecord)
    : contractRecord :=
  let doc := c_document c in
  let doc' :=
    mkDocument
      (match u_document u with Some (_, text, _) => text | None => c_Content doc end)
      (c_TemplateID doc)
      (match u_TemplateValues u with Some v => v | None => c_TemplateValues doc end)
      (match u_document u with Some (d, _, _) => d | None => c_RenderedDocument doc end)
      (c_DocumentFormat doc) (c_SourceMediaType doc) (c_SourceFilename doc) (c_SourceSHA256 doc)
      (c_ExternalPaperNumber doc) (c_SourceFileID doc) (c_SourceFileStatus doc)
      (c_SourceFileLastError doc)
      (match u_document u with Some (_, _, h) => Some h | None => c_ContentHash doc end) in
  mkContract (c_ID c) (c_TenantID c) (Some (u_ContractNumber u)) (c_ContractNumberFormat c)
    (c_party c) (c_owner c) (c_terms c) doc' (c_origin c) (c_Status c) (c_Version c)
    (c_CreatedAt c) (c_CreatedBy c) now (c_UpdatedBy c).
