(* ===== verification/Repository.v ===== *)
(** * infrastructure/mysql/repository.go, contracts_lifecycle.go, draft.go, archive.go,
      contract_source.go

    The transactions that create a contract, edit its draft, move its status
    and run its approvals. *)

From S2P Require Import Prelude GoStrings Decimal GoTime BusinessClock Status NumberRule.
From S2P Require Import PaymentTerm ProjectService ImportPolicy ApprovalRule Workflow Store.
From S2P Require Import Outbound Handover Numbering.

#[local] Open Scope string_scope.
#[local] Open Scope Z_scope.
#[local] Open Scope list_scope.

(** ** The domain contract

    The fields of [contract.Contract], in groups; those of [rowFields] are read
    from a row and never written from it. *)
Record partyFields : Type := mkPartyFields {
  k_OpportunityID : string; k_OpportunityName : string; k_CRMCustomerID : Z;
  k_CounterpartySource : string; k_LocalCounterpartyID : string; k_CounterpartyVersion : Z;
  k_CategorySource : string; k_IntegrationPolicy : string; k_CustomerName : string;
  k_CustomerAddress : string; k_CustomerContact : string; k_CustomerPhone : string;
  k_CustomerCreditLevel : string
}.
Record ownerFields : Type := mkOwnerFields {
  k_OwnerIdentityID : string; k_OwnerOrgID : string; k_ProjectID : string;
  k_OwnerUserID : string; k_OwnerDisplayName : string
}.
Record documentFields : Type := mkDocumentFields {
  k_Content : string; k_TemplateID : string; k_TemplateValues : gmap string string;
  k_Document : string; k_DocumentFormat : string; k_SourceMediaType : string;
  k_SourceFilename : string; k_SourceSHA256 : string; k_ExternalPaperNumber : string;
  k_SourceFileID : string; k_SourceFileStatus : string; k_ContentHash : string
}.
Record originFields : Type := mkOriginFields {
  k_OriginKind : string; k_ImportMode : ImportMode; k_OriginImportItemID : string;
  k_HistoricalStatus : string; k_HistoricalCustomerName : string;
  k_HistoricalOwnerLabel : string; k_ImportPolicy : option ImportPolicy
}.
Record rowFields : Type := mkRowFields {
  k_Version : Z; k_CreatedAt : Time; k_CreatedBy : string; k_CanEditDraft : bool;
  k_UpdatedAt : Time
}.
Record Contract : Type := mkDomain {
  k_ID : string; k_TenantID : string; k_Number : string; k_NumberFormat : string;
  k_Title : string; k_Type : string; k_ServiceType : string; k_Systems : list SystemInfo;
  k_ServiceItems : list ServiceItem; k_party : partyFields; k_owner : ownerFields;
  k_AmountMinor : Z; k_Currency : string;
  (** [None]: a nil slice, the field was left out. *)
  k_PaymentTerms : option (list PaymentTerm);
  k_document : documentFields; k_origin : originFields; k_Status : Status;
  k_StartDate : option Time; k_EndDate : option Time; k_row : rowFields
}.

Definition no_row : rowFields := mkRowFields 0 zero_time "" false zero_time.
Definition terms_or_nil (c : Contract) : list PaymentTerm :=
  match k_PaymentTerms c with Some l => l | None => [] end.

(** ** Creation *)

(** [applyContractSource]: the counterparty and origin columns of a new row. *)
Definition applyContractSource (source : Contract) : res originColumns :=
  let o := k_origin source in
  let p := k_party source in
  let kind := if empty_str (k_OriginKind o) then "NORMAL" else k_OriginKind o in
  (if kind =s "NORMAL" then
     fail_if (negb (OperationalOrigin (k_OriginImportItemID o) kind (k_ImportMode o)
                      (k_ImportPolicy o))) ErrImportPolicy
   else
     fail_if (negb (kind =s "IMPORTED") || empty_str (k_ImportMode o) ||
              (k_ImportMode o =s ImportNormal) ||
              negb (is_ok (ValidateImportPolicy (k_ImportMode o) (k_ImportPolicy o))))
       ErrImportPolicy);;
  let local := (k_CounterpartySource p =s CounterpartyLocal) ||
               (k_CategorySource p =s CategoryLocal) in
  fail_if (local && (negb (kind =s "NORMAL") ||
                     negb (k_IntegrationPolicy p =s IntegrationNotApplicable)))
    ErrContractSourceConflict;;
  fail_if ((k_CounterpartySource p =s CounterpartyLocal) &&
           (negb (k_CRMCustomerID p =? 0) || negb (empty_str (k_OpportunityID p)) ||
            empty_str (k_LocalCounterpartyID p) || (k_CounterpartyVersion p =? 0))) ErrValidation;;
  Ok (mkOrigin kind (k_ImportMode o) (stringPtr (k_OriginImportItemID o)) (k_HistoricalStatus o)
        (k_HistoricalCustomerName o) (k_HistoricalOwnerLabel o) 0 0 "" None None None
        (match k_ImportPolicy o with Some policy => JsonOf policy | None => JsonEmpty end)).

Definition party_columns (p : partyFields) : partyColumns :=
  mkParty (stringPtr (k_OpportunityID p)) (stringPtr (k_OpportunityName p))
    (k_CounterpartySource p) (stringPtr (k_LocalCounterpartyID p))
    (uintPtr (k_CounterpartyVersion p)) (k_CategorySource p) (k_IntegrationPolicy p)
    (uintPtr (k_CRMCustomerID p)) (stringPtr (k_CustomerName p)) (stringPtr (k_CustomerAddress p))
    (stringPtr (k_CustomerContact p)) (stringPtr (k_CustomerPhone p))
    (stringPtr (k_CustomerCreditLevel p)).

Definition terms_columns (c : Contract) : termsColumns :=
  mkTerms (k_Title c) (k_Type c) (k_ServiceType c) (JsonOf (k_Systems c))
    (JsonOf (k_ServiceItems c)) (k_AmountMinor c) (k_Currency c) (k_StartDate c) (k_EndDate c).

Definition created_status (c : Contract) : Status :=
  if empty_str (k_Status c) then StatusDraft else k_Status c.

(** The new row of [CreateContract]. *)
Definition new_contract (c : Contract) (origin : originColumns) (now : Time) (actor : string)
    : contractRecord :=
  let o := k_owner c in
  let d := k_document c in
  mkContract (k_ID c) (k_TenantID c) (stringPtr (k_Number c)) (k_NumberFormat c)
    (party_columns (k_party c))
    (mkOwner (stringPtr (k_OwnerIdentityID o)) (stringPtr (k_OwnerOrgID o))
       (stringPtr (k_ProjectID o)) (k_OwnerUserID o) (k_OwnerDisplayName o))
    (terms_columns c)
    (mkDocument (k_Content d) (stringPtr (k_TemplateID d)) (JsonOf (k_TemplateValues d))
       (k_Document d) (k_DocumentFormat d) (k_SourceMediaType d) (k_SourceFilename d)
       (k_SourceSHA256 d) (k_ExternalPaperNumber d) (k_SourceFileID d) (k_SourceFileStatus d) ""
       (stringPtr (k_ContentHash d)))
    origin (created_status c) 1 now actor now actor.

Section Repository.
Context `{Oracle} `{GoUnicode} `{Sha256} `{TzDatabase} `{Collation} `{Documents}.
Variable meta : requestMeta.

(** Another contract of the tenant with this number (uk_con_contract_number). *)
Definition number_taken (tenantID id : string) (number : option string)
    (contracts : gmap string contractRecord) : bool :=
  match number with
  | None => false
  | Some n =>
      bool_decide (map_Exists (λ k c, k ≠ id ∧ c_TenantID c = tenantID ∧
        collate <$> c_ContractNumber c = Some (collate n)) contracts)
  end.

Definition insert_contract (row : contractRecord) : Tx unit :=
  exec (λ d, match db_contracts d !! c_ID row with
             | Some _ => Err ErrDuplicatedKey
             | None =>
                 fail_if (number_taken (c_TenantID row) (c_ID row) (c_ContractNumber row)
                            (db_contracts d))
                   ErrDuplicatedKey;;
                 Ok (tt, set_contracts (<[c_ID row := row]> (db_contracts d)) d)
             end).

Definition contract_audit (tenantID actor action contractID : string) (payload : auditPayload)
    : Tx unit :=
  event ← newID;
  insertAuditOutbox tenantID event
    (mkEntry actor action "contract" contractID (rm_Audit meta) payload).

(** The body of [CreateContract]'s transaction; the row is prepared before. *)
Definition create_body (c : Contract) (row : contractRecord) (now : Time) (actor : string)
    : Tx unit :=
  insert_contract row;;
  enqueueContractResponsibility (k_TenantID c) (k_ID c);;
  replaceContractPaymentTerms (k_TenantID c) (k_ID c) (terms_or_nil c) (k_AmountMinor c)
    (k_Currency c);;
  id ← newID;
  insert_lifecycle_row false
    (mkLifecycle id (k_TenantID c) (k_ID c) StatusDraft StatusDraft (stringPtr actor)
       (stringPtr "contract created") None None (k_ID c +:+ ":created") now);;
  contract_audit (k_TenantID c) actor "CONTRACT_MANAGEMENT:CREATED" (k_ID c)
    (PCreated (k_ID c) (created_status c) (k_Type c) (k_AmountMinor c) (k_Currency c)).

Definition CreateContract (now : Time) (c : Contract) (actor : string) (d : DB) : res unit * DB :=
  match applyContractSource c with
  | Err e => (Err e, d)
  | Ok origin => transaction (create_body c (new_contract c origin now actor) now actor) d
  end.

(** ** Drafts *)

Definition contract_set_draft (c : Contract) (version : Z) (now : Time) (actor : string)
    (row : contractRecord) : contractRecord :=
  let doc := c_document row in
  let d := k_document c in
  mkContract (c_ID row) (c_TenantID row) (c_ContractNumber row) (c_ContractNumberFormat row)
    (party_columns (k_party c)) (c_owner row) (terms_columns c)
    (mkDocument (k_Content d) (c_TemplateID doc) (JsonOf (k_TemplateValues d)) (k_Document d)
       (c_DocumentFormat doc) (c_SourceMediaType doc) (c_SourceFilename doc) (c_SourceSHA256 doc)
       (c_ExternalPaperNumber doc) (c_SourceFileID doc) (c_SourceFileStatus doc)
       (c_SourceFileLastError doc) (Some (k_ContentHash d)))
    (c_origin row) (c_Status row) version (c_CreatedAt row) (c_CreatedBy row) now actor.

Definition version_key (id suffix : string) (version : Z) : string :=
  id +:+ suffix +:+ Itoa version.

Definition draft_body (c : Contract) (expectedVersion : Z) (actor : string) : Tx unit :=
  current ← take_contract (k_TenantID c) (k_ID c) ErrNotFound;
  guard (negb (c_Version current =? expectedVersion)) ErrVersionConflict;;
  guard (negb (c_Status current =s StatusDraft)) ErrStateConflict;;
  terms ← (match k_PaymentTerms c with
           | Some terms => mret terms
           | None =>
               stored ← ListContractPaymentTerms (k_TenantID c) (k_ID c);
               guard (negb (bool_decide (stored = [])) &&
                      negb (EqualFold (TrimSpace (k_Currency c))
                              (TrimSpace (c_Currency (c_terms current))))) ErrValidation;;
               mret stored
           end);
  lift (as_validation (NormalizePaymentTerms terms (k_AmountMinor c) (k_Currency c)));;
  now ← time_now;
  rows ← update_contract (k_TenantID c) (k_ID c)
           (λ r, (c_Version r =? expectedVersion) && (c_Status r =s StatusDraft))
           (contract_set_draft c (expectedVersion + 1) now actor);
  guard (negb (rows =? 1)) ErrVersionConflict;;
  replaceContractPaymentTerms (k_TenantID c) (k_ID c) terms (k_AmountMinor c) (k_Currency c);;
  id ← newID;
  insert_lifecycle_row false
    (mkLifecycle id (k_TenantID c) (k_ID c) StatusDraft StatusDraft (stringPtr actor)
       (stringPtr "contract draft edited") None None
       (version_key (k_ID c) ":draft:v" (expectedVersion + 1)) now);;
  contract_audit (k_TenantID c) actor "CONTRACT_MANAGEMENT:UPDATED" (k_ID c)
    (PUpdated (k_ID c) expectedVersion (expectedVersion + 1) StatusDraft (k_AmountMinor c)
       (k_Currency c)).

Definition UpdateContractDraft (c : Contract) (expectedVersion : Z) (actor : string)
    : DB → res unit * DB := transaction (draft_body c expectedVersion actor).

(** ** Direct transitions *)

Definition transition_body (tenantID contractID : string) (expectedVersion : Z) (target : Status)
    (actor reason key : string) : Tx unit :=
  row ← take_contract tenantID contractID ErrNotFound;
  guard (negb (c_Version row =? expectedVersion)) ErrVersionConflict;;
  guard (negb (ordinaryContractRecord row)) ErrStateConflict;;
  active ← countRunningApprovals tenantID contractID [KindContract; KindStatusChange];
  guard (0 <? active) ErrStateConflict;;
  guard (RequiresApproval target || (target =s StatusPending) ||
         (target =s Status.StatusApproved) || (target =s StatusActive)) ErrStateConflict;;
  updateStatus tenantID contractID (c_Status row) target actor;;
  insertLifecycle meta (mkLifecycleInput "" tenantID contractID "") (c_Status row) target actor
    reason key.

Definition TransitionDirect (tenantID contractID : string) (expectedVersion : Z) (target : Status)
    (actor reason key : string) : DB → res unit * DB :=
  transaction (transition_body tenantID contractID expectedVersion target actor reason key).

(** ** Approvals *)

Definition lifecycle_input (approvalID tenantID contractID workflowID : string) : lifecycleInput :=
  mkLifecycleInput approvalID tenantID contractID workflowID.

Definition initial_task (approvalID : string) (now : Time) (index : nat) (node : Node)
    (userID : string) : approvalTaskRecord :=
  mkTask approvalID (n_ID node) userID (n_Name node) index
    (if (index =? 0)%nat then NodeActive else NodePending) false
    (if (index =? 0)%nat then Some now else None) None.
Definition initialTasks (approvalID : string) (nodes : list Node) (now : Time)
    : list approvalTaskRecord :=
  concat (imap (λ index node, map (initial_task approvalID now index node)
                                (unique (n_AssigneeIDs node))) nodes).

Definition task_key (t : approvalTaskRecord) : string * string * string :=
  (t_ApprovalID t, t_NodeID t, t_AssigneeUserID t).

(** [tx.Create(&tasks)]: the whole statement is refused by a duplicate. *)
Fixpoint insert_tasks (tasks : list approvalTaskRecord)
    (m : gmap (string * string * string) approvalTaskRecord)
    : res (gmap (string * string * string) approvalTaskRecord) :=
  match tasks with
  | [] => Ok m
  | t :: rest =>
      match m !! task_key t with
      | Some _ => Err ErrDuplicatedKey
      | None => insert_tasks rest (<[task_key t := t]> m)
      end
  end.
Definition create_tasks (tasks : list approvalTaskRecord) : Tx unit :=
  if bool_decide (length tasks = 0%nat) then mret tt
  else exec (λ d, m ← insert_tasks tasks (db_tasks d); Ok (tt, set_tasks m d)).

(** The unique keys of con_approval_instance besides its identifier. *)
Definition instance_clash (i j : approvalInstanceRecord) : bool :=
  (ai_TemporalWorkflowID i =s ai_TemporalWorkflowID j) ||
  match ai_ActiveStatusChangeKey i, ai_ActiveStatusChangeKey j with
  | Some a, Some b => a =s b
  | _, _ => false
  end.
(** A duplicate is reported as a conflict. *)
Definition insert_instance (i : approvalInstanceRecord) : Tx unit :=
  exec (λ d,
    if bool_decide (is_Some (db_approvals d !! ai_ID i)) ||
       bool_decide (map_Exists (λ _ j, instance_clash i j = true) (db_approvals d))
    then Err ErrStateConflict
    else Ok (tt, set_approvals (<[ai_ID i := i]> (db_approvals d)) d)).

Definition insert_snapshot (s : approvalSnapshotRecord) : Tx unit :=
  exec (λ d, match db_snapshots d !! as_ApprovalID s with
             | Some _ => Err ErrDuplicatedKey
             | None => Ok (tt, set_snapshots (<[as_ApprovalID s := s]> (db_snapshots d)) d)
             end).

Definition hash_matches (stored : option string) (hash : string) : bool :=
  match stored with Some h => h =s hash | None => false end.

(** The checks and the status change that depend on the kind. *)
Definition start_kind (inp : StartApprovalActivityInput) (current : contractRecord) : Tx unit :=
  let tenantID := sa_TenantID inp in
  let contractID := sa_ContractID inp in
  if sa_Kind inp =s KindContract then
    guard (empty_str (sa_ContentHash inp) ||
           negb (hash_matches (c_ContentHash (c_document current)) (sa_ContentHash inp)))
      ErrStateConflict;;
    active ← countRunningApprovals tenantID contractID [KindContract];
    guard (0 <? active) ErrStateConflict;;
    updateStatus tenantID contractID (sa_FromStatus inp) (sa_TargetStatus inp)
      (sa_ApplicantUserID inp);;
    insertLifecycle meta
      (lifecycle_input (sa_ApprovalID inp) tenantID contractID (sa_WorkflowID inp))
      (sa_FromStatus inp) (sa_TargetStatus inp) (sa_ApplicantUserID inp) "submitted for approval"
      (sa_ApprovalID inp +:+ ":submitted")
  else if sa_Kind inp =s KindStatusChange then
    active ← countRunningApprovals tenantID contractID [KindStatusChange];
    guard (0 <? active) ErrStateConflict
  else mret tt.

Definition new_instance (inp : StartApprovalActivityInput) (now : Time) : approvalInstanceRecord :=
  mkInstance (sa_ApprovalID inp) (sa_TenantID inp) (sa_ContractID inp) (sa_Kind inp)
    StatusRunning (sa_ApplicantUserID inp) (sa_ApplicantDisplayName inp) (sa_FromStatus inp)
    (sa_TargetStatus inp) (stringPtr (sa_Reason inp)) (stringPtr (sa_RuleID inp))
    (uintPtr (sa_RuleVersion inp)) (stringPtr (sa_ContentHash inp)) (sa_Nodes inp) JsonEmpty 0
    (sa_WorkflowID inp) (sa_RunID inp)
    (if sa_Kind inp =s KindStatusChange
     then stringPtr (sa_TenantID inp +:+ ":" +:+ sa_ContractID inp) else None)
    false None now now.

Definition start_body (inp : StartApprovalActivityInput) : Tx unit :=
  existing ← query (λ d, db_approvals d !! sa_ApprovalID inp);
  match existing with
  | Some _ => mret tt
  | None =>
      current ← take_contract (sa_TenantID inp) (sa_ContractID inp) ErrNotFound;
      guard (negb (ordinaryContractRecord current)) ErrStateConflict;;
      guard (negb (c_Version current =? sa_ExpectedVersion inp)) ErrVersionConflict;;
      guard (negb (c_Status current =s sa_FromStatus inp)) ErrStateConflict;;
      start_kind inp current;;
      now ← time_now;
      insert_instance (new_instance inp now);;
      terms ← query (terms_of (sa_TenantID inp) (sa_ContractID inp));
      insert_snapshot (mkSnapshot (sa_ApprovalID inp) (sa_TenantID inp) (sa_ContractID inp)
        (c_Version current) (c_ContentHash (c_document current)) current
        (map (λ r, term_from_record (pr_term r)) terms)
        (c_RenderedDocument (c_document current)) (stringPtr (sa_RuleID inp))
        (uintPtr (sa_RuleVersion inp)) now);;
      create_tasks (initialTasks (sa_ApprovalID inp) (sa_Nodes inp) now)
  end.

Definition StartApproval (inp : StartApprovalActivityInput) : DB → res unit * DB :=
  transaction (start_body inp).

(** [syncTasks]. *)
Definition runtime_task (approvalID : string) (index : nat) (r : RuntimeNode) (userID : string)
    : approvalTaskRecord :=
  mkTask approvalID (n_ID (rn_Node r)) userID (n_Name (rn_Node r)) index (rn_Status r)
    (bool_decide (userID ∈ ApprovedBy r)) (timePtr (rn_StartedAt r)) (timePtr (rn_CompletedAt r)).
Definition runtime_tasks (approvalID : string) (nodes : list RuntimeNode)
    : list approvalTaskRecord :=
  concat (imap (λ index r, map (runtime_task approvalID index r)
                             (unique (n_AssigneeIDs (rn_Node r)))) nodes).
Definition syncTasks (approvalID : string) (nodes : list RuntimeNode) : Tx unit :=
  modify (λ d, set_tasks (filter (λ p, t_ApprovalID p.2 ≠ approvalID) (db_tasks d)) d);;
  create_tasks (runtime_tasks approvalID nodes).

Definition update_instance (id : string) (where_ : approvalInstanceRecord → bool)
    (f : approvalInstanceRecord → approvalInstanceRecord) : Tx Z :=
  exec (λ d, match db_approvals d !! id with
             | Some i => if where_ i
                         then Ok (1, set_approvals (<[id := f i]> (db_approvals d)) d)
                         else Ok (0, d)
             | None => Ok (0, d)
             end).

Definition instance_set_state (st : ApprovalState) (now : Time) (i : approvalInstanceRecord)
    : approvalInstanceRecord :=
  mkInstance (ai_ID i) (ai_TenantID i) (ai_ContractID i) (ai_Kind i) (st_Status st)
    (ai_ApplicantUserID i) (ai_ApplicantDisplayName i) (ai_FromStatus i) (ai_TargetStatus i)
    (ai_Reason i) (ai_RuleID i) (ai_RuleVersion i) (ai_ContentHash i) (ai_Nodes i) (JsonOf st)
    (Z.of_nat (st_CurrentNodeIndex st)) (ai_TemporalWorkflowID i) (ai_TemporalRunID i)
    (ai_ActiveStatusChangeKey i) (ai_CompletionApplied i) (ai_CompletedAt i) (ai_CreatedAt i) now.

Definition instance_set_completed (status : string) (now : Time) (i : approvalInstanceRecord)
    : approvalInstanceRecord :=
  mkInstance (ai_ID i) (ai_TenantID i) (ai_ContractID i) (ai_Kind i) status
    (ai_ApplicantUserID i) (ai_ApplicantDisplayName i) (ai_FromStatus i) (ai_TargetStatus i)
    (ai_Reason i) (ai_RuleID i) (ai_RuleVersion i) (ai_ContentHash i) (ai_Nodes i)
    (ai_RuntimeState i) (ai_CurrentNodeIndex i) (ai_TemporalWorkflowID i) (ai_TemporalRunID i)
    None true (Some now) (ai_CreatedAt i) now.

Definition insert_action (a : approvalActionRecord) : Tx unit :=
  exec (λ d, match db_actions d !! aa_CommandID a with
             | Some _ => Err ErrDuplicatedKey
             | None => Ok (tt, set_actions (<[aa_CommandID a := a]> (db_actions d)) d)
             end).

Definition record_body (inp : RecordCommandActivityInput) : Tx unit :=
  let command := rc_Command inp in
  existing ← query (λ d, db_actions d !! CommandID command);
  match existing with
  | Some _ => mret tt
  | None =>
      now0 ← time_now;
      let when := if IsZero (OccurredAt command) then now0 else OccurredAt command in
      id ← newID;
      insert_action (mkAction id (rc_TenantID inp) (rc_ApprovalID inp) (rc_ContractID inp)
        (stringPtr (rc_NodeID inp)) (CommandID command) (Action command) (ActorUserID command)
        (ActorDisplayName command) (stringPtr (Comment command)) command when);;
      now ← time_now;
      rows ← update_instance (rc_ApprovalID inp) (λ i, ai_TenantID i =s rc_TenantID inp)
               (instance_set_state (rc_State inp) now);
      guard (negb (rows =? 1)) ErrNotFound;;
      syncTasks (rc_ApprovalID inp) (st_Nodes (rc_State inp));;
      contract_audit (rc_TenantID inp) (ActorUserID command)
        ("CONTRACT_MANAGEMENT:APPROVAL_" +:+ ToUpper (Action command)) (rc_ContractID inp)
        (PCommand (rc_ApprovalID inp) (CommandID command) (ToUpper (Action command))
           (rc_NodeID inp) (Countersign command))
  end.

Definition RecordCommand (inp : RecordCommandActivityInput) : DB → res unit * DB :=
  transaction (record_body inp).

(** ** Completion *)

(** [UPDATE con_contract ... WHERE contract_number IS NULL OR contract_number = '']. *)
Definition write_number (tenantID contractID : string) (u : numberUpdates) (now : Time) : Tx Z :=
  exec (λ d,
    match db_contracts d !! contractID with
    | Some c =>
        if (c_TenantID c =s tenantID) && empty_str (valueOrEmpty (c_ContractNumber c)) then
          fail_if (number_taken tenantID contractID (Some (u_ContractNumber u)) (db_contracts d))
            ErrNumberConflict;;
          Ok (1, set_contracts (<[contractID := contract_set_number u now c]> (db_contracts d)) d)
        else Ok (0, d)
    | None => Ok (0, d)
    end).

(** The number of a contract that has none yet. *)
Definition issue_number (tenantID : string) (current : contractRecord) : Tx unit :=
  if empty_str (valueOrEmpty (c_ContractNumber current)) then
    now ← time_now;
    number ← allocateContractNumberInTx tenantID (c_ID current) (c_ContractNumberFormat current) now;
    updates ← lift (approvedNumberUpdates current number);
    written ← time_now;
    rows ← write_number tenantID (c_ID current) updates written;
    guard (negb (rows =? 1)) ErrStateConflict
  else mret tt.

Definition complete_approved (inp : CompleteApprovalActivityInput) (current : contractRecord)
    (actor : string) : Tx unit :=
  let tenantID := ca_TenantID inp in
  let contractID := ca_ContractID inp in
  let li := lifecycle_input (ca_ApprovalID inp) tenantID contractID (ca_WorkflowID inp) in
  issue_number tenantID current;;
  updateStatus tenantID contractID StatusPending Status.StatusApproved actor;;
  insertLifecycle meta li StatusPending Status.StatusApproved actor (ca_Reason inp)
    (ca_ApprovalID inp +:+ ":approved");;
  updateStatus tenantID contractID Status.StatusApproved StatusActive actor;;
  insertLifecycle meta li Status.StatusApproved StatusActive actor
    "approval completed; contract activated" (ca_ApprovalID inp +:+ ":activated");;
  enqueueProjectActivation meta tenantID contractID;;
  enqueueFinancialEffective tenantID contractID;;
  mret tt.

Definition complete_contract (inp : CompleteApprovalActivityInput) (instance : approvalInstanceRecord)
    (current : contractRecord) (actor : string) : Tx unit :=
  let tenantID := ca_TenantID inp in
  let contractID := ca_ContractID inp in
  guard (negb (c_Status current =s StatusPending)) ErrStateConflict;;
  guard (match ai_ContentHash instance, c_ContentHash (c_document current) with
         | Some h, Some h' => empty_str h || negb (h' =s h)
         | _, _ => true
         end) ErrStateConflict;;
  if ca_Status inp =s StatusApproved then complete_approved inp current actor
  else
    updateStatus tenantID contractID StatusPending StatusDraft actor;;
    insertLifecycle meta
      (lifecycle_input (ca_ApprovalID inp) tenantID contractID (ca_WorkflowID inp))
      StatusPending StatusDraft actor (ca_Reason inp)
      (ca_ApprovalID inp +:+ ":" +:+ ca_Status inp).

Definition complete_change (inp : CompleteApprovalActivityInput) (instance : approvalInstanceRecord)
    (current : contractRecord) (actor : string) : Tx unit :=
  let tenantID := ca_TenantID inp in
  let contractID := ca_ContractID inp in
  let from := ai_FromStatus instance in
  let target := ai_TargetStatus instance in
  if ca_Status inp =s StatusApproved then
    guard (negb (c_Status current =s from) || negb (ca_TargetStatus inp =s target))
      ErrStateConflict;;
    updateStatus tenantID contractID from target actor;;
    insertLifecycle meta
      (lifecycle_input (ca_ApprovalID inp) tenantID contractID (ca_WorkflowID inp))
      from target actor (ca_Reason inp) (ca_ApprovalID inp +:+ ":status-applied")
  else mret tt.

Definition skip_task (now : Time) (approvalID : string) (t : approvalTaskRecord)
    : approvalTaskRecord :=
  if (t_ApprovalID t =s approvalID) && (t_Status t =s NodeActive)
  then mkTask (t_ApprovalID t) (t_NodeID t) (t_AssigneeUserID t) (t_NodeName t) (t_NodeIndex t)
         NodeSkipped (t_Approved t) (t_StartedAt t) (Some now)
  else t.

Definition complete_body (inp : CompleteApprovalActivityInput) : Tx unit :=
  found ← query (λ d, db_approvals d !! ca_ApprovalID inp);
  match found with
  | Some instance =>
      if negb (ai_TenantID instance =s ca_TenantID inp) then throw ErrNotFound
      else if ai_CompletionApplied instance then mret tt
      else
        current ← take_contract (ca_TenantID inp) (ca_ContractID inp) ErrNotFound;
        guard (negb (ordinaryContractRecord current)) ErrStateConflict;;
        let actor := if empty_str (ca_ActorUserID inp) then "SYSTEM" else ca_ActorUserID inp in
        (if ai_Kind instance =s KindContract then complete_contract inp instance current actor
         else complete_change inp instance current actor);;
        now ← time_now;
        rows ← update_instance (ca_ApprovalID inp) (λ _, true)
                 (instance_set_completed (ca_Status inp) now);
        guard (negb (rows =? 1)) ErrNotFound;;
        modify (λ d, set_tasks (skip_task now (ca_ApprovalID inp) <$> db_tasks d) d)
  | None => throw ErrNotFound
  end.

Definition CompleteApproval (inp : CompleteApprovalActivityInput) : DB → res unit * DB :=
  transaction (complete_body inp).

(** ** Notifications *)

Definition new_notification (id tenantID key : string) (user role : option string)
    (typ title content contractID approvalID dedupeKey : string) (now : Time)
    : notificationOutboxRecord :=
  mkNotification id tenantID key user role typ title content (stringPtr contractID)
    (stringPtr approvalID) dedupeKey (queued now) now.

Fixpoint insert_notifications (build : string → notificationOutboxRecord → notificationOutboxRecord)
    (rows : list notificationOutboxRecord) : Tx unit :=
  match rows with
  | [] => mret tt
  | r :: rest =>
      id ← newID;
      modify (λ d, set_notifications
        (insert_ignore same_notification (build id r) (db_notifications d)) d);;
      insert_notifications build rest
  end.

Definition with_id (id : string) (r : notificationOutboxRecord) : notificationOutboxRecord :=
  mkNotification id (no_TenantID r) (no_RecipientKey r) (no_RecipientUserID r)
    (no_RecipientRoleCode r) (no_NotificationType r) (no_Title r) (no_Content r)
    (no_ContractID r) (no_ApprovalID r) (no_DedupeKey r) (no_Delivery r) (no_CreatedAt r).

Definition notification_rows (inp : NotifyActivityInput) (now : Time)
    : list notificationOutboxRecord :=
  map (λ user, new_notification "" (na_TenantID inp) ("user:" +:+ user) (stringPtr user) None
                 (na_Type inp) (na_Title inp) (na_Content inp) (na_ContractID inp)
                 (na_ApprovalID inp) (na_DedupeKey inp) now) (unique (na_Recipients inp)) ++
  map (λ role, new_notification "" (na_TenantID inp) ("role:" +:+ role) None (stringPtr role)
                 (na_Type inp) (na_Title inp) (na_Content inp) (na_ContractID inp)
                 (na_ApprovalID inp) (na_DedupeKey inp) now) (unique (na_RoleRecipients inp)).

Definition notify_body (inp : NotifyActivityInput) : Tx unit :=
  now ← time_now;
  insert_notifications with_id (notification_rows inp now).
Definition CreateNotification (inp : NotifyActivityInput) : DB → res unit * DB :=
  transaction (notify_body inp).

(** ** Archiving *)

Definition archive_roles : list string := ["sales_director"; "admin"].
Definition archive_notifications (current : contractRecord) (additional : list string)
    (key : string) (now : Time) : list notificationOutboxRecord :=
  let row recipient user role :=
    new_notification "" (c_TenantID current) recipient user role "status_change" "合同已自动归档"
      "合同结束日期已过，系统已自动归档" (c_ID current) "" key now in
  map (λ u, row ("user:" +:+ u) (stringPtr u) None)
    (unique (c_OwnerUserID (c_owner current) :: additional)) ++
  map (λ r, row ("role:" +:+ r) None (stringPtr r)) archive_roles.

(** What the scan selects of a candidate. *)
Record archiveCandidate : Type := mkCandidate {
  cand_ID : string; cand_TenantID : string; cand_Status : Status
}.

Definition ends_before (date : Time) (c : contractRecord) : bool :=
  match c_EndDate (c_terms c) with Some e => e <? date | None => false end.

Definition archive_body (candidate : archiveCandidate) (additional : list string) (date : Date)
    : Tx bool :=
  found ← find_contract (cand_TenantID candidate) (cand_ID candidate);
  match found with
  | None => mret false
  | Some current =>
      let from := c_Status current in
      if negb (ordinaryContractRecord current) then mret false
      else if negb (from =s cand_Status candidate) || negb (ends_before (midnight date) current) ||
              negb (CanTransition from StatusArchived) then mret false
      else
        active ← countRunningApprovals (c_TenantID current) (c_ID current) [KindStatusChange];
        if 0 <? active then mret false
        else
          updateStatus (c_TenantID current) (c_ID current) from StatusArchived "SYSTEM";;
          let key := c_ID current +:+ ":auto-archive:" +:+ FormatDate date in
          insertLifecycle meta
            (lifecycle_input "" (c_TenantID current) (c_ID current) "contract-auto-archive-daily")
            from StatusArchived "SYSTEM" "contract end date passed; automatically archived" key;;
          now ← time_now;
          insert_notifications with_id (archive_notifications current additional key now);;
          mret true
  end.

Definition archiveOne (candidate : archiveCandidate) (additional : list string) (date : Date)
    : DB → res bool * DB := transaction (archive_body candidate additional date).

(** ** Financial changes *)

Record ContractFinancialChange : Type := mkChange {
  fc_ContractID : string; fc_ExpectedVersion : Z; fc_AmountMinor : Z; fc_Currency : string;
  fc_PaymentTerms : list PaymentTerm; fc_Reason : string
}.

Definition FinancialChangeEligibleStatuses : list Status :=
  [Status.StatusApproved; StatusActive; StatusInProgress; StatusPendingPay].
Definition FinancialChangeStatusEligible (s : Status) : bool :=
  contains FinancialChangeEligibleStatuses s.

Definition contract_set_amount (amount : Z) (now : Time) (actor : string) (c : contractRecord)
    : contractRecord :=
  let t := c_terms c in
  mkContract (c_ID c) (c_TenantID c) (c_ContractNumber c) (c_ContractNumberFormat c) (c_party c)
    (c_owner c)
    (mkTerms (c_Title t) (c_ContractType t) (c_ServiceType t) (c_Systems t) (c_ServiceItems t)
       amount (c_Currency t) (c_StartDate t) (c_EndDate t))
    (c_document c) (c_origin c) (c_Status c) (c_Version c + 1) (c_CreatedAt c) (c_CreatedBy c)
    now actor.

Definition in_status (tenantID contractID status : string) (i : approvalInstanceRecord) : bool :=
  (ai_TenantID i =s tenantID) && (ai_ContractID i =s contractID) && (ai_Status i =s status).

(** The checks before anything is written. *)
Definition financial_checks (tenantID : string) (change : ContractFinancialChange)
    (row : contractRecord) : Tx (list PaymentTerm) :=
  skip ← lift (localOutboundNotApplicable row);
  guard skip ErrContractSourceConflict;;
  guard (negb (c_Version row =? fc_ExpectedVersion change)) ErrVersionConflict;;
  guard (negb (FinancialChangeStatusEligible (c_Status row))) ErrStateConflict;;
  guard (negb (ordinaryContractRecord row)) ErrStateConflict;;
  running ← query (count_approvals (in_status tenantID (c_ID row) StatusRunning));
  guard (0 <? running) ErrStateConflict;;
  approved ← query (count_approvals (λ i, in_status tenantID (c_ID row) StatusApproved i &&
                      contains [KindContract; KindStatusChange] (ai_Kind i)));
  guard (approved =? 0) ErrFinancialChangeApprovalRequired;;
  guard (negb (EqualFold (TrimSpace (fc_Currency change)) (TrimSpace (c_Currency (c_terms row)))))
    ErrFinancialChangeCurrencyLocked;;
  guard (fc_AmountMinor change <=? 0) ErrPaymentTermsInvalid;;
  guard (bool_decide (fc_PaymentTerms change = [])) ErrPaymentTermsInvalid;;
  lift (as_validation (NormalizePaymentTerms (fc_PaymentTerms change) (fc_AmountMinor change)
                         (c_Currency (c_terms row)))).

Definition financial_body (tenantID : string) (change : ContractFinancialChange) (actor : string)
    : Tx Z :=
  row ← take_contract tenantID (fc_ContractID change) ErrNotFound;
  terms ← financial_checks tenantID change row;
  now ← time_now;
  rows ← update_contract tenantID (c_ID row)
           (λ c, (c_Version c =? fc_ExpectedVersion change) && (c_Status c =s c_Status row))
           (contract_set_amount (fc_AmountMinor change) now actor);
  guard (negb (rows =? 1)) ErrVersionConflict;;
  replaceContractPaymentTerms tenantID (c_ID row) terms (fc_AmountMinor change)
    (c_Currency (c_terms row));;
  outcome ← enqueueFinancialEffective tenantID (c_ID row);
  guard (negb (Enqueued outcome) || negb (empty_str (SkipReason outcome)))
    ErrFinancialChangeEventNotQueued;;
  let version := fc_ExpectedVersion change + 1 in
  id ← newID;
  insert_lifecycle_row true
    (mkLifecycle id tenantID (c_ID row) (c_Status row) (c_Status row) (stringPtr actor)
       (stringPtr (fc_Reason change)) None None (version_key (c_ID row) ":financial:v" version) now);;
  contract_audit tenantID actor "CONTRACT_MANAGEMENT:FINANCIAL_TERMS_CHANGED" (c_ID row)
    (PFinancialChange (c_ID row) (fc_ExpectedVersion change) version (c_AmountMinor (c_terms row))
       (fc_AmountMinor change) (ToUpper (TrimSpace (c_Currency (c_terms row))))
       (Z.of_nat (length terms)) (fc_Reason change));;
  mret version.

Definition ApplyContractFinancialChange (tenantID : string) (change : ContractFinancialChange)
    (actor : string) (d : DB) : res Z * DB :=
  if empty_str (TrimSpace tenantID) || empty_str (TrimSpace actor) ||
     empty_str (TrimSpace (fc_ContractID change)) || (fc_ExpectedVersion change =? 0)
  then (Err ErrNotFound, d)
  else transaction (financial_body tenantID change actor) d.

(** ** The operations *)

Inductive operation : Type :=
  | OpCreate (now : Time) (c : Contract) (actor : string)
  | OpUpdateDraft (c : Contract) (expectedVersion : Z) (actor : string)
  | OpTransition (tenantID contractID : string) (expectedVersion : Z) (target : Status)
      (actor reason key : string)
  | OpStart (inp : StartApprovalActivityInput)
  | OpRecord (inp : RecordCommandActivityInput)
  | OpComplete (inp : CompleteApprovalActivityInput)
  | OpNotify (inp : NotifyActivityInput)
  | OpArchive (candidate : archiveCandidate) (additional : list string) (date : Date)
  | OpFinancial (tenantID : string) (change : ContractFinancialChange) (actor : string)
  | OpTransfer (inp : HandoverTransferInput) (now : Time).

Definition ignore_value {A} (x : res A * DB) : res unit * DB :=
  (match x.1 with Ok _ => Ok tt | Err e => Err e end, x.2).

Definition perform (op : operation) (d : DB) : res unit * DB :=
  match op with
  | OpCreate now c actor => CreateContract now c actor d
  | OpUpdateDraft c version actor => UpdateContractDraft c version actor d
  | OpTransition tenantID id version target actor reason key =>
      TransitionDirect tenantID id version target actor reason key d
  | OpStart inp => StartApproval inp d
  | OpRecord inp => RecordCommand inp d
  | OpComplete inp => CompleteApproval inp d
  | OpNotify inp => CreateNotification inp d
  | OpArchive candidate additional date => ignore_value (archiveOne candidate additional date d)
  | OpFinancial tenantID change actor =>
      ignore_value (ApplyContractFinancialChange tenantID change actor d)
  | OpTransfer inp now => ignore_value (TransferOwnership inp now d)
  end.

(** The amounts of a Go value are 64-bit integers. *)
Definition well_typed (op : operation) : Prop :=
  match op with
  | OpCreate _ c _ | OpUpdateDraft c _ _ => in_int64 (k_AmountMinor c)
  | OpFinancial _ change _ => in_int64 (fc_AmountMinor change)
  | _ => True
  end.

End Repository.

(** A call: the faults, clock and identifiers it meets, and its request. *)
Record call : Type := mkCall {
  call_oracle : Oracle; call_meta : requestMeta; call_op : operation
}.

Definition invoke `{GoUnicode} `{Sha256} `{TzDatabase} `{Collation} `{Documents} (c : call)
    (d : DB) : res unit * DB := @perform (call_oracle c) _ _ _ _ _ (call_meta c) (call_op c) d.
(** Calls one after the other. *)
Definition execute `{GoUnicode} `{Sha256} `{TzDatabase} `{Collation} `{Documents}
    (calls : list call) (d : DB) : DB := foldl (λ d c, (invoke c d).2) d calls.
