(* ===== verification/Scenario.v ===== *)
(** * A concrete run

    Instances of the parameters of the model, a contract with a payment plan in
    two terms, and the calls that take it from its creation to its effect.  The
    witnesses of the later files evaluate the repository on it. *)

From S2P Require Import Prelude GoStrings Decimal GoTime BusinessClock Status NumberRule.
From S2P Require Import PaymentTerm ProjectService ImportPolicy ApprovalRule Workflow Store.
From S2P Require Import Outbound Numbering Repository.

#[local] Open Scope string_scope.
#[local] Open Scope Z_scope.
#[local] Open Scope list_scope.

Definition sample_tz : TzDatabase := {| load_location := None |}.
Definition sample_collation : Collation := {| collate := λ s, s |}.
(** Documents are accepted and left as they are. *)
Definition sample_documents : Documents := {|
  docx_valid := λ _, Ok tt; pdf_valid := λ _, Ok tt;
  ReplaceSystemContractNumber := λ document _, Ok document; PlainText := λ document, Ok document
|}.

#[export] Existing Instances ascii_unicode sample_sha sample_tz sample_collation sample_documents.

(** No statement fails; the n-th tick of call [k] gives identifier "k.n". *)
Definition fine (k : string) : Oracle := {|
  o_fault := λ _, false; o_now := λ n, 1700000000 * Second + Z.of_nat n;
  o_id := λ n, k +:+ "." +:+ Itoa (Z.of_nat n); o_commit := None
|}.
(** The commit takes effect, and its acknowledgement is lost. *)
Definition lost (k : string) : Oracle := {|
  o_fault := λ _, false; o_now := λ n, 1700000000 * Second + Z.of_nat n;
  o_id := λ n, k +:+ "." +:+ Itoa (Z.of_nat n); o_commit := Some true
|}.

Definition sample_audit : AuditMeta := mkAudit "10.0.0.1" "10.0.0.2" "DIRECT" "req".
Definition sample_meta : requestMeta := mkMeta sample_audit "alice".

Definition plan_of_two : list PaymentTerm :=
  [mkTerm 2 "2026-06-30" "60"; mkTerm 1 "2026-03-31" "40"].

Definition sample_contract (amount : Z) (terms : list PaymentTerm) : Contract :=
  mkDomain "c1" "t1" "" "" "Maintenance" "service" "" [] []
    (mkPartyFields "" "" 7 "" "" 0 "" "" "ACME" "" "" "" "")
    (mkOwnerFields "" "" "" "alice" "Alice") amount "CNY" (Some terms)
    (mkDocumentFields "text" "" ∅ "" "" "" "" "" "" "" "" "hash")
    (mkOriginFields "" "" "" "" "" "" None) "" None None no_row.

Definition sample_nodes : list Node := [mkNode "n1" "Finance" "finance" ["bob"] CountersignAll 0].

Definition start_call (approval : string) (version : Z) : operation :=
  OpStart (mkStart approval "t1" "c1" "alice" "Alice" version KindContract StatusDraft
    StatusPending "" "rule" 1 "hash" (approval +:+ "-wf") "run" sample_nodes sample_audit).
Definition sample_state (approval status : string) : ApprovalState :=
  mkState approval KindContract status "c1" "alice" "Alice" 0 [] 0 0 0 "" [].
Definition approve_command (id : string) : ApprovalCommand :=
  mkCommand id "approve" "bob" "Bob" false "ok" [] "" "" 0.
Definition record_call (approval command status : string) : operation :=
  OpRecord (mkRecord approval "t1" "c1" "n1" (approve_command command)
    (sample_state approval status)).
Definition complete_call (approval status : string) : operation :=
  OpComplete (mkComplete approval "t1" "c1" "bob" status "ok" (approval +:+ "-wf") "" sample_audit).

Definition good_call (k : string) (op : operation) : call := mkCall (fine k) sample_meta op.

(** From creation to effect; the completion is delivered twice, because the
    acknowledgement of its commit was lost. *)
Definition sample_calls : list call :=
  [ good_call "1" (OpCreate 0 (sample_contract 10000 plan_of_two) "alice");
    good_call "2" (start_call "a1" 1);
    good_call "3" (record_call "a1" "cmd1" StatusApproved);
    mkCall (lost "4") sample_meta (complete_call "a1" StatusApproved);
    good_call "5" (complete_call "a1" StatusApproved) ].

(** The tables of a new installation. *)
Definition new_tables (numbers : option numberTables) : DB := set_numbers numbers empty_db.
Definition sample_numbers : option numberTables := Some (mkNumbers (Some sample_rule) ∅ ∅).
Notation sample_db := (execute sample_calls (new_tables sample_numbers)).
