(* ===== verification/Changes.v ===== *)
(** * Successful runs of transactions

    [runs m d a d']: from tables [d] the body [m] can succeed with [a] and
    leave [d'].  [inv_tx] decomposes a run into the runs of its statements; the
    lemmas of the second half say what each block of Outbound.v does. *)

From stdpp Require Import relations.
From stdpp Require Import sorting.
From S2P Require Import Prelude GoStrings Decimal GoTime Status PaymentTerm ProjectService.
From S2P Require Import ImportPolicy ApprovalRule Workflow Store Outbound.
From S2P Require Import BusinessClock NumberRule.
From S2P Require Import Handover Numbering Repository.

#[local] Open Scope string_scope.
#[local] Open Scope Z_scope.
#[local] Open Scope list_scope.

Definition runs {A} (m : Tx A) (d : DB) (a : A) (d' : DB) : Prop :=
  ∃ t t', m (t, d) = (Ok a, (t', d')).

Lemma runs_bind {A B} (m : Tx A) (f : A → Tx B) d b d' :
  runs (m ≫= f) d b d' → ∃ a d1, runs m d a d1 ∧ runs (f a) d1 b d'.
Proof.
  intros (t & t' & E). unfold mbind, Tx_bind in E.
  destruct (m (t, d)) as [[a|e] [t1 d1]] eqn:Em; [|discriminate].
  exists a, d1. split; [by exists t, t1|by exists t1, t'].
Qed.
Lemma runs_ret {A} (a b : A) d d' : runs (mret a) d b d' → b = a ∧ d' = d.
Proof. intros (t & t' & [= <- <- <-]). done. Qed.
Lemma runs_throw {A} e (a : A) d d' : runs (throw e) d a d' → False.
Proof. intros (t & t' & [=]). Qed.
Lemma runs_lift {A} (r : res A) d a d' : runs (lift r) d a d' → r = Ok a ∧ d' = d.
Proof. intros (t & t' & [= -> <- <-]). done. Qed.
Lemma runs_guard b e d u d' : runs (guard b e) d u d' → b = false ∧ d' = d.
Proof. intros (H & ->)%runs_lift. by apply fail_if_ok in H. Qed.

Section Statements.
Context `{Oracle}.

Lemma runs_query {A} (f : DB → A) d a d' : runs (query f) d a d' → a = f d ∧ d' = d.
Proof.
  intros (t & t' & E). unfold query in E. destruct (o_fault t); [discriminate|].
  by injection E as <- <- <-.
Qed.
Lemma runs_exec {A} (f : DB → res (A * DB)) d a d' :
  runs (exec f) d a d' → f d = Ok (a, d').
Proof.
  intros (t & t' & E). unfold exec in E. destruct (o_fault t); [discriminate|].
  destruct (f d) as [[a1 d1]|e]; [|discriminate]. by injection E as <- <- <-.
Qed.
Lemma runs_modify f d u d' : runs (modify f) d u d' → d' = f d.
Proof. intros E%runs_exec. by injection E as _ <-. Qed.
Lemma runs_now d n d' : runs time_now d n d' → d' = d.
Proof. intros (t & t' & [= <- <- <-]). done. Qed.
Lemma runs_id d n d' : runs newID d n d' → d' = d.
Proof. intros (t & t' & [= <- <- <-]). done. Qed.
Lemma runs_take_row {A} (m : Tx (option A)) e d a d' :
  runs (take_row m e) d a d' → runs m d (Some a) d'.
Proof.
  intros (r & d1 & Hm & Hr)%runs_bind. destruct r; [|by apply runs_throw in Hr].
  by apply runs_ret in Hr as [-> ->].
Qed.
Lemma runs_find_contract tenantID id d r d' :
  runs (find_contract tenantID id) d r d' →
  d' = d ∧ ∀ c, r = Some c → db_contracts d !! id = Some c ∧ c_TenantID c = tenantID.
Proof.
  intros (-> & ->)%runs_query. split; [done|]. intros c E.
  destruct (db_contracts d !! id) as [c0|]; [|done].
  destruct (c_TenantID c0 =s tenantID) eqn:Et; [|done]. apply streq_true in Et. naive_solver.
Qed.
Lemma runs_take_contract tenantID id e d c d' :
  runs (take_contract tenantID id e) d c d' →
  db_contracts d !! id = Some c ∧ c_TenantID c = tenantID ∧ d' = d.
Proof. intros (-> & Hc)%runs_take_row%runs_find_contract. naive_solver. Qed.

(** The number of rows is 1 exactly when the row was there and passed the
    condition. *)
Lemma runs_update_contract tenantID id where_ f d n d' :
  runs (update_contract tenantID id where_ f) d n d' →
  (n = 1 ∧ ∃ c, db_contracts d !! id = Some c ∧ c_TenantID c = tenantID ∧ where_ c = true ∧
     d' = set_contracts (<[id := f c]> (db_contracts d)) d) ∨ (n = 0 ∧ d' = d).
Proof.
  intros E%runs_exec. cbv beta in E.
  destruct (db_contracts d !! id) as [c|]; [|right; by injection E as <- <-].
  destruct (c_TenantID c =s tenantID) eqn:Et; cbn [andb] in E; [|right; by injection E as <- <-].
  destruct (where_ c) eqn:Ew; [|right; by injection E as <- <-].
  left. injection E as <- <-. apply streq_true in Et. eauto 10.
Qed.

(** A transaction leaves the tables alone, or its body ran. *)
Lemma transaction_runs {A} (m : Tx A) d r d' :
  transaction m d = (r, d') → d' = d ∨ ∃ a, runs m d a d'.
Proof.
  unfold transaction. intros E.
  destruct (m (0%nat, d)) as [[a|e] [t1 d1]] eqn:Em; [|left; naive_solver].
  assert (runs m d a d1) as Hr by (by exists 0%nat, t1).
  destruct o_commit as [[]|]; simplify_eq; eauto.
Qed.

(** A transaction that returned a value or changed a table ran its body. *)
Lemma transaction_effective {A} (m : Tx A) d r d' :
  transaction m d = (r, d') → (∃ a, r = Ok a) ∨ d' ≠ d → ∃ a, runs m d a d'.
Proof.
  unfold transaction. intros E Hor.
  destruct (m (0%nat, d)) as [[a|e] [t1 d1]] eqn:Em; [|naive_solver].
  assert (runs m d a d1) as Hr by (by exists 0%nat, t1).
  destruct o_commit as [[]|]; simplify_eq; [eauto|naive_solver|eauto].
Qed.

End Statements.

(** Decompose a run. *)
Ltac inv_tx H :=
  cbv beta zeta in H;
  lazymatch type of H with
  | runs (_ ≫= _) _ _ _ =>
      let a := fresh "v" in let s := fresh "s" in let Hm := fresh "Hm" in
      apply runs_bind in H as (a & s & Hm & H); inv_tx Hm; inv_tx H
  | runs (mret _) _ _ _ => apply runs_ret in H as [? ?]; subst
  | runs (throw _) _ _ _ => apply runs_throw in H as []
  | runs (guard _ _) _ _ _ => apply runs_guard in H as [H ?]; subst
  | runs (lift _) _ _ _ => apply runs_lift in H as [H ?]; subst
  | runs (query _) _ _ _ => apply runs_query in H as [? ?]; subst
  | runs (modify _) _ _ _ => apply runs_modify in H; subst
  | runs time_now _ _ _ => apply runs_now in H; subst
  | runs newID _ _ _ => apply runs_id in H; subst
  | runs (take_contract _ _ _) _ _ _ => apply runs_take_contract in H as (H & ? & ->)
  | runs (take_row _ _) _ _ _ => apply runs_take_row in H; inv_tx H
  | runs (countRunningApprovals _ _ _) _ _ _ => unfold countRunningApprovals in H; inv_tx H
  | runs (ListContractPaymentTerms _ _) _ _ _ => unfold ListContractPaymentTerms in H; inv_tx H
  | _ => idtac
  end.

Lemma set_streams_id d :
  set_streams (db_streams d) (set_responsibility (db_responsibility d) d) = d.
Proof. by destruct d. Qed.
Lemma set_responsibility_id d : set_responsibility (db_responsibility d) d = d.
Proof. by destruct d. Qed.
Lemma set_financial_id d : set_financial (db_financial d) d = d.
Proof. by destruct d. Qed.
Lemma set_project_id d : set_project (db_project d) (set_audit (db_audit d) d) = d.
Proof. by destruct d. Qed.
Lemma set_payment_id d : set_payment (db_payment d) d = d.
Proof. by destruct d. Qed.
Lemma set_numbers_id d : set_numbers (db_numbers d) d = d.
Proof. by destruct d. Qed.
Lemma set_contracts_id d : set_contracts (db_contracts d) d = d.
Proof. by destruct d. Qed.
Lemma set_tasks_id d : set_tasks (db_tasks d) d = d.
Proof. by destruct d. Qed.

Lemma insert_unique_ok {R} (same : R → R → bool) r rows rows' :
  insert_unique same r rows = Ok rows' → rows' = rows ++ [r] ∧ existsb (same r) rows = false.
Proof. unfold insert_unique. destruct (existsb _ _); naive_solver. Qed.

(** ** Logs *)

Section Blocks.
Context `{Oracle}.

Lemma runs_audit tenantID event entry d u d' :
  runs (insertAuditOutbox tenantID event entry) d u d' →
  ∃ row, d' = set_audit (db_audit d ++ [row]) d ∧ au_Payload row = ae_Payload entry.
Proof.
  intros Hr. unfold insertAuditOutbox in Hr. inv_tx Hr. eexists. split; [reflexivity|done].
Qed.

Lemma runs_lifecycle_row ignore r d u d' :
  runs (insert_lifecycle_row ignore r) d u d' → ∃ L, d' = set_lifecycle L d.
Proof.
  intros E%runs_exec. destruct ignore; [injection E as _ <-; eauto|]. inv_ok E. eauto.
Qed.

Lemma runs_lifecycle meta inp from to actor reason key d u d' :
  runs (insertLifecycle meta inp from to actor reason key) d u d' →
  ∃ L row, d' = set_audit (db_audit d ++ [row]) (set_lifecycle L d) ∧
    au_Payload row = PStatusChange (li_ContractID inp) from to reason.
Proof.
  intros Hr. unfold insertLifecycle in Hr. inv_tx Hr.
  match goal with h : runs (insert_lifecycle_row _ _) _ _ _ |- _ =>
    apply runs_lifecycle_row in h as (L & ->) end.
  apply runs_audit in Hr as (row & -> & Hp). exists L, row. done.
Qed.

(** ** The responsibility stream *)

Definition stream_version (S : gmap (string * string) contractResponsibilityStream)
    (key : string * string) : Z := match S !! key with Some s => rs_Version s | None => 0 end.

Record responsibility_row (tenantID id : string) (v : Z) (c : contractRecord)
    (r : deliveryOutboxRecord responsibilityPayload) : Prop := {
  rr_tenant : do_TenantID r = tenantID;
  rr_contract : do_ContractID r = id;
  rr_version : do_ContractVersion r = v;
  rr_delivery : ∃ next, do_Delivery r = queued next;
  rr_payload : ∃ ev now, do_Payload r = JsonOf (newResponsibilityPayload ev c v now)
}.

Inductive stream_effect (tenantID id : string) (c : contractRecord)
    (S : gmap (string * string) contractResponsibilityStream)
    (R : list (deliveryOutboxRecord responsibilityPayload)) :
    gmap (string * string) contractResponsibilityStream →
    list (deliveryOutboxRecord responsibilityPayload) → Prop :=
  | stream_same s :
      S !! (tenantID, id) = Some s → 0 < rs_Version s →
      rs_OwnerUserID s = c_OwnerUserID (c_owner c) → rs_Active s = responsibilityActive c →
      stream_effect tenantID id c S R S R
  | stream_silent v now :
      v = stream_version S (tenantID, id) + 1 → localOutboundNotApplicable c = Ok true →
      stream_effect tenantID id c S R
        (<[(tenantID, id) := mkStream (c_OwnerUserID (c_owner c)) (responsibilityActive c) v now]> S)
        R
  | stream_sent v now r :
      v = stream_version S (tenantID, id) + 1 → localOutboundNotApplicable c = Ok false →
      responsibility_row tenantID id v c r → existsb (same_delivery r) R = false →
      stream_effect tenantID id c S R
        (<[(tenantID, id) := mkStream (c_OwnerUserID (c_owner c)) (responsibilityActive c) v now]> S)
        (R ++ [r]).

Lemma runs_responsibility tenantID id d u d' :
  runs (enqueueContractResponsibility tenantID id) d u d' →
  ∃ c S R, db_contracts d !! id = Some c ∧ c_TenantID c = tenantID ∧
    d' = set_streams S (set_responsibility R d) ∧
    stream_effect tenantID id c (db_streams d) (db_responsibility d) S R.
Proof.
  intros Hr. unfold enqueueContractResponsibility in Hr.
  apply runs_bind in Hr as (c & s & Hc & Hr). inv_tx Hc.
  apply runs_bind in Hr as (seeded & s1 & Hn%runs_now & Hr). subst s1.
  apply runs_bind in Hr as (? & s1 & Hm%runs_modify & Hr).
  apply runs_bind in Hr as (stream & s2 & Hq & Hr).
  apply runs_take_row, runs_query in Hq as [Hq ->].
  exists c. destruct (_ && _) eqn:Eg in Hr.
  - apply runs_ret in Hr as [-> ->]. bool_hyps.
    match goal with h : (_ =s _) = true |- _ => apply streq_true in h end.
    match goal with h : Bool.eqb _ _ = true |- _ => apply eqb_prop in h end.
    exists (db_streams d), (db_responsibility d).
    destruct (db_streams d !! (tenantID, id)) as [s|] eqn:Es; subst s1.
    + rewrite Es in Hq. injection Hq as <-. rewrite set_streams_id.
      split_and!; [done..|]. by eapply stream_same.
    + cbn [db_streams set_streams] in Hq. rewrite lookup_insert_eq in Hq. injection Hq as ->.
      simpl in *. lia.
  - apply runs_bind in Hr as (now & s2 & Hn%runs_now & Hr). subst s2.
    apply runs_bind in Hr as (? & s2 & Hm2%runs_modify & Hr).
    apply runs_bind in Hr as (skip & s3 & Hl & Hr). apply runs_lift in Hl as [Hl ->].
    assert (rs_Version stream + 1 = stream_version (db_streams d) (tenantID, id) + 1 ∧
      s2 = set_streams (<[(tenantID, id) := mkStream (c_OwnerUserID (c_owner c))
             (responsibilityActive c) (rs_Version stream + 1) now]> (db_streams d)) d)
      as [Hv ->].
    { subst s2 s1. unfold stream_version.
      destruct (db_streams d !! (tenantID, id)) as [s|] eqn:Es.
      - rewrite Es in Hq. by injection Hq as <-.
      - cbn [db_streams set_streams] in Hq |- *. rewrite lookup_insert_eq in Hq.
        injection Hq as ->. by rewrite insert_insert_eq. }
    clear Hm Hq Hm2. destruct skip.
    + apply runs_ret in Hr as [-> ->].
      eexists _, (db_responsibility d). split_and!; [done..| |by eapply stream_silent].
      by destruct d.
    + inv_tx Hr. apply runs_exec in Hr. inv_ok Hr.
      apply insert_unique_ok in Hv0 as [-> Hu].
      eexists _, _. split_and!; [done..| |eapply stream_sent; [exact Hv|done| |exact Hu]];
        [reflexivity|]. split; try done; [by eexists|by eexists _, _].
Qed.

(** ** The status *)

Lemma runs_updateStatus tenantID id from to actor d u d' :
  runs (updateStatus tenantID id from to actor) d u d' →
  ∃ c now S R, db_contracts d !! id = Some c ∧ c_TenantID c = tenantID ∧ c_Status c = from ∧
    CanTransition from to = true ∧
    let c' := contract_set_status to now actor c in
    d' = set_streams S (set_responsibility R (set_contracts (<[id := c']> (db_contracts d)) d)) ∧
    stream_effect tenantID id c' (db_streams d) (db_responsibility d) S R.
Proof.
  intros Hr. unfold updateStatus in Hr.
  apply runs_bind in Hr as (? & s & Hl & Hr). apply runs_lift in Hl as [Hl ->].
  apply runs_bind in Hr as (now & s1 & Hn%runs_now & Hr). subst s1.
  apply runs_bind in Hr as (n & s & Hu%runs_update_contract & Hr).
  apply runs_bind in Hr as (? & s1 & Hg & Hr). apply runs_guard in Hg as [Hg ->]. bool_hyps.
  destruct Hu as [(_ & c & Hc & Ht & Hw & ->)|[-> _]]; [|done]. apply streq_true in Hw.
  unfold ValidateTransition in Hl. inv_ok Hl. bool_hyps.
  apply runs_responsibility in Hr as (c' & S & R & Hc' & Ht' & -> & He).
  cbn in Hc'. rewrite lookup_insert_eq in Hc'. injection Hc' as <-.
  exists c, now, S, R. split_and!; done.
Qed.

End Blocks.

(** ** The payment plan *)

Definition plan_rows (tenantID id : string) (P : list paymentTermRow) : list paymentTermRow :=
  merge_sort by_installment (filter (λ r, of_contract tenantID id r = true) P).

Definition plan_effect `{GoUnicode} (tenantID id : string) (terms : list PaymentTerm)
    (amount : Z) (currency : string) (P P' : list paymentTermRow) : Prop :=
  ∃ out rows, NormalizePaymentTerms terms amount currency = Ok out ∧
    P' = filter (λ r, of_contract tenantID id r = false) P ++ rows ∧
    Forall (λ r, of_contract tenantID id r = true) rows ∧
    ((out = [] ∧ rows = []) ∨
     ∃ total, out ≠ [] ∧ normalizePaymentTerms out amount = Ok (map pr_term rows, total)).

Section Plan.
Context `{GoUnicode}.

Lemma as_validation_ok {A} (r : res A) a : as_validation r = Ok a → r = Ok a.
Proof. by destruct r. Qed.

Lemma insert_terms_ok rows new rows' : insert_terms rows new = Ok rows' → rows' = rows ++ new.
Proof.
  revert rows. induction new as [|r new IH]; intros rows E; cbn in E.
  { injection E as <-. by rewrite app_nil_r. }
  inv_ok E. apply insert_unique_ok in Hv as [-> _]. apply IH in E as ->.
  by rewrite <- app_assoc.
Qed.

Lemma runs_term_rows `{Oracle} tenantID id now records d rows d' :
  runs (term_rows tenantID id now records) d rows d' →
  d' = d ∧ map pr_term rows = records ∧ Forall (λ r, of_contract tenantID id r = true) rows.
Proof.
  revert rows. induction records as [|r records IH]; intros rows Hr; cbn [term_rows] in Hr.
  { inv_tx Hr. done. }
  inv_tx Hr. match goal with h : runs (term_rows _ _ _ _) _ _ _ |- _ =>
    apply IH in h as (-> & <- & Hf) end. split_and!; [done..|].
  constructor; [|done]. unfold of_contract. cbn. by rewrite !streq_refl.
Qed.

Lemma runs_replace `{Oracle} tenantID id terms amount currency d u d' :
  runs (replaceContractPaymentTerms tenantID id terms amount currency) d u d' →
  ∃ P, d' = set_payment P d ∧ plan_effect tenantID id terms amount currency (db_payment d) P.
Proof.
  intros Hr. unfold replaceContractPaymentTerms in Hr.
  apply runs_bind in Hr as (out & s & Hl & Hr). inv_tx Hl. apply as_validation_ok in Hl.
  apply runs_bind in Hr as (? & s & Hm & Hr). inv_tx Hm.
  case_bool_decide as Hout; subst.
  - inv_tx Hr. eexists. split; [reflexivity|]. exists [], []. rewrite app_nil_r.
    split_and!; [done..|]. by left.
  - apply runs_bind in Hr as ([records total] & s & Hl2 & Hr). inv_tx Hl2.
    apply as_validation_ok in Hl2.
    apply runs_bind in Hr as (now & s & Hn%runs_now & Hr). subst s.
    apply runs_bind in Hr as (rows & s & Hrows%runs_term_rows & Hr).
    destruct Hrows as (-> & Hrec & Hof). cbn in Hrec. subst records.
    apply runs_exec in Hr. inv_ok Hr. apply insert_terms_ok in Hv as ->.
    eexists. split; [reflexivity|]. exists out, rows. split_and!; [done..|]. right. eauto.
Qed.

Lemma filter_of_other tenantID id t i (P : list paymentTermRow) :
  (t, i) ≠ (tenantID, id) →
  filter (λ r, of_contract t i r = true) (filter (λ r, of_contract tenantID id r = false) P) =
  filter (λ r, of_contract t i r = true) P.
Proof.
  intros Hne. induction P as [|r P IH]; [done|]. rewrite !filter_cons.
  destruct (decide (of_contract tenantID id r = false)) as [Ho|Ho].
  - rewrite filter_cons, IH. by destruct (decide (of_contract t i r = true)).
  - rewrite IH. destruct (decide (of_contract t i r = true)) as [Ht|]; [|done].
    exfalso. apply Hne. apply not_false_is_true in Ho.
    unfold of_contract in *. bool_hyps.
    repeat match goal with h : (_ =s _) = true |- _ => apply streq_true in h end. congruence.
Qed.


Lemma plan_rows_other tenantID id terms amount currency P P' t i :
  plan_effect tenantID id terms amount currency P P' → (t, i) ≠ (tenantID, id) →
  plan_rows t i P' = plan_rows t i P.
Proof.
  intros (out & rows & _ & -> & Hof & _) Hne. unfold plan_rows. f_equal.
  rewrite filter_app, filter_of_other by done.
  rewrite (filter_none _ rows), app_nil_r; [done|].
  eapply Forall_impl; [exact Hof|]. intros r Ho Ht. apply Hne.
  unfold of_contract in *. bool_hyps.
  repeat match goal with h : (_ =s _) = true |- _ => apply streq_true in h end. congruence.
Qed.

#[local] Instance by_installment_total : Total by_installment.
Proof. intros a b. unfold by_installment. lia. Qed.
#[local] Instance by_installment_trans : Transitive by_installment.
Proof. intros a b c. unfold by_installment. lia. Qed.

Lemma merge_sort_fixed rows :
  NoDup (map (tr_InstallmentNo ∘ pr_term) rows) → Sorted by_installment rows →
  merge_sort by_installment rows = rows.
Proof.
  intros Hnd Hs. apply (Sorted_unique_strong by_installment);
    [|apply Sorted_merge_sort; apply _|done|apply merge_sort_Permutation].
  intros x y Hx Hy Hxy Hyx. rewrite merge_sort_Permutation in Hx.
  assert (tr_InstallmentNo (pr_term x) = tr_InstallmentNo (pr_term y)) as E
    by (unfold by_installment in *; lia).
  clear Hs Hxy Hyx. induction rows as [|r rows IH]; [set_solver|]. cbn [map] in Hnd.
  apply NoDup_cons in Hnd as [Hr Hnd].
  apply elem_of_cons in Hx as [->|Hx], Hy as [->|Hy]; auto.
  - exfalso. apply Hr. apply list_elem_of_fmap. by exists y.
  - exfalso. apply Hr. apply list_elem_of_fmap. exists x. unfold compose. by rewrite E.
Qed.

(** Reading the plan back gives the normalised terms. *)
Lemma plan_rows_own tenantID id terms amount currency P P' :
  in_int64 amount → plan_effect tenantID id terms amount currency P P' →
  ∃ out, NormalizePaymentTerms terms amount currency = Ok out ∧
    NormalizePaymentTerms out amount currency = Ok out ∧
    map pr_term (plan_rows tenantID id P') = map term_record out ∧
    map term_text (map term_record out) = out ∧ (out = [] ∨ plan_ok out amount currency).
Proof.
  intros Ha (out & rows & Hn & -> & Hof & Hcase). exists out.
  assert (filter (λ r, of_contract tenantID id r = true)
            (filter (λ r, of_contract tenantID id r = false) P ++ rows) = rows) as Hfilter.
  { rewrite filter_app, (filter_all _ rows) by done. rewrite filter_none; [done|].
    apply Forall_forall. intros r [Hr _]%list_elem_of_filter. congruence. }
  unfold plan_rows. rewrite Hfilter. destruct Hcase as [[-> ->]|(total & Hne & Hrec)].
  { split_and!; [done..|by left]. }
  assert (terms ≠ []) as Hterms by (intros ->; cbn in Hn; by injection Hn as <-).
  destruct (plan_stable _ _ _ _ Ha Hterms Hn) as (Hs & _ & _ & Hn2 & Hr & Ht & _ & Hok).
  rewrite Hr in Hrec. injection Hrec as Hrec _.
  assert (map InstallmentNo out = map (tr_InstallmentNo ∘ pr_term) rows) as Hnum.
  { transitivity (map tr_InstallmentNo (map pr_term rows)); [|by rewrite map_map].
    by rewrite <- Hrec, map_map. }
  rewrite merge_sort_fixed, <- Hrec; [by split_and!; [..|right]| |].
  - rewrite <- Hnum. apply Hok.
  - clear -Hs Hnum. revert rows Hnum. induction out as [|t out IH]; intros [|r rows] E;
      try discriminate E; [constructor|].
    cbn [map] in E. injection E as E1 E2. apply Sorted_inv in Hs as [Hs Hh].
    constructor; [by apply IH|]. destruct out as [|t2 out], rows as [|r2 rows]; try discriminate E2;
      constructor. cbn [map] in E2. injection E2 as E2 _. inversion Hh; subst.
    unfold by_installment, by_number in *. cbn in *. lia.
Qed.

End Plan.

(** ** The events of a contract that takes effect *)

Record financial_row `{GoUnicode} (tenantID : string) (c : contractRecord)
    (terms : list paymentTermRow) (r : deliveryOutboxRecord financialEffectivePayload)
    : Prop := {
  fr_tenant : do_TenantID r = tenantID;
  fr_contract : do_ContractID r = c_ID c;
  fr_version : do_ContractVersion r = c_Version c;
  fr_delivery : ∃ next, do_Delivery r = queued next;
  fr_payload : ∃ ev now, do_Payload r = JsonOf (newFinancialEffectivePayload ev c terms now)
}.

Definition financial_effect `{GoUnicode} (tenantID : string) (c : contractRecord)
    (terms : list paymentTermRow) (F F' : list (deliveryOutboxRecord financialEffectivePayload))
    : Prop :=
  F' = F ∨
  ∃ r, localOutboundNotApplicable c = Ok false ∧ financialEffectiveSkipReason c terms = "" ∧
    financial_row tenantID c terms r ∧ F' = insert_ignore same_delivery r F.

Record project_row `{GoUnicode} (tenantID id : string) (c : contractRecord)
    (r : deliveryOutboxRecord projectActivationPayload) : Prop := {
  jr_tenant : do_TenantID r = tenantID;
  jr_contract : do_ContractID r = c_ID c;
  jr_version : do_ContractVersion r = c_Version c;
  jr_delivery : ∃ next, do_Delivery r = queued next;
  jr_payload : ∃ at_ stamped items, unmarshal (c_ServiceItems (c_terms c)) = Ok items ∧
    do_Payload r = JsonOf (newProjectActivationPayload c at_ stamped
      (ProjectServiceItems id items))
}.

Section Events.
Context `{Oracle} `{GoUnicode}.

Lemma runs_financial tenantID id d out d' :
  runs (enqueueFinancialEffective tenantID id) d out d' →
  ∃ c F, db_contracts d !! id = Some c ∧ c_TenantID c = tenantID ∧ d' = set_financial F d ∧
    let terms := plan_rows tenantID id (db_payment d) in
    (Enqueued out = false ∧ F = db_financial d ∧
       (localOutboundNotApplicable c = Ok true ∨ financialEffectiveSkipReason c terms ≠ "") ∨
     Enqueued out = true ∧ localOutboundNotApplicable c = Ok false ∧
     financialEffectiveSkipReason c terms = "" ∧
     ∃ r, financial_row tenantID c terms r ∧ F = insert_ignore same_delivery r (db_financial d)).
Proof.
  intros Hr. unfold enqueueFinancialEffective in Hr.
  apply runs_bind in Hr as ([[row terms] eligible] & s & Hm & Hr).
  unfold financialEffectiveEligible in Hm.
  apply runs_bind in Hm as (c & s1 & Hc & Hm). inv_tx Hc.
  apply runs_bind in Hm as (skip & s1 & Hl & Hm). inv_tx Hl.
  destruct skip.
  - apply runs_ret in Hm as [[= -> -> ->] ->]. cbn [negb] in Hr. inv_tx Hr.
    exists c, (db_financial d). rewrite set_financial_id. split_and!; [done..|]. left. auto.
  - apply runs_bind in Hm as (terms0 & s1 & Hq & Hm). apply runs_query in Hq as [-> ->].
    apply runs_ret in Hm as [[= -> -> ->] ->].
    destruct (empty_str (financialEffectiveSkipReason c _)) eqn:Es; cbn [negb] in Hr.
    + inv_tx Hr. eexists c, _. split_and!; [done..|]. right. apply streq_true in Es.
      split_and!; [done..|]. eexists. split; [|reflexivity].
      split; try done; [by eexists|by eexists _, _].
    + inv_tx Hr. exists c, (db_financial d). rewrite set_financial_id.
      split_and!; [done..|]. left. apply streq_false in Es. auto.
Qed.

Lemma runs_project meta tenantID id d u d' :
  runs (enqueueProjectActivation meta tenantID id) d u d' →
  ∃ c J A, db_contracts d !! id = Some c ∧ c_TenantID c = tenantID ∧
    d' = set_project J (set_audit A d) ∧
    (J = db_project d ∧ A = db_audit d ∨
     ∃ r row n, J = insert_ignore same_delivery r (db_project d) ∧ A = db_audit d ++ [row] ∧
       localOutboundNotApplicable c = Ok false ∧ ordinaryContractRecord c = true ∧
       project_row tenantID id c r ∧ au_Payload row = PHandedOff (c_ID c) (c_Version c) n).
Proof.
  intros Hr. unfold enqueueProjectActivation in Hr.
  apply runs_bind in Hr as (c & s1 & Hc & Hr). inv_tx Hc.
  apply runs_bind in Hr as (skip & s1 & Hl & Hr). inv_tx Hl.
  destruct skip; [|destruct (negb (ordinaryContractRecord c)) eqn:Eo].
  1, 2: inv_tx Hr; exists c, (db_project d), (db_audit d); rewrite set_project_id;
    split_and!; [done..|by left].
  apply negb_false_iff in Eo. inv_tx Hr. apply runs_audit in Hr as (row & -> & Hp).
  eexists c, _, _. split; [exact Hc|]. split; [done|]. split; [reflexivity|].
  right. eexists _, row, _. split_and!; [reflexivity..|done|done| |exact Hp].
  split; try reflexivity; [by eexists|]. eexists _, _, _. split; [exact Hm|reflexivity].
Qed.

End Events.

(** * What a transaction can do to a contract

    [Core] is the part of the tables that says what a contract is and what
    other systems are told about it: the rows, the responsibility streams, the
    payment plan, the three outboxes, the history in the audit log and the tables
    of contract numbers.  [change] is the specification of the repository: the ways
    [Core] changes.  The operations of Repository.v refine it ([perform_refines]):
    each commits a sequence of changes, or nothing. *)

(** The entries of the audit log that carry a contract's status. *)
Definition is_history (p : auditPayload) : bool :=
  match p with
  | PCreated _ _ _ _ _ | PStatusChange _ _ _ _ => true
  | _ => false
  end.
Definition history (audit : list auditOutboxRecord) : list auditPayload :=
  filter (λ p, is_history p = true) (map au_Payload audit).
#[global] Arguments history : simpl never.

Lemma history_snoc audit row :
  history (audit ++ [row]) =
  history audit ++ (if is_history (au_Payload row) then [au_Payload row] else []).
Proof.
  unfold history. rewrite map_app, filter_app. f_equal. cbn [map].
  rewrite filter_cons. destruct (is_history (au_Payload row)); by case_decide.
Qed.

Record Core : Type := mkCore {
  x_contracts : gmap string contractRecord;
  x_streams : gmap (string * string) contractResponsibilityStream;
  x_responsibility : list (deliveryOutboxRecord responsibilityPayload);
  x_payment : list paymentTermRow;
  x_financial : list (deliveryOutboxRecord financialEffectivePayload);
  x_project : list (deliveryOutboxRecord projectActivationPayload);
  x_history : list auditPayload;
  x_numbers : option numberTables
}.
Definition core (d : DB) : Core :=
  mkCore (db_contracts d) (db_streams d) (db_responsibility d) (db_payment d) (db_financial d)
    (db_project d) (history (db_audit d)) (db_numbers d).

(** A registry never loses a row, and the rule stays. *)
Definition numbers_grow (o o' : option numberTables) : Prop :=
  match o, o' with
  | None, None => True
  | Some n, Some n' => nt_rule n' = nt_rule n ∧ nt_registry n ⊆ nt_registry n'
  | _, _ => False
  end.
#[export] Instance numbers_grow_refl : Reflexive numbers_grow.
Proof. intros [n|]; simpl; auto. Qed.
#[export] Instance numbers_grow_trans : Transitive numbers_grow.
Proof.
  intros [a|] [b|] [c|]; simpl; try done. intros [E1 L1] [E2 L2].
  split; [congruence|by etrans].
Qed.

(** The contracts callers create: any, unless a client says more. *)
Class Creations := { creatable : Contract → Prop }.
#[export] Instance any_creation : Creations := {| creatable _ := True |}.

Section Changes.
Context {creations : Creations} `{GoUnicode} `{Sha256} `{Collation}.

(** The number of a contract is in the registry, issued to it. *)
Definition registered (o : option numberTables) (number tenantID id : string) : Prop :=
  ∃ n r, o = Some n ∧ nt_registry n !! collate number = Some r ∧
    nr_ContractNumber r = number ∧ nr_TenantID r = tenantID ∧ nr_ContractID r = id.

(** A contract without a number receives one, which is registered for it when the
    system has a rule, or nothing is done. *)
Inductive numbered (contracts : gmap string contractRecord) (numbers : option numberTables)
    (id : string) (c : contractRecord) : contractRecord → option numberTables → Prop :=
  | numbered_already : numbered contracts numbers id c c numbers
  | numbered_now u now N :
      valueOrEmpty (c_ContractNumber c) = "" →
      number_taken (c_TenantID c) id (Some (u_ContractNumber u)) contracts = false →
      numbers_grow numbers N →
      (∀ n, numbers = Some n → is_Some (nt_rule n) →
        registered N (u_ContractNumber u) (c_TenantID c) id) →
      numbered contracts numbers id c (contract_set_number u now c) N.

Inductive change (x : Core) : Core → Prop :=
  | ch_create k origin now actor P S R :
      let row := new_contract k origin now actor in
      creatable k → in_int64 (k_AmountMinor k) →
      applyContractSource k = Ok origin → x_contracts x !! k_ID k = None →
      number_taken (k_TenantID k) (k_ID k) (stringPtr (k_Number k)) (x_contracts x) = false →
      stream_effect (k_TenantID k) (k_ID k) row (x_streams x) (x_responsibility x) S R →
      plan_effect (k_TenantID k) (k_ID k) (terms_or_nil k) (k_AmountMinor k) (k_Currency k)
        (x_payment x) P →
      change x (mkCore (<[k_ID k := row]> (x_contracts x)) S R P (x_financial x) (x_project x)
        (x_history x ++ [PCreated (k_ID k) (created_status k) (k_Type k) (k_AmountMinor k)
                           (k_Currency k)]) (x_numbers x))
  | ch_draft k c now actor terms P :
      in_int64 (k_AmountMinor k) →
      x_contracts x !! k_ID k = Some c → c_TenantID c = k_TenantID k →
      c_Status c = StatusDraft →
      plan_effect (k_TenantID k) (k_ID k) terms (k_AmountMinor k) (k_Currency k) (x_payment x) P →
      change x (mkCore (<[k_ID k := contract_set_draft k (c_Version c + 1) now actor c]>
                          (x_contracts x))
        (x_streams x) (x_responsibility x) P (x_financial x) (x_project x) (x_history x)
        (x_numbers x))
  | ch_status id c c1 to now actor reason S R N :
      x_contracts x !! id = Some c → numbered (x_contracts x) (x_numbers x) id c c1 N →
      CanTransition (c_Status c) to = true →
      let c' := contract_set_status to now actor c1 in
      stream_effect (c_TenantID c) id c' (x_streams x) (x_responsibility x) S R →
      change x (mkCore (<[id := c']> (x_contracts x)) S R (x_payment x) (x_financial x)
        (x_project x) (x_history x ++ [PStatusChange id (c_Status c) to reason]) N)
  | ch_amount id c amount now actor terms P :
      in_int64 amount → 0 < amount → x_contracts x !! id = Some c →
      FinancialChangeStatusEligible (c_Status c) = true →
      plan_effect (c_TenantID c) id terms amount (c_Currency (c_terms c)) (x_payment x) P →
      change x (mkCore (<[id := contract_set_amount amount now actor c]> (x_contracts x))
        (x_streams x) (x_responsibility x) P (x_financial x) (x_project x) (x_history x)
        (x_numbers x))
  | ch_financial id c r :
      x_contracts x !! id = Some c → localOutboundNotApplicable c = Ok false →
      let terms := plan_rows (c_TenantID c) id (x_payment x) in
      financialEffectiveSkipReason c terms = "" → financial_row (c_TenantID c) c terms r →
      change x (mkCore (x_contracts x) (x_streams x) (x_responsibility x) (x_payment x)
        (insert_ignore same_delivery r (x_financial x)) (x_project x) (x_history x) (x_numbers x))
  | ch_project id c r :
      x_contracts x !! id = Some c → localOutboundNotApplicable c = Ok false →
      ordinaryContractRecord c = true → project_row (c_TenantID c) id c r →
      change x (mkCore (x_contracts x) (x_streams x) (x_responsibility x) (x_payment x)
        (x_financial x) (insert_ignore same_delivery r (x_project x)) (x_history x) (x_numbers x))
  | ch_owner id c to display now S R :
      x_contracts x !! id = Some c →
      let c' := contract_set_owner to display now c in
      stream_effect (c_TenantID c) id c' (x_streams x) (x_responsibility x) S R →
      change x (mkCore (<[id := c']> (x_contracts x)) S R (x_payment x) (x_financial x)
        (x_project x) (x_history x) (x_numbers x)).

End Changes.
