(* ===== verification/Refinement.v ===== *)
(** * The repository refines its specification

    Every operation of Repository.v, whatever statement fails and whatever
    happens to the commit, changes [core] by a sequence of [change]s. *)

From stdpp Require Import relations sorting.
From S2P Require Import Prelude GoStrings Decimal GoTime BusinessClock Status NumberRule.
From S2P Require Import PaymentTerm ProjectService ImportPolicy ApprovalRule Workflow Store.
From S2P Require Import Outbound Handover Numbering Repository Changes.

#[local] Open Scope string_scope.
#[local] Open Scope Z_scope.
#[local] Open Scope list_scope.

(** A row is stored under its identifier. *)
Definition keyed (x : Core) : Prop := ∀ id c, x_contracts x !! id = Some c → c_ID c = id.

Section Bodies.
Context {creations : Creations} `{Oracle} `{GoUnicode} `{Sha256} `{TzDatabase} `{Collation} `{Documents}.
Variable meta : requestMeta.

Lemma runs_contract_audit tenantID actor action id payload d u d' :
  runs (contract_audit meta tenantID actor action id payload) d u d' →
  ∃ row, d' = set_audit (db_audit d ++ [row]) d ∧ au_Payload row = payload.
Proof. intros Hr. unfold contract_audit in Hr. inv_tx Hr. by apply runs_audit in Hr. Qed.

(** Blocks that leave [core] alone. *)
Lemma core_log row L d :
  is_history (au_Payload row) = false →
  core (set_audit (db_audit d ++ [row]) (set_lifecycle L d)) = core d.
Proof. intros Hh. unfold core. cbn. by rewrite history_snoc, Hh, app_nil_r. Qed.

Lemma runs_create_tasks tasks d u d' : runs (create_tasks tasks) d u d' → ∃ T, d' = set_tasks T d.
Proof.
  unfold create_tasks. case_bool_decide.
  - intros [_ ->]%runs_ret. exists (db_tasks d). by rewrite set_tasks_id.
  - intros E%runs_exec. inv_ok E. eauto.
Qed.

Lemma runs_notifications build rows d u d' :
  runs (insert_notifications build rows) d u d' → ∃ N, d' = set_notifications N d.
Proof.
  revert d. induction rows as [|r rows IH]; intros d Hr; cbn [insert_notifications] in Hr.
  - inv_tx Hr. exists (db_notifications d). by destruct d.
  - inv_tx Hr. apply IH in Hr as (N & ->). exists N. done.
Qed.

(** A direct change of status, or one that follows the issue of a number. *)
Lemma status_change (x : Core) N tenantID id c c1 from to actor reason key li d u d1 u' d2 :
  x_contracts x !! id = Some c → numbered (x_contracts x) (x_numbers x) id c c1 N →
  core d = mkCore (<[id := c1]> (x_contracts x)) (x_streams x) (x_responsibility x) (x_payment x)
             (x_financial x) (x_project x) (x_history x) N →
  li_ContractID li = id →
  runs (updateStatus tenantID id from to actor) d u d1 →
  runs (insertLifecycle meta li from to actor reason key) d1 u' d2 →
  change x (core d2).
Proof.
  intros Hc Hn Hx Hid Hs Hl. unfold core in Hx. destruct x. injection Hx as E1 E2 E3 E4 E5 E6 E7 E8.
  apply runs_updateStatus in Hs as (c0 & now & S & R & Hc0 & Ht & Hf & Hcan & -> & He).
  rewrite E1, lookup_insert_eq in Hc0. injection Hc0 as <-.
  apply runs_lifecycle in Hl as (L & row & -> & Hp).
  assert (c_Status c1 = c_Status c ∧ c_TenantID c1 = c_TenantID c) as [Hs1 Ht1]
    by (by destruct Hn).
  unfold core. cbn. rewrite history_snoc, Hp. cbn [is_history].
  rewrite E1, insert_insert_eq, E2, E3, E4, E5, E6, E7, E8 in *. rewrite Hid, <- Hf, Hs1 in *.
  eapply (ch_status (mkCore _ _ _ _ _ _ _ _)); [exact Hc|exact Hn|done|].
  by rewrite <- Ht1, Ht.
Qed.

Lemma status_change' tenantID id from to actor reason key li d u d1 u' d2 :
  li_ContractID li = id →
  runs (updateStatus tenantID id from to actor) d u d1 →
  runs (insertLifecycle meta li from to actor reason key) d1 u' d2 →
  change (core d) (core d2).
Proof.
  intros Hid Hs Hl. pose proof Hs as Hs0.
  apply runs_updateStatus in Hs0 as (c & _ & _ & _ & Hc & _).
  eapply status_change; [exact Hc|apply numbered_already| |exact Hid|exact Hs|exact Hl].
  unfold core. cbn. by rewrite insert_id.
Qed.

Lemma create_refines k row now actor origin d u d' :
  applyContractSource k = Ok origin → row = new_contract k origin now actor →
  creatable k → in_int64 (k_AmountMinor k) →
  runs (create_body meta k row now actor) d u d' → change (core d) (core d').
Proof.
  intros Hs -> Hcr Ha Hr. unfold create_body in Hr.
  apply runs_bind in Hr as (? & d1 & Hi & Hr). apply runs_exec in Hi.
  cbn [c_ID new_contract] in Hi.
  destruct (db_contracts d !! k_ID k) eqn:Efree; [done|]. inv_ok Hi.
  apply runs_bind in Hr as (? & d2 & He & Hr).
  apply runs_responsibility in He as (c & S & R & Hc & _ & -> & He).
  cbn in Hc. rewrite lookup_insert_eq in Hc. injection Hc as <-.
  apply runs_bind in Hr as (? & d3 & Hp & Hr). apply runs_replace in Hp as (P & -> & Hp).
  inv_tx Hr. match goal with h : runs (insert_lifecycle_row _ _) _ _ _ |- _ =>
    apply runs_lifecycle_row in h as (L & ->) end.
  apply runs_contract_audit in Hr as (r & -> & Hpay).
  unfold core. cbn. rewrite history_snoc, Hpay. cbn [is_history].
  by eapply (ch_create (core d)).
Qed.

(** The tables after an edited draft. *)
Lemma runs_draft k version actor d u d' :
  runs (draft_body meta k version actor) d u d' →
  ∃ c now terms P L row, db_contracts d !! k_ID k = Some c ∧ c_TenantID c = k_TenantID k ∧
    c_Version c = version ∧ c_Status c = StatusDraft ∧ is_history (au_Payload row) = false ∧
    plan_effect (k_TenantID k) (k_ID k) terms (k_AmountMinor k) (k_Currency k) (db_payment d) P ∧
    d' = set_audit (db_audit d ++ [row]) (set_lifecycle L (set_payment P (set_contracts
           (<[k_ID k := contract_set_draft k (c_Version c + 1) now actor c]> (db_contracts d)) d))).
Proof.
  intros Hr. unfold draft_body in Hr.
  apply runs_bind in Hr as (c & d1 & Hc & Hr). inv_tx Hc.
  apply runs_bind in Hr as (? & d1 & Hg & Hr). inv_tx Hg.
  apply runs_bind in Hr as (? & d1 & Hst & Hr). inv_tx Hst. bool_hyps.
  apply streq_true in Hst.
  apply runs_bind in Hr as (terms & d1 & Ht & Hr).
  assert (d1 = d) as ->.
  { destruct (k_PaymentTerms k); [by apply runs_ret in Ht as [_ ->]|]. by inv_tx Ht. }
  apply runs_bind in Hr as (? & d1 & Hn & Hr). inv_tx Hn.
  apply runs_bind in Hr as (now & d1 & Hnow%runs_now & Hr). subst d1.
  apply runs_bind in Hr as (n & d1 & Hu%runs_update_contract & Hr).
  apply runs_bind in Hr as (? & d2 & Hg2 & Hr). inv_tx Hg2. bool_hyps.
  destruct Hu as [(_ & c0 & Hc0 & _ & _ & ->)|[-> _]]; [|done].
  rewrite Hc in Hc0. injection Hc0 as <-.
  apply runs_bind in Hr as (? & d3 & Hp & Hr). apply runs_replace in Hp as (P & -> & Hp).
  inv_tx Hr. match goal with h : runs (insert_lifecycle_row _ _) _ _ _ |- _ =>
    apply runs_lifecycle_row in h as (L & ->) end.
  apply runs_contract_audit in Hr as (r & -> & Hpay).
  exists c, now, terms, P, L, r. split_and!; try done. by rewrite Hpay.
Qed.

Lemma draft_refines k version actor d u d' :
  in_int64 (k_AmountMinor k) →
  runs (draft_body meta k version actor) d u d' → change (core d) (core d').
Proof.
  intros Ha (c & now & terms & P & L & row & Hc & Ht & _ & Hs & Hh & Hp & ->)%runs_draft.
  unfold core. cbn. rewrite history_snoc, Hh, app_nil_r. by eapply (ch_draft (core d)).
Qed.

Lemma transition_refines tenantID id version target actor reason key d u d' :
  runs (transition_body meta tenantID id version target actor reason key) d u d' →
  change (core d) (core d').
Proof.
  intros Hr. unfold transition_body in Hr. inv_tx Hr.
eapply status_change'; [|eassumption..]. done.
Qed.

Lemma runs_insert_instance i d u d' :
  runs (insert_instance i) d u d' →
  d' = set_approvals (<[ai_ID i := i]> (db_approvals d)) d ∧
  db_approvals d !! ai_ID i = None ∧
  ∀ id j, db_approvals d !! id = Some j → instance_clash i j = false.
Proof.
  intros E%runs_exec. destruct (_ || _) eqn:Eo; [done|]. injection E as _ <-. bool_hyps.
  split_and!; [done|by apply eq_None_not_Some|]. intros id j Hj.
  apply not_true_is_false. intros Hcl. 
  match goal with h : ¬ map_Exists _ _ |- _ => apply h end. by exists id, j.
Qed.

Lemma runs_insert_snapshot r d u d' :
  runs (insert_snapshot r) d u d' →
  d' = set_snapshots (<[as_ApprovalID r := r]> (db_snapshots d)) d ∧
  db_snapshots d !! as_ApprovalID r = None.
Proof. intros E%runs_exec. case_match; [done|]. by injection E as _ <-. Qed.

(** What [start_kind] does to the tables. *)
Lemma runs_start_kind inp current d u d' :
  runs (start_kind meta inp current) d u d' →
  (∃ u1 d1 u2, sa_Kind inp = KindContract ∧
     runs (updateStatus (sa_TenantID inp) (sa_ContractID inp) (sa_FromStatus inp)
             (sa_TargetStatus inp) (sa_ApplicantUserID inp)) d u1 d1 ∧
     runs (insertLifecycle meta
             (lifecycle_input (sa_ApprovalID inp) (sa_TenantID inp) (sa_ContractID inp)
                (sa_WorkflowID inp))
             (sa_FromStatus inp) (sa_TargetStatus inp) (sa_ApplicantUserID inp)
             "submitted for approval" (sa_ApprovalID inp +:+ ":submitted")) d1 u2 d') ∨
  sa_Kind inp ≠ KindContract ∧ d' = d.
Proof.
  intros Hr. unfold start_kind in Hr. destruct (_ =s KindContract) eqn:Ek.
  - left. apply streq_true in Ek. inv_tx Hr.
    eauto 10.
  - right. apply streq_false in Ek. split; [done|].
    destruct (_ =s KindStatusChange); by inv_tx Hr.
Qed.

Lemma start_refines inp d u d' :
  runs (start_body meta inp) d u d' → rtc change (core d) (core d').
Proof.
  intros Hr. unfold start_body in Hr.
  apply runs_bind in Hr as (found & d1 & Hf & Hr). inv_tx Hf.
  destruct (db_approvals d !! _); [by inv_tx Hr|]. inv_tx Hr.
  match goal with h : runs (create_tasks _) _ _ _ |- _ =>
    apply runs_create_tasks in h as (T & ->) end.
  match goal with h : runs (insert_snapshot _) _ _ _ |- _ =>
    apply runs_insert_snapshot in h as [-> _] end.
  match goal with h : runs (insert_instance _) _ _ _ |- _ =>
    apply runs_insert_instance in h as [-> _] end.
  match goal with h : runs (start_kind _ _ _) _ _ _ |- _ =>
    apply runs_start_kind in h as [(? & d1 & ? & _ & Hs & Hl)|[_ ->]] end; [|done].
  apply rtc_once. by eapply status_change' in Hl.
Qed.

Lemma runs_update_instance id where_ f d n d' :
  runs (update_instance id where_ f) d n d' →
  (n = 1 ∧ ∃ i, db_approvals d !! id = Some i ∧ where_ i = true ∧
     d' = set_approvals (<[id := f i]> (db_approvals d)) d) ∨ (n = 0 ∧ d' = d).
Proof.
  intros E%runs_exec. cbv beta in E.
  destruct (db_approvals d !! id) as [i|]; [|right; by injection E as <- <-].
  destruct (where_ i) eqn:Ew; [|right; by injection E as <- <-].
  left. injection E as <- <-. eauto 10.
Qed.

(** The tables after a recorded command. *)
Lemma runs_record inp d u d' :
  runs (record_body meta inp) d u d' →
  let command := rc_Command inp in
  (is_Some (db_actions d !! CommandID command) ∧ d' = d) ∨
  ∃ i a now row T, db_actions d !! CommandID command = None ∧
    aa_CommandID a = CommandID command ∧ aa_ApprovalID a = rc_ApprovalID inp ∧
    aa_ActorUserID a = ActorUserID command ∧ aa_Action a = Action command ∧
    db_approvals d !! rc_ApprovalID inp = Some i ∧ is_history (au_Payload row) = false ∧
    d' = set_audit (db_audit d ++ [row]) (set_tasks T
           (set_approvals (<[rc_ApprovalID inp := instance_set_state (rc_State inp) now i]>
                             (db_approvals d))
              (set_actions (<[CommandID command := a]> (db_actions d)) d))).
Proof.
  intros Hr. unfold record_body in Hr.
  apply runs_bind in Hr as (found & d1 & Hf & Hr). inv_tx Hf.
  destruct (db_actions d !! _) eqn:Ea; [inv_tx Hr; left; split; [by eexists|done]|].
  right. inv_tx Hr.
  match goal with h : runs (insert_action _) _ _ _ |- _ => apply runs_exec in h; rename h into Hi end.
  cbn [aa_CommandID] in Hi. rewrite Ea in Hi. injection Hi as _ <-.
  match goal with h : runs (update_instance _ _ _) _ _ _ |- _ =>
    apply runs_update_instance in h as [(_ & i & Hi & _ & ->)|[-> _]] end; [|by bool_hyps].
  match goal with h : runs (syncTasks _ _) _ _ _ |- _ => unfold syncTasks in h; inv_tx h end.
  match goal with h : runs (create_tasks _) _ _ _ |- _ =>
    apply runs_create_tasks in h as (T & ->) end.
  apply runs_contract_audit in Hr as (row & -> & Hp).
  eexists i, _, _, row, T. split_and!; [done| | | | |exact Hi| |reflexivity]; [reflexivity..|].
  by rewrite Hp.
Qed.

Lemma record_refines inp d u d' :
  runs (record_body meta inp) d u d' → core d' = core d.
Proof.
  intros [(_ & ->)|(i & a & now & row & T & _ & _ & _ & _ & _ & _ & Hh & ->)]%runs_record; [done|].
  unfold core. cbn. by rewrite history_snoc, Hh, app_nil_r.
Qed.

Lemma notify_refines inp d u d' :
  runs (notify_body inp) d u d' → core d' = core d.
Proof. intros Hr. unfold notify_body in Hr. inv_tx Hr. by apply runs_notifications in Hr as (N & ->). Qed.

(** A transfer answers with the receipt of its key, writes a refusal, or moves
    the contract and writes the receipt. *)
Lemma runs_transfer inp now d out d' :
  runs (transfer_body inp now) d out d' →
  (∃ r, r ∈ db_receipts d ∧ receipt_of (tf_TenantID inp) (tf_IdempotencyKey inp) r = true ∧
     out = handoverReceiptFromRecord r ∧ d' = d) ∨
  (∀ r, r ∈ db_receipts d → receipt_of (tf_TenantID inp) (tf_IdempotencyKey inp) r = false) ∧
  ∃ c id, db_contracts d !! tf_ResourceID inp = Some c ∧ c_TenantID c = tf_TenantID inp ∧
    ordinaryContractRecord c = true ∧
    ((c_Version c ≠ tf_ExpectedVersion inp ∨ c_OwnerUserID (c_owner c) ≠ tf_FromUserID inp) ∧
     (let r := transfer_receipt inp id HandoverReceiptRejected 0
                 (Some "CONTRACT_VERSION_CONFLICT") None now in
      out = handoverReceiptFromRecord r ∧ d' = set_receipts (db_receipts d ++ [r]) d) ∨
     (c_Version c = tf_ExpectedVersion inp ∧ c_OwnerUserID (c_owner c) = tf_FromUserID inp) ∧
     let c' := contract_set_owner (tf_ToUserID inp) (tf_ToDisplayName inp) now c in
     let r := transfer_receipt inp id HandoverReceiptApplied (tf_ExpectedVersion inp + 1) None
                (optionalString ("contract:" +:+ tf_ResourceID inp)) now in
     ∃ S R, stream_effect (tf_TenantID inp) (tf_ResourceID inp) c' (db_streams d)
              (db_responsibility d) S R ∧
       out = handoverReceiptFromRecord r ∧
       d' = set_receipts (db_receipts d ++ [r]) (set_streams S (set_responsibility R
              (set_contracts (<[tf_ResourceID inp := c']> (db_contracts d)) d)))).
Proof.
  intros Hr. unfold transfer_body in Hr. cbv zeta in Hr.
  apply runs_bind in Hr as (existing & d1 & Hq & Hr). apply runs_query in Hq as [Eq ->].
  destruct existing as [r|].
  { left. inv_tx Hr. exists r. symmetry in Eq. apply head_Some_elem_of, list_elem_of_filter in Eq as [].
    done. }
  right. split.
  { intros r Hin. destruct (receipt_of _ _ r) eqn:E; [|done]. symmetry in Eq.
    apply head_None in Eq. assert (r ∈ ([] : list handoverReceiptRecord)) as []%not_elem_of_nil.
    rewrite <- Eq. by apply list_elem_of_filter. }
  apply runs_bind in Hr as (c & d1 & Hc & Hr). apply runs_take_contract in Hc as (Hc & Ht & ->).
  apply runs_bind in Hr as (u & d1 & Hg & Hr). inv_tx Hg. bool_hyps.
  destruct (negb (c_Version c =? _) || _) eqn:Ecmp.
  - apply runs_bind in Hr as (id & d1 & Hi & Hr). inv_tx Hi.
    apply runs_bind in Hr as (u2 & d1 & Hi & Hr). apply runs_exec in Hi. inv_ok Hi.
    apply insert_unique_ok in Hv as [-> _]. inv_tx Hr. exists c, id.
    split_and!; [done..|]. left. split; [|done]. apply orb_true_iff in Ecmp as [E|E]; bool_hyps;
      [by left|right]. by apply streq_false.
  - bool_hyps. match goal with h : (_ =s _) = true |- _ => apply streq_true in h end.
    apply runs_bind in Hr as (n & d1 & Hup & Hr). apply runs_update_contract in Hup.
    apply runs_bind in Hr as (u2 & d2 & Hg2 & Hr). inv_tx Hg2. bool_hyps. subst n.
    destruct Hup as [(_ & c0 & Hc0 & _ & _ & ->)|[? _]]; [|lia].
    rewrite Hc in Hc0. injection Hc0 as <-.
    apply runs_bind in Hr as (u3 & d2 & Hresp & Hr).
    apply runs_responsibility in Hresp as (c' & S & R & Hc' & _ & -> & He).
    cbn in Hc'. rewrite lookup_insert_eq in Hc'. injection Hc' as <-. cbn in He.
    apply runs_bind in Hr as (id & d2 & Hi & Hr). inv_tx Hi.
    apply runs_bind in Hr as (u4 & d2 & Hi & Hr). apply runs_exec in Hi. inv_ok Hi.
    apply insert_unique_ok in Hv as [-> _]. inv_tx Hr. exists c, id.
    split_and!; [done..|]. right. split; [done|]. exists S, R. by split_and!.
Qed.

Lemma transfer_refines inp now d out d' :
  runs (transfer_body inp now) d out d' → rtc change (core d) (core d').
Proof.
  intros [(r & _ & _ & _ & ->)|(_ & c & id & Hc & Ht & _ & [[_ [_ ->]]|[_ (S & R & He & _ & ->)]])]%runs_transfer;
    [done|done|].
  apply rtc_once. rewrite <- Ht in He. by eapply (ch_owner (core d) _ c).
Qed.

Lemma archive_refines candidate additional date d b d' :
  runs (archive_body meta candidate additional date) d b d' → rtc change (core d) (core d').
Proof.
  intros Hr. unfold archive_body in Hr.
  apply runs_bind in Hr as (found & d1 & Hf%runs_find_contract & Hr). destruct Hf as [-> Hf].
  destruct found as [c|]; [|by inv_tx Hr].
  destruct (negb (ordinaryContractRecord c)); [by inv_tx Hr|].
  destruct (_ || _) in Hr; [by inv_tx Hr|].
  apply runs_bind in Hr as (active & d1 & Hq & Hr). inv_tx Hq.
  destruct (0 <? _) in Hr; [by inv_tx Hr|]. inv_tx Hr.
  match goal with h : runs (insert_notifications _ _) _ _ _ |- _ =>
    apply runs_notifications in h as (N & ->) end.
  change (core (set_notifications N s0)) with (core s0).
  apply rtc_once. eapply status_change'; [|eassumption..]. done.
Qed.

(** ** Completion *)

Lemma runs_update_numbers f d n d' :
  runs (update_numbers f) d n d' →
  ∃ t t', db_numbers d = Some t ∧ f t = Ok (n, t') ∧ d' = set_numbers (Some t') d.
Proof.
  intros E%runs_exec. cbv beta in E. destruct (db_numbers d) as [t|] eqn:Et; [|done].
  inv_ok E. destruct v as [m t']. exists t, t'. done.
Qed.

Lemma runs_next_sequence ruleKey year d v d' :
  runs (nextContractNumberSequence ruleKey year) d v d' →
  ∃ t t', db_numbers d = Some t ∧ d' = set_numbers (Some t') d ∧
    nt_rule t' = nt_rule t ∧ nt_registry t' = nt_registry t ∧
    nt_sequence t' = <[(year, ruleKey) := v]> (nt_sequence t) ∧
    v = default 0 (nt_sequence t !! (year, ruleKey)) + 1 ∧ v ≤ uint32_max.
Proof.
  intros Hr. unfold nextContractNumberSequence in Hr. inv_tx Hr. 
  match goal with h : runs (update_numbers _) _ _ _ |- _ =>
    apply runs_update_numbers in h as (t & t' & Et & E & ->) end.
  inv_ok E. bool_hyps. eexists t, _. split; [done|]. split; [reflexivity|].
  cbn [nt_rule nt_registry nt_sequence]. subst.
  destruct (nt_sequence t !! (year, ruleKey)) eqn:Es; cbn; split_and!; done || lia.
Qed.

Lemma runs_reserve number tenantID id year ruleKey now d (b : bool) d' :
  runs (reserveContractNumberInTx number tenantID id year ruleKey now) d b d' →
  if b then ∃ t t', db_numbers d = Some t ∧ d' = set_numbers (Some t') d ∧
    nt_rule t' = nt_rule t ∧ nt_sequence t' = nt_sequence t ∧
    nt_registry t !! collate number = None ∧
    nt_registry t' =
      <[collate number := mkRegistered number tenantID id year ruleKey now]> (nt_registry t)
  else d' = d ∧ ∃ t, db_numbers d = Some t ∧ is_Some (nt_registry t !! collate number).
Proof.
  intros Hr. unfold reserveContractNumberInTx in Hr.
  apply runs_bind in Hr as (n & d1 & Hi & Hr).
  apply runs_update_numbers in Hi as (t & t' & Et & E & ->). cbn [nr_ContractNumber] in E.
  destruct (nt_registry t !! collate number) as [r|] eqn:Er; injection E as <- <-; cbn in Hr.
  - inv_tx Hr. unfold contractNumberRegisteredInTx in Hm. inv_tx Hm. cbn in Hr.
    rewrite Er in Hr. rewrite bool_decide_true in Hr by done. inv_tx Hr.
    split; [rewrite <- Et; by rewrite set_numbers_id|]. eauto.
  - inv_tx Hr. eexists t, _. split_and!; [done..|reflexivity|done|reflexivity].
Qed.

Lemma runs_allocate_loop attempts rule ruleKey year tenantID id now d number d' :
  runs (allocate_loop attempts rule ruleKey year tenantID id now) d number d' →
  ∃ N, d' = set_numbers N d ∧ numbers_grow (db_numbers d) N ∧ registered N number tenantID id.
Proof.
  revert d. induction attempts as [|attempts IH]; intros d Hr; cbn [allocate_loop] in Hr;
    [by inv_tx Hr|].
  apply runs_bind in Hr as (v & d1 & Hs & Hr).
  apply runs_next_sequence in Hs as (t & t' & Et & -> & Hrule & Hreg & _).
  apply runs_bind in Hr as (n & d1 & Hb & Hr). inv_tx Hb.
  apply runs_bind in Hr as (b & d1 & Hb1%runs_reserve & Hr). destruct b.
  - inv_tx Hr. destruct Hb1 as (t1 & t2 & [= <-] & -> & Hrule2 & _ & Hfree & Hreg2).
    exists (Some t2). split; [done|]. split.
    + rewrite Et. cbn. split; [congruence|]. rewrite Hreg2, <- Hreg.
      by apply insert_subseteq.
    + exists t2. eexists. rewrite Hreg2, lookup_insert_eq. done.
  - destruct Hb1 as [-> _]. apply IH in Hr as (N & -> & Hg & Hn). exists N.
    split_and!; [done| |done]. etrans; [|exact Hg]. rewrite Et. cbn. split; [done|].
    by rewrite Hreg.
Qed.

(** With a rule, the number is registered; without one (or without the tables)
    it comes from the template format. *)
Lemma runs_allocate tenantID id legacy now d number d' :
  runs (allocateContractNumberInTx tenantID id legacy now) d number d' →
  ∃ N, d' = set_numbers N d ∧ numbers_grow (db_numbers d) N ∧
    match db_numbers d with
    | Some n => if nt_rule n then registered N number tenantID id
                else number = formatContractNumber legacy id now
    | None => number = formatContractNumber legacy id now
    end.
Proof.
  intros Hr. unfold allocateContractNumberInTx, readContractNumberRule in Hr.
  apply runs_bind in Hr as (found & d1 & Hf & Hr). inv_tx Hf.
  destruct (db_numbers d) as [n|] eqn:En; [destruct (nt_rule n) as [rule|] eqn:Er|].
  - inv_tx Hr. apply runs_allocate_loop in Hr as (N & -> & Hg & Hreg).
    rewrite En in Hg. eauto.
  - inv_tx Hr. exists (db_numbers d). rewrite set_numbers_id, En. done.
  - inv_tx Hr. exists (db_numbers d). rewrite set_numbers_id, En. done.
Qed.

Lemma approvedNumberUpdates_number c number u :
  approvedNumberUpdates c number = Ok u → u_ContractNumber u = number.
Proof.
  unfold approvedNumberUpdates. intros E. 
  repeat (case_match; simplify_eq; try done; inv_ok E; try done).
Qed.

(** The contract after a number was issued, and what the registry holds. *)
Lemma runs_issue_number tenantID id current d u d' :
  db_contracts d !! id = Some current → c_ID current = id → c_TenantID current = tenantID →
  runs (issue_number tenantID current) d u d' →
  ∃ c1 N, numbered (db_contracts d) (db_numbers d) id current c1 N ∧
    numbers_grow (db_numbers d) N ∧
    d' = set_contracts (<[id := c1]> (db_contracts d)) (set_numbers N d) ∧
    (valueOrEmpty (c_ContractNumber current) ≠ "" → c1 = current) ∧
    (valueOrEmpty (c_ContractNumber current) = "" →
     ∃ up now, c1 = contract_set_number up now current ∧
       ∀ n, db_numbers d = Some n → is_Some (nt_rule n) →
         registered N (u_ContractNumber up) tenantID id).
Proof.
  intros Hc Hid Ht Hr. unfold issue_number in Hr. destruct (empty_str _) eqn:Ee.
  - apply streq_true in Ee. inv_tx Hr.
    match goal with h : runs (allocateContractNumberInTx _ _ _ _) _ _ _ |- _ =>
      apply runs_allocate in h as (N & -> & Hg & Hreg) end.
    match goal with h : approvedNumberUpdates _ _ = Ok _ |- _ =>
      apply approvedNumberUpdates_number in h as Hup end.
    match goal with h : runs (write_number _ _ _ _) _ _ _ |- _ =>
      apply runs_exec in h; cbn [db_contracts set_numbers] in h; rename h into Hw end.
    rewrite Hc in Hw.
    destruct (_ && _) in Hw; [|by injection Hw as <- <-]. inv_ok Hw.
    eexists _, N. split.
    { apply numbered_now; [done..|]. intros n En [rule Er]. by rewrite En, Er in Hreg. }
    split; [done|]. split; [reflexivity|]. split; [done|]. intros _. eexists _, _.
    split; [reflexivity|]. intros n En [rule Er]. by rewrite En, Er in Hreg.
  - apply streq_false in Ee. inv_tx Hr. exists current, (db_numbers d). split; [constructor|].
    split; [done|]. rewrite insert_id by done.
    split_and!; [by destruct d|done|done].
Qed.

Lemma project_refines tenantID id d u d' :
  runs (enqueueProjectActivation meta tenantID id) d u d' → rtc change (core d) (core d').
Proof.
  intros (c & J & A & Hc & Ht & -> & [[-> ->]|(r & row & n & -> & -> & Hl & Ho & Hj & Hp)])%runs_project.
  - by rewrite set_project_id.
  - unfold core. cbn. rewrite history_snoc, Hp, app_nil_r. apply rtc_once.
    eapply (ch_project (core d)); [done..|]. by rewrite Ht.
Qed.

Lemma financial_refines' tenantID id d out d' :
  runs (enqueueFinancialEffective tenantID id) d out d' → rtc change (core d) (core d').
Proof.
  intros (c & F & Hc & Ht & -> & [(_ & -> & _)|(_ & Hl & Hs & r & Hr & ->)])%runs_financial.
  - by rewrite set_financial_id.
  - apply rtc_once. subst tenantID. by eapply (ch_financial (core d)).
Qed.

Lemma complete_approved_refines inp current actor d u d' :
  db_contracts d !! ca_ContractID inp = Some current → c_ID current = ca_ContractID inp →
  c_TenantID current = ca_TenantID inp → c_Status current = StatusPending →
  runs (complete_approved meta inp current actor) d u d' → rtc change (core d) (core d').
Proof.
  intros Hc Hid Ht Hs Hr. unfold complete_approved in Hr. inv_tx Hr.
  match goal with h : runs (issue_number _ _) _ _ _ |- _ =>
    destruct (runs_issue_number _ _ _ _ _ _ Hc Hid Ht h) as (c1 & N & Hn & _ & -> & _) end.
  match goal with h : runs (enqueueProjectActivation _ _ _) _ _ _ |- _ =>
    apply project_refines in h; rename h into Hproject end.
  match goal with h : runs (enqueueFinancialEffective _ _) _ _ _ |- _ =>
    apply financial_refines' in h; rename h into Hfinancial end.
  eapply rtc_l; [|eapply rtc_l; [|etrans; [exact Hproject|exact Hfinancial]]].
  - eapply status_change; [exact Hc|exact Hn| | |exact Hm0|exact Hm1]; done.
  - eapply status_change'; [|exact Hm2|exact Hm3]. done.
Qed.

Lemma complete_refines inp d u d' :
  keyed (core d) → runs (complete_body meta inp) d u d' → rtc change (core d) (core d').
Proof.
  intros Hk Hr. unfold complete_body in Hr.
  apply runs_bind in Hr as (found & d1 & Hf & Hr). inv_tx Hf.
  destruct (db_approvals d !! _) as [i|] eqn:Ei; [|by inv_tx Hr].
  destruct (negb _); [by inv_tx Hr|]. destruct (ai_CompletionApplied i); [by inv_tx Hr|].
  inv_tx Hr.
  match goal with h : runs (update_instance _ _ _) _ _ _ |- _ =>
    apply runs_update_instance in h as [(_ & i' & _ & _ & ->)|[-> ->]] end; [|done].
  change (core (set_tasks _ _)) with (core s) at 1.
  match goal with h : runs (if _ then _ else _) _ _ _ |- _ => rename h into Hd end.
  change (rtc change (core d) (core s)).
  match goal with h : db_contracts d !! _ = Some ?c |- _ =>
    pose proof (Hk _ _ h) as Hid; rename h into Hc; rename c into current end.
  destruct (ai_Kind i =s KindContract).
  - unfold complete_contract in Hd. inv_tx Hd. bool_hyps.
    match goal with h : (c_Status _ =s _) = true |- _ => apply streq_true in h end.
    destruct (ca_Status inp =s StatusApproved).
    + by eapply complete_approved_refines in Hd.
    + inv_tx Hd. apply rtc_once. eapply status_change'; [|eassumption..]. done.
  - unfold complete_change in Hd. destruct (ca_Status inp =s StatusApproved); [|by inv_tx Hd].
    inv_tx Hd. apply rtc_once. eapply status_change'; [|eassumption..]. done.
Qed.

(** The tables after a change of the financial terms. *)
Lemma runs_financial_change tenantID change actor d v d' :
  keyed (core d) → runs (financial_body meta tenantID change actor) d v d' →
  ∃ c now terms P F L row, db_contracts d !! fc_ContractID change = Some c ∧
    c_TenantID c = tenantID ∧ c_Version c = fc_ExpectedVersion change ∧
    v = fc_ExpectedVersion change + 1 ∧ ordinaryContractRecord c = true ∧
    FinancialChangeStatusEligible (c_Status c) = true ∧ 0 < fc_AmountMinor change ∧
    NormalizePaymentTerms (fc_PaymentTerms change) (fc_AmountMinor change)
      (c_Currency (c_terms c)) = Ok terms ∧ fc_PaymentTerms change ≠ [] ∧
    count_approvals (in_status tenantID (fc_ContractID change) StatusRunning) d = 0 ∧
    plan_effect tenantID (fc_ContractID change) terms (fc_AmountMinor change)
      (c_Currency (c_terms c)) (db_payment d) P ∧ is_history (au_Payload row) = false ∧
    let c' := contract_set_amount (fc_AmountMinor change) now actor c in
    let rows := plan_rows tenantID (fc_ContractID change) P in
    localOutboundNotApplicable c = Ok false ∧ financialEffectiveSkipReason c' rows = "" ∧
    (∃ r, financial_row tenantID c' rows r ∧ F = insert_ignore same_delivery r (db_financial d)) ∧
    d' = set_audit (db_audit d ++ [row]) (set_lifecycle L (set_financial F (set_payment P
           (set_contracts (<[fc_ContractID change := c']> (db_contracts d)) d)))).
Proof.
  intros Hk Hr. unfold financial_body in Hr.
  apply runs_bind in Hr as (c & d1 & Hc & Hr). inv_tx Hc. pose proof (Hk _ _ Hc) as Hid.
  apply runs_bind in Hr as (terms & d1 & Hchk & Hr). unfold financial_checks in Hchk.
  inv_tx Hchk. bool_hyps. apply as_validation_ok in Hchk.
  apply runs_bind in Hr as (now & d1 & Hnow%runs_now & Hr). subst d1.
  apply runs_bind in Hr as (n & d1 & Hu%runs_update_contract & Hr).
  apply runs_bind in Hr as (? & d2 & Hg2 & Hr). inv_tx Hg2. bool_hyps.
  destruct Hu as [(_ & c0 & Hc0 & _ & _ & ->)|[-> _]]; [|done].
  rewrite Hid in *. cbn in Hc. rewrite Hc in Hc0. injection Hc0 as <-.
  apply runs_bind in Hr as (? & d3 & Hp & Hr). apply runs_replace in Hp as (P & -> & Hp).
  apply runs_bind in Hr as (out & d3 & Hf%runs_financial & Hr).
  destruct Hf as (c3 & F & Hc3 & _ & -> & Hf).
  cbn in Hc3. rewrite lookup_insert_eq in Hc3. injection Hc3 as <-.
  inv_tx Hr. match goal with h : runs (insert_lifecycle_row _ _) _ _ _ |- _ =>
    apply runs_lifecycle_row in h as (L & ->) end.
  match goal with h : runs (contract_audit _ _ _ _ _ _) _ _ _ |- _ =>
    apply runs_contract_audit in h as (r & -> & Hpay) end.
  bool_cases. 
  destruct Hf as [(Hne & _)|(_ & Hl & Hs & row & Hrow & ->)]; [congruence|].
  exists c, now, terms, P, (insert_ignore same_delivery row (db_financial d)), L, r.
  split_and!; try done; try lia.
  - unfold count_approvals in *. lia.
  - by rewrite Hpay.
  - cbv zeta. split_and!; try done. by exists row.
Qed.

Lemma financial_refines tenantID change actor d v d' :
  keyed (core d) → in_int64 (fc_AmountMinor change) →
  runs (financial_body meta tenantID change actor) d v d' →
  rtc Changes.change (core d) (core d').
Proof.
  intros Hk Ha (c & now & terms & P & F & L & row & Hc & Ht & _ & _ & _ & Hst & Hpos & _ & _ & _ &
    Hp & Hh & Hl & Hs & (r & Hr & ->) & ->)%runs_financial_change; [|done]. subst tenantID.
  eapply rtc_l; [eapply (ch_amount (core d)); [exact Ha|exact Hpos|exact Hc|done|exact Hp]|].
  match goal with |- rtc _ _ (core (set_audit _ (set_lifecycle L ?s))) =>
    change (db_audit d) with (db_audit s); rewrite (core_log row L s Hh) end.
  apply rtc_once.
  eapply (ch_financial (mkCore _ _ _ _ _ _ _ _)); [apply lookup_insert_eq|done|done|done].
Qed.

(** What a call creates satisfies [creatable]. *)
Definition op_creatable (op : operation) : Prop :=
  match op with OpCreate _ c _ => creatable c | _ => True end.

Lemma perform_refines_in op d r d' :
  keyed (core d) → well_typed op → op_creatable op → perform meta op d = (r, d') →
  rtc change (core d) (core d').
Proof.
  intros Hk Ht Hcr E.
  assert (∀ A (m : Tx A) (r : res A), transaction m d = (r, d') →
    (∀ a, runs m d a d' → rtc change (core d) (core d')) → rtc change (core d) (core d'))
    as Htx.
  { intros A m r0 Em Hm. apply transaction_runs in Em as [->|[a Ha]]; [done|by eapply Hm]. }
  destruct op; cbn [perform well_typed op_creatable] in *.
  - unfold CreateContract in E. destruct (applyContractSource c) as [origin|] eqn:Es;
      [|by injection E as _ <-].
    eapply Htx; [exact E|]. intros a Ha. apply rtc_once. by eapply create_refines in Ha.
  - eapply Htx; [exact E|]. intros a Ha. apply rtc_once. by eapply draft_refines in Ha.
  - eapply Htx; [exact E|]. intros a Ha. apply rtc_once. by eapply transition_refines in Ha.
  - eapply Htx; [exact E|]. intros a Ha. by eapply start_refines in Ha.
  - eapply Htx; [exact E|]. intros a ->%record_refines. done.
  - eapply Htx; [exact E|]. intros a Ha. by eapply complete_refines in Ha.
  - eapply Htx; [exact E|]. intros a ->%notify_refines. done.
  - unfold archiveOne in E. destruct (transaction _ d) as [b d1] eqn:Em. injection E as _ <-.
    apply transaction_runs in Em as [->|[a Ha]]; [done|]. by eapply archive_refines in Ha.
  - unfold ApplyContractFinancialChange in E. destruct (_ || _); [by injection E as _ <-|].
    destruct (transaction _ d) as [b d1] eqn:Em. injection E as _ <-.
    apply transaction_runs in Em as [->|[a Ha]]; [done|]. by eapply financial_refines in Ha.
  - destruct (TransferOwnership _ _ d) as [b d1] eqn:Em. injection E as _ <-.
    apply transaction_runs in Em as [->|[a Ha]]; [done|]. by eapply transfer_refines in Ha.
Qed.

End Bodies.

(** Without a condition on what is created. *)
Lemma perform_refines `{Oracle} `{GoUnicode} `{Sha256} `{TzDatabase} `{Collation} `{Documents} meta
    op d r d' :
  keyed (core d) → well_typed op → perform meta op d = (r, d') → rtc change (core d) (core d').
Proof. intros Hk Ht. apply perform_refines_in; [done..|]. by destruct op. Qed.

Section Calls.
Context {creations : Creations} `{GoUnicode} `{Sha256} `{TzDatabase} `{Collation} `{Documents}.

Lemma keyed_change x y : change x y → keyed x → keyed y.
Proof.
  assert (∀ (m : gmap string contractRecord) id c,
    (∀ i c0, m !! i = Some c0 → c_ID c0 = i) → c_ID c = id →
    ∀ i c0, <[id := c]> m !! i = Some c0 → c_ID c0 = i) as Hins.
  { intros m id c Hm Hc i c0 [[<- <-]|[_ Hi]]%lookup_insert_Some; eauto. }
  intros Hch Hk. unfold keyed in *. destruct Hch; cbn [x_contracts]; try done;
    apply Hins; try done; cbn; eauto.
  match goal with h : numbered _ _ _ _ _ _ |- _ => destruct h; cbn; eauto end.
Qed.

Lemma rtc_change_keeps (P : Core → Prop) :
  (∀ x y, change x y → P x → P y) → ∀ x y, rtc change x y → P x → P y.
Proof. intros Hp x y. induction 1; eauto. Qed.

Lemma execute_refines_in calls d :
  keyed (core d) → Forall (λ c, well_typed (call_op c) ∧ op_creatable (call_op c)) calls →
  rtc change (core d) (core (execute calls d)) ∧ keyed (core (execute calls d)).
Proof.
  intros Hk Hf. revert d Hk. induction Hf as [|c calls [Hc Hcr] _ IH]; intros d Hk; [done|].
  destruct (invoke c d) as [r d1] eqn:E.
  assert (rtc change (core d) (core d1)) as Hstep by by eapply perform_refines_in.
  destruct (IH d1) as [Hrest Hk'].
  { by eapply (rtc_change_keeps keyed); [apply keyed_change|exact Hstep|]. }
  cbn [execute foldl]. rewrite E. cbn [snd]. split; [by etrans|done].
Qed.

End Calls.

Lemma execute_refines `{GoUnicode} `{Sha256} `{TzDatabase} `{Collation} `{Documents} calls d :
  keyed (core d) → Forall (well_typed ∘ call_op) calls →
  rtc change (core d) (core (execute calls d)) ∧ keyed (core (execute calls d)).
Proof.
  intros Hk Hf. apply execute_refines_in; [done|]. eapply Forall_impl; [exact Hf|].
  intros c Hc. split; [exact Hc|]. by destruct (call_op c).
Qed.
