(* ===== verification/Frames.v ===== *)
(** * What an operation leaves alone

    [keeps π m]: a successful run of [m] does not change the part [π] of the
    tables.  The statements of Outbound.v, Numbering.v and Repository.v keep
    every part they do not write; [keeps_tac] walks through a body. *)

From S2P Require Import Prelude GoStrings Decimal GoTime BusinessClock Status NumberRule.
From S2P Require Import PaymentTerm ProjectService ImportPolicy ApprovalRule Workflow Store.
From S2P Require Import Outbound Handover Numbering Repository Changes Refinement.

#[local] Open Scope string_scope.
#[local] Open Scope Z_scope.
#[local] Open Scope list_scope.

Create HintDb keeps.

Definition keeps {T A} (π : DB → T) (m : Tx A) : Prop :=
  ∀ d a d', runs m d a d' → π d' = π d.

(** A part of the tables that the operations on contracts do not touch, ... *)
Class Blind {T} (π : DB → T) : Prop := {
  blind_contracts X d : π (set_contracts X d) = π d;
  blind_tasks X d : π (set_tasks X d) = π d;
  blind_lifecycle X d : π (set_lifecycle X d) = π d;
  blind_audit X d : π (set_audit X d) = π d;
  blind_notifications X d : π (set_notifications X d) = π d;
  blind_project X d : π (set_project X d) = π d;
  blind_financial X d : π (set_financial X d) = π d;
  blind_responsibility X d : π (set_responsibility X d) = π d;
  blind_streams X d : π (set_streams X d) = π d;
  blind_payment X d : π (set_payment X d) = π d;
  blind_numbers X d : π (set_numbers X d) = π d
}.
(** ... and that those on approvals do not touch either. *)
Class Foreign {T} (π : DB → T) : Prop := {
  #[global] foreign_blind :: Blind π;
  foreign_approvals X d : π (set_approvals X d) = π d;
  foreign_actions X d : π (set_actions X d) = π d;
  foreign_snapshots X d : π (set_snapshots X d) = π d
}.

Ltac blind :=
  repeat match goal with
  | |- ?π _ = _ =>
      first
        [ rewrite (blind_contracts (π := π)) | rewrite (blind_tasks (π := π))
        | rewrite (blind_lifecycle (π := π)) | rewrite (blind_audit (π := π))
        | rewrite (blind_notifications (π := π)) | rewrite (blind_project (π := π))
        | rewrite (blind_financial (π := π)) | rewrite (blind_responsibility (π := π))
        | rewrite (blind_streams (π := π)) | rewrite (blind_payment (π := π))
        | rewrite (blind_numbers (π := π)) ]
  end.

Section Structure.
Context {T : Type} (π : DB → T).

Lemma keeps_bind {A B} (m : Tx A) (f : A → Tx B) :
  keeps π m → (∀ a, keeps π (f a)) → keeps π (m ≫= f).
Proof. intros Hm Hf d b d' (a & d1 & Ha & Hb)%runs_bind. by rewrite (Hf _ _ _ _ Hb), (Hm _ _ _ Ha). Qed.
Lemma keeps_ret {A} (a : A) : keeps π (mret a).
Proof. by intros d b d' [_ ->]%runs_ret. Qed.
Lemma keeps_throw {A} e : keeps π (throw (A := A) e).
Proof. by intros d b d' []%runs_throw. Qed.
Lemma keeps_lift {A} (r : res A) : keeps π (lift r).
Proof. by intros d a d' [_ ->]%runs_lift. Qed.
Lemma keeps_guard b e : keeps π (guard b e).
Proof. apply keeps_lift. Qed.

End Structure.

#[export] Hint Resolve keeps_ret keeps_throw keeps_lift keeps_guard : keeps.

Section Keeps.
Context {T : Type} (π : DB → T) `{!Blind π}.
Context `{Oracle} `{GoUnicode} `{Sha256} `{TzDatabase} `{Collation} `{Documents}.

Lemma keeps_query {A} (f : DB → A) : keeps π (query f).
Proof. by intros d a d' [_ ->]%runs_query. Qed.
Lemma keeps_exec {A} (f : DB → res (A * DB)) :
  (∀ d a d', f d = Ok (a, d') → π d' = π d) → keeps π (exec f).
Proof. intros Hf d a d' E%runs_exec. by eapply Hf. Qed.
Lemma keeps_modify f : (∀ d, π (f d) = π d) → keeps π (modify f).
Proof. intros Hf. apply keeps_exec. intros d a d' [= _ <-]. apply Hf. Qed.
Lemma keeps_now : keeps π time_now.
Proof. by intros d a d' ->%runs_now. Qed.
Lemma keeps_id : keeps π newID.
Proof. by intros d a d' ->%runs_id. Qed.
Lemma keeps_take_row {A} (m : Tx (option A)) e : keeps π m → keeps π (take_row m e).
Proof. intros Hm d a d' Hr%runs_take_row. by eapply Hm. Qed.
Lemma keeps_take_contract t id e : keeps π (take_contract t id e).
Proof. apply keeps_take_row, keeps_query. Qed.
Lemma keeps_find_contract t id : keeps π (find_contract t id).
Proof. apply keeps_query. Qed.
Lemma keeps_count t id kinds : keeps π (countRunningApprovals t id kinds).
Proof. apply keeps_query. Qed.
Lemma keeps_update_contract t id w f : keeps π (update_contract t id w f).
Proof.
  intros d n d' [(_ & c & _ & _ & _ & ->)|[_ ->]]%runs_update_contract; by blind.
Qed.

End Keeps.

#[export] Hint Resolve keeps_query keeps_now keeps_id keeps_take_contract keeps_find_contract
  keeps_count keeps_update_contract : keeps.

(** Walk through a body; what is left are the statements that change tables. *)
Ltac keeps_step :=
  match goal with
  | |- keeps _ (_ ≫= _) => apply keeps_bind; [|intros ?]
  | |- keeps _ (take_row _ _) => apply keeps_take_row
  | |- keeps _ (modify _) => apply keeps_modify; intros ?; blind; try reflexivity
  | |- keeps _ _ => solve [eauto with keeps]
  | |- keeps _ (if ?b then _ else _) => destruct b
  | |- keeps _ (match ?x with _ => _ end) => destruct x
  | |- keeps _ (let _ := _ in _) => cbv zeta
  end.
Ltac keeps_tac := cbv zeta; repeat keeps_step.

Section Blocks.
Context {T : Type} (π : DB → T) `{!Blind π}.
Context `{Oracle} `{GoUnicode} `{Sha256} `{TzDatabase} `{Collation} `{Documents}.
Variable meta : requestMeta.

Lemma keeps_audit t ev entry : keeps π (insertAuditOutbox t ev entry).
Proof. intros d u d' (row & -> & _)%runs_audit. by blind. Qed.
Lemma keeps_contract_audit t actor action id p : keeps π (contract_audit meta t actor action id p).
Proof. intros d u d' (row & -> & _)%runs_contract_audit. by blind. Qed.
Lemma keeps_lifecycle_row b r : keeps π (insert_lifecycle_row b r).
Proof. intros d u d' (L & ->)%runs_lifecycle_row. by blind. Qed.
Lemma keeps_lifecycle li from to actor reason key :
  keeps π (insertLifecycle meta li from to actor reason key).
Proof. intros d u d' (L & row & -> & _)%runs_lifecycle. by blind. Qed.
Lemma keeps_responsibility t id : keeps π (enqueueContractResponsibility t id).
Proof. intros d u d' (c & S & R & _ & _ & -> & _)%runs_responsibility. by blind. Qed.
Lemma keeps_updateStatus t id from to actor : keeps π (updateStatus t id from to actor).
Proof. intros d u d' (c & n & S & R & _ & _ & _ & _ & -> & _)%runs_updateStatus. by blind. Qed.
Lemma keeps_replace t id terms amount currency :
  keeps π (replaceContractPaymentTerms t id terms amount currency).
Proof. intros d u d' (P & -> & _)%runs_replace. by blind. Qed.
Lemma keeps_financial t id : keeps π (enqueueFinancialEffective t id).
Proof. intros d u d' (c & F & _ & _ & -> & _)%runs_financial. by blind. Qed.
Lemma keeps_project t id : keeps π (enqueueProjectActivation meta t id).
Proof. intros d u d' (c & J & A & _ & _ & -> & _)%runs_project. by blind. Qed.
Lemma keeps_notifications build rows : keeps π (insert_notifications build rows).
Proof. intros d u d' (N & ->)%runs_notifications. by blind. Qed.
Lemma keeps_create_tasks tasks : keeps π (create_tasks tasks).
Proof. intros d u d' (ts & ->)%runs_create_tasks. by blind. Qed.
Lemma keeps_allocate t id legacy now : keeps π (allocateContractNumberInTx t id legacy now).
Proof. intros d u d' (N & -> & _)%runs_allocate. by blind. Qed.
Lemma keeps_write_number t id u now : keeps π (write_number t id u now).
Proof.
  apply keeps_exec. intros d a d' E. destruct (db_contracts d !! id); [|by injection E as _ <-].
  destruct (_ && _); [|by injection E as _ <-]. inv_ok E. by blind.
Qed.
Lemma keeps_insert_contract row : keeps π (insert_contract row).
Proof. apply keeps_exec. intros d a d' E. case_match; [done|]. inv_ok E. by blind. Qed.

#[local] Hint Resolve keeps_audit keeps_contract_audit keeps_lifecycle_row keeps_lifecycle
  keeps_responsibility keeps_updateStatus keeps_replace keeps_financial keeps_project
  keeps_notifications keeps_create_tasks keeps_allocate keeps_write_number
  keeps_insert_contract : keeps.

Lemma keeps_create k row now actor : keeps π (create_body meta k row now actor).
Proof. unfold create_body. keeps_tac. Qed.
Lemma keeps_draft k version actor : keeps π (draft_body meta k version actor).
Proof. unfold draft_body, ListContractPaymentTerms. keeps_tac. Qed.
Lemma keeps_transition t id v target actor reason key :
  keeps π (transition_body meta t id v target actor reason key).
Proof. unfold transition_body. keeps_tac. Qed.
Lemma keeps_archive candidate additional date : keeps π (archive_body meta candidate additional date).
Proof. unfold archive_body. keeps_tac. Qed.
Lemma keeps_notify inp : keeps π (notify_body inp).
Proof. unfold notify_body. keeps_tac. Qed.
Lemma keeps_financial_change t change actor : keeps π (financial_body meta t change actor).
Proof. unfold financial_body, financial_checks. keeps_tac. Qed.
Lemma keeps_start_kind inp c : keeps π (start_kind meta inp c).
Proof. unfold start_kind. keeps_tac. Qed.
Lemma keeps_issue_number t c : keeps π (issue_number t c).
Proof. unfold issue_number. keeps_tac. Qed.
#[local] Hint Resolve keeps_issue_number : keeps.
Lemma keeps_complete_kind inp i c actor :
  keeps π (if ai_Kind i =s KindContract then complete_contract meta inp i c actor
         else complete_change meta inp i c actor).
Proof. unfold complete_contract, complete_approved, complete_change. keeps_tac. Qed.

Lemma keeps_transfer inp now :
  (∀ X d, π (set_receipts X d) = π d) → keeps π (transfer_body inp now).
Proof.
  intros Hb d r d' [(x & _ & _ & _ & ->)|(_ & c & id & _ & _ & _ &
    [[_ [_ ->]]|[_ (S & R & _ & _ & ->)]])]%runs_transfer; [done|apply Hb|rewrite Hb; by blind].
Qed.

End Blocks.

(** ** The operations on approvals *)

Ltac foreign :=
  repeat (blind; match goal with
  | |- ?π _ = _ =>
      first [ rewrite (foreign_approvals (π := π)) | rewrite (foreign_actions (π := π))
            | rewrite (foreign_snapshots (π := π)) ]
  end); blind.

Section Foreign.
Context {T : Type} (π : DB → T) `{!Foreign π}.
Context `{GoUnicode} `{Sha256} `{TzDatabase} `{Collation} `{Documents}.

Lemma keeps_start `{Oracle} meta inp : keeps π (start_body meta inp).
Proof.
  intros d u d' Hr. unfold start_body in Hr. inv_tx Hr.
  destruct (db_approvals d !! sa_ApprovalID inp); [by inv_tx Hr|]. inv_tx Hr.
  match goal with h : runs (create_tasks _) _ _ _ |- _ =>
    apply runs_create_tasks in h as (ts & ->) end.
  match goal with h : runs (insert_snapshot _) _ _ _ |- _ =>
    apply runs_insert_snapshot in h as [-> _] end.
  match goal with h : runs (insert_instance _) _ _ _ |- _ =>
    apply runs_insert_instance in h as [-> _] end.
  match goal with h : runs (start_kind _ _ _) _ _ _ |- _ =>
    apply (keeps_start_kind π) in h; rewrite <- h end.
  by foreign.
Qed.

Lemma keeps_record `{Oracle} meta inp : keeps π (record_body meta inp).
Proof.
  intros d u d' [(_ & ->)|(i & a & now & row & ts & _ & _ & _ & _ & _ & _ & _ & ->)]%runs_record;
    [done|by foreign].
Qed.

Lemma keeps_complete `{Oracle} meta inp : keeps π (complete_body meta inp).
Proof.
  intros d u d' Hr. unfold complete_body in Hr. inv_tx Hr.
  destruct (db_approvals d !! _) as [i|]; [|by inv_tx Hr].
  destruct (negb _); [by inv_tx Hr|]. destruct (ai_CompletionApplied i); [by inv_tx Hr|].
  apply runs_bind in Hr as (c & d1 & Hc & Hr). inv_tx Hc.
  apply runs_bind in Hr as (? & d1 & Ho & Hr). inv_tx Ho.
  apply runs_bind in Hr as (? & s & Hk & Hr). apply (keeps_complete_kind π) in Hk. rewrite <- Hk.
  inv_tx Hr.
  match goal with h : runs (update_instance _ _ _) _ _ _ |- _ =>
    apply runs_update_instance in h as [(_ & i' & _ & _ & ->)|[_ ->]] end; by foreign.
Qed.

(** No call changes a foreign part of the tables; a transfer writes a receipt. *)
Lemma invoke_keeps (c : call) d :
  (∀ inp now, call_op c = OpTransfer inp now → ∀ X d, π (set_receipts X d) = π d) →
  π (invoke c d).2 = π d.
Proof.
  intros Hrc.
  destruct c as [O meta op]. unfold invoke. cbn [call_oracle call_meta call_op].
  assert (∀ A (m : Tx A), keeps π m → π (transaction m d).2 = π d) as Htx.
  { intros A m Hm. destruct (transaction m d) as [r d'] eqn:E.
    apply transaction_runs in E as [->|[a Ha]]; [done|by eapply Hm]. }
  destruct op; cbn [perform].
  - unfold CreateContract. destruct (applyContractSource c); [|done].
    apply Htx, (keeps_create π).
  - apply Htx, (keeps_draft π).
  - apply Htx, (keeps_transition π).
  - apply Htx, keeps_start.
  - apply Htx, keeps_record.
  - apply Htx, keeps_complete.
  - apply Htx, (keeps_notify π).
  - apply Htx, (keeps_archive π).
  - unfold ApplyContractFinancialChange. destruct (_ || _); [done|].
    apply Htx, (keeps_financial_change π).
  - apply Htx, (keeps_transfer π). by eapply Hrc.
Qed.

End Foreign.
