(* ===== verification/NumberIssue.v ===== *)
(** * The search for a free contract number

    [allocateContractNumberInTx] against a reference: the first number in
    sequence order that the registry does not hold, within 50 attempts. *)

From S2P Require Import Prelude GoStrings Decimal GoTime BusinessClock Status NumberRule.
From S2P Require Import PaymentTerm ProjectService ImportPolicy ApprovalRule Workflow Store.
From S2P Require Import Outbound Numbering Repository Scenario Changes Refinement.

#[local] Open Scope string_scope.
#[local] Open Scope Z_scope.
#[local] Open Scope list_scope.

Lemma bind_run {A B} (m : Tx A) (f : A → Tx B) s :
  (m ≫= f) s = match m s with (Ok a, s') => f a s' | (Err e, s') => (Err e, s') end.
Proof. reflexivity. Qed.

Section Search.
Context `{Oracle} `{GoUnicode} `{Sha256} `{TzDatabase} `{Collation}.
Hypothesis no_fault : ∀ t, o_fault t = false.
Variables (rule : ContractNumberRule) (ruleKey : string) (year : Z).

(** The reference: the sequence value and the number, without any table. *)
Fixpoint first_free (attempts : nat) (taken : string → bool) (v : Z) : res (Z * string) :=
  match attempts with
  | O => Err ErrNumberExhausted
  | S n =>
      fail_if (uint32_max <? v + 1) ErrStorage;;
      number ← BuildContractNumber rule year (v + 1);
      if taken (collate number) then first_free n taken (v + 1) else Ok (v + 1, number)
  end.

Definition registry_holds (n : numberTables) (key : string) : bool :=
  bool_decide (is_Some (nt_registry n !! key)).
Definition current_value (n : numberTables) : Z := default 0 (nt_sequence n !! (year, ruleKey)).

Lemma next_sequence_run n d t :
  db_numbers d = Some n → 0 ≤ current_value n →
  nextContractNumberSequence ruleKey year (t, d) =
    if uint32_max <? current_value n + 1 then (Err ErrStorage, (S t, d))
    else (Ok (current_value n + 1),
          (S (S t), set_numbers (Some (mkNumbers (nt_rule n)
             (<[(year, ruleKey) := current_value n + 1]> (nt_sequence n)) (nt_registry n))) d)).
Proof using no_fault.
  intros En Hpos. unfold nextContractNumberSequence, update_numbers, current_value in *.
  unfold mbind, Tx_bind, exec. rewrite !no_fault, En.
  destruct (nt_sequence n !! (year, ruleKey)) as [v|]; cbn [default from_option id] in *;
    [|change (0 + 1) with 1];
    (destruct (uint32_max <? _) eqn:Em; cbn [fail_if mbind res_bind fst snd]; [done|]);
    unfold query; rewrite no_fault; unfold guard, lift.
  - rewrite fail_if_pass by bool_lia. done.
  - done.
Qed.

Lemma reserve_run number tenantID id now n d t :
  db_numbers d = Some n →
  ∃ t', reserveContractNumberInTx number tenantID id year ruleKey now (t, d) =
    if registry_holds n (collate number) then (Ok false, (t', d))
    else (Ok true, (t', set_numbers (Some (mkNumbers (nt_rule n) (nt_sequence n)
           (<[collate number := mkRegistered number tenantID id year ruleKey now]>
              (nt_registry n)))) d)).
Proof using no_fault.
  intros En. unfold reserveContractNumberInTx, insert_registry, update_numbers, registry_holds.
  unfold mbind, Tx_bind, exec. rewrite !no_fault, En. cbn [nr_ContractNumber].
  destruct (nt_registry n !! collate number) as [r|] eqn:Er.
  - cbn [mbind res_bind fst snd]. change (0 =? 1) with false. cbv iota.
    unfold contractNumberRegisteredInTx, query. rewrite no_fault.
    rewrite <- En, set_numbers_id, En, Er, !bool_decide_true by eauto. eexists. done.
  - cbn [mbind res_bind fst snd]. change (1 =? 1) with true. cbv iota.
    rewrite bool_decide_false by (intros [? [=]]). eexists. done.
Qed.

(** The tables after the number was found at sequence value [v]. *)
Definition issued (n : numberTables) (v : Z) (number tenantID id : string) (now : Time)
    : numberTables :=
  mkNumbers (nt_rule n) (<[(year, ruleKey) := v]> (nt_sequence n))
    (<[collate number := mkRegistered number tenantID id year ruleKey now]> (nt_registry n)).

Lemma loop_run attempts tenantID id now n d t :
  db_numbers d = Some n → 0 ≤ current_value n →
  match first_free attempts (registry_holds n) (current_value n) with
  | Ok (v, number) => ∃ t',
      allocate_loop attempts rule ruleKey year tenantID id now (t, d) =
        (Ok number, (t', set_numbers (Some (issued n v number tenantID id now)) d))
  | Err e => ∃ t' d',
      allocate_loop attempts rule ruleKey year tenantID id now (t, d) = (Err e, (t', d'))
  end.
Proof using no_fault.
  revert n d t. induction attempts as [|attempts IH]; intros n d t En Hpos.
  { cbn. by eexists _, _. }
  cbn [first_free allocate_loop]. rewrite bind_run, (next_sequence_run n d t En Hpos).
  destruct (uint32_max <? current_value n + 1) eqn:Em; cbn [fail_if mbind res_bind].
  { by eexists _, _. }
  set (n1 := mkNumbers _ _ _). set (d1 := set_numbers _ d).
  destruct (BuildContractNumber rule year (current_value n + 1)) as [number|e];
    cbn [mbind res_bind]; rewrite bind_run; unfold lift; [|by eexists _, _].
  destruct (reserve_run number tenantID id now n1 d1 (S (S t)) eq_refl) as [t' Er].
  rewrite bind_run, Er.
  change (registry_holds n1) with (registry_holds n).
  destruct (registry_holds n (collate number)).
  - specialize (IH n1 d1 t' eq_refl).
    assert (current_value n1 = current_value n + 1) as Ev.
    { unfold current_value. cbn. by rewrite lookup_insert_eq. }
    rewrite Ev in IH. specialize (IH ltac:(lia)).
    change (registry_holds n1) with (registry_holds n) in IH.
    destruct (first_free attempts _ _) as [[v number']|e]; [|done].
    destruct IH as [t'' ->]. exists t''.
    assert (issued n1 v number' tenantID id now = issued n v number' tenantID id now) as ->
      by (unfold issued; cbn; by rewrite insert_insert_eq).
    reflexivity.
  - by eexists.
Qed.

End Search.

Section Allocation.
Context `{Oracle} `{GoUnicode} `{Sha256} `{TzDatabase} `{Collation}.

(** C33: with a rule set, the allocation is the reference search: it issues
    the first number after the sequence's value that the registry does not
    hold, registers it for this contract and moves the sequence to it, leaving
    every other number and sequence alone; when the next 50 numbers are taken it
    reports exhaustion.  Without a rule the number is the template's and no
    table changes. *)
Theorem allocation_first_free tenantID id legacy now d t n :
  (∀ k, o_fault k = false) → db_numbers d = Some n →
  let run := allocateContractNumberInTx tenantID id legacy now (t, d) in
  match nt_rule n with
  | None => ∃ t', run = (Ok (formatContractNumber legacy id now), (t', d))
  | Some rule => ∀ key, ContractNumberRuleKey rule = Ok key →
      0 ≤ current_value key (YearOf now) n →
      match first_free rule (YearOf now) contractNumberConflictAttempts (registry_holds n)
              (current_value key (YearOf now) n) with
      | Ok (v, number) => ∃ t', run =
          (Ok number, (t', set_numbers (Some (issued key (YearOf now) n v number tenantID id now)) d))
      | Err e => ∃ t' d', run = (Err e, (t', d'))
      end
  end.
Proof.
  intros Hf En run. unfold run, allocateContractNumberInTx, readContractNumberRule.
  rewrite bind_run. unfold query. rewrite Hf, En.
  destruct (nt_rule n) as [rule|].
  - intros key Hkey Hpos. rewrite bind_run. unfold lift. rewrite Hkey. by apply loop_run.
  - by eexists.
Qed.

End Allocation.

(** The first two numbers of the year are taken. *)
Definition taken_tables : numberTables :=
  mkNumbers (Some sample_rule) ∅
    (<["HT-20230001" := mkRegistered "HT-20230001" "t0" "x" 2023 "k" 0]>
      (<["HT-20230002" := mkRegistered "HT-20230002" "t0" "y" 2023 "k" 0]> ∅)).

Lemma allocation_first_free_witness :
  ∃ key t', ContractNumberRuleKey sample_rule = Ok key ∧
    allocateContractNumberInTx (H := fine "k") "t1" "c1" "" (1700000000 * Second)
      (0%nat, new_tables (Some taken_tables)) =
    (Ok "HT-20230003",
     (t', set_numbers (Some (issued key 2023 taken_tables 3 "HT-20230003" "t1" "c1"
        (1700000000 * Second))) (new_tables (Some taken_tables)))).
Proof.
  destruct (ContractNumberRuleKey sample_rule) as [key|e] eqn:Ek; [|vm_compute in Ek; discriminate].
  pose proof (allocation_first_free (H := fine "k") "t1" "c1" "" (1700000000 * Second)
    (new_tables (Some taken_tables)) 0%nat taken_tables (λ _, eq_refl) eq_refl) as Ht.
  cbn [nt_rule taken_tables] in Ht. specialize (Ht key Ek).
  assert (YearOf (1700000000 * Second) = 2023) as Ey by (vm_compute; reflexivity).
  rewrite Ey in Ht. specialize (Ht ltac:(done)).
  assert (first_free sample_rule 2023 contractNumberConflictAttempts (registry_holds taken_tables)
    (current_value key 2023 taken_tables) = Ok (3, "HT-20230003")) as Ef by (vm_compute; reflexivity).
  rewrite Ef in Ht. destruct Ht as [t' Ht]. exists key, t'. split; [reflexivity|exact Ht].
Defined.
