(* ===== verification/Integrity.v ===== *)
(** * What always holds of the tables

    Invariants of [change] (Changes.v), hence of every sequence of calls of the
    repository, whatever faults they meet (Refinement.v). *)

From stdpp Require Import relations sorting.
From S2P Require Import Prelude GoStrings Decimal GoTime BusinessClock Status NumberRule.
From S2P Require Import PaymentTerm ProjectService ImportPolicy ApprovalRule Workflow Store.
From S2P Require Import Outbound Handover Numbering Repository Scenario Changes Refinement.

#[local] Open Scope string_scope.
#[local] Open Scope Z_scope.
#[local] Open Scope list_scope.

(** ** The audit log *)

(** The status of contract [id] according to the log: created once, then moved
    along transitions of the table, each from the status reached before. *)
Definition replay_entry (id : string) (s : option Status) (p : auditPayload)
    : res (option Status) :=
  match p with
  | PCreated i status _ _ _ =>
      if i =s id then match s with None => Ok (Some status) | Some _ => Err ErrOther end else Ok s
  | PStatusChange i from to _ =>
      if i =s id then
        match s with
        | Some s0 => if (s0 =s from) && CanTransition from to then Ok (Some to)
                     else Err ErrInvalidTransition
        | None => Err ErrNotFound
        end
      else Ok s
  | _ => Ok s
  end.
Definition replay (id : string) (log : list auditPayload) : res (option Status) :=
  fold_res (replay_entry id) None log.

Lemma fold_res_snoc {S A} (f : S → A → res S) s l a :
  fold_res f s (l ++ [a]) = fold_res f s l ≫= λ s', f s' a.
Proof.
  revert s. induction l as [|b l IH]; intros s; cbn [fold_res app].
  - cbn. by destruct (f s a).
  - destruct (f s b); cbn [mbind res_bind]; [apply IH|done].
Qed.

Definition log_sound (x : Core) : Prop :=
  ∀ id, replay id (x_history x) = Ok (c_Status <$> x_contracts x !! id).

Section Invariants.
Context `{GoUnicode} `{Sha256} `{Collation}.

Lemma log_sound_change x y : change x y → log_sound x → log_sound y.
Proof.
  intros Hch Hl id. specialize (Hl id). unfold replay in *.
  assert (∀ (m : gmap string contractRecord) (k : string) c c',
    m !! k = Some c → c_Status c' = c_Status c →
    c_Status <$> <[k := c']> m !! id = c_Status <$> m !! id) as Hsame.
  { intros m k c c' Hk Hs. destruct (decide (k = id)) as [->|Hne].
    - rewrite lookup_insert_eq, Hk. cbn. by rewrite Hs.
    - by rewrite lookup_insert_ne. }
  destruct Hch; cbn [x_contracts x_history]; try done.
  - rewrite fold_res_snoc, Hl. cbn [mbind res_bind replay_entry].
    destruct (k_ID k =s id) eqn:E; cbn; rewrite ?E.
    + apply streq_true in E as <-. rewrite lookup_insert_eq.
      by match goal with h : _ !! k_ID k = None |- _ => rewrite h end.
    + apply streq_false in E. by rewrite lookup_insert_ne.
  - by erewrite Hsame.
  - rewrite fold_res_snoc, Hl. cbn [mbind res_bind replay_entry].
    destruct (id0 =s id) eqn:E; cbn; rewrite ?E.
    + apply streq_true in E as ->. rewrite lookup_insert_eq.
      match goal with h : _ !! id = Some c |- _ => rewrite h end. cbn.
      rewrite streq_refl. by match goal with h : CanTransition _ _ = true |- _ => rewrite h end.
    + apply streq_false in E. by rewrite lookup_insert_ne.
  - by erewrite Hsame.
  - by erewrite Hsame.
Qed.

(** ** Versions *)

(** The stored plan of a contract. *)
Definition stored_plan (x : Core) (c : contractRecord) : list paymentTermRow :=
  plan_rows (c_TenantID c) (c_ID c) (x_payment x).

(** Since [x], a contract changed exactly when its version did. *)
Definition since (x y : Core) : Prop :=
  ∀ id c, x_contracts x !! id = Some c →
    ∃ c', x_contracts y !! id = Some c' ∧ c_TenantID c' = c_TenantID c ∧
      c_Version c ≤ c_Version c' ∧
      (c_Version c' = c_Version c → c' = c ∧ stored_plan y c = stored_plan x c).

#[export] Instance since_refl : Reflexive since.
Proof. intros x id c Hc. exists c. split_and!; [done..|lia|done]. Qed.
#[export] Instance since_trans : Transitive since.
Proof.
  intros x y z Hxy Hyz id c Hc. destruct (Hxy id c Hc) as (c1 & Hc1 & Ht1 & Hle1 & He1).
  destruct (Hyz id c1 Hc1) as (c2 & Hc2 & Ht2 & Hle2 & He2). exists c2.
  split_and!; [done|congruence|lia|]. intros E.
  destruct He1 as [-> Hp1]; [lia|]. destruct He2 as [-> Hp2]; [lia|].
  split; [done|congruence].
Qed.

(** A contract replaced by a later version; its plan may be replaced too. *)
Lemma since_update x y id c c' :
  keyed x → x_contracts x !! id = Some c → x_contracts y = <[id := c']> (x_contracts x) →
  c_TenantID c' = c_TenantID c → c_Version c' = c_Version c + 1 →
  (∀ t i, i ≠ id → plan_rows t i (x_payment y) = plan_rows t i (x_payment x)) →
  since x y.
Proof.
  intros Hk Hc Hy Ht Hv Hp i c0 Hi. rewrite Hy. destruct (decide (i = id)) as [->|Hne].
  - rewrite lookup_insert_eq. exists c'. rewrite Hc in Hi. injection Hi as <-.
    split_and!; [done..|lia|lia].
  - rewrite lookup_insert_ne by done. exists c0. split_and!; [done..|lia|]. intros _.
    split; [done|]. unfold stored_plan. apply Hp. by rewrite (Hk _ _ Hi).
Qed.

Lemma since_other x y :
  x_contracts y = x_contracts x → x_payment y = x_payment x → since x y.
Proof.
  intros Hc Hp id c Hi. exists c. rewrite Hc. split_and!; [done..|lia|].
  intros _. split; [done|]. unfold stored_plan. by rewrite Hp.
Qed.

Lemma since_change x y : keyed x → change x y → since x y.
Proof.
  intros Hk Hch. destruct Hch.
  - intros id c Hc. cbn [x_contracts]. assert (k_ID k ≠ id) by congruence.
    exists c. rewrite lookup_insert_ne by done. split_and!; [done..|lia|]. intros _.
    split; [done|]. unfold stored_plan. cbn [x_payment].
    eapply plan_rows_other; [eassumption|]. rewrite (Hk _ _ Hc). congruence.
  - eapply since_update; [done|eassumption|reflexivity|done|done|]. intros t i Hi.
    eapply plan_rows_other; [eassumption|congruence].
  - eapply since_update; [done|eassumption|reflexivity| | |done];
      match goal with h : numbered _ _ _ _ _ _ |- _ => by destruct h end.
  - eapply since_update; [done|eassumption|reflexivity|done|done|]. intros t i Hi.
    eapply plan_rows_other; [eassumption|congruence].
  - by apply since_other.
  - by apply since_other.
  - by eapply since_update; [done|eassumption|reflexivity|done|done|].
Qed.

Lemma since_changes x y : keyed x → rtc change x y → since x y.
Proof.
  intros Hk Hr. induction Hr as [x|x y z Hxy _ IH]; [done|].
  transitivity y; [by apply since_change|]. apply IH. by eapply keyed_change.
Qed.

(** ** Responsibility *)

(** A message says what its stream said at that version. *)
Record message_sound (x : Core) (r : deliveryOutboxRecord responsibilityPayload) : Prop := {
  ms_stream : ∃ s, x_streams x !! (do_TenantID r, do_ContractID r) = Some s ∧
    1 ≤ do_ContractVersion r ≤ rs_Version s ∧
    ∃ p, do_Payload r = JsonOf p ∧ rp_SourceVersion p = do_ContractVersion r ∧
      (do_ContractVersion r = rs_Version s →
       rp_OwnerUserID p = rs_OwnerUserID s ∧ rp_Active p = rs_Active s)
}.

Definition delivery_key {P} (r : deliveryOutboxRecord P) : string * string * Z :=
  (do_TenantID r, do_ContractID r, do_ContractVersion r).

Lemma same_delivery_key {P} (a b : deliveryOutboxRecord P) :
  same_delivery a b = true ↔ delivery_key a = delivery_key b.
Proof.
  unfold same_delivery, delivery_key. rewrite !andb_true_iff, !streq_true, Z.eqb_eq.
  split; [by intros [[-> ->] ->]|by intros [= -> -> ->]].
Qed.

Lemma existsb_key {P} (r : deliveryOutboxRecord P) rows :
  existsb (same_delivery r) rows = false ↔ delivery_key r ∉ map delivery_key rows.
Proof.
  induction rows as [|b rows IH]; cbn [existsb map]; [set_solver|].
  rewrite orb_false_iff, IH, not_elem_of_cons, <- not_true_iff_false, same_delivery_key. done.
Qed.

Record streams_sound (x : Core) : Prop := {
  ss_track : ∀ id c, x_contracts x !! id = Some c →
    ∃ s, x_streams x !! (c_TenantID c, id) = Some s ∧ 1 ≤ rs_Version s ∧
      rs_OwnerUserID s = c_OwnerUserID (c_owner c) ∧ rs_Active s = responsibilityActive c;
  ss_versions : ∀ key s, x_streams x !! key = Some s → 1 ≤ rs_Version s;
  ss_messages : Forall (message_sound x) (x_responsibility x);
  ss_unique : NoDup (map delivery_key (x_responsibility x))
}.

(** The stream after a block that tells the others about contract [c]. *)
Lemma stream_effect_sound tenantID id c x y :
  streams_sound x →
  stream_effect tenantID id c (x_streams x) (x_responsibility x)
    (x_streams y) (x_responsibility y) →
  (∃ s, x_streams y !! (tenantID, id) = Some s ∧ 1 ≤ rs_Version s ∧
     rs_OwnerUserID s = c_OwnerUserID (c_owner c) ∧ rs_Active s = responsibilityActive c) ∧
  (∀ key, key ≠ (tenantID, id) → x_streams y !! key = x_streams x !! key) ∧
  (∀ key s, x_streams y !! key = Some s → 1 ≤ rs_Version s) ∧
  Forall (message_sound y) (x_responsibility y) ∧
  NoDup (map delivery_key (x_responsibility y)).
Proof.
  intros [_ Hv Hm Hu] He. destruct x as [? S R ? ? ? ?], y as [? S' R' ? ? ? ?].
  cbn [x_streams x_responsibility] in *.
  assert (0 ≤ stream_version S (tenantID, id)) as Hpos.
  { unfold stream_version. case_match; [|done]. apply Hv in H2. lia. }
  assert (∀ v now s, v = stream_version S (tenantID, id) + 1 → ∀ key s',
    <[(tenantID, id) := mkStream s (responsibilityActive c) v now]> S !! key = Some s' →
    1 ≤ rs_Version s') as Hver.
  { intros v now s -> key s' [[_ <-]|[_ Hi]]%lookup_insert_Some; cbn; [lia|by eapply Hv]. }
  assert (∀ v now o, v = stream_version S (tenantID, id) + 1 → ∀ r,
    message_sound (mkCore x_contracts S R x_payment x_financial x_project x_history x_numbers) r →
    message_sound (mkCore x_contracts0
      (<[(tenantID, id) := mkStream o (responsibilityActive c) v now]> S) R' x_payment0
      x_financial0 x_project0 x_history0 x_numbers0) r) as Hold.
  { intros v now o -> r [(s & Hs & Hr & p & Hp & Hpv & Hpe)]. constructor.
    cbn [x_streams] in *. unfold stream_version.
    destruct (decide ((tenantID, id) = (do_TenantID r, do_ContractID r))) as [E|Hne].
    - rewrite E, lookup_insert_eq, Hs. eexists. split; [done|]. cbn [rs_Version].
      split; [lia|]. exists p. split_and!; [done..|lia].
    - rewrite lookup_insert_ne by done. eauto 10. }
  destruct He as [s Hs Hpos' Ho Ha|v now Hver' Hskip|v now r Hver' Hskip Hr Hnew].
  - split_and!; [|done|done| |done].
    + exists s. split_and!; [done|lia|done..].
    + eapply Forall_impl; [exact Hm|]. intros r [Hr]. by constructor.
  - split_and!; [|by intros; rewrite lookup_insert_ne|by eapply Hver| |done].
    + eexists. rewrite lookup_insert_eq. split; [done|]. cbn. split_and!; [lia|done..].
    + eapply Forall_impl; [exact Hm|]. by apply Hold.
  - split_and!; [|by intros; rewrite lookup_insert_ne|by eapply Hver| |].
    + eexists. rewrite lookup_insert_eq. split; [done|]. cbn. split_and!; [lia|done..].
    + apply Forall_app. split; [eapply Forall_impl; [exact Hm|]; by apply Hold|].
      apply Forall_singleton. constructor. cbn [x_streams].
      destruct Hr as [-> -> -> _ (ev & at_ & ->)]. rewrite lookup_insert_eq.
      eexists. split; [done|]. cbn [rs_Version]. split; [lia|].
      eexists. split; [reflexivity|]. done.
    + rewrite map_app. apply NoDup_app. split_and!; [done| |apply NoDup_singleton].
      intros k Hk [->|[]%elem_of_nil]%elem_of_cons. by apply existsb_key in Hnew.
Qed.

Lemma streams_sound_change x y : keyed x → change x y → streams_sound x → streams_sound y.
Proof.
  intros Hk Hch Hs.
  assert (∀ y tenantID id c, x_contracts y = <[id := c]> (x_contracts x) →
    c_TenantID c = tenantID →
    stream_effect tenantID id c (x_streams x) (x_responsibility x)
      (x_streams y) (x_responsibility y) → streams_sound y) as Hnew.
  { clear y Hch. intros y tenantID id c Hy Ht He.
    destruct (stream_effect_sound _ _ _ x y Hs He) as (Hown & Hoth & Hv & Hm & Hu).
    constructor; [|done..]. intros i c0. rewrite Hy.
    intros [[<- <-]|[Hne Hi]]%lookup_insert_Some; [by rewrite Ht|].
    rewrite Hoth by congruence. by apply Hs. }
  assert (∀ id c c', x_contracts x !! id = Some c →
    x_contracts y = <[id := c']> (x_contracts x) → c_TenantID c' = c_TenantID c →
    c_OwnerUserID (c_owner c') = c_OwnerUserID (c_owner c) →
    responsibilityActive c' = responsibilityActive c →
    x_streams y = x_streams x → x_responsibility y = x_responsibility x →
    streams_sound y) as Hsame.
  { clear Hch. intros id c c' Hc Hy Ht Ho Ha HS HR.
    destruct Hs as [Htr Hv Hm Hu]. constructor; rewrite ?HS, ?HR; [|done| |done].
    - intros i c0. rewrite Hy. intros [[<- <-]|[_ Hi]]%lookup_insert_Some; [|by apply Htr].
      rewrite Ht, Ho, Ha. by apply Htr.
    - eapply Forall_impl; [exact Hm|]. intros r [Hr]. constructor. by rewrite HS. }
  destruct Hch.
  - by eapply Hnew.
  - eapply Hsame; [eassumption|reflexivity..].
  - eapply Hnew; [reflexivity|reflexivity|]. cbn.
    match goal with h : numbered _ _ _ _ _ _ |- _ => by destruct h end.
  - eapply Hsame; [eassumption|reflexivity..].
  - destruct Hs as [? ? Hm ?]. constructor; [done..| |done].
    eapply Forall_impl; [exact Hm|]. intros r0 [Hr]. by constructor.
  - destruct Hs as [? ? Hm ?]. constructor; [done..| |done].
    eapply Forall_impl; [exact Hm|]. intros r0 [Hr]. by constructor.
  - by eapply Hnew.
Qed.

(** ** Payment plans *)

(** The stored plan is what [NormalizePaymentTerms] returns for it, against the
    amount and currency of the row. *)
Definition plan_matches (c : contractRecord) (rows : list paymentTermRow) : Prop :=
  let amount := c_AmountMinor (c_terms c) in
  let currency := c_Currency (c_terms c) in
  ∃ out, map pr_term rows = map term_record out ∧ map term_text (map term_record out) = out ∧
    NormalizePaymentTerms out amount currency = Ok out ∧ (out = [] ∨ plan_ok out amount currency).

Definition plans_sound (x : Core) : Prop :=
  ∀ id c, x_contracts x !! id = Some c →
    in_int64 (c_AmountMinor (c_terms c)) ∧ plan_matches c (stored_plan x c).

Lemma plans_sound_change x y : keyed x → change x y → plans_sound x → plans_sound y.
Proof.
  intros Hk Hch Hs.
  assert (∀ y id c' terms amount currency tenantID,
    x_contracts y = <[id := c']> (x_contracts x) → c_ID c' = id → c_TenantID c' = tenantID →
    c_AmountMinor (c_terms c') = amount → c_Currency (c_terms c') = currency →
    in_int64 amount →
    plan_effect tenantID id terms amount currency (x_payment x) (x_payment y) →
    plans_sound y) as Hnew.
  { clear y Hch. intros y id c' terms amount currency tenantID Hy Hid Ht Ha Hcu Hin He i c.
    rewrite Hy. intros [[<- <-]|[Hne Hi]]%lookup_insert_Some.
    - rewrite Ha. split; [done|]. unfold plan_matches, stored_plan.
      rewrite Ha, Hcu, Hid, Ht. 
      destruct (plan_rows_own _ _ _ _ _ _ _ Hin He) as (out & _ & ? & ? & ? & ?). eauto 10.
    - unfold plan_matches, stored_plan. pose proof (Hk _ _ Hi) as Hci.
      rewrite (plan_rows_other _ _ _ _ _ _ _ (c_TenantID c) (c_ID c) He) by congruence.
      by apply Hs in Hi. }
  assert (∀ y id c c', x_contracts x !! id = Some c →
    x_contracts y = <[id := c']> (x_contracts x) → c_ID c' = c_ID c →
    c_TenantID c' = c_TenantID c → c_terms c' = c_terms c → x_payment y = x_payment x →
    plans_sound y) as Hsame.
  { clear y Hch Hnew. intros y id c c' Hc Hy Hid Ht Hte Hp i c0. rewrite Hy.
    unfold plan_matches, stored_plan. rewrite Hp.
    intros [[<- <-]|[Hne Hi]]%lookup_insert_Some; [|by apply Hs in Hi].
    rewrite Hid, Ht, Hte. by apply Hs in Hc. }
  assert (∀ id c, x_contracts x !! id = Some c → c_ID c = id) as Hk' by exact Hk.
  destruct Hch; try exact Hs; try match goal with h : x_contracts x !! _ = Some _ |- _ =>
    pose proof (Hk' _ _ h) end.
  - eapply Hnew; [reflexivity..|done|]. by cbn [c_terms c_AmountMinor c_Currency terms_columns new_contract].
  - eapply Hnew; [reflexivity|done|done|reflexivity|reflexivity|done|done].
  - eapply Hsame; [eassumption|reflexivity|..|done];
      match goal with h : numbered _ _ _ _ _ _ |- _ => by destruct h end.
  - eapply Hnew; [reflexivity|done|done|reflexivity|reflexivity|done|done].
  - by eapply Hsame.
Qed.

(** ** Financial events *)

(** An event of version [v] is about one state of the contract: the one with
    version [v]; its plan adds up to its amount. *)
Record event_sound (x : Core) (r : deliveryOutboxRecord financialEffectivePayload) : Prop := {
  es_payload : ∃ p amount, do_Payload r = JsonOf p ∧ fp_ID p = do_ContractID r ∧
    fp_TenantID p = do_TenantID r ∧ fp_Amount p = formatAmountMinor amount ∧
    0 < amount ≤ int64_max ∧ plan_cents (fp_PaymentTerms p) = amount ∧ fp_PaymentTerms p ≠ [];
  es_current : ∃ c, x_contracts x !! do_ContractID r = Some c ∧ c_TenantID c = do_TenantID r ∧
    do_ContractVersion r ≤ c_Version c ∧
    (do_ContractVersion r = c_Version c →
     ∃ ev now, do_Payload r = JsonOf (newFinancialEffectivePayload ev c (stored_plan x c) now))
}.

Definition events_sound (x : Core) : Prop :=
  Forall (event_sound x) (x_financial x) ∧ NoDup (map delivery_key (x_financial x)).

Lemma insert_ignore_rows {P} (r : deliveryOutboxRecord P) rows :
  (insert_ignore same_delivery r rows = rows ∧ delivery_key r ∈ map delivery_key rows) ∨
  (insert_ignore same_delivery r rows = rows ++ [r] ∧ delivery_key r ∉ map delivery_key rows).
Proof.
  unfold insert_ignore. destruct (existsb _ _) eqn:E; [left|right; by rewrite <- existsb_key].
  split; [done|]. apply dec_stable. intros Hn%existsb_key. congruence.
Qed.

(** An event about an older state stays sound. *)
Lemma event_sound_since x y r : since x y → event_sound x r → event_sound y r.
Proof.
  intros Hs [Hp (c & Hc & Ht & Hle & He)]. split; [done|].
  destruct (Hs _ _ Hc) as (c' & Hc' & Ht' & Hle' & He'). exists c'.
  split_and!; [done|congruence|lia|]. intros E. destruct He' as [-> ->]; [lia|]. apply He. lia.
Qed.

Lemma terms_total_plan c rows :
  in_int64 (c_AmountMinor (c_terms c)) → plan_matches c rows → rows ≠ [] →
  plan_cents (map (λ r, term_from_record (pr_term r)) rows) = c_AmountMinor (c_terms c) ∧
  0 < c_AmountMinor (c_terms c).
Proof.
  intros Hin (out & Hr & Ht & Hn & Hcase) Hne.
  destruct Hcase as [->|Hok]; [by destruct rows|].
  split; [|apply Hok].
  replace (map (λ r, term_from_record (pr_term r)) rows) with out; [apply Hok|].
  rewrite <- Ht at 1. by rewrite <- Hr, map_map.
Qed.

Lemma events_sound_change x y :
  keyed x → plans_sound x → change x y → events_sound x → events_sound y.
Proof.
  intros Hk Hpl Hch [He Hu]. pose proof (since_change x y Hk Hch) as Hs.
  assert (Forall (event_sound y) (x_financial x)) as Hold
    by (eapply Forall_impl; [exact He|]; intros r; by apply event_sound_since).
  destruct Hch as [| | | |id c r Hc Hl terms Hskip Hr| |]; try by split.
  set (y := mkCore _ _ _ _ _ _ _ _) in *.
  assert (x_contracts y = x_contracts x ∧ x_payment y = x_payment x ∧
    x_financial y = insert_ignore same_delivery r (x_financial x)) as (Hyc & Hyp & Hyf) by done.
  clearbody y. unfold events_sound. rewrite Hyf.
  destruct (insert_ignore_rows r (x_financial x)) as [[-> _]|[-> Hnew]]; [by split|]. split.
  - apply Forall_app. split; [done|]. apply Forall_singleton.
    pose proof (Hk _ _ Hc) as Hid. destruct (Hpl _ _ Hc) as [Hin Hm].
    unfold stored_plan in Hm. rewrite Hid in Hm. fold terms in Hm.
    unfold financialEffectiveSkipReason in Hskip.
    repeat match type of Hskip with (if ?b then _ else _) = _ =>
      destruct b eqn:?; [discriminate Hskip|] end. bool_hyps.
    assert (terms ≠ []) as Hne.
    { intros E. match goal with h : length terms ≠ 0%nat |- _ => apply h; by rewrite E end. }
    destruct (terms_total_plan c terms Hin Hm Hne) as [Hsum Hpos].
    destruct Hr as [Ht Hcid Hv _ (ev & now & Hp)]. constructor.
    + eexists _, (c_AmountMinor (c_terms c)). split; [exact Hp|]. cbn.
      unfold in_int64 in Hin. split_and!; try done; try lia. by destruct terms.
    + exists c. rewrite Hyc, Hcid, Hid. split_and!; [done..|lia|]. intros _.
      exists ev, now. rewrite Hp. unfold stored_plan. by rewrite Hyp, Hid.
  - rewrite map_app. apply NoDup_app. split_and!; [done| |apply NoDup_singleton].
    intros k Hk' [->|[]%elem_of_nil]%elem_of_cons. done.
Qed.

(** ** Contract numbers *)

Definition numbers_sound (x : Core) : Prop :=
  ∀ i j c c' n n', x_contracts x !! i = Some c → x_contracts x !! j = Some c' →
    c_TenantID c = c_TenantID c' → c_ContractNumber c = Some n → c_ContractNumber c' = Some n' →
    collate n = collate n' → i = j.

Lemma number_free tenantID id n (m : gmap string contractRecord) :
  number_taken tenantID id (Some n) m = false →
  ∀ k c n', m !! k = Some c → c_TenantID c = tenantID → c_ContractNumber c = Some n' →
    collate n' = collate n → k = id.
Proof.
  unfold number_taken. intros Hf k c n' Hk Ht Hn Hco. bool_hyps.
  destruct (decide (k = id)) as [|Hne]; [done|]. exfalso. apply Hf.
  exists k, c. split_and!; [done..|]. rewrite Hn. cbn. by rewrite Hco.
Qed.

Lemma numbers_sound_change x y : change x y → numbers_sound x → numbers_sound y.
Proof.
  intros Hch Hs.
  assert (∀ y id c', x_contracts y = <[id := c']> (x_contracts x) →
    (∀ n, c_ContractNumber c' = Some n →
       ∀ k c n', k ≠ id → x_contracts x !! k = Some c → c_TenantID c = c_TenantID c' →
       c_ContractNumber c = Some n' → collate n' ≠ collate n) → numbers_sound y) as Hnew.
  { clear y Hch. intros y id c' Hy Hn i j a b n n'. rewrite Hy.
    intros [[<- <-]|[Hi Ha]]%lookup_insert_Some [[<- <-]|[Hj Hb]]%lookup_insert_Some;
      [done| | |by eapply Hs]; intros Ht En En' Hco; exfalso.
    - by eapply Hn.
    - by eapply Hn. }
  assert (∀ y id c c', x_contracts x !! id = Some c →
    x_contracts y = <[id := c']> (x_contracts x) → c_TenantID c' = c_TenantID c →
    c_ContractNumber c' = c_ContractNumber c → numbers_sound y) as Hsame.
  { clear y Hch. intros y id c c' Hc Hy Ht Hn. eapply Hnew; [exact Hy|].
    intros n En k c0 n' Hne Hk Ht0 Hn' Hco. apply Hne. eapply Hs; [exact Hk|exact Hc|..];
      [congruence|exact Hn'|by rewrite <- Hn|done]. }
  destruct Hch; try exact Hs.
  - eapply Hnew; [reflexivity|]. intros n En k0 c n' Hne Hk0 Ht Hn' Hco. apply Hne.
    cbn in En. match goal with h : number_taken _ _ _ _ = false |- _ => rewrite En in h;
      eapply number_free; [exact h|done..] end.
  - by eapply Hsame.
  - match goal with h : numbered _ _ _ _ _ _ |- _ => destruct h as [|u now' ? Hnone Hfree] end;
      [by eapply Hsame|].
    eapply Hnew; [reflexivity|]. intros n En k0 c0 n' Hne Hk0 Ht Hn' Hco. apply Hne.
    cbn in En. injection En as <-. by eapply number_free.
  - by eapply Hsame.
  - by eapply Hsame.
Qed.

End Invariants.

(** ** From an empty installation *)

Section Histories.
Context `{GoUnicode} `{Sha256} `{TzDatabase} `{Collation} `{Documents}.
Variables (numbers : option numberTables) (calls : list call).
Hypothesis Hcalls : Forall (well_typed ∘ call_op) calls.

Lemma execute_invariant (P : Core → Prop) :
  (∀ x y, keyed x → change x y → P x → P y) → P (core (new_tables numbers)) →
  P (core (execute calls (new_tables numbers))) ∧
  keyed (core (execute calls (new_tables numbers))).
Proof using Hcalls.
  intros Hp H0'.
  assert (keyed (core (new_tables numbers))) as Hk by done.
  destruct (execute_refines calls (new_tables numbers) Hk Hcalls) as [Hr Hk'].
  split; [|done].
  eapply (rtc_change_keeps (λ x, keyed x ∧ P x)); [|exact Hr|done].
  intros x y Hxy [Hkx Hx]. split; [by eapply keyed_change|by eapply Hp].
Qed.

(** C15: after every sequence of the ten operations of the repository on new
    tables the audit log of every contract replays to its status: it was created
    once and every logged change is a legal transition from the status reached
    before; the log has no entry for a contract that does not exist.  No fault,
    rollback or lost acknowledgement separates the row from its log.  Histories
    with imported contracts are not covered: the confirmation of an import sets
    the status in one step and logs an IMPORT_CONFIRMED event instead. *)
Theorem audit_log_replays id :
  let d := execute calls (new_tables numbers) in
  replay id (history (db_audit d)) = Ok (c_Status <$> db_contracts d !! id).
Proof using Hcalls.
  destruct (execute_invariant log_sound) as [Hl _]; [|by intros i|exact (Hl id)].
  intros x y _. apply log_sound_change.
Qed.

(** C17: the responsibility stream of a contract carries its owner and whether
    it is active, its messages have distinct versions from 1 to the version of
    the stream, and the message with that version says what the row says: a
    consumer that keeps the message with the highest version is not misled by
    the order or the repetition of deliveries. *)
Theorem responsibility_stream_tracks id c :
  let d := execute calls (new_tables numbers) in
  db_contracts d !! id = Some c →
  ∃ s, db_streams d !! (c_TenantID c, id) = Some s ∧ 1 ≤ rs_Version s ∧
    rs_OwnerUserID s = c_OwnerUserID (c_owner c) ∧ rs_Active s = responsibilityActive c ∧
    NoDup (map delivery_key (db_responsibility d)) ∧
    ∀ r, r ∈ db_responsibility d → do_TenantID r = c_TenantID c → do_ContractID r = id →
      1 ≤ do_ContractVersion r ≤ rs_Version s ∧
      (do_ContractVersion r = rs_Version s →
       ∃ p, do_Payload r = JsonOf p ∧ rp_OwnerUserID p = c_OwnerUserID (c_owner c) ∧
         rp_Active p = responsibilityActive c).
Proof using Hcalls.
  intros d Hc. destruct (execute_invariant streams_sound) as [[Htr _ Hm Hu] _].
  { intros x y Hk Hch. by eapply streams_sound_change. }
  { constructor; cbn; try done; by constructor. }
  destruct (Htr _ _ Hc) as (s & Hs & Hv & Ho & Ha). exists s. split_and!; try done.
  intros r Hr Ht Hi. rewrite Forall_forall in Hm.
  destruct (Hm r Hr) as [(s' & Hs' & Hle & p & Hp & _ & He)].
  rewrite Ht, Hi in Hs'. cbn in Hs, Hs'. rewrite Hs in Hs'. injection Hs' as <-.
  split; [done|]. intros E. exists p. destruct (He E) as [-> ->]. by rewrite Ho, Ha.
Qed.

Lemma plans_and_events :
  plans_sound (core (execute calls (new_tables numbers))) ∧
  events_sound (core (execute calls (new_tables numbers))) ∧
  keyed (core (execute calls (new_tables numbers))).
Proof using Hcalls.
  destruct (execute_invariant (λ x, plans_sound x ∧ events_sound x)) as [[? ?] ?]; [| |done].
  - intros x y Hk Hch [Hp He]. split; [by eapply plans_sound_change|by eapply events_sound_change].
  - split; [by intros ? ?|]. split; constructor.
Qed.

(** The stored plan of a contract is empty, or it adds up to the amount of
    the row to the cent, has distinct installments in order, and reading it
    back and normalising it again changes nothing. *)
Theorem stored_plan_matches id c :
  let d := execute calls (new_tables numbers) in
  db_contracts d !! id = Some c →
  let terms := map (λ r, term_from_record (pr_term r)) (terms_of (c_TenantID c) id d) in
  NormalizePaymentTerms terms (c_AmountMinor (c_terms c)) (c_Currency (c_terms c)) = Ok terms ∧
  (terms ≠ [] → plan_cents terms = c_AmountMinor (c_terms c) ∧ NoDup (map InstallmentNo terms) ∧
     0 < c_AmountMinor (c_terms c)).
Proof using Hcalls.
  intros d Hc. destruct plans_and_events as (Hp & _ & Hk).
  destruct (Hp _ _ Hc) as [_ (out & Hr & Ht & Hn & Hcase)]. pose proof (Hk _ _ Hc) as Hid.
  unfold stored_plan in Hr. rewrite Hid in Hr. fold d in Hr.
  assert (map (λ r, term_from_record (pr_term r)) (terms_of (c_TenantID c) id d) = out) as ->.
  { rewrite <- Ht, <- Hr, map_map. done. }
  split; [done|]. intros Hne. destruct Hcase as [->|Hok]; [done|].
  split_and!; apply Hok.
Qed.

(** Financial events: at most one per version of a contract; the plan in
    an event adds up to its amount, which is positive; no event is ahead of its
    contract, and the event with the contract's version says exactly what the
    row and its stored plan say. *)
Theorem financial_events_exact r :
  let d := execute calls (new_tables numbers) in
  r ∈ db_financial d →
  NoDup (map delivery_key (db_financial d)) ∧
  (∃ p amount, do_Payload r = JsonOf p ∧ fp_ID p = do_ContractID r ∧
     fp_TenantID p = do_TenantID r ∧ fp_Amount p = formatAmountMinor amount ∧
     0 < amount ≤ int64_max ∧ plan_cents (fp_PaymentTerms p) = amount) ∧
  ∃ c, db_contracts d !! do_ContractID r = Some c ∧ do_ContractVersion r ≤ c_Version c ∧
    (do_ContractVersion r = c_Version c →
     ∃ ev now, do_Payload r = JsonOf (newFinancialEffectivePayload ev c
       (terms_of (c_TenantID c) (do_ContractID r) d) now)).
Proof using Hcalls.
  intros d Hr. destruct plans_and_events as (_ & [He Hu] & Hk).
  rewrite Forall_forall in He. destruct (He r Hr) as [(p & a & ? & ? & ? & ? & ? & ? & _) (c & Hc & _ & Hle & Hcur)].
  split; [done|]. split; [by exists p, a|]. exists c. split_and!; [done..|]. intros E.
  destruct (Hcur E) as (ev & now & Hp). exists ev, now. rewrite Hp. unfold stored_plan.
  by rewrite (Hk _ _ Hc).
Qed.

(** Contracts of one tenant with numbers equal under the collation are the
    same contract. *)
Theorem contract_numbers_unique i j c c' n n' :
  let d := execute calls (new_tables numbers) in
  db_contracts d !! i = Some c → db_contracts d !! j = Some c' →
  c_TenantID c = c_TenantID c' → c_ContractNumber c = Some n → c_ContractNumber c' = Some n' →
  collate n = collate n' → i = j.
Proof using Hcalls.
  intros d. destruct (execute_invariant numbers_sound) as [Hn _].
  - intros x y _. apply numbers_sound_change.
  - by intros ? ? ? ? ? ?.
  - apply Hn.
Qed.

End Histories.

(** The version of a contract identifies its state: calls never remove a
    contract or lower its version, and if the version is unchanged, so are the
    whole row and the payment plan.  A caller that checks the version it read
    is therefore the only writer since then. *)
Theorem version_identifies_contract `{GoUnicode} `{Sha256} `{TzDatabase} `{Collation} `{Documents}
    (d : DB) (calls : list call) id c :
  keyed (core d) → Forall (well_typed ∘ call_op) calls →
  db_contracts d !! id = Some c →
  ∃ c', db_contracts (execute calls d) !! id = Some c' ∧ c_Version c ≤ c_Version c' ∧
    (c_Version c' = c_Version c →
     c' = c ∧ terms_of (c_TenantID c) id (execute calls d) = terms_of (c_TenantID c) id d).
Proof.
  intros Hk Hcalls Hc. destruct (execute_refines calls d Hk Hcalls) as [Hr _].
  destruct (since_changes _ _ Hk Hr id c Hc) as (c' & Hc' & _ & Hle & He).
  exists c'. split_and!; [done..|]. intros E. destruct (He E) as [-> Hp]. split; [done|].
  unfold stored_plan in Hp. by rewrite (Hk _ _ Hc) in Hp.
Qed.

(** C1: whatever statement fails and whatever happens to the commits, a
    sequence of calls changes the tables by a sequence of the specified
    changes. *)
Theorem repository_refines `{GoUnicode} `{Sha256} `{TzDatabase} `{Collation} `{Documents}
    (d : DB) (calls : list call) :
  keyed (core d) → Forall (well_typed ∘ call_op) calls →
  rtc change (core d) (core (execute calls d)).
Proof. intros Hk Hcalls. by apply execute_refines. Qed.

(** ** The sample run *)

Lemma sample_calls_typed : Forall (well_typed ∘ call_op) sample_calls.
Proof. repeat constructor; by vm_compute. Qed.

Lemma sample_active :
  (λ c, (c_Status c, c_Version c, c_ContractNumber c)) <$> (db_contracts sample_db !! "c1") =
  Some (StatusActive, 4, Some "HT-20230001").
Proof. vm_compute. reflexivity. Qed.

Lemma audit_log_replays_witness :
  replay "c1" (history (db_audit sample_db)) = Ok (Some StatusActive).
Proof.
  etrans; [exact (audit_log_replays sample_numbers sample_calls sample_calls_typed "c1")|].
  vm_compute. reflexivity.
Defined.

Lemma repository_refines_witness : rtc change (core (new_tables sample_numbers)) (core sample_db).
Proof.
  refine (repository_refines (new_tables sample_numbers) sample_calls _ sample_calls_typed).
  by intros id c E.
Defined.

Lemma responsibility_stream_tracks_witness :
  ∃ c s, db_contracts sample_db !! "c1" = Some c ∧ db_streams sample_db !! ("t1", "c1") = Some s ∧
    rs_OwnerUserID s = c_OwnerUserID (c_owner c) ∧ rs_Active s = responsibilityActive c.
Proof.
  destruct (db_contracts sample_db !! "c1") as [c|] eqn:E; [|vm_compute in E; discriminate].
  destruct (responsibility_stream_tracks sample_numbers sample_calls sample_calls_typed "c1" c E)
    as (s & Hs & _ & Ho & Ha & _).
  exists c, s. split_and!; [done| |done|done]. rewrite <- Hs. f_equal.
  vm_compute in E. injection E as <-. reflexivity.
Defined.

Lemma stored_plan_matches_witness :
  ∃ c, db_contracts sample_db !! "c1" = Some c ∧
    plan_cents (map (λ r, term_from_record (pr_term r)) (terms_of (c_TenantID c) "c1" sample_db)) =
    c_AmountMinor (c_terms c).
Proof.
  destruct (db_contracts sample_db !! "c1") as [c|] eqn:E; [|vm_compute in E; discriminate].
  exists c. split; [done|].
  destruct (stored_plan_matches sample_numbers sample_calls sample_calls_typed "c1" c E) as [_ Hp].
  apply Hp. vm_compute in E. injection E as <-. vm_compute. discriminate.
Defined.

Lemma financial_events_exact_witness :
  ∃ r p amount, r ∈ db_financial sample_db ∧ do_Payload r = JsonOf p ∧
    fp_Amount p = formatAmountMinor amount ∧ plan_cents (fp_PaymentTerms p) = amount.
Proof.
  destruct (db_financial sample_db) as [|r rest] eqn:E; [vm_compute in E; discriminate|].
  assert (r ∈ db_financial sample_db) as Hr by (rewrite E; left).
  destruct (financial_events_exact sample_numbers sample_calls sample_calls_typed r Hr)
    as (_ & (p & a & Hp & _ & _ & Ha & _ & Hs) & _).
  exists r, p, a. split_and!; [left|exact Hp|exact Ha|exact Hs].
Defined.

Lemma contract_numbers_unique_witness :
  ∃ c, db_contracts sample_db !! "c1" = Some c ∧ c_ContractNumber c = Some "HT-20230001" ∧
    ∀ i c', db_contracts sample_db !! i = Some c' → c_TenantID c = c_TenantID c' →
      c_ContractNumber c' = Some "HT-20230001" → i = "c1".
Proof.
  destruct (db_contracts sample_db !! "c1") as [c|] eqn:E; [|vm_compute in E; discriminate].
  assert (c_ContractNumber c = Some "HT-20230001") as Hn.
  { pose proof sample_active as Hs. rewrite E in Hs. by injection Hs. }
  exists c. split; [done|]. split; [exact Hn|]. intros i c' Hc' Ht Hn'. symmetry.
  refine (contract_numbers_unique sample_numbers sample_calls sample_calls_typed
            "c1" i c c' "HT-20230001" "HT-20230001" E Hc' Ht Hn Hn' eq_refl).
Defined.

(** The completion was delivered again: nothing changed. *)
Lemma version_identifies_contract_witness :
  ∃ c c', db_contracts (execute (take 4 sample_calls) (new_tables sample_numbers)) !! "c1" = Some c ∧
    db_contracts sample_db !! "c1" = Some c' ∧ c_Version c ≤ c_Version c' ∧ c' = c.
Proof.
  set (d := execute (take 4 sample_calls) (new_tables sample_numbers)).
  assert (sample_db = execute (drop 4 sample_calls) d) as Ed.
  { unfold d, execute. rewrite <- foldl_app. f_equal. }
  assert (Forall (well_typed ∘ call_op) (take 4 sample_calls)) as Ht
    by (apply Forall_take, sample_calls_typed).
  assert (keyed (core d)) as Hk
    by (refine (proj2 (execute_refines _ (new_tables sample_numbers) _ Ht)); by intros id c E).
  destruct (db_contracts d !! "c1") as [c|] eqn:E; [|vm_compute in E; discriminate].
  destruct (version_identifies_contract d (drop 4 sample_calls) "c1" c Hk
    ltac:(apply Forall_drop, sample_calls_typed) E) as (c' & Hc' & Hle & He).
  rewrite <- Ed in Hc'. exists c, c'. split_and!; [done..|]. apply He.
  pose proof sample_active as Hs. rewrite Hc' in Hs. injection Hs as _ -> _.
  vm_compute in E. injection E as <-. reflexivity.
Defined.
