(* ===== verification/Approvals.v ===== *)
(** * Approvals in the tables: exactly once, with an immutable snapshot

    The activities of the approval workflows are retried until they return.
    Their effect on the tables happens once. *)

From S2P Require Import Prelude GoStrings Decimal GoTime BusinessClock Status NumberRule.
From S2P Require Import PaymentTerm ProjectService ImportPolicy ApprovalRule Workflow Store.
From S2P Require Import Outbound Handover Numbering Repository Scenario Changes Refinement Frames.

#[local] Open Scope string_scope.
#[local] Open Scope Z_scope.
#[local] Open Scope list_scope.

(** ** Statements that leave the approvals alone *)

Definition approvals (d : DB) :=
  (db_approvals d, db_actions d, db_snapshots d).
#[export] Instance approvals_blind : Blind approvals.
Proof. by constructor. Qed.

Section Blocks.
Context `{Oracle} `{GoUnicode} `{Sha256} `{TzDatabase} `{Collation} `{Documents}.
Variable meta : requestMeta.

(** ** The three activities that write approvals *)

(** A started approval: the guards it passed, its row and its snapshot. *)
Record started (inp : StartApprovalActivityInput) (d d' : DB) : Prop := {
  st_new : db_approvals d !! sa_ApprovalID inp = None ∧ db_snapshots d !! sa_ApprovalID inp = None;
  st_tables : ∃ c now s,
    db_contracts d !! sa_ContractID inp = Some c ∧ c_TenantID c = sa_TenantID inp ∧
    ordinaryContractRecord c = true ∧ c_Version c = sa_ExpectedVersion inp ∧
    c_Status c = sa_FromStatus inp ∧
    (sa_Kind inp = KindContract →
     sa_ContentHash inp ≠ "" ∧ c_ContentHash (c_document c) = Some (sa_ContentHash inp) ∧
     count_approvals (is_running (sa_TenantID inp) (sa_ContractID inp) [KindContract]) d = 0) ∧
    (sa_Kind inp = KindStatusChange →
     count_approvals (is_running (sa_TenantID inp) (sa_ContractID inp) [KindStatusChange]) d = 0) ∧
    (∀ id j, db_approvals d !! id = Some j → instance_clash (new_instance inp now) j = false) ∧
    as_ApprovalID s = sa_ApprovalID inp ∧ as_TenantID s = sa_TenantID inp ∧
    as_ContractID s = sa_ContractID inp ∧ as_ContractVersion s = c_Version c ∧
    as_ContentHash s = c_ContentHash (c_document c) ∧ as_Contract s = c ∧
    as_PaymentTerms s =
      map (λ r, term_from_record (pr_term r)) (terms_of (sa_TenantID inp) (sa_ContractID inp) d) ∧
    approvals d' = (<[sa_ApprovalID inp := new_instance inp now]> (db_approvals d), db_actions d,
                    <[sa_ApprovalID inp := s]> (db_snapshots d))
}.

Lemma runs_start inp d u d' :
  runs (start_body meta inp) d u d' →
  (is_Some (db_approvals d !! sa_ApprovalID inp) ∧ d' = d) ∨ started inp d d'.
Proof.
  intros Hr. unfold start_body in Hr.
  apply runs_bind in Hr as (found & d1 & Hf & Hr). inv_tx Hf.
  destruct (db_approvals d !! sa_ApprovalID inp) as [i|] eqn:Ei;
    [inv_tx Hr; left; split; [by eexists|done]|].
  right. enough (db_snapshots d !! sa_ApprovalID inp = None ∧ _) as [Hsn Hst]
    by (split; [split; [exact Ei|exact Hsn]|exact Hst]).
  apply runs_bind in Hr as (c & d1 & Hc & Hr). inv_tx Hc.
  apply runs_bind in Hr as (? & d1 & Ho & Hr). inv_tx Ho.
  apply runs_bind in Hr as (? & d1 & Hv & Hr). inv_tx Hv.
  apply runs_bind in Hr as (? & d1 & Hst & Hr). inv_tx Hst.
  apply runs_bind in Hr as (? & d1 & Hk & Hr).
  assert ((sa_Kind inp = KindContract →
     sa_ContentHash inp ≠ "" ∧ c_ContentHash (c_document c) = Some (sa_ContentHash inp) ∧
     count_approvals (is_running (sa_TenantID inp) (sa_ContractID inp) [KindContract]) d = 0) ∧
    (sa_Kind inp = KindStatusChange →
     count_approvals (is_running (sa_TenantID inp) (sa_ContractID inp) [KindStatusChange]) d = 0))
    as [Hkc Hks].
  { unfold start_kind in Hk. split; intros E; rewrite E in Hk; eval_streq; cbv iota in Hk; inv_tx Hk.
    - bool_hyps. unfold empty_str in *.
      match goal with h : (_ =s "") = false |- _ => apply streq_false in h end.
      split_and!; [done| |unfold count_approvals in *; lia].
      unfold hash_matches in *. destruct (c_ContentHash (c_document c)); [|done].
      match goal with h : (_ =s _) = true |- _ => apply streq_true in h as -> end. done.
    - bool_hyps. unfold count_approvals in *. lia. }
  pose proof (keeps_start_kind approvals _ _ _ _ _ _ Hk) as Hap.
  inv_tx Hr.
  match goal with h : runs (create_tasks _) _ _ _ |- _ =>
    apply runs_create_tasks in h as (T & ->) end.
  match goal with h : runs (insert_snapshot _) _ _ _ |- _ =>
    apply runs_insert_snapshot in h as [-> Hsn] end.
  match goal with h : runs (insert_instance _) _ _ _ |- _ =>
    apply runs_insert_instance in h as (-> & _ & Hcl) end.
  assert (terms_of (sa_TenantID inp) (sa_ContractID inp) d1 =
          terms_of (sa_TenantID inp) (sa_ContractID inp) d) as Hterms.
  { apply runs_start_kind in Hk as [(? & s1 & ? & _ & Hs & Hl)|[_ ->]]; [|done].
    apply runs_updateStatus in Hs as (? & ? & ? & ? & _ & _ & _ & _ & -> & _).
    by apply runs_lifecycle in Hl as (? & ? & -> & _). }
  bool_hyps. repeat match goal with h : (_ =s _) = true |- _ => apply streq_true in h end.
  injection Hap as Hap1 Hap2 Hap3.
  split; [by rewrite <- Hap3|]. eexists c, _, _. split_and!.
  all: cycle -1.
  { unfold approvals. cbn. rewrite Hap1, Hap2, Hap3. reflexivity. }
  all: try done.
  - intros id j Hj. eapply Hcl. rewrite Hap1. exact Hj.
  - rewrite <- Hterms. reflexivity.
Qed.

(** A completion that was not applied before. *)
Lemma runs_complete inp d u d' :
  runs (complete_body meta inp) d u d' →
  ∃ i, db_approvals d !! ca_ApprovalID inp = Some i ∧ ai_TenantID i = ca_TenantID inp ∧
    ((ai_CompletionApplied i = true ∧ d' = d) ∨
     (ai_CompletionApplied i = false ∧ ∃ now c actor s u1 T,
        db_contracts d !! ca_ContractID inp = Some c ∧ c_TenantID c = ca_TenantID inp ∧
        ordinaryContractRecord c = true ∧
        runs (if ai_Kind i =s KindContract then complete_contract meta inp i c actor
              else complete_change meta inp i c actor) d u1 s ∧
        d' = set_tasks T
          (set_approvals (<[ca_ApprovalID inp := instance_set_completed (ca_Status inp) now i]>
                            (db_approvals s)) s) ∧
        approvals d' = (<[ca_ApprovalID inp := instance_set_completed (ca_Status inp) now i]>
                          (db_approvals d), db_actions d, db_snapshots d))).
Proof.
  intros Hr. unfold complete_body in Hr.
  apply runs_bind in Hr as (found & d1 & Hf & Hr). inv_tx Hf.
  destruct (db_approvals d !! _) as [i|] eqn:Ei; [|by inv_tx Hr]. exists i. split; [done|].
  destruct (ai_TenantID i =s _) eqn:Et; cbn [negb] in Hr; [|by inv_tx Hr].
  apply streq_true in Et. split; [done|].
  destruct (ai_CompletionApplied i) eqn:Ea; [inv_tx Hr; by left|]. right. split; [done|].
  apply runs_bind in Hr as (c & d1 & Hc & Hr). inv_tx Hc.
  apply runs_bind in Hr as (? & d1 & Ho & Hr). inv_tx Ho. bool_hyps.
  apply runs_bind in Hr as (? & s & Hk & Hr).
  pose proof (keeps_complete_kind approvals _ _ _ _ _ _ _ _ Hk) as Hap. injection Hap as Hap1 Hap2 Hap3.
  inv_tx Hr.
  match goal with h : runs (update_instance _ _ _) _ _ _ |- _ =>
    apply runs_update_instance in h as [(_ & i' & Hi' & _ & ->)|[-> ->]] end; [|done].
  rewrite Hap1, Ei in Hi'. injection Hi' as <-.
  eexists _, c, _, s, _, _. split_and!; [exact Hc|done|done|exact Hk|reflexivity|].
  unfold approvals. cbn. by rewrite Hap1, Hap2, Hap3.
Qed.

(** ** Growth *)

(** What an approval was submitted with. *)
Definition submission (i : approvalInstanceRecord) :=
  (ai_ID i, ai_TenantID i, ai_ContractID i, ai_Kind i, ai_FromStatus i, ai_TargetStatus i,
   ai_ContentHash i, ai_Nodes i).

Record grows (d d' : DB) : Prop := {
  gr_approvals : ∀ id i, db_approvals d !! id = Some i →
    ∃ i', db_approvals d' !! id = Some i' ∧ submission i' = submission i ∧
      (ai_CompletionApplied i = true → ai_CompletionApplied i' = true);
  gr_actions : ∀ id a, db_actions d !! id = Some a → db_actions d' !! id = Some a;
  gr_snapshots : ∀ id s, db_snapshots d !! id = Some s → db_snapshots d' !! id = Some s
}.

Lemma grows_same d d' : approvals d' = approvals d → grows d d'.
Proof. intros [= E1 E2 E3]. constructor; rewrite ?E1, ?E2, ?E3; eauto. Qed.

Lemma insert_keeps {A} (m : gmap string A) k v id x :
  m !! k = None → m !! id = Some x → <[k := v]> m !! id = Some x.
Proof. intros Hk Hid. rewrite lookup_insert_ne; congruence. Qed.

Lemma update_keeps (m : gmap string approvalInstanceRecord) k i i' :
  m !! k = Some i → submission i' = submission i →
  (ai_CompletionApplied i = true → ai_CompletionApplied i' = true) →
  ∀ id j, m !! id = Some j → ∃ j', <[k := i']> m !! id = Some j' ∧
    submission j' = submission j ∧ (ai_CompletionApplied j = true → ai_CompletionApplied j' = true).
Proof.
  intros Hk Hs Ha id j Hj. destruct (decide (k = id)) as [->|Hne].
  - rewrite Hk in Hj. injection Hj as <-. rewrite lookup_insert_eq. by exists i'.
  - rewrite lookup_insert_ne by done. eauto.
Qed.

Lemma started_grows inp d d' : started inp d d' → grows d d'.
Proof.
  intros [[Hna Hns] (c & now & s & _ & _ & _ & _ & _ & _ & _ & _ & _ & _ & _ & _ & _ & _ & _ & E)].
  injection E as E1 E2 E3.
  constructor; rewrite ?E1, ?E2, ?E3; [| |]; intros id x Hx.
  - exists x. split; [by apply insert_keeps|done].
  - done.
  - by apply insert_keeps.
Qed.

Lemma record_grows inp d u d' : runs (record_body meta inp) d u d' → grows d d'.
Proof.
  intros [(_ & ->)|(i & a & now & row & T & Hna & _ & _ & _ & _ & Hi & _ & ->)]%runs_record;
    [by apply grows_same|].
  constructor; cbn; [|intros id x Hx; by apply insert_keeps|done].
  by eapply update_keeps.
Qed.

Lemma complete_grows inp d u d' : runs (complete_body meta inp) d u d' → grows d d'.
Proof.
  intros (i & Hi & _ & [[_ ->]|(Ha & now & c & actor & s & u1 & T & _ & _ & _ & _ & _ & E)])%runs_complete;
    [by apply grows_same|].
  injection E as E1 E2 E3. constructor; rewrite ?E1, ?E2, ?E3; [|done..].
  by eapply update_keeps.
Qed.

Lemma perform_grows op d r d' : perform meta op d = (r, d') → grows d d'.
Proof.
  intros E.
  assert (∀ A (m : Tx A) (r : res A), transaction m d = (r, d') →
    (∀ a, runs m d a d' → grows d d') → grows d d') as Htx.
  { intros A m r0 Em Hm. apply transaction_runs in Em as [->|[a Ha]];
      [by apply grows_same|by eapply Hm]. }
  assert (∀ A (m : Tx A) (r : res A), transaction m d = (r, d') → keeps approvals m → grows d d') as Hkeep.
  { intros A m r0 Em Hm. eapply Htx; [exact Em|]. intros a Ha. by eapply grows_same, Hm. }
  destruct op; cbn [perform] in E.
  - unfold CreateContract in E. destruct (applyContractSource c) as [origin|];
      [|injection E as _ <-; by apply grows_same].
    eapply Hkeep; [exact E|]. apply (keeps_create approvals).
  - eapply Hkeep; [exact E|]. apply (keeps_draft approvals).
  - eapply Hkeep; [exact E|]. apply (keeps_transition approvals).
  - eapply Htx; [exact E|]. intros a [[_ ->]|Hs]%runs_start; [by apply grows_same|].
    by eapply started_grows.
  - eapply Htx; [exact E|]. intros a. apply record_grows.
  - eapply Htx; [exact E|]. intros a. apply complete_grows.
  - eapply Hkeep; [exact E|]. apply (keeps_notify approvals).
  - unfold archiveOne in E. destruct (transaction _ d) as [b d1] eqn:Em. injection E as _ <-.
    eapply Hkeep; [exact Em|]. apply (keeps_archive approvals).
  - unfold ApplyContractFinancialChange in E.
    destruct (_ || _); [injection E as _ <-; by apply grows_same|].
    destruct (transaction _ d) as [b d1] eqn:Em. injection E as _ <-.
    eapply Hkeep; [exact Em|]. apply (keeps_financial_change approvals).
  - destruct (TransferOwnership _ _ d) as [b d1] eqn:Em. injection E as _ <-.
    eapply Hkeep; [exact Em|]. by apply (keeps_transfer approvals).
Qed.

End Blocks.

#[export] Instance grows_refl : Reflexive grows.
Proof. intros d. by apply grows_same. Qed.
#[export] Instance grows_trans : Transitive grows.
Proof.
  intros a b c [A1 A2 A3] [B1 B2 B3]. constructor; [|by auto..]. intros id i Hi.
  destruct (A1 id i Hi) as (j & Hj & Ej & Hja). destruct (B1 id j Hj) as (k & Hk & Ek & Hka).
  exists k. split_and!; [done|congruence|auto].
Qed.

Section Calls.
Context `{GoUnicode} `{Sha256} `{TzDatabase} `{Collation} `{Documents}.

Lemma execute_grows calls d : grows d (execute calls d).
Proof.
  revert d. induction calls as [|c calls IH]; intros d; [done|]. cbn [execute foldl].
  destruct (invoke c d) as [r d1] eqn:E. transitivity d1; [by eapply perform_grows|apply IH].
Qed.

(** ** Exactly once *)

(** The row that shows that an activity has taken effect. *)
Definition settled (op : operation) (d : DB) : Prop :=
  match op with
  | OpStart inp => is_Some (db_approvals d !! sa_ApprovalID inp)
  | OpRecord inp => is_Some (db_actions d !! CommandID (rc_Command inp))
  | OpComplete inp => ∃ i, db_approvals d !! ca_ApprovalID inp = Some i ∧
      ai_TenantID i = ca_TenantID inp ∧ ai_CompletionApplied i = true
  | _ => False
  end.

Definition is_activity (op : operation) : bool :=
  match op with OpStart _ | OpRecord _ | OpComplete _ => true | _ => false end.

Lemma settled_grows op d d' : grows d d' → settled op d → settled op d'.
Proof.
  intros [Ha Hc _]. destruct op; cbn; try done.
  - intros [i Hi]. destruct (Ha _ _ Hi) as (i' & -> & _). by eexists.
  - intros [a Hac]. rewrite (Hc _ _ Hac). by eexists.
  - intros (i & Hi & Ht & Hap). destruct (Ha _ _ Hi) as (i' & Hi' & Es & Hap').
    injection Es as _ Et _ _ _ _ _ _. exists i'. split_and!; [done|congruence|auto].
Qed.

Lemma settled_by_run c d r d' :
  is_activity (call_op c) = true → invoke c d = (r, d') → r = Ok tt ∨ d' ≠ d →
  settled (call_op c) d'.
Proof.
  destruct c as [O meta op]. unfold invoke. cbn [call_oracle call_meta call_op].
  intros Hact E Hor.
  assert (∀ m : Tx unit, transaction m d = (r, d') → ∃ u, runs m d u d') as Hrun.
  { intros m Em. eapply transaction_effective; [exact Em|]. destruct Hor; eauto. }
  destruct op; try done; cbn [perform settled] in *; apply Hrun in E as [u E].
  - apply runs_start in E as [[Hi ->]|[_ Hs]]; [done|].
    destruct Hs as (c & now & s & _ & _ & _ & _ & _ & _ & _ & _ & _ & _ & _ & _ & _ & _ & _ & Ea).
    injection Ea as -> _ _. rewrite lookup_insert_eq. by eexists.
  - apply runs_record in E as [(Hi & ->)|(i & a & now & row & T & _ & _ & _ & _ & _ & _ & _ & ->)];
      [done|]. cbn. rewrite lookup_insert_eq. by eexists.
  - apply runs_complete in E as (i & Hi & Ht &
      [[Ha ->]|(_ & now & c & actor & s & u1 & T & _ & _ & _ & _ & _ & Ea)]); [by exists i|].
    injection Ea as -> _ _. rewrite lookup_insert_eq. eexists. split_and!; done.
Qed.

(** An activity that is settled does nothing, and succeeds when no statement
    fails. *)
Lemma settled_idle c d :
  settled (call_op c) d →
  (invoke c d).2 = d ∧
  ((∀ n, @o_fault (call_oracle c) n = false) → @o_commit (call_oracle c) = None →
   (invoke c d).1 = Ok tt).
Proof.
  destruct c as [O meta op]. unfold invoke. cbn [call_oracle call_meta call_op].
  assert (∀ (m : Tx unit), (∀ t, m (t, d) = (if @o_fault O t then Err ErrStorage else Ok tt, (S t, d))) →
    (transaction m d).2 = d ∧
    ((∀ n, @o_fault O n = false) → @o_commit O = None → (transaction m d).1 = Ok tt)) as Hidle.
  { intros m Em. unfold transaction. rewrite Em. split.
    - destruct (o_fault 0); [done|]. by destruct o_commit as [[]|].
    - intros -> ->. done. }
  destruct op; cbn [settled perform]; try done.
  - intros [i Hi]. apply Hidle. intros t. unfold start_body, mbind, Tx_bind, query.
    destruct (o_fault t); [done|]. by rewrite Hi.
  - intros [a Ha]. apply Hidle. intros t. unfold record_body, mbind, Tx_bind, query.
    cbv zeta. destruct (o_fault t); [done|]. by rewrite Ha.
  - intros (i & Hi & Ht & Ha). apply Hidle. intros t.
    unfold complete_body, mbind, Tx_bind, query.
    destruct (o_fault t); [done|]. rewrite Hi, Ht, streq_refl, Ha. done.
Qed.

(** C20: an activity that has returned success, or that has changed any row
    even though its caller saw an error (the acknowledgement of the commit was
    lost), has taken effect for good: after any further calls, every retry
    leaves the tables alone, and succeeds when no statement fails. *)
Theorem activities_exactly_once c d r d1 calls retry :
  is_activity (call_op c) = true → call_op retry = call_op c →
  invoke c d = (r, d1) → r = Ok tt ∨ d1 ≠ d →
  let d2 := execute calls d1 in
  (invoke retry d2).2 = d2 ∧
  ((∀ n, @o_fault (call_oracle retry) n = false) → @o_commit (call_oracle retry) = None →
   (invoke retry d2).1 = Ok tt).
Proof.
  intros Hact Hre E Hor d2. apply settled_idle. rewrite Hre.
  eapply settled_grows; [apply execute_grows|]. by eapply settled_by_run.
Qed.

End Calls.

(** ** Well-formed approvals *)

(** The snapshot of an approval. *)
Record snapshot_of (i : approvalInstanceRecord) (s : approvalSnapshotRecord) : Prop := {
  so_contract : as_TenantID s = ai_TenantID i ∧ as_ContractID s = ai_ContractID i ∧
    c_TenantID (as_Contract s) = ai_TenantID i;
  so_state : as_ContractVersion s = c_Version (as_Contract s) ∧
    c_Status (as_Contract s) = ai_FromStatus i ∧
    as_ContentHash s = c_ContentHash (c_document (as_Contract s));
  so_hash : ai_Kind i = KindContract →
    ∃ h, h ≠ "" ∧ ai_ContentHash i = Some h ∧ as_ContentHash s = Some h
}.

Record approvals_sound (d : DB) : Prop := {
  as_keyed : ∀ id i, db_approvals d !! id = Some i → ai_ID i = id;
  as_snapshot : ∀ id i, db_approvals d !! id = Some i →
    ∃ s, db_snapshots d !! id = Some s ∧ snapshot_of i s;
  as_distinct : ∀ id j i k, db_approvals d !! id = Some i → db_approvals d !! j = Some k →
    id ≠ j → instance_clash i k = false;
  as_applied : ∀ id i, db_approvals d !! id = Some i → ai_CompletionApplied i = true →
    ai_ActiveStatusChangeKey i = None
}.

Lemma clash_sym i j : instance_clash i j = instance_clash j i.
Proof.
  unfold instance_clash, streq. f_equal; [apply bool_decide_ext; naive_solver|].
  destruct (ai_ActiveStatusChangeKey i), (ai_ActiveStatusChangeKey j); try done.
  apply bool_decide_ext. naive_solver.
Qed.

Lemma approvals_sound_same d d' : approvals d' = approvals d → approvals_sound d → approvals_sound d'.
Proof.
  intros [= E1 E2 E3] [Hk Hs Hd Ha]. constructor; rewrite ?E1, ?E3; done.
Qed.

(** An update that keeps the submission, and the active key or drops it. *)
Lemma approvals_sound_update d d' id i i' :
  approvals_sound d → db_approvals d !! id = Some i → submission i' = submission i →
  ai_TemporalWorkflowID i' = ai_TemporalWorkflowID i →
  (ai_ActiveStatusChangeKey i' = ai_ActiveStatusChangeKey i ∧
   ai_CompletionApplied i' = ai_CompletionApplied i ∨ ai_ActiveStatusChangeKey i' = None) →
  db_approvals d' = <[id := i']> (db_approvals d) → db_snapshots d' = db_snapshots d →
  approvals_sound d'.
Proof.
  intros [Hk Hs Hd Ha] Hi Es Ew Eact E1 E3.
  assert (∀ k, instance_clash i k = false → instance_clash i' k = false) as Hcl.
  { intros k. unfold instance_clash. rewrite Ew, !orb_false_iff. intros [-> Hact]. split; [done|].
    destruct Eact as [[-> _]| ->]; [|done]. done. }
  constructor; rewrite ?E1, ?E3.
  - intros id0 i0 [[<- <-]|[_ H']]%lookup_insert_Some; [|by apply Hk].
    injection Es as -> _ _ _ _ _ _ _. by apply Hk.
  - intros id0 i0 [[<- <-]|[_ H']]%lookup_insert_Some; [|by apply Hs].
    destruct (Hs _ _ Hi) as (s & Hs' & [Hc Hst Hh]). exists s. split; [done|].
    injection Es as _ Et Ec Ekd Ef _ Eh _. by constructor; rewrite ?Et, ?Ec, ?Ekd, ?Ef, ?Eh.
  - intros a b x y [[<- <-]|[Ha' Hx]]%lookup_insert_Some [[<- <-]|[Hb' Hy]]%lookup_insert_Some Hne.
    + done.
    + eapply Hcl, Hd; [exact Hi|exact Hy|done].
    + rewrite clash_sym. eapply Hcl, Hd; [exact Hi|exact Hx|done].
    + by eapply Hd.
  - intros id0 i0 [[<- <-]|[_ H']]%lookup_insert_Some; [|by eapply Ha].
    destruct Eact as [[-> ->]| ->]; [|done]. by apply (Ha id).
Qed.

Section Sound.
Context `{Oracle} `{GoUnicode} `{Sha256} `{TzDatabase} `{Collation} `{Documents}.
Variable meta : requestMeta.

Lemma start_sound inp d u d' :
  runs (start_body meta inp) d u d' → approvals_sound d → approvals_sound d'.
Proof.
  intros [[_ ->]|Hst]%runs_start; [done|]. intros [Hk Hs Hd Ha].
  destruct Hst as [[Hna Hns] (c & now & s & Hc & Ht & Ho & Hv & Hf & Hkc & _ & Hcl & Ei & Et & Ec &
    Ev & Eh & Ecc & _ & E)].
  injection E as E1 _ E3. constructor; rewrite ?E1, ?E3.
  - intros id i [[<- <-]|[_ Hi]]%lookup_insert_Some; [done|by apply Hk].
  - intros id i [[<- <-]|[Hne Hi]]%lookup_insert_Some.
    + exists s. rewrite lookup_insert_eq. split; [done|]. constructor; cbn.
      * by rewrite Ecc.
      * by rewrite Ecc.
      * intros Hkd. destruct (Hkc Hkd) as (Hne & Hh & _). exists (sa_ContentHash inp).
        split_and!; [done| |by rewrite Eh]. unfold stringPtr, empty_str.
        by apply streq_false in Hne as ->.
    + rewrite lookup_insert_ne by done. by apply Hs.
  - intros a b x y [[<- <-]|[Ha' Hx]]%lookup_insert_Some [[<- <-]|[Hb' Hy]]%lookup_insert_Some Hne.
    + done.
    + by eapply Hcl.
    + rewrite clash_sym. by eapply Hcl.
    + by eapply Hd.
  - intros id i [[<- <-]|[_ Hi]]%lookup_insert_Some; [done|by eapply Ha].
Qed.

Lemma perform_sound op d r d' :
  perform meta op d = (r, d') → approvals_sound d → approvals_sound d'.
Proof.
  intros E.
  assert (∀ A (m : Tx A) (r : res A), transaction m d = (r, d') →
    (∀ a, runs m d a d' → approvals_sound d → approvals_sound d') →
    approvals_sound d → approvals_sound d') as Htx.
  { intros A m r0 Em Hm. apply transaction_runs in Em as [->|[a Ha]]; [done|by eapply Hm]. }
  assert (∀ A (m : Tx A) (r : res A), transaction m d = (r, d') → keeps approvals m →
    approvals_sound d → approvals_sound d') as Hkeep.
  { intros A m r0 Em Hm. eapply Htx; [exact Em|]. intros a Ha. by eapply approvals_sound_same, Hm. }
  destruct op; cbn [perform] in E.
  - unfold CreateContract in E. destruct (applyContractSource c) as [origin|];
      [|by injection E as _ <-].
    eapply Hkeep; [exact E|]. apply (keeps_create approvals).
  - eapply Hkeep; [exact E|]. apply (keeps_draft approvals).
  - eapply Hkeep; [exact E|]. apply (keeps_transition approvals).
  - eapply Htx; [exact E|]. intros a. apply start_sound.
  - eapply Htx; [exact E|].
    intros a [(_ & ->)|(i & ac & now & row & T & _ & _ & _ & _ & _ & Hi & _ & ->)]%runs_record;
      [done|]. intros Hs.
    eapply (approvals_sound_update d _ _ i (instance_set_state (rc_State inp) now i));
      [exact Hs|exact Hi|reflexivity|reflexivity|by left|reflexivity|reflexivity].
  - eapply Htx; [exact E|].
    intros a (i & Hi & _ & [[_ ->]|(_ & now & c & actor & s & u1 & T & _ & _ & _ & _ & _ & Ea)])%runs_complete;
      [done|].
    injection Ea as E1 _ E3. intros Hs.
    eapply approvals_sound_update;
      [exact Hs|exact Hi| | | |exact E1|exact E3]; [reflexivity|reflexivity|by right].
  - eapply Hkeep; [exact E|]. apply (keeps_notify approvals).
  - unfold archiveOne in E. destruct (transaction _ d) as [b d1] eqn:Em. injection E as _ <-.
    eapply Hkeep; [exact Em|]. apply (keeps_archive approvals).
  - unfold ApplyContractFinancialChange in E.
    destruct (_ || _); [by injection E as _ <-|].
    destruct (transaction _ d) as [b d1] eqn:Em. injection E as _ <-.
    eapply Hkeep; [exact Em|]. apply (keeps_financial_change approvals).
  - destruct (TransferOwnership _ _ d) as [b d1] eqn:Em. injection E as _ <-.
    eapply Hkeep; [exact Em|]. by apply (keeps_transfer approvals).
Qed.

End Sound.

Section Histories.
Context `{GoUnicode} `{Sha256} `{TzDatabase} `{Collation} `{Documents}.

Lemma execute_sound calls d : approvals_sound d → approvals_sound (execute calls d).
Proof.
  revert d. induction calls as [|c calls IH]; intros d Hs; [done|]. cbn [execute foldl].
  apply IH. destruct (invoke c d) as [r d1] eqn:E. by eapply perform_sound.
Qed.

Lemma new_tables_sound numbers : approvals_sound (new_tables numbers).
Proof. constructor; cbn; intros; done. Qed.

(** Every approval has the snapshot it was submitted with: the contract
    row and version, its status, and for a contract approval the non-empty hash
    of the document; no later call changes or removes the snapshot or what the
    approval was submitted with.  No two approvals share a workflow, and at
    most one per contract holds the key of a running change of status. *)
Theorem approvals_well_formed numbers calls id i :
  let d := execute calls (new_tables numbers) in
  db_approvals d !! id = Some i →
  (∃ s, db_snapshots d !! id = Some s ∧ snapshot_of i s ∧
     ∀ later, db_snapshots (execute later d) !! id = Some s ∧
       ∃ i', db_approvals (execute later d) !! id = Some i' ∧ submission i' = submission i) ∧
  ∀ j k, db_approvals d !! j = Some k → j ≠ id → instance_clash i k = false.
Proof.
  intros d Hi. assert (approvals_sound d) as [_ Hs Hd _] by apply execute_sound, new_tables_sound.
  split; [|intros j k Hj Hne; by eapply Hd].
  destruct (Hs _ _ Hi) as (s & Hsn & Hof). exists s. split_and!; [done..|]. intros later.
  destruct (execute_grows later d) as [Ha _ Hk]. split; [by apply Hk|].
  destruct (Ha _ _ Hi) as (i' & ? & ? & _). by exists i'.
Qed.

End Histories.

(** ** The sample run *)

Lemma approvals_well_formed_witness :
  ∃ i s, db_approvals sample_db !! "a1" = Some i ∧ db_snapshots sample_db !! "a1" = Some s ∧
    snapshot_of i s.
Proof.
  destruct (db_approvals sample_db !! "a1") as [i|] eqn:E; [|vm_compute in E; discriminate].
  destruct (approvals_well_formed sample_numbers sample_calls "a1" i E) as [(s & Hs & Ho & _) _].
  exists i, s. split; [reflexivity|]. split; [exact Hs|exact Ho].
Defined.

(** The completion whose acknowledgement was lost, and its retry. *)
Lemma activities_exactly_once_witness :
  let before := execute (take 3 sample_calls) (new_tables sample_numbers) in
  let first := mkCall (lost "4") sample_meta (complete_call "a1" StatusApproved) in
  let retry := good_call "5" (complete_call "a1" StatusApproved) in
  let after := (invoke first before).2 in
  (invoke first before).1 = Err ErrStorage ∧ (invoke retry after).2 = after ∧
  (invoke retry after).1 = Ok tt.
Proof.
  intros before first retry after.
  assert ((invoke first before).1 = Err ErrStorage) as Hr by (vm_compute; reflexivity).
  split; [exact Hr|]. destruct (invoke first before) as [r d1] eqn:E.
  assert (d1 ≠ before) as Hne.
  { intros ->. apply (f_equal (λ x, length (db_financial x.2))) in E. vm_compute in E. discriminate. }
  destruct (activities_exactly_once first before r d1 [] retry eq_refl eq_refl E (or_intror Hne))
    as [H1 H2]. split; [exact H1|]. apply H2; [intros n; reflexivity|reflexivity].
Defined.
