(* ===== verification/Completion.v ===== *)
(** * What the completion of an approval does, and who may change a status *)

From S2P Require Import Prelude GoStrings Decimal GoTime BusinessClock Status NumberRule.
From S2P Require Import PaymentTerm ProjectService ImportPolicy ApprovalRule Workflow Store.
From S2P Require Import Outbound Handover Numbering Repository Scenario Changes Refinement.
From S2P Require Import Integrity Approvals.

#[local] Open Scope string_scope.
#[local] Open Scope Z_scope.
#[local] Open Scope list_scope.

Section Completion.
Context `{Oracle} `{GoUnicode} `{Sha256} `{TzDatabase} `{Collation} `{Documents}.
Variable meta : requestMeta.

(** A change of status in the tables. *)
Lemma status_block t id from to actor reason key li d u1 d1 u2 d2 c :
  runs (updateStatus t id from to actor) d u1 d1 →
  runs (insertLifecycle meta li from to actor reason key) d1 u2 d2 →
  db_contracts d !! id = Some c →
  ∃ now, db_contracts d2 = <[id := contract_set_status to now actor c]> (db_contracts d) ∧
    c_Status c = from ∧ c_TenantID c = t ∧ CanTransition from to = true ∧
    db_payment d2 = db_payment d ∧ db_numbers d2 = db_numbers d ∧
    db_financial d2 = db_financial d ∧ approvals d2 = approvals d.
Proof.
  intros Hs Hl Hc.
  apply runs_updateStatus in Hs as (c0 & now & S & R & Hc0 & Ht & Hf & Hcan & -> & _).
  rewrite Hc in Hc0. injection Hc0 as <-.
  apply runs_lifecycle in Hl as (L & row & -> & _). exists now. split_and!; done.
Qed.

(** The contract of an approved completion; [terms] is its payment plan. *)
Record takes_effect (inp : CompleteApprovalActivityInput) (c c' : contractRecord) (d d' : DB)
    : Prop := {
  te_rows : db_contracts d' = <[ca_ContractID inp := c']> (db_contracts d);
  te_status : c_Status c = StatusPending ∧ c_Status c' = StatusActive ∧
    c_Version c' = c_Version c + 2;
  te_same : c_terms c' = c_terms c ∧ c_party c' = c_party c ∧ c_owner c' = c_owner c ∧
    c_TenantID c' = c_TenantID c ∧ db_payment d' = db_payment d;
  te_number : (valueOrEmpty (c_ContractNumber c) ≠ "" → c_ContractNumber c' = c_ContractNumber c) ∧
    (valueOrEmpty (c_ContractNumber c) = "" →
     ∃ n, c_ContractNumber c' = Some n ∧
       ∀ nt, db_numbers d = Some nt → is_Some (nt_rule nt) →
         registered (db_numbers d') n (ca_TenantID inp) (ca_ContractID inp));
  te_event : let terms := terms_of (ca_TenantID inp) (ca_ContractID inp) d in
    localOutboundNotApplicable c = Ok false → financialEffectiveSkipReason c' terms = "" →
    ∃ r, r ∈ db_financial d' ∧
      delivery_key r = (ca_TenantID inp, ca_ContractID inp, c_Version c')
}.

Lemma complete_approved_effect inp c actor d u d' :
  db_contracts d !! ca_ContractID inp = Some c → c_ID c = ca_ContractID inp →
  c_TenantID c = ca_TenantID inp → 
  runs (complete_approved meta inp c actor) d u d' → ∃ c', takes_effect inp c c' d d'.
Proof.
  intros Hc Hid Ht Hr. unfold complete_approved in Hr. inv_tx Hr.
  match goal with h : runs (issue_number _ _) _ _ _ |- _ =>
    destruct (runs_issue_number _ _ _ _ _ _ Hc Hid Ht h)
      as (c1 & N & Hn & Hg & -> & Hold & Hnew) end.
  assert (c_Status c1 = c_Status c ∧ c_Version c1 = c_Version c ∧ c_terms c1 = c_terms c ∧
    c_party c1 = c_party c ∧ c_owner c1 = c_owner c ∧ c_TenantID c1 = c_TenantID c ∧
    c_ID c1 = c_ID c) as (E1 & E2 & E3 & E4 & E5 & E6 & E7) by (by destruct Hn).
  destruct (status_block _ _ _ _ _ _ _ _ _ _ _ _ _ c1 Hm0 Hm1
      ltac:(apply lookup_insert_eq))
    as (now1 & F1 & Hpend & _ & _ & F2 & F3 & F4 & _).
  cbn in F1. rewrite insert_insert_eq in F1.
  destruct (status_block _ _ _ _ _ _ _ _ _ _ _ _ _ 
      (contract_set_status Status.StatusApproved now1 actor c1) Hm2 Hm3
      ltac:(rewrite F1; apply lookup_insert_eq))
    as (now2 & G1 & _ & _ & _ & G2 & G3 & G4 & _).
  rewrite F1, insert_insert_eq in G1.
  match goal with h : runs (enqueueProjectActivation _ _ _) _ _ _ |- _ =>
    apply runs_project in h as (? & J & A & _ & _ & -> & _) end.
  match goal with h : runs (enqueueFinancialEffective _ _) _ _ _ |- _ =>
    apply runs_financial in h as (c3 & F & Hc3 & _ & -> & Hfin) end.
  cbn in Hc3. rewrite G1, lookup_insert_eq in Hc3. injection Hc3 as <-.
  exists (contract_set_status StatusActive now2 actor
            (contract_set_status Status.StatusApproved now1 actor c1)).
  constructor; cbn.
  - done.
  - split_and!; [congruence|done|lia].
  - split_and!; try done. by rewrite G2, F2.
  - split; [intros Hne; by rewrite (Hold Hne)|]. intros He.
    destruct (Hnew He) as (up & now & -> & Hreg). exists (u_ContractNumber up). split; [done|].
    rewrite G3, F3. exact Hreg.
  - intros Hl Hs.
    assert (plan_rows (ca_TenantID inp) (ca_ContractID inp) (db_payment s3) =
            terms_of (ca_TenantID inp) (ca_ContractID inp) d) as Hplan by (by rewrite G2, F2).
    cbv zeta in Hfin. change (db_payment (set_project J (set_audit A s3))) with (db_payment s3) in Hfin.
    rewrite Hplan in Hfin.
    destruct Hfin as [(_ & _ & [Hb|Hb])|(_ & _ & _ & r & Hr & ->)].
    + unfold localOutboundNotApplicable in *. cbn in Hb. rewrite E4 in Hb. congruence.
    + by rewrite Hs in Hb.
    + assert (delivery_key r = (ca_TenantID inp, ca_ContractID inp, c_Version c1 + 1 + 1)) as Hkey.
      { destruct Hr as [Hrt Hrc Hrv _]. unfold delivery_key. rewrite Hrt, Hrc, Hrv. cbn.
        by rewrite E7, Hid. }
      change (db_financial (set_project J (set_audit A s3))) with (db_financial s3).
      destruct (insert_ignore_rows r (db_financial s3)) as [[-> Hin]|[-> _]].
      * apply list_elem_of_fmap in Hin as (r' & E & Hin). exists r'. split; [done|].
        by rewrite <- E.
      * exists r. split; [|done]. apply elem_of_app. right. by left.
Qed.

Lemma complete_contract_approved inp i c actor d u d' :
  ca_Status inp = StatusApproved → db_contracts d !! ca_ContractID inp = Some c →
  c_ID c = ca_ContractID inp → c_TenantID c = ca_TenantID inp →
  runs (complete_contract meta inp i c actor) d u d' →
  (∃ c', takes_effect inp c c' d d') ∧
  ∃ h, h ≠ "" ∧ ai_ContentHash i = Some h ∧ c_ContentHash (c_document c) = Some h.
Proof.
  intros Hs Hc Hid Ht Hr. unfold complete_contract in Hr. rewrite Hs, streq_refl in Hr.
  inv_tx Hr. split; [by eapply complete_approved_effect|].
  destruct (ai_ContentHash i) as [h|], (c_ContentHash (c_document c)) as [h'|]; try done.
  bool_hyps. exists h.
  match goal with h1 : empty_str _ = false |- _ => apply streq_false in h1 end.
  match goal with h1 : (_ =s _) = true |- _ => apply streq_true in h1 as -> end. done.
Qed.

Lemma takes_effect_rest inp c c' d s T X :
  takes_effect inp c c' d s → takes_effect inp c c' d (set_tasks T (set_approvals X s)).
Proof. intros [? ? ? ? ?]. by constructor. Qed.

Lemma runs_create_rows k row now actor d u d' :
  runs (create_body meta k row now actor) d u d' →
  db_contracts d !! c_ID row = None ∧ db_contracts d' = <[c_ID row := row]> (db_contracts d).
Proof.
  intros Hr. unfold create_body in Hr.
  apply runs_bind in Hr as (? & d1 & Hi & Hr). apply runs_exec in Hi.
  destruct (db_contracts d !! c_ID row) eqn:Efree; [done|]. inv_ok Hi. split; [done|].
  apply runs_bind in Hr as (? & d2 & He & Hr).
  apply runs_responsibility in He as (c & S & R & _ & _ & -> & _).
  apply runs_bind in Hr as (? & d3 & Hp & Hr). apply runs_replace in Hp as (P & -> & _).
  inv_tx Hr. match goal with h : runs (insert_lifecycle_row _ _) _ _ _ |- _ =>
    apply runs_lifecycle_row in h as (L & ->) end.
  by apply runs_contract_audit in Hr as (r & -> & _).
Qed.

(** ** Who may change a status *)

Definition no_running (d : DB) (c : contractRecord) (id : string) (kinds : list string) : Prop :=
  count_approvals (is_running (c_TenantID c) id kinds) d = 0.

(** The operation [op] may take contract [id] from [c] to [c']. *)
Definition authorised (op : operation) (d : DB) (id : string) (c c' : contractRecord) : Prop :=
  match op with
  | OpTransition tenantID contractID version target _ _ _ =>
      contractID = id ∧ tenantID = c_TenantID c ∧ c_Version c = version ∧ c_Status c' = target ∧
      CanTransition (c_Status c) target = true ∧
      (target = StatusDraft ∨ target = StatusCompleted) ∧
      no_running d c id [KindContract; KindStatusChange]
  | OpStart inp =>
      sa_ContractID inp = id ∧ sa_TenantID inp = c_TenantID c ∧ sa_Kind inp = KindContract ∧
      sa_ExpectedVersion inp = c_Version c ∧ c_Status c = sa_FromStatus inp ∧
      c_Status c' = sa_TargetStatus inp ∧ CanTransition (c_Status c) (c_Status c') = true ∧
      c_ContentHash (c_document c) = Some (sa_ContentHash inp) ∧
      no_running d c id [KindContract]
  | OpComplete inp =>
      ca_ContractID inp = id ∧ ca_TenantID inp = c_TenantID c ∧
      ∃ i, db_approvals d !! ca_ApprovalID inp = Some i ∧ ai_CompletionApplied i = false ∧
        if ai_Kind i =s KindContract
        then c_Status c = StatusPending ∧
             c_Status c' = (if ca_Status inp =s StatusApproved then StatusActive else StatusDraft)
        else ca_Status inp = StatusApproved ∧ c_Status c = ai_FromStatus i ∧
             c_Status c' = ai_TargetStatus i ∧ CanTransition (c_Status c) (c_Status c') = true
  | OpArchive candidate _ date =>
      cand_ID candidate = id ∧ c_Status c' = StatusArchived ∧
      CanTransition (c_Status c) StatusArchived = true ∧ ends_before (midnight date) c = true ∧
      no_running d c id [KindStatusChange]
  | _ => False
  end.

(** What a body does to the statuses: every contract is kept, and one whose
    status changed satisfies [P]. *)
Definition status_only (P : string → contractRecord → contractRecord → Prop) (d d' : DB) : Prop :=
  ∀ id c c', db_contracts d !! id = Some c → db_contracts d' !! id = Some c' →
    c_Status c' ≠ c_Status c → P id c c'.

Lemma status_only_same P d d' : db_contracts d' = db_contracts d → status_only P d d'.
Proof. intros E id c c' Hc Hc' Hne. rewrite E, Hc in Hc'. by injection Hc' as <-. Qed.

Lemma status_only_one P d d' k c0 c1 :
  db_contracts d' = <[k := c1]> (db_contracts d) → db_contracts d !! k = Some c0 →
  (c_Status c1 ≠ c_Status c0 → P k c0 c1) → status_only P d d'.
Proof.
  intros E Hk Hp id c c' Hc Hc' Hne. rewrite E in Hc'.
  apply lookup_insert_Some in Hc' as [[<- <-]|[_ Hc']].
  - rewrite Hk in Hc. injection Hc as <-. by apply Hp.
  - rewrite Hc in Hc'. by injection Hc' as <-.
Qed.

Lemma direct_targets from to :
  CanTransition from to = true →
  RequiresApproval to || (to =s StatusPending) || (to =s Status.StatusApproved) ||
    (to =s StatusActive) = false →
  to = StatusDraft ∨ to = StatusCompleted.
Proof.
  intros [_ Hv]%CanTransition_valid Hd. apply Valid_spec in Hv. unfold all_statuses in Hv.
  set_unfold. repeat destruct Hv as [->|Hv]; try done; auto; vm_compute in Hd; discriminate.
Qed.

Lemma transition_status tenantID contractID version target actor reason key d u d' :
  runs (transition_body meta tenantID contractID version target actor reason key) d u d' →
  status_only (authorised (OpTransition tenantID contractID version target actor reason key) d) d d'.
Proof.
  intros Hr. unfold transition_body in Hr.
  apply runs_bind in Hr as (c & d1 & Hc & Hr). inv_tx Hc.
  apply runs_bind in Hr as (? & d1 & Hv & Hr). inv_tx Hv.
  apply runs_bind in Hr as (? & d1 & Ho & Hr). inv_tx Ho.
  apply runs_bind in Hr as (n & d1 & Hn & Hr). inv_tx Hn.
  apply runs_bind in Hr as (? & d1 & Hg & Hr). inv_tx Hg.
  apply runs_bind in Hr as (? & d1 & Hd & Hr). inv_tx Hd.
  apply runs_bind in Hr as (? & d1 & Hs & Hr).
  destruct (status_block _ _ _ _ _ _ _ _ _ _ _ _ _ c Hs Hr Hc)
    as (now & E & _ & _ & Hcan & _).
  pose proof (direct_targets _ _ Hcan Hd).
  eapply status_only_one; [exact E|exact Hc|]. intros _. bool_hyps.
  split_and!; [done..|unfold no_running, count_approvals in *; lia].
Qed.

Lemma start_status inp d u d' :
  runs (start_body meta inp) d u d' → status_only (authorised (OpStart inp) d) d d'.
Proof.
  intros Hr. pose proof Hr as Hst. apply runs_start in Hst as [[_ ->]|Hst];
    [by apply status_only_same|].
  destruct Hst as [_ (c & _ & _ & Hc & Ht & _ & Hv & Hf & Hk & _)].
  unfold start_body in Hr.
  apply runs_bind in Hr as (found & d1 & Hfd & Hr). inv_tx Hfd.
  destruct (db_approvals d !! sa_ApprovalID inp) as [i|];
    [inv_tx Hr; by apply status_only_same|]. inv_tx Hr.
  match goal with h : runs (create_tasks _) _ _ _ |- _ =>
    apply runs_create_tasks in h as (T & ->) end.
  match goal with h : runs (insert_snapshot _) _ _ _ |- _ =>
    apply runs_insert_snapshot in h as [-> _] end.
  match goal with h : runs (insert_instance _) _ _ _ |- _ =>
    apply runs_insert_instance in h as [-> _] end.
  match goal with h : runs (start_kind _ _ _) _ _ _ |- _ =>
    apply runs_start_kind in h as [(? & s1 & ? & Hkd & Hs & Hl)|[_ ->]] end;
    [|by apply status_only_same].
  destruct (status_block _ _ _ _ _ _ _ _ _ _ _ _ _ c Hs Hl Hc) as (now & E & _ & _ & Hcan & _).
  eapply status_only_one; [exact E|exact Hc|]. intros _.
  destruct (Hk Hkd) as (_ & Hh & Hno). cbn.
  rewrite Hf. split_and!; try done. unfold no_running. by rewrite Ht.
Qed.

Lemma complete_status inp d u d' :
  keyed (core d) → runs (complete_body meta inp) d u d' →
  status_only (authorised (OpComplete inp) d) d d'.
Proof.
  intros Hk Hr.
  apply runs_complete in Hr as (i & Hi & _ &
    [[_ ->]|(Ha & now & c & actor & s & u1 & T & Hc & Ht & _ & Hr & -> & _)]);
    [by apply status_only_same|].
  destruct (ai_Kind i =s KindContract) eqn:Ek.
  - unfold complete_contract in Hr.
    apply runs_bind in Hr as (? & d1 & Hp & Hr). inv_tx Hp. bool_hyps.
    apply streq_true in Hp.
    apply runs_bind in Hr as (? & d1 & Hh & Hr). inv_tx Hh.
    destruct (ca_Status inp =s StatusApproved) eqn:Es.
    + destruct (complete_approved_effect _ _ _ _ _ _ Hc (Hk _ _ Hc) Ht Hr)
        as [c' [E (_ & Hs' & _) _ _ _]].
      eapply (status_only_one _ d _ (ca_ContractID inp) c c'); [exact E|exact Hc|]. intros _.
      split_and!; [done..|]. exists i. by rewrite Ek, Es.
    + inv_tx Hr.
      match goal with h1 : runs (updateStatus _ _ _ _ _) _ _ _,
                      h2 : runs (insertLifecycle _ _ _ _ _ _ _) _ _ _ |- _ =>
        destruct (status_block _ _ _ _ _ _ _ _ _ _ _ _ _ c h1 h2 Hc) as (n & E & _) end.
      eapply status_only_one; [exact E|exact Hc|]. intros _.
      split_and!; [done..|]. exists i. by rewrite Ek, Es.
  - unfold complete_change in Hr. destruct (ca_Status inp =s StatusApproved) eqn:Es.
    + inv_tx Hr. apply streq_true in Es.
      match goal with h1 : runs (updateStatus _ _ _ _ _) _ _ _,
                      h2 : runs (insertLifecycle _ _ _ _ _ _ _) _ _ _ |- _ =>
        destruct (status_block _ _ _ _ _ _ _ _ _ _ _ _ _ c h1 h2 Hc)
          as (n & E & Hf & _ & Hcan & _) end.
      eapply status_only_one; [exact E|exact Hc|]. intros _.
      split_and!; [done..|]. exists i. rewrite Ek. cbn. by rewrite Hf.
    + inv_tx Hr. by apply status_only_same.
Qed.

Lemma archive_status candidate additional date d b d' :
  keyed (core d) → runs (archive_body meta candidate additional date) d b d' →
  status_only (authorised (OpArchive candidate additional date) d) d d'.
Proof.
  intros Hk Hr. unfold archive_body in Hr.
  apply runs_bind in Hr as (found & d1 & Hf%runs_find_contract & Hr). destruct Hf as [-> Hf].
  destruct found as [c|]; [|inv_tx Hr; by apply status_only_same].
  destruct (Hf c eq_refl) as [Hc _]. pose proof (Hk _ _ Hc) as Hid.
  destruct (negb (ordinaryContractRecord c)); [inv_tx Hr; by apply status_only_same|].
  destruct (_ || _) eqn:Eg in Hr; [inv_tx Hr; by apply status_only_same|].
  apply runs_bind in Hr as (active & d1 & Hq & Hr). inv_tx Hq.
  destruct (0 <? _) eqn:En in Hr; [inv_tx Hr; by apply status_only_same|]. inv_tx Hr.
  match goal with h : runs (insert_notifications _ _) _ _ _ |- _ =>
    apply runs_notifications in h as (N & ->) end.
  rewrite Hid in *.
  match goal with h1 : runs (updateStatus _ _ _ _ _) _ _ _,
                  h2 : runs (insertLifecycle _ _ _ _ _ _ _) _ _ _ |- _ =>
    destruct (status_block _ _ _ _ _ _ _ _ _ _ _ _ _ c h1 h2 Hc)
      as (n & E & _ & _ & Hcan & _) end.
  bool_hyps.
  eapply status_only_one; [exact E|exact Hc|]. intros _.
  split_and!; [done..|]. unfold no_running, count_approvals in *. lia.
Qed.

End Completion.

Section Effects.
Context `{GoUnicode} `{Sha256} `{TzDatabase} `{Collation} `{Documents}.

(** C8: an approved completion of a contract approval, delivered for the first
    time, moves the contract from pending through approved to active and
    changes nothing else of its terms; the document it approves has the hash of
    the document that was submitted (the snapshot's); the contract keeps its
    number or receives one that the registry holds for it when a rule is set;
    an eligible contract gets the financial event of its new version; every
    other contract is left alone, and the approval is closed. *)
Theorem approval_takes_effect call inp d r d' i :
  keyed (core d) → approvals_sound d →
  call_op call = OpComplete inp → ca_Status inp = StatusApproved →
  db_approvals d !! ca_ApprovalID inp = Some i → ai_Kind i = KindContract →
  ai_CompletionApplied i = false →
  invoke call d = (r, d') → r = Ok tt ∨ d' ≠ d →
  ∃ c c' s i', db_contracts d !! ca_ContractID inp = Some c ∧ takes_effect inp c c' d d' ∧
    db_snapshots d !! ca_ApprovalID inp = Some s ∧
    c_ContentHash (c_document c) = as_ContentHash s ∧
    db_approvals d' !! ca_ApprovalID inp = Some i' ∧ ai_CompletionApplied i' = true ∧
    ai_Status i' = StatusApproved ∧ ai_ActiveStatusChangeKey i' = None.
Proof.
  destruct call as [O meta op]. unfold invoke. cbn [call_oracle call_meta call_op].
  intros Hk Hs -> Hst Hi Hkind Hna E Hor. cbn [perform] in E.
  apply transaction_effective in E as [u E]; [|destruct Hor; eauto].
  apply runs_complete in E as (i0 & Hi0 & _ &
    [[Ha _]|(_ & now & c & actor & s & u1 & T & Hc & Ht & _ & Hr & -> & _)]);
    rewrite Hi in Hi0; injection Hi0 as <-; [congruence|].
  rewrite Hkind, streq_refl in Hr.
  destruct (complete_contract_approved meta inp i c actor d u1 s Hst Hc (Hk _ _ Hc) Ht Hr)
    as ([c' Hte] & h & _ & Hh & Hch).
  destruct (as_snapshot _ Hs _ _ Hi) as (sn & Hsn & [_ _ Hhash]).
  destruct (Hhash Hkind) as (h' & _ & Hh' & Hsh). rewrite Hh in Hh'. injection Hh' as <-.
  exists c, c', sn. eexists. split_and!; [exact Hc|by apply takes_effect_rest|exact Hsn|congruence|..].
  - cbn. apply lookup_insert_eq.
  - done.
  - done.
  - done.
Qed.

(** A status that one of the ten operations of the repository changed was changed
    by an approval flow, a direct transition or the archiver, under its guards. *)
Lemma operation_authorised call d r d' id c c' :
  keyed (core d) → invoke call d = (r, d') →
  db_contracts d !! id = Some c → db_contracts d' !! id = Some c' →
  c_Status c' ≠ c_Status c → authorised (call_op call) d id c c'.
Proof.
  destruct call as [O meta op]. unfold invoke. cbn [call_oracle call_meta call_op].
  intros Hk E. revert id c c'. change (status_only (authorised op d) d d').
  assert (∀ A (m : Tx A) (r : res A), transaction m d = (r, d') →
    (∀ a, runs m d a d' → status_only (authorised op d) d d') →
    status_only (authorised op d) d d') as Htx.
  { intros A m r0 Em Hm. apply transaction_runs in Em as [->|[a Ha]];
      [by apply status_only_same|by eapply Hm]. }
  destruct op; cbn [perform] in E.
  - unfold CreateContract in E. destruct (applyContractSource c) as [origin|];
      [|injection E as _ <-; by apply status_only_same].
    eapply Htx; [exact E|]. intros a [Hfree Hrows]%runs_create_rows i x y Hx Hy Hne.
    rewrite Hrows, lookup_insert_ne in Hy by congruence. by simplify_eq.
  - eapply Htx; [exact E|].
    intros a (x & now & terms & P & L & row & Hx & _ & _ & _ & _ & _ & ->)%runs_draft.
    by eapply status_only_one; [reflexivity|exact Hx|].
  - eapply Htx; [exact E|]. intros a. apply transition_status.
  - eapply Htx; [exact E|]. intros a. apply start_status.
  - eapply Htx; [exact E|].
    intros a [(_ & ->)|(i & ac & now & row & T & _ & _ & _ & _ & _ & _ & _ & ->)]%runs_record;
      by apply status_only_same.
  - eapply Htx; [exact E|]. intros a. by apply complete_status.
  - eapply Htx; [exact E|]. intros a Hr. unfold notify_body in Hr. inv_tx Hr.
    apply runs_notifications in Hr as (N & ->). by apply status_only_same.
  - unfold archiveOne in E. destruct (transaction _ d) as [b d1] eqn:Em. injection E as _ <-.
    eapply Htx; [exact Em|]. intros a. by apply archive_status.
  - unfold ApplyContractFinancialChange in E.
    destruct (_ || _); [injection E as _ <-; by apply status_only_same|].
    destruct (transaction _ d) as [b d1] eqn:Em. injection E as _ <-.
    eapply Htx; [exact Em|].
    intros a (x & now & terms & P & F & L & row & Hx & _ & _ & _ & _ & _ & _ & _ & _ & _ & _ & _ &
      _ & _ & _ & ->)%runs_financial_change; [|done].
    by eapply status_only_one; [reflexivity|exact Hx|].
  - destruct (TransferOwnership _ _ d) as [b d1] eqn:Em. injection E as _ <-.
    eapply Htx; [exact Em|].
    intros a [(_ & _ & _ & _ & ->)|(_ & x & i & Hx & _ & _ & [[_ [_ ->]]|[_ (S & R & _ & _ & ->)]])]%runs_transfer;
      [by apply status_only_same..|]. by eapply status_only_one; [reflexivity|exact Hx|].
Qed.

(** A change of the financial terms that took effect raised the version by
    one and changed the amount and nothing else of the row; the new plan is
    stored normalised and adds up to the new amount; and the event of the new
    version, with the new amount, is in the outbox of the same commit.  It is
    refused while an approval of the contract runs. *)
Theorem financial_change_effect call tenantID change actor d r d' :
  keyed (core d) → in_int64 (fc_AmountMinor change) →
  call_op call = OpFinancial tenantID change actor →
  invoke call d = (r, d') → r = Ok tt ∨ d' ≠ d →
  let id := fc_ContractID change in
  ∃ c now terms, db_contracts d !! id = Some c ∧ c_TenantID c = tenantID ∧
    c_Version c = fc_ExpectedVersion change ∧ FinancialChangeStatusEligible (c_Status c) = true ∧
    count_approvals (in_status tenantID id StatusRunning) d = 0 ∧
    let c' := contract_set_amount (fc_AmountMinor change) now actor c in
    db_contracts d' = <[id := c']> (db_contracts d) ∧
    NormalizePaymentTerms (fc_PaymentTerms change) (fc_AmountMinor change)
      (c_Currency (c_terms c)) = Ok terms ∧ plan_cents terms = fc_AmountMinor change ∧
    map (λ r, term_from_record (pr_term r)) (terms_of tenantID id d') = terms ∧
    ∃ row, row ∈ db_financial d' ∧ delivery_key row = (tenantID, id, c_Version c + 1).
Proof.
  destruct call as [O meta op]. unfold invoke. cbn [call_oracle call_meta call_op].
  intros Hk Ha -> E Hor. cbn [perform] in E. unfold ApplyContractFinancialChange in E.
  destruct (_ || _); [injection E as <- <-; by destruct Hor|].
  destruct (transaction _ d) as [b d1] eqn:Em. cbn in E. injection E as <- <-.
  apply transaction_effective in Em as [v Em]; [|destruct b; naive_solver].
  apply runs_financial_change in Em as (c & now & terms & P & F & L & row & Hc & Ht & Hv & _ & _ &
    Hst & Hpos & Hn & Hne & Hno & Hp & _ & _ & _ & (r & Hr & ->) & ->); [|done].
  exists c, now, terms. split_and!; try done.
  - destruct (plan_stable _ _ _ _ Ha Hne Hn) as (_ & _ & Hs & _). done.
  - destruct (plan_rows_own _ _ _ _ _ _ _ Ha Hp) as (out & Hn2 & _ & Hrows & Htext & _).
    destruct (plan_stable _ _ _ _ Ha Hne Hn) as (_ & _ & _ & Hn3 & _).
    rewrite Hn3 in Hn2. injection Hn2 as <-.
    etrans; [|exact Htext]. rewrite <- Hrows, map_map. done.
  - assert (delivery_key r = (tenantID, fc_ContractID change, c_Version c + 1)) as Hkey.
    { destruct Hr as [Hrt Hrc Hrv _]. unfold delivery_key. rewrite Hrt, Hrc, Hrv. cbn.
      by rewrite (Hk _ _ Hc). }
    cbn. destruct (insert_ignore_rows r (db_financial d)) as [[-> Hin]|[-> _]].
    + apply list_elem_of_fmap in Hin as (r' & Er & Hin). exists r'. split; [done|].
      by rewrite <- Er.
    + exists r. split; [|done]. apply elem_of_app. right. by left.
Qed.

End Effects.

(** ** The sample run *)

(** Before and after the completion. *)
Notation awaiting := (execute (take 3 sample_calls) (new_tables sample_numbers)).
Definition sample_completion : call :=
  mkCall (lost "4") sample_meta (complete_call "a1" StatusApproved).

Lemma awaiting_keyed : keyed (core awaiting) ∧ approvals_sound awaiting.
Proof.
  split; [|apply execute_sound, new_tables_sound].
  refine (proj2 (execute_refines _ (new_tables sample_numbers) _ _)); [by intros id c E|].
  apply Forall_take, sample_calls_typed.
Qed.

Lemma awaiting_changes : (invoke sample_completion awaiting).2 ≠ awaiting.
Proof.
  intros E. apply (f_equal (λ x, length (db_financial x))) in E. vm_compute in E. discriminate.
Qed.

Lemma approval_takes_effect_witness :
  ∃ c c', db_contracts awaiting !! "c1" = Some c ∧
    db_contracts (invoke sample_completion awaiting).2 !! "c1" = Some c' ∧
    c_Status c' = StatusActive ∧ c_Version c' = c_Version c + 2.
Proof.
  destruct awaiting_keyed as [Hk Hs].
  destruct (db_approvals awaiting !! "a1") as [i|] eqn:Ei; [|vm_compute in Ei; discriminate].
  pose proof Ei as Fi. vm_compute in Fi. injection Fi as <-.
  pose proof awaiting_changes as Hne.
  destruct (invoke sample_completion awaiting) as [r d'] eqn:E.
  destruct (approval_takes_effect sample_completion _ awaiting r d' _ Hk Hs eq_refl eq_refl Ei
    eq_refl eq_refl E (or_intror Hne)) as (c & c' & s & i' & Hc & [Hrows Hst _ _ _] & _).
  exists c, c'. cbn [snd]. rewrite Hrows, lookup_insert_eq.
  split; [exact Hc|]. split; [reflexivity|]. split; [exact (proj1 (proj2 Hst))|exact (proj2 (proj2 Hst))].
Defined.

(** The amount is raised once the contract is active. *)
Definition raised : ContractFinancialChange :=
  mkChange "c1" 4 20000 "CNY" [mkTerm 1 "2026-09-30" "200"] "more".
Definition sample_change : call := good_call "6" (OpFinancial "t1" raised "alice").

Lemma financial_change_effect_witness :
  ∃ c', db_contracts (invoke sample_change sample_db).2 !! "c1" = Some c' ∧
    c_AmountMinor (c_terms c') = 20000.
Proof.
  assert (in_int64 20000) as Hin by (by vm_compute).
  assert (keyed (core sample_db)) as Hk.
  { refine (proj2 (execute_refines _ (new_tables sample_numbers) _ sample_calls_typed)).
    by intros id c E. }
  assert ((invoke sample_change sample_db).1 = Ok tt) as Hok by (vm_compute; reflexivity).
  destruct (invoke sample_change sample_db) as [r d'] eqn:E.
  destruct (financial_change_effect sample_change "t1" raised "alice" sample_db r d' Hk Hin eq_refl E
    (or_introl Hok)) as (c & now & terms & _ & _ & _ & _ & _ & Hrows & _).
  cbn [snd]. rewrite Hrows. eexists. split; [apply lookup_insert_eq|]. reflexivity.
Defined.

(** * Calls that come between the two activities of an approval

    The workflow records the approving command ([RecordCommand] writes the
    status "approved" to the instance) and then applies it
    ([CompleteApproval]).  A direct transition counts only instances with status
    "running", so it is not refused in between.  Two runs, evaluated. *)

(** ** A decision about an older version *)

Definition late_plan : list PaymentTerm := [mkTerm 1 "2036-12-31" "100"].

(** The command that approves [a1] is recorded; before the approval is applied
    the contract goes back to draft, gets another payment plan (its document
    and amount stay), and is submitted again. *)
Definition resubmission : list call :=
  [ good_call "1" (OpCreate 0 (sample_contract 10000 plan_of_two) "alice");
    good_call "2" (start_call "a1" 1);
    good_call "3" (record_call "a1" "cmd1" StatusApproved);
    good_call "4" (OpTransition "t1" "c1" 2 StatusDraft "alice" "rework" "k4");
    good_call "5" (OpUpdateDraft (sample_contract 10000 late_plan) 3 "alice");
    good_call "6" (start_call "a2" 4) ].
Notation resubmitted := (execute resubmission (new_tables sample_numbers)).
Definition stale_completion : call := good_call "7" (complete_call "a1" StatusApproved).

Definition plan_in (d : DB) (id : string) : list PaymentTerm :=
  map (λ r, term_from_record (pr_term r)) (terms_of "t1" id d).

(** The completion of the first approval then activates the contract,
    although its approvers saw another payment plan and the second approval
    still runs: the check of the document's hash does not cover the plan. *)
Theorem stale_approval_activates :
  let d := (invoke stale_completion resubmitted).2 in
  (invoke stale_completion resubmitted).1 = Ok tt ∧
  (c_Status <$> (db_contracts d !! "c1")) = Some StatusActive ∧
  (ai_Status <$> (db_approvals d !! "a2")) = Some StatusRunning ∧
  (as_PaymentTerms <$> (db_snapshots d !! "a1")) =
    Some [mkTerm 1 "2026-03-31" "40.00"; mkTerm 2 "2026-06-30" "60.00"] ∧
  plan_in d "c1" = [mkTerm 1 "2036-12-31" "100.00"].
Proof. split_and!; vm_compute; reflexivity. Qed.

(** ** A status change that can never be applied *)

Definition change_call (approval : string) (version : Z) (from to : Status) : operation :=
  OpStart (mkStart approval "t1" "c1" "alice" "Alice" version KindStatusChange from to "because"
    "" 0 "" (approval +:+ "-wf") "run" sample_nodes sample_audit).
Definition complete_change_call (approval : string) (to : Status) : operation :=
  OpComplete (mkComplete approval "t1" "c1" "bob" StatusApproved "ok" (approval +:+ "-wf") to
    sample_audit).

(** Between the recording and the application of "to pending payment", the
    contract is set to completed. *)
Definition orphaning : list call :=
  sample_calls ++
  [ good_call "6" (change_call "s1" 4 StatusActive StatusInProgress);
    good_call "7" (record_call "s1" "cmd2" StatusApproved);
    good_call "8" (complete_change_call "s1" StatusInProgress);
    good_call "9" (change_call "s2" 5 StatusInProgress StatusPendingPay);
    good_call "10" (record_call "s2" "cmd3" StatusApproved);
    good_call "11" (OpTransition "t1" "c1" 5 StatusCompleted "alice" "done" "k11") ].
Notation orphaned := (execute orphaning (new_tables sample_numbers)).

(** No approval of a change of status starts while another one of the contract
    holds the active key. *)
Lemma active_key_refuses `{GoUnicode} `{Sha256} `{TzDatabase} `{Collation} `{Documents}
    call inp d id i key :
  call_op call = OpStart inp → sa_Kind inp = KindStatusChange →
  db_approvals d !! id = Some i → ai_ActiveStatusChangeKey i = Some key →
  key = sa_TenantID inp +:+ ":" +:+ sa_ContractID inp →
  (invoke call d).2 = d.
Proof.
  destruct call as [O meta op]. unfold invoke. cbn [call_oracle call_meta call_op].
  intros -> Hk Hi Ha ->. cbn [perform]. destruct (StartApproval _ _ _) as [r d'] eqn:E. cbn.
  apply transaction_runs in E as [->|[u Hr]]; [done|].
  apply runs_start in Hr as [[_ ->]|[_ Hs]]; [done|]. exfalso.
  destruct Hs as (c & now & s & _ & _ & _ & _ & _ & _ & _ & Hcl & _).
  specialize (Hcl id i Hi). unfold instance_clash, new_instance in Hcl. cbn in Hcl.
  rewrite Hk, streq_refl, Ha in Hcl. apply orb_false_iff in Hcl as [_ Hcl].
  unfold stringPtr in Hcl.
  destruct (empty_str (sa_TenantID inp +:+ ":" +:+ sa_ContractID inp)) eqn:Ee.
  - apply streq_true in Ee. by destruct (sa_TenantID inp).
  - by rewrite streq_refl in Hcl.
Qed.

(** The approved change is refused once the contract has left its status. *)
Lemma completion_conflict `{GoUnicode} `{Sha256} `{TzDatabase} `{Collation} `{Documents}
    call inp d i c :
  call_op call = OpComplete inp → (∀ n, @o_fault (call_oracle call) n = false) →
  db_approvals d !! ca_ApprovalID inp = Some i → ai_TenantID i = ca_TenantID inp →
  ai_CompletionApplied i = false → ai_Kind i ≠ KindContract → ca_Status inp = StatusApproved →
  db_contracts d !! ca_ContractID inp = Some c → c_TenantID c = ca_TenantID inp →
  ordinaryContractRecord c = true → c_Status c ≠ ai_FromStatus i →
  invoke call d = (Err ErrStateConflict, d).
Proof.
  destruct call as [O meta op]. unfold invoke. cbn [call_oracle call_meta call_op].
  intros -> Hf Hi Hti Ha Hk Hs Hc Htc Ho Hst. cbn [perform].
  unfold CompleteApproval, transaction, complete_body, take_contract, take_row, find_contract.
  unfold mbind, Tx_bind, query. rewrite !Hf, Hi. rewrite Hti, streq_refl. cbn [negb].
  rewrite Ha, !Hf, Hc, Htc, streq_refl. unfold mret, Tx_ret. 
  unfold guard at 1, lift. rewrite Ho. cbn [negb fail_if].
  apply streq_false in Hk as ->. unfold complete_change. rewrite Hs, streq_refl.
  apply streq_false in Hst. unfold mbind, Tx_bind, guard, lift. by rewrite Hst.
Qed.

(** An instance that keeps its active key blocks the contract: the
    completion of the recorded change is refused because the contract is no
    longer in the status the change starts from, the instance keeps the key,
    and no new change of status can be submitted for the contract, whatever
    identifier, statuses or version it has. *)
Theorem orphaned_status_change :
  (c_Status <$> (db_contracts orphaned !! "c1")) = Some StatusCompleted ∧
  (∀ k, invoke (good_call k (complete_change_call "s2" StatusPendingPay)) orphaned =
        (Err ErrStateConflict, orphaned)) ∧
  ∀ call inp, call_op call = OpStart inp → sa_Kind inp = KindStatusChange →
    sa_TenantID inp = "t1" → sa_ContractID inp = "c1" → (invoke call orphaned).2 = orphaned.
Proof.
  split; [vm_compute; reflexivity|].
  destruct (db_approvals orphaned !! "s2") as [i|] eqn:Ei; [|vm_compute in Ei; discriminate].
  pose proof Ei as Fi. vm_compute in Fi. injection Fi as <-. split.
  - intros k. destruct (db_contracts orphaned !! "c1") as [c|] eqn:Ec;
      [|vm_compute in Ec; discriminate].
    pose proof Ec as Fc. vm_compute in Fc. injection Fc as <-.
    eapply completion_conflict; [reflexivity|reflexivity|exact Ei|reflexivity|reflexivity| |
      reflexivity|exact Ec|reflexivity|reflexivity|]; discriminate.
  - intros call inp Hop Hk Ht Hc.
    eapply active_key_refuses; [exact Hop|exact Hk|exact Ei|reflexivity|by rewrite Ht, Hc].
Qed.
