(* ===== verification/Signing.v ===== *)
(** * infrastructure/mysql: stamped documents and the signing of a contract

    contracts_stamped.go, contracts_signing_actions.go, contracts_policy.go,
    contracts_signing_helpers.go, contracts_signing_query.go and the stamp of
    project_delivery.go.  Stamped documents are kept in versions; the signing
    row of a contract follows pending_shipment, in_return, pending_review and
    completed, and a confirmation is bound to a version and its hash. *)

From S2P Require Import Prelude GoStrings Decimal GoTime Utf8 PhoneCipher Status NumberRule.
From S2P Require Import PaymentTerm ProjectService ImportPolicy ApprovalRule Workflow Store.
From S2P Require Import Outbound.

#[local] Open Scope string_scope.
#[local] Open Scope Z_scope.
#[local] Open Scope list_scope.

(** ** Data *)

Definition SigningStatus : Type := string.
Definition SigningPendingShipment : SigningStatus := "pending_shipment".
Definition SigningInReturn : SigningStatus := "in_return".
Definition SigningPendingReview : SigningStatus := "pending_review".
Definition SigningCompleted : SigningStatus := "completed".

Record StampedDocument : Type := mkStampedDocument {
  st_ContractID : string; st_Version : Z; st_OriginalFilename : string;
  st_ContentSHA256 : string; st_Document : string; st_UploadedAt : Time;
  st_UploadedBy : string; st_PlatformFileID : string; st_FileGatewayState : string
}.
Record StampedDocumentUpload : Type := mkUpload {
  up_ContractID : string; up_OriginalFilename : string; up_Document : string;
  up_UploadedAt : Time; up_UploadedBy : string; up_ExpectedVersion : Z;
  up_ReplacementReason : string
}.
Record SigningShipment : Type := mkShipment {
  sh_CourierNumber : string; sh_RecipientName : string; sh_RecipientPhone : string;
  sh_RecipientAddress : string; sh_MailedAt : Time
}.
Record SigningConfirmation : Type := mkConfirmation {
  cf_SealVerified : bool; cf_SignatureVerified : bool; cf_SignedAt : Time;
  cf_DocumentVersion : Z; cf_ContentSHA256 : string
}.

#[export] Instance stampedDocumentRecord_eq_dec : EqDecision stampedDocumentRecord.
Proof. solve_decision. Defined.
#[export] Instance signingRecord_eq_dec : EqDecision signingRecord.
Proof. solve_decision. Defined.

Definition validateStampedUploadPolicy (status : Status) (signingStatus : SigningStatus)
    (hasSigning : bool) (replacementReason : string) : res unit :=
  fail_if (status =s StatusArchived) ErrStateConflict;;
  fail_if (hasSigning && (signingStatus =s SigningCompleted) &&
           empty_str (TrimSpace replacementReason)) ErrStateConflict.

(** ** Rows *)

Definition stamped_of (tenantID contractID : string) (r : stampedDocumentRecord) : bool :=
  (sd_TenantID r =s tenantID) && (sd_ContractID r =s contractID).
(** The rows of a contract. *)
Definition stamped_rows (tenantID contractID : string) (d : DB) : list stampedDocumentRecord :=
  filter (λ r, stamped_of tenantID contractID r = true) (db_stamped d).
(** [COALESCE(MAX(version), 0)]. *)
Definition max_version (rows : list stampedDocumentRecord) : Z :=
  foldr (λ r m, Z.max (sd_Version r) m) 0 rows.
(** [ORDER BY version DESC], the first row. *)
Fixpoint latest (rows : list stampedDocumentRecord) : option stampedDocumentRecord :=
  match rows with
  | [] => None
  | r :: rest =>
      match latest rest with
      | Some best => if sd_Version r <? sd_Version best then Some best else Some r
      | None => Some r
      end
  end.

Definition supersede (now : Time) (actor : string) (r : stampedDocumentRecord)
    : stampedDocumentRecord :=
  mkStamped (sd_ContractID r) (sd_TenantID r) (sd_OriginalFilename r) (sd_ContentSHA256 r)
    (sd_Version r) (sd_Document r) (sd_UploadedAt r) (sd_UploadedBy r) (sd_PlatformFileID r)
    (sd_FileGatewayState r) (sd_FileGatewayLastError r) (Some now) (Some actor).
Definition set_gateway (state file error : string) (r : stampedDocumentRecord)
    : stampedDocumentRecord :=
  mkStamped (sd_ContractID r) (sd_TenantID r) (sd_OriginalFilename r) (sd_ContentSHA256 r)
    (sd_Version r) (sd_Document r) (sd_UploadedAt r) (sd_UploadedBy r) file state error
    (sd_SupersededAt r) (sd_SupersededBy r).

(** The updates of a signing row; each raises its version. *)
Definition signing_reset (now : Time) (actor : string) (s : signingRecord) : signingRecord :=
  mkSigning (sg_ContractID s) (sg_TenantID s) (sg_Method s) SigningPendingReview
    (sg_CourierNumber s) (sg_RecipientName s) (sg_RecipientPhone s) (sg_RecipientAddress s)
    (sg_MailedAt s) (sg_CustomerReceivedAt s) None None None None false false
    (sg_ReminderCount s) (sg_LastRemindedAt s) (sg_Version s + 1) now actor.
Definition signing_set_shipment (shipment : SigningShipment) (phone : string) (now : Time)
    (actor : string) (s : signingRecord) : signingRecord :=
  mkSigning (sg_ContractID s) (sg_TenantID s) (sg_Method s) SigningInReturn
    (Some (sh_CourierNumber shipment)) (Some (sh_RecipientName shipment)) (Some phone)
    (Some (sh_RecipientAddress shipment)) (Some (sh_MailedAt shipment)) (sg_CustomerReceivedAt s)
    (sg_SignedAt s) (sg_ConfirmedAt s) (sg_ConfirmedDocumentVersion s)
    (sg_ConfirmedContentSHA256 s) (sg_SealVerified s) (sg_SignatureVerified s)
    (sg_ReminderCount s) (sg_LastRemindedAt s) (sg_Version s + 1) now actor.
Definition signing_set_received (now : Time) (actor : string) (s : signingRecord) : signingRecord :=
  mkSigning (sg_ContractID s) (sg_TenantID s) (sg_Method s) (sg_Status s) (sg_CourierNumber s)
    (sg_RecipientName s) (sg_RecipientPhone s) (sg_RecipientAddress s) (sg_MailedAt s) (Some now)
    (sg_SignedAt s) (sg_ConfirmedAt s) (sg_ConfirmedDocumentVersion s)
    (sg_ConfirmedContentSHA256 s) (sg_SealVerified s) (sg_SignatureVerified s)
    (sg_ReminderCount s) (sg_LastRemindedAt s) (sg_Version s + 1) now actor.
Definition signing_set_reminded (now : Time) (actor : string) (s : signingRecord) : signingRecord :=
  mkSigning (sg_ContractID s) (sg_TenantID s) (sg_Method s) (sg_Status s) (sg_CourierNumber s)
    (sg_RecipientName s) (sg_RecipientPhone s) (sg_RecipientAddress s) (sg_MailedAt s)
    (sg_CustomerReceivedAt s) (sg_SignedAt s) (sg_ConfirmedAt s) (sg_ConfirmedDocumentVersion s)
    (sg_ConfirmedContentSHA256 s) (sg_SealVerified s) (sg_SignatureVerified s)
    (sg_ReminderCount s + 1) (Some now) (sg_Version s + 1) now actor.
Definition signing_set_completed (c : SigningConfirmation) (document : stampedDocumentRecord)
    (now : Time) (actor : string) (s : signingRecord) : signingRecord :=
  mkSigning (sg_ContractID s) (sg_TenantID s) (sg_Method s) SigningCompleted (sg_CourierNumber s)
    (sg_RecipientName s) (sg_RecipientPhone s) (sg_RecipientAddress s) (sg_MailedAt s)
    (sg_CustomerReceivedAt s) (Some (cf_SignedAt c)) (Some now) (Some (sd_Version document))
    (Some (sd_ContentSHA256 document)) (cf_SealVerified c) (cf_SignatureVerified c)
    (sg_ReminderCount s) (sg_LastRemindedAt s) (sg_Version s + 1) now actor.
Definition signing_set_phone (phone : string) (s : signingRecord) : signingRecord :=
  mkSigning (sg_ContractID s) (sg_TenantID s) (sg_Method s) (sg_Status s) (sg_CourierNumber s)
    (sg_RecipientName s) (Some phone) (sg_RecipientAddress s) (sg_MailedAt s)
    (sg_CustomerReceivedAt s) (sg_SignedAt s) (sg_ConfirmedAt s) (sg_ConfirmedDocumentVersion s)
    (sg_ConfirmedContentSHA256 s) (sg_SealVerified s) (sg_SignatureVerified s)
    (sg_ReminderCount s) (sg_LastRemindedAt s) (sg_Version s) (sg_UpdatedAt s) (sg_UpdatedBy s).

Definition new_signing (tenantID contractID status : string) (now : Time) (actor : string)
    : signingRecord :=
  mkSigning contractID tenantID "paper" status None None None None None None None None None None
    false false 0 None 1 now actor.
Definition first_shipment (tenantID contractID : string) (shipment : SigningShipment)
    (phone : string) (now : Time) (actor : string) : signingRecord :=
  mkSigning contractID tenantID "paper" SigningInReturn (stringPtr (sh_CourierNumber shipment))
    (stringPtr (sh_RecipientName shipment)) (stringPtr phone)
    (stringPtr (sh_RecipientAddress shipment)) (Some (sh_MailedAt shipment)) None None None None
    None false false 0 None 1 now actor.

Definition same_confirmation (a b : signingConfirmationRecord) : bool :=
  (sc_TenantID a =s sc_TenantID b) && (sc_ContractID a =s sc_ContractID b) &&
  (sc_DocumentVersion a =? sc_DocumentVersion b).

Section Statements.
Context `{Oracle}.

Definition find_signing (tenantID contractID : string) : Tx (option signingRecord) :=
  query (λ d, match db_signing d !! contractID with
              | Some s => if sg_TenantID s =s tenantID then Some s else None
              | None => None
              end).
Definition update_signing (tenantID contractID : string) (where_ : signingRecord → bool)
    (f : signingRecord → signingRecord) : Tx Z :=
  exec (λ d, match db_signing d !! contractID with
             | Some s => if (sg_TenantID s =s tenantID) && where_ s
                         then Ok (1, set_signing (<[contractID := f s]> (db_signing d)) d)
                         else Ok (0, d)
             | None => Ok (0, d)
             end).
(** The number of rows inserted; 0 when the key exists and is ignored. *)
Definition insert_signing (ignore : bool) (s : signingRecord) : Tx Z :=
  exec (λ d, match db_signing d !! sg_ContractID s with
             | Some _ => if ignore then Ok (0, d) else Err ErrDuplicatedKey
             | None => Ok (1, set_signing (<[sg_ContractID s := s]> (db_signing d)) d)
             end).

(** The primary key of the versions is (contract_id, version). *)
Definition same_stamped (a b : stampedDocumentRecord) : bool :=
  (sd_ContractID a =s sd_ContractID b) && (sd_Version a =? sd_Version b).
Definition insert_stamped (r : stampedDocumentRecord) : Tx unit :=
  exec (λ d, rows ← insert_unique same_stamped r (db_stamped d); Ok (tt, set_stamped rows d)).

Definition supersede_current (tenantID contractID : string) (now : Time) (actor : string)
    : Tx unit :=
  modify (λ d, set_stamped
    (map (λ r, if stamped_of tenantID contractID r && bool_decide (sd_SupersededAt r = None)
               then supersede now actor r else r) (db_stamped d)) d).

(** ** The stamp of the project event *)

(** [ORDER BY created_at DESC], the first row (any of the latest, when there
    are several). *)
Fixpoint newest {P} (rows : list (deliveryOutboxRecord P)) : option (deliveryOutboxRecord P) :=
  match rows with
  | [] => None
  | r :: rest =>
      match newest rest with
      | Some best => if do_CreatedAt r <? do_CreatedAt best then Some best else Some r
      | None => Some r
      end
  end.

Definition refreshProjectDeliveryStampStatus
    (record : deliveryOutboxRecord projectActivationPayload) (uploaded : bool) : Tx unit :=
  payload ← lift (unmarshal (do_Payload record));
  now ← time_now;
  let payload' := mkActivation (pa_ContractID payload) (pa_ContractNumber payload)
    (pa_ContractVersion payload) (pa_ContractName payload) (pa_Customer payload)
    (pa_CustomerID payload) (pa_EffectiveAt payload) uploaded (pa_Services payload) in
  modify (λ d, set_project
    (map (λ r, if do_ID r =s do_ID record
               then mkDelivery (do_ID r) (do_TenantID r) (do_ContractID r) (do_ContractVersion r)
                      (JsonOf payload') (queued now) (do_CreatedAt r)
               else r) (db_project d)) d).

Definition markProjectDeliveryStamped (tenantID contractID : string) : Tx unit :=
  record ← query (λ d, newest (filter (λ r, (do_TenantID r =s tenantID) &&
                                            (do_ContractID r =s contractID) = true)
                                 (db_project d)));
  match record with
  | None => mret tt
  | Some r => refreshProjectDeliveryStampStatus r true
  end.

(** ** Notifications *)

Definition signingNotificationKey (contractID event : string) : string :=
  contractID +:+ ":signing:" +:+ event.

Definition insertSigningNotification (tenantID contractID notificationType title content
    dedupeKey : string) : Tx unit :=
  current ← take_contract tenantID contractID ErrRecordNotFound;
  let owner := c_OwnerUserID (c_owner current) in
  if empty_str owner then mret tt
  else
    now ← time_now;
    id ← newID;
    modify (λ d, set_notifications (insert_ignore same_notification
      (mkNotification id tenantID ("user:" +:+ owner) (stringPtr owner) None notificationType
         title content (stringPtr contractID) None dedupeKey (queued now) now) (db_notifications d)) d).

End Statements.

(** ** Operations *)

Section Operations.
Context `{Oracle} `{Sha256}.

Definition upload_body (tenantID : string) (u : StampedDocumentUpload) : Tx StampedDocument :=
  let id := up_ContractID u in
  let digest := sha256_hex (up_Document u) in
  now ← (if IsZero (up_UploadedAt u) then time_now else mret (up_UploadedAt u));
  current ← take_contract tenantID id ErrNotFound;
  signing ← find_signing tenantID id;
  let hasSigning := bool_decide (is_Some signing) in
  let signingStatus := match signing with Some s => sg_Status s | None => "" end in
  lift (validateStampedUploadPolicy (c_Status current) signingStatus hasSigning
          (up_ReplacementReason u));;
  maxVersion ← query (λ d, max_version (stamped_rows tenantID id d));
  guard (negb (up_ExpectedVersion u =? maxVersion)) ErrVersionConflict;;
  (if 0 <? maxVersion then supersede_current tenantID id now (up_UploadedBy u) else mret tt);;
  let version := maxVersion + 1 in
  insert_stamped (mkStamped id tenantID (up_OriginalFilename u) digest version (up_Document u) now
    (up_UploadedBy u) "" "DISABLED" "" None None);;
  (if hasSigning then
     rows ← update_signing tenantID id (λ _, true) (signing_reset now (up_UploadedBy u));
     guard (negb (rows =? 1)) ErrStateConflict
   else
     insert_signing false (new_signing tenantID id SigningPendingReview now (up_UploadedBy u));;
     mret tt);;
  markProjectDeliveryStamped tenantID id;;
  mret (mkStampedDocument id version (up_OriginalFilename u) digest (up_Document u) now
          (up_UploadedBy u) "" "DISABLED").

Definition SaveStampedDocument (tenantID : string) (u : StampedDocumentUpload)
    : DB → res StampedDocument * DB := transaction (upload_body tenantID u).

Definition this_version (tenantID contractID : string) (version : Z) (sha : string)
    (r : stampedDocumentRecord) : bool :=
  stamped_of tenantID contractID r && (sd_Version r =? version) && (sd_ContentSHA256 r =s sha).
(** The number of rows that change. *)
Definition update_stamped (where_ : stampedDocumentRecord → bool)
    (f : stampedDocumentRecord → stampedDocumentRecord) : Tx Z :=
  exec (λ d, Ok (Z.of_nat (length (filter (λ r, where_ r = true ∧ f r ≠ r) (db_stamped d))),
                 set_stamped (map (λ r, if where_ r then f r else r) (db_stamped d)) d)).
Definition stampedVersionMatches (tenantID contractID : string) (version : Z) (sha : string)
    : Tx bool :=
  count ← query (λ d, length (filter (λ r, this_version tenantID contractID version sha r = true)
                                (db_stamped d)));
  mret (count =? 1)%nat.

(** Both statements run on their own; the second only reads. *)
Definition gateway_body (tenantID contractID : string) (version : Z) (sha : string)
    (f : stampedDocumentRecord → stampedDocumentRecord) : Tx unit :=
  rows ← update_stamped (this_version tenantID contractID version sha) f;
  if rows =? 1 then mret tt
  else
    matched ← stampedVersionMatches tenantID contractID version sha;
    guard (negb matched) ErrVersionConflict.

Definition MarkStampedDocumentGatewayPending (tenantID contractID : string) (version : Z)
    (sha : string) : DB → res unit * DB :=
  transaction (gateway_body tenantID contractID version sha
    (λ r, set_gateway "PENDING" (sd_PlatformFileID r) "" r)).

Definition MarkStampedDocumentGatewayResult (tenantID contractID : string) (version : Z)
    (sha state value : string) : DB → res unit * DB :=
  transaction (gateway_body tenantID contractID version sha
    (λ r, if state =s "READY" then set_gateway state value "" r
          else set_gateway state (sd_PlatformFileID r) (cut_bytes 512 value) r)).

Definition GetStampedDocument (tenantID contractID : string) : Tx StampedDocument :=
  r ← take_row (query (λ d, latest (stamped_rows tenantID contractID d))) ErrNotFound;
  mret (mkStampedDocument (sd_ContractID r) (sd_Version r) (sd_OriginalFilename r)
          (sd_ContentSHA256 r) (sd_Document r) (sd_UploadedAt r) (sd_UploadedBy r)
          (sd_PlatformFileID r) (sd_FileGatewayState r)).

(** ** Shipment, receipt, reminders *)

Definition shippable (s : signingRecord) : bool :=
  (sg_Status s =s SigningPendingShipment) || (sg_Status s =s SigningInReturn).

Definition shipment_body `{Aead} `{PhoneKeyEnv} (nonce : list byte) (tenantID contractID
    actor : string) (shipment : SigningShipment) : Tx unit :=
  now ← time_now;
  encryptedPhone ← lift (EncryptSigningPhone nonce contractID (sh_RecipientPhone shipment));
  let change := signing_set_shipment shipment encryptedPhone now actor in
  take_contract tenantID contractID ErrNotFound;;
  updated ← update_signing tenantID contractID shippable change;
  (if updated =? 0 then
     existing ← find_signing tenantID contractID;
     guard (bool_decide (is_Some existing)) ErrStateConflict;;
     inserted ← insert_signing true
                  (first_shipment tenantID contractID shipment encryptedPhone now actor);
     if inserted =? 0 then
       retried ← update_signing tenantID contractID shippable change;
       guard (negb (retried =? 1)) ErrStateConflict
     else mret tt
   else mret tt);;
  insertSigningNotification tenantID contractID "signing_shipped" "合同已寄出"
    "合同签署文件已寄出，请关注回传进度" (signingNotificationKey contractID "shipped").

Definition SaveSigningShipment `{Aead} `{PhoneKeyEnv} (nonce : list byte) (tenantID contractID
    actor : string) (shipment : SigningShipment) : DB → res unit * DB :=
  transaction (shipment_body nonce tenantID contractID actor shipment).

Definition received_body (tenantID contractID actor : string) : Tx unit :=
  now ← time_now;
  rows ← update_signing tenantID contractID
           (λ s, (sg_Status s =s SigningInReturn) &&
                 bool_decide (sg_CustomerReceivedAt s = None))
           (signing_set_received now actor);
  guard (rows =? 0) ErrStateConflict;;
  insertSigningNotification tenantID contractID "signing_received" "合同已签收"
    "客户已签收合同，请继续跟进签署文件回传" (signingNotificationKey contractID "received").
Definition MarkSigningReceived (tenantID contractID actor : string) : DB → res unit * DB :=
  transaction (received_body tenantID contractID actor).

Definition reminder_body (tenantID contractID actor : string) : Tx unit :=
  now ← time_now;
  rows ← update_signing tenantID contractID (λ s, sg_Status s =s SigningInReturn)
           (signing_set_reminded now actor);
  guard (rows =? 0) ErrStateConflict.
Definition RecordSigningReminder (tenantID contractID actor : string) : DB → res unit * DB :=
  transaction (reminder_body tenantID contractID actor).

(** ** Confirmation *)

Definition confirm_body `{GoUnicode} (tenantID contractID actor : string)
    (c : SigningConfirmation) : Tx unit :=
  now ← time_now;
  take_contract tenantID contractID ErrNotFound;;
  document ← take_row (query (λ d, latest (stamped_rows tenantID contractID d))) ErrStateConflict;
  guard (negb (cf_DocumentVersion c =? sd_Version document) ||
         negb (EqualFold (TrimSpace (cf_ContentSHA256 c)) (sd_ContentSHA256 document)))
    ErrVersionConflict;;
  signing ← take_row (find_signing tenantID contractID) ErrStateConflict;
  if sg_Status signing =s SigningCompleted then
    guard (negb ((uintValueOrZero (sg_ConfirmedDocumentVersion signing) =? sd_Version document) &&
                 EqualFold (valueOrEmpty (sg_ConfirmedContentSHA256 signing))
                   (sd_ContentSHA256 document))) ErrStateConflict
  else
    guard (negb (sg_Status signing =s SigningPendingReview)) ErrStateConflict;;
    rows ← update_signing tenantID contractID
             (λ s, (sg_Status s =s SigningPendingReview) &&
                   match sg_ConfirmedDocumentVersion s with
                   | None => true
                   | Some v => v =? sd_Version document
                   end)
             (signing_set_completed c document now actor);
    guard (negb (rows =? 1)) ErrVersionConflict;;
    id ← newID;
    modify (λ d, set_confirmations (insert_ignore same_confirmation
      (mkSignConfirmation id tenantID contractID (sd_Version document) (sd_ContentSHA256 document)
         (cf_SealVerified c) (cf_SignatureVerified c) (cf_SignedAt c) now actor now)
      (db_confirmations d)) d);;
    insertSigningNotification tenantID contractID "signing_confirmed" "合同签署已确认"
      ("合同签署文件 v" +:+ Itoa (sd_Version document) +:+ " 已完成核验，签署流程已完成")
      (signingNotificationKey contractID ("confirmed:v" +:+ Itoa (sd_Version document))).
Definition ConfirmSigning `{GoUnicode} (tenantID contractID actor : string)
    (c : SigningConfirmation) : DB → res unit * DB :=
  transaction (confirm_body tenantID contractID actor c).

(** ** Reading *)

(** A failed repair is ignored. *)
Definition repairSigningPhonePlaintext `{Aead} `{PhoneKeyEnv} (nonce : list byte)
    (tenantID contractID : string) (row : signingRecord) (d : DB) : DB :=
  let stored := valueOrEmpty (sg_RecipientPhone row) in
  match repairedPhone nonce contractID stored with
  | None => d
  | Some repaired =>
      (transaction (update_signing tenantID contractID
         (λ s, bool_decide (sg_RecipientPhone s = Some stored)) (signing_set_phone repaired)) d).2
  end.

End Operations.
