(* ===== verification/SigningFlow.v ===== *)
(** * The signing of contracts, as a state machine

    [signing_change] specifies the ways the versions, the signing rows and the
    confirmations change; the operations of Signing.v refine it.  Its
    invariant says that a completed signing is bound to the latest version. *)

From stdpp Require Import relations.
From S2P Require Import Prelude GoStrings Decimal GoTime BusinessClock Utf8 PhoneCipher Status.
From S2P Require Import NumberRule PaymentTerm ProjectService ImportPolicy ApprovalRule Workflow.
From S2P Require Import Store Outbound Numbering Repository Scenario Changes Refinement.
From S2P Require Import Frames Signing.

#[local] Open Scope string_scope.
#[local] Open Scope Z_scope.
#[local] Open Scope list_scope.

(** ** Calls *)

Inductive signing_operation : Type :=
  | SgUpload (tenantID : string) (u : StampedDocumentUpload)
  | SgPending (tenantID contractID : string) (version : Z) (sha : string)
  | SgResult (tenantID contractID : string) (version : Z) (sha state value : string)
  | SgShip (nonce : list byte) (tenantID contractID actor : string) (shipment : SigningShipment)
  | SgReceive (tenantID contractID actor : string)
  | SgRemind (tenantID contractID actor : string)
  | SgConfirm (tenantID contractID actor : string) (c : SigningConfirmation)
  | SgRepair (nonce : list byte) (tenantID contractID : string) (row : signingRecord).

Definition perform_signing `{Oracle} `{GoUnicode} `{Sha256} `{Aead} `{PhoneKeyEnv}
    (op : signing_operation) (d : DB) : res unit * DB :=
  match op with
  | SgUpload t u => ignore_value (SaveStampedDocument t u d)
  | SgPending t id version sha => MarkStampedDocumentGatewayPending t id version sha d
  | SgResult t id version sha state value =>
      MarkStampedDocumentGatewayResult t id version sha state value d
  | SgShip nonce t id actor shipment => SaveSigningShipment nonce t id actor shipment d
  | SgReceive t id actor => MarkSigningReceived t id actor d
  | SgRemind t id actor => RecordSigningReminder t id actor d
  | SgConfirm t id actor c => ConfirmSigning t id actor c d
  | SgRepair nonce t id row => (Ok tt, repairSigningPhonePlaintext nonce t id row d)
  end.

(** A call of either part of the repository. *)
Inductive any_call : Type :=
  | Business (c : call)
  | Signing (oracle : Oracle) (op : signing_operation).

Section Calls.
Context `{GoUnicode} `{Sha256} `{TzDatabase} `{Collation} `{Documents} `{Aead} `{PhoneKeyEnv}.

Definition invoke_any (c : any_call) (d : DB) : res unit * DB :=
  match c with
  | Business c => invoke c d
  | Signing oracle op => @perform_signing oracle _ _ _ _ op d
  end.
Definition execute_any (calls : list any_call) (d : DB) : DB :=
  foldl (λ d c, (invoke_any c d).2) d calls.
Definition any_typed (c : any_call) : Prop :=
  match c with Business c => well_typed (call_op c) | Signing _ _ => True end.

End Calls.

(** ** The specification *)

Record Sign : Type := mkSign {
  y_stamped : list stampedDocumentRecord;
  y_signing : gmap string signingRecord;
  y_confirmations : list signingConfirmationRecord
}.
Definition sign (d : DB) : Sign := mkSign (db_stamped d) (db_signing d) (db_confirmations d).
#[export] Instance sign_foreign : Foreign sign.
Proof. by repeat constructor. Qed.

Definition rows_of (tenantID id : string) (y : Sign) : list stampedDocumentRecord :=
  filter (λ r, stamped_of tenantID id r = true) (y_stamped y).

(** What the gateway's state does not change. *)
Definition evidence (r : stampedDocumentRecord) :=
  (sd_ContractID r, sd_TenantID r, sd_OriginalFilename r, sd_ContentSHA256 r, sd_Version r,
   sd_Document r, sd_UploadedAt r, sd_UploadedBy r).
Definition closing (r : stampedDocumentRecord) := (evidence r, sd_SupersededAt r, sd_SupersededBy r).

Definition close (tenantID id : string) (now : Time) (actor : string) (r : stampedDocumentRecord)
    : stampedDocumentRecord :=
  if stamped_of tenantID id r && bool_decide (sd_SupersededAt r = None)
  then supersede now actor r else r.

(** The confirmation a signing row carries. *)
Definition confirmed_as (s : signingRecord) :=
  (sg_SignedAt s, sg_ConfirmedAt s, sg_ConfirmedDocumentVersion s, sg_ConfirmedContentSHA256 s,
   sg_SealVerified s, sg_SignatureVerified s).
Definition unconfirmed (s : signingRecord) : Prop :=
  confirmed_as s = (None, None, None, None, false, false).

(** A change of a signing row that is neither an upload nor a confirmation. *)
Definition touched (s s' : signingRecord) : Prop :=
  sg_TenantID s' = sg_TenantID s ∧ confirmed_as s' = confirmed_as s ∧
  (sg_Status s' = sg_Status s ∨ (shippable s = true ∧ sg_Status s' = SigningInReturn)).

Inductive signing_change `{Sha256} (contracts : gmap string contractRecord) (y : Sign)
    : Sign → Prop :=
  | sg_upload t u now c signing' :
      let id := up_ContractID u in
      let n := max_version (rows_of t id y) in
      contracts !! id = Some c → c_TenantID c = t → up_ExpectedVersion u = n →
      c_Status c ≠ StatusArchived →
      (∃ s', signing' = <[id := s']> (y_signing y) ∧ sg_TenantID s' = t ∧
         sg_Status s' = SigningPendingReview ∧ unconfirmed s' ∧
         ∀ s, y_signing y !! id = Some s → sg_Status s = SigningCompleted →
           TrimSpace (up_ReplacementReason u) ≠ "") →
      signing_change contracts y (mkSign
        ((if 0 <? n then map (close t id now (up_UploadedBy u)) (y_stamped y) else y_stamped y) ++
         [mkStamped id t (up_OriginalFilename u) (sha256_hex (up_Document u)) (n + 1)
            (up_Document u) now (up_UploadedBy u) "" "DISABLED" "" None None])
        signing' (y_confirmations y))
  | sg_gateway g :
      (∀ r, closing (g r) = closing r) →
      signing_change contracts y (mkSign (map g (y_stamped y)) (y_signing y) (y_confirmations y))
  | sg_first id s c :
      contracts !! id = Some c → c_TenantID c = sg_TenantID s → y_signing y !! id = None →
      sg_Status s = SigningInReturn → unconfirmed s →
      signing_change contracts y
        (mkSign (y_stamped y) (<[id := s]> (y_signing y)) (y_confirmations y))
  | sg_touch id s s' :
      y_signing y !! id = Some s → touched s s' →
      signing_change contracts y
        (mkSign (y_stamped y) (<[id := s']> (y_signing y)) (y_confirmations y))
  | sg_confirm id s c document now actor f :
      y_signing y !! id = Some s → sg_Status s = SigningPendingReview →
      latest (rows_of (sg_TenantID s) id y) = Some document →
      sc_TenantID f = sg_TenantID s → sc_ContractID f = id →
      sc_DocumentVersion f = sd_Version document →
      sc_ContentSHA256 f = sd_ContentSHA256 document →
      signing_change contracts y (mkSign (y_stamped y)
        (<[id := signing_set_completed c document now actor s]> (y_signing y))
        (insert_ignore same_confirmation f (y_confirmations y))).

(** ** The operations refine it *)

Section Blocks.
Context `{Oracle} `{GoUnicode} `{Sha256} `{Aead} `{PhoneKeyEnv}.

Lemma runs_find_signing t id d r d' :
  runs (find_signing t id) d r d' →
  d' = d ∧ (∀ s, r = Some s → db_signing d !! id = Some s ∧ sg_TenantID s = t) ∧
  (r = None → ∀ s, db_signing d !! id = Some s → sg_TenantID s ≠ t).
Proof.
  intros (-> & ->)%runs_query. split; [done|].
  destruct (db_signing d !! id) as [s0|]; [|by split].
  destruct (sg_TenantID s0 =s t) eqn:Et; [apply streq_true in Et|apply streq_false in Et];
    naive_solver.
Qed.
Lemma runs_update_signing t id where_ f d n d' :
  runs (update_signing t id where_ f) d n d' →
  (n = 1 ∧ ∃ s, db_signing d !! id = Some s ∧ sg_TenantID s = t ∧ where_ s = true ∧
     d' = set_signing (<[id := f s]> (db_signing d)) d) ∨ (n = 0 ∧ d' = d).
Proof.
  intros E%runs_exec. cbv beta in E.
  destruct (db_signing d !! id) as [s|]; [|right; by injection E as <- <-].
  destruct (sg_TenantID s =s t) eqn:Et; cbn [andb] in E; [|right; by injection E as <- <-].
  destruct (where_ s) eqn:Ew; [|right; by injection E as <- <-].
  left. injection E as <- <-. apply streq_true in Et. eauto 10.
Qed.
Lemma runs_insert_signing ignore s d n d' :
  runs (insert_signing ignore s) d n d' →
  (n = 1 ∧ db_signing d !! sg_ContractID s = None ∧
     d' = set_signing (<[sg_ContractID s := s]> (db_signing d)) d) ∨ (ignore = true ∧ n = 0 ∧ d' = d).
Proof.
  intros E%runs_exec. cbv beta in E.
  destruct (db_signing d !! sg_ContractID s) eqn:Es; [|left; by injection E as <- <-].
  right. destruct ignore; [by injection E as <- <-|done].
Qed.
Lemma runs_stamp t id d u d' :
  runs (markProjectDeliveryStamped t id) d u d' → ∃ J, d' = set_project J d.
Proof.
  intros Hr. unfold markProjectDeliveryStamped in Hr. inv_tx Hr.
  destruct (newest _) as [r|]; [|inv_tx Hr; by exists (db_project d); destruct d].
  unfold refreshProjectDeliveryStampStatus in Hr. inv_tx Hr. by eexists.
Qed.
Lemma runs_signing_notification t id ty title content key d u d' :
  runs (insertSigningNotification t id ty title content key) d u d' →
  ∃ N, d' = set_notifications N d.
Proof.
  intros Hr. unfold insertSigningNotification in Hr. inv_tx Hr.
  destruct (empty_str _); inv_tx Hr; [|by eexists]. by exists (db_notifications d); destruct d.
Qed.

(** The tables the signing does not write. *)
Definition unsigned (d : DB) :=
  (db_contracts d, db_approvals d, db_actions d, db_tasks d, db_snapshots d, db_lifecycle d,
   db_audit d, db_financial d, db_responsibility d, db_streams d, db_payment d, db_numbers d,
   db_intakes d, db_reviews d, db_links d, db_freezes d, db_receipts d, db_rules d).

(** A body's effect: the other tables stay, and at most one change. *)
Definition signs (d d' : DB) : Prop :=
  unsigned d' = unsigned d ∧
  (sign d' = sign d ∨ signing_change (db_contracts d) (sign d) (sign d')).

Lemma signs_contracts d d' : signs d d' → db_contracts d' = db_contracts d.
Proof. by intros [[= ->] _]. Qed.
Lemma signs_refl d : signs d d.
Proof. split; [done|by left]. Qed.

Lemma upload_signs t u d v d' : runs (upload_body t u) d v d' → signs d d'.
Proof.
  intros Hr. unfold upload_body in Hr.
  apply runs_bind in Hr as (now & d1 & Hn & Hr).
  assert (d1 = d) as -> by (destruct (IsZero _); inv_tx Hn; done).
  apply runs_bind in Hr as (c & d1 & Hc & Hr). apply runs_take_contract in Hc as (Hc & <- & ->).
  apply runs_bind in Hr as (signing & d1 & Hs & Hr).
  apply runs_find_signing in Hs as (-> & Hsome & Hnone).
  apply runs_bind in Hr as (? & d1 & Hp & Hr). inv_tx Hp.
  apply runs_bind in Hr as (n & d1 & Hq & Hr). inv_tx Hq.
  apply runs_bind in Hr as (? & d1 & Hv & Hr). inv_tx Hv. bool_hyps.
  apply runs_bind in Hr as (? & d1 & Hclose & Hr).
  assert (d1 = set_stamped (if 0 <? max_version (stamped_rows (c_TenantID c) (up_ContractID u) d)
    then map (close (c_TenantID c) (up_ContractID u) now (up_UploadedBy u)) (db_stamped d)
    else db_stamped d) d) as ->.
  { destruct (0 <? _); [unfold supersede_current in Hclose|]; inv_tx Hclose; [done|by destruct d]. }
  apply runs_bind in Hr as (? & d1 & Hins & Hr). apply runs_exec in Hins. inv_ok Hins.
  apply insert_unique_ok in Hv0 as [-> _].
  apply runs_bind in Hr as (? & d2 & Hrow & Hr).
  apply runs_bind in Hr as (? & d3 & Hst & Hr). apply runs_stamp in Hst as [J ->].
  inv_tx Hr. unfold validateStampedUploadPolicy in Hp. inv_ok Hp.
  clear Hn Hclose. set (d1 := set_stamped _ (set_stamped _ _)) in Hrow.
  assert (∃ s', d2 = set_signing (<[up_ContractID u := s']> (db_signing d)) d1 ∧
    sg_TenantID s' = c_TenantID c ∧ sg_Status s' = SigningPendingReview ∧ unconfirmed s' ∧
    ∀ s, db_signing d !! up_ContractID u = Some s → sg_Status s = SigningCompleted →
      TrimSpace (up_ReplacementReason u) ≠ "") as (s' & -> & Hs').
  { destruct signing as [s|].
    - destruct (Hsome s eq_refl) as [Es Et]. rewrite bool_decide_true in Hrow, Hp by by eexists.
      inv_tx Hrow. bool_hyps.
      match goal with h : runs _ _ _ _ |- _ =>
        apply runs_update_signing in h as [(_ & s1 & Es1 & _ & _ & ->)|[-> _]] end; [|done].
      change (db_signing d1) with (db_signing d) in *. rewrite Es in Es1. injection Es1 as <-.
      eexists. split_and!; [reflexivity|exact Et|reflexivity|reflexivity|].
      intros s1 Es1 Hc1. rewrite Es in Es1. injection Es1 as <-. cbn in Hp.
      rewrite Hc1, streq_refl in Hp. by apply streq_false in Hp.
    - rewrite bool_decide_false in Hrow by by intros [? ?]. inv_tx Hrow.
      match goal with h : runs _ _ _ _ |- _ =>
        apply runs_insert_signing in h as [(_ & Es & ->)|(? & _)] end; [|done].
      eexists. split_and!; [reflexivity..|]. intros s Es1. cbn in Es. congruence. }
  split; [done|right]. apply streq_false in Hv0.
  eapply sg_upload; [exact Hc|reflexivity|exact Hv|exact Hv0|]. exists s'. by split.
Qed.

Lemma gateway_signs t id version sha f d v d' :
  (∀ r, closing (f r) = closing r) →
  runs (gateway_body t id version sha f) d v d' → signs d d'.
Proof.
  intros Hf Hr. unfold gateway_body in Hr. apply runs_bind in Hr as (n & d1 & Hu & Hr).
  apply runs_exec in Hu. injection Hu as _ <-.
  assert (∀ s, runs (if n =? 1 then mret tt else
      matched ← stampedVersionMatches t id version sha; guard (negb matched) ErrVersionConflict)
      s v d' → d' = s) as Hread.
  { intros s Hs. destruct (n =? 1); inv_tx Hs; [done|].
    match goal with h : runs (stampedVersionMatches _ _ _ _) _ _ _ |- _ =>
      unfold stampedVersionMatches in h; inv_tx h end. done. }
  apply Hread in Hr as ->. split; [done|right].
  apply (sg_gateway _ (sign d) (λ r, if this_version t id version sha r then f r else r)).
  intros r. destruct (this_version _ _ _ _ r); [apply Hf|done].
Qed.

Lemma update_signs t id where_ f d n d' :
  (∀ s, where_ s = true → touched s (f s)) →
  runs (update_signing t id where_ f) d n d' → signs d d'.
Proof.
  intros Hf [(_ & s & Es & _ & Hw & ->)|[_ ->]]%runs_update_signing; [|apply signs_refl].
  split; [done|right]. apply (sg_touch _ (sign d) id s); [exact Es|by apply Hf].
Qed.

Lemma touched_shipment shipment phone now actor s :
  shippable s = true → touched s (signing_set_shipment shipment phone now actor s).
Proof. intros Hs. split_and!; [done|done|right]. by split. Qed.
Lemma touched_same s s' :
  sg_TenantID s' = sg_TenantID s → confirmed_as s' = confirmed_as s →
  sg_Status s' = sg_Status s → touched s s'.
Proof. intros. split_and!; auto. Qed.

(** A statement that does not touch the three tables ends an operation. *)
Lemma signs_then d d1 N : signs d d1 → signs d (set_notifications N d1).
Proof. intros [Hc Hs]. by split. Qed.

Lemma shipment_signs nonce t id actor shipment d v d' :
  runs (shipment_body nonce t id actor shipment) d v d' → signs d d'.
Proof.
  intros Hr. unfold shipment_body in Hr.
  apply runs_bind in Hr as (now & d1 & Hn & Hr). inv_tx Hn.
  apply runs_bind in Hr as (phone & d1 & Hp & Hr). inv_tx Hp.
  apply runs_bind in Hr as (c & d1 & Hc & Hr). apply runs_take_contract in Hc as (Hc & <- & ->).
  apply runs_bind in Hr as (updated & d1 & Hu & Hr).
  apply runs_bind in Hr as (? & d2 & Hi & Hr). apply runs_signing_notification in Hr as [N ->].
  apply signs_then.
  destruct (updated =? 0) eqn:E0; bool_hyps.
  2:{ inv_tx Hi. eapply update_signs in Hu; [exact Hu|]. intros s. apply touched_shipment. }
  apply runs_update_signing in Hu as [[-> _]|[_ ->]]; [done|].
  apply runs_bind in Hi as (existing & d3 & He & Hi).
  apply runs_find_signing in He as (-> & _ & _).
  apply runs_bind in Hi as (? & d3 & Hg & Hi). inv_tx Hg.
  apply runs_bind in Hi as (inserted & d3 & Hins & Hi).
  apply runs_insert_signing in Hins as [(-> & Hnone & ->)|(_ & -> & ->)].
  - change (1 =? 0) with false in Hi. cbv iota in Hi. inv_tx Hi. split; [done|right].
    exact (sg_first _ (sign d) id (first_shipment (c_TenantID c) id shipment phone now actor) c
             Hc eq_refl Hnone eq_refl eq_refl).
  - change (0 =? 0) with true in Hi. cbv iota in Hi. inv_tx Hi.
    match goal with h : runs (update_signing _ _ _ _) _ _ _ |- _ =>
      eapply update_signs in h; [exact h|] end. intros s1. apply touched_shipment.
Qed.

Lemma received_signs t id actor d v d' : runs (received_body t id actor) d v d' → signs d d'.
Proof.
  intros Hr. unfold received_body in Hr. inv_tx Hr.
  apply runs_signing_notification in Hr as [N ->]. apply signs_then.
  match goal with h : runs (update_signing _ _ _ _) _ _ _ |- _ =>
    eapply update_signs in h; [exact h|] end. intros s1 _. by apply touched_same.
Qed.

Lemma reminder_signs t id actor d v d' : runs (reminder_body t id actor) d v d' → signs d d'.
Proof.
  intros Hr. unfold reminder_body in Hr. inv_tx Hr.
  match goal with h : runs (update_signing _ _ _ _) _ _ _ |- _ =>
    eapply update_signs in h; [exact h|] end. intros s1 _. by apply touched_same.
Qed.

Lemma confirm_signs t id actor c d v d' : runs (confirm_body t id actor c) d v d' → signs d d'.
Proof.
  intros Hr. unfold confirm_body in Hr.
  apply runs_bind in Hr as (now & d1 & Hn & Hr). inv_tx Hn.
  apply runs_bind in Hr as (row & d1 & Hc & Hr). apply runs_take_contract in Hc as (Hc & <- & ->).
  apply runs_bind in Hr as (document & d1 & Hdoc & Hr).
  apply runs_take_row, runs_query in Hdoc as [Hdoc ->].
  apply runs_bind in Hr as (? & d1 & Hv & Hr). inv_tx Hv.
  apply runs_bind in Hr as (s & d1 & Hs & Hr).
  apply runs_take_row, runs_find_signing in Hs as (-> & Hs & _).
  destruct (Hs s eq_refl) as [Es Et].
  destruct (sg_Status s =s SigningCompleted); [inv_tx Hr; apply signs_refl|].
  apply runs_bind in Hr as (? & d1 & Hg & Hr). inv_tx Hg. bool_hyps.
  match goal with h : (_ =s _) = true |- _ => apply streq_true in h; rename h into Hrev end.
  apply runs_bind in Hr as (n & d1 & Hu & Hr).
  apply runs_bind in Hr as (? & d2 & Hg & Hr). inv_tx Hg. bool_hyps.
  apply runs_update_signing in Hu as [(_ & s1 & Es1 & _ & _ & ->)|[-> _]]; [|done].
  rewrite Es in Es1. injection Es1 as <-. inv_tx Hr.
  apply runs_signing_notification in Hr as [N ->]. apply signs_then. split; [done|right].
  eapply (sg_confirm _ (sign d) id s c document now actor); [exact Es|exact Hrev| |done..].
  rewrite Et. symmetry. exact Hdoc.
Qed.

(** Every operation of the signing refines the specification. *)
Lemma signing_refines op d r d' : perform_signing op d = (r, d') → signs d d'.
Proof.
  assert (∀ A (m : Tx A) (x : res A) d', (∀ v d', runs m d v d' → signs d d') →
    transaction m d = (x, d') → signs d d') as Htx.
  { intros A m x d1 Hm [->|[a Ha]]%transaction_runs; [apply signs_refl|by eapply Hm]. }
  intros E. destruct op; cbn [perform_signing] in E.
  - unfold SaveStampedDocument, ignore_value in E.
    destruct (transaction _ d) as [x d1] eqn:Ex. injection E as _ <-.
    eapply Htx; [|exact Ex]. intros v d2. apply upload_signs.
  - eapply Htx; [|exact E]. intros v d2. by apply gateway_signs.
  - eapply Htx; [|exact E]. intros v d2. apply gateway_signs. intros r0. by destruct (state =s _).
  - eapply Htx; [|exact E]. intros v d2. apply shipment_signs.
  - eapply Htx; [|exact E]. intros v d2. apply received_signs.
  - eapply Htx; [|exact E]. intros v d2. apply reminder_signs.
  - eapply Htx; [|exact E]. intros v d2. apply confirm_signs.
  - injection E as _ <-. unfold repairSigningPhonePlaintext.
    destruct (repairedPhone _ _ _) as [repaired|]; [|apply signs_refl].
    destruct (transaction _ d) as [x d1] eqn:Ex. eapply Htx; [|exact Ex].
    intros v d2 Hu. eapply update_signs in Hu; [exact Hu|]. intros s _. by apply touched_same.
Qed.

End Blocks.

(** ** The invariant *)

Section Invariant.
Context `{Sha256}.

(** The signing of one contract. *)
Record signed_ok (y : Sign) (t id : string) : Prop := {
  (** the versions are 1, 2, ... in the order of the uploads, ... *)
  so_versions : map sd_Version (rows_of t id y) = seqZ 1 (Z.of_nat (length (rows_of t id y)));
  (** each with the hash of its document, and all but the last superseded; *)
  so_rows : ∀ r, r ∈ rows_of t id y →
    sd_ContentSHA256 r = sha256_hex (sd_Document r) ∧
    (sd_SupersededAt r = None ↔ sd_Version r = Z.of_nat (length (rows_of t id y)));
  (** a recorded confirmation is of a version, with its hash; *)
  so_history : ∀ f, f ∈ y_confirmations y → sc_TenantID f = t → sc_ContractID f = id →
    ∃ r, r ∈ rows_of t id y ∧ sd_Version r = sc_DocumentVersion f ∧
      sd_ContentSHA256 r = sc_ContentSHA256 f;
  (** the signing waits for the return before the first upload, for the review
      after an upload, and is completed only for the latest version. *)
  so_signing : match y_signing y !! id with
    | None => rows_of t id y = []
    | Some s => sg_TenantID s = t ∧
        ((sg_Status s = SigningInReturn ∧ rows_of t id y = [] ∧ unconfirmed s) ∨
         (sg_Status s = SigningPendingReview ∧ rows_of t id y ≠ [] ∧ unconfirmed s) ∨
         (sg_Status s = SigningCompleted ∧ ∃ r f, latest (rows_of t id y) = Some r ∧
            sg_ConfirmedDocumentVersion s = Some (sd_Version r) ∧
            sg_ConfirmedContentSHA256 s = Some (sd_ContentSHA256 r) ∧
            f ∈ y_confirmations y ∧ sc_TenantID f = t ∧ sc_ContractID f = id ∧
            sc_DocumentVersion f = sd_Version r))
    end
}.

Record sign_sound (contracts : gmap string contractRecord) (y : Sign) : Prop := {
  ss_contract : ∀ id c, contracts !! id = Some c → signed_ok y (c_TenantID c) id;
  ss_stamped : ∀ r, r ∈ y_stamped y → is_Some (contracts !! sd_ContractID r);
  ss_signing : ∀ id s, y_signing y !! id = Some s → is_Some (contracts !! id);
  ss_confirmed : ∀ f, f ∈ y_confirmations y → is_Some (contracts !! sc_ContractID f)
}.

(** Lemmas about rows. *)
Lemma max_version_eq rows n :
  0 ≤ n → (∀ r, r ∈ rows → sd_Version r ≤ n) → (n = 0 ∨ ∃ r, r ∈ rows ∧ sd_Version r = n) →
  max_version rows = n.
Proof.
  intros Hn Hle Hex. assert (0 ≤ max_version rows ≤ n ∧ ∀ r, r ∈ rows → sd_Version r ≤ max_version rows)
    as [? Hge].
  { clear Hex. induction rows as [|r rows IH]; [cbn; split; [lia|set_solver]|]. cbn [max_version foldr].
    fold (max_version rows). destruct IH as [IH1 IH2]; [set_solver|].
    pose proof (Hle r ltac:(set_solver)). split; [lia|].
    intros r' [->|Hr']%elem_of_cons; [lia|]. specialize (IH2 r' Hr'). lia. }
  destruct Hex as [->|(r & Hr & <-)]; [lia|]. specialize (Hge r Hr). lia.
Qed.

Lemma max_version_rows y t id : signed_ok y t id → max_version (rows_of t id y) = Z.of_nat (length (rows_of t id y)).
Proof.
  intros [Hv _ _ _]. set (rows := rows_of t id y) in *.
  assert (∀ v, v ∈ map sd_Version rows ↔ 1 ≤ v < 1 + Z.of_nat (length rows)) as Hin
    by (intros v; rewrite Hv; apply elem_of_seqZ).
  apply max_version_eq; [lia| |].
  - intros r Hr. assert (sd_Version r ∈ map sd_Version rows) as Hm by by apply list_elem_of_fmap_2.
    apply Hin in Hm. lia.
  - destruct (decide (length rows = 0)%nat) as [E|E]; [left; lia|right].
    assert (Z.of_nat (length rows) ∈ map sd_Version rows) as (r & E' & Hr)%list_elem_of_fmap
      by (apply Hin; lia).
    by exists r.
Qed.

Lemma latest_map g rows :
  (∀ r, sd_Version (g r) = sd_Version r) → latest (map g rows) = g <$> latest rows.
Proof.
  intros Hg. induction rows as [|r rows IH]; [done|]. cbn [map latest]. rewrite IH.
  destruct (latest rows) as [best|]; [|done]. cbn. rewrite !Hg. by destruct (_ <? _).
Qed.
Lemma latest_elem rows r : latest rows = Some r → r ∈ rows.
Proof.
  revert r. induction rows as [|r0 rows IH]; [done|]. cbn [latest]. intros r.
  destruct (latest rows) as [best|]; [destruct (_ <? _)|]; intros [= <-]; set_solver.
Qed.

Lemma filter_map_same {A} (P : A → bool) (g : A → A) l :
  (∀ x, P (g x) = P x) → filter (λ x, P x = true) (map g l) = map g (filter (λ x, P x = true) l).
Proof.
  intros Hg. induction l as [|x l IH]; [done|]. cbn [map]. rewrite !filter_cons, IH, Hg.
  by destruct (P x); repeat case_decide.
Qed.
Lemma filter_map_off {A} (P : A → bool) (g : A → A) l :
  (∀ x, P (g x) = P x) → (∀ x, P x = true → g x = x) →
  filter (λ x, P x = true) (map g l) = filter (λ x, P x = true) l.
Proof.
  intros Hg Hx. rewrite filter_map_same by done. 
  induction l as [|x l IH]; [done|]. rewrite !filter_cons. destruct (P x) eqn:E.
  - rewrite decide_True by done. cbn [map]. by rewrite IH, Hx.
  - by rewrite decide_False.
Qed.

Lemma stamped_of_close t id t0 id0 now actor r :
  stamped_of t id (close t0 id0 now actor r) = stamped_of t id r.
Proof. unfold close. by destruct (_ && _). Qed.

Lemma stamped_of_other t id t0 id0 r :
  id ≠ id0 → stamped_of t id r = true → stamped_of t0 id0 r = false.
Proof.
  unfold stamped_of. intros Hne Hs. bool_hyps.
  repeat match goal with h : (_ =s _) = true |- _ => apply streq_true in h end. subst.
  apply andb_false_iff. right. by apply streq_false.
Qed.

(** A contract that a change does not concern. *)
Lemma signed_ok_same y y' t id :
  rows_of t id y' = rows_of t id y → y_signing y' !! id = y_signing y !! id →
  (∀ f, sc_ContractID f = id → f ∈ y_confirmations y' ↔ f ∈ y_confirmations y) →
  signed_ok y t id → signed_ok y' t id.
Proof.
  intros Hr Hs Hf [H1 H2 H3 H4]. constructor; rewrite ?Hr, ?Hs; [done|done| |].
  - intros f Hin. intros Ht Hid. apply H3; [by apply Hf|done..].
  - destruct (y_signing y !! id) as [s|]; [|done]. destruct H4 as [Ht H4]. split; [done|].
    destruct H4 as [?|[?|(? & r & f & ? & ? & ? & ? & ? & ? & ?)]]; [by left|by right; left|].
    right; right. split; [done|]. exists r, f. split_and!; try done. by apply Hf.
Qed.

Lemma insert_ignore_elem {R} (same : R → R → bool) r rows x :
  x ∈ insert_ignore same r rows → x = r ∨ x ∈ rows.
Proof. unfold insert_ignore. destruct (existsb _ _); set_solver. Qed.
Lemma insert_ignore_old {R} (same : R → R → bool) r rows x :
  x ∈ rows → x ∈ insert_ignore same r rows.
Proof. unfold insert_ignore. destruct (existsb _ _); set_solver. Qed.
Lemma insert_ignore_new {R} (same : R → R → bool) r rows :
  ∃ x, x ∈ insert_ignore same r rows ∧ (x = r ∨ same r x = true).
Proof.
  unfold insert_ignore. destruct (existsb (same r) rows) eqn:E.
  - apply existsb_exists in E as (x & Hx & Hs). exists x. rewrite list_elem_of_In. auto.
  - exists r. set_solver.
Qed.

Lemma rows_of_gateway t id g y :
  (∀ r, closing (g r) = closing r) →
  rows_of t id (mkSign (map g (y_stamped y)) (y_signing y) (y_confirmations y)) =
    map g (rows_of t id y).
Proof.
  intros Hg. apply filter_map_same. intros r. specialize (Hg r). unfold stamped_of.
  injection Hg as E1 E2 _ _ _ _ _ _ _ _. by rewrite E1, E2.
Qed.

Lemma signed_ok_gateway t id g y :
  (∀ r, closing (g r) = closing r) → signed_ok y t id →
  signed_ok (mkSign (map g (y_stamped y)) (y_signing y) (y_confirmations y)) t id.
Proof.
  intros Hg [H1 H2 H3 H4].
  assert (∀ r, sd_Version (g r) = sd_Version r ∧ sd_ContentSHA256 (g r) = sd_ContentSHA256 r ∧
    sd_Document (g r) = sd_Document r ∧ sd_SupersededAt (g r) = sd_SupersededAt r) as Hf.
  { intros r. specialize (Hg r). by injection Hg as _ _ _ E4 E5 E6 _ _ E9 _. }
  constructor; rewrite rows_of_gateway by done; rewrite ?length_map; cbn [y_signing y_confirmations].
  - rewrite <- H1, map_map. apply map_ext. intros r. apply Hf.
  - intros r' (r & -> & Hr)%list_elem_of_fmap. destruct (Hf r) as (-> & -> & -> & ->). by apply H2.
  - intros f Hin Ht Hid. destruct (H3 f Hin Ht Hid) as (r & Hr & Hv & Hh). exists (g r).
    destruct (Hf r) as (-> & -> & _). split_and!; [by apply list_elem_of_fmap_2|done..].
  - destruct (y_signing y !! id) as [s|]; [|by rewrite H4].
    destruct H4 as [Ht H4]. split; [done|].
    destruct H4 as [(? & -> & ?)|[(? & Hne & ?)|(? & r & f & Hl & ? & ? & ? & ? & ? & ?)]].
    + by left.
    + right; left. split_and!; [done| |done]. by destruct (rows_of t id y).
    + right; right. split; [done|]. exists (g r), f.
      rewrite latest_map, Hl by (intros; apply Hf). destruct (Hf r) as (-> & -> & _). done.
Qed.

Lemma signed_ok_touch t id k s s' y :
  y_signing y !! k = Some s → touched s s' → signed_ok y t id →
  signed_ok (mkSign (y_stamped y) (<[k := s']> (y_signing y)) (y_confirmations y)) t id.
Proof.
  intros Hs (Ht & Hc & Hst) Hok. destruct (decide (k = id)) as [->|Hne].
  2:{ eapply signed_ok_same; [..|exact Hok]; [done| |done]. cbn. by apply lookup_insert_ne. }
  destruct Hok as [H1 H2 H3 H4]. constructor; [done..|]. cbn [y_signing].
  rewrite lookup_insert_eq. rewrite Hs in H4. destruct H4 as [Ht4 H4]. split; [congruence|].
  change (rows_of t id (mkSign _ _ _)) with (rows_of t id y).
  assert (∀ x, sg_Status s = x → shippable s = false ∨ x = SigningInReturn → sg_Status s' = x) as Hx.
  { intros x Hx Hor. destruct Hst as [E|[Hsh E]]; [congruence|].
    destruct Hor as [Hf| ->]; congruence. }
  assert (unconfirmed s → unconfirmed s') as Hun by (unfold unconfirmed; congruence).
  destruct H4 as [(E & Hr & Hu)|[(E & Hr & Hu)|(E & r & f & Hl & Ev & Eh & ? & ? & ? & ?)]].
  - left. split_and!; auto.
  - right; left. split_and!; auto. apply Hx; [done|left]. unfold shippable. by rewrite E.
  - right; right. split; [apply Hx; [done|left]; unfold shippable; by rewrite E|].
    exists r, f. injection Hc as _ _ Ecv Ech _ _. split_and!; try done; congruence.
Qed.

Lemma close_fields t id now actor r :
  evidence (close t id now actor r) = evidence r ∧
  (stamped_of t id r = true → sd_SupersededAt (close t id now actor r) ≠ None).
Proof.
  unfold close. split; [by destruct (_ && _)|]. intros ->. cbn [andb].
  destruct (sd_SupersededAt r) eqn:E.
  - rewrite bool_decide_false by done. by rewrite E.
  - by rewrite bool_decide_true.
Qed.

(** The tables after an upload. *)
Definition uploaded (t : string) (u : StampedDocumentUpload) (n : Z) (now : Time)
    (stamped : list stampedDocumentRecord) : list stampedDocumentRecord :=
  (if 0 <? n then map (close t (up_ContractID u) now (up_UploadedBy u)) stamped else stamped) ++
  [mkStamped (up_ContractID u) t (up_OriginalFilename u) (sha256_hex (up_Document u)) (n + 1)
     (up_Document u) now (up_UploadedBy u) "" "DISABLED" "" None None].

Lemma rows_of_uploaded t u n now y S C :
  let y' := mkSign (uploaded t u n now (y_stamped y)) S C in
  rows_of t (up_ContractID u) y' =
    (if 0 <? n then map (close t (up_ContractID u) now (up_UploadedBy u))
                      (rows_of t (up_ContractID u) y)
     else rows_of t (up_ContractID u) y) ++
    [mkStamped (up_ContractID u) t (up_OriginalFilename u) (sha256_hex (up_Document u)) (n + 1)
       (up_Document u) now (up_UploadedBy u) "" "DISABLED" "" None None] ∧
  ∀ t1 id1, id1 ≠ up_ContractID u → rows_of t1 id1 y' = rows_of t1 id1 y.
Proof.
  cbv zeta. unfold rows_of, uploaded. cbn [y_stamped]. split.
  - rewrite filter_app. f_equal.
    + destruct (0 <? n); [|done]. apply filter_map_same. intros r. apply stamped_of_close.
    + rewrite filter_cons_True; [done|]. unfold stamped_of. cbn. by rewrite !streq_refl.
  - intros t1 id1 Hne. rewrite filter_app. rewrite filter_cons_False.
    2:{ unfold stamped_of. cbn. rewrite andb_true_iff, !streq_true. naive_solver. }
    rewrite filter_nil, app_nil_r. destruct (0 <? n); [|done].
    apply filter_map_off; intros r; [apply stamped_of_close|]. intros Hr. unfold close.
    by rewrite (stamped_of_other _ _ _ _ _ Hne Hr).
Qed.

Lemma signed_ok_upload t u now y S s' :
  signed_ok y t (up_ContractID u) → S !! up_ContractID u = Some s' → sg_TenantID s' = t →
  sg_Status s' = SigningPendingReview → unconfirmed s' →
  signed_ok (mkSign (uploaded t u (max_version (rows_of t (up_ContractID u) y)) now (y_stamped y))
               S (y_confirmations y)) t (up_ContractID u).
Proof.
  intros Hok Hs Ht Hst Hun. rewrite (max_version_rows _ _ _ Hok). destruct Hok as [H1 H2 H3 _].
  set (rows := rows_of t (up_ContractID u) y) in *. set (n := Z.of_nat (length rows)).
  destruct (rows_of_uploaded t u n now y S (y_confirmations y)) as [Hrows _]. fold rows in Hrows.
  set (g := close t (up_ContractID u) now (up_UploadedBy u)) in *.
  assert ((if 0 <? n then map g rows else rows) = map g rows) as Eg.
  { destruct (0 <? n) eqn:E; [done|]. bool_hyps. by destruct rows. }
  rewrite Eg in Hrows.
  assert (∀ r, r ∈ rows → stamped_of t (up_ContractID u) r = true) as Hof
    by (intros r [? ?]%list_elem_of_filter; done).
  assert (∀ r, sd_Version (g r) = sd_Version r ∧ sd_ContentSHA256 (g r) = sd_ContentSHA256 r ∧
    sd_Document (g r) = sd_Document r) as Hg.
  { intros r. destruct (close_fields t (up_ContractID u) now (up_UploadedBy u) r) as [E _].
    fold g in E. by injection E as _ _ _ E4 E5 E6 _ _. }
  constructor; rewrite ?Hrows; cbn [y_signing y_confirmations].
  - rewrite map_app, length_app, length_map. cbn [map length sd_Version].
    rewrite map_map, (map_ext _ sd_Version) by (intros; apply Hg). rewrite H1. fold n.
    rewrite Nat2Z.inj_add. fold n. rewrite seqZ_app by lia. f_equal.
    rewrite seqZ_cons, seqZ_nil by lia. f_equal. lia.
  - intros r' [(r & -> & Hr)%list_elem_of_fmap| ->%list_elem_of_singleton]%elem_of_app;
      rewrite length_app, length_map; cbn [length sd_Version sd_ContentSHA256 sd_Document sd_SupersededAt].
    + destruct (Hg r) as (-> & -> & ->). destruct (H2 r Hr) as [Hh _]. split; [done|].
      assert (sd_Version r ∈ map sd_Version rows) as Hin by by apply list_elem_of_fmap_2.
      rewrite H1, elem_of_seqZ in Hin.
      split; intros E; [|exfalso; lia]. by apply close_fields in E; [|apply Hof].
    + split; [done|]. split; [intros _; lia|done].
  - intros f Hin Hft Hfid. destruct (H3 f Hin Hft Hfid) as (r & Hr & Hv & Hh). exists (g r).
    destruct (Hg r) as (-> & -> & _). split_and!; [|done..].
    apply elem_of_app. left. by apply list_elem_of_fmap_2.
  - rewrite Hs. split; [done|]. right; left. split_and!; [done| |done]. by destruct (map g rows).
Qed.

Lemma signed_ok_confirm t id s c document now actor f y :
  signed_ok y t id → y_signing y !! id = Some s → sg_Status s = SigningPendingReview →
  latest (rows_of t id y) = Some document → sc_TenantID f = t → sc_ContractID f = id →
  sc_DocumentVersion f = sd_Version document → sc_ContentSHA256 f = sd_ContentSHA256 document →
  signed_ok (mkSign (y_stamped y) (<[id := signing_set_completed c document now actor s]> (y_signing y))
               (insert_ignore same_confirmation f (y_confirmations y))) t id.
Proof.
  intros [H1 H2 H3 H4] Hs Hst Hl Hft Hfid Hfv Hfh. rewrite Hs in H4. destruct H4 as [Ht _].
  constructor; [done|done| |].
  - intros x [->|Hx]%insert_ignore_elem; [|by apply H3]. intros _ _. exists document.
    split_and!; [by apply latest_elem|done..].
  - cbn [y_signing y_confirmations]. rewrite lookup_insert_eq. split; [done|]. right; right.
    split; [done|].
    destruct (insert_ignore_new same_confirmation f (y_confirmations y)) as (x & Hx & Hor).
    exists document, x. split_and!; [done..|exact Hx| | |]; destruct Hor as [->|Hsame]; try done;
      unfold same_confirmation in Hsame; bool_hyps;
      repeat match goal with h : (_ =s _) = true |- _ => apply streq_true in h end; congruence.
Qed.

(** The invariant is kept by every change ... *)
Lemma sign_sound_change contracts y y' :
  signing_change contracts y y' → sign_sound contracts y → sign_sound contracts y'.
Proof.
  intros Hch [S1 S2 S3 S4]. destruct Hch as
    [t u now c S id n Hc <- Hv Har (s' & -> & Ht & Hst & Hun & _)|g Hg|id s c Hc Ht Hnone Hst Hun
    |id s s' Hs Htc|id s c document now actor f Hs Hst Hl Hft Hfid Hfv Hfh].
  - fold (uploaded (c_TenantID c) u n now (y_stamped y)).
    destruct (rows_of_uploaded (c_TenantID c) u n now y (<[id := s']> (y_signing y))
                (y_confirmations y)) as [_ Hother].
    constructor; cbn [y_stamped y_signing y_confirmations].
    + intros id1 c1 Hc1. destruct (decide (id1 = id)) as [->|Hne].
      * rewrite Hc in Hc1. injection Hc1 as <-. apply (signed_ok_upload _ _ _ _ _ s');
          [by apply S1|apply lookup_insert_eq|done..].
      * eapply signed_ok_same; [by apply Hother|cbn; by apply lookup_insert_ne|done|by apply S1].
    + intros r [Hr| ->%list_elem_of_singleton]%elem_of_app; [|by eexists].
      destruct (0 <? n); [|by apply S2]. apply list_elem_of_fmap in Hr as (r0 & -> & Hr).
      destruct (close_fields (c_TenantID c) id now (up_UploadedBy u) r0) as [E _].
      injection E as -> _ _ _ _ _ _ _. by apply S2.
    + intros id1 s1. destruct (decide (id1 = id)) as [->|Hne]; [by eexists|].
      rewrite lookup_insert_ne by done. apply S3.
    + done.
  - constructor; cbn [y_stamped y_signing y_confirmations]; [|..|done|done].
    + intros id c Hc. apply signed_ok_gateway; [done|by apply S1].
    + intros r (r0 & -> & Hr)%list_elem_of_fmap. specialize (Hg r0). injection Hg as -> _ _ _ _ _ _ _ _ _.
      by apply S2.
  - constructor; cbn [y_stamped y_signing y_confirmations]; [|done| |done].
    + intros id1 c1 Hc1. specialize (S1 _ _ Hc1). destruct (decide (id1 = id)) as [->|Hne].
      * rewrite Hc in Hc1. injection Hc1 as <-. destruct S1 as [H1 H2 H3 H4]. constructor; [done..|].
        cbn [y_signing]. rewrite lookup_insert_eq. rewrite Hnone in H4. split; [done|]. by left.
      * eapply signed_ok_same; [..|exact S1]; [done|cbn; by apply lookup_insert_ne|done].
    + intros id1 s1. destruct (decide (id1 = id)) as [->|Hne]; [by eexists|].
      rewrite lookup_insert_ne by done. apply S3.
  - constructor; cbn [y_stamped y_signing y_confirmations]; [|done| |done].
    + intros id1 c1 Hc1. eapply signed_ok_touch; [exact Hs|done|by apply S1].
    + intros id1 s1. destruct (decide (id1 = id)) as [->|Hne]; [intros _; by eapply S3|].
      rewrite lookup_insert_ne by done. apply S3.
  - constructor; cbn [y_stamped y_signing y_confirmations]; [|done| |].
    + intros id1 c1 Hc1. pose proof (S1 _ _ Hc1) as Hok. destruct (decide (id1 = id)) as [->|Hne].
      * destruct Hok as [A1 A2 A3 A4]. pose proof A4 as A5. rewrite Hs in A5. destruct A5 as [Ht _].
        eapply signed_ok_confirm; [by constructor|exact Hs|done|by rewrite <- Ht|congruence|done..].
      * eapply signed_ok_same; [..|exact Hok]; [done|cbn; by apply lookup_insert_ne|].
        intros x Hx. cbn. split; [|apply insert_ignore_old].
        intros [->|?]%insert_ignore_elem; [congruence|done].
    + intros id1 s1. destruct (decide (id1 = id)) as [->|Hne]; [intros _; by eapply S3|].
      rewrite lookup_insert_ne by done. apply S3.
    + intros x [->|Hx]%insert_ignore_elem; [rewrite Hfid; by eapply S3|by apply S4].
Qed.

(** ... and by the operations on contracts, which keep every contract and its
    tenant. *)
Lemma sign_sound_contracts contracts contracts' y :
  (∀ id c, contracts !! id = Some c →
     ∃ c', contracts' !! id = Some c' ∧ c_TenantID c' = c_TenantID c) →
  sign_sound contracts y → sign_sound contracts' y.
Proof.
  intros Hstay [S1 S2 S3 S4].
  assert (∀ id, is_Some (contracts !! id) → is_Some (contracts' !! id)) as Hsome.
  { intros id [c Hc]. destruct (Hstay _ _ Hc) as (c' & Hc' & _). by eexists. }
  constructor; [|by intros; apply Hsome, S2|by intros id s ?; apply Hsome, (S3 _ s)
                |by intros; apply Hsome, S4].
  intros id c' Hc'. destruct (contracts !! id) as [c|] eqn:Hc.
  - destruct (Hstay _ _ Hc) as (c1 & Hc1 & Ht). rewrite Hc' in Hc1. injection Hc1 as <-.
    rewrite Ht. by apply S1.
  - assert (rows_of (c_TenantID c') id y = []) as Hr.
    { apply filter_none, Forall_forall. intros r Hin Hof. unfold stamped_of in Hof.
      bool_hyps. apply S2 in Hin as [c Hin].
      match goal with h : (sd_ContractID r =s id) = true |- _ => apply streq_true in h end. congruence. }
    assert (y_signing y !! id = None) as Hs.
    { destruct (y_signing y !! id) eqn:Es; [|done]. apply S3 in Es as [c ?]. congruence. }
    constructor; rewrite ?Hr, ?Hs; [done|set_solver| |done].
    intros f Hf _ Hid. apply S4 in Hf as [c Hf]. congruence.
Qed.

End Invariant.

(** ** Properties *)

Lemma change_stays `{GoUnicode} `{Collation} x y id c :
  change x y → x_contracts x !! id = Some c →
  ∃ c', x_contracts y !! id = Some c' ∧ c_TenantID c' = c_TenantID c.
Proof.
  intros Hch Hc. assert (∀ k c0 c1, x_contracts x !! k = Some c0 → c_TenantID c1 = c_TenantID c0 →
    ∃ c', <[k := c1]> (x_contracts x) !! id = Some c' ∧ c_TenantID c' = c_TenantID c) as Hput.
  { intros k c0 c1 Hk Ht. destruct (decide (k = id)) as [->|Hne].
    - rewrite lookup_insert_eq. exists c1. split; [done|congruence].
    - rewrite lookup_insert_ne by done. by exists c. }
  destruct Hch; cbn [x_contracts]; try (by eexists); try (by eapply Hput).
  - destruct (decide (k_ID k = id)) as [E|Hne]; [congruence|].
    rewrite lookup_insert_ne by done. by exists c.
  - eapply Hput; [done|]. unfold c'. cbn.
    match goal with h : numbered _ _ _ _ _ _ |- _ => by destruct h end.
Qed.

Section Properties.
Context `{GoUnicode} `{Sha256} `{TzDatabase} `{Collation} `{Documents} `{Aead} `{PhoneKeyEnv}.

Lemma changes_stay x y id c :
  rtc change x y → x_contracts x !! id = Some c →
  ∃ c', x_contracts y !! id = Some c' ∧ c_TenantID c' = c_TenantID c.
Proof.
  intros Hr. revert c. induction Hr as [x|x y z Hxy _ IH]; intros c Hc; [by exists c|].
  destruct (change_stays _ _ _ _ Hxy Hc) as (c1 & Hc1 & Ht).
  destruct (IH _ Hc1) as (c2 & Hc2 & Ht2). exists c2. split; [done|congruence].
Qed.

Definition any_sound (d : DB) : Prop :=
  keyed (core d) ∧ sign_sound (db_contracts d) (sign d).

Lemma invoke_any_sound c d : any_typed c → any_sound d → any_sound (invoke_any c d).2.
Proof.
  intros Ht [Hk Hs]. destruct c as [c|oracle op]; cbn [invoke_any any_typed] in *.
  - destruct (invoke c d) as [r d'] eqn:E. cbn [snd].
    assert (sign d' = sign d) as Es.
    { change d' with (r, d').2. rewrite <- E. by apply (invoke_keeps sign). }
    assert (rtc change (core d) (core d')) as Hstep by by eapply perform_refines.
    split; [by eapply (rtc_change_keeps keyed); [apply keyed_change|exact Hstep|]|].
    rewrite Es. eapply sign_sound_contracts; [|exact Hs]. intros id c0. by apply (changes_stay (core d) (core d')).
  - destruct (perform_signing op d) as [r d'] eqn:E. cbn [snd].
    apply signing_refines in E. pose proof (signs_contracts _ _ E) as Ec.
    destruct E as [_ Hs']. split; [unfold keyed; cbn; by rewrite Ec|].
    rewrite Ec. destruct Hs' as [->|Hch]; [done|]. by eapply sign_sound_change.
Qed.

Lemma execute_any_sound calls d : Forall any_typed calls → any_sound d → any_sound (execute_any calls d).
Proof.
  intros Hf. revert d. induction Hf as [|c calls Hc _ IH]; intros d Hd; [done|].
  apply IH, invoke_any_sound; done.
Qed.

Lemma new_tables_any_sound numbers : any_sound (new_tables numbers).
Proof. split; [by intros id c|]. constructor; cbn; intros; try done; set_solver. Qed.

(** C30: The signing of every contract is consistent, however shipments, uploads,
    confirmations, gateway results and all operations on contracts and
    approvals are interleaved and whatever fails: the stamped versions are 1 to
    n, each with the hash of its document and all but the last superseded; a
    completed signing is bound to version n and to its hash and has a recorded
    confirmation, and a later upload reopens it. *)
Theorem signing_consistent numbers calls id c :
  Forall any_typed calls →
  let d := execute_any calls (new_tables numbers) in
  db_contracts d !! id = Some c → signed_ok (sign d) (c_TenantID c) id.
Proof.
  intros Ht d Hc.
  destruct (execute_any_sound calls _ Ht (new_tables_any_sound numbers)) as [_ Hs].
  by apply (ss_contract _ _ Hs).
Qed.

Definition kept (y y' : Sign) : Prop :=
  (∀ r, r ∈ y_stamped y → ∃ r', r' ∈ y_stamped y' ∧ evidence r' = evidence r ∧
     (sd_SupersededAt r ≠ None → closing r' = closing r)) ∧
  y_confirmations y `prefix_of` y_confirmations y'.

Lemma kept_refl y : kept y y.
Proof. split; [|done]. intros r Hr. by exists r. Qed.
Lemma kept_trans y1 y2 y3 : kept y1 y2 → kept y2 y3 → kept y1 y3.
Proof.
  intros [A1 A2] [B1 B2]. split; [|by etrans]. intros r Hr.
  destruct (A1 r Hr) as (r2 & Hr2 & E2 & C2). destruct (B1 r2 Hr2) as (r3 & Hr3 & E3 & C3).
  exists r3. split_and!; [done|congruence|]. intros Hs. specialize (C2 Hs).
  rewrite C3; [done|]. injection C2 as _ _ _ _ _ _ _ _ -> _. done.
Qed.

Lemma kept_change contracts y y' : signing_change contracts y y' → kept y y'.
Proof.
  intros Hch. destruct Hch as [t u now c S id n Hc <- _ _ _|g Hg| | |id s c document now actor f];
    split; cbn [y_stamped y_confirmations]; try done; try (intros r Hr; by exists r).
  - intros r Hr. exists (if 0 <? n then close (c_TenantID c) id now (up_UploadedBy u) r else r).
    split_and!.
    + apply elem_of_app. left. destruct (0 <? n); [by apply list_elem_of_fmap_2|done].
    + destruct (0 <? n); [apply close_fields|done].
    + intros Hs. destruct (0 <? n); [|done]. unfold close.
      by rewrite bool_decide_false, andb_false_r.
  - intros r Hr. exists (g r). split_and!; [by apply list_elem_of_fmap_2| |intros _; apply Hg].
    specialize (Hg r). unfold closing in Hg. congruence.
  - unfold insert_ignore. destruct (existsb _ _); [done|]. by apply prefix_app_r.
Qed.

(** What has been signed is never rewritten: every stored version keeps its
    file, hash and uploader for good, a superseded version stays superseded as
    it was, and no confirmation is changed or removed. *)
Theorem signed_evidence_kept calls d r :
  r ∈ db_stamped d →
  let d' := execute_any calls d in
  (∃ r', r' ∈ db_stamped d' ∧ evidence r' = evidence r ∧
     (sd_SupersededAt r ≠ None → closing r' = closing r)) ∧
  db_confirmations d `prefix_of` db_confirmations d'.
Proof.
  intros Hr d'. enough (kept (sign d) (sign d')) as [Hk Hp] by (split; [by apply Hk|done]).
  unfold d'. clear. revert d. induction calls as [|c calls IH]; intros d; [apply kept_refl|].
  cbn [execute_any foldl]. eapply kept_trans; [|apply IH]. destruct c as [c|oracle op]; cbn.
  - rewrite (invoke_keeps sign) by done. apply kept_refl.
  - destruct (perform_signing op d) as [x d1] eqn:E. cbn [snd].
    destruct (signing_refines _ _ _ _ E) as [_ [->|Hch]]; [apply kept_refl|].
    by eapply kept_change.
Qed.

(** A confirmation that took effect names the latest version and its hash: an
    upload between the review and the confirmation makes it fail.  It completes
    the signing with exactly this version, or finds it completed with it. *)
Theorem confirmation_binds_version oracle t id actor c d r d' :
  invoke_any (Signing oracle (SgConfirm t id actor c)) d = (r, d') →
  r = Ok tt ∨ d' ≠ d →
  ∃ document s, latest (stamped_rows t id d) = Some document ∧
    cf_DocumentVersion c = sd_Version document ∧
    EqualFold (TrimSpace (cf_ContentSHA256 c)) (sd_ContentSHA256 document) = true ∧
    db_signing d !! id = Some s ∧ sg_TenantID s = t ∧
    ((d' = d ∧ sg_Status s = SigningCompleted ∧
      uintValueOrZero (sg_ConfirmedDocumentVersion s) = sd_Version document) ∨
     (sg_Status s = SigningPendingReview ∧ ∃ now,
      db_signing d' = <[id := signing_set_completed c document now actor s]> (db_signing d) ∧
      db_stamped d' = db_stamped d)).
Proof.
  cbn [invoke_any perform_signing]. intros E Hor.
  apply transaction_effective in E as [v Hr]; [|destruct Hor as [->|]; eauto].
  unfold confirm_body in Hr.
  apply runs_bind in Hr as (now & d1 & Hn & Hr). inv_tx Hn.
  apply runs_bind in Hr as (row & d1 & Hc & Hr). apply runs_take_contract in Hc as (Hc & _ & ->).
  apply runs_bind in Hr as (document & d1 & Hdoc & Hr).
  apply runs_take_row, runs_query in Hdoc as [Hdoc ->].
  apply runs_bind in Hr as (? & d1 & Hv & Hr). inv_tx Hv. bool_hyps.
  apply runs_bind in Hr as (s & d1 & Hs & Hr).
  apply runs_take_row, runs_find_signing in Hs as (-> & Hs & _).
  destruct (Hs s eq_refl) as [Es Et]. exists document, s. split_and!; try done.
  destruct (sg_Status s =s SigningCompleted) eqn:Est; [apply streq_true in Est|].
  { inv_tx Hr. bool_hyps. left. by split_and!. }
  right. apply runs_bind in Hr as (? & d1 & Hg & Hr). inv_tx Hg. bool_hyps.
  match goal with h : (_ =s _) = true |- _ => apply streq_true in h end. split; [done|].
  apply runs_bind in Hr as (n & d1 & Hu & Hr).
  apply runs_bind in Hr as (? & d2 & Hone & Hr). inv_tx Hone. bool_hyps.
  apply runs_update_signing in Hu as [(_ & s1 & Es1 & _ & _ & ->)|[-> _]]; [|done].
  rewrite Es in Es1. injection Es1 as <-. inv_tx Hr.
  apply runs_signing_notification in Hr as [N ->]. by exists now.
Qed.

(** A second shipment keeps the receipt of the first: the signing row then says
    that the customer received a parcel before it was mailed, and the receipt of
    the second parcel is refused. *)
Lemma reshipment_keeps_receipt oracle1 oracle2 nonce t id actor1 actor2 shipment d s received d1 :
  db_signing d !! id = Some s → sg_TenantID s = t → sg_Status s = SigningInReturn →
  sg_CustomerReceivedAt s = Some received →
  invoke_any (Signing oracle1 (SgShip nonce t id actor1 shipment)) d = (Ok tt, d1) →
  (∃ s1, db_signing d1 !! id = Some s1 ∧ sg_Status s1 = SigningInReturn ∧
     sg_MailedAt s1 = Some (sh_MailedAt shipment) ∧ sg_CustomerReceivedAt s1 = Some received) ∧
  ∃ e, invoke_any (Signing oracle2 (SgReceive t id actor2)) d1 = (Err e, d1).
Proof.
  intros Hs Ht Hst Hrec E. cbn [invoke_any perform_signing] in *.
  assert (∃ s1, db_signing d1 !! id = Some s1 ∧ sg_Status s1 = SigningInReturn ∧
     sg_MailedAt s1 = Some (sh_MailedAt shipment) ∧ sg_CustomerReceivedAt s1 = Some received) as Hs1.
  { apply transaction_effective in E as [v Hr]; [|eauto]. unfold shipment_body in Hr.
    apply runs_bind in Hr as (now & d2 & Hn & Hr). inv_tx Hn.
    apply runs_bind in Hr as (phone & d2 & Hp & Hr). inv_tx Hp.
    apply runs_bind in Hr as (c & d2 & Hc & Hr). apply runs_take_contract in Hc as (Hc & _ & ->).
    apply runs_bind in Hr as (updated & d2 & Hu & Hr).
    apply runs_bind in Hr as (? & d3 & Hi & Hr). apply runs_signing_notification in Hr as [N ->].
    apply runs_update_signing in Hu as [(-> & s1 & Es1 & _ & _ & ->)|[-> ->]].
    - change (1 =? 0) with false in Hi. cbv iota in Hi. inv_tx Hi. rewrite Hs in Es1.
      injection Es1 as <-. cbn. rewrite lookup_insert_eq. by eexists.
    - change (0 =? 0) with true in Hi. cbv iota in Hi.
      apply runs_bind in Hi as (existing & d4 & He & Hi).
      apply runs_find_signing in He as (-> & _ & Hnone).
      apply runs_bind in Hi as (? & d4 & Hg & Hi). inv_tx Hg. bool_hyps.
      destruct existing; [|exfalso; by eapply Hnone]. match goal with h : ¬ is_Some _ |- _ => destruct h end.
      by eexists. }
  split; [exact Hs1|]. destruct Hs1 as (s1 & Es1 & _ & _ & Hrec1).
  assert (∀ v d2, ¬ runs (received_body t id actor2) d1 v d2) as Hno.
  { intros v d2 Hr. unfold received_body in Hr. inv_tx Hr. bool_hyps.
    match goal with h : runs (update_signing _ _ _ _) _ _ _ |- _ =>
      apply runs_update_signing in h as [(_ & s2 & Es2 & _ & Hw & _)|[-> _]] end; [|done].
    rewrite Es1 in Es2. injection Es2 as <-. bool_hyps. congruence. }
  unfold MarkSigningReceived. destruct (transaction _ d1) as [x d2] eqn:Ex.
  destruct (transaction_runs _ _ _ _ Ex) as [->|[v Hr]]; [|by destruct (Hno v d2)].
  destruct x as [u|e]; [|by exists e].
  apply transaction_effective in Ex as [v Hr]; [by destruct (Hno v d1)|eauto].
Qed.

End Properties.

(** ** A concrete run *)

#[local] Existing Instances sample_aead sample_aead_laws sample_key_env.

Definition signing_call (k : string) (op : signing_operation) : any_call := Signing (fine k) op.
Definition sample_upload (document reason : string) (version : Z) : signing_operation :=
  SgUpload "t1" (mkUpload "c1" "scan.pdf" document 0 "alice" version reason).

(** The contract is sent twice, comes back, is confirmed, and is replaced by a
    second version that is confirmed as well. *)
Definition signing_calls : list any_call :=
  map Business sample_calls ++
  [ signing_call "s1" (SgShip (replicate 12 (chr 1)) "t1" "c1" "alice"
      (mkShipment "SF1" "Zhang" "13812345678" "Main Road 1" 5));
    signing_call "s2" (SgReceive "t1" "c1" "alice");
    signing_call "s3" (sample_upload "v1" "" 0);
    signing_call "s4" (SgConfirm "t1" "c1" "bob" (mkConfirmation true true 9 1 "v1"));
    signing_call "s5" (sample_upload "v2" "page missing" 1) ].
Notation signed_db := (execute_any signing_calls (new_tables sample_numbers)).
Definition confirm_second : signing_operation :=
  SgConfirm "t1" "c1" "bob" (mkConfirmation true true 9 2 " V2 ").

Lemma signing_calls_typed : Forall any_typed signing_calls.
Proof. repeat constructor; by vm_compute. Qed.

Lemma signing_consistent_witness :
  ∃ c, db_contracts signed_db !! "c1" = Some c ∧ signed_ok (sign signed_db) (c_TenantID c) "c1" ∧
    map sd_Version (db_stamped signed_db) = [1; 2].
Proof.
  assert (is_Some (db_contracts signed_db !! "c1")) as [c Hc]
    by (apply (bool_decide_eq_true_1 (is_Some _)); vm_compute; reflexivity).
  exists c. split; [exact Hc|]. split; [|vm_compute; reflexivity].
  exact (signing_consistent sample_numbers signing_calls "c1" c signing_calls_typed Hc).
Defined.

(** The first version, stored by the third signing call, is still there. *)
Lemma signed_evidence_kept_witness :
  ∃ r r', r ∈ db_stamped (execute_any (take 8 signing_calls) (new_tables sample_numbers)) ∧
    r' ∈ db_stamped signed_db ∧ evidence r' = evidence r ∧ sd_Document r' = "v1".
Proof.
  set (d := execute_any (take 8 signing_calls) (new_tables sample_numbers)).
  assert (execute_any (drop 8 signing_calls) d = signed_db) as Ed
    by (unfold d, execute_any; rewrite <- foldl_app, take_drop; reflexivity).
  destruct (db_stamped d) as [|r rest] eqn:Er; [vm_compute in Er; discriminate|].
  assert (sd_Document r = "v1") as Hv by (vm_compute in Er; injection Er as <- _; reflexivity).
  assert (r ∈ db_stamped d) as Hr by (rewrite Er; left).
  destruct (signed_evidence_kept (drop 8 signing_calls) d r Hr) as [(r' & Hr' & He & _) _].
  rewrite Ed in Hr'. exists r, r'. split; [left|]. split; [exact Hr'|]. split; [exact He|].
  injection He as _ _ _ _ _ -> _ _. exact Hv.
Defined.

Lemma confirmation_binds_version_witness :
  ∃ d', invoke_any (Signing (fine "s6") confirm_second) signed_db = (Ok tt, d') ∧
    ∃ document, latest (stamped_rows "t1" "c1" signed_db) = Some document ∧
      sd_Version document = 2.
Proof.
  destruct (invoke_any (Signing (fine "s6") confirm_second) signed_db) as [r d'] eqn:E.
  assert (r = Ok tt) as ->.
  { change r with (r, d').1. rewrite <- E. vm_compute. reflexivity. }
  exists d'. split; [reflexivity|].
  destruct (confirmation_binds_version (fine "s6") "t1" "c1" "bob" _ _ _ _ E (or_introl eq_refl))
    as (document & s & Hl & Hv & _).
  exists document. split; [exact Hl|]. symmetry. exact Hv.
Defined.
