(* ===== verification/QueueFlow.v ===== *)
(** * The life of an outbox row

    What claiming and marking do to a queue, and the system of a queue, the
    workers that serve it and the receiver: [step] interleaves claims, answers,
    marks, crashes and the changes the business makes. *)

From stdpp Require Import sorting.
From S2P Require Import Prelude GoStrings GoTime NumberRule PaymentTerm ProjectService.
From S2P Require Import ImportPolicy ApprovalRule Utf8 Workflow Store Outbound Changes IntegrationOutbox.
From S2P Require Import Dispatch.

#[local] Open Scope string_scope.
#[local] Open Scope Z_scope.
#[local] Open Scope list_scope.

(** ** Delays *)

Lemma delay_loop_spec fuel count attempts k :
  0 ≤ k ≤ 10 → 10 ≤ k + Z.of_nat fuel →
  delay_loop fuel count attempts (2 ^ k * Second) =
  2 ^ Z.max k (Z.min (k + Z.max 0 (attempts - count)) 10) * Second.
Proof.
  revert count k. induction fuel as [|fuel IH]; intros count k Hk Hf.
  { cbn. by replace (Z.max k (Z.min (k + Z.max 0 (attempts - count)) 10)) with k by lia. }
  cbn [delay_loop]. destruct (count <? attempts) eqn:Ec; cbn [andb]; bool_hyps.
  2: { by replace (Z.max k (Z.min (k + Z.max 0 (attempts - count)) 10)) with k by lia. }
  assert (Hp : 2 ^ k < 600 ↔ k < 10).
  { split; intros Hlt.
    - destruct (decide (k = 10)) as [->|]; [cbn in Hlt; lia|lia].
    - assert (2 ^ k ≤ 2 ^ 9) by (apply Z.pow_le_mono_r; lia). change (2 ^ 9) with 512 in *. lia. }
  unfold Minute, Second in *. destruct (2 ^ k * 1000000000 <? _) eqn:Ed; bool_hyps.
  - assert (k < 10) by (apply Hp; lia).
    assert (E2 : wrap_int64 (2 ^ k * 1000000000 * 2) = 2 ^ (k + 1) * 1000000000).
    { rewrite Z.pow_add_r by lia. change (2 ^ 1) with 2. rewrite wrap_int64_id; [lia|].
      unfold in_int64, int64_min, int64_max. assert (0 < 2 ^ k) by (apply Z.pow_pos_nonneg; lia).
      lia. }
    rewrite E2, IH by lia. do 2 f_equal. lia.
  - assert (k = 10) as -> by (destruct (decide (k < 10)) as [Hlt%Hp|]; lia).
    by replace (Z.max 10 _) with 10 by lia.
Qed.

Lemma failure_delay_eq attempts :
  failure_delay attempts =
  Z.min (2 ^ Z.min (Z.max 0 (attempts - 1)) 10 * Second) (10 * Minute).
Proof.
  assert (E : delay_loop 10 1 attempts Second =
              2 ^ Z.min (Z.max 0 (attempts - 1)) 10 * Second).
  { change Second with (2 ^ 0 * Second) at 1. rewrite delay_loop_spec by lia. do 2 f_equal. lia. }
  unfold failure_delay. rewrite E. cbv zeta. set (x := 2 ^ _).
  destruct (_ <? _) eqn:El; bool_hyps; unfold Minute, Second in *; lia.
Qed.


(** ** Claims and marks *)

Section Queue.
Context {R P : Type} `{QueueLaws R P}.

Implicit Types r : R.

Definition ids (rows : list R) : list string := map q_ID rows.
Lemma ids_elem r rows : r ∈ rows → q_ID r ∈ ids rows.
Proof. apply list_elem_of_fmap_2. Qed.
#[export] Instance ids_proper : Proper (Permutation ==> Permutation) ids.
Proof. intros l l' E. by apply Permutation_map. Qed.
(** The rows after the statement of [update_queue]. *)
Definition updated (id : string) (where_ : deliveryColumns → bool)
    (f : deliveryColumns → deliveryColumns) (r : R) : R :=
  if (q_ID r =s id) && where_ (q_Delivery r) then q_with (f (q_Delivery r)) r else r.

(** Rows that agree in everything but their delivery columns. *)
Definition same_event (r r' : R) : Prop :=
  r' = q_with (q_Delivery r') r.
Lemma same_event_with c r : same_event r (q_with c r).
Proof. unfold same_event. by rewrite q_Delivery_with. Qed.
Lemma same_event_iff r r' : same_event r r' ↔ ∃ c, r' = q_with c r.
Proof. split; [intros E; by eexists|intros [c ->]; apply same_event_with]. Qed.
#[export] Instance same_event_equiv : Equivalence same_event.
Proof.
  split.
  - intros r. unfold same_event. by rewrite q_with_id.
  - intros r r' [c ->]%same_event_iff. apply same_event_iff. exists (q_Delivery r).
    by rewrite q_with_with, q_with_id.
  - intros r1 r2 r3 [c ->]%same_event_iff [c' ->]%same_event_iff. rewrite q_with_with.
    apply same_event_with.
Qed.
Lemma same_event_fields r r' :
  same_event r r' →
  q_ID r' = q_ID r ∧ q_TenantID r' = q_TenantID r ∧ q_Payload r' = q_Payload r.
Proof. intros [c ->]%same_event_iff. by rewrite q_ID_with, q_TenantID_with, q_Payload_with. Qed.

Lemma same_event_updated id w f r : same_event r (updated id w f r).
Proof. unfold updated. destruct (_ && _); [apply same_event_with|done]. Qed.
Lemma ids_map (g : R → R) rows : (∀ r, same_event r (g r)) → ids (map g rows) = ids rows.
Proof.
  intros Hg. unfold ids. rewrite map_map. apply map_ext. intros r.
  by destruct (same_event_fields _ _ (Hg r)) as [-> _].
Qed.

Context `{Oracle}.

Lemma runs_update_queue id w f d n d' :
  runs (update_queue (R := R) id w f) d n d' →
  n = Z.of_nat (length (filter (λ r, (q_ID r =s id) && w (q_Delivery r) = true) (q_rows d))) ∧
  d' = q_set (map (updated id w f) (q_rows d)) d.
Proof. intros E%runs_exec. by injection E as <- <-. Qed.

(** The row a claim hands out, and what becomes of it. *)
Definition taken (r : R) : Delivery P :=
  mkDelivered (q_ID r) (q_TenantID r) (q_Payload r) (dv_Attempts (q_Delivery r) + 1).
Definition leased (now : Time) (r : R) : R :=
  q_with (columns_locked (dv_Attempts (q_Delivery r) + 1) now (q_Delivery r)) r.
Definition lease_all (now : Time) (picked : list string) (rows : list R) : list R :=
  map (λ r, if bool_decide (q_ID r ∈ picked) then leased now r else r) rows.

Lemma ids_unique r r' rows : NoDup (ids rows) → r ∈ rows → r' ∈ rows → q_ID r = q_ID r' → r = r'.
Proof.
  unfold ids. induction rows as [|x rows IH]; [by intros _ ?%not_elem_of_nil|].
  cbn. rewrite NoDup_cons, !elem_of_cons. intros [Hx Hn] [->|Hr] [->|Hr'] E; [done| | |auto].
  - destruct Hx. rewrite E. by apply list_elem_of_fmap_2.
  - destruct Hx. rewrite <- E. by apply list_elem_of_fmap_2.
Qed.

Lemma runs_claim_each now picked d ds d' :
  NoDup (ids (q_rows d)) → NoDup (ids picked) → (∀ r, r ∈ picked → r ∈ q_rows d) →
  runs (claim_each now picked) d ds d' →
  ds = map taken picked ∧ d' = q_set (lease_all now (ids picked) (q_rows d)) d.
Proof.
  revert d ds. induction picked as [|p picked IH]; intros d ds Hu Hp Hin Hr; cbn [claim_each] in Hr.
  { inv_tx Hr. split; [done|]. unfold lease_all. cbn. by rewrite list_fmap_id, q_set_rows. }
  apply runs_bind in Hr as (n & d1 & Hup & Hr). apply runs_update_queue in Hup as [_ ->].
  apply runs_bind in Hr as (others & d2 & Ho & Hr). inv_tx Hr.
  cbn in Hp. apply NoDup_cons in Hp as [Hnew Hp].
  assert (Hpin : p ∈ q_rows d) by (apply Hin; left).
  assert (Hrest : ∀ r, r ∈ picked → updated (q_ID p) (λ _, true)
     (columns_locked (dv_Attempts (q_Delivery p) + 1) now) r = r).
  { intros r Hr. unfold updated. destruct (q_ID r =s q_ID p) eqn:E; [|done].
    apply streq_true in E. destruct Hnew. rewrite <- E. by apply list_elem_of_fmap_2. }
  apply IH in Ho as [-> ->]; rewrite ?q_rows_set.
  - split; [done|]. rewrite q_set_set. f_equal. unfold lease_all. rewrite map_map.
    apply list_fmap_ext. intros i r Hr%list_elem_of_lookup_2.
    destruct (same_event_fields _ _ (same_event_updated (q_ID p) (λ _, true)
      (columns_locked (dv_Attempts (q_Delivery p) + 1) now) r)) as [E _].
    cbn. rewrite E. unfold updated. rewrite andb_true_r.
    destruct (q_ID r =s q_ID p) eqn:Eid.
    + apply streq_true in Eid. assert (r = p) as -> by (by apply (ids_unique r p (q_rows d))).
      rewrite bool_decide_false, bool_decide_true by (done || left). done.
    + apply streq_false in Eid. unfold ids. cbn. erewrite bool_decide_ext; [done|].
      rewrite elem_of_cons. naive_solver.
  - by rewrite ids_map by (intros; apply same_event_updated).
  - done.
  - intros r Hr. rewrite <- (Hrest r Hr). apply list_elem_of_fmap_2. apply Hin. by right.
Qed.

End Queue.

(** A transaction that reads the clock first. *)
Lemma transaction_now `{Oracle} {A} (f : Time → Tx A) d r d' :
  transaction (now ← time_now; f now) d = (r, d') →
  ((∃ e, r = Err e) ∧ d' = d) ∨ (∃ a, runs (f (o_now 0)) d a d' ∧ (r = Ok a ∨ ∃ e, r = Err e)).
Proof.
  unfold transaction. cbn. intros E. unfold mbind, Tx_bind, time_now in E.
  destruct (f (o_now 0) (1%nat, d)) as [[a|e] [t1 d1]] eqn:Ef; [|left; naive_solver].
  assert (Hr : runs (f (o_now 0)) d a d1) by (by exists 1%nat, t1).
  destruct o_commit as [[]|]; simplify_eq; naive_solver.
Qed.

Section Claims.
Context {R P : Type} `{QueueLaws R P}.

Lemma claimable_spec locked now limit (rows : list R) (r : R) :
  r ∈ claimable locked now limit rows →
  r ∈ rows ∧ due now (q_Delivery r) = true ∧ locked (q_ID r) = false.
Proof.
  unfold claimable. intros Hr. eapply elem_of_sublist in Hr; [|apply sublist_take].
  apply list_elem_of_filter in Hr as [Hd Hr]. bool_hyps.
  split_and!; [|done..]. by rewrite <- (merge_sort_Permutation queue_le rows).
Qed.
Lemma claimable_unique locked now limit (rows : list R) :
  NoDup (ids rows) → NoDup (ids (claimable locked now limit rows)).
Proof.
  intros Hu. eapply sublist_NoDup.
  - rewrite <- (merge_sort_Permutation queue_le rows) in Hu. exact Hu.
  - unfold ids, claimable. apply (fmap_sublist q_ID). etrans; [apply sublist_take|apply sublist_filter].
Qed.

(** The claim of a batch. *)
Lemma claim_committed `{Oracle} locked limit d r d' :
  NoDup (ids (q_rows d)) → transaction (claim_body locked limit) d = (r, d') →
  let now := o_now 0 in
  let picked := claimable locked now limit (q_rows d) in
  ((∃ e, r = Err e) ∧ d' = d) ∨
  (d' = q_set (lease_all now (ids picked) (q_rows d)) d ∧
   (r = Ok (map taken picked) ∨ ∃ e, r = Err e)).
Proof.
  intros Hu E now picked. unfold claim_body in E.
  apply transaction_now in E as [E|(ds & Hr & Hres)]; [by left|right].
  apply runs_bind in Hr as (rows & d1 & Hq & Hr). apply runs_query in Hq as [-> ->].
  apply runs_claim_each in Hr as [-> ->]; [done|done|by apply claimable_unique|].
  intros x Hx. by apply claimable_spec in Hx as [Hx _].
Qed.

(** Claiming one row is claiming a batch of one. *)
Lemma claim_one_batch `{Oracle} locked d :
  transaction (claim_one (R := R) locked) d =
  (let '(r, d') := transaction (claim_body locked 1) d in
   (match r with Ok ds => Ok (head ds) | Err e => Err e end, d')).
Proof.
  unfold transaction, claim_one, claim_body, mbind, Tx_bind, time_now, query. cbn -[update_queue].
  destruct (o_fault 1); [done|].
  assert (Hl : (length (claimable (R := R) locked (o_now 0) 1 (q_rows d)) ≤ 1)%nat).
  { unfold claimable. rewrite length_take. lia. }
  destruct (claimable _ _ _ _) as [|p [|]]; cbn -[update_queue] in *; [|..]; try lia.
  - by destruct o_commit as [[]|].
  - unfold mbind, Tx_bind, mret, Tx_ret.
    destruct (update_queue _ _ _ _) as [[n|e] [t d1]]; cbn; [|done].
    by destruct o_commit as [[]|].
Qed.

(** A mark changes one leased row. *)
Lemma marked_delivered `{Oracle} missing id d r d' :
  transaction (mark_delivered (R := R) missing id) d = (r, d') →
  d' = d ∨ d' = q_set (map (updated id processing (columns_delivered (o_now 0))) (q_rows d)) d.
Proof.
  unfold mark_delivered. intros [[_ ->]|(u & Hr & _)]%transaction_now; [by left|right].
  apply runs_bind in Hr as (n & d1 & Hup & Hr). apply runs_update_queue in Hup as [_ ->].
  by inv_tx Hr.
Qed.
Lemma marked_failed `{Oracle} id message attempts dead d r d' :
  transaction (mark_failed (R := R) id message attempts dead) d = (r, d') →
  d' = d ∨
  d' = q_set (map (updated id processing
         (columns_failed (if dead then "dead" else "pending") (cut_bytes 1000 message)
            (o_now 0 + failure_delay attempts))) (q_rows d)) d.
Proof.
  unfold mark_failed. intros [[_ ->]|(u & Hr & _)]%transaction_now; [by left|right].
  apply runs_bind in Hr as (n & d1 & Hup & Hr). apply runs_update_queue in Hup as [_ ->].
  by inv_tx Hr.
Qed.

End Claims.

(** ** The system of a queue *)

Record flight (P : Type) : Type := mkFlight {
  fl_delivery : Delivery P; fl_verdict : option verdict
}.
Arguments mkFlight {_} _ _.
Arguments fl_delivery {_} _.
Arguments fl_verdict {_} _.

(** The tables, the deliveries in the hands of workers, and what the receiver
    has said: accepted events, and refusals with the attempt they answer. *)
Record system (P : Type) : Type := mkSystem {
  sy_db : DB; sy_flights : list (flight P); sy_accepted : list (string * P);
  sy_refused : list (string * bool * Z)
}.
Arguments mkSystem {_} _ _ _ _.
Arguments sy_db {_} _.
Arguments sy_flights {_} _.
Arguments sy_accepted {_} _.
Arguments sy_refused {_} _.

Inductive event (E : Type) : Type :=
  | Other (e : E)
  | Claim (oracle : Oracle) (locked : string → bool) (limit : Z)
  | Answer (n : nat) (v : verdict)
  | Mark (oracle : Oracle) (n : nat)
  | Crash (n : nat).
Arguments Other {_} _.
Arguments Claim {_} _ _ _.
Arguments Answer {_} _ _.
Arguments Mark {_} _ _.
Arguments Crash {_} _.

Section System.
Context {R P : Type} `{QueueLaws R P} {E : Type} (env : E → DB → DB).
Variable missing : goerr.
Variable maxAttempts : Z.

Definition mark (oracle : Oracle) (delivery : Delivery P) (v : verdict) (d : DB) : DB :=
  (settle (λ id, transaction (mark_delivered (R := R) missing id))
     (λ id message attempts dead, transaction (mark_failed (R := R) id message attempts dead))
     maxAttempts delivery v d).2.

Definition step (s : system P) (ev : event E) : system P :=
  match ev with
  | Other e => mkSystem (env e (sy_db s)) (sy_flights s) (sy_accepted s) (sy_refused s)
  | Claim oracle locked limit =>
      let '(r, d') := transaction (claim_body (R := R) locked limit) (sy_db s) in
      mkSystem d' (sy_flights s ++
                   match r with Ok ds => map (λ dl, mkFlight dl None) ds | Err _ => [] end)
        (sy_accepted s) (sy_refused s)
  | Answer n v =>
      match sy_flights s !! n with
      | Some (mkFlight dl None) =>
          mkSystem (sy_db s) (<[n := mkFlight dl (Some v)]> (sy_flights s))
            (sy_accepted s ++ match v with Accepted => [(dl_ID dl, dl_Payload dl)] | _ => [] end)
            (sy_refused s ++
             match v with Refused _ p => [(dl_ID dl, p, dl_Attempts dl)] | _ => [] end)
      | _ => s
      end
  | Mark oracle n =>
      match sy_flights s !! n with
      | Some (mkFlight dl (Some v)) =>
          mkSystem (mark oracle dl v (sy_db s)) (delete n (sy_flights s)) (sy_accepted s)
            (sy_refused s)
      | _ => s
      end
  | Crash n => mkSystem (sy_db s) (delete n (sy_flights s)) (sy_accepted s) (sy_refused s)
  end.
Definition steps (events : list (event E)) (s : system P) : system P := foldl step s events.

Definition status (r : R) : string := dv_DeliveryStatus (q_Delivery r).
Definition rows (s : system P) : list R := q_rows (sy_db s).

(** What the rest of the program may do: add rows that wait, and try dead
    letters again. *)
Definition evolves (l l' : list R) : Prop :=
  ∃ g new, l' = map g l ++ new ∧ (∀ r, same_event r (g r)) ∧
    (∀ r, q_Delivery (g r) = q_Delivery r ∨
          (status r = "dead" ∧ status (g r) = "pending")) ∧
    Forall (λ r, status r = "pending") new.

(** Why a row may have its status. *)
Definition justified (s : system P) (r : R) : Prop :=
  status r = "pending" ∨ status r = "processing" ∨
  (status r = "delivered" ∧ (q_ID r, q_Payload r) ∈ sy_accepted s) ∨
  (status r = "dead" ∧ ∃ permanent attempts, (q_ID r, permanent, attempts) ∈ sy_refused s ∧
     permanent || (maxAttempts <=? attempts) = true).

Definition flight_ok (s : system P) (f : flight P) : Prop :=
  (∃ r, r ∈ rows s ∧ dl_ID (fl_delivery f) = q_ID r ∧ dl_Payload (fl_delivery f) = q_Payload r) ∧
  match fl_verdict f with
  | Some Accepted => (dl_ID (fl_delivery f), dl_Payload (fl_delivery f)) ∈ sy_accepted s
  | Some (Refused _ p) =>
      (dl_ID (fl_delivery f), p, dl_Attempts (fl_delivery f)) ∈ sy_refused s
  | _ => True
  end.
Definition sound (s : system P) : Prop :=
  NoDup (ids (rows s)) → Forall (justified s) (rows s) ∧ Forall (flight_ok s) (sy_flights s).

(** ** Every step keeps the rows *)

(** Rows keep their identity and content; new ones come last. *)
Definition grows (l l' : list R) : Prop :=
  ∃ g new, l' = map g l ++ new ∧ ∀ r, same_event r (g r).
Lemma grows_map g l : (∀ r, same_event r (g r)) → grows l (map g l).
Proof. intros Hg. exists g, []. by rewrite app_nil_r. Qed.
Lemma grows_refl l : grows l l.
Proof. rewrite <- (map_id l) at 2. by apply grows_map. Qed.
Lemma grows_trans l1 l2 l3 : grows l1 l2 → grows l2 l3 → grows l1 l3.
Proof.
  intros (g & n & -> & Hg) (h & n' & -> & Hh). exists (λ r, h (g r)), (map h n ++ n'). split.
  - by rewrite map_app, map_map, app_assoc.
  - intros r. by transitivity (g r).
Qed.
Lemma grows_ids l l' : grows l l' → NoDup (ids l') → NoDup (ids l).
Proof.
  intros (g & n & -> & Hg). unfold ids at 1. rewrite map_app. intros [Hn _]%NoDup_app.
  by rewrite <- (ids_map g l Hg).
Qed.
Lemma grows_row l l' r : grows l l' → r ∈ l → ∃ r', r' ∈ l' ∧ same_event r r'.
Proof.
  intros (g & n & -> & Hg) Hr. exists (g r). split; [|done]. apply elem_of_app. left.
  by apply list_elem_of_fmap_2.
Qed.
Lemma evolves_grows l l' : evolves l l' → grows l l'.
Proof. intros (g & n & -> & Hg & _). by exists g, n. Qed.

(** An invariant of the tables that the rest of the program relies on. *)
Variable good : DB → Prop.
Hypothesis env_good : ∀ e d, good d → good (env e d).
Hypothesis queue_good : ∀ l d, good d → good (q_set l d).
Hypothesis env_evolves : ∀ e d, good d → evolves (q_rows d) (q_rows (env e d)).

(** The shape of a mark: nothing, or the statement of its verdict. *)
Lemma mark_shape oracle dl v d :
  let d' := mark oracle dl v d in
  d' = d ∨
  ∃ f, d' = q_set (map (updated (dl_ID dl) processing f) (q_rows d)) d ∧ ∀ c,
    (v = Accepted ∧ dv_DeliveryStatus (f c) = "delivered") ∨
    (∃ m p, v = Refused m p ∧ dv_DeliveryStatus (f c) =
       if p || (maxAttempts <=? dl_Attempts dl) then "dead" else "pending").
Proof.
  intros d'. unfold d', mark, settle. destruct v as [|m p|]; [| |by left].
  - destruct (transaction _ d) as [r d1] eqn:Et. cbn.
    apply marked_delivered in Et as [->| ->]; [by left|right].
    eexists. split; [done|]. by left.
  - destruct (transaction _ d) as [r d1] eqn:Et. cbn.
    apply marked_failed in Et as [->| ->]; [by left|right].
    eexists. split; [done|]. right. by exists m, p.
Qed.

Lemma claim_grows `{Oracle} now picked d ds d' :
  runs (claim_each (R := R) now picked) d ds d' →
  grows (q_rows d) (q_rows d') ∧ (good d → good d').
Proof.
  revert d ds. induction picked as [|p picked IH]; intros d ds Hr; cbn [claim_each] in Hr.
  { inv_tx Hr. split; [apply grows_refl|done]. }
  apply runs_bind in Hr as (n & d1 & Hup & Hr). apply runs_update_queue in Hup as [_ ->].
  apply runs_bind in Hr as (others & d2 & Ho & Hr). inv_tx Hr. apply IH in Ho as [Hg Hd].
  split; [|intros Hgd; by apply Hd, queue_good].
  eapply grows_trans; [|exact Hg]. rewrite q_rows_set. apply grows_map. intros r.
  apply same_event_updated.
Qed.

Lemma step_grows ev s :
  good (sy_db s) → grows (rows s) (rows (step s ev)) ∧ good (sy_db (step s ev)).
Proof.
  intros Hd. unfold rows. destruct ev as [e|o locked limit|n v|o n|n]; cbn [step].
  - split; [by apply evolves_grows, env_evolves|by apply env_good].
  - destruct (transaction _ _) as [r d'] eqn:Et. cbn [sy_db]. unfold claim_body in Et.
    apply transaction_now in Et as [[_ ->]|(ds & Hr & _)]; [by split; [apply grows_refl|]|].
    apply runs_bind in Hr as (picked & d1 & Hq & Hr). apply runs_query in Hq as [-> ->].
    apply claim_grows in Hr as [Hg Hgd]. split; [done|by apply Hgd].
  - destruct (sy_flights s !! n) as [[dl [v0|]]|]; by split; [apply grows_refl|].
  - destruct (sy_flights s !! n) as [[dl [v|]]|]; [|by split; [apply grows_refl|]..].
    destruct (mark_shape o dl v (sy_db s)) as [E0|(f & E0 & _)]; cbn in *; rewrite E0;
      [by split; [apply grows_refl|]|]. split; [|by apply queue_good].
    rewrite q_rows_set. apply grows_map. intros r. apply same_event_updated.
  - by split; [apply grows_refl|].
Qed.
Lemma steps_grows events s : good (sy_db s) → grows (rows s) (rows (steps events s)).
Proof.
  revert s. induction events as [|ev events IH]; intros s Hd; [apply grows_refl|].
  destruct (step_grows ev s Hd) as [Hg Hd']. eapply grows_trans; [exact Hg|by apply IH].
Qed.

Lemma steps_good events s : good (sy_db s) → good (sy_db (steps events s)).
Proof.
  revert s. induction events as [|ev events IH]; intros s Hd; [done|].
  apply IH, step_grows, Hd.
Qed.

(** ** Why a row has its status *)

Lemma flight_ok_grows s s' f :
  grows (rows s) (rows s') → sy_accepted s ⊆ sy_accepted s' → sy_refused s ⊆ sy_refused s' →
  flight_ok s f → flight_ok s' f.
Proof.
  intros Hg Ha Hrf [(r & Hr & Hid & Hp) Hv]. split.
  - destruct (grows_row _ _ r Hg Hr) as (r' & Hr' & (Ei & _ & Ep)%same_event_fields).
    exists r'. naive_solver congruence.
  - destruct (fl_verdict f) as [[|m p|]|]; naive_solver.
Qed.
Lemma justified_same s s' r r' :
  same_event r r' → status r' = status r → sy_accepted s ⊆ sy_accepted s' →
  sy_refused s ⊆ sy_refused s' → justified s r → justified s' r'.
Proof.
  intros (Ei & _ & Ep)%same_event_fields Es Ha Hrf. unfold justified. rewrite Es, Ei, Ep. naive_solver.
Qed.

Lemma sound_step ev s : good (sy_db s) → sound s → sound (step s ev).
Proof.
  intros Hgd Hs Hu'. pose proof (proj1 (step_grows ev s Hgd)) as Hg. pose proof (grows_ids _ _ Hg Hu') as Hu.
  destruct (Hs Hu) as [Hj Hf]. rewrite Forall_forall in Hj. rewrite Forall_forall in Hf.
  unfold rows in *.
  destruct ev as [e|o locked limit|n v|o n|n]; cbn [step] in *.
  - split; apply Forall_forall.
    + intros r' Hr'. destruct (env_evolves e (sy_db s) Hgd) as (g & new & E0 & He & Hd & Hn).
      unfold rows in Hr'. cbn [sy_db] in Hr'. rewrite E0 in Hr'.
      apply elem_of_app in Hr' as [(r & -> & Hr)%list_elem_of_fmap|Hr'].
      * destruct (Hd r) as [Eq|[_ Ep]]; [|by left].
        apply (justified_same s _ r); [by apply He|by unfold status; rewrite Eq|done..|by apply Hj].
      * rewrite Forall_forall in Hn. left. by apply Hn.
    + intros f Hin. by apply (flight_ok_grows s); [..|apply Hf].
  - destruct (transaction _ _) as [x d'] eqn:Et. cbn [sy_db sy_flights] in *.
    apply claim_committed in Et as [[[e ->] ->]| [-> Hx]]; [|  |done].
    { rewrite app_nil_r in *. split; apply Forall_forall; [apply Hj|].
      intros f Hin. by apply (flight_ok_grows s); [..|apply Hf]. }
    rewrite q_rows_set in *. split; apply Forall_forall.
    + intros r' (r & -> & Hr)%list_elem_of_fmap. cbn. case_bool_decide; [|by apply Hj].
      right; left. unfold status, leased. by rewrite q_Delivery_with.
    + intros f [Hin|Hin]%elem_of_app.
      { apply (flight_ok_grows s); [by unfold rows; cbn; rewrite q_rows_set|done..|by apply Hf]. }
      destruct Hx as [-> |[e ->]]; [|by apply not_elem_of_nil in Hin].
      apply list_elem_of_fmap in Hin as (dl & -> & Hdl).
      apply list_elem_of_fmap in Hdl as (r & -> & Hr). apply claimable_spec in Hr as [Hr _].
      destruct (grows_row _ _ r Hg) as (r' & Hr' & (Ei & _ & Ep)%same_event_fields); [done|].
      split; [|done]. exists r'. unfold rows. cbn. by rewrite q_rows_set, Ei, Ep.
  - destruct (sy_flights s !! n) as [[dl [v0|]]|] eqn:En; [by split; apply Forall_forall| |
      by split; apply Forall_forall].
    cbn [sy_db sy_flights] in *. split; apply Forall_forall.
    + intros r Hr. apply (justified_same s _ r); [done|done|apply list_subseteq_app_l..|];
        [done..|by apply Hj].
    + assert (Hdl : flight_ok s (mkFlight dl None)) by (apply Hf; by eapply list_elem_of_lookup_2).
      intros f [i Hi]%list_elem_of_lookup. apply list_lookup_insert_Some in Hi as
        [(-> & <- & _)|[_ Hi%list_elem_of_lookup_2]].
      * destruct Hdl as [Hr _]. split; [exact Hr|]. cbn.
        destruct v as [|m p|]; [| |done]; apply elem_of_app; right; left.
      * apply (flight_ok_grows s); [done|apply list_subseteq_app_l..|]; [done..|by apply Hf].
  - destruct (sy_flights s !! n) as [[dl [v|]]|] eqn:En; [|by split; apply Forall_forall..].
    cbn [sy_db sy_flights] in *. split; apply Forall_forall.
    2: { intros f Hin. apply (flight_ok_grows s); [done..|apply Hf].
         by eapply elem_of_sublist; [|apply sublist_delete]. }
    assert (Hdl : flight_ok s (mkFlight dl (Some v))) by (apply Hf; by eapply list_elem_of_lookup_2).
    destruct (mark_shape o dl v (sy_db s)) as [E0|(h & E0 & Hh)]; cbn in E0; rewrite E0 in *.
    { exact Hj. }
    rewrite q_rows_set.
    intros r' (r & -> & Hr)%list_elem_of_fmap. pose proof (Hj r Hr) as Hjr. unfold updated.
    destruct (_ && _) eqn:Eh; [|exact Hjr]. bool_hyps. apply streq_true in H1.
    destruct Hdl as [(r0 & Hr0 & Ei & Ep) Hv]. cbn in Ei, Ep, Hv.
    assert (r0 = r) as -> by (apply (ids_unique r0 r (q_rows (sy_db s))); congruence || done).
    unfold justified, status. rewrite q_Delivery_with, q_ID_with, q_Payload_with, <- Ei, <- Ep.
    destruct (Hh (q_Delivery r)) as [[-> Es]|(m & p & -> & Es)]; rewrite Es; [by auto|].
    destruct (p || _) eqn:Ed; [|by left]. right; right; right. split; [done|]. by exists p, (dl_Attempts dl).
  - split; apply Forall_forall; [exact Hj|]. intros f Hin.
    apply (flight_ok_grows s); [done..|apply Hf]. by eapply elem_of_sublist; [|apply sublist_delete].
Qed.

Lemma sound_steps events s : good (sy_db s) → sound s → sound (steps events s).
Proof.
  revert s. induction events as [|ev events IH]; intros s Hd Hs; [done|].
  apply IH; [by apply step_grows|by apply sound_step].
Qed.

(** A queue whose rows all wait, with nothing on the way. *)
Lemma sound_initial d :
  Forall (λ r, status r = "pending") (q_rows d) → sound (mkSystem d [] [] []).
Proof. intros Hp _. split; [|done]. eapply Forall_impl; [exact Hp|]. by left. Qed.

Lemma queue_justified events d r :
  good d →
  Forall (λ r, status r = "pending") (q_rows d) →
  let s := steps events (mkSystem d [] [] []) in
  NoDup (ids (rows s)) → r ∈ rows s → justified s r.
Proof.
  intros Hd Hp s Hu Hr. destruct (sound_steps events (mkSystem d [] [] []) Hd (sound_initial d Hp) Hu) as [Hj _].
  rewrite Forall_forall in Hj. by apply Hj.
Qed.

(** ** Which mark settled a row *)

(** A verdict that settles: accepted, or refused for good or for the last time. *)
Definition settles (dl : Delivery P) (v : verdict) (st : string) : Prop :=
  (v = Accepted ∧ st = "delivered") ∨
  (∃ m p, v = Refused m p ∧ (p = true ∨ maxAttempts ≤ dl_Attempts dl) ∧ st = "dead").
Definition has_status (s : system P) (id st : string) : Prop :=
  ∃ r, r ∈ rows s ∧ q_ID r = id ∧ status r = st.
(** The row [id] has been [st] ever since a mark in [events] that found it in
    processing and reported the answer the receiver had given to its worker. *)
Definition settled_by (events : list (event E)) (s0 : system P) (id st : string) : Prop :=
  ∃ pre oracle n post dl v,
    events = pre ++ Mark oracle n :: post ∧
    sy_flights (steps pre s0) !! n = Some (mkFlight dl (Some v)) ∧ dl_ID dl = id ∧
    settles dl v st ∧ has_status (steps pre s0) id "processing" ∧
    ∀ post1 post2, post = post1 ++ post2 →
      has_status (steps (pre ++ Mark oracle n :: post1) s0) id st.

Definition final (st : string) : Prop := st = "delivered" ∨ st = "dead".

Lemma step_final ev s r' :
  good (sy_db s) → NoDup (ids (rows (step s ev))) → r' ∈ rows (step s ev) → final (status r') →
  ∃ r, r ∈ rows s ∧ same_event r r' ∧
    (status r = status r' ∨
     (status r = "processing" ∧ ∃ oracle n dl v, ev = Mark oracle n ∧
        sy_flights s !! n = Some (mkFlight dl (Some v)) ∧ dl_ID dl = q_ID r ∧
        settles dl v (status r'))).
Proof.
  intros Hgd Hu' Hr' Hfin. pose proof (grows_ids _ _ (proj1 (step_grows ev s Hgd)) Hu') as Hu.
  assert (Hkeep : rows (step s ev) = rows s → ∃ r, r ∈ rows s ∧ same_event r r' ∧
    (status r = status r' ∨
     (status r = "processing" ∧ ∃ oracle n dl v, ev = Mark oracle n ∧
        sy_flights s !! n = Some (mkFlight dl (Some v)) ∧ dl_ID dl = q_ID r ∧
        settles dl v (status r')))).
  { intros E0. rewrite E0 in Hr'. exists r'. split_and!; [done|reflexivity|by left]. }
  clear Hu'. revert Hr' Hkeep. unfold rows.
  destruct ev as [e|o locked limit|n v|o n|n]; cbn [step].
  - intros Hr' _. destruct (env_evolves e (sy_db s) Hgd) as (g & new & E0 & He & Hd & Hn). cbn [sy_db] in *.
    rewrite E0 in Hr'. apply elem_of_app in Hr' as [(r & -> & Hr)%list_elem_of_fmap|Hr'].
    + exists r. split_and!; [done|apply He|left]. unfold status.
      destruct (Hd r) as [->|[_ Ep]]; [done|]. by destruct Hfin as [Ef|Ef]; rewrite Ep in Ef.
    + rewrite Forall_forall in Hn. by destruct Hfin as [Ef|Ef]; rewrite (Hn _ Hr') in Ef.
  - destruct (transaction _ _) as [x d'] eqn:Et. cbn [sy_db]. intros Hr' Hkeep.
    apply claim_committed in Et as [[_ ->]| [-> _]]; [by apply Hkeep| |done].
    rewrite q_rows_set in Hr'. apply list_elem_of_fmap in Hr' as (r & -> & Hr). exists r.
    cbn in Hfin |- *. case_bool_decide; [|by split_and!; [done|reflexivity|left]].
    unfold status, leased in Hfin. rewrite q_Delivery_with in Hfin. by destruct Hfin as [E0|E0].
  - destruct (sy_flights s !! n) as [[dl [v0|]]|]; intros Hr' Hkeep; by apply Hkeep.
  - destruct (sy_flights s !! n) as [[dl [v|]]|] eqn:En; intros Hr' Hkeep; [|by apply Hkeep..].
    cbn [sy_db] in *. destruct (mark_shape o dl v (sy_db s)) as [E0|(h & E0 & Hh)]; cbn in E0; rewrite E0 in *;
      [by apply Hkeep|].
    rewrite q_rows_set in Hr'. apply list_elem_of_fmap in Hr' as (r & -> & Hr). exists r.
    split_and!; [done|apply same_event_updated|]. unfold updated in *.
    destruct (_ && _) eqn:Eh; [|by left]. unfold processing in Eh. bool_hyps.
    repeat match goal with h : (_ =s _) = true |- _ => apply streq_true in h end.
    right. split; [done|]. exists o, n, dl, v. split_and!; [done|done|done|]. unfold status in *.
    rewrite q_Delivery_with in *. destruct (Hh (q_Delivery r)) as [[-> Es]|(m & p & -> & Es)];
      rewrite Es in *; [by left|right]. exists m, p.
    destruct (p || _) eqn:Ed; [|by destruct Hfin]. split_and!; [done| |done].
    apply orb_true_iff in Ed as [->|Ed%Z.leb_le]; auto.
  - intros Hr' Hkeep. by apply Hkeep.
Qed.

Lemma steps_snoc events ev s : steps (events ++ [ev]) s = step (steps events s) ev.
Proof. unfold steps. by rewrite foldl_app. Qed.

Lemma final_settled events s0 r :
  good (sy_db s0) → Forall (λ r, status r = "pending") (rows s0) →
  NoDup (ids (rows (steps events s0))) → r ∈ rows (steps events s0) → final (status r) →
  settled_by events s0 (q_ID r) (status r).
Proof.
  intros Hg Hpend. revert r. induction events as [|ev events IH] using rev_ind; intros r' Hu Hr Hf.
  { rewrite Forall_forall in Hpend. by destruct Hf as [E0|E0]; rewrite (Hpend r' Hr) in E0. }
  rewrite steps_snoc in *. pose proof (steps_good events s0 Hg) as Hgd.
  assert (Hnow : has_status (step (steps events s0) ev) (q_ID r') (status r')) by by exists r'.
  pose proof (grows_ids _ _ (proj1 (step_grows ev _ Hgd)) Hu) as Hu0.
  destruct (step_final ev _ r' Hgd Hu Hr Hf) as (r & Hrin & Hev & Hor).
  pose proof (same_event_fields _ _ Hev) as (Ei & _). rewrite Ei in *. destruct Hor as [Es|(Ep & o & n & dl & v & -> & Hfl & Hid & Hset)].
  - destruct (IH r Hu0 Hrin) as (pre & o & n & post & dl & v & -> & Hfl & Hid & Hset & Hp & Hall);
      [by rewrite Es|].
    rewrite Es in *. exists pre, o, n, (post ++ [ev]), dl, v. split_and!; [by rewrite <- app_assoc|done..|].
    intros post1 post2 E0. destruct post2 as [|x post2 _] using rev_ind.
    + rewrite app_nil_r in E0. subst post1. rewrite app_comm_cons, app_assoc, steps_snoc.
      exact Hnow.
    + rewrite app_assoc in E0. apply app_inj_tail in E0 as [E0 _]. by apply (Hall post1 post2).
  - exists events, o, n, [], dl, v. split_and!; [done..|by exists r|].
    intros post1 post2 E0. symmetry in E0. apply app_nil in E0 as [-> ->]. rewrite steps_snoc.
    exact Hnow.
Qed.

(** ** The lease *)

(** The row was leased at [t] or later. *)
Definition held (id : string) (t : Time) (s : system P) : Prop :=
  ∃ r, r ∈ rows s ∧ q_ID r = id ∧ status r = "processing" ∧
    ∃ t', dv_LockedAt (q_Delivery r) = Some t' ∧ t ≤ t'.

(** Events that do not mark the row, and whose claims come before the lease
    ends. *)
Definition calm (id : string) (t : Time) (s : system P) (ev : event E) : Prop :=
  match ev with
  | Mark _ n => ∀ f, sy_flights s !! n = Some f → dl_ID (fl_delivery f) ≠ id
  | Claim o _ _ => @o_now o 0 ≤ t + lease
  | _ => True
  end.
Fixpoint all_calm (id : string) (t : Time) (s : system P) (events : list (event E)) : Prop :=
  match events with
  | [] => True
  | ev :: rest => calm id t s ev ∧ all_calm id t (step s ev) rest
  end.

(** The deliveries of a row that workers hold. *)
Definition in_hand (id : string) (s : system P) : list (Delivery P) :=
  filter (λ dl, dl_ID dl = id) (map fl_delivery (sy_flights s)).

Lemma in_hand_delete id n l :
  sublist (filter (λ dl, dl_ID dl = id) (map fl_delivery (delete n l)))
    (filter (λ dl : Delivery P, dl_ID dl = id) (map fl_delivery l)).
Proof.
  revert n. induction l as [|f l IH]; intros [|n]; try done; cbn [delete list_delete].
  - cbn [map]. rewrite filter_cons. case_decide; [by apply sublist_cons|done].
  - cbn [map]. rewrite !filter_cons. case_decide; [by apply sublist_skip|done].
Qed.

Lemma not_due id t s locked limit now r :
  held id t s → NoDup (ids (rows s)) → now ≤ t + lease →
  r ∈ claimable locked now limit (rows s) → q_ID r ≠ id.
Proof.
  intros (r0 & Hr0 & Hid & Hst & t' & Hl & Ht) Hu Hn Hr E0.
  apply claimable_spec in Hr as (Hr & Hd & _).
  assert (r = r0) as -> by (apply (ids_unique r r0 (rows s)); congruence).
  unfold due in Hd. unfold status in Hst. rewrite Hst, Hl in Hd.
  change ("processing" =s "pending") with false in Hd. cbn in Hd. bool_hyps. lia.
Qed.

Lemma held_step id t s ev :
  good (sy_db s) → NoDup (ids (rows s)) → held id t s → calm id t s ev →
  held id t (step s ev) ∧ sublist (in_hand id (step s ev)) (in_hand id s).
Proof.
  intros Hgd Hu Hh Hc. pose proof Hh as (r & Hr & Hid & Hst & t' & Hl & Ht). unfold rows in *.
  destruct ev as [e|o locked limit|n v|o n|n]; cbn [step calm] in *.
  - split; [|done]. destruct (env_evolves e (sy_db s) Hgd) as (g & new & E0 & He & Hd & _).
    exists (g r). unfold rows. cbn [sy_db]. rewrite E0. destruct (same_event_fields _ _ (He r)) as [-> _].
    assert (Eq : q_Delivery (g r) = q_Delivery r).
    { destruct (Hd r) as [|[E1 _]]; [done|]. unfold status in *. congruence. }
    unfold status in *. rewrite Eq. split_and!; [|done..|by exists t'].
    apply elem_of_app. left. by apply list_elem_of_fmap_2.
  - destruct (transaction _ _) as [x d'] eqn:Et.
    apply claim_committed in Et as [[[e ->] ->]| [-> Hx]]; [| |done].
    { rewrite app_nil_r. by split. }
    assert (Hout : id ∉ ids (claimable locked (o_now 0) limit (q_rows (sy_db s)))).
    { intros (p & -> & Hp)%list_elem_of_fmap. by eapply (not_due (q_ID p)) in Hp. }
    split.
    + exists r. unfold rows. cbn [sy_db]. rewrite q_rows_set. split_and!; [|done..|by exists t'].
      apply list_elem_of_fmap. exists r. split; [|done].
      rewrite bool_decide_false; [done|]. by rewrite Hid.
    + unfold in_hand. cbn [sy_flights]. rewrite map_app, filter_app.
      enough (filter (λ dl, dl_ID dl = id) (map fl_delivery
        match x with Ok ds => map (λ dl, mkFlight dl None) ds | Err _ => [] end) = []) as ->
        by (by rewrite app_nil_r).
      destruct Hx as [-> |[e ->]]; [|done]. rewrite !map_map. cbn [fl_delivery].
      apply filter_none, Forall_forall. intros dl (p & -> & Hp)%list_elem_of_fmap E0.
      apply Hout. rewrite <- E0. by apply (list_elem_of_fmap_2 q_ID).
  - destruct (sy_flights s !! n) as [[dl [v0|]]|] eqn:En; [by split| |by split].
    split; [by exists r; split_and!; [..|exists t']|].
    unfold in_hand. cbn [sy_flights]. rewrite list_fmap_insert, list_insert_id; [done|].
    cbn. by rewrite list_lookup_fmap, En.
  - destruct (sy_flights s !! n) as [[dl [v|]]|] eqn:En; [|by split..].
    split; [|apply in_hand_delete].
    destruct (mark_shape o dl v (sy_db s)) as [E0|(f & E0 & _)]; cbn in E0.
    { exists r. unfold rows. cbn [sy_db]. rewrite E0. by split_and!; [..|exists t']. }
    exists r. unfold rows. cbn [sy_db]. rewrite E0, q_rows_set. split_and!; [|done..|by exists t'].
    apply list_elem_of_fmap. exists r. split; [|done]. unfold updated.
    destruct (q_ID r =s dl_ID dl) eqn:Ei; [|done]. apply streq_true in Ei.
    by destruct (Hc _ eq_refl); rewrite <- Hid.
  - split; [by exists r; split_and!; [..|exists t']|apply in_hand_delete].
Qed.

(** A claim leases what it hands out. *)
Lemma claim_holds oracle locked limit f s :
  let s1 := step s (Claim oracle locked limit) in
  NoDup (ids (rows s)) → f ∈ drop (length (sy_flights s)) (sy_flights s1) →
  held (dl_ID (fl_delivery f)) (@o_now oracle 0) s1.
Proof.
  intros s1 Hu Hf. unfold s1 in *. clear s1. cbn [step] in *.
  destruct (transaction _ (sy_db s)) as [x d'] eqn:Et. cbn [sy_flights] in Hf.
  rewrite drop_app_length in Hf.
  apply (claim_committed (R := R)) in Et as [[[e ->] _]| [-> [-> |[e ->]]]];
    [by apply not_elem_of_nil in Hf| |by apply not_elem_of_nil in Hf|exact Hu].
  apply list_elem_of_fmap in Hf as (dl & -> & Hdl). apply list_elem_of_fmap in Hdl as (p & -> & Hp).
  pose proof Hp as Hin. apply claimable_spec in Hin as (Hin & _ & _).
  exists (leased (@o_now oracle 0) p). unfold status, leased. rewrite q_ID_with, q_Delivery_with.
  split_and!; [|done|done|].
  - unfold rows. cbn [sy_db]. rewrite q_rows_set. apply list_elem_of_fmap. exists p.
    split; [|exact Hin]. by rewrite bool_decide_true by by apply ids_elem.
  - exists (@o_now oracle 0). split; [done|lia].
Qed.

Lemma held_steps id t events s :
  good (sy_db s) → NoDup (ids (rows (steps events s))) → held id t s → all_calm id t s events →
  held id t (steps events s) ∧ sublist (in_hand id (steps events s)) (in_hand id s).
Proof.
  revert s. induction events as [|ev events IH]; intros s Hd Hu Hh Hc; [by split|].
  destruct Hc as [Hc Hcs]. cbn [steps foldl] in *.
  destruct (step_grows ev s Hd) as [Hg Hd'].
  destruct (held_step id t s ev) as [Hh' Hin]; [done| |done|done|].
  { eapply grows_ids; [|exact Hu]. eapply grows_trans; [exact Hg|by apply steps_grows]. }
  destruct (IH (step s ev)) as [H1 H2]; [done..|]. split; [done|by etrans].
Qed.

End System.

(** * A queue whose receiver is healthy drains

    Without faults, with a receiver that accepts, a round of a dispatcher
    delivers as many due rows as its limit allows; rounds that cover the backlog
    leave no row waiting. *)

(** No statement fails and every commit is acknowledged. *)
Definition healthy (o : Oracle) : Prop := (∀ t, @o_fault o t = false) ∧ @o_commit o = None.
(** The receiver accepts. *)
Definition accepting (a : attempt) : Prop :=
  healthy (at_Oracle a) ∧ at_Cancelled a = false ∧ at_Request a = true ∧ at_Token a = true ∧
  at_License a = true ∧ ∃ status, at_Answer a = Some status ∧ success status = true.

Lemma filter_ext {A} (P Q : A → Prop) `{∀ x, Decision (P x)} `{∀ x, Decision (Q x)} (l : list A) :
  (∀ x, x ∈ l → P x ↔ Q x) → filter P l = filter Q l.
Proof.
  induction l as [|x l IH]; intros E; [done|]. rewrite !filter_cons, IH.
  - destruct (E x) as [E1 E2]; [left|]. repeat case_decide; naive_solver.
  - intros y Hy. apply E. by right.
Qed.

(** What remains of some rows when the first [n] of an ordering of them go. *)
Lemma leftover {A} (key : A → string) (n : nat) (L rows : list A) :
  L ≡ₚ rows → NoDup (map key L) →
  length (filter (λ r, key r ∉ map key (take n L)) rows) = (length rows - n)%nat.
Proof.
  intros HL Hu. rewrite <- HL, <- length_drop.
  transitivity (length (filter (λ r, key r ∉ map key (take n L)) (take n L ++ drop n L)));
    [by rewrite take_drop|].
  rewrite <- (take_drop n L), map_app in Hu. apply NoDup_app in Hu as (_ & Hd & _).
  rewrite filter_app, filter_none, filter_all; [done| |]; apply Forall_forall; intros r Hr Hin.
  - apply (Hd _ Hin). by apply (list_elem_of_fmap_2 key).
  - apply Hin. by apply (list_elem_of_fmap_2 key).
Qed.

Section Drain.
Context {R P : Type} `{QueueLaws R P}.

Lemma filter_one id (rows : list R) (p : R → bool) r :
  NoDup (ids rows) → r ∈ rows → q_ID r = id → p r = true →
  length (filter (λ r, (q_ID r =s id) && p r = true) rows) = 1%nat.
Proof.
  intros Hu Hr Hid Hp. induction rows as [|x rows IH]; [by apply not_elem_of_nil in Hr|].
  cbn in Hu. apply NoDup_cons in Hu as [Hx Hu]. rewrite filter_cons.
  apply elem_of_cons in Hr as [->|Hr].
  - rewrite Hid, streq_refl, Hp. cbn. rewrite filter_none; [done|].
    apply Forall_forall. intros y Hy [Ey%streq_true _]%andb_true_iff. destruct Hx.
    rewrite Hid, <- Ey. by apply list_elem_of_fmap_2.
  - destruct (q_ID x =s id) eqn:E; [|by apply IH]. apply streq_true in E.
    destruct Hx. rewrite E, <- Hid. by apply list_elem_of_fmap_2.
Qed.

Lemma mark_delivered_healthy (o : Oracle) missing id d r :
  healthy o → NoDup (ids (q_rows d)) → r ∈ q_rows d → q_ID r = id →
  processing (q_Delivery r) = true →
  @transaction o _ (@mark_delivered _ _ _ o missing id) d =
  (Ok tt, q_set (map (updated id processing (columns_delivered (@o_now o 0))) (q_rows d)) d).
Proof.
  intros [Hf Hc] Hu Hr Hid Hp. unfold transaction, mark_delivered, update_queue, exec, time_now.
  unfold mbind, Tx_bind, guard, lift. rewrite Hf. cbv beta iota zeta.
  rewrite (filter_one id (q_rows d) (λ r, processing (q_Delivery r)) r Hu Hr Hid Hp).
  cbn. by rewrite Hc.
Qed.

Lemma claim_each_healthy (o : Oracle) now (picked : list R) t d :
  healthy o → ∃ ds t' d', @claim_each _ _ _ o now picked (t, d) = (Ok ds, (t', d')).
Proof.
  intros [Hf Hc]. revert t d. induction picked as [|p picked IH]; intros t d; [by repeat eexists|].
  cbn [claim_each]. unfold mbind, Tx_bind. unfold update_queue at 1, exec at 1. rewrite Hf.
  cbv beta iota zeta.
  match goal with |- context [claim_each now picked ?x] => destruct x as [t1 d1] end.
  destruct (IH t1 d1) as (ds & t2 & d2 & ->). by repeat eexists.
Qed.

Lemma claim_healthy (o : Oracle) locked limit d :
  healthy o → NoDup (ids (q_rows d)) →
  let picked := claimable locked (@o_now o 0) limit (q_rows d) in
  @transaction o _ (@claim_body _ _ _ o locked limit) d =
  (Ok (map taken picked), q_set (lease_all (@o_now o 0) (ids picked) (q_rows d)) d).
Proof.
  intros Ho Hu picked. destruct (transaction _ d) as [r d'] eqn:Et.
  pose proof (claim_committed locked limit d r d' Hu Et) as Hc. cbv zeta in Hc.
  assert (∃ ds, r = Ok ds) as [ds ->].
  { destruct Ho as [Hf Hcm]. unfold transaction, claim_body, mbind, Tx_bind, time_now, query in Et.
    rewrite Hf in Et. cbv beta iota zeta in Et.
    destruct (claim_each_healthy o (o_now 0) (claimable locked (o_now 0) limit (q_rows d)) 2%nat d)
      as (ds & t' & d1 & E); [done|].
    rewrite E, Hcm in Et. injection Et as <- _. by exists ds. }
  destruct Hc as [[[e [=]] _]|[-> [[= ->]|[e [=]]]]]. done.
Qed.

Variable missing : goerr.
Variable maxAttempts : Z.
Variable permanent : Z → bool.

(** The delivery step of a dispatcher on this queue. *)
Definition deliver (a : attempt) (delivery : Delivery P) : DB → res unit * DB :=
  settle (λ id, @transaction (at_Oracle a) _ (@mark_delivered _ _ _ (at_Oracle a) missing id))
    (λ id message attempts dead,
       @transaction (at_Oracle a) _
         (@mark_failed _ _ _ (at_Oracle a) id message attempts dead))
    maxAttempts delivery (send permanent a).

Lemma send_accepting a : accepting a → send permanent a = Accepted.
Proof.
  intros (_ & _ & Hq & Ht & Hl & status & Ha & Hs). unfold send. by rewrite Hq, Ht, Hl, Ha, Hs.
Qed.

Lemma deliver_all_healthy attempts (picked : list R) d :
  (∀ n, accepting (attempts n)) → NoDup (ids (q_rows d)) → NoDup (ids picked) →
  (∀ p, p ∈ picked → ∃ r, r ∈ q_rows d ∧ q_ID r = q_ID p ∧ processing (q_Delivery r) = true) →
  ∃ g, deliverAll deliver attempts (map taken picked) d = (Ok tt, q_set (map g (q_rows d)) d) ∧
    (∀ r, same_event r (g r)) ∧
    (∀ r, r ∈ q_rows d → q_ID r ∈ ids picked → status (g r) = "delivered") ∧
    (∀ r, q_ID r ∉ ids picked → g r = r).
Proof.
  revert attempts d. induction picked as [|p picked IH]; intros attempts d Ha Hu Hp Hin.
  { exists id. cbn. rewrite list_fmap_id, q_set_rows. split_and!; try done.
    intros r _ Hr. by apply not_elem_of_nil in Hr. }
  destruct (Hin p) as (r0 & Hr0 & Hid & Hpr); [left|].
  pose proof (Ha 0%nat) as Ha0. destruct Ha0 as (Ho & Hcan & _).
  cbn [map deliverAll]. rewrite Hcan. unfold deliver at 1, settle.
  rewrite (send_accepting _ (Ha 0%nat)). cbn [taken dl_ID].
  rewrite (mark_delivered_healthy _ missing (q_ID p) d r0) by done.
  set (u := updated (q_ID p) processing _). set (d1 := q_set _ d).
  cbn in Hp. apply NoDup_cons in Hp as [Hnew Hp].
  assert (Hsame : ∀ r, same_event r (u r)) by (intros r; apply same_event_updated).
  assert (Hout : ∀ r, q_ID r ≠ q_ID p → u r = r).
  { intros r Hne. unfold u, updated. by rewrite (proj2 (streq_false _ _) Hne). }
  destruct (IH (λ n, attempts (S n)) d1) as (g & Eg & Hg & Hdone & Hrest); [done| |done| |].
  { unfold d1. by rewrite q_rows_set, ids_map. }
  { intros q Hq. destruct (Hin q) as (r & Hr & Hrid & Hrp); [by right|].
    exists r. unfold d1. rewrite q_rows_set. split_and!; [|done..].
    rewrite <- (Hout r); [by apply list_elem_of_fmap_2|]. rewrite Hrid. intros E0. apply Hnew.
    rewrite <- E0. by apply (list_elem_of_fmap_2 q_ID). }
  exists (λ r, g (u r)). unfold d1 in Eg at 2 3. rewrite q_rows_set, q_set_set, map_map in Eg.
  rewrite Eg. split_and!; [done| | |].
  - intros r. by transitivity (u r).
  - intros r Hr [E0|Hr']%elem_of_cons.
    + rewrite Hrest.
      * assert (r = r0) as -> by (apply (ids_unique r r0 (q_rows d)); congruence || done).
        unfold u, updated, status. rewrite E0, streq_refl, Hpr. cbn [andb]. by rewrite q_Delivery_with.
      * destruct (same_event_fields _ _ (Hsame r)) as [-> _]. by rewrite E0.
    + apply Hdone; [unfold d1; rewrite q_rows_set; by apply list_elem_of_fmap_2|].
      by destruct (same_event_fields _ _ (Hsame r)) as [-> _].
  - intros r Hr. apply not_elem_of_cons in Hr as [Hne Hr]. rewrite (Hout r Hne). by apply Hrest.
Qed.

(** A round: the claim and the deliveries. *)
Definition queue_round (limit : Z) (w : round) (d : DB) : res unit * DB :=
  if negb (ro_License w) then (Err ErrForbidden, d)
  else match @transaction (ro_Oracle w) _
               (@claim_body R P _ (ro_Oracle w) (ro_Locked w) limit) d with
       | (Err e, d1) => (Err e, d1)
       | (Ok deliveries, d1) => deliverAll deliver (ro_Attempt w) deliveries d1
       end.
Definition queue_rounds (limit : Z) (ws : list round) (d : DB) : DB :=
  foldl (λ d w, (queue_round limit w d).2) d ws.

(** A round is a run of the system: the claim, and for each delivery its answer
    and its mark. *)
Lemma deliver_all_run {E} (env : E → DB → DB) attempts ds d acc ref :
  ∃ events, sy_db (steps (R := R) env missing maxAttempts events
                     (mkSystem d (map (λ dl, mkFlight dl None) ds) acc ref)) =
            (deliverAll deliver attempts ds d).2.
Proof.
  revert attempts d acc ref. induction ds as [|dl ds IH]; intros attempts d acc ref.
  { by exists []. }
  cbn [deliverAll map]. destruct (at_Cancelled (attempts 0%nat)); [by exists []|].
  destruct (deliver (attempts 0%nat) dl d) as [r d1] eqn:Ed.
  set (v := send permanent (attempts 0%nat)).
  set (acc' := acc ++ match v with Accepted => [(dl_ID dl, dl_Payload dl)] | _ => [] end).
  set (ref' := ref ++ match v with Refused _ p => [(dl_ID dl, p, dl_Attempts dl)] | _ => [] end).
  destruct (IH (λ n, attempts (S n)) d1 acc' ref') as [events Hev].
  exists (Answer 0 v :: Mark (at_Oracle (attempts 0%nat)) 0 :: events).
  destruct (deliverAll deliver _ ds d1) as [r2 d2]. cbn [snd] in *. rewrite <- Hev.
  cbn [steps foldl]. f_equal. unfold steps. f_equal. cbn.
  assert (Em : mark (R := R) missing maxAttempts (at_Oracle (attempts 0%nat)) dl v d = d1).
  { change (mark missing maxAttempts (at_Oracle (attempts 0%nat)) dl v d)
      with (deliver (attempts 0%nat) dl d).2. by rewrite Ed. }
  by rewrite Em.
Qed.
Lemma round_run {E} (env : E → DB → DB) limit w d :
  ∃ events, sy_db (steps (R := R) env missing maxAttempts events (mkSystem d [] [] [])) =
            (queue_round limit w d).2.
Proof.
  unfold queue_round. destruct (ro_License w); cbn [negb]; [|by exists []].
  destruct (transaction _ d) as [[ds|e] d1] eqn:Et.
  - destruct (deliver_all_run env (ro_Attempt w) ds d1 [] []) as [events Hev].
    exists (Claim (ro_Oracle w) (ro_Locked w) limit :: events). rewrite <- Hev.
    cbn [steps foldl step sy_db]. by rewrite Et.
  - exists [Claim (ro_Oracle w) (ro_Locked w) limit]. cbn [steps foldl step sy_db]. by rewrite Et.
Qed.

(** A round at [T] or later that meets no fault. *)
Definition healthy_round (T : Time) (w : round) : Prop :=
  ro_License w = true ∧ healthy (ro_Oracle w) ∧ T ≤ @o_now (ro_Oracle w) 0 ∧
  (∀ id, ro_Locked w id = false) ∧ ∀ n, accepting (ro_Attempt w n).

Definition finished (r : R) : Prop := status r = "delivered" ∨ status r = "dead".
Definition settled (T : Time) (r : R) : Prop := due T (q_Delivery r) = true ∨ finished r.
Definition backlog (T : Time) (rows : list R) : nat :=
  length (filter (λ r, due T (q_Delivery r) = true) rows).

Lemma due_later T T' c : T ≤ T' → due T c = true → due T' c = true.
Proof.
  unfold due. intros HT [E|E]%orb_true_iff; bool_hyps; apply orb_true_iff; [left|right];
    apply andb_true_iff; (split; [done|]).
  - apply Z.leb_le. lia.
  - destruct (dv_LockedAt c); [|done]. bool_hyps. apply Z.ltb_lt. lia.
Qed.
Lemma finished_not_due T r : finished r → due T (q_Delivery r) = false.
Proof. unfold finished, status, due. by intros [->| ->]. Qed.

(** What a claim leaves behind. *)
Lemma claimable_split locked T limit (rows : list R) :
  (∀ id, locked id = false) → NoDup (ids rows) →
  let picked := claimable locked T limit rows in
  length (filter (λ r, due T (q_Delivery r) = true ∧ q_ID r ∉ ids picked) rows) =
  (backlog T rows - Z.to_nat limit)%nat.
Proof.
  intros Hl Hu picked. set (L := filter (λ r, due T (q_Delivery r) = true) (merge_sort queue_le rows)).
  assert (EL : picked = take (Z.to_nat limit) L).
  { unfold picked, claimable, L. f_equal. apply list_filter_iff. intros r.
    by rewrite Hl, andb_true_r. }
  unfold backlog. rewrite <- (leftover q_ID (Z.to_nat limit) L).
  - rewrite <- EL, list_filter_filter. f_equal. apply list_filter_iff. unfold ids. naive_solver.
  - unfold L. by rewrite (merge_sort_Permutation queue_le rows).
  - eapply sublist_NoDup; [rewrite <- (merge_sort_Permutation queue_le rows) in Hu; exact Hu|].
    apply (fmap_sublist q_ID), sublist_filter.
Qed.

Lemma round_drains T limit w d :
  healthy_round T w → NoDup (ids (q_rows d)) → Forall (settled T) (q_rows d) →
  ∃ g, queue_round limit w d = (Ok tt, q_set (map g (q_rows d)) d) ∧
    (∀ r, same_event r (g r)) ∧
    (∀ r, r ∈ q_rows d → settled T (g r) ∧
       (g r = r ∨ due T (q_Delivery r) = true ∧ status (g r) = "delivered")) ∧
    backlog T (map g (q_rows d)) = (backlog T (q_rows d) - Z.to_nat limit)%nat.
Proof.
  intros (Hlic & Ho & HT & Hlk & Ha) Hu Hs. unfold queue_round. rewrite Hlic. cbn [negb].
  rewrite claim_healthy by done. set (T' := @o_now (ro_Oracle w) 0) in *.
  set (picked := claimable (ro_Locked w) T' limit (q_rows d)).
  rewrite Forall_forall in Hs.
  assert (HTT : ∀ r, r ∈ q_rows d → due T' (q_Delivery r) = due T (q_Delivery r)).
  { intros r Hr. destruct (Hs r Hr) as [E|Hf]; [by rewrite E, (due_later T)|].
    by rewrite !finished_not_due. }
  assert (Hpin : ∀ p, p ∈ picked → p ∈ q_rows d ∧ due T (q_Delivery p) = true).
  { intros p (Hp & Hd & _)%claimable_spec. split; [done|]. by rewrite <- HTT. }
  set (h := λ r, if bool_decide (q_ID r ∈ ids picked) then leased T' r else r).
  assert (Hh : ∀ r, same_event r (h r)).
  { intros r. unfold h. case_bool_decide; [apply same_event_with|done]. }
  assert (Hup : NoDup (ids picked)) by by apply claimable_unique.
  change (lease_all T' (ids picked) (q_rows d)) with (map h (q_rows d)).
  destruct (deliver_all_healthy (ro_Attempt w) picked (q_set (map h (q_rows d)) d))
    as (g & Eg & Hg & Hdone & Hrest); [done|by rewrite q_rows_set, ids_map|done| |].
  { intros p Hp. exists (h p). rewrite q_rows_set. split_and!.
    - apply list_elem_of_fmap_2. by apply Hpin.
    - by destruct (same_event_fields _ _ (Hh p)) as [-> _].
    - unfold h. rewrite bool_decide_true by by apply (list_elem_of_fmap_2 q_ID).
      unfold leased. by rewrite q_Delivery_with. }
  rewrite q_rows_set, q_set_set, map_map in Eg. exists (λ r, g (h r)).
  assert (Hcase : ∀ r, r ∈ q_rows d →
    (q_ID r ∉ ids picked ∧ g (h r) = r) ∨
    (q_ID r ∈ ids picked ∧ due T (q_Delivery r) = true ∧ status (g (h r)) = "delivered")).
  { intros r Hr. destruct (decide (q_ID r ∈ ids picked)) as [Hin|Hout]; [right|left].
    - split_and!; [done| |].
      + apply list_elem_of_fmap in Hin as (p & Ep & Hp).
        assert (r = p) as -> by (apply (ids_unique r p (q_rows d)); [..|done]; naive_solver).
        by apply Hpin.
      + apply Hdone; [rewrite q_rows_set; by apply list_elem_of_fmap_2|].
        by destruct (same_event_fields _ _ (Hh r)) as [-> _].
    - split; [done|]. unfold h. rewrite bool_decide_false by done. by apply Hrest. }
  split_and!; [exact Eg| | |].
  - intros r. by transitivity (h r).
  - intros r Hr. destruct (Hcase r Hr) as [[_ ->]|(_ & Hd & Hst)]; [split; auto|].
    split; [by right; left|by right].
  - assert (Eb : backlog T (q_rows d) = backlog T' (q_rows d)).
    { unfold backlog. f_equal. apply filter_ext. intros r Hr. by rewrite HTT. }
    rewrite Eb, <- (claimable_split (ro_Locked w) T' limit (q_rows d)) by done. unfold backlog.
    fold picked. clear -Hcase HTT. revert Hcase HTT. generalize (q_rows d) as l.
    induction l as [|r l IH]; intros Hcase HTT; [done|]. cbn [map].
    rewrite !filter_cons. destruct (Hcase r) as [[Hout ->]|(Hin & Hd & Hst)]; [left|..].
    + rewrite (HTT r) by left. destruct (decide (due T (q_Delivery r) = true)) as [E|E].
      * rewrite decide_True by done. cbn. f_equal. apply IH; intros; [apply Hcase|apply HTT]; by right.
      * rewrite decide_False by naive_solver. apply IH; intros; [apply Hcase|apply HTT]; by right.
    + rewrite decide_False by (rewrite finished_not_due; [done|by left]).
      rewrite decide_False by naive_solver. apply IH; intros; [apply Hcase|apply HTT]; by right.
Qed.

(** Rounds that cover the backlog deliver all of it. *)
Lemma rounds_drain T limit ws d :
  Forall (healthy_round T) ws → NoDup (ids (q_rows d)) → Forall (settled T) (q_rows d) →
  (backlog T (q_rows d) ≤ Z.to_nat limit * length ws)%nat →
  ∃ g, queue_rounds limit ws d = q_set (map g (q_rows d)) d ∧ (∀ r, same_event r (g r)) ∧
    ∀ r, r ∈ q_rows d → finished (g r) ∧
      (g r = r ∨ due T (q_Delivery r) = true ∧ status (g r) = "delivered").
Proof.
  intros Hws. revert d. induction Hws as [|w ws Hw _ IH]; intros d Hu Hs Hb.
  { exists id. cbn. rewrite list_fmap_id, q_set_rows. split_and!; [done..|].
    intros r Hr. split; [|by left]. rewrite Forall_forall in Hs.
    destruct (Hs r Hr) as [Hd|]; [|done]. exfalso. cbn in Hb. rewrite Nat.mul_0_r in Hb.
    unfold backlog in Hb. apply Nat.le_0_r, nil_length_inv in Hb.
    apply (not_elem_of_nil r). rewrite <- Hb. by apply list_elem_of_filter. }
  destruct (round_drains T limit w d Hw Hu Hs) as (g & Eg & Hg & Hrow & Hbl).
  cbn [queue_rounds foldl]. rewrite Eg. cbn [snd].
  destruct (IH (q_set (map g (q_rows d)) d)) as (h & Eh & Hh & Hrow').
  { by rewrite q_rows_set, ids_map. }
  { rewrite q_rows_set. apply Forall_forall. intros r (r0 & -> & Hr)%list_elem_of_fmap.
    by apply Hrow. }
  { rewrite q_rows_set, Hbl. cbn [length] in Hb. lia. }
  rewrite q_rows_set, q_set_set, map_map in Eh. exists (λ r, h (g r)).
  split_and!; [exact Eh| |].
  - intros r. by transitivity (g r).
  - intros r Hr. destruct (Hrow' (g r)) as [Hf Hc];
      [rewrite q_rows_set; by apply list_elem_of_fmap_2|]. split; [done|].
    destruct (Hrow r Hr) as [_ [Er|[Hd Hst]]]; [by rewrite Er in *|].
    right. split; [done|]. destruct Hc as [->|[Hd' _]]; [done|].
    rewrite finished_not_due in Hd'; [done|by left].
Qed.

End Drain.
