(* ===== verification/DeliveryFlow.v ===== *)
(** * The delivery of events, together with everything else

    The settlement queues among the operations on contracts, approvals and
    signings, the operator's retries and the rounds of the other dispatchers:
    what a delivered and what a dead event means, how long a lease protects it,
    and what a late mark can do to a project event that was changed meanwhile. *)

From stdpp Require Import relations sorting.
From S2P Require Import Prelude GoStrings Decimal GoTime BusinessClock Status NumberRule.
From S2P Require Import PaymentTerm ProjectService ImportPolicy Utf8 PhoneCipher ApprovalRule.
From S2P Require Import Workflow Store Outbound Numbering Repository Changes Refinement Frames.
From S2P Require Import Signing SigningFlow IntegrationOutbox Dispatch QueueFlow.
From S2P Require Import Scenario.

#[local] Open Scope string_scope.
#[local] Open Scope Z_scope.
#[local] Open Scope list_scope.

(** ** What runs besides the workers of a queue *)

Definition run_round (kind : string) (maxAttempts limit : Z) (w : round) (d : DB) : DB :=
  if kind =s IntegrationOutboxFinancial then (dispatchFinancial maxAttempts limit w d).2
  else if kind =s IntegrationOutboxResponsibility then
    (dispatchResponsibilities maxAttempts limit w d).2
  else if kind =s IntegrationOutboxProject then (dispatch_project maxAttempts w d).2
  else if kind =s IntegrationOutboxLink then (dispatch_link maxAttempts w d).2
  else d.

(** Any call of the repository, an operator's retry of a dead letter, a round of
    another dispatcher. *)
Inductive background : Type :=
  | BgCall (c : any_call) (typed : any_typed c)
  | BgRetry (oracle : Oracle) (meta : requestMeta) (tenantID kind id actorID : string)
  | BgRound (kind : string) (maxAttempts limit : Z) (w : round).

Section Background.
Context `{GoUnicode} `{Sha256} `{TzDatabase} `{Collation} `{Documents} `{Aead} `{PhoneKeyEnv}.

(** [own] is the kind of the queue under consideration: its workers are not in
    the background. *)
Definition background_step (own : string) (b : background) (d : DB) : DB :=
  match b with
  | BgCall c _ => (invoke_any c d).2
  | BgRetry oracle meta tenantID kind id actorID =>
      (@RetryFailedIntegrationEvent oracle meta tenantID kind id actorID d).2
  | BgRound kind maxAttempts limit w =>
      if kind =s own then d else run_round kind maxAttempts limit w d
  end.

End Background.

(** ** Rounds write one table *)

Section Only.
Context {R P : Type} `{QueueLaws R P}.

Definition only (d d' : DB) : Prop :=
  ∃ g : R → R, d' = q_set (map g (q_rows d)) d ∧ ∀ r, same_event r (g r).
Lemma only_refl d : only d d.
Proof. exists id. by rewrite list_fmap_id, q_set_rows. Qed.
Lemma only_trans d1 d2 d3 : only d1 d2 → only d2 d3 → only d1 d3.
Proof.
  intros (g & -> & Hg) (h & -> & Hh). exists (λ r, h (g r)).
  rewrite q_rows_set, q_set_set, map_map. split; [done|]. intros r. by transitivity (g r).
Qed.
Lemma only_updated id w f d : only d (q_set (map (updated id w f) (q_rows d)) d).
Proof. eexists. split; [done|]. apply same_event_updated. Qed.

Lemma only_claim `{Oracle} locked limit d r d' :
  transaction (claim_body (R := R) locked limit) d = (r, d') → only d d'.
Proof.
  unfold claim_body. intros [[_ ->]|(ds & Hr & _)]%transaction_now; [apply only_refl|].
  apply runs_bind in Hr as (picked & d1 & Hq & Hr). apply runs_query in Hq as [-> ->].
  revert Hr. generalize (claimable (R := R) locked (o_now 0) limit (q_rows d)) as picked.
  intros picked. revert d ds. induction picked as [|p picked IH]; intros d ds Hr; cbn [claim_each] in Hr.
  { inv_tx Hr. apply only_refl. }
  apply runs_bind in Hr as (n & d1 & Hup & Hr). apply runs_update_queue in Hup as [_ ->].
  apply runs_bind in Hr as (others & d2 & Ho & Hr). inv_tx Hr. apply IH in Ho.
  eapply only_trans; [apply only_updated|exact Ho].
Qed.
Lemma only_claim_one `{Oracle} locked d r d' :
  transaction (claim_one (R := R) locked) d = (r, d') → only d d'.
Proof.
  rewrite claim_one_batch. destruct (transaction _ d) as [x d1] eqn:Et. intros [= _ <-].
  by eapply only_claim.
Qed.

Lemma only_deliver missing maxAttempts permanent a (dl : Delivery P) d :
  only d (deliver (R := R) missing maxAttempts permanent a dl d).2.
Proof.
  unfold deliver, settle. destruct (send permanent a) as [|m p|]; [| |apply only_refl].
  - destruct (transaction _ d) as [x d'] eqn:Et.
    apply marked_delivered in Et as [->| ->]; [apply only_refl|apply only_updated].
  - destruct (transaction _ d) as [x d'] eqn:Et.
    apply marked_failed in Et as [->| ->]; [apply only_refl|apply only_updated].
Qed.
Lemma only_deliver_all missing maxAttempts permanent attempts (ds : list (Delivery P)) d :
  only d (deliverAll (deliver (R := R) missing maxAttempts permanent) attempts ds d).2.
Proof.
  revert attempts d. induction ds as [|dl ds IH]; intros attempts d; [apply only_refl|].
  cbn [deliverAll]. destruct (at_Cancelled _); [apply only_refl|].
  destruct (deliver _ _ _ _ dl d) as [r d1] eqn:E1.
  pose proof (only_deliver missing maxAttempts permanent (attempts 0%nat) dl d) as Ho.
  rewrite E1 in Ho. specialize (IH (λ n, attempts (S n)) d1).
  destruct (deliverAll _ _ ds d1) as [r2 d2]. by eapply only_trans.
Qed.

Lemma only_batch missing maxAttempts permanent limit w d :
  only d (queue_round (R := R) missing maxAttempts permanent limit w d).2.
Proof.
  unfold queue_round. destruct (negb _); [apply only_refl|].
  destruct (transaction _ d) as [[ds|e] d1] eqn:Et; apply only_claim in Et; [|done].
  eapply only_trans; [exact Et|apply only_deliver_all].
Qed.
Lemma only_single missing maxAttempts permanent (w : round) d :
  only d (if negb (ro_License w) then (Err ErrForbidden, d)
          else dispatch_single
                 (@transaction (ro_Oracle w) _ (@claim_one R P _ (ro_Oracle w) (ro_Locked w)))
                 (deliver (R := R) missing maxAttempts permanent) (ro_Attempt w 0%nat) d).2.
Proof.
  destruct (negb _); [apply only_refl|]. unfold dispatch_single.
  destruct (transaction _ d) as [[[dl|]|e] d1] eqn:Et; apply only_claim_one in Et; [|done..].
  eapply only_trans; [exact Et|apply only_deliver].
Qed.

End Only.

Lemma financial_round maxAttempts limit w d :
  dispatchFinancial maxAttempts limit w d =
  queue_round (R := deliveryOutboxRecord financialEffectivePayload) ErrNotFound maxAttempts
    permanentDeliveryFailure (boundedDeliveryClaimLimit limit) w d.
Proof. reflexivity. Qed.
Lemma responsibility_round maxAttempts limit w d :
  dispatchResponsibilities maxAttempts limit w d =
  queue_round (R := deliveryOutboxRecord responsibilityPayload) ErrRecordNotFound maxAttempts
    permanentDeliveryFailure (boundedDeliveryClaimLimit limit) w d.
Proof. reflexivity. Qed.
Lemma project_round maxAttempts w d :
  only (R := deliveryOutboxRecord projectActivationPayload) d (dispatch_project maxAttempts w d).2.
Proof. exact (only_single ErrNotFound maxAttempts (λ _, false) w d). Qed.
Lemma link_round maxAttempts w d :
  only (R := opportunityLinkOutboxRecord) d (dispatch_link maxAttempts w d).2.
Proof. exact (only_single ErrNotFound maxAttempts (λ _, false) w d). Qed.

(** ** The background only adds rows and retries dead letters *)

Section Evolves.
Context {R P : Type} `{QueueLaws R P}.

Lemma evolves_refl (l : list R) : evolves l l.
Proof. exists id, []. rewrite list_fmap_id, app_nil_r. split_and!; [done..|by left|done]. Qed.
Lemma evolves_trans (l1 l2 l3 : list R) : evolves l1 l2 → evolves l2 l3 → evolves l1 l3.
Proof.
  intros (g & n & -> & Hg & Hd & Hn) (h & n' & -> & Hh & Hd' & Hn').
  exists (λ r, h (g r)), (map h n ++ n'). split_and!.
  - by rewrite map_app, map_map, app_assoc.
  - intros r. by transitivity (g r).
  - intros r. unfold status in *. destruct (Hd' (g r)) as [E|[E1 E2]]; [rewrite E; apply Hd|right].
    destruct (Hd r) as [Eg|[_ Eg]]; [|congruence]. by rewrite <- Eg.
  - apply Forall_app. split; [|done]. apply Forall_map. eapply Forall_impl; [exact Hn|].
    intros r Hp. unfold status in *. cbn. destruct (Hd' r) as [->|[E1 _]]; [done|congruence].
Qed.
Lemma evolves_app (l new : list R) :
  Forall (λ r, status r = "pending") new → evolves l (l ++ new).
Proof. intros Hn. exists id, new. rewrite list_fmap_id. split_and!; [done..|by left|done]. Qed.
Lemma evolves_retry (hit : R → bool) now (l : list R) :
  (∀ r, hit r = true → status r = "dead") →
  evolves l (map (λ r, if hit r then q_with (columns_retry now (q_Delivery r)) r else r) l).
Proof.
  intros Hh. exists (λ r, if hit r then q_with (columns_retry now (q_Delivery r)) r else r), [].
  rewrite app_nil_r. split_and!; [done| | |done]; intros r; destruct (hit r) eqn:E.
  - apply same_event_with.
  - done.
  - right. split; [by apply Hh|]. unfold status. by rewrite q_Delivery_with.
  - by left.
Qed.

End Evolves.

Lemma queued_pending {P} (r : deliveryOutboxRecord P) :
  (∃ next, do_Delivery r = queued next) → dv_DeliveryStatus (do_Delivery r) = "pending".
Proof. by intros [next ->]. Qed.

Section Background.
Context `{GoUnicode} `{Sha256} `{TzDatabase} `{Collation} `{Documents} `{Aead} `{PhoneKeyEnv}.

Lemma change_financial x y : change x y → evolves (x_financial x) (x_financial y).
Proof.
  intros Hc. destruct Hc; cbn [x_financial]; try apply evolves_refl.
  match goal with h : financial_row _ _ _ _ |- _ => destruct h as [_ _ _ Hq _] end.
  unfold insert_ignore. destruct (existsb _ _); [apply evolves_refl|].
  apply evolves_app, Forall_singleton. by apply queued_pending.
Qed.
Lemma stream_evolves t id c S R S' R' : stream_effect t id c S R S' R' → evolves R R'.
Proof.
  intros Hs. destruct Hs as [s|v now|v now r Hv Hl Hrow]; [apply evolves_refl..|].
  apply evolves_app, Forall_singleton. destruct Hrow as [_ _ _ Hq _]. by apply queued_pending.
Qed.
Lemma change_responsibility x y : change x y → evolves (x_responsibility x) (x_responsibility y).
Proof.
  intros Hc. destruct Hc; cbn [x_responsibility]; try apply evolves_refl; by eapply stream_evolves.
Qed.

(** A call of the repository, on the part of the tables the events live in. *)
Lemma call_changes c d :
  any_typed c → keyed (core d) →
  keyed (core (invoke_any c d).2) ∧
  evolves (db_financial d) (db_financial (invoke_any c d).2) ∧
  evolves (db_responsibility d) (db_responsibility (invoke_any c d).2).
Proof.
  intros Ht Hk. destruct c as [c|oracle op]; cbn [invoke_any any_typed] in *.
  - destruct (invoke c d) as [r d'] eqn:E. cbn [snd].
    assert (rtc change (core d) (core d')) as Hr by by eapply perform_refines.
    split; [by eapply (rtc_change_keeps keyed); [apply keyed_change|exact Hr|]|].
    change (db_financial d) with (x_financial (core d)).
    change (db_financial d') with (x_financial (core d')).
    change (db_responsibility d) with (x_responsibility (core d)).
    change (db_responsibility d') with (x_responsibility (core d')).
    clear E Hk. revert Hr. generalize (core d) as x, (core d') as y. intros x y Hr.
    induction Hr as [x|x y z Hxy _ [IH1 IH2]]; [by split; apply evolves_refl|].
    split; eapply evolves_trans; [by apply change_financial|done|by apply change_responsibility|done].
  - destruct (perform_signing op d) as [r d'] eqn:E. apply signing_refines in E as [E _].
    injection E as Ec _ _ _ _ _ _ Ef Er _ _ _ _ _ _. cbn [snd]. unfold keyed in *. cbn in *.
    rewrite Ec, Ef, Er. split_and!; [done|apply evolves_refl..].
Qed.

Lemma runs_audit_only `{Oracle} t ev entry d u d' :
  runs (insertAuditOutbox t ev entry) d u d' → ∃ A, d' = set_audit A d.
Proof. intros (row & -> & _)%runs_audit. by eexists. Qed.

Lemma set_audit_id d : set_audit (db_audit d) d = d.
Proof. by destruct d. Qed.

(** An operator's retry. *)
Lemma retry_changes `{Oracle} {R P} (Q : Queue R P) `{!QueueLaws R P} meta t kind id actor d r d' :
  transaction (retry_body Q meta t kind id actor) d = (r, d') →
  d' = d ∨ ∃ g A, let l := map g (q_rows d) in
    d' = set_audit A (q_set l d) ∧ evolves (q_rows d) l ∧ ∀ r, same_event r (g r).
Proof.
  intros [->|[v Hr]]%transaction_runs; [by left|]. unfold retry_body in Hr.
  apply runs_bind in Hr as (prior & d1 & Hq & Hr). apply runs_query in Hq as [-> ->].
  destruct (head _) as [p|]; [|inv_tx Hr; by left].
  apply runs_bind in Hr as (now & d1 & Hn & Hr). inv_tx Hn.
  apply runs_bind in Hr as (n & d1 & Hu & Hr). apply runs_exec in Hu. injection Hu as Hcount <-.
  assert (Hev : evolves (q_rows d) (map (λ r, if is_dead Q t r && (q_ID r =s id)
    then q_with (columns_retry now (q_Delivery r)) r else r) (q_rows d))).
  { apply evolves_retry. intros r0 [Hd _]%andb_true_iff. unfold is_dead in Hd. bool_hyps.
    by apply streq_true. }
  assert (Hsame : ∀ r, same_event r (if is_dead Q t r && (q_ID r =s id)
    then q_with (columns_retry now (q_Delivery r)) r else r)).
  { intros r0. destruct (_ && _); [apply same_event_with|done]. }
  right. eexists. destruct (negb (n =? 1)).
  - inv_tx Hr. eexists. split_and!; [symmetry; apply set_audit_id|exact Hev|exact Hsame].
  - apply runs_bind in Hr as (ev & d1 & Hi & Hr). inv_tx Hi.
    apply runs_bind in Hr as (u & d1 & Ha & Hr). apply runs_audit_only in Ha as [A ->].
    inv_tx Hr. by eexists.
Qed.

Lemma retry_only `{Oracle} meta t kind id actor d :
  let d' := (RetryFailedIntegrationEvent meta t kind id actor d).2 in
  db_contracts d' = db_contracts d ∧
  evolves (db_financial d) (db_financial d') ∧
  evolves (db_responsibility d) (db_responsibility d').
Proof.
  unfold RetryFailedIntegrationEvent, integrationOutboxModel.
  repeat (destruct (kind =s _);
    [cbv beta iota; destruct (transaction _ d) as [x d'] eqn:Et; apply retry_changes in Et;
     [|apply _]; destruct Et as [->|(g & A & -> & Hev & _)]; cbn; split_and!;
     first [done|exact Hev|apply evolves_refl]|]).
  cbn. split_and!; [done|apply evolves_refl..].
Qed.

Lemma round_only own kind maxAttempts limit w d :
  kind ≠ own → let d' := run_round kind maxAttempts limit w d in
  db_contracts d' = db_contracts d ∧
  (own = IntegrationOutboxFinancial → db_financial d' = db_financial d) ∧
  (own = IntegrationOutboxResponsibility → db_responsibility d' = db_responsibility d).
Proof.
  intros Hne d'. unfold d', run_round. clear d'.
  destruct (kind =s IntegrationOutboxFinancial) eqn:E1.
  { apply streq_true in E1 as ->. rewrite financial_round.
    destruct (only_batch (R := deliveryOutboxRecord financialEffectivePayload) ErrNotFound
      maxAttempts permanentDeliveryFailure (boundedDeliveryClaimLimit limit) w d) as (l & -> & _).
    by split_and!. }
  destruct (kind =s IntegrationOutboxResponsibility) eqn:E2.
  { apply streq_true in E2 as ->. rewrite responsibility_round.
    destruct (only_batch (R := deliveryOutboxRecord responsibilityPayload) ErrRecordNotFound
      maxAttempts permanentDeliveryFailure (boundedDeliveryClaimLimit limit) w d) as (l & -> & _).
    by split_and!. }
  destruct (kind =s IntegrationOutboxProject).
  { destruct (project_round maxAttempts w d) as (l & -> & _). by split_and!. }
  destruct (kind =s IntegrationOutboxLink); [|by split_and!].
  destruct (link_round maxAttempts w d) as (l & -> & _). by split_and!.
Qed.

Definition keyed_db (d : DB) : Prop := keyed (core d).

Lemma background_keyed own b d : keyed_db d → keyed_db (background_step own b d).
Proof.
  intros Hk. destruct b as [c Ht|oracle meta t kind id actor|kind m limit w]; cbn [background_step].
  - by apply call_changes.
  - unfold keyed_db, keyed in *. cbn. by destruct (@retry_only oracle meta t kind id actor d) as [-> _].
  - destruct (kind =s own) eqn:E; [done|]. apply streq_false in E.
    unfold keyed_db, keyed in *. cbn. by destruct (round_only own kind m limit w d E) as [-> _].
Qed.
Lemma background_financial b d :
  keyed_db d →
  evolves (db_financial d) (db_financial (background_step IntegrationOutboxFinancial b d)).
Proof.
  intros Hk. destruct b as [c Ht|oracle meta t kind id actor|kind m limit w]; cbn [background_step].
  - by apply call_changes.
  - apply retry_only.
  - destruct (kind =s _) eqn:E; [apply evolves_refl|]. apply streq_false in E.
    destruct (round_only IntegrationOutboxFinancial kind m limit w d E) as (_ & Ef & _).
    rewrite Ef by done. apply evolves_refl.
Qed.
Lemma background_responsibility b d :
  keyed_db d →
  evolves (db_responsibility d)
    (db_responsibility (background_step IntegrationOutboxResponsibility b d)).
Proof.
  intros Hk. destruct b as [c Ht|oracle meta t kind id actor|kind m limit w]; cbn [background_step].
  - by apply call_changes.
  - apply retry_only.
  - destruct (kind =s _) eqn:E; [apply evolves_refl|]. apply streq_false in E.
    destruct (round_only IntegrationOutboxResponsibility kind m limit w d E) as (_ & _ & Er).
    rewrite Er by done. apply evolves_refl.
Qed.

End Background.

(** ** Properties *)

Lemma StronglySorted_filter {A} (le : relation A) (P : A → Prop) `{∀ x, Decision (P x)} (l : list A) :
  StronglySorted le l → StronglySorted le (filter P l).
Proof.
  induction 1 as [|x l Hl IH Hx]; [constructor|]. rewrite filter_cons. case_decide; [|done].
  constructor; [done|]. rewrite Forall_forall in Hx |- *. intros y [_ Hy]%list_elem_of_filter.
  by apply Hx.
Qed.
#[export] Instance queue_le_trans {R P} `{Queue R P} : Transitive (queue_le (R := R)).
Proof. intros a b c. unfold queue_le. lia. Qed.
#[export] Instance queue_le_total {R P} `{Queue R P} : Total (queue_le (R := R)).
Proof. intros a b. unfold queue_le. lia. Qed.

Section Properties.
Context `{GoUnicode} `{Sha256} `{TzDatabase} `{Collation} `{Documents} `{Aead} `{PhoneKeyEnv}.

Notation financial := (deliveryOutboxRecord financialEffectivePayload).

(** The system of the financial events. *)
Definition financial_steps (maxAttempts : Z) (events : list (event background))
    (s : system (json financialEffectivePayload)) : system (json financialEffectivePayload) :=
  steps (R := financial) (background_step IntegrationOutboxFinancial) ErrNotFound maxAttempts
    events s.
Definition initial_system {P} (d : DB) : system P := mkSystem d [] [] [].

Lemma financial_keyed (l : list financial) d : keyed_db d → keyed_db (q_set l d).
Proof. done. Qed.

(** The event [id] is [st] in the system. *)
Definition event_is (s : system (json financialEffectivePayload)) (id st : string) : Prop :=
  ∃ r, r ∈ db_financial (sy_db s) ∧ do_ID r = id ∧ dv_DeliveryStatus (do_Delivery r) = st.

(** C27: Every financial event is accounted for.  An event that was there at any
    moment is there ever after, with its payload.  It waits, or is on the way, or
    it is settled, and then one mark settled it: the mark found the event in
    processing, the event has been settled in every state since, and the worker
    that made the mark held the answer of the settlement system to its delivery,
    which accepted exactly the stored payload (delivered), or refused it for good
    or at the last allowed attempt (given up).  An operator's retry thus needs a
    further mark of such a refusal to give up the event again.  This holds
    however workers, crashes, expired leases, lost acknowledgements, operators'
    retries, the other dispatchers and all calls of the repository interleave, as
    long as the identifiers of the events are distinct. *)
Theorem financial_events_accounted maxAttempts numbers events :
  let run events := financial_steps maxAttempts events (initial_system (new_tables numbers)) in
  NoDup (map do_ID (db_financial (sy_db (run events)))) →
  (∀ before after e, events = before ++ after → e ∈ db_financial (sy_db (run before)) →
     ∃ r, r ∈ db_financial (sy_db (run events)) ∧ do_ID r = do_ID e ∧
       do_TenantID r = do_TenantID e ∧ do_Payload r = do_Payload e) ∧
  ∀ r, r ∈ db_financial (sy_db (run events)) →
    let st := dv_DeliveryStatus (do_Delivery r) in
    st = "pending" ∨ st = "processing" ∨
    ∃ before oracle n after dl v,
      events = before ++ Mark oracle n :: after ∧
      event_is (run before) (do_ID r) "processing" ∧
      (∀ later rest, after = later ++ rest →
         event_is (run (before ++ Mark oracle n :: later)) (do_ID r) st) ∧
      sy_flights (run before) !! n = Some (mkFlight dl (Some v)) ∧ dl_ID dl = do_ID r ∧
      ((st = "delivered" ∧ v = Accepted ∧ dl_Payload dl = do_Payload r ∧
        (do_ID r, do_Payload r) ∈ sy_accepted (run before)) ∨
       (st = "dead" ∧ ∃ message permanent, v = Refused message permanent ∧
          (do_ID r, permanent, dl_Attempts dl) ∈ sy_refused (run before) ∧
          (permanent = true ∨ maxAttempts ≤ dl_Attempts dl))).
Proof.
  intros run Hu. set (init := initial_system (new_tables numbers)) in *.
  assert (Hg : keyed_db (sy_db init)) by by intros id c.
  pose proof (steps_grows (background_step IntegrationOutboxFinancial) ErrNotFound maxAttempts
    keyed_db (background_keyed _) financial_keyed background_financial) as Hgrow.
  pose proof (steps_good (background_step IntegrationOutboxFinancial) ErrNotFound maxAttempts
    keyed_db (background_keyed _) financial_keyed background_financial) as Hgood.
  assert (Hsplit : ∀ before after, run (before ++ after) =
    financial_steps maxAttempts after (run before))
    by (intros; unfold run, financial_steps, steps; by rewrite foldl_app).
  assert (Hkept : ∀ before after e, events = before ++ after →
    e ∈ db_financial (sy_db (run before)) →
    ∃ r, r ∈ db_financial (sy_db (run events)) ∧ do_ID r = do_ID e ∧
      do_TenantID r = do_TenantID e ∧ do_Payload r = do_Payload e).
  { intros before after e -> He. rewrite Hsplit.
    destruct (grows_row _ _ e (Hgrow after (run before) (Hgood before init Hg)) He)
      as (r & Hr & Hf%same_event_fields). by exists r. }
  split; [exact Hkept|]. intros r Hr st.
  assert (Hfin : st = "pending" ∨ st = "processing" ∨ final st).
  { destruct (queue_justified (background_step IntegrationOutboxFinancial) ErrNotFound maxAttempts
      keyed_db (background_keyed _) financial_keyed background_financial events (new_tables numbers) r
      Hg (Forall_nil_2 _) Hu Hr) as [E|[E|[[E _]|[E _]]]]; unfold final; auto. }
  destruct Hfin as [E|[E|Hf]]; [by auto..|right; right].
  destruct (final_settled (background_step IntegrationOutboxFinancial) ErrNotFound maxAttempts
    keyed_db (background_keyed _) financial_keyed background_financial events init r Hg
    (Forall_nil_2 _) Hu Hr Hf) as (before & o & n & after & dl & v & -> & Hfl & Hid & Hset & Hp & Hl).
  exists before, o, n, after, dl, v. split_and!; [done|exact Hp|exact Hl|exact Hfl|exact Hid|].
  assert (Hu0 : NoDup (ids (rows (run before)))).
  { eapply grows_ids; [|exact Hu]. unfold rows. rewrite Hsplit. by apply Hgrow, Hgood. }
  assert (Hsound : sound (R := financial) maxAttempts init) by (apply sound_initial; constructor).
  destruct (sound_steps (background_step IntegrationOutboxFinancial) ErrNotFound maxAttempts
    keyed_db (background_keyed _) financial_keyed background_financial before init Hg Hsound Hu0)
    as [_ Hfs].
  rewrite Forall_forall in Hfs.
  destruct (Hfs _ (list_elem_of_lookup_2 _ _ _ Hfl)) as [(e & He & Ei & Ep) Hv]. cbn in Ei, Ep, Hv.
  assert (dl_Payload dl = do_Payload r) as Epay.
  { destruct (Hkept before _ e eq_refl He) as (r' & Hr' & Ei' & _ & Ep').
    assert (r' = r) as -> by (eapply (ids_unique (R := financial)); [exact Hu|exact Hr'|exact Hr|cbn in *; congruence]).
    congruence. }
  destruct Hset as [[-> Es]|(m & p & -> & Hor & Es)]; [left|right].
  - split_and!; [exact Es|done|exact Epay|]. cbn in Hid. by rewrite <- Hid, <- Epay.
  - split; [exact Es|]. exists m, p. split_and!; [done| |exact Hor]. cbn in Hid. by rewrite <- Hid.
Qed.

(** A worker that claimed a financial event holds it alone for five minutes:
    until it marks the event, or the lease has ended, no claim of any worker
    hands the event out again and the event stays in processing. *)
Theorem lease_exclusive maxAttempts s oracle locked limit f events :
  let s1 := financial_steps maxAttempts [Claim oracle locked limit] s in
  let id := dl_ID (fl_delivery f) in
  let s2 := financial_steps maxAttempts events s1 in
  keyed (core (sy_db s)) → NoDup (map do_ID (db_financial (sy_db s2))) →
  f ∈ drop (length (sy_flights s)) (sy_flights s1) →
  all_calm (background_step IntegrationOutboxFinancial) ErrNotFound maxAttempts id
    (@o_now oracle 0) s1 events →
  sublist (in_hand id s2) (in_hand id s1) ∧
  ∃ r, r ∈ db_financial (sy_db s2) ∧ do_ID r = id ∧
    dv_DeliveryStatus (do_Delivery r) = "processing".
Proof.
  intros s1 id s2 Hk Hu Hf Hc.
  destruct (step_grows (background_step IntegrationOutboxFinancial) ErrNotFound maxAttempts
    keyed_db (background_keyed _) financial_keyed background_financial
    (Claim oracle locked limit) s Hk) as [Hg1 Hk1].
  pose proof (steps_grows (background_step IntegrationOutboxFinancial) ErrNotFound maxAttempts
    keyed_db (background_keyed _) financial_keyed background_financial events s1 Hk1) as Hg2.
  assert (Hu0 : NoDup (ids (db_financial (sy_db s)))) by (eapply grows_ids; [exact Hg1|];
    by eapply grows_ids; [exact Hg2|]).
  pose proof (claim_holds (background_step IntegrationOutboxFinancial) ErrNotFound maxAttempts
    oracle locked limit f s Hu0 Hf) as Hh.
  destruct (held_steps (background_step IntegrationOutboxFinancial) ErrNotFound maxAttempts
    keyed_db (background_keyed _) financial_keyed background_financial id (@o_now oracle 0) events s1)
    as [(r & Hr & Hid & Hst & _) Hsub]; [done|exact Hu|exact Hh|exact Hc|].
  split; [exact Hsub|]. by exists r.
Qed.

(** Every round of the settlement dispatcher, with its licence check, batch
    limit, early end, classification of answers and marks, is a run of the system
    above. *)
Theorem rounds_are_runs maxAttempts limit w d :
  ∃ events, sy_db (financial_steps maxAttempts events (initial_system d)) =
            (dispatchFinancial maxAttempts limit w d).2.
Proof.
  rewrite financial_round. exact (round_run (R := financial) ErrNotFound maxAttempts
    permanentDeliveryFailure (background_step IntegrationOutboxFinancial)
    (boundedDeliveryClaimLimit limit) w d).
Qed.

(** C28: Once the settlement system accepts and nothing fails, the backlog drains.
    Suppose that at a time every event is due or has been delivered or given up
    (no lease is still open and no retry is set for later), that the identifiers
    are distinct, and that licensed rounds with one batch limit run one after the
    other from then on, with no fault, no row locked by others, no other writer
    in between, and every delivery accepted.  As soon as the limits of the rounds
    add up to the number of due events, every due event is delivered, the others
    are as they were, and nothing else in the tables has changed. *)
Theorem backlog_drains maxAttempts limit T ws d :
  Forall (healthy_round T) ws → NoDup (map do_ID (db_financial d)) →
  Forall (settled T) (db_financial d) →
  (backlog T (db_financial d) ≤ Z.to_nat (boundedDeliveryClaimLimit limit) * length ws)%nat →
  ∃ g, foldl (λ d w, (dispatchFinancial maxAttempts limit w d).2) d ws =
       set_financial (map g (db_financial d)) d ∧
    ∀ r, r ∈ db_financial d → same_event r (g r) ∧
      (if due T (do_Delivery r) then dv_DeliveryStatus (do_Delivery (g r)) = "delivered"
       else g r = r).
Proof.
  intros Hws Hu Hs Hb.
  destruct (rounds_drain (R := financial) (H := financial_queue) ErrNotFound maxAttempts permanentDeliveryFailure T
    (boundedDeliveryClaimLimit limit) ws d Hws Hu Hs Hb) as (g & Eg & Hg & Hrow).
  exists g. split; [exact Eg|]. intros r Hr. split; [apply Hg|].
  destruct (Hrow r Hr) as [Hf [E|[Hd Hst]]].
  - destruct (due T (do_Delivery r)) eqn:Hd; [|done]. rewrite E in Hf.
    apply (finished_not_due T) in Hf. cbn in Hf. congruence.
  - cbn in Hd. by rewrite Hd.
Qed.

(** A claim hands out the due events that no other transaction holds, the
    earliest first and at most as many as its limit; it counts an attempt,
    leases each and changes nothing else.  Delivered and dead events are never
    handed out. *)
Theorem claim_takes_earliest `{Oracle} locked limit d ds d' :
  NoDup (map do_ID (db_financial d)) →
  ClaimFinancialEffectiveDeliveries locked limit d = (Ok ds, d') →
  let now := o_now 0 in
  ∃ picked, ds = map taken picked ∧ Z.of_nat (length picked) ≤ 200 ∧
    (∀ p, p ∈ picked → p ∈ db_financial d ∧ due now (do_Delivery p) = true ∧
       locked (do_ID p) = false) ∧
    (∀ r p, r ∈ db_financial d → due now (do_Delivery r) = true → locked (do_ID r) = false →
       r ∉ picked → p ∈ picked → queue_le p r) ∧
    ((∃ r, r ∈ db_financial d ∧ due now (do_Delivery r) = true ∧ locked (do_ID r) = false ∧
       r ∉ picked) → Z.of_nat (length picked) = boundedDeliveryClaimLimit limit) ∧
    d' = set_financial (map (λ r, if bool_decide (do_ID r ∈ map do_ID picked)
                                  then leased now r else r) (db_financial d)) d.
Proof.
  intros Hu E now. set (bound := boundedDeliveryClaimLimit limit).
  assert (Hbound : 1 ≤ bound ≤ 200).
  { unfold bound, boundedDeliveryClaimLimit. destruct (_ || _) eqn:Eb; [lia|]. bool_hyps. lia. }
  apply (claim_committed (R := financial)) in E as [[[e [=]] _]| [-> [[= ->]|[e [=]]]]]; [|exact Hu].
  set (L := filter (λ r, due now (q_Delivery r) && negb (locked (q_ID r)) = true)
              (merge_sort queue_le (db_financial d))).
  assert (HL : ∀ r, r ∈ L ↔ r ∈ db_financial d ∧ due now (do_Delivery r) = true ∧
                             locked (do_ID r) = false).
  { intros r. unfold L. rewrite list_elem_of_filter, (merge_sort_Permutation queue_le).
    rewrite andb_true_iff, negb_true_iff. cbn. tauto. }
  exists (take (Z.to_nat bound) L). split_and!; [done| | | | |].
  - rewrite length_take. lia.
  - intros p Hp. apply HL. eapply elem_of_sublist; [exact Hp|apply sublist_take].
  - intros r p Hr Hd Hlk Hout Hp. assert (HrL : r ∈ L) by by apply HL.
    rewrite <- (take_drop (Z.to_nat bound) L), elem_of_app in HrL. destruct HrL as [|HrL]; [done|].
    assert (Hsort : StronglySorted queue_le L).
    { apply StronglySorted_filter, (StronglySorted_merge_sort queue_le). }
    rewrite <- (take_drop (Z.to_nat bound) L) in Hsort.
    by eapply (StronglySorted_app_1_elem_of queue_le).
  - intros (r & Hr & Hd & Hlk & Hout). assert (HrL : r ∈ L) by by apply HL.
    rewrite length_take. destruct (decide (length L ≤ Z.to_nat bound)%nat); [|lia].
    rewrite take_ge in Hout by done. done.
  - reflexivity.
Qed.

(** The wait after the n-th failed attempt doubles from one second and stops
    at ten minutes; it never overflows, never decreases with n, and the ten
    rounds of the loop are enough. *)
Theorem retry_backoff n :
  failure_delay n = Z.min (2 ^ (Z.max 1 n - 1) * Second) (10 * Minute) ∧
  Second ≤ failure_delay n ≤ 10 * Minute ∧
  (∀ m, n ≤ m → failure_delay n ≤ failure_delay m) ∧
  (∀ fuel, (10 ≤ fuel)%nat → delay_loop fuel 1 n Second = delay_loop 10 1 n Second).
Proof.
  assert (Hclosed : ∀ k, failure_delay k = Z.min (2 ^ (Z.max 1 k - 1) * Second) (10 * Minute)).
  { intros k. rewrite failure_delay_eq. destruct (decide (k ≤ 11)).
    - do 3 f_equal. lia.
    - assert (2 ^ 10 ≤ 2 ^ (Z.max 1 k - 1)) by (apply Z.pow_le_mono_r; lia).
      change (2 ^ 10) with 1024 in *. replace (Z.min (Z.max 0 (k - 1)) 10) with 10 by lia.
      change (2 ^ 10) with 1024. unfold Minute, Second. lia. }
  split_and!.
  - apply Hclosed.
  - rewrite Hclosed. assert (2 ^ 0 ≤ 2 ^ (Z.max 1 n - 1)) by (apply Z.pow_le_mono_r; lia).
    change (2 ^ 0) with 1 in *. unfold Minute, Second. lia.
  - rewrite Hclosed. unfold Minute, Second. lia.
  - intros m Hm. rewrite !Hclosed.
    assert (2 ^ (Z.max 1 n - 1) ≤ 2 ^ (Z.max 1 m - 1)) by (apply Z.pow_le_mono_r; lia).
    unfold Second. lia.
  - intros fuel Hf. change Second with (2 ^ 0 * Second). rewrite !delay_loop_spec by lia. done.
Qed.

End Properties.

(** ** Concrete runs *)

#[local] Existing Instances sample_aead sample_key_env.

Fixpoint all_typed (calls : list any_call) : Prop :=
  match calls with [] => True | c :: rest => any_typed c ∧ all_typed rest end.
Fixpoint call_events (calls : list any_call) : all_typed calls → list (event background) :=
  match calls with
  | [] => λ _, []
  | c :: rest => λ H, Other (BgCall c (proj1 H)) :: call_events rest (proj2 H)
  end.
Lemma sample_typed : all_typed (map Business sample_calls).
Proof. repeat split; by vm_compute. Qed.

(** No fault; the clock of the statements runs from [t]. *)
Definition at_time (t : Time) (k : string) : Oracle := {|
  o_fault := λ _, false; o_now := λ n, t + Z.of_nat n;
  o_id := λ n, k +:+ "." +:+ Itoa (Z.of_nat n); o_commit := None
|}.
Definition sample_time : Time := 1700001000 * Second.
Definition nothing_locked : string → bool := λ _, false.

(** The contract takes effect; a first worker claims the event and dies; the
    lease ends, a second worker delivers it. *)
Definition sample_events : list (event background) :=
  call_events (map Business sample_calls) sample_typed ++
  [Claim (at_time sample_time "w1") nothing_locked 25; Crash 0;
   Claim (at_time (sample_time + 6 * Minute) "w2") nothing_locked 25; Answer 0 Accepted;
   Mark (at_time (sample_time + 7 * Minute) "w2") 0].

Notation sample_system :=
  (financial_steps 20 sample_events (initial_system (new_tables sample_numbers))).

Lemma sample_system_ids : NoDup (map do_ID (db_financial (sy_db sample_system))).
Proof. apply (bool_decide_eq_true_1 (NoDup _)). vm_compute. reflexivity. Qed.
Lemma sample_system_rows :
  map (dv_DeliveryStatus ∘ do_Delivery) (db_financial (sy_db sample_system)) = ["delivered"].
Proof. vm_compute. reflexivity. Qed.

Lemma financial_events_accounted_witness :
  ∃ r, r ∈ db_financial (sy_db sample_system) ∧
    dv_DeliveryStatus (do_Delivery r) = "delivered" ∧
    ∃ before oracle n after, sample_events = before ++ Mark oracle n :: after ∧
      (do_ID r, do_Payload r) ∈ sy_accepted
        (financial_steps 20 before (initial_system (new_tables sample_numbers))).
Proof.
  destruct (financial_events_accounted 20 sample_numbers sample_events sample_system_ids)
    as [_ Hacc]. cbv zeta in Hacc. pose proof sample_system_rows as Hrows.
  destruct (db_financial (sy_db sample_system)) as [|r l] eqn:E; [discriminate Hrows|].
  injection Hrows as Hst Hl. exists r. split; [left|]. split; [exact Hst|].
  destruct (Hacc r) as [Hs|[Hs|(before & o & n & after & dl & v & Hev & _ & _ & _ & _ &
    [(_ & _ & _ & Ha)|[Hs _]])]]; [left|rewrite Hst in Hs; discriminate Hs..| |].
  - exists before, o, n, after. split; [exact Hev|exact Ha].
  - rewrite Hst in Hs. discriminate Hs.
Defined.

(** Before any worker. *)
Notation waiting_system :=
  (financial_steps 20 (call_events (map Business sample_calls) sample_typed)
     (initial_system (new_tables sample_numbers))).
Notation claimed_system :=
  (financial_steps 20 [Claim (at_time sample_time "w1") nothing_locked 25] waiting_system).
(** Another worker comes four minutes later. *)
Definition early_claim : list (event background) :=
  [Claim (at_time (sample_time + 4 * Minute) "w2") nothing_locked 25].

Lemma waiting_keyed : keyed (core (sy_db waiting_system)).
Proof.
  apply (steps_good (background_step IntegrationOutboxFinancial) ErrNotFound 20 keyed_db
    (background_keyed _) financial_keyed background_financial). by intros id c.
Qed.
Lemma early_ids : NoDup (map do_ID (db_financial (sy_db
  (financial_steps 20 early_claim claimed_system)))).
Proof. apply (bool_decide_eq_true_1 (NoDup _)). vm_compute. reflexivity. Qed.
Lemma claimed_flights : length (sy_flights waiting_system) = 0%nat ∧
  length (sy_flights claimed_system) = 1%nat.
Proof. split; vm_compute; reflexivity. Qed.

Lemma lease_exclusive_witness :
  ∃ f, f ∈ sy_flights claimed_system ∧
    sublist (in_hand (dl_ID (fl_delivery f)) (financial_steps 20 early_claim claimed_system))
      (in_hand (dl_ID (fl_delivery f)) claimed_system).
Proof.
  destruct claimed_flights as [H0 H1].
  pose proof (λ f, lease_exclusive 20 waiting_system (at_time sample_time "w1") nothing_locked 25 f
    early_claim waiting_keyed early_ids) as Hlease. cbv zeta in Hlease.
  assert (Hclock : @o_now (at_time (sample_time + 4 * Minute) "w2") 0 ≤
                   @o_now (at_time sample_time "w1") 0 + lease) by (vm_compute; discriminate).
  assert (∃ f, f ∈ drop (length (sy_flights waiting_system)) (sy_flights claimed_system)) as [f Hf].
  { rewrite H0, drop_0. revert H1. generalize (sy_flights claimed_system) as l. intros [|f l] Hl;
      [discriminate Hl|]. exists f. left. }
  exists f. rewrite H0, drop_0 in Hf. split; [exact Hf|].
  rewrite H0, drop_0 in Hlease. apply (Hlease f Hf). split; [exact Hclock|exact I].
Defined.

(** One round against a receiver that accepts. *)
Definition accepting_attempt (t : Time) : attempt :=
  mkAttempt (at_time t "m") false true true true (Some 200) "".
Definition accepting_round (t : Time) : round :=
  mkRound true (at_time t "w") nothing_locked (λ n, accepting_attempt (t + Z.of_nat n)).

Lemma accepting_round_healthy t : healthy_round t (accepting_round t).
Proof.
  split_and!; [done|by split|cbn; lia|done|]. intros n. split_and!; [by split|done..|].
  exists 200. by split.
Qed.

Lemma backlog_drains_witness :
  ∃ g, foldl (λ d w, (dispatchFinancial 20 25 w d).2) sample_db [accepting_round sample_time] =
       set_financial (map g (db_financial sample_db)) sample_db ∧
    ∀ r, r ∈ db_financial sample_db → due sample_time (do_Delivery r) = true →
      dv_DeliveryStatus (do_Delivery (g r)) = "delivered".
Proof.
  assert (Hu : NoDup (map do_ID (db_financial sample_db)))
    by (apply (bool_decide_eq_true_1 (NoDup _)); vm_compute; reflexivity).
  assert (Hs : forallb (λ r, due sample_time (do_Delivery r)) (db_financial sample_db) = true)
    by (vm_compute; reflexivity).
  assert (Hb : bool_decide (backlog sample_time (db_financial sample_db) ≤
    Z.to_nat (boundedDeliveryClaimLimit 25) * length [accepting_round sample_time])%nat = true)
    by (vm_compute; reflexivity).
  destruct (backlog_drains 20 25 sample_time [accepting_round sample_time] sample_db)
    as (g & Eg & Hg); [|exact Hu| |exact (bool_decide_eq_true_1 _ Hb)|].
  - apply Forall_singleton, accepting_round_healthy.
  - revert Hs. generalize (db_financial sample_db) as l. intros l Hs.
    apply Forall_forall. intros r Hr. left. rewrite forallb_forall in Hs. apply Hs.
    by apply list_elem_of_In.
  - exists g. split; [exact Eg|]. intros r Hr Hd. destruct (Hg r Hr) as [_ Hst].
    rewrite Hd in Hst. exact Hst.
Defined.

Lemma claim_takes_earliest_witness :
  ∃ ds d' picked, @ClaimFinancialEffectiveDeliveries (at_time sample_time "w1") nothing_locked 0
      sample_db = (Ok ds, d') ∧
    ds = map taken picked ∧ (∀ p, p ∈ picked → p ∈ db_financial sample_db).
Proof.
  assert (Hu : NoDup (map do_ID (db_financial sample_db)))
    by (apply (bool_decide_eq_true_1 (NoDup _)); vm_compute; reflexivity).
  revert Hu. generalize sample_db as d. intros d Hu.
  pose proof (claim_healthy (R := deliveryOutboxRecord financialEffectivePayload)
    (at_time sample_time "w1") nothing_locked (boundedDeliveryClaimLimit 0) d
    (conj (λ _, eq_refl) eq_refl) Hu) as E.
  destruct (@claim_takes_earliest (at_time sample_time "w1") nothing_locked 0 d _ _ Hu E)
    as (picked & Eds & _ & Hp & _).
  eexists _, _, picked. split; [exact E|]. split; [exact Eds|]. intros p Hin. by apply Hp.
Defined.

(** ** A project event that changes while it is on the way *)

Definition stamped_payload (p : json projectActivationPayload) : bool :=
  match p with JsonOf a => pa_StampedContractUploaded a | _ => false end.
Definition claim_project_at (t : Time) (d : DB)
    : res (option (Delivery (json projectActivationPayload))) * DB :=
  @ClaimProjectDelivery (at_time t "w") nothing_locked d.
Definition refusing_attempt (t : Time) : attempt :=
  mkAttempt (at_time t "m") false true true true (Some 500) "unavailable".

(** Two workers, A and B: A claims the event; the stamped contract is uploaded,
    which puts the event with its new payload back; B claims it; A, whose old
    payload is accepted, marks it; B, whose new payload is refused, marks it. *)
Definition stamp_race (d : DB)
    : option (Delivery (json projectActivationPayload) * Delivery (json projectActivationPayload) *
              res unit * res unit * res unit * DB) :=
  match claim_project_at sample_time d with
  | (Ok (Some a), d1) =>
      let '(uploaded, d2) := invoke_any (Signing (at_time (sample_time + Second) "u")
                                           (sample_upload "v1" "" 0)) d1 in
      match claim_project_at (sample_time + 2 * Second) d2 with
      | (Ok (Some b), d3) =>
          let '(ra, d4) := deliver_project 20 (accepting_attempt (sample_time + 3 * Second)) a d3 in
          let '(rb, d5) := deliver_project 20 (refusing_attempt (sample_time + 4 * Second)) b d4 in
          Some (a, b, uploaded, ra, rb, d5)
      | _ => None
      end
  | _ => None
  end.

Lemma no_due_rows `{Oracle} locked d :
  (∀ r, r ∈ db_project d → finished r) → o_fault 1 = false → o_commit = None →
  ClaimProjectDelivery locked d = (Ok None, d).
Proof.
  intros Hf Hf1 Hc. unfold ClaimProjectDelivery, transaction, claim_one, mbind, Tx_bind, time_now, query.
  rewrite Hf1. cbv beta iota zeta.
  assert (claimable locked (o_now 0) 1 (@q_rows _ _ project_queue d) = []) as ->.
  { destruct (claimable _ _ _ _) as [|p l] eqn:E; [done|].
    assert (Hp : p ∈ claimable locked (o_now 0) 1 (db_project d)) by (cbn in E; rewrite E; left).
    apply claimable_spec in Hp as (Hp & Hd & _). apply Hf in Hp.
    apply (finished_not_due (o_now 0)) in Hp. congruence. }
  cbn. by rewrite Hc.
Qed.

(** The project system can miss the stamped contract for good.  When the upload
    changes an event that a worker is sending, a second worker sends the new
    payload; the first one's success marks the event delivered although only the
    old payload was accepted, the second one's failure then changes nothing, and
    no later claim finds the event. *)
Theorem stamped_flag_lost :
  ∃ a b d, stamp_race sample_db = Some (a, b, Ok tt, Ok tt, Err ErrOther, d) ∧
    dl_ID a = dl_ID b ∧ stamped_payload (dl_Payload a) = false ∧
    stamped_payload (dl_Payload b) = true ∧
    map (λ r, (dv_DeliveryStatus (do_Delivery r), stamped_payload (do_Payload r))) (db_project d) =
      [("delivered", true)] ∧
    ∀ (o : Oracle) locked, healthy o → @ClaimProjectDelivery o locked d = (Ok None, d).
Proof.
  destruct (stamp_race sample_db) as [[[[[[a b] u] ra] rb] d]|] eqn:E;
    [|vm_compute in E; discriminate].
  assert (Hs : match stamp_race sample_db with
    | Some (a, b, u, ra, rb, d) =>
        (u, ra, rb, dl_ID a, dl_ID b, stamped_payload (dl_Payload a),
         stamped_payload (dl_Payload b),
         map (λ r, (dv_DeliveryStatus (do_Delivery r), stamped_payload (do_Payload r)))
           (db_project d)) =
        (Ok tt, Ok tt, Err ErrOther, dl_ID a, dl_ID a, false, true, [("delivered", true)])
    | None => False
    end) by (vm_compute; reflexivity).
  rewrite E in Hs. injection Hs as -> -> -> Hid Ha Hb Hrows. exists a, b, d.
  split_and!; [done..| |]; [exact Hrows|]. intros o locked [Hf Hc]. apply no_due_rows; [|done..].
  intros r Hr. left.
  assert (Hin : (dv_DeliveryStatus (do_Delivery r), stamped_payload (do_Payload r)) ∈
                [("delivered", true)]).
  { rewrite <- Hrows. by apply (list_elem_of_fmap_2
      (λ r, (dv_DeliveryStatus (do_Delivery r), stamped_payload (do_Payload r)))). }
  rewrite list_elem_of_singleton in Hin. by injection Hin.
Qed.
