(* ===== verification/AuditOutbox.v ===== *)
(** * internal/auditoutbox: the delivery of audit events

    gorm_store.go and dispatcher.go: the table con_audit_outbox as a queue with a
    configurable lease, and the loop that reports its events to the platform and
    purges delivered ones.  The reporter is the outcome a delivery meets. *)

From Stdlib Require Import String.
From stdpp Require Import sorting.
From S2P Require Import Prelude GoStrings Decimal GoTime NumberRule PaymentTerm ProjectService.
From S2P Require Import ImportPolicy ApprovalRule Workflow Store Outbound.

#[local] Open Scope string_scope.
#[local] Open Scope Z_scope.
#[local] Open Scope list_scope.

(** ** The store *)

Record GORMStore : Type := mkStore { gs_Lease : Duration; gs_MaxTries : Z }.

Definition purgeBatchLimit : Z := 1000.

Record Entry : Type := mkAuditEntry {
  en_ID : string; en_TenantID : string; en_EventID : string; en_ActorID : string;
  en_Action : string; en_ResourceType : string; en_ResourceID : string; en_RequestID : string;
  en_LoginIP : string; en_ClientIP : string; en_IPSource : string; en_Result : string;
  en_Attempts : Z; en_CreatedAt : Time
}.

Definition set_delivery (c : deliveryColumns) (r : auditOutboxRecord) : auditOutboxRecord :=
  mkAuditRow (au_ID r) (au_TenantID r) (au_EventID r) (au_ActorID r) (au_Action r)
    (au_ResourceType r) (au_ResourceID r) (au_RequestID r) (au_LoginIP r) (au_ClientIP r)
    (au_IPSource r) (au_Result r) (au_Payload r) c (au_CreatedAt r).
Definition au_status (r : auditOutboxRecord) : string := dv_DeliveryStatus (au_Delivery r).

Definition effective_lease (s : GORMStore) : Duration :=
  if gs_Lease s <=? 0 then 2 * Minute else gs_Lease s.

Definition before (t : option Time) (cutoff : Time) : bool :=
  match t with Some x => x <? cutoff | None => false end.

(** The WHERE clause of [Claim]. *)
Definition claimable_audit (s : GORMStore) (now : Time) (r : auditOutboxRecord) : bool :=
  let c := au_Delivery r in
  let cutoff := now - effective_lease s in
  (dv_NextAttemptAt c <=? now) &&
  (bool_decide (dv_LockedAt c = None) || before (dv_LockedAt c) cutoff) &&
  ((au_status r =s "pending") || (au_status r =s "retry") || (au_status r =s "processing")) &&
  (if 0 <? gs_MaxTries s then
     (dv_Attempts c <? gs_MaxTries s) ||
     ((au_status r =s "processing") && before (dv_LockedAt c) cutoff)
   else true).

(** [ORDER BY next_attempt_at ASC, id ASC]; identifiers are ASCII. *)
Definition audit_le (a b : auditOutboxRecord) : Prop :=
  dv_NextAttemptAt (au_Delivery a) < dv_NextAttemptAt (au_Delivery b) ∨
  (dv_NextAttemptAt (au_Delivery a) = dv_NextAttemptAt (au_Delivery b) ∧
   String.leb (au_ID a) (au_ID b) = true).
#[export] Instance audit_le_dec : RelDecision audit_le.
Proof. intros a b. unfold audit_le. apply _. Defined.
(** [ORDER BY delivered_at ASC, id ASC]. *)
Definition delivered_le (a b : auditOutboxRecord) : Prop :=
  default 0 (dv_DeliveredAt (au_Delivery a)) < default 0 (dv_DeliveredAt (au_Delivery b)) ∨
  (default 0 (dv_DeliveredAt (au_Delivery a)) = default 0 (dv_DeliveredAt (au_Delivery b)) ∧
   String.leb (au_ID a) (au_ID b) = true).
#[export] Instance delivered_le_dec : RelDecision delivered_le.
Proof. intros a b. unfold delivered_le. apply _. Defined.
(** [ORDER BY created_at DESC, id DESC]. *)
Definition latest_le (a b : auditOutboxRecord) : Prop :=
  au_CreatedAt b < au_CreatedAt a ∨
  (au_CreatedAt a = au_CreatedAt b ∧ String.leb (au_ID b) (au_ID a) = true).
#[export] Instance latest_le_dec : RelDecision latest_le.
Proof. intros a b. unfold latest_le. apply _. Defined.

Definition audit_entry (r : auditOutboxRecord) : Entry :=
  mkAuditEntry (au_ID r) (au_TenantID r) (au_EventID r) (valueOrEmpty (au_ActorID r))
    (au_Action r) (au_ResourceType r) (au_ResourceID r) (valueOrEmpty (au_RequestID r))
    (au_LoginIP r) (au_ClientIP r) (au_IPSource r) (au_Result r)
    (dv_Attempts (au_Delivery r) + 1) (au_CreatedAt r).

Record FailedEntry : Type := mkFailedEntry {
  fn_ID : string; fn_EventID : string; fn_Action : string; fn_ResourceType : string;
  fn_ResourceID : string; fn_RequestID : string; fn_LastError : string; fn_Attempts : Z;
  fn_NextAttemptAt : Time; fn_CreatedAt : Time
}.
Definition failed_entry (r : auditOutboxRecord) : FailedEntry :=
  mkFailedEntry (au_ID r) (au_EventID r) (au_Action r) (au_ResourceType r) (au_ResourceID r)
    (valueOrEmpty (au_RequestID r)) (valueOrEmpty (dv_LastError (au_Delivery r)))
    (dv_Attempts (au_Delivery r)) (dv_NextAttemptAt (au_Delivery r)) (au_CreatedAt r).

Section Store.
Context `{Oracle}.
Variable s : GORMStore.

(** [UPDATE con_audit_outbox SET ... WHERE ...]: the number of rows. *)
Definition update_audit (where_ : auditOutboxRecord → bool)
    (f : deliveryColumns → deliveryColumns) : Tx Z :=
  exec (λ d, Ok (Z.of_nat (length (filter (λ r, where_ r = true) (db_audit d))),
                 set_audit (map (λ r, if where_ r then set_delivery (f (au_Delivery r)) r else r)
                              (db_audit d)) d)).

Fixpoint claim_rows (now : Time) (rows : list auditOutboxRecord) : Tx (list Entry) :=
  match rows with
  | [] => mret []
  | r :: rest =>
      update_audit (λ x, au_ID x =s au_ID r)
        (λ c, mkColumns "processing" (dv_Attempts c + 1) (dv_NextAttemptAt c) (Some now)
                (dv_DeliveredAt c) (dv_LastError c));;
      entries ← claim_rows now rest;
      mret (audit_entry r :: entries)
  end.
(** [locked]: the rows another transaction holds. *)
Definition Claim (locked : string → bool) (limit : Z) (now : Time) (d : DB)
    : res (list Entry) * DB :=
  if limit <? 1 then (Ok [], d)
  else transaction (
    rows ← query (λ d, take (Z.to_nat limit)
      (filter (λ r, claimable_audit s now r && negb (locked (au_ID r)) = true)
         (merge_sort audit_le (db_audit d))));
    claim_rows now rows) d.

Definition MarkDelivered (id : string) (now : Time) : DB → res unit * DB :=
  transaction (
    update_audit (λ r, au_ID r =s id)
      (λ c, mkColumns "delivered" (dv_Attempts c) (dv_NextAttemptAt c) None (Some now) None);;
    mret tt).

(** The two statements of [MarkFailed]; the first only reads. *)
Definition MarkFailed (id code : string) (retryAt : Time) : DB → res unit * DB :=
  transaction (
    status ← (if 0 <? gs_MaxTries s then
                row ← take_row (query (λ d, head (filter (λ r, (au_ID r =s id) = true)
                                                    (db_audit d)))) ErrRecordNotFound;
                mret (if gs_MaxTries s <=? dv_Attempts (au_Delivery row) then "failed" else "retry")
              else mret "retry");
    update_audit (λ r, au_ID r =s id)
      (λ c, mkColumns status (dv_Attempts c) retryAt None (dv_DeliveredAt c) (Some code));;
    mret tt).

Definition ListFailed (tenantID : string) (limit : Z) : Tx (list FailedEntry) :=
  let limit := if (limit <? 1) || (200 <? limit) then 100 else limit in
  query (λ d, map failed_entry (take (Z.to_nat limit) (merge_sort latest_le
    (filter (λ r, (au_TenantID r =s tenantID) && (au_status r =s "failed") = true) (db_audit d))))).

Definition RetryFailed (tenantID id : string) (now : Time) : DB → res bool * DB :=
  transaction (
    n ← update_audit
      (λ r, (au_TenantID r =s tenantID) && (au_ID r =s id) && (au_status r =s "failed"))
      (λ c, mkColumns "retry" 0 now None (dv_DeliveredAt c) None);
    mret (n =? 1)).

(** Two statements: the identifiers of a batch, then their deletion. *)
Definition purgeable (cutoff : Time) (r : auditOutboxRecord) : bool :=
  (au_status r =s "delivered") && before (dv_DeliveredAt (au_Delivery r)) cutoff.
Definition purge_ids (cutoff : Time) (batchSize : Z) (rows : list auditOutboxRecord)
    : list string :=
  map au_ID (take (Z.to_nat batchSize)
    (merge_sort delivered_le (filter (λ r, purgeable cutoff r = true) rows))).
Definition delete_delivered (ids : list string) : Tx Z :=
  exec (λ d,
    let hit r := bool_decide (au_ID r ∈ ids) && (au_status r =s "delivered") in
    Ok (Z.of_nat (length (filter (λ r, hit r = true) (db_audit d))),
        set_audit (filter (λ r, hit r = false) (db_audit d)) d)).
(** The two statements are on their own: [others] is what other sessions commit
    between them, and the deletion asks again for the status. *)
Definition PurgeDelivered (cutoff : Time) (batchSize : Z) (others : DB → DB) (d : DB)
    : res Z * DB :=
  let batchSize := if (batchSize <? 1) || (purgeBatchLimit <? batchSize)
                   then purgeBatchLimit else batchSize in
  match query (λ d, purge_ids cutoff batchSize (db_audit d)) (0%nat, d) with
  | (Err e, _) => (Err e, d)
  | (Ok ids, (t, d)) =>
      if bool_decide (ids = []) then (Ok 0, d)
      else transaction (λ '(n, d), delete_delivered ids ((t + n)%nat, d)) (others d)
  end.

(** The groups of [DeliveryStatusCounts]. *)
Definition status_count (status : auditOutboxRecord → bool) (rows : list auditOutboxRecord) : Z :=
  Z.of_nat (length (filter (λ r, status r = true) rows)).
Definition DeliveryStatusCounts : Tx (Z * Z) :=
  query (λ d,
    (status_count (λ r, negb (au_status r =s "delivered") && negb (au_status r =s "failed"))
       (db_audit d),
     status_count (λ r, au_status r =s "failed") (db_audit d))).

End Store.

(** ** The dispatcher *)

Record Dispatcher : Type := mkDispatcher {
  ds_Store : GORMStore; ds_BatchSize : Z; ds_MaxBackoff : Duration
}.

Definition batchSize (d : Dispatcher) : Z :=
  if (ds_BatchSize d <=? 0) || (200 <? ds_BatchSize d) then 50 else ds_BatchSize d.

(** [for i := uint(1); i < attempts && i < 8; i++ { base *= 2 }]. *)
Fixpoint backoff_loop (fuel : nat) (i attempts : Z) (base : Duration) : Duration :=
  match fuel with
  | O => base
  | S fuel => if (i <? attempts) && (i <? 8) then backoff_loop fuel (i + 1) attempts (base * 2)
              else base
  end.
Definition backoff (d : Dispatcher) (attempts : Z) : Duration :=
  let base := backoff_loop 8 1 attempts Second in
  if (0 <? ds_MaxBackoff d) && (ds_MaxBackoff d <? base) then ds_MaxBackoff d else base.

(** The text of AUDIT_OUTBOX_DELIVERED_RETENTION_DAYS; the product
    [time.Duration(days) * 24 * time.Hour] is computed in 64 bits. *)
Definition DeliveredRetentionFromEnv (value : string) : Duration :=
  let raw := TrimSpace value in
  if empty_str raw then 0
  else match parse_int64 (bytes raw) with
       | None => 0
       | Some days => if days <=? 0 then 0 else wrap_int64 (wrap_int64 (days * 24) * Hour)
       end.

Definition purgeInterval : Duration := Hour.
Definition purgeBatches : nat := 20.
Definition purgeDue (retention : Duration) (lastPurge now : Time) : bool :=
  if retention <=? 0 then false
  else IsZero lastPurge || (purgeInterval <=? now - lastPurge).

(** The batches of one purge; [cancelled] tells when the context ends, [others] what
    other sessions do in a batch and after it. *)
Fixpoint purgeDelivered (fuel : nat) (oracle : nat → Oracle) (cancelled : nat → bool)
    (others : nat → DB → DB) (cutoff : Time) (d : DB) : DB :=
  match fuel with
  | O => d
  | S fuel =>
      if cancelled O then d
      else match @PurgeDelivered (oracle O) cutoff purgeBatchLimit (others 0%nat) d with
           | (Err _, d') => d'
           | (Ok n, d') =>
               if n =? 0 then d'
               else purgeDelivered fuel (λ k, oracle (S k)) (λ k, cancelled (S k))
                      (λ k, others (2 + k)%nat) cutoff (others 1%nat d')
           end
  end.

(** [platform.AuditEvent]: a retry reports the time of the event, not its own. *)
Record AuditEvent : Type := mkAuditEvent {
  ev_EventID : string; ev_OccurredAt : Time; ev_ActorID : string; ev_Action : string;
  ev_ResourceType : string; ev_ResourceID : string; ev_RequestID : string;
  ev_CorrelationID : string; ev_Result : string; ev_LoginIP : string; ev_ClientIP : string;
  ev_IPSource : string
}.
Definition audit_event (e : Entry) (now : Time) : AuditEvent :=
  mkAuditEvent (en_EventID e) (if IsZero (en_CreatedAt e) then now else en_CreatedAt e)
    (en_ActorID e) (en_Action e) (en_ResourceType e) (en_ResourceID e) (en_RequestID e)
    (en_RequestID e) (en_Result e) (en_LoginIP e) (en_ClientIP e) (en_IPSource e).

(** One delivery: the platform takes the event or not, and the mark may fail too,
    which is only logged. *)
Definition deliverEntry (c : Dispatcher) (oracle : Oracle) (reported : AuditEvent → bool)
    (e : Entry) (now : Time) (d : DB) : DB :=
  if reported (audit_event e now) then (@MarkDelivered oracle (en_ID e) now d).2
  else (@MarkFailed oracle (ds_Store c) (en_ID e) "PLATFORM_AUDIT_UNAVAILABLE"
          (now + backoff c (en_Attempts e + 1)) d).2.
Fixpoint deliver_entries (c : Dispatcher) (oracle : nat → Oracle) (reported : nat → AuditEvent → bool)
    (entries : list Entry) (now : Time) (d : DB) : DB :=
  match entries with
  | [] => d
  | e :: rest =>
      deliver_entries c (λ n, oracle (S n)) (λ n, reported (S n)) rest now
        (deliverEntry c (oracle O) (reported O) e now d)
  end.
Definition deliverOnce (c : Dispatcher) (claim : Oracle) (locked : string → bool)
    (oracle : nat → Oracle) (reported : nat → AuditEvent → bool) (now : Time) (d : DB) : DB :=
  match @Claim claim (ds_Store c) locked (batchSize c) now d with
  | (Err _, d') => d'
  | (Ok entries, d') => deliver_entries c oracle reported entries now d'
  end.

(** ** What the operations do to the table *)

Inductive audit_operation : Type :=
  | AuClaim (locked : string → bool) (limit : Z) (now : Time)
  | AuDelivered (id : string) (now : Time)
  | AuFailed (id code : string) (retryAt : Time)
  | AuRetry (tenantID id : string) (now : Time)
  | AuPurge (cutoff : Time) (size : Z) (others : DB → DB).

Definition perform_audit `{Oracle} (s : GORMStore) (op : audit_operation) (d : DB) : DB :=
  match op with
  | AuClaim locked limit now => (Claim s locked limit now d).2
  | AuDelivered id now => (MarkDelivered id now d).2
  | AuFailed id code retryAt => (MarkFailed s id code retryAt d).2
  | AuRetry tenantID id now => (RetryFailed tenantID id now d).2
  | AuPurge cutoff size others => (PurgeDelivered cutoff size others d).2
  end.

(** Everything of an event but its delivery. *)
Definition audit_content (r : auditOutboxRecord) : auditOutboxRecord := set_delivery (queued 0) r.
