(* ===== verification/AuditFlow.v ===== *)
(** * The audit events survive their delivery

    The operations of internal/auditoutbox change nothing but delivery columns,
    and only a purge removes an event, after its delivery; a purge that runs to
    its end removes exactly the old delivered events.  A late failure can send a
    delivered event again, and a long retention overflows. *)

From stdpp Require Import sorting.
From S2P Require Import Prelude GoStrings Decimal GoTime NumberRule PaymentTerm ProjectService.
From S2P Require Import ImportPolicy ApprovalRule Workflow Store Outbound Changes IntegrationOutbox QueueFlow.
From S2P Require Import Dispatch AuditOutbox.

#[local] Open Scope string_scope.
#[local] Open Scope Z_scope.
#[local] Open Scope list_scope.

Lemma content_set c r : audit_content (set_delivery c r) = audit_content r.
Proof. done. Qed.

(** The rows of [d'] are those of [d] with other delivery columns, less some. *)
Definition redelivered (gone : auditOutboxRecord → Prop) (d d' : DB) : Prop :=
  ∃ g (kept : auditOutboxRecord → bool),
    d' = set_audit (map g (filter (λ r, kept r = true) (db_audit d))) d ∧
    (∀ r, audit_content (g r) = audit_content r) ∧
    (∀ r, r ∈ db_audit d → kept r = false → gone r).

Lemma redelivered_refl gone d : redelivered gone d d.
Proof.
  exists id, (λ _, true). rewrite list_fmap_id, filter_all by by apply Forall_forall.
  split_and!; [by destruct d|done..].
Qed.
Lemma redelivered_map gone g d :
  (∀ r, audit_content (g r) = audit_content r) → redelivered gone d (set_audit (map g (db_audit d)) d).
Proof.
  intros Hg. exists g, (λ _, true). rewrite filter_all by by apply Forall_forall. by split_and!.
Qed.

Lemma audit_unique r r' rows :
  NoDup (map au_ID rows) → r ∈ rows → r' ∈ rows → au_ID r = au_ID r' → r = r'.
Proof.
  induction rows as [|x rows IH]; [by intros _ ?%not_elem_of_nil|].
  cbn. rewrite NoDup_cons, !elem_of_cons. intros [Hx Hn] [->|Hr] [->|Hr'] E; [done| | |auto];
    destruct Hx; [rewrite E|rewrite <- E]; by apply (list_elem_of_fmap_2 au_ID).
Qed.

Section Flow.
Context `{Oracle}.

Lemma runs_update_audit w f d n d' :
  runs (update_audit w f) d n d' →
  d' = set_audit (map (λ r, if w r then set_delivery (f (au_Delivery r)) r else r) (db_audit d)) d.
Proof. intros E%runs_exec. by injection E as _ <-. Qed.
Lemma update_redelivered gone w f d n d' : runs (update_audit w f) d n d' → redelivered gone d d'.
Proof.
  intros ->%runs_update_audit. apply redelivered_map. intros r. by destruct (w r).
Qed.

Lemma claim_redelivered now rows d es d' :
  runs (claim_rows now rows) d es d' →
  ∃ g, d' = set_audit (map g (db_audit d)) d ∧ ∀ r, audit_content (g r) = audit_content r.
Proof.
  revert d es. induction rows as [|r rows IH]; intros d es Hr; cbn [claim_rows] in Hr.
  { inv_tx Hr. exists id. rewrite list_fmap_id. split; [by destruct d|done]. }
  apply runs_bind in Hr as (n & d1 & Hu & Hr). apply runs_update_audit in Hu as ->.
  apply runs_bind in Hr as (others & d2 & Ho & Hr). inv_tx Hr.
  apply IH in Ho as (g & -> & Hg). eexists. cbn. rewrite map_map. split; [reflexivity|].
  intros x. cbn. rewrite Hg. by destruct (_ =s _).
Qed.

(** C34: No operation of the audit delivery changes what an audit event says, or any
    other table; claims, marks and retries keep every event.  A purge removes only
    events that were delivered, since before its cutoff, when it selected them,
    and that are delivered when it deletes them: whatever other sessions do
    between its two statements, an event that was sent back to the queue
    meanwhile stays. *)
Theorem audit_events_kept s op d :
  let met := match op with AuPurge _ _ others => others d | _ => d end in
  perform_audit s op d = d ∨
  redelivered (λ r, ∃ cutoff size others selected,
      op = AuPurge cutoff size others ∧ au_status r = "delivered" ∧
      selected ∈ db_audit d ∧ au_ID selected = au_ID r ∧
      au_status selected = "delivered" ∧
      ∃ t, dv_DeliveredAt (au_Delivery selected) = Some t ∧ t < cutoff)
    met (perform_audit s op d).
Proof.
  set (gone := λ r, ∃ cutoff size others selected, _).
  assert (∀ A (m : Tx A) d0, (∀ v d', runs m d0 v d' → redelivered gone d0 d') →
    redelivered gone d0 (transaction m d0).2) as Htx.
  { intros A m d0 Hm. destruct (transaction m d0) as [x d'] eqn:E.
    apply transaction_runs in E as [->|[v Hv]]; [apply redelivered_refl|by eapply Hm]. }
  destruct op as [locked limit now|id now|id code retryAt|t id now|cutoff size others];
    cbn [perform_audit].
  - right. unfold Claim. destruct (limit <? 1); [apply redelivered_refl|]. apply Htx. intros v d' Hr.
    apply runs_bind in Hr as (rows & d1 & Hq & Hr). apply runs_query in Hq as [-> ->].
    apply claim_redelivered in Hr as (g & -> & Hg); by apply redelivered_map.
  - right. apply Htx. intros v d' Hr. apply runs_bind in Hr as (n & d1 & Hu & Hr). inv_tx Hr.
    by eapply update_redelivered.
  - right. apply Htx. intros v d' Hr. apply runs_bind in Hr as (st & d1 & Hst & Hr).
    assert (d1 = d) as -> by (destruct (0 <? gs_MaxTries s); inv_tx Hst; done).
    apply runs_bind in Hr as (n & d2 & Hu & Hr). inv_tx Hr. by eapply update_redelivered.
  - right. apply Htx. intros v d' Hr. apply runs_bind in Hr as (n & d1 & Hu & Hr). inv_tx Hr.
    by eapply update_redelivered.
  - unfold PurgeDelivered, query. destruct (o_fault 0); [by left|].
    case_bool_decide; [by left|right]. apply Htx. intros v d' Hr.
    destruct Hr as (n & n' & Hr). unfold delete_delivered, exec in Hr. destruct (o_fault _); [done|].
    injection Hr as _ _ <-. set (l := purge_ids _ _ _).
    exists id, (λ r, negb (bool_decide (au_ID r ∈ l) && (au_status r =s "delivered"))).
    rewrite list_fmap_id. split_and!; [|done|].
    + f_equal. apply list_filter_iff. intros r. by rewrite negb_true_iff.
    + intros r Hr Hk. apply negb_false_iff, andb_true_iff in Hk as [Hid%bool_decide_eq_true_1 Hst].
      apply list_elem_of_fmap in Hid as (p & Ep & Hp).
      eapply elem_of_sublist in Hp; [|apply sublist_take].
      rewrite (merge_sort_Permutation delivered_le) in Hp. apply list_elem_of_filter in Hp as [Hp Hin].
      unfold purgeable, before in Hp. apply andb_true_iff in Hp as [Hp Hbefore].
      exists cutoff, size, others, p. split_and!; [done|by apply streq_true|done|done|by apply streq_true|].
      destruct (dv_DeliveredAt _) as [t|]; [|done]. exists t. split; [done|]. by apply Z.ltb_lt.
Qed.

(** Whatever the platform says to a worker whose lease has ended, its late
    failure overwrites the success of another worker: the delivered event goes
    back to retry, or to the failed ones, and in the first case it is sent
    again. *)
Theorem late_failure_resends s code retryAt d r :
  o_fault 0 = false → o_fault 1 = false → o_commit = None → NoDup (map au_ID (db_audit d)) →
  r ∈ db_audit d → au_status r = "delivered" →
  let d' := perform_audit s (AuFailed (au_ID r) code retryAt) d in
  ∃ r', r' ∈ db_audit d' ∧ audit_content r' = audit_content r ∧
    if (gs_MaxTries s <=? 0) || (dv_Attempts (au_Delivery r) <? gs_MaxTries s)
    then au_status r' = "retry" ∧ claimable_audit s retryAt r' = true
    else au_status r' = "failed".
Proof.
  intros Hf0 Hf1 Hc Hu Hr Hst d'.
  assert (Hhead : head (filter (λ x, (au_ID x =s au_ID r) = true) (db_audit d)) = Some r).
  { destruct (filter _ (db_audit d)) as [|x l] eqn:E.
    - exfalso. apply (not_elem_of_nil r). rewrite <- E. apply list_elem_of_filter.
      by rewrite streq_refl.
    - assert (Hx : x ∈ filter (λ x, (au_ID x =s au_ID r) = true) (db_audit d)) by (rewrite E; left).
      apply list_elem_of_filter in Hx as [Ex%streq_true Hx]. cbn. f_equal.
      by apply (audit_unique x r (db_audit d)). }
  set (status := if (gs_MaxTries s <=? 0) || (dv_Attempts (au_Delivery r) <? gs_MaxTries s)
                 then "retry" else "failed").
  set (f := λ c, mkColumns status (dv_Attempts c) retryAt None (dv_DeliveredAt c) (Some code)).
  assert (Ed : d' = set_audit (map (λ x, if au_ID x =s au_ID r then set_delivery (f (au_Delivery x)) x
                                         else x) (db_audit d)) d).
  { unfold d', perform_audit, MarkFailed, transaction, f, status. clear d'.
    destruct (0 <? gs_MaxTries s) eqn:E0; bool_hyps;
      cbv beta iota zeta delta [mbind Tx_bind take_row query mret Tx_ret update_audit exec].
    - rewrite Hf0. rewrite Hhead. rewrite Hf1, Hc. cbn [snd].
      rewrite (proj2 (Z.leb_gt (gs_MaxTries s) 0)) by lia. cbn [orb]. rewrite Z.ltb_antisym.
      case (gs_MaxTries s <=? dv_Attempts (au_Delivery r)); reflexivity.
    - rewrite Hf0, Hc. cbn [snd]. by rewrite (proj2 (Z.leb_le (gs_MaxTries s) 0)) by lia. }
  exists (set_delivery (f (au_Delivery r)) r). rewrite Ed. cbn [db_audit set_audit]. split_and!.
  - apply list_elem_of_fmap. exists r. by rewrite streq_refl.
  - done.
  - unfold f, status. destruct (_ || _) eqn:Eb; [|done]. split; [done|].
    unfold claimable_audit. cbn. rewrite Z.leb_refl. cbn.
    destruct (0 <? gs_MaxTries s) eqn:E0; [|done]. bool_hyps.
    apply orb_true_iff in Eb as [Eb|Eb]; bool_hyps; [lia|]. apply orb_true_iff. left.
    by apply Z.ltb_lt.
Qed.

End Flow.

(** ** Purging *)

Definition old_events (cutoff : Time) (rows : list auditOutboxRecord) : list auditOutboxRecord :=
  filter (λ r, purgeable cutoff r = true) rows.
Definition without_old (cutoff : Time) (rows : list auditOutboxRecord) : list auditOutboxRecord :=
  filter (λ r, purgeable cutoff r = false) rows.

(** One healthy batch: the oldest thousand go. *)
Lemma purge_batch (o : Oracle) cutoff d :
  healthy o → NoDup (map au_ID (db_audit d)) →
  ∃ n rows, @PurgeDelivered o cutoff purgeBatchLimit (λ d, d) d = (Ok n, set_audit rows d) ∧
    sublist rows (db_audit d) ∧ without_old cutoff rows = without_old cutoff (db_audit d) ∧
    length (old_events cutoff rows) = (length (old_events cutoff (db_audit d)) - 1000)%nat ∧
    (n = 0 → old_events cutoff (db_audit d) = []).
Proof.
  intros [Hf Hc] Hu. set (L := merge_sort delivered_le (old_events cutoff (db_audit d))).
  assert (HL : L ≡ₚ old_events cutoff (db_audit d)) by apply merge_sort_Permutation.
  set (ids := map au_ID (take 1000 L)).
  set (hit := λ r, bool_decide (au_ID r ∈ ids) && (au_status r =s "delivered")).
  assert (Hin : ∀ r, r ∈ db_audit d → au_ID r ∈ ids → purgeable cutoff r = true).
  { intros r Hr (p & Ep & Hp)%list_elem_of_fmap. eapply elem_of_sublist in Hp; [|apply sublist_take].
    rewrite HL in Hp. apply list_elem_of_filter in Hp as [Hp Hpin].
    by rewrite (audit_unique r p (db_audit d)). }
  assert (Hhit : ∀ r, r ∈ db_audit d → hit r = bool_decide (au_ID r ∈ ids)).
  { intros r Hr. unfold hit. case_bool_decide as Hid; [|done]. cbn.
    by apply Hin, andb_true_iff in Hid as [-> _]. }
  assert (E : @PurgeDelivered o cutoff purgeBatchLimit (λ d, d) d =
    if bool_decide (ids = []) then (Ok 0, d)
    else (Ok (Z.of_nat (length (filter (λ r, hit r = true) (db_audit d)))),
          set_audit (filter (λ r, hit r = false) (db_audit d)) d)).
  { unfold PurgeDelivered, transaction, query. rewrite Hf.
    change (purge_ids cutoff _ (db_audit d)) with ids. case_bool_decide; [done|].
    cbv beta iota zeta delta [delete_delivered exec]. rewrite Hf, Hc. reflexivity. }
  rewrite E. case_bool_decide as Hids.
  { exists 0, (db_audit d). apply fmap_nil_inv, take_nil_inv in Hids as [?|Hnil]; [done|].
    assert (Hold : old_events cutoff (db_audit d) = []) by (apply Permutation_nil; by rewrite <- HL, Hnil).
    rewrite Hold. split_and!; [by destruct d|done..]. }
  eexists _, _. split_and!; [reflexivity|apply sublist_filter| | |].
  - unfold without_old. rewrite list_filter_filter. apply filter_ext. intros r Hr.
    rewrite Hhit by done. split; [naive_solver|]. intros Hp. split; [done|].
    apply bool_decide_eq_false. intros Hid%Hin; [congruence|done].
  - transitivity (length (filter (λ r, au_ID r ∉ map au_ID (take 1000 L))
                            (old_events cutoff (db_audit d)))).
    + f_equal. unfold old_events. rewrite !list_filter_filter. apply filter_ext. intros r Hr.
      rewrite Hhit, bool_decide_eq_false by done. tauto.
    + apply leftover; [exact HL|]. rewrite HL. eapply sublist_NoDup; [exact Hu|].
      apply (fmap_sublist au_ID), sublist_filter.
  - intros Hn. exfalso. destruct L as [|r L0] eqn:EL; [done|].
    assert (HrL : r ∈ old_events cutoff (db_audit d)) by (rewrite <- HL; left).
    apply list_elem_of_filter in HrL as [_ Hr].
    assert (Hr' : r ∈ filter (λ r, hit r = true) (db_audit d)).
    { apply list_elem_of_filter. split; [|done]. rewrite Hhit by done.
      apply bool_decide_eq_true. left. }
    destruct (filter _ (db_audit d)); [by apply not_elem_of_nil in Hr'|discriminate].
Qed.

(** A purge without faults removes exactly the delivered events older than the
    retention, as long as twenty batches of a thousand cover them; it ends by
    itself and keeps every other event. *)
Theorem purge_exact oracle cancelled cutoff d :
  (∀ n, healthy (oracle n)) → (∀ n, cancelled n = false) → NoDup (map au_ID (db_audit d)) →
  (length (old_events cutoff (db_audit d)) ≤ 1000 * purgeBatches)%nat →
  purgeDelivered purgeBatches oracle cancelled (λ _ d, d) cutoff d =
  set_audit (without_old cutoff (db_audit d)) d.
Proof.
  generalize purgeBatches as fuel. intros fuel. revert oracle cancelled d.
  assert (Hnone : ∀ rows, old_events cutoff rows = [] → without_old cutoff rows = rows).
  { intros rows Hrows. apply filter_all, Forall_forall. intros r Hr.
    destruct (purgeable cutoff r) eqn:E; [|done]. exfalso. apply (not_elem_of_nil r).
    rewrite <- Hrows. by apply list_elem_of_filter. }
  induction fuel as [|fuel IH]; intros oracle cancelled d Ho Hc Hu Hl; cbn [purgeDelivered].
  { rewrite Nat.mul_0_r in Hl. apply Nat.le_0_r, nil_length_inv in Hl.
    rewrite Hnone by done. by destruct d. }
  rewrite Hc. destruct (purge_batch (oracle 0%nat) cutoff d (Ho _) Hu)
    as (n & rows & -> & Hsub & Hkeep & Hlen & Hn).
  destruct (n =? 0) eqn:En; bool_hyps.
  - specialize (Hn En). rewrite <- Hkeep, Hnone; [done|]. apply nil_length_inv. by rewrite Hlen, Hn.
  - rewrite IH; [change (db_audit (set_audit rows d)) with rows; by rewrite Hkeep|done..| |].
    + eapply sublist_NoDup; [exact Hu|]. by apply (fmap_sublist au_ID).
    + change (db_audit (set_audit rows d)) with rows. rewrite Hlen. lia.
Qed.

(** The retention of delivered audit events is the configured number of days as
    long as it fits 64 bits of nanoseconds (292 years), but a longer one
    overflows: 213504 days keep the events for 26 minutes. *)
Theorem retention_overflow raw :
  match parse_int64 (bytes (TrimSpace raw)) with
  | Some days =>
      if days <=? 106751 then DeliveredRetentionFromEnv raw = Z.max 0 days * 24 * Hour else True
  | None => DeliveredRetentionFromEnv raw = 0
  end ∧
  DeliveredRetentionFromEnv "213504" < 26 * Minute ∧ 0 < DeliveredRetentionFromEnv "213504".
Proof.
  split; [|vm_compute; by split]. unfold DeliveredRetentionFromEnv.
  destruct (empty_str (TrimSpace raw)) eqn:E.
  { apply streq_true in E. by rewrite E. }
  destruct (parse_int64 _) as [days|]; [|done]. destruct (days <=? 106751) eqn:Ed; [|done].
  bool_hyps. destruct (days <=? 0) eqn:E0; bool_hyps; [by rewrite Z.max_l by lia|].
  rewrite Z.max_r by lia.
  rewrite (wrap_int64_id (days * 24)), wrap_int64_id;
    unfold in_int64, int64_min, int64_max, Hour, Minute, Second in *; lia.
Qed.


(** ** Concrete instances *)

Definition sample_event (id status : string) (attempts : Z) (delivered : option Time)
    : auditOutboxRecord :=
  mkAuditRow id "t1" ("e-" +:+ id) None "A" "contract" "c1" None "" "" "UNKNOWN" "SUCCESS"
    (PStatusChange "c1" "draft" "pending" "")
    (mkColumns status attempts 0 None delivered None) 0.
Definition sample_audit_db : DB :=
  set_audit [sample_event "1" "delivered" 1 (Some 5); sample_event "2" "pending" 0 None;
             sample_event "3" "delivered" 2 (Some 50)] empty_db.
Definition calm_oracle : Oracle := {|
  o_fault := λ _, false; o_now := λ n, Z.of_nat n; o_id := λ _, "x"; o_commit := None
|}.

Lemma sample_audit_unique : NoDup (map au_ID (db_audit sample_audit_db)).
Proof. apply (bool_decide_eq_true_1 (NoDup _)). vm_compute. reflexivity. Qed.

(** A purge of both delivered events, between whose statements a late failure sends
    the first of them back: it stays. *)
Definition late_purge : audit_operation :=
  AuPurge 60 10 (@perform_audit calm_oracle (mkStore 0 20) (AuFailed "1" "DOWN" 100)).
Lemma audit_events_kept_witness :
  (∃ gone met, redelivered gone met
     (@perform_audit calm_oracle (mkStore 0 20) late_purge sample_audit_db) ∧
     map au_ID (db_audit met) = ["1"; "2"; "3"]) ∧
  map (λ r, (au_ID r, au_status r))
    (db_audit (@perform_audit calm_oracle (mkStore 0 20) late_purge sample_audit_db)) =
    [("1", "retry"); ("2", "pending")].
Proof.
  split; [|vm_compute; reflexivity].
  destruct (@audit_events_kept calm_oracle (mkStore 0 20) late_purge sample_audit_db) as [E|Hr].
  - apply (f_equal (λ d, length (db_audit d))) in E. vm_compute in E. discriminate E.
  - eexists _, _. split; [exact Hr|]. vm_compute. reflexivity.
Defined.

Lemma late_failure_resends_witness :
  ∃ r', r' ∈ db_audit (@perform_audit calm_oracle (mkStore 0 20) (AuFailed "1" "DOWN" 100)
                         sample_audit_db) ∧
    au_status r' = "retry" ∧ claimable_audit (mkStore 0 20) 100 r' = true.
Proof.
  destruct (@late_failure_resends calm_oracle (mkStore 0 20) "DOWN" 100 sample_audit_db
    (sample_event "1" "delivered" 1 (Some 5)) eq_refl eq_refl eq_refl sample_audit_unique)
    as (r' & Hr' & _ & Hs); [left|reflexivity|].
  exists r'. split; [exact Hr'|exact Hs].
Defined.

Lemma purge_exact_witness :
  purgeDelivered purgeBatches (λ _, calm_oracle) (λ _, false) (λ _ d, d) 60 sample_audit_db =
  set_audit [sample_event "2" "pending" 0 None] sample_audit_db.
Proof.
  etrans; [|reflexivity].
  apply (purge_exact (λ _, calm_oracle) (λ _, false) 60 sample_audit_db).
  - intros n. by split.
  - done.
  - exact sample_audit_unique.
  - apply (bool_decide_eq_true_1 _). vm_compute. reflexivity.
Defined.
