(* ===== verification/Intake.v ===== *)
(** * infrastructure/mysql and application: signed opportunities of the CRM

    [AcceptOpportunityIntake], [GetOpportunityIntake] and
    [ReviewOpportunityIntake] of repository.go and application/
    opportunity_intakes.go, the link of an opportunity to a contract
    (opportunity_link_guard.go) and its callback (opportunity_link_outbox.go,
    integration/crm/link.go). *)

From S2P Require Import Prelude GoStrings Decimal GoTime Status NumberRule PaymentTerm.
From S2P Require Import ProjectService ImportPolicy ApprovalRule Workflow Store Outbound Numbering.

#[local] Open Scope string_scope.
#[local] Open Scope Z_scope.
#[local] Open Scope list_scope.

Definition OpportunityIntakeAccepted : string := "ACCEPTED".
Definition OpportunityIntakeLinkConfirmed : string := "LINK_CONFIRMED".
Definition OpportunityIntakeLinkException : string := "LINK_EXCEPTION".
Definition maxOpportunityIntakeRefLength : Z := 128.

Record OpportunityIntakeReview : Type := mkReviewRequest {
  rv_Decision : string; rv_Reason : string; rv_Version : Z
}.

(** ** application/opportunity_intakes.go

    Each request is checked and normalised before the repository sees it. *)

Definition too_long (value : string) : bool := maxOpportunityIntakeRefLength <? rune_count value.

Definition accept_request (licensed : bool) (intake : OpportunityIntake) : res OpportunityIntake :=
  fail_if (negb licensed) ErrCommercialLicense;;
  let ref := TrimSpace (op_ContractRef intake) in
  let number := TrimSpace (op_OpportunityNo intake) in
  let request := TrimSpace (op_SourceRequestID intake) in
  let amount := TrimSpace (op_ExpectedAmount intake) in
  fail_if (empty_str (TrimSpace (op_TenantID intake)) || empty_str (TrimSpace (op_EventID intake)) ||
           (op_OpportunityID intake =? 0) || (op_EventVersion intake =? 0) || empty_str ref ||
           IsZero (op_OccurredAt intake)) ErrValidation;;
  fail_if (too_long ref || too_long number || too_long request) ErrValidation;;
  fail_if (negb (is_ok (PaymentAmountMinor amount))) ErrValidation;;
  Ok (mkOpportunity (op_IntakeID intake) (op_TenantID intake) (op_EventID intake)
        (op_OpportunityID intake) (op_EventVersion intake) number (op_CustomerID intake) ref
        (op_ContractID intake) (op_ContractNumber intake) amount (op_OccurredAt intake) request
        (op_Status intake) (op_Version intake) (op_ReviewedBy intake)
        (op_ReviewerDisplayName intake) (op_ReviewedAt intake) (op_ReviewReason intake)
        (op_CreatedAt intake)).

Definition nul : string := of_bytes [chr 0].

(** The review and the hash of its request. *)
Definition review_request `{Sha256} (licensed may_process : bool) (review : OpportunityIntakeReview)
    (key : string) : res (OpportunityIntakeReview * string) :=
  fail_if (negb licensed) ErrCommercialLicense;;
  fail_if (negb may_process) ErrForbidden;;
  let decision := TrimSpace (rv_Decision review) in
  let reason := TrimSpace (rv_Reason review) in
  let version := rv_Version review in
  fail_if ((negb (decision =s OpportunityIntakeLinkConfirmed) &&
            negb (decision =s OpportunityIntakeLinkException)) ||
           empty_str reason || (500 <? slen reason) || (version =? 0) ||
           empty_str (TrimSpace key) || (128 <? slen key)) ErrValidation;;
  Ok (mkReviewRequest decision reason version,
      sha256_hex (decision +:+ nul +:+ reason +:+ nul +:+ Itoa version)).

(** ** Rows *)

Definition opportunityIntakeFromRecord (r : opportunityIntakeRecord) : OpportunityIntake :=
  mkOpportunity (oi_IntakeID r) (oi_TenantID r) (oi_EventID r) (oi_OpportunityID r)
    (oi_EventVersion r) (oi_OpportunityNo r) (oi_CustomerID r) (oi_ContractRef r)
    (valueOrEmpty (oi_ContractID r)) (valueOrEmpty (oi_ContractNumber r)) (oi_ExpectedAmount r)
    (oi_OccurredAt r) (valueOrEmpty (oi_SourceRequestID r)) (oi_Status r) (oi_Version r)
    (valueOrEmpty (oi_ReviewedBy r)) (valueOrEmpty (oi_ReviewerDisplayName r)) (oi_ReviewedAt r)
    (valueOrEmpty (oi_ReviewReason r)) (oi_CreatedAt r).

(** What the columns keep of a value.  A DATETIME(3) column rounds a time to
    milliseconds and a DECIMAL(20,2) column prints an amount with two decimals, as
    MySQL documents; a value that is already stored is kept as it is. *)
Class StoredColumns := {
  stored_time : Time → Time;
  stored_amount : string → string;
  stored_time_again : ∀ t, stored_time (stored_time t) = stored_time t;
  stored_amount_again : ∀ a, stored_amount (stored_amount a) = stored_amount a
}.
(** The row in the table, where the code holds [r]. *)
Definition stored_intake `{StoredColumns} (r : opportunityIntakeRecord) : opportunityIntakeRecord :=
  mkIntake (oi_IntakeID r) (oi_TenantID r) (oi_EventID r) (oi_OpportunityID r) (oi_EventVersion r)
    (oi_CustomerID r) (oi_OpportunityNo r) (oi_ContractRef r) (oi_ContractID r)
    (oi_ContractNumber r) (stored_amount (oi_ExpectedAmount r)) (stored_time (oi_OccurredAt r))
    (oi_SourceRequestID r) (oi_Status r) (oi_Version r) (oi_ReviewedBy r)
    (oi_ReviewerDisplayName r) (oi_ReviewReason r) (stored_time <$> oi_ReviewedAt r)
    (stored_time (oi_CreatedAt r)) (stored_time (oi_UpdatedAt r)).

Definition new_intake (i : OpportunityIntake) (now : Time) : opportunityIntakeRecord :=
  mkIntake (op_IntakeID i) (op_TenantID i) (op_EventID i) (op_OpportunityID i)
    (op_EventVersion i) (op_CustomerID i) (op_OpportunityNo i) (op_ContractRef i) None None
    (op_ExpectedAmount i) (op_OccurredAt i) (stringPtr (op_SourceRequestID i))
    OpportunityIntakeAccepted 1 None None None None now now.

(** The row after a review; [link] is the contract it was linked to. *)
Definition reviewed_intake (review : OpportunityIntakeReview) (reviewer display : string)
    (now : Time) (link : option (string * string)) (r : opportunityIntakeRecord)
    : opportunityIntakeRecord :=
  let '(contract, number) :=
    match link with
    | Some (id, number) =>
        (Some id, if empty_str number then oi_ContractNumber r else Some number)
    | None => (oi_ContractID r, oi_ContractNumber r)
    end in
  mkIntake (oi_IntakeID r) (oi_TenantID r) (oi_EventID r) (oi_OpportunityID r)
    (oi_EventVersion r) (oi_CustomerID r) (oi_OpportunityNo r) (oi_ContractRef r) contract number
    (oi_ExpectedAmount r) (oi_OccurredAt r) (oi_SourceRequestID r) (rv_Decision review)
    (oi_Version r + 1) (Some reviewer) (Some display) (Some (rv_Reason review)) (Some now)
    (oi_CreatedAt r) now.
(** The answer names the link even where the row does not. *)
Definition set_link (link : option (string * string)) (o : OpportunityIntake) : OpportunityIntake :=
  let '(id, number) := match link with Some l => l | None => ("", "") end in
  mkOpportunity (op_IntakeID o) (op_TenantID o) (op_EventID o) (op_OpportunityID o)
    (op_EventVersion o) (op_OpportunityNo o) (op_CustomerID o) (op_ContractRef o) id number
    (op_ExpectedAmount o) (op_OccurredAt o) (op_SourceRequestID o) (op_Status o) (op_Version o)
    (op_ReviewedBy o) (op_ReviewerDisplayName o) (op_ReviewedAt o) (op_ReviewReason o)
    (op_CreatedAt o).

Definition EncodeOpportunityLinkCallback (item : OpportunityIntake) : OpportunityLinkCallback :=
  let number := TrimSpace (op_ContractNumber item) in
  let number := if empty_str number then TrimSpace (op_ContractRef item) else number in
  let linkedAt := if op_Status item =s OpportunityIntakeLinkConfirmed
                  then op_ReviewedAt item else None in
  mkCallback (op_EventID item) (op_IntakeID item) (op_OpportunityID item) (op_ContractID item)
    number (op_Status item) linkedAt (op_Version item).

(** The unique keys of con_opportunity_intake, ..._review and ..._link_outbox. *)
Definition of_event (tenantID eventID : string) (r : opportunityIntakeRecord) : bool :=
  (oi_TenantID r =s tenantID) && (oi_EventID r =s eventID).
Definition same_intake (a b : opportunityIntakeRecord) : bool :=
  (oi_IntakeID a =s oi_IntakeID b) || of_event (oi_TenantID a) (oi_EventID a) b.
Definition this_intake (tenantID id : string) (r : opportunityIntakeRecord) : bool :=
  (oi_TenantID r =s tenantID) && (oi_IntakeID r =s id).
Definition review_of (tenantID id key : string) (v : opportunityIntakeReviewRecord) : bool :=
  (ov_TenantID v =s tenantID) && (ov_IntakeID v =s id) && (ov_IdempotencyKey v =s key).
Definition same_review (a b : opportunityIntakeReviewRecord) : bool :=
  (ov_ReviewID a =s ov_ReviewID b) ||
  review_of (ov_TenantID a) (ov_IntakeID a) (ov_IdempotencyKey a) b.
Definition same_link (a b : opportunityLinkOutboxRecord) : bool :=
  (lo_TenantID a =s lo_TenantID b) && (lo_EventID a =s lo_EventID b).

(** ** The guards of a link *)

(** The contract with this identifier, and the one with this number. *)
Definition resolveOpportunityLinkTarget (idMatch numberMatch : option contractRecord)
    : res contractRecord :=
  match idMatch, numberMatch with
  | Some a, Some b => fail_if (negb (c_ID a =s c_ID b)) ErrOpportunityLinkRejected;; Ok a
  | Some a, None => Ok a
  | None, Some b => Ok b
  | None, None => Err ErrNotFound
  end.

Definition validateOpportunityLinkTarget (target : contractRecord)
    (intake : opportunityIntakeRecord) : res unit :=
  let party := c_party target in
  fail_if (oi_CustomerID intake =? 0) ErrOpportunityLinkRejected;;
  fail_if (negb (ordinaryContractRecord target)) ErrOpportunityLinkRejected;;
  fail_if ((c_Status target =s StatusArchived) || (c_Status target =s StatusTerminated))
    ErrOpportunityLinkRejected;;
  fail_if ((c_CounterpartySource party =s CounterpartyLocal) ||
           (c_CategorySource party =s CategoryLocal)) ErrOpportunityLinkRejected;;
  let existingCustomer := uintValueOrZero (c_CRMCustomerID party) in
  if negb (existingCustomer =? 0) then
    fail_if (negb (existingCustomer =? oi_CustomerID intake)) ErrOpportunityLinkRejected;;
    let linked := TrimSpace (valueOrEmpty (c_OpportunityID party)) in
    fail_if (negb (empty_str linked) && negb (linked =s Itoa (oi_OpportunityID intake)))
      ErrOpportunityLinkRejected
  else fail_if (ApprovalPassed (c_Status target)) ErrOpportunityLinkRejected.

Definition set_opportunity (opportunity : string) (customer : Z) (p : partyColumns)
    : partyColumns :=
  mkParty (Some opportunity) (c_OpportunityName p) (c_CounterpartySource p)
    (c_LocalCounterpartyID p) (c_CounterpartyVersion p) (c_CategorySource p)
    (c_IntegrationPolicy p) (Some customer) (c_CustomerName p) (c_CustomerAddress p)
    (c_CustomerContact p) (c_CustomerPhone p) (c_CustomerCreditLevel p).
Definition contract_set_link (opportunity : string) (customer : Z) (now : Time) (actor : string)
    (c : contractRecord) : contractRecord :=
  mkContract (c_ID c) (c_TenantID c) (c_ContractNumber c) (c_ContractNumberFormat c)
    (set_opportunity opportunity customer (c_party c)) (c_owner c) (c_terms c) (c_document c)
    (c_origin c) (c_Status c) (c_Version c) (c_CreatedAt c) (c_CreatedBy c) now actor.

(** ** The repository *)

Section Intakes.
Context `{Oracle} `{Collation} `{StoredColumns}.

(** A contract with this number; (tenant, number) is a unique key. *)
Definition numbered (tenantID number : string) (d : DB) : option contractRecord :=
  snd <$> head (filter (λ '(_, c), c_TenantID c = tenantID ∧
                          collate <$> c_ContractNumber c = Some (collate number))
                  (map_to_list (db_contracts d))).

Definition confirmOpportunityContractLink (meta : requestMeta) (tenantID : string)
    (intake : opportunityIntakeRecord) (reviewer display : string) : Tx (string * string) :=
  let ref := TrimSpace (oi_ContractRef intake) in
  guard (empty_str ref) ErrNotFound;;
  idMatch ← find_contract tenantID ref;
  numberMatch ← query (numbered tenantID ref);
  target ← lift (resolveOpportunityLinkTarget idMatch numberMatch);
  lift (validateOpportunityLinkTarget target intake);;
  let opportunity := Itoa (oi_OpportunityID intake) in
  now ← time_now;
  rows ← update_contract tenantID (c_ID target) (λ _, true)
           (contract_set_link opportunity (oi_CustomerID intake) now reviewer);
  guard (negb (rows =? 1)) ErrNotFound;;
  event ← newID;
  insertAuditOutbox tenantID event
    (mkEntry reviewer "CONTRACT_MANAGEMENT:OPPORTUNITY_LINK_CONFIRMED" "contract" (c_ID target)
       (rm_Audit meta)
       (PLinkConfirmed (oi_IntakeID intake) (oi_EventID intake) reviewer display
          (valueOrEmpty (c_OpportunityID (c_party target)))
          (uintValueOrZero (c_CRMCustomerID (c_party target))) opportunity
          (oi_CustomerID intake)));;
  let number := valueOrEmpty (c_ContractNumber target) in
  mret (c_ID target, if empty_str number then ref else number).

Definition enqueueOpportunityLink (item : OpportunityIntake) (payload : OpportunityLinkCallback)
    : Tx unit :=
  id ← newID;
  next ← time_now;
  now ← time_now;
  modify (λ d, set_links (insert_ignore same_link
    (mkLink id (op_TenantID item) (op_IntakeID item) (op_EventID item) (JsonOf payload)
       (queued next) now) (db_links d)) d).

Definition find_intake (tenantID id : string) : Tx (option opportunityIntakeRecord) :=
  query (λ d, head (filter (λ r, this_intake tenantID id r = true) (db_intakes d))).
(** [tx.Save(&row)]: all columns of the row with this primary key.  The table keeps
    what its columns hold of [row]; the code goes on with [row] itself. *)
Definition save_intake (row : opportunityIntakeRecord) : Tx unit :=
  modify (λ d, set_intakes
    (map (λ r, if oi_IntakeID r =s oi_IntakeID row then stored_intake row else r) (db_intakes d)) d).
Definition insert_review (v : opportunityIntakeReviewRecord) : Tx unit :=
  exec (λ d, rows ← insert_unique same_review v (db_reviews d); Ok (tt, set_reviews rows d)).

Definition first_review (meta : requestMeta) (tenantID id reviewer : string)
    (review : OpportunityIntakeReview) (key hash display : string) (row : opportunityIntakeRecord)
    : Tx OpportunityIntake :=
  guard (negb (oi_Version row =? rv_Version review)) ErrVersionConflict;;
  guard (negb (oi_Status row =s OpportunityIntakeAccepted)) ErrStateConflict;;
  now ← time_now;
  link ← (if rv_Decision review =s OpportunityIntakeLinkConfirmed then
            l ← confirmOpportunityContractLink meta tenantID
                  (reviewed_intake review reviewer display now None row) reviewer display;
            mret (Some l)
          else mret None);
  let saved := reviewed_intake review reviewer display now link row in
  save_intake saved;;
  let out := set_link link (opportunityIntakeFromRecord saved) in
  enqueueOpportunityLink out (EncodeOpportunityLinkCallback out);;
  review_id ← newID;
  insert_review (mkReview review_id tenantID id key hash (rv_Decision review) (rv_Reason review)
    (rv_Version review) reviewer (Some display) (JsonOf out) now);;
  mret out.

Definition review_body (meta : requestMeta) (tenantID id reviewer : string)
    (review : OpportunityIntakeReview) (key hash display : string) : Tx OpportunityIntake :=
  row ← take_row (find_intake tenantID id) ErrNotFound;
  prior ← query (λ d, head (filter (λ v, review_of tenantID id key v = true) (db_reviews d)));
  match prior with
  | Some p => guard (negb (ov_RequestHash p =s hash)) ErrStateConflict;; lift (unmarshal (ov_Response p))
  | None => first_review meta tenantID id reviewer review key hash display row
  end.
Definition ReviewOpportunityIntake (meta : requestMeta) (tenantID id reviewer : string)
    (review : OpportunityIntakeReview) (key hash display : string)
    : DB → res OpportunityIntake * DB :=
  transaction (review_body meta tenantID id reviewer review key hash display).

Definition GetOpportunityIntake (tenantID id : string) : Tx OpportunityIntake :=
  row ← take_row (find_intake tenantID id) ErrNotFound;
  mret (opportunityIntakeFromRecord row).

(** ** Accepting an intake

    Three statements, each on its own; [others] is what other sessions commit
    after the first. *)

Definition find_event (tenantID eventID : string) (d : DB) : option opportunityIntakeRecord :=
  head (filter (λ r, of_event tenantID eventID r = true) (db_intakes d)).
Definition insert_intake (i : OpportunityIntake) (now : Time) : Tx opportunityIntakeRecord :=
  let row := new_intake i now in
  exec (λ d, rows ← insert_unique same_intake (stored_intake row) (db_intakes d);
             Ok (row, set_intakes rows d)).
Definition accept_insert (i : OpportunityIntake) : Tx opportunityIntakeRecord :=
  now ← time_now; insert_intake i now.
(** [First(&row)] of a row whose primary key is set asks for that key too, as gorm
    documents it. *)
Definition reread_intake (i : OpportunityIntake) (d : DB) : option opportunityIntakeRecord :=
  head (filter (λ r, of_event (op_TenantID i) (op_EventID i) r &&
                     (empty_str (op_IntakeID i) || (oi_IntakeID r =s op_IntakeID i)) = true)
          (db_intakes d)).

Definition accept_body (i : OpportunityIntake) (others : DB → DB) : Tx OpportunityIntake :=
  found ← query (find_event (op_TenantID i) (op_EventID i));
  match found with
  | Some row => mret (opportunityIntakeFromRecord row)
  | None => λ '(t, d),
      match accept_insert i (t, others d) with
      | (Ok row, s) => (Ok (opportunityIntakeFromRecord row), s)
      | (Err ErrDuplicatedKey, s) =>
          match query (reread_intake i) s with
          | (Ok (Some row), s') => (Ok (opportunityIntakeFromRecord row), s')
          | (_, s') => (Err ErrDuplicatedKey, s')
          end
      | (Err e, s) => (Err e, s)
      end
  end.
Definition AcceptOpportunityIntake (i : OpportunityIntake) (others : DB → DB) (d : DB)
    : res OpportunityIntake * DB :=
  let '(r, (_, d')) := accept_body i others (0%nat, d) in (r, d').

End Intakes.
