(* ===== verification/IntakeFlow.v ===== *)
(** * The intake of opportunities, as a history

    An intake waits until its one review; the review, the callback to the CRM
    and the link of the contract come together.  The invariant holds for every
    interleaving of accepted intakes, reviews, deliveries and all other calls. *)

From stdpp Require Import relations sorting.
From S2P Require Import Prelude GoStrings Decimal GoTime BusinessClock Status NumberRule.
From S2P Require Import PaymentTerm ProjectService ImportPolicy Utf8 PhoneCipher ApprovalRule.
From S2P Require Import Workflow Store Outbound Numbering Repository Changes Refinement Frames.
From S2P Require Import Signing SigningFlow IntegrationOutbox Dispatch QueueFlow.
From S2P Require Import DeliveryFlow Scenario Intake.

#[local] Open Scope string_scope.
#[local] Open Scope Z_scope.
#[local] Open Scope list_scope.

(** ** What happens *)

(** The insertion of an accepted intake, a review request, anything else. *)
Inductive intake_event : Type :=
  | InInsert (oracle : Oracle) (i : OpportunityIntake)
  | InReview (oracle : Oracle) (licensed may_process : bool) (meta : requestMeta)
      (tenantID id reviewer : string) (review : OpportunityIntakeReview) (key display : string)
  | InBackground (b : background).

Section Events.
Context `{GoUnicode} `{Sha256} `{TzDatabase} `{Collation} `{Documents} `{Aead} `{PhoneKeyEnv}.
Context `{StoredColumns}.

(** The service's review: the request is checked, then the repository runs. *)
Definition serve_review (oracle : Oracle) (licensed may_process : bool) (meta : requestMeta)
    (tenantID id reviewer : string) (review : OpportunityIntakeReview) (key display : string)
    (d : DB) : res OpportunityIntake * DB :=
  match review_request licensed may_process review key with
  | Err e => (Err e, d)
  | Ok (review', hash) =>
      @ReviewOpportunityIntake oracle _ _ meta tenantID id reviewer review' key hash display d
  end.

Definition intake_step (e : intake_event) (d : DB) : DB :=
  match e with
  | InInsert oracle i => (@accept_insert oracle _ i (0%nat, d)).2.2
  | InReview oracle licensed may_process meta tenantID id reviewer review key display =>
      (serve_review oracle licensed may_process meta tenantID id reviewer review key display d).2
  | InBackground b => background_step "" b d
  end.
Definition intake_steps (events : list intake_event) (d : DB) : DB :=
  foldl (λ d e, intake_step e d) d events.

End Events.

(** ** The invariant *)

Section Invariant.
Context `{StoredColumns}.

Definition reviews_of (r : opportunityIntakeRecord) (V : list opportunityIntakeReviewRecord)
    : list opportunityIntakeReviewRecord :=
  filter (λ v, ov_TenantID v = oi_TenantID r ∧ ov_IntakeID v = oi_IntakeID r) V.
Definition links_of (r : opportunityIntakeRecord) (L : list opportunityLinkOutboxRecord)
    : list opportunityLinkOutboxRecord :=
  filter (λ l, lo_TenantID l = oi_TenantID r ∧ lo_EventID l = oi_EventID r) L.

Definition awaits_review (r : opportunityIntakeRecord) V L : Prop :=
  oi_Status r = OpportunityIntakeAccepted ∧ oi_Version r = 1 ∧ oi_ContractID r = None ∧
  oi_ContractNumber r = None ∧ reviews_of r V = [] ∧ links_of r L = [].
(** The answer of a review made at the time [at], where the row keeps what its
    column holds of that time. *)
Definition answered_at (at_ : Time) (o : OpportunityIntake) : OpportunityIntake :=
  mkOpportunity (op_IntakeID o) (op_TenantID o) (op_EventID o) (op_OpportunityID o)
    (op_EventVersion o) (op_OpportunityNo o) (op_CustomerID o) (op_ContractRef o) (op_ContractID o)
    (op_ContractNumber o) (op_ExpectedAmount o) (op_OccurredAt o) (op_SourceRequestID o)
    (op_Status o) (op_Version o) (op_ReviewedBy o) (op_ReviewerDisplayName o) (Some at_)
    (op_ReviewReason o) (op_CreatedAt o).
Definition is_reviewed (r : opportunityIntakeRecord) V L : Prop :=
  ∃ v l at_, reviews_of r V = [v] ∧ links_of r L = [l] ∧
    oi_Status r = ov_Decision v ∧
    (ov_Decision v = OpportunityIntakeLinkConfirmed ∨
     ov_Decision v = OpportunityIntakeLinkException) ∧
    oi_Version r = 2 ∧ ov_Version v = 1 ∧
    oi_ReviewedAt r = Some (stored_time at_) ∧
    ov_Response v = JsonOf (answered_at at_ (opportunityIntakeFromRecord r)) ∧
    lo_IntakeID l = oi_IntakeID r ∧
    lo_Payload l =
      JsonOf (EncodeOpportunityLinkCallback (answered_at at_ (opportunityIntakeFromRecord r))).

Record intakes_sound (I : list opportunityIntakeRecord) (V : list opportunityIntakeReviewRecord)
    (L : list opportunityLinkOutboxRecord) : Prop := {
  is_ids : NoDup (map oi_IntakeID I);
  is_events : NoDup (map (λ r, (oi_TenantID r, oi_EventID r)) I);
  is_rows : Forall (λ r, awaits_review r V L ∨ is_reviewed r V L) I;
  is_stored : Forall (λ r, stored_intake r = r) I;
  is_reviews : Forall (λ v, ∃ r, r ∈ I ∧ ov_TenantID v = oi_TenantID r ∧
                                 ov_IntakeID v = oi_IntakeID r) V;
  is_links : Forall (λ l, ∃ r, r ∈ I ∧ lo_TenantID l = oi_TenantID r ∧
                                lo_EventID l = oi_EventID r) L
}.
Definition intakes_ok (d : DB) : Prop := intakes_sound (db_intakes d) (db_reviews d) (db_links d).

Lemma stored_again r : stored_intake (stored_intake r) = stored_intake r.
Proof.
  unfold stored_intake. cbn. rewrite !stored_time_again, stored_amount_again.
  destruct (oi_ReviewedAt r); cbn; by rewrite ?stored_time_again.
Qed.

End Invariant.

(** ** The lists *)

Lemma NoDup_map_eq {A B} (f : A → B) l x y :
  NoDup (map f l) → x ∈ l → y ∈ l → f x = f y → x = y.
Proof.
  intros Hn Hx Hy E. apply list_elem_of_lookup in Hx as [i Hi]. apply list_elem_of_lookup in Hy as [j Hj].
  assert (i = j) as ->; [|congruence].
  eapply NoDup_lookup; [exact Hn| |]; rewrite list_lookup_fmap; [by rewrite Hi|by rewrite Hj, E].
Qed.
Lemma nodup_snoc {A} (l : list A) x : NoDup l → x ∉ l → NoDup (l ++ [x]).
Proof.
  intros Hl Hx. apply NoDup_app. split_and!; [done| |apply NoDup_singleton].
  intros y Hy ->%list_elem_of_singleton. done.
Qed.
Lemma existsb_none {A} (f : A → bool) l : existsb f l = false → ∀ x, x ∈ l → f x = false.
Proof.
  intros E x Hx. destruct (f x) eqn:Ex; [|done]. rewrite <- E. symmetry.
  apply existsb_exists. exists x. by rewrite <- list_elem_of_In.
Qed.

Lemma same_intake_false a b :
  same_intake a b = false →
  oi_IntakeID a ≠ oi_IntakeID b ∧ (oi_TenantID a, oi_EventID a) ≠ (oi_TenantID b, oi_EventID b).
Proof.
  intros [H1 H2]%orb_false_iff. apply streq_false in H1. split; [done|]. intros [= Et Ee].
  unfold of_event in H2. by rewrite Et, Ee, !streq_refl in H2.
Qed.

Section Lists.
Context `{StoredColumns}.
Variables (I : list opportunityIntakeRecord) (V : list opportunityIntakeReviewRecord)
  (L : list opportunityLinkOutboxRecord).
Hypothesis HS : intakes_sound I V L.

Lemma sound_insert i now I' :
  insert_unique same_intake (stored_intake (new_intake i now)) I = Ok I' → intakes_sound I' V L.
Proof using HS.
  intros [-> He]%insert_unique_ok.
  assert (Hr0 : stored_intake (stored_intake (new_intake i now)) = stored_intake (new_intake i now))
    by apply stored_again.
  assert (Hn : ∀ V' L', reviews_of (stored_intake (new_intake i now)) V' = [] →
    links_of (stored_intake (new_intake i now)) L' = [] →
    awaits_review (stored_intake (new_intake i now)) V' L') by (intros; by split_and!).
  set (r := stored_intake (new_intake i now)) in *.
  assert (Hf : ∀ x, x ∈ I → oi_IntakeID r ≠ oi_IntakeID x ∧
    (oi_TenantID r, oi_EventID r) ≠ (oi_TenantID x, oi_EventID x)).
  { intros x Hx. by apply same_intake_false, (existsb_none _ _ He). }
  destruct HS as [Hi Hev Hr Hst Hv Hl]. split.
  - rewrite map_app. apply nodup_snoc; [done|]. intros (x & E & Hx)%list_elem_of_fmap.
    by destruct (Hf x Hx).
  - rewrite map_app. apply nodup_snoc; [done|]. intros (x & E & Hx)%list_elem_of_fmap.
    by destruct (Hf x Hx).
  - apply Forall_app. split; [done|]. apply Forall_singleton. left. apply Hn.
    + apply filter_nothing. intros v Hin [_ E]. rewrite Forall_forall in Hv.
      destruct (Hv v Hin) as (x & Hx & _ & Ex). destruct (Hf x Hx) as [[] _]. congruence.
    + apply filter_nothing. intros l Hin [E1 E2]. rewrite Forall_forall in Hl.
      destruct (Hl l Hin) as (x & Hx & E3 & E4). destruct (Hf x Hx) as [_ []]. congruence.
  - apply Forall_app. split; [done|by apply Forall_singleton].
  - eapply Forall_impl; [exact Hv|]. intros v (x & Hx & E). exists x. by rewrite elem_of_app; auto.
  - eapply Forall_impl; [exact Hl|]. intros v (x & Hx & E). exists x. by rewrite elem_of_app; auto.
Qed.

Lemma sound_awaits r :
  r ∈ I → oi_Status r = OpportunityIntakeAccepted → awaits_review r V L.
Proof using HS.
  intros Hr Hs. pose proof (is_rows _ _ _ HS) as Hrows. rewrite Forall_forall in Hrows.
  destruct (Hrows r Hr) as [|(v & l & at_ & _ & _ & Es & [E|E] & _)]; [done|..]; rewrite Hs, E in Es;
    discriminate.
Qed.

Definition replaced (saved r : opportunityIntakeRecord) : opportunityIntakeRecord :=
  if oi_IntakeID r =s oi_IntakeID saved then saved else r.

Lemma sound_review r saved v l :
  r ∈ I → oi_Status r = OpportunityIntakeAccepted →
  oi_IntakeID saved = oi_IntakeID r → oi_TenantID saved = oi_TenantID r →
  oi_EventID saved = oi_EventID r →
  ov_TenantID v = oi_TenantID r → ov_IntakeID v = oi_IntakeID r →
  lo_TenantID l = oi_TenantID r → lo_EventID l = oi_EventID r →
  stored_intake saved = saved →
  (reviews_of r V = [] → links_of r L = [] → is_reviewed saved [v] [l]) →
  intakes_sound (map (replaced saved) I) (V ++ [v]) (insert_ignore same_link l L).
Proof using HS.
  intros Hr Hs Ei Et Ee Evt Evi Elt Ele Hsaved Hdone.
  destruct (sound_awaits r Hr Hs) as (_ & _ & _ & _ & HV & HL). specialize (Hdone HV HL).
  assert (insert_ignore same_link l L = L ++ [l]) as ->.
  { unfold insert_ignore. destruct (existsb (same_link l) L) eqn:E; [|done].
    apply existsb_exists in E as (x & Hx & E). unfold same_link in E. bool_hyps.
    apply list_elem_of_In in Hx.
    assert (x ∈ links_of r L) as Hin; [|rewrite HL in Hin; by apply not_elem_of_nil in Hin].
    apply list_elem_of_filter. split; [|done].
    repeat match goal with h : (_ =s _) = true |- _ => apply streq_true in h end. split; congruence. }
  destruct HS as [Hi Hev Hrows Hst Hv Hl].
  assert (Hfix : ∀ x, x ∈ I → oi_IntakeID (replaced saved x) = oi_IntakeID x ∧
    oi_TenantID (replaced saved x) = oi_TenantID x ∧ oi_EventID (replaced saved x) = oi_EventID x).
  { intros x Hx. unfold replaced. destruct (_ =s _) eqn:E; [|done]. apply streq_true in E.
    assert (x = r) as -> by (apply (NoDup_map_eq oi_IntakeID I); congruence). by split_and!. }
  assert (Hmap : ∀ (B : Type) (f : opportunityIntakeRecord → B),
    (∀ x, x ∈ I → f (replaced saved x) = f x) → map f (map (replaced saved) I) = map f I).
  { intros B f Hf. rewrite map_map. apply list_fmap_ext. intros k x Hx%list_elem_of_lookup_2.
    by apply Hf. }
  split.
  - rewrite Hmap; [done|]. intros x Hx. by destruct (Hfix x Hx) as (-> & _).
  - rewrite Hmap; [done|]. intros x Hx. by destruct (Hfix x Hx) as (_ & -> & ->).
  - apply Forall_forall. intros y (x & -> & Hx)%list_elem_of_fmap. unfold replaced.
    destruct (oi_IntakeID x =s _) eqn:E.
    + right.
      assert (reviews_of saved (V ++ [v]) = reviews_of saved [v]) as E1.
      { unfold reviews_of in *. by rewrite filter_app, Et, Ei, HV. }
      assert (links_of saved (L ++ [l]) = links_of saved [l]) as E2.
      { unfold links_of in *. by rewrite filter_app, Et, Ee, HL. }
      unfold is_reviewed. by rewrite E1, E2.
    + apply streq_false in E.
      assert (reviews_of x (V ++ [v]) = reviews_of x V) as HVx.
      { unfold reviews_of. rewrite filter_app, (filter_nothing _ [v]), app_nil_r; [done|].
        intros w ->%list_elem_of_singleton [_ E']. congruence. }
      assert (links_of x (L ++ [l]) = links_of x L) as HLx.
      { unfold links_of. rewrite filter_app, (filter_nothing _ [l]), app_nil_r; [done|].
        intros w ->%list_elem_of_singleton [E1 E2]. apply E. rewrite Ei.
        f_equal. apply (NoDup_map_eq (λ r, (oi_TenantID r, oi_EventID r)) I); congruence. }
      unfold awaits_review, is_reviewed. rewrite HVx, HLx.
      rewrite Forall_forall in Hrows. by apply Hrows.
  - apply Forall_map. eapply Forall_impl; [exact Hst|]. cbn. intros x Hx. unfold replaced.
    by destruct (_ =s _).
  - apply Forall_app. split.
    + eapply Forall_impl; [exact Hv|]. intros w (x & Hx & E1 & E2). exists (replaced saved x).
      destruct (Hfix x Hx) as (-> & -> & _). split_and!; [by apply list_elem_of_fmap_2|done..].
    + apply Forall_singleton. exists (replaced saved r).
      destruct (Hfix r Hr) as (-> & -> & _). split_and!; [by apply list_elem_of_fmap_2|done..].
  - apply Forall_app. split.
    + eapply Forall_impl; [exact Hl|]. intros w (x & Hx & E1 & E2). exists (replaced saved x).
      destruct (Hfix x Hx) as (_ & -> & ->). split_and!; [by apply list_elem_of_fmap_2|done..].
    + apply Forall_singleton. exists (replaced saved r).
      destruct (Hfix r Hr) as (_ & -> & ->). split_and!; [by apply list_elem_of_fmap_2|done..].
Qed.

(** Deliveries of the callbacks. *)
Lemma sound_redelivered (g : opportunityLinkOutboxRecord → opportunityLinkOutboxRecord) :
  (∀ l, same_event l (g l)) → intakes_sound I V (map g L).
Proof using HS.
  intros Hg. assert (Hf : ∀ l, lo_TenantID (g l) = lo_TenantID l ∧ lo_EventID (g l) = lo_EventID l ∧
    lo_IntakeID (g l) = lo_IntakeID l ∧ lo_Payload (g l) = lo_Payload l).
  { intros l. destruct (proj1 (same_event_iff _ _) (Hg l)) as [c ->]. done. }
  assert (Hl : ∀ r, links_of r (map g L) = map g (links_of r L)).
  { intros r. unfold links_of. clear HS. induction L as [|l k IH]; [done|]. cbn [map].
    rewrite !filter_cons, IH. destruct (Hf l) as (E1 & E2 & _).
    destruct (decide (lo_TenantID (g l) = _ ∧ _)) as [Hy|Hn], (decide (lo_TenantID l = _ ∧ _))
      as [Hy'|Hn']; [done| | |done]; rewrite E1, E2 in *; contradiction. }
  destruct HS as [Hi Hev Hrows Hst Hv Hls]. split; [done|done| |done|done|].
  - eapply Forall_impl; [exact Hrows|]. unfold awaits_review, is_reviewed. intros r.
    rewrite Hl. intros [(? & ? & ? & ? & ? & ->)|(v & l & at_ & E1 & -> & ? & ? & ? & ? & ? & ? & ? & ?)];
      [left; by split_and!|right].
    exists v, (g l), at_. destruct (Hf l) as (_ & _ & -> & ->). by split_and!.
  - apply Forall_map. eapply Forall_impl; [exact Hls|]. cbn. intros l (r & Hr & E).
    exists r. destruct (Hf l) as (-> & -> & _). by split.
Qed.

End Lists.

(** ** What the operations do *)

Definition intake_tables (d : DB) := (db_intakes d, db_reviews d, db_links d).
#[export] Instance intake_tables_foreign : Foreign intake_tables.
Proof. by repeat constructor. Qed.

Section Operations.
Context `{Oracle} `{Collation} `{StoredColumns}.

(** The link finds a contract that passes the guards and changes only that. *)
Lemma runs_confirm meta t intake reviewer display d link d' :
  runs (confirmOpportunityContractLink meta t intake reviewer display) d link d' →
  ∃ idMatch target c now row,
    (∀ c0, idMatch = Some c0 → db_contracts d !! TrimSpace (oi_ContractRef intake) = Some c0 ∧
       c_TenantID c0 = t) ∧
    resolveOpportunityLinkTarget idMatch (numbered t (TrimSpace (oi_ContractRef intake)) d) =
      Ok target ∧
    validateOpportunityLinkTarget target intake = Ok tt ∧
    db_contracts d !! c_ID target = Some c ∧ c_TenantID c = t ∧
    au_Payload row = PLinkConfirmed (oi_IntakeID intake) (oi_EventID intake) reviewer display
      (valueOrEmpty (c_OpportunityID (c_party target)))
      (uintValueOrZero (c_CRMCustomerID (c_party target))) (Itoa (oi_OpportunityID intake))
      (oi_CustomerID intake) ∧
    link = (c_ID target, if empty_str (valueOrEmpty (c_ContractNumber target))
                         then TrimSpace (oi_ContractRef intake)
                         else valueOrEmpty (c_ContractNumber target)) ∧
    d' = set_audit (db_audit d ++ [row])
      (set_contracts (<[c_ID target := contract_set_link (Itoa (oi_OpportunityID intake))
                          (oi_CustomerID intake) now reviewer c]> (db_contracts d)) d).
Proof.
  intros Hr. unfold confirmOpportunityContractLink in Hr. cbv zeta in Hr.
  apply runs_bind in Hr as (u & d1 & Hg & Hr). inv_tx Hg.
  apply runs_bind in Hr as (idMatch & d1 & Hf & Hr). apply runs_find_contract in Hf as [-> Hid].
  apply runs_bind in Hr as (num & d1 & Hq & Hr). inv_tx Hq.
  apply runs_bind in Hr as (target & d1 & Ht & Hr). inv_tx Ht.
  apply runs_bind in Hr as (v & d1 & Hv & Hr). inv_tx Hv. destruct v.
  apply runs_bind in Hr as (now & d1 & Hn & Hr). inv_tx Hn.
  apply runs_bind in Hr as (n & d1 & Hu & Hr). apply runs_update_contract in Hu.
  apply runs_bind in Hr as (u2 & d2 & Hg2 & Hr). inv_tx Hg2. bool_hyps. subst n.
  destruct Hu as [(_ & c & Hc & Htc & _ & ->)|[? _]]; [|lia].
  apply runs_bind in Hr as (ev & d2 & He & Hr). inv_tx He.
  apply runs_bind in Hr as (u3 & d2 & Ha & Hr). apply runs_audit in Ha as (row & -> & Hp).
  inv_tx Hr. exists idMatch, target, c, now, row. by split_and!.
Qed.

Lemma keeps_confirm meta t intake reviewer display :
  keeps intake_tables (confirmOpportunityContractLink meta t intake reviewer display).
Proof.
  intros d l d' (? & ? & ? & ? & ? & _ & _ & _ & _ & _ & _ & _ & ->)%runs_confirm. done.
Qed.

Lemma runs_find_intake t id d r d' :
  runs (take_row (find_intake t id) ErrNotFound) d r d' →
  d' = d ∧ r ∈ db_intakes d ∧ oi_TenantID r = t ∧ oi_IntakeID r = id.
Proof.
  intros Hr%runs_take_row. apply runs_query in Hr as [E ->]. symmetry in E.
  apply head_Some_elem_of in E. apply list_elem_of_filter in E as [Ht Hin].
  unfold this_intake in Ht. bool_hyps.
  repeat match goal with h : (_ =s _) = true |- _ => apply streq_true in h end. done.
Qed.

(** The first review of an intake, and everything it writes to the tables. *)
Lemma runs_first_review meta t id reviewer review key hash display row d out d' :
  runs (first_review meta t id reviewer review key hash display row) d out d' →
  oi_Version row = rv_Version review ∧ oi_Status row = OpportunityIntakeAccepted ∧
  ∃ now link vid lid next created,
    let saved := reviewed_intake review reviewer display now link row in
    out = set_link link (opportunityIntakeFromRecord saved) ∧
    (rv_Decision review = OpportunityIntakeLinkConfirmed ↔ link ≠ None) ∧
    db_intakes d' = map (replaced (stored_intake saved)) (db_intakes d) ∧
    db_reviews d' = db_reviews d ++ [mkReview vid t id key hash (rv_Decision review)
      (rv_Reason review) (rv_Version review) reviewer (Some display) (JsonOf out) now] ∧
    db_links d' = insert_ignore same_link (mkLink lid (op_TenantID out) (op_IntakeID out)
      (op_EventID out) (JsonOf (EncodeOpportunityLinkCallback out)) (queued next) created)
      (db_links d) ∧
    ∃ d0, match link with
          | Some l => runs (confirmOpportunityContractLink meta t
                              (reviewed_intake review reviewer display now None row) reviewer display)
                        d l d0
          | None => d0 = d
          end ∧
      d' = set_reviews (db_reviews d') (set_links (db_links d') (set_intakes (db_intakes d') d0)).
Proof.
  intros Hr. unfold first_review in Hr. cbv zeta in Hr.
  apply runs_bind in Hr as (u & d1 & Hg & Hr). inv_tx Hg. bool_hyps.
  apply runs_bind in Hr as (u2 & d1 & Hg2 & Hr). inv_tx Hg2. bool_hyps. apply streq_true in Hg2.
  split; [done|]. split; [done|].
  apply runs_bind in Hr as (now & d1 & Hn & Hr). inv_tx Hn.
  apply runs_bind in Hr as (link & d1 & Hl & Hr).
  assert (intake_tables d1 = intake_tables d ∧
    (rv_Decision review = OpportunityIntakeLinkConfirmed ↔ link ≠ None) ∧
    match link with
    | Some l => runs (confirmOpportunityContractLink meta t
                        (reviewed_intake review reviewer display now None row) reviewer display) d l d1
    | None => d1 = d
    end) as (Ht & Hd & Hlink).
  { destruct (rv_Decision review =s _) eqn:Ed.
    - apply streq_true in Ed. apply runs_bind in Hl as (l & d2 & Hc & Hl). inv_tx Hl.
      split; [by apply (keeps_confirm _ _ _ _ _ _ _ _ Hc)|done].
    - apply streq_false in Ed. inv_tx Hl. done. }
  injection Ht as Ei Ev El.
  apply runs_bind in Hr as (u3 & d2 & Hs & Hr). apply runs_modify in Hs as ->.
  apply runs_bind in Hr as (u4 & d2 & Hq & Hr). unfold enqueueOpportunityLink in Hq.
  apply runs_bind in Hq as (lid & d3 & Hi & Hq). inv_tx Hi.
  apply runs_bind in Hq as (next & d3 & Hi & Hq). inv_tx Hi.
  apply runs_bind in Hq as (created & d3 & Hi & Hq). inv_tx Hi. inv_tx Hq.
  apply runs_bind in Hr as (vid & d2 & Hi & Hr). inv_tx Hi.
  apply runs_bind in Hr as (u5 & d2 & Hi & Hr). apply runs_exec in Hi. inv_ok Hi.
  apply insert_unique_ok in Hv as [-> _]. inv_tx Hr. cbn.
  exists now, link, vid, lid, next, created. rewrite Ei, Ev, El. split_and!; [done..|].
  exists d1. by split.
Qed.

End Operations.

(** ** Every step keeps the invariant *)

Section Steps.
Context `{GoUnicode} `{Sha256} `{TzDatabase} `{Collation} `{Documents} `{Aead} `{PhoneKeyEnv}.
Context `{StoredColumns}.

Lemma accept_insert_tables (o : Oracle) i s :
  let d' := (accept_insert i s).2.2 in
  d' = s.2 ∨ ∃ now I', insert_unique same_intake (stored_intake (new_intake i now)) (db_intakes s.2) = Ok I' ∧
    d' = set_intakes I' s.2.
Proof.
  destruct s as [t d]. cbn [snd]. unfold accept_insert, insert_intake, exec, time_now, mbind, Tx_bind.
  cbv beta iota zeta. destruct (o_fault (S t)); [by left|].
  destruct (insert_unique _ _ _) as [I'|e] eqn:E; [right|by left]. by eexists _, _.
Qed.

(** What an effective review did. *)
Lemma runs_review `{Oracle} meta t id reviewer review key hash display d out d' :
  runs (review_body meta t id reviewer review key hash display) d out d' →
  ∃ row, row ∈ db_intakes d ∧ oi_TenantID row = t ∧ oi_IntakeID row = id ∧
    ((∃ v, v ∈ db_reviews d ∧ review_of t id key v = true ∧ ov_RequestHash v = hash ∧
       ov_Response v = JsonOf out ∧ d' = d) ∨
     runs (first_review meta t id reviewer review key hash display row) d out d').
Proof.
  intros Hr. unfold review_body in Hr.
  apply runs_bind in Hr as (row & d1 & Hf & Hr). apply runs_find_intake in Hf as (-> & Hin & Ht & Hid).
  exists row. split; [done|]. split; [done|]. split; [done|].
  apply runs_bind in Hr as (prior & d1 & Hq & Hr). apply runs_query in Hq as [Ep ->].
  destruct prior as [p|]; [left|by right]. symmetry in Ep. apply head_Some_elem_of in Ep.
  apply list_elem_of_filter in Ep as [Hp Hpin].
  apply runs_bind in Hr as (u & d1 & Hg & Hr). inv_tx Hg. inv_tx Hr. bool_hyps.
  apply streq_true in Hg. exists p. split_and!; [done..| |done].
  unfold unmarshal in Hr. destruct (ov_Response p); naive_solver.
Qed.

Lemma response_from_row review reviewer display now link row V L :
  awaits_review row V L → stored_intake row = row →
  let saved := reviewed_intake review reviewer display now link row in
  oi_ReviewedAt (stored_intake saved) = Some (stored_time now) ∧
  set_link link (opportunityIntakeFromRecord saved) =
    answered_at now (opportunityIntakeFromRecord (stored_intake saved)).
Proof.
  intros (_ & _ & Hc & Hn & _) Hs saved.
  assert (stored_amount (oi_ExpectedAmount row) = oi_ExpectedAmount row ∧
    stored_time (oi_OccurredAt row) = oi_OccurredAt row ∧
    stored_time (oi_CreatedAt row) = oi_CreatedAt row) as (Ea & Eo & Ec)
    by (split_and!; [by apply (f_equal oi_ExpectedAmount) in Hs|by apply (f_equal oi_OccurredAt) in Hs|
          by apply (f_equal oi_CreatedAt) in Hs]).
  unfold saved, reviewed_intake. rewrite Hc, Hn. destruct link as [[id number]|]; (split; [done|]);
    unfold set_link, answered_at, opportunityIntakeFromRecord; cbn; rewrite Ea, Eo, Ec; f_equal.
  destruct (empty_str number) eqn:E; [|done]. by apply streq_true in E as ->.
Qed.

Lemma review_request_ok licensed may review key review' hash :
  review_request licensed may review key = Ok (review', hash) →
  licensed = true ∧ may = true ∧ rv_Version review' = rv_Version review ∧
  (rv_Decision review' = OpportunityIntakeLinkConfirmed ∨
   rv_Decision review' = OpportunityIntakeLinkException).
Proof.
  intros E. unfold review_request in E. inv_ok E. bool_hyps.
  repeat match goal with h : _ && _ = false |- _ => apply andb_false_iff in h end.
  cbn. destruct licensed, may; [|discriminate..]. split_and!; [done..|].
  match goal with h : negb _ = false ∨ negb _ = false |- _ => destruct h as [h|h];
    apply negb_false_iff, streq_true in h; auto end.
Qed.

Lemma review_sound `{Oracle} licensed may meta t id reviewer review key display d :
  intakes_ok d →
  intakes_ok (serve_review _ licensed may meta t id reviewer review key display d).2.
Proof.
  intros HS. unfold serve_review. destruct (review_request _ _ _ _) as [[rv hash]|e] eqn:Eq; [|done].
  apply review_request_ok in Eq as (_ & _ & _ & Hdec).
  unfold ReviewOpportunityIntake. destruct (transaction _ d) as [r d'] eqn:Et. cbn [snd].
  apply transaction_runs in Et as [->|[out Hr]]; [done|].
  apply runs_review in Hr as (row & Hin & Ht & Hid & [(v & _ & _ & _ & _ & ->)|Hr]); [done|].
  apply runs_first_review in Hr as (Hver & Hst & now & link & vid & lid & next & created & Hout & _
    & Ei & Ev & El & _). cbv zeta in *.
  pose proof (sound_awaits _ _ _ HS row Hin Hst) as Hw. pose proof Hw as (_ & Hv1 & _).
  pose proof (is_stored _ _ _ HS) as Hsto. rewrite Forall_forall in Hsto.
  destruct (response_from_row rv reviewer display now link _ _ _ Hw (Hsto row Hin)) as [Hat Hans].
  rewrite Hans in Hout.
  unfold intakes_ok. rewrite Ei, Ev, El. subst out t id.
  assert (Hagain : stored_intake (stored_intake (reviewed_intake rv reviewer display now link row)) =
    stored_intake (reviewed_intake rv reviewer display now link row)) by apply stored_again.
  set (saved := stored_intake (reviewed_intake _ _ _ _ _ _)) in *.
  assert (oi_IntakeID saved = oi_IntakeID row ∧ oi_TenantID saved = oi_TenantID row ∧
    oi_EventID saved = oi_EventID row ∧ oi_Status saved = rv_Decision rv ∧
    oi_Version saved = oi_Version row + 1) as (E1 & E2 & E3 & E4 & E5)
    by (unfold saved, reviewed_intake; by destruct link as [[? ?]|]).
  clearbody saved. apply (sound_review _ _ _ HS row); [done..|].
  intros _ _. eexists _, _, now. unfold reviews_of, links_of. rewrite !filter_cons, !filter_nil.
  rewrite !decide_True by (cbn; by rewrite ?E1, ?E2, ?E3).
  cbn. rewrite E1, E4, E5, Hv1 in *. by split_and!.
Qed.

Lemma background_links b d :
  let d' := background_step "" b d in
  db_intakes d' = db_intakes d ∧ db_reviews d' = db_reviews d ∧
  ∃ g, db_links d' = map g (db_links d) ∧ ∀ l, same_event l (g l).
Proof.
  assert (Hid : ∀ d', intake_tables d' = intake_tables d →
    db_intakes d' = db_intakes d ∧ db_reviews d' = db_reviews d ∧
    ∃ g, db_links d' = map g (db_links d) ∧
      ∀ l : opportunityLinkOutboxRecord, same_event l (g l)).
  { intros d' [= -> -> ->]. split_and!; [done..|]. exists (λ l, l). by rewrite list_fmap_id. }
  destruct b as [c Ht|oracle meta t kind id actor|kind m limit w]; cbn [background_step].
  - apply Hid. destruct c as [c|oracle op]; cbn [invoke_any]; [by apply (invoke_keeps intake_tables)|].
    destruct (perform_signing op d) as [r d'] eqn:E. apply signing_refines in E as [E _].
    unfold intake_tables. unfold unsigned in E. cbn [snd]. congruence.
  - unfold RetryFailedIntegrationEvent, integrationOutboxModel.
    repeat (destruct (kind =s _);
      [cbv beta iota; destruct (transaction _ d) as [x d'] eqn:Et; apply retry_changes in Et;
       [|apply _]; cbn [snd]; destruct Et as [->|(g & A & -> & _ & Hg)]; [by apply Hid|];
       first [by apply Hid|cbn; split_and!; [done..|by exists g]]|]).
    by apply Hid.
  - destruct (kind =s ""); [by apply Hid|]. unfold run_round.
    destruct (kind =s IntegrationOutboxFinancial).
    { rewrite financial_round. destruct (only_batch (R := deliveryOutboxRecord financialEffectivePayload) ErrNotFound
        m permanentDeliveryFailure (boundedDeliveryClaimLimit limit) w d) as (l & -> & _). by apply Hid. }
    destruct (kind =s IntegrationOutboxResponsibility).
    { rewrite responsibility_round.
      destruct (only_batch (R := deliveryOutboxRecord responsibilityPayload) ErrRecordNotFound
        m permanentDeliveryFailure (boundedDeliveryClaimLimit limit) w d) as (l & -> & _). by apply Hid. }
    destruct (kind =s IntegrationOutboxProject).
    { destruct (project_round m w d) as (l & -> & _). by apply Hid. }
    destruct (kind =s IntegrationOutboxLink); [|by apply Hid].
    destruct (link_round m w d) as (g & -> & Hg). cbn. split_and!; [done..|by exists g].
Qed.

Lemma step_sound e d : intakes_ok d → intakes_ok (intake_step e d).
Proof.
  intros HS. destruct e as [o i|o lic may meta t id reviewer review key display|b]; cbn [intake_step].
  - destruct (accept_insert_tables o i (0%nat, d)) as [->|(now & I' & E & ->)]; [done|].
    by apply (sound_insert _ _ _ HS i now I').
  - by apply review_sound.
  - destruct (background_links b d) as (E1 & E2 & g & E3 & Hg). unfold intakes_ok.
    rewrite E1, E2, E3. by apply sound_redelivered.
Qed.
Lemma steps_sound events d : intakes_ok d → intakes_ok (intake_steps events d).
Proof.
  revert d. induction events as [|e events IH]; intros d HS; [done|]. by apply IH, step_sound.
Qed.
Lemma new_intakes_ok numbers : intakes_ok (new_tables numbers).
Proof. split; cbn; constructor. Qed.

(** ** Reviewing again *)

Lemma step_reviews e d : ∃ k, db_reviews (intake_step e d) = db_reviews d ++ k.
Proof.
  destruct e as [o i|o lic may meta t id reviewer review key display|b]; cbn [intake_step].
  - exists []. rewrite app_nil_r.
    by destruct (accept_insert_tables o i (0%nat, d)) as [->|(now & I' & E & ->)].
  - unfold serve_review. destruct (review_request _ _ _ _) as [[rv hash]|e];
      [|by exists []; rewrite app_nil_r].
    unfold ReviewOpportunityIntake. destruct (transaction _ d) as [r d'] eqn:Et. cbn [snd].
    apply transaction_runs in Et as [->|[out Hr]]; [by exists []; rewrite app_nil_r|].
    apply runs_review in Hr as (row & _ & _ & _ & [(v & _ & _ & _ & _ & ->)|Hr]);
      [by exists []; rewrite app_nil_r|].
    apply runs_first_review in Hr as (_ & _ & now & link & vid & lid & next & created & _ & _ & _
      & Ev & _). rewrite Ev. by eexists.
  - exists []. rewrite app_nil_r. apply background_links.
Qed.
Lemma steps_reviews events d v :
  v ∈ db_reviews d → v ∈ db_reviews (intake_steps events d).
Proof.
  revert d. induction events as [|e events IH]; intros d Hv; [done|]. apply IH.
  destruct (step_reviews e d) as [k ->]. apply elem_of_app. by left.
Qed.

Lemma head_filter_unique {A} (P : A → Prop) `{∀ x, Decision (P x)} (l : list A) x :
  x ∈ l → P x → (∀ y, y ∈ l → P y → y = x) → head (filter P l) = Some x.
Proof.
  intros Hx Hp Hu. destruct (filter P l) as [|y k] eqn:E.
  - assert (x ∈ filter P l) as Hin by (by apply list_elem_of_filter).
    rewrite E in Hin. by apply not_elem_of_nil in Hin.
  - assert (y ∈ filter P l) as [Hy Hin]%list_elem_of_filter by (rewrite E; left).
    cbn. f_equal. by apply Hu.
Qed.

Lemma review_of_true t id key v :
  review_of t id key v = true ↔ ov_TenantID v = t ∧ ov_IntakeID v = id ∧ ov_IdempotencyKey v = key.
Proof. unfold review_of. rewrite !andb_true_iff, !streq_true. tauto. Qed.

(** The only review of its intake. *)
Lemma review_alone d v :
  intakes_ok d → v ∈ db_reviews d →
  ∃ r, r ∈ db_intakes d ∧ oi_TenantID r = ov_TenantID v ∧ oi_IntakeID r = ov_IntakeID v ∧
    oi_Status r ≠ OpportunityIntakeAccepted ∧
    (∃ out, ov_Response v = JsonOf (A := OpportunityIntake) out) ∧
    ∀ w, w ∈ db_reviews d → ov_TenantID w = ov_TenantID v → ov_IntakeID w = ov_IntakeID v → w = v.
Proof.
  intros HS Hv. pose proof (is_reviews _ _ _ HS) as Hr. rewrite Forall_forall in Hr.
  destruct (Hr v Hv) as (r & Hin & Et & Ei). exists r.
  pose proof (is_rows _ _ _ HS) as Hrows. rewrite Forall_forall in Hrows.
  assert (Hof : ∀ w, w ∈ db_reviews d → ov_TenantID w = ov_TenantID v →
    ov_IntakeID w = ov_IntakeID v → w ∈ reviews_of r (db_reviews d)).
  { intros w Hw E1 E2. apply list_elem_of_filter. split; [|done]. split; congruence. }
  destruct (Hrows r Hin) as [(_ & _ & _ & _ & E & _)|(x & l & at_ & E & _ & Es & Hd & _ & _ & _ & Hresp & _)].
  - specialize (Hof v Hv eq_refl eq_refl). rewrite E in Hof. by apply not_elem_of_nil in Hof.
  - rewrite E in Hof. assert (v = x) as <- by (by apply list_elem_of_singleton, Hof).
    split_and!; [done..| |by eexists|].
    + rewrite Es. by destruct Hd as [-> | ->].
    + intros w Hw E1 E2. by apply list_elem_of_singleton, Hof.
Qed.

Lemma intake_unique d r r' :
  intakes_ok d → r ∈ db_intakes d → r' ∈ db_intakes d → oi_IntakeID r = oi_IntakeID r' → r = r'.
Proof. intros HS. apply NoDup_map_eq, HS. Qed.

(** A request with the key of a review that is there. *)
Lemma replay (o : Oracle) meta reviewer review key hash display d v :
  healthy o → intakes_ok d → v ∈ db_reviews d → ov_IdempotencyKey v = key →
  @ReviewOpportunityIntake o _ _ meta (ov_TenantID v) (ov_IntakeID v) reviewer review key hash display d =
    (if ov_RequestHash v =s hash then unmarshal (ov_Response v) else Err ErrStateConflict, d).
Proof.
  intros [Hf Hc] HS Hv Hk. destruct (review_alone d v HS Hv) as (r & Hin & Et & Ei & _ & [out Hresp] & Hu).
  unfold ReviewOpportunityIntake, transaction, review_body, take_row, find_intake, query, mbind,
    Tx_bind. rewrite !Hf. cbv beta iota zeta.
  rewrite (head_filter_unique _ _ r).
  2: { done. }
  2: { unfold this_intake. by rewrite Et, Ei, !streq_refl. }
  2: { intros y Hy Ht. unfold this_intake in Ht. bool_hyps.
       apply (intake_unique d); [done..|]. rewrite Ei. by apply streq_true. }
  cbn [mret Tx_ret]. unfold mret, Tx_ret. rewrite ?Hf. cbv beta iota zeta.
  rewrite (head_filter_unique _ _ v).
  2: { done. }
  2: { by apply review_of_true. }
  2: { intros y Hy (E1 & E2 & _)%review_of_true. by apply Hu. }
  unfold guard, lift. rewrite Hresp. destruct (_ =s hash); cbn; by rewrite ?Hc.
Qed.

(** A review that got through is stored with its answer. *)
Lemma served_review `{Oracle} licensed may meta t id reviewer review key display d out d1 review' hash :
  review_request licensed may review key = Ok (review', hash) →
  serve_review _ licensed may meta t id reviewer review key display d = (Ok out, d1) →
  ∃ v, v ∈ db_reviews d1 ∧ ov_TenantID v = t ∧ ov_IntakeID v = id ∧ ov_IdempotencyKey v = key ∧
    ov_RequestHash v = hash ∧ ov_Response v = JsonOf out.
Proof.
  intros Eq E. unfold serve_review in E. rewrite Eq in E. unfold ReviewOpportunityIntake in E.
  pose proof E as Hrun. unfold transaction in Hrun.
  destruct (review_body _ _ _ _ _ _ _ _ (0%nat, d)) as [[a|e] [t1 d2]] eqn:Eb; [|done].
  assert (a = out ∧ d2 = d1) as [-> ->] by (destruct o_commit as [[]|]; naive_solver).
  assert (runs (review_body meta t id reviewer review' key hash display) d out d1) as Hr
    by (by exists 0%nat, t1).
  apply runs_review in Hr as (row & Hin & Ht & Hid & [(v & Hv & Hk & Hh & Hresp & ->)|Hr]).
  - apply review_of_true in Hk as (E1 & E2 & E3). by exists v.
  - apply runs_first_review in Hr as (_ & _ & now & link & vid & lid & next & created & _ & _ & _
      & Ev & _). rewrite Ev. eexists. split_and!; [apply elem_of_app; right; by left|done..].
Qed.

(** Another review of an intake that has one is refused. *)
Lemma second_review `{Oracle} meta reviewer review key hash display d v :
  intakes_ok d → v ∈ db_reviews d → ov_IdempotencyKey v ≠ key →
  ∃ e, ReviewOpportunityIntake meta (ov_TenantID v) (ov_IntakeID v) reviewer review key hash display d =
       (Err e, d).
Proof.
  intros HS Hv Hk. destruct (review_alone d v HS Hv) as (r & Hin & Et & Ei & Hst & _ & Hu).
  unfold ReviewOpportunityIntake. destruct (transaction _ d) as [x d'] eqn:E.
  assert (¬ ∃ a, runs (review_body meta (ov_TenantID v) (ov_IntakeID v) reviewer review key hash
    display) d a d') as Hno.
  { intros [a Hr]. apply runs_review in Hr as (row & Hrow & Ht & Hid & [(w & Hw & Hwk & _)|Hr]).
    - apply review_of_true in Hwk as (E1 & E2 & E3). apply Hk. by rewrite <- (Hu w).
    - apply runs_first_review in Hr as (_ & Hacc & _). apply Hst.
      by rewrite <- (intake_unique d row r) by congruence. }
  destruct x as [a|e].
  - destruct Hno. eapply transaction_effective; [exact E|eauto].
  - exists e. f_equal. apply transaction_runs in E as [|]; [done|contradiction].
Qed.

(** ** The link *)

Definition linkable (c : contractRecord) (r : opportunityIntakeRecord) : Prop :=
  let customer := uintValueOrZero (c_CRMCustomerID (c_party c)) in
  let opportunity := TrimSpace (valueOrEmpty (c_OpportunityID (c_party c))) in
  oi_CustomerID r ≠ 0 ∧ ordinaryContractRecord c = true ∧
  c_Status c ≠ StatusArchived ∧ c_Status c ≠ StatusTerminated ∧
  c_CounterpartySource (c_party c) ≠ CounterpartyLocal ∧
  c_CategorySource (c_party c) ≠ CategoryLocal ∧
  ((customer = oi_CustomerID r ∧ (opportunity = "" ∨ opportunity = Itoa (oi_OpportunityID r))) ∨
   (customer = 0 ∧ ApprovalPassed (c_Status c) = false)).

Lemma validate_link_spec c r :
  validateOpportunityLinkTarget c r = Ok tt ↔ linkable c r.
Proof.
  unfold validateOpportunityLinkTarget, linkable. cbv zeta.
  set (customer := uintValueOrZero _). set (opportunity := TrimSpace _).
  split.
  - intros E. destruct (customer =? 0) eqn:Ec; cbn [negb] in E; inv_ok E; bool_hyps;
      repeat match goal with
      | h : (_ =s _) = false |- _ => apply streq_false in h
      | h : _ && _ = false |- _ => apply andb_false_iff in h
      end; split_and!; try done; [by right|left].
    split; [done|]. destruct E as [E|E]; apply negb_false_iff, streq_true in E; auto.
  - intros (Hz & Ho & Ha & Ht & Hp & Hc & Hx).
    pass by by apply Z.eqb_neq. pass by by rewrite Ho.
    pass by by (apply orb_false_iff; split; apply streq_false).
    pass by by (apply orb_false_iff; split; apply streq_false).
    destruct Hx as [[E Hopp]|[-> Happ]].
    + destruct (customer =? 0) eqn:Ec; [bool_hyps; congruence|]. cbn [negb].
      pass by by rewrite E, Z.eqb_refl. apply fail_if_pass.
      destruct Hopp as [-> | ->]; [done|]. rewrite streq_refl. apply andb_false_r.
    + cbn. by apply fail_if_pass.
Qed.

Lemma numbered_spec t n d c :
  numbered t n d = Some c →
  (∃ k, db_contracts d !! k = Some c) ∧ c_TenantID c = t ∧
  collate <$> c_ContractNumber c = Some (collate n).
Proof.
  intros E. unfold numbered in E. destruct (head _) as [[k c']|] eqn:Eh; [|done].
  injection E as ->. apply head_Some_elem_of, list_elem_of_filter in Eh as [[Ht Hn] Hin].
  apply elem_of_map_to_list in Hin. eauto.
Qed.

End Steps.

(** ** Properties *)

(** The columns of an intake that the CRM sent. *)
Definition sent (r : opportunityIntakeRecord) :=
  (oi_IntakeID r, oi_TenantID r, oi_EventID r, oi_OpportunityID r, oi_EventVersion r,
   oi_CustomerID r, oi_OpportunityNo r, oi_ContractRef r, oi_ExpectedAmount r, oi_OccurredAt r,
   oi_SourceRequestID r, oi_CreatedAt r).
Definition sent_of (o : OpportunityIntake) :=
  (op_IntakeID o, op_TenantID o, op_EventID o, op_OpportunityID o, op_EventVersion o,
   op_CustomerID o, op_OpportunityNo o, op_ContractRef o, op_ExpectedAmount o, op_OccurredAt o,
   op_SourceRequestID o, op_CreatedAt o).

(** What a review does not touch: neither contracts nor logs. *)
Definition unlinked (d : DB) :=
  (db_approvals d, db_actions d, db_tasks d, db_snapshots d, db_lifecycle d, db_notifications d,
   db_project d, db_financial d, db_responsibility d, db_streams d, db_payment d, db_numbers d,
   db_stamped d, db_signing d, db_confirmations d, db_freezes d, db_receipts d, db_rules d).

Section Properties.
Context `{GoUnicode} `{Sha256} `{TzDatabase} `{Collation} `{Documents} `{Aead} `{PhoneKeyEnv}.
Context `{StoredColumns}.

(** C25: An intake has one review or none.  However accepted intakes, reviews,
    deliveries of callbacks, retries and all other calls interleave, every intake
    is either untouched at version 1, without a review or a callback, or at
    version 2 with exactly one review and one queued callback.  The stored answer
    and the callback then carry the values of the row, but for the time of the
    review: they have it as the clock gave it, the row as its DATETIME(3) column
    keeps it. *)
Theorem intake_reviewed_once events numbers r :
  let d := intake_steps events (new_tables numbers) in
  r ∈ db_intakes d →
  awaits_review r (db_reviews d) (db_links d) ∨ is_reviewed r (db_reviews d) (db_links d).
Proof.
  intros d Hr. assert (HS : intakes_ok d) by (apply steps_sound, new_intakes_ok).
  pose proof (is_rows _ _ _ HS) as Hrows. rewrite Forall_forall in Hrows. by apply Hrows.
Qed.

(** A review can be asked for again.  Whatever happens after a review was
    answered, the same request gets the same answer and changes nothing; a
    different review under its key is a conflict; and no other key gets a second
    review through. *)
Theorem review_idempotent (o : Oracle) licensed may meta t id reviewer review key display d out d1
    review' hash events (o' : Oracle) meta' reviewer' display' :
  let d2 := intake_steps events d1 in
  intakes_ok d → review_request licensed may review key = Ok (review', hash) →
  serve_review o licensed may meta t id reviewer review key display d = (Ok out, d1) →
  healthy o' →
  serve_review o' true true meta' t id reviewer' review key display' d2 = (Ok out, d2) ∧
  (∀ other rv h, review_request true true other key = Ok (rv, h) → h ≠ hash →
     serve_review o' true true meta' t id reviewer' other key display' d2 =
       (Err ErrStateConflict, d2)) ∧
  (∀ other key', key' ≠ key → ∃ e,
     serve_review o' true true meta' t id reviewer' other key' display' d2 = (Err e, d2)).
Proof.
  intros d2 HS Eq E Hh.
  assert (HS2 : intakes_ok d2).
  { apply steps_sound. change d1 with (Ok (A := OpportunityIntake) out, d1).2. rewrite <- E.
    by apply review_sound. }
  destruct (served_review _ _ _ _ _ _ _ _ _ _ _ _ _ _ Eq E) as (v & Hv & <- & <- & Ek & Ehash & Er).
  apply (steps_reviews events) in Hv.
  destruct (review_request_ok _ _ _ _ _ _ Eq) as (-> & -> & _).
  split_and!.
  - unfold serve_review. rewrite Eq, (replay o') by done. by rewrite Ehash, streq_refl, Er.
  - intros other rv h Eq' Hne. unfold serve_review. rewrite Eq', (replay o') by done.
    rewrite Ehash. by destruct (hash =s h) eqn:Es; [apply streq_true in Es|].
  - intros other key' Hne. unfold serve_review.
    destruct (review_request true true other key') as [[rv h]|e]; [|by exists e].
    apply second_review; [done|exact Hv|]. rewrite Ek. by apply not_eq_sym.
Qed.

(** A review that confirms links exactly one contract of the tenant, named by
    its identifier or its number, that passes every guard; only its opportunity
    and customer change, and the audit log tells both sides.  A review that
    reports an exception changes no contract.  Nothing else is touched. *)
Theorem link_confirmed_exact (o : Oracle) licensed may meta id reviewer review key display d out
    d1 r :
  let ref := TrimSpace (oi_ContractRef r) in
  let opportunity := Itoa (oi_OpportunityID r) in
  keyed_db d → intakes_ok d → r ∈ db_intakes d → oi_IntakeID r = id →
  oi_Status r = OpportunityIntakeAccepted →
  serve_review o licensed may meta (oi_TenantID r) id reviewer review key display d = (Ok out, d1) →
  unlinked d1 = unlinked d ∧
  ((op_Status out = OpportunityIntakeLinkException ∧ db_contracts d1 = db_contracts d ∧
    db_audit d1 = db_audit d) ∨
   (op_Status out = OpportunityIntakeLinkConfirmed ∧
    ∃ c now row, db_contracts d !! op_ContractID out = Some c ∧ c_TenantID c = oi_TenantID r ∧
      (op_ContractID out = ref ∨ collate <$> c_ContractNumber c = Some (collate ref)) ∧
      linkable c r ∧
      db_contracts d1 = <[op_ContractID out :=
        contract_set_link opportunity (oi_CustomerID r) now reviewer c]> (db_contracts d) ∧
      db_audit d1 = db_audit d ++ [row] ∧
      au_Payload row = PLinkConfirmed id (oi_EventID r) reviewer display
        (valueOrEmpty (c_OpportunityID (c_party c)))
        (uintValueOrZero (c_CRMCustomerID (c_party c))) opportunity (oi_CustomerID r))).
Proof.
  intros ref opportunity Hk HS Hr Hid Hst E. unfold serve_review in E.
  destruct (review_request _ _ _ _) as [[rv hash]|e] eqn:Eq; [|done].
  apply review_request_ok in Eq as (_ & _ & _ & Hdec). unfold ReviewOpportunityIntake in E.
  assert (∃ a, runs (review_body meta (oi_TenantID r) id reviewer rv key hash display) d a d1 ∧
    a = out) as (a & Hrun & ->).
  { unfold transaction in E.
    destruct (review_body _ _ _ _ _ _ _ _ (0%nat, d)) as [[a|e] [t1 d2]] eqn:Eb; [|done].
    assert (a = out ∧ d2 = d1) as [-> ->] by (destruct o_commit as [[]|]; naive_solver).
    exists out. split; [|done]. by exists 0%nat, t1. }
  clear E. apply runs_review in Hrun as (row & Hin & _ & Hid2 & [(v & Hv & Hkey & _)|Hrun]).
  { destruct (review_alone d v HS Hv) as (r' & Hr' & _ & Ei & Hns & _). destruct Hns.
    apply review_of_true in Hkey as (_ & Ev & _). by rewrite (intake_unique d r' r) by congruence. }
  assert (row = r) as -> by (apply (intake_unique d); congruence).
  apply runs_first_review in Hrun as (_ & _ & now & link & vid & lid & next & created & Hout & Hl
    & _ & _ & _ & d0 & Hd0 & Ed1).
  assert (Hstat : op_Status out = rv_Decision rv).
  { rewrite Hout. unfold set_link, reviewed_intake. by destruct link as [[? ?]|]. }
  destruct link as [[cid number]|].
  - apply runs_confirm in Hd0 as (idMatch & target & c & now' & au & Hids & Hres & Hval & Hc & Ht &
      Hp & [= Ecid Enum] & Ed0).
    assert (op_ContractID out = c_ID target) as Eout by (by rewrite Hout, <- Ecid).
    assert (Hwhere : ∃ k, db_contracts d !! k = Some target ∧
      (k = ref ∨ collate <$> c_ContractNumber target = Some (collate ref))).
    { unfold resolveOpportunityLinkTarget in Hres. cbn in Hids, Hres.
      change (oi_ContractRef (reviewed_intake rv reviewer display now None r))
        with (oi_ContractRef r) in *. fold ref in Hids, Hres.
      destruct idMatch as [a|]; [destruct (Hids a eq_refl) as [Ha _]|].
      - assert (a = target) as <- by (destruct (numbered _ _ _); [inv_ok Hres|]; congruence).
        exists ref. by split; [|left].
      - destruct (numbered _ _ _) as [b|] eqn:En; [|done]. injection Hres as ->.
        apply numbered_spec in En as ([k Hb] & _ & Hn). exists k. by split; [|right]. }
    destruct Hwhere as (k & Hkt & Hwhere). pose proof (Hk _ _ Hkt) as Ekey. cbn in Ekey.
    rewrite Ekey in *. assert (c = target) as -> by congruence.
    split; [rewrite Ed1, Ed0; reflexivity|]. right. split; [rewrite Hstat; by apply Hl|].
    exists target, now', au. rewrite Eout. apply validate_link_spec in Hval.
    split_and!; [done|done|exact Hwhere|exact Hval| |rewrite Ed1, Ed0; reflexivity|].
    + rewrite Ed1, Ed0. reflexivity.
    + rewrite Hp, <- Hid. reflexivity.
  - subst d0. split; [by rewrite Ed1|]. left. split; [|by rewrite Ed1].
    rewrite Hstat. destruct Hdec as [Hd|Hd]; [|done]. apply Hl in Hd. done.
Qed.

End Properties.

(** ** Accepting *)

Section Accepting.
Context `{GoUnicode} `{Sha256} `{TzDatabase} `{Collation} `{Documents} `{Aead} `{PhoneKeyEnv}.
Context `{StoredColumns}.

Lemma step_sent e d r :
  intakes_ok d → r ∈ db_intakes d →
  ∃ r', r' ∈ db_intakes (intake_step e d) ∧ sent r' = sent r.
Proof.
  intros HS Hr.
  destruct e as [o i|o lic may meta t id reviewer review key display|b]; cbn [intake_step].
  - destruct (accept_insert_tables o i (0%nat, d)) as [->|(now & I' & E & ->)]; [by exists r|].
    apply insert_unique_ok in E as [-> _]. exists r. split; [|done]. apply elem_of_app. by left.
  - unfold serve_review. destruct (review_request _ _ _ _) as [[rv hash]|e]; [|by exists r].
    unfold ReviewOpportunityIntake. destruct (transaction _ d) as [x d'] eqn:Et. cbn [snd].
    apply transaction_runs in Et as [->|[out Hrun]]; [by exists r|].
    apply runs_review in Hrun as (row & Hrow & _ & _ & [(v & _ & _ & _ & _ & ->)|Hrun]);
      [by exists r|].
    apply runs_first_review in Hrun as (_ & _ & now & link & vid & lid & next & created & _ & _ & Ei
      & _). cbv zeta in Ei. rewrite Ei.
    set (saved := stored_intake (reviewed_intake rv reviewer display now link row)).
    assert (Es : sent saved = sent row ∧ oi_IntakeID saved = oi_IntakeID row).
    { pose proof (is_stored _ _ _ HS) as Hsto. rewrite Forall_forall in Hsto.
      rewrite <- (Hsto row Hrow). unfold saved, reviewed_intake. by destruct link as [[? ?]|]. }
    exists (replaced saved r). split; [by apply list_elem_of_fmap_2|]. unfold replaced.
    destruct (oi_IntakeID r =s oi_IntakeID saved) eqn:E; [|done]. apply streq_true in E.
    rewrite (intake_unique d r row); [apply Es|done..|]. by rewrite E, (proj2 Es).
  - destruct (background_links b d) as (-> & _). by exists r.
Qed.
Lemma steps_sent events d r :
  intakes_ok d → r ∈ db_intakes d →
  ∃ r', r' ∈ db_intakes (intake_steps events d) ∧ sent r' = sent r.
Proof.
  revert d r. induction events as [|e events IH]; intros d r HS Hr; [by exists r|].
  destruct (step_sent e d r HS Hr) as (r1 & Hr1 & E1).
  destruct (IH (intake_step e d) r1) as (r2 & Hr2 & E2); [by apply step_sound|done|].
  exists r2. split; [exact Hr2|congruence].
Qed.

Lemma of_event_true t e r : of_event t e r = true ↔ oi_TenantID r = t ∧ oi_EventID r = e.
Proof. unfold of_event. by rewrite andb_true_iff, !streq_true. Qed.

(** An accepted intake is a row of its event, and one statement of [InInsert] is
    all that changes. *)
Lemma accepted (o : Oracle) i others d out d1 :
  @AcceptOpportunityIntake o _ i others d = (Ok out, d1) →
  (d1 = d ∨ d1 = others d ∨ d1 = (@accept_insert o _ i (1%nat, others d)).2.2) ∧
  ∃ r held, r ∈ db_intakes d1 ∧ of_event (op_TenantID i) (op_EventID i) r = true ∧
    out = opportunityIntakeFromRecord held ∧ (r = held ∨ r = stored_intake held).
Proof.
  intros E. unfold AcceptOpportunityIntake, accept_body, mbind, Tx_bind, query in E.
  destruct (o_fault 0); [done|]. cbv beta iota zeta in E.
  destruct (find_event _ _ d) as [r|] eqn:Ef.
  { injection E as <- <-. split; [by left|]. apply head_Some_elem_of, list_elem_of_filter in Ef as [].
    exists r, r. auto. }
  pose proof (accept_insert_tables o i (1%nat, others d)) as Ht. cbv zeta in Ht.
  destruct (accept_insert i (1%nat, others d)) as [[r|e] [t' d']] eqn:Ei; cbn [snd] in *.
  - injection E as <- <-. split; [by right; right|]. exists (stored_intake r), r.
    unfold accept_insert, insert_intake, exec, time_now, mbind, Tx_bind in Ei.
    cbv beta iota zeta in Ei. destruct (o_fault 2); [done|].
    destruct (insert_unique _ _ _) as [I'|e] eqn:Eu; cbn in Ei; [|done].
    injection Ei as <- <- <-. apply insert_unique_ok in Eu as [-> _].
    split_and!; [apply elem_of_app; right; by left|by apply of_event_true|done|by right].
  - assert (d' = others d) as ->.
    { destruct Ht as [|(now & I' & Eu & _)]; [done|].
      unfold accept_insert, insert_intake, exec, time_now, mbind, Tx_bind in Ei.
      cbv beta iota zeta in Ei. destruct (o_fault 2); [by injection Ei|].
      destruct (insert_unique _ _ (db_intakes (others d))) as [I2|e2] eqn:E2; cbn in Ei; [done|].
      by injection Ei. }
    destruct e; try done. destruct (o_fault t'); [done|].
    destruct (reread_intake i (others d)) as [r|] eqn:Er; [|done].
    injection E as <- <-. split; [by right; left|].
    apply head_Some_elem_of, list_elem_of_filter in Er as [Hev Hin]. bool_hyps. exists r, r. auto.
Qed.

Lemma accepted_ok (o : Oracle) i others d out d1 :
  intakes_ok d → intakes_ok (others d) →
  @AcceptOpportunityIntake o _ i others d = (Ok out, d1) → intakes_ok d1.
Proof.
  intros HS HSo [Hd1 _]%accepted. destruct Hd1 as [->|[->| ->]]; [done|done|].
  destruct (accept_insert_tables o i (1%nat, others d)) as [->|(now & I' & Eu & ->)]; [done|].
  by apply (sound_insert _ _ _ HSo i now I').
Qed.

(** The first intake of an event wins for good.  Once an event was accepted,
    and whatever happens then, accepting an event with its identifier again
    answers with the intake that is there, with everything the CRM sent the first
    time as the columns keep it, and stores nothing. *)
Theorem intake_accepted_once (o : Oracle) i others d out d1 events (o' : Oracle) i' others' :
  let d2 := intake_steps events d1 in
  intakes_ok d → intakes_ok (others d) →
  @AcceptOpportunityIntake o _ i others d = (Ok out, d1) →
  healthy o' → op_TenantID i' = op_TenantID i → op_EventID i' = op_EventID i →
  ∃ again, @AcceptOpportunityIntake o' _ i' others' d2 = (Ok again, d2) ∧
    ∃ held, out = opportunityIntakeFromRecord held ∧
      sent_of again = sent_of (opportunityIntakeFromRecord (stored_intake held)).
Proof.
  intros d2 HS HSo E [Hf Hc] Et Ee. pose proof (accepted_ok _ _ _ _ _ _ HS HSo E) as HS1.
  apply accepted in E as [_ (r & held & Hr & Hev & -> & Hheld)].
  assert (r = stored_intake held) as Er.
  { destruct Hheld as [->|]; [|done]. pose proof (is_stored _ _ _ HS1) as Hsto.
    rewrite Forall_forall in Hsto. by rewrite Hsto. }
  destruct (steps_sent events d1 r HS1 Hr) as (r2 & Hr2 & Es). fold d2 in Hr2.
  assert (HS2 : intakes_ok d2) by by apply steps_sound.
  exists (opportunityIntakeFromRecord r2). split.
  - unfold AcceptOpportunityIntake, accept_body, mbind, Tx_bind, query. rewrite Hf.
    cbv beta iota zeta. unfold find_event. apply of_event_true in Hev as [Ev1 Ev2].
    assert (oi_TenantID r2 = oi_TenantID r ∧ oi_EventID r2 = oi_EventID r) as [E1 E2]
      by (unfold sent in Es; naive_solver).
    rewrite (head_filter_unique _ _ r2); [done|done|apply of_event_true; split; congruence|].
    intros y Hy [Hy1 Hy2]%of_event_true.
    apply (NoDup_map_eq (λ r, (oi_TenantID r, oi_EventID r)) (db_intakes d2));
      [apply HS2|done|done|]. cbn. rewrite Hy1, Hy2. congruence.
  - exists held. split; [done|]. rewrite <- Er. unfold sent in Es. unfold sent_of. cbn.
    injection Es. intros. congruence.
Qed.

End Accepting.

(** ** A run *)

(** Times cut to milliseconds, amounts as they are. *)
Definition sample_columns : StoredColumns.
Proof.
  refine {| stored_time t := t / 1000000 * 1000000; stored_amount a := a |}; [|done].
  intros t. by rewrite Z.div_mul.
Defined.
#[local] Existing Instances sample_aead sample_key_env sample_columns.

Definition sample_intake (intake event : string) : OpportunityIntake :=
  mkOpportunity intake "t1" event 42 1 "OPP-42" 7 " c1 " "" "" "100.00" (1700000000 * Second) ""
    "" 0 "" "" None "" 0.
Definition sample_review : OpportunityIntakeReview :=
  mkReviewRequest "LINK_CONFIRMED" "customer and amount agree" 1.
Definition created_db : DB :=
  (invoke (good_call "1" (OpCreate 0 (sample_contract 10000 plan_of_two) "alice"))
     (new_tables None)).2.
Definition confirm_link (key : string) : DB → res OpportunityIntake * DB :=
  serve_review (fine "11") true true sample_meta "t1" "i1" "rita" sample_review key "Rita".
Definition accept_call (k : string) (i : OpportunityIntake) (others : DB → DB) (d : DB) :=
  @AcceptOpportunityIntake (fine k) _ i others d.
Definition intake_db : DB := (accept_call "10" (sample_intake "i1" "ev1") (λ d, d) created_db).2.

Lemma created_ok : intakes_ok created_db.
Proof.
  assert (intake_tables created_db = intake_tables (new_tables None)) as E
    by by apply (invoke_keeps intake_tables).
  revert E. generalize created_db as d. unfold intake_tables, intakes_ok. cbn. intros d [= -> -> ->].
  apply (new_intakes_ok None).
Qed.
Lemma intake_accepted : is_ok (accept_call "10" (sample_intake "i1" "ev1") (λ d, d) created_db).1 = true.
Proof. vm_compute. reflexivity. Qed.
Lemma intake_ok : intakes_ok intake_db.
Proof.
  unfold intake_db. pose proof intake_accepted as Ha. revert Ha. pose proof created_ok as HS.
  revert HS. generalize created_db as d. intros d HS Ha.
  destruct (accept_call _ _ _ d) as [[out|e] d1] eqn:E; [|done].
  by apply (accepted_ok _ _ _ _ _ _ HS HS E).
Qed.

Lemma intake_keyed : keyed_db intake_db.
Proof.
  assert (map_Forall (λ id c, c_ID c = id) (db_contracts intake_db)) as Hm
    by (apply (bool_decide_eq_true_1 (map_Forall _ _)); vm_compute; reflexivity).
  exact Hm.
Qed.

(** The identifier, the opportunity, the version and the status of a contract. *)
Definition link_state (id : string) (d : DB) :=
  (λ c, (c_OpportunityID (c_party c), c_CRMCustomerID (c_party c), c_Version c, c_Status c))
    <$> db_contracts d !! id.

(** A confirmed link can be lost without a trace.  The link leaves the version of
    the contract alone, so a draft that was loaded before it is saved after it and
    clears the opportunity; the intake stays confirmed and the CRM is told of a
    link that is not there. *)
Theorem draft_overwrites_link :
  let '(r1, d1) := confirm_link "key" intake_db in
  let '(r2, d2) := invoke (good_call "12" (OpUpdateDraft (sample_contract 10000 plan_of_two) 1 "alice")) d1 in
  is_ok r1 = true ∧ r2 = Ok tt ∧
  link_state "c1" intake_db = Some (None, Some 7, 1, StatusDraft) ∧
  link_state "c1" d1 = Some (Some "42", Some 7, 1, StatusDraft) ∧
  link_state "c1" d2 = Some (None, Some 7, 2, StatusDraft) ∧
  map oi_Status (db_intakes d2) = [OpportunityIntakeLinkConfirmed] ∧
  map (λ l, match lo_Payload l with
            | JsonOf c => (cb_ContractID c, cb_OpportunityID c, cb_Status c)
            | _ => ("", 0, "")
            end) (db_links d2) = [("c1", 42, OpportunityIntakeLinkConfirmed)].
Proof. vm_compute. by split_and!. Qed.

(** The code that is to answer the loser of a race for an event never finds
    the winner: two requests with the same event and different fresh identifiers
    both look before either inserts, and the second one fails although the intake
    is there. *)
Theorem accept_race_fails :
  let others d := (accept_call "10" (sample_intake "i1" "ev1") (λ d, d) d).2 in
  let '(r, d) := accept_call "11" (sample_intake "i2" "ev1") others created_db in
  r = Err ErrDuplicatedKey ∧ map oi_IntakeID (db_intakes d) = ["i1"] ∧
  is_ok (accept_call "12" (sample_intake "i2" "ev1") (λ d, d) d).1 = true.
Proof. vm_compute. by split_and!. Qed.

(** ** Witnesses *)

Lemma review_idempotent_witness :
  ∃ out d1, confirm_link "key" intake_db = (Ok out, d1) ∧ confirm_link "key" d1 = (Ok out, d1) ∧
    ∃ e, confirm_link "other" d1 = (Err e, d1).
Proof.
  assert (Hok : is_ok (confirm_link "key" intake_db).1 = true) by (vm_compute; reflexivity).
  pose proof intake_ok as HS. revert HS Hok. generalize intake_db as d. intros d HS Hok.
  destruct (confirm_link "key" d) as [[out|e] d1] eqn:E; [|discriminate].
  exists out, d1. split; [reflexivity|].
  destruct (review_idempotent (fine "11") true true sample_meta "t1" "i1" "rita" sample_review "key"
    "Rita" d out d1 _ _ [] (fine "11") sample_meta "rita" "Rita" HS eq_refl E
    (conj (λ _, eq_refl) eq_refl)) as (H1 & _ & H3).
  split; [exact H1|]. exact (H3 sample_review "other" ltac:(discriminate)).
Defined.

Lemma link_confirmed_exact_witness :
  ∃ out d1, confirm_link "key" intake_db = (Ok out, d1) ∧ unlinked d1 = unlinked intake_db.
Proof.
  destruct (confirm_link "key" intake_db) as [[out|e] d1] eqn:E; [|vm_compute in E; discriminate].
  exists out, d1. split; [reflexivity|].
  assert (∃ r, r ∈ db_intakes intake_db ∧ oi_TenantID r = "t1" ∧ oi_IntakeID r = "i1" ∧
    oi_Status r = OpportunityIntakeAccepted) as (r & Hr & Ht & Hid & Hst).
  { vm_compute. eexists. split; [by left|]. by split_and!. }
  pose proof intake_keyed as Hk.
  apply (link_confirmed_exact (fine "11") true true sample_meta "i1" "rita" sample_review "key" "Rita"
    intake_db out d1 r Hk intake_ok Hr Hid Hst). by rewrite Ht.
Defined.

Lemma intake_accepted_once_witness :
  ∃ out d1 again, accept_call "10" (sample_intake "i1" "ev1") (λ d, d) created_db = (Ok out, d1) ∧
    accept_call "11" (sample_intake "i9" "ev1") (λ d, d) d1 = (Ok again, d1) ∧
    op_IntakeID again = "i1".
Proof.
  destruct (accept_call "10" (sample_intake "i1" "ev1") (λ d, d) created_db) as [[out|e] d1] eqn:E;
    [|vm_compute in E; discriminate].
  destruct (intake_accepted_once (fine "10") (sample_intake "i1" "ev1") (λ d, d) created_db out d1 []
    (fine "11") (sample_intake "i9" "ev1") (λ d, d) created_ok created_ok E) as (again & Ea & Es);
    [by split|done|done|].
  exists out, d1, again. split; [reflexivity|]. split; [exact Ea|].
  assert (op_IntakeID out = "i1") as Ho.
  { change out with (match Ok (A := OpportunityIntake) out with Ok o => o | Err _ => out end).
    assert (Ok out = (accept_call "10" (sample_intake "i1" "ev1") (λ d, d) created_db).1) as ->
      by by rewrite E. vm_compute. reflexivity. }
  destruct Es as (held & Eh & Es). subst out. unfold sent_of in Es. injection Es as E1 _.
  rewrite E1. exact Ho.
Defined.

Lemma intake_reviewed_once_witness :
  let d := intake_steps [InInsert (fine "10") (sample_intake "i1" "ev1")] (new_tables None) in
  ∃ r, r ∈ db_intakes d ∧
    (awaits_review r (db_reviews d) (db_links d) ∨ is_reviewed r (db_reviews d) (db_links d)).
Proof.
  intros d. assert (∃ r, r ∈ db_intakes d) as [r Hr] by (vm_compute; eexists; left).
  exists r. split; [exact Hr|]. apply (intake_reviewed_once _ _ r Hr).
Defined.
