(* ===== verification/HandoverFlow.v ===== *)
(** * The handover: pages, receipts and freezes

    The pages of a user's responsibilities list each exactly once, and the count
    of a freeze is exact; a transfer takes effect once per key, however it is
    repeated; and how the freeze and a transfer race. *)

From stdpp Require Import relations sorting.
From S2P Require Import Prelude GoStrings Decimal GoTime BusinessClock Status NumberRule.
From S2P Require Import PaymentTerm ProjectService ImportPolicy Utf8 PhoneCipher ApprovalRule.
From S2P Require Import Workflow Store Outbound Handover Numbering Repository Changes.
From S2P Require Import Refinement Frames Signing SigningFlow IntegrationOutbox Dispatch.
From S2P Require Import QueueFlow DeliveryFlow Scenario Intake IntakeFlow.

#[local] Open Scope string_scope.
#[local] Open Scope Z_scope.
#[local] Open Scope list_scope.

(** ** Sorted lists *)

Section Sorted.
Context {A : Type} (le : relation A) `{!∀ x y, Decision (le x y)} `{!Transitive le} `{!Total le}.

Definition apart (l : list A) : Prop := ∀ x y, x ∈ l → y ∈ l → le x y → le y x → x = y.

Lemma apart_perm l l' : l ≡ₚ l' → apart l → apart l'.
Proof. intros E Ha x y Hx Hy. rewrite <- E in Hx, Hy. by apply Ha. Qed.
Lemma sort_unique l l' : StronglySorted le l' → l' ≡ₚ l → apart l → merge_sort le l = l'.
Proof.
  intros Hs E Ha. apply (StronglySorted_unique_strong le).
  - intros x y Hx Hy. rewrite merge_sort_Permutation in Hx. rewrite E in Hy. by apply Ha.
  - by apply StronglySorted_merge_sort.
  - done.
  - by rewrite merge_sort_Permutation, E.
Qed.
Lemma StronglySorted_take n l : StronglySorted le l → StronglySorted le (take n l).
Proof.
  intros Hs. revert n. induction Hs as [|x l Hs IH Hx]; intros [|n]; cbn; try constructor; auto.
  by apply Forall_take.
Qed.
Lemma sort_filter (P : A → Prop) `{∀ x, Decision (P x)} l :
  apart l → merge_sort le (filter P l) = filter P (merge_sort le l).
Proof.
  intros Ha. apply sort_unique.
  - by apply StronglySorted_filter, StronglySorted_merge_sort.
  - by rewrite merge_sort_Permutation.
  - intros x y [_ Hx]%list_elem_of_filter [_ Hy]%list_elem_of_filter. by apply Ha.
Qed.
Lemma sort_app l1 l2 :
  StronglySorted le l1 → StronglySorted le l2 → apart (l1 ++ l2) →
  merge_sort le (l1 ++ l2) = list_merge le l1 l2.
Proof.
  intros H1 H2 Ha. apply sort_unique; [|apply merge_Permutation|done].
  apply Sorted_StronglySorted; [done|].
  by apply (Sorted_list_merge le); apply StronglySorted_Sorted.
Qed.
(** The first of both come from the first of each. *)
Lemma take_merge n l1 l2 :
  take n (list_merge le (take n l1) (take n l2)) = take n (list_merge le l1 l2).
Proof.
  assert (∀ k, (k ≤ n)%nat → ∀ i j, (k ≤ i)%nat → (k ≤ j)%nat →
    ∀ l1 l2, take k (list_merge le (take i l1) (take j l2)) = take k (list_merge le l1 l2)) as Hk.
  { clear l1 l2. intros k _. induction k as [|k IH]; intros i j Hi Hj l1 l2; [done|].
    destruct i as [|i], j as [|j]; [lia..|]. destruct l1 as [|x l1], l2 as [|y l2]; cbn [take].
    - done.
    - rewrite !list_merge_nil_l. cbn. f_equal. rewrite take_take. f_equal. lia.
    - rewrite !list_merge_nil_r. cbn. f_equal. rewrite take_take. f_equal. lia.
    - rewrite !list_merge_cons. case_decide; cbn; f_equal.
      + change (y :: take j l2) with (take (S j) (y :: l2)). apply (IH i (S j)); lia.
      + change (x :: take i l1) with (take (S i) (x :: l1)). apply (IH (S i) j); lia. }
  apply (Hk n); lia.
Qed.
Lemma take_sort_app n l1 l2 :
  apart (l1 ++ l2) →
  take n (merge_sort le (take n (merge_sort le l1) ++ take n (merge_sort le l2))) =
  take n (merge_sort le (l1 ++ l2)).
Proof.
  intros Ha. pose proof (StronglySorted_merge_sort le) as Hs.
  assert (Hsub : ∀ x, x ∈ take n (merge_sort le l1) ++ take n (merge_sort le l2) → x ∈ l1 ++ l2).
  { intros x. rewrite !elem_of_app. intros [Hx|Hx]; apply elem_of_take in Hx as (i & Hx & _);
      apply list_elem_of_lookup_2 in Hx; rewrite merge_sort_Permutation in Hx; auto. }
  rewrite sort_app; [|by apply StronglySorted_take, Hs..|].
  2: { intros x y Hx Hy. apply Ha; by apply Hsub. }
  rewrite take_merge. f_equal. symmetry.
  apply sort_unique; [|by rewrite merge_Permutation, !merge_sort_Permutation|done].
  apply Sorted_StronglySorted; [done|].
  by apply (Sorted_list_merge le); apply StronglySorted_Sorted, Hs.
Qed.
(** Sorting commutes with a map that keeps the order. *)
Lemma sort_map {B} (leB : relation B) `{!∀ x y, Decision (leB x y)} `{!Transitive leB}
    `{!Total leB} (f : B → A) (l : list B) :
  (∀ x y, x ∈ l → y ∈ l → leB x y → le (f x) (f y)) → apart (map f l) →
  map f (merge_sort leB l) = merge_sort le (map f l).
Proof.
  intros Hf Ha. symmetry. apply sort_unique; [|by rewrite merge_sort_Permutation|done].
  assert (Hin : ∀ x, x ∈ merge_sort leB l → x ∈ l) by (intros x; by rewrite merge_sort_Permutation).
  pose proof (StronglySorted_merge_sort leB l) as Hs. revert Hs Hin.
  generalize (merge_sort leB l) as k. intros k Hs. induction Hs as [|x k Hs IH Hx]; intros Hin;
    [constructor|]. cbn. constructor; [apply IH; intros; apply Hin; by right|].
  apply Forall_map. rewrite Forall_forall in Hx |- *. intros y Hy. cbn. apply Hf; [| |by apply Hx].
  - apply Hin. by left.
  - apply Hin. by right.
Qed.

End Sorted.

(** ** Pages *)

#[export] Instance contract_le_trans : Transitive contract_le.
Proof. intros a b c. apply leb_trans. Qed.
#[export] Instance contract_le_total : Total contract_le.
Proof. intros a b. apply String.leb_total. Qed.
#[export] Instance resource_le_trans : Transitive resource_le.
Proof. intros a b c. apply leb_trans. Qed.
#[export] Instance resource_le_total : Total resource_le.
Proof. intros a b. apply String.leb_total. Qed.
#[export] Instance task_le_trans : Transitive task_le.
Proof.
  intros a b c [Hab|[Eab Hab]] [Hbc|[Ebc Hbc]].
  - left. by eapply ltb_trans.
  - left. by rewrite <- Ebc.
  - left. by rewrite Eab.
  - right. split; [congruence|by eapply leb_trans].
Qed.
#[export] Instance task_le_total : Total task_le.
Proof.
  intros a b. unfold task_le. destruct (decide (t_ApprovalID a = t_ApprovalID b)) as [E|Hne].
  - destruct (String.leb_total (t_NodeID a) (t_NodeID b)); naive_solver.
  - destruct (String.leb_total (t_ApprovalID a) (t_ApprovalID b)) as [Hl|Hl].
    + left. left. by apply leb_ltb.
    + right. left. apply leb_ltb; [done|congruence].
Qed.

(** Contracts and tasks are stored under their keys, the identifiers of contracts
    and approvals are 26 characters long, and neither the identifier of a contract
    nor the cursor of a task ([approvalID:nodeID]) has outer white space, which
    the service cuts from a cursor.  Identifiers of contracts and approvals are
    generated ULIDs; [validateRule] lets node identifiers with outer white space
    pass, so this last condition is one on the rules in use. *)
Record located (d : DB) : Prop := {
  lc_contracts : keyed_db d;
  lc_contract_ids : ∀ k c, db_contracts d !! k = Some c →
    String.length (c_ID c) = 26%nat ∧ TrimSpace (c_ID c) = c_ID c;
  lc_tasks : ∀ k t, db_tasks d !! k = Some t → task_key t = k;
  lc_task_ids : ∀ k t, db_tasks d !! k = Some t →
    String.length (t_ApprovalID t) = 26%nat ∧ TrimSpace (task_resource t) = task_resource t
}.

(** Everything a user is responsible for. *)
Definition responsibilities (tenantID userID : string) (d : DB) : list HandoverResponsibility :=
  map contract_responsibility (contract_rows tenantID userID d) ++
  map (approval_responsibility userID) (task_rows tenantID userID d).

Lemma map_filter_comm {A B} (f : A → B) (P : B → Prop) (Q : A → Prop) `{∀ x, Decision (P x)}
    `{∀ x, Decision (Q x)} (l : list A) :
  (∀ x, x ∈ l → (Q x ↔ P (f x))) → map f (filter Q l) = filter P (map f l).
Proof.
  induction l as [|x l IH]; intros Hq; [done|]. cbn [map]. rewrite !filter_cons.
  assert (Hx := Hq x ltac:(left)). rewrite <- IH by (intros y Hy; apply Hq; by right).
  destruct (decide (Q x)), (decide (P (f x))); naive_solver.
Qed.

Section Pages.
Variables (t u : string) (d : DB).
Hypothesis Hd : located d.

Lemma contract_row_in c :
  c ∈ contract_rows t u d → db_contracts d !! c_ID c = Some c ∧ owned_open t u c = true.
Proof using Hd.
  intros [Ho Hin]%list_elem_of_filter. split; [|done].
  apply list_elem_of_fmap in Hin as ([k c'] & -> & Hin%elem_of_map_to_list). cbn.
  by rewrite (lc_contracts d Hd _ _ Hin).
Qed.
Lemma task_row_in x :
  x ∈ task_rows t u d → db_tasks d !! task_key x = Some x ∧ t_AssigneeUserID x = u.
Proof using Hd.
  intros [Ho Hin]%list_elem_of_filter.
  apply list_elem_of_fmap in Hin as ([k x'] & -> & Hin%elem_of_map_to_list). cbn in *.
  rewrite (lc_tasks d Hd _ _ Hin). split; [done|]. unfold assigned_active in Ho. bool_hyps.
  by apply streq_true.
Qed.
Lemma task_length x :
  x ∈ task_rows t u d → String.length (t_ApprovalID x) = 26%nat ∧
    TrimSpace (task_resource x) = task_resource x.
Proof using Hd. intros [Hx _]%task_row_in. by apply (lc_task_ids d Hd _ _ Hx). Qed.

(** Resources are ordered as the tasks are. *)
Lemma task_compare x y :
  x ∈ task_rows t u d → y ∈ task_rows t u d →
  String.compare (task_resource x) (task_resource y) =
    match String.compare (t_ApprovalID x) (t_ApprovalID y) with
    | Eq => String.compare (t_NodeID x) (t_NodeID y)
    | c => c
    end.
Proof using Hd.
  intros [Hx _]%task_length [Hy _]%task_length. unfold task_resource.
  rewrite compare_app by congruence. done.
Qed.
Lemma compare_refl a : String.compare a a = Eq.
Proof.
  destruct (String.compare a a) eqn:E; [done|..].
  - assert (String.ltb a a = true) as Hl by by apply ltb_spec. by rewrite ltb_irrefl in Hl.
  - destruct (String.leb_total a a) as [Hb|Hb]; unfold String.leb in Hb; by rewrite E in Hb.
Qed.
Lemma task_le_resource x y :
  x ∈ task_rows t u d → y ∈ task_rows t u d → task_le x y →
  resource_le (approval_responsibility u x) (approval_responsibility u y).
Proof using Hd.
  intros Hx Hy Hle. unfold resource_le, String.leb. cbn [hp_ResourceID approval_responsibility].
  rewrite task_compare by done. destruct Hle as [Hl|[-> Hl]].
  - apply ltb_spec in Hl. by rewrite Hl.
  - rewrite compare_refl. exact Hl.
Qed.
Lemma task_resource_inj x y :
  x ∈ task_rows t u d → y ∈ task_rows t u d → task_resource x = task_resource y → x = y.
Proof using Hd.
  intros Hx Hy E. pose proof (task_compare x y Hx Hy) as Hc. rewrite E, compare_refl in Hc.
  destruct (String.compare (t_ApprovalID x) (t_ApprovalID y)) eqn:Ea; try done.
  apply String.compare_eq_iff in Ea. symmetry in Hc. apply String.compare_eq_iff in Hc.
  apply task_row_in in Hx as [Hx Ux]. apply task_row_in in Hy as [Hy Uy].
  assert (task_key x = task_key y) as Ek by (unfold task_key; congruence). congruence.
Qed.

Lemma snd_nodup {K} `{Countable K} {V} (m : gmap K V) (key : V → K) :
  (∀ k v, m !! k = Some v → key v = k) → NoDup (map snd (map_to_list m)).
Proof.
  intros Hk. apply (NoDup_fmap_1 key).
  assert (map key (map snd (map_to_list m)) = map fst (map_to_list m)) as E.
  { rewrite map_map. apply list_fmap_ext. intros i [k v] Hin%list_elem_of_lookup_2.
    apply elem_of_map_to_list in Hin. by apply Hk. }
  change (NoDup (map key (map snd (map_to_list m)))). rewrite E. apply NoDup_fst_map_to_list.
Qed.

Lemma resources_nodup : NoDup (map hp_ResourceID (responsibilities t u d)).
Proof using Hd.
  unfold responsibilities. rewrite map_app, !map_map. cbn [hp_ResourceID].
  apply NoDup_app. split_and!.
  - apply NoDup_fmap_2_strong.
    + intros x y [Hx _]%contract_row_in [Hy _]%contract_row_in E. cbn in E. congruence.
    + apply NoDup_filter, (snd_nodup _ c_ID), (lc_contracts d Hd).
  - intros k (c & -> & Hc)%list_elem_of_fmap (x & E & Hx)%list_elem_of_fmap. cbn in E.
    apply contract_row_in in Hc as [Hc _]. apply task_length in Hx as [Hx _].
    destruct (lc_contract_ids d Hd _ _ Hc) as [El _]. rewrite E in El. unfold task_resource in El.
    rewrite <- !length_bytes, !bytes_app, !length_app in El.
    rewrite <- length_bytes in Hx. cbn in El. lia.
  - apply NoDup_fmap_2_strong.
    + intros x y Hx Hy E. by apply task_resource_inj.
    + apply NoDup_filter, (snd_nodup _ task_key), (lc_tasks d Hd).
Qed.
Lemma resources_apart : apart resource_le (responsibilities t u d).
Proof using Hd.
  intros x y Hx Hy H1 H2. apply (NoDup_map_eq hp_ResourceID (responsibilities t u d));
    [apply resources_nodup|done|done|]. by apply String.leb_antisym.
Qed.

Lemma contract_page_sorted cursor n :
  contract_page t u cursor n d =
  take n (merge_sort resource_le (filter (λ i, after_cursor cursor (hp_ResourceID i) = true)
    (map contract_responsibility (contract_rows t u d)))).
Proof using Hd.
  unfold contract_page. rewrite <- firstn_map. f_equal.
  rewrite <- (map_filter_comm _ _ (λ c, after_cursor cursor (c_ID c) = true)) by done.
  apply sort_map; [apply _..|by intros x y _ _ Hle|].
  intros x y Hx Hy H1 H2. apply resources_apart; [| |done..]; unfold responsibilities;
    apply elem_of_app; left.
  - revert Hx. intros (c & -> & [_ Hc]%list_elem_of_filter)%list_elem_of_fmap.
    by apply list_elem_of_fmap_2.
  - revert Hy. intros (c & -> & [_ Hc]%list_elem_of_filter)%list_elem_of_fmap.
    by apply list_elem_of_fmap_2.
Qed.
Lemma approval_page_sorted cursor n :
  approval_page t u cursor n d =
  take n (merge_sort resource_le (filter (λ i, after_cursor cursor (hp_ResourceID i) = true)
    (map (approval_responsibility u) (task_rows t u d)))).
Proof using Hd.
  unfold approval_page. rewrite <- firstn_map. f_equal.
  rewrite <- (map_filter_comm _ _ (λ x, after_cursor cursor (task_resource x) = true)) by done.
  apply sort_map; [apply _..| |].
  - intros x y [_ Hx]%list_elem_of_filter [_ Hy]%list_elem_of_filter. by apply task_le_resource.
  - intros x y Hx Hy H1 H2. apply resources_apart; [| |done..]; unfold responsibilities;
      apply elem_of_app; right.
    + revert Hx. intros (c & -> & [_ Hc]%list_elem_of_filter)%list_elem_of_fmap.
      by apply list_elem_of_fmap_2.
    + revert Hy. intros (c & -> & [_ Hc]%list_elem_of_filter)%list_elem_of_fmap.
      by apply list_elem_of_fmap_2.
Qed.

(** The list the pages are taken from. *)
Definition sorted_resources : list HandoverResponsibility :=
  merge_sort resource_le (responsibilities t u d).

Lemma page_of (o : Oracle) cursor limit n :
  healthy o → 0 < limit →
  @ListOwnedResponsibilities o t u cursor limit (n, d) =
  (Ok (take (Z.to_nat limit)
         (filter (λ i, after_cursor cursor (hp_ResourceID i) = true) sorted_resources)),
   (S (S n), d)).
Proof using Hd.
  intros [Hf _] Hl. unfold ListOwnedResponsibilities, mbind, Tx_bind, query. rewrite !Hf.
  cbv beta iota zeta. destruct (limit <=? 0) eqn:E; [bool_hyps; lia|]. unfold mret, Tx_ret.
  do 2 f_equal. rewrite contract_page_sorted, approval_page_sorted.
  rewrite take_sort_app, <- filter_app; [|apply _..|].
  - f_equal. unfold sorted_resources. apply sort_filter; [apply _..|]. by apply resources_apart.
  - rewrite <- filter_app. intros x y [_ Hx]%list_elem_of_filter [_ Hy]%list_elem_of_filter.
    by apply resources_apart.
Qed.

Lemma sorted_elem x : x ∈ sorted_resources ↔ x ∈ responsibilities t u d.
Proof. unfold sorted_resources. by rewrite merge_sort_Permutation. Qed.

(** Every identifier can be a cursor. *)
Lemma resource_cursor x :
  x ∈ responsibilities t u d →
  TrimSpace (hp_ResourceID x) = hp_ResourceID x ∧ hp_ResourceID x ≠ "".
Proof using Hd.
  unfold responsibilities. rewrite elem_of_app.
  intros [(c & -> & Hc)%list_elem_of_fmap|(x' & -> & Hx)%list_elem_of_fmap];
    cbn [hp_ResourceID contract_responsibility approval_responsibility].
  - apply contract_row_in in Hc as [Hc _]. destruct (lc_contract_ids d Hd _ _ Hc) as [El ->].
    split; [done|]. by destruct (c_ID c).
  - apply task_length in Hx as [Hl ->]. split; [done|]. unfold task_resource.
    by destruct (t_ApprovalID x').
Qed.

(** What comes after the element at a position. *)
Lemma after_position k x :
  sorted_resources !! k = Some x →
  filter (λ i, after_cursor (hp_ResourceID x) (hp_ResourceID i) = true) sorted_resources =
  drop (S k) sorted_resources.
Proof using Hd.
  intros Hx. pose proof (list_elem_of_lookup_2 _ _ _ Hx) as Hin. apply sorted_elem in Hin.
  destruct (resource_cursor x Hin) as [Htrim Hne].
  assert (Haft : ∀ i, after_cursor (hp_ResourceID x) (hp_ResourceID i) =
    String.ltb (hp_ResourceID x) (hp_ResourceID i)).
  { intros i. unfold after_cursor. rewrite Htrim.
    destruct (empty_str _) eqn:E; [by apply streq_true in E|done]. }
  assert (Hs : StronglySorted resource_le sorted_resources) by (apply StronglySorted_merge_sort; apply _).
  assert (Hdiff : ∀ i y, sorted_resources !! i = Some y → i ≠ k →
    hp_ResourceID y ≠ hp_ResourceID x).
  { intros i y Hy Hik E. apply Hik. pose proof resources_nodup as Hn.
    assert (NoDup (map hp_ResourceID sorted_resources)) as Hns.
    { unfold sorted_resources. by rewrite merge_sort_Permutation. }
    eapply NoDup_lookup; [exact Hns| |]; rewrite list_lookup_fmap; [by rewrite Hy|].
    by rewrite Hx, E. }
  rewrite <- (take_drop (S k) sorted_resources) at 1. rewrite filter_app.
  rewrite (filter_nothing _ (take (S k) _)); cbn [app].
  - apply filter_every. intros y Hy. rewrite Haft.
    apply list_elem_of_lookup in Hy as [i Hi]. rewrite lookup_drop in Hi.
    apply leb_ltb; [|by apply not_eq_sym, (Hdiff (S k + i)%nat); [|lia]].
    revert Hs Hx Hi. generalize sorted_resources as L. clear. intros L Hs. revert k.
    induction Hs as [|z L Hs IH Hz]; intros k Hx Hi; [done|]. destruct k as [|k].
    + injection Hx as ->. cbn in Hi. apply list_elem_of_lookup_2 in Hi.
      rewrite Forall_forall in Hz. by apply Hz.
    + by apply (IH k).
  - intros y Hy. rewrite Haft. apply elem_of_take in Hy as (i & Hi & Hik).
    destruct (decide (i = k)) as [->|Hne2].
    { rewrite Hx in Hi. injection Hi as <-. by rewrite ltb_irrefl. }
    intros Hlt.
    assert (String.leb (hp_ResourceID y) (hp_ResourceID x) = true) as Hle.
    { assert (i < k)%nat as Hlk by lia. revert Hs Hx Hi Hlk. generalize sorted_resources as L.
      clear. intros L Hs. revert i k. induction Hs as [|z L Hs IH Hz]; intros i k Hx Hi Hlk; [done|].
      destruct k as [|k]; [lia|]. destruct i as [|i].
      - injection Hi as ->. cbn in Hx. apply list_elem_of_lookup_2 in Hx.
        rewrite Forall_forall in Hz. by apply Hz.
      - apply (IH i k); [done..|lia]. }
    apply (Hdiff i y Hi Hne2). apply String.leb_antisym; [done|by apply ltb_leb].
Qed.

(** A cursor stands for a position. *)
Definition at_position (cursor : string) (k : nat) : Prop :=
  (cursor = "" ∧ k = 0%nat) ∨
  ∃ j x, k = S j ∧ sorted_resources !! j = Some x ∧ cursor = hp_ResourceID x.
Lemma at_position_page cursor k :
  at_position cursor k →
  filter (λ i, after_cursor cursor (hp_ResourceID i) = true) sorted_resources =
  drop k sorted_resources.
Proof using Hd.
  intros [[-> ->]|(j & x & -> & Hx & ->)]; [|by apply after_position].
  rewrite drop_0. apply filter_every. done.
Qed.
Lemma full_page_next cursor k n :
  (0 < n)%nat → at_position cursor k → (n ≤ length (drop k sorted_resources))%nat →
  ∃ x, last (take n (drop k sorted_resources)) = Some x ∧
    at_position (hp_ResourceID x) (k + n) ∧ hp_ResourceID x ≠ "".
Proof using Hd.
  intros Hn _ Hl. rewrite last_lookup, length_take. rewrite length_drop in *.
  destruct (lookup_lt_is_Some_2 sorted_resources (k + (n - 1))) as [x Hx]; [lia|].
  exists x. split.
  - rewrite lookup_take_lt, lookup_drop by lia. rewrite <- Hx. f_equal. lia.
  - split; [right; exists (k + (n - 1))%nat, x; split_and!; [lia|done..]|].
    apply resource_cursor, sorted_elem. by eapply list_elem_of_lookup_2.
Qed.

End Pages.

(** The platform's loop over [Responsibilities]: it follows the cursor until
    there is none. *)
Fixpoint walk `{Oracle} (fuel : nat) (tenantID userID cursor : string) (limit : Z)
    : Tx (list HandoverResponsibility) :=
  match fuel with
  | O => mret []
  | S fuel =>
      page ← Responsibilities tenantID userID cursor limit;
      if empty_str page.2 then mret page.1
      else rest ← walk fuel tenantID userID page.2 limit; mret (page.1 ++ rest)
  end.

Lemma resource_typed t u d i :
  i ∈ responsibilities t u d →
  empty_str (TrimSpace (hp_ResourceType i)) = false ∧ empty_str (TrimSpace (hp_Category i)) = false.
Proof.
  unfold responsibilities. rewrite elem_of_app.
  by intros [(c & -> & _)%list_elem_of_fmap|(x & -> & _)%list_elem_of_fmap].
Qed.

Section Walk.
Variables (t u : string) (d : DB) (o : Oracle).
Hypotheses (Hd : located d) (Ho : healthy o).

Lemma count_from fuel cursor k n :
  at_position t u d cursor k → (length (drop k (sorted_resources t u d)) < 200 * fuel)%nat →
  ∃ n', @countResponsibilities o fuel t u cursor (Z.of_nat (min k (length (sorted_resources t u d)))) (n, d) =
    (Ok (Some (Z.of_nat (length (sorted_resources t u d)))), (n', d)).
Proof using Hd Ho.
  revert cursor k n. set (L := sorted_resources t u d).
  induction fuel as [|fuel IH]; intros cursor k n Hp Hf; [lia|].
  cbn [countResponsibilities]. unfold mbind, Tx_bind.
  rewrite (page_of t u d Hd o) by done. cbv beta iota zeta.
  rewrite (at_position_page t u d Hd _ k Hp). fold L. change (Z.to_nat 200) with 200%nat.
  rewrite length_drop in Hf.
  assert (El : length (take 200 (drop k L)) = min 200 (length L - k))
    by by rewrite length_take, length_drop.
  destruct (decide (200 ≤ length (drop k L))%nat) as [Hfull|Hpart].
  - destruct (full_page_next t u d Hd cursor k 200 ltac:(lia) Hp Hfull) as (x & Hx & Hnext & _).
    fold L in Hx. rewrite Hx, El. rewrite length_drop in Hfull.
    replace (Z.of_nat (min 200 (length L - k)) <? 200) with false by bool_lia.
    destruct (IH (hp_ResourceID x) (k + 200)%nat (S (S n)) Hnext) as [n' E].
    { rewrite length_drop. fold L. lia. }
    exists n'. rewrite <- E. f_equal. lia.
  - rewrite length_drop in Hpart. exists (S (S n)). unfold mret, Tx_ret.
    destruct (last (take 200 (drop k L))) as [x|] eqn:Hx.
    + rewrite El. replace (Z.of_nat (min 200 (length L - k)) <? 200) with true by bool_lia.
      do 3 f_equal. lia.
    + apply last_None in Hx. rewrite Hx in *. cbn [length] in El |- *. do 3 f_equal. lia.
Qed.

Lemma page_answer cursor limit n k :
  TrimSpace t = t → TrimSpace u = u → t ≠ "" → u ≠ "" → 1 ≤ limit ≤ 200 →
  TrimSpace cursor = cursor → at_position t u d cursor k →
  let page := take (Z.to_nat limit) (drop k (sorted_resources t u d)) in
  ∃ n', @Responsibilities o t u cursor limit (n, d) =
    (Ok (page, if Z.of_nat (length page) =? limit
               then match last page with Some i => hp_ResourceID i | None => "" end else ""),
     (n', d)).
Proof using Hd Ho.
  intros Et Eu Ht Hu Hl Ec Hp page. unfold Responsibilities. rewrite Et, Eu, Ec. cbv zeta.
  unfold mbind, Tx_bind, guard, lift, mret, Tx_ret. unfold empty_str at 1 2.
  rewrite (proj2 (streq_false t "") Ht), (proj2 (streq_false u "") Hu). cbn [orb fail_if].
  replace ((limit <=? 0) || (200 <? limit)) with false by bool_lia.
  rewrite (page_of t u d Hd o) by (done || lia). cbv beta iota zeta.
  rewrite (at_position_page t u d Hd _ k Hp). fold page.
  assert (Hid : map (λ i, mkResponsible
     (if empty_str (TrimSpace (hp_ResourceType i)) then "contract" else hp_ResourceType i)
      (hp_ResourceID i) (hp_ResourceName i) (hp_OwnerUserID i)
      (if empty_str (TrimSpace (hp_Category i)) then HandoverCategoryContractOwner
       else hp_Category i) (hp_Version i) (hp_UpdatedAt i)) page = page).
  { rewrite <- (list_fmap_id page) at 2. apply list_fmap_ext. intros j i Hi%list_elem_of_lookup_2.
    destruct (resource_typed t u d i) as [-> ->]; [|by destruct i].
    apply sorted_elem. unfold page in Hi. apply elem_of_take in Hi as (m & Hm & _).
    rewrite lookup_drop in Hm. by eapply list_elem_of_lookup_2. }
  rewrite Hid. by eexists.
Qed.

Lemma walk_from fuel cursor k n limit :
  TrimSpace t = t → TrimSpace u = u → t ≠ "" → u ≠ "" → 1 ≤ limit ≤ 200 →
  TrimSpace cursor = cursor → at_position t u d cursor k →
  (length (drop k (sorted_resources t u d)) < Z.to_nat limit * fuel)%nat →
  ∃ n', @walk o fuel t u cursor limit (n, d) = (Ok (drop k (sorted_resources t u d)), (n', d)).
Proof using Hd Ho.
  intros Et Eu Ht Hu Hl. revert cursor k n. set (L := sorted_resources t u d).
  induction fuel as [|fuel IH]; intros cursor k n Ec Hp Hf; [lia|].
  cbn [walk]. unfold mbind, Tx_bind.
  destruct (page_answer cursor limit n k Et Eu Ht Hu Hl Ec Hp) as [n1 E]. fold L in E.
  cbv zeta in E. unfold mbind, Tx_bind in E. rewrite E. cbv beta iota zeta.
  cbn [fst snd]. rewrite length_drop in Hf.
  assert (El : length (take (Z.to_nat limit) (drop k L)) = min (Z.to_nat limit) (length L - k))
    by by rewrite length_take, length_drop.
  destruct (decide (Z.to_nat limit ≤ length (drop k L))%nat) as [Hfull|Hpart].
  - destruct (full_page_next t u d Hd cursor k (Z.to_nat limit) ltac:(lia) Hp Hfull)
      as (x & Hx & Hnext & Hne). fold L in Hx. rewrite length_drop in Hfull. rewrite Hx, El.
    replace (Z.of_nat (min (Z.to_nat limit) (length L - k)) =? limit) with true by bool_lia.
    unfold empty_str. rewrite (proj2 (streq_false _ _) Hne).
    assert (Hin : x ∈ responsibilities t u d).
    { apply sorted_elem. apply last_Some_elem_of, elem_of_take in Hx as (m & Hm & _).
      rewrite lookup_drop in Hm. by eapply list_elem_of_lookup_2. }
    destruct (IH (hp_ResourceID x) (k + Z.to_nat limit)%nat n1) as [n' Ew];
      [by apply (resource_cursor t u d Hd)|done| |].
    { rewrite length_drop. fold L. lia. }
    exists n'. rewrite Ew. unfold mret, Tx_ret. by rewrite <- drop_drop, take_drop.
  - rewrite length_drop in Hpart. rewrite El.
    replace (Z.of_nat (min (Z.to_nat limit) (length L - k)) =? limit) with false by bool_lia.
    exists n1. cbn [empty_str]. unfold mret, Tx_ret.
    by rewrite take_ge by (rewrite length_drop; lia).
Qed.

End Walk.

(** C29: Following the cursor lists every responsibility of a user exactly once, in
    the order of the identifiers, for every page size from 1 to 200: the pages of
    open contracts and of active approval tasks are cut, merged and cut again
    without losing or repeating one.  The count a freeze reports is the number of
    them.  This holds while no statement fails and the tables stay as they are,
    for a tenant and a user given without outer white space, and for tables
    whose contracts and approvals have identifiers of 26 characters and whose
    cursors (contract identifiers, approval and node identifiers of tasks) have no
    outer white space, which the service would cut. *)
Theorem responsibilities_paged (o : Oracle) tenantID userID limit fuel n d :
  healthy o → located d → TrimSpace tenantID = tenantID → TrimSpace userID = userID →
  tenantID ≠ "" → userID ≠ "" → 1 ≤ limit ≤ 200 →
  (length (responsibilities tenantID userID d) < fuel)%nat →
  ∃ all n1 n2, @walk o fuel tenantID userID "" limit (n, d) = (Ok all, (n1, d)) ∧
    all ≡ₚ responsibilities tenantID userID d ∧
    StronglySorted (λ a b, String.ltb (hp_ResourceID a) (hp_ResourceID b) = true) all ∧
    @countResponsibilities o fuel tenantID userID "" 0 (n, d) =
      (Ok (Some (Z.of_nat (length all))), (n2, d)).
Proof.
  intros Ho Hd Et Eu Ht Hu Hl Hf. set (L := sorted_resources tenantID userID d).
  assert (EL : length L = length (responsibilities tenantID userID d)).
  { unfold L, sorted_resources. by rewrite merge_sort_Permutation. }
  destruct (walk_from tenantID userID d o Hd Ho fuel "" 0 n limit) as [n1 E1];
    [done..|by left|rewrite drop_0; fold L; nia|].
  destruct (count_from tenantID userID d o Hd Ho fuel "" 0 n) as [n2 E2];
    [by left|rewrite drop_0; fold L; nia|].
  exists L, n1, n2. split_and!; [exact E1|apply merge_sort_Permutation| |exact E2].
  assert (Hs : StronglySorted resource_le L) by (apply StronglySorted_merge_sort; apply _).
  assert (Hn : NoDup (map hp_ResourceID L)).
  { unfold L, sorted_resources. rewrite merge_sort_Permutation. by apply resources_nodup. }
  clearbody L. clear -Hs Hn. induction Hs as [|x L Hs IH Hx]; [constructor|].
  cbn in Hn. apply NoDup_cons in Hn as [Hx' Hn]. constructor; [by apply IH|].
  rewrite Forall_forall in Hx |- *. intros y Hy. apply leb_ltb; [by apply Hx|].
  intros E. apply Hx'. rewrite E. by apply list_elem_of_fmap_2.
Qed.

(** ** Histories *)

(** The statements of the handover besides the transfer of a contract, which is a
    call of the repository, and everything else. *)
Inductive handover_event : Type :=
  | HvSave (oracle : Oracle) (r : HandoverReceipt)
  | HvCreate (oracle : Oracle) (f : HandoverFreeze)
  | HvRelease (oracle : Oracle) (tenantID batchID outcome : string) (now : Time)
  | HvOther (e : intake_event).

(** Receipts are only added, each under a new key. *)
Inductive receipts_extend (R : list handoverReceiptRecord) : list handoverReceiptRecord → Prop :=
  | receipts_same : receipts_extend R R
  | receipts_more r :
      (∀ x, x ∈ R → receipt_of (hr_TenantID r) (hr_IdempotencyKey r) x = false) →
      receipts_extend R (R ++ [r]).
Definition receipt_key (r : handoverReceiptRecord) := (hr_TenantID r, hr_IdempotencyKey r).
Definition receipts_ok (d : DB) : Prop := NoDup (map receipt_key (db_receipts d)).

Lemma receipt_of_true t k r :
  receipt_of t k r = true ↔ hr_TenantID r = t ∧ hr_IdempotencyKey r = k.
Proof. unfold receipt_of. by rewrite andb_true_iff, !streq_true. Qed.
Lemma receipts_extend_ok R R' :
  receipts_extend R R' → NoDup (map receipt_key R) → NoDup (map receipt_key R').
Proof.
  intros [|r Hr] Hn; [done|]. rewrite map_app. apply nodup_snoc; [done|].
  intros (x & E & Hx)%list_elem_of_fmap. specialize (Hr x Hx).
  rewrite (proj2 (receipt_of_true _ _ _)) in Hr; [done|]. unfold receipt_key in E. naive_solver.
Qed.
Lemma receipts_extend_in R R' r : receipts_extend R R' → r ∈ R → r ∈ R'.
Proof. intros [|r' _] Hr; [done|]. apply elem_of_app. by left. Qed.
Lemma same_receipt_false a b :
  same_receipt a b = false → receipt_of (hr_TenantID a) (hr_IdempotencyKey a) b = false.
Proof. unfold same_receipt. by intros [_ ?]%orb_false_iff. Qed.

#[export] Instance receipts_foreign : Foreign db_receipts.
Proof. by repeat constructor. Qed.

Section Receipts.
Context `{GoUnicode} `{Sha256} `{TzDatabase} `{Collation} `{Documents} `{Aead} `{PhoneKeyEnv}.
Context `{StoredColumns}.

Definition handover_step (e : handover_event) (d : DB) : DB :=
  match e with
  | HvSave oracle r => (@SaveReceipt oracle r (0%nat, d)).2.2
  | HvCreate oracle f => (@CreateFreeze oracle f d).2
  | HvRelease oracle t b outcome now => (@ReleaseFreeze oracle t b outcome now (0%nat, d)).2.2
  | HvOther e => intake_step e d
  end.
Definition handover_steps (events : list handover_event) (d : DB) : DB :=
  foldl (λ d e, handover_step e d) d events.

Lemma transfer_receipts (o : Oracle) inp now d r d' :
  @TransferOwnership o inp now d = (r, d') → receipts_extend (db_receipts d) (db_receipts d').
Proof.
  intros [->|[a Hr]]%transaction_runs; [constructor|].
  apply runs_transfer in Hr as [(x & _ & _ & _ & ->)|(Hno & c & id & _ & _ & _ &
    [[_ [_ ->]]|[_ (S & R & _ & _ & ->)]])]; [constructor|by constructor..].
Qed.

Lemma background_receipts b d :
  receipts_extend (db_receipts d) (db_receipts (background_step "" b d)).
Proof.
  assert (Hid : ∀ d', db_receipts d' = db_receipts d →
    receipts_extend (db_receipts d) (db_receipts d')) by (intros d' ->; constructor).
  destruct b as [c Ht|oracle meta t kind id actor|kind m limit w]; cbn [background_step].
  - destruct c as [c|oracle op]; cbn [invoke_any].
    + destruct c as [o meta op]. destruct op; try (apply Hid; by apply (invoke_keeps db_receipts)).
      unfold invoke. cbn [call_oracle call_meta call_op perform].
      destruct (TransferOwnership inp now d) as [r d'] eqn:E. by eapply transfer_receipts.
    + destruct (perform_signing op d) as [r d'] eqn:E. apply signing_refines in E as [E _].
      apply Hid. unfold unsigned in E. cbn [snd]. congruence.
  - unfold RetryFailedIntegrationEvent, integrationOutboxModel.
    repeat (destruct (kind =s _);
      [cbv beta iota; destruct (transaction _ d) as [x d'] eqn:Et; apply retry_changes in Et;
       [|apply _]; cbn [snd]; by destruct Et as [->|(g & A & -> & _ & _)]; apply Hid|]).
    by apply Hid.
  - destruct (kind =s ""); [by apply Hid|]. unfold run_round.
    destruct (kind =s IntegrationOutboxFinancial).
    { rewrite financial_round. destruct (only_batch (R := deliveryOutboxRecord financialEffectivePayload) ErrNotFound
        m permanentDeliveryFailure (boundedDeliveryClaimLimit limit) w d) as (l & -> & _). by apply Hid. }
    destruct (kind =s IntegrationOutboxResponsibility).
    { rewrite responsibility_round.
      destruct (only_batch (R := deliveryOutboxRecord responsibilityPayload) ErrRecordNotFound
        m permanentDeliveryFailure (boundedDeliveryClaimLimit limit) w d) as (l & -> & _). by apply Hid. }
    destruct (kind =s IntegrationOutboxProject).
    { destruct (project_round m w d) as (l & -> & _). by apply Hid. }
    destruct (kind =s IntegrationOutboxLink); [|by apply Hid].
    destruct (link_round m w d) as (g & -> & Hg). by apply Hid.
Qed.

Lemma intake_receipts e d : receipts_extend (db_receipts d) (db_receipts (intake_step e d)).
Proof.
  assert (Hid : ∀ d', db_receipts d' = db_receipts d →
    receipts_extend (db_receipts d) (db_receipts d')) by (intros d' ->; constructor).
  destruct e as [o i|o lic may meta t id reviewer review key display|b]; cbn [intake_step].
  - apply Hid. by destruct (accept_insert_tables o i (0%nat, d)) as [->|(now & I' & E & ->)].
  - apply Hid. unfold serve_review. destruct (review_request _ _ _ _) as [[rv hash]|e]; [|done].
    unfold ReviewOpportunityIntake. destruct (transaction _ d) as [r d'] eqn:Et. cbn [snd].
    apply transaction_runs in Et as [->|[out Hr]]; [done|].
    apply runs_review in Hr as (row & _ & _ & _ & [(v & _ & _ & _ & _ & ->)|Hr]); [done|].
    apply runs_first_review in Hr as (_ & _ & now & link & vid & lid & next & created & _ & _ & _ &
      _ & _ & d0 & Hd0 & ->). cbn. destruct link as [l|]; [|by subst].
    by apply runs_confirm in Hd0 as (? & ? & ? & ? & ? & _ & _ & _ & _ & _ & _ & _ & ->).
  - apply background_receipts.
Qed.

Lemma handover_receipts e d : receipts_extend (db_receipts d) (db_receipts (handover_step e d)).
Proof.
  destruct e as [o r|o f|o t b outcome now|e]; cbn [handover_step]; [| | |apply intake_receipts].
  - unfold SaveReceipt, modify, exec, newID, time_now, mbind, Tx_bind. cbv beta iota zeta.
    destruct (o_fault 2); [constructor|]. cbn. unfold insert_ignore.
    destruct (existsb _ _) eqn:E; [constructor|]. constructor. intros x Hx.
    by apply (existsb_none _ _ E), same_receipt_false in Hx.
  - unfold CreateFreeze, exec. destruct (o_fault 0); [constructor|].
    destruct (insert_unique _ _ (db_freezes d)) as [rows|e] eqn:Ei; cbn [mbind res_bind]; [constructor|].
    destruct e; try constructor. unfold take_row, query, mbind, Tx_bind. destruct (o_fault 1); [constructor|].
    cbv beta iota. destruct (head _); constructor.
  - unfold ReleaseFreeze, exec, query, mbind, Tx_bind. destruct (o_fault 0); [constructor|].
    cbv beta iota zeta. destruct (_ =? 0)%nat; [|constructor].
    destruct (o_fault 1); [constructor|]. unfold guard, lift. cbn. constructor.
Qed.

Lemma steps_receipts events d r :
  receipts_ok d → r ∈ db_receipts d →
  receipts_ok (handover_steps events d) ∧ r ∈ db_receipts (handover_steps events d).
Proof.
  revert d. induction events as [|e events IH]; intros d Hn Hr; [done|].
  pose proof (handover_receipts e d) as He. apply IH.
  - by eapply receipts_extend_ok.
  - by eapply receipts_extend_in.
Qed.

End Receipts.

(** ** Transfers *)

(** A request the checks let through to the receipts. *)
Definition transferable (input : HandoverTransferInput) : Prop :=
  let i := trim_transfer input in
  Forall (λ s, s ≠ "") [tf_TenantID i; tf_BatchID i; tf_ItemID i; tf_ResourceID i; tf_FromUserID i;
                        tf_ToUserID i; tf_IdempotencyKey i] ∧
  tf_FromUserID i ≠ tf_ToUserID i.

Lemma find_receipt_in (o : Oracle) t k n d r :
  healthy o → receipts_ok d → r ∈ db_receipts d → receipt_of t k r = true →
  @FindReceipt o t k (n, d) = (Ok (Some (handoverReceiptFromRecord r)), (S n, d)).
Proof.
  intros [Hf _] Hn Hr Hk. unfold FindReceipt, find_receipt, query, mbind, Tx_bind. rewrite Hf.
  cbv beta iota zeta. rewrite (head_filter_unique _ _ r); [done|done|done|].
  intros y Hy Hyk. apply (NoDup_map_eq receipt_key (db_receipts d)); [done..|].
  apply receipt_of_true in Hk as []. apply receipt_of_true in Hyk as []. unfold receipt_key.
  congruence.
Qed.

Section Transfers.
Context `{GoUnicode} `{Sha256} `{TzDatabase} `{Collation} `{Documents} `{Aead} `{PhoneKeyEnv}.
Context `{StoredColumns}.

(** What the checks let through. *)
Lemma checks_passed (o : Oracle) owners input n d out s :
  @transfer_checks o owners input (n, d) = (Ok out, s) →
  let i := trim_transfer input in
  (∃ r, out = inl (handoverReceiptFromRecord r) ∧ r ∈ db_receipts d ∧
     receipt_of (tf_TenantID i) (tf_IdempotencyKey i) r = true) ∨
  (∃ name, (out = inr i ∧ name = tf_ToDisplayName i ∧ owners = None ∨
            out = inr (set_display name i) ∧
            ∃ owner, owners = Some (Ok owner) ∧ name = TrimSpace (ur_DisplayName owner) ∧ name ≠ "" ∧
              TrimSpace (ur_UserID owner) = tf_ToUserID i) ∧
     tf_FromUserID i ≠ tf_ToUserID i ∧
     ∀ f, f ∈ db_freezes d → active_freeze (tf_TenantID i) (tf_ToUserID i) f = false).
Proof.
  intros E i. assert (Hr : runs (transfer_checks owners input) d out s.2)
    by (exists n, s.1; rewrite E; by destruct s).
  clear E. unfold transfer_checks in Hr. cbv zeta in Hr. fold i in Hr.
  apply runs_bind in Hr as (u1 & d1 & Hg & Hr). inv_tx Hg.
  apply runs_bind in Hr as (u2 & d1 & Hg2 & Hr). inv_tx Hg2. apply streq_false in Hg2.
  apply runs_bind in Hr as (existing & d1 & Hf & Hr). unfold FindReceipt in Hf.
  apply runs_bind in Hf as (x & d2 & Hq & Hf). apply runs_query in Hq as [Ex ->].
  apply runs_ret in Hf as [-> ->].
  destruct x as [x|]; cbn [fmap option_fmap option_map] in Hr.
  { apply runs_ret in Hr as [-> _]. left. symmetry in Ex. apply head_Some_elem_of, list_elem_of_filter in Ex as [].
    by exists x. }
  right. apply runs_bind in Hr as (freeze & d1 & Ha & Hr). apply runs_query in Ha as [Ea ->].
  apply runs_bind in Hr as (u3 & d1 & Hg3 & Hr). inv_tx Hg3.
  assert (Hfree : ∀ f, f ∈ db_freezes d → active_freeze (tf_TenantID i) (tf_ToUserID i) f = false).
  { intros f Hin. destruct (active_freeze _ _ f) eqn:Ef; [|done].
    destruct (head (merge_sort frozen_first _)) as [g|] eqn:Eh.
    - apply head_Some_elem_of in Eh. rewrite merge_sort_Permutation in Eh.
      apply list_elem_of_filter in Eh as [Hg4 _]. cbn in Hg3.
      unfold active_freeze in Hg4. bool_hyps. congruence.
    - apply head_None in Eh. pose proof (merge_sort_Permutation frozen_first (filter
        (λ r, active_freeze (tf_TenantID i) (tf_ToUserID i) r = true) (db_freezes d))) as Hp.
      rewrite Eh in Hp. apply Permutation_nil_l in Hp.
      assert (f ∈ ([] : list handoverFreezeRecord)) as []%not_elem_of_nil.
      rewrite Hp. by apply list_elem_of_filter. }
  destruct owners as [answer|]; [|inv_tx Hr; exists (tf_ToDisplayName i); by split_and!; [left|..]].
  apply runs_bind in Hr as (owner & d1 & Hl & Hr). inv_tx Hl.
  apply runs_bind in Hr as (u4 & d1 & Hg4 & Hr). inv_tx Hg4. inv_tx Hr. bool_hyps.
  exists (TrimSpace (ur_DisplayName owner)). split_and!; [right|done|done].
  split; [done|]. exists owner. split_and!; [done..| |].
  - by apply streq_false.
  - by apply streq_true.
Qed.

Lemma stream_owner t id c S R S' R' :
  stream_effect t id c S R S' R' →
  ∃ s, S' !! (t, id) = Some s ∧ rs_OwnerUserID s = c_OwnerUserID (c_owner c) ∧
    rs_Active s = responsibilityActive c.
Proof.
  intros [s Hs _ Ho Ha|v now _ _|v now r _ _ _ _]; [by exists s|..];
    eexists; rewrite lookup_insert_eq; by split_and!.
Qed.

(** What a transfer of a contract does.  An answer is the receipt that was
    there; or a refusal, recorded, because the version or the owner moved, with
    the contract untouched; or the transfer, with its receipt in the same commit:
    the successor, who was not frozen and has the name the directory gave, owns
    the contract of the named owner and version, the version is one higher, and
    the responsibility stream names the successor. *)
Theorem transfer_effect (o : Oracle) owners approvals now input others d receipt d1 :
  let i := trim_transfer input in
  let w := others d in
  tf_ResourceType i ≠ HandoverResourceApprovalTask →
  @Transfer o owners approvals now input others d = (Ok receipt, d1) →
  (∃ r, receipt = handoverReceiptFromRecord r ∧
     receipt_of (tf_TenantID i) (tf_IdempotencyKey i) r = true ∧ r ∈ db_receipts d1 ∧
     (d1 = d ∨ d1 = w)) ∨
  (∃ c id, db_contracts w !! tf_ResourceID i = Some c ∧ c_TenantID c = tf_TenantID i ∧
     ordinaryContractRecord c = true ∧
     (∀ f, f ∈ db_freezes d → active_freeze (tf_TenantID i) (tf_ToUserID i) f = false) ∧
     ((ho_Status receipt = HandoverReceiptRejected ∧
       (c_Version c ≠ tf_ExpectedVersion i ∨ c_OwnerUserID (c_owner c) ≠ tf_FromUserID i) ∧
       let r := transfer_receipt i id HandoverReceiptRejected 0 (Some "CONTRACT_VERSION_CONFLICT")
                  None now in
       receipt = handoverReceiptFromRecord r ∧ d1 = set_receipts (db_receipts w ++ [r]) w) ∨
      (ho_Status receipt = HandoverReceiptApplied ∧ c_Version c = tf_ExpectedVersion i ∧
       c_OwnerUserID (c_owner c) = tf_FromUserID i ∧
       ∃ name c' s r, c' = contract_set_owner (tf_ToUserID i) name now c ∧
         (∀ owner, owners = Some (Ok owner) → name = TrimSpace (ur_DisplayName owner)) ∧
         db_contracts d1 = <[tf_ResourceID i := c']> (db_contracts w) ∧
         db_streams d1 !! (tf_TenantID i, tf_ResourceID i) = Some s ∧
         rs_OwnerUserID s = tf_ToUserID i ∧
         db_receipts d1 = db_receipts w ++ [r] ∧ receipt = handoverReceiptFromRecord r ∧
         receipt_of (tf_TenantID i) (tf_IdempotencyKey i) r = true))).
Proof.
  intros i w Htype E. unfold Transfer in E.
  destruct (transfer_checks owners input (0%nat, d)) as [[out|e] s] eqn:Ec; [|done].
  apply checks_passed in Ec. cbv zeta in Ec. fold i in Ec.
  destruct Ec as [(r & -> & Hin & Hk)|(name & Hout & Hne & Hfree)].
  { injection E as <- <-. left. exists r. by split_and!; [..|left]. }
  assert (∃ to_name, out = inr (set_display to_name i) ∧
    (∀ owner, owners = Some (Ok owner) → to_name = TrimSpace (ur_DisplayName owner)))
    as (to_name & -> & Hname).
  { destruct Hout as [(-> & _ & ->)|(-> & owner & -> & -> & _)].
    - exists (tf_ToDisplayName i). by destruct i.
    - eexists. split; [reflexivity|]. by intros owner' [= <-]. }
  cbn [tf_ResourceType set_display] in E. rewrite (proj2 (streq_false _ _) Htype) in E.
  fold w in E. unfold TransferOwnership, transaction in E.
  destruct (transfer_body _ now (0%nat, w)) as [[a|e] [t1 d2]] eqn:Eb; [|done].
  assert (a = receipt ∧ d2 = d1) as [-> ->] by (destruct o_commit as [[]|]; naive_solver).
  assert (runs (transfer_body (set_display to_name i) now) w receipt d1) as Hr
    by (by exists 0%nat, t1).
  apply runs_transfer in Hr. cbn [tf_TenantID tf_IdempotencyKey tf_ResourceID tf_ExpectedVersion
    tf_FromUserID tf_ToUserID tf_ToDisplayName set_display] in Hr.
  destruct Hr as [(r & Hin & Hk & -> & ->)|(_ & c & id & Hc & Ht & Ho & Hcase)].
  { left. exists r. by split_and!; [..|right]. }
  right. exists c, id. split_and!; [done..|].
  destruct Hcase as [(Hd & -> & ->)|((Hv & Hown) & S & R & He & -> & ->)]; [left|right].
  - by split_and!.
  - apply stream_owner in He as (s' & Hs & Hown' & _). split_and!; [done..|].
    eexists to_name, _, s', _. split_and!; [reflexivity|exact Hname|reflexivity|exact Hs|exact Hown'|
      reflexivity|reflexivity|]. by apply receipt_of_true.
Qed.

(** A transfer takes effect once.  After a transfer of a contract was answered,
    whatever the handover, the repository and the other services do, a request
    with the same tenant and key gets the same receipt and changes nothing,
    whatever else it asks for. *)
Theorem transfer_once (o : Oracle) owners approvals now input others d receipt d1 events
    (o' : Oracle) owners' approvals' now' input' others' :
  let d2 := handover_steps events d1 in
  receipts_ok d → receipts_ok (others d) →
  tf_ResourceType (trim_transfer input) ≠ HandoverResourceApprovalTask →
  @Transfer o owners approvals now input others d = (Ok receipt, d1) →
  healthy o' → transferable input' →
  tf_TenantID (trim_transfer input') = tf_TenantID (trim_transfer input) →
  tf_IdempotencyKey (trim_transfer input') = tf_IdempotencyKey (trim_transfer input) →
  @Transfer o' owners' approvals' now' input' others' d2 = (Ok receipt, d2).
Proof.
  intros d2 Hn Hno Htype E Hh [Hvalid Hself] Et Ek.
  assert (∃ r, receipt = handoverReceiptFromRecord r ∧ r ∈ db_receipts d1 ∧ receipts_ok d1 ∧
    receipt_of (tf_TenantID (trim_transfer input)) (tf_IdempotencyKey (trim_transfer input)) r = true)
    as (r & -> & Hr & Hok & Hkey).
  { pose proof E as E'. apply transfer_effect in E; [|done].
    destruct E as [(r & -> & Hk & Hr & Hd)|(c & id & _ & _ & _ & _ & Hcase)].
    { exists r. split_and!; [done..| |done]. by destruct Hd as [-> | ->]. }
    assert (receipts_extend (db_receipts (others d)) (db_receipts d1) ∨ d1 = d) as Hext.
    { unfold Transfer in E'. destruct (transfer_checks _ _ _) as [[[x|i]|e] s] eqn:Ec;
        [injection E' as _ <-; by right| |done].
      left. apply checks_passed in Ec. cbv zeta in Ec.
      assert (tf_ResourceType i ≠ HandoverResourceApprovalTask) as Hti.
      { destruct Ec as [(x & ? & _)|(name & [([= ->] & _)|([= ->] & _)] & _)]; done. }
      rewrite (proj2 (streq_false _ _) Hti) in E'. cbv iota in E'.
      exact (transfer_receipts _ _ _ _ _ _ E'). }
    assert (receipts_ok d1) as Hok.
    { destruct Hext as [Hext| ->]; [by eapply receipts_extend_ok|done]. }
    destruct Hcase as [(_ & _ & -> & ->)|(_ & _ & _ & name & c' & s & r & _ & _ & _ & _ & _ & Er & -> & Hk)].
    - eexists. split_and!; [reflexivity|apply elem_of_app; right; by left|exact Hok|].
      by apply receipt_of_true.
    - exists r. split_and!; [done|rewrite Er; apply elem_of_app; right; by left|done|done]. }
  destruct (steps_receipts events d1 r Hok Hr) as [Hok2 Hr2]. fold d2 in Hok2, Hr2.
  unfold Transfer, transfer_checks, mbind at 1 2, Tx_bind, guard, lift. cbv zeta.
  rewrite <- Et, <- Ek in Hkey. set (i := trim_transfer input') in *.
  rewrite !Forall_cons in Hvalid. destruct Hvalid as (H1' & H2' & H3' & H4' & H5' & H6' & H7' & _).
  unfold empty_str at 1 2 3 4 5 6 7.
  rewrite !(proj2 (streq_false _ _)) by done. cbn [orb fail_if].
  unfold mbind, Tx_bind. rewrite (find_receipt_in o' _ _ _ _ r) by done. reflexivity.
Qed.

End Transfers.

(** ** A run *)

#[local] Existing Instances sample_aead sample_key_env sample_columns.

Definition sample_transfer (key : string) : HandoverTransferInput :=
  mkTransfer "t1" "b1" "item1" "req1" "contract" "c1" "alice" "bob" "" 1 key.
Definition sample_owner : option (res UserReference) := Some (Ok (mkUserReference "bob" "Bob" [])).
Definition transfer_call (k key : string) (others : DB → DB) (d : DB) : res HandoverReceipt * DB :=
  @Transfer (fine k) sample_owner None (1700000000 * Second) (sample_transfer key) others d.
Definition freeze_call (k batch user : string) (d : DB) : res (HandoverFreeze * option Z) * DB :=
  @Freeze (fine k) 5 (Ok (k +:+ "f")) (1700000000 * Second) "t1" batch "req" user d.

(** A freeze does not keep responsibilities away from the user it names.  The
    checks of a transfer run before its transaction: a freeze of the successor that
    commits between the two reports that nothing is left to hand over, and then the
    contract arrives.  When the freeze comes first the transfer is refused. *)
Theorem freeze_race :
  let frozen := freeze_call "20" "b2" "bob" in
  let '(r, d) := transfer_call "21" "key" (λ d, (frozen d).2) created_db in
  (snd <$> match (frozen created_db).1 with Ok x => Some x | Err _ => None end) = Some (Some 0) ∧
  (ho_Status <$> match r with Ok x => Some x | Err _ => None end) = Some HandoverReceiptApplied ∧
  (c_OwnerUserID ∘ c_owner <$> db_contracts d !! "c1") = Some "bob" ∧
  map (λ f, (hf_UserID f, hf_Status f)) (db_freezes d) = [("bob", HandoverFreezeFrozen)] ∧
  (transfer_call "21" "key" (λ d, d) (frozen created_db).2).1 = Err ErrHandoverFrozen.
Proof. vm_compute. by split_and!. Qed.

(** ** Witnesses *)

(** A contract with an identifier of the width identifiers have. *)
Definition wide_id : string := "01HZZZZZZZZZZZZZZZZZZZZZZ0".
Definition wide_db : DB :=
  (invoke (good_call "1" (OpCreate 0
     (mkDomain wide_id "t1" "" "" "Maintenance" "service" "" [] []
       (mkPartyFields "" "" 7 "" "" 0 "" "" "ACME" "" "" "" "")
       (mkOwnerFields "" "" "" "alice" "Alice") 10000 "CNY" (Some plan_of_two)
       (mkDocumentFields "text" "" ∅ "" "" "" "" "" "" "" "" "hash")
       (mkOriginFields "" "" "" "" "" "" None) "" None None no_row)
     "alice")) (new_tables None)).2.

Lemma wide_located : located wide_db.
Proof.
  assert (map_Forall (λ id c, (c_ID c =s id) && (String.length (c_ID c) =? 26)%nat &&
    (TrimSpace (c_ID c) =s c_ID c) = true) (db_contracts wide_db)) as Hm
    by (apply (bool_decide_eq_true_1 (map_Forall _ _)); vm_compute; reflexivity).
  assert (db_tasks wide_db = ∅) as Ht by (vm_compute; reflexivity).
  revert Hm Ht. generalize wide_db as d. intros d Hm Ht.
  split; [| |intros k t; by rewrite Ht, lookup_empty..].
  - intros k c Hc. specialize (Hm k c Hc). cbn in Hm. bool_hyps. by apply streq_true.
  - intros k c Hc. specialize (Hm k c Hc). cbn in Hm. rewrite !andb_true_iff, streq_true in Hm.
    destruct Hm as [[_ Hl] Htr]. split; [by apply Nat.eqb_eq|by apply streq_true].
Qed.

Lemma responsibilities_paged_witness :
  length (responsibilities "t1" "alice" wide_db) = 1%nat ∧
  ∃ all n1 n2, @walk (fine "30") 2 "t1" "alice" "" 1 (0%nat, wide_db) = (Ok all, (n1, wide_db)) ∧
    length all = 1%nat ∧
    @countResponsibilities (fine "30") 2 "t1" "alice" "" 0 (0%nat, wide_db) =
      (Ok (Some 1), (n2, wide_db)).
Proof.
  assert (length (responsibilities "t1" "alice" wide_db) = 1%nat) as Hl by (vm_compute; reflexivity).
  split; [exact Hl|]. pose proof wide_located as Hd. revert Hl Hd. generalize wide_db as d.
  intros d Hl Hd.
  destruct (responsibilities_paged (fine "30") "t1" "alice" 1 2 0 d) as (all & n1 & n2 & E1 & Hp & _ & E2);
    [by split|exact Hd|reflexivity|reflexivity|discriminate|discriminate|lia|rewrite Hl; lia|].
  assert (length all = 1%nat) as El by (rewrite Hp; exact Hl).
  exists all, n1, n2. split; [exact E1|]. split; [exact El|]. rewrite E2, El. reflexivity.
Defined.

Definition applied_transfer (d : DB) : Prop :=
  ∃ receipt d1, transfer_call "21" "key" (λ d, d) d = (Ok receipt, d1) ∧
    ho_Status receipt = HandoverReceiptApplied.
Lemma transfer_applied : applied_transfer created_db.
Proof.
  assert (match (transfer_call "21" "key" (λ d, d) created_db).1 with
          | Ok x => ho_Status x | Err _ => "" end = HandoverReceiptApplied) as Hr
    by (vm_compute; reflexivity).
  revert Hr. generalize created_db as d. intros d Hr. unfold applied_transfer.
  destruct (transfer_call "21" "key" (λ d, d) d) as [[x|e] d1]; [|discriminate].
  exists x, d1. split; [reflexivity|exact Hr].
Qed.
Lemma created_receipts : db_receipts created_db = [].
Proof. vm_compute. reflexivity. Qed.

Lemma transfer_effect_witness :
  ∃ receipt d1, transfer_call "21" "key" (λ d, d) created_db = (Ok receipt, d1) ∧
    ∃ c, db_contracts created_db !! "c1" = Some c ∧ c_OwnerUserID (c_owner c) = "alice" ∧
      db_contracts d1 !! "c1" =
        Some (contract_set_owner "bob" "Bob" (1700000000 * Second) c).
Proof.
  pose proof transfer_applied as Ha. pose proof created_receipts as Hr. revert Ha Hr.
  generalize created_db as d. intros d (receipt & d1 & E & Hs) Hr.
  exists receipt, d1. split; [exact E|].
  destruct (transfer_effect (fine "21") sample_owner None (1700000000 * Second)
    (sample_transfer "key") (λ d, d) d receipt d1 ltac:(discriminate) E)
    as [(r & _ & Hk & Hin & Hd)|(c & id & Hc & _ & _ & _ & Hcase)].
  - assert (d1 = d) as -> by (by destruct Hd). rewrite Hr in Hin. by apply elem_of_nil in Hin.
  - exists c. split; [exact Hc|]. destruct Hcase as [(Hrej & _)|(_ & _ & Hown & name & c' & s & r &
      -> & Hname & Hc' & _)]; [rewrite Hs in Hrej; discriminate|].
    split; [exact Hown|]. rewrite Hc', (Hname _ eq_refl). apply lookup_insert_eq.
Defined.

(** The transfer is repeated with another name for the request, after the freeze of
    its successor. *)
Lemma transfer_once_witness :
  ∃ receipt d1, transfer_call "21" "key" (λ d, d) created_db = (Ok receipt, d1) ∧
    let d2 := handover_steps [HvCreate (fine "22") (mkHandoverFreeze "f" "t1" "b2" "r" "bob"
                HandoverFreezeFrozen 0 None "")] d1 in
    transfer_call "23" " key " (λ d, d) d2 = (Ok receipt, d2).
Proof.
  pose proof transfer_applied as Ha. pose proof created_receipts as Hr. revert Ha Hr.
  generalize created_db as d. intros d (receipt & d1 & E & _) Hr.
  exists receipt, d1. split; [exact E|].
  assert (receipts_ok d) as Hok by (unfold receipts_ok; rewrite Hr; constructor).
  apply (transfer_once (fine "21") sample_owner None (1700000000 * Second) (sample_transfer "key")
    (λ d, d) d receipt d1); [exact Hok|exact Hok|discriminate|exact E| | |reflexivity..].
  - split; reflexivity.
  - split; [|discriminate]. repeat constructor; discriminate.
Defined.
