(* ===== verification/Access.v ===== *)
(** * application/service.go, draft.go, templates.go: who may see and edit a contract

    The authenticated principal, the row scope the platform grants with a
    permission, the defence that keeps plain sales users on their own contracts,
    and the two forms of the row boundary: the predicate over loaded contracts
    ([canAccessContract]) and the SQL condition ([applyContractScope] of
    infrastructure/mysql/repository.go). *)

From Stdlib Require Import Btauto.
From S2P Require Import Prelude GoStrings GoTime Status ImportPolicy ProjectService PaymentTerm Store Repository.

#[local] Open Scope string_scope.
#[local] Open Scope Z_scope.
#[local] Open Scope list_scope.

(** ** Principals *)

Record ScopeFilter : Type := mkScope {
  sf_TenantID : string; sf_IdentityID : string; sf_OrganizationIDs : list string;
  sf_ProjectIDs : list string; sf_AllowAll : bool; sf_AllowSelf : bool
}.
Definition no_scope : ScopeFilter := mkScope "" "" [] [] false false.

Record DataScope : Type := mkDataScope {
  ds_RoleCode : string; ds_ScopeType : string; ds_ScopeID : string; ds_EnvironmentCode : string
}.
Record Principal : Type := mkPrincipal {
  p_Subject : string; p_TenantID : string; p_UserID : string; p_IdentityID : string;
  p_PersonID : string; p_DisplayName : string; p_UserName : string; p_Email : string;
  p_Roles : list string; p_Permissions : gmap string bool; p_DataScopes : list DataScope;
  p_PermissionScopes : gmap string ScopeFilter; p_AuthorizationRevision : Z;
  p_CatalogVersion : string
}.

Definition is_empty {A} (l : list A) : bool := match l with [] => true | _ => false end.

(** A permission that is absent from the map reads as [false]. *)
Definition Has (p : Principal) (permission : string) : bool :=
  default false (p_Permissions p !! permission).

(** [Scope]: [None] for [ok = false]. *)
Definition Scope (p : Principal) (permission : string) : option ScopeFilter :=
  if negb (Has p permission) then None
  else match p_PermissionScopes p !! permission with
       | None => None
       | Some f =>
           let filter := mkScope (p_TenantID p) (p_IdentityID p) (sf_OrganizationIDs f)
                           (sf_ProjectIDs f) (sf_AllowAll f) (sf_AllowSelf f) in
           if sf_AllowAll filter || sf_AllowSelf filter ||
              negb (is_empty (sf_OrganizationIDs filter)) || negb (is_empty (sf_ProjectIDs filter))
           then Some filter else None
       end.

Definition containsString (values : list string) (expected : string) : bool :=
  if empty_str expected then false else contains values expected.

Definition hasRole (actor : Principal) (expected : string) : bool :=
  contains (p_Roles actor) expected.
Definition hasPermissionOrAdmin (actor : Principal) (permission : string) : bool :=
  Has actor permission || hasRole actor "admin".

(** The roles whose holders see more than their own contracts. *)
Definition senior_roles : list string :=
  ["admin"; "sales_director"; "tech_director"; "finance_director"; "audit_admin"].

Fixpoint salesOnly_from (found : bool) (roles : list string) : bool :=
  match roles with
  | [] => found
  | role :: rest =>
      if contains senior_roles role then false
      else salesOnly_from (found || (role =s "sales")) rest
  end.
Definition salesOnly (roles : list string) : bool := salesOnly_from false roles.

(** The service's scope: a plain sales user keeps only the own contracts when
    reading or editing, whatever the platform granted. *)
Definition contractScope (actor : Principal) (permission : string) : option ScopeFilter :=
  match Scope actor permission with
  | None => None
  | Some filter =>
      if ((permission =s "contract.read") || (permission =s "contract.edit")) &&
         salesOnly (p_Roles actor)
      then Some (mkScope (sf_TenantID filter) (sf_IdentityID filter) [] [] false true)
      else Some filter
  end.

(** ** The row boundary over loaded contracts *)

Definition canAccessContract (filter : ScopeFilter) (item : Contract) : bool :=
  let o := k_owner item in
  if negb (k_TenantID item =s sf_TenantID filter) then false
  else if sf_AllowAll filter then true
  else (sf_AllowSelf filter && negb (empty_str (k_OwnerIdentityID o)) &&
        (k_OwnerIdentityID o =s sf_IdentityID filter)) ||
       (negb (empty_str (k_OwnerOrgID o)) &&
        containsString (sf_OrganizationIDs filter) (k_OwnerOrgID o)) ||
       (negb (empty_str (k_ProjectID o)) &&
        containsString (sf_ProjectIDs filter) (k_ProjectID o)).

Definition filterContracts (items : list Contract) (filter : ScopeFilter) : list Contract :=
  List.filter (canAccessContract filter) items.

Definition operational (c : Contract) : bool :=
  let o := k_origin c in
  OperationalOrigin (k_OriginImportItemID o) (k_OriginKind o) (k_ImportMode o) (k_ImportPolicy o).

(** ** Drafts *)

Definition draftActorAllowed (actor : Principal) (c : Contract) : bool :=
  if negb (p_TenantID actor =s k_TenantID c) || empty_str (p_UserID actor) then false
  else if contains (p_Roles actor) "admin" then true
  else if contains (p_Roles actor) "sales"
       then negb (empty_str (k_CreatedBy (k_row c))) && (k_CreatedBy (k_row c) =s p_UserID actor)
       else false.

Definition CanEditDraft (actor : Principal) (c : Contract) : bool :=
  match Scope actor "contract.edit" with
  | None => false
  | Some filter => operational c && (k_Status c =s StatusDraft) && canAccessContract filter c &&
                   draftActorAllowed actor c
  end.

(** [authorizeContractWrite]: the scope of a new or edited contract; the self
    scope fixes its owner. *)
Definition set_owner_identity (identity : string) (c : Contract) : Contract :=
  let o := k_owner c in
  mkDomain (k_ID c) (k_TenantID c) (k_Number c) (k_NumberFormat c) (k_Title c) (k_Type c)
    (k_ServiceType c) (k_Systems c) (k_ServiceItems c) (k_party c)
    (mkOwnerFields identity (k_OwnerOrgID o) (k_ProjectID o) (k_OwnerUserID o)
       (k_OwnerDisplayName o))
    (k_AmountMinor c) (k_Currency c) (k_PaymentTerms c) (k_document c) (k_origin c) (k_Status c)
    (k_StartDate c) (k_EndDate c) (k_row c).

Definition authorizeContractWrite (actor : Principal) (c : Contract) (permission : string)
    : res Contract :=
  match Scope actor permission with
  | None => Err ErrForbidden
  | Some filter =>
      let c := if sf_AllowSelf filter then set_owner_identity (p_IdentityID actor) c else c in
      let o := k_owner c in
      let org := containsString (sf_OrganizationIDs filter) (k_OwnerOrgID o) in
      let project := containsString (sf_ProjectIDs filter) (k_ProjectID o) in
      fail_if (negb (sf_AllowAll filter) && negb (sf_AllowSelf filter) && negb org &&
               negb project) ErrForbidden;;
      fail_if (negb (empty_str (k_OwnerOrgID o)) && negb (sf_AllowAll filter) && negb org)
        ErrForbidden;;
      fail_if (negb (empty_str (k_ProjectID o)) && negb (sf_AllowAll filter) && negb project)
        ErrForbidden;;
      Ok c
  end.

(** ** The row boundary in SQL *)

(** [column = ?] and [column IN ?] on a column that may be NULL. *)
Definition sql_eq (column : option string) (value : string) : bool :=
  match column with Some s => s =s value | None => false end.
Definition sql_in (column : option string) (values : list string) : bool :=
  match column with Some s => contains values s | None => false end.

(** The predicates [applyContractScope] joins with OR, each with its values. *)
Definition scope_predicates (filter : ScopeFilter) : list (contractRecord → bool) :=
  (if sf_AllowSelf filter && negb (empty_str (sf_IdentityID filter))
   then [λ r, sql_eq (c_OwnerIdentityID (c_owner r)) (sf_IdentityID filter)] else []) ++
  (if negb (is_empty (sf_OrganizationIDs filter))
   then [λ r, sql_in (c_OwnerOrgID (c_owner r)) (sf_OrganizationIDs filter)] else []) ++
  (if negb (is_empty (sf_ProjectIDs filter))
   then [λ r, sql_in (c_ProjectID (c_owner r)) (sf_ProjectIDs filter)] else []).

Definition applyContractScope (filter : ScopeFilter) (row : contractRecord) : bool :=
  (c_TenantID row =s sf_TenantID filter) &&
  (if sf_AllowAll filter then true
   else match scope_predicates filter with
        | [] => false
        | predicates => existsb (λ p, p row) predicates
        end).

(** ** Lemmas *)

Lemma containsString_spec values s : containsString values s = true ↔ s ≠ "" ∧ s ∈ values.
Proof.
  unfold containsString, empty_str. destruct (s =s "") eqn:E.
  - apply streq_true in E. naive_solver.
  - apply streq_false in E. rewrite contains_spec. naive_solver.
Qed.

Lemma is_empty_true {A} (l : list A) : is_empty l = true ↔ l = [].
Proof. by destruct l. Qed.
Lemma is_empty_false {A} (l : list A) : is_empty l = false ↔ l ≠ [].
Proof. by destruct l. Qed.

Lemma Scope_some p permission f :
  Scope p permission = Some f →
  Has p permission = true ∧ sf_TenantID f = p_TenantID p ∧ sf_IdentityID f = p_IdentityID p.
Proof.
  unfold Scope. destruct (Has p permission) eqn:Hh; simpl; [|done].
  destruct (p_PermissionScopes p !! permission) as [g|]; [|done].
  destruct (_ || _); [|done]. by intros [= <-].
Qed.

Lemma contractScope_some p permission f :
  contractScope p permission = Some f →
  Has p permission = true ∧ sf_TenantID f = p_TenantID p ∧ sf_IdentityID f = p_IdentityID p.
Proof.
  unfold contractScope. destruct (Scope p permission) as [g|] eqn:Es; [|done].
  pose proof (Scope_some _ _ _ Es). destruct (_ && _); intros [= <-]; done.
Qed.

Lemma salesOnly_from_spec found roles :
  salesOnly_from found roles = true ↔
  (found = true ∨ "sales" ∈ roles) ∧ ∀ r, r ∈ roles → r ∉ senior_roles.
Proof.
  unfold salesOnly_from. generalize senior_roles. intros senior. fold salesOnly_from.
  revert found. induction roles as [|r rest IH]; intros found.
  - setoid_rewrite elem_of_nil. naive_solver.
  - setoid_rewrite elem_of_cons. destruct (contains senior r) eqn:E.
    + apply contains_spec in E. split; [done|]. intros [_ Hr]. by destruct (Hr r (or_introl eq_refl)).
    + apply contains_false in E. rewrite IH, orb_true_iff, streq_true.
      split; intros [H Hr]; (split; [naive_solver|]).
      * intros x [-> |Hx]; [done|by apply Hr].
      * intros x Hx. apply Hr. by right.
Qed.

(** A user with the sales role and no senior role. *)
Lemma salesOnly_spec roles :
  salesOnly roles = true ↔ "sales" ∈ roles ∧ ∀ r, r ∈ roles → r ∉ senior_roles.
Proof. unfold salesOnly. rewrite salesOnly_from_spec. naive_solver. Qed.

(** What a scope grants over an owner: the meaning of the boundary. *)
Definition grants (filter : ScopeFilter) (tenant : string) (identity org project : string) : Prop :=
  tenant = sf_TenantID filter ∧
  (sf_AllowAll filter = true ∨
   (sf_AllowSelf filter = true ∧ identity ≠ "" ∧ identity = sf_IdentityID filter) ∨
   (org ≠ "" ∧ org ∈ sf_OrganizationIDs filter) ∨
   (project ≠ "" ∧ project ∈ sf_ProjectIDs filter)).

Lemma canAccessContract_spec filter c :
  canAccessContract filter c = true ↔
  grants filter (k_TenantID c) (k_OwnerIdentityID (k_owner c)) (k_OwnerOrgID (k_owner c))
    (k_ProjectID (k_owner c)).
Proof.
  unfold canAccessContract, grants, empty_str.
  destruct (k_TenantID c =s sf_TenantID filter) eqn:Et; simpl.
  - apply streq_true in Et. destruct (sf_AllowAll filter); [by firstorder|].
    rewrite !orb_true_iff, !andb_true_iff, !negb_true_iff, !containsString_spec, streq_true,
      !streq_false.
    split; [intros H; split; [done|right]; tauto|].
    intros [_ [H|H]]; [done|tauto].
  - apply streq_false in Et. split; [done|]. by intros [? _].
Qed.

(** The columns of the organization and the project hold no empty text: what
    [stringPtr] stores. *)
Definition columns_filled (r : contractRecord) : Prop :=
  c_OwnerOrgID (c_owner r) ≠ Some "" ∧ c_ProjectID (c_owner r) ≠ Some "".

Lemma sql_eq_spec column value :
  sql_eq column value = true ↔ column = Some value.
Proof. destruct column; simpl; [rewrite streq_true|]; naive_solver. Qed.
Lemma sql_in_spec column values :
  sql_in column values = true ↔ ∃ s, column = Some s ∧ s ∈ values.
Proof. destruct column; simpl; [rewrite contains_spec|]; naive_solver. Qed.

Lemma sql_in_filled column values :
  column ≠ Some "" →
  sql_in column values = true ↔ valueOrEmpty column ≠ "" ∧ valueOrEmpty column ∈ values.
Proof. intros Hc. rewrite sql_in_spec. destruct column; simpl; naive_solver. Qed.

Lemma existsb_if {A} (b : bool) (p : A → bool) (l : list (A → bool)) x :
  existsb (λ q, q x) ((if b then [p] else []) ++ l) = (b && p x) || existsb (λ q, q x) l.
Proof. by destruct b. Qed.

Lemma scope_predicates_spec filter row :
  match scope_predicates filter with
  | [] => false
  | predicates => existsb (λ p, p row) predicates
  end =
  (sf_AllowSelf filter && negb (empty_str (sf_IdentityID filter)) &&
   sql_eq (c_OwnerIdentityID (c_owner row)) (sf_IdentityID filter)) ||
  sql_in (c_OwnerOrgID (c_owner row)) (sf_OrganizationIDs filter) ||
  sql_in (c_ProjectID (c_owner row)) (sf_ProjectIDs filter).
Proof.
  assert (Hin : ∀ column values,
    negb (is_empty values) && sql_in column values = sql_in column values).
  { intros column [|v values]; simpl; [|done]. by destruct column. }
  transitivity (existsb (λ p, p row) (scope_predicates filter)).
  { by destruct (scope_predicates filter). }
  unfold scope_predicates. rewrite !existsb_if.
  rewrite <- (app_nil_r (if negb (is_empty (sf_ProjectIDs filter)) then _ else _)), existsb_if.
  simpl. rewrite orb_false_r, !Hin. btauto.
Qed.

(** The SQL condition selects exactly the rows whose contract passes the
    in-memory predicate. *)
Lemma applyContractScope_spec filter row :
  columns_filled row →
  applyContractScope filter row = true ↔
  grants filter (c_TenantID row) (valueOrEmpty (c_OwnerIdentityID (c_owner row)))
    (valueOrEmpty (c_OwnerOrgID (c_owner row))) (valueOrEmpty (c_ProjectID (c_owner row))).
Proof.
  intros (Ho & Hp). unfold applyContractScope, grants.
  rewrite scope_predicates_spec, andb_true_iff, streq_true.
  destruct (sf_AllowAll filter); [by firstorder|].
  rewrite !orb_true_iff, !andb_true_iff, negb_true_iff, sql_eq_spec, !sql_in_filled by done.
  unfold empty_str. rewrite streq_false.
  assert ((sf_AllowSelf filter = true ∧ sf_IdentityID filter ≠ "") ∧
          c_OwnerIdentityID (c_owner row) = Some (sf_IdentityID filter) ↔
          sf_AllowSelf filter = true ∧ valueOrEmpty (c_OwnerIdentityID (c_owner row)) ≠ "" ∧
          valueOrEmpty (c_OwnerIdentityID (c_owner row)) = sf_IdentityID filter) as ->.
  { destruct (c_OwnerIdentityID (c_owner row)); simpl; naive_solver. }
  split; intros [? H]; (split; [done|]); [right|destruct H as [H|H]; [done|]]; tauto.
Qed.
