(* ===== verification/Like.v ===== *)
(** * infrastructure/mysql/contracts_approved.go: keywords in LIKE patterns

    MySQL's LIKE compares character by character: [%] stands for any text, [_]
    for one character, a backslash takes the next character literally.  Which
    characters a collation takes for equal is the parameter [same_char].
    [literalLikePattern] is the pattern every keyword search of the code goes
    through; [like_literal] says that it finds the keyword itself, whatever
    wildcards the keyword contains. *)

From S2P Require Import Prelude GoStrings.

#[local] Open Scope string_scope.
#[local] Open Scope Z_scope.
#[local] Open Scope list_scope.

Class CharCollation := { same_char : Z → Z → bool }.

Definition percent : Z := 37.
Definition underscore : Z := 95.
Definition backslash : Z := 92.

(** [text LIKE pattern] on characters. *)
Fixpoint like_runes `{CharCollation} (pattern : list Z) : list Z → bool :=
  match pattern with
  | [] => λ s, match s with [] => true | _ => false end
  | c :: rest =>
      if c =? percent then
        fix any (s : list Z) : bool :=
          like_runes rest s || match s with [] => false | _ :: s' => any s' end
      else if c =? underscore then
        λ s, match s with [] => false | _ :: s' => like_runes rest s' end
      else if c =? backslash then
        match rest with
        | e :: rest' =>
            λ s, match s with [] => false | x :: s' => same_char e x && like_runes rest' s' end
        | [] => λ s, match s with [x] => same_char backslash x | _ => false end
        end
      else λ s, match s with [] => false | x :: s' => same_char c x && like_runes rest s' end
  end.
Definition Like `{CharCollation} (text pattern : string) : bool :=
  like_runes (runes pattern) (runes text).

(** [strings.NewReplacer] over the three special characters. *)
Definition escape_byte (c : byte) : list byte :=
  if (code c =? backslash) || (code c =? percent) || (code c =? underscore)
  then [chr backslash; c] else [c].
Definition literalLikePattern (keyword : string) : string :=
  of_bytes ([chr percent] ++ concat (map escape_byte (bytes keyword)) ++ [chr percent]).

(** ** The pattern finds its keyword *)

Definition escape_rune (r : Z) : list Z :=
  if (r =? backslash) || (r =? percent) || (r =? underscore) then [backslash; r] else [r].

Section Characters.

(** One character of a text: what [runes_of] does with the first byte. *)
Definition head_rune (l : list byte) : Z * list byte :=
  match l with
  | [] => (rune_error, [])
  | b :: l1 =>
      if code b <? 0x80 then (code b, l1)
      else match l1 with
           | [] => (rune_error, l1)
           | c :: l2 =>
               if enc2 b c then (rune2 b c, l2)
               else match l2 with
                    | [] => (rune_error, l1)
                    | d :: l3 =>
                        if enc3 b c d then (rune3 b c d, l3)
                        else match l3 with
                             | [] => (rune_error, l1)
                             | e :: l4 =>
                                 if enc4 b c d e then (rune4 b c d e, l4) else (rune_error, l1)
                             end
                    end
           end
  end.

Lemma runes_of_head l :
  l ≠ [] → runes_of l = (head_rune l).1 :: runes_of (head_rune l).2.
Proof.
  destruct l as [|b l1]; [done|]. intros _. simpl. destruct (code b <? 0x80); [done|].
  destruct l1 as [|c l2]; [done|]. destruct (enc2 b c); [done|].
  destruct l2 as [|d l3]; [done|]. destruct (enc3 b c d); [done|].
  destruct l3 as [|e l4]; [done|]. by destruct (enc4 b c d e).
Qed.

Definition escape (l : list byte) : list byte := concat (map escape_byte l).

Lemma escape_wide b l : 0x80 ≤ code b → escape (b :: l) = b :: escape l.
Proof.
  intros Hb. unfold escape, escape_byte, backslash, percent, underscore. cbn [map concat].
  replace (code b =? 92) with false by lia. replace (code b =? 37) with false by lia.
  by replace (code b =? 95) with false by lia.
Qed.

(** The escaped text begins with ASCII when the text does. *)
Lemma escape_ascii b l :
  code b < 0x80 → ∃ x y, escape (b :: l) = x :: y ∧ code x < 0x80.
Proof.
  intros Hb. unfold escape, escape_byte. cbn [map concat].
  destruct (_ || _); simpl; eexists _, _; (split; [reflexivity|]); [by vm_compute|done].
Qed.

(** What stands in front of ASCII, or of the end, does not reach into it. *)
Definition closed_tail (l : list byte) : Prop :=
  match l with [] => True | x :: _ => code x < 0x80 end.

Lemma escape_closed l : closed_tail l → closed_tail (escape l).
Proof.
  destruct l as [|b l]; [done|]. intros (x & y & -> & Hx)%(escape_ascii b l). done.
Qed.

Lemma enc_ascii b c d e :
  (code c < 0x80 → enc2 b c = false ∧ enc3 b c d = false ∧ enc4 b c d e = false) ∧
  (code d < 0x80 → enc3 b c d = false ∧ enc4 b c d e = false) ∧
  (code e < 0x80 → enc4 b c d e = false).
Proof.
  unfold enc2, enc3, enc4, cont, within. split_and!; intros H.
  - replace (0x80 <=? code c) with false by lia. replace (0xA0 <=? code c) with false by lia.
    replace (0x90 <=? code c) with false by lia. cbn [andb]. rewrite !andb_false_r. done.
  - replace (0x80 <=? code d) with false by lia. cbn [andb]. rewrite !andb_false_r. done.
  - replace (0x80 <=? code e) with false by lia. cbn [andb]. rewrite !andb_false_r. done.
Qed.

(** The wide bytes at the front of a text. *)
Fixpoint wide_prefix (l : list byte) : list byte * list byte :=
  match l with
  | [] => ([], [])
  | b :: rest => if code b <? 0x80 then ([], l)
                 else let '(p, q) := wide_prefix rest in (b :: p, q)
  end.

Lemma wide_prefix_spec l :
  l = (wide_prefix l).1 ++ (wide_prefix l).2 ∧
  Forall (λ b, 0x80 ≤ code b) (wide_prefix l).1 ∧ closed_tail (wide_prefix l).2.
Proof.
  induction l as [|b l (H1 & H2 & H3)]; [done|]. simpl. destruct (code b <? 0x80) eqn:E; simpl.
  - split_and!; [done|constructor|lia].
  - destruct (wide_prefix l) as [p q]; simpl in *. split_and!; [by rewrite H1|constructor; [lia|done]|done].
Qed.

Lemma escape_app p q : escape (p ++ q) = escape p ++ escape q.
Proof. unfold escape. by rewrite map_app, concat_app. Qed.
Lemma escape_wides p : Forall (λ b, 0x80 ≤ code b) p → escape p = p.
Proof.
  induction p as [|b p IH]; [done|]. intros [Hb Hp]%Forall_cons_1.
  by rewrite escape_wide, IH.
Qed.

(** Wide bytes make the same characters before any two closed tails. *)
Lemma runes_of_wide p q :
  Forall (λ b, 0x80 ≤ code b) p → closed_tail q → runes_of (p ++ q) = runes_of p ++ runes_of q.
Proof.
  destruct q as [|x q]; [by rewrite !app_nil_r|].
  remember (length p) as n eqn:Hn. revert p Hn.
  induction n as [n IH] using lt_wf_ind. intros [|b p] -> Hp Hq; [done|].
  apply Forall_cons_1 in Hp as [Hb Hp]. cbn [app].
  assert (IHp : ∀ p', (length p' < S (length p))%nat → Forall (λ b, 0x80 ≤ code b) p' →
            runes_of (p' ++ x :: q) = runes_of p' ++ runes_of (x :: q)).
  { intros p' Hlen Hp'. by apply (IH (length p')). }
  rewrite (runes_of_head (b :: p)) by done. rewrite (runes_of_head (b :: p ++ x :: q)) by done.
  cbn [head_rune]. replace (code b <? 0x80) with false by lia.
  destruct p as [|c p]; cbn [app].
  { simpl in Hq. destruct (proj1 (enc_ascii b x x x) Hq) as (-> & _).
    destruct q as [|d q]; [done|]. destruct (proj1 (enc_ascii b x d d) Hq) as (_ & -> & _).
    destruct q as [|e q]; [done|]. by destruct (proj1 (enc_ascii b x d e) Hq) as (_ & _ & ->). }
  apply Forall_cons_1 in Hp as [Hc Hp].
  assert (Hstep : ∀ r p', (length p' < S (length (c :: p)))%nat → Forall (λ b, 0x80 ≤ code b) p' →
            r :: runes_of (p' ++ x :: q) = (r :: runes_of p') ++ runes_of (x :: q)).
  { intros r p' Hlen Hp'. simpl. f_equal. by apply IHp. }
  assert (Forall (λ b, 0x80 ≤ code b) (c :: p)) as Hcp by by constructor.
  destruct (enc2 b c); cbn [fst snd].
  { apply Hstep; [simpl; lia|done]. }
  destruct p as [|d p]; cbn [app].
  { simpl in Hq. destruct (proj1 (proj2 (enc_ascii b c x x)) Hq) as (-> & _).
    destruct q as [|e q]; [by apply (Hstep rune_error [c]); [simpl; lia|]|].
    destruct (proj1 (proj2 (enc_ascii b c x e)) Hq) as (_ & ->).
    by apply (Hstep rune_error [c]); [simpl; lia|]. }
  destruct (enc3 b c d); cbn [fst snd].
  { apply Hstep; [simpl; lia|]. by apply Forall_cons_1 in Hp as [_ ?]. }
  destruct p as [|e p]; cbn [app].
  { simpl in Hq. rewrite (proj2 (proj2 (enc_ascii b c d x)) Hq).
    by apply (Hstep rune_error [c; d]); [simpl; lia|]. }
  destruct (enc4 b c d e); cbn [fst snd].
  { apply Hstep; [simpl; lia|]. by apply Forall_cons_1 in Hp as [_ [_ ?]%Forall_cons_1]. }
  by apply (Hstep rune_error (c :: d :: e :: p)); [simpl; lia|].
Qed.

Lemma wide_runes p :
  Forall (λ b, 0x80 ≤ code b) p → concat (map escape_rune (runes_of p)) = runes_of p.
Proof.
  intros Hp. assert (Forall (λ r, 0x80 ≤ r) (runes_of p)) as Hr.
  { remember (length p) as n eqn:Hn. revert p Hn Hp.
    induction n as [n IH] using lt_wf_ind. intros [|b p] -> Hp; [constructor|].
    apply Forall_cons_1 in Hp as [Hb Hp]. rewrite runes_of_head by done.
    assert (IHp : ∀ p', (length p' < S (length p))%nat → Forall (λ b, 0x80 ≤ code b) p' →
              Forall (λ r, 0x80 ≤ r) (runes_of p')) by (intros; by eapply IH).
    cbn [head_rune]. replace (code b <? 0x80) with false by lia.
    assert (0x80 ≤ rune_error) as He by by vm_compute.
    destruct p as [|c p]; [by constructor|].
    destruct (enc2 b c) eqn:E2; cbn [fst snd].
    { apply Forall_cons_1 in Hp as [_ Hp]. constructor; [|apply IHp; [simpl; lia|done]].
      unfold enc2, within, cont, rune2 in *. bool_hyps. lia. }
    destruct p as [|d p]; [constructor; [done|apply IHp; [simpl; lia|done]]|].
    destruct (enc3 b c d) eqn:E3; cbn [fst snd].
    { apply Forall_cons_1 in Hp as [_ [_ Hp]%Forall_cons_1].
      constructor; [|apply IHp; [simpl; lia|done]].
      unfold enc3, within, cont, rune3 in *. bool_hyps.
      repeat match goal with E : _ || _ = true |- _ => apply orb_true_iff in E as [?|?] end;
        bool_hyps; lia. }
    destruct p as [|e p]; [constructor; [done|apply IHp; [simpl; lia|done]]|].
    destruct (enc4 b c d e) eqn:E4; cbn [fst snd];
      [|constructor; [done|apply IHp; [simpl; lia|done]]].
    apply Forall_cons_1 in Hp as [_ [_ [_ Hp]%Forall_cons_1]%Forall_cons_1].
    constructor; [|apply IHp; [simpl; lia|done]].
    unfold enc4, within, cont, rune4 in *. bool_hyps.
    repeat match goal with E : _ || _ = true |- _ => apply orb_true_iff in E as [?|?] end;
      bool_hyps; lia. }
  induction Hr as [|r rs H _ IH]; [done|]. cbn [map concat]. rewrite IH.
  unfold escape_rune, backslash, percent, underscore.
  replace (r =? 92) with false by lia. replace (r =? 37) with false by lia.
  by replace (r =? 95) with false by lia.
Qed.

(** Escaping the bytes is escaping the characters. *)
Lemma runes_of_escape l : runes_of (escape l) = concat (map escape_rune (runes_of l)).
Proof.
  remember (length l) as n eqn:Hn. revert l Hn.
  induction n as [n IH] using lt_wf_ind. intros l ->.
  destruct (wide_prefix_spec l) as (E & Hp & Hq).
  destruct (wide_prefix l) as [p q]; cbn [fst snd] in *. subst l.
  rewrite escape_app, (escape_wides p) by done.
  rewrite !runes_of_wide by (done || by apply escape_closed).
  rewrite map_app, concat_app, wide_runes by done. f_equal.
  destruct q as [|b q]; [done|]. simpl in Hq.
  assert (runes_of (b :: q) = code b :: runes_of q) as ->
    by (simpl; by replace (code b <? 0x80) with true by lia).
  cbn [map concat]. rewrite <- (IH (length q)) by (rewrite ?length_app; simpl; try done; lia).
  unfold escape, escape_byte, escape_rune. cbn [map concat].
  destruct (_ || _); simpl; by replace (code b <? 0x80) with true by lia.
Qed.

End Characters.

(** An ASCII byte after a text is a character of its own. *)
Lemma runes_of_then_ascii l c :
  code c < 0x80 → runes_of (l ++ [c]) = runes_of l ++ [code c].
Proof.
  intros Hc. remember (length l) as n eqn:Hn. revert l Hn.
  induction n as [n IH] using lt_wf_ind. intros l ->.
  assert (runes_of [c] = [code c]) as Hone by (simpl; by replace (code c <? 0x80) with true by lia).
  destruct (wide_prefix_spec l) as (E & Hp & Hq).
  destruct (wide_prefix l) as [p q]; cbn [fst snd] in *. subst l.
  assert (closed_tail (q ++ [c])) as Hqc by by destruct q.
  rewrite <- app_assoc, (runes_of_wide p (q ++ [c])), (runes_of_wide p q) by done.
  rewrite <- app_assoc. f_equal. destruct q as [|b q]; [done|]. simpl in Hq. cbn [app runes_of].
  replace (code b <? 0x80) with true by lia. cbn [app]. f_equal.
  apply (IH (length q)); [rewrite length_app; simpl; lia|done].
Qed.

Section Matching.
Context `{CharCollation}.

Lemma like_percent rest s :
  like_runes (percent :: rest) s = true ↔ ∃ a b, s = a ++ b ∧ like_runes rest b = true.
Proof.
  assert (∀ s, like_runes (percent :: rest) s =
            like_runes rest s || match s with [] => false
                                 | _ :: s' => like_runes (percent :: rest) s' end) as Hstep.
  { intros [|x s']; reflexivity. }
  split.
  - induction s as [|x s IH]; rewrite Hstep, orb_true_iff; intros [E|E]; try done.
    + by exists [], [].
    + by exists [], (x :: s).
    + destruct (IH E) as (a & b & -> & Hb). by exists (x :: a), b.
  - intros (a & b & -> & Hb). induction a as [|x a IH]; simpl app; rewrite Hstep, orb_true_iff;
      [by left|by right].
Qed.

(** Escaped characters match themselves, one by one. *)
Lemma like_escaped ks rest s :
  like_runes (concat (map escape_rune ks) ++ rest) s = true ↔
  ∃ m s', s = m ++ s' ∧ Forall2 (λ k x, same_char k x = true) ks m ∧ like_runes rest s' = true.
Proof.
  revert s. induction ks as [|k ks IH]; intros s.
  { split; [by exists [], s|]. intros (m & s' & -> & Hm & H'). by apply Forall2_nil_inv_l in Hm as ->. }
  assert (like_runes (concat (map escape_rune (k :: ks)) ++ rest) s =
          match s with
          | [] => false
          | x :: s' => same_char k x && like_runes (concat (map escape_rune ks) ++ rest) s'
          end) as ->.
  { cbn [map concat]. unfold escape_rune at 1.
    destruct ((k =? backslash) || (k =? percent) || (k =? underscore)) eqn:E; [done|].
    bool_hyps. cbn [app like_runes].
    by rewrite (proj2 (Z.eqb_neq _ _)), (proj2 (Z.eqb_neq _ _)), (proj2 (Z.eqb_neq _ _))
      by (unfold percent, underscore, backslash in *; lia). }
  destruct s as [|x s].
  { split; [done|]. intros (m & s' & E & Hm & _). apply Forall2_cons_inv_l in Hm as (y & m' & _ & _ & ->).
    done. }
  rewrite andb_true_iff, IH. split.
  - intros (Hk & m & s' & -> & Hm & Hs). exists (x :: m), s'. split_and!; [done|by constructor|done].
  - intros (m & s' & E & Hm & Hs). apply Forall2_cons_inv_l in Hm as (y & m' & Hy & Hm' & ->).
    injection E as -> ->. split; [done|]. by exists m', s'.
Qed.

Lemma like_any s : like_runes [percent] s = true.
Proof. apply like_percent. exists s, []. by rewrite app_nil_r. Qed.

(** A keyword's pattern matches exactly the texts that contain its characters. *)
Lemma like_literal text keyword :
  Like text (literalLikePattern keyword) = true ↔
  ∃ a m b, runes text = a ++ m ++ b ∧ Forall2 (λ k x, same_char k x = true) (runes keyword) m.
Proof.
  unfold Like, literalLikePattern, runes. rewrite bytes_of_bytes.
  assert (runes_of ([chr percent] ++ concat (map escape_byte (bytes keyword)) ++ [chr percent]) =
          percent :: concat (map escape_rune (runes_of (bytes keyword))) ++ [percent]) as ->.
  { fold (escape (bytes keyword)).
    transitivity (percent :: runes_of (escape (bytes keyword) ++ [chr percent])); [reflexivity|].
    f_equal. rewrite <- runes_of_escape. apply runes_of_then_ascii. by vm_compute. }
  rewrite like_percent. split.
  - intros (a & b & Es & (m & s' & -> & Hm & _)%like_escaped). by exists a, m, s'.
  - intros (a & m & b & Es & Hm). exists a, (m ++ b). split; [done|]. apply like_escaped.
    exists m, b. split_and!; [done..|apply like_any].
Qed.

End Matching.
