(* ===== verification/Ledger.v ===== *)
(** * infrastructure/mysql: reading contracts

    The contract of a row (repository.go, contract_source.go), the payment plans
    attached to a list of contracts (payment_terms.go), the filters, order and
    pages of the ledger, the lists of approved contracts (contracts_approved.go)
    and of contracts other systems consume (integration_contract_lists.go), the
    dashboard, and the reads of approvals (repository.go).

    A list is sorted by the columns of its ORDER BY clause; rows the clause does
    not separate come in the order of the table's identifiers.  A statement of
    a list can fail ([query]). *)

From stdpp Require Import sorting.
From S2P Require Import Prelude GoStrings Decimal GoTime BusinessClock Status NumberRule.
From S2P Require Import PaymentTerm ProjectService ImportPolicy ApprovalRule Workflow Store.
From S2P Require Import Outbound Handover Numbering Repository Access Like.

#[local] Open Scope string_scope.
#[local] Open Scope Z_scope.
#[local] Open Scope list_scope.

(** ** The contract of a row *)

(** [json.Unmarshal] into a field that keeps its zero value on a failure. *)
Definition decoded {A} (zero : A) (j : json A) : A :=
  match j with JsonOf a => a | _ => zero end.

Definition broken_policy : ImportPolicy := mkPolicy (-1) "" "" "" "" "".

(** [readContractSource]: the counterparty and origin of a row. *)
Definition readParty (p : partyColumns) : partyFields :=
  mkPartyFields (valueOrEmpty (c_OpportunityID p)) (valueOrEmpty (c_OpportunityName p))
    (uintValueOrZero (c_CRMCustomerID p)) (c_CounterpartySource p)
    (valueOrEmpty (c_LocalCounterpartyID p)) (uintValueOrZero (c_CounterpartyVersion p))
    (c_CategorySource p) (c_IntegrationPolicy p) (valueOrEmpty (c_CustomerName p))
    (valueOrEmpty (c_CustomerAddress p)) (valueOrEmpty (c_CustomerContact p))
    (valueOrEmpty (c_CustomerPhone p)) (valueOrEmpty (c_CustomerCreditLevel p)).
Definition readOrigin (o : originColumns) : originFields :=
  mkOriginFields (c_OriginKind o) (c_ImportMode o) (valueOrEmpty (c_OriginImportItemID o))
    (c_HistoricalStatus o) (c_HistoricalCustomerName o) (c_HistoricalOwnerLabel o)
    (match c_ImportPolicy o with
     | JsonEmpty => None
     | JsonBad => Some broken_policy
     | JsonOf policy => Some policy
     end).
Definition readOwner (o : ownerColumns) : ownerFields :=
  mkOwnerFields (valueOrEmpty (c_OwnerIdentityID o)) (valueOrEmpty (c_OwnerOrgID o))
    (valueOrEmpty (c_ProjectID o)) (c_OwnerUserID o) (c_OwnerDisplayName o).
Definition readDocument (d : documentColumns) : documentFields :=
  mkDocumentFields (c_Content d) (valueOrEmpty (c_TemplateID d)) (decoded ∅ (c_TemplateValues d))
    (c_RenderedDocument d) (c_DocumentFormat d) (c_SourceMediaType d) (c_SourceFilename d)
    (c_SourceSHA256 d) (c_ExternalPaperNumber d) (c_SourceFileID d) (c_SourceFileStatus d)
    (valueOrEmpty (c_ContentHash d)).

Definition item_of_type (serviceType : string) (systems : list SystemInfo) : ServiceItem :=
  mkItem "" 0 "" "" serviceType "" "" "" "" "" systems.
Definition readItems (t : termsColumns) : list ServiceItem :=
  match decoded [] (c_ServiceItems t) with
  | [] => if empty_str (c_ServiceType t) then []
          else [item_of_type (c_ServiceType t) (decoded [] (c_Systems t))]
  | items => items
  end.

(** [contractFromRecord]: the payment plan is a nil slice. *)
Definition contractFromRecord (r : contractRecord) : Contract :=
  let t := c_terms r in
  mkDomain (c_ID r) (c_TenantID r) (valueOrEmpty (c_ContractNumber r)) (c_ContractNumberFormat r)
    (c_Title t) (c_ContractType t) (c_ServiceType t) (decoded [] (c_Systems t)) (readItems t)
    (readParty (c_party r)) (readOwner (c_owner r)) (c_AmountMinor t) (c_Currency t) None
    (readDocument (c_document r)) (readOrigin (c_origin r)) (c_Status r) (c_StartDate t)
    (c_EndDate t)
    (mkRowFields (c_Version r) (c_CreatedAt r) (c_CreatedBy r) false (c_UpdatedAt r)).

(** [Omit("rendered_document", "template_values_json")]. *)
Definition omit_documents (r : contractRecord) : contractRecord :=
  let d := c_document r in
  mkContract (c_ID r) (c_TenantID r) (c_ContractNumber r) (c_ContractNumberFormat r) (c_party r)
    (c_owner r) (c_terms r)
    (mkDocument (c_Content d) (c_TemplateID d) JsonEmpty "" (c_DocumentFormat d)
       (c_SourceMediaType d) (c_SourceFilename d) (c_SourceSHA256 d) (c_ExternalPaperNumber d)
       (c_SourceFileID d) (c_SourceFileStatus d) (c_SourceFileLastError d) (c_ContentHash d))
    (c_origin r) (c_Status r) (c_Version r) (c_CreatedAt r) (c_CreatedBy r) (c_UpdatedAt r)
    (c_UpdatedBy r).

(** ** Payment plans of a list *)

Definition set_terms (terms : option (list PaymentTerm)) (c : Contract) : Contract :=
  mkDomain (k_ID c) (k_TenantID c) (k_Number c) (k_NumberFormat c) (k_Title c) (k_Type c)
    (k_ServiceType c) (k_Systems c) (k_ServiceItems c) (k_party c) (k_owner c) (k_AmountMinor c)
    (k_Currency c) terms (k_document c) (k_origin c) (k_Status c) (k_StartDate c) (k_EndDate c)
    (k_row c).

Definition by_contract_installment (a b : paymentTermRow) : Prop :=
  String.ltb (pr_ContractID a) (pr_ContractID b) = true ∨
  (pr_ContractID a = pr_ContractID b ∧ tr_InstallmentNo (pr_term a) ≤ tr_InstallmentNo (pr_term b)).
#[export] Instance by_contract_installment_dec : RelDecision by_contract_installment.
Proof. intros a b. unfold by_contract_installment. apply _. Defined.

(** The rows of the listed contracts, by contract and installment. *)
Definition plan_rows (tenantID : string) (ids : list string) (d : DB) : list paymentTermRow :=
  merge_sort by_contract_installment
    (filter (λ r, (pr_TenantID r =s tenantID) && contains ids (pr_ContractID r) = true)
       (db_payment d)).

(** [positions]: a later contract with the same identifier replaces the index. *)
Fixpoint position_from (id : string) (i : nat) (contracts : list Contract) : option nat :=
  match contracts with
  | [] => None
  | c :: rest =>
      match position_from id (S i) rest with
      | Some j => Some j
      | None => if k_ID c =s id then Some i else None
      end
  end.

Definition add_term (row : paymentTermRow) (c : Contract) : Contract :=
  set_terms (Some (terms_or_nil c ++ [term_from_record (pr_term row)])) c.
Definition append_term (contracts : list Contract) (row : paymentTermRow) : list Contract :=
  match position_from (pr_ContractID row) 0 contracts with
  | Some i => alter (add_term row) i contracts
  | None => contracts
  end.

Definition attachPaymentTerms `{Oracle} (tenantID : string) (contracts : list Contract)
    : Tx (list Contract) :=
  match contracts with
  | [] => mret []
  | _ =>
      rows ← query (plan_rows tenantID (map k_ID contracts));
      mret (fold_left append_term rows (map (set_terms (Some [])) contracts))
  end.

(** What [attachPaymentTerms] gives a contract. *)
Definition plan_of (rows : list paymentTermRow) (c : Contract) : Contract :=
  set_terms (Some (map (λ r, term_from_record (pr_term r))
                     (filter (λ r, pr_ContractID r = k_ID c) rows))) c.

(** ** The ledger *)

Record ContractListQuery : Type := mkQuery {
  cq_Keyword : string; cq_Status : string; cq_Type : string; cq_Expired : string;
  cq_Offset : Z; cq_Limit : Z
}.
Record ContractPage : Type := mkPage {
  pg_Items : list Contract; pg_Total : Z; pg_Page : Z; pg_PageSize : Z
}.

(** [ExpiredFilter]: [None] for "no filter". *)
Definition ExpiredFilter `{GoUnicode} (q : ContractListQuery) : option bool :=
  let value := ToLower (TrimSpace (cq_Expired q)) in
  if value =s "true" then Some true else if value =s "false" then Some false else None.

Definition ClampContractListOffset (offset total : Z) : Z :=
  if offset <? 0 then 0
  else if (total <=? 0) || (offset <=? total) then offset else total.

Definition contractLedgerPagingDefaults (q : ContractListQuery) : ContractListQuery :=
  mkQuery (cq_Keyword q) (cq_Status q) (cq_Type q) (cq_Expired q)
    (if cq_Offset q <? 0 then 0 else cq_Offset q)
    (if (cq_Limit q <=? 0) || (200 <? cq_Limit q) then 50 else cq_Limit q).

(** [updated_at DESC, id DESC] and its first half. *)
Definition ledger_order (a b : contractRecord) : Prop :=
  c_UpdatedAt b < c_UpdatedAt a ∨
  (c_UpdatedAt a = c_UpdatedAt b ∧ String.leb (c_ID b) (c_ID a) = true).
#[export] Instance ledger_order_dec : RelDecision ledger_order.
Proof. intros a b. unfold ledger_order. apply _. Defined.
Definition latest_first (a b : contractRecord) : Prop := c_UpdatedAt b ≤ c_UpdatedAt a.
#[export] Instance latest_first_dec : RelDecision latest_first.
Proof. intros a b. unfold latest_first. apply _. Defined.

Definition contract_table (d : DB) : list contractRecord := (map_to_list (db_contracts d)).*2.

(** The rows of a table that pass a condition, in an order. *)
Definition sorted_rows (order : contractRecord → contractRecord → Prop) `{!RelDecision order}
    (where_ : contractRecord → bool) (d : DB) : list contractRecord :=
  merge_sort order (filter (λ r, where_ r = true) (contract_table d)).
Definition count_rows (where_ : contractRecord → bool) (d : DB) : Z :=
  Z.of_nat (length (filter (λ r, where_ r = true) (contract_table d))).
(** [Offset(offset).Limit(limit)]. *)
Definition window {A} (offset limit : Z) (l : list A) : list A :=
  take (Z.to_nat limit) (drop (Z.to_nat offset) l).

Section Reads.
Context `{Oracle} `{CharCollation} `{Collation} `{TzDatabase} `{GoUnicode}.

Definition like_column (column : option string) (pattern : string) : bool :=
  match column with Some text => Like text pattern | None => false end.
Definition keyword_matches (keyword : string) (r : contractRecord) : bool :=
  let pattern := literalLikePattern keyword in
  like_column (c_ContractNumber r) pattern || Like (c_Title (c_terms r)) pattern ||
  like_column (c_CustomerName (c_party r)) pattern.

(** An ending date before the day [today] (a DATE column; the day is bound as
    its midnight in UTC). *)
Definition ended_before (today : Time) (r : contractRecord) : bool :=
  match c_EndDate (c_terms r) with Some date => date <? today | None => false end.
Definition ledger_expired (today : Time) (r : contractRecord) : bool :=
  contains expiryStatuses (c_Status r) && ended_before today r.

(** [contract_type = ?]: the column has the table's collation. *)
Definition same_type (type : string) (r : contractRecord) : bool :=
  collate (c_ContractType (c_terms r)) =s collate type.

(** [contractLedgerFilters]; [today] is read only when the expiry is asked.  The
    column [status] is compared byte by byte (ascii_bin). *)
Definition contractLedgerFilters (today : Time) (q : ContractListQuery) (r : contractRecord) : bool :=
  let keyword := TrimSpace (cq_Keyword q) in
  let status := TrimSpace (cq_Status q) in
  let type := TrimSpace (cq_Type q) in
  (empty_str keyword || keyword_matches keyword r) &&
  (empty_str status || (c_Status r =s status)) &&
  (empty_str type || same_type type r) &&
  match ExpiredFilter q with
  | None => true
  | Some true => ledger_expired today r
  | Some false =>
      negb (contains expiryStatuses (c_Status r)) ||
      match c_EndDate (c_terms r) with None => true | Some date => today <=? date end
  end.
Definition ledger_today (q : ContractListQuery) : Tx Time :=
  match ExpiredFilter q with
  | Some _ => now ← time_now; mret (CalendarDay now)
  | None => mret zero_time
  end.

Definition ledger_contracts (rows : list contractRecord) : list Contract :=
  map (λ r, contractFromRecord (omit_documents r)) rows.

Definition GetContract (tenantID id : string) : Tx Contract :=
  row ← take_contract tenantID id ErrNotFound;
  items ← attachPaymentTerms tenantID [contractFromRecord row];
  match items with item :: _ => mret item | [] => throw ErrPanic end.

Definition GetContractScoped (filter : ScopeFilter) (id : string) : Tx Contract :=
  row ← take_row (query (λ d, match db_contracts d !! id with
                              | Some r => if applyContractScope filter r then Some r else None
                              | None => None
                              end)) ErrNotFound;
  items ← attachPaymentTerms (sf_TenantID filter) [contractFromRecord row];
  match items with item :: _ => mret item | [] => throw ErrPanic end.

Definition ListContractsScoped (filter : ScopeFilter) (keyword status : string) (limit : Z)
    : Tx (list Contract) :=
  let limit := if (limit <=? 0) || (200 <? limit) then 50 else limit in
  let q := mkQuery keyword status "" "" 0 limit in
  today ← ledger_today q;
  rows ← query (λ d, window 0 limit
            (sorted_rows ledger_order
               (λ r, applyContractScope filter r && contractLedgerFilters today q r) d));
  attachPaymentTerms (sf_TenantID filter) (ledger_contracts rows).

Definition ListContracts (tenantID keyword ownerUserID status : string) (limit : Z)
    : Tx (list Contract) :=
  let limit := if (limit <=? 0) || (200 <? limit) then 50 else limit in
  let q := mkQuery keyword status "" "" 0 limit in
  today ← ledger_today q;
  rows ← query (λ d, window 0 limit
            (sorted_rows ledger_order
               (λ r, (c_TenantID r =s tenantID) && contractLedgerFilters today q r &&
                     (empty_str ownerUserID || (c_OwnerUserID (c_owner r) =s ownerUserID))) d));
  attachPaymentTerms tenantID (ledger_contracts rows).

(** The rows of the ledger a query selects. *)
Definition ledger_where (filter : ScopeFilter) (today : Time) (q : ContractListQuery)
    (r : contractRecord) : bool := applyContractScope filter r && contractLedgerFilters today q r.
Definition ledger_rows (filter : ScopeFilter) (today : Time) (q : ContractListQuery) (d : DB)
    : list contractRecord := sorted_rows ledger_order (ledger_where filter today q) d.

Definition listContractsPageAfterCount (filter : ScopeFilter) (q : ContractListQuery) (total : Z)
    : Tx ContractPage :=
  let q := contractLedgerPagingDefaults q in
  let offset := ClampContractListOffset (cq_Offset q) total in
  today ← ledger_today q;
  rows ← query (λ d, window offset (cq_Limit q) (ledger_rows filter today q d));
  items ← attachPaymentTerms (sf_TenantID filter) (ledger_contracts rows);
  mret (mkPage items total (Z.quot offset (cq_Limit q) + 1) (cq_Limit q)).

Definition ListContractsPageScoped (filter : ScopeFilter) (q : ContractListQuery)
    : Tx ContractPage :=
  let q := contractLedgerPagingDefaults q in
  today ← ledger_today q;
  total ← query (count_rows (ledger_where filter today q));
  listContractsPageAfterCount filter q total.

(** ** Approved contracts *)

Definition approved_row (r : contractRecord) : bool :=
  ordinaryContractRecord r && contains ApprovalPassedStatuses (c_Status r).
Definition limit_or (default_ max limit : Z) : Z :=
  if (limit <=? 0) || (max <? limit) then default_ else limit.

Definition ListApprovedContracts (tenantID : string) (limit : Z) : Tx (list Contract) :=
  rows ← query (λ d, window 0 (limit_or 50 200 limit)
            (sorted_rows latest_first (λ r, approved_row r && (c_TenantID r =s tenantID)) d));
  attachPaymentTerms tenantID (ledger_contracts rows).
Definition ListApprovedContractsScoped (filter : ScopeFilter) (limit : Z) : Tx (list Contract) :=
  rows ← query (λ d, window 0 (limit_or 50 200 limit)
            (sorted_rows latest_first (λ r, applyContractScope filter r && approved_row r) d));
  attachPaymentTerms (sf_TenantID filter) (ledger_contracts rows).

Definition applyApprovedContractKeyword (keyword : string) (r : contractRecord) : bool :=
  let keyword := TrimSpace keyword in empty_str keyword || keyword_matches keyword r.

Definition approvedContractReferenceFromRecord (r : contractRecord) : Contract :=
  let p := c_party r in
  mkDomain (c_ID r) "" (valueOrEmpty (c_ContractNumber r)) "" (c_Title (c_terms r)) "" "" [] []
    (mkPartyFields "" "" 0 (c_CounterpartySource p) "" 0 (c_CategorySource p)
       (c_IntegrationPolicy p) (valueOrEmpty (c_CustomerName p)) "" "" "" "")
    (mkOwnerFields "" "" "" "" "") 0 "" None
    (mkDocumentFields "" "" ∅ "" "" "" "" "" "" "" "" "")
    (mkOriginFields "" "" "" "" "" "" None) (c_Status r) None None
    (mkRowFields (c_Version r) zero_time "" false zero_time).

(** Pages by identifier, each after the last one of the page before. *)
Definition reference_rows (where_ : contractRecord → bool) (keyword afterID : string) (limit : Z)
    (d : DB) : list contractRecord :=
  window 0 (limit_or 500 500 limit)
    (sorted_rows contract_le
       (λ r, where_ r && applyApprovedContractKeyword keyword r && (empty_str afterID || String.ltb afterID (c_ID r))) d).
Definition ListApprovedContractReferences (tenantID keyword afterID : string) (limit : Z)
    : Tx (list Contract) :=
  query (λ d, map approvedContractReferenceFromRecord
           (reference_rows (λ r, approved_row r && (c_TenantID r =s tenantID)) keyword afterID
              limit d)).
Definition ListApprovedContractReferencesScoped (filter : ScopeFilter) (keyword afterID : string)
    (limit : Z) : Tx (list Contract) :=
  query (λ d, map approvedContractReferenceFromRecord
           (reference_rows (λ r, applyContractScope filter r && approved_row r) keyword afterID
              limit d)).

(** ** Contracts other systems consume *)

Definition integrationConsumableScope (r : contractRecord) : bool :=
  let p := c_party r in
  negb (c_IntegrationPolicy p =s IntegrationNotApplicable) &&
  negb (c_CounterpartySource p =s CounterpartyLocal) &&
  negb (c_CategorySource p =s CategoryLocal).

Definition ListIntegrationApprovedContractsScoped (filter : ScopeFilter) (limit : Z)
    : Tx (list Contract) :=
  rows ← query (λ d, window 0 (limit_or 50 200 limit)
            (sorted_rows latest_first
               (λ r, applyContractScope filter r && approved_row r &&
                     integrationConsumableScope r) d));
  attachPaymentTerms (sf_TenantID filter) (ledger_contracts rows).
Definition ListIntegrationCompletedContractsScoped (filter : ScopeFilter) (keyword : string)
    (limit : Z) : Tx (list Contract) :=
  rows ← query (λ d, window 0 (limit_or 50 200 limit)
            (sorted_rows latest_first
               (λ r, applyContractScope filter r && ordinaryContractRecord r &&
                     (c_Status r =s StatusCompleted) &&
                     (empty_str keyword || keyword_matches keyword r) &&
                     integrationConsumableScope r) d));
  attachPaymentTerms (sf_TenantID filter) (ledger_contracts rows).

End Reads.
