(* ===== verification/Reports.v ===== *)
(** * infrastructure/mysql/repository.go and contract_summary.go,
      application/contract_summary.go: aggregated reads

    The dashboard of a scope, the reads of approvals, and the summary of one
    contract for the CRM with the evidence of its link. *)

From stdpp Require Import sorting.
From S2P Require Import Prelude GoStrings Decimal GoTime BusinessClock Status NumberRule Utf8.
From S2P Require Import PaymentTerm ProjectService ImportPolicy ApprovalRule Workflow Store.
From S2P Require Import Outbound Numbering Repository Access Like Ledger Intake.

#[local] Open Scope string_scope.
#[local] Open Scope Z_scope.
#[local] Open Scope list_scope.

(** ** The dashboard *)

Record DashboardContract : Type := mkDashboardContract {
  da_ID : string; da_Number : string; da_Title : string; da_Type : string;
  da_ServiceType : string; da_CustomerCreditLevel : string; da_OwnerDisplayName : string;
  da_AmountMinor : Z; da_Currency : string; da_Content : string; da_Status : Status;
  da_StartDate : option Time; da_EndDate : option Time; da_CreatedAt : Time; da_UpdatedAt : Time;
  da_InApproval : bool; da_ActiveUnexpired : bool; da_Expired : bool
}.
Record CurrencyTotal : Type := mkTotal {
  ct_Currency : string; ct_AmountMinor : Z; ct_Contracts : Z
}.
Record Dashboard : Type := mkDashboard {
  bd_TenantID : string; bd_TotalAmountMinor : Z; bd_CurrencyTotals : list CurrencyTotal;
  bd_TotalContracts : Z; bd_ApprovalContracts : Z; bd_ActiveContracts : Z;
  bd_ExpiredContracts : Z; bd_Contracts : list DashboardContract;
  bd_ContractDetailLimited : bool
}.

Definition dashboardActiveStatuses : list Status :=
  [StatusActive; StatusInProgress; StatusPendingPay].

(** [dashboardActiveScope] and the condition of the expired count. *)
Definition dashboardActiveScope (today : Time) (r : contractRecord) : bool :=
  (c_Status r =s StatusArchived) ||
  (contains dashboardActiveStatuses (c_Status r) &&
   match c_EndDate (c_terms r) with None => true | Some date => today <=? date end).
Definition dashboard_expired (today : Time) (r : contractRecord) : bool :=
  contains dashboardActiveStatuses (c_Status r) && ended_before today r.

Definition dashboardStatusIsActive (status : Status) (endDate : option Time) (today : Time) : bool :=
  if status =s StatusArchived then true
  else if negb (status =s StatusActive) && negb (status =s StatusInProgress) &&
          negb (status =s StatusPendingPay) then false
  else match endDate with None => true | Some date => negb (date <? today) end.

Definition dashboard_item (inApproval : list string) (today : Time) (r : contractRecord)
    : DashboardContract :=
  let t := c_terms r in
  let statusIsActive := dashboardStatusIsActive (c_Status r) (c_EndDate t) today in
  let expired := negb (c_Status r =s StatusArchived) && statusIsActive && ended_before today r in
  mkDashboardContract (c_ID r) (valueOrEmpty (c_ContractNumber r)) (c_Title t) (c_ContractType t)
    (c_ServiceType t) (valueOrEmpty (c_CustomerCreditLevel (c_party r)))
    (c_OwnerDisplayName (c_owner r)) (c_AmountMinor t) (c_Currency t) (c_Content (c_document r))
    (c_Status r) (c_StartDate t) (c_EndDate t) (c_CreatedAt r) (c_UpdatedAt r)
    (contains inApproval (c_ID r)) (statusIsActive && negb expired) expired.

Definition text_le (a b : string) : Prop := String.leb a b = true.
#[export] Instance text_le_dec : RelDecision text_le.
Proof. intros a b. unfold text_le. apply _. Defined.

(** GROUP BY currency ORDER BY currency, with COUNT and SUM. *)
Definition sum_amounts (rows : list contractRecord) : Z :=
  foldr (λ r acc, c_AmountMinor (c_terms r) + acc) 0 rows.
Definition currency_groups (rows : list contractRecord) : list (string * Z * Z) :=
  map (λ currency, let group := filter (λ r, c_Currency (c_terms r) = currency) rows in
                   (currency, Z.of_nat (length group), sum_amounts group))
    (merge_sort text_le (remove_dups (map (λ r, c_Currency (c_terms r)) rows))).

(** [dashboardCurrencyTotals]: a sum the driver cannot scan into an int64 is an
    error; the running totals are Go integers. *)
Definition dashboardCurrencyTotals `{GoUnicode} (groups : list (string * Z * Z))
    : res (list CurrencyTotal * Z * Z) :=
  fail_if (existsb (λ g, negb ((int64_min <=? g.2) && (g.2 <=? int64_max))) groups) ErrOther;;
  Ok (map (λ g, let currency := ToUpper (TrimSpace g.1.1) in
                mkTotal (if empty_str currency then "UNKNOWN" else currency) g.2 g.1.2) groups,
      fold_left (λ acc g, wrap_int64 (acc + g.1.2)) groups 0,
      fold_left (λ acc g, wrap_int64 (acc + g.2)) groups 0).

(** Contracts of the table with a running approval, each once. *)
Definition running_contracts (where_ : approvalInstanceRecord → bool) (d : DB) : list string :=
  remove_dups (map ai_ContractID
    (filter (λ i, where_ i && (ai_Status i =s StatusRunning) = true)
       (map_to_list (db_approvals d)).*2)).

Section Dashboard.
Context `{Oracle} `{GoUnicode}.

(** What both dashboards do once their scopes are chosen. *)
Definition dashboard_of (contracts : contractRecord → bool)
    (approvals : DB → approvalInstanceRecord → bool) (today : Time) (limit : Z) : Tx Dashboard :=
  let limit := limit_or 200 200 limit in
  groups ← query (λ d, currency_groups (filter (λ r, contracts r = true) (contract_table d)));
  totals ← lift (dashboardCurrencyTotals groups);
  approvalContractIDs ← query (λ d, running_contracts (approvals d) d);
  activeCount ← query (count_rows (λ r, contracts r && dashboardActiveScope today r));
  expiredCount ← query (count_rows (λ r, contracts r && dashboard_expired today r));
  records ← query (λ d, window 0 limit (sorted_rows latest_first contracts d));
  let '(currencyTotals, totalContracts, totalAmount) := totals in
  mret (mkDashboard "" totalAmount currencyTotals totalContracts
          (Z.of_nat (length approvalContractIDs)) activeCount expiredCount
          (map (dashboard_item approvalContractIDs today) records) (limit <? totalContracts)).

Definition owned_by (ownerUserID : string) (r : contractRecord) : bool :=
  empty_str ownerUserID || (c_OwnerUserID (c_owner r) =s ownerUserID).
Definition in_contracts (where_ : contractRecord → bool) (d : DB) (id : string) : bool :=
  match db_contracts d !! id with Some r => where_ r | None => false end.

Definition ContractDashboard (tenantID ownerUserID : string) (today : Time) (limit : Z)
    : Tx Dashboard :=
  dashboard_of
    (λ r, ordinaryContractRecord r && (c_TenantID r =s tenantID) && owned_by ownerUserID r)
    (λ d i, (ai_TenantID i =s tenantID) &&
            (empty_str ownerUserID ||
             in_contracts (λ r, (c_TenantID r =s tenantID) && owned_by ownerUserID r) d
               (ai_ContractID i)))
    today limit.

Definition ContractDashboardScoped (filter : ScopeFilter) (today : Time) (limit : Z)
    : Tx Dashboard :=
  let contracts := λ r, applyContractScope filter r && ordinaryContractRecord r in
  dashboard_of contracts
    (λ d i, (ai_TenantID i =s sf_TenantID filter) && in_contracts contracts d (ai_ContractID i))
    today limit.

End Dashboard.

(** ** Approvals *)

Record Meta : Type := mkApprovalMeta {
  am_ID : string; am_TenantID : string; am_ContractID : string; am_ApplicantUserID : string;
  am_ApplicantDisplayName : string; am_WorkflowID : string; am_RunID : string; am_Kind : string;
  am_Status : string; am_FromStatus : Status; am_TargetStatus : Status; am_Reason : string;
  am_RuleID : string; am_RuleVersion : Z
}.
Record Task : Type := mkTaskView {
  tk_ApprovalID : string; tk_ContractID : string; tk_NodeID : string; tk_NodeName : string;
  tk_AssigneeUserID : string; tk_Kind : string; tk_Status : string; tk_NodeIndex : nat;
  tk_CreatedAt : Time
}.
Record Summary : Type := mkSummary {
  su_ApprovalID : string; su_ContractID : string; su_ApplicantUserID : string;
  su_ApplicantDisplayName : string; su_Kind : string; su_Status : string;
  su_CurrentNodeIndex : Z; su_CreatedAt : Time; su_UpdatedAt : Time
}.
Record ApprovalActionView : Type := mkActionView {
  av_ID : string; av_CommandID : string; av_NodeID : string; av_Action : string;
  av_ActorUserID : string; av_ActorDisplayName : string; av_Comment : string; av_OccurredAt : Time
}.

Definition meta_of (i : approvalInstanceRecord) : Meta :=
  mkApprovalMeta (ai_ID i) (ai_TenantID i) (ai_ContractID i) (ai_ApplicantUserID i)
    (ai_ApplicantDisplayName i) (ai_TemporalWorkflowID i) (ai_TemporalRunID i) (ai_Kind i)
    (ai_Status i) (ai_FromStatus i) (ai_TargetStatus i) (valueOrEmpty (ai_Reason i))
    (valueOrEmpty (ai_RuleID i)) (uintValueOrZero (ai_RuleVersion i)).

Definition action_view (a : approvalActionRecord) : ApprovalActionView :=
  mkActionView (aa_ID a) (aa_CommandID a) (valueOrEmpty (aa_NodeID a)) (aa_Action a)
    (aa_ActorUserID a) (aa_ActorDisplayName a) (valueOrEmpty (aa_Comment a)) (aa_OccurredAt a).
Definition action_order (a b : approvalActionRecord) : Prop :=
  aa_OccurredAt a < aa_OccurredAt b ∨
  (aa_OccurredAt a = aa_OccurredAt b ∧ String.leb (aa_ID a) (aa_ID b) = true).
#[export] Instance action_order_dec : RelDecision action_order.
Proof. intros a b. unfold action_order. apply _. Defined.

Record LifecycleEvent : Type := mkEvent {
  le_ID : string; le_ContractID : string; le_FromStatus : Status; le_ToStatus : Status;
  le_ActorUserID : string; le_Reason : string; le_OccurredAt : Time
}.
Definition lifecycle_event (l : lifecycleEventRecord) : LifecycleEvent :=
  mkEvent (l_ID l) (l_ContractID l) (l_FromStatus l) (l_ToStatus l)
    (valueOrEmpty (l_ActorUserID l)) (valueOrEmpty (l_Reason l)) (l_OccurredAt l).
Definition lifecycle_order (a b : lifecycleEventRecord) : Prop :=
  l_OccurredAt a < l_OccurredAt b ∨
  (l_OccurredAt a = l_OccurredAt b ∧ String.leb (l_ID a) (l_ID b) = true).
#[export] Instance lifecycle_order_dec : RelDecision lifecycle_order.
Proof. intros a b. unfold lifecycle_order. apply _. Defined.

Definition summary_of (i : approvalInstanceRecord) : Summary :=
  mkSummary (ai_ID i) (ai_ContractID i) (ai_ApplicantUserID i) (ai_ApplicantDisplayName i)
    (ai_Kind i) (ai_Status i) (ai_CurrentNodeIndex i) (ai_CreatedAt i) (ai_UpdatedAt i).
Definition newest_approval (a b : approvalInstanceRecord) : Prop := ai_CreatedAt b ≤ ai_CreatedAt a.
#[export] Instance newest_approval_dec : RelDecision newest_approval.
Proof. intros a b. unfold newest_approval. apply _. Defined.

(** Only an active task can be acted on; a pending one is a preview. *)
Definition assignedApprovalTaskStatuses : list string := [NodeActive; NodePending].
Definition task_view (t : approvalTaskRecord) (i : approvalInstanceRecord) : Task :=
  mkTaskView (t_ApprovalID t) (ai_ContractID i) (t_NodeID t) (t_NodeName t) (t_AssigneeUserID t)
    (ai_Kind i) (t_Status t) (t_NodeIndex t) (ai_CreatedAt i).
Definition task_order (a b : Task) : Prop :=
  let rank t := if tk_Status t =s "active" then 0 else 1 in
  rank a < rank b ∨
  (rank a = rank b ∧ (tk_CreatedAt a < tk_CreatedAt b ∨
     (tk_CreatedAt a = tk_CreatedAt b ∧ (tk_NodeIndex a ≤ tk_NodeIndex b)%nat))).
#[export] Instance task_order_dec : RelDecision task_order.
Proof. intros a b. unfold task_order. apply _. Defined.
Definition joined_tasks (tenantID userID : string) (d : DB) : list Task :=
  omap (λ t, match db_approvals d !! t_ApprovalID t with
             | Some i =>
                 if (ai_TenantID i =s tenantID) && (t_AssigneeUserID t =s userID) &&
                    contains assignedApprovalTaskStatuses (t_Status t)
                 then Some (task_view t i) else None
             | None => None
             end) (map_to_list (db_tasks d)).*2.

(** The fields of [contract.Contract] that JSON leaves out ([json:"-"]) are lost
    in a snapshot; the document comes from a column of its own. *)
Definition snapshot_contract (s : approvalSnapshotRecord) : Contract :=
  let c := contractFromRecord (as_Contract s) in
  let p := k_party c in
  let d := k_document c in
  mkDomain (k_ID c) (k_TenantID c) (k_Number c) "" (k_Title c) (k_Type c) (k_ServiceType c)
    (k_Systems c) (k_ServiceItems c)
    (mkPartyFields (k_OpportunityID p) (k_OpportunityName p) (k_CRMCustomerID p)
       (k_CounterpartySource p) (k_LocalCounterpartyID p) (k_CounterpartyVersion p)
       (k_CategorySource p) "" (k_CustomerName p) (k_CustomerAddress p) (k_CustomerContact p)
       (k_CustomerPhone p) (k_CustomerCreditLevel p))
    (k_owner c) (k_AmountMinor c) (k_Currency c) (Some (as_PaymentTerms s))
    (mkDocumentFields (k_Content d) (k_TemplateID d) (k_TemplateValues d) (as_RenderedDocument s)
       (k_DocumentFormat d) (k_SourceMediaType d) (k_SourceFilename d) (k_SourceSHA256 d)
       (k_ExternalPaperNumber d) (k_SourceFileID d) (k_SourceFileStatus d) (k_ContentHash d))
    (k_origin c) (k_Status c) (k_StartDate c) (k_EndDate c) (k_row c).

Section ApprovalReads.
Context `{Oracle}.

Definition find_approval (tenantID id : string) : Tx (option approvalInstanceRecord) :=
  query (λ d, match db_approvals d !! id with
              | Some i => if ai_TenantID i =s tenantID then Some i else None
              | None => None
              end).

Definition GetApprovalMeta (tenantID id : string) : Tx Meta :=
  i ← take_row (find_approval tenantID id) ErrNotFound; mret (meta_of i).

Definition GetApprovalRuntimeState (tenantID approvalID : string) : Tx (option ApprovalState) :=
  i ← take_row (find_approval tenantID approvalID) ErrNotFound;
  match ai_RuntimeState i with
  | JsonEmpty => mret None
  | JsonBad => throw ErrOther
  | JsonOf st => mret (Some st)
  end.

Definition GetApprovalSnapshot (tenantID approvalID : string) : Tx (option Contract) :=
  s ← query (λ d, db_snapshots d !! approvalID);
  match s with
  | Some s => mret (if as_TenantID s =s tenantID then Some (snapshot_contract s) else None)
  | None => mret None
  end.

Definition ListApprovalActions (tenantID approvalID : string) : Tx (list ApprovalActionView) :=
  query (λ d, map action_view (merge_sort action_order
    (filter (λ a, (aa_TenantID a =s tenantID) && (aa_ApprovalID a =s approvalID) = true)
       (map_to_list (db_actions d)).*2))).

Definition ListContractLifecycle (tenantID contractID : string) : Tx (list LifecycleEvent) :=
  query (λ d, map lifecycle_event (merge_sort lifecycle_order
    (filter (λ l, (l_TenantID l =s tenantID) && (l_ContractID l =s contractID) = true)
       (db_lifecycle d)))).

Definition ListApprovals (tenantID applicantUserID : string) (limit : Z) : Tx (list Summary) :=
  query (λ d, map summary_of (window 0 (limit_or 50 200 limit) (merge_sort newest_approval
    (filter (λ i, (ai_TenantID i =s tenantID) && (ai_ApplicantUserID i =s applicantUserID) = true)
       (map_to_list (db_approvals d)).*2)))).

Definition ListTasks (tenantID userID : string) (limit : Z) : Tx (list Task) :=
  query (λ d, window 0 (limit_or 50 200 limit)
                (merge_sort task_order (joined_tasks tenantID userID d))).

End ApprovalReads.

(** ** The summary of a contract for the CRM *)

Definition ContractSummaryLinkSourceCRMReview : string := "CRM_REVIEW".
Definition ContractSummaryLinkSourceReviewLog : string := "REVIEW_LOG".
Definition ContractSummaryLinkSourceAuditLog : string := "AUDIT_LOG".
Definition ContractSummaryLinkSourceIntakeCreated : string := "INTAKE_CREATED".
Definition ContractSummaryLinkSourceApproxContractUpdated : string := "APPROX_CONTRACT_UPDATED".
Definition ContractSummaryPrecisionExact : string := "exact".
Definition ContractSummaryPrecisionApprox : string := "approx".

Record ContractSummary : Type := mkContractSummary {
  cs_ContractID : string; cs_ContractNumber : string; cs_CRMCustomerID : Z;
  cs_CRMOpportunityID : Z; cs_LinkedAt : Time; cs_LinkedAtSource : string;
  cs_LinkedAtPrecision : string; cs_FirstLinkedAt : Time
}.
Record ContractSummaryCandidate : Type := mkSummaryCandidate {
  sm_ContractID : string; sm_ContractNumber : string; sm_CRMCustomerID : Z;
  sm_CRMOpportunityID : Z; sm_LinkedAt : Time; sm_LinkedAtSource : string;
  sm_FirstLinkedAt : Time; sm_UpdatedAt : Time
}.

(** [strconv.ParseUint(s, 10, 64)]: [None] on an error. *)
Definition ParseUint (s : string) : option Z :=
  let l := bytes s in
  if is_empty l || negb (forallb is_digit l) || (uint64_max <? dec_value l) then None
  else Some (dec_value l).
Definition uint64FromString (value : string) : Z := default 0 (ParseUint value).

Definition laterTime (current candidate : Time) : Time :=
  if current <? candidate then candidate else current.
Definition earlierTime (current candidate : Time) : Time :=
  if IsZero current || (candidate <? current) then candidate else current.

(** The latest and the earliest of some times, zero times left out. *)
Definition time_bounds (times : list Time) : Time * Time :=
  fold_left (λ '(latest, earliest) t,
               if IsZero t then (latest, earliest)
               else (laterTime latest t, earlierTime earliest t)) times (zero_time, zero_time).

(** [contractSummaryAuditBounds]: MIN and MAX of the rows' creation. *)
Definition created_bounds (times : list Time) : option (Time * Time) :=
  match times with
  | [] => None
  | t :: rest =>
      let latest := fold_left Z.max rest t in
      if IsZero latest then None else Some (latest, fold_left Z.min rest t)
  end.

Class Ulid := { ulid_strict : string → bool }.

Section Summary.
Context `{Oracle}.

Definition confirmed_intakes (tenantID contractID : string) (d : DB)
    : list opportunityIntakeRecord :=
  filter (λ i, (oi_TenantID i =s tenantID) && sql_eq (oi_ContractID i) contractID &&
               (oi_Status i =s OpportunityIntakeLinkConfirmed) = true)
    (db_intakes d).
Definition confirmed_reviews (tenantID : string) (intakeIDs : list string) (d : DB)
    : list opportunityIntakeReviewRecord :=
  filter (λ v, (ov_TenantID v =s tenantID) && contains intakeIDs (ov_IntakeID v) &&
               (ov_Decision v =s OpportunityIntakeLinkConfirmed) = true) (db_reviews d).
Definition link_audits (tenantID contractID : string) (d : DB) : list auditOutboxRecord :=
  filter (λ a, (au_TenantID a =s tenantID) && (au_ResourceType a =s "contract") &&
               (au_ResourceID a =s contractID) &&
               (au_Action a =s "CONTRACT_MANAGEMENT:OPPORTUNITY_LINK_CONFIRMED") &&
               (au_Result a =s "SUCCESS") = true) (db_audit d).

(** The first layer with evidence gives both times and the source. *)
Definition contractSummaryLinkedAt (tenantID contractID : string) : Tx (Time * Time * string) :=
  intakes ← query (confirmed_intakes tenantID contractID);
  let '(latest, earliest) := time_bounds (omap oi_ReviewedAt intakes) in
  if negb (IsZero latest) then mret (latest, earliest, ContractSummaryLinkSourceCRMReview)
  else
    layer ← (if is_empty intakes then mret None
             else query (λ d, created_bounds
                    (map ov_CreatedAt (confirmed_reviews tenantID (map oi_IntakeID intakes) d))));
    match layer with
    | Some (latest, earliest) => mret (latest, earliest, ContractSummaryLinkSourceReviewLog)
    | None =>
        layer ← query (λ d, created_bounds (map au_CreatedAt (link_audits tenantID contractID d)));
        match layer with
        | Some (latest, earliest) => mret (latest, earliest, ContractSummaryLinkSourceAuditLog)
        | None =>
            let '(latest, earliest) := time_bounds (map oi_CreatedAt intakes) in
            if negb (IsZero latest)
            then mret (latest, earliest, ContractSummaryLinkSourceIntakeCreated)
            else mret (zero_time, zero_time, "")
        end
    end.

Definition find_by_number (tenantID number : string) (d : DB) : option contractRecord :=
  match filter (λ r, (c_TenantID r =s tenantID) && sql_eq (c_ContractNumber r) number = true)
          (contract_table d) with
  | [] => None
  | r :: _ => Some r
  end.

Definition FindContractSummaryCandidate (tenantID contractRef : string)
    : Tx ContractSummaryCandidate :=
  byID ← find_contract tenantID contractRef;
  row ← (match byID with
         | Some row => mret row
         | None => take_row (query (find_by_number tenantID contractRef)) ErrNotFound
         end);
  linked ← contractSummaryLinkedAt tenantID (c_ID row);
  let '(latest, earliest, source) := linked in
  mret (mkSummaryCandidate (c_ID row) (valueOrEmpty (c_ContractNumber row))
          (uintValueOrZero (c_CRMCustomerID (c_party row)))
          (uint64FromString (valueOrEmpty (c_OpportunityID (c_party row))))
          latest source earliest (c_UpdatedAt row)).

Definition contractSummaryLinkedAtPrecision (source : string) : option string :=
  if contains [ContractSummaryLinkSourceCRMReview; ContractSummaryLinkSourceReviewLog;
               ContractSummaryLinkSourceAuditLog] source
  then Some ContractSummaryPrecisionExact
  else if contains [ContractSummaryLinkSourceIntakeCreated;
                    ContractSummaryLinkSourceApproxContractUpdated] source
  then Some ContractSummaryPrecisionApprox
  else None.

(** The service's projection of a candidate. *)
Definition summary_of_candidate `{Ulid} (crmCustomerID : Z) (c : ContractSummaryCandidate)
    : res ContractSummary :=
  fail_if ((sm_CRMCustomerID c =? 0) || negb (sm_CRMCustomerID c =? crmCustomerID) ||
           empty_str (sm_ContractID c) || empty_str (TrimSpace (sm_ContractNumber c))) ErrNotFound;;
  fail_if (negb (ulid_strict (sm_ContractID c))) ErrContractSummarySourceUnavailable;;
  let approximate := IsZero (sm_LinkedAt c) in
  let linkedAt := if approximate then sm_UpdatedAt c else sm_LinkedAt c in
  let first := if approximate then sm_UpdatedAt c else sm_FirstLinkedAt c in
  let source := if approximate then ContractSummaryLinkSourceApproxContractUpdated
                else sm_LinkedAtSource c in
  fail_if (IsZero linkedAt) ErrNotFound;;
  match contractSummaryLinkedAtPrecision source with
  | None => Err ErrContractSummarySourceUnavailable
  | Some precision =>
      Ok (mkContractSummary (sm_ContractID c) (TrimSpace (sm_ContractNumber c))
            (sm_CRMCustomerID c) (sm_CRMOpportunityID c) linkedAt source precision
            (if IsZero first || (linkedAt <? first) then linkedAt else first))
  end.

Definition ContractSummaryOf `{Ulid} (tenantID contractRef : string) (crmCustomerID : Z)
    : Tx ContractSummary :=
  let tenantID := TrimSpace tenantID in
  let contractRef := TrimSpace contractRef in
  guard (empty_str tenantID || empty_str contractRef || (crmCustomerID =? 0)) ErrValidation;;
  candidate ← FindContractSummaryCandidate tenantID contractRef;
  lift (summary_of_candidate crmCustomerID candidate).

End Summary.
