(* ===== verification/SigningLedger.v ===== *)
(** * infrastructure/mysql/contracts_signing_query.go, application/service.go:
      reading the signing ledger

    The record a contract, its signing row and its latest document make, the
    filters, order, pages and statistics of the ledger in SQL, and the service's
    filter over loaded records for repositories without them. *)

From stdpp Require Import sorting.
From S2P Require Import Prelude GoStrings Decimal GoTime BusinessClock Status NumberRule.
From S2P Require Import PaymentTerm ProjectService ImportPolicy PhoneCipher ApprovalRule Workflow.
From S2P Require Import Store Outbound Numbering Repository Signing Access Like Ledger.

#[local] Open Scope string_scope.
#[local] Open Scope Z_scope.
#[local] Open Scope list_scope.

Record SigningView : Type := mkSigningView {
  sv_Contract : Contract; sv_Method : string; sv_Status : SigningStatus;
  sv_CourierNumber : string; sv_RecipientName : string; sv_RecipientPhone : string;
  sv_RecipientAddress : string; sv_MailedAt : option Time; sv_CustomerReceivedAt : option Time;
  sv_ReturnedDocumentName : string; sv_ReturnedAt : option Time; sv_DocumentVersion : Z;
  sv_DocumentSHA256 : string; sv_ConfirmedDocumentVersion : Z;
  sv_ConfirmedDocumentSHA256 : string; sv_SealVerified : bool; sv_SignatureVerified : bool;
  sv_SignedAt : option Time; sv_ConfirmedAt : option Time; sv_ReminderCount : Z;
  sv_LastRemindedAt : option Time; sv_Version : Z
}.
Record SigningRecordQuery : Type := mkSigningQuery {
  sq_Keyword : string; sq_Status : string; sq_Method : string; sq_Offset : Z; sq_Limit : Z
}.
Record SigningStats : Type := mkStats {
  ss_Total : Z; ss_Completed : Z; ss_Processing : Z; ss_Monthly : Z; ss_Expired : Z
}.
Record SigningRecordPage : Type := mkSigningPage {
  sp_Items : list SigningView; sp_Total : Z; sp_Offset : Z; sp_Limit : Z; sp_HasMore : bool;
  sp_Stats : SigningStats
}.

(** A missing row and a missing document are zero records. *)
Definition signingFromRecords `{Aead} `{PhoneKeyEnv} (item : Contract)
    (row : option signingRecord) (document : option stampedDocumentRecord) : SigningView :=
  let text (f : signingRecord → option string) := valueOrEmpty (row ≫= f) in
  let flag (f : signingRecord → bool) := default false (f <$> row) in
  let known := match row with Some r => negb (empty_str (sg_ContractID r)) | None => false end in
  mkSigningView item
    (if known then default "" (sg_Method <$> row) else "paper")
    (if known then default "" (sg_Status <$> row) else SigningPendingShipment)
    (text sg_CourierNumber) (text sg_RecipientName)
    (maskStoredSigningPhone (k_ID item) (text sg_RecipientPhone)) (text sg_RecipientAddress)
    (row ≫= sg_MailedAt) (row ≫= sg_CustomerReceivedAt)
    (default "" (sd_OriginalFilename <$> document))
    (timePtr (default zero_time (sd_UploadedAt <$> document)))
    (default 0 (sd_Version <$> document)) (default "" (sd_ContentSHA256 <$> document))
    (uintValueOrZero (row ≫= sg_ConfirmedDocumentVersion)) (text sg_ConfirmedContentSHA256)
    (flag sg_SealVerified) (flag sg_SignatureVerified) (row ≫= sg_SignedAt)
    (row ≫= sg_ConfirmedAt) (default 0 (sg_ReminderCount <$> row)) (row ≫= sg_LastRemindedAt)
    (if known then default 0 (sg_Version <$> row) else 0).

(** ** The joined rows *)

Definition ledgerRow : Type := contractRecord * option signingRecord.

(** LEFT JOIN con_contract_signing on the contract and the tenant. *)
Definition join_signing (d : DB) (c : contractRecord) : ledgerRow :=
  (c, match db_signing d !! c_ID c with
      | Some s => if (sg_TenantID s =s c_TenantID c) && (sg_ContractID s =s c_ID c)
                  then Some s else None
      | None => None
      end).
Definition signingLedgerQuery (filter : ScopeFilter) (d : DB) : list ledgerRow :=
  map (join_signing d)
    (List.filter (λ c, applyContractScope filter c && contains ApprovalPassedStatuses (c_Status c))
       (contract_table d)).

Definition row_status (r : ledgerRow) : option string := sg_Status <$> r.2.
Definition row_completed (r : ledgerRow) : bool := sql_eq (row_status r) SigningCompleted.
(** [end_date IS NULL OR end_date >= today]. *)
Definition row_open (today : Time) (r : ledgerRow) : bool :=
  match c_EndDate (c_terms r.1) with None => true | Some date => today <=? date end.

Section Ledger.
Context `{CharCollation}.

Definition signing_keyword (keyword : string) (r : ledgerRow) : bool :=
  let pattern := literalLikePattern keyword in
  like_column (c_ContractNumber r.1) pattern || Like (c_Title (c_terms r.1)) pattern ||
  like_column (c_CustomerName (c_party r.1)) pattern ||
  like_column (r.2 ≫= sg_CourierNumber) pattern.

Definition signing_status_filter (status : string) (today : Time) (r : ledgerRow) : bool :=
  if empty_str status then true
  else if status =s "pending_shipment" then
    (match row_status r with None => true | Some s => s =s SigningPendingShipment end) &&
    row_open today r
  else if (status =s "in_return") || (status =s "pending_review") then
    sql_eq (row_status r) status && row_open today r
  else if status =s "completed" then row_completed r
  else if status =s "expired" then negb (row_completed r) && negb (row_open today r)
  else false.

Definition applySigningRecordFilters (q : SigningRecordQuery) (today : Time) (r : ledgerRow) : bool :=
  let keyword := TrimSpace (sq_Keyword q) in
  let method := TrimSpace (sq_Method q) in
  (empty_str keyword || signing_keyword keyword r) &&
  signing_status_filter (TrimSpace (sq_Status q)) today r &&
  (empty_str method || (default "paper" (sg_Method <$> r.2) =s method)).

(** Unfinished signings first, then the latest. *)
Definition signingLedgerOrder (a b : ledgerRow) : Prop :=
  let rank r := if row_completed r then 1 else 0 in
  rank a < rank b ∨ (rank a = rank b ∧ ledger_order a.1 b.1).
#[export] Instance signingLedgerOrder_dec : RelDecision signingLedgerOrder.
Proof. intros a b. unfold signingLedgerOrder. apply _. Defined.

Definition signing_rows (filter : ScopeFilter) (q : SigningRecordQuery) (today : Time) (d : DB)
    : list ledgerRow :=
  merge_sort signingLedgerOrder
    (List.filter (applySigningRecordFilters q today) (signingLedgerQuery filter d)).

(** ** Statistics *)

Definition count {A} (p : A → bool) (l : list A) : Z := Z.of_nat (length (List.filter p l)).

(** [monthStart.AddDate(0, 1, 0)]. *)
Definition NextMonthStart `{TzDatabase} (now : Time) : Time :=
  let d := local_date Location now in
  date_in Location (if d_month d =? 12 then mkDate (d_year d + 1) 1 1
                    else mkDate (d_year d) (d_month d + 1) 1).

Definition in_month (from to : Time) (confirmed : option Time) : bool :=
  match confirmed with Some t => (from <=? t) && (t <? to) | None => false end.

Definition signing_stats (today from to : Time) (rows : list ledgerRow) : SigningStats :=
  mkStats (Z.of_nat (length rows)) (count row_completed rows)
    (count (λ r, contains [SigningPendingShipment; SigningInReturn; SigningPendingReview]
                   (default SigningPendingShipment (row_status r)) && row_open today r) rows)
    (count (λ r, row_completed r && in_month from to (r.2 ≫= sg_ConfirmedAt)) rows)
    (count (λ r, negb (row_completed r) && negb (row_open today r)) rows).

Section Reads.
Context `{Oracle} `{TzDatabase} `{GoUnicode} `{Aead} `{PhoneKeyEnv}.

Definition signingStatsScoped (filter : ScopeFilter) (today : Time) : Tx SigningStats :=
  now ← time_now;
  query (λ d, signing_stats today (MonthStartOf now) (NextMonthStart now)
                (signingLedgerQuery filter d)).

Definition tenant_signing (tenantID : string) (row : option signingRecord)
    : option signingRecord :=
  match row with
  | Some s => if sg_TenantID s =s tenantID then Some s else None
  | None => None
  end.
Definition signingRecordsForContracts (tenantID : string) (contracts : list Contract)
    : Tx (list SigningView) :=
  signing ← query db_signing;
  documents ← query db_stamped;
  mret (map (λ item,
           signingFromRecords item (tenant_signing tenantID (signing !! k_ID item))
             (latest (filter (λ r, stamped_of tenantID (k_ID item) r = true) documents)))
         contracts).

Definition ListSigningRecordsScoped (filter : ScopeFilter) (q : SigningRecordQuery)
    : Tx SigningRecordPage :=
  let q := mkSigningQuery (sq_Keyword q) (sq_Status q) (sq_Method q)
             (if sq_Offset q <? 0 then 0 else sq_Offset q) (limit_or 50 200 (sq_Limit q)) in
  now ← time_now;
  let today := CalendarDay now in
  total ← query (λ d, Z.of_nat (length (signing_rows filter q today d)));
  ids ← (if sq_Offset q <? total
         then query (λ d, map (λ r, c_ID r.1)
                      (window (sq_Offset q) (sq_Limit q) (signing_rows filter q today d)))
         else mret []);
  contracts ← (if is_empty ids then mret []
               else rows ← query (λ d, omap (λ id,
                             match db_contracts d !! id with
                             | Some r => if c_TenantID r =s sf_TenantID filter then Some r else None
                             | None => None
                             end) ids);
                    attachPaymentTerms (sf_TenantID filter) (ledger_contracts rows));
  items ← signingRecordsForContracts (sf_TenantID filter) contracts;
  stats ← signingStatsScoped filter today;
  mret (mkSigningPage items total (sq_Offset q) (sq_Limit q)
          (sq_Offset q + Z.of_nat (length ids) <? total) stats).

(** The reads of one record; the repair of a plain phone that follows them is
    [repairSigningPhonePlaintext]. *)
Definition signing_record_of (tenantID contractID : string) (item : Contract)
    : Tx (SigningView * option signingRecord) :=
  signing ← find_signing tenantID contractID;
  document ← query (λ d, latest (stamped_rows tenantID contractID d));
  mret (signingFromRecords item signing document, signing).
Definition GetSigningRecord (tenantID contractID : string)
    : Tx (SigningView * option signingRecord) :=
  item ← GetContract tenantID contractID;
  signing_record_of tenantID contractID item.
Definition GetSigningRecordScoped (filter : ScopeFilter) (contractID : string)
    : Tx (SigningView * option signingRecord) :=
  item ← GetContractScoped filter contractID;
  signing_record_of (sf_TenantID filter) contractID item.

End Reads.
End Ledger.

(** ** The service's filter over loaded records *)

Section InMemory.
Context `{TzDatabase} `{GoUnicode}.

Definition view_expired (now : Time) (item : SigningView) : bool :=
  negb (sv_Status item =s SigningCompleted) &&
  match k_EndDate (sv_Contract item) with
  | Some date => CalendarDayBefore date now
  | None => false
  end.

Definition signingRecordMatches (now : Time) (q : SigningRecordQuery) (item : SigningView) : bool :=
  let c := sv_Contract item in
  let keyword := ToLower (TrimSpace (sq_Keyword q)) in
  let method := TrimSpace (sq_Method q) in
  let status := TrimSpace (sq_Status q) in
  (empty_str keyword ||
   Contains (ToLower (k_Number c +:+ " " +:+ k_Title c +:+ " " +:+ k_CustomerName (k_party c) +:+
                      " " +:+ sv_CourierNumber item)) keyword) &&
  (empty_str method || (sv_Method item =s method)) &&
  (if empty_str status then true
   else if contains ["completed"; "pending_shipment"; "in_return"; "pending_review"] status
        then sv_Status item =s status
   else if status =s "expired" then view_expired now item
   else false).

Definition signingStatsOf (now from to : Time) (items : list SigningView) : SigningStats :=
  mkStats (Z.of_nat (length items))
    (count (λ i, sv_Status i =s SigningCompleted) items)
    (count (λ i, negb (sv_Status i =s SigningCompleted) && negb (view_expired now i)) items)
    (count (λ i, (sv_Status i =s SigningCompleted) && in_month from to (sv_ConfirmedAt i)) items)
    (count (view_expired now) items).

End InMemory.
