(* ===== verification/Templates.v ===== *)
(** * infrastructure/mysql/rules.go and the rules of application/service.go

    The approval rules an administrator maintains: their rows, and the checks a
    rule passes before it is stored. *)

From stdpp Require Import sorting.
From S2P Require Import Prelude GoStrings Decimal GoTime Status ApprovalRule Workflow Store.
From S2P Require Import BusinessClock NumberRule ProjectService.
From S2P Require Import Numbering.

#[local] Open Scope string_scope.
#[local] Open Scope Z_scope.
#[local] Open Scope list_scope.

Definition MaxRuleNodes : Z := 20.
Definition MinNodeTimeout : Z := Hour.
Definition MaxNodeTimeout : Z := 30 * 24 * Hour.

(** ** Rows *)

Definition ruleToRecord (rule : Rule) : approvalRuleRecord :=
  mkRuleRow (r_ID rule) (r_TenantID rule) (r_Name rule) (r_Priority rule) (r_Enabled rule)
    (JsonOf (r_Expression rule)) (JsonOf (r_Nodes rule)) (r_Version rule) zero_time "" zero_time "".
Definition ruleFromRecord (r : approvalRuleRecord) : res Rule :=
  expression ← unmarshal (ru_Expression r);
  nodes ← unmarshal (ru_Nodes r);
  Ok (mkApprovalRule (ru_ID r) (ru_TenantID r) (ru_Name r) (ru_Priority r) (ru_Enabled r)
        expression nodes (ru_Version r)).

(** [priority DESC, id]. *)
Definition rule_order (a b : approvalRuleRecord) : Prop :=
  ru_Priority b < ru_Priority a ∨
  (ru_Priority a = ru_Priority b ∧ String.leb (ru_ID a) (ru_ID b) = true).
#[export] Instance rule_order_dec : RelDecision rule_order.
Proof. intros a b. unfold rule_order. apply _. Defined.

Definition rule_rows (tenantID : string) (enabledOnly : bool) (d : DB) : list approvalRuleRecord :=
  merge_sort rule_order
    (filter (λ r, (ru_TenantID r =s tenantID) && (negb enabledOnly || ru_Enabled r) = true)
       (db_rules d)).

(** The column is an INT: MySQL refuses a value outside its range. *)
Definition priority_fits (p : Z) : bool := (-2147483648 <=? p) && (p <=? 2147483647).

Definition this_rule (tenantID id : string) (version : Z) (r : approvalRuleRecord) : bool :=
  (ru_TenantID r =s tenantID) && (ru_ID r =s id) && (ru_Version r =? version).
Definition rule_set (rule : Rule) (now : Time) (actor : string) (r : approvalRuleRecord)
    : approvalRuleRecord :=
  mkRuleRow (ru_ID r) (ru_TenantID r) (r_Name rule) (r_Priority rule) (r_Enabled rule)
    (JsonOf (r_Expression rule)) (JsonOf (r_Nodes rule)) (r_Version rule + 1) (ru_CreatedAt r)
    (ru_CreatedBy r) now actor.

Section Repository.
Context `{Oracle}.

Definition listRules (tenantID : string) (enabledOnly : bool) : Tx (list Rule) :=
  rows ← query (rule_rows tenantID enabledOnly);
  lift (map_res ruleFromRecord rows).
Definition ListRules (tenantID : string) : Tx (list Rule) := listRules tenantID false.
Definition ListEnabledRules (tenantID : string) : Tx (list Rule) := listRules tenantID true.

Definition create_rule_body (rule : Rule) (actor : string) : Tx unit :=
  now ← time_now;
  let r := ruleToRecord rule in
  let row := mkRuleRow (ru_ID r) (ru_TenantID r) (ru_Name r) (ru_Priority r) (ru_Enabled r)
               (ru_Expression r) (ru_Nodes r) 1 now actor now actor in
  exec (λ d, fail_if (negb (priority_fits (r_Priority rule))) ErrStorage;;
             fail_if (existsb (λ x, ru_ID x =s r_ID rule) (db_rules d)) ErrDuplicatedKey;;
             Ok (tt, set_rules (db_rules d ++ [row]) d)).
Definition CreateRule (rule : Rule) (actor : string) : DB → res unit * DB :=
  transaction (create_rule_body rule actor).

Definition update_rule_body (rule : Rule) (actor : string) : Tx unit :=
  now ← time_now;
  rows ← exec (λ d,
    let hit := this_rule (r_TenantID rule) (r_ID rule) (r_Version rule) in
    fail_if (existsb hit (db_rules d) && negb (priority_fits (r_Priority rule))) ErrStorage;;
    Ok (Z.of_nat (length (filter (λ r, hit r = true) (db_rules d))),
        set_rules (map (λ r, if hit r then rule_set rule now actor r else r) (db_rules d)) d));
  guard (negb (rows =? 1)) ErrVersionConflict.
Definition UpdateRule (rule : Rule) (actor : string) : DB → res unit * DB :=
  transaction (update_rule_body rule actor).

Definition delete_rule_body (tenantID id : string) (version : Z) : Tx unit :=
  rows ← exec (λ d,
    let hit := this_rule tenantID id version in
    Ok (Z.of_nat (length (filter (λ r, hit r = true) (db_rules d))),
        set_rules (filter (λ r, hit r = false) (db_rules d)) d));
  guard (negb (rows =? 1)) ErrVersionConflict.
Definition DeleteRule (tenantID id : string) (version : Z) : DB → res unit * DB :=
  transaction (delete_rule_body tenantID id version).

End Repository.

(** ** What a rule must satisfy *)

Definition node_checks (seen : list string) (node : Node) : res unit :=
  fail_if (empty_str (n_ID node) || empty_str (n_Name node) || empty_str (n_RoleCode node) ||
           contains seen (n_ID node)) ErrValidation;;
  fail_if ((64 <? rune_count (n_ID node)) || (128 <? rune_count (n_Name node)) ||
           (128 <? rune_count (n_RoleCode node))) ErrValidation;;
  fail_if (negb (empty_str (n_Countersign node)) && negb (n_Countersign node =s CountersignAll) &&
           negb (n_Countersign node =s CountersignAny)) ErrValidation;;
  fail_if (negb (n_Timeout node =? 0) &&
           ((n_Timeout node <? MinNodeTimeout) || (MaxNodeTimeout <? n_Timeout node)))
    ErrValidation.
Fixpoint validate_nodes (seen : list string) (nodes : list Node) : res unit :=
  match nodes with
  | [] => Ok tt
  | node :: rest => node_checks seen node;; validate_nodes (n_ID node :: seen) rest
  end.

Definition no_facts : Facts := mkFacts 0 "" "" "" false.

Definition validateRule `{GoFloat} (rule : Rule) : res unit :=
  fail_if (empty_str (r_Name rule) || bool_decide (r_Nodes rule = [])) ErrValidation;;
  fail_if (128 <? rune_count (r_Name rule)) ErrValidation;;
  fail_if (MaxRuleNodes <? Z.of_nat (length (r_Nodes rule))) ErrValidation;;
  (match ValidateLimits (r_Expression rule) with Ok _ => Ok tt | Err _ => Err ErrValidation end);;
  (match Match no_facts (r_Expression rule) with Ok _ => Ok tt | Err _ => Err ErrValidation end);;
  validate_nodes [] (r_Nodes rule).

(** * application/templates.go: contract templates

    The checks an administrator's template passes, the number format it carries,
    the values a contract gives its fields, and the merge of fields when the
    source document is replaced.  The DOCX codec is the class
    [TemplateEngine]. *)

Record Field : Type := mkField {
  fd_Name : string; fd_Label : string; fd_Default : string; fd_Locked : bool
}.
Record Template : Type := mkTemplate {
  te_ID : string; te_TenantID : string; te_Name : string; te_OriginalFilename : string;
  te_NumberFormat : string; te_Fields : list Field; te_Content : string;
  te_PlatformFileID : string; te_FileGatewayState : string; te_Version : Z;
  te_CreatedAt : Time; te_CreatedBy : string
}.

#[export] Instance Field_eq_dec : EqDecision Field.
Proof. solve_decision. Defined.

(** internal/docx: the fields of a template, the filled document and its text. *)
Class TemplateEngine := {
  docx_Fields : string → res (list Field);
  docx_Render : string → gmap string string → res string;
  docx_PlainText : string → res string
}.

Definition SystemContractNumberPending : string := "【系统合同编号：审批通过后生成】".

(** ** File names ([path/filepath] on Unix) *)

Definition slash : byte := chr 47.
Definition last_segment (l : list byte) : list byte := List.last (split_bytes slash l) [].
Fixpoint strip_slashes (l : list byte) : list byte :=
  match l with
  | [] => []
  | b :: rest =>
      match strip_slashes rest with
      | [] => if Ascii.eqb b slash then [] else [b]
      | rest' => b :: rest'
      end
  end.
Definition filepath_Base (s : string) : string :=
  if empty_str s then "."
  else match last_segment (strip_slashes (bytes s)) with
       | [] => "/"
       | l => of_bytes l
       end.
Definition dot_byte : byte := chr 46.
Definition filepath_Ext (s : string) : string :=
  match split_bytes dot_byte (last_segment (bytes s)) with
  | [] | [_] => ""
  | parts => of_bytes (dot_byte :: List.last parts [])
  end.

(** ** Number formats *)

Definition placeholders : list (list byte * list byte) :=
  [ (bytes "{YYYYMMDD}", []); (bytes "{YYYY}", []); (bytes "{MM}", []); (bytes "{DD}", []);
    (bytes "{ID8}", []) ].
(** The text of a format outside its placeholders. *)
Definition fixed_text (value : string) : string :=
  of_bytes (replace_bytes (length (bytes value)) placeholders (bytes value)).

(** The test for braces comes before the test of the characters: a brace is no
    allowed character either, with the same sentinel. *)
Definition normalizeNumberFormat (value : string) : res string :=
  let value := TrimSpace value in
  fail_if (empty_str value || (160 <? rune_count value)) ErrValidation;;
  fail_if (negb (Contains value "{ID8}")) ErrValidation;;
  let remaining := fixed_text value in
  fail_if (Contains remaining "{" || Contains remaining "}") ErrValidation;;
  fail_if (negb (forallb ContractNumberAffixAllowed (runes remaining))) ErrValidation;;
  Ok value.

(** ** Values *)

Definition system_field (field : Field) : bool :=
  (fd_Name field =s "合同编号") || (fd_Name field =s "系统合同编号").

(** The value of one field. *)
Definition field_value (values : gmap string string) (admin : bool) (field : Field) : res string :=
  if system_field field then Ok SystemContractNumberPending
  else
    let supplied := values !! fd_Name field in
    let value := default "" supplied in
    fail_if (Contains value SystemContractNumberPending ||
             Contains (fd_Default field) SystemContractNumberPending) ErrValidation;;
    if fd_Locked field && negb admin then
      fail_if (match supplied with Some v => negb (v =s fd_Default field) | None => false end)
        ErrValidation;;
      Ok (fd_Default field)
    else
      let value := default (fd_Default field) supplied in
      fail_if (Contains value SystemContractNumberPending) ErrValidation;;
      fail_if (empty_str (TrimSpace value) && empty_str (fd_Default field)) ErrValidation;;
      fail_if (2000 <? rune_count value) ErrValidation;;
      Ok value.
Fixpoint field_values (values : gmap string string) (admin : bool) (fields : list Field)
    (normalized : gmap string string) : res (gmap string string) :=
  match fields with
  | [] => Ok normalized
  | field :: rest =>
      value ← field_value values admin field;
      field_values values admin rest (<[fd_Name field := value]> normalized)
  end.

Definition normalizeTemplateValues (fields : list Field) (values : gmap string string)
    (admin : bool) : res (gmap string string) :=
  normalized ← field_values values admin fields ∅;
  fail_if (negb (bool_decide (map_Forall (λ name _, name ∈ map fd_Name fields) values)))
    ErrValidation;;
  Ok normalized.

(** [renderTemplateForPermission], once the template is read: the ledger's
    amount replaces whatever the caller gave for the amount's field. *)
Definition amount_text (minor : Z) : string :=
  Itoa (Z.quot minor 100) +:+ "." +:+ sprintf_0d 2 (Z.rem minor 100).
Definition with_amount (item : Template) (amount : option Z) (values : gmap string string)
    : gmap string string :=
  match amount with
  | Some minor =>
      if contains (map fd_Name (te_Fields item)) "合同金额"
      then <["合同金额" := amount_text minor]> values else values
  | None => values
  end.
Definition render_template `{TemplateEngine} (item : Template) (amount : option Z) (admin : bool)
    (values : gmap string string) : res (string * gmap string string) :=
  normalized ← normalizeTemplateValues (te_Fields item) (with_amount item amount values) admin;
  match docx_Render (te_Content item) normalized with
  | Ok rendered => Ok (rendered, normalized)
  | Err _ => Err ErrValidation
  end.

(** ** Administration *)

Definition set_template (item : Template) (name filename format : string) (fields : list Field)
    (content platform state : string) : Template :=
  mkTemplate (te_ID item) (te_TenantID item) name filename format fields content platform state
    (te_Version item) (te_CreatedAt item) (te_CreatedBy item).

(** What [CreateTemplate] checks before it builds the template. *)
Definition upload_checks `{GoUnicode} (name filename : string) : res (string * string) :=
  let name := TrimSpace name in
  let filename := filepath_Base (TrimSpace filename) in
  fail_if (empty_str name) ErrValidation;;
  fail_if ((160 <? rune_count name) || (255 <? rune_count filename)) ErrValidation;;
  fail_if ((filename =s ".") || negb (EqualFold (filepath_Ext filename) ".docx")) ErrValidation;;
  Ok (name, filename).

Definition parsed_fields `{TemplateEngine} (content : string) : res (list Field) :=
  match docx_Fields content with Ok fields => Ok fields | Err _ => Err ErrValidation end.

(** [ReplaceTemplateSource]: a field that was there keeps its settings, unless
    it is the contract's number. *)
Fixpoint last_field (name : string) (fields : list Field) : option Field :=
  match fields with
  | [] => None
  | f :: rest => match last_field name rest with
                 | Some g => Some g
                 | None => if fd_Name f =s name then Some f else None
                 end
  end.
Definition merge_field (previous : list Field) (field : Field) : Field :=
  let kept := default field (last_field (fd_Name field) previous) in
  if system_field field then mkField (fd_Name kept) (fd_Label kept) "" false else kept.
Definition replace_source (item : Template) (filename : string) (fields : list Field)
    (content : string) : Template :=
  set_template item (te_Name item) filename (te_NumberFormat item)
    (map (merge_field (te_Fields item)) fields) content "" "".

(** [UpdateTemplate]: the configuration of the fields, by name. *)
Definition trim_field (f : Field) : Field :=
  mkField (TrimSpace (fd_Name f)) (TrimSpace (fd_Label f)) (TrimSpace (fd_Default f)) (fd_Locked f).
Fixpoint configure (fields : list Field) (configured : gmap string Field)
    : res (gmap string Field) :=
  match fields with
  | [] => Ok configured
  | f :: rest =>
      let f := trim_field f in
      fail_if (empty_str (fd_Name f) || empty_str (fd_Label f)) ErrValidation;;
      fail_if ((160 <? rune_count (fd_Name f)) || (160 <? rune_count (fd_Label f)) ||
               (1000 <? rune_count (fd_Default f))) ErrValidation;;
      fail_if (bool_decide (is_Some (configured !! fd_Name f))) ErrValidation;;
      fail_if (fd_Locked f && empty_str (fd_Default f)) ErrValidation;;
      configure rest (<[fd_Name f := f]> configured)
  end.
Definition update_template (item : Template) (name numberFormat : string) (fields : list Field)
    : res Template :=
  let name := TrimSpace name in
  fail_if (empty_str name) ErrValidation;;
  fail_if (160 <? rune_count name) ErrValidation;;
  format ← normalizeNumberFormat numberFormat;
  fail_if (negb (length fields =? length (te_Fields item))%nat) ErrValidation;;
  configured ← configure fields ∅;
  updated ← map_res (λ existing, match configured !! fd_Name existing with
                                 | Some f => Ok f
                                 | None => Err ErrValidation
                                 end) (te_Fields item);
  Ok (set_template item name (te_OriginalFilename item) format updated (te_Content item)
        (te_PlatformFileID item) (te_FileGatewayState item)).
