(* ===== verification/Drafting.v ===== *)
(** * application/service.go, contract_sources.go, crm_references.go,
      detection_categories.go: the checks of a contract before it is stored

    Normalisation of the texts and service items of a draft, the resolution of
    its counterparty and categories against the directories that own them, and
    the commercial terms derived from them. *)

From stdpp Require Import sorting.
From S2P Require Import Prelude GoStrings Decimal GoTime BusinessClock Status NumberRule.
From S2P Require Import PaymentTerm ProjectService ImportPolicy ApprovalRule Workflow Store.
From S2P Require Import Outbound Numbering Repository Access Reports.
From S2P Require Import Templates.

#[local] Open Scope string_scope.
#[local] Open Scope Z_scope.
#[local] Open Scope list_scope.

Definition CounterpartyCRM : string := "CRM".
Definition CategoryProject : string := "PROJECT".

(** ** Field updates *)

Definition with_party (p : partyFields) (c : Contract) : Contract :=
  mkDomain (k_ID c) (k_TenantID c) (k_Number c) (k_NumberFormat c) (k_Title c) (k_Type c)
    (k_ServiceType c) (k_Systems c) (k_ServiceItems c) p (k_owner c) (k_AmountMinor c)
    (k_Currency c) (k_PaymentTerms c) (k_document c) (k_origin c) (k_Status c) (k_StartDate c)
    (k_EndDate c) (k_row c).
Definition with_shape (title type : string) (items : list ServiceItem) (p : partyFields)
    (c : Contract) : Contract :=
  mkDomain (k_ID c) (k_TenantID c) (k_Number c) (k_NumberFormat c) title type (k_ServiceType c)
    (k_Systems c) items p (k_owner c) (k_AmountMinor c) (k_Currency c) (k_PaymentTerms c)
    (k_document c) (k_origin c) (k_Status c) (k_StartDate c) (k_EndDate c) (k_row c).
Definition with_items (items : list ServiceItem) (c : Contract) : Contract :=
  with_shape (k_Title c) (k_Type c) items (k_party c) c.
Definition with_document (d : documentFields) (c : Contract) : Contract :=
  mkDomain (k_ID c) (k_TenantID c) (k_Number c) (k_NumberFormat c) (k_Title c) (k_Type c)
    (k_ServiceType c) (k_Systems c) (k_ServiceItems c) (k_party c) (k_owner c) (k_AmountMinor c)
    (k_Currency c) (k_PaymentTerms c) d (k_origin c) (k_Status c) (k_StartDate c) (k_EndDate c)
    (k_row c).
Definition with_format (format : string) (c : Contract) : Contract :=
  mkDomain (k_ID c) (k_TenantID c) (k_Number c) format (k_Title c) (k_Type c) (k_ServiceType c)
    (k_Systems c) (k_ServiceItems c) (k_party c) (k_owner c) (k_AmountMinor c) (k_Currency c)
    (k_PaymentTerms c) (k_document c) (k_origin c) (k_Status c) (k_StartDate c) (k_EndDate c)
    (k_row c).
Definition with_commercials (serviceType : string) (systems : list SystemInfo)
    (currency format : string) (terms : list PaymentTerm) (c : Contract) : Contract :=
  mkDomain (k_ID c) (k_TenantID c) (k_Number c) format (k_Title c) (k_Type c) serviceType systems
    (k_ServiceItems c) (k_party c) (k_owner c) (k_AmountMinor c) currency (Some terms)
    (k_document c) (k_origin c) (k_Status c) (k_StartDate c) (k_EndDate c) (k_row c).

Definition set_customer (name opportunity : string) (p : partyFields) : partyFields :=
  mkPartyFields (k_OpportunityID p) opportunity (k_CRMCustomerID p) (k_CounterpartySource p)
    (k_LocalCounterpartyID p) (k_CounterpartyVersion p) (k_CategorySource p)
    (k_IntegrationPolicy p) name (k_CustomerAddress p) (k_CustomerContact p) (k_CustomerPhone p)
    (k_CustomerCreditLevel p).
Definition set_policy (policy : string) (p : partyFields) : partyFields :=
  mkPartyFields (k_OpportunityID p) (k_OpportunityName p) (k_CRMCustomerID p)
    (k_CounterpartySource p) (k_LocalCounterpartyID p) (k_CounterpartyVersion p)
    (k_CategorySource p) policy (k_CustomerName p) (k_CustomerAddress p) (k_CustomerContact p)
    (k_CustomerPhone p) (k_CustomerCreditLevel p).

(** ** Shape *)

Section Shape.
Context `{GoUnicode}.

Definition trim_system (s : SystemInfo) : SystemInfo :=
  mkSystem (TrimSpace (sys_Name s)) (TrimSpace (sys_Level s)).
Definition normalizeExternalServiceItem (item : ServiceItem) : ServiceItem :=
  let type := TrimSpace (it_ServiceType item) in
  let name := TrimSpace (it_Name item) in
  mkItem (it_CategoryID item) (it_CategoryVersion item) "" (if empty_str name then type else name)
    type (TrimSpace (it_Site item)) (TrimSpace (it_Batch item)) (TrimSpace (it_Category item))
    (TrimSpace (it_Requirement item)) (ToUpper (TrimSpace (it_TestMode item)))
    (map trim_system (it_Systems item)).
Definition normalizeExternalServiceItems : list ServiceItem → list ServiceItem :=
  map normalizeExternalServiceItem.

Definition levels : list string := ["一级"; "二级"; "三级"; "四级"].
Definition validSystems (items : list SystemInfo) : bool :=
  (length items <=? 15)%nat &&
  forallb (λ s, negb (empty_str (sys_Name s)) && contains levels (sys_Level s)) items.

Definition validExternalServiceItem (item : ServiceItem) : bool :=
  negb (empty_str (it_ServiceType item)) && negb (empty_str (it_Site item)) &&
  negb (empty_str (it_Batch item)) && negb (empty_str (it_Category item)) &&
  contains ["STANDARD"; "PENETRATION"] (it_TestMode item) && validSystems (it_Systems item).
Definition some_items (items : list ServiceItem) : bool :=
  negb (is_empty items) && (length items <=? 20)%nat.
Definition validExternalServiceItems (items : list ServiceItem) : bool :=
  some_items items && forallb validExternalServiceItem items.
Definition validServiceItem (item : ServiceItem) : bool :=
  negb (empty_str (it_ServiceType item)) && validSystems (it_Systems item) &&
  contains [""; "STANDARD"; "PENETRATION"] (ToUpper (TrimSpace (it_TestMode item))).
Definition validServiceItems (items : list ServiceItem) : bool :=
  some_items items && forallb validServiceItem items.

Definition flattenedSystems (items : list ServiceItem) : list SystemInfo :=
  concat (map it_Systems items).

(** The limits count the characters of the trimmed texts. *)
Definition fits (check : string * Z) : bool := rune_count (TrimSpace check.1) <=? check.2.
Definition contract_texts (c : Contract) : list (string * Z) :=
  let p := k_party c in
  [ (k_Title c, 255); (k_Type c, 64); (k_OpportunityID p, 64); (k_OpportunityName p, 255);
    (k_CustomerName p, 255); (k_CustomerAddress p, 500); (k_CustomerContact p, 128);
    (k_CustomerPhone p, 64); (k_CustomerCreditLevel p, 16); (k_NumberFormat c, 160);
    (k_TemplateID (k_document c), 26); (k_ProjectID (k_owner c), 64);
    (k_OwnerOrgID (k_owner c), 64) ].
Definition item_texts (item : ServiceItem) : list (string * Z) :=
  [ (it_ServiceType item, 64); (it_Name item, 255); (it_Site item, 255); (it_Batch item, 120);
    (it_Category item, 120); (it_Requirement item, 1000) ] ++
  map (λ s, (sys_Name s, 255)) (it_Systems item).
Definition validateContractTextLengths (c : Contract) : res unit :=
  fail_if (negb (forallb fits (contract_texts c))) ErrValidation;;
  fail_if (negb (forallb fits (concat (map item_texts (k_ServiceItems c))))) ErrValidation;;
  fail_if (negb (bool_decide (map_Forall (λ _ value, rune_count value ≤ 2000)
                   (k_TemplateValues (k_document c))))) ErrValidation.

Definition trim_party (p : partyFields) : partyFields :=
  mkPartyFields (TrimSpace (k_OpportunityID p)) (TrimSpace (k_OpportunityName p))
    (k_CRMCustomerID p) (k_CounterpartySource p) (k_LocalCounterpartyID p)
    (k_CounterpartyVersion p) (k_CategorySource p) (k_IntegrationPolicy p)
    (TrimSpace (k_CustomerName p)) (TrimSpace (k_CustomerAddress p))
    (TrimSpace (k_CustomerContact p)) (TrimSpace (k_CustomerPhone p)) (k_CustomerCreditLevel p).

Definition external_types : list string := ["直签"; "三方"].
Definition normalizeContractShape (c : Contract) (external : bool) : res Contract :=
  let items := if external then normalizeExternalServiceItems (k_ServiceItems c)
               else k_ServiceItems c in
  let c := with_shape (TrimSpace (k_Title c)) (TrimSpace (k_Type c)) items (trim_party (k_party c)) c in
  let d := k_document c in
  validateContractTextLengths c;;
  let commonInvalid := empty_str (k_Title c) || empty_str (k_Type c) || (k_AmountMinor c <? 0) ||
                       (empty_str (k_Content d) && empty_str (k_Document d)) in
  if external then
    fail_if (commonInvalid || negb (empty_str (k_TemplateID d)) ||
             negb (contains external_types (k_Type c)) || (k_AmountMinor c <=? 0) ||
             negb (validExternalServiceItems (k_ServiceItems c))) ErrValidation;;
    Ok c
  else
    fail_if (commonInvalid || empty_str (k_TemplateID d) ||
             negb (validServiceItems (k_ServiceItems c)) ||
             (negb (empty_str (k_OpportunityID (k_party c))) &&
              (k_CRMCustomerID (k_party c) =? 0))) ErrValidation;;
    Ok c.

(** ** Commercial terms *)

Definition upper_letters (s : string) : bool := forallb (λ r, (65 <=? r) && (r <=? 90)) (runes s).
Definition finalizeContractCommercials (c : Contract) : res Contract :=
  match k_ServiceItems c with
  | [] => Err ErrValidation
  | item :: _ =>
      fail_if (match k_StartDate c, k_EndDate c with
               | Some from, Some to => to <? from
               | _, _ => false
               end) ErrValidation;;
      let currency := ToUpper (TrimSpace (if empty_str (k_Currency c) then "CNY" else k_Currency c)) in
      fail_if (negb (slen currency =? 3)) ErrValidation;;
      fail_if (negb (upper_letters currency)) ErrValidation;;
      terms ← as_validation (NormalizePaymentTerms (terms_or_nil c) (k_AmountMinor c) currency);
      Ok (with_commercials (it_ServiceType item) (flattenedSystems (k_ServiceItems c)) currency
            (if empty_str (k_NumberFormat c) then DefaultNumberFormat else k_NumberFormat c)
            terms c)
  end.

(** ** Sources *)

Record ContractSourceOptions : Type := mkSources {
  so_CounterpartySource : string; so_CategorySource : string; so_Catalog : bool;
  so_Targets : bool; so_ProjectIntegrationEnabled : bool; so_SettlementIntegrationEnabled : bool;
  so_CRMLinkEnabled : bool
}.

Definition validOptionalCRMID (value : string) : bool :=
  empty_str value || match ParseUint value with Some n => 0 <? n | None => false end.

Definition validateContractReferenceTypes (c : Contract) : res unit :=
  let p := k_party c in
  let local := k_CounterpartySource p =s CounterpartyLocal in
  fail_if (negb (empty_str (k_CounterpartySource p)) &&
           negb (k_CounterpartySource p =s CounterpartyCRM) && negb local) ErrValidation;;
  fail_if (negb (empty_str (k_CategorySource p)) && negb (k_CategorySource p =s CategoryProject) &&
           negb (k_CategorySource p =s CategoryLocal)) ErrValidation;;
  fail_if ((k_CounterpartySource p =s CounterpartyCRM) && (k_CRMCustomerID p =? 0)) ErrValidation;;
  fail_if (negb local && (negb (empty_str (k_LocalCounterpartyID p)) ||
                          negb (k_CounterpartyVersion p =? 0))) ErrValidation;;
  fail_if (local && (negb (k_CRMCustomerID p =? 0) || negb (empty_str (k_OpportunityID p)) ||
                     negb (empty_str (k_OpportunityName p)))) ErrValidation.

Definition uses_local (c : Contract) : bool :=
  (k_CounterpartySource (k_party c) =s CounterpartyLocal) ||
  (k_CategorySource (k_party c) =s CategoryLocal).
Definition validateLocalSourceOptions (c : Contract) (options : option ContractSourceOptions)
    : res unit :=
  match options with
  | None => Err ErrContractSourceConflict
  | Some o =>
      fail_if (((k_CounterpartySource (k_party c) =s CounterpartyLocal) &&
                negb (so_CounterpartySource o =s "local")) ||
               ((k_CategorySource (k_party c) =s CategoryLocal) &&
                negb (so_CategorySource o =s "local"))) ErrContractSourceConflict;;
      fail_if (so_ProjectIntegrationEnabled o || so_SettlementIntegrationEnabled o ||
               so_CRMLinkEnabled o) ErrContractSourceConflict;;
      fail_if (negb (so_Catalog o)) ErrLocalCatalogUnavailable
  end.

(** ** Directories *)

Record LocalCounterparty : Type := mkCounterparty {
  lp_ID : string; lp_TenantID : string; lp_Name : string; lp_Enabled : bool; lp_Version : Z;
  lp_OwnerIdentityID : string; lp_OwnerOrgID : string; lp_CreatedBy : string; lp_UpdatedAt : Time
}.
Record LocalCategory : Type := mkCategory {
  ly_ID : string; ly_TenantID : string; ly_Code : string; ly_Name : string; ly_Enabled : bool;
  ly_Version : Z; ly_OwnerIdentityID : string; ly_OwnerOrgID : string; ly_CreatedBy : string;
  ly_UpdatedAt : Time
}.
Record CRMCustomerReference : Type := mkCustomer {
  cu_ID : Z; cu_Name : string; cu_Status : string
}.
Record CRMOpportunityReference : Type := mkOpportunityReference {
  cr_ID : Z; cr_Name : string; cr_CustomerID : Z; cr_Status : string
}.
Record CRMContractReference : Type := mkReference {
  rf_Customer : CRMCustomerReference; rf_Opportunity : option CRMOpportunityReference
}.
Record DetectionCategory : Type := mkDetection { dc_Category : string; dc_Enabled : bool }.

(** The CRM's answer about a customer and an opportunity; [None]: no directory
    is configured. *)
Definition validateExternalCRMReference (customerID : Z) (opportunityID : string)
    (answer : option (res CRMContractReference)) : res CRMContractReference :=
  match answer with
  | None => Err ErrCRMReferenceDirectoryUnavailable
  | Some (Err ErrCRMActorContextRequired) => Err ErrCRMActorContextRequired
  | Some (Err ErrCRMReferenceInvalid) => Err ErrValidation
  | Some (Err _) => Err ErrCRMReferenceDirectoryUnavailable
  | Some (Ok result) =>
      let customer := rf_Customer result in
      fail_if (negb (cu_ID customer =? customerID) || negb (cu_Status customer =s "ACTIVE") ||
               empty_str (TrimSpace (cu_Name customer))) ErrValidation;;
      if empty_str opportunityID then
        fail_if (bool_decide (is_Some (rf_Opportunity result))) ErrValidation;; Ok result
      else
        match ParseUint opportunityID, rf_Opportunity result with
        | Some expected, Some o =>
            fail_if ((expected =? 0) || negb (cr_ID o =? expected) ||
                     negb (cr_CustomerID o =? customerID) || empty_str (TrimSpace (cr_Name o)) ||
                     (cr_Status o =s "VOID")) ErrValidation;;
            Ok result
        | _, _ => Err ErrValidation
        end
  end.

(** The enabled categories, trimmed, without repetition, in order. *)
Fixpoint distinct_categories (seen : list string) (items : list DetectionCategory) : list string :=
  match items with
  | [] => []
  | item :: rest =>
      let category := TrimSpace (dc_Category item) in
      if negb (dc_Enabled item) || empty_str category || contains seen category
      then distinct_categories seen rest
      else category :: distinct_categories (category :: seen) rest
  end.
Definition enabledDetectionCategories (answer : option (res (list DetectionCategory)))
    : res (list DetectionCategory) :=
  match answer with
  | Some (Ok items) =>
      Ok (map (λ c, mkDetection c true) (merge_sort text_le (distinct_categories [] items)))
  | _ => Err ErrDetectionCategoryDirectoryUnavailable
  end.
Definition validateExternalDetectionCategories (items : list string)
    (answer : option (res (list DetectionCategory))) : res unit :=
  categories ← enabledDetectionCategories answer;
  fail_if (negb (forallb (λ value, contains (map dc_Category categories) (TrimSpace value)) items))
    ErrValidation.

(** The answers of the directories a draft is resolved against. *)
Record Directories : Type := mkDirectories {
  dir_organizations : res unit;
  dir_counterparty : string → res LocalCounterparty;
  dir_category : string → res LocalCategory;
  dir_crm : option (Z → string → string → res CRMContractReference);
  dir_detection : option (res (list DetectionCategory))
}.

Definition resolveCounterpartyReference (dirs : Directories) (actor : Principal) (c : Contract)
    (external : bool) : res Contract :=
  let p := k_party c in
  if k_CounterpartySource p =s CounterpartyLocal then
    fail_if (empty_str (k_LocalCounterpartyID p) || (k_CounterpartyVersion p =? 0)) ErrValidation;;
    value ← dir_counterparty dirs (k_LocalCounterpartyID p);
    fail_if (negb (lp_TenantID value =s p_TenantID actor) ||
             negb (lp_ID value =s k_LocalCounterpartyID p) || negb (lp_Enabled value) ||
             negb (lp_Version value =? k_CounterpartyVersion p) ||
             empty_str (TrimSpace (lp_Name value))) ErrLocalReferenceInvalid;;
    Ok (with_party (set_customer (lp_Name value) (k_OpportunityName p) p) c)
  else if negb external && (k_CRMCustomerID p =? 0) && empty_str (k_OpportunityID p) &&
          is_empty (terms_or_nil c) then Ok c
  else
    fail_if (external &&
             ((k_CRMCustomerID p =? 0) || empty_str (k_CustomerName p) ||
              negb (eqb (empty_str (k_OpportunityID p)) (empty_str (k_OpportunityName p))) ||
              negb (validOptionalCRMID (k_OpportunityID p)))) ErrValidation;;
    fail_if ((k_CRMCustomerID p =? 0) || negb (validOptionalCRMID (k_OpportunityID p)))
      ErrValidation;;
    reference ← validateExternalCRMReference (k_CRMCustomerID p) (k_OpportunityID p)
      ((λ resolve, resolve (k_CRMCustomerID p) (k_OpportunityID p) (p_IdentityID actor)) <$>
       dir_crm dirs);
    Ok (with_party (set_customer (TrimSpace (cu_Name (rf_Customer reference)))
          (match rf_Opportunity reference with Some o => TrimSpace (cr_Name o) | None => "" end) p) c).

Definition set_category (category : string) (item : ServiceItem) : ServiceItem :=
  mkItem (it_CategoryID item) (it_CategoryVersion item) (it_SourceID item) (it_Name item)
    (it_ServiceType item) (it_Site item) (it_Batch item) category (it_Requirement item)
    (it_TestMode item) (it_Systems item).
Definition resolve_category (dirs : Directories) (tenantID : string) (item : ServiceItem)
    : res ServiceItem :=
  fail_if (empty_str (it_CategoryID item) || (it_CategoryVersion item =? 0)) ErrValidation;;
  value ← dir_category dirs (it_CategoryID item);
  fail_if (negb (ly_TenantID value =s tenantID) || negb (ly_ID value =s it_CategoryID item) ||
           negb (ly_Enabled value) || negb (ly_Version value =? it_CategoryVersion item))
    ErrLocalReferenceInvalid;;
  Ok (set_category (ly_Name value) item).
Definition resolveContractCategories (dirs : Directories) (tenantID : string) (c : Contract)
    (external : bool) : res Contract :=
  if k_CategorySource (k_party c) =s CategoryLocal then
    items ← map_res (resolve_category dirs tenantID) (k_ServiceItems c);
    Ok (with_items items c)
  else
    fail_if (existsb (λ item, negb (empty_str (it_CategoryID item)) ||
                              negb (it_CategoryVersion item =? 0)) (k_ServiceItems c))
      ErrValidation;;
    (if external
     then validateExternalDetectionCategories (map it_Category (k_ServiceItems c))
            (dir_detection dirs)
     else Ok tt);;
    Ok c.

(** [localCatalogVisibility], for an actor who does not manage the catalog. *)
Definition catalog_visible (dirs : Directories) (actor : Principal) (o : ContractSourceOptions)
    : res unit :=
  fail_if (empty_str (p_TenantID actor) || empty_str (p_IdentityID actor)) ErrForbidden;;
  if so_Targets o then dir_organizations dirs else Ok tt.

Definition prepareContractReferences (dirs : Directories) (options : option ContractSourceOptions)
    (actor : Principal) (c : Contract) (external : bool) (permission : string) : res Contract :=
  match contractScope actor permission with
  | None => Err ErrForbidden
  | Some filter =>
      validateContractReferenceTypes c;;
      c ← (if uses_local c then
             validateLocalSourceOptions c options;;
             (match Scope actor "contract.catalog.manage", options with
              | None, Some o => catalog_visible dirs actor o
              | _, _ => Ok tt
              end);;
             Ok (with_party (set_policy IntegrationNotApplicable (k_party c)) c)
           else Ok c);
      c ← resolveCounterpartyReference dirs actor c external;
      resolveContractCategories dirs (sf_TenantID filter) c external
  end.

End Shape.

(** * contractdocument/document.go, application/contract_source.go: source files

    The admission of a file somebody uploads as the original of an external
    contract, and what the file gateway is told about it.  [ParseMediaType] of
    the package mime is the parameter [media_type]; the structure of DOCX and PDF
    files is checked by [Documents]. *)

Definition DOCXMediaType : string :=
  "application/vnd.openxmlformats-officedocument.wordprocessingml.document".
Definition PDFMediaType : string := "application/pdf".

Record ValidatedSource : Type := mkValidated {
  vs_Format : string; vs_Filename : string; vs_MediaType : string; vs_SHA256 : string;
  vs_Text : string
}.

Class MediaTypes := { media_type : string → res string }.

Section Sources.
Context `{GoUnicode} `{Sha256} `{Documents} `{MediaTypes}.

(** Carriage returns, line feeds and NUL are refused. *)
Definition control_byte (c : byte) : bool := (code c =? 0) || (code c =? 13) || (code c =? 10).
Definition forward_slashes (s : string) : string :=
  of_bytes (map (λ c, if code c =? 92 then slash else c) (bytes s)).

Definition source_type (name : string) (body : string) : res (string * string * string) :=
  let extension := ToLower (filepath_Ext name) in
  if extension =s ".pdf" then
    pdf_valid body;; Ok (FormatPDF, PDFMediaType, "")
  else if extension =s ".docx" then
    docx_valid body;;
    match PlainText body with
    | Ok text => fail_if (empty_str (TrimSpace text)) ErrOther;; Ok (FormatDOCX, DOCXMediaType, text)
    | Err _ => Err ErrOther
    end
  else Err ErrOther.

Definition ValidateExternalSource (filename mediaType body : string) : res ValidatedSource :=
  fail_if (existsb control_byte (bytes filename)) ErrOther;;
  let name := filepath_Base (forward_slashes (TrimSpace filename)) in
  fail_if ((name =s ".") || (255 <? rune_count name)) ErrOther;;
  declared ← (if empty_str mediaType then Ok "" else media_type mediaType);
  type ← source_type name body;
  let '(format, media, text) := type in
  fail_if (negb (empty_str declared) && negb (declared =s "application/octet-stream") &&
           negb (declared =s media)) ErrOther;;
  Ok (mkValidated format name media (sha256_hex body) text).

(** Every refusal of the file is a validation error of the use case. *)
Definition prepareExternalSource (pdfEnabled : bool) (c : Contract) : res Contract :=
  let d := k_document c in
  let name := if empty_str (k_SourceFilename d) then "external-contract.docx"
              else k_SourceFilename d in
  validated ← as_validation (ValidateExternalSource name (k_SourceMediaType d) (k_Document d));
  fail_if ((vs_Format validated =s FormatPDF) && negb pdfEnabled) ErrValidation;;
  fail_if (negb (empty_str (k_DocumentFormat d)) &&
           negb (k_DocumentFormat d =s vs_Format validated)) ErrValidation;;
  Ok (with_document
        (mkDocumentFields (vs_Text validated) (k_TemplateID d) (k_TemplateValues d) (k_Document d)
           (vs_Format validated) (vs_MediaType validated) (vs_Filename validated)
           (vs_SHA256 validated) (k_ExternalPaperNumber d) (k_SourceFileID d)
           (k_SourceFileStatus d) (k_ContentHash d)) c).

(** The purpose, the file name and the type of the gateway's copy. *)
Definition sourceGatewayMetadata (c : Contract) : string * string * string :=
  let d := k_document c in
  if k_DocumentFormat d =s FormatPDF then
    ("CONTRACT_EXTERNAL_PDF_SOURCE",
     if empty_str (k_SourceFilename d) then "external-contract.pdf" else k_SourceFilename d,
     PDFMediaType)
  else
    ("CONTRACT_EXTERNAL_SOURCE",
     if empty_str (TrimSpace (k_SourceFilename d)) then "external-contract.docx"
     else k_SourceFilename d, DOCXMediaType).

End Sources.
