(* ===== verification/Prepared.v ===== *)
(** * What the preparation of a contract guarantees

    The contract that leaves [normalizeContractShape], [prepareContractReferences]
    and [finalizeContractCommercials] (Drafting.v) is well formed, and they
    leave its owner, document, amount and origin alone. *)

From S2P Require Import Prelude GoStrings Decimal GoTime BusinessClock Status NumberRule.
From S2P Require Import PaymentTerm ProjectService ImportPolicy ApprovalRule Workflow Store.
From S2P Require Import Outbound Numbering Repository Changes Access Reports Drafting.

#[local] Open Scope string_scope.
#[local] Open Scope Z_scope.
#[local] Open Scope list_scope.

(** Tests of texts, besides [bool_hyps]. *)
Ltac text_hyps :=
  unfold empty_str in *;
  repeat (bool_hyps; match goal with
  | h : (_ =s _) = true |- _ => apply streq_true in h
  | h : (_ =s _) = false |- _ => apply streq_false in h
  | h : contains _ _ = true |- _ => apply contains_spec in h
  | h : contains _ _ = false |- _ => apply contains_false in h
  | h : _ && _ = false |- _ => apply andb_false_iff in h as [h|h]
  end).

Section Prepared.
Context `{GoUnicode}.

(** ** Well-formed contracts *)

Definition item_ok (item : ServiceItem) : Prop :=
  it_ServiceType item ≠ "" ∧ validSystems (it_Systems item) = true.
Definition items_ok (items : list ServiceItem) : Prop :=
  items ≠ [] ∧ (length items ≤ 20)%nat ∧ Forall item_ok items.

(** The counterparty comes from the local catalog, and then no other system
    sees the contract, or it is a customer of the CRM, or a template contract
    without a payment plan has none. *)
Definition party_ok (external : bool) (c : Contract) : Prop :=
  let p := k_party c in
  (uses_local c = true → k_IntegrationPolicy p = IntegrationNotApplicable) ∧
  (k_CounterpartySource p = CounterpartyLocal →
     k_LocalCounterpartyID p ≠ "" ∧ k_CounterpartyVersion p ≠ 0 ∧ k_CRMCustomerID p = 0 ∧
     TrimSpace (k_CustomerName p) ≠ "") ∧
  (k_CounterpartySource p ≠ CounterpartyLocal →
     k_LocalCounterpartyID p = "" ∧
     ((k_CRMCustomerID p ≠ 0 ∧ k_CustomerName p ≠ "") ∨
      (external = false ∧ k_CRMCustomerID p = 0 ∧ k_OpportunityID p = "" ∧ terms_or_nil c = []))).

Definition commercials_ok (c : Contract) : Prop :=
  k_Systems c = flattenedSystems (k_ServiceItems c) ∧
  Some (k_ServiceType c) = it_ServiceType <$> head (k_ServiceItems c) ∧
  slen (k_Currency c) = 3 ∧ upper_letters (k_Currency c) = true ∧
  (∀ from to, k_StartDate c = Some from → k_EndDate c = Some to → from ≤ to) ∧
  ∃ terms, k_PaymentTerms c = Some terms ∧
    (in_int64 (k_AmountMinor c) → terms ≠ [] →
       plan_cents terms = k_AmountMinor c ∧
       NormalizePaymentTerms terms (k_AmountMinor c) (k_Currency c) = Ok terms).

Definition shape_ok (external : bool) (c : Contract) : Prop :=
  k_Title c ≠ "" ∧ k_Type c ≠ "" ∧ items_ok (k_ServiceItems c) ∧
  (k_Content (k_document c) ≠ "" ∨ k_Document (k_document c) ≠ "") ∧
  (if external then 0 < k_AmountMinor c ∧ k_Type c ∈ external_types ∧ k_TemplateID (k_document c) = ""
   else 0 ≤ k_AmountMinor c ∧ k_TemplateID (k_document c) ≠ "").

Definition contract_ok (external : bool) (c : Contract) : Prop :=
  shape_ok external c ∧ party_ok external c ∧ commercials_ok c.

(** ** What the steps leave alone *)

Definition keeps (c c' : Contract) : Prop :=
  k_ID c' = k_ID c ∧ k_TenantID c' = k_TenantID c ∧ k_owner c' = k_owner c ∧
  k_document c' = k_document c ∧ k_AmountMinor c' = k_AmountMinor c ∧
  k_origin c' = k_origin c ∧ k_row c' = k_row c.
#[export] Instance keeps_trans : Transitive keeps.
Proof. unfold keeps. intros x y z. intuition congruence. Qed.
#[export] Instance keeps_refl : Reflexive keeps.
Proof. by intros x. Qed.

Lemma keeps_shape c external c' : normalizeContractShape c external = Ok c' → keeps c c'.
Proof.
  unfold normalizeContractShape. intros E. destruct external; inv_ok E; done.
Qed.
Lemma keeps_counterparty dirs actor c external c' :
  resolveCounterpartyReference dirs actor c external = Ok c' → keeps c c'.
Proof.
  unfold resolveCounterpartyReference. intros E. repeat case_match; inv_ok E; done.
Qed.
Lemma keeps_categories dirs t c external c' :
  resolveContractCategories dirs t c external = Ok c' → keeps c c'.
Proof.
  unfold resolveContractCategories. intros E. destruct (_ =s _); inv_ok E; done.
Qed.
Lemma keeps_commercials c c' : finalizeContractCommercials c = Ok c' → keeps c c'.
Proof.
  unfold finalizeContractCommercials. intros E. destruct (k_ServiceItems c); [done|].
  inv_ok E. done.
Qed.

Lemma keeps_references dirs options actor c external permission c' :
  prepareContractReferences dirs options actor c external permission = Ok c' → keeps c c'.
Proof.
  unfold prepareContractReferences. destruct (contractScope _ _); [|done]. intros E. inv_ok E.
  match goal with h : resolveCounterpartyReference _ _ _ _ = _ |- _ =>
    apply keeps_counterparty in h as Hc end.
  apply keeps_categories in E. etrans; [|exact E]. etrans; [|exact Hc].
  match goal with h : (if uses_local c then _ else _) = _ |- _ => rename h into Hl end.
  destruct (uses_local c); inv_ok Hl; done.
Qed.

(** ** Each step's part *)

Lemma valid_item_ok item : validServiceItem item = true → item_ok item.
Proof.
  unfold validServiceItem, item_ok, empty_str. rewrite !andb_true_iff, negb_true_iff, streq_false.
  tauto.
Qed.
Lemma valid_external_item_ok item : validExternalServiceItem item = true → item_ok item.
Proof.
  unfold validExternalServiceItem, item_ok, empty_str.
  rewrite !andb_true_iff, !negb_true_iff, !streq_false. tauto.
Qed.
Lemma some_items_ok (valid : ServiceItem → bool) items :
  (∀ i, valid i = true → item_ok i) → some_items items && forallb valid items = true →
  items_ok items.
Proof.
  intros Hv. unfold some_items. rewrite !andb_true_iff, negb_true_iff, is_empty_false, Nat.leb_le.
  intros [[Hn Hl] Hf]. split_and!; [done..|]. apply Forall_forall. intros i Hi. apply Hv.
  rewrite forallb_forall in Hf. by apply Hf, list_elem_of_In.
Qed.

Lemma shape_shaped c external c' :
  normalizeContractShape c external = Ok c' → shape_ok external c'.
Proof.
  unfold normalizeContractShape. set (w := with_shape _ _ _ _ c). generalize w. clear w.
  intros w E. apply bind_ok in E as (u & _ & E).
  destruct external; inv_ok E; bool_hyps;
    repeat match goal with h : validServiceItems _ = true |- _ =>
             apply (some_items_ok _ _ valid_item_ok) in h
           | h : validExternalServiceItems _ = true |- _ =>
             apply (some_items_ok _ _ valid_external_item_ok) in h end;
    text_hyps; unfold shape_ok; split_and!; solve [done | tauto | lia].
Qed.

(** The fields of the counterparty that decide its source. *)
Lemma types_ok c :
  validateContractReferenceTypes c = Ok tt →
  let p := k_party c in
  (k_CounterpartySource p = CounterpartyLocal → k_CRMCustomerID p = 0) ∧
  (k_CounterpartySource p ≠ CounterpartyLocal → k_LocalCounterpartyID p = "").
Proof.
  unfold validateContractReferenceTypes. intros E. inv_ok E.
  destruct (k_CounterpartySource (k_party c) =s CounterpartyLocal) eqn:El.
  - apply streq_true in El. cbn [negb andb] in *. bool_hyps. split; [by intros _|done].
  - apply streq_false in El. cbn [negb andb] in *. bool_hyps. split; [done|]. intros _.
    by apply streq_true.
Qed.

Lemma counterparty_resolved dirs actor c external c' :
  resolveCounterpartyReference dirs actor c external = Ok c' →
  validateContractReferenceTypes c = Ok tt →
  (uses_local c = true → k_IntegrationPolicy (k_party c) = IntegrationNotApplicable) →
  party_ok external c' ∧ ∃ p, c' = with_party p c.
Proof.
  intros E Ht Hu. apply types_ok in Ht as [Hl Hc].
  assert (Hself : c = with_party (k_party c) c) by by destruct c.
  unfold resolveCounterpartyReference in E.
  destruct (k_CounterpartySource (k_party c) =s CounterpartyLocal) eqn:El.
  - apply streq_true in El. inv_ok E. text_hyps. split; [|by eexists].
    split_and!; cbn; [exact Hu| |by rewrite El].
    intros _. split_and!; auto.
  - apply streq_false in El. destruct (_ && is_empty _) eqn:Eb.
    + inv_ok E. bool_hyps. text_hyps. split; [|by eexists].
      split_and!; [done..|]. intros _. split; [auto|]. right.
      match goal with h : is_empty _ = true |- _ => apply is_empty_true in h end. done.
    + inv_ok E. split; [|by eexists]. split_and!; cbn; [exact Hu|done|].
      intros _. split; [auto|]. left. split; [text_hyps; done|].
      match goal with h : validateExternalCRMReference _ _ _ = Ok _ |- _ => rename h into Hr end.
      unfold validateExternalCRMReference in Hr.
      destruct (_ <$> dir_crm dirs) as [[result|e]|]; [|by destruct e|done].
      apply bind_ok in Hr as (u & Hf & Hr). apply fail_if_ok in Hf. bool_hyps.
      assert (v1 = result) as -> by (repeat case_match; inv_ok Hr; done).
      by apply streq_false.
Qed.

Lemma set_category_ok name item : item_ok item → item_ok (set_category name item).
Proof. done. Qed.
Lemma resolved_items dirs t items items' :
  map_res (resolve_category dirs t) items = Ok items' → items_ok items → items_ok items'.
Proof.
  intros E (Hn & Hl & Hf).
  assert (length items' = length items ∧ Forall item_ok items') as [El Hf'].
  { clear Hn Hl. revert items' E. induction Hf as [|i l Hi _ IH]; intros items' E; cbn in E.
    - by inv_ok E.
    - inv_ok E. destruct (IH _ ltac:(eassumption)) as [Hlen Hfl].
      match goal with h : resolve_category _ _ _ = Ok _ |- _ => rename h into Hr end.
      unfold resolve_category in Hr. inv_ok Hr. cbn. split; [by f_equal|by constructor]. }
  split_and!; [|lia|done]. by destruct items, items'.
Qed.

Lemma categories_resolved dirs t c external c' :
  resolveContractCategories dirs t c external = Ok c' →
  ∃ items, c' = with_items items c ∧ (items_ok (k_ServiceItems c) → items_ok items).
Proof.
  unfold resolveContractCategories. intros E. destruct (_ =s CategoryLocal).
  - inv_ok E. eexists. split; [done|]. by apply (resolved_items dirs t).
  - exists (k_ServiceItems c). assert (c' = c) as -> by (destruct external; by inv_ok E).
    split; [by destruct c|done].
Qed.

(** The contract resolved against the directories. *)
Lemma references_ok dirs options actor c external permission c' :
  prepareContractReferences dirs options actor c external permission = Ok c' →
  shape_ok external c →
  shape_ok external c' ∧ party_ok external c' ∧ k_PaymentTerms c' = k_PaymentTerms c.
Proof.
  unfold prepareContractReferences. destruct (contractScope _ _) as [f|]; [|done]. intros E Hs.
  apply bind_ok in E as ([] & Ht & E). apply bind_ok in E as (c1 & H1' & E).
  apply bind_ok in E as (c2 & H2' & E).
  assert (∃ policy, c1 = with_party (set_policy policy (k_party c)) c ∧
            (uses_local c1 = true → policy = IntegrationNotApplicable)) as (policy & -> & Hu).
  { destruct (uses_local c) eqn:Eu; inv_ok H1'; [by eexists|].
    exists (k_IntegrationPolicy (k_party c1)). split; [by destruct c1 as [?????????[]]|].
    by rewrite Eu. }
  apply counterparty_resolved in H2' as (Hp & p & ->); [|exact Ht|exact Hu].
  apply categories_resolved in E as (items & -> & Hi).
  destruct Hs as (? & ? & Hit & ? & ?). split; [|by split].
  unfold shape_ok. cbn. auto.
Qed.

(** A prepared contract is well formed. *)
Lemma commercials_done c c' external :
  finalizeContractCommercials c = Ok c' → shape_ok external c → party_ok external c →
  contract_ok external c'.
Proof.
  unfold finalizeContractCommercials. intros E Hs Hp.
  destruct (k_ServiceItems c) as [|item rest] eqn:Ei; [done|].
  apply bind_ok in E as (u1 & Hd & E). apply fail_if_ok in Hd.
  apply bind_ok in E as (u2 & Hl & E). apply bind_ok in E as (u3 & Hu & E).
  apply fail_if_ok in Hl, Hu. apply bind_ok in E as (terms & Ht & E). injection E as <-.
  apply as_validation_ok in Ht. bool_hyps. split; [done|]. split.
  - destruct Hp as (Hp1 & Hp2 & Hp3). split_and!; [done..|]. cbn. intros Hn.
    destruct (Hp3 Hn) as [? [?|(? & ? & ? & Hnil)]]; [by auto|]. split; [done|]. right.
    rewrite Hnil in Ht. unfold NormalizePaymentTerms in Ht. cbn in Ht. injection Ht as <-. done.
  - set (currency := ToUpper _) in *. unfold commercials_ok. cbn. rewrite Ei.
    split_and!; [done..| |].
    + intros from to Ef Et. rewrite Ef, Et in Hd. by apply Z.ltb_ge in Hd.
    + exists terms. split; [done|]. intros Ha Hne.
      assert (terms_or_nil c ≠ []) as Hin.
      { intros Hnil. rewrite Hnil in Ht. unfold NormalizePaymentTerms in Ht. cbn in Ht.
        injection Ht as <-. done. }
      destruct (plan_stable _ _ _ _ Ha Hin Ht) as (_ & _ & ? & ? & _). done.
Qed.

Lemma contract_prepared dirs options actor c c1 c2 c3 external permission :
  normalizeContractShape c external = Ok c1 →
  prepareContractReferences dirs options actor c1 external permission = Ok c2 →
  finalizeContractCommercials c2 = Ok c3 →
  contract_ok external c3 ∧ keeps c c3.
Proof.
  intros E1 E2 E3. split.
  - apply shape_shaped in E1. apply references_ok in E2 as (Hs & Hp & _); [|done].
    by eapply commercials_done.
  - apply keeps_shape in E1. apply keeps_references in E2. apply keeps_commercials in E3.
    by rewrite E1, E2.
Qed.

End Prepared.
