(* ===== verification/LedgerFlow.v ===== *)
(** * What the ledger's reads return

    The payment plans a list of contracts gets, the contract a scoped read
    returns, and the pages of the ledger. *)

From stdpp Require Import sorting.
From S2P Require Import Prelude GoStrings Decimal GoTime BusinessClock Status NumberRule.
From S2P Require Import PaymentTerm ProjectService ImportPolicy ApprovalRule Workflow Store.
From S2P Require Import Outbound Numbering Repository Scenario Changes Refinement Integrity Access.
From S2P Require Import Like Ledger.

#[local] Open Scope string_scope.
#[local] Open Scope Z_scope.
#[local] Open Scope list_scope.

(** ** Payment plans *)

Lemma position_none id k contracts :
  position_from id k contracts = None ↔ id ∉ map k_ID contracts.
Proof.
  revert k. induction contracts as [|c cs IH]; intros k; cbn [position_from map]; [set_solver|].
  destruct (position_from id (S k) cs) eqn:E.
  - assert (¬ (id ∉ map k_ID cs)) as Hin by (rewrite <- (IH (S k)), E; done). set_solver.
  - apply IH in E. destruct (k_ID c =s id) eqn:Ei.
    + apply streq_true in Ei. set_solver.
    + apply streq_false in Ei. set_solver.
Qed.

Lemma position_at id k contracts i c :
  NoDup (map k_ID contracts) → contracts !! i = Some c → k_ID c = id →
  position_from id k contracts = Some (k + i)%nat.
Proof.
  revert k i. induction contracts as [|x cs IH]; intros k i Hn Hi Hc; [done|].
  apply NoDup_cons in Hn as [Hx Hn]. cbn [position_from].
  destruct i as [|i]; simpl in Hi.
  - injection Hi as ->. rewrite (proj2 (position_none _ _ _)) by by subst.
    rewrite Hc, streq_refl. f_equal. lia.
  - rewrite (IH (S k) i) by done. f_equal. lia.
Qed.

Definition term_of (r : paymentTermRow) : PaymentTerm := term_from_record (pr_term r).

(** The plans so far, extended by one row. *)
Lemma append_term_map f row contracts :
  NoDup (map k_ID contracts) →
  append_term (map (λ c, set_terms (Some (f (k_ID c))) c) contracts) row =
  map (λ c, set_terms (Some (f (k_ID c) ++
         (if decide (pr_ContractID row = k_ID c) then [term_of row] else []))) c) contracts.
Proof.
  intros Hn. unfold append_term.
  assert (map k_ID (map (λ c, set_terms (Some (f (k_ID c))) c) contracts) = map k_ID contracts) as Hids.
  { rewrite map_map. by apply map_ext. }
  destruct (position_from _ _ _) as [i|] eqn:E.
  - assert (¬ (pr_ContractID row ∉ map k_ID contracts)) as Hin.
    { intros Hout. rewrite <- Hids in Hout. apply (position_none _ 0%nat) in Hout. by rewrite Hout in E. }
    apply dec_stable, list_elem_of_lookup in Hin as (j & Hj).
    rewrite list_lookup_fmap in Hj. destruct (contracts !! j) as [c|] eqn:Ec; [|done].
    injection Hj as Hj.
    rewrite (position_at _ 0 _ j (set_terms (Some (f (k_ID c))) c)) in E;
      [|by rewrite Hids|by rewrite list_lookup_fmap, Ec|done].
    injection E as <-. apply list_eq. intros k.
    rewrite list_lookup_alter, !list_lookup_fmap. case_decide as Hjk.
    + subst k. rewrite Ec. cbn. rewrite decide_True by done. done.
    + destruct (contracts !! k) as [c'|] eqn:Ec'; [|done]. cbn. f_equal.
      rewrite decide_False, app_nil_r; [done|]. intros Heq. apply Hjk.
      eapply NoDup_lookup; [exact Hn|by rewrite list_lookup_fmap, Ec|].
      rewrite list_lookup_fmap, Ec'. cbn. congruence.
  - apply position_none in E. rewrite Hids in E. apply map_ext_in. intros c Hc.
    rewrite decide_False, app_nil_r; [done|]. intros Heq. apply E. rewrite Heq.
    by apply list_elem_of_fmap_2, list_elem_of_In.
Qed.

Lemma fold_append rows f contracts :
  NoDup (map k_ID contracts) →
  fold_left append_term rows (map (λ c, set_terms (Some (f (k_ID c))) c) contracts) =
  map (λ c, set_terms (Some (f (k_ID c) ++
         map term_of (filter (λ r, pr_ContractID r = k_ID c) rows))) c) contracts.
Proof.
  intros Hn. revert f. induction rows as [|row rows IH]; intros f; cbn [fold_left].
  { apply map_ext. intros c. by rewrite app_nil_r. }
  rewrite append_term_map by done.
  pose proof (IH (λ id, f id ++ (if decide (pr_ContractID row = id) then [term_of row] else [])))
    as E.
  cbv beta in E. rewrite E. apply map_ext. intros c. rewrite <- app_assoc. do 3 f_equal. rewrite filter_cons. by case_decide.
Qed.

Section Attach.
Context `{Oracle}.

(** Every contract of the list gets its own rows of the plan, and nothing else
    about it changes. *)
Lemma attach_runs tenantID contracts d l d' :
  NoDup (map k_ID contracts) → runs (attachPaymentTerms tenantID contracts) d l d' →
  d' = d ∧ l = map (plan_of (plan_rows tenantID (map k_ID contracts) d)) contracts.
Proof.
  intros Hn Hr. destruct contracts as [|c cs]; [by apply runs_ret in Hr as [-> ->]|].
  unfold attachPaymentTerms in Hr. apply runs_bind in Hr as (rows & d1 & Hq & Hr).
  apply runs_query in Hq as [-> ->]. apply runs_ret in Hr as [-> ->]. split; [done|].
  by rewrite (fold_append _ (λ _, [])).
Qed.

Definition no_faults : Prop := ∀ t, o_fault t = false.

Lemma attach_eval tenantID contracts t d :
  no_faults → NoDup (map k_ID contracts) →
  ∃ t', attachPaymentTerms tenantID contracts (t, d) =
        (Ok (map (plan_of (plan_rows tenantID (map k_ID contracts) d)) contracts), (t', d)).
Proof.
  intros Hf Hn. destruct contracts as [|c cs]; [by exists t|].
  exists (S t). unfold attachPaymentTerms, mbind, Tx_bind, query. rewrite Hf.
  by rewrite (fold_append _ (λ _, [])).
Qed.

(** ** One contract *)

(** What a scoped read returns: the contract of a row inside the scope. *)
Definition loaded (d : DB) (filter : ScopeFilter) (id : string) (c : Contract) : Prop :=
  ∃ row terms, db_contracts d !! id = Some row ∧ applyContractScope filter row = true ∧
    c = set_terms (Some terms) (contractFromRecord row).

Lemma runs_first {A} (m : Tx A) d a : (m (0%nat, d)).1 = Ok a → ∃ d', runs m d a d'.
Proof.
  intros E. destruct (m (0%nat, d)) as [r [t' d']] eqn:Er. cbn in E. subst r.
  exists d'. by exists 0%nat, t'.
Qed.

Lemma GetContractScoped_loaded filter id d c :
  (GetContractScoped filter id (0%nat, d)).1 = Ok c → loaded d filter id c.
Proof.
  intros (d' & Hr)%runs_first.
  unfold GetContractScoped in Hr. apply runs_bind in Hr as (row & d1 & Hq & Hr).
  apply runs_take_row in Hq. apply runs_query in Hq as [Hq ->].
  destruct (db_contracts d !! id) as [r0|] eqn:Ec; [|done].
  destruct (applyContractScope filter r0) eqn:Es; [|done]. injection Hq as ->.
  apply runs_bind in Hr as (items & d1 & Ha & Hr).
  apply attach_runs in Ha as [-> ->]; [|by repeat constructor; set_solver].
  cbn in Hr. apply runs_ret in Hr as [-> ->].
  eexists r0, _. split_and!; [done..|]. reflexivity.
Qed.

End Attach.

(** ** Pages *)

Lemma window_all {A} (l : list A) L n :
  0 < L →
  concat (map (λ k, window (Z.of_nat k * L) L l) (seq 0 n)) = take (n * Z.to_nat L) l.
Proof.
  intros HL. induction n as [|n IH]; [done|].
  rewrite seq_S, map_app, concat_app, IH. cbn [map concat]. rewrite app_nil_r, Nat.add_0_l.
  unfold window. rewrite Z2Nat.inj_mul, Nat2Z.id by lia.
  rewrite Nat.mul_succ_l. symmetry. rewrite <- (take_drop (n * Z.to_nat L) (take _ l)) at 1.
  rewrite take_take, Nat.min_l by lia. f_equal. rewrite skipn_firstn_comm. f_equal. lia.
Qed.

Definition pages_of (total L : Z) : nat := Z.to_nat ((total + L - 1) / L).

Lemma pages_cover {A} (l : list A) L :
  0 < L → (length l ≤ pages_of (Z.of_nat (length l)) L * Z.to_nat L)%nat.
Proof.
  intros HL. unfold pages_of.
  pose proof (Z.div_mod (Z.of_nat (length l) + L - 1) L ltac:(lia)).
  pose proof (Z.mod_pos_bound (Z.of_nat (length l) + L - 1) L HL).
  assert (0 ≤ (Z.of_nat (length l) + L - 1) / L) by (apply Z.div_pos; lia).
  nia.
Qed.

Section Ledger.
Context `{CharCollation} `{Collation} `{TzDatabase} `{GoUnicode}.

#[local] Instance ledger_total : Total ledger_order.
Proof.
  intros a b. unfold ledger_order. destruct (Z.lt_total (c_UpdatedAt a) (c_UpdatedAt b)) as [?|[E|?]].
  - right. by left.
  - destruct (String.leb_total (c_ID b) (c_ID a)); [left|right]; right; done.
  - left. by left.
Qed.

Lemma contract_table_spec d r :
  keyed (core d) → r ∈ contract_table d ↔ db_contracts d !! c_ID r = Some r.
Proof.
  intros Hk. unfold contract_table. rewrite list_elem_of_fmap. split.
  - intros ([i r'] & -> & Hi%elem_of_map_to_list). cbn. by rewrite (Hk _ _ Hi).
  - intros Hr. exists (c_ID r, r). split; [done|]. by apply elem_of_map_to_list.
Qed.
Lemma contract_table_ids d : keyed (core d) → NoDup (map c_ID (contract_table d)).
Proof.
  intros Hk. unfold contract_table. rewrite <- list_fmap_compose.
  rewrite (list_fmap_ext _ fst (map_to_list (db_contracts d))); [apply NoDup_fst_map_to_list|].
  intros i [j r] Hj. apply list_elem_of_lookup_2, elem_of_map_to_list in Hj. by rewrite <- (Hk _ _ Hj).
Qed.

Lemma sorted_rows_perm order `{!RelDecision order} where_ d :
  sorted_rows order where_ d ≡ₚ filter (λ r, where_ r = true) (contract_table d).
Proof. apply merge_sort_Permutation. Qed.
Lemma sorted_rows_length order `{!RelDecision order} where_ d :
  Z.of_nat (length (sorted_rows order where_ d)) = count_rows where_ d.
Proof. unfold count_rows. by rewrite sorted_rows_perm. Qed.
Lemma sorted_rows_spec order `{!RelDecision order} where_ d r :
  keyed (core d) →
  r ∈ sorted_rows order where_ d ↔ db_contracts d !! c_ID r = Some r ∧ where_ r = true.
Proof.
  intros Hk. rewrite sorted_rows_perm, list_elem_of_filter, contract_table_spec by done. tauto.
Qed.
Lemma sorted_rows_ids order `{!RelDecision order} where_ d :
  keyed (core d) → NoDup (map c_ID (sorted_rows order where_ d)).
Proof.
  intros Hk. rewrite (fmap_Permutation _ _ _ (sorted_rows_perm _ _ _)).
  eapply sublist_NoDup; [by apply contract_table_ids|apply fmap_sublist, sublist_filter].
Qed.

Lemma ledger_ids rows : map k_ID (ledger_contracts rows) = map c_ID rows.
Proof. unfold ledger_contracts. by rewrite map_map. Qed.

Lemma window_ids {A B} (f : A → B) off L l : map f (window off L l) = window off L (map f l).
Proof. unfold window. by rewrite <- firstn_map, <- skipn_map. Qed.

Lemma window_sublist {A} off L (l : list A) : window off L l `sublist_of` l.
Proof. unfold window. etrans; [apply sublist_take|apply sublist_drop]. Qed.

(** The plan of a contract: its rows, by installment. *)
Definition planned (d : DB) (tenantID : string) (c : Contract) : Prop :=
  ∃ rows, k_PaymentTerms c = Some (map term_of rows) ∧
    rows ≡ₚ filter (λ r, pr_TenantID r = tenantID ∧ pr_ContractID r = k_ID c) (db_payment d) ∧
    StronglySorted (λ a b, tr_InstallmentNo (pr_term a) ≤ tr_InstallmentNo (pr_term b)) rows.

#[local] Instance installment_total : Total by_contract_installment.
Proof.
  intros a b. unfold by_contract_installment.
  destruct (String.ltb (pr_ContractID a) (pr_ContractID b)) eqn:E1; [by left; left|].
  destruct (String.ltb (pr_ContractID b) (pr_ContractID a)) eqn:E2; [by right; left|].
  assert (pr_ContractID a = pr_ContractID b) as E.
  { revert E1 E2. unfold String.ltb. rewrite (String.compare_antisym (pr_ContractID a)).
    destruct (String.compare _ _) eqn:E; try done. intros _ _. by apply String.compare_eq_iff in E. }
  destruct (Z.le_ge_cases (tr_InstallmentNo (pr_term a)) (tr_InstallmentNo (pr_term b)));
    [left|right]; right; by split.
Qed.
#[local] Instance installment_trans : Transitive by_contract_installment.
Proof.
  intros a b c [H1'|[E1 L1]] [H2'|[E2 L2]]; unfold by_contract_installment.
  - left. by eapply ltb_trans.
  - left. by rewrite <- E2.
  - left. by rewrite E1.
  - right. split; [congruence|lia].
Qed.

Lemma planned_intro d tenantID ids c :
  k_ID c ∈ ids → planned d tenantID (plan_of (plan_rows tenantID ids d) c).
Proof.
  intros Hin. eexists. split; [reflexivity|]. split.
  - unfold plan_rows. rewrite merge_sort_Permutation, list_filter_filter. cbn [k_ID plan_of set_terms].
    erewrite (list_filter_iff _ (λ r, pr_TenantID r = tenantID ∧ pr_ContractID r = k_ID c));
      [reflexivity|].
    intros r. rewrite andb_true_iff, streq_true, contains_spec. split; [tauto|].
    intros [? E]. rewrite E. tauto.
  - pose proof (StronglySorted_merge_sort by_contract_installment
      (filter (λ r, (pr_TenantID r =s tenantID) && contains ids (pr_ContractID r) = true)
         (db_payment d))) as Hs.
    fold (plan_rows tenantID ids d) in Hs. revert Hs. generalize (plan_rows tenantID ids d).
    cbn [k_ID plan_of set_terms]. induction l as [|r l IH]; intros Hs; [constructor|].
    apply StronglySorted_inv in Hs as [Hs Hr]. rewrite filter_cons. case_decide as Hd; [|by apply IH].
    constructor; [by apply IH|]. rewrite Forall_forall in Hr. apply Forall_forall.
    intros x [Hx Hxl]%list_elem_of_filter. destruct (Hr x Hxl) as [Hlt|[_ Hle]]; [|done].
    rewrite Hd, Hx in Hlt. by rewrite ltb_irrefl in Hlt.
Qed.

Definition at_offset (offset : Z) (q : ContractListQuery) : ContractListQuery :=
  mkQuery (cq_Keyword q) (cq_Status q) (cq_Type q) (cq_Expired q) offset (cq_Limit q).

(** The clock reads a time of the day [today]. *)
Definition on_day (today : Time) (o : Oracle) : Prop := ∀ t, CalendarDay (@o_now o t) = today.

Lemma ledger_where_day filter q today r :
  ExpiredFilter q = None → ledger_where filter zero_time q r = ledger_where filter today q r.
Proof. intros E. unfold ledger_where, contractLedgerFilters. by rewrite E. Qed.

(** The day a query reads, and that it does not matter when it reads none. *)
Lemma today_eval (o : Oracle) today q t d :
  on_day today o →
  ∃ t' day, @ledger_today o _ _ q (t, d) = (Ok day, (t', d)) ∧
    ∀ filter, ledger_rows filter day q d = ledger_rows filter today q d ∧
      count_rows (ledger_where filter day q) d = count_rows (ledger_where filter today q) d.
Proof.
  intros Ho. unfold ledger_today. destruct (ExpiredFilter q) eqn:E.
  - exists (S t), today. unfold mbind, Tx_bind. cbn. by rewrite Ho.
  - exists t, zero_time. split; [done|]. intros filter.
    assert (filter_eq : base.filter (λ r, ledger_where filter zero_time q r = true) (contract_table d)
      = base.filter (λ r, ledger_where filter today q r = true) (contract_table d)).
    { apply list_filter_iff. intros r. by rewrite (ledger_where_day _ _ today). }
    unfold ledger_rows, sorted_rows, count_rows. by rewrite filter_eq.
Qed.

Lemma bind_eval {A B} (m : Tx A) (f : A → Tx B) s a s' :
  m s = (Ok a, s') → (m ≫= f) s = f a s'.
Proof. intros E. unfold mbind, Tx_bind. by rewrite E. Qed.
Lemma query_eval {A} (o : Oracle) (f : DB → A) t d :
  @no_faults o → @query o A f (t, d) = (Ok (f d), (S t, d)).
Proof. intros Hf. unfold query. by rewrite Hf. Qed.

(** One page, when no statement fails. *)
Lemma page_eval (o : Oracle) today filter q offset d :
  @no_faults o → on_day today o → keyed (core d) → 0 < cq_Limit q ≤ 200 → 0 ≤ offset →
  let rows := ledger_rows filter today q d in
  let total := Z.of_nat (length rows) in
  let ids := map c_ID (window offset (cq_Limit q) rows) in
  offset ≤ total →
  (@ListContractsPageScoped o _ _ _ _ filter (at_offset offset q) (0%nat, d)).1 =
  Ok (mkPage (map (plan_of (plan_rows (sf_TenantID filter) ids d))
                (ledger_contracts (window offset (cq_Limit q) rows)))
        total (Z.quot offset (cq_Limit q) + 1) (cq_Limit q)).
Proof.
  intros Hf Ho Hk HL Hoff rows total ids Htotal. unfold ListContractsPageScoped.
  assert (contractLedgerPagingDefaults (at_offset offset q) = at_offset offset q) as Eq.
  { unfold contractLedgerPagingDefaults. cbn. rewrite (proj2 (Z.ltb_ge offset 0)) by lia.
    rewrite (proj2 (Z.leb_gt (cq_Limit q) 0)), (proj2 (Z.ltb_ge 200 (cq_Limit q))) by lia. done. }
  rewrite Eq.
  destruct (today_eval o today (at_offset offset q) 0 d Ho) as (t1 & day & E1 & Hday).
  rewrite (bind_eval _ _ _ _ _ E1), (bind_eval _ _ _ _ _ (query_eval _ _ _ _ Hf)).
  rewrite (proj2 (Hday filter)). unfold listContractsPageAfterCount. rewrite Eq.
  assert (count_rows (ledger_where filter today (at_offset offset q)) d = total) as ->.
  { unfold total, rows, ledger_rows. by rewrite sorted_rows_length. }
  assert (ClampContractListOffset (cq_Offset (at_offset offset q)) total = offset) as ->.
  { unfold ClampContractListOffset. cbn [cq_Offset at_offset].
    rewrite (proj2 (Z.ltb_ge offset 0)) by lia. rewrite (proj2 (Z.leb_le offset total)) by lia.
    by rewrite orb_true_r. }
  destruct (today_eval o today (at_offset offset q) (S t1) d Ho) as (t2 & day' & E2 & Hday').
  rewrite (bind_eval _ _ _ _ _ E2), (bind_eval _ _ _ _ _ (query_eval _ _ _ _ Hf)).
  rewrite (proj1 (Hday' filter)).
  change (ledger_rows filter today (at_offset offset q) d) with rows. cbn [cq_Limit at_offset].
  destruct (@attach_eval o (sf_TenantID filter) (ledger_contracts (window offset (cq_Limit q) rows))
              (S t2) d Hf) as (t3 & E3).
  { rewrite ledger_ids, window_ids. eapply sublist_NoDup; [by apply (sorted_rows_ids ledger_order)|].
    apply window_sublist. }
  rewrite (bind_eval _ _ _ _ _ E3), ledger_ids. reflexivity.
Qed.

#[local] Instance ledger_order_trans : Transitive ledger_order.
Proof.
  intros a b c [?|[? ?]] [?|[? ?]]; unfold ledger_order; [left; lia..|].
  right. split; [congruence|by eapply leb_trans].
Qed.

Lemma page_start total L k :
  0 < L → (k < pages_of total L)%nat → Z.of_nat k * L ≤ total - 1.
Proof.
  unfold pages_of. intros HL Hk. pose proof (Z.mul_div_le (total + L - 1) L HL).
  assert (Z.of_nat k + 1 ≤ (total + L - 1) / L) by lia. nia.
Qed.

(** C24: The pages of the contract ledger, read one after the other while the
    tables and the day stay the same, show every contract of the reader's scope
    that matches the query exactly once, latest first: page [k] is numbered
    [k + 1], carries the exact total, and its contracts come with their whole
    payment plans by installment. *)
Theorem ledger_pages (oracle : nat → Oracle) today filter q d :
  (∀ k, @no_faults (oracle k) ∧ on_day today (oracle k)) → keyed (core d) →
  0 < cq_Limit q ≤ 200 →
  let rows := ledger_rows filter today q d in
  let total := Z.of_nat (length rows) in
  ∃ pages,
    length pages = pages_of total (cq_Limit q) ∧
    (∀ k page, pages !! k = Some page →
       (@ListContractsPageScoped (oracle k) _ _ _ _ filter
          (at_offset (Z.of_nat k * cq_Limit q) q) (0%nat, d)).1 = Ok page ∧
       pg_Total page = total ∧ pg_Page page = Z.of_nat k + 1) ∧
    map (set_terms None) (concat (map pg_Items pages)) = ledger_contracts rows ∧
    Forall (planned d (sf_TenantID filter)) (concat (map pg_Items pages)) ∧
    StronglySorted ledger_order rows ∧ NoDup (map c_ID rows) ∧
    (∀ r, r ∈ rows ↔ db_contracts d !! c_ID r = Some r ∧
                     applyContractScope filter r = true ∧
                     contractLedgerFilters today q r = true).
Proof.
  intros Ho Hk HL rows total. set (L := cq_Limit q) in *.
  set (win k := window (Z.of_nat k * L) L rows).
  set (items l := map (plan_of (plan_rows (sf_TenantID filter) (map c_ID l) d)) (ledger_contracts l)).
  set (page k := mkPage (items (win k)) total (Z.of_nat k + 1) L).
  exists (map page (seq 0 (pages_of total L))).
  rewrite length_map, length_seq. split; [done|]. split.
  { intros k p Hp. apply list_lookup_fmap_Some in Hp as (k' & -> & Hs).
    apply lookup_seq in Hs as [-> Hlt]. split; [|done]. cbn [Nat.add].
    destruct (Ho k) as [Hf Hd].
    pose proof (page_start total L k ltac:(lia) Hlt).
    assert (0 ≤ Z.of_nat k * L) by nia.
    rewrite (page_eval (oracle k) today) by (try done; unfold L, total, rows in *; lia). fold rows total L (win k).
    by rewrite Z.quot_mul by lia. }
  assert (concat (map win (seq 0 (pages_of total L))) = rows) as Hwin.
  { unfold win. rewrite window_all by lia. apply take_ge, pages_cover. lia. }
  assert (Hitems : map pg_Items (map page (seq 0 (pages_of total L))) =
                   map items (map win (seq 0 (pages_of total L)))) by by rewrite !map_map.
  rewrite Hitems. split_and!.
  - transitivity (ledger_contracts (concat (map win (seq 0 (pages_of total L)))));
      [|by rewrite Hwin].
    unfold ledger_contracts. rewrite !concat_map, !map_map. f_equal. apply map_ext. intros k.
    unfold items, ledger_contracts. by rewrite !map_map.
  - apply Forall_concat, Forall_map, Forall_true. intros l. apply Forall_map, Forall_forall.
    intros c Hc. apply planned_intro. rewrite <- ledger_ids. by apply list_elem_of_fmap_2.
  - apply StronglySorted_merge_sort; apply _.
  - by apply sorted_rows_ids.
  - intros r. unfold rows, ledger_rows. rewrite sorted_rows_spec by done. unfold ledger_where.
    by rewrite andb_true_iff.
Qed.

End Ledger.

(** ** A shelf of contracts *)

Definition shelved (id : string) : Contract :=
  let c := sample_contract 10000 plan_of_two in
  mkDomain id (k_TenantID c) "" "" (k_Title c) (k_Type c) "" [] [] (k_party c)
    (mkOwnerFields "" "sales-org" "" "alice" "Alice") (k_AmountMinor c) (k_Currency c)
    (k_PaymentTerms c) (k_document c) (k_origin c) "" None None no_row.
Definition shelf_calls : list call :=
  [ good_call "1" (OpCreate 30 (shelved "c1") "alice");
    good_call "2" (OpCreate 10 (shelved "c2") "alice");
    good_call "3" (OpCreate 20 (shelved "c3") "alice") ].
Definition shelf : DB := execute shelf_calls (new_tables sample_numbers).
Definition sales_reader : ScopeFilter := mkScope "t1" "" ["sales-org"] [] false false.
Definition sample_chars : CharCollation := {| same_char := Z.eqb |}.
Definition shelf_query : ContractListQuery := mkQuery "" "" "" "false" 0 2.
(** A clock that stands still. *)
Definition still : Oracle := {|
  o_fault := λ _, false; o_now := λ _, 1700000000 * Second; o_id := λ _, ""; o_commit := None
|}.
#[local] Existing Instance sample_chars.

Lemma shelf_keyed : keyed (core shelf).
Proof.
  intros id c Hc. assert (db_contracts shelf !! id = Some c) as Hc' by exact Hc. clear Hc.
  apply elem_of_map_to_list in Hc'.
  assert (forallb (λ p, c_ID p.2 =s p.1) (map_to_list (db_contracts shelf)) = true) as Hall
    by (vm_compute; reflexivity).
  rewrite forallb_forall in Hall. apply list_elem_of_In, Hall in Hc'. by apply streq_true in Hc'.
Qed.

Example shelf_listed :
  map c_ID (ledger_rows sales_reader (CalendarDay (1700000000 * Second)) shelf_query shelf) =
  ["c1"; "c3"; "c2"].
Proof. vm_compute. reflexivity. Qed.

Lemma ledger_pages_witness :
  ∃ pages, length pages = 2%nat ∧
    map (set_terms None) (concat (map pg_Items pages)) =
      ledger_contracts (ledger_rows sales_reader (CalendarDay (1700000000 * Second)) shelf_query shelf).
Proof.
  destruct (ledger_pages (λ _, still) (CalendarDay (1700000000 * Second)) sales_reader shelf_query
              shelf) as (pages & Hlen & _ & Hitems & _).
  - intros _. split; intros t; reflexivity.
  - exact shelf_keyed.
  - split; [reflexivity|discriminate].
  - exists pages. split; [|exact Hitems]. rewrite Hlen. vm_compute. reflexivity.
Defined.

(** ** The two forms of the row boundary *)

Definition all_filled (x : Core) : Prop :=
  ∀ id c, x_contracts x !! id = Some c → columns_filled c.

Lemma stringPtr_filled s : stringPtr s ≠ Some "".
Proof. unfold stringPtr. by destruct s. Qed.

Lemma all_filled_insert x y id c' :
  x_contracts y = <[id := c']> (x_contracts x) → columns_filled c' → all_filled x → all_filled y.
Proof.
  intros Hy Hc Hx i c. rewrite Hy. intros [[_ <-]|[_ Hi]]%lookup_insert_Some; [done|by eapply Hx].
Qed.

Lemma all_filled_change `{GoUnicode} `{Sha256} `{Collation} x y :
  change x y → all_filled x → all_filled y.
Proof.
  intros Hch Hx. destruct Hch; try exact Hx; (eapply all_filled_insert; [reflexivity| |exact Hx]).
  1: split; apply stringPtr_filled.
  all: match goal with h : x_contracts _ !! _ = Some _ |- _ => pose proof (Hx _ _ h) as Hc end.
  2: match goal with h : Changes.numbered _ _ _ _ _ _ |- _ => destruct h end.
  all: exact Hc.
Qed.

(** The roles whose holders see more than their own contracts, and who is a plain
    sales user: sales, and none of them. *)
Definition plain_sales (actor : Principal) : Prop :=
  "sales" ∈ p_Roles actor ∧
  ∀ role, role ∈ p_Roles actor →
    role ∉ ["admin"; "sales_director"; "tech_director"; "finance_director"; "audit_admin"].
(** The contract is inside what the platform granted: it belongs to the tenant, and
    the grant is tenant-wide, or reaches the actor's own contracts and it is one, or
    names its organization or its project.  A plain sales user reads and edits the
    own contracts only. *)
Definition within (actor : Principal) (permission : string) (granted : ScopeFilter)
    (r : contractRecord) : Prop :=
  let own := p_IdentityID actor ≠ "" ∧
             c_OwnerIdentityID (c_owner r) = Some (p_IdentityID actor) in
  c_TenantID r = p_TenantID actor ∧
  ((plain_sales actor ∧ permission ∈ ["contract.read"; "contract.edit"] ∧ own) ∨
   (¬ (plain_sales actor ∧ permission ∈ ["contract.read"; "contract.edit"]) ∧
    (sf_AllowAll granted = true ∨
     (sf_AllowSelf granted = true ∧ own) ∨
     (∃ org, c_OwnerOrgID (c_owner r) = Some org ∧ org ∈ sf_OrganizationIDs granted) ∨
     (∃ project, c_ProjectID (c_owner r) = Some project ∧ project ∈ sf_ProjectIDs granted)))).

Lemma filled_in (column : option string) (values : list string) :
  column ≠ Some "" →
  (valueOrEmpty column ≠ "" ∧ valueOrEmpty column ∈ values) ↔ ∃ s, column = Some s ∧ s ∈ values.
Proof. intros Hc. by rewrite <- sql_in_filled, sql_in_spec. Qed.
Lemma filled_own (column : option string) identity :
  (valueOrEmpty column ≠ "" ∧ valueOrEmpty column = identity) ↔
  (identity ≠ "" ∧ column = Some identity).
Proof. destruct column; cbn; naive_solver. Qed.

Lemma contractScope_within actor permission filter r :
  contractScope actor permission = Some filter → columns_filled r →
  ∃ granted, p_PermissionScopes actor !! permission = Some granted ∧
    Has actor permission = true ∧
    (applyContractScope filter r = true ↔ within actor permission granted r).
Proof.
  intros Hs Hf. unfold contractScope, Scope in Hs. destruct (Has actor permission); [|done].
  cbn [negb] in Hs. destruct (p_PermissionScopes actor !! permission) as [g|]; [|done].
  exists g. split_and!; [done..|].
  assert (Hsales : ((permission =s "contract.read") || (permission =s "contract.edit")) &&
      salesOnly (p_Roles actor) = true ↔
      plain_sales actor ∧ permission ∈ ["contract.read"; "contract.edit"]).
  { rewrite andb_true_iff, orb_true_iff, !streq_true, salesOnly_spec. unfold plain_sales, senior_roles.
    set_solver. }
  rewrite applyContractScope_spec by done. unfold grants, within. destruct Hf as [Ho Hp].
  destruct (_ || _ || _ || _); [|done]. cbn in Hs. destruct (_ && _) in Hs, Hsales; injection Hs as <-; cbn.
  - rewrite filled_own. split; [|tauto].
    intros [Ht [|[[_ Hi]|[[_ Hin]|[_ Hin]]]]]; [done|tauto|by apply elem_of_nil in Hin..].
  - rewrite filled_own, !filled_in by done.
    assert (¬ (plain_sales actor ∧ permission ∈ ["contract.read"; "contract.edit"])) by by rewrite <- Hsales.
    tauto.
Qed.

(** C23: The condition a list or a read puts on the rows in SQL and the predicate
    over loaded contracts select the same contracts, and exactly these: the
    contract is of the actor's tenant, the actor holds the permission, and the
    scope the platform granted for it is tenant-wide, or reaches the own contracts
    and the owner's identity is the actor's, or names the organization or the
    project of the contract.  For a user who is sales and holds no senior role,
    reading and editing reach the own contracts and no others, whatever the
    platform granted.  This holds of every row whose organization and project are
    absent or not empty, as all writes of the code store them; every row that the
    ten operations of the repository leave in any history is one. *)
Theorem scope_boundary `{GoUnicode} `{Sha256} `{TzDatabase} `{Collation} `{Documents} :
  (∀ actor permission filter r,
     contractScope actor permission = Some filter →
     c_OwnerOrgID (c_owner r) ≠ Some "" → c_ProjectID (c_owner r) ≠ Some "" →
     applyContractScope filter r = canAccessContract filter (contractFromRecord r) ∧
     ∃ granted, p_PermissionScopes actor !! permission = Some granted ∧
       Has actor permission = true ∧
       (applyContractScope filter r = true ↔ within actor permission granted r)) ∧
  (∀ numbers calls id r, Forall (well_typed ∘ call_op) calls →
     db_contracts (execute calls (new_tables numbers)) !! id = Some r →
     c_OwnerOrgID (c_owner r) ≠ Some "" ∧ c_ProjectID (c_owner r) ≠ Some "").
Proof.
  split.
  - intros actor permission filter r Hs Ho Hp. split; [|by apply contractScope_within].
    apply eq_true_iff_eq. by rewrite canAccessContract_spec, (applyContractScope_spec _ r).
  - intros numbers calls id r Ht Hr.
    destruct (execute_invariant numbers calls Ht all_filled) as [Hf _];
      [intros x y _; apply all_filled_change|by intros ???|]. by eapply (Hf id).
Qed.

Definition sales_user : Principal :=
  mkPrincipal "" "t1" "alice" "id-alice" "" "Alice" "" "" ["sales"] {["contract.read" := true]} []
    {["contract.read" := mkScope "" "" ["sales-org"] [] true true]} 1 "".

(** The organization granted by the platform does not reach a contract without
    an owner. *)
Lemma scope_boundary_witness :
  ∃ r, db_contracts shelf !! "c1" = Some r ∧
    contractScope sales_user "contract.read" = Some (mkScope "t1" "id-alice" [] [] false true) ∧
    applyContractScope (mkScope "t1" "id-alice" [] [] false true) r =
      canAccessContract (mkScope "t1" "id-alice" [] [] false true) (contractFromRecord r).
Proof.
  assert (is_Some (db_contracts shelf !! "c1")) as [r E] by (vm_compute; eexists; reflexivity).
  exists r. split; [exact E|]. split; [reflexivity|].
  assert (Forall (well_typed ∘ call_op) shelf_calls) as Ht by (repeat constructor; by vm_compute).
  destruct scope_boundary as [Hb Hf].
  destruct (Hf sample_numbers shelf_calls "c1" r Ht E) as [Ho Hp].
  by apply (Hb sales_user "contract.read" (mkScope "t1" "id-alice" [] [] false true) r eq_refl Ho Hp).
Defined.
