(* ===== verification/Service.v ===== *)
(** * application/service.go: the monad of the use cases

    A use case is a sequence of interactions: checks of the licence, reads of
    the database, repository calls, answers of remote services, fresh
    identifiers and readings of the clock.  Each interaction takes one step of
    the [Environment], and between two steps other requests may change the
    tables ([ev_others]).  The state keeps the tables and the trace of the
    effects a use case had: the calls of the repository and the commands sent to
    the workflow engine and to the file gateway. *)

From S2P Require Import Prelude GoStrings Decimal GoTime BusinessClock Status NumberRule.
From S2P Require Import PaymentTerm ProjectService ImportPolicy Utf8 PhoneCipher ApprovalRule Workflow.
From S2P Require Import Store Outbound Handover Numbering Repository Signing SigningFlow Access.
From S2P Require Import Like Ledger Reports SigningLedger Templates Drafting.

#[local] Open Scope string_scope.
#[local] Open Scope Z_scope.
#[local] Open Scope list_scope.

(** ** infrastructure/mysql/source_file_gateway.go

    The result of the gateway for the source file of a contract.  The version
    of the contract stays; gorm sets [updated_at] by itself.  MySQL refuses a
    text that is not UTF-8, which the cut of a long detail can produce. *)
Definition contract_set_source (fileID state detail : string) (now : Time) (c : contractRecord)
    : contractRecord :=
  let d := c_document c in
  mkContract (c_ID c) (c_TenantID c) (c_ContractNumber c) (c_ContractNumberFormat c) (c_party c)
    (c_owner c) (c_terms c)
    (mkDocument (c_Content d) (c_TemplateID d) (c_TemplateValues d) (c_RenderedDocument d)
       (c_DocumentFormat d) (c_SourceMediaType d) (c_SourceFilename d) (c_SourceSHA256 d)
       (c_ExternalPaperNumber d) fileID state detail (c_ContentHash d))
    (c_origin c) (c_Status c) (c_Version c) (c_CreatedAt c) (c_CreatedBy c) now (c_UpdatedBy c).
Definition MarkContractSourceGatewayResult `{Oracle} (tenantID contractID fileID state : string)
    (detail : string) : DB → res unit * DB :=
  let detail := cut_bytes 512 detail in
  transaction (
    guard (negb (utf8_valid (bytes detail))) ErrStorage;;
    now ← time_now;
    _ ← update_contract tenantID contractID (λ _, true)
          (contract_set_source (TrimSpace fileID) (TrimSpace state) (TrimSpace detail) now);
    mret tt).

(** ** The environment *)

(** [CheckLicense]: granted, refused by the gate, or cut short by a cancelled
    request. *)
Inductive LicenseAnswer : Type := Granted | Refused | Cancelled.

(** What a workflow is started with. *)
Inductive WorkflowInput : Type :=
  | InContract (inp : ContractApprovalInput)
  | InStatus (inp : StatusChangeInput).
(** [ExecuteWorkflow]: the run, "already started", or another error. *)
Inductive StartAnswer : Type :=
  | Started (runID : string)
  | AlreadyStarted
  | StartFailed (e : goerr).

Class Environment := {
  ev_oracle : nat → Oracle;
  ev_others : nat → DB → DB;
  ev_license : nat → LicenseAnswer;
  ev_start : nat → string → StartAnswer;
  ev_signal : nat → res unit;
  ev_state : nat → string → string → res ApprovalState;
  ev_running : nat → res bool;
  ev_personnel : nat → option (list string → res (list UserReference));
  ev_directories : nat → Directories;
  ev_template : nat → string → string → res Template;
  ev_gateway : nat → res string;
  ev_message : goerr → string;
  ev_cancelled : nat → bool;
  ev_nonce : nat → list byte
}.

(** The configuration the executable gives the service. *)
Record Config : Type := mkConfig {
  sc_HasTemplates : bool; sc_HasTemporal : bool; sc_TaskQueue : string; sc_NodeTimeout : Z;
  sc_ReminderInterval : Z; sc_HasGateway : bool; sc_StampedFileMode : string;
  sc_ExternalPDFEnabled : bool; sc_ContractSources : option ContractSourceOptions;
  sc_ContractFinancialChangeEnabled : bool; sc_HandoverFreeze : bool
}.

(** ** Effects *)

(** A call of the repository that can change tables. *)
Inductive Write : Type :=
  | WRepo (c : any_call)
  | WCreateRule (o : Oracle) (rule : Rule) (actor : string)
  | WUpdateRule (o : Oracle) (rule : Rule) (actor : string)
  | WDeleteRule (o : Oracle) (tenantID id : string) (version : Z)
  | WSourceResult (o : Oracle) (tenantID contractID fileID state detail : string).
Inductive Effect : Type :=
  | EWrite (w : Write)
  | EStart (workflowID : string) (inp : WorkflowInput)
  | ESignal (workflowID runID : string) (command : ApprovalCommand)
  | EUpload (requestID : string)
  | EBind (fileID contractID : string).

Record Session : Type := mkSession { se_step : nat; se_db : DB; se_trace : list Effect }.

Definition Svc (A : Type) : Type := Session → res A * Session.
#[export] Instance Svc_ret : MRet Svc := λ A a s, (Ok a, s).
#[export] Instance Svc_bind : MBind Svc := λ A B f m s,
  match m s with
  | (Ok a, s') => f a s'
  | (Err e, s') => (Err e, s')
  end.

Definition refuse {A} (e : goerr) : Svc A := λ s, (Err e, s).
Definition pure {A} (r : res A) : Svc A := λ s, (r, s).
(** [if cond { return err }]. *)
Definition check (b : bool) (e : goerr) : Svc unit := pure (fail_if b e).
Definition read_under {A} (m : Tx A) : Svc A := λ s, ((m (0%nat, se_db s)).1, s).
Definition change_under {A} (f : DB → res A * DB) : Svc A := λ s,
  ((f (se_db s)).1, mkSession (se_step s) (f (se_db s)).2 (se_trace s)).
(** A result whose error the code looks at. *)
Definition attempt {A} (m : Svc A) : Svc (res A) := λ s, let '(r, s') := m s in (Ok r, s').

Section Steps.
Context `{GoUnicode} `{Sha256} `{TzDatabase} `{Collation} `{Documents} `{Aead} `{PhoneKeyEnv}.
Context `{Environment}.

(** The next step: what the others did since the last one comes first. *)
Definition tick : Svc nat := λ s,
  let n := se_step s in
  (Ok n, mkSession (S n) (ev_others n (se_db s)) (se_trace s)).
Definition emit (e : Effect) : Svc unit := λ s,
  (Ok tt, mkSession (se_step s) (se_db s) (se_trace s ++ [e])).

Definition licensed : Svc unit :=
  n ← tick;
  match ev_license n with
  | Granted => mret tt
  | Refused => refuse ErrCommercialLicense
  | Cancelled => refuse ErrOther
  end.

(** A read of the database, outside any transaction. *)
Definition reads {A} (m : Oracle → Tx A) : Svc A :=
  n ← tick;
  read_under (m (ev_oracle n)).

(** A call of the repository, with its value. *)
Definition writes {A} (w : Oracle → Write) (f : Oracle → DB → res A * DB) : Svc A :=
  n ← tick;
  emit (EWrite (w (ev_oracle n)));;
  change_under (f (ev_oracle n)).

Definition fresh_id : Svc string := n ← tick; mret (@o_id (ev_oracle n) 0).
Definition clock : Svc Time := n ← tick; mret (@o_now (ev_oracle n) 0).

Definition load_template (tenantID id : string) : Svc Template :=
  n ← tick; pure (ev_template n tenantID id).
Definition start_workflow (workflowID : string) (inp : WorkflowInput) : Svc string :=
  n ← tick;
  emit (EStart workflowID inp);;
  match ev_start n workflowID with
  | Started runID => mret runID
  | AlreadyStarted => refuse ErrStateConflict
  | StartFailed e => refuse e
  end.
Definition signal_workflow (workflowID runID : string) (command : ApprovalCommand) : Svc unit :=
  n ← tick;
  emit (ESignal workflowID runID command);;
  match ev_signal n with Ok _ => mret tt | Err _ => refuse ErrApprovalWorkflowUnavailable end.
(** [queryApprovalWorkflowState]. *)
Definition query_state (workflowID runID : string) : Svc ApprovalState :=
  n ← tick;
  match ev_state n workflowID runID with
  | Ok st => mret st
  | Err _ => refuse ErrApprovalWorkflowUnavailable
  end.
Definition loadPersonnel (roleCodes : list string) : Svc (list UserReference) :=
  n ← tick;
  match ev_personnel n with
  | Some list_users =>
      match list_users roleCodes with
      | Ok users => mret users
      | Err _ => refuse ErrPersonnelDirectoryUnavailable
      end
  | None => refuse ErrPersonnelDirectoryUnavailable
  end.
Definition upload (requestID : string) : Svc string :=
  n ← tick; emit (EUpload requestID);; pure (ev_gateway n).
Definition bind_file (fileID contractID : string) : Svc unit :=
  n ← tick; emit (EBind fileID contractID);; pure (ev_gateway n ≫= λ _, Ok tt).

(** The calls of the repository the use cases make. *)
Definition business {A} (meta : requestMeta) (op : operation)
    (f : Oracle → DB → res A * DB) : Svc A :=
  writes (λ o, WRepo (Business (mkCall o meta op))) f.
Definition signing (op : signing_operation) : Svc unit :=
  writes (λ o, WRepo (Signing o op)) (λ o, @perform_signing o _ _ _ _ op).

(** What a write does to the tables. *)
Definition write_db (w : Write) (d : DB) : DB :=
  match w with
  | WRepo c => (invoke_any c d).2
  | WCreateRule o rule actor => (@CreateRule o rule actor d).2
  | WUpdateRule o rule actor => (@UpdateRule o rule actor d).2
  | WDeleteRule o tenantID id version => (@DeleteRule o tenantID id version d).2
  | WSourceResult o tenantID id file state detail =>
      (@MarkContractSourceGatewayResult o tenantID id file state detail d).2
  end.

End Steps.
