(* ===== verification/UseCases.v ===== *)
(** * application/service.go, draft.go, contract_financial_change.go: the use cases

    Every entry point of the service over contracts, approvals, signing and
    rules, with the checks of the code in their order.  [actor] is the verified
    principal, [meta] the audit context of the request and [cfg] the
    configuration.  The repository is the one of infrastructure/mysql, which has
    every optional capability the service asks for. *)

From S2P Require Import Prelude GoStrings Decimal GoTime BusinessClock Status NumberRule.
From S2P Require Import PaymentTerm ProjectService ImportPolicy Utf8 PhoneCipher ApprovalRule Workflow.
From S2P Require Import Store Outbound Handover Numbering Repository Signing SigningFlow Access.
From S2P Require Import Like Ledger Reports SigningLedger Templates Drafting Service.

#[local] Open Scope string_scope.
#[local] Open Scope Z_scope.
#[local] Open Scope list_scope.

Definition MaxStatusChangeReasonRunes : Z := 1000.
Definition MaxFinancialChangeReasonRunes : Z := 500.
Definition maxApprovalCommandTargets : nat := 20.
Definition maxApprovalCommandTargetLength : Z := 64.

Record StartResult : Type := mkStartResult {
  rs_ApprovalID : string; rs_WorkflowID : string; rs_RunID : string
}.
Definition no_start : StartResult := mkStartResult "" "" "".

Record ApprovalDetail : Type := mkDetail {
  de_Meta : Meta; de_State : option ApprovalState; de_Contract : Contract;
  de_Actions : list ApprovalActionView; de_SnapshotAvailable : bool; de_StateUnavailable : bool
}.

(** [ok = false] of a scope is ErrForbidden. *)
Definition scope_or (o : option ScopeFilter) : Svc ScopeFilter :=
  match o with Some f => mret f | None => refuse ErrForbidden end.

(** ** Approvers *)

Definition approversForRole (directory : list UserReference) (roleCode : string) : list string :=
  unique (map ur_UserID (List.filter (λ u, contains (ur_Roles u) roleCode) directory)).

Definition roleCanProcessApproval (role : string) : bool :=
  contains ["admin"; "sales_director"; "tech_director"; "finance_director"] role.
Definition eligible (directory : list UserReference) (target : string) : bool :=
  existsb (λ u, (ur_UserID u =s target) && existsb roleCanProcessApproval (ur_Roles u)) directory.
Definition validateApprovalProcessTargets (directory : list UserReference)
    (targetUserIDs : list string) : res unit :=
  let targets := unique targetUserIDs in
  fail_if (is_empty targets) ErrApprovalTargetForbidden;;
  fail_if (negb (forallb (eligible directory) targets)) ErrApprovalTargetForbidden.

Definition defaultNodes : list Node :=
  [ mkNode "sales-director" "销售总监审批" "sales_director" [] CountersignAny 0;
    mkNode "tech-director" "技术总监审批" "tech_director" [] CountersignAny 0;
    mkNode "finance-director" "财务总监审批" "finance_director" [] CountersignAny 0 ].

(** The assignees always come from the directory; those of a rule are dropped. *)
Definition resolve_node (directory : list UserReference) (i : nat) (n : Node) : Node :=
  mkNode (if empty_str (n_ID n) then "node-" +:+ Itoa (Z.of_nat i + 1) else n_ID n) (n_Name n)
    (n_RoleCode n) (unique (approversForRole directory (n_RoleCode n))) CountersignAny
    (n_Timeout n).

Section UseCases.
Context `{GoUnicode} `{Sha256} `{TzDatabase} `{Collation} `{Documents} `{Aead} `{PhoneKeyEnv}.
Context `{GoFloat} `{TemplateEngine} `{MediaTypes} `{CharCollation} `{Ulid} `{Environment}.
Variable cfg : Config.
Variable meta : requestMeta.

Definition resolveNodes (nodes : list Node) : Svc (list Node) :=
  directory ← loadPersonnel (unique (map n_RoleCode nodes));
  let resolved := imap (resolve_node directory) nodes in
  check (existsb (λ n, is_empty (n_AssigneeIDs n)) resolved) ErrApprovalAssigneeUnavailable;;
  mret resolved.

(** ** Reads *)

Definition getContractScoped (filter : ScopeFilter) (id : string) : Svc Contract :=
  reads (λ o, @GetContractScoped o filter id).

Definition set_can_edit (can : bool) (c : Contract) : Contract :=
  let r := k_row c in
  mkDomain (k_ID c) (k_TenantID c) (k_Number c) (k_NumberFormat c) (k_Title c) (k_Type c)
    (k_ServiceType c) (k_Systems c) (k_ServiceItems c) (k_party c) (k_owner c) (k_AmountMinor c)
    (k_Currency c) (k_PaymentTerms c) (k_document c) (k_origin c) (k_Status c) (k_StartDate c)
    (k_EndDate c) (mkRowFields (k_Version r) (k_CreatedAt r) (k_CreatedBy r) can (k_UpdatedAt r)).
Definition editable (actor : Principal) (c : Contract) : Contract :=
  set_can_edit (CanEditDraft actor c) c.

Definition GetContractView (actor : Principal) (id : string) : Svc Contract :=
  filter ← scope_or (contractScope actor "contract.read");
  item ← getContractScoped filter id;
  mret (editable actor item).

Definition GetApprovedContract (actor : Principal) (id permission : string) : Svc Contract :=
  filter ← scope_or (contractScope actor permission);
  found ← getContractScoped filter id;
  check (negb (operational found) || negb (ApprovalPassed (k_Status found))) ErrForbidden;;
  mret found.

Definition getApprovalContract (actor : Principal) (contractID : string) : Svc Contract :=
  filter ← scope_or (Scope actor "contract.read");
  getContractScoped filter contractID.

(** The largest page number served. *)
Definition contractLedgerMaxPage : Z := 100000.
Definition ledger_query (q : ContractListQuery) : ContractListQuery :=
  let limit := if (cq_Limit q <=? 0) || (200 <? cq_Limit q) then 50 else cq_Limit q in
  mkQuery (TrimSpace (cq_Keyword q)) (TrimSpace (cq_Status q)) (TrimSpace (cq_Type q))
    (TrimSpace (cq_Expired q))
    (if (cq_Offset q <? 0) || (contractLedgerMaxPage <=? Z.quot (cq_Offset q) limit) then 0
     else cq_Offset q) limit.
Definition ListContractsPage (actor : Principal) (q : ContractListQuery) : Svc ContractPage :=
  filter ← scope_or (contractScope actor "contract.read");
  let q := ledger_query q in
  page ← reads (λ o, @ListContractsPageScoped o _ _ _ _ filter q);
  let offset := ClampContractListOffset (cq_Offset q) (pg_Total page) in
  mret (mkPage (map (editable actor) (pg_Items page)) (pg_Total page)
          (Z.quot offset (cq_Limit q) + 1) (cq_Limit q)).
Definition ListContractsView (actor : Principal) (keyword status : string) (limit : Z)
    : Svc (list Contract) :=
  page ← ListContractsPage actor (mkQuery keyword status "" "" 0 limit);
  mret (pg_Items page).

Definition ListApprovedContractsView (actor : Principal) (limit : Z) : Svc (list Contract) :=
  filter ← scope_or (contractScope actor "contract.approved.read");
  reads (λ o, @ListApprovedContractsScoped o filter limit).
Definition ListApprovedContractReferencesView (actor : Principal) (keyword afterID : string)
    (limit : Z) : Svc (list Contract) :=
  filter ← scope_or (contractScope actor "contract.approved.read");
  reads (λ o, @ListApprovedContractReferencesScoped o _ filter keyword afterID limit).
Definition ListProjectConsumableContracts (actor : Principal) (limit : Z) : Svc (list Contract) :=
  filter ← scope_or (contractScope actor "contract.approved.read");
  reads (λ o, @ListIntegrationApprovedContractsScoped o filter limit).
Definition ListSettlementConsumableContracts (actor : Principal) (keyword : string) (limit : Z)
    : Svc (list Contract) :=
  filter ← scope_or (contractScope actor "contract.read");
  reads (λ o, @ListIntegrationCompletedContractsScoped o _ filter (TrimSpace keyword) limit).
Definition ListContractLifecycleView (actor : Principal) (id : string) : Svc (list LifecycleEvent) :=
  GetContractView actor id;;
  reads (λ o, @ListContractLifecycle o (p_TenantID actor) id).

Definition set_dashboard_tenant (tenantID : string) (b : Dashboard) : Dashboard :=
  mkDashboard tenantID (bd_TotalAmountMinor b) (bd_CurrencyTotals b) (bd_TotalContracts b)
    (bd_ApprovalContracts b) (bd_ActiveContracts b) (bd_ExpiredContracts b) (bd_Contracts b)
    (bd_ContractDetailLimited b).
Definition ContractDashboardView (actor : Principal) : Svc Dashboard :=
  filter ← scope_or (contractScope actor "contract.read");
  now ← clock;
  dashboard ← reads (λ o, @ContractDashboardScoped o _ filter (CalendarDay now) 200);
  mret (set_dashboard_tenant (p_TenantID actor) dashboard).

Definition ListMyTasks (actor : Principal) (limit : Z) : Svc (list Task) :=
  check (negb (Has actor "approval.process")) ErrForbidden;;
  reads (λ o, @ListTasks o (p_TenantID actor) (p_UserID actor) limit).
Definition ListMyApprovals (actor : Principal) (limit : Z) : Svc (list Summary) :=
  check (empty_str (p_TenantID actor) || empty_str (p_UserID actor)) ErrForbidden;;
  reads (λ o, @ListApprovals o (p_TenantID actor) (p_UserID actor) limit).
Definition ListDetectionCategories (actor : Principal) : Svc (list DetectionCategory) :=
  scope_or (Scope actor "contract.create");;
  n ← tick;
  pure (enabledDetectionCategories (dir_detection (ev_directories n))).

Definition ContractSummary (tenantID contractRef : string) (crmCustomerID : Z)
    : Svc Reports.ContractSummary :=
  reads (λ o, @ContractSummaryOf o _ tenantID contractRef crmCustomerID).

(** ** Approvals: reads *)

Definition may_view (actor : Principal) (m : Meta) : bool :=
  Has actor "approval.view" || Has actor "approval.process" ||
  (am_ApplicantUserID m =s p_UserID actor).

(** The meta of an approval the actor may see. *)
Definition visible_approval (actor : Principal) (approvalID : string) : Svc Meta :=
  m ← reads (λ o, @GetApprovalMeta o (p_TenantID actor) approvalID);
  getApprovalContract actor (am_ContractID m);;
  check (negb (may_view actor m)) ErrForbidden;;
  mret m.
Definition queryApprovalState (actor : Principal) (approvalID : string) : Svc (Meta * ApprovalState) :=
  m ← visible_approval actor approvalID;
  st ← query_state (am_WorkflowID m) (am_RunID m);
  mret (m, st).

Definition is_unavailable (e : goerr) : bool :=
  match e with ErrApprovalWorkflowUnavailable => true | _ => false end.
Definition GetApprovalDetail (actor : Principal) (approvalID : string) : Svc ApprovalDetail :=
  found ← attempt (queryApprovalState actor approvalID);
  known ← (match found with
           | Ok (m, st) => mret (m, Some st)
           | Err e =>
               check (negb (is_unavailable e)) e;;
               m ← visible_approval actor approvalID;
               mret (m, None)
           end);
  let '(m, st) := known in
  current ← getApprovalContract actor (am_ContractID m);
  snapshot ← reads (λ o, @GetApprovalSnapshot o (p_TenantID actor) approvalID);
  check (negb (bool_decide (is_Some st)) && negb (bool_decide (is_Some snapshot)))
    ErrApprovalWorkflowUnavailable;;
  actions ← reads (λ o, @ListApprovalActions o (p_TenantID actor) approvalID);
  mret (mkDetail m st (default current snapshot) actions (bool_decide (is_Some snapshot))
          (negb (bool_decide (is_Some st)))).

(** ** Submission *)

Definition contract_facts (c : Contract) (termsIdentical : bool) : Facts :=
  mkFacts (k_AmountMinor c) (k_ServiceType c) (k_CustomerCreditLevel (k_party c)) (k_Type c)
    termsIdentical.
Definition contract_workflow_id (tenantID contractID : string) (version : Z) : string :=
  "contract-approval:" +:+ tenantID +:+ ":" +:+ contractID +:+ ":v" +:+ Itoa version.
Definition status_workflow_id (tenantID contractID : string) (version : Z) : string :=
  "status-change:" +:+ tenantID +:+ ":" +:+ contractID +:+ ":v" +:+ Itoa version.
Definition version_of (c : Contract) : Z := k_Version (k_row c).

Definition SubmitContractVersion (actor : Principal) (contractID : string)
    (termsIdentical : bool) (expectedVersion : Z) : Svc StartResult :=
  licensed;;
  filter ← scope_or (Scope actor "contract.create");
  c ← getContractScoped filter contractID;
  check (negb (operational c)) ErrImportUnsupported;;
  check (negb (k_Status c =s StatusDraft)) ErrStateConflict;;
  check (negb (expectedVersion =? 0) && negb (version_of c =? expectedVersion)) ErrVersionConflict;;
  check (negb (draftActorAllowed actor c)) ErrForbidden;;
  rules ← reads (λ o, @ListEnabledRules o (p_TenantID actor));
  matched ← pure (MatchHighest rules (contract_facts c termsIdentical));
  nodes ← resolveNodes (match matched with Some r => r_Nodes r | None => defaultNodes end);
  approvalID ← fresh_id;
  let workflowID := contract_workflow_id (p_TenantID actor) contractID (version_of c) in
  let inp := mkContractInput approvalID (rm_Audit meta) (p_TenantID actor) contractID
               (version_of c) (p_UserID actor) (p_DisplayName actor)
               (k_ContentHash (k_document c))
               (match matched with Some r => r_ID r | None => "" end)
               (match matched with Some r => r_Version r | None => 0 end) nodes
               (sc_NodeTimeout cfg) (sc_ReminderInterval cfg) in
  licensed;;
  runID ← start_workflow workflowID (InContract inp);
  mret (mkStartResult approvalID workflowID runID).

Definition ChangeStatus (actor : Principal) (contractID : string) (version : Z) (target : Status)
    (reason : string) : Svc StartResult :=
  licensed;;
  filter ← scope_or (contractScope actor "contract.edit");
  check (empty_str reason) ErrValidation;;
  check (MaxStatusChangeReasonRunes <? rune_count reason) ErrValidation;;
  c ← getContractScoped filter contractID;
  check (negb (operational c)) ErrImportUnsupported;;
  check (negb (version_of c =? version)) ErrVersionConflict;;
  pure (ValidateTransition (k_Status c) target);;
  if negb (RequiresApproval target) then
    key ← fresh_id;
    licensed;;
    let op := OpTransition (p_TenantID actor) contractID version target (p_UserID actor) reason key in
    business meta op (λ o d, invoke (mkCall o meta op) d);;
    mret no_start
  else
    directory ← loadPersonnel ["admin"];
    let admins := approversForRole directory "admin" in
    check (is_empty admins) ErrApprovalAssigneeUnavailable;;
    approvalID ← fresh_id;
    let workflowID := status_workflow_id (p_TenantID actor) contractID version in
    let inp := mkStatusInput approvalID (rm_Audit meta) (p_TenantID actor) contractID version
                 (p_UserID actor) (p_DisplayName actor) (k_Status c) target reason admins
                 (sc_NodeTimeout cfg) in
    licensed;;
    runID ← start_workflow workflowID (InStatus inp);
    mret (mkStartResult approvalID workflowID runID).

(** ** Commands *)

Definition command_node (st : ApprovalState) (command : ApprovalCommand) : string :=
  if (Action command =s ActionTransfer) && empty_str (TargetNodeID command) then
    match st_Nodes st !! st_CurrentNodeIndex st with
    | Some r => n_ID (rn_Node r)
    | None => TargetNodeID command
    end
  else TargetNodeID command.

(** Who may send a command. *)
Definition command_allowed (actor : Principal) (m : Meta) (action : string) : bool :=
  let applicant := am_ApplicantUserID m =s p_UserID actor in
  if action =s ActionWithdraw then applicant
  else if action =s ActionUrge then applicant || Has actor "approval.manage"
  else if action =s ActionComment then Has actor "approval.view" || applicant
  else if action =s ActionApprove then Has actor "approval.process" && negb applicant
  else Has actor "approval.process".

Definition command_sizes (command : ApprovalCommand) : res unit :=
  fail_if (2000 <? rune_count (Comment command)) ErrValidation;;
  fail_if (maxApprovalCommandTargets <? length (TargetUserIDs command))%nat ErrValidation;;
  fail_if (existsb (λ t, maxApprovalCommandTargetLength <? rune_count t) (TargetUserIDs command))
    ErrValidation.

Definition process_roles : list string :=
  ["admin"; "sales_director"; "tech_director"; "finance_director"].

Definition Command (actor : Principal) (approvalID : string) (command : ApprovalCommand)
    : Svc string :=
  licensed;;
  found ← queryApprovalState actor approvalID;
  let '(m, st) := found in
  check (negb (am_Status m =s StatusRunning)) ErrStateConflict;;
  let node := command_node st command in
  check (negb (command_allowed actor m (Action command))) ErrForbidden;;
  pure (command_sizes command);;
  (if Action command =s ActionAddSign then
     directory ← loadPersonnel process_roles;
     pure (validateApprovalProcessTargets directory (TargetUserIDs command))
   else mret tt);;
  commandID ← fresh_id;
  now ← clock;
  let sent := mkCommand commandID (Action command) (p_UserID actor) (p_DisplayName actor)
                (Action command =s ActionApprove) (Comment command) (TargetUserIDs command)
                (Countersign command) node now in
  licensed;;
  signal_workflow (am_WorkflowID m) (am_RunID m) sent;;
  mret commandID.

(** ** The transfer of an approval task by a handover *)

Definition runtimeNodeByID (st : ApprovalState) (nodeID : string) : option RuntimeNode :=
  List.find (λ r, n_ID (rn_Node r) =s nodeID) (st_Nodes st).
Definition handoverCommandID (idempotencyKey : string) : string :=
  of_bytes (take 26 (bytes (sha256_hex ("handover-command:" +:+ idempotencyKey)))).
Definition moved (r : RuntimeNode) (fromUserID toUserID : string) : bool :=
  containsString (n_AssigneeIDs (rn_Node r)) toUserID &&
  negb (containsString (n_AssigneeIDs (rn_Node r)) fromUserID).

(** The wait for the signal to be consumed; [None]: the fuel does not suffice. *)
Fixpoint await_transfer (fuel : nat) (m : Meta) (nodeID fromUserID toUserID evidence : string)
    (deadline : Time) : Svc (option string) :=
  match fuel with
  | O => mret None
  | S fuel =>
      current ← attempt (query_state (am_WorkflowID m) (am_RunID m));
      let done := match current with
                  | Ok st => match runtimeNodeByID st nodeID with
                             | Some r => moved r fromUserID toUserID
                             | None => false
                             end
                  | Err _ => false
                  end in
      let stopped := match current with
                     | Ok st => negb (st_Status st =s StatusRunning)
                     | Err _ => false
                     end in
      if (done : bool) then mret (Some evidence)
      else
        check stopped ErrHandoverConflict;;
        now ← clock;
        check (deadline <? now) ErrHandoverConflict;;
        n ← tick;
        check (ev_cancelled n) ErrOther;;
        await_transfer fuel m nodeID fromUserID toUserID evidence deadline
  end.

Definition ReassignApprovalNode (fuel : nat) (tenantID approvalID nodeID fromUserID toUserID
    reason idempotencyKey : string) : Svc (option string) :=
  let tenantID := TrimSpace tenantID in
  let approvalID := TrimSpace approvalID in
  let nodeID := TrimSpace nodeID in
  let fromUserID := TrimSpace fromUserID in
  let toUserID := TrimSpace toUserID in
  let key := TrimSpace idempotencyKey in
  check (empty_str tenantID || empty_str approvalID || empty_str nodeID || empty_str fromUserID ||
         empty_str toUserID || (fromUserID =s toUserID) || empty_str key) ErrValidation;;
  check (negb (sc_HasTemporal cfg)) ErrHandoverConflict;;
  m ← reads (λ o, @GetApprovalMeta o tenantID approvalID);
  check (negb (am_Status m =s StatusRunning)) ErrHandoverConflict;;
  st ← query_state (am_WorkflowID m) (am_RunID m);
  let evidence := "approval-workflow:" +:+ am_WorkflowID m +:+ "/" +:+ am_RunID m +:+ "#" +:+
                  handoverCommandID key in
  match runtimeNodeByID st nodeID with
  | None => refuse ErrHandoverConflict
  | Some r =>
      if moved r fromUserID toUserID then mret (Some evidence)
      else
        check (negb (rn_Status r =s NodeActive) ||
               negb (containsString (n_AssigneeIDs (rn_Node r)) fromUserID)) ErrHandoverConflict;;
        licensed;;
        sent ← clock;
        let command := mkCommand (handoverCommandID key) ActionTransfer fromUserID "" false reason
                         [toUserID] "" nodeID sent in
        n ← tick;
        emit (ESignal (am_WorkflowID m) (am_RunID m) command);;
        pure (ev_signal n);;
        start ← clock;
        await_transfer fuel m nodeID fromUserID toUserID evidence (start + 8 * Second)
  end.

(** ** Recovery *)

Definition recovery_target (m : Meta) (status : string) : Status :=
  if am_Kind m =s KindStatusChange then
    if status =s StatusApproved then am_TargetStatus m else am_FromStatus m
  else if status =s StatusApproved then StatusActive else StatusDraft.

(** The outcome the stored state of a stopped workflow stands for. *)
Definition recovery_status (st : ApprovalState) : res string :=
  status ← (if st_Status st =s StatusRunning then
              fail_if (st_CurrentNodeIndex st <? length (st_Nodes st))%nat ErrStateConflict;;
              Ok StatusApproved
            else Ok (st_Status st));
  fail_if (negb (contains [StatusApproved; StatusRejected; StatusWithdrawn; StatusExpired] status))
    ErrStateConflict;;
  Ok status.

Definition RecoverApproval (actor : Principal) (approvalID : string) : Svc unit :=
  licensed;;
  check (negb (Has actor "approval.manage") && negb (hasRole actor "admin")) ErrForbidden;;
  m ← reads (λ o, @GetApprovalMeta o (p_TenantID actor) (TrimSpace approvalID));
  check (negb (am_Status m =s StatusRunning)) ErrStateConflict;;
  check (negb (sc_HasTemporal cfg)) ErrApprovalWorkflowUnavailable;;
  n ← tick;
  running ← pure (match ev_running n with
                  | Ok b => Ok b
                  | Err _ => Err ErrApprovalWorkflowUnavailable
                  end);
  check running ErrStateConflict;;
  found ← reads (λ o, @GetApprovalRuntimeState o (p_TenantID actor) (am_ID m));
  match found with
  | None => refuse ErrStateConflict
  | Some st =>
      status ← pure (recovery_status st);
      let op := OpComplete (mkComplete (am_ID m) (am_TenantID m) (am_ContractID m)
                  (p_UserID actor) status "manual recovery after workflow execution failure"
                  (am_WorkflowID m) (recovery_target m status) (mkAudit "" "" "" "")) in
      business meta op (λ o d, invoke (mkCall o meta op) d)
  end.

(** ** Financial terms *)

Definition ChangeContractFinancialTerms (actor : Principal) (contractID : string)
    (change : ContractFinancialChange) : Svc unit :=
  check (negb (sc_ContractFinancialChangeEnabled cfg)) ErrFinancialChangeDisabled;;
  licensed;;
  filter ← scope_or (contractScope actor "contract.edit");
  check (empty_str (p_UserID actor)) ErrForbidden;;
  current ← getContractScoped filter contractID;
  check (negb (operational current)) ErrImportCorrectionRequired;;
  check (negb (ApprovalPassed (k_Status current)) ||
         negb (FinancialChangeStatusEligible (k_Status current))) ErrStateConflict;;
  check (fc_ExpectedVersion change =? 0) ErrValidation;;
  check (negb (fc_ExpectedVersion change =? version_of current)) ErrVersionConflict;;
  let requested := ToUpper (TrimSpace (fc_Currency change)) in
  let currency := ToUpper (TrimSpace (k_Currency current)) in
  check (negb (empty_str requested) && negb (requested =s currency))
    ErrFinancialChangeCurrencyLocked;;
  check (fc_AmountMinor change <=? 0) ErrValidation;;
  let reason := TrimSpace (fc_Reason change) in
  check (empty_str reason || (MaxFinancialChangeReasonRunes <? rune_count reason)) ErrValidation;;
  check (is_empty (fc_PaymentTerms change)) ErrValidation;;
  terms ← pure (as_validation (NormalizePaymentTerms (fc_PaymentTerms change)
                                 (fc_AmountMinor change) requested));
  let op := OpFinancial (k_TenantID current)
              (mkChange (k_ID current) (fc_ExpectedVersion change) (fc_AmountMinor change)
                 currency terms reason) (p_UserID actor) in
  business meta op (λ o d, invoke (mkCall o meta op) d).

End UseCases.
