(* ===== verification/DraftCases.v ===== *)
(** * application/service.go, draft.go: creating and editing contracts, signing, rules

    The use cases that store contracts, stamped documents and rules. *)

From S2P Require Import Prelude GoStrings Decimal GoTime BusinessClock Status NumberRule.
From S2P Require Import PaymentTerm ProjectService ImportPolicy Utf8 PhoneCipher ApprovalRule Workflow.
From S2P Require Import Store Outbound Handover Numbering Repository Signing SigningFlow Access.
From S2P Require Import Like Ledger Reports SigningLedger Templates Drafting Service.
From S2P Require Import UseCases.

#[local] Open Scope string_scope.
#[local] Open Scope Z_scope.
#[local] Open Scope list_scope.

Section DraftCases.
Context `{GoUnicode} `{Sha256} `{TzDatabase} `{Collation} `{Documents} `{Aead} `{PhoneKeyEnv}.
Context `{GoFloat} `{TemplateEngine} `{MediaTypes} `{CharCollation} `{Ulid} `{Environment}.
Variable cfg : Config.
Variable meta : requestMeta.

(** ** Preparation *)

Definition mode_is (mode : string) : bool := EqualFold (TrimSpace (sc_StampedFileMode cfg)) mode.

(** The document of a template, filled with the contract's values. *)
Definition rendered (actor : Principal) (permission : string) (c : Contract) : Svc Contract :=
  let d := k_document c in
  check (negb (Has actor permission) || negb (sc_HasTemplates cfg) ||
         empty_str (TrimSpace (k_TemplateID d))) ErrForbidden;;
  item ← load_template (p_TenantID actor) (k_TemplateID d);
  r ← pure (render_template item (Some (k_AmountMinor c))
              (hasPermissionOrAdmin actor "contract.template.manage") (k_TemplateValues d));
  let '(document, values) := r in
  content ← pure (as_validation (docx_PlainText document));
  again ← load_template (p_TenantID actor) (k_TemplateID d);
  mret (with_format (te_NumberFormat again)
          (with_document
             (mkDocumentFields content (k_TemplateID d) values document (k_DocumentFormat d)
                (k_SourceMediaType d) (k_SourceFilename d) (k_SourceSHA256 d)
                (k_ExternalPaperNumber d) (k_SourceFileID d) (k_SourceFileStatus d)
                (k_ContentHash d)) c)).

Definition prepareContract (actor : Principal) (c : Contract) (external : bool)
    (permission : string) : Svc Contract :=
  c ← pure (authorizeContractWrite actor c permission);
  c ← (if negb external && negb (empty_str (k_TemplateID (k_document c)))
       then rendered actor permission c else mret c);
  c ← pure (normalizeContractShape c external);
  n ← tick;
  resolved ← pure (prepareContractReferences (ev_directories n) (sc_ContractSources cfg) actor c
                     external permission);
  pure (finalizeContractCommercials resolved).

(** ** Creation *)

Definition content_hash (d : documentFields) : string :=
  sha256_hex (if empty_str (k_Document d) then k_Content d else k_Document d).

(** The new draft: its identity, owner and hash; a number the caller gave is
    dropped. *)
Definition new_draft (actor : Principal) (filter : ScopeFilter) (id : string) (c : Contract)
    : Contract :=
  let o := k_owner c in
  let d := k_document c in
  let identity := if empty_str (k_OwnerIdentityID o) && sf_AllowAll filter
                  then p_IdentityID actor else k_OwnerIdentityID o in
  let r := k_row c in
  mkDomain id (p_TenantID actor) "" (k_NumberFormat c) (k_Title c) (k_Type c) (k_ServiceType c)
    (k_Systems c) (k_ServiceItems c) (k_party c)
    (mkOwnerFields identity (k_OwnerOrgID o) (k_ProjectID o) (p_UserID actor) (p_DisplayName actor))
    (k_AmountMinor c) (k_Currency c) (k_PaymentTerms c)
    (mkDocumentFields (k_Content d) (k_TemplateID d) (k_TemplateValues d) (k_Document d)
       (k_DocumentFormat d) (k_SourceMediaType d) (k_SourceFilename d) (k_SourceSHA256 d)
       (k_ExternalPaperNumber d) (k_SourceFileID d) (k_SourceFileStatus d) (content_hash d))
    (k_origin c) StatusDraft (k_StartDate c) (k_EndDate c)
    (mkRowFields (k_Version r) (k_CreatedAt r) (p_UserID actor) (k_CanEditDraft r) (k_UpdatedAt r)).

Definition set_source (fileID state : string) (c : Contract) : Contract :=
  let d := k_document c in
  with_document
    (mkDocumentFields (k_Content d) (k_TemplateID d) (k_TemplateValues d) (k_Document d)
       (k_DocumentFormat d) (k_SourceMediaType d) (k_SourceFilename d) (k_SourceSHA256 d)
       (k_ExternalPaperNumber d) fileID state (k_ContentHash d)) c.
Definition set_version (version : Z) (c : Contract) : Contract :=
  let r := k_row c in
  mkDomain (k_ID c) (k_TenantID c) (k_Number c) (k_NumberFormat c) (k_Title c) (k_Type c)
    (k_ServiceType c) (k_Systems c) (k_ServiceItems c) (k_party c) (k_owner c) (k_AmountMinor c)
    (k_Currency c) (k_PaymentTerms c) (k_document c) (k_origin c) (k_Status c) (k_StartDate c)
    (k_EndDate c) (mkRowFields version (k_CreatedAt r) (k_CreatedBy r) (k_CanEditDraft r)
                     (k_UpdatedAt r)).

Definition set_updated (now : Time) (c : Contract) : Contract :=
  let r := k_row c in
  mkDomain (k_ID c) (k_TenantID c) (k_Number c) (k_NumberFormat c) (k_Title c) (k_Type c)
    (k_ServiceType c) (k_Systems c) (k_ServiceItems c) (k_party c) (k_owner c) (k_AmountMinor c)
    (k_Currency c) (k_PaymentTerms c) (k_document c) (k_origin c) (k_Status c) (k_StartDate c)
    (k_EndDate c) (mkRowFields (k_Version r) (k_CreatedAt r) (k_CreatedBy r) (k_CanEditDraft r) now).

(** The gateway's copy of an external original, before the contract is stored. *)
Definition upload_source (c : Contract) : Svc Contract :=
  sent ← attempt (upload ("contract-external-" +:+ k_ID c));
  match sent with
  | Ok fileID => mret (set_source fileID "PENDING" c)
  | Err e =>
      check (mode_is "required") e;;
      mret (set_source (k_SourceFileID (k_document c)) "FAILED" c)
  end.
(** The copy is bound once the contract exists; a failure is only recorded. *)
Definition bind_source (c : Contract) : Svc Contract :=
  let file := k_SourceFileID (k_document c) in
  bound ← attempt (bind_file file (k_ID c));
  let state := if is_ok bound then "READY" else "FAILED" in
  let detail := match bound with Ok _ => "" | Err e => ev_message e end in
  attempt (writes (λ o, WSourceResult o (k_TenantID c) (k_ID c) file state detail)
             (λ o, @MarkContractSourceGatewayResult o (k_TenantID c) (k_ID c) file state detail));;
  mret (set_source file state c).

Definition persistNewContract (actor : Principal) (c : Contract) (external : bool)
    (filter : ScopeFilter) : Svc Contract :=
  licensed;;
  id ← fresh_id;
  let c := new_draft actor filter id c in
  c ← (if external && sc_HasGateway cfg && negb (mode_is "legacy") then upload_source c
       else mret c);
  licensed;;
  now ← clock;
  let op := OpCreate now c (p_UserID actor) in
  business meta op (λ o d, invoke (mkCall o meta op) d);;
  c ← (if external && negb (empty_str (k_SourceFileID (k_document c))) then bind_source c
       else mret c);
  mret (set_version 1 c).

Definition createContract (actor : Principal) (c : Contract) (external : bool) : Svc Contract :=
  licensed;;
  c ← prepareContract actor c external "contract.create";
  reads (λ o, @EnsureOwnerNotFrozen o (sc_HandoverFreeze cfg) (p_TenantID actor) (p_UserID actor));;
  persistNewContract actor c external (default no_scope (Scope actor "contract.create")).

Definition CreateContractCase (actor : Principal) (c : Contract) : Svc Contract :=
  createContract actor c false.

Definition CreateExternalContract (actor : Principal) (c : Contract) : Svc Contract :=
  scope_or (Scope actor "contract.create");;
  let d := k_document c in
  check (negb (empty_str (k_TemplateID d)) || negb (bool_decide (k_TemplateValues d = ∅)) ||
         empty_str (k_Document d)) ErrValidation;;
  c ← pure (prepareExternalSource (sc_ExternalPDFEnabled cfg) c);
  createContract actor c true.

(** ** Editing a draft *)

(** The identifiers of services stay with their draft, each used once. *)
Fixpoint sources_ok (owned seen : list string) (items : list ServiceItem) : bool :=
  match items with
  | [] => true
  | item :: rest =>
      let id := it_SourceID item in
      if empty_str id then sources_ok owned seen rest
      else contains owned id && negb (contains seen id) && sources_ok owned (id :: seen) rest
  end.
Definition owned_sources (c : Contract) : list string :=
  List.filter (λ s, negb (empty_str s)) (map it_SourceID (k_ServiceItems c)).

(** The source of the counterparty and of the categories cannot change. *)
Definition keep_sources (current input : partyFields) : res (string * string) :=
  party ← (if k_CounterpartySource current =s CounterpartyLocal then
             let source := if empty_str (k_CounterpartySource input)
                           then k_CounterpartySource current else k_CounterpartySource input in
             fail_if (negb (source =s CounterpartyLocal)) ErrContractSourceConflict;; Ok source
           else
             fail_if (k_CounterpartySource input =s CounterpartyLocal) ErrContractSourceConflict;;
             Ok (k_CounterpartySource input));
  let category := if (k_CategorySource current =s CategoryLocal) &&
                     empty_str (k_CategorySource input)
                  then k_CategorySource current else k_CategorySource input in
  fail_if (negb (k_CategorySource current =s category) &&
           ((k_CategorySource current =s CategoryLocal) || (category =s CategoryLocal)))
    ErrContractSourceConflict;;
  Ok (party, category).

Definition set_sources (sources : string * string) (p : partyFields) : partyFields :=
  mkPartyFields (k_OpportunityID p) (k_OpportunityName p) (k_CRMCustomerID p) sources.1
    (k_LocalCounterpartyID p) (k_CounterpartyVersion p) sources.2 (k_IntegrationPolicy p)
    (k_CustomerName p) (k_CustomerAddress p) (k_CustomerContact p) (k_CustomerPhone p)
    (k_CustomerCreditLevel p).

(** An omitted plan keeps the stored one, unless the currency changes. *)
Definition kept_terms (current input : Contract) : res (option (list PaymentTerm)) :=
  match k_PaymentTerms input with
  | Some terms => Ok (Some terms)
  | None =>
      fail_if (negb (is_empty (terms_or_nil current)) &&
               negb (EqualFold (TrimSpace (k_Currency input)) (TrimSpace (k_Currency current))))
        ErrValidation;;
      Ok (k_PaymentTerms current)
  end.

(** The original of an external contract and its financial terms are frozen. *)
Definition freeze_original (current input : Contract) : res documentFields :=
  let d := k_document current in
  let e := k_document input in
  fail_if (negb (k_AmountMinor input =? k_AmountMinor current) ||
           negb (ToUpper (TrimSpace (k_Currency input)) =s ToUpper (k_Currency current)))
    ErrValidation;;
  fail_if (negb (empty_str (k_Content e)) && negb (k_Content e =s k_Content d)) ErrValidation;;
  fail_if (negb (bool_decide (k_TemplateValues e = ∅))) ErrValidation;;
  Ok (mkDocumentFields (k_Content d) (k_TemplateID e) (k_TemplateValues e) (k_Document d)
        (k_DocumentFormat d) (k_SourceMediaType d) (k_SourceFilename d) (k_SourceSHA256 d)
        (k_ExternalPaperNumber e) (k_SourceFileID e) (k_SourceFileStatus e) (k_ContentHash e)).

(** The metadata of the request over the owner of the draft. *)
Definition edit_input (current input : Contract) : res Contract :=
  sources ← keep_sources (k_party current) (k_party input);
  terms ← kept_terms current input;
  document ← (if empty_str (k_TemplateID (k_document current)) then freeze_original current input
              else Ok (k_document input));
  let o := k_owner input in
  let oc := k_owner current in
  Ok (mkDomain (k_ID input) (k_TenantID input) (k_Number input) (k_NumberFormat input)
        (k_Title input) (k_Type input) (k_ServiceType input) (k_Systems input)
        (k_ServiceItems input) (set_sources sources (k_party input))
        (mkOwnerFields (k_OwnerIdentityID oc) (k_OwnerOrgID oc) (k_ProjectID oc)
           (k_OwnerUserID o) (k_OwnerDisplayName o))
        (k_AmountMinor input) (k_Currency input) terms document (k_origin input)
        (k_Status input) (k_StartDate input) (k_EndDate input) (k_row input)).

(** The prepared contract keeps the identity, the owner and the origin. *)
Definition edited (current prepared : Contract) : Contract :=
  let d := k_document prepared in
  let dc := k_document current in
  let o := k_origin prepared in
  let oc := k_origin current in
  let r := k_row prepared in
  mkDomain (k_ID current) (k_TenantID current) (k_Number current) (k_NumberFormat current)
    (k_Title prepared) (k_Type prepared) (k_ServiceType prepared) (k_Systems prepared)
    (k_ServiceItems prepared) (k_party prepared) (k_owner current) (k_AmountMinor prepared)
    (k_Currency prepared) (k_PaymentTerms prepared)
    (mkDocumentFields (k_Content d) (k_TemplateID d) (k_TemplateValues d) (k_Document d)
       (k_DocumentFormat d) (k_SourceMediaType d) (k_SourceFilename d) (k_SourceSHA256 d)
       (k_ExternalPaperNumber dc) (k_SourceFileID dc) (k_SourceFileStatus dc) (content_hash d))
    (mkOriginFields (k_OriginKind oc) (k_ImportMode oc) (k_OriginImportItemID oc)
       (k_HistoricalStatus o) (k_HistoricalCustomerName o) (k_HistoricalOwnerLabel o)
       (k_ImportPolicy oc))
    (k_Status current) (k_StartDate prepared) (k_EndDate prepared)
    (mkRowFields (k_Version r) (k_CreatedAt (k_row current)) (k_CreatedBy (k_row current))
       (k_CanEditDraft r) (k_UpdatedAt r)).

Definition UpdateContractDraftCase (actor : Principal) (id : string) (expectedVersion : Z)
    (input : Contract) : Svc Contract :=
  licensed;;
  filter ← scope_or (Scope actor "contract.edit");
  current ← getContractScoped filter id;
  check (negb (operational current)) ErrImportCorrectionRequired;;
  check (negb (draftActorAllowed actor current)) ErrForbidden;;
  check (negb (k_Status current =s StatusDraft)) ErrStateConflict;;
  check (expectedVersion =? 0) ErrValidation;;
  check (negb (expectedVersion =? version_of current)) ErrVersionConflict;;
  check (negb (empty_str (k_Number input)) ||
         negb (k_TemplateID (k_document input) =s k_TemplateID (k_document current)))
    ErrValidation;;
  check (negb (sources_ok (owned_sources current) [] (k_ServiceItems input))) ErrValidation;;
  merged ← pure (edit_input current input);
  prepared ← prepareContract actor merged (empty_str (k_TemplateID (k_document current)))
               "contract.edit";
  let prepared := edited current prepared in
  licensed;;
  let op := OpUpdateDraft prepared expectedVersion (p_UserID actor) in
  business meta op (λ o d, invoke (mkCall o meta op) d);;
  now ← clock;
  mret (editable actor (set_updated now (set_version (expectedVersion + 1) prepared))).

(** ** Signing *)

(** A shipment's texts. *)
Definition shipment_checks (s : SigningShipment) : res unit :=
  let phone := TrimSpace (sh_RecipientPhone s) in
  fail_if (empty_str phone || (MaxSigningPhonePlaintextLen <? rune_count phone)) ErrValidation;;
  fail_if ((120 <? rune_count (TrimSpace (sh_CourierNumber s))) ||
           (120 <? rune_count (TrimSpace (sh_RecipientName s))) ||
           (500 <? rune_count (TrimSpace (sh_RecipientAddress s)))) ErrValidation.

(** The record of a contract; a phone stored as plain text is encrypted on the
    way, and a failure of that is ignored. *)
Definition repaired (tenantID id : string) (found : SigningView * option signingRecord)
    : Svc SigningView :=
  match found.2 with
  | Some row => n ← tick; attempt (signing (SgRepair (ev_nonce n) tenantID id row));; mret found.1
  | None => mret found.1
  end.
Definition GetSigningRecordView (actor : Principal) (id : string) : Svc SigningView :=
  GetApprovedContract actor id "contract.approved.read";;
  let filter := default no_scope (Scope actor "contract.approved.read") in
  found ← reads (λ o, @GetSigningRecordScoped o _ _ filter id);
  repaired (sf_TenantID filter) id found.
Definition ListSigningRecords (actor : Principal) (q : SigningRecordQuery) : Svc SigningRecordPage :=
  filter ← scope_or (Scope actor "contract.approved.read");
  reads (λ o, @ListSigningRecordsScoped _ o _ _ _ filter q).

Definition SaveSigningShipment (actor : Principal) (id : string) (shipment : SigningShipment)
    : Svc unit :=
  licensed;;
  GetApprovedContract actor id "contract.signing.manage";;
  pure (shipment_checks shipment);;
  found ← reads (λ o, @GetSigningRecord o _ _ (p_TenantID actor) id);
  current ← repaired (p_TenantID actor) id found;
  check ((sv_Status current =s SigningPendingReview) || (sv_Status current =s SigningCompleted))
    ErrStateConflict;;
  licensed;;
  n ← tick;
  signing (SgShip (ev_nonce n) (p_TenantID actor) id (p_UserID actor) shipment).

Definition MarkSigningReceived (actor : Principal) (id : string) : Svc unit :=
  licensed;;
  GetApprovedContract actor id "contract.signing.manage";;
  licensed;;
  signing (SgReceive (p_TenantID actor) id (p_UserID actor)).
Definition RecordSigningReminder (actor : Principal) (id : string) : Svc unit :=
  licensed;;
  GetApprovedContract actor id "contract.signing.manage";;
  licensed;;
  signing (SgRemind (p_TenantID actor) id (p_UserID actor)).

Definition ConfirmSigning (actor : Principal) (id : string) (confirmation : SigningConfirmation)
    : Svc unit :=
  licensed;;
  GetApprovedContract actor id "contract.signing.manage";;
  check (negb (cf_SealVerified confirmation) || negb (cf_SignatureVerified confirmation) ||
         IsZero (cf_SignedAt confirmation) || (cf_DocumentVersion confirmation =? 0) ||
         empty_str (TrimSpace (cf_ContentSHA256 confirmation))) ErrValidation;;
  licensed;;
  signing (SgConfirm (p_TenantID actor) id (p_UserID actor) confirmation).

(** ** Stamped documents *)

Definition set_stored (fileID state : string) (s : StampedDocument) : StampedDocument :=
  mkStampedDocument (st_ContractID s) (st_Version s) (st_OriginalFilename s)
    (st_ContentSHA256 s) (st_Document s) (st_UploadedAt s) (st_UploadedBy s) fileID state.

(** The copy in the gateway: its request names the version and the content. *)
Definition gateway_copy (tenantID id : string) (document : string) (saved : StampedDocument)
    : Svc StampedDocument :=
  let result state value :=
    signing (SgResult tenantID id (st_Version saved) (st_ContentSHA256 saved) state value) in
  signing (SgPending tenantID id (st_Version saved) (st_ContentSHA256 saved));;
  let request := "contract-stamped-" +:+ id +:+ "-v" +:+ Itoa (st_Version saved) +:+ "-" +:+
                 of_bytes (take 16 (bytes (sha256_hex document))) in
  sent ← attempt (fileID ← upload request; bind_file fileID id;; mret fileID);
  match sent with
  | Err e =>
      attempt (result "FAILED" (ev_message e));;
      check (negb (mode_is "dual")) e;;
      mret saved
  | Ok fileID => result "READY" fileID;; mret (set_stored fileID "READY" saved)
  end.

Definition saveStampedDocument (actor : Principal) (id filename document : string)
    (expectedVersion : Z) (reason : string) : Svc StampedDocument :=
  licensed;;
  GetApprovedContract actor id "contract.stamped_pdf.upload";;
  licensed;;
  now ← clock;
  let u := mkUpload id filename document now (p_UserID actor) expectedVersion reason in
  saved ← writes (λ o, WRepo (Signing o (SgUpload (p_TenantID actor) u)))
            (λ o, @Signing.SaveStampedDocument o _ (p_TenantID actor) u);
  if negb (sc_HasGateway cfg) || mode_is "legacy" then mret saved
  else gateway_copy (p_TenantID actor) id document saved.

Definition SaveStampedDocument (actor : Principal) (id filename document : string)
    (expectedVersion : Z) : Svc StampedDocument :=
  saveStampedDocument actor id filename document expectedVersion "".
Definition ReplaceStampedDocument (actor : Principal) (id filename document : string)
    (expectedVersion : Z) (reason : string) : Svc StampedDocument :=
  let reason := TrimSpace reason in
  check (empty_str reason) ErrValidation;;
  check (500 <? rune_count reason) ErrValidation;;
  check (expectedVersion =? 0) ErrValidation;;
  saveStampedDocument actor id filename document expectedVersion reason.

Definition hash_is (content hash : string) : bool := EqualFold (sha256_hex content) hash.
Definition set_content (content : string) (s : StampedDocument) : StampedDocument :=
  mkStampedDocument (st_ContractID s) (st_Version s) (st_OriginalFilename s)
    (st_ContentSHA256 s) content (st_UploadedAt s) (st_UploadedBy s) (st_PlatformFileID s)
    (st_FileGatewayState s).

(** The gateway's copy when it is ready and has the registered hash; else the
    stored bytes, unless the gateway is required. *)
Definition GetStampedDocumentView (actor : Principal) (id : string) : Svc StampedDocument :=
  GetApprovedContract actor id "contract.document.download";;
  document ← reads (λ o, @GetStampedDocument o (p_TenantID actor) id);
  let mode := ToLower (TrimSpace (sc_StampedFileMode cfg)) in
  if negb (sc_HasGateway cfg) || (mode =s "legacy") || empty_str (st_PlatformFileID document) ||
     negb (EqualFold (st_FileGatewayState document) "READY") then mret document
  else
    n ← tick;
    let copy := match ev_gateway n with
                | Ok content => if hash_is content (st_ContentSHA256 document)
                                then Ok content else Err ErrOther
                | Err e => Err e
                end in
    match copy with
    | Ok content => mret (set_content content document)
    | Err e =>
        check (mode =s "required") e;;
        check (negb (empty_str (st_ContentSHA256 document)) &&
               negb (hash_is (st_Document document) (st_ContentSHA256 document))) ErrOther;;
        mret document
    end.

(** ** Rules *)

Definition ListRulesView (actor : Principal) : Svc (list Rule) :=
  check (negb (Has actor "approval.view") && negb (Has actor "approval_rule.manage")) ErrForbidden;;
  reads (λ o, @ListRules o (p_TenantID actor)).

Definition set_rule (id tenantID : string) (version : Z) (r : Rule) : Rule :=
  mkApprovalRule id tenantID (r_Name r) (r_Priority r) (r_Enabled r) (r_Expression r) (r_Nodes r)
    version.
Definition CreateRuleCase (actor : Principal) (rule : Rule) : Svc Rule :=
  licensed;;
  check (negb (Has actor "approval_rule.manage")) ErrForbidden;;
  pure (validateRule rule);;
  id ← fresh_id;
  let rule := set_rule id (p_TenantID actor) 1 rule in
  licensed;;
  writes (λ o, WCreateRule o rule (p_UserID actor)) (λ o, @CreateRule o rule (p_UserID actor));;
  mret rule.
Definition UpdateRuleCase (actor : Principal) (rule : Rule) : Svc Rule :=
  licensed;;
  check (negb (Has actor "approval_rule.manage")) ErrForbidden;;
  check (empty_str (r_ID rule) || (r_Version rule =? 0)) ErrValidation;;
  pure (validateRule rule);;
  let rule := set_rule (r_ID rule) (p_TenantID actor) (r_Version rule) rule in
  licensed;;
  writes (λ o, WUpdateRule o rule (p_UserID actor)) (λ o, @UpdateRule o rule (p_UserID actor));;
  mret (set_rule (r_ID rule) (r_TenantID rule) (r_Version rule + 1) rule).
Definition DeleteRuleCase (actor : Principal) (id : string) (version : Z) : Svc unit :=
  licensed;;
  check (negb (Has actor "approval_rule.manage")) ErrForbidden;;
  check (empty_str id || (version =? 0)) ErrValidation;;
  licensed;;
  writes (λ o, WDeleteRule o (p_TenantID actor) id version)
    (λ o, @DeleteRule o (p_TenantID actor) id version).

End DraftCases.
