(* ===== verification/ServiceFlow.v ===== *)
(** * What the requests may do

    The requests of the service and a logic for them: [spec tr m Q] says that
    the use case [m], started after the effects [tr], ends with an allowed trace
    when it fails and with [Q] when it succeeds.  [seen] are the tables a
    request met before its first effect: what it started with, and what the other
    requests made of them step by step. *)

From S2P Require Import Prelude GoStrings Decimal GoTime BusinessClock Status NumberRule.
From S2P Require Import PaymentTerm ProjectService ImportPolicy Utf8 PhoneCipher ApprovalRule Workflow.
From S2P Require Import Store Outbound Handover Numbering Repository Changes Signing SigningFlow Access.
From S2P Require Import Like Ledger Reports SigningLedger Templates Drafting Service.
From S2P Require Import UseCases DraftCases.

#[local] Open Scope string_scope.
#[local] Open Scope Z_scope.
#[local] Open Scope list_scope.

(** ** Requests *)

Inductive request : Type :=
  | RqSubmit (id : string) (termsIdentical : bool) (version : Z)
  | RqChangeStatus (id : string) (version : Z) (target : Status) (reason : string)
  | RqCommand (approvalID : string) (command : ApprovalCommand)
  | RqRecover (approvalID : string)
  | RqFinancial (id : string) (change : ContractFinancialChange)
  | RqCreate (c : Contract)
  | RqCreateExternal (c : Contract)
  | RqUpdateDraft (id : string) (version : Z) (input : Contract)
  | RqShip (id : string) (shipment : SigningShipment)
  | RqReceive (id : string)
  | RqRemind (id : string)
  | RqConfirm (id : string) (confirmation : SigningConfirmation)
  | RqUpload (id filename document : string) (version : Z)
  | RqReplace (id filename document : string) (version : Z) (reason : string)
  | RqSigningRecord (id : string)
  | RqCreateRule (rule : Rule)
  | RqUpdateRule (rule : Rule)
  | RqDeleteRule (id : string) (version : Z).

Section Steps.
Context `{GoUnicode} `{Sha256} `{TzDatabase} `{Collation} `{Documents} `{Aead} `{PhoneKeyEnv}.
Context `{Environment}.

(** One step of a session: the others act, an effect is noted, or the write
    noted last changes the tables. *)
Inductive session_step : Session → Session → Prop :=
  | step_tick s :
      session_step s (mkSession (S (se_step s)) (ev_others (se_step s) (se_db s)) (se_trace s))
  | step_effect s e :
      session_step s (mkSession (se_step s) (se_db s) (se_trace s ++ [e]))
  | step_write s w :
      last (se_trace s) = Some (EWrite w) →
      session_step s (mkSession (se_step s) (write_db w (se_db s)) (se_trace s)).

Section Spec.
Variable d0 : DB.
Variable allowed : list Effect → Prop.
Hypothesis allowed_nil : allowed [].

Definition start : Session := mkSession 0 d0 [].
(** The tables before step [n], as long as the request itself wrote nothing. *)
Fixpoint tables_at (n : nat) : DB :=
  match n with
  | O => d0
  | S n => ev_others n (tables_at n)
  end.
Definition seen (d : DB) : Prop := ∃ n, d = tables_at n.
Definition reached (s : Session) : Prop :=
  rtc session_step start s ∧ (se_trace s = [] → se_db s = tables_at (se_step s)).

Definition spec {A} (tr : list Effect) (m : Svc A) (Q : A → list Effect → Prop) : Prop :=
  ∀ s, reached s → se_trace s = tr →
    reached (m s).2 ∧
    match (m s).1 with
    | Ok a => Q a (se_trace (m s).2)
    | Err _ => allowed (se_trace (m s).2)
    end.

Lemma reached_step s s' : reached s → session_step s s' → reached s'.
Proof.
  intros [Hr He] Hs. split; [by eapply rtc_r|].
  destruct Hs as [s|s e|s w Hl]; cbn [se_trace se_db se_step]; intros E.
  - cbn. by rewrite He.
  - by destruct (se_trace s).
  - by rewrite E in Hl.
Qed.

Lemma spec_ret {A} tr (a : A) (Q : A → list Effect → Prop) : Q a tr → spec tr (mret a) Q.
Proof. intros HQ s Hr E. cbn. by rewrite E. Qed.

Lemma spec_bind {A B} tr (m : Svc A) (f : A → Svc B) R Q :
  spec tr m R → (∀ a tr', R a tr' → spec tr' (f a) Q) → spec tr (m ≫= f) Q.
Proof.
  intros Hm Hf s Hr E. destruct (Hm s Hr E) as [Hr1 HP].
  unfold mbind, Svc_bind. destruct (m s) as [[a|e] s1]; cbn [fst snd] in *; [|done].
  by apply (Hf a (se_trace s1) HP s1).
Qed.

Lemma spec_weaken {A} tr (m : Svc A) (R Q : A → list Effect → Prop) :
  spec tr m R → (∀ a tr', R a tr' → Q a tr') → spec tr m Q.
Proof.
  intros Hm HQ s Hr E. destruct (Hm s Hr E) as [Hr1 HP]. split; [done|].
  destruct (m s).1; auto.
Qed.

Lemma spec_refuse {A} tr e (Q : A → list Effect → Prop) : allowed tr → spec tr (refuse e) Q.
Proof. intros Ha s Hr E. cbn. by rewrite E. Qed.

(** Pure results: a failure ends the request. *)
Lemma spec_pure {A} tr (r : res A) : allowed tr → spec tr (pure r) (λ a tr', tr' = tr ∧ r = Ok a).
Proof. intros Ha s Hr E. cbn. destruct r; cbn; rewrite E; done. Qed.
Lemma spec_check tr b e : allowed tr → spec tr (check b e) (λ _ tr', tr' = tr ∧ b = false).
Proof.
  intros Ha. eapply spec_weaken; [by apply spec_pure|]. intros [] tr' [-> E]. split; [done|].
  by apply fail_if_ok in E.
Qed.

Lemma spec_tick tr : spec tr tick (λ _ tr', tr' = tr).
Proof. intros s Hr E. cbn. split; [|done]. eapply reached_step; [done|constructor]. Qed.
Lemma spec_emit tr e : spec tr (emit e) (λ _ tr', tr' = tr ++ [e]).
Proof.
  intros s Hr E. cbn. rewrite <- E. split; [|done]. eapply reached_step; [done|constructor].
Qed.

(** A step and a computation on it. *)
Lemma spec_tick_bind {A} tr (f : nat → Svc A) Q : (∀ n, spec tr (f n) Q) → spec tr (n ← tick; f n) Q.
Proof. intros Hf. eapply spec_bind; [apply spec_tick|]. by intros n tr' ->. Qed.

Lemma spec_licensed tr :
  allowed tr → spec tr licensed (λ _ tr', tr' = tr ∧ ∃ n, ev_license n = Granted).
Proof.
  intros Ha. apply spec_tick_bind. intros n.
  destruct (ev_license n) eqn:E; [apply spec_ret; eauto|by apply spec_refuse..].
Qed.

(** A read returns what a query finds in tables the request met. *)
Lemma spec_reads {A} (m : Oracle → Tx A) :
  spec [] (reads m) (λ a tr', tr' = [] ∧ ∃ o d, seen d ∧ (m o (0%nat, d)).1 = Ok a).
Proof.
  apply spec_tick_bind. intros n s Hr E. unfold read_under. cbn [fst snd].
  split; [done|]. destruct (m _ _).1 as [a|e] eqn:Em; rewrite E; [|done].
  split; [done|]. exists (ev_oracle n), (se_db s). split; [|done].
  exists (se_step s). by apply Hr.
Qed.

Lemma spec_writes {A} tr (w : Oracle → Write) (f : Oracle → DB → res A * DB) :
  (∀ o d, (f o d).2 = write_db (w o) d) → (∀ o, allowed (tr ++ [EWrite (w o)])) →
  spec tr (writes w f)
    (λ a tr', ∃ o d, tr' = tr ++ [EWrite (w o)] ∧ (f o d).1 = Ok a).
Proof.
  intros Hw Ha. apply spec_tick_bind. intros n.
  eapply spec_bind; [apply spec_emit|]. intros _ tr' ->.
  intros s Hr E. unfold change_under. cbn [fst snd se_trace]. rewrite E. split.
  - eapply reached_step; [done|]. rewrite Hw, <- E. destruct s. constructor.
    cbn in E |- *. by rewrite E, last_snoc.
  - destruct (f _ _).1 as [a|e] eqn:Ef; [|done]. exists (ev_oracle n), (se_db s).
    done.
Qed.

Lemma spec_attempt {A} tr (m : Svc A) R :
  spec tr m R → spec tr (attempt m) (λ r tr', match r with Ok a => R a tr' | Err _ => allowed tr' end).
Proof.
  intros Hm s Hr E. destruct (Hm s Hr E) as [Hr1 HP]. unfold attempt.
  destruct (m s) as [r s1]. by split.
Qed.

Lemma spec_fresh tr : spec tr fresh_id (λ id tr', tr' = tr ∧ ∃ n, id = @o_id (ev_oracle n) 0).
Proof. apply spec_tick_bind. intros n. apply spec_ret. eauto. Qed.
Lemma spec_clock tr : spec tr clock (λ _ tr', tr' = tr).
Proof. apply spec_tick_bind. intros n. by apply spec_ret. Qed.

Lemma spec_start tr workflowID inp :
  allowed (tr ++ [EStart workflowID inp]) →
  spec tr (start_workflow workflowID inp) (λ _ tr', tr' = tr ++ [EStart workflowID inp]).
Proof.
  intros Ha. apply spec_tick_bind. intros n. eapply spec_bind; [apply spec_emit|].
  intros _ tr' ->. destruct (ev_start n workflowID); [by apply spec_ret|by apply spec_refuse..].
Qed.
Lemma spec_signal tr workflowID runID command :
  allowed (tr ++ [ESignal workflowID runID command]) →
  spec tr (signal_workflow workflowID runID command)
    (λ _ tr', tr' = tr ++ [ESignal workflowID runID command]).
Proof.
  intros Ha. apply spec_tick_bind. intros n. eapply spec_bind; [apply spec_emit|].
  intros _ tr' ->. destruct (ev_signal n); [by apply spec_ret|by apply spec_refuse].
Qed.
Lemma spec_query tr workflowID runID :
  allowed tr → spec tr (query_state workflowID runID) (λ _ tr', tr' = tr).
Proof.
  intros Ha. apply spec_tick_bind. intros n.
  destruct (ev_state n workflowID runID); [by apply spec_ret|by apply spec_refuse].
Qed.
Lemma spec_personnel tr roles :
  allowed tr → spec tr (loadPersonnel roles) (λ _ tr', tr' = tr).
Proof.
  intros Ha. apply spec_tick_bind. intros n.
  destruct (ev_personnel n) as [users|]; [|by apply spec_refuse].
  destruct (users roles); [by apply spec_ret|by apply spec_refuse].
Qed.

Lemma start_reached : reached start.
Proof. by split; [apply rtc_refl|]. Qed.

Lemma seen_keeps (I : DB → Prop) d :
  I d0 → (∀ n d, I d → I (ev_others n d)) → seen d → I d.
Proof. intros H0' Ho (n & ->). induction n; cbn; auto. Qed.

(** An invariant of the tables survives a request whose writes, and the other
    requests, keep it. *)
Lemma reached_keeps (I : DB → Prop) s :
  I d0 → (∀ n d, I d → I (ev_others n d)) → reached s →
  (∀ w d, EWrite w ∈ se_trace s → I d → I (write_db w d)) → I (se_db s).
Proof using Type.
  clear allowed_nil allowed. intros H0' Ho [Hr _]. revert s Hr.
  refine (rtc_ind_r (λ s, (∀ w d, EWrite w ∈ se_trace s → I d → I (write_db w d)) → I (se_db s)) _ _ _);
    [done|].
  intros s s' _ Hstep IH Hw. destruct Hstep as [s|s e|s w Hl]; cbn [se_db se_trace] in *; auto.
  - apply IH. intros w d Hin. apply Hw. set_solver.
  - apply Hw; [|by apply IH]. apply last_Some in Hl as (l & ->). set_solver.
Qed.

(** A run of a whole request. *)
Lemma spec_reached {A} (m : Svc A) (Q : A → list Effect → Prop) :
  spec [] m Q → reached (m start).2.
Proof. intros Hm. by apply (Hm start start_reached eq_refl). Qed.
Lemma spec_run {A} (m : Svc A) (Q : A → list Effect → Prop) :
  spec [] m Q → (∀ a tr, Q a tr → allowed tr) → allowed (se_trace (m start).2).
Proof.
  intros Hm HQ. destruct (Hm start start_reached eq_refl) as [_ HP].
  destruct (m start).1; eauto.
Qed.

End Spec.

(** What a step may do when its failure is not the end of the request. *)
Lemma spec_tried {A} d0 allowed (P : list Effect → Prop) tr (m : Svc A) :
  spec d0 P tr m (λ _ tr', P tr') → spec d0 allowed tr (attempt m) (λ _ tr', P tr').
Proof.
  intros Hm s Hr E. destruct (Hm s Hr E) as [Hr1 HP]. unfold attempt.
  destruct (m s) as [[a|e] s1]; by split.
Qed.
Lemma spec_mono {A} d0 (P allowed : list Effect → Prop) tr (m : Svc A) :
  (∀ tr', P tr' → allowed tr') → spec d0 P tr m (λ _ tr', P tr') →
  spec d0 allowed tr m (λ _ tr', allowed tr').
Proof.
  intros Ha Hm s Hr E. destruct (Hm s Hr E) as [Hr1 HP]. split; [done|].
  destruct (m s).1; by apply Ha.
Qed.
Lemma spec_sent {A} d0 (P : list Effect → Prop) tr e (m : nat → Svc A) :
  (∀ n, spec d0 P (tr ++ [e]) (m n) (λ _ tr', P tr')) →
  spec d0 P tr (n ← tick; emit e;; m n) (λ _ tr', P tr').
Proof.
  intros Hm. apply spec_tick_bind. intros n. eapply spec_bind; [apply spec_emit|].
  intros [] tr' ->. apply Hm.
Qed.
Lemma spec_upload d0 (P : list Effect → Prop) tr request :
  P (tr ++ [EUpload request]) → spec d0 P tr (upload request) (λ _ tr', P tr').
Proof.
  intros HP. apply spec_sent. intros n. eapply spec_weaken; [by apply spec_pure|]. by intros ? ? [-> _].
Qed.
Lemma spec_bound d0 (P : list Effect → Prop) tr file id :
  P (tr ++ [EBind file id]) → spec d0 P tr (bind_file file id) (λ _ tr', P tr').
Proof.
  intros HP. apply spec_sent. intros n. eapply spec_weaken; [by apply spec_pure|]. by intros ? ? [-> _].
Qed.
Lemma spec_written {A} d0 (P : list Effect → Prop) tr (w : Oracle → Write) (f : Oracle → DB → res A * DB) :
  (∀ o d, (f o d).2 = write_db (w o) d) → (∀ o, P (tr ++ [EWrite (w o)])) →
  spec d0 P tr (writes w f) (λ _ tr', P tr').
Proof.
  intros Hw HP. eapply spec_weaken; [by apply spec_writes|]. intros ? tr' (o & d & -> & _). apply HP.
Qed.

End Steps.

(** Peel the checks and reads of a use case off: every one of them leaves the
    trace alone. *)
Ltac svc_step :=
  lazymatch goal with
  | |- spec _ _ _ (licensed ≫= _) _ =>
      eapply spec_bind; [by apply spec_licensed|]; intros _ ? [-> ?]
  | |- spec _ _ _ (check _ _ ≫= _) _ =>
      eapply spec_bind; [by apply spec_check|]; intros _ ? [-> ?]
  | |- spec _ _ _ (pure _ ≫= _) _ =>
      eapply spec_bind; [by apply spec_pure|]; intros ? ? [-> ?]
  | |- spec _ _ _ (reads _ ≫= _) _ =>
      eapply spec_bind; [apply spec_reads; done|]; intros ? ? (-> & ? & ? & ? & ?)
  | |- spec _ _ _ (fresh_id ≫= _) _ =>
      eapply spec_bind; [apply spec_fresh|]; intros ? ? [-> ?]
  | |- spec _ _ _ (clock ≫= _) _ =>
      eapply spec_bind; [apply spec_clock|]; intros ? ? ->
  | |- spec _ _ _ (tick ≫= _) _ => apply spec_tick_bind; intros ?
  | |- spec _ _ _ (loadPersonnel _ ≫= _) _ =>
      eapply spec_bind; [by apply spec_personnel|]; intros ? ? ->
  | |- spec _ _ _ (query_state _ _ ≫= _) _ =>
      eapply spec_bind; [by apply spec_query|]; intros ? ? ->
  | |- spec _ _ _ (mret _) _ => apply spec_ret
  | |- spec _ _ _ (refuse _) _ => by apply spec_refuse
  end; cbv beta zeta.
