(* ===== verification/Authority.v ===== *)
(** * Every request has the effects its caller is allowed

    What a request may do to the tables, the workflow engine and the file
    gateway, as a predicate over the trace of its effects, and the proof that
    every request keeps to it, whatever other requests do meanwhile and however
    the remote services answer. *)

From S2P Require Import Prelude GoStrings Decimal GoTime BusinessClock Status NumberRule.
From S2P Require Import PaymentTerm ProjectService ImportPolicy Utf8 PhoneCipher ApprovalRule Workflow.
From S2P Require Import Store Outbound Handover Numbering Repository Changes Signing SigningFlow Access.
From S2P Require Import Like Ledger LedgerFlow Reports SigningLedger Templates Drafting Prepared.
From S2P Require Import Service UseCases DraftCases ServiceFlow.

#[local] Open Scope string_scope.
#[local] Open Scope Z_scope.
#[local] Open Scope list_scope.

Section Authority.
Context `{GoUnicode} `{Sha256} `{TzDatabase} `{Collation} `{Documents} `{Aead} `{PhoneKeyEnv}.
Context `{GoFloat} `{TemplateEngine} `{MediaTypes} `{CharCollation} `{Ulid} `{Environment}.
Variables (cfg : Config) (meta : requestMeta) (d0 : DB) (actor : Principal).

(** ** One request *)

Definition handle (r : request) : Svc unit :=
  match r with
  | RqSubmit id identical version => SubmitContractVersion cfg meta actor id identical version;; mret tt
  | RqChangeStatus id version target reason => ChangeStatus cfg meta actor id version target reason;; mret tt
  | RqCommand approvalID command => Command actor approvalID command;; mret tt
  | RqRecover approvalID => RecoverApproval cfg meta actor approvalID
  | RqFinancial id change => ChangeContractFinancialTerms cfg meta actor id change
  | RqCreate c => CreateContractCase cfg meta actor c;; mret tt
  | RqCreateExternal c => CreateExternalContract cfg meta actor c;; mret tt
  | RqUpdateDraft id version input => UpdateContractDraftCase cfg meta actor id version input;; mret tt
  | RqShip id shipment => SaveSigningShipment actor id shipment
  | RqReceive id => MarkSigningReceived actor id
  | RqRemind id => RecordSigningReminder actor id
  | RqConfirm id confirmation => ConfirmSigning actor id confirmation
  | RqUpload id filename document version =>
      SaveStampedDocument cfg actor id filename document version;; mret tt
  | RqReplace id filename document version reason =>
      ReplaceStampedDocument cfg actor id filename document version reason;; mret tt
  | RqSigningRecord id => GetSigningRecordView actor id;; mret tt
  | RqCreateRule rule => CreateRuleCase actor rule;; mret tt
  | RqUpdateRule rule => UpdateRuleCase actor rule;; mret tt
  | RqDeleteRule id version => DeleteRuleCase actor id version
  end.

(** ** What a request saw *)

Definition granted : Prop := ∃ n, ev_license n = Granted.
Definition saw_contract (filter : ScopeFilter) (id : string) (c : Contract) : Prop :=
  ∃ d, seen d0 d ∧ loaded d filter id c.
Definition saw_approval (id : string) (m : Meta) : Prop :=
  ∃ d i, seen d0 d ∧ db_approvals d !! id = Some i ∧ ai_TenantID i = p_TenantID actor ∧ m = meta_of i.

(** A contract of the actor's scope that is not a ledger of its own. *)
Definition may_touch (permission id : string) (c : Contract) : Prop :=
  ∃ filter, contractScope actor permission = Some filter ∧ saw_contract filter id c ∧
    operational c = true.

Definition written (op : operation) (e : Effect) : Prop :=
  ∃ o, e = EWrite (WRepo (Business (mkCall o meta op))).
Definition signed (op : signing_operation) (e : Effect) : Prop :=
  ∃ o, e = EWrite (WRepo (Signing o op)).

(** Who may act on a draft: an administrator of its tenant, or the sales user who
    created it. *)
Definition draft_actor (c : Contract) : Prop :=
  p_TenantID actor = k_TenantID c ∧ p_UserID actor ≠ "" ∧
  ("admin" ∈ p_Roles actor ∨
   "sales" ∈ p_Roles actor ∧ k_CreatedBy (k_row c) = p_UserID actor).
Lemma draft_actor_allowed c : draftActorAllowed actor c = true → draft_actor c.
Proof.
  unfold draftActorAllowed, draft_actor. destruct (_ || _) eqn:E; [done|]. bool_hyps. text_hyps.
  destruct (contains (p_Roles actor) "admin") eqn:Ea.
  { intros _. split_and!; [done..|]. left. by apply contains_spec. }
  destruct (contains (p_Roles actor) "sales") eqn:Es; [|done]. intros Hc. bool_hyps. text_hyps.
  split_and!; [done..|]. by right.
Qed.

(** ** What it may do *)

Definition submit_allowed (id : string) (identical : bool) (version : Z) (tr : list Effect) : Prop :=
  ∃ filter c inp o d rules matched,
    Scope actor "contract.create" = Some filter ∧ saw_contract filter id c ∧ operational c = true ∧
    k_Status c = StatusDraft ∧ (version = 0 ∨ version_of c = version) ∧
    draft_actor c ∧
    seen d0 d ∧ (@ListEnabledRules o (p_TenantID actor) (0%nat, d)).1 = Ok rules ∧
    MatchHighest rules (contract_facts c identical) = Ok matched ∧
    tr = [EStart (contract_workflow_id (p_TenantID actor) id (version_of c)) (InContract inp)] ∧
    (∃ n, ci_ApprovalID inp = @o_id (ev_oracle n) 0) ∧
    ci_TenantID inp = p_TenantID actor ∧ ci_ContractID inp = id ∧
    ci_ContractVersion inp = version_of c ∧ ci_ContentHash inp = k_ContentHash (k_document c) ∧
    ci_ApplicantUserID inp = p_UserID actor ∧
    ci_RuleID inp = match matched with Some r => r_ID r | None => "" end ∧
    map n_RoleCode (ci_Nodes inp) =
      map n_RoleCode (match matched with Some r => r_Nodes r | None => defaultNodes end) ∧
    Forall (λ n, n_AssigneeIDs n ≠ []) (ci_Nodes inp).

Definition status_allowed (id : string) (version : Z) (target : Status) (reason : string)
    (tr : list Effect) : Prop :=
  ∃ c, may_touch "contract.edit" id c ∧ version_of c = version ∧ reason ≠ "" ∧
    CanTransition (k_Status c) target = true ∧
    ((RequiresApproval target = false ∧
      ∃ key e, tr = [e] ∧
        written (OpTransition (p_TenantID actor) id version target (p_UserID actor) reason key) e) ∨
     (RequiresApproval target = true ∧
      ∃ inp, tr = [EStart (status_workflow_id (p_TenantID actor) id version) (InStatus inp)] ∧
        si_TenantID inp = p_TenantID actor ∧ si_ContractID inp = id ∧
        si_ContractVersion inp = version ∧ si_FromStatus inp = k_Status c ∧
        si_TargetStatus inp = target ∧ si_ApplicantUserID inp = p_UserID actor ∧
        si_AdminUserIDs inp ≠ [])).

Definition command_sent (approvalID : string) (command : ApprovalCommand) (tr : list Effect) : Prop :=
  ∃ m filter c sent,
    saw_approval approvalID m ∧ Scope actor "contract.read" = Some filter ∧
    saw_contract filter (am_ContractID m) c ∧ am_Status m = StatusRunning ∧
    command_allowed actor m (Action command) = true ∧
    tr = [ESignal (am_WorkflowID m) (am_RunID m) sent] ∧
    Action sent = Action command ∧ ActorUserID sent = p_UserID actor ∧
    (Action command = ActionApprove → am_ApplicantUserID m ≠ p_UserID actor).

Definition recovery_allowed (approvalID : string) (tr : list Effect) : Prop :=
  (Has actor "approval.manage" || hasRole actor "admin") = true ∧
  ∃ m d i st status inp e,
    saw_approval (TrimSpace approvalID) m ∧ am_Status m = StatusRunning ∧
    seen d0 d ∧ db_approvals d !! am_ID m = Some i ∧ ai_RuntimeState i = JsonOf st ∧
    recovery_status st = Ok status ∧ tr = [e] ∧ written (OpComplete inp) e ∧
    ca_ApprovalID inp = am_ID m ∧ ca_TenantID inp = am_TenantID m ∧ ca_Status inp = status.

Definition financial_allowed (id : string) (change : ContractFinancialChange) (tr : list Effect)
    : Prop :=
  sc_ContractFinancialChangeEnabled cfg = true ∧
  ∃ c terms change' e,
    may_touch "contract.edit" id c ∧ FinancialChangeStatusEligible (k_Status c) = true ∧
    fc_ExpectedVersion change = version_of c ∧ 0 < fc_AmountMinor change ∧
    NormalizePaymentTerms (fc_PaymentTerms change) (fc_AmountMinor change)
      (ToUpper (TrimSpace (fc_Currency change))) = Ok terms ∧
    tr = [e] ∧ written (OpFinancial (k_TenantID c) change' (p_UserID actor)) e ∧
    fc_ContractID change' = k_ID c ∧ fc_ExpectedVersion change' = version_of c ∧
    fc_AmountMinor change' = fc_AmountMinor change ∧ fc_PaymentTerms change' = terms.

(** What a creation stores: a well-formed draft of the caller, without a number,
    that the caller's own scope reaches. *)
Definition new_contract_ok (external : bool) (filter : ScopeFilter) (c k : Contract) : Prop :=
  contract_ok external k ∧ k_AmountMinor k = k_AmountMinor c ∧ k_TenantID k = p_TenantID actor ∧ k_Number k = "" ∧
  k_Status k = StatusDraft ∧ k_CreatedBy (k_row k) = p_UserID actor ∧
  k_OwnerUserID (k_owner k) = p_UserID actor ∧ k_ContentHash (k_document k) = content_hash (k_document k) ∧
  (p_IdentityID actor ≠ "" → canAccessContract filter k = true).
Definition file_request (id : string) : string := "contract-external-" +:+ id.

(** The effects of a creation: the gateway's copy of an external original comes
    before the contract, its binding after it. *)
Definition create_allowed (external : bool) (c : Contract) (tr : list Effect) : Prop :=
  ∃ filter, Scope actor "contract.create" = Some filter ∧
    ((external = true ∧ ∃ id, tr = [EUpload (file_request id)]) ∨
     ∃ k now pre e post,
       new_contract_ok external filter c k ∧ written (OpCreate now k (p_UserID actor)) e ∧
       tr = pre ++ e :: post ∧
       (pre = [] ∨ (external = true ∧ pre = [EUpload (file_request (k_ID k))])) ∧
       (post = [] ∨
        ∃ file state detail o,
          external = true ∧ file ≠ "" ∧
          post = [EBind file (k_ID k);
                  EWrite (WSourceResult o (p_TenantID actor) (k_ID k) file state detail)])).

(** An edited draft keeps its identity, owner, number and origin; the original
    and the amount of an external contract are frozen. *)
Definition update_allowed (id : string) (version : Z) (input : Contract) (tr : list Effect) : Prop :=
  ∃ filter c k e,
    Scope actor "contract.edit" = Some filter ∧ saw_contract filter id c ∧ operational c = true ∧
    draft_actor c ∧ k_Status c = StatusDraft ∧ version = version_of c ∧
    tr = [e] ∧ written (OpUpdateDraft k version (p_UserID actor)) e ∧
    k_ID k = k_ID c ∧ k_TenantID k = k_TenantID c ∧ k_owner k = k_owner c ∧
    k_Number k = k_Number c ∧ k_OriginKind (k_origin k) = k_OriginKind (k_origin c) ∧
    contract_ok (empty_str (k_TemplateID (k_document c))) k ∧
    k_AmountMinor k = k_AmountMinor input ∧
    (k_TemplateID (k_document c) = "" →
       k_Document (k_document k) = k_Document (k_document c) ∧
       k_Content (k_document k) = k_Content (k_document c) ∧
       k_AmountMinor k = k_AmountMinor c).

(** A contract past its approval. *)
Definition approved_by (permission id : string) : Prop :=
  ∃ c, may_touch permission id c ∧ ApprovalPassed (k_Status c) = true.
Definition managed (id : string) (op : signing_operation) (tr : list Effect) : Prop :=
  approved_by "contract.signing.manage" id ∧ ∃ e, tr = [e] ∧ signed op e.

(** Reading a record may encrypt a phone that was stored as plain text. *)
Definition repairs (id : string) (tr : list Effect) : Prop :=
  tr = [] ∨ ∃ nonce row e, tr = [e] ∧ signed (SgRepair nonce (p_TenantID actor) id row) e.
Definition ship_allowed (id : string) (shipment : SigningShipment) (tr : list Effect) : Prop :=
  approved_by "contract.signing.manage" id ∧
  ∃ pre, repairs id pre ∧
    (tr = pre ∨
     ∃ nonce e, tr = pre ++ [e] ∧
       signed (SgShip nonce (p_TenantID actor) id (p_UserID actor) shipment) e).
Definition record_allowed (id : string) (tr : list Effect) : Prop :=
  approved_by "contract.approved.read" id ∧ repairs id tr.

Definition confirm_allowed (id : string) (confirmation : SigningConfirmation) (tr : list Effect)
    : Prop :=
  cf_SealVerified confirmation = true ∧ cf_SignatureVerified confirmation = true ∧
  cf_DocumentVersion confirmation ≠ 0 ∧
  managed id (SgConfirm (p_TenantID actor) id (p_UserID actor) confirmation) tr.

(** The steps after a stored stamped document: its copy is announced, sent,
    bound and recorded, in this order. *)
Definition gateway_step (id : string) (e : Effect) : Prop :=
  (∃ version sha, signed (SgPending (p_TenantID actor) id version sha) e) ∨
  (∃ request, e = EUpload request) ∨ (∃ file, e = EBind file id) ∨
  (∃ version sha state value, signed (SgResult (p_TenantID actor) id version sha state value) e).
Definition upload_allowed (id filename document : string) (version : Z) (reason : string)
    (tr : list Effect) : Prop :=
  approved_by "contract.stamped_pdf.upload" id ∧
  ∃ now e rest, tr = e :: rest ∧
    signed (SgUpload (p_TenantID actor)
              (mkUpload id filename document now (p_UserID actor) version reason)) e ∧
    Forall (gateway_step id) rest.

Definition rule_allowed (tr : list Effect) (w : Oracle → Write) : Prop :=
  Has actor "approval_rule.manage" = true ∧ ∃ o, tr = [EWrite (w o)].

(** What the request [r] may have done. *)
Definition allowed (r : request) (tr : list Effect) : Prop :=
  tr = [] ∨
  match r with
  | RqSigningRecord id => record_allowed id tr
  | _ =>
      granted ∧
      match r with
      | RqSubmit id identical version => submit_allowed id identical version tr
      | RqChangeStatus id version target reason => status_allowed id version target reason tr
      | RqCommand approvalID command => command_sent approvalID command tr
      | RqRecover approvalID => recovery_allowed approvalID tr
      | RqFinancial id change => financial_allowed id change tr
      | RqCreate c => create_allowed false c tr
      | RqCreateExternal c => create_allowed true c tr
      | RqUpdateDraft id version input => update_allowed id version input tr
      | RqShip id shipment => ship_allowed id shipment tr
      | RqReceive id => managed id (SgReceive (p_TenantID actor) id (p_UserID actor)) tr
      | RqRemind id => managed id (SgRemind (p_TenantID actor) id (p_UserID actor)) tr
      | RqConfirm id confirmation => confirm_allowed id confirmation tr
      | RqUpload id filename document version => upload_allowed id filename document version "" tr
      | RqReplace id filename document version reason =>
          TrimSpace reason ≠ "" ∧ upload_allowed id filename document version (TrimSpace reason) tr
      | RqSigningRecord _ => False
      | RqCreateRule rule =>
          validateRule rule = Ok tt ∧
          ∃ id, rule_allowed tr (λ o, WCreateRule o (set_rule id (p_TenantID actor) 1 rule) (p_UserID actor))
      | RqUpdateRule rule =>
          validateRule rule = Ok tt ∧
          rule_allowed tr (λ o, WUpdateRule o (set_rule (r_ID rule) (p_TenantID actor) (r_Version rule) rule)
                                  (p_UserID actor))
      | RqDeleteRule id version => rule_allowed tr (λ o, WDeleteRule o (p_TenantID actor) id version)
      end
  end.

(** ** Shared steps *)

Lemma allowed_nil r : allowed r [].
Proof. by left. Qed.
#[local] Hint Resolve allowed_nil : core.

Section Steps.
Variable r : request.
Notation spec := (spec d0 (allowed r)).

Lemma spec_scope o : spec [] (scope_or o) (λ f tr, tr = [] ∧ o = Some f).
Proof. destruct o; [by apply spec_ret|by apply spec_refuse]. Qed.

Lemma spec_contract filter id :
  spec [] (getContractScoped filter id) (λ c tr, tr = [] ∧ saw_contract filter id c).
Proof.
  eapply spec_weaken; [by apply spec_reads|]. intros c tr (-> & o & d & Hd & Hr).
  split; [done|]. exists d. split; [done|]. by apply (@GetContractScoped_loaded o).
Qed.

Lemma spec_approval id :
  spec [] (reads (λ o, @GetApprovalMeta o (p_TenantID actor) id)) (λ m tr, tr = [] ∧ saw_approval id m).
Proof.
  eapply spec_weaken; [by apply spec_reads|]. intros m tr (-> & o & d & Hd & Hr).
  split; [done|]. unfold GetApprovalMeta in Hr.
  apply runs_first in Hr as (d' & Hr). inv_tx Hr. exists d.
  match goal with h : runs (find_approval _ _) _ _ _ |- _ =>
    unfold find_approval in h; apply runs_query in h as [Hq _] end.
  destruct (db_approvals d !! id) as [i|]; [|done]. destruct (ai_TenantID i =s _) eqn:Et; [|done].
  injection Hq as ->. apply streq_true in Et. by exists i.
Qed.

(** An approval of a contract the actor reads. *)
Definition saw_task (id : string) (m : Meta) : Prop :=
  saw_approval id m ∧
  ∃ filter c, Scope actor "contract.read" = Some filter ∧ saw_contract filter (am_ContractID m) c.
Lemma spec_task id :
  spec [] (queryApprovalState actor id) (λ found tr, tr = [] ∧ saw_task id found.1).
Proof.
  unfold queryApprovalState, visible_approval, getApprovalContract.
  eapply (spec_bind _ _ _ _ _ (λ m tr, tr = [] ∧ saw_task id m)).
  - eapply spec_bind; [apply spec_approval|]. intros m ? [-> Hm].
    eapply spec_bind.
    + eapply spec_bind; [apply spec_scope|]. intros f ? [-> Hf]. cbv beta.
      eapply spec_weaken; [apply spec_contract|]. intros c ? [-> Hc].
      instantiate (1 := λ _ tr, tr = [] ∧ saw_task id m). split; [done|]. split; [done|]. by exists f, c.
    + intros ? ? [-> Ht]. svc_step. by svc_step.
  - intros m ? [-> Hm]. svc_step. by svc_step.
Qed.

Lemma spec_resolved nodes :
  spec [] (resolveNodes nodes)
    (λ ns tr, tr = [] ∧ map n_RoleCode ns = map n_RoleCode nodes ∧ Forall (λ n, n_AssigneeIDs n ≠ []) ns).
Proof.
  unfold resolveNodes. svc_step. svc_step. svc_step. split; [done|]. split.
  - apply list_eq. intros i. rewrite !list_lookup_fmap, list_lookup_imap.
    by destruct (nodes !! i).
  - apply Forall_forall. intros n Hn E.
    assert (existsb (λ n, is_empty (n_AssigneeIDs n)) (imap (resolve_node a) nodes) = true)
      by (apply existsb_exists; exists n; rewrite E; split; [by apply list_elem_of_In|done]).
    congruence.
Qed.

Lemma spec_approved permission id :
  spec [] (GetApprovedContract actor id permission) (λ c tr, tr = [] ∧ approved_by permission id).
Proof.
  unfold GetApprovedContract. eapply spec_bind; [apply spec_scope|]. intros f ? [-> Hf].
  eapply spec_bind; [apply spec_contract|]. intros c ? [-> Hc].
  svc_step. svc_step. bool_hyps. split; [done|]. exists c. split; [|done]. by exists f.
Qed.

(** A call of the repository. *)
Lemma spec_called tr op (Q : unit → list Effect → Prop) :
  (∀ e, written op e → allowed r (tr ++ [e]) ∧ Q tt (tr ++ [e])) →
  spec tr (business meta op (λ o d, invoke (mkCall o meta op) d)) Q.
Proof.
  intros Ha. unfold business. eapply spec_weaken.
  - apply spec_writes; [done|]. intros o. apply Ha. by exists o.
  - intros [] tr' (o & d & -> & _). apply Ha. by exists o.
Qed.
Lemma spec_business tr op :
  (∀ e, written op e → allowed r (tr ++ [e])) →
  spec tr (business meta op (λ o d, invoke (mkCall o meta op) d)) (λ _ tr', allowed r tr').
Proof. intros Ha. apply spec_called. auto. Qed.
Lemma spec_signing tr op (Q : unit → list Effect → Prop) :
  (∀ e, signed op e → allowed r (tr ++ [e]) ∧ Q tt (tr ++ [e])) → spec tr (signing op) Q.
Proof.
  intros Ha. unfold signing. eapply spec_weaken.
  - apply spec_writes; [done|]. intros o. apply Ha. by exists o.
  - intros [] tr' (o & d & -> & _). apply Ha. by exists o.
Qed.

Lemma spec_then {A} tr (m : Svc A) : spec tr m (λ _ tr', allowed r tr') →
  spec tr (m;; mret tt) (λ _ tr', allowed r tr').
Proof. intros Hm. eapply spec_bind; [exact Hm|]. intros a tr' Ha. by apply spec_ret. Qed.

End Steps.

(** The steps whose value matters, and the others. *)
Ltac auth_scope f Hf := eapply spec_bind; [apply spec_scope|]; intros f ? [-> Hf].
Ltac auth_contract c Hc := eapply spec_bind; [apply spec_contract|]; intros c ? [-> Hc].
Ltac auth_approved Hc := eapply spec_bind; [apply spec_approved|]; intros ? ? [-> Hc].
Ltac svc_steps := repeat svc_step.

(** The last step of a request, whose effect is shown allowed first. *)
Ltac started :=
  lazymatch goal with
  | |- spec _ (allowed ?r) ?tr (start_workflow ?w ?inp ≫= _) _ =>
      assert (Ha : allowed r (tr ++ [EStart w inp]));
      [|eapply spec_bind; [by apply spec_start|]; intros ? ? ->; by apply spec_ret]
  end.

Ltac sent :=
  lazymatch goal with
  | |- spec _ (allowed ?r) ?tr (signal_workflow ?w ?run ?command ≫= _) _ =>
      assert (Ha : allowed r (tr ++ [ESignal w run command]));
      [|eapply spec_bind; [by apply spec_signal|]; intros ? ? ->; by apply spec_ret]
  end.

(** ** Each request *)

Lemma submit_authorised id identical version r :
  r = RqSubmit id identical version →
  spec d0 (allowed r) [] (SubmitContractVersion cfg meta actor id identical version)
    (λ _ tr, allowed r tr).
Proof.
  intros Er. unfold SubmitContractVersion. svc_step. auth_scope f Hf. auth_contract c Hc.
  svc_steps. eapply spec_bind; [apply spec_resolved|]. intros ns ? (-> & Hroles & Hass).
  svc_steps. bool_hyps. started. subst r. right. split; [done|].
  exists f, c. do 5 eexists. split_and!; try done.
  - by apply streq_true.
  - match goal with h : _ && _ = false |- _ => apply andb_false_iff in h as [h|h] end;
      bool_hyps; auto.
  - by apply draft_actor_allowed.
Qed.

Lemma status_authorised id version target reason r :
  r = RqChangeStatus id version target reason →
  spec d0 (allowed r) [] (ChangeStatus cfg meta actor id version target reason)
    (λ _ tr, allowed r tr).
Proof.
  intros Er. unfold ChangeStatus. svc_step. auth_scope f Hf. svc_steps. auth_contract c Hc.
  svc_steps. bool_hyps.
  assert (Hok : may_touch "contract.edit" id c ∧ version_of c = version ∧ reason ≠ "" ∧
            CanTransition (k_Status c) target = true).
  { match goal with h : ValidateTransition _ _ = Ok _ |- _ =>
      unfold ValidateTransition in h; inv_ok h end. bool_hyps. text_hyps. split_and!; try done.
    by exists f. }
  destruct (RequiresApproval target) eqn:Et; cbn [negb]; svc_steps.
  - started. subst r. right. split; [done|]. exists c. destruct Hok as (? & ? & ? & ?).
    split_and!; [done..|]. right. split; [done|]. eexists. split; [done|].
    split_and!; try done. cbn. by apply is_empty_false.
  - eapply spec_bind; [apply spec_business|]; [|intros ? ? Ha; by apply spec_ret].
    intros e He. subst r. right. split; [done|]. exists c. destruct Hok as (? & ? & ? & ?).
    split_and!; [done..|]. left. split; [done|]. by do 2 eexists.
Qed.

Lemma command_authorised approvalID command r :
  r = RqCommand approvalID command →
  spec d0 (allowed r) [] (Command actor approvalID command) (λ _ tr, allowed r tr).
Proof.
  intros Er. unfold Command. svc_step.
  eapply spec_bind; [apply spec_task|]. intros [m st] ? [-> (Hm & f & c & Hf & Hc)]. cbv beta iota.
  cbn [fst] in *. svc_step. svc_step. svc_step. bool_hyps. text_hyps.
  eapply (spec_bind _ _ _ _ _ (λ _ tr, tr = [])).
  { destruct (_ =s ActionAddSign); [|by apply spec_ret]. svc_step.
    eapply spec_weaken; [by apply spec_pure|]. by intros ? ? [-> _]. }
  intros _ ? ->. svc_steps. sent. subst r. right. split; [done|].
  exists m, f, c. eexists. split_and!; try done.
  intros Ea Happ. match goal with h : command_allowed _ _ _ = true |- _ =>
    rewrite Ea in h; unfold command_allowed in h; rewrite Happ, streq_refl in h;
    change (Has actor "approval.process" && false = true) in h; by rewrite andb_false_r in h end.
Qed.

Lemma recover_authorised approvalID r :
  r = RqRecover approvalID →
  spec d0 (allowed r) [] (RecoverApproval cfg meta actor approvalID) (λ _ tr, allowed r tr).
Proof.
  intros Er. unfold RecoverApproval. svc_step. svc_step.
  eapply spec_bind; [apply spec_approval|]. intros m ? [-> Hm].
  svc_steps. destruct a0 as [st|]; [|by apply spec_refuse]. svc_steps.
  apply spec_business. intros e He. subst r. right. split; [done|]. split.
  { match goal with h : negb _ && negb _ = false |- _ => revert h end.
    by destruct (Has actor _), (hasRole actor _). }
  match goal with h : (GetApprovalRuntimeState _ _ _).1 = _ |- _ => rename h into Hs end.
  unfold GetApprovalRuntimeState in Hs. apply runs_first in Hs as (d' & Hs).
  apply runs_bind in Hs as (i & d1 & Hq & Hs). apply runs_take_row, runs_query in Hq as [Hq ->].
  destruct (db_approvals _ !! am_ID m) as [i'|] eqn:Ei; [|done].
  destruct (ai_TenantID i' =s _); [|done]. injection Hq as <-.
  destruct (ai_RuntimeState i) as [| |st'] eqn:Est; [by apply runs_ret in Hs as [? _]| |].
  { by apply runs_throw in Hs. }
  apply runs_ret in Hs as [[= <-] _]. bool_hyps.
  exists m, x0, i, st. do 3 eexists. split_and!; try done. by apply streq_true.
Qed.

Lemma financial_authorised id change r :
  r = RqFinancial id change →
  spec d0 (allowed r) [] (ChangeContractFinancialTerms cfg meta actor id change) (λ _ tr, allowed r tr).
Proof.
  intros Er. unfold ChangeContractFinancialTerms. svc_step. svc_step. auth_scope f Hf. svc_step.
  auth_contract c Hc. svc_steps.
  match goal with h : as_validation _ = Ok _ |- _ => apply as_validation_ok in h end.
  apply spec_business. intros e He. subst r. right. split; [done|].
  bool_hyps. split; [done|]. exists c. do 3 eexists. split_and!; try done; try by exists f.
  all: text_hyps.
Qed.

(** ** Preparing a contract *)

(** The owner a scope lets the actor write. *)
Definition owner_within (filter : ScopeFilter) (o : ownerFields) : Prop :=
  sf_AllowAll filter = true ∨
  (sf_AllowSelf filter = true ∧ k_OwnerIdentityID o = p_IdentityID actor) ∨
  containsString (sf_OrganizationIDs filter) (k_OwnerOrgID o) = true ∨
  containsString (sf_ProjectIDs filter) (k_ProjectID o) = true.

Lemma write_authorised c permission c' :
  authorizeContractWrite actor c permission = Ok c' →
  ∃ filter, Scope actor permission = Some filter ∧ owner_within filter (k_owner c') ∧
    k_document c' = k_document c ∧ k_AmountMinor c' = k_AmountMinor c.
Proof.
  unfold authorizeContractWrite. destruct (Scope actor permission) as [f|]; [|done].
  intros E. exists f. split; [done|].
  set (c1 := if sf_AllowSelf f then _ else c) in E.
  apply bind_ok in E as (? & Hs%fail_if_ok & E). inv_ok E.
  subst c1. unfold owner_within. destruct (sf_AllowSelf f); cbn [negb andb] in *.
  - split; [|done]. right. by left.
  - split; [|done]. destruct (sf_AllowAll f); [by left|]. right. right. cbn [negb andb] in Hs.
    destruct (containsString (sf_OrganizationIDs f) _); [by left|].
    destruct (containsString (sf_ProjectIDs f) _); [by right|done].
Qed.

Section Preparing.
Variable r : request.
Notation spec := (spec d0 (allowed r)).

Lemma spec_template tenantID id : spec [] (load_template tenantID id) (λ _ tr, tr = []).
Proof.
  apply spec_tick_bind. intros n. eapply spec_weaken; [by apply spec_pure|]. by intros ? ? [-> _].
Qed.

Lemma spec_rendered permission c :
  spec [] (rendered cfg actor permission c)
    (λ k tr, tr = [] ∧ k_owner k = k_owner c ∧ k_AmountMinor k = k_AmountMinor c).
Proof.
  unfold rendered. svc_step. eapply spec_bind; [apply spec_template|]. intros t ? ->.
  svc_step. match goal with v : (string * gmap string string)%type |- _ => destruct v end.
  svc_step. eapply spec_bind; [apply spec_template|]. intros again ? ->. by svc_step.
Qed.

Lemma spec_prepared permission c external :
  spec [] (prepareContract cfg actor c external permission)
    (λ k tr, tr = [] ∧ contract_ok external k ∧
       (∃ filter, Scope actor permission = Some filter ∧ owner_within filter (k_owner k)) ∧
       k_AmountMinor k = k_AmountMinor c ∧
       (external = true → k_document k = k_document c)).
Proof.
  unfold prepareContract. svc_step.
  match goal with h : authorizeContractWrite _ _ _ = Ok ?c1 |- _ =>
    rename c1 into c1'; apply write_authorised in h as (f & Hf & Hw & Hd & Ha) end.
  eapply (spec_bind _ _ _ _ _ (λ k tr, tr = [] ∧ k_owner k = k_owner c1' ∧
            k_AmountMinor k = k_AmountMinor c ∧ (external = true → k_document k = k_document c))).
  { destruct external; cbn [negb andb]; [by apply spec_ret|].
    destruct (negb _); [|by apply spec_ret]. eapply spec_weaken; [apply spec_rendered|].
    intros k ? (-> & ? & ?). split_and!; [done..|congruence|done]. }
  intros k ? (-> & Ho & Ha' & Hd'). svc_steps. eapply spec_weaken; [by apply spec_pure|].
  intros k3 ? [-> E3]. split; [done|].
  match goal with h1 : normalizeContractShape _ _ = _, h2 : prepareContractReferences _ _ _ _ _ _ = _ |- _ =>
    destruct (contract_prepared _ _ _ _ _ _ _ _ _ h1 h2 E3) as [Hok (_ & _ & ? & ? & ? & _)] end.
  split; [done|]. split; [exists f; split; [done|congruence]|]. split; [congruence|].
  intros He. rewrite <- Hd' by done. done.
Qed.

(** ** Creation *)

Lemma spec_upload_source c :
  allowed r [EUpload (file_request (k_ID c))] →
  spec [] (upload_source cfg c)
    (λ k tr, tr = [EUpload (file_request (k_ID c))] ∧ ∃ file state, k = set_source file state c).
Proof.
  intros Ha. unfold upload_source.
  eapply spec_bind; [apply spec_tried, (spec_upload _ (λ t, t = [EUpload (file_request (k_ID c))])); done|].
  intros sent ? ->. destruct sent as [file|e].
  - apply spec_ret. split; [done|]. by do 2 eexists.
  - svc_step. apply spec_ret. split; [done|]. by do 2 eexists.
Qed.

Lemma spec_bind_source tr c :
  spec tr (bind_source c)
    (λ _ tr', ∃ o state detail, tr' = tr ++ [EBind (k_SourceFileID (k_document c)) (k_ID c);
       EWrite (WSourceResult o (k_TenantID c) (k_ID c) (k_SourceFileID (k_document c)) state detail)]).
Proof.
  unfold bind_source.
  eapply spec_bind; [apply spec_tried,
    (spec_bound _ (λ t, t = tr ++ [EBind (k_SourceFileID (k_document c)) (k_ID c)])); done|].
  intros bound ? ->. cbv zeta. set (state := if is_ok bound then _ else _).
  set (detail := match bound with Ok _ => _ | Err _ => _ end).
  eapply spec_bind; [eapply spec_tried, (spec_written _ (λ t, ∃ o, t =
    (tr ++ [EBind (k_SourceFileID (k_document c)) (k_ID c)]) ++
    [EWrite (WSourceResult o (k_TenantID c) (k_ID c) (k_SourceFileID (k_document c)) state detail)]));
    [done|by eexists]|].
  intros ? ? (o & ->). apply spec_ret. exists o, state, detail. by rewrite <- app_assoc.
Qed.

(** The stored draft is within the scope it was created under. *)
Lemma draft_reached filter id c :
  Scope actor "contract.create" = Some filter → owner_within filter (k_owner c) →
  p_IdentityID actor ≠ "" → canAccessContract filter (new_draft actor filter id c) = true.
Proof.
  intros Hs Hw Hne. destruct (Scope_some _ _ _ Hs) as (_ & Ht & Hi).
  apply canAccessContract_spec. split; [by rewrite Ht|]. cbn.
  destruct Hw as [Hall|[[Hself Hid]|[Ho|Hp]]]; [by left|..].
  - destruct (sf_AllowAll filter); [by left|]. rewrite andb_false_r. right. left. by rewrite Hid, Hi.
  - right. right. left. by apply containsString_spec.
  - right. right. right. by apply containsString_spec.
Qed.

Lemma spec_create external c :
  (∀ tr, granted → create_allowed external c tr → allowed r tr) →
  spec [] (createContract cfg meta actor c external) (λ _ tr, allowed r tr).
Proof.
  intros Ha0. unfold createContract. svc_step.
  assert (Ha : ∀ tr, create_allowed external c tr → allowed r tr) by by intros tr; apply Ha0.
  eapply spec_bind; [apply spec_prepared|]. intros k ? (-> & Hok & (f & Hf & Hw) & Hamount & _).
  svc_step. rewrite Hf. cbn [default]. unfold persistNewContract. svc_step.
  eapply spec_bind; [apply spec_fresh|]. intros id ? [-> _]. cbv zeta.
  assert (Hn : new_contract_ok external f c (new_draft actor f id k)).
  { destruct (Scope_some _ _ _ Hf) as (_ & Ht & _). split_and!; try done.
    intros Hne. by apply draft_reached. }
  assert (Hup : allowed r [EUpload (file_request id)] ∨ external = false).
  { destruct external; [left|by right]. apply Ha. exists f. split; [done|]. left.
    split; [done|]. by exists id. }
  eapply (spec_bind _ _ _ _ _ (λ k2 tr, allowed r tr ∧ new_contract_ok external f c k2 ∧
    (tr = [] ∨ (external = true ∧ tr = [EUpload (file_request (k_ID k2))])))).
  { destruct external; cbn [andb]; [|by apply spec_ret; auto].
    destruct (_ && _); [|by apply spec_ret; auto]. destruct Hup as [Hup|]; [|done].
    eapply spec_weaken; [by apply spec_upload_source|]. intros k2 ? (-> & file & state & ->).
    split; [done|]. split; [exact Hn|]. by right. }
  clear Hn Hup. intros k2 pre (Hpre & Hn & Hcase). svc_step.
  eapply spec_bind; [apply spec_clock|]. intros now ? ->. cbv zeta.
  assert (Hstep : ∀ e post, written (OpCreate now k2 (p_UserID actor)) e →
            (post = [] ∨ ∃ file state detail o, external = true ∧ file ≠ "" ∧
               post = [EBind file (k_ID k2);
                       EWrite (WSourceResult o (p_TenantID actor) (k_ID k2) file state detail)]) →
            allowed r (pre ++ e :: post)).
  { intros e post He Hpost. apply Ha. exists f. split; [done|]. right.
    exists k2, now, pre, e, post. split_and!; [done..| |done].
    destruct Hcase as [?|[? ?]]; [by left|by right]. }
  eapply (spec_bind _ _ _ _ _ (λ _ tr, ∃ e, written (OpCreate now k2 (p_UserID actor)) e ∧ tr = pre ++ [e])).
  { apply spec_called. intros e He. split; [|by exists e]. apply Hstep; [done|by left]. }
  intros _ ? (e & He & ->). destruct (external && negb (empty_str _)) eqn:Eb.
  - bool_hyps. eapply spec_bind; [apply spec_bind_source|].
    intros k3 ? (o & state & detail & ->). apply spec_ret. rewrite <- app_assoc. apply Hstep; [done|].
    right. do 4 eexists. split; [done|]. split; [by apply streq_false|].
    destruct Hn as (_ & _ & -> & _). done.
  - eapply spec_bind; [by apply (spec_ret _ _ _ _ (λ k tr, tr = pre ++ [e]))|]. intros ? ? ->.
    apply spec_ret. apply Hstep; [done|by left].
Qed.

End Preparing.

Lemma create_authorised c r :
  r = RqCreate c →
  spec d0 (allowed r) [] (CreateContractCase cfg meta actor c) (λ _ tr, allowed r tr).
Proof.
  intros ->. unfold CreateContractCase. apply spec_create. by right.
Qed.

Lemma create_external_authorised c r :
  r = RqCreateExternal c →
  spec d0 (allowed r) [] (CreateExternalContract cfg meta actor c) (λ _ tr, allowed r tr).
Proof.
  intros Er. unfold CreateExternalContract. auth_scope f Hf. svc_steps. apply spec_create.
  match goal with h : prepareExternalSource _ _ = Ok ?p |- _ =>
    assert (k_AmountMinor p = k_AmountMinor c) as Ea
      by (unfold prepareExternalSource in h; inv_ok h; done) end.
  intros tr Hg (g & Hs & Htr). subst r. right. split; [done|]. exists g. split; [done|].
  unfold new_contract_ok in *. by rewrite <- Ea.
Qed.

(** ** Editing *)

Lemma edit_input_frozen current input merged :
  edit_input current input = Ok merged → k_TemplateID (k_document current) = "" →
  k_Document (k_document merged) = k_Document (k_document current) ∧
  k_Content (k_document merged) = k_Content (k_document current) ∧
  k_AmountMinor merged = k_AmountMinor current.
Proof.
  unfold edit_input. intros E Ht. apply bind_ok in E as (sources & _ & E).
  apply bind_ok in E as (terms & _ & E). apply bind_ok in E as (document & Hd & E).
  assert (empty_str (k_TemplateID (k_document current)) = true) as Et by by rewrite Ht.
  rewrite Et in Hd. unfold freeze_original in Hd. inv_ok Hd. inv_ok E. bool_hyps. done.
Qed.

Lemma edit_input_amount current input merged :
  edit_input current input = Ok merged → k_AmountMinor merged = k_AmountMinor input.
Proof.
  unfold edit_input. intros E. apply bind_ok in E as (? & _ & E). apply bind_ok in E as (? & _ & E).
  apply bind_ok in E as (? & _ & E). by inv_ok E.
Qed.

Lemma update_authorised id version input r :
  r = RqUpdateDraft id version input →
  spec d0 (allowed r) [] (UpdateContractDraftCase cfg meta actor id version input) (λ _ tr, allowed r tr).
Proof.
  intros Er. unfold UpdateContractDraftCase. svc_step. auth_scope f Hf. auth_contract c Hc.
  svc_steps.
  match goal with h : edit_input _ _ = Ok _ |- _ => rename h into Hedit end.
  pose proof (edit_input_frozen _ _ _ Hedit) as Hfrozen.
  eapply spec_bind; [apply spec_prepared|]. intros k ? (-> & Hok & _ & Ha & Hd). cbv zeta.
  svc_step.
  eapply spec_bind; [apply spec_business|].
  { intros e He. subst r. right. split; [done|]. bool_hyps.
    exists f, c, (edited c k), e. split_and!; try done.
    - by apply draft_actor_allowed.
    - by apply streq_true.
    - cbn. rewrite Ha. by apply edit_input_amount in Hedit.
    - intros Ht. destruct (Hfrozen Ht) as (E1 & E2 & E3). unfold edited. cbn.
      rewrite Hd by by rewrite Ht. split_and!; [done..|]. by rewrite Ha. }
  intros ? ? Hal. eapply spec_bind; [apply spec_clock|]. intros ? ? ->. by apply spec_ret.
Qed.

(** ** Signing *)

Section SigningSteps.
Variable r : request.
Notation spec := (spec d0 (allowed r)).

Lemma spec_repaired id found :
  spec [] (repaired (p_TenantID actor) id found) (λ _ tr, repairs id tr).
Proof.
  unfold repaired. destruct found as [view [row|]]; cbn; [|by apply spec_ret; left].
  apply spec_tick_bind. intros n. eapply spec_bind.
  - apply spec_tried, (spec_written _ (λ tr, repairs id tr)); [done|].
    intros o. right. by do 3 eexists; split; [|eexists].
  - intros ? ? Ht. by apply spec_ret.
Qed.

Lemma spec_managed tr op :
  (∀ e, signed op e → allowed r (tr ++ [e])) → spec tr (signing op) (λ _ tr', allowed r tr').
Proof. intros Ha. apply spec_signing. auto. Qed.

End SigningSteps.

Lemma record_authorised id r :
  r = RqSigningRecord id →
  spec d0 (allowed r) [] (GetSigningRecordView actor id) (λ _ tr, allowed r tr).
Proof.
  intros Er. unfold GetSigningRecordView. auth_approved Hc. svc_step.
  assert (sf_TenantID (default no_scope (Scope actor "contract.approved.read")) = p_TenantID actor) as ->.
  { destruct Hc as (c & (f & Hf & _) & _). unfold contractScope in Hf.
    destruct (Scope actor _) as [g|] eqn:Es; [|done]. by apply Scope_some in Es as (_ & ? & _). }
  eapply spec_weaken; [apply spec_repaired|]. intros ? ? Ht. subst r. right. by split.
Qed.

Lemma ship_authorised id shipment r :
  r = RqShip id shipment →
  spec d0 (allowed r) [] (SaveSigningShipment actor id shipment) (λ _ tr, allowed r tr).
Proof.
  intros Er. unfold SaveSigningShipment. svc_step. auth_approved Hc. svc_steps.
  eapply spec_bind; [apply spec_repaired|]. intros view tr Hr.
  assert (Hal : ∀ tr', (tr' = tr ∨ ∃ nonce e, tr' = tr ++ [e] ∧
     signed (SgShip nonce (p_TenantID actor) id (p_UserID actor) shipment) e) → allowed r tr').
  { intros tr' Htr. subst r. right. split; [done|]. split; [done|]. by exists tr. }
  assert (allowed r tr) by by apply Hal; left.
  svc_steps. apply spec_managed. intros e He. apply Hal. right. by do 2 eexists.
Qed.

Lemma managed_authorised id op r :
  (∀ tr, granted → managed id op tr → allowed r tr) →
  spec d0 (allowed r) []
    (licensed;; GetApprovedContract actor id "contract.signing.manage";; licensed;; signing op)
    (λ _ tr, allowed r tr).
Proof.
  intros Ha. svc_step. auth_approved Hc. svc_step. apply spec_managed. intros e He.
  apply Ha; [done|]. split; [done|]. by exists e.
Qed.

Lemma confirm_authorised id confirmation r :
  r = RqConfirm id confirmation →
  spec d0 (allowed r) [] (ConfirmSigning actor id confirmation) (λ _ tr, allowed r tr).
Proof.
  intros Er. unfold ConfirmSigning. svc_step. auth_approved Hc. svc_steps. apply spec_managed.
  intros e He. subst r. right. split; [done|]. bool_hyps. split_and!; try done. split; [done|]. by exists e.
Qed.

(** ** Stamped documents *)

(** From [tr] on, only steps of the gateway. *)
Definition gateway_steps (id : string) (tr tr' : list Effect) : Prop :=
  ∃ rest, tr' = tr ++ rest ∧ Forall (gateway_step id) rest.
Lemma gateway_snoc id tr tr' e :
  gateway_steps id tr tr' → gateway_step id e → gateway_steps id tr (tr' ++ [e]).
Proof.
  intros (rest & -> & Hr) He. exists (rest ++ [e]). split; [by rewrite app_assoc|].
  apply Forall_app. split; [done|]. by constructor.
Qed.

Lemma gateway_signed id tr t op :
  gateway_steps id tr t → (∀ e, signed op e → gateway_step id e) →
  spec d0 (gateway_steps id tr) t (signing op) (λ _ t', gateway_steps id tr t').
Proof.
  intros Ht Hop. apply spec_written; [done|]. intros o. apply gateway_snoc; [done|].
  apply Hop. by exists o.
Qed.

Lemma spec_copy tr id document saved :
  spec d0 (gateway_steps id tr) tr (gateway_copy cfg (p_TenantID actor) id document saved)
    (λ _ tr', gateway_steps id tr tr').
Proof.
  assert (H0' : gateway_steps id tr tr) by (exists []; by rewrite app_nil_r).
  assert (Hres : ∀ e version sha state value,
    signed (SgResult (p_TenantID actor) id version sha state value) e → gateway_step id e)
    by (intros; right; right; right; by do 4 eexists).
  unfold gateway_copy.
  eapply spec_bind; [apply gateway_signed; [done|intros e He; left; by do 2 eexists]|].
  intros [] t1 H1'. cbv beta zeta.
  eapply spec_bind; [apply spec_tried with (P := gateway_steps id tr)|].
  { eapply spec_bind; [apply spec_upload, gateway_snoc; [done|right; left; by eexists]|].
    intros file t2 H2'. eapply spec_bind.
    - apply spec_bound, gateway_snoc; [done|right; right; left; by eexists].
    - intros [] t3 H3'. by apply spec_ret. }
  intros [file|e] t2 H2'.
  - eapply spec_bind; [apply gateway_signed; [done|eauto]|]. intros [] t3 H3'. by apply spec_ret.
  - eapply spec_bind; [apply spec_tried, gateway_signed; [done|eauto]|].
    intros ? t3 H3'. cbv beta in H3'. svc_step. by apply spec_ret.
Qed.

Lemma upload_authorised id filename document version reason r :
  (∀ tr, granted → upload_allowed id filename document version reason tr → allowed r tr) →
  spec d0 (allowed r) [] (saveStampedDocument cfg actor id filename document version reason)
    (λ _ tr, allowed r tr).
Proof.
  intros Ha. unfold saveStampedDocument. svc_step. auth_approved Hc. svc_step.
  eapply spec_bind; [apply spec_clock|]. intros now ? ->. cbv zeta.
  set (u := mkUpload _ _ _ _ _ _ _).
  assert (Hstep : ∀ e tr', signed (SgUpload (p_TenantID actor) u) e → gateway_steps id [e] tr' →
            allowed r tr').
  { intros e tr' He (rest & -> & Hr). apply Ha; [done|]. split; [done|]. by exists now, e, rest. }
  assert (Hone : ∀ o, let e := EWrite (WRepo (Signing o (SgUpload (p_TenantID actor) u))) in
            signed (SgUpload (p_TenantID actor) u) e ∧ gateway_steps id [e] [e]).
  { intros o. split; [by exists o|]. by exists []. }
  eapply spec_bind.
  { apply spec_writes; [done|]. intros o. eapply Hstep; apply Hone. }
  intros saved ? (o & d & -> & _). destruct (Hone o) as [He Hself].
  destruct (_ || _).
  - apply spec_ret. by eapply Hstep.
  - eapply spec_mono; [|apply spec_copy]. intros tr' Ht. by eapply Hstep.
Qed.

(** ** Rules *)

(** A write of a rule is the last step. *)
Lemma rule_written {A} (w : Oracle → Write) (f : Oracle → DB → res A * DB) r :
  (∀ o d, (f o d).2 = write_db (w o) d) → (∀ tr, (∃ o, tr = [EWrite (w o)]) → allowed r tr) →
  spec d0 (allowed r) [] (writes w f) (λ _ tr, allowed r tr).
Proof. intros Hw Ha. apply spec_written; [done|]. intros o. apply Ha. by exists o. Qed.

Lemma create_rule_authorised rule r :
  r = RqCreateRule rule →
  spec d0 (allowed r) [] (CreateRuleCase actor rule) (λ _ tr, allowed r tr).
Proof.
  intros Er. unfold CreateRuleCase. svc_steps.
  match goal with h : validateRule _ = Ok ?u |- _ => destruct u end.
  eapply spec_bind; [apply rule_written; [done|]|intros ? ? Ha; by apply spec_ret].
  intros tr (o & ->). subst r. right. bool_hyps. split; [done|]. split; [done|].
  eexists. split; [done|by exists o].
Qed.
Lemma update_rule_authorised rule r :
  r = RqUpdateRule rule →
  spec d0 (allowed r) [] (UpdateRuleCase actor rule) (λ _ tr, allowed r tr).
Proof.
  intros Er. unfold UpdateRuleCase. svc_steps.
  match goal with h : validateRule _ = Ok ?u |- _ => destruct u end.
  eapply spec_bind; [apply rule_written; [done|]|intros ? ? Ha; by apply spec_ret].
  intros tr (o & ->). subst r. right. bool_hyps. split; [done|]. split; [done|].
  split; [done|by exists o].
Qed.
Lemma delete_rule_authorised id version r :
  r = RqDeleteRule id version →
  spec d0 (allowed r) [] (DeleteRuleCase actor id version) (λ _ tr, allowed r tr).
Proof.
  intros Er. unfold DeleteRuleCase. svc_steps. apply rule_written; [done|].
  intros tr (o & ->). subst r. right. bool_hyps. split; [done|]. split; [done|by exists o].
Qed.

Lemma requests_spec r : spec d0 (allowed r) [] (handle r) (λ _ tr, allowed r tr).
Proof.
  destruct r; cbn [handle]; try apply spec_then.
  - by apply submit_authorised.
  - by apply status_authorised.
  - by apply command_authorised.
  - by apply recover_authorised.
  - by apply financial_authorised.
  - by apply create_authorised.
  - by apply create_external_authorised.
  - by apply update_authorised.
  - by apply ship_authorised.
  - apply (managed_authorised id (SgReceive (p_TenantID actor) id (p_UserID actor))). by right.
  - apply (managed_authorised id (SgRemind (p_TenantID actor) id (p_UserID actor))). by right.
  - by apply confirm_authorised.
  - unfold SaveStampedDocument. apply upload_authorised. by right.
  - unfold ReplaceStampedDocument. svc_steps. apply upload_authorised. intros tr Hg Hu. right.
    split; [done|]. split; [by apply streq_false|done].
  - by apply record_authorised.
  - by apply create_rule_authorised.
  - by apply update_rule_authorised.
  - by apply delete_rule_authorised.
Qed.

Lemma requests_allowed r : allowed r (se_trace (handle r (start d0)).2).
Proof.
  apply (spec_run d0 (allowed r) (handle r) (λ _ tr, allowed r tr)); [apply requests_spec|done].
Qed.

(** C2: Whatever request a caller makes, and whatever other requests and remote
    services do meanwhile, its effects are those [allowed] lists for the request:
    none at all, or exactly the write, workflow start or command the use case
    names.  Everything but reading a signing record (which may re-encrypt a stored
    phone) needs a granted licence.  Contracts are touched inside the scope the
    permission of the use case gives the caller, in the state it requires and at
    the version asked for, and commands go to a running approval whose contract
    the caller reads; a recovery instead needs the right to manage approvals and
    an approval of the caller's tenant, and a rule the right to manage rules, both
    without a scope.  A draft is submitted or edited by an administrator of its
    tenant or by the sales user who created it, submitted with the content hash it
    was seen with and approvers for every role; an applicant never approves; an
    edited draft keeps its identity, owner, number and origin; only contracts past
    their approval are signed. *)
Theorem requests_authorised (r : request) :
  allowed r (se_trace (handle r (start d0)).2).
Proof. apply requests_allowed. Qed.

End Authority.
