(* ===== verification/ServiceState.v ===== *)
(** * The tables after any request

    The requests of every caller keep the invariants of the repository and of
    the approval rules: their writes are calls with amounts of their inputs and
    rules that passed the service's checks. *)

From stdpp Require Import sorting.
From S2P Require Import Prelude GoStrings Decimal GoTime BusinessClock Status NumberRule.
From S2P Require Import PaymentTerm ProjectService ImportPolicy Utf8 PhoneCipher ApprovalRule Workflow.
From S2P Require Import Store Outbound Handover Numbering Repository Changes Refinement Frames.
From S2P Require Import Scenario ContractApproval Signing SigningFlow Access Like Ledger LedgerFlow Reports SigningLedger Templates.
From S2P Require Import Drafting Prepared Service UseCases DraftCases ServiceFlow.
From S2P Require Import Authority.

#[local] Open Scope string_scope.
#[local] Open Scope Z_scope.
#[local] Open Scope list_scope.

(** ** Rules *)

#[local] Instance foreign_rules : Foreign db_rules.
Proof. by repeat split. Qed.

Section Rules.
Context `{GoFloat}.

Definition rule_ok (rule : Rule) : Prop := validateRule rule = Ok tt.

(** Every stored rule can be read, and passed the checks. *)
Definition rules_sound (d : DB) : Prop :=
  Forall (λ r, ∃ rule, ruleFromRecord r = Ok rule ∧ rule_ok rule) (db_rules d).

Lemma rule_well_formed rule : rule_ok rule → well_formed (r_Expression rule) = true.
Proof.
  unfold rule_ok, validateRule. intros E. repeat apply bind_ok in E as (? & ? & E).
  pose proof (match_spec no_facts (r_Expression rule)) as Hm.
  destruct (Match no_facts (r_Expression rule)); [|done].
  by destruct (well_formed _).
Qed.

Lemma map_res_elem {A B} (f : A → res B) l out y :
  map_res f l = Ok out → y ∈ out → ∃ x, x ∈ l ∧ f x = Ok y.
Proof.
  revert out. induction l as [|x l IH]; intros out E Hy; cbn in E.
  - injection E as <-. by apply elem_of_nil in Hy.
  - apply bind_ok in E as (z & Hz & E). apply bind_ok in E as (zs & Hzs & E). inv_ok E.
    apply elem_of_cons in Hy as [->|Hy]; [exists x; split; [left|done]|].
    destruct (IH _ Hzs Hy) as (x' & ? & ?). exists x'. split; [by right|done].
Qed.

Lemma rule_has_nodes rule : rule_ok rule → r_Nodes rule ≠ [].
Proof.
  unfold rule_ok, validateRule. intros E. apply bind_ok in E as (u & Hn%fail_if_ok & _).
  apply orb_false_iff in Hn as [_ Hn]. by apply bool_decide_eq_false_1 in Hn.
Qed.

(** The rules a submission reads passed the checks, ... *)
Lemma read_rules_ok `{Oracle} tenantID d rules :
  rules_sound d → (ListEnabledRules tenantID (0%nat, d)).1 = Ok rules → ∀ r, r ∈ rules → rule_ok r.
Proof.
  intros Hs (d' & Hr)%runs_first r Hi. unfold ListEnabledRules, listRules in Hr.
  apply runs_bind in Hr as (rows & d1 & [-> ->]%runs_query & [Hr _]%runs_lift).
  destruct (map_res_elem _ _ _ _ Hr Hi) as (row & Hrow & Er).
  unfold rule_rows in Hrow. rewrite merge_sort_Permutation, list_elem_of_filter in Hrow.
  unfold rules_sound in Hs. rewrite Forall_forall in Hs.
  destruct (Hs row (proj2 Hrow)) as (rule & E & Hok). rewrite Er in E. by injection E as <-.
Qed.
(** ... so they never make the choice of a rule fail. *)
Lemma rules_usable `{Oracle} tenantID d rules facts :
  rules_sound d → (ListEnabledRules tenantID (0%nat, d)).1 = Ok rules →
  ∃ matched, MatchHighest rules facts = Ok matched.
Proof.
  intros Hs Hr. pose proof (match_highest_spec rules facts) as Hm.
  destruct (MatchHighest rules facts) as [m|e]; [by eexists|exfalso].
  destruct Hm as (_ & i & r & Hi & _ & Hw & _). apply list_elem_of_lookup_2 in Hi.
  by rewrite rule_well_formed in Hw by by eapply read_rules_ok.
Qed.

Lemma rules_transaction `{Oracle} {A} (m : Tx A) d :
  (∀ a d', runs m d a d' → rules_sound d') → rules_sound d → rules_sound (transaction m d).2.
Proof.
  intros Hm Hd. destruct (transaction m d) as [r d'] eqn:E.
  by apply transaction_runs in E as [->|[a Ha]]; [|eapply Hm].
Qed.

Lemma stored_rule rule row :
  ru_Expression row = JsonOf (r_Expression rule) →
  ru_Nodes row = JsonOf (r_Nodes rule) → ru_Name row = r_Name rule → rule_ok rule →
  ∃ rule', ruleFromRecord row = Ok rule' ∧ rule_ok rule'.
Proof.
  intros He Hn Hname Hok. unfold ruleFromRecord. rewrite He, Hn. cbn.
  eexists. split; [done|]. unfold rule_ok, validateRule in *. cbn. by rewrite Hname.
Qed.

Lemma create_rule_sound `{Oracle} rule actor d :
  rule_ok rule → rules_sound d → rules_sound (CreateRule rule actor d).2.
Proof.
  intros Hok Hd. apply rules_transaction; [|done]. intros [] d' Hr.
  unfold create_rule_body in Hr. inv_tx Hr. apply runs_exec in Hr. inv_ok Hr.
  unfold rules_sound. cbn. apply Forall_app. split; [done|]. constructor; [|done].
  by eapply stored_rule.
Qed.

Lemma update_rule_sound `{Oracle} rule actor d :
  rule_ok rule → rules_sound d → rules_sound (UpdateRule rule actor d).2.
Proof.
  intros Hok Hd. apply rules_transaction; [|done]. intros [] d' Hr.
  unfold update_rule_body in Hr. inv_tx Hr.
  match goal with h : runs (exec _) _ _ _ |- _ => apply runs_exec in h; inv_ok h end.
  unfold rules_sound. cbn. apply Forall_map. eapply Forall_impl; [exact Hd|].
  intros r Hr'. destruct (this_rule _ _ _ r); [|done]. by eapply stored_rule.
Qed.

Lemma delete_rule_sound `{Oracle} tenantID id version d :
  rules_sound d → rules_sound (DeleteRule tenantID id version d).2.
Proof.
  intros Hd. apply rules_transaction; [|done]. intros [] d' Hr.
  unfold delete_rule_body in Hr. inv_tx Hr.
  match goal with h : runs (exec _) _ _ _ |- _ => apply runs_exec in h; inv_ok h end.
  unfold rules_sound in *. cbn. rewrite Forall_forall in Hd |- *.
  intros r [_ Hin]%list_elem_of_filter. by apply Hd.
Qed.

End Rules.

(** ** Writes *)

Section Writes.
Context `{GoUnicode} `{Sha256} `{TzDatabase} `{Collation} `{Documents} `{Aead} `{PhoneKeyEnv}.
Context `{GoFloat}.

(** The invariants of the tables the service works on. *)
Definition tables_sound (d : DB) : Prop := any_sound d ∧ rules_sound d.

Definition write_ok (w : Write) : Prop :=
  match w with
  | WRepo c => any_typed c
  | WCreateRule _ rule _ | WUpdateRule _ rule _ => rule_ok rule
  | _ => True
  end.

(** Calls of the repository do not touch the rules. *)
Lemma call_rules c d : db_rules (invoke_any c d).2 = db_rules d.
Proof.
  destruct c as [c|oracle op]; cbn [invoke_any]; [by apply (invoke_keeps db_rules)|].
  destruct (perform_signing op d) as [r d'] eqn:E. apply signing_refines in E as [E _].
  unfold unsigned in E. cbn [snd]. congruence.
Qed.

(** ... and a write of a rule touches only them. *)
Definition only_rules (d d' : DB) : Prop := ∃ rules, d' = set_rules rules d.
Lemma only_rules_refl d : only_rules d d.
Proof. exists (db_rules d). by destruct d. Qed.
Lemma rules_only `{Oracle} {A} (m : Tx A) d :
  (∀ a d', runs m d a d' → only_rules d d') → only_rules d (transaction m d).2.
Proof.
  intros Hm. destruct (transaction m d) as [r d'] eqn:E.
  apply transaction_runs in E as [->|[a Ha]]; [apply only_rules_refl|by eapply Hm].
Qed.
Lemma rule_write_only w d :
  match w with WCreateRule _ _ _ | WUpdateRule _ _ _ | WDeleteRule _ _ _ _ => True | _ => False end →
  only_rules d (write_db w d).
Proof.
  intros Hw. destruct w; try done; cbn [write_db]; apply rules_only; intros [] d' Hr;
    [unfold create_rule_body in Hr|unfold update_rule_body in Hr|unfold delete_rule_body in Hr];
    inv_tx Hr; repeat match goal with h : runs (exec _) _ _ _ |- _ => apply runs_exec in h; inv_ok h end;
    by eexists.
Qed.

(** The gateway's result for a source file changes the file columns only. *)
Lemma source_result_effect `{Oracle} tenantID id file state detail d :
  let d' := (MarkContractSourceGatewayResult tenantID id file state detail d).2 in
  d' = d ∨ ∃ c f s e now, db_contracts d !! id = Some c ∧
    d' = set_contracts (<[id := contract_set_source f s e now c]> (db_contracts d)) d.
Proof.
  unfold MarkContractSourceGatewayResult. destruct (transaction _ d) as [r d'] eqn:E. cbn [snd].
  apply transaction_runs in E as [->|[[] Hr]]; [by left|]. inv_tx Hr.
  match goal with h : runs (update_contract _ _ _ _) _ _ _ |- _ =>
    apply runs_update_contract in h as [(_ & c & Hc & _ & _ & ->)|[_ ->]] end; [right|by left].
  by exists c; do 4 eexists.
Qed.

Lemma write_sound w d : write_ok w → tables_sound d → tables_sound (write_db w d).
Proof.
  intros Hw [Hd Hr]. destruct w as [c|o rule actor|o rule actor|o t id v|o t id f s e].
  - split; [by apply invoke_any_sound|]. unfold rules_sound. cbn [write_db]. by rewrite call_rules.
  - split; [|by apply create_rule_sound]. destruct (rule_write_only (WCreateRule o rule actor) d I) as (R & ->).
    exact Hd.
  - split; [|by apply update_rule_sound]. destruct (rule_write_only (WUpdateRule o rule actor) d I) as (R & ->).
    exact Hd.
  - split; [|by apply delete_rule_sound]. destruct (rule_write_only (WDeleteRule o t id v) d I) as (R & ->).
    exact Hd.
  - cbn [write_db]. destruct (@source_result_effect o t id f s e d) as [->|(c & f' & s' & e' & now & Hc & ->)];
      [by split|]. split; [|exact Hr]. destruct Hd as [Hk Hs]. split.
    + intros i c0. cbn. intros [[-> <-]|[_ Hi]]%lookup_insert_Some; [by apply (Hk i c)|by apply Hk].
    + cbn. eapply sign_sound_contracts; [|exact Hs]. intros i c0 Hi.
      destruct (decide (i = id)) as [->|Hne].
      * rewrite lookup_insert_eq. eexists. split; [done|]. cbn. rewrite Hc in Hi. by injection Hi as ->.
      * rewrite lookup_insert_ne by done. by exists c0.
Qed.

End Writes.

(** ** Requests *)

Section Requests.
Context `{GoUnicode} `{Sha256} `{TzDatabase} `{Collation} `{Documents} `{Aead} `{PhoneKeyEnv}.
Context `{GoFloat} `{TemplateEngine} `{MediaTypes} `{CharCollation} `{Ulid} `{Environment}.
Variables (cfg : Config) (meta : requestMeta).

(** The amounts of a request are 64-bit integers. *)
Definition typed_request (r : request) : Prop :=
  match r with
  | RqCreate c | RqCreateExternal c | RqUpdateDraft _ _ c => in_int64 (k_AmountMinor c)
  | RqFinancial _ change => in_int64 (fc_AmountMinor change)
  | _ => True
  end.

Definition writes_ok (tr : list Effect) : Prop := ∀ w, EWrite w ∈ tr → write_ok w.
Lemma writes_one e : (∀ w, e = EWrite w → write_ok w) → writes_ok [e].
Proof. intros He w Hw. apply list_elem_of_singleton in Hw. by apply He. Qed.
Lemma writes_app tr1 tr2 : writes_ok tr1 → writes_ok tr2 → writes_ok (tr1 ++ tr2).
Proof. intros H1' H2' w [?|?]%elem_of_app; auto. Qed.
Lemma writes_nil : writes_ok [].
Proof. intros w Hw. by apply elem_of_nil in Hw. Qed.
#[local] Hint Resolve writes_nil : core.

Lemma signed_ok op e : signed op e → writes_ok [e].
Proof. intros (o & ->). apply writes_one. by intros w [= <-]. Qed.
Lemma written_ok op e : written meta op e → well_typed op → writes_ok [e].
Proof. intros (o & ->) Ht. apply writes_one. by intros w [= <-]. Qed.
Lemma other_ok e : (∀ w, e ≠ EWrite w) → writes_ok [e].
Proof. intros He. apply writes_one. intros w E. by destruct (He w). Qed.
Lemma repairs_ok actor id tr : repairs actor id tr → writes_ok tr.
Proof. intros [->|(nonce & row & e & -> & He)]; [done|by eapply signed_ok]. Qed.
Lemma gateway_ok actor id e : gateway_step actor id e → writes_ok [e].
Proof.
  intros [(? & ? & He)|[(? & ->)|[(? & ->)|(? & ? & ? & ? & He)]]];
    [by eapply signed_ok|by apply other_ok..|by eapply signed_ok].
Qed.
Lemma managed_ok actor d0 id op tr : managed d0 actor id op tr → writes_ok tr.
Proof. intros (_ & e & -> & He). by eapply signed_ok. Qed.

Lemma create_ok actor external c tr :
  in_int64 (k_AmountMinor c) → create_allowed meta actor external c tr → writes_ok tr.
Proof.
  intros Ha (f & _ & [(_ & id & ->)|(k & now & pre & e & post & Hk & He & -> & Hpre & Hpost)]);
    [by apply other_ok|].
  apply (writes_app pre (e :: post)).
  { destruct Hpre as [->|[_ ->]]; [done|by apply other_ok]. }
  apply (writes_app [e]).
  { eapply written_ok; [exact He|]. destruct Hk as (_ & E & _). cbn. by rewrite E. }
  destruct Hpost as [->|(file & state & detail & o & _ & _ & ->)]; [done|].
  apply (writes_app [_] [_]); [by apply other_ok|apply writes_one]. by intros w [= <-].
Qed.

Lemma rule_write_ok actor tr w :
  rule_allowed actor tr w → (∀ o, write_ok (w o)) → writes_ok tr.
Proof. intros (_ & o & ->) Hw. apply writes_one. intros ? [= <-]. apply Hw. Qed.

Lemma upload_ok d0 actor id filename document version reason tr :
  upload_allowed d0 actor id filename document version reason tr → writes_ok tr.
Proof.
  intros (_ & now & e & rest & -> & He & Hrest). apply (writes_app [e]); [by eapply signed_ok|].
  induction Hrest as [|x rest Hx _ IH]; [done|]. apply (writes_app [x]); [by eapply gateway_ok|done].
Qed.

Ltac unpack H :=
  lazymatch type of H with
  | ∃ _, _ => let x := fresh in destruct H as [x H]; unpack H
  | _ ∧ _ => let H2 := fresh in destruct H as [H2 H]; unpack H2; unpack H
  | _ => idtac
  end.

Lemma allowed_writes d0 actor r tr :
  typed_request r → allowed cfg meta d0 actor r tr → writes_ok tr.
Proof.
  intros Ht [->|Ha]; [done|]. destruct r; cbn [typed_request] in Ht; try (destruct Ha as [_ Ha]).
  - unfold submit_allowed in Ha. unpack Ha. subst. by apply other_ok.
  - destruct Ha as (c & _ & _ & _ & _ & [(_ & key & e & -> & He)|(_ & inp & -> & _)]);
      [by eapply written_ok|by apply other_ok].
  - unfold command_sent in Ha. unpack Ha. subst. by apply other_ok.
  - destruct Ha as (_ & m & d & i & st & status & inp & e & _ & _ & _ & _ & _ & _ & -> & He & _).
    by eapply written_ok.
  - destruct Ha as (_ & c & terms & change' & e & _ & _ & _ & _ & _ & -> & He & _ & _ & E & _).
    eapply written_ok; [exact He|]. cbn. by rewrite E.
  - by eapply create_ok.
  - by eapply create_ok.
  - unfold update_allowed in Ha. destruct Ha as (f & c & k & e & Ha). unpack Ha. subst.
    eapply written_ok; [eassumption|]. cbn. congruence.
  - destruct Ha as (_ & pre & Hpre & [->|(nonce & e & -> & He)]); [by eapply repairs_ok|].
    apply writes_app; [by eapply repairs_ok|by eapply signed_ok].
  - by eapply managed_ok.
  - by eapply managed_ok.
  - destruct Ha as (_ & _ & _ & Ha). by eapply managed_ok.
  - by eapply upload_ok.
  - destruct Ha as [_ Ha]. by eapply upload_ok.
  - by eapply repairs_ok.
  - destruct Ha as (Hok & id & Ha). by eapply rule_write_ok.
  - destruct Ha as (Hok & Ha). by eapply rule_write_ok.
  - by eapply rule_write_ok.
Qed.

(** Every request leaves the tables sound: the signing of every contract
    stays consistent, and every stored approval rule has a readable expression
    and nodes that passed the service's checks, whatever the other requests do
    as long as they do the same.  So the rules a later submission reads always
    choose a process, or none, for every contract: no stored rule makes a
    submission fail. *)
Theorem requests_keep_tables d0 actor r :
  typed_request r → (∀ n d, tables_sound d → tables_sound (ev_others n d)) → tables_sound d0 →
  let d := se_db (handle cfg meta actor r (start d0)).2 in
  tables_sound d ∧
  ∀ (o : Oracle) tenantID rules facts,
    (@ListEnabledRules o tenantID (0%nat, d)).1 = Ok rules →
    ∃ matched, MatchHighest rules facts = Ok matched.
Proof.
  intros Ht Ho Hd d.
  assert (tables_sound d) as Hs.
  { apply (reached_keeps d0 tables_sound _ Hd Ho).
    - eapply spec_reached, requests_spec.
    - intros w d' Hw. apply write_sound. by eapply allowed_writes; [|apply requests_allowed|]. }
  split; [done|]. intros o t rules facts. apply rules_usable, Hs.
Qed.

(** A submission never starts a workflow that refuses its input: the
    approval, contract and applicant it names are there, and the process has
    nodes, each with an approver, because the rules it was chosen from were
    checked when they were stored. *)
Theorem submissions_start_valid d0 actor id identical version w inp :
  tables_sound d0 → (∀ n d, tables_sound d → tables_sound (ev_others n d)) →
  id ≠ "" → (∀ n, @o_id (ev_oracle n) 0 ≠ "") →
  EStart w (InContract inp) ∈
    se_trace (handle cfg meta actor (RqSubmit id identical version) (start d0)).2 →
  input_invalid inp = false ∧ Forall (λ n, n_AssigneeIDs n ≠ []) (ci_Nodes inp).
Proof.
  intros Hd Ho Hid Hfresh Hin.
  pose proof (requests_allowed cfg meta d0 actor (RqSubmit id identical version)) as Hal.
  revert Hin Hal.
  generalize (se_trace (handle cfg meta actor (RqSubmit id identical version) (start d0)).2).
  intros tr Hin [->|[_ Ha]]; [by apply elem_of_nil in Hin|].
  destruct Ha as (f & c & inp' & o & d & rules & matched & _ & _ & _ & _ & _ & Hdraft & Hseen & Hrules
    & Hm & -> & (n & Happ) & _ & Hc & _ & _ & Hu & _ & Hroles & Hass).
  apply list_elem_of_singleton in Hin. injection Hin as -> <-. split; [|done].
  assert (p_UserID actor ≠ "") as Huser by apply Hdraft.
  assert (ci_Nodes inp ≠ []) as Hnodes.
  { intros E. rewrite E in Hroles. destruct matched as [r|]; [|done].
    pose proof (match_highest_spec rules (contract_facts c identical)) as Hspec. rewrite Hm in Hspec.
    destruct Hspec as (_ & _ & _ & i & Hi & _). apply list_elem_of_lookup_2 in Hi.
    assert (tables_sound d) as [_ Hs] by by apply (seen_keeps d0 tables_sound).
    pose proof (read_rules_ok _ _ _ Hs Hrules _ Hi) as Hok.
    apply rule_has_nodes in Hok. by destruct (r_Nodes r). }
  unfold input_invalid, empty_str. rewrite Happ, Hc, Hu.
  rewrite !orb_false_iff, !streq_false, bool_decide_eq_false. auto.
Qed.

End Requests.

(** ** A submission *)

Definition sample_float : GoFloat := {| wide_to_int64 := λ _, (0, false) |}.
Definition sample_templates : TemplateEngine := {|
  docx_Fields := λ _, Ok []; docx_Render := λ document _, Ok document;
  Templates.docx_PlainText := λ document, Ok document
|}.
Definition sample_media : MediaTypes := {| media_type := λ s, Ok s |}.
Definition sample_ulid : Ulid := {| ulid_strict := λ _, true |}.
#[local] Existing Instances sample_aead sample_key_env sample_float sample_templates sample_media.
#[local] Existing Instances sample_chars sample_ulid.

Definition director (id role : string) : UserReference := mkUserReference id id [role].
(** Every service answers, and nobody else is at work. *)
Definition quiet : Environment := {|
  ev_oracle := λ n, fine (Itoa (Z.of_nat n)); ev_others := λ _ d, d; ev_license := λ _, Granted;
  ev_start := λ _ _, Started "run"; ev_signal := λ _, Ok tt; ev_state := λ _ _ _, Err ErrOther;
  ev_running := λ _, Ok true;
  ev_personnel := λ _, Some (λ _, Ok [director "sam" "sales_director"; director "tom" "tech_director";
                                      director "fay" "finance_director"]);
  ev_directories := λ _, mkDirectories (Ok tt) (λ _, Err ErrOther) (λ _, Err ErrOther) None None;
  ev_template := λ _ _ _, Err ErrNotFound; ev_gateway := λ _, Err ErrOther;
  ev_message := λ _, ""; ev_cancelled := λ _, false; ev_nonce := λ _, []
|}.
#[local] Existing Instance quiet.
Definition sample_config : Config :=
  mkConfig false true "contracts" 0 0 false "legacy" false None true true.
Definition seller : Principal :=
  mkPrincipal "" "t1" "alice" "id-alice" "" "Alice" "" "" ["sales"] {["contract.create" := true]} []
    {["contract.create" := mkScope "" "" ["sales-org"] [] false false]} 1 "".
Definition submission : request := RqSubmit "c1" true 1.

(** The draft's owner submits it: one workflow is started, for the version and
    the content that were read, with an approver for each of the three roles. *)
Example submission_effects :
  map (λ e, match e with
            | EStart w (InContract inp) =>
                Some (w, ci_ContractVersion inp, ci_ContentHash inp, map n_AssigneeIDs (ci_Nodes inp))
            | _ => None
            end) (se_trace (handle sample_config sample_meta seller submission (start shelf)).2) =
  [Some ("contract-approval:t1:c1:v1", 1, "hash", [["sam"]; ["tom"]; ["fay"]])].
Proof. vm_compute. reflexivity. Qed.

Lemma shelf_sound : tables_sound shelf.
Proof.
  split.
  - assert (shelf = execute_any (map Business shelf_calls) (new_tables sample_numbers)) as -> by reflexivity.
    apply execute_any_sound; [repeat constructor; by vm_compute|apply new_tables_any_sound].
  - assert (db_rules shelf = []) as E by (vm_compute; reflexivity). unfold rules_sound.
    rewrite E. constructor.
Qed.

Definition big_contracts : Rule :=
  mkApprovalRule "" "" "big" 10 true
    (mkExpression "and" [mkCondition FieldAmountMinor OperatorGTE (VInt 1000)] []) sample_nodes 0.
Definition manager : Principal :=
  mkPrincipal "" "t1" "root" "id-root" "" "Root" "" "" ["admin"] {["approval_rule.manage" := true]} []
    ∅ 1 "".

(** A rule is stored, and chooses the process of the next contract. *)
Lemma requests_keep_tables_witness :
  let d := se_db (handle sample_config sample_meta manager (RqCreateRule big_contracts) (start shelf)).2 in
  length (db_rules d) = 1%nat ∧ tables_sound d.
Proof.
  intros d. split; [vm_compute; reflexivity|].
  refine (proj1 (requests_keep_tables sample_config sample_meta shelf manager
                   (RqCreateRule big_contracts) _ _ shelf_sound)).
  - exact I.
  - intros n d' Hd. exact Hd.
Defined.

(** The process the stored rule chooses starts with its nodes. *)
Lemma submissions_start_valid_witness :
  ∃ w inp,
    EStart w (InContract inp) ∈
      se_trace (handle sample_config sample_meta seller submission (start shelf)).2 ∧
    input_invalid inp = false.
Proof.
  destruct (se_trace (handle sample_config sample_meta seller submission (start shelf)).2)
    as [|[| w [inp|]| | |] rest] eqn:E; try (vm_compute in E; discriminate).
  exists w, inp. assert (EStart w (InContract inp) ∈ EStart w (InContract inp) :: rest) as Hin by left.
  split; [exact Hin|]. rewrite <- E in Hin.
  refine (proj1 (submissions_start_valid sample_config sample_meta shelf seller "c1" true 1 w inp
                   shelf_sound _ _ _ Hin)).
  - intros n d Hd. exact Hd.
  - discriminate.
  - intros n. cbn. by destruct (Itoa (Z.of_nat n)).
Defined.
