(* ===== verification/ImportBatch.v ===== *)
(** * domain/contract/import.go, import_history.go, infrastructure/mysql/contract_import.go:
      import batches

    A batch of historical or ordinary contracts with its manifest, its sources,
    the progress of every item, the confirmation of historical items and the
    targets to which a confirmed item is released; the tables of imports next to
    the tables of [Store]; and the operations of contract_import.go.

    The payload of a batch is JSON written only by [saveImportBatch] and
    [CreateImportBatch], so that it always decodes: the row holds the batch with
    the fields JSON leaves out ([json:"-"]) zeroed.  [FileID] of a source,
    [RequestJSON] of a target and [CanCommit], which no code of the service reads,
    are left out.  Versions, revisions and epochs count operations and stay far
    below 2^64. *)

From stdpp Require Import sorting.
From S2P Require Import Prelude GoStrings Decimal GoTime BusinessClock Status NumberRule.
From S2P Require Import PaymentTerm ProjectService ImportPolicy CRMProvision ApprovalRule Workflow Store.
From S2P Require Import Outbound Numbering Repository.

#[local] Open Scope string_scope.
#[local] Open Scope Z_scope.
#[local] Open Scope list_scope.

(** ** Data *)

Record ImportIssue : Type := mkIssue {
  iu_Field : string; iu_Code : string; iu_Retryable : bool; iu_Message : string;
  iu_ContractID : string; iu_ItemID : string; iu_ConflictKind : string
}.
Definition issue (field code : string) : ImportIssue := mkIssue field code false "" "" "" "".

(** The frozen requests of the targets, by protocol.  The text of a payload
    holds the value it decodes to. *)
Record importProjectService : Type := mkImportService {
  ps_source_id : string; ps_name : string; ps_site : string; ps_batch : string;
  ps_category : string; ps_system : string; ps_system_level : string; ps_requirement : string;
  ps_test_mode : string
}.
Record projectRequest : Type := mkProjectRequest {
  pq_CommandID : string; pq_TenantID : string; pq_ContractID : string;
  pq_ContractVersion : string; pq_ItemID : string; pq_SourceRevision : Z;
  pq_PolicyDigest : string; pq_ReleaseVersion : Z; pq_ImportMode : string;
  pq_ProjectMode : string; pq_Relationship : string; pq_TargetOwnerUserID : string;
  pq_ContractNumber : string; pq_ContractName : string; pq_Customer : string;
  pq_CustomerID : string; pq_EffectiveAt : Time; pq_Services : list importProjectService;
  pq_Existing : option (string * Z * string)
}.
Record financeContract : Type := mkFinanceContract {
  fc_ID : string; fc_No : string; fc_Version : Z; fc_CustomerID : string;
  fc_CustomerName : string; fc_OwnerUserID : string; fc_Currency : string; fc_Amount : string;
  fc_Terms : list (Z * string * string)
}.
Record financePrepare : Type := mkPrepare {
  fq_EventID : string; fq_TenantID : string; fq_ItemID : string; fq_SourceRevision : Z;
  fq_PolicyDigest : string; fq_ReleaseVersion : Z; fq_ImportMode : string; fq_OccurredAt : Time;
  fq_ExpectedFacts : list ImportFact; fq_Contract : financeContract
}.
Record importFinanceReleaseCommand : Type := mkRelease {
  fr_EventID : string; fr_EventType : string; fr_SchemaVersion : Z; fr_Phase : string;
  fr_TenantID : string; fr_ItemID : string; fr_SourceRevision : Z; fr_PolicyDigest : string;
  fr_ReleaseVersion : Z; fr_ImportMode : string; fr_OccurredAt : Time;
  fr_ReconciliationID : string; fr_SnapshotVersion : Z; fr_OwnerVersion : Z
}.
Inductive targetRequest : Type :=
  | ProjectRequest (r : projectRequest)
  | FinancePrepare (r : financePrepare)
  | FinanceRelease (r : importFinanceReleaseCommand).

Record ImportTargetCommandHistory : Type := mkHistory {
  th_CommandID : string; th_Generation : Z; th_RequestDigest : string;
  th_RequestPayload : option targetRequest; th_HTTPStatus : Z; th_RecipientCode : string;
  th_RejectedAt : Time; th_RecoveryRequestedBy : string; th_RecoveryRequestedAt : option Time
}.
Record ImportTarget : Type := mkTarget {
  tg_Target : string; tg_State : string; tg_Version : Z; tg_ReleaseVersion : Z;
  tg_Phase : string; tg_CommandID : string; tg_CommandGeneration : Z;
  tg_RequestPayload : option targetRequest;
  tg_CommandHistory : list ImportTargetCommandHistory; tg_ReceiptID : string;
  tg_ErrorCode : string; tg_RecipientHTTPStatus : Z; tg_RecipientCode : string;
  tg_RejectedAt : option Time; tg_RecoveryRequestedBy : string; tg_Attempts : Z;
  tg_Epoch : Z; tg_LeaseUntil : Time; tg_NextAttemptAt : Time; tg_OccurredAt : Time;
  tg_ResponsibilityVersion : Z
}.
Record ImportItemState : Type := mkItemState {
  it_Item : ImportItem; it_ID : string; it_State : string; it_Digest : string;
  it_ContractID : string; it_Issues : list ImportIssue; it_SourceRevision : Z;
  it_NormalizedMetadata : option ImportMetadata; it_Targets : list ImportTarget;
  it_Confirmed : bool
}.
Record ImportSource : Type := mkSource {
  sr_ID : string; sr_ItemKey : string; sr_Filename : string; sr_MediaType : string;
  sr_SHA256 : string; sr_GatewayID : string; sr_State : string
}.
Record ImportConfirmationCommand : Type := mkConfirmCommand {
  cc_Key : string; cc_ActorID : string; cc_Action : string; cc_Roles : list string; cc_At : Time
}.
Record ImportConfirmation : Type := mkImportConfirmation {
  cf_WorkflowID : string; cf_Revision : Z; cf_Digest : string; cf_State : string;
  cf_Roles : list string; cf_Assignees : gmap string (list string);
  cf_ApprovedRoles : list string; cf_Commands : list ImportConfirmationCommand;
  cf_SubmittedAt : Time; cf_ExpiresAt : Time; cf_PolicyDecision : string; cf_PolicyVersion : Z
}.
Record ImportProvisionPlanItem : Type := mkPlanItem {
  pl_CustomerName : string; pl_CustomerState : string; pl_SalesName : string;
  pl_SalesState : string; pl_OpportunityAmount : string; pl_OpportunitySignDate : string
}.
(** [SessionHash]: empty for nil. *)
Record ImportBatch : Type := mkBatch {
  ib_ID : string; ib_TenantID : string; ib_ActorID : string; ib_SourceSystem : string;
  ib_State : string; ib_Revision : Z; ib_Version : Z; ib_Items : list ImportItemState;
  ib_Sources : list ImportSource; ib_ProvisionPlan : list ImportProvisionPlanItem;
  ib_Confirmation : option ImportConfirmation;
  ib_ConfirmationHistory : list ImportConfirmation; ib_PreviewToken : string;
  ib_PreviewExpiresAt : Time; ib_ExpiresAt : Time; ib_OperationID : string;
  ib_CommittedRevision : Z; ib_CommitKeyHash : string; ib_SessionHash : string;
  ib_Epoch : Z; ib_LeaseUntil : Time
}.
Record ImportAutoApproveSetting : Type := mkSetting {
  se_Enabled : bool; se_Version : Z; se_UpdatedBy : string; se_UpdatedAt : Time
}.

(** import_report.go: the historical contracts a tenant publishes. *)
Record ImportReportRow : Type := mkReportRow {
  rr_ItemID : string; rr_SourceRevision : Z; rr_ReportReleaseVersion : Z;
  rr_RequiredChannels : string; rr_ImportMode : string; rr_ReportMode : string;
  rr_ContractID : string; rr_ContractVersion : Z; rr_Status : string;
  rr_StartDate : option string; rr_EndDate : option string; rr_OwnerUserID : string;
  rr_OwnerOrgID : string; rr_CRMCustomerID : option Z; rr_OpportunityID : option string;
  rr_AmountMinor : Z; rr_Currency : string; rr_CreatedAt : Time
}.
Record ImportReportSource : Type := mkReport {
  rp_SchemaVersion : Z; rp_TenantID_ : string; rp_SourceSnapshotID : string; rp_Complete : bool;
  rp_Items : list ImportReportRow
}.

Definition ImportPolicyDecisionAuto : string := "AUTO".
Definition ImportPolicyDecisionManual : string := "MANUAL".
Definition AutoApproved (c : ImportConfirmation) : bool :=
  cf_PolicyDecision c =s ImportPolicyDecisionAuto.
Definition PolicyPinned (c : ImportConfirmation) : bool := negb (empty_str (cf_PolicyDecision c)).

(** Assignments to fields. *)
Definition target_set_state v0 (x : ImportTarget) : ImportTarget :=
  mkTarget (tg_Target x) v0 (tg_Version x) (tg_ReleaseVersion x) (tg_Phase x) (tg_CommandID x)
    (tg_CommandGeneration x) (tg_RequestPayload x) (tg_CommandHistory x) (tg_ReceiptID x)
    (tg_ErrorCode x) (tg_RecipientHTTPStatus x) (tg_RecipientCode x) (tg_RejectedAt x)
    (tg_RecoveryRequestedBy x) (tg_Attempts x) (tg_Epoch x) (tg_LeaseUntil x) (tg_NextAttemptAt x)
    (tg_OccurredAt x) (tg_ResponsibilityVersion x).
Definition target_set_version v0 (x : ImportTarget) : ImportTarget :=
  mkTarget (tg_Target x) (tg_State x) v0 (tg_ReleaseVersion x) (tg_Phase x) (tg_CommandID x)
    (tg_CommandGeneration x) (tg_RequestPayload x) (tg_CommandHistory x) (tg_ReceiptID x)
    (tg_ErrorCode x) (tg_RecipientHTTPStatus x) (tg_RecipientCode x) (tg_RejectedAt x)
    (tg_RecoveryRequestedBy x) (tg_Attempts x) (tg_Epoch x) (tg_LeaseUntil x) (tg_NextAttemptAt x)
    (tg_OccurredAt x) (tg_ResponsibilityVersion x).
Definition target_set_payload v0 (x : ImportTarget) : ImportTarget :=
  mkTarget (tg_Target x) (tg_State x) (tg_Version x) (tg_ReleaseVersion x) (tg_Phase x)
    (tg_CommandID x) (tg_CommandGeneration x) v0 (tg_CommandHistory x) (tg_ReceiptID x)
    (tg_ErrorCode x) (tg_RecipientHTTPStatus x) (tg_RecipientCode x) (tg_RejectedAt x)
    (tg_RecoveryRequestedBy x) (tg_Attempts x) (tg_Epoch x) (tg_LeaseUntil x) (tg_NextAttemptAt x)
    (tg_OccurredAt x) (tg_ResponsibilityVersion x).
Definition target_set_lease v0 (x : ImportTarget) : ImportTarget :=
  mkTarget (tg_Target x) (tg_State x) (tg_Version x) (tg_ReleaseVersion x) (tg_Phase x)
    (tg_CommandID x) (tg_CommandGeneration x) (tg_RequestPayload x) (tg_CommandHistory x)
    (tg_ReceiptID x) (tg_ErrorCode x) (tg_RecipientHTTPStatus x) (tg_RecipientCode x)
    (tg_RejectedAt x) (tg_RecoveryRequestedBy x) (tg_Attempts x) (tg_Epoch x) v0
    (tg_NextAttemptAt x) (tg_OccurredAt x) (tg_ResponsibilityVersion x).
Definition target_set_error v0 (x : ImportTarget) : ImportTarget :=
  mkTarget (tg_Target x) (tg_State x) (tg_Version x) (tg_ReleaseVersion x) (tg_Phase x)
    (tg_CommandID x) (tg_CommandGeneration x) (tg_RequestPayload x) (tg_CommandHistory x)
    (tg_ReceiptID x) v0 (tg_RecipientHTTPStatus x) (tg_RecipientCode x) (tg_RejectedAt x)
    (tg_RecoveryRequestedBy x) (tg_Attempts x) (tg_Epoch x) (tg_LeaseUntil x) (tg_NextAttemptAt x)
    (tg_OccurredAt x) (tg_ResponsibilityVersion x).
Definition target_set_receipt v0 v1 (x : ImportTarget) : ImportTarget :=
  mkTarget (tg_Target x) v0 (tg_Version x) (tg_ReleaseVersion x) (tg_Phase x) (tg_CommandID x)
    (tg_CommandGeneration x) (tg_RequestPayload x) (tg_CommandHistory x) v1 (tg_ErrorCode x)
    (tg_RecipientHTTPStatus x) (tg_RecipientCode x) (tg_RejectedAt x) (tg_RecoveryRequestedBy x)
    (tg_Attempts x) (tg_Epoch x) (tg_LeaseUntil x) (tg_NextAttemptAt x) (tg_OccurredAt x)
    (tg_ResponsibilityVersion x).
Definition target_set_responsibility v0 (x : ImportTarget) : ImportTarget :=
  mkTarget (tg_Target x) (tg_State x) (tg_Version x) (tg_ReleaseVersion x) (tg_Phase x)
    (tg_CommandID x) (tg_CommandGeneration x) (tg_RequestPayload x) (tg_CommandHistory x)
    (tg_ReceiptID x) (tg_ErrorCode x) (tg_RecipientHTTPStatus x) (tg_RecipientCode x)
    (tg_RejectedAt x) (tg_RecoveryRequestedBy x) (tg_Attempts x) (tg_Epoch x) (tg_LeaseUntil x)
    (tg_NextAttemptAt x) (tg_OccurredAt x) v0.
Definition target_set_wait v0 v1 (x : ImportTarget) : ImportTarget :=
  mkTarget (tg_Target x) v0 (tg_Version x) (tg_ReleaseVersion x) (tg_Phase x) (tg_CommandID x)
    (tg_CommandGeneration x) (tg_RequestPayload x) (tg_CommandHistory x) (tg_ReceiptID x)
    (tg_ErrorCode x) (tg_RecipientHTTPStatus x) (tg_RecipientCode x) (tg_RejectedAt x)
    (tg_RecoveryRequestedBy x) (tg_Attempts x) (tg_Epoch x) (tg_LeaseUntil x) v1 (tg_OccurredAt x)
    (tg_ResponsibilityVersion x).
Definition target_set_rejection v0 v1 v2 (x : ImportTarget) : ImportTarget :=
  mkTarget (tg_Target x) (tg_State x) (tg_Version x) (tg_ReleaseVersion x) (tg_Phase x)
    (tg_CommandID x) (tg_CommandGeneration x) (tg_RequestPayload x) (tg_CommandHistory x)
    (tg_ReceiptID x) (tg_ErrorCode x) v0 v1 v2 (tg_RecoveryRequestedBy x) (tg_Attempts x)
    (tg_Epoch x) (tg_LeaseUntil x) (tg_NextAttemptAt x) (tg_OccurredAt x)
    (tg_ResponsibilityVersion x).
Definition item_set_state v0 v1 (x : ImportItemState) : ImportItemState :=
  mkItemState (it_Item x) (it_ID x) v0 (it_Digest x) (it_ContractID x) v1 (it_SourceRevision x)
    (it_NormalizedMetadata x) (it_Targets x) (it_Confirmed x).
Definition item_set_contract v0 v1 v2 (x : ImportItemState) : ImportItemState :=
  mkItemState (it_Item x) (it_ID x) v1 (it_Digest x) v0 v2 (it_SourceRevision x)
    (it_NormalizedMetadata x) (it_Targets x) (it_Confirmed x).
Definition item_set_targets v0 (x : ImportItemState) : ImportItemState :=
  mkItemState (it_Item x) (it_ID x) (it_State x) (it_Digest x) (it_ContractID x) (it_Issues x)
    (it_SourceRevision x) (it_NormalizedMetadata x) v0 (it_Confirmed x).
Definition item_set_confirmed v0 v1 (x : ImportItemState) : ImportItemState :=
  mkItemState (it_Item x) (it_ID x) (it_State x) (it_Digest x) (it_ContractID x) (it_Issues x)
    (it_SourceRevision x) (it_NormalizedMetadata x) v1 v0.
Definition item_set_preview v0 v1 v2 v3 (x : ImportItemState) : ImportItemState :=
  mkItemState (it_Item x) (it_ID x) v0 v2 (it_ContractID x) v1 (it_SourceRevision x) v3
    (it_Targets x) (it_Confirmed x).
Definition source_set_state v0 (x : ImportSource) : ImportSource :=
  mkSource (sr_ID x) (sr_ItemKey x) (sr_Filename x) (sr_MediaType x) (sr_SHA256 x)
    (sr_GatewayID x) v0.
Definition source_set_file v0 v1 (x : ImportSource) : ImportSource :=
  mkSource (sr_ID x) (sr_ItemKey x) (sr_Filename x) (sr_MediaType x) (sr_SHA256 x) v0 v1.
Definition confirmation_set_state v0 (x : ImportConfirmation) : ImportConfirmation :=
  mkImportConfirmation (cf_WorkflowID x) (cf_Revision x) (cf_Digest x) v0 (cf_Roles x)
    (cf_Assignees x) (cf_ApprovedRoles x) (cf_Commands x) (cf_SubmittedAt x) (cf_ExpiresAt x)
    (cf_PolicyDecision x) (cf_PolicyVersion x).
Definition confirmation_set_commands v0 (x : ImportConfirmation) : ImportConfirmation :=
  mkImportConfirmation (cf_WorkflowID x) (cf_Revision x) (cf_Digest x) (cf_State x) (cf_Roles x)
    (cf_Assignees x) (cf_ApprovedRoles x) v0 (cf_SubmittedAt x) (cf_ExpiresAt x)
    (cf_PolicyDecision x) (cf_PolicyVersion x).
Definition confirmation_set_approved v0 v1 (x : ImportConfirmation) : ImportConfirmation :=
  mkImportConfirmation (cf_WorkflowID x) (cf_Revision x) (cf_Digest x) v0 (cf_Roles x)
    (cf_Assignees x) v1 (cf_Commands x) (cf_SubmittedAt x) (cf_ExpiresAt x) (cf_PolicyDecision x)
    (cf_PolicyVersion x).
Definition confirmation_set_auto v0 v1 v2 v3 (x : ImportConfirmation) : ImportConfirmation :=
  mkImportConfirmation (cf_WorkflowID x) (cf_Revision x) (cf_Digest x) v0 (cf_Roles x)
    (cf_Assignees x) v1 (cf_Commands x) (cf_SubmittedAt x) (cf_ExpiresAt x) v2 v3.
Definition batch_set_state v0 (x : ImportBatch) : ImportBatch :=
  mkBatch (ib_ID x) (ib_TenantID x) (ib_ActorID x) (ib_SourceSystem x) v0 (ib_Revision x)
    (ib_Version x) (ib_Items x) (ib_Sources x) (ib_ProvisionPlan x) (ib_Confirmation x)
    (ib_ConfirmationHistory x) (ib_PreviewToken x) (ib_PreviewExpiresAt x) (ib_ExpiresAt x)
    (ib_OperationID x) (ib_CommittedRevision x) (ib_CommitKeyHash x) (ib_SessionHash x)
    (ib_Epoch x) (ib_LeaseUntil x).
Definition batch_set_version v0 (x : ImportBatch) : ImportBatch :=
  mkBatch (ib_ID x) (ib_TenantID x) (ib_ActorID x) (ib_SourceSystem x) (ib_State x)
    (ib_Revision x) v0 (ib_Items x) (ib_Sources x) (ib_ProvisionPlan x) (ib_Confirmation x)
    (ib_ConfirmationHistory x) (ib_PreviewToken x) (ib_PreviewExpiresAt x) (ib_ExpiresAt x)
    (ib_OperationID x) (ib_CommittedRevision x) (ib_CommitKeyHash x) (ib_SessionHash x)
    (ib_Epoch x) (ib_LeaseUntil x).
Definition batch_set_items v0 (x : ImportBatch) : ImportBatch :=
  mkBatch (ib_ID x) (ib_TenantID x) (ib_ActorID x) (ib_SourceSystem x) (ib_State x)
    (ib_Revision x) (ib_Version x) v0 (ib_Sources x) (ib_ProvisionPlan x) (ib_Confirmation x)
    (ib_ConfirmationHistory x) (ib_PreviewToken x) (ib_PreviewExpiresAt x) (ib_ExpiresAt x)
    (ib_OperationID x) (ib_CommittedRevision x) (ib_CommitKeyHash x) (ib_SessionHash x)
    (ib_Epoch x) (ib_LeaseUntil x).
Definition batch_set_sources v0 (x : ImportBatch) : ImportBatch :=
  mkBatch (ib_ID x) (ib_TenantID x) (ib_ActorID x) (ib_SourceSystem x) (ib_State x)
    (ib_Revision x) (ib_Version x) (ib_Items x) v0 (ib_ProvisionPlan x) (ib_Confirmation x)
    (ib_ConfirmationHistory x) (ib_PreviewToken x) (ib_PreviewExpiresAt x) (ib_ExpiresAt x)
    (ib_OperationID x) (ib_CommittedRevision x) (ib_CommitKeyHash x) (ib_SessionHash x)
    (ib_Epoch x) (ib_LeaseUntil x).
Definition batch_set_plan v0 (x : ImportBatch) : ImportBatch :=
  mkBatch (ib_ID x) (ib_TenantID x) (ib_ActorID x) (ib_SourceSystem x) (ib_State x)
    (ib_Revision x) (ib_Version x) (ib_Items x) (ib_Sources x) v0 (ib_Confirmation x)
    (ib_ConfirmationHistory x) (ib_PreviewToken x) (ib_PreviewExpiresAt x) (ib_ExpiresAt x)
    (ib_OperationID x) (ib_CommittedRevision x) (ib_CommitKeyHash x) (ib_SessionHash x)
    (ib_Epoch x) (ib_LeaseUntil x).
Definition batch_set_confirmation v0 (x : ImportBatch) : ImportBatch :=
  mkBatch (ib_ID x) (ib_TenantID x) (ib_ActorID x) (ib_SourceSystem x) (ib_State x)
    (ib_Revision x) (ib_Version x) (ib_Items x) (ib_Sources x) (ib_ProvisionPlan x) v0
    (ib_ConfirmationHistory x) (ib_PreviewToken x) (ib_PreviewExpiresAt x) (ib_ExpiresAt x)
    (ib_OperationID x) (ib_CommittedRevision x) (ib_CommitKeyHash x) (ib_SessionHash x)
    (ib_Epoch x) (ib_LeaseUntil x).
Definition batch_set_history v0 v1 (x : ImportBatch) : ImportBatch :=
  mkBatch (ib_ID x) (ib_TenantID x) (ib_ActorID x) (ib_SourceSystem x) (ib_State x)
    (ib_Revision x) (ib_Version x) (ib_Items x) (ib_Sources x) (ib_ProvisionPlan x) v0 v1
    (ib_PreviewToken x) (ib_PreviewExpiresAt x) (ib_ExpiresAt x) (ib_OperationID x)
    (ib_CommittedRevision x) (ib_CommitKeyHash x) (ib_SessionHash x) (ib_Epoch x)
    (ib_LeaseUntil x).
Definition batch_set_revision v0 (x : ImportBatch) : ImportBatch :=
  mkBatch (ib_ID x) (ib_TenantID x) (ib_ActorID x) (ib_SourceSystem x) (ib_State x) v0
    (ib_Version x) (ib_Items x) (ib_Sources x) (ib_ProvisionPlan x) (ib_Confirmation x)
    (ib_ConfirmationHistory x) (ib_PreviewToken x) (ib_PreviewExpiresAt x) (ib_ExpiresAt x)
    (ib_OperationID x) (ib_CommittedRevision x) (ib_CommitKeyHash x) (ib_SessionHash x)
    (ib_Epoch x) (ib_LeaseUntil x).
Definition batch_set_token v0 (x : ImportBatch) : ImportBatch :=
  mkBatch (ib_ID x) (ib_TenantID x) (ib_ActorID x) (ib_SourceSystem x) (ib_State x)
    (ib_Revision x) (ib_Version x) (ib_Items x) (ib_Sources x) (ib_ProvisionPlan x)
    (ib_Confirmation x) (ib_ConfirmationHistory x) v0 (ib_PreviewExpiresAt x) (ib_ExpiresAt x)
    (ib_OperationID x) (ib_CommittedRevision x) (ib_CommitKeyHash x) (ib_SessionHash x)
    (ib_Epoch x) (ib_LeaseUntil x).
Definition batch_set_preview v0 v1 (x : ImportBatch) : ImportBatch :=
  mkBatch (ib_ID x) (ib_TenantID x) (ib_ActorID x) (ib_SourceSystem x) (ib_State x)
    (ib_Revision x) (ib_Version x) (ib_Items x) (ib_Sources x) (ib_ProvisionPlan x)
    (ib_Confirmation x) (ib_ConfirmationHistory x) v0 v1 (ib_ExpiresAt x) (ib_OperationID x)
    (ib_CommittedRevision x) (ib_CommitKeyHash x) (ib_SessionHash x) (ib_Epoch x)
    (ib_LeaseUntil x).
Definition batch_set_operation v0 v1 v2 v3 (x : ImportBatch) : ImportBatch :=
  mkBatch (ib_ID x) (ib_TenantID x) (ib_ActorID x) (ib_SourceSystem x) (ib_State x)
    (ib_Revision x) (ib_Version x) (ib_Items x) (ib_Sources x) (ib_ProvisionPlan x)
    (ib_Confirmation x) (ib_ConfirmationHistory x) (ib_PreviewToken x) (ib_PreviewExpiresAt x)
    (ib_ExpiresAt x) v0 v1 v2 v3 (ib_Epoch x) (ib_LeaseUntil x).
Definition batch_set_session v0 (x : ImportBatch) : ImportBatch :=
  mkBatch (ib_ID x) (ib_TenantID x) (ib_ActorID x) (ib_SourceSystem x) (ib_State x)
    (ib_Revision x) (ib_Version x) (ib_Items x) (ib_Sources x) (ib_ProvisionPlan x)
    (ib_Confirmation x) (ib_ConfirmationHistory x) (ib_PreviewToken x) (ib_PreviewExpiresAt x)
    (ib_ExpiresAt x) (ib_OperationID x) (ib_CommittedRevision x) (ib_CommitKeyHash x) v0
    (ib_Epoch x) (ib_LeaseUntil x).
Definition batch_set_epoch v0 (x : ImportBatch) : ImportBatch :=
  mkBatch (ib_ID x) (ib_TenantID x) (ib_ActorID x) (ib_SourceSystem x) (ib_State x)
    (ib_Revision x) (ib_Version x) (ib_Items x) (ib_Sources x) (ib_ProvisionPlan x)
    (ib_Confirmation x) (ib_ConfirmationHistory x) (ib_PreviewToken x) (ib_PreviewExpiresAt x)
    (ib_ExpiresAt x) (ib_OperationID x) (ib_CommittedRevision x) (ib_CommitKeyHash x)
    (ib_SessionHash x) v0 (ib_LeaseUntil x).
Definition batch_set_lease v0 (x : ImportBatch) : ImportBatch :=
  mkBatch (ib_ID x) (ib_TenantID x) (ib_ActorID x) (ib_SourceSystem x) (ib_State x)
    (ib_Revision x) (ib_Version x) (ib_Items x) (ib_Sources x) (ib_ProvisionPlan x)
    (ib_Confirmation x) (ib_ConfirmationHistory x) (ib_PreviewToken x) (ib_PreviewExpiresAt x)
    (ib_ExpiresAt x) (ib_OperationID x) (ib_CommittedRevision x) (ib_CommitKeyHash x)
    (ib_SessionHash x) (ib_Epoch x) v0.
Definition batch_set_columns v0 v1 v2 v3 (x : ImportBatch) : ImportBatch :=
  mkBatch (ib_ID x) v0 (ib_ActorID x) (ib_SourceSystem x) (ib_State x) (ib_Revision x)
    (ib_Version x) (ib_Items x) (ib_Sources x) (ib_ProvisionPlan x) (ib_Confirmation x)
    (ib_ConfirmationHistory x) (ib_PreviewToken x) (ib_PreviewExpiresAt x) (ib_ExpiresAt x)
    (ib_OperationID x) (ib_CommittedRevision x) v1 v2 (ib_Epoch x) v3.

(** [ImportDigest]: the SHA-256 of the JSON text of what is digested. *)
Inductive digestible : Type :=
  | DKey (key : string)
  | DItem (item : ImportItem)
  | DPolicy (policy : option ImportPolicy)
  | DSystems (systems : list SystemInfo)
  | DManifest (revision : Z) (items : list ImportItemState) (sources : list ImportSource)
  | DBaseline (sourceSystem externalRecordID sourceSHA : string) (metadata : Contract)
      (history : option ImportHistoryEvidence) (policy : option ImportPolicy) (mode : ImportMode)
  | DCommand (item : string) (revision : Z) (target phase : string)
  | DRecovery (item : string) (revision : Z) (target phase : string) (generation : Z)
  | DPayload (payload : option targetRequest)
  | DReport (items : list ImportReportRow).
Class ImportDigests := { ImportDigest : digestible → string }.

(** ** Tables *)

Record importBatchRecord : Type := mkBatchRow {
  br_ID : string; br_TenantID : string; br_ActorID : string; br_State : string;
  br_Version : Z; br_Payload : ImportBatch; br_CommitKeyHash : string;
  br_SessionHash : string; br_LeaseUntil : option Time; br_UpdatedAt : Time
}.
Record importIdentityRecord : Type := mkIdentity {
  id_Digest : string; id_ContractID : option string; id_ItemID : string; id_CreatedAt : Time
}.
(** The key of an identity: tenant, source system, external record. *)
Definition identityKey : Type := string * string * string.

Record IDB : Type := mkIDB {
  im_db : DB;
  im_batches : gmap string importBatchRecord;
  im_identities : gmap identityKey importIdentityRecord;
  im_settings : gmap string ImportAutoApproveSetting;
  im_provisions : ledger
}.
Definition with_db d x := mkIDB d (im_batches x) (im_identities x) (im_settings x)
  (im_provisions x).
Definition with_batches m x := mkIDB (im_db x) m (im_identities x) (im_settings x)
  (im_provisions x).
Definition with_identities m x := mkIDB (im_db x) (im_batches x) m (im_settings x)
  (im_provisions x).
Definition with_settings m x := mkIDB (im_db x) (im_batches x) (im_identities x) m
  (im_provisions x).
Definition with_provisions m x := mkIDB (im_db x) (im_batches x) (im_identities x)
  (im_settings x) m.

(** ** Transactions over all the tables *)

Definition ITx (A : Type) : Type := nat * IDB → res A * (nat * IDB).
#[export] Instance ITx_ret : MRet ITx := λ A a s, (Ok a, s).
#[export] Instance ITx_bind : MBind ITx := λ A B f m s,
  match m s with
  | (Ok a, s') => f a s'
  | (Err e, s') => (Err e, s')
  end.
Definition ithrow {A} (e : goerr) : ITx A := λ s, (Err e, s).
Definition ilift {A} (r : res A) : ITx A := λ s, (r, s).
Definition iguard (b : bool) (e : goerr) : ITx unit := ilift (fail_if b e).
(** Statements on the tables of [Store]. *)
Definition in_db {A} (m : Tx A) : ITx A := λ '(t, x),
  let '(r, (t', d)) := m (t, im_db x) in (r, (t', with_db d x)).

Section Statements.
Context `{Oracle}.

Definition iquery {A} (f : IDB → A) : ITx A := λ '(t, x),
  if o_fault t then (Err ErrStorage, (S t, x)) else (Ok (f x), (S t, x)).
Definition iexec {A} (f : IDB → res (A * IDB)) : ITx A := λ '(t, x),
  if o_fault t then (Err ErrStorage, (S t, x))
  else match f x with Ok (a, x') => (Ok a, (S t, x')) | Err e => (Err e, (S t, x)) end.
Definition inow : ITx Time := λ '(t, x), (Ok (o_now t), (S t, x)).
Definition inewID : ITx string := λ '(t, x), (Ok (o_id t), (S t, x)).

Definition itransaction {A} (m : ITx A) (x : IDB) : res A * IDB :=
  match m (0%nat, x) with
  | (Ok a, (_, x')) =>
      match o_commit with
      | None => (Ok a, x')
      | Some true => (Err ErrStorage, x')
      | Some false => (Err ErrStorage, x)
      end
  | (Err e, _) => (Err e, x)
  end.

(** ** contract_import.go *)

Definition decodeImportBatch (row : importBatchRecord) : ImportBatch :=
  batch_set_columns (br_TenantID row) (br_CommitKeyHash row) (br_SessionHash row)
    (match br_LeaseUntil row with Some t => t | None => ib_LeaseUntil (br_Payload row) end)
    (br_Payload row).
(** The fields with the tag [json:"-"] are lost. *)
Definition payload_of (b : ImportBatch) : ImportBatch := batch_set_columns "" "" "" zero_time b.

Definition row_of (b : ImportBatch) (now : Time) (row : importBatchRecord) : importBatchRecord :=
  mkBatchRow (br_ID row) (br_TenantID row) (br_ActorID row) (ib_State b) (ib_Version b)
    (payload_of b) (ib_CommitKeyHash b) (ib_SessionHash b) (timePtr (ib_LeaseUntil b)) now.

(** The batch with its new version. *)
Definition saveImportBatch (b : ImportBatch) : ITx ImportBatch :=
  let b := batch_set_version (ib_Version b + 1) b in
  now ← inow;
  iexec (λ x,
    Ok (b, match im_batches x !! ib_ID b with
           | Some row => if br_TenantID row =s ib_TenantID b
                         then with_batches (<[ib_ID b := row_of b now row]> (im_batches x)) x
                         else x
           | None => x
           end)).

Definition create_batch_body (b : ImportBatch) : ITx unit :=
  now ← inow;
  iexec (λ x, match im_batches x !! ib_ID b with
              | Some _ => Err ErrDuplicatedKey
              | None =>
                  Ok (tt, with_batches
                        (<[ib_ID b := mkBatchRow (ib_ID b) (ib_TenantID b) (ib_ActorID b)
                             (ib_State b) (ib_Version b) (payload_of b) "" "" None now]>
                           (im_batches x)) x)
              end).
Definition CreateImportBatch (b : ImportBatch) : IDB → res unit * IDB :=
  itransaction (create_batch_body b).

Definition find_batch (tenant id : string) : ITx (option importBatchRecord) :=
  iquery (λ x, match im_batches x !! id with
               | Some row => if br_TenantID row =s tenant then Some row else None
               | None => None
               end).
Definition take_batch (tenant id : string) (missing : goerr) : ITx ImportBatch :=
  row ← find_batch tenant id;
  match row with Some row => mret (decodeImportBatch row) | None => ithrow missing end.

Definition GetImportBatch (tenant id : string) : ITx ImportBatch :=
  take_batch tenant id ErrNotFound.

(** [updated_at, id]. *)
Definition batch_order (a b : importBatchRecord) : Prop :=
  br_UpdatedAt a < br_UpdatedAt b ∨
  (br_UpdatedAt a = br_UpdatedAt b ∧ String.leb (br_ID a) (br_ID b) = true).
#[export] Instance batch_order_dec : RelDecision batch_order.
Proof. intros a b. unfold batch_order. apply _. Defined.
Definition batch_rows (where_ : importBatchRecord → bool) (x : IDB) : list importBatchRecord :=
  merge_sort batch_order (filter (λ r, where_ r = true) (map_to_list (im_batches x)).*2).

(** The expiry is compared by the text of its seconds. *)
Definition source_state (state : string) (b : ImportBatch) : bool :=
  existsb (λ s, sr_State s =s state) (ib_Sources b).
Definition cleanup_due (now : Time) (row : importBatchRecord) : bool :=
  let b := br_Payload row in
  contains ["DRAFT"; "BLOCKED"; "EXPIRED"; "COMPLETED"] (br_State row) &&
  (br_UpdatedAt row <? now - 2 * Minute) &&
  negb (bool_decide (ib_Sources b = [])) &&
  (ib_ExpiresAt b - ib_ExpiresAt b mod Second <? now) &&
  (negb (source_state "CLEANED" b) || source_state "READY" b || source_state "UPLOADING" b).
Definition ListImportCleanup (now : Time) : ITx (list ImportBatch) :=
  iquery (λ x, map decodeImportBatch (take 10 (batch_rows (cleanup_due now) x))).

Definition update_batch_body {A} (tenant id : string)
    (change : ImportBatch → ITx (A * ImportBatch)) : ITx A :=
  b ← take_batch tenant id ErrNotFound;
  changed ← change b;
  saveImportBatch changed.2;;
  mret changed.1.
Definition UpdateImportBatch {A} (tenant id : string)
    (change : ImportBatch → ITx (A * ImportBatch)) : IDB → res A * IDB :=
  itransaction (update_batch_body tenant id change).

(** Rows other transactions lock are skipped: here no other transaction runs. *)
Definition claimable_batch (now : Time) (row : importBatchRecord) : bool :=
  contains ["QUEUED"; "RUNNING"] (br_State row) &&
  match br_LeaseUntil row with None => true | Some t => t <? now end.
Definition claimed (now : Time) (b : ImportBatch) : ImportBatch :=
  batch_set_lease (now + 2 * Minute)
    (batch_set_epoch (ib_Epoch b + 1) (batch_set_state "RUNNING" b)).
Definition claim_batch_body (now : Time) : ITx (option ImportBatch) :=
  rows ← iquery (batch_rows (claimable_batch now));
  match rows with
  | [] => mret None
  | row :: _ => b ← saveImportBatch (claimed now (decodeImportBatch row)); mret (Some b)
  end.
Definition ClaimImportBatch (now : Time) : IDB → res (option ImportBatch) * IDB :=
  itransaction (claim_batch_body now).

(** [INSERT ... ON DUPLICATE KEY] without an update. *)
Definition insert_identity (key : identityKey) (row : importIdentityRecord) : ITx unit :=
  iexec (λ x, Ok (tt, match im_identities x !! key with
                      | Some _ => x
                      | None => with_identities (<[key := row]> (im_identities x)) x
                      end)).
(** uk_import_contract (tenant, contract). *)
Definition identity_taken (key : identityKey) (contractID : string) (x : IDB) : bool :=
  bool_decide (map_Exists (λ k r, k ≠ key ∧ k.1.1 = key.1.1 ∧ id_ContractID r = Some contractID)
                 (im_identities x)).
Definition link_identity (key : identityKey) (contractID : string) : ITx unit :=
  iexec (λ x, match im_identities x !! key with
              | Some r =>
                  fail_if (identity_taken key contractID x) ErrDuplicatedKey;;
                  Ok (tt, with_identities
                        (<[key := mkIdentity (id_Digest r) (Some contractID) (id_ItemID r)
                                    (id_CreatedAt r)]> (im_identities x)) x)
              | None => Ok (tt, x)
              end).

(** The first item with the identifier. *)
Definition find_item (id : string) (b : ImportBatch) : option (nat * ImportItemState) :=
  list_find (λ i, it_ID i = id) (ib_Items b).
Definition set_item (i : nat) (item : ImportItemState) (b : ImportBatch) : ImportBatch :=
  batch_set_items (<[i := item]> (ib_Items b)) b.

Definition ImportConflictKindAlreadyImported : string := "ALREADY_IMPORTED".
Definition ImportConflictKindBaselineDrift : string := "BASELINE_DRIFT".
Definition ImportConflictKindLedgerMismatch : string := "LEDGER_MISMATCH".

Section Commit.
Context `{GoUnicode} `{Sha256} `{TzDatabase} `{Collation} `{Documents}.
Variable meta : requestMeta.

(** [CreateContract] inside the transaction of the batch. *)
Definition create_nested (c : Contract) (actor : string) : ITx unit :=
  origin ← ilift (applyContractSource c);
  now ← inow;
  in_db (create_body meta c (new_contract c origin now actor) now actor).

(** The contract of an item that has none yet: the identity's, or a new one. *)
Definition commit_item (b : ImportBatch) (i : nat) (item : ImportItemState) (c : Contract)
    (actor : string) : ITx string :=
  now ← inow;
  let key := (ib_TenantID b, ib_SourceSystem b, i_ExternalRecordID (it_Item item)) in
  insert_identity key (mkIdentity (it_Digest item) None (it_ID item) now);;
  found ← iquery (λ x, im_identities x !! key);
  match found with
  | None => ithrow ErrRecordNotFound
  | Some identity =>
      iguard (negb (id_Digest identity =s it_Digest item))
        (ErrImportIdentityConflict (valueOrEmpty (id_ContractID identity)) (id_ItemID identity)
           ImportConflictKindAlreadyImported);;
      id ← (match id_ContractID identity with
            | Some id => mret id
            | None => create_nested c actor;; link_identity key (k_ID c);; mret (k_ID c)
            end);
      saveImportBatch (set_item i (item_set_contract id "CREATED" [] item) b);;
      mret id
  end.

Definition commit_body (tenant batch : string) (revision epoch : Z) (itemID : string)
    (c : Contract) (actor : string) : ITx string :=
  b ← take_batch tenant batch ErrRecordNotFound;
  now ← inow;
  iguard (negb (ib_Revision b =? revision) || negb (ib_Epoch b =? epoch) ||
          negb (ib_State b =s "RUNNING") || negb (now <? ib_LeaseUntil b)) ErrImportConflict;;
  match find_item itemID b with
  | None => ithrow ErrImportConflict
  | Some (i, item) =>
      if negb (empty_str (it_ContractID item)) then mret (it_ContractID item)
      else commit_item b i item c actor
  end.
Definition CommitImportDraft (tenant batch : string) (revision epoch : Z) (itemID : string)
    (c : Contract) (actor : string) : IDB → res string * IDB :=
  itransaction (commit_body tenant batch revision epoch itemID c actor).

End Commit.
End Statements.
