(* ===== verification/ImportConfirm.v ===== *)
(** * infrastructure/mysql/import_confirmation.go, contract_import_auto_approve.go,
      contract_import_auto_approve_setting.go: confirming historical items

    The commands of the approvers applied to a batch, the confirmation of its
    items as the declared historical contracts with their numbers, targets and
    audit events, the automatic confirmation of an item, the switch of a tenant
    that allows it, and the freeze of a confirmation under that switch. *)

From stdpp Require Import sorting.
From S2P Require Import Prelude GoStrings Decimal GoTime BusinessClock Status NumberRule.
From S2P Require Import PaymentTerm ProjectService ImportPolicy CRMProvision ApprovalRule Workflow Store.
From S2P Require Import Outbound Numbering Repository Like StatusWorkflow ImportBatch.

#[local] Open Scope string_scope.
#[local] Open Scope Z_scope.
#[local] Open Scope list_scope.

(** The text of a ULID with the given first 16 bytes of a hexadecimal hash. *)
Class UlidText := { ulid_text : string → string }.
Fixpoint nul_joined (parts : list string) : string :=
  match parts with
  | [] => ""
  | [part] => part
  | part :: rest => part +:+ nul +:+ nul_joined rest
  end.
Definition stableEventID `{Sha256} `{UlidText} (parts : list string) : string :=
  ulid_text (sha256_hex (nul_joined parts)).

(** ** What one confirmation writes *)

Record importConfirmationWrite : Type := mkWrite {
  cw_ActorID : string; cw_Policy : string; cw_PolicySource : string; cw_PolicyVersion : Z;
  cw_Upgraded : bool
}.
Record ImportAutoApprovePolicy : Type := mkAutoPolicy {
  ap_Auto : bool; ap_Version : Z; ap_AllowLegacyUpgrade : bool
}.

Definition contract_set_confirmed (e : ImportHistoryEvidence) (revision : Z) (number : string)
    (now : Time) (actor : string) (c : contractRecord) : contractRecord :=
  let o := c_origin c in
  let declared := match ParseDate (e_DeclaredSignedDate e) with
                  | Some d => Some (midnight d)
                  | None => c_DeclaredSignedDate o
                  end in
  mkContract (c_ID c) (c_TenantID c) (Some number) (c_ContractNumberFormat c) (c_party c)
    (c_owner c) (c_terms c) (c_document c)
    (mkOrigin (c_OriginKind o) (c_ImportMode o) (c_OriginImportItemID o) (c_HistoricalStatus o)
       (c_HistoricalCustomerName o) (c_HistoricalOwnerLabel o) revision
       (c_ImportReportReleaseVersion o) (c_ImportReportRequiredChannels o) declared (Some now)
       (c_ImportResponsibilityActivatedAt o) (c_ImportPolicy o))
    (e_HistoricalStatus e) 2 (c_CreatedAt c) (c_CreatedBy c) now actor.

(** The three targets of a confirmed item. *)
Definition target_state (item : ImportItem) (policy : ImportPolicy) (target : string) : string :=
  if (target =s "FINANCE") && (i_Mode item =s ImportHistoricalClosed) &&
     (ip_FinanceMode policy =s "FULL_REPLAY") then "BLOCKED"
  else if ((target =s "PROJECT") && (ip_ProjectMode policy =s "NONE")) ||
          ((target =s "FINANCE") && negb (ip_FinanceMode policy =s "FULL_REPLAY"))
  then "NOT_APPLICABLE" else "WAITING_RELEASE".
Definition target_code (item : ImportItem) (policy : ImportPolicy) (target : string) : string :=
  if target_state item policy target =s "BLOCKED" then "IMPORT_INACTIVE_RESPONSIBILITY_UNSUPPORTED"
  else if (target =s "FINANCE") && (ip_FinanceMode policy =s "EVIDENCE_ONLY")
  then "IMPORT_FINANCIAL_LEDGER_NOT_REBUILT" else "".
Definition new_target (item : ImportItem) (policy : ImportPolicy) (target : string) : ImportTarget :=
  mkTarget target (target_state item policy target) 1 1 "" "" 0 None [] ""
    (target_code item policy target) 0 "" None "" 0 0 zero_time zero_time zero_time 0.
Definition target_names : list string := ["PROJECT"; "FINANCE"; "REPORT"].

Section Confirmation.
Context `{Oracle} `{GoUnicode} `{Sha256} `{TzDatabase} `{Collation} `{Documents}.
Context `{ImportDigests} `{UlidText}.

Definition audit_entry (actor action resource id : string) (payload : auditPayload)
    : AuditOutboxEntry :=
  mkEntry actor action resource id (mkAudit "" "" "" "") payload.

(** uk_con_audit_outbox_event (tenant, event): an event derived from its facts
    can be there already. *)
Definition insert_stable_audit (tenant event : string) (entry : AuditOutboxEntry) : Tx unit :=
  exec (λ d, fail_if (existsb (λ a, (au_TenantID a =s tenant) && (au_EventID a =s event))
                        (db_audit d)) ErrDuplicatedKey;; Ok (tt, d));;
  insertAuditOutbox tenant event entry.

(** The identifiers of the rows found. *)
Definition lockImportContractRows (tenantID : string) (ids : list string) : ITx (list string) :=
  if bool_decide (ids = []) then mret []
  else in_db (query (λ d, filter (λ id, match db_contracts d !! id with
                                        | Some c => c_TenantID c =s tenantID
                                        | None => false
                                        end = true) ids)).

Definition confirm_contract (tenantID id number : string) (e : ImportHistoryEvidence)
    (revision : Z) (now : Time) (actor : string) : Tx Z :=
  exec (λ d,
    match db_contracts d !! id with
    | Some c =>
        if (c_TenantID c =s tenantID) && (c_Version c =? 1) then
          fail_if (number_taken tenantID id (Some number) (db_contracts d)) ErrNumberConflict;;
          Ok (1, set_contracts (<[id := contract_set_confirmed e revision number now actor c]>
                                  (db_contracts d)) d)
        else Ok (0, d)
    | None => Ok (0, d)
    end).

(** The contract an item stands for, still as its import left it. *)
Definition unconfirmed (itemID : string) (c : contractRecord) : bool :=
  (c_Version c =? 1) && (c_OriginKind (c_origin c) =s "IMPORTED") &&
  match c_OriginImportItemID (c_origin c) with Some i => i =s itemID | None => false end &&
  (c_SourceFileStatus (c_document c) =s "READY").

Definition confirmation_event (b : ImportBatch) (item : ImportItemState)
    (write : importConfirmationWrite) : ITx string :=
  if empty_str (cw_Policy write) then inewID
  else _ ← inewID;
       mret (stableEventID [ib_TenantID b; ib_ID b; it_ID item; "IMPORT_CONFIRMED";
                            Itoa (cw_PolicyVersion write)]).

(** [confirmationAuditPayload]. *)
Definition confirmationAuditPayload (item : ImportItem) (write : importConfirmationWrite)
    : auditPayload :=
  if empty_str (cw_Policy write) then PImportConfirmed (ImportDigest (DItem item)) "" "" 0 false
  else PImportConfirmed (ImportDigest (DItem item)) (cw_Policy write) (cw_PolicySource write)
         (cw_PolicyVersion write) (cw_Upgraded write).

Definition confirmHistoricalItem (b : ImportBatch) (item : ImportItemState)
    (locked : list string) (write : importConfirmationWrite) : ITx ImportItemState :=
  if it_Confirmed item then mret item
  else
    iguard ((it_SourceRevision item =? 0) || negb (is_ok (ValidateHistoryEvidence (it_Item item))))
      ErrImportManifest;;
    iguard (negb (contains locked (it_ContractID item))) ErrImportManifest;;
    c ← in_db (take_contract (ib_TenantID b) (it_ContractID item) ErrRecordNotFound);
    iguard (negb (unconfirmed (it_ID item) c)) ErrImportManifest;;
    now ← inow;
    match i_HistoryEvidence (it_Item item), i_Policy (it_Item item) with
    | Some e, Some policy =>
        number ← in_db (allocateContractNumberInTx (ib_TenantID b) (c_ID c)
                          (c_ContractNumberFormat c) now);
        rows ← in_db (confirm_contract (ib_TenantID b) (c_ID c) number e (it_SourceRevision item)
                        now (cw_ActorID write));
        iguard (negb (rows =? 1)) ErrStateConflict;;
        event ← confirmation_event b item write;
        in_db (insert_stable_audit (ib_TenantID b) event
                 (audit_entry (cw_ActorID write) "CONTRACT_MANAGEMENT:IMPORT_CONFIRMED" "contract"
                    (c_ID c) (confirmationAuditPayload (it_Item item) write)));;
        mret (item_set_confirmed true (map (new_target (it_Item item) policy) target_names) item)
    | _, _ => ithrow ErrPanic
    end.

Fixpoint confirm_items (b : ImportBatch) (locked : list string) (write : importConfirmationWrite)
    (items : list ImportItemState) : ITx (list ImportItemState) :=
  match items with
  | [] => mret []
  | item :: rest =>
      item' ← confirmHistoricalItem b item locked write;
      rest' ← confirm_items b locked write rest;
      mret (item' :: rest')
  end.

(** ** The commands of the approvers *)

Definition assigned (assignees : gmap string (list string)) (role user : string) : bool :=
  contains (default [] (assignees !! role)) user.

(** One command: the roles it approves, and whether its author may act. *)
Definition approve_roles (assignees : gmap string (list string)) (cmd : ImportConfirmationCommand)
    (approved : list string) : list string :=
  fold_left (λ approved role,
    if assigned assignees role (cc_ActorID cmd) && (cc_Action cmd =s "APPROVE") &&
       negb (contains approved role)
    then approved ++ [role] else approved) (cc_Roles cmd) approved.
Definition eligible_command (assignees : gmap string (list string))
    (cmd : ImportConfirmationCommand) : bool :=
  existsb (λ role, assigned assignees role (cc_ActorID cmd)) (cc_Roles cmd).
(** Whether somebody rejected, and the roles approved up to then. *)
Fixpoint apply_commands (assignees : gmap string (list string))
    (cmds : list ImportConfirmationCommand) (approved : list string) : bool * list string :=
  match cmds with
  | [] => (false, approved)
  | cmd :: rest =>
      let approved := approve_roles assignees cmd approved in
      if eligible_command assignees cmd && (cc_Action cmd =s "REJECT") then (true, approved)
      else apply_commands assignees rest approved
  end.

Definition paused (b : ImportBatch) : ImportBatch :=
  batch_set_lease zero_time (batch_set_epoch (ib_Epoch b + 1) (batch_set_state "PAUSED" b)).
Definition with_confirmation (cf : ImportConfirmation) (b : ImportBatch) : ImportBatch :=
  batch_set_confirmation (Some cf) b.

Definition withdrawn_by (actor : string) (cf : ImportConfirmation) : bool :=
  existsb (λ cmd, (cc_Action cmd =s "WITHDRAW") && (cc_ActorID cmd =s actor)) (cf_Commands cf).
Definition final_states : list string := ["APPROVED"; "REJECTED"; "WITHDRAWN"; "EXPIRED"].

Definition decide_confirmation (b : ImportBatch) (cf : ImportConfirmation) : ITx string :=
  let '(rejected, approved) := apply_commands (cf_Assignees cf) (cf_Commands cf)
                                 (cf_ApprovedRoles cf) in
  let accepted := negb rejected && negb (bool_decide (cf_Roles cf = [])) &&
                  (length approved =? length (cf_Roles cf))%nat in
  let state := if rejected then "REJECTED" else if accepted then "APPROVED" else "PENDING" in
  let cf' := confirmation_set_approved state approved cf in
  if accepted then
    locked ← lockImportContractRows (ib_TenantID b)
               (map it_ContractID (filter (λ i, it_Confirmed i = false ∧ it_ContractID i ≠ "")
                                     (ib_Items b)));
    items ← confirm_items b locked (mkWrite (ib_ActorID b) "" "" 0 false) (ib_Items b);
    saveImportBatch (batch_set_state "TARGETS_PENDING"
                       (batch_set_items items (with_confirmation cf' b)));;
    mret state
  else
    (if (cf_State cf =s state) && (length (cf_ApprovedRoles cf) =? length approved)%nat
     then mret tt else _ ← saveImportBatch (with_confirmation cf' b); mret tt);;
    mret state.

Definition advance_body (inp : ImportConfirmationInput) : ITx string :=
  b ← take_batch (ic_TenantID inp) (ic_BatchID inp) ErrRecordNotFound;
  match ib_Confirmation b with
  | None => ithrow ErrImportManifest
  | Some cf =>
      iguard (negb (cf_Digest cf =s ic_Digest inp) || negb (cf_Revision cf =? ic_Revision inp) ||
              negb (ib_Revision b =? ic_Revision inp)) ErrImportManifest;;
      if contains final_states (cf_State cf) then mret (cf_State cf)
      else
        now ← inow;
        if negb (now <? cf_ExpiresAt cf) then
          let b' := with_confirmation (confirmation_set_state "EXPIRED" cf) b in
          saveImportBatch (if ib_State b =s "COMPLETED" then b' else paused b');;
          mret "EXPIRED"
        else if withdrawn_by (ib_ActorID b) cf then
          saveImportBatch (paused (with_confirmation (confirmation_set_state "WITHDRAWN" cf) b));;
          mret "WITHDRAWN"
        else if existsb (λ i, negb (it_State i =s "COMPLETE")) (ib_Items b) then mret (cf_State cf)
        else decide_confirmation b cf
  end.
Definition AdvanceImportConfirmation (inp : ImportConfirmationInput) : IDB → res string * IDB :=
  itransaction (advance_body inp).

(** ** The automatic confirmation of an item *)

(** A confirmation of before the policies that nobody has acted on. *)
Definition upgradable (policy : ImportAutoApprovePolicy) (now : Time) (cf : ImportConfirmation)
    : bool :=
  empty_str (cf_PolicyDecision cf) && ap_AllowLegacyUpgrade policy &&
  ((cf_State cf =s "STARTING") || (cf_State cf =s "EXPIRED")) &&
  bool_decide (cf_Commands cf = []) && bool_decide (cf_ApprovedRoles cf = []) &&
  (negb (cf_State cf =s "STARTING") || (now <? cf_ExpiresAt cf)).
Definition auto_confirmation (b : ImportBatch) (roles : list string) (version : Z) (now : Time)
    : ImportConfirmation :=
  mkImportConfirmation ("contract-import-auto-" +:+ ib_ID b) (ib_Revision b)
    (ImportDigest (DManifest (ib_Revision b) (ib_Items b) (ib_Sources b))) "APPROVED" roles ∅ roles
    [] now (now + 24 * Hour) ImportPolicyDecisionAuto version.
(** The approved confirmation of the batch, and whether it was upgraded. *)
Definition approved_confirmation (b : ImportBatch) (roles : list string)
    (policy : ImportAutoApprovePolicy) (now : Time) : res (ImportConfirmation * bool) :=
  match ib_Confirmation b with
  | None => Ok (auto_confirmation b roles (ap_Version policy) now, false)
  | Some cf =>
      if upgradable policy now cf then
        Ok (confirmation_set_auto "APPROVED" (cf_Roles cf) ImportPolicyDecisionAuto
              (ap_Version policy) cf, true)
      else if negb (cf_State cf =s "APPROVED") then Err ErrImportConflict
      else Ok (cf, false)
  end.

Definition auto_confirm_body (tenantID batchID itemID : string) (roles : list string)
    (policy : ImportAutoApprovePolicy) : ITx unit :=
  b ← take_batch tenantID batchID ErrImportConflict;
  match find_item itemID b with
  | None => ithrow ErrImportConflict
  | Some (i, item) =>
      if it_Confirmed item then mret tt
      else
        iguard (negb (i_Mode (it_Item item) =s ImportArchiveOnly) &&
                negb (i_Mode (it_Item item) =s ImportHistoricalClosed)) ErrImportUnsupported;;
        iguard (negb (is_ok (ValidateHistoryEvidence (it_Item item))) ||
                empty_str (it_ContractID item)) ErrImportManifest;;
        now ← inow;
        approved ← ilift (approved_confirmation b roles policy now);
        let b := with_confirmation approved.1 b in
        locked ← lockImportContractRows tenantID [it_ContractID item];
        item' ← confirmHistoricalItem b item locked
                  (mkWrite "SYSTEM" "auto" "tenant_setting" (ap_Version policy) approved.2);
        in_db (insert_stable_audit tenantID
                 (stableEventID [tenantID; ib_ID b; it_ID item; "IMPORT_AUTO_APPROVED";
                                 Itoa (ap_Version policy)])
                 (audit_entry "SYSTEM" "CONTRACT_MANAGEMENT:IMPORT_AUTO_APPROVED" "contract"
                    (it_ContractID item)
                    (PImportAutoApproved (ib_ID b) (it_ID item)
                       (match i_HistoryEvidence (it_Item item) with
                        | Some e => e_HistoricalStatus e | None => "" end)
                       (it_SourceRevision item) (ap_Version policy))));;
        saveImportBatch (set_item i item' b);;
        mret tt
  end.
Definition AutoConfirmHistoricalImportItem (tenantID batchID itemID : string)
    (roles : list string) (policy : ImportAutoApprovePolicy) : IDB → res unit * IDB :=
  itransaction (auto_confirm_body tenantID batchID itemID roles policy).

(** ** The switch of a tenant *)

Definition no_setting : ImportAutoApproveSetting := mkSetting false 0 "" zero_time.
Definition GetImportAutoApproveSetting (tenantID : string) : ITx ImportAutoApproveSetting :=
  iquery (λ x, default no_setting (im_settings x !! tenantID)).

Definition set_setting_body (tenantID : string) (enabled : bool) (expectedVersion : Z)
    (actorID : string) : ITx ImportAutoApproveSetting :=
  found ← iquery (λ x, im_settings x !! tenantID);
  now ← inow;
  iguard (match found with
          | None => negb (expectedVersion =? 0)
          | Some s => negb (expectedVersion =? se_Version s)
          end) ErrImportConflict;;
  let s := mkSetting enabled (match found with None => 1 | Some s => se_Version s + 1 end) actorID
             now in
  iexec (λ x, Ok (tt, with_settings (<[tenantID := s]> (im_settings x)) x));;
  event ← inewID;
  in_db (insertAuditOutbox tenantID event
           (audit_entry actorID "CONTRACT_MANAGEMENT:IMPORT_AUTO_APPROVE_SETTING_CHANGED"
              "contract_import_auto_approve" tenantID
              (PAutoApproveSetting enabled
                 (match found with None => false | Some s => se_Enabled s end) (se_Version s))));;
  mret s.
Definition SetImportAutoApproveSetting (tenantID : string) (enabled : bool)
    (expectedVersion : Z) (actorID : string) : IDB → res ImportAutoApproveSetting * IDB :=
  itransaction (set_setting_body tenantID enabled expectedVersion actorID).

Definition freeze_body (tenantID batchID : string)
    (change : ImportBatch → ImportAutoApproveSetting → ITx ImportBatch) : ITx unit :=
  b ← take_batch tenantID batchID ErrImportConflict;
  setting ← GetImportAutoApproveSetting tenantID;
  b ← change b setting;
  saveImportBatch b;;
  mret tt.
Definition FreezeImportConfirmation (tenantID batchID : string)
    (change : ImportBatch → ImportAutoApproveSetting → ITx ImportBatch) : IDB → res unit * IDB :=
  itransaction (freeze_body tenantID batchID change).

(** ** Lists *)

(** [JSON_SEARCH] takes the user for a LIKE pattern over exact characters. *)
Definition exact_characters : CharCollation := {| same_char := Z.eqb |}.
Definition assigned_like (actor : string) (b : ImportBatch) : bool :=
  match ib_Confirmation b with
  | Some cf => existsb (λ users, existsb (λ u, @Like exact_characters u actor) users)
                 (map_to_list (cf_Assignees cf)).*2
  | None => false
  end.
Definition newest_batch (a b : importBatchRecord) : Prop :=
  br_UpdatedAt b < br_UpdatedAt a ∨
  (br_UpdatedAt a = br_UpdatedAt b ∧ String.leb (br_ID b) (br_ID a) = true).
#[export] Instance newest_batch_dec : RelDecision newest_batch.
Proof. intros a b. unfold newest_batch. apply _. Defined.
Definition ListImportBatchesPage (tenant actor : string) (all : bool) (limit offset : nat)
    : ITx (list ImportBatch) :=
  iquery (λ x, map decodeImportBatch (take limit (drop offset (merge_sort newest_batch
    (filter (λ r, (br_TenantID r =s tenant) &&
                  (all || (br_ActorID r =s actor) || assigned_like actor (br_Payload r)) = true)
       (map_to_list (im_batches x)).*2))))).

Definition starting (row : importBatchRecord) : bool :=
  match ib_Confirmation (br_Payload row) with
  | Some cf => cf_State cf =s "STARTING"
  | None => false
  end.
Definition ListStartingImportConfirmations : ITx (list ImportBatch) :=
  iquery (λ x, map decodeImportBatch (take 10 (batch_rows starting x))).

End Confirmation.
