(* ===== verification/ImportTargets.v ===== *)
(** * infrastructure/mysql/import_targets.go, import_report.go, import_crm_provision.go:
      the targets of confirmed items

    Releasing a confirmed item to a target, claiming and saving the work on a
    target under its epoch, the responsibility a live contract takes over, the
    contract a target needs, the report of historical contracts, and the
    opportunity written back to an imported contract. *)

From stdpp Require Import sorting.
From S2P Require Import Prelude GoStrings Decimal GoTime BusinessClock Status NumberRule.
From S2P Require Import PaymentTerm ProjectService ImportPolicy CRMProvision ApprovalRule.
From S2P Require Import Workflow Store Outbound Numbering Repository Access Like Ledger.
From S2P Require Import ImportBatch ImportConfirm.

#[local] Open Scope string_scope.
#[local] Open Scope Z_scope.
#[local] Open Scope list_scope.

(** ** Finding items and targets *)

(** [JSON_SEARCH] takes the identifier for a LIKE pattern. *)
Definition has_item_like (item : string) (b : ImportBatch) : bool :=
  existsb (λ i, @Like exact_characters (it_ID i) item) (ib_Items b).
Definition find_target (target : string) (item : ImportItemState) : option (nat * ImportTarget) :=
  list_find (λ t, tg_Target t = target) (it_Targets item).
Definition set_target (j : nat) (t : ImportTarget) (item : ImportItemState) : ImportItemState :=
  item_set_targets (<[j := t]> (it_Targets item)) item.

(** The state of a batch after the result of a target. *)
Definition target_done (t : ImportTarget) : bool :=
  (tg_State t =s "COMPLETE") || (tg_State t =s "NOT_APPLICABLE").
Definition all_targets (b : ImportBatch) : list ImportTarget := concat (map it_Targets (ib_Items b)).
Definition updateImportTargetBatchState (b : ImportBatch) : ImportBatch :=
  batch_set_state
    (if forallb target_done (all_targets b) then "COMPLETED"
     else if existsb (λ t, tg_State t =s "BLOCKED") (all_targets b) then "PARTIAL"
     else "TARGETS_PENDING") b.

Definition claim_states : list string := ["QUEUED"; "WAITING"; "RUNNING"; "RELEASE_REQUESTED"].
Definition approved_batch (b : ImportBatch) : bool :=
  match ib_Confirmation b with Some cf => cf_State cf =s "APPROVED" | None => false end.

Section Targets.
Context `{Oracle} `{GoUnicode} `{ImportDigests}.

Definition GetImportItemBatch (tenant item : string) : ITx ImportBatch :=
  rows ← iquery (λ x, filter (λ r, (br_TenantID r =s tenant) && has_item_like item (br_Payload r) = true)
                        (map_to_list (im_batches x)).*2);
  match rows with row :: _ => mret (decodeImportBatch row) | [] => ithrow ErrNotFound end.

(** The contract's columns for the report, when the target REPORT is released. *)
Definition contract_set_report (version : Z) (channels : string) (now : Time) (c : contractRecord)
    : contractRecord :=
  let o := c_origin c in
  mkContract (c_ID c) (c_TenantID c) (c_ContractNumber c) (c_ContractNumberFormat c) (c_party c)
    (c_owner c) (c_terms c) (c_document c)
    (mkOrigin (c_OriginKind o) (c_ImportMode o) (c_OriginImportItemID o) (c_HistoricalStatus o)
       (c_HistoricalCustomerName o) (c_HistoricalOwnerLabel o) (c_ImportSourceRevision o) version
       channels (c_DeclaredSignedDate o) (c_ImportConfirmedAt o)
       (c_ImportResponsibilityActivatedAt o) (c_ImportPolicy o))
    (c_Status c) (c_Version c) (c_CreatedAt c) (c_CreatedBy c) now (c_UpdatedBy c).
Definition published (item : string) (revision : Z) (c : contractRecord) : bool :=
  let o := c_origin c in
  match c_OriginImportItemID o with Some i => i =s item | None => false end &&
  (c_ImportSourceRevision o =? revision) && bool_decide (c_ImportConfirmedAt o ≠ None).

Definition channels_of (item : ImportItemState) : res string :=
  match i_HistoryEvidence (it_Item item) with
  | Some e => Ok (e_ReportRequiredChannels e)
  | None => Err ErrPanic
  end.

(** What a change of generation needs and leaves in the audit. *)
Definition audit_recovery (tenant target : string) (item : ImportItemState) (old : Z)
    (t : ImportTarget) : ITx unit :=
  match List.rev (tg_CommandHistory t) with
  | [] => ithrow ErrImportConflict
  | last :: _ =>
      iguard (negb (tg_CommandGeneration t =? old + 1) || empty_str (tg_RecoveryRequestedBy t))
        ErrImportConflict;;
      event ← inewID;
      in_db (insertAuditOutbox tenant event
               (audit_entry (tg_RecoveryRequestedBy t)
                  "CONTRACT_MANAGEMENT:IMPORT_FINANCE_RELEASE_RETRY_AUTHORIZED" "contract"
                  (it_ContractID item)
                  (PFinanceRetry (it_ID item) target (th_CommandID last) (th_RequestDigest last)
                     (th_HTTPStatus last) (th_RecipientCode last) (tg_CommandID t)
                     (tg_CommandGeneration t))))
  end.

Definition publish_report (tenant : string) (item : ImportItemState) (t : ImportTarget) : ITx unit :=
  channels ← ilift (channels_of item);
  now ← inow;
  rows ← in_db (update_contract tenant (it_ContractID item)
                  (published (it_ID item) (it_SourceRevision item))
                  (contract_set_report (tg_ReleaseVersion t) channels now));
  iguard (negb (rows =? 1)) ErrImportConflict.

Definition queue_body (tenant batch itemID : string) (version : Z) (target : string)
    (change : ImportBatch → ImportItemState → ImportTarget → ITx ImportTarget) : ITx unit :=
  b ← take_batch tenant batch ErrRecordNotFound;
  match find_item itemID b with
  | None => ithrow ErrImportConflict
  | Some (i, item) =>
      match find_target target item with
      | None => ithrow ErrImportConflict
      | Some (j, t) =>
          iguard (negb (tg_Version t =? version)) ErrImportConflict;;
          t' ← change b item t;
          let t' := target_set_version (tg_Version t' + 1) t' in
          let renewed := negb (tg_CommandGeneration t' =? tg_CommandGeneration t) in
          (if renewed then audit_recovery tenant target item (tg_CommandGeneration t) t'
           else mret tt);;
          let b := if renewed then batch_set_state "TARGETS_PENDING" b else b in
          let report := (target =s "REPORT") && (tg_State t' =s "QUEUED") in
          let t' := if report then target_set_state "RELEASE_REQUESTED" t' else t' in
          (if report then publish_report tenant item t' else mret tt);;
          saveImportBatch (set_item i (set_target j t' item) b);;
          mret tt
      end
  end.
Definition QueueImportTarget (tenant batch itemID : string) (version : Z) (target : string)
    (change : ImportBatch → ImportItemState → ImportTarget → ITx ImportTarget)
    : IDB → res unit * IDB :=
  itransaction (queue_body tenant batch itemID version target change).

(** ** The work on a target *)

Definition claimable_target (now : Time) (t : ImportTarget) : bool :=
  contains claim_states (tg_State t) && negb (now <? tg_LeaseUntil t) &&
  negb (now <? tg_NextAttemptAt t).
Definition start_target (now : Time) (t : ImportTarget) : ImportTarget :=
  mkTarget (tg_Target t) "RUNNING" (tg_Version t + 1) (tg_ReleaseVersion t) (tg_Phase t)
    (tg_CommandID t) (tg_CommandGeneration t) (tg_RequestPayload t) (tg_CommandHistory t)
    (tg_ReceiptID t) (tg_ErrorCode t) (tg_RecipientHTTPStatus t) (tg_RecipientCode t)
    (tg_RejectedAt t) (tg_RecoveryRequestedBy t) (tg_Attempts t + 1) (tg_Epoch t + 1)
    (now + Minute) (tg_NextAttemptAt t) (tg_OccurredAt t) (tg_ResponsibilityVersion t).

(** The first target of the first item that can be claimed. *)
Fixpoint claim_in_items (now : Time) (i : nat) (items : list ImportItemState)
    : option (nat * nat * ImportItemState * ImportTarget) :=
  match items with
  | [] => None
  | item :: rest =>
      match list_find (λ t, claimable_target now t = true) (it_Targets item) with
      | Some (j, t) => Some (i, j, item, t)
      | None => claim_in_items now (S i) rest
      end
  end.
Fixpoint claim_in_rows (now : Time) (rows : list importBatchRecord)
    : option (ImportBatch * nat * nat * ImportItemState * ImportTarget) :=
  match rows with
  | [] => None
  | row :: rest =>
      let b := decodeImportBatch row in
      match claim_in_items now 0 (ib_Items b) with
      | Some (i, j, item, t) => Some (b, i, j, item, t)
      | None => claim_in_rows now rest
      end
  end.
Definition target_row (row : importBatchRecord) : bool :=
  approved_batch (br_Payload row) &&
  existsb (λ t, contains claim_states (tg_State t)) (all_targets (br_Payload row)).

Definition claim_target_body (now : Time) : ITx (option (ImportBatch * string * string)) :=
  rows ← iquery (λ x, take 20 (batch_rows target_row x));
  match claim_in_rows now rows with
  | None => mret None
  | Some (b, i, j, item, t) =>
      b ← saveImportBatch (set_item i (set_target j (start_target now t) item) b);
      mret (Some (b, it_ID item, tg_Target t))
  end.
Definition ClaimImportTarget (now : Time) : IDB → res (option (ImportBatch * string * string)) * IDB :=
  itransaction (claim_target_body now).

(** A refusal the receiver just answered is audited. *)
Definition audit_rejection (tenant contractID itemID : string) (current task : ImportTarget)
    : ITx unit :=
  if (tg_State task =s "BLOCKED") && negb (tg_RecipientHTTPStatus task =? 0) &&
     (tg_RecipientHTTPStatus current =? 0)
  then
    event ← inewID;
    in_db (insertAuditOutbox tenant event
             (audit_entry "SYSTEM" "CONTRACT_MANAGEMENT:IMPORT_TARGET_REJECTED" "contract" contractID
                (PTargetRejected itemID (tg_Target task) (tg_CommandID task)
                   (tg_CommandGeneration task) (ImportDigest (DPayload (tg_RequestPayload task)))
                   (tg_RecipientHTTPStatus task) (tg_RecipientCode task))))
  else mret tt.

Definition fence_holds (now : Time) (current task : ImportTarget) : bool :=
  (tg_Epoch current =? tg_Epoch task) && (tg_CommandID current =s tg_CommandID task) &&
  (tg_CommandGeneration current =? tg_CommandGeneration task) && (now <? tg_LeaseUntil current).

Definition applyImportTargetResult (b : ImportBatch) (itemID : string) (task : ImportTarget)
    : ITx ImportBatch :=
  match find_item itemID b with
  | None => ithrow ErrImportConflict
  | Some (i, item) =>
      match find_target (tg_Target task) item with
      | None => ithrow ErrImportConflict
      | Some (j, current) =>
          now ← inow;
          iguard (negb (fence_holds now current task)) ErrImportConflict;;
          audit_rejection (ib_TenantID b) (it_ContractID item) itemID current task;;
          let task := target_set_version (tg_Version current + 1) task in
          mret (updateImportTargetBatchState (set_item i (set_target j task item) b))
      end
  end.
Definition save_target_body (tenant batch itemID : string) (task : ImportTarget) : ITx unit :=
  b ← take_batch tenant batch ErrRecordNotFound;
  b ← applyImportTargetResult b itemID task;
  saveImportBatch b;;
  mret tt.
Definition SaveImportTarget (tenant batch itemID : string) (task : ImportTarget)
    : IDB → res unit * IDB := itransaction (save_target_body tenant batch itemID task).

(** ** Responsibility *)

Definition contract_set_activated (now : Time) (c : contractRecord) : contractRecord :=
  let o := c_origin c in
  mkContract (c_ID c) (c_TenantID c) (c_ContractNumber c) (c_ContractNumberFormat c) (c_party c)
    (c_owner c) (c_terms c) (c_document c)
    (mkOrigin (c_OriginKind o) (c_ImportMode o) (c_OriginImportItemID o) (c_HistoricalStatus o)
       (c_HistoricalCustomerName o) (c_HistoricalOwnerLabel o) (c_ImportSourceRevision o)
       (c_ImportReportReleaseVersion o) (c_ImportReportRequiredChannels o)
       (c_DeclaredSignedDate o) (c_ImportConfirmedAt o) (Some now) (c_ImportPolicy o))
    (c_Status c) (c_Version c) (c_CreatedAt c) (c_CreatedBy c) now (c_UpdatedBy c).

Definition target_open (target : string) (t : ImportTarget) : bool :=
  (tg_Target t =s target) && negb (tg_State t =s "COMPLETE").

Definition activate_body (tenant batch itemID : string) (revision : Z) : ITx Z :=
  b ← take_batch tenant batch ErrRecordNotFound;
  iguard (negb (approved_batch b)) ErrImportConflict;;
  match find_item itemID b with
  | None => ithrow ErrImportConflict
  | Some (_, item) =>
      iguard (negb (it_SourceRevision item =? revision)) ErrImportConflict;;
      iguard (negb (i_Mode (it_Item item) =s ImportContinueLive) ||
              negb (is_ok (ValidateHistoryEvidence (it_Item item)))) ErrImportUnsupported;;
      iguard (existsb (target_open "PROJECT") (it_Targets item)) ErrImportTargetWaiting;;
      c ← in_db (take_contract tenant (it_ContractID item) ErrRecordNotFound);
      let o := c_origin c in
      iguard (bool_decide (c_ImportConfirmedAt o = None) ||
              negb (c_ImportSourceRevision o =? revision) ||
              negb (c_ImportMode o =s "CONTINUE_LIVE")) ErrImportConflict;;
      (if bool_decide (c_ImportResponsibilityActivatedAt o = None)
       then now ← inow;
            in_db (update_contract tenant (c_ID c) (λ _, true) (contract_set_activated now));;
            mret tt
       else mret tt);;
      in_db (enqueueContractResponsibility tenant (c_ID c));;
      stream ← in_db (query (λ d, db_streams d !! (tenant, c_ID c)));
      match stream with
      | Some s => mret (rs_Version s)
      | None => ithrow ErrRecordNotFound
      end
  end.
(** The batch is looked up before the transaction. *)
Definition ActivateImportResponsibility (tenant itemID : string) (revision : Z) (x : IDB)
    : res Z * IDB :=
  match (GetImportItemBatch tenant itemID (0%nat, x)).1 with
  | Err e => (Err e, x)
  | Ok b => itransaction (activate_body tenant (ib_ID b) itemID revision) x
  end.

(** The contract without its documents. *)
Definition omit_content (r : contractRecord) : contractRecord :=
  let d := c_document r in
  mkContract (c_ID r) (c_TenantID r) (c_ContractNumber r) (c_ContractNumberFormat r) (c_party r)
    (c_owner r) (c_terms r)
    (mkDocument "" (c_TemplateID d) JsonEmpty "" (c_DocumentFormat d) (c_SourceMediaType d)
       (c_SourceFilename d) (c_SourceSHA256 d) (c_ExternalPaperNumber d) (c_SourceFileID d)
       (c_SourceFileStatus d) (c_SourceFileLastError d) (c_ContentHash d))
    (c_origin r) (c_Status r) (c_Version r) (c_CreatedAt r) (c_CreatedBy r) (c_UpdatedAt r)
    (c_UpdatedBy r).
Definition GetImportTargetContract (tenant id : string) : ITx Contract :=
  row ← in_db (take_contract tenant id ErrNotFound);
  items ← in_db (attachPaymentTerms tenant [contractFromRecord (omit_content row)]);
  match items with c :: _ => mret c | [] => ithrow ErrPanic end.

(** ** import_crm_provision.go: the opportunity of an imported contract

    The version stays: the confirmation of the item needs version 1. *)
Definition contract_set_opportunity (id : Z) (name actor : string) (now : Time)
    (c : contractRecord) : contractRecord :=
  let p := c_party c in
  mkContract (c_ID c) (c_TenantID c) (c_ContractNumber c) (c_ContractNumberFormat c)
    (mkParty (stringPtr (Itoa id)) (stringPtr name) (c_CounterpartySource p)
       (c_LocalCounterpartyID p) (c_CounterpartyVersion p) (c_CategorySource p)
       (c_IntegrationPolicy p) (c_CRMCustomerID p) (c_CustomerName p) (c_CustomerAddress p)
       (c_CustomerContact p) (c_CustomerPhone p) (c_CustomerCreditLevel p))
    (c_owner c) (c_terms c) (c_document c) (c_origin c) (c_Status c) (c_Version c)
    (c_CreatedAt c) (c_CreatedBy c) now actor.
Definition write_opportunity_body (tenantID contractID : string) (opportunityID : Z)
    (opportunityName actor : string) : ITx unit :=
  iguard (empty_str tenantID || empty_str contractID || (opportunityID =? 0)) ErrStateConflict;;
  now ← inow;
  rows ← in_db (update_contract tenantID contractID
                  (λ c, (c_Version c =? 1) && (c_Status c =s StatusDraft) &&
                        (c_OriginKind (c_origin c) =s "IMPORTED"))
                  (contract_set_opportunity opportunityID opportunityName actor now));
  iguard (negb (rows =? 1)) ErrStateConflict.
Definition UpdateImportContractOpportunity (tenantID contractID : string) (opportunityID : Z)
    (opportunityName actor : string) : IDB → res unit * IDB :=
  itransaction (write_opportunity_body tenantID contractID opportunityID opportunityName actor).

(** ** import_report.go *)

Definition importDate (value : option Time) : option string :=
  (λ t, FormatDate (civil_of_days (t `div` (24 * Hour)))) <$> value.
Definition report_order (a b : contractRecord) : Prop :=
  let key r := valueOrEmpty (c_OriginImportItemID (c_origin r)) in
  String.ltb (key a) (key b) = true ∨ (key a = key b ∧ String.leb (c_ID a) (c_ID b) = true).
#[export] Instance report_order_dec : RelDecision report_order.
Proof. intros a b. unfold report_order. apply _. Defined.
Definition reported (tenant : string) (r : contractRecord) : bool :=
  (c_TenantID r =s tenant) && (0 <? c_ImportReportReleaseVersion (c_origin r)).
Definition report_row (r : contractRecord) : res ImportReportRow :=
  let o := c_origin r in
  policy ← match unmarshal (c_ImportPolicy o) with
           | Ok p => Ok p | Err _ => Err ErrImportManifest end;
  fail_if (negb (c_OriginKind o =s "IMPORTED") || bool_decide (c_OriginImportItemID o = None) ||
           (c_ImportSourceRevision o =? 0) || bool_decide (c_ImportConfirmedAt o = None) ||
           negb (is_ok (ValidateImportPolicy (c_ImportMode o) (Some policy))) ||
           (negb (c_ImportReportRequiredChannels o =s "API_ONLY") &&
            negb (c_ImportReportRequiredChannels o =s "API_AND_SOURCE_FACTS"))) ErrImportManifest;;
  Ok (mkReportRow (valueOrEmpty (c_OriginImportItemID o)) (c_ImportSourceRevision o)
        (c_ImportReportReleaseVersion o) (c_ImportReportRequiredChannels o) (c_ImportMode o)
        (ip_ReportMode policy) (c_ID r) (c_Version r) (c_Status r)
        (importDate (c_StartDate (c_terms r))) (importDate (c_EndDate (c_terms r)))
        (c_OwnerUserID (c_owner r)) (valueOrEmpty (c_OwnerOrgID (c_owner r)))
        (c_CRMCustomerID (c_party r)) (c_OpportunityID (c_party r)) (c_AmountMinor (c_terms r))
        (c_Currency (c_terms r)) (c_CreatedAt r)).
Definition ImportReportSourceOf (tenant : string) : ITx ImportReportSource :=
  rows ← in_db (query (λ d, take 1001 (merge_sort report_order
           (filter (λ r, reported tenant r = true) (contract_table d)))));
  iguard (1000 <? Z.of_nat (length rows)) ErrImportManifest;;
  items ← ilift (map_res report_row rows);
  mret (mkReport 1 tenant (ImportDigest (DReport items)) true items).

End Targets.
