(* ===== verification/ImportRules.v ===== *)
(** * application: the checks and classifications of contract imports

    contract_import_fields.go, contract_import_identity.go, the pure parts of
    contract_import_preview.go, contract_import_dispatcher.go,
    contract_import_confirmation.go, contract_import_provision.go and
    crm_provision.go: who may touch a batch, what an item must have, how a
    failure becomes an issue of its item, and which items can go on by
    themselves. *)

From S2P Require Import Prelude GoStrings Decimal GoTime BusinessClock Status NumberRule.
From S2P Require Import PaymentTerm ProjectService ImportPolicy CRMProvision ApprovalRule.
From S2P Require Import Workflow Store Outbound Handover Numbering Repository Access Ledger.
From S2P Require Import Templates Drafting ImportBatch ImportConfirm.

#[local] Open Scope string_scope.
#[local] Open Scope Z_scope.
#[local] Open Scope list_scope.

(** ** Access *)

Definition importBatchReadPermissions : list string :=
  ["contract.import.preview"; "contract.import.commit"; "contract.import.release"].

(** Whether all batches of the tenant are listed, and whether any is. *)
Definition ImportBatchListScope (actor : Principal) : bool * bool :=
  let scopes := omap (Scope actor) importBatchReadPermissions in
  (existsb sf_AllowAll scopes,
   existsb (λ s, sf_AllowAll s || sf_AllowSelf s) scopes ||
   bool_decide (is_Some (Scope actor "contract.import.approve"))).

Definition importAccess (p : Principal) (b : ImportBatch) (permission : string) : res unit :=
  match Scope p permission with
  | None => Err ErrForbidden
  | Some scope =>
      fail_if (negb (p_TenantID p =s ib_TenantID b) ||
               (negb (sf_AllowAll scope) &&
                (negb (sf_AllowSelf scope) || negb (p_UserID p =s ib_ActorID b)))) ErrForbidden
  end.

Definition importConfirmationAccess (actor : Principal) (b : ImportBatch) : res unit :=
  match ib_Confirmation b with
  | None => Err ErrForbidden
  | Some cf =>
      fail_if (negb (ib_TenantID b =s p_TenantID actor)) ErrForbidden;;
      fail_if (negb (bool_decide (is_Some (Scope actor "contract.import.approve")))) ErrForbidden;;
      fail_if (negb (existsb (λ '(role, users), contains users (p_UserID actor) &&
                                                contains (p_Roles actor) role)
                       (map_to_list (cf_Assignees cf)))) ErrForbidden
  end.

(** Only the creator sees the token that submits the preview. *)
Definition importBatchForReader (b : ImportBatch) (actor : Principal) : ImportBatch :=
  if negb (ib_ActorID b =s p_UserID actor) then batch_set_token "" b else b.

Definition isContractAdmin (actor : Principal) : bool := hasRole actor "admin".

(** Keys of a batch and of its items: runes, not bytes, are tested. *)
Definition import_key_rune (c : Z) : bool :=
  ((97 <=? c) && (c <=? 122)) || ((65 <=? c) && (c <=? 90)) || ((48 <=? c) && (c <=? 57)) ||
  (c =? 95) || (c =? 46) || (c =? 58) || (c =? 45).
Definition validImportKey (v : string) : bool :=
  negb (slen v =? 0) && (slen v <=? 128) && forallb import_key_rune (runes v).

(** ** Editing *)

(** A batch whose confirmation is over is a draft again. *)
Definition confirmation_over (cf : ImportConfirmation) : bool :=
  contains ["WITHDRAWN"; "REJECTED"; "EXPIRED"] (cf_State cf).
Definition reopened (cf : ImportConfirmation) (b : ImportBatch) : ImportBatch :=
  batch_set_epoch (ib_Epoch b + 1)
    (batch_set_state "DRAFT"
       (batch_set_operation "" 0 "" ""
          (batch_set_history None (ib_ConfirmationHistory b ++ [cf]) b))).
Definition editableImport (now : Time) (version : Z) (b : ImportBatch) : res ImportBatch :=
  fail_if (negb (ib_Version b =? version) || negb (now <? ib_ExpiresAt b)) ErrImportConflict;;
  b ← (match ib_Confirmation b with
       | None => Ok b
       | Some cf => fail_if (negb (confirmation_over cf)) ErrImportConflict;; Ok (reopened cf b)
       end);
  fail_if (contains ["QUEUED"; "RUNNING"; "COMPLETED"; "EXPIRED"] (ib_State b)) ErrImportConflict;;
  Ok b.

(** The proposal to change an item whose contract exists is only marked. *)
Fixpoint mark_correction (itemID : string) (items : list ImportItemState) : list ImportItemState :=
  match items with
  | [] => []
  | item :: rest =>
      if it_ID item =s itemID
      then item_set_state "CORRECTION_REQUIRED" [issue "metadata" "IMPORT_CORRECTION_REQUIRED"] item
           :: rest
      else item :: mark_correction itemID rest
  end.
Definition markImportCorrection (b : ImportBatch) (itemID : string) : ImportBatch :=
  batch_set_items (mark_correction itemID (ib_Items b))
    (batch_set_token "" (batch_set_epoch (ib_Epoch b + 1) (batch_set_state "PARTIAL" b))).

(** ** Fields *)

Definition issue_if (b : bool) (field code : string) : list ImportIssue :=
  if b then [issue field code] else [].

Definition blank (s : string) : bool := empty_str (TrimSpace s).
Definition system_levels : list string := ["一级"; "二级"; "三级"; "四级"].
Definition system_issues (prefix : string) (n : nat) (system : SystemInfo) : list ImportIssue :=
  let at_ := prefix +:+ ".systems[" +:+ Itoa (Z.of_nat n) +:+ "]" in
  issue_if (blank (sys_Name system)) (at_ +:+ ".name") "REQUIRED" ++
  issue_if (negb (contains system_levels (sys_Level system))) (at_ +:+ ".level") "UNSUPPORTED_ENUM".
Definition service_issues (index : nat) (service : ServiceItem) : list ImportIssue :=
  let prefix := "metadata.service_items[" +:+ Itoa (Z.of_nat index) +:+ "]" in
  concat (map (λ f : string * string, issue_if (blank f.2) (prefix +:+ "." +:+ f.1) "REQUIRED")
    [("service_type", it_ServiceType service); ("site", it_Site service);
     ("batch", it_Batch service); ("category", it_Category service);
     ("test_mode", it_TestMode service)]) ++
  issue_if (15 <? Z.of_nat (length (it_Systems service))) (prefix +:+ ".systems")
    "ITEM_COUNT_INVALID" ++
  concat (imap (system_issues prefix) (it_Systems service)).

Definition importFieldIssues `{GoUnicode} (item : ImportItem) : list ImportIssue :=
  let m := i_Metadata item in
  let local := m_CounterpartySource m =s CounterpartyLocal in
  let items := m_ServiceItems m in
  issue_if ((i_Mode item =s ImportHistoricalClosed) &&
            match i_Policy item with Some p => ip_FinanceMode p =s "FULL_REPLAY" | None => false end)
    "policy_options.finance_mode" "IMPORT_INACTIVE_RESPONSIBILITY_UNSUPPORTED" ++
  issue_if (negb (is_ok (ValidateHistoryEvidence item)))
    "history_evidence" "IMPORT_EVIDENCE_UNSUPPORTED" ++
  issue_if (blank (m_Title m)) "metadata.title" "REQUIRED" ++
  issue_if (negb (m_ContractType m =s "直签") && negb (m_ContractType m =s "三方"))
    "metadata.contract_type" "UNSUPPORTED_ENUM" ++
  (if local then
     issue_if (negb (i_Mode item =s ImportNormal))
       "metadata.counterparty_source" "LOCAL_HISTORY_UNSUPPORTED" ++
     issue_if (empty_str (m_LocalCounterpartyID m) || (m_CounterpartyVersion m =? 0) ||
               negb (m_CRMCustomerID m =? 0) || negb (empty_str (m_OpportunityID m)) ||
               negb (empty_str (m_OpportunityName m)))
       "metadata.local_counterparty_id" "LOCAL_REFERENCE_INVALID"
   else issue_if (m_CRMCustomerID m =? 0) "metadata.crm_customer_id" "REQUIRED") ++
  issue_if (blank (m_CustomerName m)) "metadata.customer_name" "REQUIRED" ++
  issue_if (m_AmountMinor m <=? 0) "metadata.amount_minor" "POSITIVE_MINOR_UNITS_REQUIRED" ++
  issue_if (xorb (empty_str (m_OpportunityID m)) (empty_str (m_OpportunityName m)))
    "metadata.opportunity_id" "OPPORTUNITY_PAIR_REQUIRED" ++
  issue_if ((Z.of_nat (length items) <? 1) || (20 <? Z.of_nat (length items)))
    "metadata.service_items" "ITEM_COUNT_INVALID" ++
  issue_if (128 <? rune_count (m_ExternalPaperNumber m)) "metadata.external_paper_number"
    "TOO_LONG" ++
  issue_if (128 <? rune_count (m_SalesName m)) "metadata.sales_name" "TOO_LONG" ++
  concat (imap service_issues items) ++
  issue_if (match m_StartDate m, m_EndDate m with Some s, Some e => e <? s | _, _ => false end)
    "metadata.end_date" "DATE_ORDER_INVALID" ++
  issue_if (negb (is_ok (NormalizePaymentTerms (m_PaymentTerms m) (m_AmountMinor m)
                           (m_Currency m))))
    "metadata.payment_terms" "PAYMENT_TERMS_INVALID".

(** [ImportMetadata.Contract]: the fields a manifest may set. *)
Definition metadata_contract (m : ImportMetadata) : Contract :=
  mkDomain "" "" "" "" (m_Title m) (m_ContractType m) (m_ServiceType m) (m_Systems m)
    (m_ServiceItems m)
    (mkPartyFields (m_OpportunityID m) (m_OpportunityName m) (m_CRMCustomerID m)
       (m_CounterpartySource m) (m_LocalCounterpartyID m) (m_CounterpartyVersion m)
       (m_CategorySource m) "" (m_CustomerName m) (m_CustomerAddress m) (m_CustomerContact m)
       (m_CustomerPhone m) (m_CustomerCreditLevel m))
    (mkOwnerFields "" "" "" "" "") (m_AmountMinor m) (m_Currency m) (Some (m_PaymentTerms m))
    (mkDocumentFields "" "" ∅ "" "" "" "" "" (m_ExternalPaperNumber m) "" "" "")
    (mkOriginFields "" "" "" "" "" "" None) "" (m_StartDate m) (m_EndDate m) no_row.

Definition normalizedImportMetadata (c : Contract) : ImportMetadata :=
  let p := k_party c in
  mkMetadata (k_Title c) (k_Type c) (k_ServiceType c) (k_OpportunityID p) (k_OpportunityName p)
    (k_CounterpartySource p) (k_LocalCounterpartyID p) (k_CounterpartyVersion p)
    (k_CategorySource p) (k_CRMCustomerID p) (k_CustomerName p) (k_CustomerAddress p)
    (k_CustomerContact p) (k_CustomerPhone p) (k_Systems c) (k_ServiceItems c)
    (k_CustomerCreditLevel p) (k_AmountMinor c) (k_Currency c) (terms_or_nil c) "" (k_StartDate c)
    (k_EndDate c) (k_ExternalPaperNumber (k_document c)) "" "" "" "".

(** ** Errors as issues *)

(** [errors.Is] along the causes of an error. *)
Definition is_identity_conflict (e : goerr) : bool :=
  match e with ErrImportIdentityConflict _ _ _ => true | _ => false end.

Definition importErrorCode (e : goerr) : string :=
  match e with
  | ErrCRMActorContextRequired => "IMPORT_CRM_SESSION_REQUIRED"
  | ErrForbidden => "IMPORT_AUTHORIZATION_REQUIRED"
  | ErrValidation => "IMPORT_VALIDATION_FAILED"
  | ErrImportIdentityConflict _ _ _ => "IMPORT_SOURCE_ID_CONFLICT"
  | ErrImportConflict => "IMPORT_REVISION_CONFLICT"
  | ErrImportNeedsReview => "IMPORT_NEEDS_REVIEW"
  | ErrImportUnsupported => "IMPORT_POLICY_UNSUPPORTED"
  | ErrCommercialLicense => "COMMERCIAL_LICENSE_RESTRICTED"
  | _ => "IMPORT_DEPENDENCY_UNAVAILABLE"
  end.

Definition importIdentityConflictMessage (contractID itemID kind : string) : string :=
  if kind =s ImportConflictKindAlreadyImported then
    if negb (empty_str contractID)
    then "该来源单号此前已导入为合同 " +:+ contractID +:+ "（导入项 " +:+ itemID +:+
         "），不会重复建单；请核对原合同并走更正流程。"
    else "该来源单号已有导入身份记录，但未关联合同；请核对导入台账后再处理。"
  else if kind =s ImportConflictKindLedgerMismatch then
    "CRM 开立台账与批次进度不一致（台账称合同/商机已建，但批次缺少合同 ID）；请核对开立记录后再处理。"
  else "预检后来源文件或权威字段（客户/商机/分类等）发生变化，请重新预检后再提交。".
Definition importIdentityConflictIssue (e : goerr) (field : string) : option ImportIssue :=
  match e with
  | ErrImportIdentityConflict contractID itemID kind =>
      Some (mkIssue field (importErrorCode e) false
              (importIdentityConflictMessage contractID itemID kind) contractID itemID kind)
  | _ => None
  end.

Definition previewImportItemIssue (e : goerr) : ImportIssue :=
  match e with
  | ErrCRMActorContextRequired =>
      mkIssue "metadata.crm_customer_id" "IMPORT_CRM_SESSION_REQUIRED" true "" "" "" ""
  | ErrImportUnsupported => issue "metadata" "IMPORT_POLICY_UNSUPPORTED"
  | ErrForbidden => issue "metadata" "IMPORT_AUTHORIZATION_REQUIRED"
  | ErrImportIdentityConflict contractID itemID kind =>
      mkIssue "metadata" (importErrorCode e) false
        (importIdentityConflictMessage contractID itemID kind) contractID itemID kind
  | ErrValidation => issue "metadata" "IMPORT_VALIDATION_FAILED"
  | _ => mkIssue "metadata" "IMPORT_DEPENDENCY_UNAVAILABLE" true "" "" "" ""
  end.

(** What a failed execution leaves on its item. *)
Definition importItemIssue (e : goerr) : ImportIssue :=
  match e with
  | ErrImportProvision field code retryable message _ =>
      mkIssue field code retryable message "" "" ""
  | ErrImportIdentityConflict contractID itemID kind =>
      mkIssue "commit" (importErrorCode e) false
        (importIdentityConflictMessage contractID itemID kind) contractID itemID kind
  | ErrImportConflict | ErrImportNeedsReview => issue "commit" (importErrorCode e)
  | _ => mkIssue "commit" (importErrorCode e) true "" "" "" ""
  end.

(** An item that does not go on by itself. *)
Definition terminal_codes : list string :=
  ["IMPORT_SOURCE_ID_CONFLICT"; "IMPORT_CORRECTION_REQUIRED"; "IMPORT_NEEDS_REVIEW"].
Definition importItemTerminal (item : ImportItemState) : bool :=
  (it_State item =s "CORRECTION_REQUIRED") || (it_State item =s "NEEDS_REVIEW") ||
  ((it_State item =s "BLOCKED") && existsb (λ i, contains terminal_codes (iu_Code i)) (it_Issues item)).

Definition withoutProvisionCustomerRequirement (issues : list ImportIssue) : list ImportIssue :=
  filter (λ i, (iu_Field i =s "metadata.crm_customer_id") && (iu_Code i =s "REQUIRED") = false) issues.

Definition importConfirmationResumable (cf : ImportConfirmation) : bool :=
  if cf_State cf =s "STARTING" then true
  else if cf_State cf =s "APPROVED" then AutoApproved cf else false.

(** ** Provisioning of the CRM *)

Definition CodeImportCRMProvisionDisabled : string := "IMPORT_CRM_PROVISION_DISABLED".
Definition CodeImportProvisionOwnerUnresolved : string := "IMPORT_PROVISION_OWNER_UNRESOLVED".
Definition CodeImportProvisionCustomerAmbiguous : string := "IMPORT_PROVISION_CUSTOMER_AMBIGUOUS".
Definition CodeImportProvisionCRMRejected : string := "IMPORT_PROVISION_CRM_REJECTED".
Definition CodeImportProvisionContractNotVerified : string :=
  "IMPORT_PROVISION_CONTRACT_NOT_VERIFIED".
Definition codeImportValidationFailed : string := "IMPORT_VALIDATION_FAILED".
Definition codeImportFieldTooLong : string := "TOO_LONG".
Definition crmProvisionContractNotVerified : string := "CRM_IMPORT_PROVISION_CONTRACT_NOT_VERIFIED".

Definition ImportItemStateNeedsProvision : string := "NEEDS_PROVISION".
Definition ImportProvisionCustomerExists : string := "EXISTS".
Definition ImportProvisionCustomerToCreate : string := "TO_CREATE".
Definition ImportProvisionCustomerAmbiguous : string := "AMBIGUOUS".
Definition ImportProvisionSalesResolved : string := "RESOLVED".
Definition ImportProvisionSalesUnresolved : string := "UNRESOLVED".
Definition ImportProvisionSalesAmbiguous : string := "AMBIGUOUS".
Definition ImportProvisionCustomerProfileMaxLength : Z := 64.

Definition importProvisionModeApplies (mode : ImportMode) : bool :=
  (mode =s ImportArchiveOnly) || (mode =s ImportHistoricalClosed).
Definition importProvisionItemApplies (enabled : bool) (item : ImportItem) : bool :=
  let m := i_Metadata item in
  enabled && importProvisionModeApplies (i_Mode item) && (m_CRMCustomerID m =? 0) &&
  empty_str (m_OpportunityID m) && empty_str (m_OpportunityName m) &&
  negb (m_CounterpartySource m =s CounterpartyLocal).

(** Go's division truncates; the sign of the fraction is dropped. *)
Definition importProvisionAmount (minor : Z) : string :=
  Itoa (Z.quot minor 100) +:+ "." +:+ sprintf_0d 2 (Z.abs (Z.rem minor 100)).
Definition importProvisionSignDate (start : option Time) : string :=
  match start with
  | None => ""
  | Some t => FormatDate (civil_of_days (t `div` (24 * Hour)))
  end.

Definition ProvisionCustomerProfile (m : ImportMetadata) : string * string * string :=
  (TrimSpace (m_CustomerType m), TrimSpace (m_Industry m), TrimSpace (m_Region m)).
(** The field of the first column that is too long; empty if none is. *)
Definition importProvisionOverlongCustomerProfileColumn (m : ImportMetadata) : string :=
  let '(customerType, industry, region) := ProvisionCustomerProfile m in
  let too_long v := ImportProvisionCustomerProfileMaxLength <? rune_count v in
  if too_long customerType then "metadata.customer_type"
  else if too_long industry then "metadata.industry"
  else if too_long region then "metadata.region" else "".
Definition importProvisionCustomerProfileIssue (m : ImportMetadata) : option ImportIssue :=
  let field := importProvisionOverlongCustomerProfileColumn m in
  if empty_str field then None else Some (issue field codeImportFieldTooLong).
Definition importProvisionCustomerProfileFailure (m : ImportMetadata) : res unit :=
  let field := importProvisionOverlongCustomerProfileColumn m in
  fail_if (negb (empty_str field))
    (ErrImportProvision field codeImportFieldTooLong false
       "客户类型、行业、地区每列最多 64 个字符，请精简后重新导入" (field +:+ " exceeds 64 characters")).

Definition importProvisionIdempotencyKey `{Sha256} (step : string) (key : ImportCRMProvisionKey)
    : string :=
  "import-provision:" +:+ step +:+ ":" +:+
  sha256_hex (CRMProvision.k_TenantID key +:+ nul +:+ k_SourceSystem key +:+ nul +:+ k_ExternalRecordID key).

Definition classifyImportProvisionCRMError (message : goerr → string) (e : goerr) : goerr :=
  match e with
  | ErrImportProvision _ _ _ _ _ => e
  | ErrCRMProvision unavailable code =>
      if TrimSpace code =s crmProvisionContractNotVerified then
        ErrImportProvision "metadata.opportunity_id" CodeImportProvisionContractNotVerified false
          "CRM 合同验真未通过：请先在 CRM 侧配置合同验真凭据后重试"
          ("CRM sign rejected by contract verification: " +:+ message e)
      else
        ErrImportProvision "metadata" CodeImportProvisionCRMRejected unavailable
          (if unavailable then "CRM 暂不可用，请稍后重试" else "CRM 拒绝了本次开立，请核对客户与商机数据")
          (message e)
  | _ =>
      ErrImportProvision "metadata" CodeImportProvisionCRMRejected false
        "CRM 拒绝了本次开立，请核对客户与商机数据" (message e)
  end.

(** The roles a user approves with. *)
Definition acting_roles (actor : Principal) (cf : ImportConfirmation) : list string :=
  omap (λ '(role, users), if contains users (p_UserID actor) && contains (p_Roles actor) role
                          then Some role else None) (map_to_list (cf_Assignees cf)).
