(* ===== verification/ImportJobs.v ===== *)
(** * application: the monad of the import use cases

    A request or a round of the dispatcher is a sequence of interactions with
    the tables, the file gateway, the directories, the CRM, the workflow engine
    and the receivers of released items.  Each interaction takes one step of the
    environment; between two steps other requests may change the tables
    ([ie_others]).  The state keeps all the tables and the trace of the commands
    sent to other systems; the programs of [Service] that an import uses only
    read, and run inside with [in_service].

    contract_import_store.go: the repository of this repository implements every
    interface of the imports, so that no capability is missing. *)

From S2P Require Import Prelude GoStrings Decimal GoTime BusinessClock Status NumberRule.
From S2P Require Import PaymentTerm ProjectService ImportPolicy Utf8 PhoneCipher CRMProvision.
From S2P Require Import ApprovalRule Workflow Store Outbound Handover Numbering Repository.
From S2P Require Import Signing SigningFlow Access Like Ledger Reports SigningLedger Templates.
From S2P Require Import Drafting StatusWorkflow Service UseCases DraftCases.
From S2P Require Import ImportBatch ImportConfirm ImportTargets ImportRules.

#[local] Open Scope string_scope.
#[local] Open Scope Z_scope.
#[local] Open Scope list_scope.

(** ** crm_provision.go *)

Record CRMProvisionCustomerCandidate : Type := mkCandidate {
  cu_ID : Z; cu_Name : string; cu_Status : string
}.
Record CRMProvisionCustomerInput : Type := mkCustomerInput {
  cn_Name : string; cn_CustomerType : string; cn_Industry : string; cn_Region : string;
  cn_OwnerIdentityID : string
}.
(** The created customer and opportunity: the fields the imports read. *)
Record CRMProvisionCustomer : Type := mkCreated { cr_ID : Z; cr_Name : string }.
Record CRMProvisionOpportunityInput : Type := mkOpportunityInput {
  on_CustomerID : Z; on_OwnerIdentityID : string; on_Name : string; on_Amount : string;
  on_ExpectedSignDate : string
}.

(** The three dependencies of the channel are set together or not at all. *)
Definition ConfigureCRMProvision (enabled customer opportunity owners : bool) : bool * res unit :=
  if negb enabled then (false, Ok tt)
  else if negb customer || negb opportunity || negb owners
  then (false, Err ErrCRMProvisionNotConfigured)
  else (true, Ok tt).

(** ** What the receivers answer *)

Record projectReply : Type := mkProjectReply {
  qr_CommandID : string; qr_SchemaVersion : Z; qr_TenantID : string; qr_ItemID : string;
  qr_SourceRevision : Z; qr_PolicyDigest : string; qr_ReleaseVersion : Z;
  qr_ContractID : string; qr_ProjectID : string; qr_ProjectVersion : Z; qr_Status : string
}.
Record importFinanceStatus : Type := mkFinanceStatus {
  fs_PolicyDigest : string; fs_ImportMode : ImportMode; fs_SourceContractID : string;
  fs_CustomerID : string; fs_Currency : string; fs_ContractAmount : string;
  fs_SnapshotID : string; fs_State : string; fs_MigrationState : string; fs_ItemID : string;
  fs_SnapshotVersion : Z; fs_ReleaseVersion : Z; fs_SourceRevision : Z;
  fs_ReconciliationID : string; fs_ExpectedOwner : string; fs_Owner : string;
  fs_OwnerVersion : Z; fs_OwnerActive : bool; fs_OwnerMatches : bool
}.
Record financeReply : Type := mkFinanceReply {
  ff_EventID : string; ff_SnapshotID : string; ff_Status : string; ff_MigrationState : string
}.
Record reportReply : Type := mkReportReply {
  rt_SchemaVersion : Z; rt_TenantID : string; rt_ItemID : string; rt_SourceRevision : Z;
  rt_ReleaseVersion : Z; rt_RequiredChannels : string; rt_AppliedChannels : list string;
  rt_State : string; rt_SnapshotID : string; rt_RunID : string; rt_AppliedAt : option Time;
  rt_SourceFactsConnected : bool
}.

(** ** Configuration and environment *)

Record ImportConfig : Type := mkImportConfig {
  jc_Service : Config; jc_ContractImportEnabled : bool; jc_ContractImportHistoryEnabled : bool;
  jc_ContractImportAutoApproveHistorical : bool; jc_ContractImportMaxItems : Z;
  jc_ContractImportStagingTTL : Z; jc_ContractImportConfirmationRoles : list string;
  jc_ImportActorResolver : bool; jc_ImportOwners : bool; jc_ImportProject : bool;
  jc_ImportFinance : bool; jc_ImportReport : bool; jc_ImportReportReadConfigured : bool;
  jc_CRMProvision : bool
}.

Class ImportEnvironment := {
  ie_others : nat → IDB → IDB;
  ie_download : nat → string → res string;
  ie_retire : nat → string → res string;
  ie_release : nat → res unit;
  ie_actor : nat → string → string → string → res Principal;
  ie_owner : nat → string → string → res UserReference;
  ie_sales : nat → string → res string;
  ie_lookup : nat → string → res (list CRMProvisionCustomerCandidate);
  ie_customer : nat → res CRMProvisionCustomer;
  ie_opportunity : nat → res Z;
  ie_sign : nat → res unit;
  ie_project : nat → res projectReply;
  ie_finance_status : nat → res importFinanceStatus;
  ie_finance : nat → res financeReply;
  ie_report : nat → res reportReply
}.

(** Commands sent to other systems. *)
Inductive ImportEffect : Type :=
  | JUpload (requestID : string)
  | JBind (fileID kind ref : string)
  | JRetire (requestID : string)
  | JRelease (fileID sourceID : string)
  | JStartConfirmation (workflowID : string) (inp : ImportConfirmationInput)
  | JCustomer (key : string) (inp : CRMProvisionCustomerInput)
  | JOpportunity (key : string) (inp : CRMProvisionOpportunityInput)
  | JSign (key : string) (opportunityID : Z) (contractRef : string)
  | JProject (payload : option targetRequest)
  | JFinance (payload : option targetRequest).

Record JobState : Type := mkJob { jb_step : nat; jb_idb : IDB; jb_trace : list ImportEffect }.
Definition Job (A : Type) : Type := JobState → res A * JobState.
#[export] Instance Job_ret : MRet Job := λ A a s, (Ok a, s).
#[export] Instance Job_bind : MBind Job := λ A B f m s,
  match m s with
  | (Ok a, s') => f a s'
  | (Err e, s') => (Err e, s')
  end.
Definition jrefuse {A} (e : goerr) : Job A := λ s, (Err e, s).
Definition jpure {A} (r : res A) : Job A := λ s, (r, s).
Definition jcheck (b : bool) (e : goerr) : Job unit := jpure (fail_if b e).
Definition jattempt {A} (m : Job A) : Job (res A) := λ s, let '(r, s') := m s in (Ok r, s').
Definition jread {A} (m : ITx A) : Job A := λ s, ((m (0%nat, jb_idb s)).1, s).
Definition jchange {A} (f : IDB → res A * IDB) : Job A := λ s,
  ((f (jb_idb s)).1, mkJob (jb_step s) (f (jb_idb s)).2 (jb_trace s)).
Definition jemit (e : ImportEffect) : Job unit := λ s,
  (Ok tt, mkJob (jb_step s) (jb_idb s) (jb_trace s ++ [e])).

Section Jobs.
Context `{GoUnicode} `{Sha256} `{TzDatabase} `{Collation} `{Documents} `{Aead} `{PhoneKeyEnv}.
Context `{GoFloat} `{TemplateEngine} `{MediaTypes} `{CharCollation} `{Ulid} `{Environment}.
Context `{ImportDigests} `{UlidText} `{ImportEnvironment}.
Variable cfg : ImportConfig.
Variable meta : requestMeta.

Definition jtick : Job nat := λ s,
  let n := jb_step s in
  (Ok n, mkJob (S n) (ie_others n (jb_idb s)) (jb_trace s)).

(** A program of [Service] without effects of its own. *)
Definition in_service {A} (m : Svc A) : Job A := λ s,
  let '(r, s') := m (mkSession (jb_step s) (im_db (jb_idb s)) []) in
  (r, mkJob (se_step s') (with_db (se_db s') (jb_idb s)) (jb_trace s)).
Definition jlicensed : Job unit := in_service licensed.

Definition jreads {A} (m : Oracle → ITx A) : Job A :=
  n ← jtick; jread (m (ev_oracle n)).
Definition jwrites {A} (f : Oracle → IDB → res A * IDB) : Job A :=
  n ← jtick; jchange (f (ev_oracle n)).
Definition jclock : Job Time := n ← jtick; mret (@o_now (ev_oracle n) 0).
Definition jfresh : Job string := n ← jtick; mret (@o_id (ev_oracle n) 0).

Definition jupdate {A} (tenant id : string) (change : Oracle → ImportBatch → ITx (A * ImportBatch))
    : Job A :=
  jwrites (λ o, UpdateImportBatch tenant id (change o)).
Definition jbatch (tenant id : string) : Job ImportBatch :=
  jreads (λ o, GetImportBatch tenant id).
Definition jcontract (tenant id : string) : Job Contract :=
  jreads (λ o, in_db (Ledger.GetContract tenant id)).

(** A call on a gateway that is not configured dereferences nil. *)
Definition gateway_call {A} (m : Job A) : Job A :=
  jcheck (negb (sc_HasGateway (jc_Service cfg))) ErrPanic;; m.
Definition jupload (requestID : string) : Job string :=
  gateway_call (n ← jtick; jemit (JUpload requestID);; jpure (ev_gateway n)).
Definition jbind (fileID kind ref : string) : Job unit :=
  gateway_call (n ← jtick; jemit (JBind fileID kind ref);; jpure (ev_gateway n ≫= λ _, Ok tt)).
Definition jdownload (fileID : string) : Job string :=
  gateway_call (n ← jtick; jpure (ie_download n fileID)).
Definition jretire (requestID : string) : Job string :=
  gateway_call (n ← jtick; jemit (JRetire requestID);; jpure (ie_retire n requestID)).
Definition jrelease (fileID sourceID : string) : Job unit :=
  gateway_call (n ← jtick; jemit (JRelease fileID sourceID);; jpure (ie_release n)).

Definition ensure_not_frozen (tenantID userID : string) : Job unit :=
  jreads (λ o, in_db (EnsureOwnerNotFrozen (sc_HandoverFreeze (jc_Service cfg)) tenantID userID)).
Definition resolve_owner (tenantID userID : string) : Job UserReference :=
  n ← jtick; jpure (ie_owner n tenantID userID).

(** contract_import_confirmation.go, [importHistoryOwner]. *)
Definition importHistoryOwner (actor : Principal) (item : ImportItem) : Job UserReference :=
  match i_HistoryEvidence item with
  | None => jrefuse ErrImportUnsupported
  | Some e =>
      jcheck (negb (jc_ImportOwners cfg)) ErrImportUnsupported;;
      let id := e_TargetOwnerUserID e in
      match Scope actor "contract.import.commit" with
      | None => jrefuse ErrForbidden
      | Some scope =>
          jcheck (negb (sf_AllowAll scope) && negb (id =s p_UserID actor)) ErrForbidden;;
          owner ← resolve_owner (p_TenantID actor) id;
          jcheck (negb (ur_UserID owner =s id)) ErrForbidden;;
          ensure_not_frozen (p_TenantID actor) id;;
          mret owner
      end
  end.

(** [importHistoryModeAvailable], [AvailableImportModes]. *)
Definition importHistoryModeAvailable (mode : ImportMode) : bool :=
  jc_ContractImportHistoryEnabled cfg &&
  negb (bool_decide (jc_ContractImportConfirmationRoles cfg = [])) &&
  jc_ImportReport cfg && jc_ImportReportReadConfigured cfg &&
  (if mode =s ImportContinueLive then jc_ImportProject cfg && jc_ImportFinance cfg
   else (mode =s ImportArchiveOnly) || (mode =s ImportHistoricalClosed)).
Definition AvailableImportModes : list string :=
  ImportNormal :: filter (λ mode, importHistoryModeAvailable mode = true)
                    [ImportArchiveOnly; ImportContinueLive; ImportHistoricalClosed].

(** The item goes through the channel of the CRM. *)
Definition provisioned (item : ImportItem) : bool :=
  importProvisionItemApplies (jc_CRMProvision cfg) item.

(** ** contract_import_auto_approve.go *)

Definition GetImportAutoApproveSettingCase (actor : Principal)
    : Job (ImportAutoApproveSetting * bool) :=
  jcheck (negb (isContractAdmin actor)) ErrForbidden;;
  setting ← jreads (λ o, GetImportAutoApproveSetting (p_TenantID actor));
  mret (setting, jc_ContractImportAutoApproveHistorical cfg).
Definition SetImportAutoApproveSettingCase (actor : Principal) (enabled : bool)
    (expectedVersion : Z) : Job ImportAutoApproveSetting :=
  jcheck (negb (isContractAdmin actor)) ErrForbidden;;
  jcheck (negb (jc_ContractImportAutoApproveHistorical cfg)) ErrImportAutoApproveDisabled;;
  jwrites (λ o, SetImportAutoApproveSetting (p_TenantID actor) enabled expectedVersion
                  (p_UserID actor)).
Definition importAutoApproveLive (tenantID : string) : Job (bool * Z) :=
  if negb (jc_ContractImportAutoApproveHistorical cfg) then mret (false, 0)
  else
    setting ← jreads (λ o, GetImportAutoApproveSetting tenantID);
    mret (se_Enabled setting, se_Version setting).
Definition importAutoApprovePolicy (b : ImportBatch) : Job ImportAutoApprovePolicy :=
  let live allow :=
    found ← importAutoApproveLive (ib_TenantID b);
    mret (mkAutoPolicy found.1 found.2 (allow && found.1)) in
  match ib_Confirmation b with
  | Some cf => if PolicyPinned cf then mret (mkAutoPolicy (AutoApproved cf) (cf_PolicyVersion cf) false)
               else live true
  | None => live false
  end.
Definition autoConfirmHistoricalImportItem (b : ImportBatch) (itemID : string)
    (policy : ImportAutoApprovePolicy) : Job unit :=
  jwrites (λ o, AutoConfirmHistoricalImportItem (ib_TenantID b)
                  (ib_ID b) itemID (jc_ContractImportConfirmationRoles cfg) policy).

End Jobs.
