(* ===== verification/ImportCases.v ===== *)
(** * application/contract_import_preview.go, _commit.go, _cleanup.go, import_document.go:
      batches and their previews

    Creating a batch, staging its source files, setting its manifest, previewing
    its items against the directories and the CRM, committing a batch of ordinary
    contracts, pausing and resuming it, releasing the staged files, and reading a
    source file. *)

From S2P Require Import Prelude GoStrings Decimal GoTime BusinessClock Status NumberRule.
From S2P Require Import PaymentTerm ProjectService ImportPolicy Utf8 PhoneCipher CRMProvision.
From S2P Require Import ApprovalRule Workflow Store Outbound Handover Numbering Repository.
From S2P Require Import Signing SigningFlow Access Like Ledger Reports SigningLedger Templates.
From S2P Require Import Drafting StatusWorkflow Service UseCases DraftCases.
From S2P Require Import ImportBatch ImportConfirm ImportTargets ImportRules ImportJobs.

#[local] Open Scope string_scope.
#[local] Open Scope Z_scope.
#[local] Open Scope list_scope.

Definition or_default (v default : Z) : Z := if v =? 0 then default else v.
Definition no_source : ImportSource := mkSource "" "" "" "" "" "" "".

(** The source of an item: the last one with its reference. *)
Definition item_source (b : ImportBatch) (item : ImportItemState) : ImportSource :=
  fold_left (λ found src, if sr_ID src =s i_SourceFileRef (it_Item item) then src else found)
    (ib_Sources b) no_source.

(** ** Changes of a batch *)

Section Changes.
Context `{Oracle} `{ImportDigests}.

Definition admit_source (actor : Principal) (version : Z) (key : string)
    (validated : ValidatedSource) (b : ImportBatch) : ITx (ImportSource * ImportBatch) :=
  ilift (importAccess actor b "contract.import.preview");;
  now ← inow;
  b ← ilift (editableImport now version b);
  iguard (existsb (λ i, (i_Key (it_Item i) =s key) && negb (empty_str (it_ContractID i)))
            (ib_Items b)) ErrImportCorrectionRequired;;
  match find (λ old, (sr_ItemKey old =s key) && (sr_SHA256 old =s vs_SHA256 validated) &&
                     (sr_Filename old =s vs_Filename validated)) (ib_Sources b) with
  | Some old => mret (old, b)
  | None =>
      iguard (300 <=? Z.of_nat (length (ib_Sources b))) ErrValidation;;
      id ← inewID;
      let source := mkSource id key (vs_Filename validated) (vs_MediaType validated)
                      (vs_SHA256 validated) "" "UPLOADING" in
      mret (source, batch_set_epoch (ib_Epoch b + 1) (batch_set_state "DRAFT"
              (batch_set_token "" (batch_set_revision (ib_Revision b + 1)
                 (batch_set_sources (ib_Sources b ++ [source]) b)))))
  end.

(** A source of the batch, changed. *)
Definition find_source (id : string) (b : ImportBatch) : option (nat * ImportSource) :=
  list_find (λ s, sr_ID s = id) (ib_Sources b).
Definition set_batch_source (i : nat) (s : ImportSource) (b : ImportBatch) : ImportBatch :=
  batch_set_sources (<[i := s]> (ib_Sources b)) b.

Definition receive_source (source : ImportSource) (b : ImportBatch) : ITx (unit * ImportBatch) :=
  now ← inow;
  iguard ((ib_State b =s "EXPIRED") || negb (now <? ib_ExpiresAt b)) ErrImportConflict;;
  match find_source (sr_ID source) b with
  | Some (i, s) =>
      iguard (sr_State s =s "CLEANED") ErrImportConflict;;
      mret (tt, set_batch_source i source b)
  | None => ithrow ErrImportConflict
  end.

Definition clean_source (id : string) (b : ImportBatch) : ITx (unit * ImportBatch) :=
  match find_source id b with
  | Some (i, s) => mret (tt, set_batch_source i (source_set_state "CLEANED" s) b)
  | None => ithrow ErrImportConflict
  end.
Definition expire_batch (b : ImportBatch) : ITx (unit * ImportBatch) :=
  iguard (negb (empty_str (ib_OperationID b)) && negb (ib_State b =s "COMPLETED"))
    ErrImportConflict;;
  mret (tt, if empty_str (ib_OperationID b)
            then batch_set_token "" (batch_set_epoch (ib_Epoch b + 1) (batch_set_state "EXPIRED" b))
            else b).

(** The items of a new manifest: an item whose contract exists is kept when
    the manifest did not change it; the identifier of the item otherwise. *)
Fixpoint manifest_items (b : ImportBatch) (previous : gmap string ImportItemState)
    (items : list ImportItem) : ITx (string + list ImportItemState * gmap string ImportItemState) :=
  match items with
  | [] => mret (inr ([], previous))
  | item :: rest =>
      iguard (negb (existsb (λ src, (sr_ID src =s i_SourceFileRef item) &&
                                    (sr_ItemKey src =s i_Key item) && (sr_State src =s "READY"))
                      (ib_Sources b))) ErrValidation;;
      let go next :=
        tail ← manifest_items b (delete (i_Key item) previous) rest;
        mret (match tail with
              | inl id => inl id
              | inr (items, unused) => inr (next :: items, unused)
              end) in
      let fresh id := mkItemState item id "PENDING" "" "" [] (ib_Revision b + 1) None [] false in
      match previous !! i_Key item with
      | Some old =>
          if negb (empty_str (it_ContractID old)) then
            if ImportDigest (DItem (it_Item old)) =s ImportDigest (DItem item) then go old
            else mret (inl (it_ID old))
          else _ ← inewID; go (fresh (it_ID old))
      | None => id ← inewID; go (fresh id)
      end
  end.
Definition previous_items (b : ImportBatch) : gmap string ImportItemState :=
  fold_left (λ m i, <[i_Key (it_Item i) := i]> m) (ib_Items b) ∅.

(** Whether a correction is required.  The items the manifest leaves out are
    visited in the order of a Go map; the first with a contract is marked. *)
Definition set_manifest (actor : Principal) (version : Z) (m : ImportManifest) (b : ImportBatch)
    : ITx (bool * ImportBatch) :=
  ilift (importAccess actor b "contract.import.preview");;
  now ← inow;
  b ← ilift (editableImport now version b);
  iguard (negb (mf_SourceSystem m =s ib_SourceSystem b)) ErrValidation;;
  found ← manifest_items b (previous_items b) (mf_Items m);
  match found with
  | inl id => mret (true, markImportCorrection b id)
  | inr (items, unused) =>
      match find (λ i, negb (empty_str (it_ContractID i))) (map_to_list unused).*2 with
      | Some old => mret (true, markImportCorrection b (it_ID old))
      | None =>
          mret (false, batch_set_state "DRAFT" (batch_set_plan [] (batch_set_token ""
                  (batch_set_revision (ib_Revision b + 1) (batch_set_epoch (ib_Epoch b + 1)
                     (batch_set_items items b))))))
      end
  end.

Definition store_preview (actor : Principal) (previewed : ImportBatch) (b : ImportBatch)
    : ITx (unit * ImportBatch) :=
  ilift (importAccess actor b "contract.import.preview");;
  now ← inow;
  b ← ilift (editableImport now (ib_Version previewed) b);
  mret (tt, batch_set_plan (ib_ProvisionPlan previewed)
              (batch_set_preview (ib_PreviewToken previewed) (ib_PreviewExpiresAt previewed)
                 (batch_set_state (ib_State previewed) (batch_set_items (ib_Items previewed) b)))).

(** contract_import_commit.go. *)
Definition commit_import (actor : Principal) (enabled : bool) (revision : Z)
    (token key session : string) (b : ImportBatch) : ITx (unit * ImportBatch) :=
  ilift (importAccess actor b "contract.import.commit");;
  iguard (negb (p_UserID actor =s ib_ActorID b)) ErrForbidden;;
  let digest := ImportDigest (DKey key) in
  if negb (empty_str (ib_OperationID b)) && (ib_CommittedRevision b =? revision) then
    iguard (negb (ib_Revision b =? revision) || negb (ib_CommitKeyHash b =s digest))
      ErrImportConflict;;
    mret (tt, b)
  else
    iguard (negb enabled && empty_str (ib_OperationID b)) ErrImportUnsupported;;
    now ← inow;
    iguard (negb (ib_Revision b =? revision) || negb (ib_PreviewToken b =s token) ||
            empty_str token || negb (ib_State b =s "PREVIEWED") ||
            negb (now <? ib_PreviewExpiresAt b) || negb (now <? ib_ExpiresAt b)) ErrImportConflict;;
    iguard (existsb (λ i, negb (i_Mode (it_Item i) =s ImportNormal)) (ib_Items b))
      ErrImportUnsupported;;
    operation ← (if empty_str (ib_OperationID b) then inewID else mret (ib_OperationID b));
    mret (tt, batch_set_state "QUEUED" (batch_set_epoch (ib_Epoch b + 1)
                (batch_set_operation operation (ib_Revision b) digest session b))).

Definition reset_item (item : ImportItemState) : ImportItemState :=
  if negb (empty_str (it_ContractID item)) || importItemTerminal item then item
  else item_set_state "READY" [] item.
Definition control_import (actor : Principal) (version : Z) (resume : bool) (session : string)
    (b : ImportBatch) : ITx (unit * ImportBatch) :=
  ilift (importAccess actor b "contract.import.commit");;
  iguard (match ib_Confirmation b with
          | Some cf => negb (importConfirmationResumable cf)
          | None => false
          end) ErrImportConflict;;
  iguard (negb (ib_Version b =? version) || empty_str (ib_OperationID b) ||
          (ib_State b =s "COMPLETED")) ErrImportConflict;;
  let b := batch_set_lease zero_time (batch_set_epoch (ib_Epoch b + 1) b) in
  if negb resume then mret (tt, batch_set_state "PAUSED" b)
  else
    iguard (existsb (λ i, (it_State i =s "CORRECTION_REQUIRED") || (it_State i =s "NEEDS_REVIEW"))
              (ib_Items b)) ErrImportNeedsReview;;
    iguard (negb (ib_CommittedRevision b =? ib_Revision b)) ErrImportConflict;;
    iguard (negb (slen session =? 32) || negb (p_UserID actor =s ib_ActorID b)) ErrForbidden;;
    mret (tt, batch_set_items (map reset_item (ib_Items b))
                (batch_set_state "QUEUED" (batch_set_session session b))).

End Changes.

(** ** Use cases *)

Section Cases.
Context `{GoUnicode} `{Sha256} `{TzDatabase} `{Collation} `{Documents} `{Aead} `{PhoneKeyEnv}.
Context `{GoFloat} `{TemplateEngine} `{MediaTypes} `{CharCollation} `{Ulid} `{Environment}.
Context `{ImportDigests} `{UlidText} `{ImportEnvironment}.
Variable cfg : ImportConfig.
Variable meta : requestMeta.

Definition new_batch (actor : Principal) (id source : string) (expires : Time) : ImportBatch :=
  mkBatch id (p_TenantID actor) (p_UserID actor) source "DRAFT" 1 1 [] [] [] None [] "" zero_time
    expires "" 0 "" "" 0 zero_time.
Definition CreateImportBatchCase (actor : Principal) (source : string) : Job ImportBatch :=
  id ← jfresh;
  jcheck (negb (jc_ContractImportEnabled cfg)) ErrImportUnsupported;;
  jpure (importAccess actor (new_batch actor id source zero_time) "contract.import.preview");;
  jcheck ((64 <? slen source) || negb (validImportKey source)) ErrValidation;;
  jlicensed;;
  now ← jclock;
  let ttl := or_default (jc_ContractImportStagingTTL cfg) (168 * Hour) in
  let b := new_batch actor id source (now + ttl) in
  jwrites (λ o, CreateImportBatch b);;
  mret b.

Definition GetImportBatchCase (actor : Principal) (id : string) : Job ImportBatch :=
  b ← jbatch (p_TenantID actor) id;
  if existsb (λ permission, is_ok (importAccess actor b permission)) importBatchReadPermissions
  then mret (importBatchForReader b actor)
  else jpure (importConfirmationAccess actor b);; mret (importBatchForReader b actor).

Definition source_file (source : ImportSource) : Job string :=
  fileID ← jupload cfg ("contract-import-" +:+ sr_ID source);
  jbind cfg fileID "contract_import_item" (sr_ID source);;
  mret fileID.
Definition UploadImportSource (actor : Principal) (batch : string) (version : Z)
    (key name media body : string) : Job ImportSource :=
  jcheck (negb (jc_ContractImportEnabled cfg) || negb (sc_HasGateway (jc_Service cfg)))
    ErrImportUnsupported;;
  jcheck (negb (validImportKey key)) ErrValidation;;
  validated ← jpure (as_validation (ValidateExternalSource name media body));
  jcheck ((vs_Format validated =s FormatPDF) && negb (sc_ExternalPDFEnabled (jc_Service cfg)))
    ErrImportUnsupported;;
  jlicensed;;
  source ← jupdate (p_TenantID actor) batch (λ o, admit_source actor version key validated);
  if sr_State source =s "READY" then mret source
  else
    fileID ← source_file source;
    let source := source_set_file fileID "READY" source in
    received ← jattempt (jupdate (p_TenantID actor) batch (λ o, receive_source source));
    match received with
    | Ok _ => mret source
    | Err e => jattempt (jrelease cfg fileID (sr_ID source));; jrefuse e
    end.

Definition manifest_error (e : goerr) : goerr :=
  match e with ErrImportMixedLifecycle => ErrImportMixedLifecycle | _ => ErrValidation end.
Definition SetImportManifest (actor : Principal) (id : string) (version : Z) (m : ImportManifest)
    : Job unit :=
  jcheck (negb (jc_ContractImportEnabled cfg)) ErrImportUnsupported;;
  jpure (match ValidateManifest m (or_default (jc_ContractImportMaxItems cfg) 100) with
         | Ok _ => Ok tt
         | Err e => Err (manifest_error e)
         end);;
  correction ← jupdate (p_TenantID actor) id (λ o, set_manifest actor version m);
  jcheck correction ErrImportCorrectionRequired.

(** ** Preparing an item *)

Definition prepareProvisionContract (actor : Principal) (c : Contract) (external : bool)
    (permission : string) : res Contract :=
  fail_if (negb external) ErrImportUnsupported;;
  authorized ← authorizeContractWrite actor c permission;
  shaped ← normalizeContractShape authorized true;
  finalizeContractCommercials shaped.

Definition source_contract (m : ImportMetadata) (source : ImportSource) (body : string) : Contract :=
  let c := metadata_contract m in
  let d := k_document c in
  with_document (mkDocumentFields (k_Content d) (k_TemplateID d) (k_TemplateValues d) body
                   (k_DocumentFormat d) (sr_MediaType source) (sr_Filename source)
                   (k_SourceSHA256 d) (k_ExternalPaperNumber d) (k_SourceFileID d)
                   (k_SourceFileStatus d) (k_ContentHash d)) c.
Definition without_content (c : Contract) : Contract :=
  let d := k_document c in
  with_document (mkDocumentFields "" (k_TemplateID d) (k_TemplateValues d) (k_Document d)
                   (k_DocumentFormat d) (k_SourceMediaType d) (k_SourceFilename d)
                   (k_SourceSHA256 d) (k_ExternalPaperNumber d) (k_SourceFileID d)
                   (k_SourceFileStatus d) (k_ContentHash d)) c.
Definition baseline (b : ImportBatch) (item : ImportItem) (source : ImportSource) (c : Contract)
    : string :=
  ImportDigest (DBaseline (ib_SourceSystem b) (i_ExternalRecordID item) (sr_SHA256 source)
                  (without_content c) (i_HistoryEvidence item) (i_Policy item) (i_Mode item)).

Definition historical_checks (actor : Principal) (b : ImportBatch) (item : ImportItem) : Job unit :=
  let unconfirmed := bool_decide (ib_Confirmation b = None) in
  jcheck ((negb (jc_ContractImportHistoryEnabled cfg) && unconfirmed) ||
          negb (is_ok (ValidateHistoryEvidence item))) ErrImportUnsupported;;
  jcheck (unconfirmed && negb (importHistoryModeAvailable cfg (i_Mode item))) ErrImportUnsupported;;
  importHistoryOwner cfg actor item;;
  mret tt.

Definition prepareImportItemWith (actor : Principal) (b : ImportBatch) (state : ImportItemState)
    (provision : bool) : Job (Contract * string) :=
  let item := it_Item state in
  let m := i_Metadata item in
  let historical := negb (i_Mode item =s ImportNormal) in
  jcheck (historical && ((m_CounterpartySource m =s CounterpartyLocal) ||
                         (m_CategorySource m =s CategoryLocal))) ErrImportUnsupported;;
  (if historical then historical_checks actor b item else mret tt);;
  let source := item_source b state in
  jcheck (negb (sr_State source =s "READY") || negb (sc_HasGateway (jc_Service cfg)))
    ErrImportUnsupported;;
  body ← jdownload cfg (sr_GatewayID source);
  c ← jpure (prepareExternalSource
               (sc_ExternalPDFEnabled (jc_Service cfg) || negb (empty_str (ib_OperationID b)))
               (source_contract m source body));
  jcheck (negb (k_SourceSHA256 (k_document c) =s sr_SHA256 source))
    (ErrImportIdentityConflict "" "" ImportConflictKindBaselineDrift);;
  jcheck (128 <? rune_count (k_ExternalPaperNumber (k_document c))) ErrValidation;;
  c ← (if provision then jpure (prepareProvisionContract actor c true "contract.create")
       else in_service (prepareContract (jc_Service cfg) actor c true "contract.create"));
  jcheck (negb (empty_str (m_ServiceType m)) && negb (m_ServiceType m =s k_ServiceType c))
    ErrValidation;;
  jcheck (negb (bool_decide (m_Systems m = [])) &&
          negb (ImportDigest (DSystems (m_Systems m)) =s ImportDigest (DSystems (k_Systems c))))
    ErrValidation;;
  mret (c, baseline b item source c).
Definition prepareImportItem actor b state : Job (Contract * string) :=
  prepareImportItemWith actor b state false.
Definition prepareProvisionImportItem actor b state : Job (Contract * string) :=
  prepareImportItemWith actor b state true.

(** ** The plan of the channel of the CRM *)

Definition provision_key (b : ImportBatch) (item : ImportItem) : ImportCRMProvisionKey :=
  mkKey (ib_TenantID b) (ib_SourceSystem b) (i_ExternalRecordID item).
Definition owner_failure (retryable : bool) (message reason : string) : goerr :=
  ErrImportProvision "metadata.sales_name" CodeImportProvisionOwnerUnresolved retryable message
    reason.

(** The identity of the sales person, and the state the plan shows. *)
Definition resolveImportProvisionSales (salesName : string) : Job (string * res string) :=
  let name := TrimSpace salesName in
  if empty_str name then
    mret (ImportProvisionSalesUnresolved,
          Err (owner_failure false "清单未提供销售姓名，无法确定商机负责人" "sales name is empty"))
  else if 128 <? rune_count name then
    mret (ImportProvisionSalesUnresolved,
          Err (owner_failure false "销售姓名超过 128 个字符，无法解析" "sales name exceeds 128 characters"))
  else
    n ← jtick;
    mret (match ie_sales n name with
          | Ok identity =>
              if negb (empty_str (TrimSpace identity))
              then (ImportProvisionSalesResolved, Ok (TrimSpace identity))
              else (ImportProvisionSalesUnresolved,
                    Err (owner_failure true "平台负责人目录返回了空身份，请稍后重试"
                           "owner directory returned an empty identity"))
          | Err ErrProvisionOwnerAmbiguous =>
              (ImportProvisionSalesAmbiguous,
               Err (owner_failure false "销售姓名命中多个平台身份，请先消歧后再导入"
                      "owner directory matched multiple owners"))
          | Err ErrProvisionOwnerNotFound =>
              (ImportProvisionSalesUnresolved,
               Err (owner_failure false "销售姓名在平台负责人目录中不存在，请核对后重新导入"
                      "owner directory has no matching owner"))
          | Err _ =>
              (ImportProvisionSalesUnresolved,
               Err (owner_failure true "平台负责人目录暂不可用，请稍后重试"
                      "owner directory is unavailable"))
          end).

Definition customer_ambiguous (message reason : string) : goerr :=
  ErrImportProvision "metadata.customer_name" CodeImportProvisionCustomerAmbiguous false message
    reason.
Definition customer_active (candidate : CRMProvisionCustomerCandidate) : bool :=
  EqualFold (TrimSpace (cu_Status candidate)) "ACTIVE".
Definition planImportProvisionCustomer (customerName : string) : Job (string * res unit) :=
  n ← jtick;
  mret (match ie_lookup n customerName with
        | Err e => (ImportProvisionCustomerToCreate,
                    Err (classifyImportProvisionCRMError ev_message e))
        | Ok [] => (ImportProvisionCustomerToCreate, Ok tt)
        | Ok [candidate] =>
            if negb (customer_active candidate) then
              (ImportProvisionCustomerAmbiguous,
               Err (customer_ambiguous "命中的 CRM 客户已停用，请人工核对后再导入"
                      "preview: CRM customer is not ACTIVE"))
            else (ImportProvisionCustomerExists, Ok tt)
        | Ok (_ :: _ :: _) =>
            (ImportProvisionCustomerAmbiguous,
             Err (customer_ambiguous "客户名称命中多个 CRM 客户，请人工消歧后再导入"
                    "preview: multiple CRM customers matched"))
        end).

Definition planImportProvision (item : ImportItem)
    : Job (ImportProvisionPlanItem * option ImportIssue) :=
  let m := i_Metadata item in
  let customerName := TrimSpace (m_CustomerName m) in
  let salesName := TrimSpace (m_SalesName m) in
  sales ← resolveImportProvisionSales salesName;
  customer ← planImportProvisionCustomer customerName;
  mret (mkPlanItem customerName customer.1 salesName sales.1 (importProvisionAmount (m_AmountMinor m))
          (importProvisionSignDate (m_StartDate m)),
        match sales.2, customer.2 with
        | Err e, _ => Some (importItemIssue e)
        | Ok _, Err e => Some (importItemIssue e)
        | Ok _, Ok _ => None
        end).

(** ** The preview *)

(** The result of the preparation of an item. *)
Definition previewed (state : string) (prepared : res (Contract * string)) (item : ImportItemState)
    : ImportItemState * bool :=
  match prepared with
  | Ok (c, digest) => (item_set_preview state [] digest (Some (normalizedImportMetadata c)) item, true)
  | Err e => (item_set_state "BLOCKED" [previewImportItemIssue e] item, false)
  end.
Definition preview_issues (item : ImportItem) : list ImportIssue :=
  if provisioned cfg item then
    withoutProvisionCustomerRequirement (importFieldIssues item) ++
    option_list (importProvisionCustomerProfileIssue (i_Metadata item))
  else importFieldIssues item.

(** The item, whether it is ready, and its line of the plan. *)
Definition preview_item (actor : Principal) (b : ImportBatch) (mixed : bool) (item : ImportItemState)
    : Job (ImportItemState * bool * list ImportProvisionPlanItem) :=
  if negb (empty_str (it_ContractID item)) then mret (item, true, [])
  else if mixed then
    mret (item_set_state "BLOCKED" [issue "mode" "IMPORT_MIXED_LIFECYCLE"] item, false, [])
  else if negb (bool_decide (preview_issues (it_Item item) = [])) then
    mret (item_set_state "BLOCKED" (preview_issues (it_Item item)) item, false, [])
  else if provisioned cfg (it_Item item) then
    planned ← planImportProvision (it_Item item);
    match planned with
    | (plan, Some problem) => mret (item_set_state "BLOCKED" [problem] item, false, [plan])
    | (plan, None) =>
        prepared ← jattempt (prepareProvisionImportItem actor b item);
        mret (previewed ImportItemStateNeedsProvision prepared item, [plan])
    end
  else
    prepared ← jattempt (prepareImportItem actor b item);
    mret (previewed "READY" prepared item, []).

(** Later items are prepared with the results of the earlier ones stored in
    the batch, which the preparation does not read. *)
Fixpoint preview_items (actor : Principal) (b : ImportBatch) (mixed : bool)
    (items : list ImportItemState)
    : Job (list ImportItemState * bool * list ImportProvisionPlanItem) :=
  match items with
  | [] => mret ([], true, [])
  | item :: rest =>
      first ← preview_item actor b mixed item;
      others ← preview_items actor b mixed rest;
      mret (first.1.1 :: others.1.1, first.1.2 && others.1.2, first.2 ++ others.2)
  end.

Definition mixed_lifecycle (b : ImportBatch) : bool :=
  match ib_Items b with
  | [] => false
  | first :: _ =>
      existsb (λ i, negb (Bool.eqb (is_normal (it_Item i)) (is_normal (it_Item first)))) (ib_Items b)
  end.

Definition PreviewImport (actor : Principal) (id : string) (revision : Z) : Job ImportBatch :=
  b ← GetImportBatchCase actor id;
  jpure (importAccess actor b "contract.import.preview");;
  jcheck (negb (jc_ContractImportEnabled cfg)) ErrImportUnsupported;;
  jcheck (negb (ib_Revision b =? revision) || bool_decide (ib_Items b = []) ||
          contains ["QUEUED"; "RUNNING"; "COMPLETED"] (ib_State b)) ErrImportConflict;;
  jlicensed;;
  let mixed := mixed_lifecycle b in
  result ← preview_items actor b mixed (ib_Items b);
  token ← jfresh;
  now ← jclock;
  let state := if negb mixed && result.1.2 then "PREVIEWED" else "BLOCKED" in
  let b' := batch_set_preview token (now + 30 * Minute) (batch_set_state state
              (batch_set_plan result.2 (batch_set_items result.1.1 b))) in
  jupdate (p_TenantID actor) id (λ o, store_preview actor b');;
  GetImportBatchCase actor id.

(** ** Committing, pausing and resuming *)

Definition CommitImport (actor : Principal) (id : string) (revision : Z) (token key session : string)
    : Job ImportBatch :=
  jcheck ((slen key <? 8) || (128 <? slen key) || negb (slen session =? 32) ||
          negb (jc_ImportActorResolver cfg)) ErrValidation;;
  jupdate (p_TenantID actor) id
    (λ o, commit_import actor (jc_ContractImportEnabled cfg) revision token key session);;
  GetImportBatchCase actor id.
Definition ControlImport (actor : Principal) (id : string) (version : Z) (resume : bool)
    (session : string) : Job unit :=
  jupdate (p_TenantID actor) id (λ o, control_import actor version resume session).

(** ** Cleaning up the staged files *)

Definition cleanup_source (b : ImportBatch) (source : ImportSource) : Job unit :=
  if sr_State source =s "CLEANED" then mret tt
  else
    fileID ← jretire cfg ("contract-import-" +:+ sr_ID source);
    jcheck (negb (empty_str (sr_GatewayID source)) && negb (empty_str fileID) &&
            negb (sr_GatewayID source =s fileID)) ErrOther;;
    let fileID := if empty_str fileID then sr_GatewayID source else fileID in
    (if empty_str fileID then mret tt else jrelease cfg fileID (sr_ID source));;
    jupdate (ib_TenantID b) (ib_ID b) (λ o, clean_source (sr_ID source)).
Fixpoint each {A} (f : A → Job unit) (l : list A) : Job unit :=
  match l with [] => mret tt | a :: rest => f a;; each f rest end.
Definition cleanup_batch (b : ImportBatch) : Job unit :=
  now ← jclock;
  if now <? ib_ExpiresAt b then mret tt
  else
    jupdate (ib_TenantID b) (ib_ID b) (λ o, expire_batch);;
    each (cleanup_source b) (ib_Sources b).
Definition CleanupImportSources : Job unit :=
  if negb (sc_HasGateway (jc_Service cfg)) then mret tt
  else
    now ← jclock;
    batches ← jreads (λ o, ListImportCleanup now);
    each cleanup_batch batches.

(** ** import_document.go *)

Definition record_access_body `{Oracle} (tenantID contractID documentKind actorID : string) : ITx unit :=
  event ← inewID;
  in_db (insertAuditOutbox tenantID event
           (mkEntry (if empty_str actorID then "UNKNOWN" else actorID)
              "CONTRACT_MANAGEMENT:DOCUMENT_DOWNLOADED" "contract" contractID (rm_Audit meta)
              (PDocumentAccess contractID documentKind))).
Definition RecordDocumentAccess (actor : Principal) (contractID documentKind : string) : Job unit :=
  jwrites (λ o, itransaction (record_access_body (p_TenantID actor) contractID documentKind
                                (p_UserID actor))).

Definition staged_contract (item : ImportItemState) (source : ImportSource) (body : string)
    : Contract :=
  mkDomain (it_ID item) "" "" "" "" "" "" [] []
    (mkPartyFields "" "" 0 "" "" 0 "" "" "" "" "" "" "") (mkOwnerFields "" "" "" "" "") 0 "" None
    (mkDocumentFields "" "" ∅ body "" (sr_MediaType source) (sr_Filename source) (sr_SHA256 source)
       "" "" "" "") (mkOriginFields "" "" "" "" "" "" None) "" None None no_row.
Definition set_document_format (format : string) (c : Contract) : Contract :=
  let d := k_document c in
  with_document (mkDocumentFields (k_Content d) (k_TemplateID d) (k_TemplateValues d) (k_Document d)
                   format (k_SourceMediaType d) (k_SourceFilename d) (k_SourceSHA256 d)
                   (k_ExternalPaperNumber d) (k_SourceFileID d) (k_SourceFileStatus d)
                   (k_ContentHash d)) c.
Definition GetImportSourceDocument (actor : Principal) (batch itemID : string) : Job Contract :=
  b ← GetImportBatchCase actor batch;
  match find (λ i, it_ID i =s itemID) (List.rev (ib_Items b)) with
  | None => jrefuse ErrValidation
  | Some item =>
      jcheck (empty_str (it_ID item)) ErrValidation;;
      let source := item_source b item in
      jcheck (empty_str (sr_ID source) || empty_str (sr_SHA256 source)) ErrImportConflict;;
      c ← (if negb (empty_str (it_ContractID item)) then jcontract (ib_TenantID b) (it_ContractID item)
           else
             jcheck (negb (sc_HasGateway (jc_Service cfg))) ErrImportUnsupported;;
             body ← jdownload cfg (sr_GatewayID source);
             mret (staged_contract item source body));
      jcheck (negb (sha256_hex (k_Document (k_document c)) =s sr_SHA256 source))
        (ErrImportIdentityConflict "" "" ImportConflictKindBaselineDrift);;
      format ← jpure (as_validation (EffectiveDocumentFormat (k_DocumentFormat (k_document c))
                                       (k_Document (k_document c))));
      RecordDocumentAccess actor (k_ID c) ("IMPORT_SOURCE_" +:+ format);;
      mret (set_document_format format c)
  end.

End Cases.
