(* ===== verification/ImportExecute.v ===== *)
(** * application/contract_import_confirmation.go, _dispatcher.go, _provision.go:
      confirming and executing a batch

    Submitting a batch of historical contracts for confirmation, the commands of
    its approvers, and the dispatcher: one round claims a batch and executes one
    item, which creates its contract and, in the channel of the CRM, its customer
    and opportunity first and last. *)

From S2P Require Import Prelude GoStrings Decimal GoTime BusinessClock Status NumberRule.
From S2P Require Import PaymentTerm ProjectService ImportPolicy Utf8 PhoneCipher CRMProvision.
From S2P Require Import ApprovalRule Workflow Store Outbound Handover Numbering Repository.
From S2P Require Import Signing SigningFlow Access Like Ledger Reports SigningLedger Templates.
From S2P Require Import Drafting StatusWorkflow Service UseCases DraftCases.
From S2P Require Import ImportBatch ImportConfirm ImportTargets ImportRules ImportJobs ImportCases.

#[local] Open Scope string_scope.
#[local] Open Scope Z_scope.
#[local] Open Scope list_scope.

(** ** Changes of a batch *)

Section Changes.
Context `{Oracle} `{ImportDigests}.

(** What a submission freezes. *)
Record Submission : Type := mkSubmission {
  su_Revision : Z; su_Version : Z; su_Digest : string; su_KeyHash : string; su_Session : string;
  su_Roles : list string; su_At : Time; su_Automatic : bool
}.

(** The approvers of the roles; every role needs one. *)
Fixpoint assign_roles (users : list UserReference) (roles : list string)
    (assigned : gmap string (list string)) : res (gmap string (list string)) :=
  match roles with
  | [] => Ok assigned
  | role :: rest =>
      let approvers := approversForRole users role in
      fail_if (is_empty approvers) ErrApprovalAssigneeUnavailable;;
      assign_roles users rest (<[role := approvers]> assigned)
  end.

Definition auto_frozen (s : Submission) (b : ImportBatch) (setting : ImportAutoApproveSetting)
    : ImportConfirmation :=
  mkImportConfirmation ("contract-import-auto-" +:+ ib_ID b) (su_Revision s) (su_Digest s) "APPROVED"
    (su_Roles s) ∅ (su_Roles s) [] (su_At s) (su_At s + 72 * Hour) ImportPolicyDecisionAuto
    (se_Version setting).
Definition manual_frozen (s : Submission) (b : ImportBatch) (setting : ImportAutoApproveSetting)
    (assigned : gmap string (list string)) : ImportConfirmation :=
  mkImportConfirmation
    ("contract-import-confirmation-" +:+ ib_ID b +:+ "-" +:+ Itoa (su_Revision s)) (su_Revision s)
    (su_Digest s) "STARTING" (su_Roles s) assigned [] [] (su_At s) (su_At s + 72 * Hour)
    ImportPolicyDecisionManual (se_Version setting).

Definition freeze_confirmation (s : Submission) (personnel : res (list UserReference))
    (b : ImportBatch) (setting : ImportAutoApproveSetting) : ITx ImportBatch :=
  iguard (negb (ib_Version b =? su_Version s) || negb (ib_Revision b =? su_Revision s) ||
          bool_decide (is_Some (ib_Confirmation b))) ErrImportConflict;;
  cf ← (if su_Automatic s && se_Enabled setting then mret (auto_frozen s b setting)
        else
          users ← ilift personnel;
          assigned ← ilift (assign_roles users (su_Roles s) ∅);
          mret (manual_frozen s b setting assigned));
  mret (batch_set_epoch (ib_Epoch b + 1)
          (batch_set_operation ("history-" +:+ ib_ID b) (su_Revision s) (su_KeyHash s) (su_Session s)
             (batch_set_state "QUEUED" (with_confirmation cf b)))).

Definition auto_withdraw (action : string) (cf : ImportConfirmation) : bool :=
  (action =s "WITHDRAW") && AutoApproved cf && (cf_State cf =s "APPROVED").
Definition act_confirmation (actor : Principal) (version : Z) (key action : string)
    (b : ImportBatch) : ITx (unit * ImportBatch) :=
  match ib_Confirmation b with
  | None => ithrow ErrImportConflict
  | Some cf =>
      (if action =s "WITHDRAW" then
         iguard (negb (p_UserID actor =s ib_ActorID b)) ErrForbidden;;
         ilift (importAccess actor b "contract.import.commit")
       else ilift (importConfirmationAccess actor b));;
      match find (λ cmd, cc_Key cmd =s key) (cf_Commands cf) with
      | Some cmd =>
          iguard (negb (cc_ActorID cmd =s p_UserID actor) || negb (cc_Action cmd =s action))
            ErrImportConflict;;
          mret (tt, b)
      | None =>
          let withdraw := auto_withdraw action cf in
          iguard (withdraw && ((ib_State b =s "COMPLETED") || existsb it_Confirmed (ib_Items b)))
            ErrImportConflict;;
          now ← inow;
          iguard (negb (ib_Version b =? version) ||
                  (negb (cf_State cf =s "PENDING") && negb withdraw &&
                   negb ((action =s "WITHDRAW") && (cf_State cf =s "STARTING"))) ||
                  (negb withdraw && negb (now <? cf_ExpiresAt cf))) ErrImportConflict;;
          iguard (1000 <=? Z.of_nat (length (cf_Commands cf))) ErrValidation;;
          let cmd := mkConfirmCommand key (p_UserID actor) action (acting_roles actor cf) now in
          let cf := confirmation_set_commands (cf_Commands cf ++ [cmd]) cf in
          mret (tt, if withdraw
                    then paused (with_confirmation (confirmation_set_state "WITHDRAWN" cf) b)
                    else with_confirmation cf b)
      end
  end.

(** ** The end of a round of the dispatcher *)

Definition blocked_item (e : goerr) (item : ImportItemState) : ImportItemState :=
  item_set_state (match e with ErrImportNeedsReview => "NEEDS_REVIEW" | _ => "BLOCKED" end)
    [importItemIssue e] item.
Definition all_complete (b : ImportBatch) : bool :=
  forallb (λ i, it_State i =s "COMPLETE") (ib_Items b).
Definition settled_state (b : ImportBatch) : string :=
  match ib_Confirmation b with
  | Some cf => if cf_State cf =s "APPROVED" then "TARGETS_PENDING" else "CONFIRMATION_PENDING"
  | None => "COMPLETED"
  end.
Definition finish_round (epoch : Z) (index : option nat) (outcome : res unit) (b : ImportBatch)
    : ITx (unit * ImportBatch) :=
  iguard (negb (ib_Epoch b =? epoch) || negb (ib_State b =s "RUNNING")) ErrImportConflict;;
  let b := batch_set_lease zero_time b in
  match outcome with
  | Err e =>
      let b := batch_set_state "PARTIAL" b in
      match index with
      | None => mret (tt, b)
      | Some i =>
          match ib_Items b !! i with
          | None => ithrow ErrPanic
          | Some item => mret (tt, set_item i (blocked_item e item) b)
          end
      end
  | Ok _ =>
      if all_complete b then mret (tt, batch_set_session "" (batch_set_state (settled_state b) b))
      else mret (tt, batch_set_state (match index with Some _ => "QUEUED" | None => "PARTIAL" end) b)
  end.

Definition mark_complete (epoch : Z) (itemID : string) (b : ImportBatch) : ITx (unit * ImportBatch) :=
  iguard (negb (ib_Epoch b =? epoch) || negb (ib_State b =s "RUNNING")) ErrImportConflict;;
  match find_item itemID b with
  | Some (i, item) => mret (tt, set_item i (item_set_state "COMPLETE" [] item) b)
  | None => ithrow ErrImportConflict
  end.

End Changes.

Section Execute.
Context `{GoUnicode} `{Sha256} `{TzDatabase} `{Collation} `{Documents} `{Aead} `{PhoneKeyEnv}.
Context `{GoFloat} `{TemplateEngine} `{MediaTypes} `{CharCollation} `{Ulid} `{Environment}.
Context `{ImportDigests} `{UlidText} `{ImportEnvironment}.
Variable cfg : ImportConfig.
Variable meta : requestMeta.

(** ** Submission *)

Definition startImportConfirmation (b : ImportBatch) : Job unit :=
  match ib_Confirmation b with
  | None => jrefuse ErrApprovalWorkflowUnavailable
  | Some cf =>
      if AutoApproved cf then mret tt
      else
        jcheck (negb (sc_HasTemporal (jc_Service cfg))) ErrApprovalWorkflowUnavailable;;
        n ← jtick;
        jemit (JStartConfirmation (cf_WorkflowID cf)
                 (mkConfirmation (ib_TenantID b) (ib_ID b) (cf_Digest cf) (ib_Revision b)));;
        match ev_start n (cf_WorkflowID cf) with
        | StartFailed e => jrefuse e
        | _ => mret tt
        end
  end.

Definition submission_issues (item : ImportItem) : list ImportIssue :=
  if provisioned cfg item then withoutProvisionCustomerRequirement (importFieldIssues item)
  else importFieldIssues item.
Definition submittable (actor : Principal) (item : ImportItemState) : Job unit :=
  jcheck (is_normal (it_Item item) || negb (is_ok (ValidateHistoryEvidence (it_Item item))) ||
          negb (bool_decide (submission_issues (it_Item item) = [])) || empty_str (it_Digest item))
    ErrValidation;;
  importHistoryOwner cfg actor (it_Item item);;
  mret tt.

(** The directory as the transaction of the freeze sees it. *)
Definition personnel_at (n : nat) (roles : list string) : res (list UserReference) :=
  match ev_personnel n with
  | Some list_users =>
      match list_users roles with
      | Ok users => Ok users
      | Err _ => Err ErrPersonnelDirectoryUnavailable
      end
  | None => Err ErrPersonnelDirectoryUnavailable
  end.
Definition jfreeze (tenant batch : string) (s : Submission) : Job unit :=
  n ← jtick;
  jchange (let o := ev_oracle n in
           FreezeImportConfirmation tenant batch
             (freeze_confirmation s (personnel_at n (su_Roles s)))).

Definition SubmitImportConfirmation (actor : Principal) (id : string) (revision : Z)
    (token key session : string) : Job ImportBatch :=
  b ← GetImportBatchCase actor id;
  jpure (importAccess actor b "contract.import.commit");;
  jcheck (negb (p_UserID actor =s ib_ActorID b) || negb (slen session =? 32) || (slen key <? 8) ||
          (128 <? slen key)) ErrValidation;;
  let keyHash := ImportDigest (DKey key) in
  if bool_decide (is_Some (ib_Confirmation b)) then
    jcheck (negb (ib_Revision b =? revision) || negb (ib_CommitKeyHash b =s keyHash))
      ErrImportConflict;;
    startImportConfirmation b;;
    mret b
  else
    jcheck (negb (jc_ContractImportHistoryEnabled cfg) || negb (jc_ContractImportEnabled cfg))
      ErrImportUnsupported;;
    live ← importAutoApproveLive cfg (ib_TenantID b);
    jcheck (negb (sc_HasTemporal (jc_Service cfg)) && negb live.1) ErrImportUnsupported;;
    now ← jclock;
    jcheck (negb (ib_Revision b =? revision) || negb (ib_State b =s "PREVIEWED") ||
            negb (ib_PreviewToken b =s token) || empty_str token ||
            negb (now <? ib_PreviewExpiresAt b)) ErrImportConflict;;
    jlicensed;;
    let roles := jc_ContractImportConfirmationRoles cfg in
    jcheck (bool_decide (roles = [])) ErrApprovalAssigneeUnavailable;;
    each (submittable actor) (ib_Items b);;
    at_ ← jclock;
    jfreeze (ib_TenantID b) (ib_ID b)
      (mkSubmission revision (ib_Version b)
         (ImportDigest (DManifest (ib_Revision b) (ib_Items b) (ib_Sources b))) keyHash session roles
         at_ (jc_ContractImportAutoApproveHistorical cfg));;
    b ← jbatch (p_TenantID actor) id;
    startImportConfirmation b;;
    mret b.

Definition ActImportConfirmation (actor : Principal) (id : string) (version : Z)
    (key action : string) : Job unit :=
  jcheck ((version =? 0) || (slen key <? 8) || (128 <? slen key) ||
          negb (contains ["APPROVE"; "REJECT"; "WITHDRAW"] action)) ErrValidation;;
  jlicensed;;
  jupdate (p_TenantID actor) id (λ o, act_confirmation actor version key action).

(** ** Creating the contract of an item *)

Definition import_owner (actor : Principal) (item : ImportItem) (c : Contract)
    : Job (ownerFields * originFields → ownerFields * originFields) :=
  if is_normal item then mret (λ p, p)
  else
    owner ← importHistoryOwner cfg actor item;
    match i_HistoryEvidence item with
    | None => jrefuse ErrPanic
    | Some e =>
        mret (λ '(o, g),
          (mkOwnerFields (ur_UserID owner) (k_OwnerOrgID o) (k_ProjectID o) (ur_UserID owner)
             (ur_DisplayName owner),
           mkOriginFields "IMPORTED" (i_Mode item) (k_OriginImportItemID g) (e_HistoricalStatus e)
             (e_HistoricalCustomerName e) (e_HistoricalOwnerLabel e) (i_Policy item)))
    end.
Definition imported_contract (actor : Principal) (b : ImportBatch) (item : ImportItemState)
    (id : string) (owned : ownerFields * originFields → ownerFields * originFields) (c : Contract)
    : Contract :=
  let o := k_owner c in
  let g := k_origin c in
  let '(o, g) := owned
    (mkOwnerFields (p_IdentityID actor) (k_OwnerOrgID o) (k_ProjectID o) (p_UserID actor)
       (p_DisplayName actor),
     mkOriginFields "NORMAL" ImportNormal (it_ID item) (k_HistoricalStatus g)
       (k_HistoricalCustomerName g) (k_HistoricalOwnerLabel g) (k_ImportPolicy g)) in
  let d := k_document c in
  let r := k_row c in
  mkDomain id (ib_TenantID b) (k_Number c) (k_NumberFormat c) (k_Title c) (k_Type c)
    (k_ServiceType c) (k_Systems c) (k_ServiceItems c) (k_party c) o (k_AmountMinor c) (k_Currency c)
    (k_PaymentTerms c)
    (mkDocumentFields (k_Content d) (k_TemplateID d) (k_TemplateValues d) (k_Document d)
       (k_DocumentFormat d) (k_SourceMediaType d) (k_SourceFilename d) (k_SourceSHA256 d)
       (k_ExternalPaperNumber d)
       (if existsb (λ src, sr_ID src =s i_SourceFileRef (it_Item item)) (ib_Sources b)
        then sr_GatewayID (item_source b item) else k_SourceFileID d)
       "PENDING" (k_SourceSHA256 d))
    g StatusDraft (k_StartDate c) (k_EndDate c)
    (mkRowFields (k_Version r) (k_CreatedAt r) (p_UserID actor) (k_CanEditDraft r) (k_UpdatedAt r)).

Definition commitImportContract (actor : Principal) (b : ImportBatch) (item : ImportItemState)
    (prepare : Principal → ImportBatch → ImportItemState → Job (Contract * string))
    (adjust : Contract → res Contract) : Job string :=
  prepared ← prepare actor b item;
  let '(c, digest) := prepared in
  jcheck (negb (digest =s it_Digest item))
    (ErrImportIdentityConflict "" "" ImportConflictKindBaselineDrift);;
  ensure_not_frozen cfg (ib_TenantID b) (p_UserID actor);;
  id ← jfresh;
  owned ← import_owner actor (it_Item item) c;
  c ← jpure (adjust (imported_contract actor b item id owned c));
  jwrites (λ o, CommitImportDraft meta (ib_TenantID b) (ib_ID b) (ib_Revision b) (ib_Epoch b)
                  (it_ID item) c (p_UserID actor)).

Definition markImportItemComplete (b : ImportBatch) (item : ImportItemState) : Job unit :=
  jupdate (ib_TenantID b) (ib_ID b) (λ o, mark_complete (ib_Epoch b) (it_ID item)).

Definition on_db {A} (f : DB → res A * DB) (x : IDB) : res A * IDB :=
  let '(r, d) := f (im_db x) in (r, with_db d x).
Definition finishImportItem (actor : Principal) (b : ImportBatch) (item : ImportItemState)
    (id : string) (beforeComplete : Contract → Job unit) : Job unit :=
  c ← jcontract (ib_TenantID b) id;
  jcheck (negb (version_of c =? 1)) ErrImportNeedsReview;;
  jcheck (negb (k_CreatedBy (k_row c) =s p_UserID actor)) ErrForbidden;;
  jbind cfg (k_SourceFileID (k_document c)) "contract" id;;
  jwrites (λ o, on_db (MarkContractSourceGatewayResult (ib_TenantID b) id
                         (k_SourceFileID (k_document c)) "READY" ""));;
  beforeComplete c;;
  markImportItemComplete b item.

(** ** The channel of the CRM *)

Definition jprovision (f : Time → ledger → res (ledger * ImportCRMProvision))
    : Job ImportCRMProvision :=
  jwrites (λ o, itransaction (
    now ← inow;
    iexec (λ x, match f now (im_provisions x) with
                | Ok (L, v) => Ok (v, with_provisions L x)
                | Err e => Err e
                end))).
Definition failure_code (e : goerr) : string :=
  match e with ErrImportProvision _ code _ _ _ => code | _ => "" end.
Definition failure_reason (e : goerr) : string :=
  match e with ErrImportProvision _ _ _ _ reason => reason | _ => "" end.
Definition failImportProvision {A} (key : ImportCRMProvisionKey) (record : ImportCRMProvision)
    (failure : goerr) : Job A :=
  if failure_code failure =s CodeImportCRMProvisionDisabled then jrefuse failure
  else
    jattempt (jprovision (λ now, RecordImportCRMProvisionError now key (v_State record)
                (v_Attempt record) (failure_code failure) (failure_reason failure)));;
    jrefuse failure.
Definition or_fail {A} (key : ImportCRMProvisionKey) (record : ImportCRMProvision) (m : Job A)
    : Job A :=
  r ← jattempt m;
  match r with Ok a => mret a | Err failure => failImportProvision key record failure end.
Definition recordImportProvisionFailure (key : ImportCRMProvisionKey) (record : ImportCRMProvision)
    (e : goerr) : Job unit :=
  let code := importErrorCode e in
  let code := if empty_str code || (ImportCRMProvisionMaxErrorCodeLength <? slen code)
              then CodeImportProvisionCRMRejected else code in
  jattempt (jprovision (λ now, RecordImportCRMProvisionError now key (v_State record)
              (v_Attempt record) code (ev_message e)));;
  mret tt.

(** The identity of the sales person, resolved at most once. *)
Definition resolve_sales (cached : option string) (salesName : string) : Job string :=
  match cached with
  | Some identity => mret identity
  | None => found ← resolveImportProvisionSales salesName; jpure found.2
  end.

Definition customer_failure (code : string) (retryable : bool) (message reason : string) : goerr :=
  ErrImportProvision "metadata.customer_name" code retryable message reason.
Definition crm {A} (m : Job A) : Job A :=
  r ← jattempt m;
  match r with
  | Ok a => mret a
  | Err e => jrefuse (classifyImportProvisionCRMError ev_message e)
  end.
Definition lookup_customer (name : string) : Job (list CRMProvisionCustomerCandidate) :=
  crm (n ← jtick; jpure (ie_lookup n name)).

(** The customer, and whether it was created now. *)
Definition lookupOrCreateImportProvisionCustomer (key : ImportCRMProvisionKey) (m : ImportMetadata)
    (owner : string) : Job (Z * bool) :=
  let name := TrimSpace (m_CustomerName m) in
  jcheck (empty_str name)
    (customer_failure codeImportValidationFailed false "客户名称为空，无法开立 CRM 客户"
       "customer name is empty");;
  jcheck (255 <? rune_count name)
    (customer_failure codeImportValidationFailed false "客户名称超过 255 个字符，无法开立 CRM 客户"
       "customer name exceeds 255 characters");;
  jpure (importProvisionCustomerProfileFailure m);;
  candidates ← lookup_customer name;
  match candidates with
  | [] =>
      let '(customerType, industry, region) := ProvisionCustomerProfile m in
      created ← crm (n ← jtick;
                     jemit (JCustomer (importProvisionIdempotencyKey "customer" key)
                              (mkCustomerInput name customerType industry region owner));;
                     jpure (ie_customer n));
      jcheck (cr_ID created =? 0)
        (customer_failure CodeImportProvisionCRMRejected true "CRM 未返回新建客户的 ID，请稍后重试"
           "CRM returned a customer without id");;
      mret (cr_ID created, true)
  | [candidate] =>
      jcheck (negb (customer_active candidate))
        (customer_ambiguous "命中的 CRM 客户已停用，请人工核对后再导入" "CRM customer is not ACTIVE");;
      jcheck (cu_ID candidate =? 0)
        (customer_failure CodeImportProvisionCRMRejected true "CRM 返回的客户候选缺少 ID，请稍后重试"
           "CRM returned a customer candidate without id");;
      mret (cu_ID candidate, false)
  | _ :: _ :: _ =>
      jrefuse (customer_ambiguous "客户名称命中多个 CRM 客户，请人工消歧后再导入"
                 "multiple CRM customers matched")
  end.

Definition importProvisionCustomerName (m : ImportMetadata) (customerID : Z) : Job string :=
  let name := TrimSpace (m_CustomerName m) in
  candidates ← lookup_customer name;
  match find (λ c, cu_ID c =? customerID) candidates with
  | Some c => mret (if empty_str (TrimSpace (cu_Name c)) then name else TrimSpace (cu_Name c))
  | None =>
      if negb (customerID =? 0) && negb (empty_str name) then mret name
      else jrefuse (customer_ambiguous "无法确认已建开立客户，请人工核对后再重试"
                      "ledger customer is not visible in CRM lookup")
  end.

Definition createImportProvisionOpportunity (key : ImportCRMProvisionKey) (c : Contract)
    (owner : string) : Job Z :=
  id ← crm (n ← jtick;
            jemit (JOpportunity (importProvisionIdempotencyKey "opportunity" key)
                     (mkOpportunityInput (k_CRMCustomerID (k_party c)) owner (TrimSpace (k_Title c))
                        (importProvisionAmount (k_AmountMinor c))
                        (importProvisionSignDate (k_StartDate c))));;
            jpure (ie_opportunity n));
  jcheck (id =? 0)
    (ErrImportProvision "metadata.opportunity_id" CodeImportProvisionCRMRejected true
       "CRM 未返回新建商机的 ID，请稍后重试" "CRM returned an opportunity without id");;
  mret id.
Definition signImportProvisionOpportunity (key : ImportCRMProvisionKey) (opportunityID : Z)
    (contractRef : string) : Job unit :=
  crm (n ← jtick;
       jemit (JSign (importProvisionIdempotencyKey "sign" key) opportunityID contractRef);;
       jpure (ie_sign n)).

Definition advance_to (key : ImportCRMProvisionKey) (from to : string) (record : ImportCRMProvision)
    (customer opportunity : Z * bool) : Job ImportCRMProvision :=
  jprovision (λ now, AdvanceImportCRMProvision now key
    (mkAdvance from to (v_Attempt record) customer.1 customer.2 opportunity.1 opportunity.2)).
Definition nothing : Z * bool := (0, false).

Definition writeBackImportProvisionOpportunity (key : ImportCRMProvisionKey)
    (record : ImportCRMProvision) (c : Contract) (opportunityID : Z) : Job unit :=
  written ← jattempt (jwrites (λ o, UpdateImportContractOpportunity (Repository.k_TenantID c) (k_ID c)
                                      opportunityID (TrimSpace (k_Title c))
                                      (k_CreatedBy (k_row c))));
  match written with
  | Err e =>
      failImportProvision key record
        (ErrImportProvision "metadata.opportunity_id" CodeImportProvisionCRMRejected false
           "商机已签约但无法回写合同，请联系运维核对合同与商机"
           ("write back opportunity to contract: " +:+ ev_message e))
  | Ok _ => advance_to key (v_State record) ImportCRMProvisionCompleted record nothing nothing;; mret tt
  end.

Definition completeProvisionOpportunity (key : ImportCRMProvisionKey) (record : ImportCRMProvision)
    (cached : option string) (salesName : string) (c : Contract) : Job unit :=
  if v_State record =s ImportCRMProvisionOpportunityReady
  then writeBackImportProvisionOpportunity key record c (v_OpportunityID record)
  else
    opportunity ← (if v_OpportunityID record =? 0 then
                     identity ← or_fail key record (resolve_sales cached salesName);
                     id ← or_fail key record (createImportProvisionOpportunity key c identity);
                     mret (id, true)
                   else mret (v_OpportunityID record, false));
    or_fail key record (signImportProvisionOpportunity key opportunity.1 (k_ID c));;
    updated ← advance_to key (v_State record) ImportCRMProvisionOpportunityReady record nothing
                opportunity;
    writeBackImportProvisionOpportunity key updated c opportunity.1.

(** Steps 2 and 3: the customer. *)
Definition provision_customer (key : ImportCRMProvisionKey) (m : ImportMetadata)
    (record : ImportCRMProvision) : Job (ImportCRMProvision * option string) :=
  if negb (v_State record =s ImportCRMProvisionPending) then mret (record, None)
  else
    found ← (if v_CustomerID record =? 0 then
               identity ← or_fail key record (resolve_sales None (m_SalesName m));
               customer ← or_fail key record (lookupOrCreateImportProvisionCustomer key m identity);
               mret (customer, Some identity)
             else mret ((v_CustomerID record, v_CustomerCreated record), None));
    record ← advance_to key ImportCRMProvisionPending ImportCRMProvisionCustomerReady record found.1
               nothing;
    mret (record, found.2).

(** Step 4: the contract. *)
Definition set_crm_customer (id : Z) (name : string) (c : Contract) : res Contract :=
  let p := k_party c in
  let c := with_party
    (mkPartyFields (k_OpportunityID p) (k_OpportunityName p) id (k_CounterpartySource p)
       (k_LocalCounterpartyID p) (k_CounterpartyVersion p) (k_CategorySource p)
       (k_IntegrationPolicy p) name (k_CustomerAddress p) (k_CustomerContact p)
       (k_CustomerPhone p) (k_CustomerCreditLevel p)) c in
  validateContractTextLengths c;; Ok c.
Definition provision_contract (actor : Principal) (b : ImportBatch) (item : ImportItemState)
    (key : ImportCRMProvisionKey) (record : ImportCRMProvision)
    : Job (ImportCRMProvision * string) :=
  if negb (v_State record =s ImportCRMProvisionCustomerReady)
  then mret (record, it_ContractID item)
  else
    contractID ←
      (if negb (empty_str (it_ContractID item)) then mret (it_ContractID item)
       else
         name ← or_fail key record
                  (importProvisionCustomerName (i_Metadata (it_Item item)) (v_CustomerID record));
         created ← jattempt (commitImportContract actor b item (prepareProvisionImportItem cfg)
                               (set_crm_customer (v_CustomerID record) name));
         match created with
         | Ok id => mret id
         | Err e => recordImportProvisionFailure key record e;; jrefuse e
         end);
    record ← advance_to key ImportCRMProvisionCustomerReady ImportCRMProvisionContractReady record
               nothing nothing;
    mret (record, contractID).

Definition auto_confirm (b : ImportBatch) (itemID : string) : Job unit :=
  policy ← importAutoApprovePolicy cfg b;
  if ap_Auto policy then autoConfirmHistoricalImportItem cfg b itemID policy else mret tt.
Definition provision_completed (b : ImportBatch) (item : ImportItemState) : Job unit :=
  jcheck (empty_str (it_ContractID item))
    (ErrImportIdentityConflict "" (it_ID item) ImportConflictKindLedgerMismatch);;
  if it_State item =s "COMPLETE" then mret tt
  else auto_confirm b (it_ID item);; markImportItemComplete b item.

Definition executeProvisionImportItem (actor : Principal) (b : ImportBatch)
    (item : ImportItemState) : Job unit :=
  jcheck (negb (jc_CRMProvision cfg))
    (ErrImportProvision "metadata" CodeImportCRMProvisionDisabled false
       "历史导入自动开立 CRM 的开关已关闭，该行无法执行" "CRM import provision is disabled");;
  let key := provision_key b (it_Item item) in
  let m := i_Metadata (it_Item item) in
  jpure (as_validation (ValidateKey key));;
  record ← jprovision (λ now, UpsertStartImportCRMProvision now key (ib_ID b));
  if v_State record =s ImportCRMProvisionCompleted then provision_completed b item
  else
    record ← (if v_State record =s ImportCRMProvisionBlocked then
                jcheck (negb (ImportCRMProvisionRetryAllowed (v_State record)
                                ImportCRMProvisionPending)) ErrImportUnsupported;;
                jprovision (λ now, ResetImportCRMProvision now key (v_Attempt record))
              else mret record);
    customer ← provision_customer key m record;
    contract ← provision_contract actor b item key customer.1;
    let '(record, contractID) := contract in
    jcheck (negb (v_State record =s ImportCRMProvisionContractReady) &&
            negb (v_State record =s ImportCRMProvisionOpportunityReady))
      (ErrImportIdentityConflict contractID (it_ID item) ImportConflictKindLedgerMismatch);;
    finishImportItem actor b item contractID (λ c,
      completeProvisionOpportunity key record customer.2 (m_SalesName m) c;;
      auto_confirm b (it_ID item)).

(** ** The dispatcher *)

Definition executeImportItem (actor : Principal) (b : ImportBatch) (item : ImportItemState)
    : Job unit :=
  jcheck ((it_State item =s "CORRECTION_REQUIRED") || (it_State item =s "NEEDS_REVIEW"))
    ErrImportNeedsReview;;
  if provisioned cfg (it_Item item) ||
     (importProvisionModeApplies (i_Mode (it_Item item)) &&
      (it_State item =s ImportItemStateNeedsProvision))
  then executeProvisionImportItem actor b item
  else
    id ← (if empty_str (it_ContractID item)
          then commitImportContract actor b item (prepareImportItem cfg) (λ c, Ok c)
          else mret (it_ContractID item));
    finishImportItem actor b item id (λ _, mret tt).

(** The first item that can go on. *)
Definition pending_item (b : ImportBatch) : option (nat * ImportItemState) :=
  list_find (λ i, negb (it_State i =s "COMPLETE") && negb (importItemTerminal i) = true) (ib_Items b).
Definition execute_round (b : ImportBatch) (next : option ImportItemState) : Job unit :=
  jcheck (negb (jc_ImportActorResolver cfg)) ErrForbidden;;
  n ← jtick;
  actor ← jpure (ie_actor n (ib_SessionHash b) (ib_TenantID b) (ib_ActorID b));
  jpure (importAccess actor b "contract.import.commit");;
  jlicensed;;
  match next with
  | Some item => executeImportItem actor b item
  | None => mret tt
  end.
Definition DispatchImportOnce : Job unit :=
  starting ← jreads (λ o, ListStartingImportConfirmations);
  each startImportConfirmation starting;;
  now ← jclock;
  claimed ← jwrites (λ o, ClaimImportBatch now);
  match claimed with
  | None => mret tt
  | Some b =>
      let next := pending_item b in
      outcome ← jattempt (execute_round b (snd <$> next));
      jupdate (ib_TenantID b) (ib_ID b) (λ o, finish_round (ib_Epoch b) (fst <$> next) outcome)
  end.

End Execute.
