(* ===== verification/ImportRelease.v ===== *)
(** * application/contract_import_targets.go, import_finance_recovery.go,
      import_project_dto.go, import_project_retry.go, import_target_transport.go:
      releasing confirmed items to their targets

    The release of an item to a target with the two ways to recover a refused
    command, the round of the dispatcher that executes one target, and what the
    answer of a receiver is taken for.  The addresses under which the receivers
    are called are not modelled, and the texts of the requests stay below the
    limit of [canonicalProjectRequestDigest]. *)

From S2P Require Import Prelude GoStrings Decimal GoTime BusinessClock Status NumberRule.
From S2P Require Import PaymentTerm ProjectService ImportPolicy Utf8 PhoneCipher CRMProvision.
From S2P Require Import ApprovalRule Workflow Store Outbound Handover Numbering Repository.
From S2P Require Import Signing SigningFlow Access Like Ledger Reports SigningLedger Templates.
From S2P Require Import Drafting StatusWorkflow Service UseCases DraftCases.
From S2P Require Import ImportBatch ImportConfirm ImportTargets ImportRules ImportJobs ImportCases.
From S2P Require Import ImportExecute.

#[local] Open Scope string_scope.
#[local] Open Scope Z_scope.
#[local] Open Scope list_scope.

(** ** import_target_transport.go *)

(** A response read within the limit: its status, the code of a failure, and
    the envelope (its code and, unless absent or null, the decoded data). *)
Record TargetResponse (A : Type) : Type := mkResponse {
  tr_TooLarge : bool; tr_Status : Z; tr_FailureCode : string;
  tr_Envelope : option (string * option (res A))
}.
Arguments mkResponse {A} _ _ _ _.
Arguments tr_TooLarge {A} _.
Arguments tr_Status {A} _.
Arguments tr_FailureCode {A} _.
Arguments tr_Envelope {A} _.
Inductive TargetAnswer (A : Type) : Type :=
  | NoAnswer (e : goerr)
  | Interrupted
  | Answered (response : TargetResponse A).
Arguments NoAnswer {A} _.
Arguments Interrupted {A}.
Arguments Answered {A} _.

Definition code_rune (c : Z) : bool :=
  ((65 <=? c) && (c <=? 90)) || ((48 <=? c) && (c <=? 57)) || (c =? 95) || (c =? 46) || (c =? 45).
Definition recipient_code (code : string) : string :=
  if (128 <? slen code) || negb (forallb code_rune (runes code)) then "" else code.
Definition refused_response {A} (r : TargetResponse A) : goerr :=
  if tr_FailureCode r =s "IMPORT_TARGET_NOT_READY" then ErrImportTargetWait "IMPORT_TARGET_NOT_READY"
  else if (tr_Status r =? 400) || (tr_Status r =? 409) || (tr_Status r =? 422)
  then ErrImportTargetHTTP (tr_Status r) (recipient_code (tr_FailureCode r))
  else ErrImportTargetWaiting.

(** [Call], given whether the transport is configured and the token. *)
Definition Call {A} (configured : bool) (token : res string) (answer : TargetAnswer A) : res A :=
  fail_if (negb configured) ErrImportTargetWaiting;;
  match token with
  | Err _ => Err ErrImportTargetWaiting
  | Ok t =>
      fail_if (empty_str (TrimSpace t)) ErrImportTargetWaiting;;
      match answer with
      | NoAnswer e => Err e
      | Interrupted => Err (ErrImportTargetWait "IMPORT_TARGET_RESPONSE_INTERRUPTED")
      | Answered r =>
          fail_if (tr_TooLarge r) ErrImportTargetReceipt;;
          fail_if ((tr_Status r <? 200) || (300 <=? tr_Status r)) (refused_response r);;
          match tr_Envelope r with
          | Some (code, Some (Ok a)) =>
              fail_if (negb (empty_str code) && negb (code =s "OK")) ErrImportTargetReceipt;; Ok a
          | _ => Err ErrImportTargetReceipt
          end
      end
  end.

(** ** Requests *)

#[export] Instance importProjectService_eq_dec : EqDecision importProjectService.
Proof. solve_decision. Defined.
#[export] Instance projectRequest_eq_dec : EqDecision projectRequest.
Proof. solve_decision. Defined.
#[export] Instance financeContract_eq_dec : EqDecision financeContract.
Proof. solve_decision. Defined.
#[export] Instance financePrepare_eq_dec : EqDecision financePrepare.
Proof. solve_decision. Defined.
#[export] Instance importFinanceReleaseCommand_eq_dec : EqDecision importFinanceReleaseCommand.
Proof. solve_decision. Defined.
#[export] Instance targetRequest_eq_dec : EqDecision targetRequest.
Proof. solve_decision. Defined.

Section Requests.
Context `{GoUnicode} `{ImportDigests}.

Definition importProjectServices (contractID : string) (items : list ServiceItem)
    : list importProjectService :=
  map (λ i, mkImportService (ps_SourceID i) (ps_Name i) (ps_Site i) (ps_Batch i) (ps_Category i)
              (ps_System i) (ps_SystemLevel i) (ps_Requirement i) (ps_TestMode i))
    (ProjectServiceItems contractID items).

Definition minorAmount (minor : Z) : string :=
  Itoa (Z.quot minor 100) +:+ "." +:+ sprintf_0d 2 (Z.rem minor 100).
Definition stableImportCommand (item : string) (revision : Z) (target phase : string) : string :=
  String.substring 0 32 (ImportDigest (DCommand item revision target phase)).
Definition policy_digest (policy : option ImportPolicy) : string := ImportDigest (DPolicy policy).

Definition importProjectRequest (b : ImportBatch) (item : ImportItemState) (c : Contract)
    (task : ImportTarget) : res projectRequest :=
  match k_StartDate c with
  | None => Err (ErrImportTargetWait "IMPORT_ORIGINAL_START_DATE_REQUIRED")
  | Some start =>
      match i_HistoryEvidence (it_Item item), i_Policy (it_Item item) with
      | Some e, Some policy =>
          Ok (mkProjectRequest (tg_CommandID task) (ib_TenantID b) (k_ID c) (Itoa (version_of c))
                (it_ID item) (it_SourceRevision item) (policy_digest (i_Policy (it_Item item)))
                (tg_ReleaseVersion task) (i_Mode (it_Item item)) (ip_ProjectMode policy)
                (e_Relationship e) (e_TargetOwnerUserID e) (k_Number c) (k_Title c)
                (k_CustomerName (k_party c)) (Itoa (k_CRMCustomerID (k_party c))) start
                (importProjectServices (k_ID c) (k_ServiceItems c))
                (if empty_str (e_ExistingProjectID e) then None
                 else Some (e_ExistingProjectID e, e_ExpectedProjectVersion e,
                            e_OriginalContractRef e)))
      | _, _ => Err ErrPanic
      end
  end.
(** [canonicalProjectRequestDigest] of both sides. *)
Definition validateFrozenProjectRequest (request : projectRequest) (payload : option targetRequest)
    : res unit :=
  match payload with
  | None => Err ErrImportConflict
  | Some p => fail_if (negb (ImportDigest (DPayload (Some (ProjectRequest request))) =s
                             ImportDigest (DPayload (Some p)))) ErrImportConflict
  end.

Definition finance_terms (c : Contract) : list (Z * string * string) :=
  map (λ t, (InstallmentNo t, DueDate t, Amount t)) (terms_or_nil c).
Definition prepare_request (b : ImportBatch) (item : ImportItemState) (c : Contract)
    (t : ImportTarget) : res financePrepare :=
  match i_HistoryEvidence (it_Item item) with
  | Some e =>
      match e_ExpectedFacts e with
      | Some facts =>
          Ok (mkPrepare (tg_CommandID t) (ib_TenantID b) (it_ID item) (it_SourceRevision item)
                (policy_digest (i_Policy (it_Item item))) (tg_ReleaseVersion t)
                (i_Mode (it_Item item)) (tg_OccurredAt t) facts
                (mkFinanceContract (k_ID c) (k_Number c) (version_of c)
                   (Itoa (k_CRMCustomerID (k_party c))) (k_CustomerName (k_party c))
                   (k_OwnerUserID (k_owner c)) (k_Currency c) (minorAmount (k_AmountMinor c))
                   (finance_terms c)))
      | None => Err ErrPanic
      end
  | None => Err ErrPanic
  end.
Definition release_request (b : ImportBatch) (item : ImportItemState) (t : ImportTarget)
    (status : importFinanceStatus) (version : Z) : importFinanceReleaseCommand :=
  mkRelease (tg_CommandID t) "contract.import_financial.v1" 1 (tg_Phase t) (ib_TenantID b)
    (it_ID item) (it_SourceRevision item) (policy_digest (i_Policy (it_Item item)))
    (tg_ReleaseVersion t) (i_Mode (it_Item item)) (tg_OccurredAt t) (fs_ReconciliationID status)
    (fs_SnapshotVersion status) version.

(** The receiver's snapshot is of this contract and this release. *)
Definition status_matches (policy mode : string) (item : ImportItemState) (c : Contract)
    (t : ImportTarget) (s : importFinanceStatus) : bool :=
  (fs_PolicyDigest s =s policy) && (fs_ImportMode s =s mode) && (fs_SourceContractID s =s k_ID c) &&
  (fs_CustomerID s =s Itoa (k_CRMCustomerID (k_party c))) && (fs_Currency s =s k_Currency c) &&
  (fs_ContractAmount s =s minorAmount (k_AmountMinor c)) && (fs_SnapshotID s =s tg_ReceiptID t) &&
  (fs_ItemID s =s it_ID item) && (fs_SourceRevision s =? it_SourceRevision item) &&
  (fs_ReleaseVersion s =? tg_ReleaseVersion t) &&
  (fs_ExpectedOwner s =s k_OwnerUserID (k_owner c)).
Definition owner_acknowledged (c : Contract) (version : Z) (s : importFinanceStatus) : bool :=
  fs_OwnerActive s && fs_OwnerMatches s && (fs_Owner s =s k_OwnerUserID (k_owner c)) &&
  (fs_OwnerVersion s =? version).

(** The contract is the one the item confirmed. *)
Definition same_origin (item : ImportItemState) (c : Contract) : bool :=
  let o := k_origin c in
  (k_OriginKind o =s "IMPORTED") && (k_OriginImportItemID o =s it_ID item) &&
  (k_ImportMode o =s i_Mode (it_Item item)).
Definition target_owner (item : ImportItemState) (c : Contract) : bool :=
  match i_HistoryEvidence (it_Item item) with
  | Some e => k_OwnerUserID (k_owner c) =s e_TargetOwnerUserID e
  | None => false
  end.

(** ** import_project_retry.go *)

Definition retryableProjectRejection (task : ImportTarget) (now : Time) : bool :=
  (tg_Phase task =s "RELEASE") && (tg_RecipientHTTPStatus task =? 422) &&
  (tg_RecipientCode task =s "IMPORT_VALIDATION_FAILED") &&
  match tg_RejectedAt task with Some at_ => negb (now <? at_) | None => false end &&
  negb (now <? tg_LeaseUntil task) && negb (empty_str (tg_CommandID task)) &&
  bool_decide (is_Some (tg_RequestPayload task)) && empty_str (tg_ReceiptID task) &&
  (0 <? tg_Attempts task) && (Z.of_nat (length (tg_CommandHistory task)) <? 100).

Definition history_entry (task : ImportTarget) (rejected : Time) (by_ : string)
    (requested : option Time) : ImportTargetCommandHistory :=
  mkHistory (tg_CommandID task) (tg_CommandGeneration task)
    (ImportDigest (DPayload (tg_RequestPayload task))) (tg_RequestPayload task)
    (tg_RecipientHTTPStatus task) (tg_RecipientCode task) rejected by_ requested.
Definition requeueRejectedProject (actor : string) (now rejected : Time) (task : ImportTarget)
    : ImportTarget :=
  mkTarget (tg_Target task) "QUEUED" (tg_Version task) (tg_ReleaseVersion task) (tg_Phase task)
    (tg_CommandID task) (tg_CommandGeneration task) (tg_RequestPayload task)
    (tg_CommandHistory task ++ [history_entry task rejected actor (Some now)]) (tg_ReceiptID task)
    "" 0 "" None actor (tg_Attempts task) (tg_Epoch task + 1) zero_time now (tg_OccurredAt task)
    (tg_ResponsibilityVersion task).

Definition confirmed_live (b : ImportBatch) (item : ImportItemState) : bool :=
  approved_batch b && it_Confirmed item && (i_Mode (it_Item item) =s ImportContinueLive) &&
  is_ok (ValidateHistoryEvidence (it_Item item)).

(** ** import_finance_recovery.go *)

Record importFinanceRecovery : Type := mkRecovery {
  fy_OldCommandID : string; fy_OldEpoch : Z; fy_OldGeneration : Z; fy_Task : ImportTarget
}.

Definition recoverable_rejection (task : ImportTarget) : bool :=
  (tg_Phase task =s "RELEASE") && (tg_RecipientHTTPStatus task =? 409) &&
  (tg_RecipientCode task =s "SETTLEMENT_CONFLICT") &&
  bool_decide (is_Some (tg_RejectedAt task)) && bool_decide (is_Some (tg_RequestPayload task)) &&
  (Z.of_nat (length (tg_CommandHistory task)) <? 100).

Definition old_command_matches (b : ImportBatch) (item : ImportItemState) (task : ImportTarget)
    (old : importFinanceReleaseCommand) : bool :=
  confirmed_live b item && (fr_EventID old =s tg_CommandID task) &&
  (fr_EventType old =s "contract.import_financial.v1") && (fr_SchemaVersion old =? 1) &&
  (fr_Phase old =s "RELEASE") && (fr_TenantID old =s ib_TenantID b) &&
  (fr_ItemID old =s it_ID item) && (fr_SourceRevision old =? it_SourceRevision item) &&
  (fr_PolicyDigest old =s policy_digest (i_Policy (it_Item item))) &&
  (fr_ReleaseVersion old =? tg_ReleaseVersion task) && (fr_ImportMode old =s i_Mode (it_Item item)) &&
  negb (empty_str (fr_ReconciliationID old)) && negb (fr_SnapshotVersion old =? 0) &&
  negb (fr_OwnerVersion old =? 0) && (fr_OwnerVersion old =? tg_ResponsibilityVersion task).
(** The decoder refuses the fields of every other request. *)
Definition validatedRejectedFinanceCommand (b : ImportBatch) (item : ImportItemState)
    (task : ImportTarget) : res importFinanceReleaseCommand :=
  match tg_RequestPayload task with
  | Some (FinanceRelease old) =>
      fail_if (negb (old_command_matches b item task old)) ErrImportTargetReceipt;; Ok old
  | _ => Err ErrImportTargetReceipt
  end.

Definition validateFinanceRecoveryStatus (item : ImportItemState) (c : Contract)
    (task : ImportTarget) (old : importFinanceReleaseCommand) (s : importFinanceStatus)
    : res unit :=
  fail_if (negb (same_origin item c) ||
           negb (policy_digest (k_ImportPolicy (k_origin c)) =s fr_PolicyDigest old) ||
           negb (target_owner item c) ||
           negb (status_matches (fr_PolicyDigest old) (fr_ImportMode old) item c task s))
    ErrImportTargetReceipt;;
  fail_if (negb (fs_State s =s "READY") || negb (fs_MigrationState s =s "HOLD") ||
           empty_str (fs_ReconciliationID s) || (fs_ReconciliationID s =s fr_ReconciliationID old) ||
           (fs_SnapshotVersion s <? fr_SnapshotVersion old)) ErrImportConflict;;
  fail_if (negb (owner_acknowledged c (fr_OwnerVersion old) s)) ErrImportTargetWaiting.

Definition newFinanceRecovery (actor : string) (now rejected : Time) (item : ImportItemState)
    (task : ImportTarget) (old : importFinanceReleaseCommand) (s : importFinanceStatus)
    : importFinanceRecovery :=
  let generation := tg_CommandGeneration task + 1 in
  let command := String.substring 0 32 (ImportDigest (DRecovery (it_ID item) (it_SourceRevision item)
                                                 (tg_Target task) "RELEASE" generation)) in
  let renewed := mkRelease command (fr_EventType old) (fr_SchemaVersion old) (fr_Phase old)
    (fr_TenantID old) (fr_ItemID old) (fr_SourceRevision old) (fr_PolicyDigest old)
    (fr_ReleaseVersion old) (fr_ImportMode old) now (fs_ReconciliationID s)
    (fs_SnapshotVersion s) (fr_OwnerVersion old) in
  mkRecovery (tg_CommandID task) (tg_Epoch task) (tg_CommandGeneration task)
    (mkTarget (tg_Target task) "QUEUED" (tg_Version task) (tg_ReleaseVersion task) (tg_Phase task)
       command generation (Some (FinanceRelease renewed))
       (tg_CommandHistory task ++ [history_entry task rejected "" None]) (tg_ReceiptID task) "" 0 ""
       None actor (tg_Attempts task) (tg_Epoch task + 1) zero_time now now
       (tg_ResponsibilityVersion task)).

(** ** The release of a target *)

Definition queued_target `{Oracle} (phase : string) (item : ImportItemState) (t : ImportTarget)
    : ITx ImportTarget :=
  now ← inow;
  mret (mkTarget (tg_Target t) "QUEUED" (tg_Version t) (tg_ReleaseVersion t) phase
          (stableImportCommand (it_ID item) (it_SourceRevision item) (tg_Target t) phase)
          (tg_CommandGeneration t) None (tg_CommandHistory t) (tg_ReceiptID t) ""
          (tg_RecipientHTTPStatus t) (tg_RecipientCode t) (tg_RejectedAt t)
          (tg_RecoveryRequestedBy t) (tg_Attempts t) (tg_Epoch t + 1) zero_time now now
          (tg_ResponsibilityVersion t)).

Definition release_target `{Oracle} (actor : Principal) (target phase : string)
    (retry : option ImportTarget) (recovery : option importFinanceRecovery) (b : ImportBatch)
    (item : ImportItemState) (t : ImportTarget) : ITx ImportTarget :=
  ilift (importAccess actor b "contract.import.release");;
  iguard (negb (approved_batch b) || negb (it_Confirmed item) ||
          negb (is_ok (ValidateHistoryEvidence (it_Item item)))) ErrImportConflict;;
  match retry, recovery with
  | Some r, _ =>
      iguard (negb (tg_State t =s "BLOCKED") || negb (tg_Epoch t + 1 =? tg_Epoch r) ||
              negb (tg_CommandID t =s tg_CommandID r) ||
              negb (bool_decide (tg_RequestPayload t = tg_RequestPayload r)) ||
              negb (tg_CommandGeneration t =? tg_CommandGeneration r)) ErrImportConflict;;
      mret r
  | None, Some r =>
      iguard (negb (tg_State t =s "BLOCKED") || negb (tg_CommandID t =s fy_OldCommandID r) ||
              negb (tg_Epoch t =? fy_OldEpoch r) ||
              negb (tg_CommandGeneration t =? fy_OldGeneration r)) ErrImportConflict;;
      mret (fy_Task r)
  | None, None =>
      iguard ((tg_State t =s "NOT_APPLICABLE") || (tg_State t =s "BLOCKED")) ErrImportUnsupported;;
      if (tg_State t =s "COMPLETE") ||
         ((tg_Phase t =s phase) && negb (empty_str (tg_CommandID t))) then mret t
      else
        iguard ((target =s "FINANCE") && (phase =s "RELEASE") && empty_str (tg_ReceiptID t))
          ErrImportTargetWaiting;;
        if (target =s "FINANCE") && (phase =s "PREPARE") && negb (empty_str (tg_ReceiptID t))
        then mret t
        else queued_target phase item t
  end.

End Requests.
