(* ===== verification/ImportTasks.v ===== *)
(** * application/contract_import_targets.go, import_project_retry.go,
      import_finance_recovery.go, contract_import_dispatcher.go: the work on targets

    The request that releases an item to a target, and the round of the
    dispatcher that claims one target, sends its frozen command, checks the
    receipt and saves the outcome.  The target a round works on is changed in
    place while the round goes on, also when it then fails: [Work] carries it
    along. *)

From S2P Require Import Prelude GoStrings Decimal GoTime BusinessClock Status NumberRule.
From S2P Require Import PaymentTerm ProjectService ImportPolicy Utf8 PhoneCipher CRMProvision.
From S2P Require Import ApprovalRule Workflow Store Outbound Handover Numbering Repository.
From S2P Require Import Signing SigningFlow Access Like Ledger Reports SigningLedger Templates.
From S2P Require Import Drafting StatusWorkflow Service UseCases DraftCases.
From S2P Require Import ImportBatch ImportConfirm ImportTargets ImportRules ImportJobs ImportCases.
From S2P Require Import ImportExecute ImportRelease.

#[local] Open Scope string_scope.
#[local] Open Scope Z_scope.
#[local] Open Scope list_scope.

(** ** Work on a target *)

Definition Work (A : Type) : Type := ImportTarget * JobState → res A * (ImportTarget * JobState).
#[export] Instance Work_ret : MRet Work := λ A a s, (Ok a, s).
#[export] Instance Work_bind : MBind Work := λ A B f m s,
  match m s with
  | (Ok a, s') => f a s'
  | (Err e, s') => (Err e, s')
  end.
Definition job {A} (m : Job A) : Work A := λ '(t, s), let '(r, s') := m s in (r, (t, s')).
Definition the_task : Work ImportTarget := λ '(t, s), (Ok t, (t, s)).
Definition on_task (f : ImportTarget → ImportTarget) : Work unit := λ '(t, s), (Ok tt, (f t, s)).
Definition wrefuse {A} (e : goerr) : Work A := λ s, (Err e, s).
Definition wpure {A} (r : res A) : Work A := λ s, (r, s).
Definition wcheck (b : bool) (e : goerr) : Work unit := wpure (fail_if b e).
(** The outcome of the work and the target it leaves. *)
Definition work_on {A} (m : Work A) (t : ImportTarget) : Job (res A * ImportTarget) := λ s,
  let '(r, (t', s')) := m (t, s) in (Ok (r, t'), s').

Definition hex_digit (c : byte) : bool :=
  let n := code c in
  ((48 <=? n) && (n <=? 57)) || ((65 <=? n) && (n <=? 70)) || ((97 <=? n) && (n <=? 102)).
(** The text decodes to 32 bytes. *)
Definition sha256_text (s : string) : bool := (slen s =? 64) && forallb hex_digit (bytes s).

Section Tasks.
Context `{GoUnicode} `{Sha256} `{TzDatabase} `{Collation} `{Documents} `{Aead} `{PhoneKeyEnv}.
Context `{GoFloat} `{TemplateEngine} `{MediaTypes} `{CharCollation} `{Ulid} `{Environment}.
Context `{ImportDigests} `{UlidText} `{ImportEnvironment}.
Variable cfg : ImportConfig.
Variable meta : requestMeta.

Definition item_batch (tenant item : string) : Job ImportBatch :=
  jreads (λ o, GetImportItemBatch tenant item).
Definition finance_status : Job importFinanceStatus :=
  jcheck (negb (jc_ImportFinance cfg)) ErrImportTargetWaiting;;
  n ← jtick; jpure (ie_finance_status n).

(** ** Recovering a refused command *)

Definition validateRejectedProjectBaseline (b : ImportBatch) (item : ImportItemState)
    (task : ImportTarget) : Job unit :=
  jcheck (negb (confirmed_live b item)) ErrImportConflict;;
  c ← jcontract (ib_TenantID b) (it_ContractID item);
  jcheck (negb (k_ID c =s it_ContractID item) || negb (Repository.k_TenantID c =s ib_TenantID b) ||
          negb (same_origin item c) ||
          negb (policy_digest (k_ImportPolicy (k_origin c)) =s
                policy_digest (i_Policy (it_Item item))) ||
          negb (target_owner item c) ||
          negb (tg_CommandID task =s
                stableImportCommand (it_ID item) (it_SourceRevision item) "PROJECT" "RELEASE"))
    ErrImportConflict;;
  request ← jpure (importProjectRequest b item c task);
  jpure (validateFrozenProjectRequest request (tg_RequestPayload task)).

(** The first blocked target of that name of an item with the identifier. *)
Definition blocked_target (b : ImportBatch) (itemID target : string)
    : option (ImportItemState * ImportTarget) :=
  find (λ p, (it_ID p.1 =s itemID) && (tg_Target p.2 =s target) && (tg_State p.2 =s "BLOCKED"))
    (concat (map (λ i, map (pair i) (it_Targets i)) (ib_Items b))).

Definition prepareImportProjectRetry (actor : Principal) (b : ImportBatch) (itemID target : string)
    (version : Z) (phase : string) : Job (option ImportTarget) :=
  if negb (target =s "PROJECT") || negb (phase =s "RELEASE") then mret None
  else
    match blocked_target b itemID target with
    | None => mret None
    | Some (item, task) =>
        jcheck (negb (tg_Version task =? version)) ErrImportConflict;;
        now ← jclock;
        match tg_RejectedAt task with
        | None => jrefuse ErrImportUnsupported
        | Some rejected =>
            jcheck (negb (retryableProjectRejection task now)) ErrImportUnsupported;;
            validateRejectedProjectBaseline b item task;;
            now ← jclock;
            mret (Some (requeueRejectedProject (p_UserID actor) now rejected task))
        end
    end.

(** The last item with the identifier and its last target of that name. *)
Definition named_item (b : ImportBatch) (itemID : string) : option ImportItemState :=
  find (λ i, it_ID i =s itemID) (List.rev (ib_Items b)).
Definition named_target (item : ImportItemState) (target : string) : option ImportTarget :=
  find (λ t, tg_Target t =s target) (List.rev (it_Targets item)).
Definition project_bound (item : ImportItemState) : bool :=
  negb (existsb (target_open "PROJECT") (it_Targets item)).
Definition owner_known (tenantID : string) (c : Contract) (e : goerr) : Job unit :=
  jcheck (negb (jc_ImportOwners cfg)) e;;
  owner ← jattempt (resolve_owner tenantID (k_OwnerUserID (k_owner c)));
  jcheck (match owner with
          | Ok o => negb (ur_UserID o =s k_OwnerUserID (k_owner c))
          | Err _ => true
          end) e;;
  ensure_not_frozen cfg tenantID (k_OwnerUserID (k_owner c)).

Definition recover_finance (actor : Principal) (b : ImportBatch) (item : ImportItemState)
    (task : ImportTarget) (version : Z) : Job importFinanceRecovery :=
  jcheck (negb (tg_Version task =? version)) ErrImportConflict;;
  match tg_RejectedAt task with
  | None => jrefuse ErrImportUnsupported
  | Some rejected =>
      jcheck (negb (recoverable_rejection task)) ErrImportUnsupported;;
      old ← jpure (validatedRejectedFinanceCommand b item task);
      c ← jcontract (ib_TenantID b) (it_ContractID item);
      status ← finance_status;
      jpure (validateFinanceRecoveryStatus item c task old status);;
      jcheck (negb (project_bound item)) ErrImportTargetWaiting;;
      owner_known (ib_TenantID b) c ErrImportTargetWaiting;;
      now ← jclock;
      mret (newFinanceRecovery (p_UserID actor) now rejected item task old status)
  end.
Definition prepareImportFinanceRecovery (actor : Principal) (b : ImportBatch)
    (itemID target : string) (version : Z) (phase : string) : Job (option importFinanceRecovery) :=
  if negb (target =s "FINANCE") || negb (phase =s "RELEASE") then mret None
  else
    match named_item b itemID ≫= λ item, (pair item) <$> named_target item target with
    | Some (item, task) =>
        if tg_State task =s "BLOCKED"
        then r ← recover_finance actor b item task version; mret (Some r)
        else mret None
    | None => mret None
    end.

(** ** The release *)

Definition ReleaseImportItem (actor : Principal) (item target : string) (version : Z)
    (phase : string) : Job ImportBatch :=
  jcheck ((version =? 0) || negb (contains target_names target)) ErrValidation;;
  let phase := if empty_str phase then "RELEASE" else phase in
  jcheck (negb (phase =s "RELEASE") && (negb (target =s "FINANCE") || negb (phase =s "PREPARE")))
    ErrValidation;;
  jlicensed;;
  b ← item_batch (p_TenantID actor) item;
  jpure (importAccess actor b "contract.import.release");;
  retry ← prepareImportProjectRetry actor b item target version phase;
  recovery ← prepareImportFinanceRecovery actor b item target version phase;
  jwrites (λ o, QueueImportTarget (p_TenantID actor) (ib_ID b) item version target
                  (release_target actor target phase retry recovery));;
  b ← item_batch (p_TenantID actor) item;
  mret (importBatchForReader b actor).

(** ** Executing a target *)

(** The command is saved before it is sent. *)
Definition freezeImportRequest (b : ImportBatch) (item : ImportItemState) (request : targetRequest)
    : Work unit :=
  t ← the_task;
  match tg_RequestPayload t with
  | Some _ => mret tt
  | None =>
      on_task (target_set_payload (Some request));;
      t ← the_task;
      job (jwrites (λ o, SaveImportTarget (ib_TenantID b) (ib_ID b) (it_ID item) t))
  end.

Definition send_project (payload : option targetRequest) : Work projectReply :=
  wcheck (negb (jc_ImportProject cfg)) ErrImportTargetWaiting;;
  job (n ← jtick; jemit (JProject payload);; jpure (ie_project n)).
Definition send_finance (payload : option targetRequest) : Work financeReply :=
  wcheck (negb (jc_ImportFinance cfg)) ErrImportTargetWaiting;;
  job (n ← jtick; jemit (JFinance payload);; jpure (ie_finance n)).

Definition project_receipt (b : ImportBatch) (item : ImportItemState) (c : Contract)
    (t : ImportTarget) (r : projectReply) : bool :=
  (qr_CommandID r =s tg_CommandID t) && (qr_SchemaVersion r =? 1) &&
  (qr_TenantID r =s ib_TenantID b) && (qr_ItemID r =s it_ID item) &&
  (qr_SourceRevision r =? it_SourceRevision item) &&
  (qr_PolicyDigest r =s policy_digest (i_Policy (it_Item item))) &&
  (qr_ReleaseVersion r =? tg_ReleaseVersion t) && (qr_ContractID r =s k_ID c) &&
  negb (empty_str (qr_ProjectID r)) && negb (qr_ProjectVersion r =? 0) &&
  (qr_Status r =s "PROJECT_BOUND") &&
  match i_HistoryEvidence (it_Item item) with
  | Some e => empty_str (e_ExistingProjectID e) || (qr_ProjectID r =s e_ExistingProjectID e)
  | None => false
  end.
Definition executeImportProject (b : ImportBatch) (item : ImportItemState) (c : Contract) : Work unit :=
  t ← the_task;
  request ← wpure (importProjectRequest b item c t);
  wcheck (bool_decide (is_Some (tg_RequestPayload t)) &&
          negb (is_ok (validateFrozenProjectRequest request (tg_RequestPayload t))))
    ErrImportTargetReceipt;;
  freezeImportRequest b item (ProjectRequest request);;
  t ← the_task;
  reply ← send_project (tg_RequestPayload t);
  wcheck (negb (project_receipt b item c t reply)) ErrImportTargetReceipt;;
  on_task (target_set_receipt "COMPLETE" (qr_ProjectID reply)).

(** The release of a reconciled snapshot, once its owner is acknowledged. *)
Definition reconciled_release (b : ImportBatch) (item : ImportItemState) (c : Contract)
    : Work importFinanceReleaseCommand :=
  t ← the_task;
  status ← job finance_status;
  wcheck (negb (status_matches (policy_digest (i_Policy (it_Item item))) (i_Mode (it_Item item)) item
                  c t status)) ErrImportTargetReceipt;;
  wcheck (negb (fs_State status =s "READY") || empty_str (fs_ReconciliationID status) ||
          (fs_SnapshotVersion status =? 0))
    (ErrImportTargetWait "IMPORT_FINANCE_RECONCILIATION_REQUIRED");;
  wcheck (negb (project_bound item)) (ErrImportTargetWait "IMPORT_PROJECT_BINDING_REQUIRED");;
  job (owner_known (ib_TenantID b) c (ErrImportTargetWait "IMPORT_OWNER_DIRECTORY_REQUIRED"));;
  version ← job (jwrites (λ o, ActivateImportResponsibility (ib_TenantID b) (it_ID item)
                                 (it_SourceRevision item)));
  on_task (target_set_responsibility version);;
  wcheck (negb (owner_acknowledged c version status))
    (ErrImportTargetWait "IMPORT_RESPONSIBILITY_ACK_REQUIRED");;
  mret (release_request b item t status version).

Definition finance_receipt (t : ImportTarget) (r : financeReply) : bool :=
  (ff_EventID r =s tg_CommandID t) && negb (empty_str (ff_SnapshotID r)) &&
  (empty_str (tg_ReceiptID t) || (ff_SnapshotID r =s tg_ReceiptID t)) &&
  (if tg_Phase t =s "PREPARE" then
     (ff_Status r =s "FINANCE_PREPARED") &&
     ((ff_MigrationState r =s "HOLD") || (ff_MigrationState r =s "RELEASED"))
   else (ff_Status r =s "FINANCE_RELEASED") && (ff_MigrationState r =s "RELEASED")).
Definition executeImportFinance (b : ImportBatch) (item : ImportItemState) (c : Contract) : Work unit :=
  t ← the_task;
  policy ← (match i_Policy (it_Item item) with Some p => mret p | None => wrefuse ErrPanic end);
  wcheck (negb (ip_FinanceMode policy =s "FULL_REPLAY") ||
          negb (i_Mode (it_Item item) =s ImportContinueLive)) ErrImportTargetReceipt;;
  (if tg_Phase t =s "PREPARE" then
     request ← wpure (prepare_request b item c t);
     freezeImportRequest b item (FinancePrepare request)
   else
     match tg_RequestPayload t with
     | Some _ => mret tt
     | None => request ← reconciled_release b item c;
               freezeImportRequest b item (FinanceRelease request)
     end);;
  t ← the_task;
  reply ← send_finance (tg_RequestPayload t);
  wcheck (negb (finance_receipt t reply)) ErrImportTargetReceipt;;
  on_task (target_set_receipt (if tg_Phase t =s "PREPARE" then "PREPARED" else "COMPLETE")
             (ff_SnapshotID reply)).

Definition report_identity (b : ImportBatch) (item : ImportItemState) (t : ImportTarget)
    (r : reportReply) : bool :=
  (rt_SchemaVersion r =? 1) && (rt_TenantID r =s ib_TenantID b) && (rt_ItemID r =s it_ID item) &&
  (rt_SourceRevision r =? it_SourceRevision item) && (rt_ReleaseVersion r =? tg_ReleaseVersion t) &&
  match i_HistoryEvidence (it_Item item) with
  | Some e => rt_RequiredChannels r =s e_ReportRequiredChannels e
  | None => false
  end.
Definition executeImportReport (b : ImportBatch) (item : ImportItemState) : Work unit :=
  t ← the_task;
  wcheck (negb (jc_ImportReport cfg)) ErrImportTargetWaiting;;
  r ← job (n ← jtick; jpure (ie_report n));
  wcheck (negb (report_identity b item t r)) ErrImportTargetReceipt;;
  wcheck (negb (rt_State r =s "APPLIED")) (ErrImportTargetWait "IMPORT_REPORT_APPLICATION_PENDING");;
  wcheck (negb (contains (rt_AppliedChannels r) "API_APPLIED") ||
          negb (sha256_text (rt_SnapshotID r)) || empty_str (rt_RunID r) ||
          bool_decide (rt_AppliedAt r = None)) ErrImportTargetReceipt;;
  wcheck ((rt_RequiredChannels r =s "API_ONLY") && rt_SourceFactsConnected r)
    ErrImportTargetReceipt;;
  wcheck ((rt_RequiredChannels r =s "API_AND_SOURCE_FACTS") &&
          (negb (rt_SourceFactsConnected r) ||
           negb (contains (rt_AppliedChannels r) "SOURCE_FACTS_APPLIED")))
    (ErrImportTargetWait "IMPORT_REPORT_SOURCE_FACTS_PENDING");;
  on_task (target_set_receipt "COMPLETE" (rt_RunID r)).

Definition executeImportTarget (b : ImportBatch) (item : ImportItemState) : Work unit :=
  wcheck (negb (approved_batch b) || negb (is_ok (ValidateHistoryEvidence (it_Item item))))
    ErrImportTargetReceipt;;
  c ← job (jreads (λ o, GetImportTargetContract (ib_TenantID b) (it_ContractID item)));
  wcheck (negb (same_origin item c) ||
          negb (policy_digest (i_Policy (it_Item item)) =s
                policy_digest (k_ImportPolicy (k_origin c))) ||
          negb (target_owner item c)) ErrImportTargetReceipt;;
  t ← the_task;
  if tg_Target t =s "PROJECT" then executeImportProject b item c
  else if tg_Target t =s "FINANCE" then executeImportFinance b item c
  else if tg_Target t =s "REPORT" then executeImportReport b item
  else wrefuse ErrImportTargetReceipt.

(** ** A round of the dispatcher *)

Definition is_receipt_error (e : goerr) : bool :=
  match e with ErrImportTargetReceipt | ErrImportTargetHTTP _ _ => true | _ => false end.
Definition waiting_code (e : goerr) : string :=
  match e with ErrImportTargetWait code => code | _ => "IMPORT_TARGET_WAITING" end.
Definition backoff (attempts : Z) : Z := Z.min attempts 20 * 15 * Second.
(** What the round leaves on its target. *)
Definition concluded (now : Time) (outcome : res unit) (t : ImportTarget) : ImportTarget :=
  let t := target_set_lease zero_time t in
  match outcome with
  | Ok _ => target_set_error "" t
  | Err e =>
      if is_receipt_error e then
        target_set_error "IMPORT_TARGET_RECEIPT_INVALID" (target_set_state "BLOCKED"
          (match e with
           | ErrImportTargetHTTP status code => target_set_rejection status code (Some now) t
           | _ => t
           end))
      else target_set_wait "WAITING" (now + backoff (tg_Attempts t))
             (target_set_error (waiting_code e) t)
  end.

Definition DispatchImportTargetOnce : Job unit :=
  jlicensed;;
  now ← jclock;
  claimed ← jwrites (λ o, ClaimImportTarget now);
  match claimed with
  | None => mret tt
  | Some (b, itemID, target) =>
      match named_item b itemID ≫= λ item, (pair item) <$> named_target item target with
      | None => jrefuse ErrImportConflict
      | Some (item, task) =>
          worked ← work_on (executeImportTarget b item) task;
          now ← jclock;
          jwrites (λ o, SaveImportTarget (ib_TenantID b) (ib_ID b) (it_ID item)
                          (concluded now worked.1 worked.2))
      end
  end.

(** One tick of [RunImportDispatcher]: every failure is only logged. *)
Definition dispatcher_tick (cleanup : bool) : Job unit :=
  (if cleanup then jattempt (CleanupImportSources cfg);; mret tt else mret tt);;
  jattempt DispatchImportTargetOnce;;
  jattempt (DispatchImportOnce cfg meta);;
  mret tt.

End Tasks.
