(* ===== verification/ImportState.v ===== *)
(** * Import batches: what every request leaves in the tables

    The invariant of the import tables, the way they may grow, and the proof
    that every import request and every tick of the dispatcher keeps both,
    whatever other requests do meanwhile and however the other systems answer:
    an external record has at most one contract, the contract of a record stays,
    and a batch changes only with its version, its epoch never going back. *)

From stdpp Require Import sorting.
From S2P Require Import Prelude GoStrings Decimal GoTime BusinessClock Status NumberRule.
From S2P Require Import PaymentTerm ProjectService ImportPolicy Utf8 PhoneCipher CRMProvision.
From S2P Require Import ApprovalRule Workflow Store Outbound Handover Numbering Repository.
From S2P Require Import Signing SigningFlow Access Like Ledger Reports SigningLedger Templates.
From S2P Require Import Drafting StatusWorkflow Service UseCases DraftCases.
From S2P Require Import ImportBatch ImportConfirm ImportTargets ImportRules ImportJobs ImportCases.
From S2P Require Import ImportExecute ImportRelease ImportTasks.

#[local] Open Scope string_scope.
#[local] Open Scope Z_scope.
#[local] Open Scope list_scope.

(** ** The invariant *)

(** The external record has the contract. *)
Definition linked (key : identityKey) (c : string) (x : IDB) : Prop :=
  ∃ r, im_identities x !! key = Some r ∧ id_ContractID r = Some c.
Definition record_key (b : ImportBatch) (item : ImportItemState) : identityKey :=
  (ib_TenantID b, ib_SourceSystem b, i_ExternalRecordID (it_Item item)).
Definition batch_linked (x : IDB) (b : ImportBatch) : Prop :=
  ∀ item, item ∈ ib_Items b → it_ContractID item ≠ "" →
    linked (record_key b item) (it_ContractID item) x.

Record imports_sound (x : IDB) : Prop := {
  is_rows id row : im_batches x !! id = Some row →
    ib_ID (br_Payload row) = id ∧ batch_linked x (decodeImportBatch row);
  is_once k1 k2 c : linked k1 c x → linked k2 c x → k1.1.1 = k2.1.1 → k1 = k2
}.

(** A later version of a row. *)
Definition later (row row' : importBatchRecord) : Prop :=
  br_TenantID row' = br_TenantID row ∧
  ib_SourceSystem (br_Payload row') = ib_SourceSystem (br_Payload row) ∧
  (row' = row ∨
   (ib_Version (br_Payload row) < ib_Version (br_Payload row') ∧
    ib_Epoch (br_Payload row) ≤ ib_Epoch (br_Payload row'))).
Record grows (x x' : IDB) : Prop := {
  gr_linked key c : linked key c x → linked key c x';
  gr_rows id row : im_batches x !! id = Some row →
    ∃ row', im_batches x' !! id = Some row' ∧ later row row'
}.
Definition good (x x' : IDB) : Prop := imports_sound x' ∧ grows x x'.

Lemma later_refl row : later row row.
Proof. by repeat split; auto. Qed.
Lemma later_trans r1 r2 r3 : later r1 r2 → later r2 r3 → later r1 r3.
Proof.
  intros (A1 & A2 & A3) (B1 & B2 & B3). repeat split; try congruence.
  destruct A3 as [->|[? ?]]; [done|]. right. destruct B3 as [->|[? ?]]; lia.
Qed.
Lemma ledger_grows_refl x : grows x x.
Proof. split; [done|]. intros id row E. exists row. split; [done|apply later_refl]. Qed.
Lemma ledger_grows_trans x y z : grows x y → grows y z → grows x z.
Proof.
  intros [L1 R1] [L2 R2]. split; [auto|]. intros id row E.
  destruct (R1 _ _ E) as (r1 & E1 & H1). destruct (R2 _ _ E1) as (r2 & E2 & H2).
  exists r2. split; [done|]. by eapply later_trans.
Qed.
Lemma good_refl x : imports_sound x → good x x.
Proof. intros. split; [done|apply ledger_grows_refl]. Qed.
Lemma good_trans x y z : good x y → good y z → good x z.
Proof. intros [] [? ?]. split; [done|]. by eapply ledger_grows_trans. Qed.

(** Changes of the other tables. *)
Lemma same_import_tables x x' :
  im_batches x' = im_batches x → im_identities x' = im_identities x → imports_sound x → good x x'.
Proof.
  intros Eb Ei [R O]. unfold good.
  assert (L : ∀ k c, linked k c x' ↔ linked k c x) by (intros; unfold linked; by rewrite Ei).
  repeat split.
  - rewrite Eb in H. by apply R in H as [? _].
  - rewrite Eb in H. apply R in H as [_ Hl]. intros item Hi Hc. apply L. by apply Hl.
  - intros k1 k2 c. rewrite !L. apply O.
  - intros k c. by apply L.
  - intros id row E. exists row. rewrite Eb. split; [done|apply later_refl].
Qed.
Lemma good_db d x : imports_sound x → good x (with_db d x).
Proof. by apply same_import_tables. Qed.
Lemma good_provisions L x : imports_sound x → good x (with_provisions L x).
Proof. by apply same_import_tables. Qed.
Lemma good_settings m x : imports_sound x → good x (with_settings m x).
Proof. by apply same_import_tables. Qed.

Lemma linked_grows x x' b : grows x x' → batch_linked x b → batch_linked x' b.
Proof. intros G L item Hi Hc. apply (gr_linked _ _ G). by apply L. Qed.

(** ** Statements *)

Lemma ibind_ok {A B} (m : ITx A) (f : A → ITx B) s b s' :
  (m ≫= f) s = (Ok b, s') ↔ ∃ a s1, m s = (Ok a, s1) ∧ f a s1 = (Ok b, s').
Proof.
  unfold mbind, ITx_bind. destruct (m s) as [[a|e] s1]; split.
  - intros E. by exists a, s1.
  - intros (a' & s1' & E & E'). by simplify_eq.
  - intros [=].
  - by intros (a' & s1' & [=] & _).
Qed.
Lemma iret_ok {A} (a b : A) (s s' : nat * IDB) : (mret a : ITx A) s = (Ok b, s') ↔ a = b ∧ s = s'.
Proof. split; [by intros [=]|by intros [-> ->]]. Qed.
Lemma ithrow_ok {A} e (b : A) s s' : ithrow e s = (Ok b, s') ↔ False.
Proof. split; [by intros [=]|done]. Qed.
Lemma ilift_ok {A} (r : res A) b s s' : ilift r s = (Ok b, s') ↔ r = Ok b ∧ s = s'.
Proof. split; [by intros [=]|by intros [-> ->]]. Qed.
Lemma iguard_ok c e u s s' : iguard c e s = (Ok u, s') ↔ c = false ∧ s = s'.
Proof.
  unfold iguard. rewrite ilift_ok. destruct c, u; cbn; split; intros [E ->]; done.
Qed.

Section Statements.
Context `{Oracle}.

Lemma inow_ok now t x s' : inow (t, x) = (Ok now, s') ↔ now = o_now t ∧ s' = (S t, x).
Proof. split; [by intros [=]|by intros [-> ->]]. Qed.
Lemma inewID_ok id t x s' : inewID (t, x) = (Ok id, s') ↔ id = o_id t ∧ s' = (S t, x).
Proof. split; [by intros [=]|by intros [-> ->]]. Qed.
Lemma iquery_ok {A} (f : IDB → A) a t x s' :
  iquery f (t, x) = (Ok a, s') → a = f x ∧ s' = (S t, x).
Proof. unfold iquery. destruct (o_fault t); [done|]. by intros [= <- <-]. Qed.
Lemma iexec_ok {A} (f : IDB → res (A * IDB)) a t x s' :
  iexec f (t, x) = (Ok a, s') → ∃ x', f x = Ok (a, x') ∧ s' = (S t, x').
Proof.
  unfold iexec. destruct (o_fault t); [done|]. destruct (f x) as [[a' x']|]; [|done].
  intros [= <- <-]. by exists x'.
Qed.
Lemma in_db_ok {A} (m : Tx A) a t x s' :
  in_db m (t, x) = (Ok a, s') →
  ∃ t' d, m (t, im_db x) = (Ok a, (t', d)) ∧ s' = (t', with_db d x).
Proof.
  unfold in_db. destruct (m (t, im_db x)) as [r [t' d]] eqn:E. intros [= -> <-]. by exists t', d.
Qed.
Lemma find_batch_ok tenant id found t x s' :
  find_batch tenant id (t, x) = (Ok found, s') →
  s' = (S t, x) ∧ found = match im_batches x !! id with
                          | Some row => if br_TenantID row =s tenant then Some row else None
                          | None => None
                          end.
Proof. intros E. by apply iquery_ok in E as [-> ->]. Qed.

End Statements.

(** Takes apart a statement that succeeded. *)
Ltac inv_itx H :=
  lazymatch type of H with
  | (_ ≫= _) _ = (Ok _, _) =>
      let a := fresh "a" in let s := fresh "s" in let H1 := fresh "H" in
      apply ibind_ok in H as (a & s & H1 & H); try inv_itx H1; try inv_itx H
  | (mret _) _ = (Ok _, _) => apply iret_ok in H as [? ?]; simplify_eq
  | ithrow _ _ = (Ok _, _) => by apply ithrow_ok in H
  | ilift _ _ = (Ok _, _) => apply ilift_ok in H as [H ?]; simplify_eq
  | iguard _ _ _ = (Ok _, _) => apply iguard_ok in H as [H ?]; simplify_eq
  | inow _ = (Ok _, _) => apply inow_ok in H as [? ?]; simplify_eq
  | inewID _ = (Ok _, _) => apply inewID_ok in H as [? ?]; simplify_eq
  | iquery _ _ = (Ok _, _) => apply iquery_ok in H as [? ?]; simplify_eq
  | iexec _ _ = (Ok _, _) =>
      let x := fresh "x" in apply iexec_ok in H as (x & H & ?); simplify_eq
  | in_db _ _ = (Ok _, _) =>
      let t := fresh "t" in let d := fresh "d" in apply in_db_ok in H as (t & d & H & ?); simplify_eq
  end.

Ltac itx := repeat match goal with H : _ = (Ok _, _) |- _ => inv_itx H end.

(** ** Changes of a batch *)

(** A changed batch of the same record, not yet saved. *)
Definition header (b b' : ImportBatch) : Prop :=
  ib_ID b' = ib_ID b ∧ ib_TenantID b' = ib_TenantID b ∧ ib_SourceSystem b' = ib_SourceSystem b ∧
  ib_Version b' = ib_Version b ∧ ib_Epoch b ≤ ib_Epoch b'.
Lemma header_refl b : header b b.
Proof. by repeat split. Qed.
Lemma header_trans b1 b2 b3 : header b1 b2 → header b2 b3 → header b1 b3.
Proof. intros (?&?&?&?&?) (?&?&?&?&?). repeat split; [congruence..|lia]. Qed.

(** The items keep their record and, where they have one, their contract. *)
Definition item_kept (i i' : ImportItemState) : Prop :=
  it_ContractID i' = it_ContractID i ∧
  i_ExternalRecordID (it_Item i') = i_ExternalRecordID (it_Item i).
Definition items_kept (b b' : ImportBatch) : Prop :=
  ∀ i', i' ∈ ib_Items b' → it_ContractID i' ≠ "" → ∃ i, i ∈ ib_Items b ∧ item_kept i i'.
Lemma items_kept_refl b : items_kept b b.
Proof. intros i ? ?. by exists i. Qed.
Lemma items_kept_trans b1 b2 b3 : items_kept b1 b2 → items_kept b2 b3 → items_kept b1 b3.
Proof.
  intros K1 K2 i3 H3 C3. destruct (K2 _ H3 C3) as (i2 & H2 & E2 & F2).
  destruct (K1 _ H2 ltac:(congruence)) as (i1 & H1 & E1 & F1).
  exists i1. split; [done|]. split; congruence.
Qed.
Lemma kept_linked x b b' :
  header b b' → items_kept b b' → batch_linked x b → batch_linked x b'.
Proof.
  intros (_ & Et & Es & _) K L i' Hi Hc. destruct (K _ Hi Hc) as (i & Hi' & E1 & E2).
  unfold record_key. rewrite Et, Es, E1, E2. apply L; [done|congruence].
Qed.
Lemma set_item_kept k item item' b :
  ib_Items b !! k = Some item → item_kept item item' → items_kept b (set_item k item' b).
Proof.
  intros E K i' Hi Hc. cbn in Hi. apply list_elem_of_lookup in Hi as [j Hj].
  destruct (decide (j = k)) as [->|N].
  - rewrite list_lookup_insert_eq in Hj by (by eapply lookup_lt_Some). simplify_eq.
    exists item. split; [|done]. by eapply list_elem_of_lookup_2.
  - rewrite list_lookup_insert_ne in Hj by done. exists i'. split; [|done].
    by eapply list_elem_of_lookup_2.
Qed.
Lemma set_item_kept_of k item item' b b2 :
  ib_Items b2 = ib_Items b → ib_Items b !! k = Some item → item_kept item item' →
  items_kept b (set_item k item' b2).
Proof.
  intros E1 E2 K i Hi Hc. eapply (set_item_kept k item item' b); [done|done| |done].
  cbn in *. by rewrite E1 in Hi.
Qed.
Lemma find_item_some id b k item : find_item id b = Some (k, item) → ib_Items b !! k = Some item.
Proof. unfold find_item. intros E. by apply list_find_Some in E as (? & _). Qed.

Section Saves.
Context `{Oracle}.

Lemma save_good b id row t x b1 t' x' :
  imports_sound x → im_batches x !! id = Some row → header (decodeImportBatch row) b →
  batch_linked x b → saveImportBatch b (t, x) = (Ok b1, (t', x')) →
  good x x' ∧ b1 = batch_set_version (ib_Version b + 1) b ∧
  ∃ row', im_batches x' !! id = Some row' ∧
    br_TenantID row' = br_TenantID row ∧ br_Payload row' = payload_of b1 ∧
    br_LeaseUntil row' = timePtr (ib_LeaseUntil b) ∧ br_State row' = ib_State b ∧
    im_identities x' = im_identities x ∧ im_db x' = im_db x.
Proof.
  intros HS Hrow (Hid & Ht & Hsrc & Hv & Hep) HL Hsave.
  destruct (is_rows _ HS _ _ Hrow) as [Erow Lrow].
  unfold saveImportBatch in Hsave. apply ibind_ok in Hsave as (now & s & H1 & Hsave).
  apply inow_ok in H1 as [-> ->]. apply iexec_ok in Hsave as (x1 & Hsave & [= -> ->]).
  cbn in *. rewrite Hid, Erow, Hrow, Ht, streq_refl in Hsave. simplify_eq. cbn. split; [|split; [done|]].
  - assert (E : br_Payload (row_of (batch_set_version (ib_Version b + 1) b) (o_now t) row) =
                payload_of (batch_set_version (ib_Version b + 1) b)) by done.
    assert (L : ∀ k c X, im_identities X = im_identities x → linked k c X ↔ linked k c x)
      by (intros ??? E'; unfold linked; by rewrite E').
    repeat split.
    + cbn in H0. apply lookup_insert_Some in H0 as [[<- <-]|[_ E']]; [done|].
      by apply (is_rows _ HS) in E' as [? _].
    + cbn in H0. intros item Hi Hc. apply L; [done|].
      apply lookup_insert_Some in H0 as [[<- <-]|[_ E']].
      * cbn in *. unfold record_key. cbn. rewrite <- Ht. by apply HL.
      * by apply (is_rows _ HS _ _ E').
    + intros k1 k2 c. rewrite !L by done. by apply (is_once _ HS).
    + intros k c. by apply L.
    + intros i r Er. cbn. destruct (decide (i = ib_ID (br_Payload row))) as [->|N].
      * rewrite Hrow in Er. simplify_eq. eexists. split; [by rewrite lookup_insert_eq|].
        split; [done|]. split; [done|]. right. cbn in *. lia.
      * exists r. rewrite lookup_insert_ne by done. split; [done|apply later_refl].
  - eexists. rewrite lookup_insert_eq. by repeat split.
Qed.

(** A callback of [UpdateImportBatch] that reads nothing but the clock. *)
Definition changes_ok {A} (x : IDB) (change : ImportBatch → ITx (A * ImportBatch)) : Prop :=
  ∀ b t a b' t' x', batch_linked x b → change b (t, x) = (Ok (a, b'), (t', x')) →
    x' = x ∧ header b b' ∧ batch_linked x b'.

Lemma transaction_good {A} (m : ITx A) x :
  imports_sound x →
  (∀ a t' x', m (0%nat, x) = (Ok a, (t', x')) → good x x') → good x (itransaction m x).2.
Proof.
  intros HS Hm. unfold itransaction. destruct (m (0%nat, x)) as [[a|e] [t' x']] eqn:E.
  - specialize (Hm _ _ _ eq_refl). destruct o_commit as [[]|]; cbn; [done| |done].
    by apply good_refl.
  - by apply good_refl.
Qed.

Lemma take_batch_ok tenant id missing t x b s' :
  take_batch tenant id missing (t, x) = (Ok b, s') →
  ∃ row, im_batches x !! id = Some row ∧ br_TenantID row = tenant ∧ b = decodeImportBatch row ∧
    s' = (S t, x).
Proof.
  unfold take_batch. intros E. apply ibind_ok in E as (found & s & E1 & E).
  apply find_batch_ok in E1 as [-> ->].
  destruct (im_batches x !! id) as [row|] eqn:Er; [|done].
  destruct (br_TenantID row =s tenant) eqn:Et; [|done].
  apply iret_ok in E as [<- <-]. exists row. by apply streq_true in Et.
Qed.

(** The same for the one batch the callback is given. *)
Definition changes_here {A} (x : IDB) (tenant id : string)
    (change : ImportBatch → ITx (A * ImportBatch)) : Prop :=
  ∀ row t a b' t' x', im_batches x !! id = Some row → br_TenantID row = tenant →
    batch_linked x (decodeImportBatch row) →
    change (decodeImportBatch row) (t, x) = (Ok (a, b'), (t', x')) →
    x' = x ∧ header (decodeImportBatch row) b' ∧ batch_linked x b'.
Lemma changes_ok_here {A} x tenant id (change : ImportBatch → ITx (A * ImportBatch)) :
  changes_ok x change → changes_here x tenant id change.
Proof. intros Hc row t a b' t' x' _ _. apply Hc. Qed.

Lemma update_good_here {A} tenant id (change : ImportBatch → ITx (A * ImportBatch)) x :
  imports_sound x → changes_here x tenant id change →
  good x (UpdateImportBatch tenant id change x).2.
Proof.
  intros HS Hc. apply transaction_good; [done|]. intros a t' x' E. unfold update_batch_body in E.
  apply ibind_ok in E as (b & s & E1 & E). apply take_batch_ok in E1 as (row & Er & Et & -> & ->).
  apply ibind_ok in E as ([a1 b1] & [t1 x1] & E1 & E).
  eapply Hc in E1 as (-> & Hh & Hl); [|done..|by apply (is_rows _ HS _ _ Er)].
  apply ibind_ok in E as (b2 & [t2 x2] & E1 & E). apply iret_ok in E as [_ [= _ <-]].
  by eapply save_good in E1 as [? _].
Qed.
Lemma update_good {A} tenant id (change : ImportBatch → ITx (A * ImportBatch)) x :
  imports_sound x → changes_ok x change → good x (UpdateImportBatch tenant id change x).2.
Proof. intros. apply update_good_here; [done|]. by apply changes_ok_here. Qed.

End Saves.

(** ** The callbacks *)

Lemma same_items_kept b b' : ib_Items b' = ib_Items b → items_kept b b'.
Proof. intros E i Hi _. exists i. rewrite <- E. by split. Qed.
Lemma editable_kept now version b b' :
  editableImport now version b = Ok b' → header b b' ∧ ib_Items b' = ib_Items b.
Proof.
  unfold editableImport. intros E. inv_ok E. destruct (ib_Confirmation b); inv_ok E;
    repeat match goal with h : (_ ≫= _) = Ok _ |- _ => inv_ok h end;
    simplify_eq; repeat split; cbn; try done; lia.
Qed.
Lemma mark_correction_kept id items :
  ∀ i', i' ∈ mark_correction id items → ∃ i, i ∈ items ∧ item_kept i i'.
Proof.
  induction items as [|i items IH]; cbn; intros i' Hi; [by apply elem_of_nil in Hi|].
  destruct (it_ID i =s id).
  - apply elem_of_cons in Hi as [->|Hi]; [exists i|exists i']; by split; [left|] || by split; [right|].
  - apply elem_of_cons in Hi as [->|Hi]; [exists i; by split; [left|]|].
    apply IH in Hi as (j & ? & ?). exists j. by split; [right|].
Qed.

(** Every item of a list comes from an item of the batch. *)
Lemma map_items_kept b b' (f : ImportItemState → ImportItemState) :
  ib_Items b' = map f (ib_Items b) → (∀ i, item_kept i (f i)) → items_kept b b'.
Proof.
  intros E Hf i' Hi _. rewrite E in Hi. apply list_elem_of_fmap in Hi as (i & -> & Hi).
  exists i. by split.
Qed.

Section Callbacks.
Context `{Oracle} `{ImportDigests}.

Lemma kept_result x b b' :
  batch_linked x b → header b b' → items_kept b b' → x = x ∧ header b b' ∧ batch_linked x b'.
Proof. intros. split; [done|]. split; [done|]. by eapply kept_linked. Qed.

Lemma admit_source_ok x actor version key v : changes_ok x (admit_source actor version key v).
Proof.
  intros b t a b' t' x' HL E. unfold admit_source in E. itx.
  match goal with h : editableImport _ _ _ = _ |- _ => apply editable_kept in h as [Hh Hi] end.
  destruct (find _ _); itx.
  - apply (kept_result _ _ _ HL); [done|by apply same_items_kept].
  - apply (kept_result _ _ _ HL); [|by apply same_items_kept].
    eapply header_trans; [done|]. repeat split. cbn. lia.
Qed.
Lemma receive_source_ok x source : changes_ok x (receive_source source).
Proof.
  intros b t a b' t' x' HL E. unfold receive_source in E. itx.
  destruct (find_source _ _) as [[i s]|]; itx.
  by apply (kept_result _ _ _ HL); [|by apply same_items_kept].
Qed.
Lemma clean_source_ok x id : changes_ok x (clean_source id).
Proof.
  intros b t a b' t' x' HL E. unfold clean_source in E.
  destruct (find_source _ _) as [[i s]|]; itx.
  by apply (kept_result _ _ _ HL); [|by apply same_items_kept].
Qed.
Lemma expire_batch_ok x : changes_ok x expire_batch.
Proof.
  intros b t a b' t' x' HL E. unfold expire_batch in E. itx.
  destruct (empty_str _); apply (kept_result _ _ _ HL);
    (by apply same_items_kept) || (repeat split; cbn; lia).
Qed.
Lemma commit_import_ok x actor enabled revision token key session :
  changes_ok x (commit_import actor enabled revision token key session).
Proof.
  intros b t a b' t' x' HL E. unfold commit_import in E. itx.
  destruct (negb _ && _) in E; itx.
  - by apply (kept_result _ _ _ HL); [|by apply same_items_kept].
  - destruct (empty_str (ib_OperationID b)); itx;
      (apply (kept_result _ _ _ HL); [repeat split; cbn; lia|by apply same_items_kept]).
Qed.
Lemma control_import_ok x actor version resume session :
  changes_ok x (control_import actor version resume session).
Proof.
  intros b t a b' t' x' HL E. unfold control_import in E. itx.
  destruct (negb resume); itx.
  - apply (kept_result _ _ _ HL); [repeat split; cbn; lia|by apply same_items_kept].
  - apply (kept_result _ _ _ HL); [repeat split; cbn; lia|].
    apply (map_items_kept _ _ reset_item); [done|]. intros i. unfold reset_item.
    by destruct (negb (empty_str (it_ContractID i)) || importItemTerminal i); split.
Qed.
Lemma act_confirmation_ok x actor version key action :
  changes_ok x (act_confirmation actor version key action).
Proof.
  intros b t a b' t' x' HL E. unfold act_confirmation in E.
  destruct (ib_Confirmation b) as [cf|]; [|by itx].
  destruct (action =s "WITHDRAW"); itx; destruct (find _ _); itx;
    try (by apply (kept_result _ _ _ HL); [|by apply same_items_kept]);
    destruct (auto_withdraw action cf); (apply (kept_result _ _ _ HL);
      [repeat split; cbn; lia|by apply same_items_kept]).
Qed.
Lemma finish_round_ok x epoch index outcome : changes_ok x (finish_round epoch index outcome).
Proof.
  intros b t a b' t' x' HL E. unfold finish_round in E. itx.
  destruct outcome as [?|e].
  - destruct (all_complete _); itx;
      (apply (kept_result _ _ _ HL); [repeat split; cbn; lia|by apply same_items_kept]).
  - destruct index as [i|].
    + destruct (ib_Items _ !! i) as [item|] eqn:Ei; itx.
      apply (kept_result _ _ _ HL); [repeat split; cbn; lia|].
      by eapply (set_item_kept i item) in Ei.
    + itx. apply (kept_result _ _ _ HL); [repeat split; cbn; lia|by apply same_items_kept].
Qed.
Lemma mark_complete_ok x epoch id : changes_ok x (mark_complete epoch id).
Proof.
  intros b t a b' t' x' HL E. unfold mark_complete in E. itx.
  destruct (find_item id b) as [[i item]|] eqn:Ei; itx.
  apply find_item_some in Ei. apply (kept_result _ _ _ HL); [by repeat split|].
  by eapply set_item_kept.
Qed.

(** A manifest keeps the items whose contract exists. *)
Lemma previous_items_elem b k i : previous_items b !! k = Some i → i ∈ ib_Items b.
Proof.
  unfold previous_items.
  assert (G : ∀ items (m : gmap string ImportItemState), (∀ k i, m !! k = Some i → i ∈ ib_Items b) → (∀ i, i ∈ items → i ∈ ib_Items b) →
            ∀ k i, fold_left (λ m i, <[i_Key (it_Item i) := i]> m) items m !! k = Some i →
            i ∈ ib_Items b).
  { induction items as [|j items IH]; cbn; intros m Hm Hi k' i'; [by apply Hm|].
    apply IH; [|intros; apply Hi; by right].
    intros k2 i2 E. apply lookup_insert_Some in E as [[_ <-]|[_ E]]; [apply Hi; by left|by eapply Hm]. }
  apply G; [|done]. intros ? ?. by rewrite lookup_empty.
Qed.
Ltac tail_kept :=
  match goal with
  | IH : ∀ previous t found t' x x', _ → manifest_items _ _ _ _ = _ → _,
    h : manifest_items _ _ _ (_, _) = (Ok ?r, _) |- _ =>
      apply IH in h as [-> Hk]; [|done]; split; [done|];
      destruct r as [?|[its un]]; [done|]; intros i' Hi Hc
  end.
Lemma manifest_items_kept b items : ∀ previous t found t' x x',
  (∀ k i, previous !! k = Some i → i ∈ ib_Items b) →
  manifest_items b previous items (t, x) = (Ok found, (t', x')) →
  x' = x ∧ match found with
           | inl _ => True
           | inr (items', unused) =>
               ∀ i', i' ∈ items' → it_ContractID i' ≠ "" → ∃ i, i ∈ ib_Items b ∧ item_kept i i'
           end.
Proof.
  induction items as [|item items IH]; intros previous t found t' x x' Hp E; cbn in E.
  { itx. split; [done|]. intros i' Hi. by apply elem_of_nil in Hi. }
  itx.
  assert (Hd : ∀ k i, delete (i_Key item) previous !! k = Some i → i ∈ ib_Items b).
  { intros k i Ed. apply lookup_delete_Some in Ed as [_ Ed]. by eapply Hp. }
  destruct (previous !! i_Key item) as [old|] eqn:Eo.
  - destruct (negb (empty_str (it_ContractID old))) eqn:Ec;
      [destruct (ImportDigest (DItem (it_Item old)) =s ImportDigest (DItem item))|]; itx; [tail_kept| |].
    + apply elem_of_cons in Hi as [->|Hi]; [|by apply Hk]. exists old. split; [by eapply Hp|done].
    + done.
    + tail_kept. by apply elem_of_cons in Hi as [->|Hi]; [|apply Hk].
  - itx. tail_kept. by apply elem_of_cons in Hi as [->|Hi]; [|apply Hk].
Qed.

Lemma set_manifest_ok x actor version m : changes_ok x (set_manifest actor version m).
Proof.
  intros b t a b' t' x' HL E. unfold set_manifest in E. itx.
  match goal with h : editableImport _ _ _ = Ok ?e |- _ => apply editable_kept in h as [Hh Hi];
    rename e into eb end.
  match goal with h : manifest_items _ _ _ _ = (Ok _, ?s) |- _ => destruct s as [t1 x1];
    apply manifest_items_kept in h as [-> Hk]; [|intros; by eapply previous_items_elem] end.
  assert (Hm : ∀ id, header b (markImportCorrection eb id) ∧
                     items_kept b (markImportCorrection eb id)).
  { intros id. split; [eapply header_trans; [done|]; repeat split; cbn; lia|].
    intros i' Hi' _. apply mark_correction_kept in Hi' as (i & Hi' & ?). exists i.
    by rewrite <- Hi. }
  destruct a3 as [id|[items unused]]; [|destruct (find _ _) as [old|]]; itx.
  - by apply (kept_result _ _ _ HL); apply Hm.
  - by apply (kept_result _ _ _ HL); apply Hm.
  - apply (kept_result _ _ _ HL).
    + eapply header_trans; [done|]. repeat split. cbn. lia.
    + intros i' Hi' Hc. destruct (Hk i' Hi' Hc) as (i & ? & ?). exists i. by rewrite <- Hi.
Qed.

(** The items of a preview, which was prepared on an earlier reading. *)
Lemma store_preview_here x tenant id actor p :
  batch_linked x p → ib_TenantID p = tenant →
  (∀ row, im_batches x !! id = Some row → ib_SourceSystem (br_Payload row) = ib_SourceSystem p) →
  changes_here x tenant id (store_preview actor p).
Proof.
  intros HL Ht Hs row t a b' t' x' Er Etr _ E. unfold store_preview in E. itx.
  match goal with h : editableImport _ _ _ = Ok _ |- _ => apply editable_kept in h as [Hh Hi] end.
  split; [done|]. split; [by eapply header_trans|].
  intros item Hin Hc. destruct Hh as (_ & Et & Es & _). unfold record_key. cbn in *.
  rewrite Et, Es. cbn. rewrite (Hs _ Er), Etr. by apply HL.
Qed.

End Callbacks.

(** ** Confirmations *)

Definition only_db (x x' : IDB) : Prop := ∃ d, x' = with_db d x.
Lemma only_db_refl x : only_db x x.
Proof. exists (im_db x). by destruct x. Qed.
Lemma only_db_step d x x' : only_db (with_db d x) x' → only_db x x'.
Proof. intros [d' ->]. by exists d'. Qed.
Lemma only_db_good x x' : imports_sound x → only_db x x' → good x x'.
Proof. intros HS [d ->]. by apply good_db. Qed.
Lemma only_db_trans x y z : only_db x y → only_db y z → only_db x z.
Proof. intros [d ->] [d' ->]. by exists d'. Qed.
Lemma only_db_rows x x' : only_db x x' → im_batches x' = im_batches x ∧ im_identities x' = im_identities x.
Proof. by intros [d ->]. Qed.

(** The batch read, the other tables changed, the batch saved. *)
Lemma changed_save `{Oracle} x x1 id row b t b1 t' x' :
  imports_sound x → im_batches x !! id = Some row → only_db x x1 →
  header (decodeImportBatch row) b → items_kept (decodeImportBatch row) b →
  saveImportBatch b (t, x1) = (Ok b1, (t', x')) → good x x'.
Proof.
  intros HS Er D Hh Hk E. pose proof (only_db_good _ _ HS D) as G1.
  eapply good_trans; [done|]. apply only_db_rows in D as [Db Di].
  eapply save_good in E as [G _]; [done|by destruct G1|by rewrite Db|done|].
  eapply kept_linked; [done..|]. eapply linked_grows; [by destruct G1|].
  by apply (is_rows _ HS _ _ Er).
Qed.

Ltac saved := itx; subst; match goal with
  | HS : imports_sound ?x, Er : im_batches ?x !! _ = Some _, h : saveImportBatch _ _ = (Ok _, _) |- _ =>
      refine (changed_save _ _ _ _ _ _ _ _ _ HS Er _ _ _ h)
  end.

Ltac db_only := repeat first [apply only_db_refl | eapply only_db_step].

Section Confirm.
Context `{Oracle} `{GoUnicode} `{Sha256} `{TzDatabase} `{Collation}.
Context `{ImportDigests} `{UlidText}.

Lemma lock_rows_db tenant ids l t x s' :
  lockImportContractRows tenant ids (t, x) = (Ok l, s') → only_db x s'.2.
Proof. unfold lockImportContractRows. case_bool_decide; intros E; itx; cbn; db_only. Qed.
Lemma confirmation_event_db b item w e t x s' :
  confirmation_event b item w (t, x) = (Ok e, s') → s'.2 = x.
Proof. unfold confirmation_event. destruct (empty_str _); intros E; by itx. Qed.
Lemma confirm_item_db b item locked w item' t x s' :
  confirmHistoricalItem b item locked w (t, x) = (Ok item', s') →
  item_kept item item' ∧ only_db x s'.2.
Proof.
  unfold confirmHistoricalItem. destruct (it_Confirmed item); intros E.
  { itx. split; [done|]. apply only_db_refl. }
  itx. destruct (i_HistoryEvidence _); [|by itx]. destruct (i_Policy _); [|by itx].
  itx. match goal with h : confirmation_event _ _ _ _ = (Ok _, ?s) |- _ =>
    apply confirmation_event_db in h; destruct s as [t5 x5]; cbn in h; subst end.
  itx. split; [done|]. cbn. db_only.
Qed.
Lemma confirm_items_db b locked w items : ∀ items' t x s',
  confirm_items b locked w items (t, x) = (Ok items', s') →
  only_db x s'.2 ∧ ∀ i', i' ∈ items' → ∃ i, i ∈ items ∧ item_kept i i'.
Proof.
  induction items as [|item items IH]; intros items' t x s' E; cbn in E.
  { itx. split; [apply only_db_refl|]. intros i' Hi. by apply elem_of_nil in Hi. }
  apply ibind_ok in E as (item1 & [t1 x1] & E1 & E). apply confirm_item_db in E1 as [K D].
  apply ibind_ok in E as (rest & s2 & E1 & E). apply IH in E1 as [D2 K2]. itx.
  split; [by eapply only_db_trans|]. intros i' Hi.
  apply elem_of_cons in Hi as [->|Hi]; [exists item; by split; [left|]|].
  destruct (K2 _ Hi) as (i & ? & ?). exists i. by split; [right|].
Qed.

Lemma decide_good x id row b cf t r t' x' :
  imports_sound x → im_batches x !! id = Some row → b = decodeImportBatch row →
  decide_confirmation b cf (t, x) = (Ok r, (t', x')) → good x x'.
Proof.
  intros HS Er -> E. unfold decide_confirmation in E.
  destruct (apply_commands _ _ _) as [rejected approved]. destruct (_ && _ && _) in E.
  - apply ibind_ok in E as (locked & [t1 x1] & E1 & E). apply lock_rows_db in E1.
    apply ibind_ok in E as (items & [t2 x2] & E2 & E). apply confirm_items_db in E2 as [D K].
    apply ibind_ok in E as (b1 & [t3 x3] & E3 & E). itx.
    eapply changed_save; [done|done|by eapply only_db_trans| | |done]; [done|].
    intros i' Hi _. by apply K.
  - destruct (_ && _) in E; itx; [by apply good_refl|].
    saved; [apply only_db_refl|done|by apply same_items_kept].
Qed.

Lemma advance_good inp x : imports_sound x → good x (AdvanceImportConfirmation inp x).2.
Proof.
  intros HS. apply transaction_good; [done|]. intros r t' x' E. unfold advance_body in E.
  apply ibind_ok in E as (b & s & E1 & E). apply take_batch_ok in E1 as (row & Er & Et & Eb & ->).
  destruct (ib_Confirmation b) as [cf|]; [|by itx]. itx.
  destruct (contains _ _); itx; [by apply good_refl|].
  destruct (negb _) in E.
  - saved; [apply only_db_refl| |];
      destruct (ib_State (decodeImportBatch row) =s "COMPLETED").
    + done.
    + repeat split; cbn; lia.
    + by apply same_items_kept.
    + by apply same_items_kept.
  - destruct (withdrawn_by _ _).
    + saved; [apply only_db_refl|repeat split; cbn; lia|by apply same_items_kept].
    + destruct (existsb _ _); [itx; by apply good_refl|]. by eapply decide_good in E.
Qed.

Lemma auto_confirm_good tenant batch item roles policy x :
  imports_sound x → good x (AutoConfirmHistoricalImportItem tenant batch item roles policy x).2.
Proof.
  intros HS. apply transaction_good; [done|]. intros r t' x' E. unfold auto_confirm_body in E.
  apply ibind_ok in E as (b & s & E1 & E). apply take_batch_ok in E1 as (row & Er & Et & Eb & ->).
  destruct (find_item item b) as [[i it]|] eqn:Ei; [|by itx].
  destruct (it_Confirmed it); [itx; by apply good_refl|].
  apply ibind_ok in E as (? & s & E1 & E). itx.
  match goal with h : lockImportContractRows _ _ _ = (Ok _, ?s) |- _ =>
    destruct s as [t1 x1]; apply lock_rows_db in h end.
  match goal with h : confirmHistoricalItem _ _ _ _ _ = (Ok _, ?s) |- _ =>
    destruct s as [t2 x2]; apply confirm_item_db in h as [K D] end.
  saved; [|done|eapply set_item_kept_of; [done| |done]; by apply find_item_some in Ei].
  eapply only_db_trans; [done|]. eapply only_db_trans; [done|]. db_only.
Qed.

Lemma freeze_good tenant batch s personnel x :
  imports_sound x →
  good x (FreezeImportConfirmation tenant batch (freeze_confirmation s personnel) x).2.
Proof.
  intros HS. apply transaction_good; [done|]. intros r t' x' E. unfold freeze_body in E.
  apply ibind_ok in E as (b & s1 & E1 & E). apply take_batch_ok in E1 as (row & Er & Et & -> & ->).
  apply ibind_ok in E as (setting & s1 & E1 & E). apply iquery_ok in E1 as [-> ->].
  apply ibind_ok in E as (b & s1 & E1 & E). unfold freeze_confirmation in E1.
  apply ibind_ok in E1 as (u & s2 & E2 & E1). apply iguard_ok in E2 as [_ <-].
  apply ibind_ok in E1 as (cf & s2 & E2 & E1).
  assert (s2 = (2%nat, x)) as -> by (destruct (_ && _) in E2; by itx).
  itx. saved; [apply only_db_refl|repeat split; cbn; lia|by apply same_items_kept].
Qed.

End Confirm.

(** ** Batches: creating, claiming, committing *)

Section Batches.
Context `{Oracle} `{ImportDigests}.

Lemma create_good b x :
  ib_Items b = [] → imports_sound x → good x (CreateImportBatch b x).2.
Proof.
  intros Hb HS. apply transaction_good; [done|]. intros [] t' x' E. unfold create_batch_body in E.
  apply ibind_ok in E as (now & s & E1 & E). apply inow_ok in E1 as [-> ->].
  apply iexec_ok in E as (x1 & E & [= -> ->]).
  destruct (im_batches x !! ib_ID b) eqn:Er; simplify_eq.
  assert (L : ∀ k c X, im_identities X = im_identities x → linked k c X ↔ linked k c x)
    by (intros ??? E'; unfold linked; by rewrite E').
  repeat split.
  - cbn in H1. apply lookup_insert_Some in H1 as [[<- <-]|[_ E]]; [done|].
    by apply (is_rows _ HS _ _ E).
  - cbn in H1. intros item Hi Hc. apply L; [done|].
    apply lookup_insert_Some in H1 as [[<- <-]|[_ E]].
    + cbn in Hi. rewrite Hb in Hi. by apply elem_of_nil in Hi.
    + by apply (is_rows _ HS _ _ E).
  - intros k1 k2 c. rewrite !L by done. by apply (is_once _ HS).
  - intros k c. by apply L.
  - intros id row E. exists row. cbn. rewrite lookup_insert_ne by congruence.
    split; [done|apply later_refl].
Qed.

Lemma batch_rows_elem where_ x row :
  row ∈ batch_rows where_ x → ∃ id, im_batches x !! id = Some row ∧ where_ row = true.
Proof.
  unfold batch_rows. intros Hr. rewrite merge_sort_Permutation in Hr.
  apply list_elem_of_filter in Hr as [Hw Hr].
  apply list_elem_of_fmap in Hr as ([id r] & -> & Hr). apply elem_of_map_to_list in Hr. by exists id.
Qed.
Lemma claim_good now x : imports_sound x → good x (ClaimImportBatch now x).2.
Proof.
  intros HS. apply transaction_good; [done|]. intros r t' x' E. unfold claim_batch_body in E.
  apply ibind_ok in E as (rows & s & E1 & E). apply iquery_ok in E1 as [Erows ->].
  destruct rows as [|row rows]; [itx; by apply good_refl|].
  destruct (batch_rows_elem (claimable_batch now) x row) as (id & Er & _).
  { rewrite <- Erows. by left. }
  saved; [apply only_db_refl|repeat split; cbn; lia|by apply same_items_kept].
Qed.

(** Identities. *)
Lemma insert_identity_good key row x u t s' :
  id_ContractID row = None → imports_sound x → insert_identity key row (t, x) = (Ok u, s') →
  good x s'.2 ∧ im_batches s'.2 = im_batches x.
Proof.
  intros Hn HS E. apply iexec_ok in E as (x1 & E & ->). cbn.
  destruct (im_identities x !! key) eqn:Ek; simplify_eq; [split; [by apply good_refl|done]|].
  assert (L : ∀ k c, linked k c (with_identities (<[key:=row]> (im_identities x)) x) ↔ linked k c x).
  { intros k c. unfold linked. cbn. destruct (decide (k = key)) as [->|N].
    - rewrite lookup_insert_eq, Ek. split; intros (r & ? & ?); congruence.
    - by rewrite lookup_insert_ne. }
  split; [|done]. repeat split.
  - by apply (is_rows _ HS _ _ H1).
  - intros item Hi Hc. apply L. by apply (is_rows _ HS _ _ H1).
  - intros k1 k2 c. rewrite !L. by apply (is_once _ HS).
  - intros k c. by apply L.
  - intros id r E. exists r. split; [done|apply later_refl].
Qed.
Lemma link_identity_good key c x u t s' :
  (∀ r, im_identities x !! key = Some r → id_ContractID r = None) →
  is_Some (im_identities x !! key) → imports_sound x →
  link_identity key c (t, x) = (Ok u, s') →
  good x s'.2 ∧ im_batches s'.2 = im_batches x ∧ linked key c s'.2.
Proof.
  intros Hn [row Hrow] HS E. apply iexec_ok in E as (x1 & E & ->). cbn.
  rewrite Hrow in E. inv_ok E. simplify_eq. unfold identity_taken in Hv. apply bool_decide_eq_false in Hv.
  set (x1 := with_identities _ x).
  assert (L : ∀ k c', linked k c' x1 ↔ linked k c' x ∨ (k = key ∧ c' = c)).
  { intros k c'. unfold linked, x1. cbn. destruct (decide (k = key)) as [->|N].
    - rewrite lookup_insert_eq. split; [|intros [(r & E1 & E2)|[_ ->]]].
      + intros (r & [= <-] & [= ->]). by right.
      + rewrite (Hn _ E1) in E2. done.
      + eexists. by split.
    - rewrite lookup_insert_ne by done. split; [by left|]. by intros [?|[? _]]. }
  assert (F : ∀ k, linked k c x → k.1.1 = key.1.1 → k = key).
  { intros k (r & E1 & E2) Et. destruct (decide (k = key)); [done|]. destruct Hv.
    apply map_Exists_lookup. by exists k, r. }
  split; [|split; [done|apply L; by right]]. repeat split.
  - by apply (is_rows _ HS _ _ H1).
  - intros item Hi Hc. apply L. left. by apply (is_rows _ HS _ _ H1).
  - intros k1 k2 c'. rewrite !L. intros [L1|[-> ->]] [L2|[-> E2]] Et; try done.
    + by apply (is_once _ HS k1 k2 c').
    + subst. by apply F.
    + symmetry. apply F; [done|by symmetry].
  - intros k c' Hl. apply L. by left.
  - intros id r E. exists r. split; [done|apply later_refl].
Qed.

End Batches.

Section Commit.
Context `{Oracle} `{GoUnicode} `{Sha256} `{TzDatabase} `{Collation} `{Documents} `{ImportDigests}.

Lemma create_nested_db meta c actor u t x s' :
  create_nested meta c actor (t, x) = (Ok u, s') → only_db x s'.2.
Proof. unfold create_nested. intros E. itx. cbn. db_only. Qed.

Lemma commit_good meta tenant batch revision epoch itemID c actor x :
  imports_sound x →
  good x (CommitImportDraft meta tenant batch revision epoch itemID c actor x).2.
Proof.
  intros HS. apply transaction_good; [done|]. intros r t' x' E. unfold commit_body in E.
  apply ibind_ok in E as (b & s1 & E1 & E). apply take_batch_ok in E1 as (row & Er & Et & -> & ->).
  apply ibind_ok in E as (now & s1 & E1 & E). apply inow_ok in E1 as [-> ->].
  apply ibind_ok in E as (u & s1 & E1 & E). apply iguard_ok in E1 as [_ <-].
  destruct (find_item itemID _) as [[i item]|] eqn:Ei; [|by itx].
  destruct (negb _) eqn:Ec in E; [itx; by apply good_refl|].
  apply negb_false_iff, streq_true in Ec. apply find_item_some in Ei.
  unfold commit_item in E.
  apply ibind_ok in E as (now & s1 & E1 & E). apply inow_ok in E1 as [-> ->].
  apply ibind_ok in E as ([] & [t1 x1] & E1 & E).
  apply insert_identity_good in E1 as [G1 B1]; [|done..].
  apply ibind_ok in E as (found & s1 & E1 & E). apply iquery_ok in E1 as [-> ->].
  cbn in G1, B1. set (key := (_, _, _)) in *.
  destruct (im_identities x1 !! key) as [identity|] eqn:Ek; [|by itx].
  apply ibind_ok in E as ([] & s1 & E1 & E). apply iguard_ok in E1 as [_ <-].
  apply ibind_ok in E as (id & [t2 x2] & E1 & E).
  assert (good x x2 ∧ im_batches x2 = im_batches x ∧ linked key id x2) as (G2 & B2 & L2).
  { destruct (id_ContractID identity) as [id'|] eqn:Eid.
    - itx. split; [done|]. split; [done|]. by exists identity.
    - apply ibind_ok in E1 as ([] & [t3 x3] & E2 & E1). apply create_nested_db in E2.
      apply ibind_ok in E1 as ([] & [t4 x4] & E3 & E1). itx.
      apply only_db_rows in E2 as R. destruct R as [Rb Ri].
      apply only_db_good in E2; [|by destruct G1].
      apply link_identity_good in E3 as (G3 & B3 & L3).
      + cbn in *. split; [by eapply good_trans; [|eapply good_trans]|]. split; [congruence|done].
      + intros r Hr. cbn in Ri. rewrite Ri in Hr.
        pose proof (eq_trans (eq_sym Ek) Hr) as [= <-]. done.
      + cbn in Ri. rewrite Ri. by exists identity.
      + by destruct E2. }
  apply ibind_ok in E as (b1 & [t3 x3] & Es & E). clear E1. itx.
  eapply good_trans; [done|].
  eapply save_good in Es as [G _]; [done|by destruct G2|by rewrite B2|done|].
  intros item' Hi' Hc'. cbn in Hi'. apply list_elem_of_lookup in Hi' as [j Hj].
  destruct (decide (j = i)) as [->|N].
  - rewrite list_lookup_insert_eq in Hj by (by eapply lookup_lt_Some). simplify_eq. done.
  - rewrite list_lookup_insert_ne in Hj by done.
    apply (gr_linked _ _ (proj2 G2)). apply (is_rows _ HS _ _ Er); [|done].
    by eapply list_elem_of_lookup_2.
Qed.

End Commit.

(** ** Targets *)

Section Targets.
Context `{Oracle} `{GoUnicode} `{ImportDigests}.

Lemma release_target_pure actor target phase retry recovery b item task t x r s' :
  release_target actor target phase retry recovery b item task (t, x) = (Ok r, s') → s'.2 = x.
Proof.
  unfold release_target, queued_target. intros E. itx.
  repeat match goal with
         | h : match ?o with _ => _ end _ = (Ok _, _) |- _ => destruct o; itx
         | h : (if ?c then _ else _) _ = (Ok _, _) |- _ => destruct c; itx
         end; done.
Qed.
Lemma audit_recovery_db tenant target item old task u t x s' :
  audit_recovery tenant target item old task (t, x) = (Ok u, s') → only_db x s'.2.
Proof. unfold audit_recovery. intros E. destruct (List.rev _); itx; cbn; db_only. Qed.
Lemma publish_report_db tenant item task u t x s' :
  publish_report tenant item task (t, x) = (Ok u, s') → only_db x s'.2.
Proof. unfold publish_report. intros E. itx. cbn. db_only. Qed.

Lemma set_target_kept j task item : item_kept item (set_target j task item).
Proof. by split. Qed.

Lemma queue_good tenant batch itemID version target x
    (change : ImportBatch → ImportItemState → ImportTarget → ITx ImportTarget) :
  (∀ b item task t r s', change b item task (t, x) = (Ok r, s') → s'.2 = x) →
  imports_sound x → good x (QueueImportTarget tenant batch itemID version target change x).2.
Proof.
  intros Hc HS. apply transaction_good; [done|]. intros r t' x' E. unfold queue_body in E.
  apply ibind_ok in E as (b & s1 & E1 & E). apply take_batch_ok in E1 as (row & Er & Et & -> & ->).
  destruct (find_item itemID _) as [[i item]|] eqn:Ei; [|by itx]. apply find_item_some in Ei.
  destruct (find_target target item) as [[j task]|]; [|by itx].
  apply ibind_ok in E as (u & s1 & E1 & E). apply iguard_ok in E1 as [_ <-].
  apply ibind_ok in E as (task' & [t1 x1] & E1 & E). apply Hc in E1. cbn in E1. subst x1.
  apply ibind_ok in E as ([] & [t2 x2] & E1 & E).
  assert (D1 : only_db x x2).
  { destruct (negb _) in E1; [by apply audit_recovery_db in E1|]. itx. apply only_db_refl. }
  apply ibind_ok in E as ([] & [t3 x3] & E2 & E).
  assert (D2 : only_db x x3).
  { eapply only_db_trans; [done|]. destruct (_ && _) in E2; [by apply publish_report_db in E2|].
    itx. apply only_db_refl. }
  saved; [done| |].
  - destruct (negb _); repeat split; cbn; lia.
  - eapply set_item_kept_of; [|done|apply set_target_kept]. by destruct (negb _).
Qed.

Lemma claim_in_items_some now items : ∀ k i j item task,
  claim_in_items now k items = Some (i, j, item, task) →
  (k ≤ i)%nat ∧ items !! (i - k)%nat = Some item.
Proof.
  induction items as [|it items IH]; intros k i j item task E; cbn in E; [done|].
  destruct (list_find _ _) as [[j' t']|].
  - simplify_eq. split; [lia|]. by rewrite Nat.sub_diag.
  - apply IH in E as [Hk E]. split; [lia|]. by replace (i - k)%nat with (S (i - S k))%nat by lia.
Qed.
Lemma claim_in_rows_some now rows : ∀ b i j item task,
  claim_in_rows now rows = Some (b, i, j, item, task) →
  ∃ row, row ∈ rows ∧ b = decodeImportBatch row ∧ ib_Items b !! i = Some item.
Proof.
  induction rows as [|row rows IH]; intros b i j item task E; [done|].
  cbn [claim_in_rows] in E.
  destruct (claim_in_items _ _ _) as [[[[i' j'] item'] task']|] eqn:Ec.
  - simplify_eq. apply claim_in_items_some in Ec as [_ Ec]. rewrite Nat.sub_0_r in Ec.
    exists row. by split; [left|].
  - apply IH in E as (r & ? & ?). exists r. by split; [right|].
Qed.
Lemma claim_target_good now x : imports_sound x → good x (ClaimImportTarget now x).2.
Proof.
  intros HS. apply transaction_good; [done|]. intros r t' x' E. unfold claim_target_body in E.
  apply ibind_ok in E as (rows & s & E1 & E). apply iquery_ok in E1 as [Erows ->].
  destruct (claim_in_rows now rows) as [[[[[b i] j] item] task]|] eqn:Ec;
    [|itx; by apply good_refl].
  apply claim_in_rows_some in Ec as (row & Hrow & -> & Hi).
  destruct (batch_rows_elem target_row x row) as (id & Er & _).
  { rewrite Erows in Hrow. by apply elem_of_take in Hrow as (k & Hk & _);
      apply list_elem_of_lookup_2 in Hk. }
  saved; [apply only_db_refl|done|]. eapply set_item_kept_of; [done..|apply set_target_kept].
Qed.

Lemma save_target_good tenant batch itemID task x :
  imports_sound x → good x (SaveImportTarget tenant batch itemID task x).2.
Proof.
  intros HS. apply transaction_good; [done|]. intros r t' x' E. unfold save_target_body in E.
  apply ibind_ok in E as (b & s1 & E1 & E). apply take_batch_ok in E1 as (row & Er & Et & -> & ->).
  apply ibind_ok in E as (b1 & [t1 x1] & E1 & E). unfold applyImportTargetResult in E1.
  destruct (find_item itemID _) as [[i item]|] eqn:Ei; [|by itx]. apply find_item_some in Ei.
  destruct (find_target _ item) as [[j current]|]; [|by itx].
  apply ibind_ok in E1 as (now & s1 & E2 & E1). apply inow_ok in E2 as [-> ->].
  apply ibind_ok in E1 as (u & s1 & E2 & E1). apply iguard_ok in E2 as [_ <-].
  apply ibind_ok in E1 as (u2 & [t2 x2] & E2 & E1).
  assert (D : only_db x x2).
  { unfold audit_rejection in E2. destruct (_ && _) in E2; itx; db_only. }
  itx. saved; [done|done|]. eapply set_item_kept_of; [done..|apply set_target_kept].
Qed.

(** Bodies that change other tables only. *)
Lemma db_transaction_good {A} (m : ITx A) x :
  (∀ a s', m (0%nat, x) = (Ok a, s') → only_db x s'.2) → imports_sound x →
  good x (itransaction m x).2.
Proof.
  intros Hm HS. apply transaction_good; [done|]. intros a t' x' E.
  apply only_db_good; [done|]. by apply Hm in E.
Qed.
Lemma activate_good tenant itemID revision x :
  imports_sound x → good x (ActivateImportResponsibility tenant itemID revision x).2.
Proof.
  intros HS. unfold ActivateImportResponsibility.
  destruct (GetImportItemBatch _ _ _) as [[b|e] s]; [|by apply good_refl].
  apply db_transaction_good; [|done]. intros a s' E. unfold activate_body in E.
  apply ibind_ok in E as (b1 & s1 & E1 & E). apply take_batch_ok in E1 as (row & Er & Et & -> & ->).
  apply ibind_ok in E as (u & s1 & E1 & E). apply iguard_ok in E1 as [_ <-].
  destruct (find_item itemID _) as [[i item]|] eqn:Ei; [|by itx]. itx.
  match goal with h : (if ?c then _ else _) _ = (Ok _, _) |- _ => destruct c; itx end;
    match goal with h : match ?o with _ => _ end _ = (Ok _, _) |- _ => destruct o; itx end;
    cbn; db_only.
Qed.
Lemma opportunity_good tenant contract id name actor x :
  imports_sound x → good x (UpdateImportContractOpportunity tenant contract id name actor x).2.
Proof.
  apply db_transaction_good. intros a s' E. unfold write_opportunity_body in E. itx. cbn. db_only.
Qed.
Lemma set_setting_good tenant enabled version actor x :
  imports_sound x → good x (SetImportAutoApproveSetting tenant enabled version actor x).2.
Proof.
  intros HS. apply transaction_good; [done|]. intros r t' x' E. unfold set_setting_body in E. itx.
  match goal with |- good _ (with_db _ ?y) => apply (good_trans _ y) end;
    [by apply good_settings|]. by apply good_db; apply good_settings.
Qed.

End Targets.
