(* ===== verification/ImportFlow.v ===== *)
(** * Import requests keep the invariant of the import tables

    The rules for programs of [Job] and [Work], one use case after the other,
    and every history of import requests and ticks of the dispatcher. *)

From stdpp Require Import sorting.
From S2P Require Import Prelude GoStrings Decimal GoTime BusinessClock Status NumberRule.
From S2P Require Import PaymentTerm ProjectService ImportPolicy Utf8 PhoneCipher CRMProvision.
From S2P Require Import ApprovalRule Workflow Store Outbound Handover Numbering Repository.
From S2P Require Import Signing SigningFlow Access Like Ledger Reports SigningLedger Templates.
From S2P Require Import Drafting StatusWorkflow Service UseCases DraftCases.
From S2P Require Import ImportBatch ImportConfirm ImportTargets ImportRules ImportJobs ImportCases.
From S2P Require Import ImportExecute ImportRelease ImportTasks ImportState.

#[local] Open Scope string_scope.
#[local] Open Scope Z_scope.
#[local] Open Scope list_scope.

(** ** Rules *)

Definition keeps {A} (m : Job A) : Prop :=
  ∀ s, imports_sound (jb_idb s) → good (jb_idb s) (jb_idb (m s).2).
Definition wkeeps {A} (m : Work A) : Prop :=
  ∀ t s, imports_sound (jb_idb s) → good (jb_idb s) (jb_idb (m (t, s)).2.2).
Definition yields {A} (Q : A → Prop) (m : Job A) : Prop := ∀ s a s', m s = (Ok a, s') → Q a.

Lemma keeps_mret {A} (a : A) : keeps (mret a).
Proof. intros s HS. by apply good_refl. Qed.
Lemma keeps_pure {A} (r : res A) : keeps (jpure r).
Proof. intros s HS. by apply good_refl. Qed.
Lemma keeps_refuse {A} e : keeps (A := A) (jrefuse e).
Proof. intros s HS. by apply good_refl. Qed.
Lemma keeps_emit e : keeps (jemit e).
Proof. intros s HS. by apply good_refl. Qed.
Lemma keeps_read {A} (m : ITx A) : keeps (jread m).
Proof. intros s HS. by apply good_refl. Qed.
Lemma keeps_then {A B} (m : Job A) (f : A → Job B) :
  keeps m → (∀ a, keeps (f a)) → keeps (m ≫= f).
Proof.
  intros Hm Hf s HS. specialize (Hm s HS). unfold mbind, Job_bind.
  destruct (m s) as [[a|e] s1]; [|done]. eapply good_trans; [done|]. apply Hf, Hm.
Qed.
Lemma keeps_attempt {A} (m : Job A) : keeps m → keeps (jattempt m).
Proof. intros Hm s HS. specialize (Hm s HS). unfold jattempt. by destruct (m s). Qed.
Lemma keeps_change {A} (f : IDB → res A * IDB) :
  (∀ x, imports_sound x → good x (f x).2) → keeps (jchange f).
Proof. intros Hf s HS. by apply Hf. Qed.

Lemma wkeeps_ret {A} (a : A) : wkeeps (mret a).
Proof. intros t s HS. by apply good_refl. Qed.
Lemma wkeeps_pure {A} (r : res A) : wkeeps (wpure r).
Proof. intros t s HS. by apply good_refl. Qed.
Lemma wkeeps_refuse {A} e : wkeeps (A := A) (wrefuse e).
Proof. intros t s HS. by apply good_refl. Qed.
Lemma wkeeps_task : wkeeps the_task.
Proof. intros t s HS. by apply good_refl. Qed.
Lemma wkeeps_on f : wkeeps (on_task f).
Proof. intros t s HS. by apply good_refl. Qed.
Lemma wkeeps_bind {A B} (m : Work A) (f : A → Work B) :
  wkeeps m → (∀ a, wkeeps (f a)) → wkeeps (m ≫= f).
Proof.
  intros Hm Hf t s HS. specialize (Hm t s HS). unfold mbind, Work_bind.
  destruct (m (t, s)) as [[a|e] [t1 s1]]; [|done]. eapply good_trans; [done|]. apply Hf, Hm.
Qed.
Lemma wkeeps_job {A} (m : Job A) : keeps m → wkeeps (job m).
Proof. intros Hm t s HS. specialize (Hm s HS). unfold job. by destruct (m s). Qed.
Lemma keeps_work {A} (m : Work A) t : wkeeps m → keeps (work_on m t).
Proof. intros Hm s HS. specialize (Hm t s HS). unfold work_on. by destruct (m (t, s)) as [r []]. Qed.

(** What a reading establishes, and a program relies on. *)
Definition keeps_if {A} (I : IDB → Prop) (m : Job A) : Prop :=
  ∀ s, imports_sound (jb_idb s) → I (jb_idb s) → good (jb_idb s) (jb_idb (m s).2).
Definition stable (I : IDB → Prop) : Prop := ∀ x x', good x x' → I x → I x'.
Lemma keeps_if_bind {A B} I (Q : A → Prop) (m : Job A) (f : A → Job B) :
  stable I → keeps m → yields Q m → (∀ a, Q a → keeps_if I (f a)) → keeps_if I (m ≫= f).
Proof.
  intros HI Hm Hy Hf s HS Hs. specialize (Hm s HS). specialize (Hy s). unfold mbind, Job_bind.
  destruct (m s) as [[a|e] s1]; [|done]. eapply good_trans; [done|].
  apply Hf; [by eapply Hy|apply Hm|by eapply HI].
Qed.
Lemma keeps_bind_inv {A B} (I : A → IDB → Prop) (m : Job A) (f : A → Job B) :
  keeps m →
  (∀ s a s', imports_sound (jb_idb s) → m s = (Ok a, s') → I a (jb_idb s')) →
  (∀ a, keeps_if (I a) (f a)) → keeps (m ≫= f).
Proof.
  intros Hm HI Hf s HS. specialize (Hm s HS). specialize (HI s). unfold mbind, Job_bind.
  destruct (m s) as [[a|e] s1]; [|done]. eapply good_trans; [done|].
  apply Hf; [apply Hm|by eapply HI].
Qed.
Lemma keeps_if_then {A B} I (m : Job A) (f : A → Job B) :
  keeps_if I m → (∀ a, keeps (f a)) → keeps_if I (m ≫= f).
Proof.
  intros Hm Hf s HS Hs. specialize (Hm s HS Hs). unfold mbind, Job_bind.
  destruct (m s) as [[a|e] s1]; [|done]. eapply good_trans; [done|]. apply Hf, Hm.
Qed.
Lemma yields_any {A} (m : Job A) : yields (λ _, True) m.
Proof. done. Qed.

Create HintDb keeps.
#[export] Hint Resolve keeps_mret keeps_pure keeps_refuse keeps_emit keeps_read : keeps.
#[export] Hint Resolve wkeeps_ret wkeeps_pure wkeeps_refuse wkeeps_task wkeeps_on : keeps.

(** Follows a program to its interactions. *)
Ltac keep_step :=
  lazymatch goal with
  | |- keeps (mbind _ _) => apply keeps_then; [|intros]
  | |- keeps (jattempt _) => apply keeps_attempt
  | |- keeps (jcheck _ _) => apply keeps_pure
  | |- keeps (work_on _ _) => apply keeps_work
  | |- wkeeps (mbind _ _) => apply wkeeps_bind; [|intros]
  | |- wkeeps (job _) => apply wkeeps_job
  | |- wkeeps (wcheck _ _) => apply wkeeps_pure
  | |- keeps (match ?c with _ => _ end) => destruct c
  | |- wkeeps (match ?c with _ => _ end) => destruct c
  end.
Ltac keep := repeat first [solve [eauto with keeps nocore] | keep_step].

Section Requests.
Context `{GoUnicode} `{Sha256} `{TzDatabase} `{Collation} `{Documents} `{Aead} `{PhoneKeyEnv}.
Context `{GoFloat} `{TemplateEngine} `{MediaTypes} `{CharCollation} `{Ulid} `{Environment}.
Context `{ImportDigests} `{UlidText} `{ImportEnvironment}.
Variable cfg : ImportConfig.
Variable meta : requestMeta.
Hypothesis others_good : ∀ n x, imports_sound x → good x (ie_others n x).

Lemma keeps_tick : keeps jtick.
Proof. intros s HS. by apply others_good. Qed.
Lemma keeps_service {A} (m : Svc A) : keeps (in_service m).
Proof. intros s HS. unfold in_service. destruct (m _). by apply good_db. Qed.
Lemma keeps_writes {A} (f : Oracle → IDB → res A * IDB) :
  (∀ o x, imports_sound x → good x (f o x).2) → keeps (jwrites f).
Proof. intros Hf. apply keeps_then; [apply keeps_tick|]. intros n. apply keeps_change, Hf. Qed.
Lemma keeps_reads {A} (m : Oracle → ITx A) : keeps (jreads m).
Proof. apply keeps_then; [apply keeps_tick|]. intros. apply keeps_read. Qed.
Lemma keeps_clock : keeps jclock.
Proof. apply keeps_then; [apply keeps_tick|]. intros. apply keeps_mret. Qed.
Lemma keeps_fresh : keeps jfresh.
Proof. apply keeps_then; [apply keeps_tick|]. intros. apply keeps_mret. Qed.
Lemma keeps_update {A} tenant id (change : Oracle → ImportBatch → ITx (A * ImportBatch)) :
  (∀ o x, changes_ok x (change o)) → keeps (jupdate tenant id change).
Proof. intros Hc. apply keeps_writes. intros. by apply update_good. Qed.

Hint Resolve keeps_tick keeps_service keeps_reads keeps_clock keeps_fresh : keeps.

(** *** The interactions *)

Lemma keeps_licensed : keeps jlicensed.
Proof. apply keeps_service. Qed.
Lemma keeps_gateway {A} (m : Job A) : keeps m → keeps (gateway_call cfg m).
Proof. intros. unfold gateway_call. keep. Qed.
Hint Resolve keeps_licensed : keeps.
Lemma keeps_upload id : keeps (jupload cfg id).
Proof. apply keeps_gateway. keep. Qed.
Lemma keeps_bind_file a b c : keeps (jbind cfg a b c).
Proof. apply keeps_gateway. keep. Qed.
Lemma keeps_download a : keeps (jdownload cfg a).
Proof. apply keeps_gateway. keep. Qed.
Lemma keeps_retire a : keeps (jretire cfg a).
Proof. apply keeps_gateway. keep. Qed.
Lemma keeps_release a b : keeps (jrelease cfg a b).
Proof. apply keeps_gateway. keep. Qed.
Lemma keeps_frozen t u : keeps (ensure_not_frozen cfg t u).
Proof. apply keeps_reads. Qed.
Lemma keeps_owner t u : keeps (resolve_owner t u).
Proof. unfold resolve_owner. keep. Qed.
Lemma keeps_batch t id : keeps (jbatch t id).
Proof. apply keeps_reads. Qed.
Lemma keeps_contract t id : keeps (jcontract t id).
Proof. apply keeps_reads. Qed.
Hint Resolve keeps_upload keeps_bind_file keeps_download keeps_retire keeps_release keeps_frozen
  keeps_owner keeps_batch keeps_contract : keeps.

Lemma keeps_history_owner actor item : keeps (importHistoryOwner cfg actor item).
Proof. unfold importHistoryOwner. keep. Qed.
Lemma keeps_live t : keeps (importAutoApproveLive cfg t).
Proof. unfold importAutoApproveLive. keep. Qed.
Hint Resolve keeps_history_owner keeps_live : keeps.
Lemma keeps_policy b : keeps (importAutoApprovePolicy cfg b).
Proof. unfold importAutoApprovePolicy. keep. Qed.
Lemma keeps_auto_confirm b id policy : keeps (autoConfirmHistoricalImportItem cfg b id policy).
Proof. apply keeps_writes. intros. by apply auto_confirm_good. Qed.
Lemma keeps_set_setting actor enabled version :
  keeps (SetImportAutoApproveSettingCase cfg actor enabled version).
Proof.
  unfold SetImportAutoApproveSettingCase. keep. apply keeps_writes. intros.
  by apply set_setting_good.
Qed.
Lemma keeps_get_setting actor : keeps (GetImportAutoApproveSettingCase cfg actor).
Proof. unfold GetImportAutoApproveSettingCase. keep. Qed.
Hint Resolve keeps_policy keeps_auto_confirm keeps_set_setting keeps_get_setting : keeps.

(** *** Batches *)

Lemma keeps_new_batch actor source : keeps (CreateImportBatchCase cfg actor source).
Proof. unfold CreateImportBatchCase. keep. apply keeps_writes. intros. by apply create_good. Qed.
Lemma keeps_get actor id : keeps (GetImportBatchCase actor id).
Proof. unfold GetImportBatchCase. keep. Qed.
Hint Resolve keeps_get : keeps.
Lemma keeps_upload_source actor batch version key name media body :
  keeps (UploadImportSource cfg actor batch version key name media body).
Proof.
  unfold UploadImportSource, source_file. keep;
    apply keeps_update; intros; (apply admit_source_ok || apply receive_source_ok).
Qed.
Lemma keeps_manifest actor id version m : keeps (SetImportManifest cfg actor id version m).
Proof. unfold SetImportManifest. keep. apply keeps_update. intros. apply set_manifest_ok. Qed.

Lemma keeps_prepare actor b item provision : keeps (prepareImportItemWith cfg actor b item provision).
Proof. unfold prepareImportItemWith, historical_checks. keep. Qed.
Lemma keeps_sales name : keeps (resolveImportProvisionSales name).
Proof. unfold resolveImportProvisionSales. keep. Qed.
Hint Resolve keeps_prepare keeps_sales : keeps.
Lemma keeps_plan item : keeps (planImportProvision item).
Proof. unfold planImportProvision, planImportProvisionCustomer. keep. Qed.
Hint Resolve keeps_plan : keeps.
Lemma keeps_preview_item actor b mixed item : keeps (preview_item cfg actor b mixed item).
Proof. unfold preview_item, prepareProvisionImportItem, prepareImportItem. keep. Qed.
Hint Resolve keeps_preview_item : keeps.
Lemma keeps_preview_items actor b mixed items : keeps (preview_items cfg actor b mixed items).
Proof. induction items; cbn; keep. Qed.
Hint Resolve keeps_preview_items : keeps.

Lemma keeps_commit actor id revision token key session :
  keeps (CommitImport cfg actor id revision token key session).
Proof. unfold CommitImport. keep. apply keeps_update. intros. apply commit_import_ok. Qed.
Lemma keeps_control actor id version resume session :
  keeps (ControlImport actor id version resume session).
Proof. apply keeps_update. intros. apply control_import_ok. Qed.
Lemma keeps_each {A} (f : A → Job unit) l : (∀ a, keeps (f a)) → keeps (each f l).
Proof. intros Hf. induction l; cbn; keep. Qed.
Lemma keeps_cleanup : keeps (CleanupImportSources cfg).
Proof.
  unfold CleanupImportSources. keep. apply keeps_each. intros b. unfold cleanup_batch. keep.
  - apply keeps_update. intros. apply expire_batch_ok.
  - apply keeps_each. intros source. unfold cleanup_source. keep.
    apply keeps_update. intros. apply clean_source_ok.
Qed.
Lemma keeps_document actor batch item : keeps (GetImportSourceDocument cfg meta actor batch item).
Proof.
  unfold GetImportSourceDocument, RecordDocumentAccess. keep. apply keeps_writes. intros o x.
  apply db_transaction_good. intros u s' E. unfold record_access_body in E. itx. cbn. db_only.
Qed.
Hint Resolve keeps_new_batch keeps_upload_source keeps_manifest keeps_commit keeps_control keeps_cleanup
  keeps_document : keeps.

(** *** The preview *)

(** The batch as it was read. *)
Definition snapshot (tenant id : string) (b : ImportBatch) (x : IDB) : Prop :=
  batch_linked x b ∧ ib_TenantID b = tenant ∧
  ∃ row, im_batches x !! id = Some row ∧ ib_SourceSystem (br_Payload row) = ib_SourceSystem b.
Lemma snapshot_stable tenant id b : stable (snapshot tenant id b).
Proof.
  intros x x' [_ G] (HL & Ht & row & Er & Es). split; [by eapply linked_grows|]. split; [done|].
  destruct (gr_rows _ _ G _ _ Er) as (row' & Er' & _ & Es' & _). exists row'. split; [done|congruence].
Qed.
Lemma get_snapshot actor id s b s' :
  imports_sound (jb_idb s) → GetImportBatchCase actor id s = (Ok b, s') →
  snapshot (p_TenantID actor) id b (jb_idb s').
Proof.
  intros HS E. pose proof (others_good (jb_step s) _ HS) as [HS1 _].
  unfold GetImportBatchCase in E. cbv [mbind Job_bind] in E.
  destruct (jbatch (p_TenantID actor) id s) as [[b0|e] s1] eqn:E1; [|done].
  assert (jb_idb s1 = ie_others (jb_step s) (jb_idb s) ∧
          ∃ row, im_batches (jb_idb s1) !! id = Some row ∧ br_TenantID row = p_TenantID actor ∧
                 b0 = decodeImportBatch row) as (Ex & row & Er & Et & Eb).
  { unfold jbatch, jreads, jread, GetImportBatch in E1.
    cbn -[take_batch] in E1. injection E1 as E1 <-. cbn. split; [done|].
    destruct (take_batch _ _ _ _) as [[b'|] s'2] eqn:E2; [|done]. injection E1 as ->.
    apply take_batch_ok in E2 as (row & ? & ? & ? & _). by exists row. }
  rewrite Ex in Er. assert (jb_idb s' = jb_idb s1 ∧ b = importBatchForReader b0 actor) as [E2 ->].
  { destruct (existsb _ _); [by injection E as <- <-|].
    unfold jpure in E. destruct (importConfirmationAccess actor b0); [|done].
    by injection E as <- <-. }
  rewrite E2, Ex. subst b0. unfold importBatchForReader.
  assert (batch_linked (ie_others (jb_step s) (jb_idb s)) (decodeImportBatch row))
    by apply (is_rows _ HS1 _ _ Er).
  destruct (negb _); (split; [done|]; split; [done|]; by exists row).
Qed.

Lemma previewed_kept state prepared item :
  item_kept item (previewed state prepared item).1.
Proof. by destruct prepared as [[]|]. Qed.
Lemma preview_item_yields actor b mixed item :
  yields (λ r, item_kept item r.1.1) (preview_item cfg actor b mixed item).
Proof.
  intros s r s' E. unfold preview_item in E. destruct (negb _); [by injection E as <- _|].
  destruct mixed; [by injection E as <- _|]. destruct (negb _); [by injection E as <- _|].
  destruct (provisioned _ _).
  - unfold mbind, Job_bind in E. destruct (planImportProvision _ s) as [[[plan [p|]]|] s1]; [..|done].
    + by injection E as <- _.
    + destruct (jattempt _ s1) as [[prepared|] s2]; [|done]. injection E as <- _.
      apply previewed_kept.
  - unfold mbind, Job_bind in E. destruct (jattempt _ s) as [[prepared|] s2]; [|done].
    injection E as <- _. apply previewed_kept.
Qed.
Lemma preview_items_yields actor b mixed items :
  yields (λ r, ∀ i', i' ∈ r.1.1 → ∃ i, i ∈ items ∧ item_kept i i')
    (preview_items cfg actor b mixed items).
Proof.
  induction items as [|item items IH]; intros s r s' E; cbn in E.
  { injection E as <- _. intros i' Hi. by apply elem_of_nil in Hi. }
  unfold mbind, Job_bind in E.
  destruct (preview_item _ _ _ _ _ s) as [[first|] s1] eqn:E1; [|done].
  destruct (preview_items _ _ _ _ _ s1) as [[others|] s2] eqn:E2; [|done]. injection E as <- _.
  apply preview_item_yields in E1. apply IH in E2. intros i' Hi. cbn in Hi.
  apply elem_of_cons in Hi as [->|Hi]; [exists item; by split; [left|]|].
  destruct (E2 _ Hi) as (i & ? & ?). exists i. by split; [right|].
Qed.

Lemma keeps_preview actor id revision : keeps (PreviewImport cfg actor id revision).
Proof.
  unfold PreviewImport. eapply keeps_bind_inv; [apply keeps_get|by apply get_snapshot|].
  intros b. pose proof (snapshot_stable (p_TenantID actor) id b) as HI.
  eapply keeps_if_bind; [done|keep|apply yields_any|intros _ _].
  eapply keeps_if_bind; [done|keep|apply yields_any|intros _ _].
  eapply keeps_if_bind; [done|keep|apply yields_any|intros _ _].
  eapply keeps_if_bind; [done|keep|apply yields_any|intros _ _].
  eapply keeps_if_bind; [done|keep|apply preview_items_yields|intros r Hr].
  eapply keeps_if_bind; [done|keep|apply yields_any|intros token _].
  eapply keeps_if_bind; [done|keep|apply yields_any|intros now _].
  match goal with |- keeps_if _ (jupdate _ _ (λ _, store_preview _ ?p) ≫= _) => set (p0 := p) end.
  apply keeps_if_then; [|intros; apply keeps_get].
  eapply keeps_if_bind; [done|keep|apply yields_any|intros n _].
  intros s HS (HL & Ht & row & Er & Es). apply update_good_here; [done|].
  apply store_preview_here; [|done|].
  - eapply (kept_linked _ b); [by repeat split| |done]. intros i' Hi _. by apply Hr.
  - intros row' Er'. cbn in *. congruence.
Qed.

(** *** Confirming and executing *)

Hint Resolve keeps_preview : keeps.
Lemma keeps_start_confirmation b : keeps (startImportConfirmation cfg b).
Proof. unfold startImportConfirmation. keep. Qed.
Hint Resolve keeps_start_confirmation : keeps.
Lemma keeps_submit actor id revision token key session :
  keeps (SubmitImportConfirmation cfg actor id revision token key session).
Proof.
  unfold SubmitImportConfirmation. keep.
  - apply keeps_each. intros item. unfold submittable. keep.
  - unfold jfreeze. keep. apply keeps_change. intros. by apply freeze_good.
Qed.
Lemma keeps_act actor id version key action : keeps (ActImportConfirmation actor id version key action).
Proof. unfold ActImportConfirmation. keep. apply keeps_update. intros. apply act_confirmation_ok. Qed.

Lemma keeps_import_owner actor item c : keeps (import_owner cfg actor item c).
Proof. unfold import_owner. keep. Qed.
Hint Resolve keeps_import_owner : keeps.
Lemma keeps_commit_contract actor b item prepare adjust :
  (∀ a b i, keeps (prepare a b i)) → keeps (commitImportContract cfg meta actor b item prepare adjust).
Proof.
  intros Hp. unfold commitImportContract. keep.
  apply keeps_writes. intros. by apply commit_good.
Qed.
Lemma keeps_finish actor b item id before :
  (∀ c, keeps (before c)) → keeps (finishImportItem cfg actor b item id before).
Proof.
  intros Hb. unfold finishImportItem. keep.
  - apply keeps_writes. intros o x HS. unfold on_db. destruct (MarkContractSourceGatewayResult _ _ _ _ _ _).
    by apply good_db.
  - apply keeps_update. intros. apply mark_complete_ok.
Qed.
Lemma keeps_provision f : keeps (jprovision f).
Proof.
  apply keeps_writes. intros o x HS. apply transaction_good; [done|]. intros v t' x' E.
  apply ibind_ok in E as (now & s1 & E1 & E). apply inow_ok in E1 as [-> ->].
  apply iexec_ok in E as (x1 & E & [= -> ->]). destruct (f _ _) as [[L r]|]; simplify_eq.
  by apply good_provisions.
Qed.
Hint Resolve keeps_provision : keeps.
Lemma keeps_fail {A} key record e : keeps (failImportProvision (A := A) key record e).
Proof. unfold failImportProvision. keep. Qed.
Hint Resolve keeps_fail : keeps.
Lemma keeps_or_fail {A} key record (m : Job A) : keeps m → keeps (or_fail key record m).
Proof. intros Hm. unfold or_fail. keep. Qed.
Lemma keeps_crm {A} (m : Job A) : keeps m → keeps (crm m).
Proof. intros Hm. unfold crm. keep. Qed.
Lemma keeps_resolve cached name : keeps (resolve_sales cached name).
Proof. unfold resolve_sales. keep. Qed.
Lemma keeps_lookup name : keeps (lookup_customer name).
Proof. apply keeps_crm. keep. Qed.
Hint Resolve keeps_resolve keeps_lookup : keeps.
Lemma keeps_customer key m owner : keeps (lookupOrCreateImportProvisionCustomer key m owner).
Proof. unfold lookupOrCreateImportProvisionCustomer. keep. apply keeps_crm. keep. Qed.
Lemma keeps_customer_name m id : keeps (importProvisionCustomerName m id).
Proof. unfold importProvisionCustomerName. keep. Qed.
Lemma keeps_opportunity key c owner : keeps (createImportProvisionOpportunity key c owner).
Proof. unfold createImportProvisionOpportunity. keep. apply keeps_crm. keep. Qed.
Lemma keeps_sign key id ref : keeps (signImportProvisionOpportunity key id ref).
Proof. apply keeps_crm. keep. Qed.
Lemma keeps_advance key from to record c o : keeps (advance_to key from to record c o).
Proof. apply keeps_provision. Qed.
Hint Resolve keeps_customer keeps_customer_name keeps_opportunity keeps_sign keeps_advance
  keeps_or_fail : keeps.
Lemma keeps_write_back key record c id : keeps (writeBackImportProvisionOpportunity key record c id).
Proof.
  unfold writeBackImportProvisionOpportunity. keep. apply keeps_writes. intros.
  by apply opportunity_good.
Qed.
Hint Resolve keeps_write_back : keeps.
Lemma keeps_complete_opportunity key record cached name c :
  keeps (completeProvisionOpportunity key record cached name c).
Proof. unfold completeProvisionOpportunity. keep. Qed.
Lemma keeps_provision_customer key m record : keeps (provision_customer key m record).
Proof. unfold provision_customer. keep. Qed.
Lemma keeps_record_failure key record e : keeps (recordImportProvisionFailure key record e).
Proof. unfold recordImportProvisionFailure. keep. Qed.
Hint Resolve keeps_record_failure keeps_complete_opportunity keeps_provision_customer : keeps.
Lemma keeps_provision_contract actor b item key record :
  keeps (provision_contract cfg meta actor b item key record).
Proof.
  unfold provision_contract. keep. apply keeps_commit_contract. intros. apply keeps_prepare.
Qed.
Lemma keeps_auto_step b id : keeps (auto_confirm cfg b id).
Proof. unfold auto_confirm. keep. Qed.
Lemma keeps_mark b item : keeps (markImportItemComplete b item).
Proof. apply keeps_update. intros. apply mark_complete_ok. Qed.
Hint Resolve keeps_provision_contract keeps_auto_step keeps_mark : keeps.
Lemma keeps_execute_provision actor b item : keeps (executeProvisionImportItem cfg meta actor b item).
Proof.
  unfold executeProvisionImportItem, provision_completed. keep. apply keeps_finish. intros. keep.
Qed.
Hint Resolve keeps_execute_provision : keeps.
Lemma keeps_execute actor b item : keeps (executeImportItem cfg meta actor b item).
Proof.
  unfold executeImportItem. keep.
  - apply keeps_commit_contract. intros. apply keeps_prepare.
  - apply keeps_finish. intros. keep.
Qed.
Hint Resolve keeps_execute : keeps.
Lemma keeps_dispatch : keeps (DispatchImportOnce cfg meta).
Proof.
  unfold DispatchImportOnce, execute_round. keep.
  - apply keeps_each. intros. keep.
  - apply keeps_writes. intros. by apply claim_good.
  - apply keeps_update. intros. apply finish_round_ok.
Qed.

(** *** Targets *)

Lemma keeps_finance_status : keeps (finance_status cfg).
Proof. unfold finance_status. keep. Qed.
Lemma keeps_owner_known t c e : keeps (owner_known cfg t c e).
Proof. unfold owner_known. keep. Qed.
Hint Resolve keeps_finance_status keeps_owner_known : keeps.
Lemma keeps_release_item actor item target version phase :
  keeps (ReleaseImportItem cfg actor item target version phase).
Proof.
  unfold ReleaseImportItem, item_batch, prepareImportProjectRetry, prepareImportFinanceRecovery,
    validateRejectedProjectBaseline, recover_finance.
  keep. apply keeps_writes. intros. apply queue_good; [|done]. intros. by eapply release_target_pure.
Qed.
Lemma wkeeps_freeze b item r : wkeeps (freezeImportRequest b item r).
Proof. unfold freezeImportRequest. keep. apply keeps_writes. intros. by apply save_target_good. Qed.
Lemma wkeeps_project p : wkeeps (send_project cfg p).
Proof. unfold send_project. keep. Qed.
Lemma wkeeps_finance p : wkeeps (send_finance cfg p).
Proof. unfold send_finance. keep. Qed.
Hint Resolve wkeeps_freeze wkeeps_project wkeeps_finance : keeps.
Lemma wkeeps_execute_target b item : wkeeps (executeImportTarget cfg b item).
Proof.
  unfold executeImportTarget, executeImportProject, executeImportFinance, reconciled_release,
    executeImportReport.
  keep. apply keeps_writes. intros. by apply activate_good.
Qed.
Lemma keeps_dispatch_target : keeps (DispatchImportTargetOnce cfg).
Proof.
  unfold DispatchImportTargetOnce. keep.
  - apply keeps_writes. intros. by apply claim_target_good.
  - apply wkeeps_execute_target.
  - apply keeps_writes. intros. by apply save_target_good.
Qed.
Lemma keeps_dispatcher cleanup : keeps (dispatcher_tick cfg meta cleanup).
Proof. unfold dispatcher_tick. keep; apply keeps_dispatch_target || apply keeps_dispatch. Qed.

(** ** Every request *)

Inductive import_request : Type :=
  | IqCreate (actor : Principal) (source : string)
  | IqGet (actor : Principal) (id : string)
  | IqUpload (actor : Principal) (batch : string) (version : Z) (key name media body : string)
  | IqManifest (actor : Principal) (id : string) (version : Z) (m : ImportManifest)
  | IqPreview (actor : Principal) (id : string) (revision : Z)
  | IqCommit (actor : Principal) (id : string) (revision : Z) (token key session : string)
  | IqControl (actor : Principal) (id : string) (version : Z) (resume : bool) (session : string)
  | IqDocument (actor : Principal) (batch item : string)
  | IqSubmit (actor : Principal) (id : string) (revision : Z) (token key session : string)
  | IqAct (actor : Principal) (id : string) (version : Z) (key action : string)
  | IqSetting (actor : Principal) (enabled : bool) (version : Z)
  | IqRelease (actor : Principal) (item target : string) (version : Z) (phase : string)
  | IqAdvance (inp : ImportConfirmationInput)
  | IqTick (cleanup : bool).

(** [AdvanceImportConfirmation] is the activity of the workflow. *)
Definition handle_import (r : import_request) : Job unit :=
  match r with
  | IqCreate actor source => CreateImportBatchCase cfg actor source;; mret tt
  | IqGet actor id => GetImportBatchCase actor id;; mret tt
  | IqUpload actor batch version key name media body =>
      UploadImportSource cfg actor batch version key name media body;; mret tt
  | IqManifest actor id version m => SetImportManifest cfg actor id version m
  | IqPreview actor id revision => PreviewImport cfg actor id revision;; mret tt
  | IqCommit actor id revision token key session =>
      CommitImport cfg actor id revision token key session;; mret tt
  | IqControl actor id version resume session => ControlImport actor id version resume session
  | IqDocument actor batch item => GetImportSourceDocument cfg meta actor batch item;; mret tt
  | IqSubmit actor id revision token key session =>
      SubmitImportConfirmation cfg actor id revision token key session;; mret tt
  | IqAct actor id version key action => ActImportConfirmation actor id version key action
  | IqSetting actor enabled version => SetImportAutoApproveSettingCase cfg actor enabled version;; mret tt
  | IqRelease actor item target version phase =>
      ReleaseImportItem cfg actor item target version phase;; mret tt
  | IqAdvance inp => jwrites (λ o, AdvanceImportConfirmation inp);; mret tt
  | IqTick cleanup => dispatcher_tick cfg meta cleanup
  end.

Lemma handle_keeps r : keeps (handle_import r).
Proof.
  destruct r; cbn; keep; first
    [ apply keeps_submit | apply keeps_act | apply keeps_release_item | apply keeps_dispatcher
    | apply keeps_writes; intros; by apply advance_good ].
Qed.

End Requests.
