(* ===== verification/ImportSafety.v ===== *)
(** * A batch of historical contracts, run

    A concrete configuration, environment and sequence of requests: the switch
    for automatic approval is set, a batch with one archived contract is created,
    filled, previewed and submitted, and the dispatcher executes it.  The
    theorems about imports are applied to its states. *)

From stdpp Require Import sorting.
From S2P Require Import Prelude GoStrings Decimal GoTime BusinessClock Status NumberRule.
From S2P Require Import PaymentTerm ProjectService ImportPolicy Utf8 PhoneCipher CRMProvision.
From S2P Require Import ApprovalRule Workflow Store Outbound Handover Numbering Repository Scenario.
From S2P Require Import Changes Refinement Integrity Completion Signing SigningFlow Access Like Ledger LedgerFlow Reports SigningLedger Templates.
From S2P Require Import Drafting StatusWorkflow Service UseCases DraftCases ServiceState.
From S2P Require Import ImportBatch ImportConfirm ImportTargets ImportRules ImportJobs ImportCases.
From S2P Require Import ImportExecute ImportRelease ImportTasks ImportState ImportFlow.

#[local] Open Scope string_scope.
#[local] Open Scope Z_scope.
#[local] Open Scope list_scope.

Definition sample_digest (d : digestible) : string :=
  match d with
  | DItem i => "item:" +:+ i_Key i +:+ ":" +:+ i_ExternalRecordID i
  | DRecovery item _ _ _ g => "0123456789012345678901234567890" +:+ Itoa g
  | _ => "01234567890123456789012345678901234567890123456789012345678901ab"
  end.
Definition sample_digests : ImportDigests := {| ImportDigest := sample_digest |}.
Definition sample_ulid_text : UlidText := {| ulid_text := λ s, s |}.
#[export] Existing Instances sample_aead sample_key_env sample_float sample_templates sample_media.
#[export] Existing Instances sample_chars sample_ulid sample_digests sample_ulid_text.

(** One second passes with every step. *)
Definition passing (n : nat) : Oracle := {|
  o_fault := λ _, false; o_now := λ k, (1700000000 + Z.of_nat n) * Second + Z.of_nat k;
  o_id := λ k, Itoa (Z.of_nat n) +:+ "." +:+ Itoa (Z.of_nat k); o_commit := None
|}.
Definition import_services : Environment := {|
  ev_oracle := passing; ev_others := λ _ d, d; ev_license := λ _, Granted;
  ev_start := λ _ _, Started "run"; ev_signal := λ _, Ok tt; ev_state := λ _ _ _, Err ErrOther;
  ev_running := λ _, Ok true;
  ev_personnel := λ _, Some (λ _, Ok [director "sam" "import_approver"]);
  ev_directories := λ _, mkDirectories (Ok tt) (λ _, Err ErrOther) (λ _, Err ErrOther) None None;
  ev_template := λ _ _ _, Err ErrNotFound; ev_gateway := λ _, Ok "g1";
  ev_message := λ _, "refused"; ev_cancelled := λ _, false; ev_nonce := λ _, []
|}.
#[export] Existing Instance import_services.

Definition home : string := "01HTENANT00000000000000000".
Definition everything : ScopeFilter := mkScope "" "" [] [] true false.
Definition import_permissions : list string :=
  ["contract.create"; "contract.import.preview"; "contract.import.commit"; "contract.import.release"].
Definition importer : Principal :=
  mkPrincipal "" home "imp" "id-imp" "" "Importer" "" "" ["admin"]
    (list_to_map (map (λ p, (p, true)) import_permissions)) []
    (list_to_map (map (λ p, (p, everything)) import_permissions)) 1 "".

(** Nobody else is at work; the CRM does not know the customer yet. *)
Definition import_partners (report : res reportReply) : ImportEnvironment := {|
  ie_others := λ _ x, x; ie_download := λ _ _, Ok "file"; ie_retire := λ _ _, Ok "";
  ie_release := λ _, Ok tt; ie_actor := λ _ _ _ _, Ok importer;
  ie_owner := λ _ _ id, Ok (mkUserReference id id []); ie_sales := λ _ _, Ok "id-sales";
  ie_lookup := λ _ _, Ok []; ie_customer := λ _, Ok (mkCreated 77 "ACME");
  ie_opportunity := λ _, Ok 88; ie_sign := λ _, Ok tt; ie_project := λ _, Err ErrOther;
  ie_finance_status := λ _, Err ErrOther; ie_finance := λ _, Err ErrOther;
  ie_report := λ _, report
|}.
Definition willing : ImportEnvironment := import_partners (Err ErrOther).

Definition import_config : ImportConfig :=
  mkImportConfig (mkConfig false true "contracts" 0 0 true "legacy" true None true true) true true
    true 0 0 ["import_approver"] true true true true true true true.

Definition archive_policy : ImportPolicy :=
  mkPolicy 1 "NONE" "NONE" "ARCHIVE_SEPARATE" "INACTIVE" "DECLARED_ONLY".
Definition archive_evidence : ImportHistoryEvidence :=
  mkEvidence "2024-02-29" "archived" "ACME" "Li" "imp" "" 0 "PRIMARY" "" None "API_ONLY".
Definition archive_service : ServiceItem :=
  mkItem "" 0 "" "" "测评" "北京" "一" "等保" "" "STANDARD" [mkSystem "oa" "三级"].
Definition archive_metadata : ImportMetadata :=
  mkMetadata "Archive" "直签" "" "" "" "CRM" "" 0 "" 0 "ACME" "" "" "" [] [archive_service] "" 100
    "CNY" [mkTerm 1 "2024-03-01" "1.00"] "" (Some 0) None "" "Li" "" "" "".
(** The item of a staged file. *)
Definition archived (key record file : string) : ImportItem :=
  mkImportItem key record ImportArchiveOnly file (Some archive_policy) archive_metadata
    (Some archive_evidence).

Definition blank_imports : IDB := mkIDB (new_tables sample_numbers) ∅ ∅ ∅ ∅.
Definition at_rest (x : IDB) : JobState := mkJob 0 x [].

(** Requests one after the other, with the step counter going on. *)
Fixpoint run_imports `{ImportEnvironment} (rs : list import_request) (s : JobState) : JobState :=
  match rs with
  | [] => s
  | r :: rest => run_imports rest (handle_import import_config sample_meta r s).2
  end.
Definition results `{ImportEnvironment} (rs : list import_request) (s : JobState) : list (res unit) :=
  (fix go rs s := match rs with
                  | [] => []
                  | r :: rest => let '(o, s') := handle_import import_config sample_meta r s in
                                 o :: go rest s'
                  end) rs s.

(** ** A submission approved by the tenant's switch *)

#[local] Existing Instance willing.
Definition session : string := "01234567890123456789012345678901".
Definition one_item : list import_request :=
  [IqSetting importer true 0; IqCreate importer "erp";
   IqUpload importer "1.0" 1 "k1" "a.docx" "" "file";
   IqManifest importer "1.0" 3 (mkManifest 1 "erp" [archived "k1" "ext:1" "6.2"]);
   IqPreview importer "1.0" 3; IqSubmit importer "1.0" 3 "18.0" "key-0123" session].
Definition submitted : IDB := jb_idb (run_imports one_item (at_rest blank_imports)).
Definition executed : JobState := run_imports (one_item ++ [IqTick false]) (at_rest blank_imports).

Definition batch_states (x : IDB) :=
  map (λ p : string * importBatchRecord,
         (p.1, ib_State (br_Payload p.2),
          map (λ i, (it_ID i, it_State i, it_ContractID i, it_Confirmed i)) (ib_Items (br_Payload p.2))))
    (map_to_list (im_batches x)).
Definition contract_states (x : IDB) :=
  map (λ p : string * contractRecord, (p.1, c_ContractNumber p.2, c_Status p.2, c_Version p.2))
    (map_to_list (db_contracts (im_db x))).

(** The customer, the contract, the opportunity and its signature, in this
    order; the contract is archived with a number. *)
Example import_executed :
  results (one_item ++ [IqTick false]) (at_rest blank_imports) = repeat (Ok tt) 7 ∧
  batch_states (jb_idb executed) =
    [("1.0", "TARGETS_PENDING", [("10.2", "COMPLETE", "49.0", true)])] ∧
  contract_states (jb_idb executed) = [("49.0", Some "HT-20230001", "archived", 2)] ∧
  jb_trace executed =
    [JUpload "contract-import-6.2"; JBind "g1" "contract_import_item" "6.2";
     JCustomer ("import-provision:customer:" +:+ home +:+ nul +:+ "erp" +:+ nul +:+ "ext:1")
       (mkCustomerInput "ACME" "" "" "" "id-sales");
     JBind "g1" "contract" "49.0";
     JOpportunity ("import-provision:opportunity:" +:+ home +:+ nul +:+ "erp" +:+ nul +:+ "ext:1")
       (mkOpportunityInput 77 "id-sales" "Archive" "1.00" "1970-01-01");
     JSign ("import-provision:sign:" +:+ home +:+ nul +:+ "erp" +:+ nul +:+ "ext:1") 88 "49.0"].
Proof. vm_compute. repeat split. Qed.

(** ** Released early

    The first of two items is confirmed and released to the report while the
    second waits for the dispatcher.  The report's receipt completes the batch:
    the dispatcher no longer claims it, and nobody can resume it. *)
Definition published_report : reportReply :=
  mkReportReply 1 home "15.2" 4 1 "API_ONLY" ["API_APPLIED"] "APPLIED"
    "01234567890123456789012345678901234567890123456789012345678901ab" "run" (Some 1) false.
Definition two_items : list import_request :=
  [IqSetting importer true 0; IqCreate importer "erp";
   IqUpload importer "1.0" 1 "k1" "a.docx" "" "file"; IqUpload importer "1.0" 3 "k2" "b.docx" "" "file";
   IqManifest importer "1.0" 5
     (mkManifest 1 "erp" [archived "k1" "ext:1" "6.2"; archived "k2" "ext:2" "11.2"]);
   IqPreview importer "1.0" 4; IqSubmit importer "1.0" 4 "28.0" "key-0123" session;
   IqTick false; IqRelease importer "15.2" "REPORT" 1 ""; IqTick false].
Definition released_early : JobState :=
  run_imports (H := import_partners (Ok published_report)) two_items
    (at_rest blank_imports).
Example released_batch_completes :
  batch_states (jb_idb released_early) =
    [("1.0", "COMPLETED", [("15.2", "COMPLETE", "61.0", true); ("15.3", "NEEDS_PROVISION", "", false)])] ∧
  (∀ now r, im_batches (jb_idb released_early) !! "1.0" = Some r → claimable_batch now r = false) ∧
  (handle_import import_config sample_meta (IqControl importer "1.0" 16 true session) released_early).1
    = Err ErrImportConflict.
Proof.
  split; [vm_compute; reflexivity|]. split; [|vm_compute; reflexivity].
  intros now r Er.
  assert (br_State <$> im_batches (jb_idb released_early) !! "1.0" = Some "COMPLETED") as Es
    by (vm_compute; reflexivity).
  rewrite Er in Es. injection Es as Es. unfold claimable_batch. by rewrite Es.
Qed.

(** * What holds after every history of import requests

    An external record becomes at most one contract, and a round of the
    dispatcher whose batch was claimed again can no longer write. *)

Section Histories.
Context `{GoUnicode} `{Sha256} `{TzDatabase} `{Collation} `{Documents} `{Aead} `{PhoneKeyEnv}.
Context `{GoFloat} `{TemplateEngine} `{MediaTypes} `{CharCollation} `{Ulid}.
Context `{ImportDigests} `{UlidText}.

(** Requests in any configuration, with whatever answers; while one of them is
    at work, other requests run between its steps.  The requests of the other
    components change the tables of [Store] only. *)
Inductive import_history : IDB → IDB → Prop :=
  | ih_none x : import_history x x
  | ih_request x s (env : Environment) (partners : ImportEnvironment) cfg meta r :
      import_history x (jb_idb s) → (∀ n y, import_history y (ie_others n y)) →
      import_history x (jb_idb (handle_import cfg meta r s).2)
  | ih_tables x y d : import_history x y → import_history x (with_db d y).

Lemma history_good x y : import_history x y → imports_sound x → good x y.
Proof.
  induction 1 as [x|x s env partners cfg meta r _ IH _ IHo|x y d _ IH]; intros HS.
  - by apply good_refl.
  - specialize (IH HS). eapply good_trans; [done|]. apply handle_keeps; [done|apply IH].
  - specialize (IH HS). eapply good_trans; [done|]. apply good_db, IH.
Qed.
Lemma history_trans x y z : import_history x y → import_history y z → import_history x z.
Proof. intros Hxy. induction 1; [done|apply ih_request; auto|apply ih_tables; auto]. Qed.

(** No batch and no identity yet. *)
Definition no_imports (x : IDB) : Prop := im_batches x = ∅ ∧ im_identities x = ∅.
Lemma no_imports_sound x : no_imports x → imports_sound x.
Proof.
  intros [Eb Ei]. split.
  - intros id row E. rewrite Eb in E. by rewrite lookup_empty in E.
  - intros k1 k2 c (r & E & _). rewrite Ei in E. by rewrite lookup_empty in E.
Qed.

(** Items of two batches of a tenant have the same contract exactly when they
    are for the same external record. *)
Definition each_record_once (y : IDB) : Prop :=
  ∀ id1 id2 row1 row2 i1 i2,
    im_batches y !! id1 = Some row1 → im_batches y !! id2 = Some row2 →
    i1 ∈ ib_Items (br_Payload row1) → i2 ∈ ib_Items (br_Payload row2) →
    it_ContractID i1 ≠ "" → it_ContractID i2 ≠ "" → br_TenantID row1 = br_TenantID row2 →
    (it_ContractID i1 = it_ContractID i2 ↔
     ib_SourceSystem (br_Payload row1) = ib_SourceSystem (br_Payload row2) ∧
     i_ExternalRecordID (it_Item i1) = i_ExternalRecordID (it_Item i2)).

Lemma sound_once y : imports_sound y → each_record_once y.
Proof.
  intros HS id1 id2 row1 row2 i1 i2 E1 E2 M1 M2 C1 C2 Et.
  pose proof (proj2 (is_rows _ HS _ _ E1) _ M1 C1) as L1.
  pose proof (proj2 (is_rows _ HS _ _ E2) _ M2 C2) as L2.
  unfold record_key in *. cbn in *. rewrite Et in L1. split.
  - intros Ec. rewrite Ec in L1. by pose proof (is_once _ HS _ _ _ L1 L2 eq_refl) as [= ? ?].
  - intros [Es Ex]. rewrite Es, Ex in L1. destruct L1 as (r1 & R1 & D1), L2 as (r2 & R2 & D2).
    rewrite R1 in R2. simplify_eq. congruence.
Qed.

(** C10: An external record is imported at most once.  Whatever import requests,
    ticks of the dispatcher, confirmations and other requests run, one after the
    other or between the steps of each other, with storage errors, lost
    acknowledgements and arbitrary answers of the other systems: two items of any
    batches of a tenant that have a contract have the same contract exactly when
    they come from the same record of the same source system. *)
Theorem imported_once x y : no_imports x → import_history x y → each_record_once y.
Proof.
  intros Hx Hy. apply sound_once. by apply (history_good _ _ Hy), no_imports_sound.
Qed.

(** ** Rounds of the dispatcher *)

Lemma claim_spec `{Oracle} now x b x' :
  imports_sound x → ClaimImportBatch now x = (Ok (Some b), x') →
  ∃ row row', im_batches x !! ib_ID b = Some row ∧ claimable_batch now row = true ∧
    im_batches x' !! ib_ID b = Some row' ∧ br_TenantID row = ib_TenantID b ∧
    ib_Epoch b = ib_Epoch (br_Payload row) + 1 ∧ ib_Epoch (br_Payload row') = ib_Epoch b.
Proof.
  intros HS E. unfold ClaimImportBatch, itransaction in E.
  destruct (claim_batch_body now (0%nat, x)) as [[a|e] [t1 x1]] eqn:Eb; [|done].
  assert (a = Some b ∧ x1 = x') as [-> ->] by (destruct o_commit as [[]|]; by simplify_eq).
  clear E. unfold claim_batch_body in Eb.
  apply ibind_ok in Eb as (rows & s & E1 & E). apply iquery_ok in E1 as [Erows ->].
  destruct rows as [|row rows]; [by itx|].
  destruct (batch_rows_elem (claimable_batch now) x row) as (id & Er & Hc).
  { rewrite <- Erows. by left. }
  apply ibind_ok in E as (b1 & [t2 x2] & E1 & E). itx.
  destruct (is_rows _ HS _ _ Er) as [Eid HL].
  eapply save_good in E1 as (_ & -> & row' & Er' & Et & Ep & _);
    [|done|done|repeat split; cbn; lia|done].
  cbn. rewrite Eid in *. exists row, row'. repeat split; try done. by rewrite Ep.
Qed.

Lemma transaction_refused `{Oracle} {A} (m : ITx A) y :
  (∀ a s, m (0%nat, y) ≠ (Ok a, s)) → ∃ e, itransaction m y = (Err e, y).
Proof.
  intros Hm. unfold itransaction. destruct (m (0%nat, y)) as [[a|e] s] eqn:E; [|by exists e].
  by destruct (Hm a s).
Qed.

(** The writes of a round that check the epoch of its claim. *)
Inductive round_write : Type :=
  | CommitDraft (revision : Z) (item : string) (c : Contract) (actor : string)
  | MarkComplete (item : string)
  | FinishRound (index : option nat) (outcome : res unit).
Definition write_of (meta : requestMeta) (o : Oracle) (b : ImportBatch) (w : round_write) (y : IDB)
    : res unit * IDB :=
  match w with
  | CommitDraft revision item c actor =>
      let '(r, y) := CommitImportDraft meta (ib_TenantID b) (ib_ID b) revision (ib_Epoch b) item c
                       actor y in (r ≫= λ _, Ok tt, y)
  | MarkComplete item =>
      UpdateImportBatch (ib_TenantID b) (ib_ID b) (mark_complete (ib_Epoch b) item) y
  | FinishRound index outcome =>
      UpdateImportBatch (ib_TenantID b) (ib_ID b) (finish_round (ib_Epoch b) index outcome) y
  end.

Lemma stale_write meta o b w y row :
  im_batches y !! ib_ID b = Some row → ib_Epoch b < ib_Epoch (br_Payload row) →
  ∃ e, write_of meta o b w y = (Err e, y).
Proof.
  intros Er Hlt.
  assert (T : ∀ tenant missing x b' s', take_batch tenant (ib_ID b) missing (x, y) = (Ok b', s') →
            b' = decodeImportBatch row).
  { intros tenant missing x b' s' E. apply take_batch_ok in E as (r & Er' & _ & -> & _). congruence. }
  assert (N : (ib_Epoch (br_Payload row) =? ib_Epoch b) = false) by (apply Z.eqb_neq; lia).
  assert (U : ∀ change : ImportBatch → ITx (unit * ImportBatch),
            (∀ t a s, change (decodeImportBatch row) (t, y) ≠ (Ok a, s)) →
            ∃ e, UpdateImportBatch (ib_TenantID b) (ib_ID b) change y = (Err e, y)).
  { intros change Hc. apply transaction_refused. intros a s E. unfold update_batch_body in E.
    apply ibind_ok in E as (b1 & [t1 y1] & E1 & E). pose proof (T _ _ _ _ _ E1) as ->.
    apply take_batch_ok in E1 as (_ & _ & _ & _ & [= -> ->]).
    apply ibind_ok in E as (c & s2 & E1 & E). by apply Hc in E1. }
  destruct w; cbn.
  - destruct (transaction_refused
      (commit_body meta (ib_TenantID b) (ib_ID b) revision (ib_Epoch b) item c actor) y) as [e He].
    + intros a s E. unfold commit_body in E.
      apply ibind_ok in E as (b1 & s1 & E1 & E). pose proof (T _ _ _ _ _ E1) as ->.
      apply take_batch_ok in E1 as (_ & _ & _ & _ & ->).
      apply ibind_ok in E as (now & s2 & E1 & E). apply inow_ok in E1 as [-> ->].
      apply ibind_ok in E as (u & s2 & E1 & E). apply iguard_ok in E1 as [E1 _].
      cbn in E1. by rewrite N, orb_true_r in E1.
    + exists e. unfold CommitImportDraft. by rewrite He.
  - apply U. intros t a s E. unfold mark_complete in E. itx. cbn in *. by rewrite N in *.
  - apply U. intros t a s E. unfold finish_round in E.
    apply ibind_ok in E as (u & s2 & E1 & E). apply iguard_ok in E1 as [E1 _].
    cbn in E1. by rewrite N in E1.
Qed.

(** C11: A round of an import that lost its batch is refused by the three writes
    that check the epoch of the claim.  Once the dispatcher has claimed a batch
    again, which needs the lease of the first claim to be over, creating the
    contract of an item, completing an item and ending the round under the first
    claim fail and change nothing, in every later state.  The other writes of a
    round (the outcome of the source gateway, the opportunity of a contract, the
    ledger of its project) do not check the epoch and are not covered. *)
Theorem stale_round_refused x0 x1 x2 x3 x4 y (o1 o2 o : Oracle) now1 now2 b1 b2 meta w :
  no_imports x0 → import_history x0 x1 →
  @ClaimImportBatch o1 now1 x1 = (Ok (Some b1), x2) → import_history x2 x3 →
  @ClaimImportBatch o2 now2 x3 = (Ok (Some b2), x4) → ib_ID b2 = ib_ID b1 →
  import_history x4 y →
  (∃ row, im_batches x3 !! ib_ID b1 = Some row ∧
          match br_LeaseUntil row with Some t => t < now2 | None => True end) ∧
  ∃ e, write_of meta o b1 w y = (Err e, y).
Proof.
  intros Hx Hx1 C1 Hx3 C2 Eid Hy.
  pose proof (history_good _ _ Hx1 (no_imports_sound _ Hx)) as [S1 _].
  pose proof (@claim_good o1 now1 x1 S1) as [S2 _]. rewrite C1 in S2. cbn in S2.
  pose proof (@claim_spec o1 _ _ _ _ S1 C1) as (_ & r2 & _ & _ & Er2 & _ & _ & Ep2).
  pose proof (history_good _ _ Hx3 S2) as [S3 G23].
  pose proof (@claim_good o2 now2 x3 S3) as [S4 _]. rewrite C2 in S4. cbn in S4.
  pose proof (@claim_spec o2 _ _ _ _ S3 C2) as (r3 & r4 & Er3 & Hc & Er4 & _ & Eb2 & Ep4).
  rewrite Eid in *. pose proof (history_good _ _ Hy S4) as [S5 G4y].
  destruct (gr_rows _ _ G23 _ _ Er2) as (r3' & Er3' & _ & _ & L23). rewrite Er3 in Er3'. simplify_eq.
  destruct (gr_rows _ _ G4y _ _ Er4) as (r5 & Er5 & _ & _ & L45).
  split.
  - exists r3'. split; [done|]. unfold claimable_batch in Hc. apply andb_true_iff in Hc as [_ Hc].
    destruct (br_LeaseUntil r3'); [by apply Z.ltb_lt|done].
  - eapply stale_write; [done|].
    assert (ib_Epoch (br_Payload r2) ≤ ib_Epoch (br_Payload r3')) by (destruct L23 as [->|[]]; lia).
    assert (ib_Epoch (br_Payload r4) ≤ ib_Epoch (br_Payload r5)) by (destruct L45 as [->|[]]; lia).
    lia.
Qed.

End Histories.

(** ** Changes of status *)



Section Statuses.
Context {creations : Creations} `{GoUnicode} `{Sha256} `{TzDatabase} `{Collation} `{Documents}.
Context `{ImportDigests} `{UlidText}.





Section Statements.
Context `{Oracle}.














End Statements.

End Statuses.


(** ** The submission of the scenario *)

#[local] Existing Instance willing.

Lemma run_history rs : ∀ x s, import_history x (jb_idb s) → import_history x (jb_idb (run_imports rs s)).
Proof.
  induction rs as [|r rs IH]; intros x s Hs; [done|]. apply IH. apply ih_request; [done|].
  intros n y. apply ih_none.
Qed.

Lemma imported_once_witness :
  batch_states (jb_idb executed) =
    [("1.0", "TARGETS_PENDING", [("10.2", "COMPLETE", "49.0", true)])] ∧
  each_record_once (jb_idb executed).
Proof.
  split; [vm_compute; reflexivity|].
  apply (imported_once blank_imports); [split; reflexivity|].
  unfold executed. apply run_history, ih_none.
Defined.

Definition first_round : res (option ImportBatch) * IDB :=
  @ClaimImportBatch (passing 100) ((1700000100) * Second) submitted.
Definition second_round : res (option ImportBatch) * IDB :=
  @ClaimImportBatch (passing 300) ((1700000300) * Second) first_round.2.
Definition claimed_batch (r : res (option ImportBatch)) : ImportBatch :=
  match r with Ok (Some b) => b | _ => new_batch importer "" "" 0 end.

Lemma stale_round_refused_witness :
  ib_Epoch (claimed_batch first_round.1) = 4 ∧ ib_Epoch (claimed_batch second_round.1) = 5 ∧
  ∃ e, write_of sample_meta (passing 301) (claimed_batch first_round.1) (MarkComplete "10.2")
         second_round.2 = (Err e, second_round.2).
Proof.
  split; [vm_compute; reflexivity|]. split; [vm_compute; reflexivity|].
  eapply (stale_round_refused blank_imports submitted first_round.2 first_round.2 second_round.2
            second_round.2 (passing 100) (passing 300) (passing 301) (1700000100 * Second)
            (1700000300 * Second) (claimed_batch first_round.1) (claimed_batch second_round.1)).
  - split; reflexivity.
  - unfold submitted. apply run_history, ih_none.
  - vm_compute. reflexivity.
  - apply ih_none.
  - vm_compute. reflexivity.
  - vm_compute. reflexivity.
  - apply ih_none.
Defined.
