(* ===== verification/Tables.v ===== *)
(** * Transactions over further tables

    The local catalog and the templates keep tables of their own beside those of
    [Store].  [XTx E] is the transaction monad over both: a statement on the
    tables [E], or ([in_store]) a statement on the tables of [Store], such as
    writing an audit entry.  A statement fails where the oracle says so, and
    [xtransaction] rolls everything back on an error.

    The lemmas take a successful program apart ([inv_x], [xtx]) and say what a
    transaction leaves behind ([xtransaction_cases]). *)

From S2P Require Import Prelude GoTime Store.
From S2P Require Import GoStrings Decimal BusinessClock Status NumberRule.
From S2P Require Import PaymentTerm ProjectService ImportPolicy ApprovalRule Workflow.
From S2P Require Import Outbound Numbering Repository Service.

#[local] Open Scope string_scope.
#[local] Open Scope Z_scope.
#[local] Open Scope list_scope.

Record With (E : Type) : Type := mkWith { w_store : DB; w_ext : E }.
Arguments mkWith {E}. Arguments w_store {E}. Arguments w_ext {E}.

Definition XTx (E A : Type) : Type := nat * With E → res A * (nat * With E).
#[export] Instance XTx_ret {E} : MRet (XTx E) := λ A a s, (Ok a, s).
#[export] Instance XTx_bind {E} : MBind (XTx E) := λ A B f m s,
  match m s with
  | (Ok a, s') => f a s'
  | (Err e, s') => (Err e, s')
  end.

Section Operations.
Context {E : Type}.

Definition xthrow {A} (e : goerr) : XTx E A := λ s, (Err e, s).
Definition xlift {A} (r : res A) : XTx E A := λ s, (r, s).
Definition xguard (b : bool) (e : goerr) : XTx E unit := xlift (fail_if b e).
Definition in_store {A} (m : Tx A) : XTx E A := λ '(t, w),
  let '(r, (t', d)) := m (t, w_store w) in (r, (t', mkWith d (w_ext w))).

Context `{Oracle}.

Definition xread {A} (f : E → A) : XTx E A := λ '(t, w),
  if o_fault t then (Err ErrStorage, (S t, w)) else (Ok (f (w_ext w)), (S t, w)).
Definition xwrite {A} (f : E → res (A * E)) : XTx E A := λ '(t, w),
  if o_fault t then (Err ErrStorage, (S t, w))
  else match f (w_ext w) with
       | Ok (a, e) => (Ok a, (S t, mkWith (w_store w) e))
       | Err e => (Err e, (S t, w))
       end.
Definition xnow : XTx E Time := λ '(t, w), (Ok (o_now t), (S t, w)).
Definition xnewID : XTx E string := λ '(t, w), (Ok (o_id t), (S t, w)).
(** [Take]: no row is an error. *)
Definition xtake {A} (f : E → option A) (missing : goerr) : XTx E A :=
  r ← xread f; match r with Some a => mret a | None => xthrow missing end.

Definition xtransaction {A} (m : XTx E A) (w : With E) : res A * With E :=
  match m (0%nat, w) with
  | (Ok a, (_, w')) =>
      match o_commit with
      | None => (Ok a, w')
      | Some true => (Err ErrStorage, w')
      | Some false => (Err ErrStorage, w)
      end
  | (Err e, _) => (Err e, w)
  end.
(** A read outside of a transaction. *)
Definition xquery {A} (m : XTx E A) (w : With E) : res A := (m (0%nat, w)).1.

End Operations.

(** ** Taking programs apart *)

Section Inversion.
Context {E : Type}.

Lemma xbind_ok {A B} (m : XTx E A) (f : A → XTx E B) s b s' :
  (m ≫= f) s = (Ok b, s') ↔ ∃ a s1, m s = (Ok a, s1) ∧ f a s1 = (Ok b, s').
Proof.
  unfold mbind, XTx_bind. destruct (m s) as [[a|e] s1]; split.
  - intros Eq. by exists a, s1.
  - intros (a' & s1' & Eq & Eq'). by simplify_eq.
  - intros [=].
  - by intros (a' & s1' & [=] & _).
Qed.
Lemma xret_ok {A} (a b : A) (s s' : nat * With E) : (mret a : XTx E A) s = (Ok b, s') ↔ a = b ∧ s = s'.
Proof. split; [by intros [=]|by intros [-> ->]]. Qed.
Lemma xlift_ok {A} (r : res A) b (s s' : nat * With E) : xlift r s = (Ok b, s') ↔ r = Ok b ∧ s = s'.
Proof. split; [by intros [=]|by intros [-> ->]]. Qed.
Lemma xthrow_ok {A} e (b : A) (s s' : nat * With E) : xthrow e s = (Ok b, s') ↔ False.
Proof. split; [by intros [=]|done]. Qed.
Lemma xguard_ok c e u (s s' : nat * With E) : xguard c e s = (Ok u, s') ↔ c = false ∧ s = s'.
Proof. unfold xguard. rewrite xlift_ok. destruct c, u; cbn; split; intros [Eq ->]; done. Qed.
Lemma in_store_ok {A} (m : Tx A) a (s s' : nat * With E) :
  in_store m s = (Ok a, s') →
  w_ext s'.2 = w_ext s.2 ∧ m (s.1, w_store s.2) = (Ok a, (s'.1, w_store s'.2)).
Proof.
  destruct s as [t w]. unfold in_store. cbn. destruct (m (t, w_store w)) as [r [t' d]] eqn:Eq.
  by intros [= -> <-].
Qed.

Context `{Oracle}.

Lemma xnow_ok now (s s' : nat * With E) :
  xnow s = (Ok now, s') → s'.2 = s.2 ∧ now = o_now s.1 ∧ s'.1 = S s.1.
Proof. destruct s. by intros [= <- <-]. Qed.
Lemma xnewID_ok id (s s' : nat * With E) :
  xnewID s = (Ok id, s') → s'.2 = s.2 ∧ id = o_id s.1 ∧ s'.1 = S s.1.
Proof. destruct s. by intros [= <- <-]. Qed.
Lemma xread_ok {A} (f : E → A) a (s s' : nat * With E) :
  xread f s = (Ok a, s') → s'.2 = s.2 ∧ a = f (w_ext s.2).
Proof. destruct s as [t w]. unfold xread. destruct (o_fault t); [done|]. by intros [= <- <-]. Qed.
Lemma xtake_ok {A} (f : E → option A) missing a (s s' : nat * With E) :
  xtake f missing s = (Ok a, s') → s'.2 = s.2 ∧ f (w_ext s.2) = Some a.
Proof.
  intros Eq. apply xbind_ok in Eq as (r & s1 & E1 & Eq). apply xread_ok in E1 as [<- ->].
  destruct (f _); [|done]. by apply xret_ok in Eq as [-> ->].
Qed.
Lemma xwrite_ok {A} (f : E → res (A * E)) a (s s' : nat * With E) :
  xwrite f s = (Ok a, s') →
  w_store s'.2 = w_store s.2 ∧ f (w_ext s.2) = Ok (a, w_ext s'.2).
Proof.
  destruct s as [t w]. unfold xwrite. destruct (o_fault t); [done|].
  destruct (f (w_ext w)) as [[a' e]|] eqn:Eq; [|done]. by intros [= -> <-].
Qed.

(** A transaction leaves the tables alone, or its body succeeded. *)
Lemma xtransaction_cases {A} (m : XTx E A) w r w' :
  xtransaction m w = (r, w') →
  (w' = w ∧ ∃ e, r = Err e) ∨
  ∃ a t, m (0%nat, w) = (Ok a, (t, w')) ∧ (r = Ok a ∨ r = Err ErrStorage).
Proof.
  unfold xtransaction. destruct (m (0%nat, w)) as [[a|e] [t w1]]; [|intros [= <- <-]; eauto].
  destruct o_commit as [[]|]; intros [= <- <-]; eauto 10.
Qed.
Lemma xtransaction_ok {A} (m : XTx E A) w a w' :
  xtransaction m w = (Ok a, w') → ∃ t, m (0%nat, w) = (Ok a, (t, w')).
Proof.
  intros Eq. apply xtransaction_cases in Eq as [[_ (e & [=])]|(b & t & Eq & [[= ->]|[=]])]. eauto.
Qed.

(** What the body of a transaction keeps, the transaction keeps. *)
Lemma xtransaction_inv {A} (P : With E → Prop) (m : XTx E A) w :
  (∀ a t w', m (0%nat, w) = (Ok a, (t, w')) → P w') → P w → P (xtransaction m w).2.
Proof.
  intros Hm Hw. destruct (xtransaction m w) as [r w'] eqn:Eq. cbn.
  apply xtransaction_cases in Eq as [[-> _]|(a & t & Eq & _)]; eauto.
Qed.

End Inversion.

(** Takes apart a program that succeeded. *)
Ltac inv_x H :=
  lazymatch type of H with
  | (_ ≫= _) _ = (Ok _, _) =>
      let a := fresh "a" in let s := fresh "s" in let H1 := fresh "H" in
      apply xbind_ok in H as (a & s & H1 & H); try inv_x H1; try inv_x H
  | (mret _) _ = (Ok _, _) => apply xret_ok in H as [? ?]; simplify_eq
  | xthrow _ _ = (Ok _, _) => by apply xthrow_ok in H
  | xlift _ _ = (Ok _, _) => apply xlift_ok in H as [H ?]; simplify_eq
  | xguard _ _ _ = (Ok _, _) => apply xguard_ok in H as [H ?]; simplify_eq
  | xnow _ = (Ok _, _) => apply xnow_ok in H as (H & ? & ?); simplify_eq
  | xnewID _ = (Ok _, _) => apply xnewID_ok in H as (H & ? & ?); simplify_eq
  | xread _ _ = (Ok _, _) => apply xread_ok in H as [H ?]; simplify_eq
  | xtake _ _ _ = (Ok _, _) =>
      let H1 := fresh "Hrow" in apply xtake_ok in H as [H H1]
  | xwrite _ _ = (Ok _, _) =>
      let H1 := fresh "Hwrite" in apply xwrite_ok in H as [H H1]
  | in_store _ _ = (Ok _, _) =>
      let H1 := fresh "Hstore" in apply in_store_ok in H as [H H1]
  end.
Ltac xtx := repeat match goal with H : _ = (Ok _, _) |- _ => inv_x H end.

(** * Use cases over further tables

    A use case reads the clock, asks the licence, other systems and the tables,
    step by step; between two steps other requests may change the tables
    ([rq_others]).  [Req E] is that monad over the tables [With E]. *)

Class Requests (E : Type) := {
  rq_oracle : nat → Oracle;
  rq_others : nat → With E → With E;
  rq_license : nat → LicenseAnswer
}.

Record Run (E : Type) : Type := mkRun { rn_step : nat; rn_tables : With E }.
Arguments mkRun {E}. Arguments rn_step {E}. Arguments rn_tables {E}.

Definition Req (E A : Type) : Type := Run E → res A * Run E.
#[export] Instance Req_ret {E} : MRet (Req E) := λ A a s, (Ok a, s).
#[export] Instance Req_bind {E} : MBind (Req E) := λ A B f m s,
  match m s with
  | (Ok a, s') => f a s'
  | (Err e, s') => (Err e, s')
  end.

Section Steps.
Context {E : Type} `{Requests E}.

Definition rpure {A} (r : res A) : Req E A := λ s, (r, s).
Definition rrefuse {A} (e : goerr) : Req E A := rpure (Err e).
Definition rcheck (b : bool) (e : goerr) : Req E unit := rpure (fail_if b e).
(** The next step: what the others did since the last one comes first. *)
Definition rtick : Req E nat := λ s,
  let n := rn_step s in (Ok n, mkRun (S n) (rq_others n (rn_tables s))).
(** [checkBusinessLicense]. *)
Definition rlicensed : Req E unit :=
  n ← rtick;
  match rq_license n with
  | Granted => mret tt
  | Refused => rrefuse ErrCommercialLicense
  | Cancelled => rrefuse ErrOther
  end.
Definition rread_under {A} (m : XTx E A) : Req E A := λ s, (xquery m (rn_tables s), s).
Definition rchange_under {A} (f : With E → res A * With E) : Req E A := λ s,
  ((f (rn_tables s)).1, mkRun (rn_step s) (f (rn_tables s)).2).
Definition rreads {A} (m : Oracle → XTx E A) : Req E A :=
  n ← rtick; rread_under (m (rq_oracle n)).
Definition rwrites {A} (f : Oracle → With E → res A * With E) : Req E A :=
  n ← rtick; rchange_under (f (rq_oracle n)).
(** The error of a step as a value. *)
Definition rtry {A} (m : Req E A) : Req E (res A) := λ s, let '(r, s') := m s in (Ok r, s').
Definition rclock : Req E Time := n ← rtick; mret (@o_now (rq_oracle n) 0).
Definition rfresh : Req E string := n ← rtick; mret (@o_id (rq_oracle n) 0).

(** ** Invariants of use cases *)

(** Every other request keeps the relation [R] between earlier and later tables;
    so does every step of the program. *)
Variable R : With E → With E → Prop.
Definition rkeeps {A} (m : Req E A) : Prop := ∀ s, R (rn_tables s) (rn_tables (m s).2).

Hypothesis R_refl : ∀ w, R w w.
Hypothesis R_trans : ∀ w1 w2 w3, R w1 w2 → R w2 w3 → R w1 w3.
Hypothesis R_others : ∀ n w, R w (rq_others n w).

Lemma rkeeps_pure {A} (r : res A) : rkeeps (rpure r).
Proof. intros s. apply R_refl. Qed.
Lemma rkeeps_ret {A} (a : A) : rkeeps (mret a).
Proof. intros s. apply R_refl. Qed.
Lemma rkeeps_bind {A B} (m : Req E A) (f : A → Req E B) :
  rkeeps m → (∀ a, rkeeps (f a)) → rkeeps (m ≫= f).
Proof.
  intros Hm Hf s. unfold mbind, Req_bind. specialize (Hm s). destruct (m s) as [[a|e] s1]; [|done].
  eapply R_trans; [exact Hm|apply Hf].
Qed.
Lemma rkeeps_tick : rkeeps rtick.
Proof. intros s. apply R_others. Qed.
Lemma rkeeps_licensed : rkeeps rlicensed.
Proof.
  apply rkeeps_bind; [apply rkeeps_tick|]. intros n.
  destruct (rq_license n); (apply rkeeps_ret || apply rkeeps_pure).
Qed.
Lemma rkeeps_reads {A} (m : Oracle → XTx E A) : rkeeps (rreads m).
Proof. apply rkeeps_bind; [apply rkeeps_tick|]. intros n s. apply R_refl. Qed.
Lemma rkeeps_writes {A} (f : Oracle → With E → res A * With E) :
  (∀ o w, R w (f o w).2) → rkeeps (rwrites f).
Proof.
  intros Hf. apply rkeeps_bind; [apply rkeeps_tick|]. intros n s.
  apply (Hf (rq_oracle n)).
Qed.
Lemma rkeeps_clock : rkeeps rclock.
Proof. apply rkeeps_bind; [apply rkeeps_tick|]. intros n. apply rkeeps_ret. Qed.
Lemma rkeeps_fresh : rkeeps rfresh.
Proof. apply rkeeps_bind; [apply rkeeps_tick|]. intros n. apply rkeeps_ret. Qed.

End Steps.
