(* ===== verification/Catalog.v ===== *)
(** * mysql/local_catalog.go, mysql/local_catalog_grants.go: the local catalog

    Counterparties and service categories a tenant keeps itself, and the grants
    that let others use an entry.  Rows have the primary key (tenant, id),
    categories also the unique key (tenant, code), grants are keyed by entry and
    subject.  The statements run in [XTx CatalogTables]. *)

From stdpp Require Import sorting.
From S2P Require Import Prelude GoStrings Decimal GoTime BusinessClock Status NumberRule.
From S2P Require Import PaymentTerm ProjectService ImportPolicy ApprovalRule Workflow Store.
From S2P Require Import Outbound Numbering Repository Access Like Reports Drafting Tables.
From S2P Require Import Service.

#[local] Open Scope string_scope.
#[local] Open Scope Z_scope.
#[local] Open Scope list_scope.

(** ** Rows *)

Record LocalCatalogOwner : Type := mkOwner {
  lo_TenantID : string; lo_ID : string; lo_Enabled : bool; lo_Version : Z;
  lo_OwnerIdentityID : string; lo_OwnerOrgID : string; lo_OwnerProjectID : string;
  lo_CreatedBy : string; lo_UpdatedAt : Time
}.
Record localCounterpartyRecord : Type := mkCounterpartyRow {
  pr_Owner : LocalCatalogOwner; pr_Name : string
}.
Record localCategoryRecord : Type := mkCategoryRow {
  gr_Owner : LocalCatalogOwner; gr_Code : string; gr_Name : string
}.
Record localCatalogGrantRecord : Type := mkGrantRow {
  gg_SubjectName : string; gg_Enabled : bool; gg_Version : Z; gg_UpdatedBy : string;
  gg_UpdatedAt : Time
}.
(** The primary key of a grant: tenant, kind, entry, subject type, subject. *)
Definition grantKey : Type := string * string * string * string * string.

Record CatalogTables : Type := mkCatalog {
  ct_counterparties : gmap (string * string) localCounterpartyRecord;
  ct_categories : gmap (string * string) localCategoryRecord;
  ct_grants : gmap grantKey localCatalogGrantRecord
}.
Definition with_counterparties m t := mkCatalog m (ct_categories t) (ct_grants t).
Definition with_categories m t := mkCatalog (ct_counterparties t) m (ct_grants t).
Definition with_grants m t := mkCatalog (ct_counterparties t) (ct_categories t) m.

(** ** Values *)

Record LocalCatalogTarget : Type := mkCatalogTarget {
  lt_SubjectType : string; lt_SubjectID : string; lt_Name : string
}.
Record LocalCatalogGrant : Type := mkCatalogGrant {
  ln_SubjectType : string; ln_SubjectID : string; ln_SubjectName : string; ln_Enabled : bool;
  ln_Version : Z; ln_UpdatedAt : Time
}.
Record LocalCatalogVisibility : Type := mkVisibility {
  lv_IdentityID : string; lv_OrganizationIDs : list string
}.

Definition localCounterpartyValue (row : localCounterpartyRecord) : LocalCounterparty :=
  let o := pr_Owner row in
  mkCounterparty (lo_ID o) (lo_TenantID o) (pr_Name row) (lo_Enabled o) (lo_Version o)
    (lo_OwnerIdentityID o) (lo_OwnerOrgID o) (lo_CreatedBy o) (lo_UpdatedAt o).
Definition localCategoryValue (row : localCategoryRecord) : LocalCategory :=
  let o := gr_Owner row in
  mkCategory (lo_ID o) (lo_TenantID o) (gr_Code row) (gr_Name row) (lo_Enabled o) (lo_Version o)
    (lo_OwnerIdentityID o) (lo_OwnerOrgID o) (lo_CreatedBy o) (lo_UpdatedAt o).
Definition catalogGrantValue (key : grantKey) (row : localCatalogGrantRecord) : LocalCatalogGrant :=
  mkCatalogGrant key.1.2 key.2 (gg_SubjectName row) (gg_Enabled row) (gg_Version row)
    (gg_UpdatedAt row).

(** ** Scopes *)

(** The condition on the owner's columns. *)
Definition localCatalogScope (filter : ScopeFilter) (o : LocalCatalogOwner) : bool :=
  (lo_TenantID o =s sf_TenantID filter) &&
  (if empty_str (sf_TenantID filter) then false
   else if sf_AllowAll filter then true
   else (sf_AllowSelf filter && negb (empty_str (sf_IdentityID filter)) &&
         (lo_OwnerIdentityID o =s sf_IdentityID filter)) ||
        contains (sf_OrganizationIDs filter) (lo_OwnerOrgID o) ||
        contains (sf_ProjectIDs filter) (lo_OwnerProjectID o)).

Definition newLocalCatalogOwner (filter : ScopeFilter) (actor id : string) (now : Time)
    : LocalCatalogOwner :=
  let first l := if sf_AllowSelf filter then "" else default "" (head l) in
  mkOwner (sf_TenantID filter) id true 1 (sf_IdentityID filter) (first (sf_OrganizationIDs filter))
    (first (sf_ProjectIDs filter)) actor now.
Definition owner_saved (enabled : bool) (version : Z) (now : Time) (o : LocalCatalogOwner)
    : LocalCatalogOwner :=
  mkOwner (lo_TenantID o) (lo_ID o) enabled version (lo_OwnerIdentityID o) (lo_OwnerOrgID o)
    (lo_OwnerProjectID o) (lo_CreatedBy o) now.

Definition owner_key (o : LocalCatalogOwner) : string * string := (lo_TenantID o, lo_ID o).

(** The grants that make an entry visible: enabled ones of its tenant for the
    user or one of the user's organizations. *)
Definition granted (t : CatalogTables) (kind : string) (o : LocalCatalogOwner)
    (v : LocalCatalogVisibility) : bool :=
  bool_decide (map_Exists (λ key row,
    let '(tenant, k, entry, subject, id) := key in
    tenant = lo_TenantID o ∧ k = kind ∧ entry = lo_ID o ∧ gg_Enabled row = true ∧
    ((subject = "USER" ∧ id = lv_IdentityID v) ∨
     (subject = "ORG" ∧ id ∈ lv_OrganizationIDs v))) (ct_grants t)).
Definition visibleCatalogQuery (t : CatalogTables) (tenant kind : string)
    (v : LocalCatalogVisibility) (o : LocalCatalogOwner) : bool :=
  (lo_TenantID o =s tenant) && lo_Enabled o &&
  negb (empty_str tenant || empty_str (lv_IdentityID v)) &&
  ((lo_OwnerIdentityID o =s lv_IdentityID v) || granted t kind o v).

(** ** Statements *)

Definition page_limit (limit : Z) : nat := Z.to_nat (if (limit <? 1) || (200 <? limit) then 50 else limit).

(** [name, id] and [code, id]. *)
Definition text_order (a b : string * string) : Prop :=
  String.ltb a.1 b.1 = true ∨ (a.1 = b.1 ∧ String.leb a.2 b.2 = true).
#[export] Instance text_order_dec : RelDecision text_order.
Proof. intros a b. unfold text_order. apply _. Defined.
Definition counterparty_order (a b : localCounterpartyRecord) : Prop :=
  text_order (pr_Name a, lo_ID (pr_Owner a)) (pr_Name b, lo_ID (pr_Owner b)).
#[export] Instance counterparty_order_dec : RelDecision counterparty_order.
Proof. intros a b. unfold counterparty_order. apply _. Defined.
Definition category_order (a b : localCategoryRecord) : Prop :=
  text_order (gr_Code a, lo_ID (gr_Owner a)) (gr_Code b, lo_ID (gr_Owner b)).
#[export] Instance category_order_dec : RelDecision category_order.
Proof. intros a b. unfold category_order. apply _. Defined.
Definition grant_order (a b : grantKey * localCatalogGrantRecord) : Prop :=
  text_order (a.1.1.2, a.1.2) (b.1.1.2, b.1.2).
#[export] Instance grant_order_dec : RelDecision grant_order.
Proof. intros a b. unfold grant_order. apply _. Defined.

Definition rows_where {R} (order : R → R → Prop) `{!RelDecision order} (where_ : R → bool)
    (m : gmap (string * string) R) : list R :=
  merge_sort order (filter (λ r, where_ r = true) (map snd (map_to_list m))).

(** gorm's [Save] of a row whose primary key is set: UPDATE all columns where the
    key is; when no row changed, INSERT ... ON DUPLICATE KEY UPDATE of all columns
    but those of the primary key.  MySQL takes the second part at whichever unique
    key the new row clashes with. *)
Definition save_counterparty (row : localCounterpartyRecord) (t : CatalogTables) : CatalogTables :=
  with_counterparties (<[owner_key (pr_Owner row) := row]> (ct_counterparties t)) t.

Definition same_code (row other : localCategoryRecord) : bool :=
  (lo_TenantID (gr_Owner row) =s lo_TenantID (gr_Owner other)) && (gr_Code row =s gr_Code other).
Definition keep_key (old new : LocalCatalogOwner) : LocalCatalogOwner :=
  mkOwner (lo_TenantID old) (lo_ID old) (lo_Enabled new) (lo_Version new) (lo_OwnerIdentityID new)
    (lo_OwnerOrgID new) (lo_OwnerProjectID new) (lo_CreatedBy new) (lo_UpdatedAt new).
Definition code_holder (row : localCategoryRecord) (t : CatalogTables)
    : option ((string * string) * localCategoryRecord) :=
  list_find (λ e, same_code row e.2 = true) (map_to_list (ct_categories t)) ≫= λ e, Some e.2.
Definition save_category (row : localCategoryRecord) (t : CatalogTables) : CatalogTables :=
  let key := owner_key (gr_Owner row) in
  match ct_categories t !! key with
  | Some _ => with_categories (<[key := row]> (ct_categories t)) t
  | None =>
      match code_holder row t with
      | None => with_categories (<[key := row]> (ct_categories t)) t
      | Some (k, old) =>
          with_categories
            (<[k := mkCategoryRow (keep_key (gr_Owner old) (gr_Owner row)) (gr_Code row)
                      (gr_Name row)]> (ct_categories t)) t
      end
  end.

Section Repository.
Context `{Oracle} `{CharCollation}.
Notation Tx := (XTx CatalogTables).

Definition entry_audit (actor action resource id : string) (payload : auditPayload)
    : AuditOutboxEntry :=
  mkEntry actor action resource id (mkAudit "" "" "" "") payload.
Definition write_audit (tenant : string) (entry : AuditOutboxEntry) : Tx unit :=
  in_store (event ← newID; insertAuditOutbox tenant event entry).

(** *** Counterparties *)

Definition ListLocalCounterparties (filter : ScopeFilter) (keyword : string) (limit : Z)
    : Tx (list LocalCounterparty) :=
  rows ← xread (λ t, take (page_limit limit)
    (rows_where counterparty_order
       (λ r, localCatalogScope filter (pr_Owner r) &&
             (empty_str keyword || Like (pr_Name r) (literalLikePattern keyword)))
       (ct_counterparties t)));
  mret (map localCounterpartyValue rows).

Definition find_counterparty (filter : ScopeFilter) (id : string) (t : CatalogTables)
    : option localCounterpartyRecord :=
  match ct_counterparties t !! (sf_TenantID filter, id) with
  | Some row => if localCatalogScope filter (pr_Owner row) then Some row else None
  | None => None
  end.
Definition GetLocalCounterparty (filter : ScopeFilter) (id : string) : Tx LocalCounterparty :=
  row ← xtake (find_counterparty filter id) ErrNotFound;
  mret (localCounterpartyValue row).

(** The owner's columns of the row to save: a new one, or the one of the entry
    at the version the caller read. *)
Definition saved_owner {R} (find : CatalogTables → option R) (owner : R → LocalCatalogOwner)
    (filter : ScopeFilter) (id : string) (expected : Z) (actor : string)
    : Tx (option R * LocalCatalogOwner) :=
  if empty_str id then
    xguard (negb (expected =? 0)) ErrVersionConflict;;
    fresh ← xnewID;
    now ← xnow;
    mret (None, newLocalCatalogOwner filter actor fresh now)
  else
    row ← xtake find ErrNotFound;
    xguard ((expected =? 0) || negb (lo_Version (owner row) =? expected)) ErrVersionConflict;;
    mret (Some row, owner_saved (lo_Enabled (owner row)) (lo_Version (owner row) + 1)
                      (lo_UpdatedAt (owner row)) (owner row)).

Definition save_counterparty_body (filter : ScopeFilter) (value : LocalCounterparty) (expected : Z)
    (actor : string) : Tx LocalCounterparty :=
  r ← saved_owner (find_counterparty filter (lp_ID value)) pr_Owner filter (lp_ID value) expected
        actor;
  now ← xnow;
  let row := mkCounterpartyRow (owner_saved (lp_Enabled value) (lo_Version r.2) now r.2)
               (lp_Name value) in
  xwrite (λ t, Ok (tt, save_counterparty row t));;
  write_audit (sf_TenantID filter)
    (entry_audit actor "CONTRACT_MANAGEMENT:LOCAL_COUNTERPARTY_SAVE" "local_counterparty"
       (lo_ID r.2) PNothing);;
  mret (localCounterpartyValue row).
Definition SaveLocalCounterparty (filter : ScopeFilter) (value : LocalCounterparty) (expected : Z)
    (actor : string) (w : With CatalogTables) : res LocalCounterparty * With CatalogTables :=
  if empty_str (sf_TenantID filter) || empty_str actor then (Err ErrNotFound, w)
  else xtransaction (save_counterparty_body filter value expected actor) w.

(** *** Categories *)

Definition category_matches (keyword : string) (r : localCategoryRecord) : bool :=
  empty_str keyword || Like (gr_Name r) (literalLikePattern keyword) ||
  Like (gr_Code r) (literalLikePattern keyword).
Definition ListLocalCategories (filter : ScopeFilter) (keyword : string) (limit : Z)
    : Tx (list LocalCategory) :=
  rows ← xread (λ t, take (page_limit limit)
    (rows_where category_order
       (λ r, localCatalogScope filter (gr_Owner r) && category_matches keyword r)
       (ct_categories t)));
  mret (map localCategoryValue rows).

Definition find_category (filter : ScopeFilter) (id : string) (t : CatalogTables)
    : option localCategoryRecord :=
  match ct_categories t !! (sf_TenantID filter, id) with
  | Some row => if localCatalogScope filter (gr_Owner row) then Some row else None
  | None => None
  end.
Definition GetLocalCategory (filter : ScopeFilter) (id : string) : Tx LocalCategory :=
  row ← xtake (find_category filter id) ErrNotFound;
  mret (localCategoryValue row).

Definition save_category_body (filter : ScopeFilter) (value : LocalCategory) (expected : Z)
    (actor : string) : Tx LocalCategory :=
  r ← saved_owner (find_category filter (ly_ID value)) gr_Owner filter (ly_ID value) expected actor;
  let code := match r.1 with Some old => gr_Code old | None => ly_Code value end in
  xguard (negb (code =s ly_Code value)) ErrStateConflict;;
  now ← xnow;
  let row := mkCategoryRow (owner_saved (ly_Enabled value) (lo_Version r.2) now r.2) code
               (ly_Name value) in
  xwrite (λ t, Ok (tt, save_category row t));;
  write_audit (sf_TenantID filter)
    (entry_audit actor "CONTRACT_MANAGEMENT:LOCAL_CATEGORY_SAVE" "local_category" (lo_ID r.2)
       PNothing);;
  mret (localCategoryValue row).
Definition SaveLocalCategory (filter : ScopeFilter) (value : LocalCategory) (expected : Z)
    (actor : string) (w : With CatalogTables) : res LocalCategory * With CatalogTables :=
  if empty_str (sf_TenantID filter) || empty_str actor then (Err ErrNotFound, w)
  else xtransaction (save_category_body filter value expected actor) w.

(** *** Grants *)

Definition catalog_kind (kind : string) : bool := (kind =s "counterparties") || (kind =s "categories").
Definition managedCatalogEntry (filter : ScopeFilter) (kind id : string) : Tx unit :=
  xguard (negb (catalog_kind kind)) ErrValidation;;
  found ← xread (λ t,
    if kind =s "categories" then bool_decide (is_Some (find_category filter id t))
    else bool_decide (is_Some (find_counterparty filter id t)));
  xguard (negb found) ErrNotFound.

Definition ListLocalCatalogGrants (filter : ScopeFilter) (kind id : string)
    : Tx (list LocalCatalogGrant) :=
  managedCatalogEntry filter kind id;;
  rows ← xread (λ t, merge_sort grant_order
    (base.filter (λ e, (e.1.1.1.1.1 =s sf_TenantID filter) && (e.1.1.1.1.2 =s kind) &&
                       (e.1.1.1.2 =s id) = true) (map_to_list (ct_grants t))));
  mret (map (λ e, catalogGrantValue e.1 e.2) rows).

Definition grant_subject (subject : string) : bool := (subject =s "USER") || (subject =s "ORG").
(** The row to write: a new one, or the next version of the one that is there. *)
Definition next_grant (found : option localCatalogGrantRecord) (expected : Z) (enabled : bool)
    : Tx localCatalogGrantRecord :=
  match found with
  | None =>
      xguard (negb (expected =? 0) || negb enabled) ErrVersionConflict;;
      mret (mkGrantRow "" false 1 "" zero_time)
  | Some row =>
      xguard (negb (gg_Version row =? expected) || (expected =? 0)) ErrVersionConflict;;
      mret (mkGrantRow (gg_SubjectName row) (gg_Enabled row) (gg_Version row + 1)
              (gg_UpdatedBy row) (gg_UpdatedAt row))
  end.
Definition save_grant_body (filter : ScopeFilter) (kind id : string) (value : LocalCatalogGrant)
    (expected : Z) (actor : string) : Tx LocalCatalogGrant :=
  managedCatalogEntry filter kind id;;
  let key : grantKey := (sf_TenantID filter, kind, id, ln_SubjectType value, ln_SubjectID value) in
  found ← xread (λ t, ct_grants t !! key);
  old ← next_grant found expected (ln_Enabled value);
  now ← xnow;
  let row := mkGrantRow (if ln_Enabled value then ln_SubjectName value else gg_SubjectName old)
               (ln_Enabled value) (gg_Version old) actor now in
  xwrite (λ t, Ok (tt, with_grants (<[key := row]> (ct_grants t)) t));;
  write_audit (sf_TenantID filter)
    (entry_audit actor "CONTRACT_MANAGEMENT:LOCAL_CATALOG_GRANT" "local_catalog_grant" id
       (PCatalogGrant kind id (ln_SubjectType value) (ln_SubjectID value) (gg_Enabled row) expected
          (gg_Version row)));;
  mret (catalogGrantValue key row).
Definition SaveLocalCatalogGrant (filter : ScopeFilter) (kind id : string)
    (value : LocalCatalogGrant) (expected : Z) (actor : string) (w : With CatalogTables)
    : res LocalCatalogGrant * With CatalogTables :=
  if empty_str (sf_TenantID filter) || empty_str actor || negb (grant_subject (ln_SubjectType value)) ||
     empty_str (ln_SubjectID value)
  then (Err ErrValidation, w)
  else xtransaction (save_grant_body filter kind id value expected actor) w.

(** *** What others see *)

Definition ListVisibleLocalCounterparties (tenant : string) (v : LocalCatalogVisibility)
    (keyword : string) (limit : Z) : Tx (list LocalCounterparty) :=
  rows ← xread (λ t, take (page_limit limit)
    (rows_where counterparty_order
       (λ r, visibleCatalogQuery t tenant "counterparties" v (pr_Owner r) &&
             (empty_str keyword || Like (pr_Name r) (literalLikePattern keyword)))
       (ct_counterparties t)));
  mret (map localCounterpartyValue rows).
Definition GetVisibleLocalCounterparty (tenant : string) (v : LocalCatalogVisibility) (id : string)
    : Tx LocalCounterparty :=
  row ← xtake (λ t, match ct_counterparties t !! (tenant, id) with
                    | Some row => if visibleCatalogQuery t tenant "counterparties" v (pr_Owner row)
                                  then Some row else None
                    | None => None
                    end) ErrNotFound;
  mret (localCounterpartyValue row).
Definition ListVisibleLocalCategories (tenant : string) (v : LocalCatalogVisibility)
    (keyword : string) (limit : Z) : Tx (list LocalCategory) :=
  rows ← xread (λ t, take (page_limit limit)
    (rows_where category_order
       (λ r, visibleCatalogQuery t tenant "categories" v (gr_Owner r) && category_matches keyword r)
       (ct_categories t)));
  mret (map localCategoryValue rows).
Definition GetVisibleLocalCategory (tenant : string) (v : LocalCatalogVisibility) (id : string)
    : Tx LocalCategory :=
  row ← xtake (λ t, match ct_categories t !! (tenant, id) with
                    | Some row => if visibleCatalogQuery t tenant "categories" v (gr_Owner row)
                                  then Some row else None
                    | None => None
                    end) ErrNotFound;
  mret (localCategoryValue row).

End Repository.

(** * application/local_catalog.go, local_catalog_grants.go,
      platform/local_catalog_directory.go: the use cases of the local catalog

    The checks a request passes before it reaches the tables of [Catalog], the
    directory of people a grant may name, and the entries a draft may refer to.
    The directory's HTTP answers are values of the environment.  The repository
    is the one of [Catalog], which also serves grants and visible entries. *)

(** ** The directory of people *)

Record catalogDirectoryUser : Type := mkDirectoryUser {
  du_ID : string; du_Name : string; du_Organizations : list (string * string)
}.
(** What the directory answered: nothing (no token or no connection), or a status
    and a body; a body that does not decode is [None], a missing [data] or [items]
    is [Some None] and [None]. *)
Record DirectoryReply : Type := mkDirectoryReply {
  dy_Status : Z; dy_Body : option (option (option (list catalogDirectoryUser) * Z))
}.

Class CatalogEnvironment := {
  ce_sources : option ContractSourceOptions;
  ce_tenant : string;
  ce_sales : nat → Z → option DirectoryReply;
  ce_self : nat → string → option DirectoryReply
}.

Definition user_valid (u : catalogDirectoryUser) : bool :=
  negb (empty_str (du_ID u) || empty_str (du_Name u) || (128 <? slen (du_ID u))) &&
  forallb (λ org, negb (empty_str org.1 || empty_str org.2 || (64 <? slen org.1)))
    (du_Organizations u).

Section Directory.
Context `{CatalogEnvironment}.

Definition query (actor : Principal) (reply : option DirectoryReply)
    : res (list catalogDirectoryUser * Z) :=
  fail_if (negb (p_TenantID actor =s ce_tenant) || empty_str (p_TenantID actor)) ErrForbidden;;
  match reply with
  | Some (mkDirectoryReply status (Some (Some (Some items, total)))) =>
      fail_if (negb (status =? 200)) ErrPersonnelDirectoryUnavailable;;
      fail_if (total <? Z.of_nat (length items)) ErrPersonnelDirectoryUnavailable;;
      fail_if (negb (forallb user_valid items)) ErrPersonnelDirectoryUnavailable;;
      Ok (items, total)
  | _ => Err ErrPersonnelDirectoryUnavailable
  end.

(** The candidates by type and identifier: a later entry replaces an earlier one. *)
Definition add_user (values : gmap string LocalCatalogTarget) (u : catalogDirectoryUser)
    : gmap string LocalCatalogTarget :=
  foldl (λ m org, <[("ORG:" ++ org.1)%string := mkCatalogTarget "ORG" org.1 org.2]> m)
    (<[("USER:" ++ du_ID u)%string := mkCatalogTarget "USER" (du_ID u) (du_Name u)]> values)
    (du_Organizations u).
Definition target_text (t : LocalCatalogTarget) : string :=
  (lt_SubjectType t ++ lt_Name t ++ lt_SubjectID t)%string.
Definition target_order (a b : LocalCatalogTarget) : Prop :=
  String.leb (target_text a) (target_text b) = true.
#[export] Instance target_order_dec : RelDecision target_order.
Proof. intros a b. unfold target_order. apply _. Defined.

(** The pages from [page] on, at most [fuel] of them. *)
Fixpoint target_pages (actor : Principal) (reply : Z → option DirectoryReply) (fuel : nat) (page : Z)
    (values : gmap string LocalCatalogTarget) : res (list LocalCatalogTarget) :=
  match fuel with
  | O => Err ErrPersonnelDirectoryUnavailable
  | S fuel =>
      answer ← query actor (reply page);
      let values := foldl add_user values answer.1 in
      if answer.2 <=? page * 50
      then Ok (merge_sort target_order (map snd (map_to_list values)))
      else if is_empty answer.1 then Err ErrPersonnelDirectoryUnavailable
      else target_pages actor reply fuel (page + 1) values
  end.
Definition ListCatalogTargets (actor : Principal) (n : nat) : res (list LocalCatalogTarget) :=
  target_pages actor (ce_sales n) 100 1 ∅.

Definition CurrentCatalogOrganizations (actor : Principal) (n : nat) : res (list string) :=
  fail_if (empty_str (p_IdentityID actor)) ErrForbidden;;
  answer ← query actor (ce_self n (p_IdentityID actor));
  match answer.1 with
  | [u] =>
      fail_if (negb (du_ID u =s p_IdentityID actor)) ErrPersonnelDirectoryUnavailable;;
      Ok (map fst (du_Organizations u))
  | _ => Err ErrPersonnelDirectoryUnavailable
  end.

End Directory.

(** ** Use cases *)

Section Cases.
Context `{CatalogEnvironment} `{!Requests CatalogTables} `{CharCollation}.
Notation Req := (Req CatalogTables).

Definition localCatalogReadScope (actor : Principal) : res ScopeFilter :=
  match contractScope actor "contract.catalog.manage", contractScope actor "contract.create",
        contractScope actor "contract.edit" with
  | Some filter, _, _ | None, Some filter, _ | None, None, Some filter => Ok filter
  | None, None, None => Err ErrForbidden
  end.
Definition localCatalogStore : res unit :=
  match ce_sources with
  | Some o => fail_if (negb (so_Catalog o)) ErrLocalCatalogUnavailable
  | None => Err ErrLocalCatalogUnavailable
  end.
Definition manages (actor : Principal) : bool :=
  bool_decide (is_Some (Scope actor "contract.catalog.manage")).

(** Without the cache of [prepareContractReferences]. *)
Definition localCatalogVisibility (actor : Principal) : Req LocalCatalogVisibility :=
  rcheck (empty_str (p_TenantID actor) || empty_str (p_IdentityID actor)) ErrForbidden;;
  if match ce_sources with Some o => so_Targets o | None => false end then
    n ← rtick;
    orgs ← rpure (CurrentCatalogOrganizations actor n);
    mret (mkVisibility (p_IdentityID actor) orgs)
  else mret (mkVisibility (p_IdentityID actor) []).

(** What lists share: a trimmed keyword of at most 100 characters. *)
Definition list_request (actor : Principal) (keyword : string) : res (ScopeFilter * string) :=
  filter ← localCatalogReadScope actor;
  localCatalogStore;;
  fail_if (100 <? rune_count (TrimSpace keyword)) ErrValidation;;
  Ok (filter, TrimSpace keyword).

Definition ListLocalCounterpartiesView (actor : Principal) (keyword : string) (limit : Z)
    : Req (list LocalCounterparty) :=
  q ← rpure (list_request actor keyword);
  if manages actor then rreads (λ o, @ListLocalCounterparties o _ q.1 q.2 limit)
  else
    visible ← localCatalogVisibility actor;
    rreads (λ o, @ListVisibleLocalCounterparties o _ (sf_TenantID q.1) visible q.2 limit).
Definition ListLocalCategoriesView (actor : Principal) (keyword : string) (limit : Z)
    : Req (list LocalCategory) :=
  q ← rpure (list_request actor keyword);
  if manages actor then rreads (λ o, @ListLocalCategories o _ q.1 q.2 limit)
  else
    visible ← localCatalogVisibility actor;
    rreads (λ o, @ListVisibleLocalCategories o _ (sf_TenantID q.1) visible q.2 limit).

(** The scope of a manager with a complete identity. *)
Definition manager (actor : Principal) : res ScopeFilter :=
  match Scope actor "contract.catalog.manage" with
  | Some filter =>
      fail_if (empty_str (p_TenantID actor) || empty_str (p_UserID actor) ||
               empty_str (p_IdentityID actor)) ErrForbidden;;
      Ok filter
  | None => Err ErrForbidden
  end.

Definition set_party_name (name : string) (v : LocalCounterparty) : LocalCounterparty :=
  mkCounterparty (lp_ID v) (lp_TenantID v) name (lp_Enabled v) (lp_Version v)
    (lp_OwnerIdentityID v) (lp_OwnerOrgID v) (lp_CreatedBy v) (lp_UpdatedAt v).
Definition SaveLocalCounterpartyView (actor : Principal) (value : LocalCounterparty) (expected : Z)
    : Req LocalCounterparty :=
  rlicensed;;
  filter ← rpure (manager actor);
  let name := TrimSpace (lp_Name value) in
  rcheck (empty_str name || (255 <? rune_count name)) ErrValidation;;
  rpure localCatalogStore;;
  rwrites (λ o, @SaveLocalCounterparty o filter (set_party_name name value) expected
                  (p_UserID actor)).

(** [^[A-Z0-9][A-Z0-9_.-]{0,63}$]. *)
Definition code_start (c : byte) : bool :=
  ((65 <=? code c) && (code c <=? 90)) || ((48 <=? code c) && (code c <=? 57)).
Definition code_char (c : byte) : bool :=
  code_start c || (code c =? 95) || (code c =? 46) || (code c =? 45).
Definition localCategoryCode (s : string) : bool :=
  match bytes s with
  | [] => false
  | c :: rest => code_start c && forallb code_char rest && (length rest <=? 63)%nat
  end.

Definition set_category_texts (code name : string) (v : LocalCategory) : LocalCategory :=
  mkCategory (ly_ID v) (ly_TenantID v) code name (ly_Enabled v) (ly_Version v)
    (ly_OwnerIdentityID v) (ly_OwnerOrgID v) (ly_CreatedBy v) (ly_UpdatedAt v).
Definition SaveLocalCategoryView (actor : Principal) (value : LocalCategory) (expected : Z)
    : Req LocalCategory :=
  rlicensed;;
  filter ← rpure (manager actor);
  let code := TrimSpace (ly_Code value) in
  let name := TrimSpace (ly_Name value) in
  rcheck (negb (localCategoryCode code) || empty_str name || (120 <? rune_count name))
    ErrValidation;;
  rpure localCatalogStore;;
  rwrites (λ o, @SaveLocalCategory o filter (set_category_texts code name value) expected
                  (p_UserID actor)).

Definition catalogGrantManager (actor : Principal) (kind id : string) : res ScopeFilter :=
  filter ← manager actor;
  fail_if (negb (catalog_kind kind) || empty_str id || (128 <? slen id)) ErrValidation;;
  localCatalogStore;;
  Ok filter.

Definition ListLocalCatalogTargets (actor : Principal) : Req (list LocalCatalogTarget) :=
  rcheck (negb (manages actor) || empty_str (p_TenantID actor)) ErrForbidden;;
  rcheck (negb match ce_sources with Some o => so_Targets o | None => false end)
    ErrPersonnelDirectoryUnavailable;;
  n ← rtick;
  rpure (ListCatalogTargets actor n).

Definition ListLocalCatalogGrantsView (actor : Principal) (kind id : string)
    : Req (list LocalCatalogGrant) :=
  filter ← rpure (catalogGrantManager actor kind id);
  rreads (λ o, @ListLocalCatalogGrants o filter kind id).

Record LocalCatalogGrantInput : Type := mkGrantInput {
  gi_SubjectType : string; gi_SubjectID : string; gi_Enabled : bool; gi_ExpectedVersion : Z
}.
(** The name of the first candidate that is the subject. *)
Definition subject_name (targets : list LocalCatalogTarget) (type id : string) : string :=
  match list_find (λ t, lt_SubjectType t = type ∧ lt_SubjectID t = id) targets with
  | Some (_, t) => lt_Name t
  | None => ""
  end.
Definition grant_name (actor : Principal) (in_ : LocalCatalogGrantInput) (subject : string)
    : Req string :=
  if gi_Enabled in_ then
    targets ← ListLocalCatalogTargets actor;
    let name := subject_name targets (gi_SubjectType in_) subject in
    rcheck (empty_str name) ErrLocalReferenceInvalid;;
    mret name
  else mret "".
Definition SaveLocalCatalogGrantView (actor : Principal) (kind id : string)
    (in_ : LocalCatalogGrantInput) : Req LocalCatalogGrant :=
  rlicensed;;
  filter ← rpure (catalogGrantManager actor kind id);
  let subject := TrimSpace (gi_SubjectID in_) in
  rcheck (negb (grant_subject (gi_SubjectType in_)) || empty_str subject || (128 <? slen subject) ||
          (negb (gi_Enabled in_) && (gi_ExpectedVersion in_ =? 0))) ErrValidation;;
  name ← grant_name actor in_ subject;
  rwrites (λ o, @SaveLocalCatalogGrant o filter kind id
    (mkCatalogGrant (gi_SubjectType in_) subject name (gi_Enabled in_) 0 zero_time)
    (gi_ExpectedVersion in_) (p_UserID actor)).

(** ** References of a draft *)

(** An entry as a manager sees it, or as the [visible] grants show it; the
    visibility was read once for the whole draft. *)
Definition localCounterpartyReference (actor : Principal) (filter : ScopeFilter)
    (visible : LocalCatalogVisibility) (id : string) : Req LocalCounterparty :=
  match Scope actor "contract.catalog.manage" with
  | Some manage => rreads (λ o, @GetLocalCounterparty o manage id)
  | None => rreads (λ o, @GetVisibleLocalCounterparty o (sf_TenantID filter) visible id)
  end.
Definition localCategoryReference (actor : Principal) (filter : ScopeFilter)
    (visible : LocalCatalogVisibility) (id : string) : Req LocalCategory :=
  match Scope actor "contract.catalog.manage" with
  | Some manage => rreads (λ o, @GetLocalCategory o manage id)
  | None => rreads (λ o, @GetVisibleLocalCategory o (sf_TenantID filter) visible id)
  end.

End Cases.
