(* ===== verification/CatalogSafety.v ===== *)
(** * The local catalog: what its operations guarantee

    What a save leaves behind ([counterparty_saved], [category_saved],
    [grant_saved]), the invariant of the tables and their history, the entries a
    caller sees, and what a draft that names an entry can rely on. *)

From stdpp Require Import sorting.
From S2P Require Import Prelude GoStrings Decimal GoTime BusinessClock Status NumberRule.
From S2P Require Import PaymentTerm ProjectService ImportPolicy ApprovalRule Workflow Store.
From S2P Require Import Outbound Numbering Repository Access Like Reports Drafting Service.
From S2P Require Import Tables Catalog.
From S2P Require Import Scenario.

#[local] Open Scope string_scope.
#[local] Open Scope Z_scope.
#[local] Open Scope list_scope.

(** ** One transaction *)

(** The owner's columns of a saved entry: a first version with a new identifier,
    or the next version of the entry that was read. *)
Definition owner_step `{Oracle} {R} (owner : R → LocalCatalogOwner) (old : option R) (filter : ScopeFilter)
    (id : string) (expected : Z) (actor : string) (enabled : bool) (o : LocalCatalogOwner) : Prop :=
  match old with
  | None =>
      id = "" ∧ expected = 0 ∧
      ∃ k t now, o = owner_saved enabled 1 now (newLocalCatalogOwner filter actor (o_id k) t)
  | Some row =>
      id ≠ "" ∧ expected ≠ 0 ∧ lo_Version (owner row) = expected ∧
      ∃ now, o = owner_saved enabled (expected + 1) now (owner row)
  end.

Lemma saved_owner_ok `{Oracle} {R} (find : CatalogTables → option R) owner filter id expected actor
    (s s' : nat * With CatalogTables) r :
  saved_owner find owner filter id expected actor s = (Ok r, s') →
  s'.2 = s.2 ∧ (∀ row, r.1 = Some row → find (w_ext s.2) = Some row) ∧
  ∀ enabled now, owner_step owner r.1 filter id expected actor enabled
                   (owner_saved enabled (lo_Version r.2) now r.2).
Proof.
  unfold saved_owner. destruct (empty_str id) eqn:Ei; intros Eq; xtx; bool_cases.
  - apply streq_true in Ei. split_and!; [congruence|done|]. intros enabled now. cbn.
    split_and!; [done|lia|]. by eexists _, _, _.
  - apply streq_false in Ei. cbn. split_and!; [congruence|intros row [= <-]; congruence|].
    intros enabled now.
    split_and!; [done|lia|lia|]. eexists. unfold owner_saved. cbn. f_equal. lia.
Qed.

(** A counterparty that was saved: the rest of the catalog is as it was. *)
Definition counterparty_step `{Oracle} (filter : ScopeFilter) (value : LocalCounterparty) (expected : Z)
    (actor : string) (t : CatalogTables) (row : localCounterpartyRecord) (t' : CatalogTables) : Prop :=
  pr_Name row = lp_Name value ∧ t' = save_counterparty row t ∧
  ∃ old, (∀ r, old = Some r → find_counterparty filter (lp_ID value) t = Some r) ∧
         owner_step pr_Owner old filter (lp_ID value) expected actor (lp_Enabled value) (pr_Owner row).
Lemma save_counterparty_ok `{Oracle} filter value expected actor s s' v :
  save_counterparty_body filter value expected actor s = (Ok v, s') →
  ∃ row, v = localCounterpartyValue row ∧
         counterparty_step filter value expected actor (w_ext s.2) row (w_ext s'.2).
Proof.
  unfold save_counterparty_body, write_audit. intros Eq. xtx.
  match goal with H : saved_owner _ _ _ _ _ _ _ = _ |- _ =>
    apply saved_owner_ok in H as (Es & Hf & Ho) end.
  simplify_eq. eexists. split; [done|]. split_and!; [done|congruence|].
  eexists. split; [|apply Ho]. done.
Qed.

Definition category_step `{Oracle} (filter : ScopeFilter) (value : LocalCategory) (expected : Z)
    (actor : string) (t : CatalogTables) (row : localCategoryRecord) (t' : CatalogTables) : Prop :=
  gr_Name row = ly_Name value ∧ gr_Code row = ly_Code value ∧ t' = save_category row t ∧
  ∃ old, (∀ r, old = Some r → find_category filter (ly_ID value) t = Some r ∧ gr_Code r = gr_Code row) ∧
         owner_step gr_Owner old filter (ly_ID value) expected actor (ly_Enabled value) (gr_Owner row).
Lemma save_category_ok `{Oracle} filter value expected actor s s' v :
  save_category_body filter value expected actor s = (Ok v, s') →
  ∃ row, v = localCategoryValue row ∧
         category_step filter value expected actor (w_ext s.2) row (w_ext s'.2).
Proof.
  unfold save_category_body, write_audit. intros Eq. xtx.
  match goal with H : saved_owner _ _ _ _ _ _ _ = _ |- _ =>
    apply saved_owner_ok in H as (Es & Hf & Ho) end.
  bool_hyps. match goal with H : (_ =s _) = true |- _ => apply streq_true in H as Hc end.
  simplify_eq. eexists. split; [done|]. split_and!; [done|done|congruence|].
  eexists. split; [|apply Ho]. intros r Er. rewrite Er in *. cbn. split; [by apply Hf|done].
Qed.

Definition grant_key (filter : ScopeFilter) (kind id : string) (value : LocalCatalogGrant) : grantKey :=
  (sf_TenantID filter, kind, id, ln_SubjectType value, ln_SubjectID value).
Definition managed (filter : ScopeFilter) (kind id : string) (t : CatalogTables) : Prop :=
  (kind = "categories" ∧ is_Some (find_category filter id t)) ∨
  (kind = "counterparties" ∧ is_Some (find_counterparty filter id t)).
Definition grant_step (filter : ScopeFilter) (kind id : string) (value : LocalCatalogGrant)
    (expected : Z) (t t' : CatalogTables) : Prop :=
  managed filter kind id t ∧
  ∃ row, t' = with_grants (<[grant_key filter kind id value := row]> (ct_grants t)) t ∧
    gg_Enabled row = ln_Enabled value ∧ gg_Version row = expected + 1 ∧
    match ct_grants t !! grant_key filter kind id value with
    | None => expected = 0 ∧ ln_Enabled value = true
    | Some old => gg_Version old = expected ∧ expected ≠ 0
    end.
Lemma managed_entry_ok `{Oracle} filter kind id u (s s' : nat * With CatalogTables) :
  managedCatalogEntry filter kind id s = (Ok u, s') → s'.2 = s.2 ∧ managed filter kind id (w_ext s.2).
Proof.
  unfold managedCatalogEntry, catalog_kind. intros Eq. xtx. split; [congruence|].
  destruct (kind =s "categories") eqn:Ek; bool_hyps; [left; by apply streq_true in Ek|right].
  bool_cases; [|congruence]. split; [by apply streq_true|done].
Qed.
Lemma next_grant_ok `{Oracle} found expected enabled row (s s' : nat * With CatalogTables) :
  next_grant found expected enabled s = (Ok row, s') →
  s'.2 = s.2 ∧ gg_Version row = expected + 1 ∧
  match found with
  | None => expected = 0 ∧ enabled = true
  | Some old => gg_Version old = expected ∧ expected ≠ 0
  end.
Proof. destruct found; intros Eq; unfold next_grant in Eq; xtx; bool_cases; cbn; auto with lia. Qed.
Lemma save_grant_ok `{Oracle} filter kind id value expected actor s s' v :
  save_grant_body filter kind id value expected actor s = (Ok v, s') →
  grant_step filter kind id value expected (w_ext s.2) (w_ext s'.2) ∧ ln_Version v = expected + 1.
Proof.
  unfold save_grant_body, write_audit. intros Eq. xtx.
  match goal with H : managedCatalogEntry _ _ _ _ = _ |- _ =>
    apply managed_entry_ok in H as [E1 Hm] end.
  match goal with H : next_grant _ _ _ _ = _ |- _ => apply next_grant_ok in H as (E2 & Ev & Hf) end.
  split; [|done]. rewrite E1 in *. split; [done|]. assert (s3.2 = s.2) as Es by congruence.
  rewrite Es in *. unfold grant_key. eexists. split; [etrans; [eassumption|]; symmetry; eassumption|].
  by split_and!.
Qed.

(** A transaction left everything as it was, or its step was done; an error after
    the step means that the acknowledgement of the commit was lost. *)
Section Transactions.
Context `{Oracle}.

Lemma save_counterparty_cases filter value expected actor w r w' :
  SaveLocalCounterparty filter value expected actor w = (r, w') →
  (w' = w ∧ ∃ e, r = Err e) ∨
  ∃ row, counterparty_step filter value expected actor (w_ext w) row (w_ext w') ∧
         (r = Ok (localCounterpartyValue row) ∨ r = Err ErrStorage).
Proof.
  unfold SaveLocalCounterparty. destruct (_ || _); [intros [= <- <-]; eauto|]. intros Eq.
  apply xtransaction_cases in Eq as [?|(a & t & Eq & Hr)]; [by left|right].
  apply save_counterparty_ok in Eq as (row & -> & Hs). eauto.
Qed.
Lemma save_category_cases filter value expected actor w r w' :
  SaveLocalCategory filter value expected actor w = (r, w') →
  (w' = w ∧ ∃ e, r = Err e) ∨
  ∃ row, category_step filter value expected actor (w_ext w) row (w_ext w') ∧
         (r = Ok (localCategoryValue row) ∨ r = Err ErrStorage).
Proof.
  unfold SaveLocalCategory. destruct (_ || _); [intros [= <- <-]; eauto|]. intros Eq.
  apply xtransaction_cases in Eq as [?|(a & t & Eq & Hr)]; [by left|right].
  apply save_category_ok in Eq as (row & -> & Hs). eauto.
Qed.
Lemma save_grant_cases filter kind id value expected actor w r w' :
  SaveLocalCatalogGrant filter kind id value expected actor w = (r, w') →
  (w' = w ∧ ∃ e, r = Err e) ∨
  grant_step filter kind id value expected (w_ext w) (w_ext w') ∧
  (r = Err ErrStorage ∨ ∃ v, r = Ok v ∧ ln_Version v = expected + 1).
Proof.
  unfold SaveLocalCatalogGrant. destruct (_ || _); [intros [= <- <-]; eauto|]. intros Eq.
  apply xtransaction_cases in Eq as [?|(a & t & Eq & Hr)]; [by left|right].
  apply save_grant_ok in Eq as [Hs Hv]. destruct Hr; eauto 6.
Qed.

End Transactions.

(** ** The tables and their history *)

Section Versions.
Context {K R : Type} `{Countable K} (version : R → Z).

(** Rows stay, and a row that changed has a higher version. *)
Definition later_version (m m' : gmap K R) : Prop :=
  ∀ k r, m !! k = Some r →
  ∃ r', m' !! k = Some r' ∧ version r ≤ version r' ∧ (version r' = version r → r' = r).
Lemma later_version_refl m : later_version m m.
Proof. intros k r Hr. exists r. by split_and!; [|lia|]. Qed.
Lemma later_version_trans m1 m2 m3 :
  later_version m1 m2 → later_version m2 m3 → later_version m1 m3.
Proof.
  intros H12 H23 k r Hr. destruct (H12 k r Hr) as (r2 & H2 & Hle & He).
  destruct (H23 k r2 H2) as (r3 & H3 & Hle' & He'). exists r3. split_and!; [done|lia|].
  intros E. rewrite He', He by lia. done.
Qed.
Lemma later_version_insert m k row :
  (∀ old, m !! k = Some old → version old < version row) → later_version m (<[k := row]> m).
Proof.
  intros Hk k' r Hr. destruct (decide (k' = k)) as [->|Hne].
  - exists row. rewrite lookup_insert_eq. specialize (Hk r Hr). split_and!; [done|lia|lia].
  - exists r. rewrite lookup_insert_ne by done. by split_and!; [|lia|].
Qed.

End Versions.

Record good_catalog (t : CatalogTables) : Prop := {
  gc_parties : ∀ k r, ct_counterparties t !! k = Some r → owner_key (pr_Owner r) = k;
  gc_categories : ∀ k r, ct_categories t !! k = Some r → owner_key (gr_Owner r) = k;
  gc_codes : ∀ k k' r r', ct_categories t !! k = Some r → ct_categories t !! k' = Some r' →
               same_code r r' = true → k = k'
}.

Definition party_version (r : localCounterpartyRecord) : Z := lo_Version (pr_Owner r).
Record catalog_later (t t' : CatalogTables) : Prop := {
  cl_parties : later_version party_version (ct_counterparties t) (ct_counterparties t');
  cl_grants : later_version gg_Version (ct_grants t) (ct_grants t')
}.
Lemma catalog_later_refl t : catalog_later t t.
Proof. split; apply later_version_refl. Qed.
Lemma catalog_later_trans t1 t2 t3 :
  catalog_later t1 t2 → catalog_later t2 t3 → catalog_later t1 t3.
Proof. intros [] []. split; eapply later_version_trans; done. Qed.

(** The identifiers an operation generates are not in use. *)
Definition unused (o : Oracle) (t : CatalogTables) : Prop :=
  ∀ tenant k, ct_counterparties t !! (tenant, @o_id o k) = None ∧
              ct_categories t !! (tenant, @o_id o k) = None.

(** A transaction on the catalog, or a change of the other tables. *)
Inductive catalog_step (w : With CatalogTables) : With CatalogTables → Prop :=
  | step_counterparty o filter value expected actor :
      unused o (w_ext w) → catalog_step w (@SaveLocalCounterparty o filter value expected actor w).2
  | step_category o filter value expected actor :
      unused o (w_ext w) → catalog_step w (@SaveLocalCategory o filter value expected actor w).2
  | step_grant o filter kind id value expected actor :
      catalog_step w (@SaveLocalCatalogGrant o filter kind id value expected actor w).2
  | step_store d : catalog_step w (mkWith d (w_ext w)).

(** *** Counterparties *)

(** The row is stored under its own key, with a higher version than what was there. *)
Lemma counterparty_step_key (o : Oracle) filter value expected actor t row t' :
  good_catalog t → unused o t →
  counterparty_step filter value expected actor t row t' →
  lo_Version (pr_Owner row) = expected + 1 ∧ lo_TenantID (pr_Owner row) = sf_TenantID filter ∧
  (lp_ID value ≠ "" → lo_ID (pr_Owner row) = lp_ID value) ∧
  ∀ old, ct_counterparties t !! owner_key (pr_Owner row) = Some old → party_version old = expected.
Proof.
  intros Hg Hu (_ & -> & old & Hf & Ho). destruct old as [old|]; cbn in Ho.
  - destruct Ho as (Hid & Hne & Hv & now & ->). specialize (Hf old eq_refl).
    unfold find_counterparty in Hf. destruct (_ !! _) as [r|] eqn:Er; [|done].
    destruct (localCatalogScope _ _); [|done]. simplify_eq.
    apply (gc_parties _ Hg) in Er as Hk. unfold owner_key in Hk. simplify_eq.
    cbn. split_and!; [done|congruence|congruence|]. unfold owner_key. cbn. intros r' Hr'.
    assert (r' = old) as -> by congruence. done.
  - destruct Ho as (Hid & -> & k & tm & now & ->). cbn. split_and!; [done|done|done|].
    unfold owner_key. cbn. intros old Hold. destruct (Hu (sf_TenantID filter) k). congruence.
Qed.
Lemma counterparty_step_later (o : Oracle) filter value expected actor t row t' :
  good_catalog t → unused o t → counterparty_step filter value expected actor t row t' →
  good_catalog t' ∧ catalog_later t t'.
Proof.
  intros Hg Hu Hs. destruct (counterparty_step_key o _ _ _ _ _ _ _ Hg Hu Hs) as (Hv & _ & _ & Ho).
  destruct Hs as (_ & -> & _). split; split; cbn; try apply Hg.
  - intros k r Hr. destruct (decide (k = owner_key (pr_Owner row))) as [->|Hne].
    + rewrite lookup_insert_eq in Hr. by simplify_eq.
    + rewrite lookup_insert_ne in Hr by done. by apply (gc_parties _ Hg).
  - apply later_version_insert. intros old Hold. rewrite (Ho old Hold).
    unfold party_version. lia.
  - apply later_version_refl.
Qed.

(** *** Categories *)

Lemma code_holder_some row t k r :
  code_holder row t = Some (k, r) → ct_categories t !! k = Some r ∧ same_code row r = true.
Proof.
  unfold code_holder. intros E. apply bind_Some in E as ([i e] & E & [= ->]).
  apply list_find_Some in E as (E & Hc & _). split; [|done].
  by apply elem_of_map_to_list, list_elem_of_lookup_2 with i.
Qed.
Lemma code_holder_none row t k r :
  code_holder row t = None → ct_categories t !! k = Some r → same_code row r = false.
Proof.
  unfold code_holder. intros E Hr. destruct (list_find _ _) eqn:El; [done|].
  apply list_find_None in El. rewrite Forall_forall in El.
  specialize (El (k, r)). apply not_true_is_false, El. by apply elem_of_map_to_list.
Qed.
Lemma same_code_spec r r' :
  same_code r r' = true ↔
  lo_TenantID (gr_Owner r) = lo_TenantID (gr_Owner r') ∧ gr_Code r = gr_Code r'.
Proof. unfold same_code. by rewrite andb_true_iff, !streq_true. Qed.

(** Writing a row under its key, when nobody else has its code, keeps the tables sound. *)
Lemma put_category_good t k row :
  good_catalog t → owner_key (gr_Owner row) = k →
  (∀ k' r, ct_categories t !! k' = Some r → same_code row r = true → k' = k) →
  good_catalog (with_categories (<[k := row]> (ct_categories t)) t).
Proof.
  intros Hg Hk Hc. assert (∀ r r', same_code r r' = same_code r' r) as Hsym.
  { intros r r'. apply eq_true_iff_eq. rewrite !same_code_spec. naive_solver. }
  split; cbn; [apply Hg| |].
  - intros k' r. rewrite lookup_insert_Some. intros [[<- <-]|[_ Hr]]; [done|by apply (gc_categories _ Hg)].
  - intros k1 k2 r1 r2. rewrite !lookup_insert_Some.
    intros [[<- <-]|[N1 H1]] [[<- <-]|[N2 H2]] E; [done| | |by eapply (gc_codes _ Hg)].
    + symmetry. by eapply Hc.
    + rewrite Hsym in E. by eapply Hc.
Qed.
(** The row that is saved is a new one, or the next version of the stored one with its code. *)
Lemma category_step_key (o : Oracle) filter value expected actor t row t' :
  good_catalog t → unused o t → category_step filter value expected actor t row t' →
  ∀ r, ct_categories t !! owner_key (gr_Owner row) = Some r → same_code row r = true.
Proof.
  intros Hg Hu (_ & _ & _ & old & Hf & Ho) r Hr. apply same_code_spec. destruct old as [old|]; cbn in Ho.
  - destruct Ho as (_ & _ & _ & now & Eo). destruct (Hf old eq_refl) as [Hfind Hcode].
    unfold find_category in Hfind. destruct (ct_categories t !! (_, ly_ID value)) as [r'|] eqn:Er; [|done].
    destruct (localCatalogScope _ _); [|done]. simplify_eq.
    apply (gc_categories _ Hg) in Er as Hk. unfold owner_key in *. rewrite Eo in *. cbn in *.
    split; congruence.
  - destruct Ho as (_ & _ & k & tm & now & Eo). rewrite Eo in Hr. unfold owner_key in Hr. cbn in Hr.
    destruct (Hu (sf_TenantID filter) k). congruence.
Qed.
Lemma category_step_later (o : Oracle) filter value expected actor t row t' :
  good_catalog t → unused o t → category_step filter value expected actor t row t' →
  good_catalog t' ∧ catalog_later t t'.
Proof.
  intros Hg Hu Hs. pose proof (category_step_key o _ _ _ _ _ _ _ Hg Hu Hs) as Hkey.
  destruct Hs as (_ & _ & -> & _). split.
  - unfold save_category. destruct (ct_categories t !! owner_key (gr_Owner row)) as [r|] eqn:Er.
    + apply put_category_good; [done|done|]. intros k' r' Hr' Hsame.
      apply (gc_codes _ Hg k' (owner_key (gr_Owner row)) r' r Hr' Er).
      specialize (Hkey r eq_refl). apply same_code_spec in Hkey, Hsame. apply same_code_spec.
      naive_solver congruence.
    + destruct (code_holder row t) as [[k r]|] eqn:Eh.
      * apply code_holder_some in Eh as [Hr Hsame]. apply same_code_spec in Hsame as [Ht Hc].
        apply put_category_good; [done|exact (gc_categories _ Hg _ _ Hr)|].
        intros k' r' Hr' Hsame'. apply (gc_codes _ Hg k' k r' r Hr' Hr).
        apply same_code_spec in Hsame' as [Ht' Hc']. cbn in *. apply same_code_spec. split; congruence.
      * apply put_category_good; [done|done|]. intros k' r' Hr' Hsame.
        pose proof (code_holder_none _ _ _ _ Eh Hr'). congruence.
  - unfold save_category.
    destruct (_ !! _); [|destruct (code_holder row t) as [[k r]|]]; split; apply later_version_refl.
Qed.

Lemma grant_step_later filter kind id value expected t t' :
  good_catalog t → grant_step filter kind id value expected t t' →
  good_catalog t' ∧ catalog_later t t'.
Proof.
  intros Hg (_ & row & -> & _ & Hv & Hold). split; [split; apply Hg|]. split; cbn; [apply later_version_refl|].
  apply later_version_insert. intros old E. rewrite E in Hold. lia.
Qed.

Lemma catalog_step_later w w' :
  good_catalog (w_ext w) → catalog_step w w' →
  good_catalog (w_ext w') ∧ catalog_later (w_ext w) (w_ext w').
Proof.
  intros Hg [o filter value expected actor Hu|o filter value expected actor Hu
            |o filter kind id value expected actor|d].
  - destruct (@SaveLocalCounterparty o filter value expected actor w) as [r w1] eqn:E.
    apply save_counterparty_cases in E as [[-> _]|(row & Hs & _)]; [eauto using catalog_later_refl|].
    by eapply counterparty_step_later.
  - destruct (@SaveLocalCategory o filter value expected actor w) as [r w1] eqn:E.
    apply save_category_cases in E as [[-> _]|(row & Hs & _)]; [eauto using catalog_later_refl|].
    by eapply category_step_later.
  - destruct (@SaveLocalCatalogGrant o filter kind id value expected actor w) as [r w1] eqn:E.
    apply save_grant_cases in E as [[-> _]|[Hs _]]; [eauto using catalog_later_refl|].
    by eapply grant_step_later.
  - eauto using catalog_later_refl.
Qed.
Lemma catalog_steps_later w w' :
  rtc catalog_step w w' → good_catalog (w_ext w) →
  good_catalog (w_ext w') ∧ catalog_later (w_ext w) (w_ext w').
Proof.
  induction 1 as [w|w1 w2 w3 Hs _ IH]; intros Hg; [eauto using catalog_later_refl|].
  destruct (catalog_step_later _ _ Hg Hs) as [Hg2 Hl]. destruct (IH Hg2) as [Hg3 Hl'].
  eauto using catalog_later_trans.
Qed.

(** * The local catalog: theorems

    Saves based on an old version are refused, revoked grants hide their entry,
    a draft only names entries its author may use, and the category that a new
    entry with its code takes over. *)

(** ** Versions *)

Lemma stored_party_version w w' key row :
  good_catalog (w_ext w) → rtc catalog_step w w' → ct_counterparties (w_ext w) !! key = Some row →
  ∃ row', ct_counterparties (w_ext w') !! key = Some row' ∧ party_version row ≤ party_version row'.
Proof.
  intros Hg Hs Hr. destruct (catalog_steps_later _ _ Hs Hg) as [_ [Hp _]].
  destruct (Hp _ _ Hr) as (row' & H' & Hv & _). eauto.
Qed.

Lemma saved_identifier (o : Oracle) filter value expected actor t row t' :
  (∀ k, @o_id o k ≠ "") → counterparty_step filter value expected actor t row t' →
  good_catalog t → lo_ID (pr_Owner row) ≠ "".
Proof.
  intros Hids (_ & _ & old & Hf & Ho) Hg. destruct old as [old|]; cbn in Ho.
  - destruct Ho as (Hne & _ & _ & now & ->). specialize (Hf old eq_refl).
    unfold find_counterparty in Hf. destruct (ct_counterparties t !! _) as [r|] eqn:Er; [|done].
    destruct (localCatalogScope _ _); [|done]. simplify_eq.
    apply (gc_parties _ Hg) in Er. unfold owner_key in Er. cbn. congruence.
  - destruct Ho as (_ & _ & k & tm & now & ->). apply Hids.
Qed.

(** An entry at a version the caller did not expect is not saved. *)
Lemma counterparty_refused `{Oracle} filter value expected actor w row :
  ct_counterparties (w_ext w) !! (sf_TenantID filter, lp_ID value) = Some row →
  lp_ID value ≠ "" → expected < party_version row →
  ∃ e, SaveLocalCounterparty filter value expected actor w = (Err e, w).
Proof.
  intros Hr Hid Hv. destruct (SaveLocalCounterparty _ _ _ _ _) as [r w'] eqn:E.
  apply save_counterparty_cases in E as [[-> [e ->]]|(row' & (_ & _ & old & Hf & Ho) & _)]; [by eexists|].
  destruct old as [old|]; cbn in Ho; [|by destruct Ho]. destruct Ho as (_ & _ & Hver & _).
  specialize (Hf old eq_refl). unfold find_counterparty in Hf. rewrite Hr in Hf.
  destruct (localCatalogScope _ _); [|done]. simplify_eq. unfold party_version in Hv. lia.
Qed.

(** C22: A counterparty is never overwritten unseen. After a save that returned a
    version, whatever is saved, granted or revoked meanwhile, a save of the same
    entry that is based on an earlier version is refused and changes nothing. *)
Theorem stale_counterparty_refused (o o' : Oracle) filter filter' value value' expected expected'
    actor actor' w v w1 w2 :
  good_catalog (w_ext w) → unused o (w_ext w) → (∀ k, @o_id o k ≠ "") →
  @SaveLocalCounterparty o filter value expected actor w = (Ok v, w1) → rtc catalog_step w1 w2 →
  sf_TenantID filter' = sf_TenantID filter → lp_ID value' = lp_ID v → expected' < lp_Version v →
  ∃ e, @SaveLocalCounterparty o' filter' value' expected' actor' w2 = (Err e, w2).
Proof.
  intros Hg Hu Hids E Hsteps Ht Hid Hlt.
  apply save_counterparty_cases in E as [[_ [e [=]]]|(row & Hs & [[= ->]|[=]])].
  destruct (counterparty_step_key o _ _ _ _ _ _ _ Hg Hu Hs) as (_ & Htn & _).
  destruct (counterparty_step_later o _ _ _ _ _ _ _ Hg Hu Hs) as [Hg1 _].
  pose proof (saved_identifier o _ _ _ _ _ _ _ Hids Hs Hg) as Hne.
  assert (ct_counterparties (w_ext w1) !! owner_key (pr_Owner row) = Some row) as Hrow.
  { destruct Hs as (_ & -> & _). apply lookup_insert_eq. }
  destruct (stored_party_version _ _ _ _ Hg1 Hsteps Hrow) as (row2 & Hrow2 & Hv2).
  eapply (@counterparty_refused o'); [|by rewrite Hid|].
  - rewrite Ht, Hid. cbn. rewrite <- Htn. exact Hrow2.
  - cbn in Hlt. unfold party_version in *. lia.
Qed.

(** ** What a caller sees *)

(** A grant names the caller, or an organization of the caller. *)
Definition covers (v : LocalCatalogVisibility) (subject id : string) : Prop :=
  (subject = "USER" ∧ id = lv_IdentityID v) ∨ (subject = "ORG" ∧ id ∈ lv_OrganizationIDs v).
(** The caller may use the entry: it is enabled, and the caller's own or granted. *)
Definition usable (t : CatalogTables) (tenant kind : string) (v : LocalCatalogVisibility)
    (o : LocalCatalogOwner) : Prop :=
  lo_TenantID o = tenant ∧ lo_Enabled o = true ∧
  (lo_OwnerIdentityID o = lv_IdentityID v ∨
   ∃ subject id row, ct_grants t !! (tenant, kind, lo_ID o, subject, id) = Some row ∧
                     gg_Enabled row = true ∧ covers v subject id).

Lemma granted_spec t kind o v :
  granted t kind o v = true ↔
  ∃ subject id row, ct_grants t !! (lo_TenantID o, kind, lo_ID o, subject, id) = Some row ∧
                    gg_Enabled row = true ∧ covers v subject id.
Proof.
  unfold granted. rewrite bool_decide_eq_true. split.
  - intros ([[[[tenant k] entry] subject] id] & row & Hr & -> & -> & -> & He & Hc). eauto 10.
  - intros (subject & id & row & Hr & He & Hc). by exists (lo_TenantID o, kind, lo_ID o, subject, id), row.
Qed.
Lemma visible_usable t tenant kind v o :
  visibleCatalogQuery t tenant kind v o = true → usable t tenant kind v o.
Proof.
  unfold visibleCatalogQuery. intros H. bool_hyps.
  match goal with H : (_ =s _) = true |- _ => apply streq_true in H as <- end.
  split_and!; [done|done|]. bool_cases.
  - left. by apply streq_true.
  - right. by apply granted_spec.
Qed.

Lemma get_visible_ok `{Oracle} tenant v id s s' c :
  GetVisibleLocalCounterparty tenant v id s = (Ok c, s') →
  ∃ row, ct_counterparties (w_ext s.2) !! (tenant, id) = Some row ∧ c = localCounterpartyValue row ∧
         usable (w_ext s.2) tenant "counterparties" v (pr_Owner row).
Proof.
  unfold GetVisibleLocalCounterparty. intros Eq. xtx.
  destruct (ct_counterparties _ !! _) as [row|] eqn:Er; [|done].
  destruct (visibleCatalogQuery _ _ _ _ _) eqn:Ev; [|done]. simplify_eq.
  eexists. split_and!; [done|done|by apply visible_usable].
Qed.





(** ** What a draft relies on *)

(** The tables a step of a request meets. *)
Definition tables_met `{Requests CatalogTables} (s : Run CatalogTables) : CatalogTables :=
  w_ext (rq_others (rn_step s) (rn_tables s)).

Lemma rreads_ok `{Requests CatalogTables} {A} (m : Oracle → XTx CatalogTables A) s a :
  (rreads m s).1 = Ok a →
  ∃ s', m (rq_oracle (rn_step s)) (0%nat, rq_others (rn_step s) (rn_tables s)) = (Ok a, s').
Proof.
  unfold rreads, rtick, rread_under, xquery, mbind, Req_bind. cbn.
  destruct (m _ _) as [r s'] eqn:E. cbn. intros ->. eauto.
Qed.

Lemma find_counterparty_some filter id t row :
  find_counterparty filter id t = Some row ↔
  ct_counterparties t !! (sf_TenantID filter, id) = Some row ∧
  localCatalogScope filter (pr_Owner row) = true.
Proof.
  unfold find_counterparty. destruct (_ !! _) as [r|]; [|by split; [|intros [[=] _]]].
  destruct (localCatalogScope filter (pr_Owner r)) eqn:E; split.
  - by intros [= <-].
  - by intros [[= <-] _].
  - done.
  - intros [[= <-] Hs]. congruence.
Qed.
Lemma get_counterparty_ok `{Oracle} filter id s s' c :
  GetLocalCounterparty filter id s = (Ok c, s') →
  ∃ row, find_counterparty filter id (w_ext s.2) = Some row ∧ c = localCounterpartyValue row.
Proof. unfold GetLocalCounterparty. intros Eq. xtx. eauto. Qed.
Lemma local_reference_ok `{CatalogEnvironment} `{!Requests CatalogTables} actor filter v id s c :
  (localCounterpartyReference actor filter v id s).1 = Ok c →
  sf_TenantID filter = p_TenantID actor →
  ∃ row, ct_counterparties (tables_met s) !! (p_TenantID actor, id) = Some row ∧
    c = localCounterpartyValue row ∧
    ((∃ manage, Scope actor "contract.catalog.manage" = Some manage ∧
                localCatalogScope manage (pr_Owner row) = true) ∨
     usable (tables_met s) (p_TenantID actor) "counterparties" v (pr_Owner row)).
Proof.
  unfold localCounterpartyReference. intros E Ht.
  destruct (Scope actor _) as [manage|] eqn:Em; apply rreads_ok in E as [s' E].
  - apply get_counterparty_ok in E as (row & Hr & ->). apply find_counterparty_some in Hr as [Hr Hs].
    apply Scope_some in Em as Em'. destruct Em' as (_ & Etn & _). rewrite Etn in Hr. eauto 10.
  - apply get_visible_ok in E as (row & Hr & -> & Hu). rewrite Ht in *. eauto 10.
Qed.

(** A draft that names a local counterparty names an entry its author may use.
    When the reference is resolved, the entry is stored in the author's tenant,
    enabled, at exactly the version the draft names, and gives the draft its
    customer's name; the author manages it, owns it, or an enabled grant covers the
    author or one of the author's organizations. *)
Theorem draft_counterparty_usable `{CatalogEnvironment} `{!Requests CatalogTables} dirs actor filter v
    s c c' external :
  dir_counterparty dirs (k_LocalCounterpartyID (k_party c)) =
    (localCounterpartyReference actor filter v (k_LocalCounterpartyID (k_party c)) s).1 →
  sf_TenantID filter = p_TenantID actor → k_CounterpartySource (k_party c) = CounterpartyLocal →
  resolveCounterpartyReference dirs actor c external = Ok c' →
  ∃ row, let t := tables_met s in
    ct_counterparties t !! (p_TenantID actor, k_LocalCounterpartyID (k_party c)) = Some row ∧
    lo_Enabled (pr_Owner row) = true ∧
    lo_Version (pr_Owner row) = k_CounterpartyVersion (k_party c) ∧
    k_CustomerName (k_party c') = pr_Name row ∧
    ((∃ manage, Scope actor "contract.catalog.manage" = Some manage ∧
                localCatalogScope manage (pr_Owner row) = true) ∨
     usable t (p_TenantID actor) "counterparties" v (pr_Owner row)).
Proof.
  intros Hdir Ht Hsrc E. unfold resolveCounterpartyReference in E. rewrite Hsrc, streq_refl in E.
  inv_ok E. match goal with H : dir_counterparty _ _ = Ok _ |- _ =>
    rewrite Hdir in H; apply local_reference_ok in H as (row & Hr & -> & Hauth) end; [|done].
  bool_hyps. exists row. by split_and!.
Qed.

(** ** A second category with the same code *)

Lemma code_holder_found row t k r :
  good_catalog t → ct_categories t !! k = Some r → same_code row r = true →
  code_holder row t = Some (k, r).
Proof.
  intros Hg Hr Hs. destruct (code_holder row t) as [[k' r']|] eqn:E.
  - apply code_holder_some in E as [Hr' Hs']. apply same_code_spec in Hs, Hs'.
    assert (k' = k) as -> by (apply (gc_codes _ Hg k' k r' r); [done|done|apply same_code_spec; naive_solver congruence]).
    congruence.
  - pose proof (code_holder_none _ _ _ _ E Hr). congruence.
Qed.

(** A new category whose code is taken replaces the one that has it. The save
    succeeds; the stored entry, whatever its owner and whether or not the caller may
    manage it, keeps its identifier and gets the new name and switch, version 1 and
    the caller as its owner; the identifier that is returned and audited belongs to
    no entry. *)
Theorem taken_category_code_replaced (o : Oracle) filter value actor w v w' k old :
  good_catalog (w_ext w) → unused o (w_ext w) →
  ct_categories (w_ext w) !! k = Some old → k.1 = sf_TenantID filter → gr_Code old = ly_Code value →
  ly_ID value = "" → @SaveLocalCategory o filter value 0 actor w = (Ok v, w') →
  ly_Version v = 1 ∧ ct_categories (w_ext w') !! (sf_TenantID filter, ly_ID v) = None ∧
  ∃ row, ct_categories (w_ext w') !! k = Some row ∧ owner_key (gr_Owner row) = k ∧
    gr_Name row = ly_Name value ∧ lo_Enabled (gr_Owner row) = ly_Enabled value ∧
    lo_Version (gr_Owner row) = 1 ∧ lo_OwnerIdentityID (gr_Owner row) = sf_IdentityID filter ∧
    lo_CreatedBy (gr_Owner row) = actor.
Proof.
  intros Hg Hu Hold Hk Hcode Hid E.
  apply save_category_cases in E as [[_ [e [=]]]|(row & (Hn & Hc & Et & prev & _ & Ho) & [[= ->]|[=]])].
  destruct prev as [prev|]; cbn in Ho; [by destruct Ho|].
  destruct Ho as (_ & _ & i & tm & now & Eo). pose proof (gc_categories _ Hg _ _ Hold) as Hkey.
  destruct (Hu (sf_TenantID filter) i) as [_ Hfree].
  assert (same_code row old = true) as Hsame.
  { apply same_code_spec. rewrite Eo. unfold owner_key in Hkey. cbn. split; [|congruence].
    rewrite <- Hk, <- Hkey. done. }
  rewrite Et. unfold save_category. cbn [localCategoryValue ly_Version ly_ID].
  assert (owner_key (gr_Owner row) = (sf_TenantID filter, o_id i)) as -> by (by rewrite Eo).
  rewrite Hfree, (code_holder_found _ _ _ _ Hg Hold Hsame). cbn.
  assert (k ≠ (sf_TenantID filter, o_id i)) as Hne by (intros ->; congruence).
  split_and!; [by rewrite Eo|rewrite Eo; cbn; by rewrite lookup_insert_ne|].
  eexists. rewrite lookup_insert_eq. split_and!; [done|exact Hkey|done|by rewrite Eo..].
Qed.

(** ** A scenario *)

Definition no_catalog : With CatalogTables := mkWith empty_db (mkCatalog ∅ ∅ ∅).
Definition keeper (identity : string) : ScopeFilter := mkScope "t1" identity ["org-1"] [] true false.
Definition acme (id name : string) : LocalCounterparty :=
  mkCounterparty id "" name true 0 "" "" "" 0.
Definition testing (name : string) : LocalCategory := mkCategory "" "" "TEST" name true 0 "" "" "" 0.
Definition saved_party : res LocalCounterparty * With CatalogTables :=
  @SaveLocalCounterparty (fine "a") (keeper "id-man") (acme "" "ACME") 0 "man" no_catalog.
Definition party_tables : With CatalogTables := saved_party.2.
Definition party_id : string := "a.0".
Definition grant_to (subject : string) (enabled : bool) : LocalCatalogGrant :=
  mkCatalogGrant "USER" subject "Sam" enabled 0 0.
Definition give (call subject : string) (enabled : bool) (expected : Z) (w : With CatalogTables)
    : res LocalCatalogGrant * With CatalogTables :=
  @SaveLocalCatalogGrant (fine call) (keeper "id-man") "counterparties" party_id
    (grant_to subject enabled) expected "man" w.
Definition granted_tables : With CatalogTables := (give "b" "id-sam" true 0 party_tables).2.
Definition sam : LocalCatalogVisibility := mkVisibility "id-sam" [].
Definition category_tables : With CatalogTables :=
  (@SaveLocalCategory (fine "a") (keeper "id-man") (testing "Testing") 0 "man" no_catalog).2.

Lemma no_catalog_good : good_catalog (w_ext no_catalog).
Proof. split; intros ? ?; cbn; intros; by rewrite ?lookup_empty in *. Qed.
Lemma no_catalog_unused o : unused o (w_ext no_catalog).
Proof. done. Qed.
Lemma party_tables_good : good_catalog (w_ext party_tables).
Proof.
  apply (catalog_step_later no_catalog); [apply no_catalog_good|]. by apply step_counterparty.
Qed.
Lemma category_tables_good : good_catalog (w_ext category_tables).
Proof.
  apply (catalog_step_later no_catalog); [apply no_catalog_good|]. by apply step_category.
Qed.

Definition one_party (owner name : string) (version : Z) (now : Z) : localCounterpartyRecord :=
  mkCounterpartyRow (mkOwner "t1" party_id true version "id-man" "org-1" "" "man" now) name.
Lemma party_tables_unused : unused (fine "c") (w_ext party_tables).
Proof.
  intros tenant k.
  assert (ct_counterparties (w_ext party_tables) =
          {[("t1", party_id) := one_party "man" "ACME" 1 (1700000000 * Second + 2)]}) as ->
    by (vm_compute; reflexivity).
  split; [|done]. by rewrite lookup_singleton_ne.
Qed.

(** Another keeper renames the entry; then a save that is based on the first version fails. *)
Definition renamed : res LocalCounterparty * With CatalogTables :=
  @SaveLocalCounterparty (fine "c") (keeper "id-two") (acme party_id "ACME Ltd") 1 "two" party_tables.
Lemma stale_counterparty_refused_witness :
  ∃ v, renamed.1 = Ok v ∧ lp_Version v = 2 ∧
       ∃ e, @SaveLocalCounterparty (fine "d") (keeper "id-man") (acme party_id "Other") 1 "man"
              renamed.2 = (Err e, renamed.2).
Proof.
  eexists (mkCounterparty party_id "t1" "ACME Ltd" true 2 "id-man" "org-1" "man" _).
  split; [vm_compute; reflexivity|]. split; [reflexivity|].
  eapply (stale_counterparty_refused (fine "c") (fine "d") (keeper "id-two") (keeper "id-man")
    (acme party_id "ACME Ltd") (acme party_id "Other") 1 1 "two" "man" party_tables);
    [apply party_tables_good|apply party_tables_unused|done|vm_compute; reflexivity
    |apply rtc_refl|done|done|done].
Defined.


(** A second category with the code of the first. *)
Lemma taken_category_code_replaced_witness :
  ∃ v row, (@SaveLocalCategory (fine "c") (keeper "id-two") (testing "Pen tests") 0 "two"
              category_tables).1 = Ok v ∧ ly_ID v = "c.0" ∧
    ct_categories (w_ext category_tables) !! ("t1", "a.0") = Some row ∧ gr_Name row = "Testing" ∧
    ∃ row', ct_categories (w_ext (@SaveLocalCategory (fine "c") (keeper "id-two")
              (testing "Pen tests") 0 "two" category_tables).2) !! ("t1", "a.0") = Some row' ∧
            gr_Name row' = "Pen tests".
Proof.
  assert (ct_categories (w_ext category_tables) = {[("t1", "a.0") := mkCategoryRow
    (mkOwner "t1" "a.0" true 1 "id-man" "org-1" "" "man" (1700000000 * Second + 2)) "TEST" "Testing"]})
    as Ect by (vm_compute; reflexivity).
  eexists (mkCategory "c.0" "t1" "TEST" "Pen tests" true 1 "id-two" "org-1" "two" _), _.
  split; [vm_compute; reflexivity|]. split; [done|]. split; [by rewrite Ect|]. split; [done|].
  edestruct (taken_category_code_replaced (fine "c") (keeper "id-two") (testing "Pen tests") "two"
    category_tables) with (k := ("t1", "a.0")) as (_ & _ & row' & Hr & _ & Hn & _);
    [apply category_tables_good| |by rewrite Ect|done|done|done|vm_compute; reflexivity|].
  - intros tenant k. split; [done|]. rewrite Ect. by rewrite lookup_singleton_ne.
  - exists row'. split; [|done]. etrans; [|exact Hr]. vm_compute. reflexivity.
Defined.

(** Sam drafts a contract with the granted counterparty. *)
Definition calm_catalog : Requests CatalogTables := {|
  rq_oracle := λ _, fine "e"; rq_others := λ _ w, w; rq_license := λ _, Granted
|}.
Definition local_sources : CatalogEnvironment := {|
  ce_sources := Some (mkSources "local" "local" true false false false false);
  ce_tenant := "t1"; ce_sales := λ _ _, None; ce_self := λ _ _, None
|}.
#[local] Existing Instances calm_catalog local_sources.
Definition seller : Principal :=
  mkPrincipal "" "t1" "sam" "id-sam" "" "Sam" "" "" ["sales"] ∅ [] ∅ 1 "".
Definition seller_scope : ScopeFilter := mkScope "t1" "id-sam" [] [] false true.
Definition local_draft : Contract :=
  with_party (mkPartyFields "" "" 0 "LOCAL" party_id 1 "" "" "" "" "" "" "")
    (sample_contract 100 plan_of_two).
Definition catalog_answers : Directories :=
  mkDirectories (Ok tt)
    (λ id, (localCounterpartyReference seller seller_scope sam id (mkRun 0 granted_tables)).1)
    (λ _, Err ErrOther) None None.
Lemma draft_counterparty_usable_witness :
  ∃ c row, resolveCounterpartyReference catalog_answers seller local_draft false = Ok c ∧
    ct_counterparties (tables_met (mkRun 0 granted_tables)) !! ("t1", party_id) = Some row ∧
    k_CustomerName (k_party c) = pr_Name row.
Proof.
  assert (∃ c, resolveCounterpartyReference catalog_answers seller local_draft false = Ok c)
    as [c Hc] by (eexists; vm_compute; reflexivity).
  destruct (draft_counterparty_usable catalog_answers seller seller_scope sam
    (mkRun 0 granted_tables) local_draft c false eq_refl eq_refl eq_refl Hc)
    as (row & Hr & _ & _ & Hn & _).
  exists c, row. by split_and!.
Defined.
