(* ===== verification/TemplateStore.v ===== *)
(** * mysql/templates.go, mysql/template_file_lifecycle.go: templates and their files

    The table of templates and the outbox of their source documents.  A template
    names its current source; a source that was replaced or deleted is retired and
    stays in the outbox until the file service has released it.  Texts, field lists
    and histories are stored decoded. *)

From stdpp Require Import sorting.
From S2P Require Import Prelude GoStrings Decimal GoTime BusinessClock Status NumberRule.
From S2P Require Import PaymentTerm ProjectService ImportPolicy ApprovalRule Workflow Store.
From S2P Require Import Outbound Numbering Repository Access Reports Templates Tables.
From S2P Require Import Drafting Service.

#[local] Open Scope string_scope.
#[local] Open Scope Z_scope.
#[local] Open Scope list_scope.

(** ** Rows *)

Record contractTemplateRecord : Type := mkTemplateRow {
  tr_ID : string; tr_TenantID : string; tr_Name : string; tr_OriginalFilename : string;
  tr_NumberFormat : string; tr_Fields : list Field; tr_Document : string;
  tr_PlatformFileID : string; tr_FileGatewayState : string; tr_FileGatewayLastError : string;
  tr_GatewaySourceID : string; tr_Version : Z; tr_CreatedAt : Time; tr_CreatedBy : string
}.
(** The identity of a source: its first upload, its file and its binding. *)
Record templateFileOutboxRecord : Type := mkSourceRow {
  ts_ID : string; ts_TenantID : string; ts_TemplateID : string; ts_FileID : string;
  ts_Filename : string; ts_ResourceType : string; ts_ResourceID : string; ts_Document : string;
  ts_Retired : bool; ts_DeliveryStatus : string; ts_Attempts : Z; ts_UploadAttempt : Z;
  ts_UploadFailures : list (Z * string); ts_NextAttemptAt : Time; ts_LastError : string;
  ts_CreatedAt : Time
}.
#[export] Instance source_row_eq_dec : EqDecision templateFileOutboxRecord.
Proof. solve_decision. Defined.

(** Both tables by their primary key. *)
Record TemplateTables : Type := mkTemplates {
  tt_templates : gmap string contractTemplateRecord;
  tt_sources : gmap string templateFileOutboxRecord
}.
Definition with_templates m t := mkTemplates m (tt_sources t).
Definition with_sources m t := mkTemplates (tt_templates t) m.

Definition templateFromRecord (r : contractTemplateRecord) : Template :=
  mkTemplate (tr_ID r) (tr_TenantID r) (tr_Name r) (tr_OriginalFilename r) (tr_NumberFormat r)
    (tr_Fields r) (tr_Document r) (tr_PlatformFileID r) (tr_FileGatewayState r) (tr_Version r)
    (tr_CreatedAt r) (tr_CreatedBy r).

(** ** Column updates *)

Definition set_metadata (name format : string) (fields : list Field) (r : contractTemplateRecord)
    : contractTemplateRecord :=
  mkTemplateRow (tr_ID r) (tr_TenantID r) name (tr_OriginalFilename r) format fields (tr_Document r)
    (tr_PlatformFileID r) (tr_FileGatewayState r) (tr_FileGatewayLastError r) (tr_GatewaySourceID r)
    (tr_Version r + 1) (tr_CreatedAt r) (tr_CreatedBy r).
Definition set_document (item : Template) (source : string) (r : contractTemplateRecord)
    : contractTemplateRecord :=
  mkTemplateRow (tr_ID r) (tr_TenantID r) (tr_Name r) (te_OriginalFilename item) (tr_NumberFormat r)
    (te_Fields item) (te_Content item) (te_PlatformFileID item) (te_FileGatewayState item) ""
    source (tr_Version r + 1) (tr_CreatedAt r) (tr_CreatedBy r).
Definition set_gateway (file state error source : string) (r : contractTemplateRecord)
    : contractTemplateRecord :=
  mkTemplateRow (tr_ID r) (tr_TenantID r) (tr_Name r) (tr_OriginalFilename r) (tr_NumberFormat r)
    (tr_Fields r) (tr_Document r) file state error source (tr_Version r) (tr_CreatedAt r)
    (tr_CreatedBy r).
Definition set_retired (now : Time) (s : templateFileOutboxRecord) : templateFileOutboxRecord :=
  mkSourceRow (ts_ID s) (ts_TenantID s) (ts_TemplateID s) (ts_FileID s) (ts_Filename s)
    (ts_ResourceType s) (ts_ResourceID s) (ts_Document s) true "pending" (ts_Attempts s)
    (ts_UploadAttempt s) (ts_UploadFailures s) now (ts_LastError s) (ts_CreatedAt s).
Definition set_binding (file rtype rid : string) (s : templateFileOutboxRecord)
    : templateFileOutboxRecord :=
  mkSourceRow (ts_ID s) (ts_TenantID s) (ts_TemplateID s) file (ts_Filename s) rtype rid
    (ts_Document s) (ts_Retired s) (ts_DeliveryStatus s) (ts_Attempts s) (ts_UploadAttempt s)
    (ts_UploadFailures s) (ts_NextAttemptAt s) (ts_LastError s) (ts_CreatedAt s).
Definition set_result (file status error : string) (attempt : Z) (failures : list (Z * string))
    (next : Time) (s : templateFileOutboxRecord) : templateFileOutboxRecord :=
  mkSourceRow (ts_ID s) (ts_TenantID s) (ts_TemplateID s) file (ts_Filename s) (ts_ResourceType s)
    (ts_ResourceID s) (ts_Document s) (ts_Retired s) status (ts_Attempts s + 1) attempt failures
    next error (ts_CreatedAt s).

(** ** Statements *)

Definition find_template (tenant id : string) (t : TemplateTables) : option contractTemplateRecord :=
  match tt_templates t !! id with
  | Some r => if tr_TenantID r =s tenant then Some r else None
  | None => None
  end.
Definition find_source (tenant id : string) (t : TemplateTables) : option templateFileOutboxRecord :=
  match tt_sources t !! id with
  | Some s => if ts_TenantID s =s tenant then Some s else None
  | None => None
  end.

Section Repository.
Context `{Oracle}.
Notation Tx := (XTx TemplateTables).

Definition insert_template (r : contractTemplateRecord) : Tx unit :=
  xwrite (λ t, match tt_templates t !! tr_ID r with
               | Some _ => Err ErrDuplicatedKey
               | None => Ok (tt, with_templates (<[tr_ID r := r]> (tt_templates t)) t)
               end).
Definition insert_source (s : templateFileOutboxRecord) : Tx unit :=
  xwrite (λ t, match tt_sources t !! ts_ID s with
               | Some _ => Err ErrDuplicatedKey
               | None => Ok (tt, with_sources (<[ts_ID s := s]> (tt_sources t)) t)
               end).
(** UPDATE of the template that satisfies [where_]; the number of rows it found.
    Every such update of the version changes the row. *)
Definition update_template_row (tenant id : string) (where_ : contractTemplateRecord → bool)
    (f : contractTemplateRecord → contractTemplateRecord) : Tx Z :=
  xwrite (λ t, match find_template tenant id t with
               | Some r => if where_ r then Ok (1, with_templates (<[id := f r]> (tt_templates t)) t)
                           else Ok (0, t)
               | None => Ok (0, t)
               end).
(** UPDATE of a source by its identifier; the number of rows that changed. *)
Definition update_source (where_ : templateFileOutboxRecord → bool) (id : string)
    (f : templateFileOutboxRecord → templateFileOutboxRecord) : Tx Z :=
  xwrite (λ t, match tt_sources t !! id with
               | Some s => if where_ s
                           then Ok (if bool_decide (f s = s) then 0 else 1,
                                    with_sources (<[id := f s]> (tt_sources t)) t)
                           else Ok (0, t)
               | None => Ok (0, t)
               end).

Definition insertTemplateAudit (meta : requestMeta) (tenant id name action : string) : Tx unit :=
  in_store (
    let actor := if empty_str (rm_ActorID meta) then "SYSTEM" else rm_ActorID meta in
    event ← newID;
    insertAuditOutbox tenant event
      (mkEntry actor action "contract_template" id (rm_Audit meta) (PTemplate id name))).

(** *** Sources *)

Definition enqueueTemplateSource (item : Template) : Tx string :=
  id ← xnewID;
  now ← xnow;
  insert_source (mkSourceRow id (te_TenantID item) (te_ID item) "" (te_OriginalFilename item)
    "contract_template_source" id (te_Content item) false "pending" 0 0 [] now "" now);;
  mret id.

(** Retires the current source; a template that an older release bound itself gets
    a source that is retired from the start. *)
Definition retireTemplateSource (current : contractTemplateRecord) : Tx unit :=
  if negb (empty_str (tr_GatewaySourceID current)) then
    now ← xnow;
    n ← update_source (λ s, ts_TenantID s =s tr_TenantID current) (tr_GatewaySourceID current)
          (set_retired now);
    xguard (negb (n =? 1)) ErrOther
  else if empty_str (tr_PlatformFileID current) then mret tt
  else
    now ← xnow;
    id ← xnewID;
    insert_source (mkSourceRow id (tr_TenantID current) (tr_ID current) (tr_PlatformFileID current)
      (tr_OriginalFilename current) "contract_template" (tr_ID current) (tr_Document current) true
      "pending" 0 0 [] now "" now).

Definition wants_source (item : Template) : bool :=
  (te_FileGatewayState item =s "PENDING") && empty_str (te_PlatformFileID item).
Definition new_source (item : Template) : Tx string :=
  if wants_source item then enqueueTemplateSource item else mret "".

(** *** Templates *)

Section Changes.
Variable meta : requestMeta.

Definition create_template_body (item : Template) (now : Time) : Tx unit :=
  source ← new_source item;
  insert_template (mkTemplateRow (te_ID item) (te_TenantID item) (te_Name item)
    (te_OriginalFilename item) (te_NumberFormat item) (te_Fields item) (te_Content item)
    (te_PlatformFileID item) (te_FileGatewayState item) "" source 1 now (te_CreatedBy item));;
  insertTemplateAudit meta (te_TenantID item) (te_ID item) (te_Name item)
    "CONTRACT_MANAGEMENT:TEMPLATE_CREATED".
Definition CreateTemplate (item : Template) (w : With TemplateTables) : res unit * With TemplateTables :=
  xtransaction (create_template_body item (o_now 0)) w.

Definition update_template_body (item : Template) : Tx unit :=
  n ← update_template_row (te_TenantID item) (te_ID item) (λ r, tr_Version r =? te_Version item)
        (set_metadata (te_Name item) (te_NumberFormat item) (te_Fields item));
  xguard (negb (n =? 1)) ErrVersionConflict;;
  insertTemplateAudit meta (te_TenantID item) (te_ID item) (te_Name item)
    "CONTRACT_MANAGEMENT:TEMPLATE_UPDATED".
Definition UpdateTemplate (item : Template) (w : With TemplateTables) : res unit * With TemplateTables :=
  xtransaction (update_template_body item) w.

Definition update_source_body (item : Template) : Tx unit :=
  current ← xtake (find_template (te_TenantID item) (te_ID item)) ErrVersionConflict;
  xguard (negb (tr_Version current =? te_Version item)) ErrVersionConflict;;
  retireTemplateSource current;;
  source ← new_source item;
  n ← update_template_row (te_TenantID item) (te_ID item) (λ r, tr_Version r =? te_Version item)
        (set_document item source);
  xguard (negb (n =? 1)) ErrVersionConflict;;
  insertTemplateAudit meta (te_TenantID item) (te_ID item) (te_Name item)
    "CONTRACT_MANAGEMENT:TEMPLATE_SOURCE_REPLACED".
Definition UpdateTemplateSource (item : Template) (w : With TemplateTables)
    : res unit * With TemplateTables :=
  xtransaction (update_source_body item) w.

Definition delete_template_body (tenant id : string) : Tx unit :=
  current ← xtake (find_template tenant id) ErrNotFound;
  retireTemplateSource current;;
  xwrite (λ t, Ok (tt, match find_template tenant id t with
                       | Some _ => with_templates (base.delete id (tt_templates t)) t
                       | None => t
                       end));;
  insertTemplateAudit meta tenant id (tr_Name current) "CONTRACT_MANAGEMENT:TEMPLATE_DELETED".
Definition DeleteTemplate (tenant id : string) (w : With TemplateTables)
    : res unit * With TemplateTables :=
  xtransaction (delete_template_body tenant id) w.

(** With a file for the file service to keep. *)
Definition with_file (item : Template) : Template :=
  set_template item (te_Name item) (te_OriginalFilename item) (te_NumberFormat item) (te_Fields item)
    (te_Content item) "" "PENDING".
Definition CreateTemplateWithFile (item : Template) := CreateTemplate (with_file item).
Definition UpdateTemplateSourceWithFile (item : Template) := UpdateTemplateSource (with_file item).

End Changes.

(** Newest first; the document and the state of its file are not read. *)
Definition listed (r : contractTemplateRecord) : Template :=
  mkTemplate (tr_ID r) (tr_TenantID r) (tr_Name r) (tr_OriginalFilename r) (tr_NumberFormat r)
    (tr_Fields r) "" "" "" (tr_Version r) (tr_CreatedAt r) (tr_CreatedBy r).
Definition newest_first (a b : contractTemplateRecord) : Prop := tr_CreatedAt b ≤ tr_CreatedAt a.
#[export] Instance newest_first_dec : RelDecision newest_first.
Proof. intros a b. unfold newest_first. apply _. Defined.
Definition ListTemplates (tenant : string) : Tx (list Template) :=
  rows ← xread (λ t, merge_sort newest_first
    (filter (λ r, tr_TenantID r = tenant) (map snd (map_to_list (tt_templates t)))));
  mret (map listed rows).
Definition GetTemplate (tenant id : string) : Tx Template :=
  row ← xtake (find_template tenant id) ErrNotFound;
  mret (templateFromRecord row).

(** Gives a template that has none a source; a file it already has is kept and bound
    to the template itself. *)
Definition backfill_body (tenant id : string) : Tx unit :=
  current ← xtake (find_template tenant id) ErrRecordNotFound;
  if negb (empty_str (tr_GatewaySourceID current)) then mret tt
  else
    source ← enqueueTemplateSource (templateFromRecord current);
    (if empty_str (tr_PlatformFileID current) then mret tt
     else
       update_source (λ _, true) source
         (set_binding (tr_PlatformFileID current) "contract_template" (tr_ID current));;
       mret tt);;
    update_template_row tenant id (λ _, true)
      (λ r, set_gateway (tr_PlatformFileID r) "PENDING" (tr_FileGatewayLastError r) source r);;
    mret tt.
Definition QueueTemplateFileBackfill (tenant id : string) (w : With TemplateTables)
    : res unit * With TemplateTables :=
  xtransaction (backfill_body tenant id) w.

End Repository.

(** * application/templates.go: the use cases of templates

    What an administrator's request passes before it reaches [TemplateStore], and the
    rendering of a template for a preview.  The DOCX codec is [TemplateEngine]. *)

Section Cases.
Context (cfg : Config) (meta : requestMeta).
Context `{!Requests TemplateTables} `{GoUnicode} `{TemplateEngine}.
Notation Req := (Req TemplateTables).

Definition manages_templates (actor : Principal) : bool :=
  hasPermissionOrAdmin actor "contract.template.manage".
Definition template_mode (mode : string) : bool := EqualFold (TrimSpace (sc_StampedFileMode cfg)) mode.
(** The licence, the permission, a repository. *)
Definition administer (actor : Principal) : Req unit :=
  rlicensed;;
  rcheck (negb (manages_templates actor)) ErrForbidden;;
  rcheck (negb (sc_HasTemplates cfg)) ErrOther.
Definition gateway_present : Req unit :=
  rcheck (template_mode "required" && negb (sc_HasGateway cfg)) ErrOther.
(** The file service keeps the document, unless the mode is the old one. *)
Definition keeps_file : bool := sc_HasGateway cfg && negb (template_mode "legacy").
Definition pending_file (item : Template) : Template :=
  if keeps_file then
    set_template item (te_Name item) (te_OriginalFilename item) (te_NumberFormat item) (te_Fields item)
      (te_Content item) (te_PlatformFileID item) "PENDING"
  else item.
Definition next_version (item : Template) : Template :=
  mkTemplate (te_ID item) (te_TenantID item) (te_Name item) (te_OriginalFilename item)
    (te_NumberFormat item) (te_Fields item) (te_Content item) (te_PlatformFileID item)
    (te_FileGatewayState item) (te_Version item + 1) (te_CreatedAt item) (te_CreatedBy item).

Definition CreateTemplateView (actor : Principal) (name filename content : string) : Req Template :=
  administer actor;;
  gateway_present;;
  texts ← rpure (upload_checks name filename);
  fields ← rpure (parsed_fields content);
  id ← rfresh;
  now ← rclock;
  let item := pending_file (mkTemplate id (p_TenantID actor) texts.1 texts.2 DefaultNumberFormat fields
                content "" "" 1 now (p_UserID actor)) in
  rlicensed;;
  rwrites (λ o w, if keeps_file then @CreateTemplateWithFile o meta item w
                  else @CreateTemplate o meta item w);;
  mret item.

Definition ListTemplatesView (actor : Principal) : Req (list Template) :=
  rcheck (negb (Has actor "contract.create") && negb (manages_templates actor)) ErrForbidden;;
  if negb (sc_HasTemplates cfg) then mret []
  else rreads (λ o, @ListTemplates o (p_TenantID actor)).

Definition ReplaceTemplateSource (actor : Principal) (id filename content : string) : Req Template :=
  administer actor;;
  gateway_present;;
  let filename := filepath_Base (TrimSpace filename) in
  rcheck (negb (EqualFold (filepath_Ext filename) ".docx") || (255 <? rune_count filename))
    ErrValidation;;
  fields ← rpure (parsed_fields content);
  item ← rreads (λ o, @GetTemplate o (p_TenantID actor) (TrimSpace id));
  let item := pending_file (replace_source item filename fields content) in
  rlicensed;;
  rwrites (λ o w, if keeps_file then @UpdateTemplateSourceWithFile o meta item w
                  else @UpdateTemplateSource o meta item w);;
  mret (next_version item).

Definition UpdateTemplateView (actor : Principal) (id name numberFormat : string) (fields : list Field)
    : Req Template :=
  administer actor;;
  item ← rreads (λ o, @GetTemplate o (p_TenantID actor) (TrimSpace id));
  item ← rpure (update_template item name numberFormat fields);
  rlicensed;;
  rwrites (λ o, @UpdateTemplate o meta item);;
  mret (next_version item).

Definition DeleteTemplateView (actor : Principal) (id : string) : Req unit :=
  administer actor;;
  rlicensed;;
  rwrites (λ o, @DeleteTemplate o meta (p_TenantID actor) (TrimSpace id)).

Definition renderTemplateForPermission (actor : Principal) (permission id : string)
    (values : gmap string string) (amount : option Z) : Req (string * gmap string string) :=
  rcheck (negb (Has actor permission) || negb (sc_HasTemplates cfg) || empty_str (TrimSpace id))
    ErrForbidden;;
  item ← rreads (λ o, @GetTemplate o (p_TenantID actor) id);
  rpure (render_template item amount (manages_templates actor) values).
Definition renderTemplate (actor : Principal) := renderTemplateForPermission actor "contract.create".
(** [preview] is docx.PreviewHTML. *)
Definition PreviewTemplate (preview : string → res string) (actor : Principal) (id : string)
    (values : gmap string string) : Req string :=
  rendered ← renderTemplate actor id values None;
  match preview rendered.1 with
  | Ok html => mret html
  | Err _ => rrefuse ErrValidation
  end.

End Cases.
