(* ===== verification/TemplateFiles.v ===== *)
(** * application/template_file_dispatcher.go, ProcessTemplateFile
      (mysql/template_file_lifecycle.go): keeping template files at the file service

    One source at a time: its row and its template are locked, the file service is
    asked to resolve, upload, bind, retire or release, and the outcome is written in
    the same transaction.  The answers of the file service and of the licence are
    values of the class [TemplateGateway]; every call is recorded with its result. *)

From stdpp Require Import sorting.
From S2P Require Import Prelude GoStrings Decimal GoTime BusinessClock Status NumberRule.
From S2P Require Import PaymentTerm ProjectService ImportPolicy ApprovalRule Workflow Store.
From S2P Require Import Outbound Numbering Repository Access Reports Templates Drafting Service.
From S2P Require Import Tables TemplateStore.

#[local] Open Scope string_scope.
#[local] Open Scope Z_scope.
#[local] Open Scope list_scope.

(** ** One delivery *)

Record TemplateFileDelivery : Type := mkTemplateDelivery {
  td_ID : string; td_TenantID : string; td_TemplateID : string; td_FileID : string;
  td_Filename : string; td_Content : string; td_ResourceType : string; td_ResourceID : string;
  td_Retired : bool; td_UploadAttempt : Z
}.
Definition delivery_of (s : templateFileOutboxRecord) : TemplateFileDelivery :=
  mkTemplateDelivery (ts_ID s) (ts_TenantID s) (ts_TemplateID s) (ts_FileID s) (ts_Filename s)
    (ts_Document s) (ts_ResourceType s) (ts_ResourceID s) (ts_Retired s) (ts_UploadAttempt s).

Definition templateUploadRequestID (item : TemplateFileDelivery) : string :=
  "contract-template-source-" +:+ td_ID item +:+
  (if 0 <? td_UploadAttempt item then "-" +:+ Itoa (td_UploadAttempt item) else "").

(** What the file service is asked. *)
Inductive gatewayCall : Type :=
  | GRetire (request : string)
  | GResolve (request : string)
  | GRelease (file resource_type resource_id : string)
  | GUpload (request filename content : string)
  | GBind (file resource_type resource_id filename : string).
(** A call for a source, and whether it succeeded. *)
Record gatewayEntry : Type := mkCall { ca_Source : string; ca_Call : gatewayCall; ca_Done : bool }.

(** Answers by step: the file and the status of an upload request, the new file, and
    the licence the first and the second time it is asked. *)
Class TemplateGateway := {
  tg_retire : nat → string → res (string * string);
  tg_resolve : nat → string → res (string * string);
  tg_release : nat → string → res unit;
  tg_upload : nat → string → res string;
  tg_bind : nat → string → res unit;
  tg_license : nat → bool → LicenseAnswer
}.

(** What the callback returns, with the calls it made. *)
Definition outcome : Type := (string * option goerr) * list gatewayEntry.
Definition error_of {A} (r : res A) : option goerr :=
  match r with Ok _ => None | Err e => Some e end.
Definition license_error (answer : LicenseAnswer) : option goerr :=
  match answer with
  | Granted => None
  | Refused => Some ErrCommercialLicense
  | Cancelled => Some ErrOther
  end.

Section Delivery.
Context `{TemplateGateway}.
Variables (tenant : string) (n : nat) (item : TemplateFileDelivery).

Definition ends (file : string) (e : option goerr) : outcome := ((file, e), []).
(** A call, then what follows from its answer. *)
Definition calling {A} (call : gatewayCall) (answer : res A) (next : res A → outcome) : outcome :=
  let o := next answer in
  (o.1, mkCall (td_ID item) call (bool_decide (error_of answer = None)) :: o.2).

Definition release (file : string) (next : option goerr → outcome) : outcome :=
  calling (GRelease file (td_ResourceType item) (td_ResourceID item)) (tg_release n file)
    (λ r, next (error_of r)).
Definition both_differ (a b : string) : bool :=
  negb (empty_str a) && negb (empty_str b) && negb (a =s b).

(** The upload request of a retired source is closed; the file it produced is released. *)
Definition retire_upload : outcome :=
  let file := td_FileID item in
  calling (GRetire (templateUploadRequestID item)) (tg_retire n (templateUploadRequestID item))
    (λ r, match r with
          | Err e => ends file (Some e)
          | Ok (resolved, _) =>
              if both_differ file resolved then ends file (Some ErrOther)
              else
                let file := if empty_str resolved then file else resolved in
                if empty_str file then ends "" None
                else release file (λ e, ends file e)
          end).

(** Upload, when there is no file yet, and binding; the licence is asked before each. *)
Definition bind_file (file : string) : outcome :=
  match license_error (tg_license n true) with
  | Some e => ends file (Some e)
  | None =>
      calling (GBind file (td_ResourceType item) (td_ResourceID item) (td_Filename item))
        (tg_bind n file) (λ r, ends file (error_of r))
  end.
Definition upload_and_bind (file : string) : outcome :=
  match license_error (tg_license n false) with
  | Some e => ends file (Some e)
  | None =>
      if empty_str file then
        calling (GUpload (templateUploadRequestID item) (td_Filename item) (td_Content item))
          (tg_upload n (templateUploadRequestID item))
          (λ r, match r with Err e => ends "" (Some e) | Ok file => bind_file file end)
      else bind_file file
  end.

(** What became of the upload request of a current source. *)
Definition resolve_upload : outcome :=
  let file := td_FileID item in
  calling (GResolve (templateUploadRequestID item)) (tg_resolve n (templateUploadRequestID item))
    (λ r, match r with
          | Err e => ends file (Some e)
          | Ok (resolved, status) =>
              if both_differ file resolved then ends file (Some ErrOther)
              else if (status =s "NOT_FOUND") && negb (empty_str file) then ends file (Some ErrOther)
              else if status =s "WRITING" then ends resolved (Some ErrTemplateUploadPending)
              else if status =s "CANCELLED" then ends file (Some ErrTemplateUploadRejected)
              else
                let file := if status =s "NOT_FOUND" then file else resolved in
                if (status =s "FAILED") || (status =s "REJECTED") then
                  release file (λ e, match e with
                    | Some e => ends file (Some e)
                    | None => ends file (Some (if status =s "FAILED" then ErrTemplateUploadFailed
                                               else ErrTemplateUploadRejected))
                    end)
                else upload_and_bind file
          end).

Definition deliver : outcome :=
  let file := td_FileID item in
  if negb (td_TenantID item =s tenant) then ends file (Some ErrForbidden)
  else if td_ResourceType item =s "contract_template_source" then
    if td_Retired item then retire_upload else resolve_upload
  else if td_Retired item then release file (λ e, ends file e)
  else upload_and_bind file.

End Delivery.

(** ** The outbox *)

Definition due (tenant : string) (now : Time) (s : templateFileOutboxRecord) : bool :=
  (ts_TenantID s =s tenant) && (ts_DeliveryStatus s =s "pending") && (ts_NextAttemptAt s <=? now).
(** [retired DESC, next_attempt_at, created_at, id]. *)
Definition delivery_order (a b : templateFileOutboxRecord) : Prop :=
  (ts_Retired a = true ∧ ts_Retired b = false) ∨
  (ts_Retired a = ts_Retired b ∧
   (ts_NextAttemptAt a < ts_NextAttemptAt b ∨
    (ts_NextAttemptAt a = ts_NextAttemptAt b ∧
     (ts_CreatedAt a < ts_CreatedAt b ∨
      (ts_CreatedAt a = ts_CreatedAt b ∧ String.leb (ts_ID a) (ts_ID b) = true))))).
#[export] Instance delivery_order_dec : RelDecision delivery_order.
Proof. intros a b. unfold delivery_order. apply _. Defined.

(** The columns an outcome writes into the source. *)
Definition template_backoff (attempts : Z) : Z := Second * Z.shiftl 1 (Z.min attempts 9).
Definition retries_upload (source : templateFileOutboxRecord) (e : goerr) : bool :=
  bool_decide (e = ErrTemplateUploadFailed) && negb (ts_Retired source).
Definition source_outcome (r : string * option goerr) (now : Time) (source : templateFileOutboxRecord)
    : templateFileOutboxRecord :=
  let file := if empty_str r.1 then ts_FileID source else r.1 in
  match r.2 with
  | None =>
      set_result file "delivered" "" (ts_UploadAttempt source) (ts_UploadFailures source)
        (ts_NextAttemptAt source) source
  | Some e =>
      let next := now + template_backoff (ts_Attempts source) in
      if retries_upload source e then
        set_result "" "pending" "UPLOAD_ATTEMPT_FAILED" (ts_UploadAttempt source + 1)
          (ts_UploadFailures source ++ [(ts_UploadAttempt source, r.1)]) next source
      else if bool_decide (e = ErrTemplateUploadRejected) then
        set_result file "rejected" "UPLOAD_CONTENT_REJECTED" (ts_UploadAttempt source)
          (ts_UploadFailures source) next source
      else
        set_result file "pending" "GATEWAY_DELIVERY_FAILED" (ts_UploadAttempt source)
          (ts_UploadFailures source) next source
  end.
(** The columns it writes into the template of a current source. *)
Definition template_outcome (r : string * option goerr) (source : templateFileOutboxRecord)
    (last_error : string) (t : contractTemplateRecord) : contractTemplateRecord :=
  let file := match r.2 with
              | Some e => if retries_upload source e then "" else r.1
              | None => r.1
              end in
  set_gateway file (match r.2 with None => "READY" | Some _ => "FAILED" end) last_error
    (tr_GatewaySourceID t) t.

Section Process.
Context `{Oracle} `{TemplateGateway}.
Notation Tx := (XTx TemplateTables).

Definition candidate (tenant : string) : Tx (option templateFileOutboxRecord) :=
  now ← xnow;
  xread (λ t, head (merge_sort delivery_order
    (filter (λ s, due tenant now s = true) (map snd (map_to_list (tt_sources t)))))).

(** The source to deliver, locked after its template; [None]: another worker was faster. *)
Definition lock_source (tenant id template : string) : Tx (option templateFileOutboxRecord) :=
  t ← xread (find_template tenant template);
  source ← xtake (find_source tenant id) ErrRecordNotFound;
  now ← xnow;
  if negb (ts_DeliveryStatus source =s "pending") || (now <? ts_NextAttemptAt source) then mret None
  else
    xguard (negb (ts_Retired source) &&
            negb (match t with Some t => tr_GatewaySourceID t | None => "" end =s ts_ID source))
      ErrVersionConflict;;
    mret (Some source).

Definition record_outcome (source : templateFileOutboxRecord) (r : string * option goerr) : Tx unit :=
  now ← xnow;
  let s := source_outcome r now source in
  update_source (λ _, true) (ts_ID source) (λ _, s);;
  if ts_Retired source then mret tt
  else
    update_template_row (ts_TenantID source) (ts_TemplateID source)
      (λ t, tr_GatewaySourceID t =s ts_ID source) (template_outcome r source (ts_LastError s));;
    mret tt.

Definition process_body (own tenant : string) (n : nat) (id template : string) : Tx (option goerr) :=
  found ← lock_source tenant id template;
  match found with
  | None => mret None
  | Some source =>
      let o := deliver own n (delivery_of source) in
      record_outcome source o.1;;
      mret o.1.2
  end.
(** The calls of the body: they are made, whether or not the transaction commits. *)
Definition process_calls (own tenant : string) (n : nat) (id template : string)
    (w : With TemplateTables) : list gatewayEntry :=
  match xquery (lock_source tenant id template) w with
  | Ok (Some source) => (deliver own n (delivery_of source)).2
  | _ => []
  end.
Definition process_source (own tenant : string) (n : nat) (id template : string)
    (w : With TemplateTables) : res (option goerr) * With TemplateTables :=
  xtransaction (process_body own tenant n id template) w.

End Process.

(** ** The dispatcher *)

Record TemplateDispatcher : Type := mkTemplateDispatcher {
  di_Configured : bool; di_TenantID : string
}.
(** What a round reports: whether it found a source, its error and its calls. *)
Record DeliveryReport : Type := mkReport {
  dr_Found : bool; dr_Error : option goerr; dr_Calls : list gatewayEntry
}.

Section Dispatcher.
Context `{!Requests TemplateTables} `{TemplateGateway}.
Notation Req := (Req TemplateTables).

Definition found_error (r : res (option goerr)) : option goerr :=
  match r with Ok e => e | Err e => Some e end.
(** The transaction on a candidate, with the calls made in it. *)
Definition process_step (own tenant : string) (c : templateFileOutboxRecord) : Req DeliveryReport :=
  n ← rtick;
  rchange_under (λ w,
    let '(r, w') := @process_source (rq_oracle n) _ own tenant n (ts_ID c) (ts_TemplateID c) w in
    (Ok (mkReport true (found_error r)
           (@process_calls (rq_oracle n) _ own tenant n (ts_ID c) (ts_TemplateID c) w)), w')).
Definition ProcessTemplateFile (own tenant : string) : Req DeliveryReport :=
  if empty_str tenant then mret (mkReport false (Some ErrForbidden) [])
  else
    first ← rtry (rreads (λ o, @candidate o tenant));
    match first with
    | Err e => mret (mkReport false (Some e) [])
    | Ok None => mret (mkReport false None [])
    | Ok (Some c) => process_step own tenant c
    end.

Definition DeliverOnce (d : TemplateDispatcher) : Req DeliveryReport :=
  if negb (di_Configured d) || empty_str (di_TenantID d) then mret (mkReport false (Some ErrOther) [])
  else ProcessTemplateFile (di_TenantID d) (di_TenantID d).

(** One tick of [Run]: at most [count] deliveries, until one fails or nothing is due. *)
Fixpoint deliver_batch (d : TemplateDispatcher) (count : nat) : Req (list gatewayEntry) :=
  match count with
  | O => mret []
  | S count =>
      r ← DeliverOnce d;
      match dr_Error r, dr_Found r with
      | None, true => rest ← deliver_batch d count; mret (dr_Calls r ++ rest)
      | _, _ => mret (dr_Calls r)
      end
  end.
Definition Run_tick (d : TemplateDispatcher) : Req (list gatewayEntry) := deliver_batch d 20.

End Dispatcher.
