(* ===== verification/TemplateSafety.v ===== *)
(** * Template files: steps and invariants

    What each transaction does to templates and sources, the invariant that ties a
    source to its template ([sound_sources]), and what the calls recorded so far say
    about a retired source ([settled]). *)

From S2P Require Import Prelude GoStrings Decimal GoTime BusinessClock Status NumberRule.
From S2P Require Import PaymentTerm ProjectService ImportPolicy ApprovalRule Workflow Store.
From S2P Require Import Outbound Numbering Repository Access Reports Templates Drafting Service.
From S2P Require Import Tables TemplateStore TemplateFiles.
From S2P Require Import Scenario.

#[local] Open Scope string_scope.
#[local] Open Scope Z_scope.
#[local] Open Scope list_scope.

(** ** Statements *)

Section Statements.
Context `{Oracle}.
Notation W := (With TemplateTables).

Lemma insert_source_ok row u (s s' : nat * W) :
  insert_source row s = (Ok u, s') →
  tt_sources (w_ext s.2) !! ts_ID row = None ∧
  w_ext s'.2 = with_sources (<[ts_ID row := row]> (tt_sources (w_ext s.2))) (w_ext s.2).
Proof.
  unfold insert_source. intros E. xtx. destruct (_ !! _) eqn:El; [done|]. by simplify_eq.
Qed.
Lemma insert_template_ok row u (s s' : nat * W) :
  insert_template row s = (Ok u, s') →
  tt_templates (w_ext s.2) !! tr_ID row = None ∧
  w_ext s'.2 = with_templates (<[tr_ID row := row]> (tt_templates (w_ext s.2))) (w_ext s.2).
Proof.
  unfold insert_template. intros E. xtx. destruct (_ !! _) eqn:El; [done|]. by simplify_eq.
Qed.
Lemma update_template_ok tenant id where_ f n (s s' : nat * W) :
  update_template_row tenant id where_ f s = (Ok n, s') →
  (n = 0 ∧ w_ext s'.2 = w_ext s.2 ∧
   ∀ r, find_template tenant id (w_ext s.2) = Some r → where_ r = false) ∨
  (n = 1 ∧ ∃ r, find_template tenant id (w_ext s.2) = Some r ∧ where_ r = true ∧
     w_ext s'.2 = with_templates (<[id := f r]> (tt_templates (w_ext s.2))) (w_ext s.2)).
Proof.
  unfold update_template_row. intros E. xtx. destruct (find_template _ _ _) as [r|] eqn:Er.
  - destruct (where_ r) eqn:Ew; simplify_eq; [right|left]; split_and!; try done; [eauto|].
    intros r' [= <-]. done.
  - simplify_eq. by left.
Qed.
Lemma update_source_ok where_ id f n (s s' : nat * W) :
  update_source where_ id f s = (Ok n, s') →
  (n = 0 ∧ w_ext s'.2 = w_ext s.2 ∧
   ∀ row, tt_sources (w_ext s.2) !! id = Some row → where_ row = false) ∨
  ∃ row, tt_sources (w_ext s.2) !! id = Some row ∧ where_ row = true ∧
    w_ext s'.2 = with_sources (<[id := f row]> (tt_sources (w_ext s.2))) (w_ext s.2).
Proof.
  unfold update_source. intros E. xtx. destruct (_ !! _) as [row|] eqn:Er.
  - destruct (where_ row) eqn:Ew; simplify_eq; [right; eauto|left].
    split_and!; [done..|]. by intros ? [= <-].
  - simplify_eq. by left.
Qed.
Lemma template_audit_ok meta tenant id name action u (s s' : nat * W) :
  insertTemplateAudit meta tenant id name action s = (Ok u, s') → w_ext s'.2 = w_ext s.2.
Proof. unfold insertTemplateAudit. intros E. by xtx. Qed.

Lemma enqueue_ok item id (s s' : nat * W) :
  enqueueTemplateSource item s = (Ok id, s') →
  ∃ k now, id = o_id k ∧ tt_sources (w_ext s.2) !! id = None ∧
    w_ext s'.2 = with_sources (<[id := mkSourceRow id (te_TenantID item) (te_ID item) ""
      (te_OriginalFilename item) "contract_template_source" id (te_Content item) false "pending" 0 0
      [] now "" now]> (tt_sources (w_ext s.2))) (w_ext s.2).
Proof.
  unfold enqueueTemplateSource. intros E. xtx.
  match goal with H : insert_source _ _ = _ |- _ => apply insert_source_ok in H as [Hn He] end.
  cbn in *. assert (s1.2 = s.2) as Es by congruence. rewrite Es in *. eauto.
Qed.

(** Retiring: nothing to retire, the current source, or a new row for an old binding. *)
Lemma retire_ok current u (s s' : nat * W) :
  retireTemplateSource current s = (Ok u, s') →
  (tr_GatewaySourceID current = "" ∧ w_ext s'.2 = w_ext s.2) ∨
  (tr_GatewaySourceID current ≠ "" ∧
   ∃ row now, tt_sources (w_ext s.2) !! tr_GatewaySourceID current = Some row ∧
     w_ext s'.2 = with_sources (<[tr_GatewaySourceID current := set_retired now row]>
                    (tt_sources (w_ext s.2))) (w_ext s.2)) ∨
  (tr_GatewaySourceID current = "" ∧
   ∃ row k, ts_ID row = o_id k ∧ tt_sources (w_ext s.2) !! ts_ID row = None ∧ ts_Retired row = true ∧
     ts_DeliveryStatus row = "pending" ∧
     w_ext s'.2 = with_sources (<[ts_ID row := row]> (tt_sources (w_ext s.2))) (w_ext s.2)).
Proof.
  unfold retireTemplateSource. destruct (empty_str (tr_GatewaySourceID current)) eqn:Eg; cbn [negb].
  - apply streq_true in Eg. destruct (empty_str (tr_PlatformFileID current)); intros E; xtx; [by left|].
    right; right. match goal with H : insert_source _ _ = _ |- _ => apply insert_source_ok in H as [Hn He] end.
    split; [done|]. assert (s1.2 = s.2) as Es by congruence. rewrite Es in *. eexists _, _. split; [|split; [exact Hn|done]]. reflexivity.
  - apply streq_false in Eg. intros E. xtx. right; left. split; [done|].
    match goal with H : update_source _ _ _ _ = _ |- _ => apply update_source_ok in H end.
    bool_hyps. destruct_or?; [lia|]. destruct_and?.
    match goal with H : ∃ _, _ |- _ => destruct H as (row & Hr & _ & He) end.
    assert (s0.2 = s.2) as Es by congruence. rewrite Es in *. eauto.
Qed.

End Statements.

(** ** The invariant *)

(** Rows are filed under their identifiers; an active source is the current source of
    its template, and a template's current source is active.  The template [x], if
    any, is between two sources. *)
Record sound_but (x : option string) (t : TemplateTables) : Prop := {
  sb_templates : ∀ id r, tt_templates t !! id = Some r → tr_ID r = id;
  sb_ids : ∀ id s, tt_sources t !! id = Some s → ts_ID s = id ∧ id ≠ "";
  sb_current : ∀ id s, tt_sources t !! id = Some s → ts_Retired s = false →
    x ≠ Some (ts_TemplateID s) ∧
    ∃ r, tt_templates t !! ts_TemplateID s = Some r ∧ tr_TenantID r = ts_TenantID s ∧
         tr_GatewaySourceID r = id;
  sb_source : ∀ id r, tt_templates t !! id = Some r → x ≠ Some id → tr_GatewaySourceID r ≠ "" →
    ∃ s, tt_sources t !! tr_GatewaySourceID r = Some s ∧ ts_Retired s = false ∧
         ts_TemplateID s = id ∧ ts_TenantID s = tr_TenantID r
}.
Definition sound_sources : TemplateTables → Prop := sound_but None.

(** Sources stay; a retired one stays retired, and once it was released it stays as it
    is; no source but [x] becomes released. *)
Definition released (s : templateFileOutboxRecord) : bool :=
  ts_Retired s && (ts_DeliveryStatus s =s "delivered").
Record sources_later (x : option string) (t t' : TemplateTables) : Prop := {
  sl_kept : ∀ id s, tt_sources t !! id = Some s →
    ∃ s', tt_sources t' !! id = Some s' ∧
      (ts_Retired s = true → ts_Retired s' = true ∧ (ts_DeliveryStatus s ≠ "pending" → s' = s));
  sl_new : ∀ id s', tt_sources t' !! id = Some s' → released s' = true → x ≠ Some id →
    tt_sources t !! id = Some s'
}.
Lemma sources_later_refl x t : sources_later x t t.
Proof. split; [eauto 6|done]. Qed.
Lemma sources_later_trans x t1 t2 t3 :
  sources_later x t1 t2 → sources_later x t2 t3 → sources_later x t1 t3.
Proof.
  intros [H12 B12] [H23 B23]. split; [|eauto].
  intros id s Hs. destruct (H12 id s Hs) as (s2 & H2 & Hr). destruct (H23 id s2 H2) as (s3 & H3 & Hr').
  exists s3. split; [done|]. intros Hret. destruct (Hr Hret) as [Hret2 Hsame].
  destruct (Hr' Hret2) as [Hret3 Hsame']. split; [done|]. intros Hd. rewrite (Hsame Hd) in Hsame'. auto.
Qed.
Lemma sources_later_insert x t id row :
  (∀ s, tt_sources t !! id = Some s →
     ts_Retired s = true → ts_Retired row = true ∧ (ts_DeliveryStatus s ≠ "pending" → row = s)) →
  (x = Some id ∨ released row = false) →
  sources_later x t (with_sources (<[id := row]> (tt_sources t)) t).
Proof.
  intros Hrow Hx. split; cbn.
  - intros id' s Hs. destruct (decide (id' = id)) as [->|Hne].
    + exists row. rewrite lookup_insert_eq. auto.
    + exists s. rewrite lookup_insert_ne by done. auto.
  - intros id' s' Hs' Hr Hne. apply lookup_insert_Some in Hs' as [[<- <-]|[_ Hs']]; [|done].
    destruct Hx; congruence.
Qed.

Lemma sources_later_templates x t t' m :
  sources_later x t t' → sources_later x t (with_templates m t').
Proof. intros [Hk Hn]. by split. Qed.

(** A template without a row, or between two sources. *)
Lemma sound_absent t id : sound_sources t → tt_templates t !! id = None → sound_but (Some id) t.
Proof.
  intros Hs Hid. split; [apply Hs|apply Hs| |].
  - intros i s Hi Hr. destruct (sb_current _ _ Hs i s Hi Hr) as (_ & r & Hrow & Hx).
    split; [|eauto]. intros [= ->]. congruence.
  - intros i r Hi _ Hr. by apply (sb_source _ _ Hs i r).
Qed.
Lemma sound_without t id r :
  sound_sources t → tt_templates t !! id = Some r → tr_GatewaySourceID r = "" → sound_but (Some id) t.
Proof.
  intros Hs Hid Hg. split; [apply Hs|apply Hs| |].
  - intros i s Hi Hr. destruct (sb_current _ _ Hs i s Hi Hr) as (_ & r' & Hrow & Ht & Hx).
    split; [|eauto]. intros [= ->]. simplify_eq. by destruct (sb_ids _ _ Hs _ _ Hi).
  - intros i r' Hi _ Hr. by apply (sb_source _ _ Hs i r').
Qed.

Lemma sound_put t id r :
  sound_but (Some id) t → tr_ID r = id → tr_GatewaySourceID r = "" →
  sound_sources (with_templates (<[id := r]> (tt_templates t)) t).
Proof.
  intros Hs Hid Hg. split; cbn.
  - intros i r' Hi. apply lookup_insert_Some in Hi as [[<- <-]|[_ Hi]]; [done|by apply (sb_templates _ _ Hs)].
  - apply Hs.
  - intros i s Hi Hr. destruct (sb_current _ _ Hs i s Hi Hr) as (Hne & r' & Hrow & Hx).
    split; [done|]. exists r'. rewrite lookup_insert_ne by congruence. eauto.
  - intros i r' Hi _ Hg'. apply lookup_insert_Some in Hi as [[<- <-]|[Hne Hi]]; [done|].
    apply (sb_source _ _ Hs i r'); [done|congruence|done].
Qed.
Lemma sound_attach t id r k row :
  sound_but (Some id) t → tt_sources t !! k = None → k ≠ "" → ts_ID row = k →
  ts_TemplateID row = id → ts_Retired row = false → tr_ID r = id → tr_GatewaySourceID r = k →
  tr_TenantID r = ts_TenantID row →
  sound_sources (mkTemplates (<[id := r]> (tt_templates t)) (<[k := row]> (tt_sources t))).
Proof.
  intros Hs Hk Hne Hrow Htid Hret Hid Hg Hten. split; cbn.
  - intros i r' Hi. apply lookup_insert_Some in Hi as [[<- <-]|[_ Hi]]; [done|by apply (sb_templates _ _ Hs)].
  - intros i s Hi. apply lookup_insert_Some in Hi as [[<- <-]|[_ Hi]]; [done|by apply (sb_ids _ _ Hs)].
  - intros i s Hi Hr. split; [done|]. apply lookup_insert_Some in Hi as [[<- <-]|[_ Hi]].
    + exists r. rewrite Htid, lookup_insert_eq. done.
    + destruct (sb_current _ _ Hs i s Hi Hr) as (Hn & r' & Hr' & Hx).
      exists r'. rewrite lookup_insert_ne by congruence. eauto.
  - intros i r' Hi _ Hg'. apply lookup_insert_Some in Hi as [[<- <-]|[Hni Hi]].
    + exists row. rewrite Hg, lookup_insert_eq. done.
    + destruct (sb_source _ _ Hs i r' Hi) as (s & Hs' & Hx); [congruence|done|].
      exists s. rewrite lookup_insert_ne by congruence. eauto.
Qed.
Lemma sound_delete t id :
  sound_but (Some id) t → sound_sources (with_templates (delete id (tt_templates t)) t).
Proof.
  intros Hs. split; cbn.
  - intros i r Hi. apply lookup_delete_Some in Hi as [_ Hi]. by apply (sb_templates _ _ Hs).
  - apply Hs.
  - intros i s Hi Hr. destruct (sb_current _ _ Hs i s Hi Hr) as (Hne & r' & Hrow & Hx).
    split; [done|]. exists r'. rewrite lookup_delete_ne by congruence. eauto.
  - intros i r Hi _ Hg. apply lookup_delete_Some in Hi as [Hne Hi].
    apply (sb_source _ _ Hs i r); [done|congruence|done].
Qed.

(** Rows that keep their links. *)
Lemma sound_template_row t id r r' :
  sound_sources t → tt_templates t !! id = Some r → tr_ID r' = tr_ID r →
  tr_TenantID r' = tr_TenantID r → tr_GatewaySourceID r' = tr_GatewaySourceID r →
  sound_sources (with_templates (<[id := r']> (tt_templates t)) t).
Proof.
  intros Hs Hr Hid Hten Hg. split; cbn.
  - intros i q Hi. apply lookup_insert_Some in Hi as [[<- <-]|[_ Hi]]; [|by apply (sb_templates _ _ Hs)].
    rewrite Hid. by apply (sb_templates _ _ Hs).
  - apply Hs.
  - intros i s Hi Hret. destruct (sb_current _ _ Hs i s Hi Hret) as (_ & q & Hq & Hqt & Hqg). split; [done|].
    destruct (decide (ts_TemplateID s = id)) as [<-|Hne].
    + exists r'. rewrite lookup_insert_eq. simplify_eq. split_and!; congruence.
    + exists q. rewrite lookup_insert_ne by done. eauto.
  - intros i q Hi _ Hq. apply lookup_insert_Some in Hi as [[<- <-]|[_ Hi]]; [|by apply (sb_source _ _ Hs)].
    rewrite Hg, Hten in *. apply (sb_source _ _ Hs id r); [done|done|congruence].
Qed.
Lemma sound_source_row x t id s s' :
  sound_but x t → tt_sources t !! id = Some s → ts_ID s' = ts_ID s → ts_TenantID s' = ts_TenantID s →
  ts_TemplateID s' = ts_TemplateID s → ts_Retired s' = ts_Retired s →
  sound_but x (with_sources (<[id := s']> (tt_sources t)) t).
Proof.
  intros Hs Hrow Hid Hten Htem Hret. split; cbn; [apply Hs| | |].
  - intros i q Hi. apply lookup_insert_Some in Hi as [[<- <-]|[_ Hi]]; [|by apply (sb_ids _ _ Hs)].
    rewrite Hid. by apply (sb_ids _ _ Hs).
  - intros i q Hi Hq. apply lookup_insert_Some in Hi as [[<- <-]|[_ Hi]]; [|by apply (sb_current _ _ Hs)].
    rewrite Hten, Htem. apply (sb_current _ _ Hs); [done|congruence].
  - intros i r Hi Hx Hg. destruct (sb_source _ _ Hs i r Hi Hx Hg) as (q & Hq & Hq').
    destruct (decide (tr_GatewaySourceID r = id)) as [E|Hne].
    + exists s'. rewrite E, lookup_insert_eq in *. simplify_eq. destruct_and!. split_and!; congruence.
    + exists q. rewrite lookup_insert_ne by done. done.
Qed.
Lemma sound_retired_row x t k row :
  sound_but x t → tt_sources t !! k = None → k ≠ "" → ts_ID row = k → ts_Retired row = true →
  sound_but x (with_sources (<[k := row]> (tt_sources t)) t).
Proof.
  intros Hs Hk Hne Hid Hret. split; cbn; [apply Hs| | |].
  - intros i q Hi. apply lookup_insert_Some in Hi as [[<- <-]|[_ Hi]]; [done|by apply (sb_ids _ _ Hs)].
  - intros i q Hi Hq. apply lookup_insert_Some in Hi as [[<- <-]|[_ Hi]]; [congruence|by apply (sb_current _ _ Hs)].
  - intros i r Hi Hx Hg. destruct (sb_source _ _ Hs i r Hi Hx Hg) as (q & Hq & Hq').
    exists q. rewrite lookup_insert_ne by congruence. done.
Qed.

(** ** Transactions *)

Lemma find_template_some tenant id t r :
  find_template tenant id t = Some r ↔ tt_templates t !! id = Some r ∧ tr_TenantID r = tenant.
Proof.
  unfold find_template. destruct (_ !! _) as [q|]; [|by split; [|intros [[=] _]]].
  destruct (tr_TenantID q =s tenant) eqn:E; split.
  - intros [= <-]. by apply streq_true in E.
  - by intros [[= <-] _].
  - done.
  - intros [[= <-] Ht]. by apply streq_false in E.
Qed.

Section Transactions.
Context (o : Oracle) (ids : ∀ k, o_id k ≠ "").
Notation W := (With TemplateTables).

Lemma retire_sound id current u (s s' : nat * W) :
  sound_sources (w_ext s.2) → tt_templates (w_ext s.2) !! id = Some current →
  retireTemplateSource current s = (Ok u, s') →
  sound_but (Some id) (w_ext s'.2) ∧ sources_later None (w_ext s.2) (w_ext s'.2) ∧
  tt_templates (w_ext s'.2) = tt_templates (w_ext s.2).
Proof.
  intros Hs Hid E. apply retire_ok in E as [[Hg ->]|[(Hg & row & now & Hrow & ->)|(Hg & row & k & Hk & Hn & Hret & Hp & ->)]].
  - split_and!; [by eapply sound_without|apply sources_later_refl|done].
  - destruct (sb_source _ _ Hs id current Hid) as (q & Hq & Hqr & Hqt & Hqn); [done|done|]. simplify_eq.
    split_and!; [|apply sources_later_insert; [intros q' Hq'; congruence|by right]|done].
    split; cbn; [apply Hs| | |].
    + intros i q Hi. apply lookup_insert_Some in Hi as [[<- <-]|[_ Hi]]; [|by apply (sb_ids _ _ Hs)].
      by apply (sb_ids _ _ Hs _ row).
    + intros i q Hi Hr. apply lookup_insert_Some in Hi as [[<- <-]|[Hne Hi]]; [done|].
      destruct (sb_current _ _ Hs i q Hi Hr) as (_ & r & Hrr & Hx & Hy). split; [|eauto].
      intros [= Hsame]. congruence.
    + intros i r Hi Hx Hgr. destruct (sb_source _ _ Hs i r Hi) as (q & Hq' & Hqr' & Hqt' & Hqn'); [done|done|].
      exists q. rewrite lookup_insert_ne by congruence. done.
  - split_and!; [|apply sources_later_insert|done].
    2: intros q; by rewrite Hn. 2: { right. unfold released. by rewrite Hret, Hp. }
    apply sound_retired_row; [by eapply sound_without|done| |done|done]. rewrite Hk. apply ids.
Qed.

(** A template gets its row: with a fresh source, or with none. *)
Lemma attach_sound id item (f : string → contractTemplateRecord) source (s s' : nat * W) :
  sound_but (Some id) (w_ext s.2) → te_ID item = id →
  (∀ k, tr_ID (f k) = id ∧ tr_TenantID (f k) = te_TenantID item ∧ tr_GatewaySourceID (f k) = k) →
  new_source item s = (Ok source, s') →
  tt_templates (w_ext s'.2) = tt_templates (w_ext s.2) ∧ sources_later None (w_ext s.2) (w_ext s'.2) ∧
  sound_sources (with_templates (<[id := f source]> (tt_templates (w_ext s'.2))) (w_ext s'.2)).
Proof.
  intros Hs Hid Hf. unfold new_source. destruct (wants_source item).
  - intros E. apply enqueue_ok in E as (k & now & -> & Hn & ->). split_and!; [done| |].
    + apply sources_later_insert; [intros q; by rewrite Hn|by right].
    + destruct (Hf (o_id k)) as (H1 & H2 & H3).
      by apply (sound_attach (w_ext s.2) id (f (o_id k)) (o_id k)).
  - intros E. xtx. destruct (Hf "") as (H1 & H2 & H3).
    split_and!; [done|apply sources_later_refl|by apply sound_put].
Qed.

Definition kept (x : option string) (w w' : W) : Prop :=
  sound_sources (w_ext w') ∧ sources_later x (w_ext w) (w_ext w').

Lemma create_kept meta item now u (s s' : nat * W) :
  sound_sources (w_ext s.2) → create_template_body meta item now s = (Ok u, s') → kept None s.2 s'.2.
Proof.
  intros Hs E. unfold create_template_body in E. xtx.
  match goal with H : insertTemplateAudit _ _ _ _ _ _ = _ |- _ => apply template_audit_ok in H as Ea end.
  match goal with H : insert_template _ _ = _ |- _ => apply insert_template_ok in H as [Hn He] end.
  cbn [tr_ID] in Hn, He.
  match goal with H : new_source _ _ = _ |- _ => rename H into Hnew end.
  unfold kept. rewrite Ea, He.
  assert (tt_templates (w_ext s.2) !! te_ID item = None) as Habs.
  { revert Hnew. unfold new_source. destruct (wants_source item); intros Hnew.
    - apply enqueue_ok in Hnew as (k & nw & _ & _ & E2). by rewrite E2 in Hn.
    - by xtx. }
  apply (attach_sound (te_ID item) item (λ k, mkTemplateRow (te_ID item) (te_TenantID item)
    (te_Name item) (te_OriginalFilename item) (te_NumberFormat item) (te_Fields item)
    (te_Content item) (te_PlatformFileID item) (te_FileGatewayState item) "" k 1 now
    (te_CreatedBy item))) in Hnew as (_ & Hl & Hso);
    [split; [done|by apply sources_later_templates]|by apply sound_absent|done|done].
Qed.
Lemma update_kept meta item u (s s' : nat * W) :
  sound_sources (w_ext s.2) → update_template_body meta item s = (Ok u, s') → kept None s.2 s'.2.
Proof.
  intros Hs E. unfold update_template_body in E. xtx.
  match goal with H : insertTemplateAudit _ _ _ _ _ _ = _ |- _ => apply template_audit_ok in H as Ea end.
  match goal with H : update_template_row _ _ _ _ _ = _ |- _ => apply update_template_ok in H as Hu end.
  unfold kept. rewrite Ea. destruct Hu as [(_ & -> & _)|(_ & r & Hr & _ & ->)].
  - split; [done|apply sources_later_refl].
  - apply find_template_some in Hr as [Hr _]. split; [by eapply sound_template_row|].
    apply sources_later_templates, sources_later_refl.
Qed.
Lemma replace_kept meta item u (s s' : nat * W) :
  sound_sources (w_ext s.2) → update_source_body meta item s = (Ok u, s') → kept None s.2 s'.2.
Proof.
  intros Hs E. unfold update_source_body in E. xtx.
  match goal with H : insertTemplateAudit _ _ _ _ _ _ = _ |- _ => apply template_audit_ok in H as Ea end.
  match goal with H : update_template_row _ _ _ _ _ = _ |- _ => apply update_template_ok in H as Hu end.
  apply find_template_some in Hrow as [Ha Hten]. rewrite <- H in Hs, Ha. rewrite <- H. clear H.
  match goal with H : retireTemplateSource _ _ = _ |- _ =>
    apply (retire_sound (te_ID item)) in H as (Hb & Hl1 & Et1); [|done|done] end.
  bool_hyps. destruct Hu as [[-> _]|(_ & r & Hr & _ & Hw)]; [done|].
  pose proof (sb_templates _ _ Hs _ _ Ha) as Hida.
  match goal with H : new_source _ _ = _ |- _ => rename H into Hnew end.
  unfold kept. rewrite Ea, Hw. apply find_template_some in Hr as [Hr _].
  apply (attach_sound (te_ID item) item (λ k, set_document item k a)) in Hnew as (Et2 & Hl2 & Hso);
    [|done|done|by intros k].
  assert (r = a) as -> by (rewrite Et2, Et1, Ha in Hr; congruence).
  split; [exact Hso|]. apply sources_later_templates. by eapply sources_later_trans.
Qed.
Lemma delete_kept meta tenant id u (s s' : nat * W) :
  sound_sources (w_ext s.2) → delete_template_body meta tenant id s = (Ok u, s') → kept None s.2 s'.2.
Proof.
  intros Hs E. unfold delete_template_body in E. xtx.
  match goal with H : insertTemplateAudit _ _ _ _ _ _ = _ |- _ => apply template_audit_ok in H as Ea end.
  apply find_template_some in Hrow as [Ha Hten]. rewrite <- H in Hs, Ha. rewrite <- H. clear H.
  match goal with H : retireTemplateSource _ _ = _ |- _ =>
    apply (retire_sound id) in H as (Hb & Hl1 & Et1); [|done|done] end.
  unfold kept. rewrite Ea.
  assert (find_template tenant id (w_ext s1.2) = Some a) as Hf
    by (apply find_template_some; by rewrite Et1).
  rewrite Hf in Hwrite. injection Hwrite as _ <-. split; [by apply sound_delete|].
  by apply sources_later_templates.
Qed.
(** A fresh source, bound to the template itself when it has a file already. *)
Lemma backfill_source item file id u k (s s1 s' : nat * W) :
  enqueueTemplateSource item s = (Ok k, s1) →
  (if empty_str file then mret tt
   else update_source (λ _, true) k (set_binding file "contract_template" id);; mret tt) s1 =
    (Ok u, s') →
  k ≠ "" ∧ tt_sources (w_ext s.2) !! k = None ∧
  ∃ row, ts_ID row = k ∧ ts_TenantID row = te_TenantID item ∧ ts_TemplateID row = te_ID item ∧
    ts_Retired row = false ∧
    w_ext s'.2 = with_sources (<[k := row]> (tt_sources (w_ext s.2))) (w_ext s.2).
Proof.
  intros E1 E2. apply enqueue_ok in E1 as (i & now & -> & Hn & Ew). split_and!; [apply ids|done|].
  destruct (empty_str file); xtx.
  - eexists. rewrite Ew. split_and!; [..|done]; done.
  - match goal with H : update_source _ _ _ _ = _ |- _ => apply update_source_ok in H end.
    destruct_or?; destruct_and?.
    + match goal with H : w_ext s'.2 = _ |- _ => rewrite H end.
      eexists. rewrite Ew. split_and!; [..|done]; done.
    + match goal with H : ∃ _, _ |- _ => destruct H as (row & Hr & _ & He) end.
      rewrite Ew in Hr, He. cbn in Hr, He. rewrite lookup_insert_eq in Hr. simplify_eq.
      eexists. rewrite He. unfold with_sources. cbn. rewrite insert_insert_eq.
      split_and!; [..|done]; done.
Qed.
Lemma backfill_kept tenant id u (s s' : nat * W) :
  sound_sources (w_ext s.2) → backfill_body tenant id s = (Ok u, s') → kept None s.2 s'.2.
Proof.
  intros Hs E. unfold backfill_body in E. xtx.
  apply find_template_some in Hrow as [Ha <-]. rewrite <- H in Hs, Ha. rewrite <- H. clear H.
  destruct (empty_str (tr_GatewaySourceID a)) eqn:Eg; cbn [negb] in E.
  2: { apply xret_ok in E as [_ ->]. split; [done|apply sources_later_refl]. }
  apply streq_true in Eg. apply xbind_ok in E as (k & s1 & Eq & E).
  apply xbind_ok in E as (v & s2 & Eb & E). xtx.
  eapply backfill_source in Eq as (Hk & Hn & row & H1 & H2 & H3 & H4 & Ew); [|exact Eb].
  match goal with H : update_template_row _ _ _ _ _ = _ |- _ => apply update_template_ok in H as Hu end.
  pose proof (sb_templates _ _ Hs _ _ Ha) as Hida.
  assert (find_template (tr_TenantID a) id (w_ext s2.2) = Some a) as Hf
    by (apply find_template_some; by rewrite Ew).
  destruct Hu as [(_ & _ & Hw)|(_ & r & Hr & _ & Hw)]; [by specialize (Hw a Hf)|].
  rewrite Hf in Hr. injection Hr as <-. unfold kept. rewrite Hw, Ew. cbn. split.
  - cbn in H2, H3. apply (sound_attach (w_ext s0.2) id _ k row); try done; [by eapply sound_without|congruence].
  - apply (sources_later_templates None (w_ext s0.2)), sources_later_insert; [intros q; by rewrite Hn|].
    right. unfold released. by rewrite H4.
Qed.
Lemma find_source_some tenant id t row :
  find_source tenant id t = Some row ↔ tt_sources t !! id = Some row ∧ ts_TenantID row = tenant.
Proof.
  unfold find_source. destruct (_ !! _) as [q|]; [|by split; [|intros [[=] _]]].
  destruct (ts_TenantID q =s tenant) eqn:E; split.
  - intros [= <-]. by apply streq_true in E.
  - by intros [[= <-] _].
  - done.
  - intros [[= <-] Ht]. by apply streq_false in E.
Qed.
Lemma lock_source_ok tenant id template found (s s' : nat * W) :
  lock_source tenant id template s = (Ok found, s') →
  s'.2 = s.2 ∧ ∀ source, found = Some source →
    find_source tenant id (w_ext s.2) = Some source ∧ ts_DeliveryStatus source = "pending".
Proof.
  unfold lock_source. intros E. xtx.
  match goal with H : (if ?b then _ else _) _ = _ |- _ => destruct b eqn:Eb end; xtx;
    (split; [congruence|]); [done|]. intros source [= <-]. bool_hyps. split; [congruence|].
  by apply streq_true.
Qed.

Lemma source_outcome_identity r now s :
  ts_ID (source_outcome r now s) = ts_ID s ∧ ts_TenantID (source_outcome r now s) = ts_TenantID s ∧
  ts_TemplateID (source_outcome r now s) = ts_TemplateID s ∧
  ts_Retired (source_outcome r now s) = ts_Retired s ∧
  ts_ResourceType (source_outcome r now s) = ts_ResourceType s ∧
  ts_ResourceID (source_outcome r now s) = ts_ResourceID s.
Proof. unfold source_outcome. destruct r.2; [destruct (retries_upload _ _); [|destruct (bool_decide _)]|]; done. Qed.

Lemma record_outcome_kept source r u (s s' : nat * W) :
  sound_sources (w_ext s.2) → tt_sources (w_ext s.2) !! ts_ID source = Some source →
  ts_DeliveryStatus source = "pending" → record_outcome source r s = (Ok u, s') →
  kept (Some (ts_ID source)) s.2 s'.2 ∧ ∃ now, tt_sources (w_ext s'.2) !! ts_ID source = Some (source_outcome r now source).
Proof.
  intros Hs Hrow Hp E. unfold record_outcome in E. xtx.
  match goal with H : update_source _ _ _ _ = _ |- _ => apply update_source_ok in H as Hu end.
  assert (w_ext s1.2 = with_sources (<[ts_ID source := source_outcome r (o_now s.1) source]>
            (tt_sources (w_ext s.2))) (w_ext s.2)) as Hw.
  { rewrite H in Hu. destruct Hu as [(_ & _ & Hf)|(row & _ & _ & Hw)]; [by specialize (Hf _ Hrow)|done]. }
  destruct (source_outcome_identity r (o_now s.1) source) as (I1 & I2 & I3 & I4 & _).
  assert (sound_sources (w_ext s1.2)) as Hs1 by (rewrite Hw; by eapply sound_source_row).
  assert (sources_later (Some (ts_ID source)) (w_ext s.2) (w_ext s1.2)) as Hl1.
  { rewrite Hw. apply sources_later_insert; [|by left]. intros q Hq Hret. rewrite I4. split; congruence. }
  assert (tt_sources (w_ext s1.2) !! ts_ID source = Some (source_outcome r (o_now s.1) source)) as Hq
    by (rewrite Hw; apply lookup_insert_eq).
  destruct (ts_Retired source).
  { apply xret_ok in E as [_ <-]. split; [done|eauto]. }
  xtx. match goal with H : update_template_row _ _ _ _ _ = _ |- _ => apply update_template_ok in H as Ht end.
  destruct Ht as [(_ & Et & _)|(_ & t & Ht & _ & Et)]; unfold kept; rewrite Et; [split; [done|eauto]|].
  apply find_template_some in Ht as [Ht _]. split; [|eauto]. split; [by eapply sound_template_row|].
  by apply sources_later_templates.
Qed.

(** A delivery leaves everything as it is, or records the outcome of one pending source. *)
Lemma process_kept `{TemplateGateway} own tenant n id template e (s s' : nat * W) :
  sound_sources (w_ext s.2) → process_body own tenant n id template s = (Ok e, s') →
  kept (Some id) s.2 s'.2 ∧
  ((e = None ∧ w_ext s'.2 = w_ext s.2 ∧ ∃ s1, lock_source tenant id template s = (Ok None, s1)) ∨
   ∃ source now s1, lock_source tenant id template s = (Ok (Some source), s1) ∧
     tt_sources (w_ext s.2) !! id = Some source ∧ ts_DeliveryStatus source = "pending" ∧
     tt_sources (w_ext s'.2) !! id =
       Some (source_outcome (deliver own n (delivery_of source)).1 now source)).
Proof.
  intros Hs E. unfold process_body in E. apply xbind_ok in E as (found & s1 & El & E).
  apply lock_source_ok in El as Hl. destruct Hl as [Es Hl]. destruct found as [source|]; cycle 1.
  { xtx. split; [rewrite Es; split; [done|apply sources_later_refl]|]. left. rewrite Es. eauto. }
  destruct (Hl source eq_refl) as [Hf Hp]. apply find_source_some in Hf as [Hf _].
  destruct (sb_ids _ _ Hs _ _ Hf) as [Hid _]. xtx. rewrite <- Es in Hs, Hf.
  match goal with H : record_outcome _ _ _ = _ |- _ => rename H into Hr end.
  apply record_outcome_kept in Hr as [Hk [now Hq]]; [|done..].
  rewrite Es in *. split; [done|]. right. eauto 10.
Qed.

(** A transaction keeps the invariant; a delivery may release its own source. *)
Lemma transaction_kept {A} x (m : XTx TemplateTables A) w :
  sound_sources (w_ext w) →
  (∀ a s', m (0%nat, w) = (Ok a, s') → kept x w s'.2) → kept x w (xtransaction m w).2.
Proof.
  intros Hs Hm. destruct (xtransaction m w) as [r w'] eqn:E. cbn.
  apply xtransaction_cases in E as [[-> _]|(a & t & E & _)].
  - split; [done|apply sources_later_refl].
  - apply (Hm a (t, w') E).
Qed.

End Transactions.

(** * Template files: theorems

    Every active source is its template's current one, so no delivery is refused for
    being stale; a retired source is never uploaded or bound again; and a source that
    is retired and delivered was released at the file service after everything else
    that was done for it. *)

(** ** The calls of one delivery *)

Definition uses_file (c : gatewayCall) : bool :=
  match c with GUpload _ _ _ | GBind _ _ _ _ => true | _ => false end.

Section Calls.
Context `{TemplateGateway}.
Variables (own : string) (n : nat) (item : TemplateFileDelivery).

(** Calls name the source, and upload or bind only what is not retired. *)
Definition proper_call (c : gatewayEntry) : Prop :=
  ca_Source c = td_ID item ∧ (uses_file (ca_Call c) = true → td_Retired item = false).
Lemma calling_proper {A} call (answer : res A) next :
  (uses_file call = true → td_Retired item = false) →
  (∀ r, Forall proper_call (next r).2) → Forall proper_call (calling item call answer next).2.
Proof. intros Hc Hn. constructor; [by split|apply Hn]. Qed.
Lemma ends_proper file e : Forall proper_call (ends file e).2.
Proof. constructor. Qed.
Lemma release_proper file next :
  (∀ e, Forall proper_call (next e).2) → Forall proper_call (release n item file next).2.
Proof. intros Hn. by apply calling_proper. Qed.
Lemma bind_proper file : td_Retired item = false → Forall proper_call (bind_file n item file).2.
Proof.
  intros Hr. unfold bind_file. destruct (license_error _); [apply ends_proper|].
  apply calling_proper; [done|]. intros r. apply ends_proper.
Qed.
Lemma upload_proper file : td_Retired item = false → Forall proper_call (upload_and_bind n item file).2.
Proof.
  intros Hr. unfold upload_and_bind. destruct (license_error _); [apply ends_proper|].
  destruct (empty_str file); [|by apply bind_proper].
  apply calling_proper; [done|]. intros [f|e]; [by apply bind_proper|apply ends_proper].
Qed.
Lemma deliver_proper : Forall proper_call (deliver own n item).2.
Proof.
  unfold deliver. destruct (negb _); [apply ends_proper|].
  destruct (td_ResourceType item =s _), (td_Retired item) eqn:Er.
  - apply calling_proper; [done|]. intros [[resolved status]|e]; [|apply ends_proper].
    repeat (match goal with |- context [if ?b then _ else _] => destruct b end; cbv zeta; try apply ends_proper);
      apply release_proper; intros e; apply ends_proper.
  - apply calling_proper; [done|]. intros [[resolved status]|e]; [|apply ends_proper].
    repeat (match goal with |- context [if ?b then _ else _] => destruct b end; try apply ends_proper);
      try (by apply upload_proper); apply release_proper; intros []; apply ends_proper.
  - apply release_proper. intros e. apply ends_proper.
  - by apply upload_proper.
Qed.

(** A retired source whose delivery succeeded was released by the last call; without
    a file there was nothing to release. *)
Definition final_call (file : string) (c : gatewayEntry) : Prop :=
  ca_Done c = true ∧
  (ca_Call c = GRelease file (td_ResourceType item) (td_ResourceID item) ∨
   (file = "" ∧ ca_Call c = GRetire (templateUploadRequestID item))).
Lemma deliver_retired file :
  td_Retired item = true → (deliver own n item).1 = (file, None) →
  ∃ l c, (deliver own n item).2 = l ++ [c] ∧ final_call file c ∧
         (file = "" → td_FileID item = "").
Proof.
  unfold deliver. destruct (negb _); [done|]. destruct (td_ResourceType item =s _); intros ->.
  - unfold retire_upload, calling. cbn. destruct (tg_retire _ _) as [[resolved status]|e]; [|done].
    destruct (both_differ _ _) eqn:Ed; [done|].
    destruct (empty_str resolved) eqn:Er; cbn.
    + destruct (empty_str (td_FileID item)) eqn:Ef; cbn.
      * intros [= <-]. eexists [], _. split; [done|]. apply streq_true in Ef. split; [split; [done|by right]|done].
      * intros [= <- E]. eexists [_], _. split; [done|]. apply streq_false in Ef.
        split; [|done]. split; [cbn; by rewrite E|by left].
    + rewrite Er. cbn. intros [= <- E]. eexists [_], _. split; [done|]. apply streq_false in Er.
      split; [|done]. split; [cbn; by rewrite E|by left].
  - cbn. intros [= <- E]. eexists [], _. split; [done|]. split; [|done]. split; [cbn; by rewrite E|by left].
Qed.

End Calls.

(** ** Histories *)

Definition file_state : Type := With TemplateTables * list gatewayEntry.
Definition named (o : Oracle) : Prop := ∀ k, @o_id o k ≠ "".

(** A transaction on the templates, one delivery of any source, or a change of other
    tables; the log keeps the calls, also those of a delivery that was rolled back. *)
Inductive file_step : file_state → file_state → Prop :=
  | step_create o meta item w log :
      named o → file_step (w, log) ((@CreateTemplate o meta item w).2, log)
  | step_update o meta item w log : file_step (w, log) ((@UpdateTemplate o meta item w).2, log)
  | step_replace o meta item w log :
      named o → file_step (w, log) ((@UpdateTemplateSource o meta item w).2, log)
  | step_delete o meta tenant id w log :
      named o → file_step (w, log) ((@DeleteTemplate o meta tenant id w).2, log)
  | step_backfill o tenant id w log :
      named o → file_step (w, log) ((@QueueTemplateFileBackfill o tenant id w).2, log)
  | step_deliver o g own tenant n id template w log :
      file_step (w, log) ((@process_source o g own tenant n id template w).2,
                          log ++ @process_calls o g own tenant n id template w)
  | step_rest d w log : file_step (w, log) (mkWith d (w_ext w), log).

(** The last call for the source released its file; without a file, it closed the
    upload request and the file service knew of none. *)
Definition settled (s : templateFileOutboxRecord) (log : list gatewayEntry) : Prop :=
  ∃ before c after, log = before ++ c :: after ∧ ca_Source c = ts_ID s ∧ ca_Done c = true ∧
    (ca_Call c = GRelease (ts_FileID s) (ts_ResourceType s) (ts_ResourceID s) ∨
     (ts_FileID s = "" ∧ ∃ request, ca_Call c = GRetire request)) ∧
    Forall (λ c', ca_Source c' ≠ ts_ID s) after.
Lemma settled_app s log more :
  settled s log → Forall (λ c', ca_Source c' ≠ ts_ID s) more → settled s (log ++ more).
Proof.
  intros (before & c & after & -> & Hc & Hd & Hcall & Ha) Hm. exists before, c, (after ++ more).
  split_and!; [by rewrite <- app_assoc|done..|by apply Forall_app].
Qed.

Record good_files (st : file_state) : Prop := {
  gf_sound : sound_sources (w_ext st.1);
  gf_settled : ∀ id s, tt_sources (w_ext st.1) !! id = Some s → released s = true → settled s st.2
}.

(** The calls of a delivery concern one pending source. *)
Lemma process_calls_pending (o : Oracle) (g : TemplateGateway) own tenant n id template w c :
  sound_sources (w_ext w) → c ∈ process_calls own tenant n id template w →
  ∃ s, tt_sources (w_ext w) !! id = Some s ∧ ts_DeliveryStatus s = "pending" ∧ ca_Source c = id ∧
       (uses_file (ca_Call c) = true → ts_Retired s = false).
Proof.
  intros Hs Hc. unfold process_calls, xquery in Hc.
  destruct (lock_source tenant id template (0%nat, w)) as [r s'] eqn:E. cbn in Hc.
  destruct r as [[source|]|]; [|by apply elem_of_nil in Hc..].
  apply lock_source_ok in E as [_ Hl]. destruct (Hl source eq_refl) as [Hf Hp]. cbn in Hf.
  apply find_source_some in Hf as [Hf _]. exists source.
  pose proof (deliver_proper own n (delivery_of source)) as Hall. rewrite Forall_forall in Hall.
  destruct (Hall c Hc) as [Hid Hr]. cbn in Hid, Hr. destruct (sb_ids _ _ Hs _ _ Hf). by subst.
Qed.

Lemma released_spec s : released s = true ↔ ts_Retired s = true ∧ ts_DeliveryStatus s = "delivered".
Proof. unfold released. by rewrite andb_true_iff, streq_true. Qed.

Lemma outcome_released r now s :
  released (source_outcome r now s) = true →
  ts_Retired s = true ∧ r.2 = None ∧
  ts_FileID (source_outcome r now s) = if empty_str r.1 then ts_FileID s else r.1.
Proof.
  rewrite released_spec. destruct (source_outcome_identity r now s) as (_ & _ & _ & -> & _).
  intros [Hr Hd]. split; [done|]. unfold source_outcome in *. destruct r.2 as [e|]; [|done].
  destruct (retries_upload _ _); [done|]. by destruct (bool_decide _).
Qed.

(** A step that releases nothing. *)
Lemma quiet_good x w w' log :
  good_files (w, log) → kept None w w' → x = log → good_files (w', x).
Proof.
  intros [Hs Hset] [Hs' [_ Hn]] ->. split; [done|]. cbn. intros id s Hid Hr.
  apply (Hset id); [|done]. by apply Hn.
Qed.
Lemma deliver_good (o : Oracle) (g : TemplateGateway) own tenant n id template w log :
  good_files (w, log) →
  good_files ((process_source own tenant n id template w).2,
              log ++ process_calls own tenant n id template w).
Proof.
  intros [Hs Hset]. cbn in Hs, Hset.
  assert (∀ i s, tt_sources (w_ext w) !! i = Some s → released s = true →
            settled s (log ++ process_calls own tenant n id template w)) as Hold.
  { intros i s Hi Hr. apply settled_app; [by eapply Hset|]. apply Forall_forall. intros c Hc.
    destruct (process_calls_pending o g _ _ _ _ _ _ _ Hs Hc) as (q & Hq & Hp & -> & _).
    destruct (sb_ids _ _ Hs _ _ Hi) as [Hsi _]. intros ->. rewrite Hsi in Hq. simplify_eq.
    apply released_spec in Hr. destruct Hr. congruence. }
  unfold process_source. destruct (xtransaction _ w) as [r w'] eqn:E. cbn.
  apply xtransaction_cases in E as [[-> _]|(e & t & E & _)]; [by split|].
  apply process_kept in E as [[Hs' Hl] Hcase]; [|done]. cbn in *. split; [done|]. cbn.
  intros i s Hi Hr. destruct (decide (i = id)) as [->|Hne].
  2: { apply (Hold i); [|done]. apply (sl_new _ _ _ Hl); [done|done|congruence]. }
  destruct Hcase as [(_ & Hw & _)|(source & now & s1 & Hlock & Hrow & Hp & Hnew)].
  { apply (Hold id); [|done]. congruence. }
  simplify_eq. apply outcome_released in Hr as (Hret & Herr & Hfile).
  destruct (deliver own n (delivery_of source)) as [[file e'] calls] eqn:Ed. cbn in Herr, Hfile. subst e'.
  destruct (deliver_retired own n (delivery_of source) file Hret) as (l & c & Hcalls & [Hd Hcall] & Hempty);
    [by rewrite Ed|]. rewrite Ed in Hcalls. cbn in Hcalls. subst calls.
  destruct (source_outcome_identity (file, None) now source) as (I1 & _ & _ & _ & I5 & I6).
  assert (process_calls own tenant n id template w = l ++ [c]) as ->.
  { unfold process_calls, xquery. rewrite Hlock. cbn. by rewrite Ed. }
  cbn [fst]. exists (log ++ l), c, []. rewrite I1, I5, I6, Hfile. split_and!; [by rewrite <- app_assoc| |done| |done].
  - pose proof (deliver_proper own n (delivery_of source)) as Hall. rewrite Ed, Forall_forall in Hall.
    apply (Hall c). apply elem_of_app. right. by left.
  - cbn in Hcall, Hempty. destruct Hcall as [Hcall|[-> Hcall]].
    + left. rewrite Hcall. destruct (empty_str file) eqn:Ef; [|done].
      apply streq_true in Ef. rewrite Ef, Hempty by done. done.
    + right. split; [by apply Hempty|eauto].
Qed.
(** What one step does to the tables. *)
Lemma file_step_kept st st' :
  sound_sources (w_ext st.1) → file_step st st' → ∃ x, kept x st.1 st'.1.
Proof.
  intros Hs Hstep. destruct Hstep as [o meta item w log Hn|o meta item w log|o meta item w log Hn
    |o meta tenant id w log Hn|o tenant id w log Hn|o g own tenant n id template w log|d w log].
  1-5: exists None; apply (transaction_kept _ None); [done|intros a s' E; cbn in *].
  - by eapply create_kept in E.
  - by eapply update_kept in E.
  - by eapply replace_kept in E.
  - by eapply delete_kept in E.
  - by eapply backfill_kept in E.
  - exists (Some id). apply (transaction_kept _ (Some id)); [done|]. intros a s' E.
    by apply process_kept in E as [Hk _].
  - exists None. split; [done|apply sources_later_refl].
Qed.
Lemma file_step_good st st' : good_files st → file_step st st' → good_files st'.
Proof.
  intros Hg Hstep. destruct Hstep as [o meta item w log Hn|o meta item w log|o meta item w log Hn
    |o meta tenant id w log Hn|o tenant id w log Hn|o g own tenant n id template w log|d w log].
  1-5: apply (quiet_good _ w _ log); [done| |done]; apply (transaction_kept _ None);
    [apply Hg|intros a s' E; cbn in *].
  - eapply create_kept in E; try done. apply Hg.
  - eapply update_kept in E; try done. apply Hg.
  - eapply replace_kept in E; try done. apply Hg.
  - eapply delete_kept in E; try done. apply Hg.
  - eapply backfill_kept in E; try done. apply Hg.
  - by apply deliver_good.
  - destruct Hg as [Hs Hset]. by split.
Qed.
Lemma file_steps_good st st' : rtc file_step st st' → good_files st → good_files st'.
Proof. induction 1; eauto using file_step_good. Qed.

(** A delivery that locks the template of its source does not find it replaced. *)
Lemma lock_current (o : Oracle) tenant id s w :
  sound_sources (w_ext w) → tt_sources (w_ext w) !! id = Some s →
  xquery (lock_source tenant id (ts_TemplateID s)) w ≠ Err ErrVersionConflict.
Proof.
  intros Hs Hid. unfold xquery, lock_source, xtake, xread, xnow, xguard, mbind, XTx_bind. cbn.
  destruct (o_fault 0); [done|]. cbn. destruct (o_fault 1); [done|]. cbn.
  destruct (find_source tenant id (w_ext w)) as [q|] eqn:Eq; [|done]. cbn.
  apply find_source_some in Eq as [Eq Ht]. rewrite Hid in Eq. injection Eq as <-.
  destruct (_ || _); [done|]. cbn. destruct (ts_Retired s) eqn:Er; [done|]. cbn.
  destruct (sb_current _ _ Hs _ _ Hid Er) as (_ & r & Hr & Hten & Hg).
  assert (find_template tenant (ts_TemplateID s) (w_ext w) = Some r) as ->
    by (apply find_template_some; split; [done|congruence]).
  destruct (sb_ids _ _ Hs _ _ Hid) as [-> _]. rewrite Hg, streq_refl. done.
Qed.

Lemma calls_after_retirement st st' id s :
  good_files st → rtc file_step st st' → tt_sources (w_ext st.1) !! id = Some s →
  ts_Retired s = true →
  ∃ more, st'.2 = st.2 ++ more ∧
          ∀ c, c ∈ more → ca_Source c = id → uses_file (ca_Call c) = false.
Proof.
  intros Hg Hsteps. revert s. induction Hsteps as [st|st st1 st2 Hstep _ IH]; intros s Hid Hr.
  { exists []. split; [by rewrite app_nil_r|]. by intros c Hc%elem_of_nil. }
  pose proof (file_step_good _ _ Hg Hstep) as Hg1.
  assert (∃ s1, tt_sources (w_ext st1.1) !! id = Some s1 ∧ ts_Retired s1 = true) as (s1 & Hid1 & Hr1).
  { destruct (file_step_kept _ _ (gf_sound _ Hg) Hstep) as (x & _ & Hl).
    destruct (sl_kept _ _ _ Hl id s Hid) as (s1 & H1 & H2). exists s1. split; [done|by apply H2]. }
  destruct (IH Hg1 s1 Hid1 Hr1) as (more & -> & Hmore).
  assert (∃ now, st1.2 = st.2 ++ now ∧ ∀ c, c ∈ now → ca_Source c = id → uses_file (ca_Call c) = false)
    as (now & -> & Hnow).
  { destruct Hstep; cbn in *; try (exists []; split; [by rewrite app_nil_r|by intros c Hc%elem_of_nil]).
    eexists. split; [done|]. intros c Hc Hsrc.
    apply process_calls_pending in Hc as (q & Hq & _ & Hci & Huse); [|apply Hg].
    destruct (uses_file (ca_Call c)); [|done]. rewrite <- Hci, Hsrc, Hid in Hq. simplify_eq.
    rewrite Huse in Hr; done. }
  exists (now ++ more). split; [by rewrite app_assoc|]. intros c [Hc|Hc]%elem_of_app; auto.
Qed.

(** C18: Whatever is created, changed, deleted, backfilled and delivered: an active
    source is the current source of its template, so that no delivery of it fails
    because the template moved on; and a source that is retired and delivered was
    released at the file service, for its file and its resource, after every other
    call made for it, or its upload request was closed before it had produced a file. *)
Theorem template_sources_settled st st' id s :
  good_files st → rtc file_step st st' → tt_sources (w_ext st'.1) !! id = Some s →
  (ts_Retired s = false →
   (∃ t, tt_templates (w_ext st'.1) !! ts_TemplateID s = Some t ∧ tr_TenantID t = ts_TenantID s ∧
         tr_GatewaySourceID t = id) ∧
   ∀ (o : Oracle) tenant,
     xquery (lock_source tenant id (ts_TemplateID s)) st'.1 ≠ Err ErrVersionConflict) ∧
  (ts_Retired s = true → ts_DeliveryStatus s = "delivered" → settled s st'.2).
Proof.
  intros Hg Hsteps Hid. pose proof (file_steps_good _ _ Hsteps Hg) as [Hs Hset]. split.
  - intros Hr. split; [by destruct (sb_current _ _ Hs _ _ Hid Hr)|].
    intros o tenant. by apply lock_current.
  - intros Hr Hd. apply (Hset id s Hid). by apply released_spec.
Qed.

(** C19: A retired source is never used again. Whatever runs after its template was
    given another document or was deleted, no call uploads it or binds its file, and
    the source stays retired. *)
Theorem retired_source_unused st st' id s :
  good_files st → rtc file_step st st' → tt_sources (w_ext st.1) !! id = Some s →
  ts_Retired s = true →
  (∃ s', tt_sources (w_ext st'.1) !! id = Some s' ∧ ts_Retired s' = true) ∧
  ∃ more, st'.2 = st.2 ++ more ∧
          ∀ c, c ∈ more → ca_Source c = id → uses_file (ca_Call c) = false.
Proof.
  intros Hg Hsteps Hid Hr. split; [|by eapply calls_after_retirement].
  revert s Hid Hr. induction Hsteps as [st|st st1 st2 Hstep _ IH]; intros s Hid Hr; [eauto|].
  destruct (file_step_kept _ _ (gf_sound _ Hg) Hstep) as (x & _ & Hl).
  destruct (sl_kept _ _ _ Hl id s Hid) as (s1 & H1 & H2).
  apply (IH (file_step_good _ _ Hg Hstep) s1 H1). by apply H2.
Qed.

(** ** A scenario *)

Definition no_templates : With TemplateTables := mkWith empty_db (mkTemplates ∅ ∅).
(** An upload produces file "f"; afterwards its request is known. *)
Definition file_service (known : bool) : TemplateGateway := {|
  tg_retire := λ _ _, Ok (if known then "f" else "", "READY");
  tg_resolve := λ _ _, Ok (if known then ("f", "READY") else ("", "NOT_FOUND"));
  tg_release := λ _ _, Ok tt; tg_upload := λ _ _, Ok "f"; tg_bind := λ _ _, Ok tt;
  tg_license := λ _ _, Granted
|}.
Definition template_document (id content : string) (version : Z) : Template :=
  mkTemplate id "t1" "Standard" "standard.docx" DefaultNumberFormat [] content "" "PENDING"
    version 0 "ann".
Definition run_delivery (call : string) (known : bool) (id : string) (st : file_state) : file_state :=
  ((@process_source (fine call) (file_service known) "t1" "t1" 0 id "T" st.1).2,
   st.2 ++ @process_calls (fine call) (file_service known) "t1" "t1" 0 id "T" st.1).
Definition created_file : file_state :=
  ((@CreateTemplate (fine "a") sample_meta (template_document "T" "one" 1) no_templates).2, []).
Definition bound_file : file_state := run_delivery "b" false "a.0" created_file.
Definition replaced_file : file_state :=
  ((@UpdateTemplateSource (fine "c") sample_meta (template_document "T" "two" 1) bound_file.1).2,
   bound_file.2).
Definition released_file : file_state := run_delivery "d" true "a.0" replaced_file.

Lemma no_templates_good : good_files (no_templates, []).
Proof. split; [split|]; cbn; intros ? ? H; by rewrite lookup_empty in H. Qed.
Lemma fine_named call c : named (fine (String c call)).
Proof. intros k. done. Qed.
Lemma replaced_reached : rtc file_step (no_templates, []) replaced_file.
Proof.
  eapply rtc_l; [apply (step_create (fine "a")), fine_named|].
  eapply rtc_l; [apply (step_deliver (fine "b") (file_service false))|]. apply rtc_once. apply (step_replace (fine "c")), fine_named.
Qed.
Lemma released_reached : rtc file_step replaced_file released_file.
Proof. apply rtc_once. apply (step_deliver (fine "d") (file_service true)). Qed.
Lemma template_sources_settled_witness :
  ∃ s, tt_sources (w_ext released_file.1) !! "a.0" = Some s ∧ settled s released_file.2.
Proof.
  assert (∃ s, tt_sources (w_ext released_file.1) !! "a.0" = Some s ∧ ts_Retired s = true ∧
               ts_DeliveryStatus s = "delivered") as (s & Hs & Hr & Hd)
    by (eexists; split_and!; vm_compute; reflexivity).
  exists s. split; [done|].
  assert (rtc file_step (no_templates, []) released_file) as Hreach
    by (etrans; [exact replaced_reached|exact released_reached]).
  destruct (template_sources_settled (no_templates, []) released_file "a.0" s no_templates_good Hreach Hs)
    as [_ Hset]. by apply Hset.
Defined.
Lemma retired_source_unused_witness :
  ∃ s more, tt_sources (w_ext replaced_file.1) !! "a.0" = Some s ∧
    released_file.2 = replaced_file.2 ++ more ∧ length more = 2%nat.
Proof.
  assert (∃ s, tt_sources (w_ext replaced_file.1) !! "a.0" = Some s ∧ ts_Retired s = true)
    as (s & Hs & Hr) by (eexists; split; vm_compute; reflexivity).
  destruct (retired_source_unused replaced_file released_file "a.0" s
    (file_steps_good _ _ replaced_reached no_templates_good) released_reached Hs Hr) as [_ (more & Hm & _)].
  exists s, more. split_and!; [done|done|]. apply (f_equal length) in Hm. rewrite length_app in Hm.
  revert Hm. vm_compute. by intros [= <-].
Defined.
