(* ===== verification/NumberAudit.v ===== *)
(** * migration/preflight.go: the audit of contract numbers

    Which numbered contracts share a number, which are not in the registry and which
    are registered for another contract; and the check before the registry is
    created.  Every statement runs on its own: others may write in between. *)

From stdpp Require Import relations.
From Stdlib Require Import Ascii.
From stdpp Require Import sorting.
From S2P Require Import Prelude GoStrings Decimal GoTime BusinessClock Status NumberRule.
From S2P Require Import PaymentTerm ProjectService ImportPolicy ApprovalRule Workflow Store.
From S2P Require Import Outbound Numbering Repository Service Tables.
From S2P Require Import Scenario Changes Refinement Integrity.

#[local] Open Scope string_scope.
#[local] Open Scope Z_scope.
#[local] Open Scope list_scope.

(** What MySQL adds: UPPER, the cut of a GROUP_CONCAT at its maximal length, and the
    order in which a statement meets the rows. *)
Class AuditSql := {
  au_upper : string → string;
  au_cut : string → string;
  au_rows : nat → list contractRecord → list contractRecord;
  au_rows_perm : ∀ t l, au_rows t l ≡ₚ l
}.

Definition contractTable : string := "con_contract".
Definition registryTable : string := "con_contract_number_registry".
Definition auditSampleLimit : nat := 20.

(** ** The report *)

Record DuplicateContractNumber : Type := mkDuplicate {
  dn_Normalized : string; dn_Numbers : list string; dn_Count : Z; dn_Tenants : list string
}.
Record UnregisteredContractNumber : Type := mkUnregistered {
  un_ContractNumber : string; un_TenantID : string; un_ContractID : string
}.
Record RegistryMismatch : Type := mkMismatch {
  mm_ContractNumber : string; mm_ContractTenantID : string; mm_ContractID : string;
  mm_RegistryTenantID : string; mm_RegistryContractID : string
}.
Record AuditReport : Type := mkAuditReport {
  ar_Duplicates : list DuplicateContractNumber; ar_Unregistered : list UnregisteredContractNumber;
  ar_UnregisteredTotal : Z; ar_Mismatched : list RegistryMismatch; ar_MismatchedTotal : Z
}.
Definition Total (r : AuditReport) : Z :=
  Z.of_nat (length (ar_Duplicates r)) + ar_UnregisteredTotal r + ar_MismatchedTotal r.
Definition Clean (r : AuditReport) : bool :=
  (length (ar_Duplicates r) =? 0)%nat && (ar_UnregisteredTotal r =? 0) && (ar_MismatchedTotal r =? 0).

(** ** Texts *)

(** TRIM: the spaces at both ends. *)
Fixpoint drop_spaces (l : list byte) : list byte :=
  match l with
  | c :: l' => if code c =? 32 then drop_spaces l' else l
  | [] => []
  end.
Definition sql_trim (s : string) : string :=
  of_bytes (reverse (drop_spaces (reverse (drop_spaces (bytes s))))).

Definition splitConcatenated (value : string) (separator : byte) : list string :=
  if empty_str value then []
  else filter (λ part, part ≠ "") (map of_bytes (split_bytes separator (bytes value))).

Definition string_order (a b : string) : Prop := String.leb a b = true.
#[export] Instance string_order_dec : RelDecision string_order.
Proof. intros a b. unfold string_order. apply _. Defined.
Definition unionStrings (left right : list string) : list string :=
  match right with
  | [] => left
  | _ => merge_sort string_order (remove_dups (left ++ right))
  end.

(** ** Groups *)

(** GROUP BY: rows with equal keys, in the order of the rows. *)
Fixpoint add_row {A} (key : A → string) (x : A) (groups : list (list A)) : list (list A) :=
  match groups with
  | [] => [[x]]
  | g :: rest =>
      if match head g with Some y => key y =s key x | None => false end then (g ++ [x]) :: rest
      else g :: add_row key x rest
  end.
Definition group_by {A} (key : A → string) (l : list A) : list (list A) :=
  foldl (λ groups x, add_row key x groups) [] l.

Section Queries.
Context `{Collation} `{AuditSql}.

(** [contract_number IS NOT NULL AND contract_number <> ''], in the column's collation. *)
Definition contractNumberFilter (c : contractRecord) : bool :=
  match c_ContractNumber c with
  | Some number => negb (collate number =s collate "")
  | None => false
  end.
Definition number_of (c : contractRecord) : string := default "" (c_ContractNumber c).
Definition numbered_rows (t : nat) (d : DB) : list contractRecord :=
  filter (λ c, contractNumberFilter c = true) (au_rows t (map snd (map_to_list (db_contracts d)))).

(** GROUP_CONCAT(DISTINCT ... ORDER BY ...) of texts that compare by their [key]. *)
Definition key_order (key : string → string) (a b : string) : Prop := string_order (key a) (key b).
#[local] Instance key_order_dec key : RelDecision (key_order key).
Proof. intros a b. unfold key_order. apply _. Defined.
Definition group_concat (key : string → string) (separator : string) (values : list string) : string :=
  au_cut (String.concat separator
    (merge_sort (key_order key) (omap head (group_by key values)))).

Definition normalized (c : contractRecord) : string := au_upper (sql_trim (number_of c)).
Definition tenants_of (g : list contractRecord) : list string :=
  splitConcatenated (group_concat id "," (map c_TenantID g)) ","%char.
(** HAVING occurrences > 1; the columns are those of the group's first row. *)
Definition repeated (key : contractRecord → string) (l : list contractRecord)
    : list (contractRecord * list contractRecord) :=
  omap (λ g, match g with
             | c :: _ :: _ => Some (c, g)
             | _ => None
             end) (group_by key l).
Definition exact_groups (t : nat) (d : DB) : list DuplicateContractNumber :=
  map (λ '(c, g), mkDuplicate (normalized c) (splitConcatenated (number_of c) "|"%char)
                    (Z.of_nat (length g)) (tenants_of g))
    (repeated (λ c, collate (number_of c)) (numbered_rows t d)).
Definition normalized_groups (t : nat) (d : DB) : list DuplicateContractNumber :=
  map (λ '(c, g), mkDuplicate (normalized c)
                    (splitConcatenated (group_concat collate "|" (map number_of g)) "|"%char)
                    (Z.of_nat (length g)) (tenants_of g))
    (repeated (λ c, collate (normalized c)) (numbered_rows t d)).

(** The groups of the first statement, with what the second says of them. *)
Definition merge_group (existing group : DuplicateContractNumber) : DuplicateContractNumber :=
  mkDuplicate (dn_Normalized existing) (unionStrings (dn_Numbers existing) (dn_Numbers group))
    (Z.max (dn_Count existing) (dn_Count group))
    (unionStrings (dn_Tenants existing) (dn_Tenants group)).
Definition normalized_order (a b : DuplicateContractNumber) : Prop :=
  string_order (dn_Normalized a) (dn_Normalized b).
#[local] Instance normalized_order_dec : RelDecision normalized_order.
Proof. intros a b. unfold normalized_order. apply _. Defined.
Definition mergeDuplicateNumberReport (released informational : list DuplicateContractNumber)
    : list DuplicateContractNumber :=
  let merged := foldl (λ m g, <[dn_Normalized g := g]> m)
                  (∅ : gmap string DuplicateContractNumber) released in
  let merged := foldl (λ m g, match m !! dn_Normalized g with
                              | None => m
                              | Some existing => <[dn_Normalized g := merge_group existing g]> m
                              end) merged informational in
  merge_sort normalized_order (map snd (map_to_list merged)).

(** ** Joins with the registry *)

Definition registry_row (d : DB) (c : contractRecord) : option contractNumberRegistryRecord :=
  db_numbers d ≫= λ n, nt_registry n !! collate (number_of c).
Definition unregistered_rows (t : nat) (d : DB) : list contractRecord :=
  filter (λ c, registry_row d c = None) (numbered_rows t d).
Definition mismatched (c : contractRecord) (r : contractNumberRegistryRecord) : bool :=
  negb (nr_TenantID r =s c_TenantID c) || negb (nr_ContractID r =s c_ID c).
Definition mismatched_rows (t : nat) (d : DB) : list (contractRecord * contractNumberRegistryRecord) :=
  omap (λ c, match registry_row d c with
             | Some r => if mismatched c r then Some (c, r) else None
             | None => None
             end) (numbered_rows t d).
(** [contract_number, tenant_id]. *)
Definition detail_order (a b : contractRecord) : Prop :=
  String.ltb (collate (number_of a)) (collate (number_of b)) = true ∨
  (collate (number_of a) = collate (number_of b) ∧ string_order (c_TenantID a) (c_TenantID b)).
#[local] Instance detail_order_dec : RelDecision detail_order.
Proof. intros a b. unfold detail_order. apply _. Defined.
Definition pair_order (a b : contractRecord * contractNumberRegistryRecord) : Prop :=
  detail_order a.1 b.1.
#[local] Instance pair_order_dec : RelDecision pair_order.
Proof. intros a b. unfold pair_order. apply _. Defined.

End Queries.

(** ** The audit *)

Section Audit.
Context `{!Requests unit} `{Collation} `{AuditSql}.
Notation Req := (Req unit).

(** One statement outside of a transaction. *)
Definition statement {A} (f : nat → DB → res A) : Req A :=
  n ← rtick;
  rread_under (in_store (r ← @query (rq_oracle n) _ (f n); lift r)).

Definition tableExists (table : string) : Req bool :=
  statement (λ _ d, Ok ((table =s contractTable) ||
    ((table =s registryTable) && bool_decide (is_Some (db_numbers d))))).

Definition duplicateContractNumbers : Req (list DuplicateContractNumber) :=
  exact ← statement (λ t d, Ok (exact_groups t d));
  match exact with
  | [] => mret []
  | _ =>
      informational ← statement (λ t d, Ok (normalized_groups t d));
      mret (mergeDuplicateNumberReport exact informational)
  end.

(** A statement on the registry fails when the table is gone. *)
Definition with_registry {A} (f : nat → DB → A) : nat → DB → res A := λ t d,
  match db_numbers d with None => Err ErrRelationMissing | Some _ => Ok (f t d) end.

Definition auditUnregisteredContractNumbers : Req (Z * list UnregisteredContractNumber) :=
  total ← statement (with_registry (λ t d, Z.of_nat (length (unregistered_rows t d))));
  if total =? 0 then mret (0, [])
  else
    rows ← statement (with_registry (λ t d,
      take auditSampleLimit (merge_sort detail_order (unregistered_rows t d))));
    mret (total, map (λ c, mkUnregistered (number_of c) (c_TenantID c) (c_ID c)) rows).
Definition auditRegistryMismatches : Req (Z * list RegistryMismatch) :=
  total ← statement (with_registry (λ t d, Z.of_nat (length (mismatched_rows t d))));
  if total =? 0 then mret (0, [])
  else
    rows ← statement (with_registry (λ t d,
      take auditSampleLimit (merge_sort pair_order (mismatched_rows t d))));
    mret (total, map (λ '(c, r), mkMismatch (number_of c) (c_TenantID c) (c_ID c) (nr_TenantID r)
                                   (nr_ContractID r)) rows).

Definition AuditContractNumberRegistry : Req AuditReport :=
  contracts ← tableExists contractTable;
  rcheck (negb contracts) ErrOther;;
  registry ← tableExists registryTable;
  rcheck (negb registry) ErrOther;;
  duplicates ← duplicateContractNumbers;
  unregistered ← auditUnregisteredContractNumbers;
  mismatches ← auditRegistryMismatches;
  mret (mkAuditReport duplicates unregistered.2 unregistered.1 mismatches.2 mismatches.1).

(** [Some groups]: the conflict that stops the migration. *)
Definition PreflightContractNumbers : Req (option (list DuplicateContractNumber)) :=
  contracts ← tableExists contractTable;
  if negb contracts then mret None
  else
    groups ← duplicateContractNumbers;
    mret (match groups with [] => None | _ => Some groups end).

End Audit.

(** ** The daily audit: workflows/number_audit.go *)

Record NumberAuditResult : Type := mkAuditResult {
  nu_Duplicates : Z; nu_Unregistered : Z; nu_Mismatches : Z; nu_Total : Z; nu_Samples : list string
}.
Definition numberAuditSampleLimit : nat := 3.
Definition add_sample (samples : list string) (number : string) : list string :=
  if empty_str number || (numberAuditSampleLimit <=? length samples)%nat || contains samples number
  then samples else samples ++ [number].
Definition numberAuditSamples (report : AuditReport) : list string :=
  foldl add_sample []
    (map dn_Normalized (ar_Duplicates report) ++ map un_ContractNumber (ar_Unregistered report) ++
     map mm_ContractNumber (ar_Mismatched report)).
Definition numberAuditResultFromReport (report : AuditReport) : NumberAuditResult :=
  mkAuditResult (Z.of_nat (length (ar_Duplicates report))) (ar_UnregisteredTotal report)
    (ar_MismatchedTotal report) (Total report) (numberAuditSamples report).

Section Daily.
Context `{!Requests unit} `{Collation} `{AuditSql}.

(** The activity of a worker with an auditor, or without. *)
Definition AuditContractNumbers (configured : bool) : Req unit NumberAuditResult :=
  rcheck (negb configured) ErrOther;;
  report ← AuditContractNumberRegistry;
  mret (numberAuditResultFromReport report).
(** The workflow: at most five attempts of the activity. *)
Fixpoint ContractNumberAuditWorkflow (attempts : nat) (configured : bool)
    : Req unit NumberAuditResult :=
  match attempts with
  | O => rrefuse ErrOther
  | S O => AuditContractNumbers configured
  | S attempts =>
      r ← rtry (AuditContractNumbers configured);
      match r with
      | Ok result => mret result
      | Err _ => ContractNumberAuditWorkflow attempts configured
      end
  end.

End Daily.

(** * What the audit of contract numbers finds

    While nobody changes contracts or numbers, the audit is exact: its totals count
    the numbered contracts without a registry row and with somebody else's, and it is
    clean exactly when every numbered contract owns its row.  In an installation
    with a rule, whose contracts are created without numbers, it is always clean. *)

(** ** Groups *)

Section Groups.
Context {A : Type} (key : A → string).

(** Non-empty groups of equal keys, with different keys. *)
Definition group_key (g : list A) : string := match g with x :: _ => key x | [] => "" end.
Definition good_groups (groups : list (list A)) : Prop :=
  Forall (λ g, g ≠ [] ∧ Forall (λ x, key x = group_key g) g) groups ∧ NoDup (map group_key groups).

Lemma add_row_spec x groups :
  good_groups groups →
  good_groups (add_row key x groups) ∧ concat (add_row key x groups) ≡ₚ x :: concat groups ∧
  (∀ k, k ∈ map group_key (add_row key x groups) → k = key x ∨ k ∈ map group_key groups).
Proof.
  intros [Hg Hn]. induction Hg as [|g groups [Hne Hall] Hg IH]; cbn [add_row].
  { split_and!; [|done|by set_solver]. split; [|by apply NoDup_singleton].
    repeat constructor; done. }
  cbn [map] in Hn. apply NoDup_cons in Hn as [Hnotin Hn].
  destruct g as [|y g]; [done|]. cbn [head].
  destruct (key y =s key x) eqn:E.
  - assert (key y = key x) as Ek by by apply streq_true.
    split_and!.
    + split; [|cbn; by apply NoDup_cons]. constructor; [|done]. split; [done|].
      apply Forall_app. split; [done|]. by repeat constructor.
    + cbn. rewrite <- app_assoc. cbn. rewrite <- Permutation_middle. by rewrite perm_swap.
    + cbn. set_solver.
  - destruct (IH Hn) as ([Hg' Hn'] & Hp & Hk). assert (key y ≠ key x) as Ek.
    { intros Ek. rewrite Ek in E. by rewrite streq_refl in E. }
    split_and!.
    + split; [by constructor|]. cbn [map]. apply NoDup_cons. split; [|done].
      intros [Hx|Hin]%Hk; [|by apply Hnotin]. by apply Ek.
    + cbn [concat]. rewrite Hp. by rewrite Permutation_middle.
    + cbn [map]. intros k [->|Hin]%elem_of_cons; [right; by left|].
      apply Hk in Hin as [?|?]; [by left|right; by right].
Qed.

Lemma group_by_spec l : good_groups (group_by key l) ∧ concat (group_by key l) ≡ₚ l.
Proof.
  unfold group_by.
  enough (∀ groups, good_groups groups →
    good_groups (foldl (λ groups x, add_row key x groups) groups l) ∧
    concat (foldl (λ groups x, add_row key x groups) groups l) ≡ₚ l ++ concat groups) as H.
  { destruct (H []) as [Hg Hp]; [split; [constructor|apply NoDup_nil_2]|].
    split; [done|]. by rewrite Hp, app_nil_r. }
  induction l as [|x l IH]; intros groups Hg; cbn [foldl]; [done|].
  destruct (add_row_spec x groups Hg) as (Hg' & Hp & _). destruct (IH _ Hg') as [? Hp'].
  split; [done|]. rewrite Hp', Hp. cbn. by rewrite Permutation_middle.
Qed.

Definition repeats (g : list A) : bool := (2 <=? length g)%nat.

(** No group has two rows exactly when all keys differ. *)
Lemma singles_distinct groups :
  good_groups groups → Forall (λ g, repeats g = false) groups ↔ NoDup (map key (concat groups)).
Proof.
  intros [Hg Hn]. split.
  - intros Hs. assert (map key (concat groups) = map group_key groups) as ->; [|done].
    clear Hn. induction Hg as [|g groups [Hne Hall] Hg IH]; [done|].
    apply Forall_cons in Hs as [Hs Hss]. cbn [concat map]. rewrite map_app, IH by done.
    destruct g as [|x [|y g]]; [done|done|discriminate Hs].
  - intros Hd. clear Hn. induction Hg as [|g groups [Hne Hall] Hg IH]; [constructor|].
    cbn [concat] in Hd. rewrite map_app in Hd. apply NoDup_app in Hd as (Hd & _ & Hd').
    constructor; [|by apply IH]. destruct g as [|x [|y g]]; [done..|].
    exfalso. apply Forall_cons in Hall as [Ex [Ey _]%Forall_cons]. cbn in Hd, Ex, Ey.
    apply NoDup_cons in Hd as [Hd _]. apply Hd. rewrite <- Ey. left.
Qed.

End Groups.

Lemma repeated_nil (key : contractRecord → string) l :
  repeated key l = [] ↔ NoDup (map key l).
Proof.
  destruct (group_by_spec key l) as [Hg Hp].
  assert (NoDup (map key l) ↔ NoDup (map key (concat (group_by key l)))) as -> by (by rewrite Hp).
  rewrite <- singles_distinct by exact Hg.
  unfold repeated. generalize (group_by key l) as groups. intros groups. clear.
  induction groups as [|[|x [|y g]] groups IH]; cbn; rewrite ?Forall_cons, ?IH; try tauto.
  - split; [by constructor|done].
  - split; [intros [=]|by intros [[=] _]].
Qed.

(** The second statement adds to groups, it makes none disappear. *)
Notation groups_by_name := (gmap string DuplicateContractNumber).
Lemma released_nonempty l (m : groups_by_name) :
  m ≠ ∅ → foldl (λ m g, <[dn_Normalized g := g]> m) m l ≠ ∅.
Proof.
  revert m. induction l as [|h l IH]; intros m Hne; [done|].
  cbn [foldl]. apply IH, insert_non_empty.
Qed.
Lemma informational_dom l (m : groups_by_name) :
  dom (foldl (λ m g, match m !! dn_Normalized g with
                     | None => m
                     | Some existing => <[dn_Normalized g := merge_group existing g]> m
                     end) m l) = dom m.
Proof.
  revert m. induction l as [|g l IH]; intros m; [done|].
  cbn [foldl]. rewrite IH. destruct (m !! dn_Normalized g) as [e|] eqn:E; [|done].
  rewrite dom_insert_L. apply elem_of_dom_2 in E. set_solver.
Qed.
Lemma merge_nil released informational :
  mergeDuplicateNumberReport released informational = [] ↔ released = [].
Proof.
  unfold mergeDuplicateNumberReport. set (merged := foldl _ _ informational).
  assert (merged = ∅ ↔ released = []) as <-.
  { rewrite <- dom_empty_iff_L. subst merged. rewrite informational_dom, dom_empty_iff_L.
    split; [|by intros ->]. destruct released as [|g l]; [done|]. cbn [foldl].
    intros E. by apply (released_nonempty l _ (insert_non_empty ∅ (dn_Normalized g) g)) in E. }
  split; [|by intros ->]. intros E. apply map_to_list_empty_iff.
  assert (map snd (map_to_list merged) ≡ₚ []) as Hp.
  { rewrite <- E. symmetry. apply merge_sort_Permutation. }
  apply Permutation_nil_r in Hp. by destruct (map_to_list merged).
Qed.

(** ** What every state the audit can meet says *)

Section Runs.
Context `{!Requests unit} `{Collation} `{AuditSql}.
Hypothesis no_fault : ∀ n t, @o_fault (rq_oracle n) t = false.
(** [I] holds of the tables and the others keep it. *)
Variable I : DB → Prop.
Hypothesis others_keep : ∀ n w, I (w_store w) → I (w_store (rq_others n w)).

(** The program succeeds with a value that satisfies [P]. *)
Definition answers {A} (m : Req unit A) (P : A → Prop) : Prop :=
  ∀ s, I (w_store (rn_tables s)) →
    ∃ a s', m s = (Ok a, s') ∧ I (w_store (rn_tables s')) ∧ P a.

Lemma answers_ret {A} (a : A) (P : A → Prop) : P a → answers (mret a) P.
Proof using. intros Ha s Hs. by exists a, s. Qed.
Lemma answers_bind {A B} (m : Req unit A) (f : A → Req unit B) (P : A → Prop) (Q : B → Prop) :
  answers m P → (∀ a, P a → answers (f a) Q) → answers (m ≫= f) Q.
Proof using.
  intros Hm Hf s Hs. destruct (Hm s Hs) as (a & s1 & E & Hs1 & Ha).
  destruct (Hf a Ha s1 Hs1) as (b & s2 & E' & ? & ?). exists b, s2.
  unfold mbind, Req_bind. rewrite E. by split_and!.
Qed.
Lemma answers_check b e : b = false → answers (rcheck b e) (λ _, True).
Proof using. intros -> s Hs. by exists tt, s. Qed.
Lemma answers_statement {A} (f : nat → DB → res A) (P : A → Prop) :
  (∀ t d, I d → ∃ a, f t d = Ok a ∧ P a) → answers (statement f) P.
Proof using no_fault others_keep.
  intros Hf [n w] Hs. cbn in Hs. apply (others_keep n) in Hs.
  destruct (Hf n _ Hs) as (a & E & Ha). exists a, (mkRun (S n) (rq_others n w)).
  split; [|by split]. unfold statement, mbind, Req_bind, rtick, rread_under, xquery, in_store.
  cbn [rn_step rn_tables]. unfold Tx_bind, query. rewrite no_fault. cbn. unfold lift. by rewrite E.
Qed.

Hypothesis has_numbers : ∀ d, I d → is_Some (db_numbers d).

(** A count, and the details when it is not zero. *)
Lemma answers_details {A B} (count : nat → DB → Z) (details : nat → DB → list A)
    (show : list A → list B) n :
  (∀ t d, I d → count t d = n) →
  answers (total ← statement (with_registry count);
           if total =? 0 then mret (0, [])
           else l ← statement (with_registry details); mret (total, show l))
    (λ r, r.1 = n ∧ (n = 0 → r.2 = [])).
Proof using no_fault others_keep has_numbers.
  intros Hc. eapply answers_bind.
  { apply (answers_statement _ (λ total, total = n)). intros t d Hd. unfold with_registry.
    destruct (has_numbers d Hd) as [? ->]. eexists. split; [done|by apply Hc]. }
  intros ? ->. destruct (n =? 0) eqn:E; [apply answers_ret; cbn; split; [lia|done]|].
  eapply answers_bind; [apply (answers_statement _ (λ _, True))|].
  2: { intros ? _. apply answers_ret. split; [done|]. intros ->. done. }
  intros t d Hd. unfold with_registry. destruct (has_numbers d Hd) as [? ->]. by eexists.
Qed.

Variables (distinct : Prop) (unregistered mismatches : nat).
Hypothesis meets_groups : ∀ t d, I d → exact_groups t d = [] ↔ distinct.
Hypothesis meets_unregistered : ∀ t d, I d → length (unregistered_rows t d) = unregistered.
Hypothesis meets_mismatches : ∀ t d, I d → length (mismatched_rows t d) = mismatches.

Lemma answers_duplicates : answers duplicateContractNumbers (λ l, l = [] ↔ distinct).
Proof using no_fault others_keep meets_groups.
  unfold duplicateContractNumbers. eapply answers_bind.
  { apply (answers_statement _ (λ l, l = [] ↔ distinct)). intros t d Hd. eexists.
    split; [done|by apply (meets_groups t)]. }
  intros exact He. destruct exact as [|g exact]; [by apply answers_ret|].
  eapply answers_bind; [apply (answers_statement _ (λ _, True)); intros; by eexists|].
  intros inf _. apply answers_ret. rewrite merge_nil, He. done.
Qed.
Lemma answers_audit :
  answers AuditContractNumberRegistry (λ r,
    (ar_Duplicates r = [] ↔ distinct) ∧ ar_UnregisteredTotal r = Z.of_nat unregistered ∧
    ar_MismatchedTotal r = Z.of_nat mismatches ∧
    (unregistered = 0%nat → ar_Unregistered r = []) ∧
    (mismatches = 0%nat → ar_Mismatched r = [])).
Proof using All.
  unfold AuditContractNumberRegistry, auditUnregisteredContractNumbers, auditRegistryMismatches.
  eapply answers_bind; [apply (answers_statement _ (λ b, b = true)); by eexists|intros ? ->].
  eapply answers_bind; [by apply answers_check|intros _ _].
  eapply answers_bind; [apply (answers_statement _ (λ b, b = true))|intros ? ->].
  { intros t d Hd. destruct (has_numbers d Hd) as [? ->]. by eexists. }
  eapply answers_bind; [by apply answers_check|intros _ _].
  eapply answers_bind; [apply answers_duplicates|intros dups Hd].
  eapply answers_bind.
  { apply answers_details. intros t d Hh. by rewrite meets_unregistered. }
  intros un [Hu Hu0]. eapply answers_bind.
  { apply answers_details. intros t d Hh. by rewrite meets_mismatches. }
  intros mm [Hm Hm0]. apply answers_ret. do 3 (split; [done|]). split.
  - intros ->. by apply Hu0.
  - intros ->. by apply Hm0.
Qed.
End Runs.

Lemma clean_iff r (distinct : Prop) (u m : nat) :
  (ar_Duplicates r = [] ↔ distinct) → ar_UnregisteredTotal r = Z.of_nat u →
  ar_MismatchedTotal r = Z.of_nat m →
  (Clean r = true ↔ distinct ∧ u = 0%nat ∧ m = 0%nat) ∧ (Clean r = true ↔ Total r = 0).
Proof.
  unfold Clean, Total. intros <- -> ->. rewrite <- length_zero_iff_nil.
  rewrite !andb_true_iff, Nat.eqb_eq, !Z.eqb_eq. lia.
Qed.

(** ** One state *)

Section State.
Context `{Collation} `{AuditSql}.
Variables (contracts : gmap string contractRecord) (numbers : numberTables).
Definition shows (d : DB) : Prop := db_contracts d = contracts ∧ db_numbers d = Some numbers.

(** The rows of every statement, up to their order. *)
Definition rows : list contractRecord :=
  filter (λ c, contractNumberFilter c = true) (map snd (map_to_list contracts)).
Definition owner_row (c : contractRecord) : option contractNumberRegistryRecord :=
  nt_registry numbers !! collate (number_of c).
Definition foreign (c : contractRecord) : bool :=
  match owner_row c with Some r => mismatched c r | None => false end.

Lemma numbered_rows_perm t d : shows d → numbered_rows t d ≡ₚ rows.
Proof using. intros [E _]. unfold numbered_rows, rows. by rewrite E, au_rows_perm. Qed.
Lemma registry_row_shows d c : shows d → registry_row d c = owner_row c.
Proof using. intros [_ E]. unfold registry_row. by rewrite E. Qed.
Lemma unregistered_length t d :
  shows d → length (unregistered_rows t d) = length (filter (λ c, owner_row c = None) rows).
Proof using.
  intros Hd. unfold unregistered_rows. apply Permutation_length.
  rewrite <- (numbered_rows_perm t d Hd). generalize (numbered_rows t d) as l. intros l.
  apply reflexive_eq, list_filter_iff. intros c. by rewrite registry_row_shows.
Qed.
Lemma mismatched_length t d :
  shows d → length (mismatched_rows t d) = length (filter (λ c, foreign c = true) rows).
Proof using.
  intros Hd. unfold mismatched_rows.
  assert (∀ l, length (omap (λ c, match registry_row d c with
             | Some r => if mismatched c r then Some (c, r) else None
             | None => None
             end) l) = length (filter (λ c, foreign c = true) l)) as Hl.
  { induction l as [|c l IH]; [done|]. rewrite filter_cons. cbn.
    assert (foreign c = match owner_row c with Some r => mismatched c r | None => false end) as Ef
      by done.
    rewrite (registry_row_shows d c Hd). destruct (owner_row c) as [r|]; [destruct (mismatched c r)|];
      case_decide; cbn; congruence. }
  rewrite Hl. apply Permutation_length. by rewrite numbered_rows_perm.
Qed.

Lemma exact_groups_nil t d :
  shows d → exact_groups t d = [] ↔ NoDup (map (λ c, collate (number_of c)) rows).
Proof using.
  intros Hd.
  assert (∀ l l', l ≡ₚ l' → NoDup (map (λ c, collate (number_of c)) l') ↔
    NoDup (map (λ c, collate (number_of c)) l)) as Hp by (by intros l l' ->).
  rewrite (Hp _ _ (numbered_rows_perm t d Hd)), <- repeated_nil. unfold exact_groups.
  split; [apply map_eq_nil|by intros ->].
Qed.

(** The registry has the contract's number, for this contract. *)
Definition owned (c : contractRecord) : Prop :=
  ∃ r, owner_row c = Some r ∧ nr_TenantID r = c_TenantID c ∧ nr_ContractID r = c_ID c.
Hypothesis contracts_keyed : ∀ id c, contracts !! id = Some c → c_ID c = id.

Lemma elem_of_rows c :
  c ∈ rows ↔ contractNumberFilter c = true ∧ contracts !! c_ID c = Some c.
Proof using contracts_keyed.
  unfold rows. rewrite list_elem_of_filter. apply and_iff_compat_l. rewrite list_elem_of_fmap. split.
  - intros ([id c'] & -> & Hc%elem_of_map_to_list). cbn. by rewrite (contracts_keyed id c' Hc).
  - intros Hc. exists (c_ID c, c). split; [done|by apply elem_of_map_to_list].
Qed.
Lemma rows_distinct : NoDup rows.
Proof using contracts_keyed.
  unfold rows. apply NoDup_filter. apply (NoDup_fmap_2_strong snd); [|apply NoDup_map_to_list].
  intros [i c] [j c'] Hi%elem_of_map_to_list Hj%elem_of_map_to_list. cbn. intros ->.
  by rewrite <- (contracts_keyed i _ Hi), (contracts_keyed j _ Hj).
Qed.
Lemma owned_iff c : owned c ↔ owner_row c ≠ None ∧ foreign c ≠ true.
Proof using.
  unfold owned, foreign, mismatched. destruct (owner_row c) as [r|]; [|naive_solver].
  rewrite not_true_iff_false, orb_false_iff, !negb_false_iff, !streq_true. naive_solver.
Qed.
Lemma owned_distinct :
  Forall owned rows → NoDup (map (λ c, collate (number_of c)) rows).
Proof using contracts_keyed.
  rewrite Forall_forall. intros Ho. apply NoDup_fmap_2_strong; [|apply rows_distinct].
  intros c c' Hc Hc' E. destruct (Ho c Hc) as (r & Er & _ & Ei).
  destruct (Ho c' Hc') as (r' & Er' & _ & Ei').
  apply elem_of_rows in Hc as [_ Hc], Hc' as [_ Hc'].
  unfold owner_row in Er, Er'. rewrite <- E, Er in Er'. congruence.
Qed.
Lemma all_owned_iff :
  Forall owned rows ↔
  length (filter (λ c, owner_row c = None) rows) = 0%nat ∧
  length (filter (λ c, foreign c = true) rows) = 0%nat.
Proof using.
  rewrite !length_zero_iff_nil. induction rows as [|c l IH]; [by split|].
  rewrite Forall_cons, IH, owned_iff, !filter_cons. do 2 case_decide; naive_solver.
Qed.

Lemma owned_all :
  Forall owned rows ↔
  ∀ id c, contracts !! id = Some c → contractNumberFilter c = true → owned c.
Proof using contracts_keyed.
  rewrite Forall_forall. split.
  - intros Ho id c Hc Hf. apply Ho, elem_of_rows. by rewrite (contracts_keyed id c Hc).
  - intros Ho c [Hf Hc]%elem_of_rows. by eapply Ho.
Qed.

End State.

(** ** The audit is exact *)

(** C32: while nobody changes contracts or their numbers, and no statement fails, the
    audit succeeds and is exact: its totals are the numbered contracts without a
    registry row, and those whose row names another tenant or contract; it is clean
    exactly when every numbered contract owns its row (which excludes duplicates,
    whatever the collation identifies), and exactly when its grand total is zero. *)
Theorem audit_exact `{!Requests unit} `{Collation} `{AuditSql}
    (contracts : gmap string contractRecord) (numbers : numberTables) :
  (∀ n t, @o_fault (rq_oracle n) t = false) →
  (∀ n w, shows contracts numbers (w_store w) →
     shows contracts numbers (w_store (rq_others n w))) →
  (∀ id c, contracts !! id = Some c → c_ID c = id) →
  answers (shows contracts numbers) AuditContractNumberRegistry (λ r,
    ar_UnregisteredTotal r =
      Z.of_nat (length (filter (λ c, owner_row numbers c = None) (rows contracts))) ∧
    ar_MismatchedTotal r =
      Z.of_nat (length (filter (λ c, foreign numbers c = true) (rows contracts))) ∧
    (Clean r = true ↔
     ∀ id c, contracts !! id = Some c → contractNumberFilter c = true → owned numbers c) ∧
    (Clean r = true ↔ Total r = 0)).
Proof.
  intros Hf Hq Hk s Hs.
  edestruct (answers_audit Hf (shows contracts numbers) Hq) as (r & s' & E & Hs' & Hd & Hu & Hm & _);
    [by intros d [_ ->]|by intros t d; apply exact_groups_nil|by intros t d; apply unregistered_length
    |by intros t d; apply mismatched_length|exact Hs|].
  exists r, s'. destruct (clean_iff r _ _ _ Hd Hu Hm) as [Hc Ht].
  do 4 (split; [done|]). split; [|done]. rewrite <- (owned_all contracts numbers Hk).
  pose proof (owned_distinct contracts numbers Hk). rewrite Hc, (all_owned_iff contracts numbers) in *.
  tauto.
Qed.

(** ** Installations that number their contracts themselves *)

Section Numbering.
Context `{GoUnicode} `{Sha256} `{TzDatabase} `{Collation} `{Documents}.

(** Contracts are created without a number. *)
Definition without_number : Creations := {| creatable k := k_Number k = "" |}.
#[local] Existing Instance without_number.

(** There is a rule, and every number on a contract was issued to it. *)
Definition all_registered (x : Core) : Prop :=
  (∃ n, x_numbers x = Some n ∧ is_Some (nt_rule n)) ∧
  ∀ id c number, x_contracts x !! id = Some c → c_ContractNumber c = Some number →
    registered (x_numbers x) number (c_TenantID c) id.

Lemma registered_grows o o' number tenant id :
  numbers_grow o o' → registered o number tenant id → registered o' number tenant id.
Proof.
  intros Hg (n & r & -> & Hr & Hn). destruct o' as [n'|]; [|done]. destruct Hg as [_ Hsub].
  exists n', r. split_and!; [done| |by apply Hn..]. by eapply lookup_weaken.
Qed.

(** One row is written; it has the number of the row before it, or its own. *)
Lemma all_registered_insert x y id c' :
  all_registered x → numbers_grow (x_numbers x) (x_numbers y) →
  x_contracts y = <[id := c']> (x_contracts x) →
  (∀ number, c_ContractNumber c' = Some number →
     (∃ c, x_contracts x !! id = Some c ∧ c_TenantID c = c_TenantID c' ∧
           c_ContractNumber c = Some number) ∨
     registered (x_numbers y) number (c_TenantID c') id) →
  all_registered y.
Proof.
  intros [(n & En & Hr) Hall] Hg Hy Hc'. split.
  - rewrite En in Hg. destruct (x_numbers y) as [n'|]; [|done]. destruct Hg as [Er _].
    exists n'. by rewrite Er.
  - intros i c number. rewrite Hy. intros [[<- <-]|[Hne Hc]]%lookup_insert_Some Hnum.
    + destruct (Hc' number Hnum) as [(c0 & Hc0 & <- & Hn0)|]; [|done].
      eapply registered_grows; [exact Hg|by eapply Hall].
    + eapply registered_grows; [exact Hg|by eapply Hall].
Qed.

Lemma all_registered_change x y : change x y → all_registered x → all_registered y.
Proof.
  intros Hch Hx. destruct Hch; try exact Hx.
  - eapply all_registered_insert; [exact Hx|done|done|]. intros number Hn. exfalso.
    match goal with h : creatable _ |- _ => cbn in h; cbn in Hn; rewrite h in Hn end. done.
  - eapply all_registered_insert; [exact Hx|done|done|]. intros number Hn. left. by eexists.
  - match goal with h : numbered _ _ _ _ _ _ |- _ => destruct h as [|u now' N' Hnone Hfree Hg Hr] end.
    + eapply all_registered_insert; [exact Hx|done|done|]. intros number Hn. left. by eexists.
    + eapply all_registered_insert; [exact Hx|done|done|]. intros number Hn. right.
      destruct Hx as [(n & En & Hrule) _]. cbn in Hn. injection Hn as <-. by apply (Hr n).
  - eapply all_registered_insert; [exact Hx|done|done|]. intros number Hn. left. by eexists.
  - eapply all_registered_insert; [exact Hx|done|done|]. intros number Hn. left. by eexists.
Qed.

Lemma all_registered_unique x :
  all_registered x → ∀ i j c c' n n', x_contracts x !! i = Some c → x_contracts x !! j = Some c' →
  c_ContractNumber c = Some n → c_ContractNumber c' = Some n' → collate n = collate n' → i = j.
Proof.
  intros [_ Hall] i j c c' n n' Hc Hc' Hn Hn' Hco.
  destruct (Hall i c n Hc Hn) as (t & r & Et & Hr & _ & _ & <-).
  destruct (Hall j c' n' Hc' Hn') as (t' & r' & Et' & Hr' & _ & _ & <-).
  rewrite Hco in Hr. congruence.
Qed.

Definition numbered_safely (d : DB) : Prop := keyed (core d) ∧ all_registered (core d).
(** What a sequence of calls that create contracts without numbers keeps. *)
Definition blank_calls (calls : list call) : Prop :=
  Forall (λ c, well_typed (call_op c) ∧ op_creatable (call_op c)) calls.

Lemma numbered_safely_execute calls d :
  blank_calls calls → numbered_safely d → numbered_safely (execute calls d).
Proof.
  intros Hb [Hk Hr]. destruct (execute_refines_in calls d Hk Hb) as [Hc Hk']. split; [done|].
  eapply rtc_change_keeps; [apply all_registered_change|exact Hc|done].
Qed.

Context `{AuditSql}.

(** Every statement of the audit finds nothing in such a state. *)
Lemma numbered_safely_clean t d :
  numbered_safely d →
  exact_groups t d = [] ∧ length (unregistered_rows t d) = 0%nat ∧
  length (mismatched_rows t d) = 0%nat.
Proof.
  intros [Hk [(n & En & _) Hr]]. cbn in En.
  assert (shows (db_contracts d) n d) as Hs by done.
  assert (Forall (owned n) (rows (db_contracts d))) as Ho.
  { apply (owned_all (db_contracts d) n Hk). intros id c Hc Hf. unfold contractNumberFilter in Hf.
    destruct (c_ContractNumber c) as [number|] eqn:Enum; [|done].
    destruct (Hr id c number Hc Enum) as (n' & r & En' & Hreg & _ & Ht & Hid).
    cbn in En'. assert (n' = n) as -> by congruence. exists r. unfold owner_row, number_of.
    rewrite Enum, (Hk id c Hc). done. }
  rewrite (unregistered_length _ _ t d Hs), (mismatched_length _ _ t d Hs).
  split; [|by apply all_owned_iff].
  apply (exact_groups_nil _ _ t d Hs), (owned_distinct (db_contracts d) n Hk Ho).
Qed.

(** C16: in an installation with a number rule, whose contracts are created without
    numbers, no two contracts of the whole system share a number, whatever their
    tenants.  Whichever of the ten operations of the repository were called
    before and are called between the statements of the audit, an audit none of
    whose statements fails succeeds, is clean (every number is registered for its
    contract) and reports zeros and no samples.  The confirmation of imported
    contracts, which issues numbers too, is not among these calls. *)
Theorem issued_numbers_audit_clean `{!Requests unit} (rule : ContractNumberRule) sequence registry
    (calls : list call) s :
  (∀ n t, @o_fault (rq_oracle n) t = false) →
  (∀ n w, ∃ more, blank_calls more ∧ w_store (rq_others n w) = execute more (w_store w)) →
  blank_calls calls →
  w_store (rn_tables s) = execute calls (new_tables (Some (mkNumbers (Some rule) sequence registry))) →
  let contracts := db_contracts (w_store (rn_tables s)) in
  (∀ i j c c' n n', contracts !! i = Some c → contracts !! j = Some c' →
     c_ContractNumber c = Some n → c_ContractNumber c' = Some n' → collate n = collate n' → i = j) ∧
  ∃ r s', AuditContractNumberRegistry s = (Ok r, s') ∧ Clean r = true ∧
    numberAuditResultFromReport r = mkAuditResult 0 0 0 0 [].
Proof.
  intros Hf Ho Hb Hs contracts.
  assert (numbered_safely (w_store (rn_tables s))) as Hsafe.
  { rewrite Hs. apply numbered_safely_execute; [done|]. split; [by intros id c|].
    split; [by eexists|by intros id c]. }
  split; [by apply (all_registered_unique (core (w_store (rn_tables s)))), Hsafe|].
  edestruct (answers_audit Hf numbered_safely) as (r & s' & E & _ & Hd & Hu & Hm & Hu0 & Hm0).
  - intros n w Hw. destruct (Ho n w) as (more & Hmore & ->). by apply numbered_safely_execute.
  - intros d [_ [(n & En & _) _]]. by exists n.
  - intros t d Hw. split; [intros _; exact I|intros _]. by apply numbered_safely_clean.
  - intros t d Hw. by apply numbered_safely_clean.
  - intros t d Hw. by apply numbered_safely_clean.
  - exact Hsafe.
  - exists r, s'. destruct (clean_iff r _ _ _ Hd Hu Hm) as [Hc Ht].
    assert (ar_Duplicates r = []) as Edup by by apply Hd.
    split; [done|]. split; [by apply Hc|].
    unfold numberAuditResultFromReport, numberAuditSamples, Total.
    by rewrite Edup, Hu, Hm, Hu0, Hm0.
Qed.

End Numbering.

(** ** Witnesses *)

Definition sample_audit_sql : AuditSql.
Proof.
  refine {| au_upper := λ s, s; au_cut := λ s, s; au_rows := λ _ l, l |}. by intros _ l.
Defined.
#[local] Existing Instance sample_audit_sql.
(** Requests nobody disturbs. *)
Definition calm_requests : Requests unit := {|
  rq_oracle := λ _, fine "k"; rq_others := λ _ w, w; rq_license := λ _, Granted
|}.
#[local] Existing Instance calm_requests.

(** The contract approved in [sample_calls]. *)
Lemma issued_numbers_audit_clean_witness :
  (∃ c, db_contracts sample_db !! "c1" = Some c ∧ c_ContractNumber c = Some "HT-20230001") ∧
  ∃ r s', AuditContractNumberRegistry (mkRun 0 (mkWith sample_db tt)) = (Ok r, s') ∧
    numberAuditResultFromReport r = mkAuditResult 0 0 0 0 [].
Proof.
  split; [eexists; split; vm_compute; reflexivity|].
  destruct (issued_numbers_audit_clean sample_rule ∅ ∅ sample_calls
    (mkRun 0 (mkWith sample_db tt))) as (_ & r & s' & E & _ & Er).
  - by intros n t.
  - intros n w. exists []. split; [apply Forall_nil_2|reflexivity].
  - repeat constructor; by vm_compute.
  - reflexivity.
  - exists r, s'. split; [exact E|exact Er].
Defined.

(** The same contract, after the registry was lost. *)
Lemma audit_exact_witness :
  ∃ r s', AuditContractNumberRegistry
      (mkRun 0 (mkWith (set_numbers (Some (mkNumbers None ∅ ∅)) sample_db) tt)) = (Ok r, s') ∧
    Clean r = false ∧ ar_UnregisteredTotal r = 1 ∧ Total r ≠ 0.
Proof.
  set (d := set_numbers _ _).
  destruct (audit_exact (Requests0 := calm_requests) (db_contracts d) (mkNumbers None ∅ ∅))
    with (s := mkRun 0 (mkWith d tt)) as (r & s' & E & _ & Hu & _ & Hc & Ht).
  - by intros n t.
  - by intros n w Hw.
  - intros id c. destruct (execute_refines sample_calls (new_tables sample_numbers)) as [_ Hk];
      [by intros i c0|apply sample_calls_typed|]. apply Hk.
  - by split.
  - exists r, s'. split; [exact E|].
    assert (ar_UnregisteredTotal r = 1) as Eu by (rewrite Hu; vm_compute; reflexivity).
    assert (Clean r = false) as Ec by (unfold Clean; rewrite Eu; by rewrite andb_false_r).
    split; [done|]. split; [done|]. rewrite <- Ht, Ec. done.
Defined.
