(* ===== verification/Migration.v ===== *)
(** * migration/migration.go: applying the schema migrations

    The embedded files in the order of their version, each applied once: its check
    before anything is written, its SQL, then its row in the table of versions.  What
    the SQL does is a parameter; a statement may fail half-way.  [ms_executed] is a
    history variable: the migrations whose SQL was sent, and whether it succeeded. *)

From stdpp Require Import sorting.
From S2P Require Import Prelude GoStrings Decimal GoTime BusinessClock Status NumberRule.
From S2P Require Import PaymentTerm ProjectService ImportPolicy ApprovalRule Workflow Store.
From S2P Require Import Outbound Numbering Repository Access Reports Templates Service Tables.
From S2P Require Import NumberAudit.
From S2P Require Import Scenario.

#[local] Open Scope string_scope.
#[local] Open Scope Z_scope.
#[local] Open Scope list_scope.

(** ** Files *)

Record fileEntry : Type := mkFile { fe_Name : string; fe_IsDir : bool; fe_Body : res string }.
Record item : Type := mkItem {
  it_version : Z; it_name : string; it_sql : string; it_checksum : string
}.

(** [^([0-9]{6})_([a-z0-9_]+)\.sql$]. *)
Definition name_char (c : byte) : bool :=
  is_digit c || ((97 <=? code c) && (code c <=? 122)) || (code c =? 95).
Definition migrationName (s : string) : option (Z * string) :=
  let digits := take 6 (bytes s) in
  match drop 6 (bytes s) with
  | c :: rest =>
      let name := take (length rest - 4) rest in
      if (length digits =? 6)%nat && forallb is_digit digits && (code c =? 95) &&
         negb (is_empty name) && forallb name_char name &&
         (of_bytes (drop (length rest - 4) rest) =s ".sql")
      then Some (dec_value digits, of_bytes name) else None
  | [] => None
  end.

Record MigrationState (D : Type) : Type := mkMigrated {
  ms_applied : gmap Z (string * string); ms_data : D; ms_executed : list (Z * bool)
}.
Arguments mkMigrated {D}. Arguments ms_applied {D}. Arguments ms_data {D}.
Arguments ms_executed {D}.

Section Load.
Context `{Sha256}.

Definition skipped (e : fileEntry) : bool :=
  fe_IsDir e || negb (filepath_Ext (fe_Name e) =s ".sql").
Definition load_entry (versions : gmap Z string) (e : fileEntry) : res item :=
  match migrationName (fe_Name e) with
  | None => Err ErrOther
  | Some (version, name) =>
      fail_if (version =? 0) ErrOther;;
      fail_if (bool_decide (is_Some (versions !! version))) ErrOther;;
      body ← fe_Body e;
      fail_if (empty_str (TrimSpace body)) ErrOther;;
      Ok (mkItem version name body (sha256_hex body))
  end.
Fixpoint load_entries (versions : gmap Z string) (entries : list fileEntry) : res (list item) :=
  match entries with
  | [] => Ok []
  | e :: rest =>
      if skipped e then load_entries versions rest
      else
        i ← load_entry versions e;
        items ← load_entries (<[it_version i := fe_Name e]> versions) rest;
        Ok (i :: items)
  end.

Definition version_order (a b : item) : Prop := it_version a ≤ it_version b.
#[local] Instance version_order_dec : RelDecision version_order.
Proof. intros a b. unfold version_order. apply _. Defined.
Fixpoint contiguous (expected : Z) (items : list item) : bool :=
  match items with
  | [] => true
  | i :: rest => (it_version i =? expected) && contiguous (expected + 1) rest
  end.
(** [None]: the directory cannot be read. *)
Definition load (files : option (list fileEntry)) : res (list item) :=
  match files with
  | None => Err ErrOther
  | Some entries =>
      items ← load_entries ∅ entries;
      let items := merge_sort version_order items in
      fail_if (negb (contiguous 1 items)) ErrOther;;
      Ok items
  end.

(** ** The database *)

(** What a run meets: the connection and the creation of the table of versions, the
    reading of it, the SQL of a migration, and the insertion of its row (lost before or
    after it took effect). *)
Class MigrationEnv (D : Type) := {
  me_connect : res unit;
  me_read : res unit;
  me_exec : nat → string → D → bool * D;
  me_record : nat → option bool
}.

Section Run.
Context {D : Type}.
Variable preflights : gmap Z (nat → D → res unit).

Definition verifyPreflights (items : list item) : res unit :=
  fail_if (negb (forallb (λ e, existsb (λ i, it_version i =? e.1) items) (map_to_list preflights)))
    ErrOther.

Definition record_migration (i : item) (st : MigrationState D) : MigrationState D :=
  mkMigrated (<[it_version i := (it_name i, it_checksum i)]> (ms_applied st)) (ms_data st)
    (ms_executed st).

Context `{MigrationEnv D}.

Definition appliedChecksums (st : MigrationState D) : res (gmap Z string) :=
  me_read;; Ok (snd <$> ms_applied st).

Definition preflight (n : nat) (i : item) (st : MigrationState D) : res unit :=
  match preflights !! it_version i with Some check => check n (ms_data st) | None => Ok tt end.
Definition execute_sql (n : nat) (i : item) (st : MigrationState D) : bool * MigrationState D :=
  let '(done, data) := me_exec n (it_sql i) (ms_data st) in
  (done, mkMigrated (ms_applied st) data (ms_executed st ++ [(it_version i, done)])).
(** The INSERT into the table of versions. *)
Definition insert_version (n : nat) (i : item) (st : MigrationState D)
    : res unit * MigrationState D :=
  match ms_applied st !! it_version i with
  | Some _ => (Err ErrDuplicatedKey, st)
  | None =>
      match me_record n with
      | None => (Ok tt, record_migration i st)
      | Some true => (Err ErrStorage, record_migration i st)
      | Some false => (Err ErrStorage, st)
      end
  end.
Definition apply_item (n : nat) (i : item) (st : MigrationState D) : res unit * MigrationState D :=
  match preflight n i st with
  | Err e => (Err e, st)
  | Ok _ =>
      let '(done, st) := execute_sql n i st in
      if done then insert_version n i st else (Err ErrStorage, st)
  end.

Fixpoint apply_items (n : nat) (items : list item) (applied : gmap Z string)
    (st : MigrationState D) : res unit * MigrationState D :=
  match items with
  | [] => (Ok tt, st)
  | i :: rest =>
      match applied !! it_version i with
      | Some checksum =>
          if checksum =s it_checksum i then apply_items (S n) rest applied st
          else (Err ErrOther, st)
      | None =>
          match apply_item n i st with
          | (Ok _, st) => apply_items (S n) rest applied st
          | (Err e, st) => (Err e, st)
          end
      end
  end.

Definition Run (files : option (list fileEntry)) (st : MigrationState D)
    : res unit * MigrationState D :=
  match (me_connect;; items ← load files; verifyPreflights items;;
         applied ← appliedChecksums st; Ok (items, applied)) with
  | Err e => (Err e, st)
  | Ok (items, applied) => apply_items 0 items applied st
  end.

End Run.
End Load.

(** The one check there is: before the registry, migration 38. *)
Definition preflights `{!Requests unit} `{Collation} `{AuditSql}
    : gmap Z (nat → With unit → res unit) :=
  {[ 38 := λ n w,
       groups ← (PreflightContractNumbers (mkRun n w)).1;
       fail_if (bool_decide (is_Some groups)) ErrOther ]}.

(** * Migrations are applied in order, each once

    Any sequence of runs, with whatever files, faults and half-executed SQL. *)

Section Order.
Context {D : Type} `{Sha256}.
Variable checks : gmap Z (nat → D → res unit).
Notation State := (MigrationState D).

(** The files a run accepts have the versions 1, 2, ... *)
Lemma contiguous_versions k items :
  contiguous k items = true → map it_version items = seqZ k (Z.of_nat (length items)).
Proof using.
  revert k. induction items as [|i items IH]; intros k Hc; [done|].
  cbn in Hc. bool_hyps. rewrite seqZ_cons by (cbn; lia). cbn [map length]. f_equal; [lia|].
  rewrite (IH (k + 1)) by done. f_equal; lia.
Qed.
Lemma load_versions files items :
  load files = Ok items → map it_version items = seqZ 1 (Z.of_nat (length items)).
Proof using.
  unfold load. destruct files as [entries|]; [|done]. intros Hl. inv_ok Hl.
  by apply contiguous_versions, negb_false_iff.
Qed.

(** The versions 1 to [k] are in the table, and nothing else. *)
Definition applied_to (k : Z) (st : State) : Prop :=
  0 ≤ k ∧ ∀ v, is_Some (ms_applied st !! v) ↔ 1 ≤ v ≤ k.

(** What a run from version [k] adds: it only appends rows, executes what was not
    applied before, version by version, and a new row follows a success. *)
Record advances (k k' : Z) (st st' : State) : Prop := mkAdvances {
  adv_le : k ≤ k';
  adv_applied : applied_to k' st';
  adv_kept : ms_applied st ⊆ ms_applied st';
  adv_executed : ∃ new, ms_executed st' = ms_executed st ++ new ∧
    StronglySorted Z.le (map fst new) ∧ Forall (λ e, k < e.1 ≤ k' + 1) new ∧
    ∀ v, k < v ≤ k' → (v, true) ∈ new
}.

Lemma advances_refl k st : applied_to k st → advances k k st st.
Proof using.
  intros Ha. split; [lia|done|done|]. exists []. rewrite app_nil_r.
  split_and!; [done|constructor|constructor|lia].
Qed.
Lemma strongly_sorted_app (l1 l2 : list Z) m :
  StronglySorted Z.le l1 → StronglySorted Z.le l2 → Forall (λ v, v ≤ m) l1 → Forall (λ v, m ≤ v) l2 →
  StronglySorted Z.le (l1 ++ l2).
Proof using.
  intros H1 H2 F1 F2. induction H1 as [|v l1 H1 IH Hv]; [done|].
  apply Forall_cons in F1 as [Hm F1]. cbn. constructor; [by apply IH|]. apply Forall_app.
  split; [done|]. eapply Forall_impl; [exact F2|]. cbn. lia.
Qed.
Lemma advances_trans k1 k2 k3 st1 st2 st3 :
  advances k1 k2 st1 st2 → advances k2 k3 st2 st3 → advances k1 k3 st1 st3.
Proof using.
  intros [L1 _ K1 (n1 & E1 & S1 & F1 & I1)] [L2 A2 K2 (n2 & E2 & S2 & F2 & I2)].
  split; [lia|done|by etrans|]. exists (n1 ++ n2). rewrite E2, E1, app_assoc, map_app.
  split_and!; [done| | |].
  - apply (strongly_sorted_app _ _ (k2 + 1)); [done|done|apply Forall_map|apply Forall_map];
      (eapply Forall_impl; [eassumption|]; cbn; lia).
  - apply Forall_app. split; (eapply Forall_impl; [eassumption|]; cbn; lia).
  - intros v Hv. apply elem_of_app. destruct (decide (v ≤ k2)); [left; apply I1|right; apply I2]; lia.
Qed.

Lemma applied_to_record k i st :
  applied_to k st → it_version i = k + 1 → applied_to (k + 1) (record_migration i st).
Proof using.
  intros [Hk Ha] Hi. split; [lia|]. intros v. cbn. rewrite Hi.
  destruct (decide (v = k + 1)) as [->|Hne].
  - rewrite lookup_insert_eq. split; [lia|by eexists].
  - rewrite lookup_insert_ne by done. rewrite Ha. lia.
Qed.

Context `{MigrationEnv D}.

(** The next migration: nothing happened, or its SQL was sent, or it is applied. *)
Lemma apply_item_advances n i st k r st' :
  applied_to k st → it_version i = k + 1 → apply_item checks n i st = (r, st') →
  (∃ k', advances k k' st st') ∧
  (r = Ok tt → advances k (k + 1) st st' ∧ ms_applied st' = ms_applied (record_migration i st)).
Proof using.
  intros Ha Hi. unfold apply_item.
  destruct (preflight checks n i st) as [u|e];
    [|intros [= <- <-]; split; [exists k; by apply advances_refl|done]].
  unfold execute_sql. destruct (me_exec _ _ _) as [done data] eqn:Ex.
  set (st1 := mkMigrated _ _ _).
  assert (applied_to k st1) as Ha1 by exact Ha.
  assert (∀ v, (v, true) ∈ [(it_version i, done)] ∨ ¬ k < v ≤ k) as Hno by (intros v; right; lia).
  assert (advances k k st st1) as Hsent.
  { split; [lia|done|done|]. exists [(it_version i, done)].
    split_and!; [done|repeat constructor|repeat constructor; cbn; lia|lia]. }
  destruct done; [|intros [= <- <-]; split; [by exists k|done]].
  assert (advances k (k + 1) st (record_migration i st1)) as Hrec.
  { split; [lia|by apply applied_to_record| |].
    - cbn. apply insert_subseteq. apply eq_None_not_Some. rewrite (proj2 Ha), Hi. lia.
    - exists [(it_version i, true)]. cbn.
      split_and!; [done|repeat constructor|repeat constructor; cbn; lia|].
      intros v Hv. assert (v = it_version i) as -> by lia. left. }
  unfold insert_version. cbn [ms_applied st1].
  assert (ms_applied st !! it_version i = None) as ->.
  { apply eq_None_not_Some. rewrite (proj2 Ha), Hi. lia. }
  destruct (me_record n) as [[]|]; intros [= <- <-]; split; try done; eauto.
Qed.

Lemma apply_items_advances items applied :
  ∀ n st k j r st',
  map it_version items = seqZ j (Z.of_nat (length items)) → applied_to k st → 1 ≤ j ≤ k + 1 →
  (∀ v, j ≤ v → applied !! v = snd <$> ms_applied st !! v) →
  apply_items checks n items applied st = (r, st') →
  ∃ k', advances k k' st st' ∧
    (r = Ok tt → ∀ i, i ∈ items → snd <$> ms_applied st' !! it_version i = Some (it_checksum i)).
Proof using.
  induction items as [|i items IH]; intros n st k j r st' Hv Ha Hj Hap Hr.
  { injection Hr as <- <-. exists k. split; [by apply advances_refl|]. by intros _ i ?%elem_of_nil. }
  cbn [length] in Hv. rewrite seqZ_cons in Hv by lia. cbn [map] in Hv. injection Hv as Ei Hv.
  replace (Z.pred (Z.of_nat (S (length items)))) with (Z.of_nat (length items)) in Hv by lia.
  cbn [apply_items] in Hr. rewrite (Hap (it_version i)) in Hr by lia.
  destruct (ms_applied st !! it_version i) as [[name checksum]|] eqn:El; cbn [fmap option_fmap option_map snd] in Hr.
  - destruct (checksum =s it_checksum i) eqn:Ec; [|injection Hr as <- <-; exists k;
      split; [by apply advances_refl|done]].
    apply streq_true in Ec as ->.
    assert (1 ≤ j ≤ k) as Hjk by (rewrite <- Ei; apply (proj2 Ha); by eexists).
    destruct (IH (S n) st k (Z.succ j) r st' Hv Ha) as (k' & Hadv & Hok);
      [lia|intros v ?; apply Hap; lia|exact Hr|].
    exists k'. split; [done|]. intros E i' [->|Hi']%elem_of_cons; [|by apply Hok].
    by rewrite (lookup_weaken _ _ _ _ El (adv_kept _ _ _ _ Hadv)).
  - assert (it_version i = k + 1) as Ek.
    { apply eq_None_not_Some in El. rewrite (proj2 Ha), Ei in El. lia. }
    destruct (apply_item checks n i st) as [[[]|e] st1] eqn:E1.
    + destruct (apply_item_advances n i st k _ _ Ha Ek E1) as [_ [Hadv E2]]; [done|].
      destruct (IH (S n) st1 (k + 1) (Z.succ j) r st' Hv (adv_applied _ _ _ _ Hadv)) as (k' & Hadv' & Hok);
        [lia| |exact Hr|].
      { intros v Hge. rewrite Hap by lia. rewrite E2. cbn. by rewrite lookup_insert_ne by lia. }
      exists k'. split; [by eapply advances_trans|].
      intros E i' [->|Hi']%elem_of_cons; [|by apply Hok].
      assert (ms_applied st1 !! it_version i = Some (it_name i, it_checksum i)) as El1
        by (rewrite E2; apply lookup_insert_eq).
      by rewrite (lookup_weaken _ _ _ _ El1 (adv_kept _ _ _ _ Hadv')).
    + injection Hr as <- <-. destruct (apply_item_advances n i st k _ _ Ha Ek E1) as [[k' Hadv] _].
      by exists k'.
Qed.

(** The check of the next migration refuses: nothing is written. *)
Lemma apply_items_refused items applied :
  ∀ n st k j check,
  map it_version items = seqZ j (Z.of_nat (length items)) → applied_to k st → 1 ≤ j ≤ k + 1 →
  (∀ v, j ≤ v → applied !! v = snd <$> ms_applied st !! v) →
  checks !! (k + 1) = Some check → (∀ n, ∃ e, check n (ms_data st) = Err e) →
  (apply_items checks n items applied st).2 = st.
Proof using.
  induction items as [|i items IH]; intros n st k j check Hv Ha Hj Hap Hcheck He; [done|].
  cbn [length] in Hv. rewrite seqZ_cons in Hv by lia. cbn [map] in Hv. injection Hv as Ei Hv.
  replace (Z.pred (Z.of_nat (S (length items)))) with (Z.of_nat (length items)) in Hv by lia.
  cbn [apply_items]. rewrite (Hap (it_version i)) by lia.
  destruct (ms_applied st !! it_version i) as [[name checksum]|] eqn:El; cbn [fmap option_fmap option_map snd].
  - destruct (checksum =s it_checksum i); [|done].
    assert (1 ≤ j ≤ k) as Hjk by (rewrite <- Ei; apply (proj2 Ha); by eexists).
    eapply (IH (S n) st k (Z.succ j)); [done|done|lia|intros v ?; apply Hap; lia|done..].
  - apply eq_None_not_Some in El. rewrite (proj2 Ha), Ei in El.
    unfold apply_item, preflight. assert (it_version i = k + 1) as -> by lia.
    rewrite Hcheck. by destruct (He n) as [e ->].
Qed.

(** A run, whatever happens in it. *)
Lemma run_advances files st k r st' :
  applied_to k st → Run checks files st = (r, st') →
  ∃ k', advances k k' st st' ∧
    (r = Ok tt → ∃ items, load files = Ok items ∧ Z.of_nat (length items) ≤ k' ∧
       ∀ i, i ∈ items → snd <$> ms_applied st' !! it_version i = Some (it_checksum i)).
Proof using.
  intros Ha. unfold Run. destruct (_ ≫= _) as [[items applied]|e] eqn:El;
    [|intros [= <- <-]; exists k; split; [by apply advances_refl|done]].
  unfold appliedChecksums in El. inv_ok El. intros Hr.
  match goal with h : load files = Ok _ |- _ => pose proof h as Hl; apply load_versions in h as Hvs end.
  destruct (apply_items_advances items (snd <$> ms_applied st) 0%nat st k 1 r st' Hvs Ha) as (k' & Hadv & Hok);
    [destruct Ha; lia|intros w _; apply lookup_fmap|exact Hr|].
  exists k'. split; [done|]. intros E. exists items. split; [done|]. split; [|by apply Hok].
  destruct items as [|i items] using rev_ind; [destruct (adv_applied _ _ _ _ Hadv); cbn; lia|].
  assert (it_version i = Z.of_nat (length (items ++ [i]))) as Ei.
  { rewrite length_app, map_app in *. cbn [length map] in *.
    replace (Z.of_nat (length items + 1)) with (Z.of_nat (length items) + 1) in Hvs by lia.
    rewrite seqZ_app in Hvs by lia. apply app_inj_tail in Hvs as [_ Hi]. lia. }
  rewrite <- Ei. apply (proj2 (adv_applied _ _ _ _ Hadv)).
  assert (i ∈ items ++ [i]) as Hin by set_solver.
  specialize (Hok E i Hin). by destruct (ms_applied st' !! it_version i).
Qed.
Lemma run_refused files st k check :
  applied_to k st → checks !! (k + 1) = Some check → (∀ n, ∃ e, check n (ms_data st) = Err e) →
  (Run checks files st).2 = st.
Proof using.
  intros Ha Hcheck He. unfold Run. destruct (_ ≫= _) as [[items applied]|e] eqn:El; [|done].
  unfold appliedChecksums in El. inv_ok El.
  match goal with h : load files = Ok _ |- _ => apply load_versions in h as Hvs end.
  eapply (apply_items_refused _ _ 0%nat st k 1); [done|done|destruct Ha; lia| |done..].
  intros w _. apply lookup_fmap.
Qed.

End Order.

(** ** From an empty database *)

(** A run: what it meets and the files it embeds. *)
Record migrationRun (D : Type) : Type := mkRunOf {
  mr_env : MigrationEnv D; mr_files : option (list fileEntry)
}.
Definition run_all {D} `{Sha256} (checks : gmap Z (nat → D → res unit)) (runs : list (migrationRun D))
    (st : MigrationState D) : MigrationState D :=
  foldl (λ st r, (@Run _ _ checks (mr_env _ r) (mr_files _ r) st).2) st runs.

Lemma run_all_advances {D} `{Sha256} (checks : gmap Z (nat → D → res unit)) runs st k :
  applied_to k st → ∃ k', advances k k' st (run_all checks runs st).
Proof.
  revert st k. induction runs as [|r runs IH]; intros st k Ha; [exists k; by apply advances_refl|].
  cbn [run_all foldl]. destruct (@Run _ _ checks (mr_env _ r) (mr_files _ r) st) as [res st1] eqn:E.
  destruct (run_advances (H0 := mr_env _ r) checks _ _ _ _ _ Ha E) as (k1 & Hadv & _).
  destruct (IH st1 k1 (adv_applied _ _ _ _ Hadv)) as [k2 Hadv2]. exists k2.
  by eapply advances_trans.
Qed.

(** C26: whatever runs an empty database has seen - other files, lost connections, SQL
    that failed half-way, rows whose insertion was lost - the table of versions holds
    exactly 1 to some k; the SQL was sent in the order of the versions, never beyond
    k + 1, and every recorded migration succeeded.  The next run changes no recorded
    row and sends only SQL of versions after k; if it succeeds, every one of its files
    is recorded with its own checksum; and when the check of migration k + 1 refuses,
    it leaves the database as it is. *)
Theorem migrations_in_order {D} `{Sha256} (checks : gmap Z (nat → D → res unit))
    (runs : list (migrationRun D)) (data : D) :
  let st := run_all checks runs (mkMigrated ∅ data []) in
  ∃ k, applied_to k st ∧
    StronglySorted Z.le (map fst (ms_executed st)) ∧
    Forall (λ e, 1 ≤ e.1 ≤ k + 1) (ms_executed st) ∧
    (∀ v, 1 ≤ v ≤ k → (v, true) ∈ ms_executed st) ∧
    ∀ (env : MigrationEnv D) files,
      (∃ k', advances k k' st (Run checks files st).2 ∧
         ((Run checks files st).1 = Ok tt → ∃ items, load files = Ok items ∧
            Z.of_nat (length items) ≤ k' ∧
            ∀ i, i ∈ items →
              snd <$> ms_applied (Run checks files st).2 !! it_version i = Some (it_checksum i))) ∧
      (∀ check, checks !! (k + 1) = Some check → (∀ n, ∃ e, check n (ms_data st) = Err e) →
         (Run checks files st).2 = st).
Proof.
  intros st.
  assert (applied_to 0 (mkMigrated ∅ data [])) as H0.
  { split; [done|]. intros v. cbn. rewrite lookup_empty. split; [by intros []|lia]. }
  destruct (run_all_advances checks runs _ 0 H0) as [k [_ Ha _ (new & En & Hs & Hf & Hi)]].
  fold st in Ha, En. cbn in En. exists k. rewrite En. split_and!; [done..| | |].
  - eapply Forall_impl; [exact Hf|]. cbn. lia.
  - intros v Hv. apply Hi. lia.
  - intros env files. destruct (Run checks files st) as [r st'] eqn:E. split.
    + by apply (run_advances checks files st k r st' Ha).
    + intros check Hc He. change st' with (r, st').2. rewrite <- E. by apply (run_refused checks files st k check).
Qed.

(** ** An example *)

Definition small_files : option (list fileEntry) :=
  Some [ mkFile "000002_second.sql" false (Ok "CREATE b"); mkFile "README.md" false (Ok "");
         mkFile "000001_first.sql" false (Ok "CREATE a") ].
(** The SQL is appended to a text; it fails in the first run at the second file, and
    the row of the second file is lost after the second run. *)
Definition small_env (fails : bool) (lost : bool) : MigrationEnv string := {|
  me_connect := Ok tt; me_read := Ok tt;
  me_exec := λ n sql d, (negb (fails && (n =? 1)%nat), d +:+ sql +:+ ";");
  me_record := λ n, if lost && (n =? 1)%nat then Some false else None
|}.
Example migration_resumes :
  let st := run_all (∅ : gmap Z (nat → string → res unit))
    [ mkRunOf string (small_env true false) small_files; mkRunOf string (small_env false true) small_files;
      mkRunOf string (small_env false false) small_files ] (mkMigrated ∅ "" []) in
  dom (ms_applied st) = {[1; 2]} ∧
  ms_executed st = [(1, true); (2, false); (2, true); (2, true)].
Proof. split; vm_compute; reflexivity. Qed.
