(* ===== verification/NumberRules.v ===== *)
(** * application/contract_number.go and the rule store of mysql/contract_number.go:
      the number rule

    Reading and changing the rule of the whole system, with the sample of the next
    number and the dry run before a change.  The use cases run over the tables of
    [Store] alone. *)

From S2P Require Import Prelude GoStrings Decimal GoTime BusinessClock Status NumberRule.
From S2P Require Import PaymentTerm ProjectService ImportPolicy ApprovalRule Workflow Store.
From S2P Require Import Outbound Numbering Repository Access Reports Drafting Service Tables.
From S2P Require Import Scenario Changes Refinement NumberIssue.

#[local] Open Scope string_scope.
#[local] Open Scope Z_scope.
#[local] Open Scope list_scope.

(** ** Statements *)

Section Store.
Context `{Oracle} `{Collation}.

(** Without the table the read fails; [None]: no row. *)
Definition GetContractNumberRule : Tx (option ContractNumberRule) :=
  found ← readContractNumberRule;
  match found with
  | None => throw ErrRelationMissing
  | Some rule => mret rule
  end.
(** The width is stored in eight bits. *)
Definition stored_rule (r : ContractNumberRule) : ContractNumberRule :=
  mkRule (Prefix r) (YearSegment r) (Z.modulo (SeqWidth r) 256) (Suffix r) (UpdatedBy r) (UpdatedAt r).
Definition SaveContractNumberRule (rule : ContractNumberRule) : Tx Z :=
  update_numbers (λ n, Ok (1, mkNumbers (Some (stored_rule rule)) (nt_sequence n) (nt_registry n))).
Definition ContractNumberSequenceValue (ruleKey : string) (year : Z) : Tx Z :=
  found ← query (λ d, match db_numbers d with
                      | None => None
                      | Some n => Some (default 0 (nt_sequence n !! (year, ruleKey)))
                      end);
  match found with None => throw ErrRelationMissing | Some v => mret v end.
(** Without the table nothing is registered. *)
Definition ContractNumberRegistryContains : string → Tx bool := contractNumberRegisteredInTx.

End Store.

(** ** Use cases *)

(** Why there is no sample; the code words the error for the administrator. *)
Inductive sampleReason : Type :=
  | SampleGiven
  | RuleMissing
  | RuleInvalid (e : goerr)
  | SampleInvalid (e : goerr).
Record ContractNumberRuleView : Type := mkRuleView {
  vw_Prefix : string; vw_YearSegment : string; vw_SeqWidth : Z; vw_Suffix : string;
  vw_Sample : string; vw_Reason : sampleReason; vw_SeqYear : Z; vw_CurrentValue : Z;
  vw_UpdatedBy : string; vw_UpdatedAt : Time
}.

Section Cases.
Context `{!Requests unit} `{GoUnicode} `{Sha256} `{TzDatabase} `{Collation}.
Notation Req := (Req unit).

Definition rule_view (rule : ContractNumberRule) (sample : string) (reason : sampleReason)
    (year current : Z) : ContractNumberRuleView :=
  mkRuleView (Prefix rule) (YearSegment rule) (SeqWidth rule) (Suffix rule) sample reason year current
    (UpdatedBy rule) (UpdatedAt rule).
Definition contractNumberRuleView : Req ContractNumberRuleView :=
  found ← rreads (λ o, in_store (@GetContractNumberRule o));
  now ← rclock;
  let year := YearOf now in
  match found with
  | None => mret (rule_view DefaultContractNumberRule "" RuleMissing year 0)
  | Some rule =>
      match ContractNumberRuleKey rule with
      | Err e => mret (rule_view rule "" (RuleInvalid e) year 0)
      | Ok key =>
          current ← rreads (λ o, in_store (@ContractNumberSequenceValue o key year));
          match BuildContractNumber rule year (current + 1) with
          | Ok sample => mret (rule_view rule sample SampleGiven year current)
          | Err e => mret (rule_view rule "" (SampleInvalid e) year current)
          end
      end
  end.

(** The first number of the new rule must not be registered. *)
Definition checkContractNumberRuleIssuable (rule : ContractNumberRule) : Req unit :=
  key ← rpure (as_validation (ContractNumberRuleKey rule));
  now ← rclock;
  current ← rreads (λ o, in_store (@ContractNumberSequenceValue o key (YearOf now)));
  match BuildContractNumber rule (YearOf now) (current + 1) with
  | Err _ => mret tt
  | Ok candidate =>
      occupied ← rreads (λ o, in_store (@ContractNumberRegistryContains o _ candidate));
      rcheck occupied ErrValidation
  end.

Definition GetContractNumberRuleView (actor : Principal) : Req ContractNumberRuleView :=
  rcheck (negb (hasPermissionOrAdmin actor "contract.read")) ErrForbidden;;
  contractNumberRuleView.
Definition UpdateContractNumberRule (actor : Principal) (rule : ContractNumberRule)
    : Req ContractNumberRuleView :=
  rlicensed;;
  rcheck (negb (Has actor "contract.number_rule.manage")) ErrForbidden;;
  normalized ← rpure (as_validation (NormalizeContractNumberRule rule));
  now ← rclock;
  let normalized := mkRule (Prefix normalized) (YearSegment normalized) (SeqWidth normalized)
                      (Suffix normalized) (TrimSpace (p_UserID actor)) now in
  rlicensed;;
  checkContractNumberRuleIssuable normalized;;
  rwrites (λ o, @xtransaction _ o _ (in_store (@SaveContractNumberRule o normalized)));;
  contractNumberRuleView.

End Cases.

(** * The sample of the number rule

    The view of the rule shows a sample of the next number, and a change of the rule
    is refused when its first number is taken.  After an accepted change the sample is
    the number the next approval of the year receives. *)

Section Sample.
Context `{!Requests unit} `{GoUnicode} `{Sha256} `{TzDatabase} `{Collation}.
Notation Req := (Req unit).
Variable year : Z.
Hypothesis same_year : ∀ n t, YearOf (@o_now (rq_oracle n) t) = year.
Notation stored w := (db_numbers (w_store w)).
Hypothesis numbers_quiet : ∀ n w, stored (rq_others n w) = stored w.
Notation tables s := (stored (rn_tables s)).

Lemma request_bind_ok {A B} (m : Req A) (f : A → Req B) s b s' :
  (m ≫= f) s = (Ok b, s') → ∃ a s1, m s = (Ok a, s1) ∧ f a s1 = (Ok b, s').
Proof using.
  unfold mbind, Req_bind. destruct (m s) as [[a|e] s1]; [by eauto|done].
Qed.
Lemma check_ok b e u (s s' : Run unit) : rcheck b e s = (Ok u, s') → b = false ∧ s' = s.
Proof using. unfold rcheck, rpure. intros [= Hb <-]. by apply fail_if_ok in Hb. Qed.
Lemma pure_ok {A} (r : res A) a (s s' : Run unit) : rpure r s = (Ok a, s') → r = Ok a ∧ s' = s.
Proof using. by intros [= -> <-]. Qed.
Lemma tick_numbers n s s' : rtick s = (Ok n, s') → tables s' = tables s.
Proof using numbers_quiet. unfold rtick. intros [= <- <-]. cbn. apply numbers_quiet. Qed.
Lemma clock_year now s s' : rclock s = (Ok now, s') → tables s' = tables s ∧ YearOf now = year.
Proof using numbers_quiet same_year.
  unfold rclock. intros (n & s1 & Et & [= <- <-])%request_bind_ok.
  split; [by eapply tick_numbers|apply same_year].
Qed.
Lemma licensed_numbers u s s' : rlicensed s = (Ok u, s') → tables s' = tables s.
Proof using numbers_quiet.
  unfold rlicensed. intros (n & s1 & Et%tick_numbers & E)%request_bind_ok.
  destruct (rq_license n); by injection E as _ <-.
Qed.
(** A read: the statements run on the tables as the others left them. *)
Lemma read_runs {A} (m : Oracle → Tx A) s a s' :
  rreads (λ o, in_store (m o)) s = (Ok a, s') →
  tables s' = tables s ∧
  ∃ o d d', runs (m o) d a d' ∧ db_numbers d = tables s.
Proof using numbers_quiet.
  unfold rreads. intros (n & s1 & Et & E)%request_bind_ok. unfold rread_under, xquery in E.
  injection E as E <-. pose proof (tick_numbers _ _ _ Et) as Hn. split; [done|].
  exists (rq_oracle n), (w_store (rn_tables s1)). destruct (rn_tables s1) as [d e]. cbn in *.
  destruct (m _ (0%nat, d)) as [r [t d']] eqn:Em. cbn in E. subst r.
  exists d'. split; [by exists 0%nat, t|done].
Qed.

Lemma rule_read found s s' :
  rreads (λ o, in_store (@GetContractNumberRule o)) s = (Ok found, s') →
  ∃ n, tables s = Some n ∧ tables s' = Some n ∧ found = nt_rule n.
Proof using numbers_quiet.
  intros (Hs & o & d & d' & Hr & Hd)%read_runs. unfold GetContractNumberRule in Hr.
  apply runs_bind in Hr as (r & d1 & [-> ->]%runs_query & Hr). rewrite Hd in Hr.
  destruct (tables s) as [n|]; [|by apply runs_throw in Hr].
  apply runs_ret in Hr as [-> _]. by exists n.
Qed.
Lemma sequence_read key y v s s' :
  rreads (λ o, in_store (@ContractNumberSequenceValue o key y)) s = (Ok v, s') →
  ∃ n, tables s = Some n ∧ tables s' = Some n ∧ v = current_value key y n.
Proof using numbers_quiet.
  intros (Hs & o & d & d' & Hr & Hd)%read_runs. unfold ContractNumberSequenceValue in Hr.
  apply runs_bind in Hr as (r & d1 & [-> ->]%runs_query & Hr). rewrite Hd in Hr.
  destruct (tables s) as [n|]; [|by apply runs_throw in Hr].
  apply runs_ret in Hr as [-> _]. by exists n.
Qed.
Lemma registry_read number b s s' n :
  rreads (λ o, in_store (@ContractNumberRegistryContains o _ number)) s = (Ok b, s') →
  tables s = Some n → tables s' = Some n ∧ b = registry_holds n (collate number).
Proof using numbers_quiet.
  intros (Hs & o & d & d' & Hr & Hd)%read_runs Hn.
  unfold ContractNumberRegistryContains, contractNumberRegisteredInTx in Hr.
  apply runs_query in Hr as [-> ->]. rewrite Hd, Hn. split; [congruence|done].
Qed.
Lemma rule_saved rule r s s' :
  rwrites (λ o, @xtransaction unit o _ (in_store (@SaveContractNumberRule o rule))) s = (Ok r, s') →
  ∃ n, tables s = Some n ∧
    tables s' = Some (mkNumbers (Some (stored_rule rule)) (nt_sequence n) (nt_registry n)).
Proof using numbers_quiet.
  unfold rwrites. intros (k & s1 & Et%tick_numbers & E)%request_bind_ok. rewrite <- Et.
  unfold rchange_under in E. injection E as E <-. cbn.
  destruct (xtransaction _ _) as [r0 w'] eqn:Ex. cbn in E. subst r0.
  apply xtransaction_ok in Ex as (t & Hx). destruct (rn_tables s1) as [d e] eqn:Es. cbn in *.
  unfold SaveContractNumberRule, update_numbers, exec in Hx. destruct (o_fault 0); [done|].
  destruct (db_numbers d) as [n|] eqn:En; [|done]. cbn in Hx. injection Hx as _ _ <-.
  by exists n.
Qed.

(** What the dry run found. *)
Definition first_unregistered (rule : ContractNumberRule) (n : numberTables) : Prop :=
  ∃ key, ContractNumberRuleKey rule = Ok key ∧
    ∀ candidate, BuildContractNumber rule year (current_value key year n + 1) = Ok candidate →
      registry_holds n (collate candidate) = false.
Lemma issuable_ok rule u s s' :
  checkContractNumberRuleIssuable rule s = (Ok u, s') →
  ∃ n, tables s = Some n ∧ tables s' = Some n ∧ first_unregistered rule n.
Proof using numbers_quiet same_year.
  unfold checkContractNumberRuleIssuable. intros Hr.
  apply request_bind_ok in Hr as (key & s1 & [Hkey ->]%pure_ok & Hr).
  apply as_validation_ok in Hkey.
  apply request_bind_ok in Hr as (now & s2 & [Es2 Ey]%clock_year & Hr).
  apply request_bind_ok in Hr as (current & s3 & (n & En & Es3 & ->)%sequence_read & Hr).
  rewrite Ey in *. exists n. split; [congruence|].
  destruct (BuildContractNumber rule year (current_value key year n + 1)) as [candidate|e] eqn:Eb.
  - apply request_bind_ok in Hr as (occupied & s4 & Hread & [Eo ->]%check_ok).
    apply (registry_read _ _ _ _ n) in Hread as [Es4 ->]; [|done]. split; [done|]. exists key.
    split; [done|]. intros c Ec. congruence.
  - injection Hr as _ <-. split; [done|]. exists key. split; [done|]. intros c Ec. congruence.
Qed.

Lemma view_sample view s s' n rule :
  contractNumberRuleView s = (Ok view, s') → tables s = Some n → nt_rule n = Some rule →
  vw_Reason view = SampleGiven →
  tables s' = Some n ∧ ∃ key, ContractNumberRuleKey rule = Ok key ∧
    BuildContractNumber rule year (current_value key year n + 1) = Ok (vw_Sample view).
Proof using numbers_quiet same_year.
  unfold contractNumberRuleView. intros Hr Hn Hrule Hgiven.
  apply request_bind_ok in Hr as (found & s1 & (n' & En & Es1 & ->)%rule_read & Hr).
  assert (n' = n) as -> by congruence. rewrite Hrule in Hr.
  apply request_bind_ok in Hr as (now & s2 & [Es2 Ey]%clock_year & Hr). cbv zeta in Hr.
  rewrite Ey in Hr. destruct (ContractNumberRuleKey rule) as [key|e]; [|by injection Hr as <- _].
  apply request_bind_ok in Hr as (current & s3 & (n' & En' & Es3 & ->)%sequence_read & Hr).
  assert (n' = n) as -> by congruence.
  destruct (BuildContractNumber _ _ _) as [sample|e] eqn:Eb; [|by injection Hr as <- _].
  injection Hr as <- <-. split; [done|]. by exists key.
Qed.

Lemma stored_rule_id rule : rule_ok rule = true → stored_rule rule = rule.
Proof using.
  intros (_ & _ & _ & Hw & _)%rule_ok_fields. unfold stored_rule.
  rewrite Z.mod_small by lia. by destruct rule.
Qed.
Lemma built_in_range rule y n number :
  BuildContractNumber rule y n = Ok number → (uint32_max <? n) = false.
Proof using.
  unfold BuildContractNumber. intros Hb.
  destruct (NormalizeContractNumberRule rule) as [r|] eqn:En; [|done].
  apply normalize_ok in En as [(_ & _ & _ & Hw & _)%rule_ok_fields _]. cbn [mbind res_bind] in Hb.
  destruct (n =? 0); [done|]. cbn [fail_if mbind res_bind] in Hb.
  destruct (_ <? n) eqn:El; [done|]. apply Z.ltb_ge in El.
  destruct (seq_bound _ _ Hw El). unfold uint32_max. lia.
Qed.

(** The first attempt of the allocation succeeds. *)
Lemma first_attempt rule key n number :
  BuildContractNumber rule year (current_value key year n + 1) = Ok number →
  registry_holds n (collate number) = false →
  first_free rule year contractNumberConflictAttempts (registry_holds n) (current_value key year n) =
    Ok (current_value key year n + 1, number).
Proof using.
  intros Hb Hfree. unfold contractNumberConflictAttempts. cbn [first_free].
  rewrite (built_in_range _ _ _ _ Hb). cbn [fail_if mbind res_bind]. rewrite Hb.
  cbn [mbind res_bind]. by rewrite Hfree.
Qed.

End Sample.

(** C31: a change of the number rule that is accepted and shows a sample keeps the
    promise: the dry run found the first number of the new rule unregistered, so the
    next number that is allocated in that year, for any contract of any tenant, is
    the sample, and it is registered for that contract.  Nobody else changes the
    number tables during the request and its clock stays in one year. *)
Theorem sample_is_next_number `{!Requests unit} `{GoUnicode} `{Sha256} `{TzDatabase} `{Collation}
    year actor rule view s s' :
  (∀ n t, YearOf (@o_now (rq_oracle n) t) = year) →
  (∀ n w, db_numbers (w_store (rq_others n w)) = db_numbers (w_store w)) →
  UpdateContractNumberRule actor rule s = (Ok view, s') → vw_Reason view = SampleGiven →
  (∀ n key, db_numbers (w_store (rn_tables s)) = Some n → 0 ≤ current_value key year n) →
  ∀ (o : Oracle) tenantID id legacy now t d,
    (∀ k, o_fault k = false) → YearOf now = year →
    db_numbers d = db_numbers (w_store (rn_tables s')) →
    ∃ t' d', allocateContractNumberInTx tenantID id legacy now (t, d) =
               (Ok (vw_Sample view), (t', d')) ∧
      registered (db_numbers d') (vw_Sample view) tenantID id.
Proof.
  intros Hy Hq Hr Hgiven Hpos o tenantID id legacy now t d Hf Hnow Hd.
  unfold UpdateContractNumberRule in Hr.
  apply request_bind_ok in Hr as (? & s1 & E1%(licensed_numbers Hq) & Hr).
  apply request_bind_ok in Hr as (? & s2 & [_ ->]%check_ok & Hr).
  apply request_bind_ok in Hr as (r0 & s3 & [Hn ->]%pure_ok & Hr). apply as_validation_ok in Hn.
  apply request_bind_ok in Hr as (at_ & s4 & [E4 _]%(clock_year year Hy Hq) & Hr). cbv zeta in Hr.
  set (saved := mkRule _ _ _ _ _ _) in Hr.
  apply request_bind_ok in Hr as (? & s5 & E5%(licensed_numbers Hq) & Hr).
  apply request_bind_ok in Hr as (? & s6 & Hcheck & Hr).
  apply request_bind_ok in Hr as (? & s7 & (n & E6 & E7)%(rule_saved Hq) & Hview).
  apply (issuable_ok year Hy Hq) in Hcheck as (n' & En & E6' & key & Hkey & Hfree).
  assert (n' = n) as -> by congruence.
  apply normalize_ok in Hn as (Hok & _).
  rewrite (stored_rule_id saved Hok) in E7. set (after := mkNumbers _ _ _) in E7.
  apply (view_sample year Hy Hq _ _ _ after saved) in Hview as (E' & key' & Hkey' & Hb); [|done..].
  assert (key' = key) as -> by congruence.
  change (current_value key year after) with (current_value key year n) in Hb.
  specialize (Hfree _ Hb).
  pose proof (first_attempt year saved key after (vw_Sample view) Hb Hfree) as Hfirst.
  unfold allocateContractNumberInTx, readContractNumberRule. rewrite bind_run. unfold query.
  rewrite Hf, Hd, E'. cbn [nt_rule after]. rewrite bind_run. unfold lift. rewrite Hkey, Hnow.
  assert (db_numbers d = Some after) as Ed by congruence.
  pose proof (loop_run Hf saved key year contractNumberConflictAttempts tenantID id now after d (S t)
    Ed) as Hrun.
  rewrite Hfirst in Hrun. destruct Hrun as [t' Hrun].
  { change (0 ≤ current_value key year n). apply Hpos. congruence. }
  eexists _, _. split; [exact Hrun|]. eexists _, _. split; [done|]. cbn.
  by rewrite lookup_insert_eq.
Qed.

(** ** Witness *)

Definition fixed_clock : Oracle := {|
  o_fault := λ _, false; o_now := λ _, 1700000000 * Second; o_id := λ _, "k"; o_commit := None
|}.
Definition rule_requests : Requests unit := {|
  rq_oracle := λ _, fixed_clock; rq_others := λ _ w, w; rq_license := λ _, Granted
|}.
#[local] Existing Instance rule_requests.
Definition rule_manager : Principal :=
  mkPrincipal "" "t1" "root" "id-root" "" "Root" "" "" ["admin"]
    {["contract.number_rule.manage" := true]} [] ∅ 1 "".
Definition gt_rule : ContractNumberRule := mkRule " GT- " "yy" 3 "" "" 0.

(** After a change of prefix, year segment and width. *)
Lemma sample_is_next_number_witness :
  ∃ view s', UpdateContractNumberRule rule_manager gt_rule
      (mkRun 0 (mkWith (new_tables (Some taken_tables)) tt)) = (Ok view, s') ∧
    vw_Sample view = "GT-23001" ∧
    ∃ t' d', allocateContractNumberInTx (H := fixed_clock) "t1" "c1" "" (1700000000 * Second)
      (0%nat, w_store (rn_tables s')) = (Ok "GT-23001", (t', d')) ∧
    registered (db_numbers d') "GT-23001" "t1" "c1".
Proof.
  destruct (UpdateContractNumberRule rule_manager gt_rule
    (mkRun 0 (mkWith (new_tables (Some taken_tables)) tt))) as [[view|e] s'] eqn:E;
    [|vm_compute in E; discriminate].
  assert (vw_Sample view = "GT-23001" ∧ vw_Reason view = SampleGiven) as [Es Er]
    by (vm_compute in E; injection E as <- _; split; reflexivity).
  exists view, s'. split; [reflexivity|]. split; [exact Es|]. rewrite <- Es.
  apply (sample_is_next_number 2023 rule_manager gt_rule view
    (mkRun 0 (mkWith (new_tables (Some taken_tables)) tt)) s').
  - intros n t. vm_compute. reflexivity.
  - by intros n w.
  - exact E.
  - exact Er.
  - intros n key [= <-]. unfold current_value. cbn. rewrite lookup_empty. done.
  - by intros k.
  - vm_compute. reflexivity.
  - reflexivity.
Defined.
