(* ===== verification/Authorization.v ===== *)
(** * infrastructure/platform/authorization.go, authorization_context.go, catalog.go:
      from the platform's answer to a principal

    The platform answers which roles, permissions and data scopes an identity has
    in this application.  The answer is admitted only against the local catalog,
    which is the manifest the application publishes itself, and becomes the
    [Principal] of [Access].

    [principal_scopes] and [access_exact] relate the two: a permission reaches
    exactly the contracts that some data scope of the answer covers, for a role
    that carries the permission. *)

From Stdlib Require Import Btauto.
From stdpp Require Import sorting.
From S2P Require Import Prelude GoStrings Decimal GoTime ApprovalRule Store Repository Access.
From S2P Require Import Scenario.

#[local] Open Scope string_scope.
#[local] Open Scope Z_scope.
#[local] Open Scope list_scope.

(** ** The manifest and the local catalog *)

Record manifestPermission : Type := mkManifestPermission {
  mp_Code : string; mp_Name : string; mp_Resource : string; mp_Action : string;
  mp_RiskLevel : string
}.
Record manifestRole : Type := mkManifestRole {
  mr_Code : string; mr_Name : string; mr_Permissions : list string
}.
Record permissionManifest : Type := mkManifest {
  pm_Version : Z; pm_Permissions : list manifestPermission; pm_Roles : list manifestRole
}.

Record AuthorizationCatalog : Type := mkAuthorizationCatalog {
  ac_Version : string; ac_Roles : gset string; ac_Permissions : gset string;
  ac_RolePermissions : gmap string (gset string)
}.

Definition add_permission (known : gset string) (permission : manifestPermission)
    : res (gset string) :=
  let code := TrimSpace (mp_Code permission) in
  fail_if (empty_str code || (code =s "all")) ErrOther;;
  fail_if (bool_decide (code ∈ known)) ErrOther;;
  Ok ({[code]} ∪ known).

Definition add_role (result : AuthorizationCatalog) (role : manifestRole)
    : res AuthorizationCatalog :=
  let code := TrimSpace (mr_Code role) in
  fail_if (empty_str code) ErrOther;;
  fail_if (bool_decide (code ∈ ac_Roles result)) ErrOther;;
  fail_if (existsb (λ permission, negb (bool_decide (permission ∈ ac_Permissions result)))
             (mr_Permissions role)) ErrOther;;
  Ok (mkAuthorizationCatalog (ac_Version result) ({[code]} ∪ ac_Roles result)
        (ac_Permissions result)
        (<[code := list_to_set (mr_Permissions role)]> (ac_RolePermissions result))).

Definition manifest_complete (manifest : permissionManifest) : bool :=
  negb ((pm_Version manifest <=? 0) || is_empty (pm_Permissions manifest) ||
        is_empty (pm_Roles manifest)).

(** [decoded]: what [yaml.Unmarshal] makes of the embedded manifest. *)
Definition LoadAuthorizationCatalog (decoded : res permissionManifest)
    : res AuthorizationCatalog :=
  match decoded with
  | Err _ => Err ErrOther
  | Ok manifest =>
      fail_if (negb (manifest_complete manifest)) ErrOther;;
      permissions ← fold_res add_permission ∅ (pm_Permissions manifest);
      fold_res add_role
        (mkAuthorizationCatalog (Itoa (pm_Version manifest)) ∅ permissions ∅) (pm_Roles manifest)
  end.

Record catalogPermission : Type := mkCatalogPermission {
  cp_Code : string; cp_Name : string; cp_Action : string; cp_ResourceCode : string;
  cp_ResourceName : string; cp_RiskLevel : string
}.
Record catalogRole : Type := mkCatalogRole {
  cr_Code : string; cr_Name : string; cr_Permissions : list string
}.
Record catalogPayload : Type := mkCatalogPayload {
  cl_CatalogVersion : string; cl_Permissions : list catalogPermission; cl_Roles : list catalogRole
}.

(** What is published to the platform. *)
Definition catalogPayloadFromManifest (decoded : res permissionManifest) : res catalogPayload :=
  match decoded with
  | Err _ => Err ErrOther
  | Ok manifest =>
      fail_if (negb (manifest_complete manifest)) ErrOther;;
      Ok (mkCatalogPayload (Itoa (pm_Version manifest))
            (map (λ p, mkCatalogPermission (mp_Code p) (mp_Name p) (mp_Action p) (mp_Resource p)
                         (mp_Resource p) (mp_RiskLevel p)) (pm_Permissions manifest))
            (map (λ r, mkCatalogRole (mr_Code r) (mr_Name r) (mr_Permissions r))
               (pm_Roles manifest)))
  end.

(** ** The platform's answer *)

Record compactIdentity : Type := mkIdentity {
  ci_Subject : string; ci_IdentityID : string; ci_TenantID : string; ci_PersonID : string;
  ci_SessionID : string
}.
Record AuthorizationDataScope : Type := mkGrant {
  gr_RoleCode : string; gr_ScopeType : string; gr_ScopeID : string; gr_EnvironmentCode : string
}.
Record AuthorizationContext : Type := mkAuthorizationContext {
  ax_Subject : string; ax_SubjectID : string; ax_IdentityID : string; ax_TenantID : string;
  ax_PersonID : string; ax_ClientID : string; ax_ApplicationCode : string;
  ax_EnvironmentCode : string; ax_Roles : list string; ax_Permissions : list string;
  ax_DataScopes : list AuthorizationDataScope; ax_CatalogVersion : string;
  ax_CompatibleCatalogVersions : list string; ax_RoleConfigHash : string;
  ax_CompatibleRoleConfigHashes : list string; ax_AuthorizationRevision : Z
}.

(** The HTTP answer: the status, what the body decodes to, and whether the body
    ends there. *)
Inductive ContextAnswer : Type :=
  | NoContextAnswer
  | ContextAnswered (status : Z) (body : res AuthorizationContext) (at_end : bool).

(** [Resolve]; a request that cannot be built counts as no answer. *)
Definition Resolve (accessToken : string) (answer : ContextAnswer) : res AuthorizationContext :=
  if empty_str (TrimSpace accessToken) then Err ErrAuthorizationUnauthorized
  else match answer with
       | NoContextAnswer => Err ErrAuthorizationUnavailable
       | ContextAnswered status body at_end =>
           if status =? 200 then
             match body with
             | Ok result => fail_if (negb at_end) ErrAuthorizationInvalid;; Ok result
             | Err _ => Err ErrAuthorizationInvalid
             end
           else if status =? 401 then Err ErrAuthorizationUnauthorized
           else if status =? 403 then Err ErrAuthorizationForbidden
           else if 500 <=? status then Err ErrAuthorizationUnavailable
           else Err ErrAuthorizationInvalid
       end.

(** ** Admission against the catalog *)

(** [fmt.Errorf("%w: %v", e, err)]. *)
Definition wrapped {A} (e : goerr) (r : res A) : res A :=
  match r with Ok a => Ok a | Err _ => Err e end.

Definition canonicalSubjectID (subjectID identityID : string) : res string :=
  let subjectID := TrimSpace subjectID in
  let identityID := TrimSpace identityID in
  let subjectID := if empty_str subjectID then identityID else subjectID in
  fail_if (empty_str subjectID || empty_str identityID || negb (subjectID =s identityID)) ErrOther;;
  Ok subjectID.

Fixpoint catalog_window (localVersion currentVersion : string) (seen : list string)
    (found currentFound : bool) (compatible : list string) : res (bool * bool) :=
  match compatible with
  | [] => Ok (found, currentFound)
  | version :: rest =>
      fail_if (empty_str version || negb (version =s TrimSpace version)) ErrOther;;
      fail_if (contains seen version) ErrOther;;
      catalog_window localVersion currentVersion (version :: seen)
        (found || (version =s localVersion)) (currentFound || (version =s currentVersion)) rest
  end.

Definition validateCatalogCompatibility (localVersion currentVersion : string)
    (compatible : list string) : res unit :=
  let localVersion := TrimSpace localVersion in
  let currentVersion := TrimSpace currentVersion in
  if empty_str currentVersion && is_empty compatible then Ok tt
  else
    fail_if (empty_str localVersion || empty_str currentVersion || is_empty compatible ||
             (2 <? Z.of_nat (length compatible))) ErrOther;;
    window ← catalog_window localVersion currentVersion [] false false compatible;
    fail_if (negb window.1 || negb window.2) ErrOther.

Definition text_le (a b : string) : Prop := String.leb a b = true.
#[export] Instance text_le_dec a b : Decision (text_le a b).
Proof. unfold text_le. apply _. Defined.
(** [sort.Strings]. *)
Definition sort_strings (values : list string) : list string := merge_sort text_le values.

Fixpoint known_values (known : gset string) (seen values : list string) : res (list string) :=
  match values with
  | [] => Ok []
  | value :: rest =>
      fail_if (empty_str value || negb (value =s TrimSpace value) || (value =s "all")) ErrOther;;
      fail_if (negb (bool_decide (value ∈ known))) ErrOther;;
      fail_if (contains seen value) ErrOther;;
      result ← known_values known (value :: seen) rest;
      Ok (value :: result)
  end.
Definition validateKnownSet (values : list string) (known : gset string) : res (list string) :=
  result ← known_values known [] values;
  Ok (sort_strings result).

Definition appendUnique (values : list string) (value : string) : list string :=
  if contains values value then values else values ++ [value].

Fixpoint firstNonEmpty (values : list string) : string :=
  match values with
  | [] => ""
  | value :: rest => if empty_str value then firstNonEmpty rest else value
  end.

(** ** Data scopes *)

Section Scopes.
Context `{GoUnicode}.

Definition normalized (raw : AuthorizationDataScope) : AuthorizationDataScope :=
  mkGrant (TrimSpace (gr_RoleCode raw)) (ToUpper (TrimSpace (gr_ScopeType raw)))
    (TrimSpace (gr_ScopeID raw)) (TrimSpace (gr_EnvironmentCode raw)).

Definition other_environment (raw : AuthorizationDataScope) (environmentCode : string) : bool :=
  negb (empty_str (gr_EnvironmentCode raw)) && negb (gr_EnvironmentCode raw =s environmentCode).

(** The [switch] on the scope type: the refusals of a normalized scope. *)
Definition scope_refused (identity : compactIdentity) (environmentCode : string)
    (raw : AuthorizationDataScope) : bool :=
  let type := gr_ScopeType raw in
  if contains ["APPLICATION"; "TENANT"] type then negb (empty_str (gr_EnvironmentCode raw))
  else if type =s "ENVIRONMENT" then
    negb (gr_EnvironmentCode raw =s environmentCode) || empty_str (gr_ScopeID raw)
  else if type =s "SELF" then
    empty_str (gr_ScopeID raw) || negb (gr_ScopeID raw =s ci_IdentityID identity) ||
    other_environment raw environmentCode
  else if contains ["ORG"; "PROJECT"] type then
    empty_str (gr_ScopeID raw) || other_environment raw environmentCode
  else true.

Definition nul : string := of_bytes [chr 0].
Definition scope_key (raw : AuthorizationDataScope) : string :=
  gr_RoleCode raw +:+ nul +:+ gr_ScopeType raw +:+ nul +:+ gr_ScopeID raw +:+ nul +:+
  gr_EnvironmentCode raw.

Definition grant_scope (raw : AuthorizationDataScope) (filter : ScopeFilter) : ScopeFilter :=
  let type := gr_ScopeType raw in
  let with_ orgs projects all self :=
    mkScope (sf_TenantID filter) (sf_IdentityID filter) orgs projects all self in
  let orgs := sf_OrganizationIDs filter in
  let projects := sf_ProjectIDs filter in
  if contains ["APPLICATION"; "TENANT"; "ENVIRONMENT"] type
  then with_ orgs projects true (sf_AllowSelf filter)
  else if type =s "SELF" then with_ orgs projects (sf_AllowAll filter) true
  else if type =s "ORG"
  then with_ (appendUnique orgs (gr_ScopeID raw)) projects (sf_AllowAll filter)
         (sf_AllowSelf filter)
  else if type =s "PROJECT"
  then with_ orgs (appendUnique projects (gr_ScopeID raw)) (sf_AllowAll filter)
         (sf_AllowSelf filter)
  else filter.

Definition grant_permission (permissionSet : gset string) (raw : AuthorizationDataScope)
    (permission : string) (scopes : gmap string ScopeFilter) : gmap string ScopeFilter :=
  if bool_decide (permission ∈ permissionSet)
  then <[permission := grant_scope raw (default no_scope (scopes !! permission))]> scopes
  else scopes.

(** [for permission := range rolePermissions]; every permission changes its own
    entry, so the order of the iteration does not matter. *)
Definition grant_role (permissionSet rolePermissions : gset string) (raw : AuthorizationDataScope)
    (scopes : gmap string ScopeFilter) : gmap string ScopeFilter :=
  foldr (grant_permission permissionSet raw) scopes (elements rolePermissions).

Record ScopeLoop : Type := mkScopeLoop {
  sl_seen : list string; sl_result : list DataScope; sl_scopes : gmap string ScopeFilter
}.

Definition role_permissions (catalog : AuthorizationCatalog) (role : string) : gset string :=
  default ∅ (ac_RolePermissions catalog !! role).

Section Loop.
Variable roles : list string.
Variable catalog : AuthorizationCatalog.
Variable permissionSet : gset string.
Variable identity : compactIdentity.
Variable environmentCode : string.

Definition admit_scope (loop : ScopeLoop) (raw : AuthorizationDataScope) : res ScopeLoop :=
  let raw := normalized raw in
  fail_if (empty_str (gr_RoleCode raw)) ErrOther;;
  fail_if (negb (contains roles (gr_RoleCode raw))) ErrOther;;
  let rolePermissions := role_permissions catalog (gr_RoleCode raw) in
  fail_if (bool_decide (rolePermissions = ∅)) ErrOther;;
  fail_if (scope_refused identity environmentCode raw) ErrOther;;
  fail_if (contains (sl_seen loop) (scope_key raw)) ErrOther;;
  Ok (mkScopeLoop (scope_key raw :: sl_seen loop)
        (sl_result loop ++ [mkDataScope (gr_RoleCode raw) (gr_ScopeType raw) (gr_ScopeID raw)
                              (gr_EnvironmentCode raw)])
        (grant_role permissionSet rolePermissions raw (sl_scopes loop))).
End Loop.

Definition reaches_something (filter : ScopeFilter) : bool :=
  sf_AllowAll filter || sf_AllowSelf filter || negb (is_empty (sf_OrganizationIDs filter)) ||
  negb (is_empty (sf_ProjectIDs filter)).
Definition sorted_filter (filter : ScopeFilter) : ScopeFilter :=
  mkScope (sf_TenantID filter) (sf_IdentityID filter) (sort_strings (sf_OrganizationIDs filter))
    (sort_strings (sf_ProjectIDs filter)) (sf_AllowAll filter) (sf_AllowSelf filter).

Definition settle_permission (scopes : gmap string ScopeFilter) (permission : string)
    : res (gmap string ScopeFilter) :=
  match scopes !! permission with
  | Some filter =>
      fail_if (negb (reaches_something filter)) ErrOther;;
      Ok (<[permission := sorted_filter filter]> scopes)
  | None => Err ErrOther
  end.

Definition scope_text (s : DataScope) : string :=
  ds_RoleCode s +:+ ds_ScopeType s +:+ ds_ScopeID s +:+ ds_EnvironmentCode s.
Definition scope_le (a b : DataScope) : Prop := text_le (scope_text a) (scope_text b).
#[export] Instance scope_le_dec a b : Decision (scope_le a b).
Proof. unfold scope_le. apply _. Defined.

Definition validateDataScopes (input : list AuthorizationDataScope) (roles : list string)
    (catalog : AuthorizationCatalog) (permissions : list string) (identity : compactIdentity)
    (environmentCode : string) : res (list DataScope * gmap string ScopeFilter) :=
  fail_if (is_empty input) ErrOther;;
  loop ← fold_res (admit_scope roles catalog (list_to_set permissions) identity environmentCode)
           (mkScopeLoop [] [] ∅) input;
  scopes ← fold_res settle_permission (sl_scopes loop) permissions;
  Ok (merge_sort scope_le (sl_result loop), scopes).

(** ** The principal *)

Definition bound (identity : compactIdentity) (context : AuthorizationContext)
    (clientID applicationCode environmentCode : string) : bool :=
  (ax_Subject context =s ci_Subject identity) && (ax_IdentityID context =s ci_IdentityID identity) &&
  (ax_TenantID context =s ci_TenantID identity) && (ax_ClientID context =s clientID) &&
  (ax_ApplicationCode context =s applicationCode) &&
  (ax_EnvironmentCode context =s environmentCode) &&
  negb (ax_AuthorizationRevision context =? 0).

Definition partial_compatibility (context : AuthorizationContext) : bool :=
  empty_str (ax_CatalogVersion context) && is_empty (ax_CompatibleCatalogVersions context) &&
  (negb (empty_str (ax_RoleConfigHash context)) ||
   negb (is_empty (ax_CompatibleRoleConfigHashes context))).

Definition principalFromAuthorizationContext (identity : compactIdentity)
    (context : AuthorizationContext) (catalog : AuthorizationCatalog)
    (clientID applicationCode environmentCode : string) : res Principal :=
  subjectID ← wrapped ErrAuthorizationInvalid
                (canonicalSubjectID (ax_SubjectID context) (ax_IdentityID context));
  fail_if (negb (bound identity context clientID applicationCode environmentCode))
    ErrAuthorizationInvalid;;
  fail_if (partial_compatibility context) ErrAuthorizationInvalid;;
  wrapped ErrAuthorizationInvalid
    (validateCatalogCompatibility (ac_Version catalog) (ax_CatalogVersion context)
       (ax_CompatibleCatalogVersions context));;
  roles ← wrapped ErrAuthorizationForbidden
            (validateKnownSet (ax_Roles context) (ac_Roles catalog));
  fail_if (is_empty roles) ErrAuthorizationForbidden;;
  permissions ← wrapped ErrAuthorizationForbidden
                  (validateKnownSet (ax_Permissions context) (ac_Permissions catalog));
  fail_if (is_empty permissions) ErrAuthorizationForbidden;;
  '(scopes, permissionScopes) ← wrapped ErrAuthorizationForbidden
     (validateDataScopes (ax_DataScopes context) roles catalog permissions identity
        environmentCode);
  Ok (mkPrincipal (ci_Subject identity) (ci_TenantID identity) subjectID subjectID
        (firstNonEmpty [ax_PersonID context; ci_PersonID identity]) "" "" "" roles
        (set_to_map (λ permission, (permission, true)) (list_to_set permissions : gset string))
        scopes permissionScopes (ax_AuthorizationRevision context) (ac_Version catalog)).

End Scopes.

(** ** The catalog's laws *)

Lemma wrapped_ok {A} e (r : res A) a : wrapped e r = Ok a ↔ r = Ok a.
Proof. by destruct r. Qed.

Lemma fold_res_inv {S A} (f : S → A → res S) (P : S → Prop) l s s' :
  (∀ s x s', x ∈ l → P s → f s x = Ok s' → P s') → P s → fold_res f s l = Ok s' → P s'.
Proof.
  revert s. induction l as [|x l IH]; intros s Hf Hs Eq; cbn in Eq; [by inv_ok Eq|].
  inv_ok Eq. eapply IH; [|eapply Hf, Hv; [set_solver|done]|exact Eq].
  intros ???? ; eapply Hf. set_solver.
Qed.

(** A usable catalog: no empty or wildcard permission, and every role carries
    known permissions only. *)
Definition catalog_closed (catalog : AuthorizationCatalog) : Prop :=
  (∀ permission, permission ∈ ac_Permissions catalog →
     permission ≠ "" ∧ permission ≠ "all" ∧ trimmed permission = true) ∧
  dom (ac_RolePermissions catalog) = ac_Roles catalog ∧
  ∀ role, role_permissions catalog role ⊆ ac_Permissions catalog.

Lemma add_permission_sound known permission known' :
  (∀ p, p ∈ known → p ≠ "" ∧ p ≠ "all" ∧ trimmed p = true) →
  add_permission known permission = Ok known' →
  ∀ p, p ∈ known' → p ≠ "" ∧ p ≠ "all" ∧ trimmed p = true.
Proof.
  intros Hk Eq p Hp. unfold add_permission in Eq. inv_ok Eq.
  apply orb_false_iff in Hv as [Hv%streq_false Hv'%streq_false].
  apply elem_of_union in Hp as [->%elem_of_singleton|Hp]; auto using TrimSpace_trimmed.
Qed.

Lemma add_role_sound catalog role catalog' :
  catalog_closed catalog → add_role catalog role = Ok catalog' → catalog_closed catalog'.
Proof.
  intros (Hp & Hd & Hr) Eq. unfold add_role in Eq. inv_ok Eq. unfold catalog_closed. cbn.
  split_and!; [done|by rewrite dom_insert_L, Hd|].
  intros r. unfold role_permissions. cbn. destruct (decide (r = TrimSpace (mr_Code role))) as [->|Hne].
  - rewrite lookup_insert_eq. cbn. intros p Hin%elem_of_list_to_set.
    apply not_true_iff_false in Hv1. apply dec_stable. intros Hn. apply Hv1, existsb_exists.
    exists p. split; [by apply list_elem_of_In|]. by rewrite bool_decide_false.
  - rewrite lookup_insert_ne by done. apply Hr.
Qed.

Lemma catalog_loads decoded catalog :
  LoadAuthorizationCatalog decoded = Ok catalog → catalog_closed catalog.
Proof.
  unfold LoadAuthorizationCatalog. destruct decoded as [manifest|]; [|done]. intros Eq. inv_ok Eq.
  eapply (fold_res_inv add_role catalog_closed); [|split_and!|exact Eq].
  - intros ??? _. apply add_role_sound.
  - eapply (fold_res_inv add_permission
      (λ known, ∀ p, p ∈ known → p ≠ "" ∧ p ≠ "all" ∧ trimmed p = true));
      [|by intros p ?%elem_of_empty|exact Hv0].
    intros ??? _. apply add_permission_sound.
  - cbn. set_solver.
  - intros r. unfold role_permissions. cbn. rewrite lookup_empty. cbn. set_solver.
Qed.

(** The catalog the answers are checked against is the one that is published. *)
Lemma published_version decoded catalog payload :
  LoadAuthorizationCatalog decoded = Ok catalog → catalogPayloadFromManifest decoded = Ok payload →
  cl_CatalogVersion payload = ac_Version catalog.
Proof.
  unfold LoadAuthorizationCatalog, catalogPayloadFromManifest. destruct decoded as [m|]; [|done].
  intros Eq Eq'. inv_ok Eq. inv_ok Eq'. cbn.
  eapply (fold_res_inv add_role (λ c, Itoa (pm_Version m) = ac_Version c)); [| |exact Eq]; [|done].
  intros ??? _ Hs Hadd. unfold add_role in Hadd. by inv_ok Hadd.
Qed.

(** ** Known values *)

Lemma sort_strings_perm values : sort_strings values ≡ₚ values.
Proof. apply merge_sort_Permutation. Qed.

Lemma known_values_ok known seen values result :
  known_values known seen values = Ok result →
  result = values ∧ NoDup values ∧
  ∀ v, v ∈ values → v ∈ known ∧ v ∉ seen ∧ v ≠ "" ∧ v ≠ "all".
Proof.
  revert seen result. induction values as [|v values IH]; intros seen result Eq; cbn in Eq.
  { inv_ok Eq. split_and!; [done|constructor|set_solver]. }
  inv_ok Eq. apply orb_false_iff in Hv as [[He%streq_false _]%orb_false_iff Ha%streq_false].
  apply negb_false_iff, bool_decide_eq_true in Hv0. apply contains_false in Hv1.
  destruct (IH _ _ Hv2) as (-> & Hnd & Hall). split_and!; [done| |].
  - constructor; [|done]. intros Hin. apply Hall in Hin. set_solver.
  - intros w [->|Hin]%elem_of_cons; [done|]. apply Hall in Hin. set_solver.
Qed.

Lemma validateKnownSet_ok values known result :
  validateKnownSet values known = Ok result →
  result ≡ₚ values ∧ NoDup result ∧ ∀ v, v ∈ result → v ∈ known ∧ v ≠ "" ∧ v ≠ "all".
Proof.
  unfold validateKnownSet. intros Eq. inv_ok Eq. apply known_values_ok in Hv as (-> & Hnd & Hall).
  pose proof (sort_strings_perm values) as Hp. split_and!; [done|by rewrite Hp|].
  intros v Hin. rewrite Hp in Hin. apply Hall in Hin. naive_solver.
Qed.

Lemma appendUnique_elem values value x : x ∈ appendUnique values value ↔ x ∈ values ∨ x = value.
Proof.
  unfold appendUnique. destruct (contains values value) eqn:E; [|set_solver].
  apply contains_spec in E. set_solver.
Qed.

(** ** What the scopes give a permission *)

Section ScopeLaws.
Context `{GoUnicode}.

Lemma grant_role_lookup set rolePermissions raw scopes p :
  grant_role set rolePermissions raw scopes !! p =
  if bool_decide (p ∈ rolePermissions) && bool_decide (p ∈ set)
  then Some (grant_scope raw (default no_scope (scopes !! p))) else scopes !! p.
Proof.
  unfold grant_role. rewrite <- (bool_decide_ext _ _ (elem_of_elements rolePermissions p)).
  pose proof (NoDup_elements rolePermissions) as Hnd.
  induction (elements rolePermissions) as [|q l IH]; [done|].
  apply NoDup_cons in Hnd as [Hq Hnd]. specialize (IH Hnd). cbn [foldr].
  unfold grant_permission at 1. destruct (decide (p = q)) as [->|Hne].
  - rewrite (bool_decide_false (q ∈ l)) in IH by done. cbn in IH. rewrite (bool_decide_true (q ∈ q :: l)) by set_solver. cbn.
    case_bool_decide; [by rewrite lookup_insert_eq, IH|done].
  - rewrite (bool_decide_ext (p ∈ q :: l) (p ∈ l)) by set_solver.
    destruct (bool_decide (q ∈ set)); [by rewrite lookup_insert_ne|done].
Qed.

Definition carries (catalog : AuthorizationCatalog) (permission : string)
    (raw : AuthorizationDataScope) : bool :=
  bool_decide (permission ∈ role_permissions catalog (gr_RoleCode raw)).
Definition combined (start : option ScopeFilter) (raws : list AuthorizationDataScope)
    : option ScopeFilter :=
  foldl (λ f raw, Some (grant_scope raw (default no_scope f))) start raws.

Definition admitted (roles : list string) (identity : compactIdentity) (environmentCode : string)
    (raw : AuthorizationDataScope) : Prop :=
  gr_RoleCode (normalized raw) ∈ roles ∧
  scope_refused identity environmentCode (normalized raw) = false.

Lemma admit_scopes roles catalog set identity env input loop loop' :
  fold_res (admit_scope roles catalog set identity env) loop input = Ok loop' →
  Forall (admitted roles identity env) input ∧
  ∀ p, sl_scopes loop' !! p =
    if bool_decide (p ∈ set)
    then combined (sl_scopes loop !! p) (List.filter (carries catalog p) (map normalized input))
    else sl_scopes loop !! p.
Proof.
  revert loop. induction input as [|raw input IH]; intros loop Eq; cbn [fold_res] in Eq.
  { inv_ok Eq. split; [constructor|]. intros p. by destruct (bool_decide _). }
  apply bind_ok in Eq as (l1 & Hadmit & Eq). apply IH in Eq as [Hall Hscopes].
  unfold admit_scope in Hadmit. inv_ok Hadmit. apply negb_false_iff, contains_spec in Hv0.
  split; [by constructor|]. intros p. rewrite Hscopes. cbn [sl_scopes map List.filter].
  rewrite grant_role_lookup.
  change (bool_decide (p ∈ role_permissions catalog (TrimSpace (gr_RoleCode raw))))
    with (carries catalog p (normalized raw)).
  destruct (bool_decide (p ∈ set)); [|by rewrite andb_false_r].
  rewrite andb_true_r. by destruct (carries catalog p (normalized raw)).
Qed.

Lemma settle_permissions permissions scopes scopes' :
  NoDup permissions → fold_res settle_permission scopes permissions = Ok scopes' →
  ∀ p, p ∈ permissions →
    ∃ f, scopes !! p = Some f ∧ reaches_something f = true ∧ scopes' !! p = Some (sorted_filter f).
Proof.
  revert scopes. induction permissions as [|q l IH]; intros scopes Hnd Eq p Hp; [set_solver|].
  apply NoDup_cons in Hnd as [Hq Hnd]. cbn [fold_res] in Eq.
  apply bind_ok in Eq as (scopes1 & E1 & Eq). unfold settle_permission in E1.
  destruct (scopes !! q) as [f|] eqn:Ef; [|done]. inv_ok E1. apply negb_false_iff in Hv.
  apply elem_of_cons in Hp as [->|Hp].
  - exists f. split_and!; [done..|].
    eapply (fold_res_inv settle_permission (λ m, m !! q = Some (sorted_filter f)));
      [|apply lookup_insert_eq|exact Eq].
    intros m x m' Hx Hm E. unfold settle_permission in E. destruct (m !! x); [|done]. inv_ok E.
    rewrite lookup_insert_ne; [done|set_solver].
  - destruct (IH _ Hnd Eq p Hp) as (g & Hg & Hr & Hs). exists g. split_and!; [|done..].
    rewrite lookup_insert_ne in Hg; [done|set_solver].
Qed.

(** ** The contracts a scope covers *)

(** The boundary of [canAccessContract] within the tenant. *)
Definition reach (identity : string) (f : ScopeFilter) (c : Contract) : bool :=
  let o := k_owner c in
  sf_AllowAll f ||
  ((sf_AllowSelf f && negb (empty_str (k_OwnerIdentityID o)) && (k_OwnerIdentityID o =s identity)) ||
   containsString (sf_OrganizationIDs f) (k_OwnerOrgID o) ||
   containsString (sf_ProjectIDs f) (k_ProjectID o)).

Definition covers (identity : string) (raw : AuthorizationDataScope) (c : Contract) : bool :=
  let o := k_owner c in
  let type := gr_ScopeType raw in
  if contains ["APPLICATION"; "TENANT"; "ENVIRONMENT"] type then true
  else if type =s "SELF"
  then negb (empty_str (k_OwnerIdentityID o)) && (k_OwnerIdentityID o =s identity)
  else if type =s "ORG" then negb (empty_str (k_OwnerOrgID o)) && (gr_ScopeID raw =s k_OwnerOrgID o)
  else if type =s "PROJECT" then negb (empty_str (k_ProjectID o)) && (gr_ScopeID raw =s k_ProjectID o)
  else false.

Lemma containsString_append values value x :
  containsString (appendUnique values value) x =
  containsString values x || (negb (empty_str x) && (value =s x)).
Proof.
  unfold containsString. destruct (empty_str x); [done|]. cbn. apply eq_true_iff_eq.
  rewrite orb_true_iff, streq_true, !contains_spec, appendUnique_elem. naive_solver.
Qed.

Lemma reach_grant identity raw f c :
  reach identity (grant_scope raw f) c = reach identity f c || covers identity raw c.
Proof.
  unfold reach, grant_scope, covers. destruct (contains _ _); cbn; [by rewrite orb_true_r|].
  destruct (_ =s "SELF"); cbn; [btauto|].
  destruct (_ =s "ORG"); cbn; [rewrite containsString_append; btauto|].
  destruct (_ =s "PROJECT"); cbn; [rewrite containsString_append|]; btauto.
Qed.

Lemma reach_none identity c : reach identity no_scope c = false.
Proof. unfold reach, containsString. cbn. by repeat destruct (empty_str _). Qed.

Lemma reach_combined identity raws start f c :
  combined start raws = Some f →
  reach identity f c =
  match start with Some f0 => reach identity f0 c | None => false end ||
  existsb (λ raw, covers identity raw c) raws.
Proof.
  revert start. induction raws as [|raw raws IH]; intros start Eq; cbn in *.
  { simplify_eq. by rewrite orb_false_r. }
  rewrite (IH _ Eq), reach_grant, orb_assoc. destruct start; [done|].
  cbn [default from_option]. by rewrite reach_none.
Qed.

Lemma reach_sorted identity f c : reach identity (sorted_filter f) c = reach identity f c.
Proof.
  assert (Hs : ∀ values x, containsString (sort_strings values) x = containsString values x).
  { intros values x. unfold containsString. destruct (empty_str x); [done|].
    apply eq_true_iff_eq. by rewrite !contains_spec, sort_strings_perm. }
  unfold reach. cbn. by rewrite !Hs.
Qed.

Lemma canAccess_reach tenant identity f c :
  canAccessContract (mkScope tenant identity (sf_OrganizationIDs f) (sf_ProjectIDs f)
                       (sf_AllowAll f) (sf_AllowSelf f)) c =
  (k_TenantID c =s tenant) && reach identity f c.
Proof.
  unfold canAccessContract, reach, containsString. cbn. destruct (k_TenantID c =s tenant); [|done]. cbn.
  destruct (sf_AllowAll f); [done|]. cbn.
  destruct (empty_str (k_OwnerOrgID _)), (empty_str (k_ProjectID _)); cbn;
    rewrite ?andb_false_r, ?andb_true_r, ?orb_false_r, ?andb_assoc; done.
Qed.

(** ** Admitted principals *)

(** What an accepted answer says: the fields of the principal, and the filter of
    each permission. *)
Record Admission (identity : compactIdentity) (context : AuthorizationContext)
    (catalog : AuthorizationCatalog) (environmentCode : string) (p : Principal) : Prop := {
  ad_tenant : p_TenantID p = ci_TenantID identity;
  ad_subject : p_Subject p = ci_Subject identity;
  ad_user : p_UserID p = p_IdentityID p;
  ad_identity : p_IdentityID p = TrimSpace (ci_IdentityID identity) ∧ p_IdentityID p ≠ "";
  ad_revision : p_AuthorizationRevision p = ax_AuthorizationRevision context ∧
                ax_AuthorizationRevision context ≠ 0;
  ad_roles : p_Roles p ≡ₚ ax_Roles context ∧ ∀ r, r ∈ p_Roles p → r ∈ ac_Roles catalog;
  ad_known : ∀ q, q ∈ ax_Permissions context → q ∈ ac_Permissions catalog ∧ q ≠ "all";
  ad_scopes : Forall (admitted (p_Roles p) identity environmentCode) (ax_DataScopes context);
  ad_has : ∀ q, Has p q = bool_decide (q ∈ ax_Permissions context);
  ad_filter : ∀ q, q ∈ ax_Permissions context → ∃ f,
    combined None (List.filter (carries catalog q) (map normalized (ax_DataScopes context))) = Some f ∧
    reaches_something f = true ∧ p_PermissionScopes p !! q = Some (sorted_filter f)
}.

Lemma permission_map (permissions : list string) q :
  default false ((set_to_map (λ permission, (permission, true))
                    (list_to_set permissions : gset string) : gmap string bool) !! q) =
  bool_decide (q ∈ permissions).
Proof.
  set (m := set_to_map _ _).
  assert (Hm : ∀ b, m !! q = Some b ↔ q ∈ permissions ∧ b = true).
  { intros b. unfold m. rewrite lookup_set_to_map by (intros ?? _ _; by intros [=]). split.
    - intros (y & Hy%elem_of_list_to_set & [= -> <-]). done.
    - intros [Hq ->]. exists q. by rewrite elem_of_list_to_set. }
  case_bool_decide as Hq; [by rewrite (proj2 (Hm true))|].
  destruct (m !! q) as [b|]; [|done]. by destruct (proj1 (Hm b) eq_refl).
Qed.

Lemma principal_admitted identity context catalog client application env p :
  principalFromAuthorizationContext identity context catalog client application env = Ok p →
  Admission identity context catalog env p.
Proof.
  unfold principalFromAuthorizationContext. intros Eq.
  apply bind_ok in Eq as (subject & Hsub & Eq). apply wrapped_ok in Hsub.
  unfold canonicalSubjectID in Hsub. inv_ok Hsub.
  apply orb_false_iff in Hv as [[_ Hid%streq_false]%orb_false_iff Hsame%negb_false_iff%streq_true].
  apply bind_ok in Eq as ([] & Hb & Eq). apply fail_if_ok, negb_false_iff in Hb.
  apply bind_ok in Eq as ([] & _ & Eq). apply bind_ok in Eq as ([] & _ & Eq).
  apply bind_ok in Eq as (roles & Hroles%wrapped_ok & Eq). apply bind_ok in Eq as ([] & _ & Eq).
  apply bind_ok in Eq as (permissions & Hperms%wrapped_ok & Eq).
  apply bind_ok in Eq as ([] & _ & Eq).
  apply bind_ok in Eq as ([scopes filters] & Hdata%wrapped_ok & Eq). injection Eq as <-.
  apply validateKnownSet_ok in Hroles as (Hroles & _ & Hr).
  apply validateKnownSet_ok in Hperms as (Hperms & Hnd & Hp).
  unfold validateDataScopes in Hdata. inv_ok Hdata. apply admit_scopes in Hv0 as [Hall Hscopes].
  unfold bound in Hb. bool_hyps. repeat match goal with E : (_ =s _) = true |- _ => apply streq_true in E end.
  rewrite Hsame. replace (ax_IdentityID context) with (ci_IdentityID identity) in * by done.
  split; cbn; try done.
  - split; [done|]. intros r Hin. by apply Hr in Hin as [? _].
  - intros q Hq. rewrite <- Hperms in Hq. destruct (Hp q Hq) as (? & _ & ?). done.
  - intros q. unfold Has. cbn. rewrite permission_map. apply bool_decide_ext. by rewrite Hperms.
  - intros q Hq. rewrite <- Hperms in Hq.
    destruct (settle_permissions _ _ _ Hnd Hv1 q Hq) as (f & Hf & Hreach & Hs).
    rewrite Hscopes in Hf. cbn in Hf. rewrite bool_decide_true, lookup_empty in Hf by set_solver.
    by exists f.
Qed.

(** The permission reaches the contract: the use case asks for the scope of the
    permission and lets the contract pass it. *)
Definition may_access (p : Principal) (permission : string) (c : Contract) : bool :=
  match Scope p permission with Some filter => canAccessContract filter c | None => false end.

Lemma admission_scope identity context catalog env p q :
  Admission identity context catalog env p → q ∈ ax_Permissions context →
  ∃ f, Scope p q = Some (mkScope (p_TenantID p) (p_IdentityID p) (sf_OrganizationIDs f)
                           (sf_ProjectIDs f) (sf_AllowAll f) (sf_AllowSelf f)) ∧
    reaches_something f = true ∧ ∀ c,
    reach (p_IdentityID p) f c =
    existsb (λ raw, covers (p_IdentityID p) raw c)
      (List.filter (carries catalog q) (map normalized (ax_DataScopes context))).
Proof.
  intros Ha Hq. destruct (ad_filter _ _ _ _ _ Ha q Hq) as (f & Hc & Hr & Hf).
  assert (Hsome : reaches_something (sorted_filter f) = true).
  { revert Hr. unfold reaches_something. cbn. unfold sort_strings.
    assert (He : ∀ l, is_empty (merge_sort text_le l) = is_empty l).
    { intros l. pose proof (sort_strings_perm l) as Hp. unfold sort_strings in Hp.
      destruct l as [|x l], (merge_sort _ _); try done;
        by apply Permutation_length in Hp. }
    by rewrite !He. }
  exists (sorted_filter f). unfold Scope.
  rewrite (ad_has _ _ _ _ _ Ha q), bool_decide_true by done. cbn [negb]. rewrite Hf. cbv zeta.
  unfold reaches_something in Hsome. cbn in Hsome |- *. rewrite Hsome. split_and!; [done..|].
  intros c. change (reach (p_IdentityID p) (sorted_filter f) c = existsb
    (λ raw, covers (p_IdentityID p) raw c)
    (List.filter (carries catalog q) (map normalized (ax_DataScopes context)))).
  by rewrite reach_sorted, (reach_combined _ _ _ _ c Hc).
Qed.

Lemma may_access_admitted identity context catalog env p q c :
  Admission identity context catalog env p →
  may_access p q c =
  bool_decide (q ∈ ax_Permissions context) && (k_TenantID c =s ci_TenantID identity) &&
  existsb (λ raw, covers (TrimSpace (ci_IdentityID identity)) raw c)
    (List.filter (carries catalog q) (map normalized (ax_DataScopes context))).
Proof.
  intros Ha. unfold may_access. case_bool_decide as Hq.
  - destruct (admission_scope _ _ _ _ _ q Ha Hq) as (f & -> & _ & Hr).
    rewrite canAccess_reach, Hr, (ad_tenant _ _ _ _ _ Ha).
    by destruct (ad_identity _ _ _ _ _ Ha) as [-> _].
  - unfold Scope. by rewrite (ad_has _ _ _ _ _ Ha q), bool_decide_false by done.
Qed.

(** ** The specification: which scope of the answer justifies an access *)

Definition justifies (context : AuthorizationContext) (catalog : AuthorizationCatalog)
    (identity : compactIdentity) (environmentCode permission : string) (c : Contract)
    (raw : AuthorizationDataScope) : Prop :=
  let g := normalized raw in
  let o := k_owner c in
  gr_RoleCode g ∈ ax_Roles context ∧ gr_RoleCode g ∈ ac_Roles catalog ∧
  permission ∈ role_permissions catalog (gr_RoleCode g) ∧
  ((gr_ScopeType g ∈ ["APPLICATION"; "TENANT"] ∧ gr_EnvironmentCode g = "") ∨
   (gr_ScopeType g = "ENVIRONMENT" ∧ gr_EnvironmentCode g = environmentCode) ∨
   (gr_EnvironmentCode g ∈ [""; environmentCode] ∧ gr_ScopeID g ≠ "" ∧
    ((gr_ScopeType g = "SELF" ∧ gr_ScopeID g = ci_IdentityID identity ∧
      gr_ScopeID g = k_OwnerIdentityID o) ∨
     (gr_ScopeType g = "ORG" ∧ gr_ScopeID g = k_OwnerOrgID o) ∨
     (gr_ScopeType g = "PROJECT" ∧ gr_ScopeID g = k_ProjectID o)))).

Lemma scope_shape identity env raw :
  scope_refused identity env raw = false →
  let type := gr_ScopeType raw in
  (type ∈ ["APPLICATION"; "TENANT"] ∧ gr_EnvironmentCode raw = "") ∨
  (type = "ENVIRONMENT" ∧ gr_EnvironmentCode raw = env) ∨
  (gr_EnvironmentCode raw ∈ [""; env] ∧ gr_ScopeID raw ≠ "" ∧
   (type = "SELF" ∧ gr_ScopeID raw = ci_IdentityID identity ∨ type = "ORG" ∨ type = "PROJECT")).
Proof.
  assert (Henv : other_environment raw env = false → gr_EnvironmentCode raw ∈ [""; env]).
  { unfold other_environment. intros [E%negb_false_iff%streq_true|E%negb_false_iff%streq_true]%andb_false_iff;
      rewrite E; set_solver. }
  unfold scope_refused. cbv zeta. destruct (contains _ _) eqn:E1.
  { intros E%negb_false_iff%streq_true. left. by apply contains_spec in E1. }
  destruct (gr_ScopeType raw =s "ENVIRONMENT") eqn:E2.
  { intros [E%negb_false_iff%streq_true _]%orb_false_iff. apply streq_true in E2. auto. }
  destruct (gr_ScopeType raw =s "SELF") eqn:E3.
  { intros [[Hid%streq_false Hs%negb_false_iff%streq_true]%orb_false_iff He%Henv]%orb_false_iff.
    apply streq_true in E3. auto 10. }
  destruct (contains ["ORG"; "PROJECT"] _) eqn:E4; [|done]. intros [Hid%streq_false He%Henv]%orb_false_iff.
  apply contains_spec in E4. right; right. split_and!; [done..|]. set_solver.
Qed.

Lemma owned_by id x : id ≠ "" → negb (empty_str x) && (id =s x) = true ↔ id = x.
Proof.
  intros Hid. rewrite andb_true_iff, negb_true_iff, streq_true. unfold empty_str.
  rewrite streq_false. naive_solver.
Qed.

Lemma covers_justifies roles context catalog identity env q c raw :
  admitted roles identity env raw → roles ≡ₚ ax_Roles context →
  (∀ r, r ∈ roles → r ∈ ac_Roles catalog) →
  carries catalog q (normalized raw) = true ∧
  covers (TrimSpace (ci_IdentityID identity)) (normalized raw) c = true ↔
  justifies context catalog identity env q c raw.
Proof.
  intros [Hrole Href] Hroles Hknown. unfold carries, justifies. rewrite bool_decide_eq_true.
  rewrite <- Hroles. pose proof (Hknown _ Hrole) as Hk.
  assert (Hid : TrimSpace (gr_ScopeID (normalized raw)) = gr_ScopeID (normalized raw))
    by apply TrimSpace_idemp.
  set (g := normalized raw) in *. apply scope_shape in Href as Hs. cbv zeta in Hs.
  destruct Hs as [[Ht He]|[[Ht He]|(He & Hne & [[Ht Hs]|[Ht|Ht]])]].
  - split; [intros [? _]; tauto|]. intros (_ & _ & Hq & _). split; [done|]. unfold covers.
    replace (contains _ _) with true; [done|]. symmetry. apply contains_spec. set_solver.
  - unfold covers. rewrite Ht. split; [intros [? _]; tauto|]. by intros (_ & _ & Hq & _).
  - unfold covers. rewrite Ht. rewrite <- Hs, Hid.
    change (contains _ "SELF") with false. change ("SELF" =s "SELF") with true. cbv iota.
    rewrite (streq_sym (k_OwnerIdentityID _)), owned_by by done.
    split; [naive_solver|]. intros (_ & _ & Hq & [[? _]|[[? _]|(_ & _ & Hx)]]); [set_solver|done|].
    naive_solver.
  - unfold covers. rewrite Ht. change (contains _ "ORG") with false.
    change ("ORG" =s "SELF") with false. change ("ORG" =s "ORG") with true. cbv iota.
    rewrite owned_by by done.
    split; [naive_solver|]. intros (_ & _ & Hq & [[? _]|[[? _]|(_ & _ & Hx)]]); [set_solver|done|].
    naive_solver.
  - unfold covers. rewrite Ht. change (contains _ "PROJECT") with false.
    change ("PROJECT" =s "SELF") with false. change ("PROJECT" =s "ORG") with false.
    change ("PROJECT" =s "PROJECT") with true. cbv iota. rewrite owned_by by done.
    split; [naive_solver|]. intros (_ & _ & Hq & [[? _]|[[? _]|(_ & _ & Hx)]]); [set_solver|done|].
    naive_solver.
Qed.

Lemma access_admitted identity context catalog env p permission c :
  Admission identity context catalog env p →
  may_access p permission c = true ↔
  permission ∈ ax_Permissions context ∧ k_TenantID c = ci_TenantID identity ∧
  ∃ raw, raw ∈ ax_DataScopes context ∧
    justifies context catalog identity env permission c raw.
Proof.
  intros Ha. rewrite (may_access_admitted _ _ _ _ _ _ _ Ha).
  rewrite !andb_true_iff, bool_decide_eq_true, streq_true, existsb_exists.
  destruct (ad_roles _ _ _ _ _ Ha) as [Hp Hk]. pose proof (ad_scopes _ _ _ _ _ Ha) as Hs.
  rewrite Forall_forall in Hs.
  match goal with |- (_ ∧ ?A) ↔ (_ ∧ _ ∧ ?B) => enough (A ↔ B) by tauto end. split.
  - intros (g & [Hin Hc]%filter_In & Hcov). apply in_map_iff in Hin as (raw & <- & Hin).
    apply list_elem_of_In in Hin. exists raw. split; [done|].
    apply (covers_justifies _ _ _ _ _ _ _ _ (Hs _ Hin) Hp Hk). done.
  - intros (raw & Hin & Hj). exists (normalized raw).
    apply (covers_justifies _ _ _ _ _ _ _ _ (Hs _ Hin) Hp Hk) in Hj as [Hc Hcov].
    split; [|done]. apply filter_In. split; [|done]. by apply in_map, list_elem_of_In.
Qed.

(** C3: A permission of an accepted principal reaches a contract exactly when the
    platform's answer holds the permission, the contract belongs to the
    identity's tenant, and some data scope of the answer covers the contract: a
    scope of a role that the answer holds, that the local catalog knows and whose
    local permissions include this one, bound to the configured environment and,
    for SELF, to the identity. *)
Theorem access_exact identity context catalog client application env p :
  principalFromAuthorizationContext identity context catalog client application env = Ok p →
  ∀ permission c,
    may_access p permission c = true ↔
    permission ∈ ax_Permissions context ∧ k_TenantID c = ci_TenantID identity ∧
    ∃ raw, raw ∈ ax_DataScopes context ∧
      justifies context catalog identity env permission c raw.
Proof. intros Ha%principal_admitted permission c. by apply access_admitted. Qed.

(** No permission of an accepted principal is void or a wildcard: the platform
    granted it, the local catalog knows it, and [Scope] yields a filter for it
    that reaches something. *)
Theorem permissions_usable identity context catalog client application env p :
  principalFromAuthorizationContext identity context catalog client application env = Ok p →
  ∀ permission, Has p permission = true →
    permission ∈ ax_Permissions context ∧ permission ∈ ac_Permissions catalog ∧
    permission ≠ "all" ∧ (∃ filter, Scope p permission = Some filter ∧
                            reaches_something filter = true) ∧
    ∃ role, role ∈ p_Roles p ∧ permission ∈ role_permissions catalog role.
Proof.
  intros Ha%principal_admitted permission Hhas.
  rewrite (ad_has _ _ _ _ _ Ha), bool_decide_eq_true in Hhas.
  destruct (ad_known _ _ _ _ _ Ha _ Hhas) as [Hk Hall].
  destruct (admission_scope _ _ _ _ _ _ Ha Hhas) as (f & Hf & Hr & _).
  destruct (ad_filter _ _ _ _ _ Ha _ Hhas) as (g & Hg & _ & _).
  split_and!; [done..| |]; [eauto|].
  destruct (List.filter _ _) as [|raw l] eqn:El; [done|].
  assert (Hin : In raw (List.filter (carries catalog permission)
                          (map normalized (ax_DataScopes context)))) by (rewrite El; by left).
  apply filter_In in Hin as [Hin Hc%bool_decide_eq_true].
  apply in_map_iff in Hin as (raw' & <- & Hin%list_elem_of_In).
  pose proof (ad_scopes _ _ _ _ _ Ha) as Hs. rewrite Forall_forall in Hs.
  destruct (Hs _ Hin) as [Hrole _]. eauto.
Qed.
End ScopeLaws.

(** ** A concrete answer *)

Definition sample_manifest : permissionManifest :=
  mkManifest 16
    [mkManifestPermission "contract.read" "read" "contract" "read" "LOW";
     mkManifestPermission "contract.edit" "edit" "contract" "edit" "MEDIUM"]
    [mkManifestRole "sales" "sales" ["contract.read"; "contract.edit"];
     mkManifestRole "audit_admin" "audit" ["contract.read"]].
Definition sample_catalog : AuthorizationCatalog :=
  match LoadAuthorizationCatalog (Ok sample_manifest) with
  | Ok catalog => catalog
  | Err _ => mkAuthorizationCatalog "" ∅ ∅ ∅
  end.
Definition sample_identity : compactIdentity := mkIdentity "kc-1" "alice" "t1" "" "".
Definition sample_answer (scopes : list AuthorizationDataScope) : AuthorizationContext :=
  mkAuthorizationContext "kc-1" "" "alice" "t1" "" "client" "contract_management" "prod"
    ["sales"] ["contract.read"; "contract.edit"] scopes "16" ["15"; "16"] "" [] 7.
Definition sample_grants : list AuthorizationDataScope :=
  [mkGrant "sales" "self" "alice" ""; mkGrant "sales" "ORG" "org-1" "prod"].
Definition sample_principal (scopes : list AuthorizationDataScope) : res Principal :=
  principalFromAuthorizationContext sample_identity (sample_answer scopes) sample_catalog
    "client" "contract_management" "prod".
Definition admitted_principal (r : res Principal) : Principal :=
  match r with Ok p => p | Err _ => mkPrincipal "" "" "" "" "" "" "" "" [] ∅ [] ∅ 0 "" end.

Example own_and_org :
  is_ok (sample_principal sample_grants) = true.
Proof. vm_compute. reflexivity. Qed.
(** No scope, a scope of a role that was not granted, a scope for another
    identity or environment, a type that is not known. *)
Example refused_scopes :
  map sample_principal
    [[]; [mkGrant "audit_admin" "TENANT" "" ""]; [mkGrant "sales" "SELF" "bob" ""];
     [mkGrant "sales" "ORG" "org-1" "test"]; [mkGrant "sales" "REGION" "north" ""];
     [mkGrant "sales" "TENANT" "" ""; mkGrant " sales " "tenant" "" ""]] =
  repeat (Err ErrAuthorizationForbidden) 6.
Proof. vm_compute. reflexivity. Qed.

Definition own_contract : Contract := set_owner_identity "alice" (sample_contract 10000 plan_of_two).

Lemma access_exact_witness :
  let p := admitted_principal (sample_principal sample_grants) in
  sample_principal sample_grants = Ok p ∧
  may_access p "contract.edit" own_contract = true ∧
  ("contract.edit" ∈ ax_Permissions (sample_answer sample_grants) ∧
   k_TenantID own_contract = ci_TenantID sample_identity ∧
   ∃ raw, raw ∈ sample_grants ∧
     justifies (sample_answer sample_grants) sample_catalog sample_identity "prod" "contract.edit"
       own_contract raw) ∧
  may_access p "contract.edit" (sample_contract 10000 plan_of_two) = false.
Proof.
  assert (E : sample_principal sample_grants =
              Ok (admitted_principal (sample_principal sample_grants)))
    by (vm_compute; reflexivity).
  split; [exact E|]. split; [vm_compute; reflexivity|]. split; [|vm_compute; reflexivity].
  refine (proj1 (access_exact _ _ _ _ _ _ _ E _ _) _). vm_compute. reflexivity.
Defined.

Lemma permissions_usable_witness :
  let p := admitted_principal (sample_principal sample_grants) in
  Has p "contract.read" = true ∧ "contract.read" ∈ ac_Permissions sample_catalog.
Proof.
  assert (E : sample_principal sample_grants =
              Ok (admitted_principal (sample_principal sample_grants)))
    by (vm_compute; reflexivity).
  split; [vm_compute; reflexivity|].
  refine (proj1 (proj2 (permissions_usable _ _ _ _ _ _ _ E "contract.read" _))).
  vm_compute. reflexivity.
Defined.
