(* ===== verification/SessionStore.v ===== *)
(** * infrastructure/platform/oidc_store.go, session_governance_store.go: login
      transactions, browser sessions and logout replays at rest

    The three tables of the OIDC store, the codec that encrypts tokens, and one
    program per method of [GORMOIDCStore].  Rows are keyed by the SHA-256 digest of
    a random value; [tokenHash] is that digest (in hexadecimal).  A method that
    runs [WithSessionLock] holds the row for its whole length, so its callback is
    part of the transaction.

    [Lasting] says what no method undoes: a session that was revoked or removed
    stays so, and its deadline, owner and creation are fixed.  [login_once] counts
    the uses of a login transaction. *)

From S2P Require Import Prelude GoStrings Decimal GoTime NumberRule PhoneCipher Status Store.
From S2P Require Import Repository Access Tables Scenario.

#[local] Open Scope string_scope.
#[local] Open Scope Z_scope.
#[local] Open Scope list_scope.

(** ** Rows *)

Record LoginTransactionRecord : Type := mkLogin {
  lt_CentralTicketCiphertext : list byte; lt_ForceLogin : bool; lt_StateHash : string;
  lt_TenantID : string; lt_NonceCiphertext : list byte; lt_CodeVerifierCiphertext : list byte;
  lt_ReturnPath : string; lt_ExpiresAt : Time; lt_ConsumedAt : option Time; lt_CreatedAt : Time
}.

Record sessionTokens : Type := mkTokens {
  st_AccessTokenCiphertext : list byte; st_RefreshTokenCiphertext : list byte;
  st_IDTokenCiphertext : list byte; st_TokenExpiresAt : Time
}.
Record sessionCentral : Type := mkCentral {
  sc_CentralBindingCiphertext : list byte; sc_CentralSessionID : string; sc_OIDCSessionID : string
}.
(** [gormSession] keeps an empty person as NULL, and reads NULL back as empty. *)
Record SessionRecord : Type := mkSession {
  se_SessionIDHash : string; se_TenantID : string; se_IdentityID : string; se_PersonID : string;
  se_PrincipalJSON : json Principal; se_tokens : sessionTokens; se_central : sessionCentral;
  se_AuthorizationRevision : Z; se_AuthorizationCheckedAt : Time; se_SessionExpiresAt : Time;
  se_LastSeenAt : option Time; se_LastInteractiveAt : option Time; se_RevokedAt : option Time;
  se_CreatedAt : Time; se_UpdatedAt : Time
}.

#[export] Instance ScopeFilter_eq_dec : EqDecision ScopeFilter.
Proof. solve_decision. Defined.
#[export] Instance DataScope_eq_dec : EqDecision DataScope.
Proof. solve_decision. Defined.
#[export] Instance Principal_eq_dec : EqDecision Principal.
Proof. solve_decision. Defined.
#[export] Instance json_eq_dec {A} `{EqDecision A} : EqDecision (json A).
Proof. solve_decision. Defined.
#[export] Instance sessionTokens_eq_dec : EqDecision sessionTokens.
Proof. solve_decision. Defined.
#[export] Instance sessionCentral_eq_dec : EqDecision sessionCentral.
Proof. solve_decision. Defined.
#[export] Instance SessionRecord_eq_dec : EqDecision SessionRecord.
Proof. solve_decision. Defined.

(** con_oidc_login_transaction, con_oidc_session and the JTI digests of
    con_oidc_backchannel_logout_replay (with their expiry). *)
Record OIDCTables : Type := mkOIDC {
  ot_logins : gmap string LoginTransactionRecord; ot_sessions : gmap string SessionRecord;
  ot_replays : gmap string Time
}.
Definition set_logins x t := mkOIDC x (ot_sessions t) (ot_replays t).
Definition set_sessions x t := mkOIDC (ot_logins t) x (ot_replays t).
Definition set_replays x t := mkOIDC (ot_logins t) (ot_sessions t) x.

(** ** The principal as JSON

    [json.Marshal] writes the exported fields of [Principal], which has no tags,
    under their Go names; an SQL path reads a member by its exact name. *)
Definition principal_members (p : Principal) : list (string * string) :=
  [("Subject", p_Subject p); ("TenantID", p_TenantID p); ("UserID", p_UserID p);
   ("IdentityID", p_IdentityID p); ("PersonID", p_PersonID p); ("DisplayName", p_DisplayName p);
   ("UserName", p_UserName p); ("Email", p_Email p); ("CatalogVersion", p_CatalogVersion p)].
(** [JSON_UNQUOTE(JSON_EXTRACT(principal_json, '$.name'))] for a text member. *)
Definition json_text (name : string) (j : json Principal) : option string :=
  match j with
  | JsonOf p => snd <$> List.find (λ m, m.1 =s name) (principal_members p)
  | _ => None
  end.

(** ** The codec *)

Definition newSecretCodec (key : list byte) : res (list byte) :=
  fail_if (negb (length key =? 32)%nat) ErrOther;; Ok key.

Section Codec.
Context `{Aead}.

(** [nonce]: what [rand.Reader] gives, or its failure. *)
Definition encrypt (key : list byte) (nonce : res (list byte)) (plaintext : string)
    : res (list byte) :=
  if empty_str plaintext then Ok []
  else nonce ← nonce; Ok (nonce ++ Seal key nonce (bytes plaintext) []).
Definition decrypt (key ciphertext : list byte) : res string :=
  if is_empty ciphertext then Ok ""
  else
    fail_if (length ciphertext <=? nonce_size)%nat ErrOther;;
    match Open key (take nonce_size ciphertext) (drop nonce_size ciphertext) [] with
    | Some plaintext => Ok (of_bytes plaintext)
    | None => Err ErrOther
    end.

Lemma decrypt_encrypt `{!AeadLaws} key nonce plaintext cipher :
  length nonce = nonce_size → encrypt key (Ok nonce) plaintext = Ok cipher →
  decrypt key cipher = Ok plaintext.
Proof.
  intros Hn. unfold encrypt, decrypt. destruct (empty_str plaintext) eqn:E.
  { intros [= <-]. by apply streq_true in E as ->. }
  cbn [mbind res_bind]. intros [= <-]. replace (is_empty _) with false by by destruct nonce.
  rewrite fail_if_pass.
  - cbn [mbind res_bind]. by rewrite <- Hn, take_app_length, drop_app_length, open_seal, of_bytes_bytes.
  - apply Nat.leb_gt. rewrite length_app, Hn, length_seal. unfold aead_overhead. lia.
Qed.
End Codec.

(** ** Columns *)

Definition nullableString (value : string) : option string := stringPtr value.

Definition revoke_row (now : Time) (r : SessionRecord) : SessionRecord :=
  mkSession (se_SessionIDHash r) (se_TenantID r) (se_IdentityID r) (se_PersonID r)
    (se_PrincipalJSON r) (se_tokens r) (se_central r) (se_AuthorizationRevision r)
    (se_AuthorizationCheckedAt r) (se_SessionExpiresAt r) (se_LastSeenAt r)
    (se_LastInteractiveAt r) (Some now) (se_CreatedAt r) now.
(** gorm stamps [updated_at] with its own clock when an update does not name it. *)
Definition seen_row (now stamp : Time) (r : SessionRecord) : SessionRecord :=
  mkSession (se_SessionIDHash r) (se_TenantID r) (se_IdentityID r) (se_PersonID r)
    (se_PrincipalJSON r) (se_tokens r) (se_central r) (se_AuthorizationRevision r)
    (se_AuthorizationCheckedAt r) (se_SessionExpiresAt r) (Some now)
    (se_LastInteractiveAt r) (se_RevokedAt r) (se_CreatedAt r) stamp.
Definition interactive_row (now stamp : Time) (r : SessionRecord) : SessionRecord :=
  mkSession (se_SessionIDHash r) (se_TenantID r) (se_IdentityID r) (se_PersonID r)
    (se_PrincipalJSON r) (se_tokens r) (se_central r) (se_AuthorizationRevision r)
    (se_AuthorizationCheckedAt r) (se_SessionExpiresAt r) (Some now) (Some now)
    (se_RevokedAt r) (se_CreatedAt r) stamp.
(** The columns a refresh writes: those of [updated]. *)
Definition refreshed_row (updated r : SessionRecord) : SessionRecord :=
  mkSession (se_SessionIDHash r) (se_TenantID r) (se_IdentityID r) (se_PersonID updated)
    (se_PrincipalJSON updated) (se_tokens updated) (se_central r)
    (se_AuthorizationRevision updated) (se_AuthorizationCheckedAt updated)
    (se_SessionExpiresAt r) (se_LastSeenAt r) (se_LastInteractiveAt r) (se_RevokedAt r)
    (se_CreatedAt r) (se_UpdatedAt updated).

Definition unrevoked (r : SessionRecord) : bool := negb (bool_decide (is_Some (se_RevokedAt r))).
(** [revoked_at IS NULL AND session_expires_at > now]. *)
Definition valid_at (now : Time) (r : SessionRecord) : bool :=
  unrevoked r && (now <? se_SessionExpiresAt r).
(** [COALESCE(last_interactive_at, created_at)]. *)
Definition idle_base (r : SessionRecord) : Time := default (se_CreatedAt r) (se_LastInteractiveAt r).
Definition active_at (now : Time) (idle : Duration) (r : SessionRecord) : bool :=
  valid_at now r && (now - idle <? idle_base r).
Definition pending_login (now : Time) (r : LoginTransactionRecord) : bool :=
  bool_decide (lt_ConsumedAt r = None) && (now <? lt_ExpiresAt r).

Definition consumed_login (now : Time) (r : LoginTransactionRecord) : LoginTransactionRecord :=
  mkLogin (lt_CentralTicketCiphertext r) (lt_ForceLogin r) (lt_StateHash r) (lt_TenantID r)
    (lt_NonceCiphertext r) (lt_CodeVerifierCiphertext r) (lt_ReturnPath r) (lt_ExpiresAt r)
    (Some now) (lt_CreatedAt r).
Definition ticketed_login (cipher : list byte) (r : LoginTransactionRecord)
    : LoginTransactionRecord :=
  mkLogin cipher (lt_ForceLogin r) (lt_StateHash r) (lt_TenantID r) (lt_NonceCiphertext r)
    (lt_CodeVerifierCiphertext r) (lt_ReturnPath r) (lt_ExpiresAt r) (lt_ConsumedAt r)
    (lt_CreatedAt r).

(** ** Questions to other systems

    What the platform and the identity provider answer, the clock and the random
    source, at each moment of a program.  [Ask] runs through such moments. *)

Record Token : Type := mkToken {
  tk_AccessToken : string; tk_RefreshToken : string; tk_Expiry : Time;
  tk_IDToken : option string
}.
Definition Ask (A : Type) : Type := nat → res A * nat.
#[export] Instance Ask_ret : MRet Ask := λ A a n, (Ok a, n).
#[export] Instance Ask_bind : MBind Ask := λ A B f m n,
  match m n with (Ok a, n') => f a n' | (Err e, n') => (Err e, n') end.
Definition ask {A} (answer : nat → res A) : Ask A := λ n, (answer n, S n).
Definition aret {A} (r : res A) : Ask A := λ n, (r, n).
(** The error of a question as a value. *)
Definition ask_try {A} (m : Ask A) : Ask (res A) := λ n, let '(r, n') := m n in (Ok r, n').

Definition refreshTokenWasRejected (e : goerr) : bool :=
  bool_decide (e = ErrRefreshTokenMissing) || bool_decide (e = ErrRefreshTokenRejected).
(** The errors after which a session is given up. *)
Definition rejecting (e : goerr) : bool :=
  bool_decide (e = ErrUnauthenticated) || bool_decide (e = ErrAuthorizationForbidden) ||
  bool_decide (e = ErrAuthorizationUnauthorized) || bool_decide (e = ErrAuthorizationInvalid) ||
  refreshTokenWasRejected e.

(** ** The methods of [GORMOIDCStore], as the statements they send *)

Abbreviation STx := (XTx OIDCTables).

Definition tokenHash `{Sha256} (value : string) : string := sha256_hex value.
Definition backchannelLogoutJTIHash `{Sha256} (jti : string) : string := sha256_hex jti.

Section Store.
Context `{Oracle}.

(** UPDATE of one session: the number of rows it changed; a row that already has
    the new values is not counted. *)
Definition update_session (hash : string) (where_ : SessionRecord → bool)
    (f : SessionRecord → SessionRecord) : STx Z :=
  xwrite (λ t : OIDCTables,
    match ot_sessions t !! hash with
    | Some r =>
        if where_ r && negb (bool_decide (f r = r))
        then Ok (1, set_sessions (<[hash := f r]> (ot_sessions t)) t) else Ok (0, t)
    | None => Ok (0, t)
    end).
Definition update_sessions (where_ : SessionRecord → bool) (f : SessionRecord → SessionRecord)
    : STx unit :=
  xwrite (λ t : OIDCTables, Ok (tt, set_sessions ((λ r, if where_ r then f r else r) <$> ot_sessions t) t)).
Definition take_session (hash : string) (where_ : SessionRecord → bool) : STx SessionRecord :=
  xtake (λ t : OIDCTables, r ← ot_sessions t !! hash; if where_ r then Some r else None) ErrUnauthenticated.

Definition SaveLoginTransaction (record : LoginTransactionRecord) : STx unit :=
  xwrite (λ t : OIDCTables,
    match ot_logins t !! lt_StateHash record with
    | Some _ => Err ErrDuplicatedKey
    | None => Ok (tt, set_logins (<[lt_StateHash record := record]> (ot_logins t)) t)
    end).

Definition ConsumeLoginTransaction (stateHash : string) (now : Time) : STx LoginTransactionRecord :=
  updated ← xwrite (λ t : OIDCTables,
    match ot_logins t !! stateHash with
    | Some r => if pending_login now r
                then Ok (1, set_logins (<[stateHash := consumed_login now r]> (ot_logins t)) t)
                else Ok (0, t)
    | None => Ok (0, t)
    end);
  xguard (negb (updated =? 1)) ErrUnauthenticated;;
  xtake (λ t : OIDCTables, ot_logins t !! stateHash) ErrRecordNotFound.

Definition AttachSessionLink (hash : string) (cipher : list byte) (now : Time)
    : STx LoginTransactionRecord :=
  row ← xtake (λ t : OIDCTables, r ← ot_logins t !! hash; if pending_login now r then Some r else None)
          ErrUnauthenticated;
  xguard (negb (is_empty (lt_CentralTicketCiphertext row))) ErrUnauthenticated;;
  xwrite (λ t : OIDCTables, Ok (tt, set_logins (alter (ticketed_login cipher) hash (ot_logins t)) t));;
  mret (ticketed_login cipher row).

Definition CreateSession (record : SessionRecord) : STx unit :=
  xwrite (λ t : OIDCTables,
    match ot_sessions t !! se_SessionIDHash record with
    | Some _ => Err ErrDuplicatedKey
    | None => Ok (tt, set_sessions (<[se_SessionIDHash record := record]> (ot_sessions t)) t)
    end).
Definition FindSession (hash : string) (now : Time) : STx SessionRecord :=
  take_session hash (valid_at now).

(** The two statements of [TouchSessionLastSeen] and of [RecordInteraction]: the
    update, and when it changed no row, the question whether the session is still
    valid. *)
Definition touch_update (hash : string) (now : Time) : STx Z :=
  stamp ← xnow; update_session hash (valid_at now) (seen_row now stamp).
Definition interaction_update (hash : string) (now : Time) (idleTimeout : Duration) : STx Z :=
  stamp ← xnow; update_session hash (active_at now idleTimeout) (interactive_row now stamp).

Definition UpdateSession (record : SessionRecord) : STx unit :=
  changed ← update_session (se_SessionIDHash record) unrevoked (refreshed_row record);
  xguard (negb (changed =? 1)) ErrUnauthenticated.

Definition RevokeSession (hash : string) (now : Time) : STx unit :=
  update_session hash unrevoked (revoke_row now);; mret tt.
Definition RevokeSessionsForIdentity (tenantID identityID : string) (now : Time) : STx unit :=
  update_sessions (λ r, (se_TenantID r =s tenantID) && (se_IdentityID r =s identityID) &&
                        unrevoked r) (revoke_row now).

(** [tenant_id = ? AND revoked_at IS NULL AND
    JSON_UNQUOTE(JSON_EXTRACT(principal_json, '$.subject')) = ?]. *)
Definition of_subject (tenantID subject : string) (r : SessionRecord) : bool :=
  (se_TenantID r =s tenantID) && unrevoked r &&
  bool_decide (json_text "subject" (se_PrincipalJSON r) = Some subject).
Definition RevokeSessionsForSubject (tenantID subject : string) (now : Time) : STx unit :=
  update_sessions (of_subject tenantID subject) (revoke_row now).

Context `{Sha256}.

(** [true]: the JTI is new. *)
Definition claim_jti (jti : string) (now : Time) : STx bool :=
  xwrite (λ t : OIDCTables,
    let hash := backchannelLogoutJTIHash jti in
    match ot_replays t !! hash with
    | Some _ => Ok (false, t)
    | None => Ok (true, set_replays (<[hash := now + 5 * Minute]> (ot_replays t)) t)
    end).

(** Only the first delivery of a JTI has an effect. *)
Definition first_delivery (jti : string) (now : Time) (m : STx unit) : STx bool :=
  claimed ← claim_jti jti now;
  (if claimed : bool then m;; mret true else mret false).

Definition ProcessBackchannelLogout (tenantID subject jti : string) (now : Time) : STx bool :=
  xguard (empty_str (TrimSpace jti) || empty_str (TrimSpace subject)) ErrOther;;
  first_delivery jti now (update_sessions (of_subject tenantID subject) (revoke_row now)).

Definition ProcessScopedBackchannelLogout (tenant subject sid jti : string) (now : Time)
    : STx bool :=
  xguard (empty_str tenant || empty_str sid || empty_str jti) ErrUnauthenticated;;
  first_delivery jti now
    (update_sessions
       (λ r, (se_TenantID r =s tenant) && (sc_OIDCSessionID (se_central r) =s sid) &&
             unrevoked r &&
             (empty_str subject ||
              bool_decide (json_text "subject" (se_PrincipalJSON r) = Some subject)))
       (revoke_row now)).

Definition ClaimBackchannelLogout (jti : string) (now : Time) : STx bool :=
  xguard (empty_str jti) ErrOther;; claim_jti jti now.
Definition ReleaseBackchannelLogout (jti : string) : STx unit :=
  xwrite (λ t : OIDCTables, Ok (tt, set_replays (delete (backchannelLogoutJTIHash jti) (ot_replays t)) t)).

(** The rows that stay: a day past their end they go. *)
Definition login_kept (cutoff : Time) (r : LoginTransactionRecord) : bool :=
  negb (lt_ExpiresAt r <=? cutoff).
Definition session_kept (cutoff : Time) (r : SessionRecord) : bool :=
  negb ((se_SessionExpiresAt r <=? cutoff) ||
        match se_RevokedAt r with Some revoked => revoked <=? cutoff | None => false end).
Definition DeleteExpired (now : Time) : STx unit :=
  let cutoff := now - 24 * Hour in
  xwrite (λ t : OIDCTables,
    Ok (tt, set_logins (filter (λ row, login_kept cutoff row.2 = true) (ot_logins t)) t));;
  xwrite (λ t : OIDCTables,
    Ok (tt, set_sessions (filter (λ row, session_kept cutoff row.2 = true) (ot_sessions t)) t)).

(** [WithSessionLock]: the callback asks other systems while the row is locked; a
    rejection revokes the row and commits. *)
Definition xask {A} (m : Ask A) : STx (res A) := λ '(t, w),
  let '(r, t') := m t in (Ok r, (t', w)).
Definition WithSessionLock (hash : string) (now : Time)
    (update : SessionRecord → Ask (SessionRecord * bool)) : STx (res SessionRecord) :=
  row ← take_session hash (valid_at now);
  answer ← xask (update row);
  match answer with
  | Err e =>
      if rejecting e
      then update_session hash (λ _, true) (revoke_row now);; mret (Err ErrUnauthenticated)
      else xthrow e
  | Ok (updated, changed) =>
      if negb changed then mret (Ok row)
      else update_session hash (λ _, true) (refreshed_row updated);; mret (Ok updated)
  end.
End Store.

(** ** Effects *)

Section Effects.
Context `{Oracle}.

Definition touched (where_ : SessionRecord → bool) (f : SessionRecord → SessionRecord)
    (r : SessionRecord) : SessionRecord := if where_ r then f r else r.

Lemma update_session_ok hash where_ f n s s' :
  update_session hash where_ f s = (Ok n, s') →
  w_ext s'.2 = set_sessions (alter (touched where_ f) hash (ot_sessions (w_ext s.2))) (w_ext s.2).
Proof.
  unfold update_session, touched. intros E. xtx. destruct (w_ext s.2) as [logins sessions replays].
  cbn in *. destruct (sessions !! hash) as [r|] eqn:Er.
  - destruct (where_ r) eqn:Ew; cbn in Hwrite.
    + case_bool_decide as Hf; cbn in Hwrite; injection Hwrite as <- <-; unfold set_sessions; cbn; f_equal;
        apply map_eq; intros i; (destruct (decide (i = hash)) as [->|];
          [rewrite lookup_alter_eq, Er; cbn; rewrite Ew
          |by rewrite lookup_alter_ne, ?lookup_insert_ne]).
      * by rewrite Hf.
      * by rewrite lookup_insert_eq.
    + injection Hwrite as <- <-. unfold set_sessions. cbn. f_equal. apply map_eq. intros i.
      destruct (decide (i = hash)) as [->|]; [|by rewrite lookup_alter_ne].
      rewrite lookup_alter_eq, Er. cbn. by rewrite Ew.
  - injection Hwrite as <- <-. unfold set_sessions. cbn. f_equal. apply map_eq. intros i.
    destruct (decide (i = hash)) as [->|]; [|by rewrite lookup_alter_ne].
    by rewrite lookup_alter_eq, Er.
Qed.

Lemma take_session_ok hash where_ r s s' :
  take_session hash where_ s = (Ok r, s') →
  s'.2 = s.2 ∧ ot_sessions (w_ext s.2) !! hash = Some r ∧ where_ r = true.
Proof.
  unfold take_session. intros [Hs Hr]%xtake_ok. split; [done|].
  destruct (_ !! hash) as [r'|]; [|done]. cbn in Hr. destruct (where_ r') eqn:E; by simplify_eq.
Qed.

Lemma xask_ok {A} (m : Ask A) r (s s' : nat * With OIDCTables) :
  xask m s = (Ok r, s') → s'.2 = s.2 ∧ r = (m s.1).1.
Proof. destruct s as [t w]. unfold xask. cbn. destruct (m t). by intros [= <- <-]. Qed.
End Effects.

(** ** What a method keeps *)

Section Keeps.
Variable R : With OIDCTables → With OIDCTables → Prop.
Context `{!PreOrder R}.

Definition xkeeps {A} (m : STx A) : Prop := ∀ s a s', m s = (Ok a, s') → R s.2 s'.2.

Lemma xkeeps_bind {A B} (m : STx A) (f : A → STx B) :
  xkeeps m → (∀ a, xkeeps (f a)) → xkeeps (m ≫= f).
Proof.
  intros Hm Hf s b s' (a & s1 & E1 & E2)%xbind_ok. etrans; [by eapply Hm|by eapply Hf].
Qed.
Lemma xkeeps_ret {A} (a : A) : xkeeps (mret a).
Proof. by intros s b s' [_ ->]%xret_ok. Qed.
Lemma xkeeps_throw {A} e : xkeeps (xthrow (A := A) e).
Proof. by intros s b s' ?%xthrow_ok. Qed.
Lemma xkeeps_guard c e : xkeeps (xguard c e).
Proof. by intros s b s' [_ ->]%xguard_ok. Qed.
Lemma xkeeps_ask {A} (m : Ask A) : xkeeps (xask m).
Proof. by intros s b s' [-> _]%xask_ok. Qed.

Context `{Oracle}.
Lemma xkeeps_take {A} (f : OIDCTables → option A) e : xkeeps (xtake f e).
Proof. by intros s a s' [-> _]%xtake_ok. Qed.
Lemma xkeeps_now : xkeeps xnow.
Proof. intros s a s' (-> & _ & _)%xnow_ok. reflexivity. Qed.
Lemma xkeeps_write {A} (f : OIDCTables → res (A * OIDCTables)) :
  (∀ w b t', f (w_ext w) = Ok (b, t') → R w (mkWith (w_store w) t')) → xkeeps (xwrite f).
Proof.
  intros Hf s b s' [Hs Hw]%xwrite_ok. apply Hf in Hw. rewrite <- Hs in Hw. by destruct (s'.2).
Qed.

(** What an update of sessions does to the tables. *)
Definition keeps_update (where_ : SessionRecord → bool) (f : SessionRecord → SessionRecord) : Prop :=
  ∀ w w' (g : gmap string SessionRecord → gmap string SessionRecord),
    w_ext w' = set_sessions (g (ot_sessions (w_ext w))) (w_ext w) →
    (∀ m h, g m !! h = m !! h ∨ g m !! h = touched where_ f <$> m !! h) → R w w'.

Lemma xkeeps_update hash where_ f : keeps_update where_ f → xkeeps (update_session hash where_ f).
Proof.
  intros Hu s n s' E%update_session_ok. eapply (Hu _ _ _ E). intros m h.
  destruct (decide (h = hash)) as [->|]; [right; by rewrite lookup_alter_eq|].
  left. by rewrite lookup_alter_ne.
Qed.
Lemma xkeeps_updates where_ f : keeps_update where_ f → xkeeps (update_sessions where_ f).
Proof.
  intros Hu s u s' [_ [= _ E]]%xwrite_ok. eapply (Hu _ _ (λ m, touched where_ f <$> m)); [by rewrite <- E|].
  intros m h. right. by rewrite lookup_fmap.
Qed.
Context `{Sha256}.
Lemma xkeeps_delivery jti now m :
  xkeeps (claim_jti jti now) → xkeeps m → xkeeps (first_delivery jti now m).
Proof.
  intros Hc Hm. apply xkeeps_bind; [done|]. intros []; [|apply xkeeps_ret].
  apply xkeeps_bind; [done|]. intros []. apply xkeeps_ret.
Qed.
End Keeps.

(** Walks through a method up to its writes. *)
Ltac xkeep_steps :=
  repeat first
    [ apply xkeeps_ret; apply _ | apply xkeeps_throw; apply _ | apply xkeeps_guard; apply _
    | apply xkeeps_take; apply _ | apply xkeeps_ask; apply _
    | apply xkeeps_now; apply _
    | apply xkeeps_delivery; [apply _| |] | apply xkeeps_update | apply xkeeps_updates
    | apply xkeeps_bind; [apply _| |intros ?] ].

(** ** Histories of the store *)

Inductive store_op : Type :=
  | DoSaveLogin (record : LoginTransactionRecord)
  | DoConsumeLogin (stateHash : string) (now : Time)
  | DoAttachLink (stateHash : string) (cipher : list byte) (now : Time)
  | DoCreateSession (record : SessionRecord)
  | DoTouch (hash : string) (now : Time)
  | DoInteract (hash : string) (now : Time) (idleTimeout : Duration)
  | DoUpdate (record : SessionRecord)
  | DoRevoke (hash : string) (now : Time)
  | DoRevokeIdentity (tenantID identityID : string) (now : Time)
  | DoRevokeSubject (tenantID subject : string) (now : Time)
  | DoLogout (tenantID subject jti : string) (now : Time)
  | DoScopedLogout (tenant subject sid jti : string) (now : Time)
  | DoClaim (jti : string) (now : Time)
  | DoRelease (jti : string)
  | DoDeleteExpired (now : Time)
  | DoLocked (hash : string) (now : Time)
      (update : SessionRecord → Ask (SessionRecord * bool)).

Section Histories.
Context `{Sha256}.

Definition op_body `{Oracle} (op : store_op) : STx unit :=
  match op with
  | DoSaveLogin record => SaveLoginTransaction record
  | DoConsumeLogin h now => ConsumeLoginTransaction h now;; mret tt
  | DoAttachLink h cipher now => AttachSessionLink h cipher now;; mret tt
  | DoCreateSession record => CreateSession record
  | DoTouch h now => touch_update h now;; mret tt
  | DoInteract h now idle => interaction_update h now idle;; mret tt
  | DoUpdate record => UpdateSession record
  | DoRevoke h now => RevokeSession h now
  | DoRevokeIdentity t i now => RevokeSessionsForIdentity t i now
  | DoRevokeSubject t s now => RevokeSessionsForSubject t s now
  | DoLogout t s jti now => ProcessBackchannelLogout t s jti now;; mret tt
  | DoScopedLogout t s sid jti now => ProcessScopedBackchannelLogout t s sid jti now;; mret tt
  | DoClaim jti now => ClaimBackchannelLogout jti now;; mret tt
  | DoRelease jti => ReleaseBackchannelLogout jti
  | DoDeleteExpired now => DeleteExpired now
  | DoLocked h now update => WithSessionLock h now update;; mret tt
  end.
Definition run_op (c : Oracle * store_op) (w : With OIDCTables) : res unit * With OIDCTables :=
  xtransaction (H := c.1) (op_body (H0 := c.1) c.2) w.

(** The outcome of each call, and the tables in the end. *)
Fixpoint run_store (cs : list (Oracle * store_op)) (w : With OIDCTables)
    : list (store_op * res unit) * With OIDCTables :=
  match cs with
  | [] => ([], w)
  | c :: rest =>
      let '(r, w') := run_op c w in
      let '(log, w'') := run_store rest w' in
      ((c.2, r) :: log, w'')
  end.

(** ** Sessions end for good *)

Definition session_of (w : With OIDCTables) (h : string) : option SessionRecord :=
  ot_sessions (w_ext w) !! h.

Record same_session (start : Time) (idle : Duration) (r r' : SessionRecord) : Prop := {
  ss_owner : se_TenantID r' = se_TenantID r ∧ se_IdentityID r' = se_IdentityID r;
  ss_central : se_central r' = se_central r;
  ss_deadline : se_SessionExpiresAt r' = se_SessionExpiresAt r;
  ss_created : se_CreatedAt r' = se_CreatedAt r;
  ss_revoked : ∀ t, se_RevokedAt r = Some t → se_RevokedAt r' = Some t;
  ss_idle : idle_base r ≤ start - idle → idle_base r' = idle_base r
}.
Definition Lasting (start : Time) (idle : Duration) (h : string) (w w' : With OIDCTables) : Prop :=
  ∀ r', session_of w' h = Some r' → ∃ r, session_of w h = Some r ∧ same_session start idle r r'.

Lemma same_session_refl start idle r : same_session start idle r r.
Proof. by split. Qed.
Lemma same_session_trans start idle r1 r2 r3 :
  same_session start idle r1 r2 → same_session start idle r2 r3 → same_session start idle r1 r3.
Proof.
  intros [[A1 A2] B C D E F] [[A1' A2'] B' C' D' E' F'].
  split; [split; congruence|congruence..|eauto|]. intros Hb. rewrite F'; [by apply F|]. by rewrite F.
Qed.
#[export] Instance Lasting_preorder start idle h : PreOrder (Lasting start idle h).
Proof.
  split.
  - intros w r' Hr. exists r'. split; [done|apply same_session_refl].
  - intros w1 w2 w3 H12 H23 r3 Hr3. destruct (H23 _ Hr3) as (r2 & Hr2 & S2).
    destruct (H12 _ Hr2) as (r1 & Hr1 & S1). exists r1. split; [done|]. by eapply same_session_trans.
Qed.

(** The calls that may happen: none creates the session anew, and interactions are
    recorded under the configured idle time, at or after [start]. *)
Definition continuing (start : Time) (idle : Duration) (h : string) (op : store_op) : Prop :=
  match op with
  | DoCreateSession record => se_SessionIDHash record ≠ h
  | DoInteract _ now idle' => idle' = idle ∧ start ≤ now
  | _ => True
  end.

Lemma lasting_same start idle h (w w' : With OIDCTables) :
  session_of w' h = session_of w h → Lasting start idle h w w'.
Proof. intros E r' Hr'. rewrite E in Hr'. exists r'. split; [done|apply same_session_refl]. Qed.

Lemma lasting_update start idle h where_ f :
  (∀ r, where_ r = true → same_session start idle r (f r)) →
  keeps_update (Lasting start idle h) where_ f.
Proof.
  intros Hf w w' g E Hg r' Hr'. unfold session_of in *. rewrite E in Hr'. cbn in Hr'.
  destruct (Hg (ot_sessions (w_ext w)) h) as [Eq|Eq]; rewrite Eq in Hr'.
  - exists r'. split; [done|apply same_session_refl].
  - apply fmap_Some in Hr' as (r & Hr & ->). exists r. split; [done|]. unfold touched.
    destruct (where_ r) eqn:Ew; [by apply Hf|apply same_session_refl].
Qed.

Lemma revoke_same start idle now r :
  unrevoked r = true → same_session start idle r (revoke_row now r).
Proof.
  unfold unrevoked. intros Hu. split; try done. intros t Ht. rewrite Ht in Hu. by rewrite bool_decide_true in Hu.
Qed.
Lemma refresh_same start idle updated r : same_session start idle r (refreshed_row updated r).
Proof. by split. Qed.
Lemma seen_same start idle now stamp r : same_session start idle r (seen_row now stamp r).
Proof. by split. Qed.
Lemma interactive_same start idle now stamp r :
  start ≤ now → active_at now idle r = true → same_session start idle r (interactive_row now stamp r).
Proof.
  unfold active_at. intros Hle [_ Hb%Z.ltb_lt]%andb_true_iff. split; try done. lia.
Qed.

Lemma locked_lasting `{Oracle} start idle h hash now update :
  xkeeps (Lasting start idle h) (WithSessionLock hash now update).
Proof.
  intros s r s' (row & s1 & Ht & E)%xbind_ok. apply take_session_ok in Ht as (Hs & Hrow & Hvalid).
  apply xbind_ok in E as (answer & s2 & [Hs2 _]%xask_ok & E). rewrite <- Hs, <- Hs2 in *.
  apply andb_true_iff in Hvalid as [Hu _]. destruct answer as [[updated changed]|e].
  - match type of E with ?m _ = _ => assert (Hm : xkeeps (Lasting start idle h) m) end;
      [|exact (Hm _ _ _ E)].
    destruct changed; cbn [negb]; xkeep_steps. apply lasting_update. intros. apply refresh_same.
  - destruct (rejecting e); [|by apply xthrow_ok in E].
    apply xbind_ok in E as (n & s3 & E%update_session_ok & [_ ->]%xret_ok). intros r' Hr'.
    unfold session_of in *. rewrite E in Hr'. cbn in Hr'.
    destruct (decide (h = hash)) as [->|].
    + rewrite lookup_alter_eq in Hr'. apply fmap_Some in Hr' as (r0 & Hr0 & ->).
      exists r0. split; [done|]. rewrite Hrow in Hr0. injection Hr0 as <-. by apply revoke_same.
    + rewrite lookup_alter_ne in Hr' by done. exists r'. split; [done|apply same_session_refl].
Qed.

Lemma op_lasting `{Oracle} start idle h op :
  continuing start idle h op → xkeeps (Lasting start idle h) (op_body op).
Proof.
  intros Hop. destruct op; cbn [op_body];
    lazymatch goal with
    | |- context [WithSessionLock] => apply xkeeps_bind; [apply _|apply locked_lasting|intros _; xkeep_steps]
    | _ => xkeep_steps
    end;
    try (apply lasting_update; intros r Hr; unfold of_subject in Hr; bool_hyps;
         by (apply revoke_same || apply seen_same || apply refresh_same));
    try (apply xkeeps_write; intros w b t' E; cbv zeta in E; apply lasting_same;
         unfold session_of; repeat case_match; by simplify_eq).
  - apply xkeeps_write. intros w b t' E. apply lasting_same. unfold session_of.
    destruct (ot_sessions _ !! se_SessionIDHash record) eqn:Er; [done|]. injection E as <- <-.
    by apply lookup_insert_ne.
  - destruct Hop as [-> Hle]. apply lasting_update. intros r. by apply interactive_same.
  - apply xkeeps_write. intros w b t' [= _ <-] r Hr. exists r. split; [|apply same_session_refl].
    unfold session_of in *. by apply map_lookup_filter_Some in Hr as [? _].
Qed.

Lemma run_op_lasting start idle h c w :
  continuing start idle h c.2 → Lasting start idle h w (run_op c w).2.
Proof.
  intros Hop. destruct (run_op c w) as [r w'] eqn:E. apply xtransaction_cases in E.
  destruct E as [[-> _]|(u & t & E & _)]; [done|].
  exact (op_lasting (H0 := c.1) _ _ _ _ Hop _ _ _ E).
Qed.

Lemma run_store_inv (P : store_op → Prop) (R : With OIDCTables → With OIDCTables → Prop) cs w :
  PreOrder R → (∀ c w, P c.2 → R w (run_op c w).2) → Forall (λ c, P c.2) cs → R w (run_store cs w).2.
Proof.
  intros HR Hrun. revert w. induction cs as [|c cs IH]; intros w Hall; cbn; [done|].
  apply Forall_cons in Hall as [Hc Hcs]. destruct (run_op c w) as [r w'] eqn:E.
  destruct (run_store cs w') as [log w''] eqn:E'. cbn.
  etrans; [|specialize (IH w' Hcs); by rewrite E' in IH]. specialize (Hrun c w Hc). by rewrite E in Hrun.
Qed.

(** The session [h] can be used at [now]. *)
Definition usable (now : Time) (idle : Duration) (h : string) (w : With OIDCTables) : Prop :=
  ∃ r, session_of w h = Some r ∧ active_at now idle r = true.

(** C12: A session that cannot be used any more is never usable again: whatever the
    store's methods do from then on (touches, interactions, refreshes, lock-held
    rotations with any outcome, logouts, clean-up, commits that are lost), a
    session that was revoked, removed, past its deadline or idle for too long
    stays unusable, unless it is created anew under the same digest. *)
Theorem session_ends start idle h cs w :
  Forall (λ c, continuing start idle h c.2) cs →
  ¬ usable start idle h w →
  ∀ now, start ≤ now → ¬ usable now idle h (run_store cs w).2.
Proof.
  intros Hall Hdead now Hnow (r' & Hr' & Ha).
  pose proof (run_store_inv _ (Lasting start idle h) cs w _
                (λ c w, run_op_lasting start idle h c w) Hall) as HL.
  destruct (HL _ Hr') as (r & Hr & S). apply Hdead. exists r. split; [done|].
  unfold active_at, valid_at, unrevoked in *. bool_hyps. destruct S as [_ _ Hd _ Hrev Hidle].
  rewrite !andb_true_iff, negb_true_iff, bool_decide_eq_false, !Z.ltb_lt. split_and!.
  - intros [t Ht]. apply Hrev in Ht. rewrite Ht in *. eauto.
  - lia.
  - apply Z.nle_gt. intros Hb. specialize (Hidle Hb). lia.
Qed.

(** ** Login transactions are used once *)

Definition open_login (h : string) (w : With OIDCTables) : Z :=
  match ot_logins (w_ext w) !! h with
  | Some r => if bool_decide (lt_ConsumedAt r = None) then 1 else 0
  | None => 0
  end.
Definition uses (h : string) (entry : store_op * res unit) : Z :=
  match entry with
  | (DoConsumeLogin h' _, Ok _) => if h' =s h then 1 else 0
  | _ => 0
  end.
Definition saves (h : string) (op : store_op) : Z :=
  match op with DoSaveLogin record => if lt_StateHash record =s h then 1 else 0 | _ => 0 end.
Definition total {A} (f : A → Z) (l : list A) : Z := foldr (λ x n, f x + n) 0 l.

Definition no_new_login (h : string) (w w' : With OIDCTables) : Prop := open_login h w' ≤ open_login h w.
#[export] Instance no_new_login_preorder h : PreOrder (no_new_login h).
Proof. split; [intros w|intros w1 w2 w3]; unfold no_new_login; lia. Qed.
Lemma open_login_range h w : 0 ≤ open_login h w ≤ 1.
Proof. unfold open_login. repeat case_match; lia. Qed.

Lemma no_new_login_same h (w w' : With OIDCTables) :
  ot_logins (w_ext w') = ot_logins (w_ext w) → no_new_login h w w'.
Proof. unfold no_new_login, open_login. by intros ->. Qed.
Lemma no_new_login_update h where_ f : keeps_update (no_new_login h) where_ f.
Proof. intros w w' g E _. apply no_new_login_same. by rewrite E. Qed.

Lemma op_no_new_login `{Oracle} h op :
  saves h op = 0 → xkeeps (no_new_login h) (op_body op).
Proof.
  intros Hop. destruct op; cbn [op_body]; xkeep_steps; try apply no_new_login_update;
    try (apply xkeeps_write; intros w b t' E; cbv zeta in E; apply no_new_login_same;
         repeat case_match; by simplify_eq).
  - apply xkeeps_write. intros w b t' E. unfold no_new_login, open_login. cbn in Hop |- *.
    destruct (lt_StateHash record =s h) eqn:Eh; [done|]. apply streq_false in Eh.
    destruct (ot_logins _ !! lt_StateHash record); [done|]. injection E as _ <-. cbn.
    by rewrite lookup_insert_ne.
  - apply xkeeps_write. intros w b t' E. unfold no_new_login, open_login. cbn.
    destruct (ot_logins (w_ext w) !! stateHash) as [r|] eqn:Er; [|by injection E as _ <-].
    destruct (pending_login now r) eqn:Ep; [|by injection E as _ <-]. injection E as _ <-. cbn.
    destruct (decide (h = stateHash)) as [->|]; [|by rewrite lookup_insert_ne].
    rewrite lookup_insert_eq, Er. cbn. case_bool_decide; lia.
  - apply xkeeps_write. intros w b t' [= _ <-]. unfold no_new_login, open_login. cbn.
    destruct (decide (h = stateHash)) as [->|]; [|by rewrite lookup_alter_ne].
    rewrite lookup_alter_eq. by destruct (_ !! stateHash).
  - apply xkeeps_write. intros w b t' [= _ <-]. unfold no_new_login, open_login. cbn.
    destruct (filter _ _ !! h) as [r|] eqn:Er; [|case_match; [case_bool_decide|]; lia].
    by apply map_lookup_filter_Some in Er as [-> _].
  - repeat case_match; xkeep_steps; apply no_new_login_update.
Qed.

Lemma consume_uses `{Oracle} h now s r s' :
  ConsumeLoginTransaction h now s = (Ok r, s') →
  open_login h s.2 = 1 ∧ open_login h s'.2 = 0 ∧ lt_ConsumedAt r = Some now ∧ now < lt_ExpiresAt r.
Proof.
  unfold ConsumeLoginTransaction. intros E. xtx. unfold open_login.
  destruct (ot_logins (w_ext s.2) !! h) as [l|] eqn:El; [|by injection Hwrite as <- _].
  destruct (pending_login now l) eqn:Ep; [|by injection Hwrite as <- _].
  injection Hwrite as <- Hext. unfold pending_login in Ep. bool_hyps.
  rewrite bool_decide_true by done. rewrite E, Hrow. rewrite <- Hext in Hrow. cbn in Hrow.
  rewrite lookup_insert_eq in Hrow. by injection Hrow as <-.
Qed.

Lemma run_op_uses h c w :
  uses h (c.2, (run_op c w).1) + open_login h (run_op c w).2 ≤ saves h c.2 + open_login h w.
Proof.
  destruct c as [o op]. destruct (run_op (o, op) w) as [r w'] eqn:E. cbn.
  pose proof (open_login_range h w). pose proof (open_login_range h w').
  destruct (decide (saves h op = 0)) as [Hs|Hs].
  - apply xtransaction_cases in E as [[-> (e & ->)]|(u & t & E & Hr)].
    { destruct op; cbn in *; lia. }
    pose proof (op_no_new_login (H0 := o) h op Hs _ _ _ E) as Hle. unfold no_new_login in Hle. cbn in Hle.
    rewrite Hs. destruct op; cbn [uses]; try lia. destruct Hr as [->| ->]; [|lia].
    destruct (stateHash =s h) eqn:Eh; [|lia]. apply streq_true in Eh as ->. cbn [snd op_body] in E.
    apply xbind_ok in E as (l & s1 & E & [_ ->]%xret_ok). apply consume_uses in E as (Ho & Hc & _).
    cbn in Ho, Hc. lia.
  - destruct op; cbn in *; try lia. destruct (lt_StateHash record =s h); [|lia]. lia.
Qed.

(** C13: A login transaction admits at most one callback: over any history of calls,
    by any number of instances and with any commits lost, a state is consumed
    successfully no more often than it was saved (or was open at the beginning). *)
Theorem login_once h cs w :
  total (uses h) (run_store cs w).1 ≤ total (λ c, saves h c.2) cs + open_login h w.
Proof.
  enough (total (uses h) (run_store cs w).1 + open_login h (run_store cs w).2 ≤
          total (λ c, saves h c.2) cs + open_login h w)
    by (pose proof (open_login_range h (run_store cs w).2); lia).
  unfold total. revert w. induction cs as [|c cs IH]; intros w; cbn -[uses saves open_login]; [lia|].
  pose proof (run_op_uses h c w) as Hop. destruct (run_op c w) as [r w'] eqn:E. specialize (IH w').
  destruct (run_store cs w') as [log w'']. cbn -[uses saves open_login] in *. lia.
Qed.

(** ** Back-channel logout *)

(** A logout the identity provider delivers: under central governance with the
    session's identifier, or without. *)
Definition logout `{Oracle} (scoped : bool) (tenantID subject sid jti : string) (now : Time)
    : STx bool :=
  if scoped then ProcessScopedBackchannelLogout tenantID subject sid jti now
  else ProcessBackchannelLogout tenantID subject jti now.

(** No stored principal answers to the member "subject". *)
Lemma no_subject tenantID subject r : subject ≠ "" → of_subject tenantID subject r = false.
Proof.
  intros Hs. unfold of_subject. rewrite (bool_decide_eq_false_2 (json_text _ _ = _)), andb_false_r;
    [done|]. by destruct (se_PrincipalJSON r).
Qed.
Lemma update_nothing `{Oracle} where_ f s u s' :
  (∀ r, where_ r = false) → update_sessions where_ f s = (Ok u, s') → s'.2 = s.2.
Proof.
  intros Hw [Es [= _ E]]%xwrite_ok. destruct s as [t [d e]], s' as [t' [d' e']]. cbn in *. subst d'.
  f_equal. rewrite <- E. destruct e as [logins sessions replays]. unfold set_sessions. cbn. f_equal.
  rewrite <- (map_fmap_id sessions) at 2. apply map_fmap_ext. intros i r _. by rewrite Hw.
Qed.

(** The checks of a delivery. *)
Definition logout_accepted (scoped : bool) (tenantID subject sid jti : string) : bool :=
  if scoped then negb (empty_str tenantID || empty_str sid || empty_str jti)
  else negb (empty_str (TrimSpace jti) || empty_str (TrimSpace subject)).
(** The tables after a delivery: the JTI is there. *)
Definition jti_recorded (jti : string) (now : Time) (w : With OIDCTables) : With OIDCTables :=
  let hash := backchannelLogoutJTIHash jti in
  match ot_replays (w_ext w) !! hash with
  | Some _ => w
  | None => mkWith (w_store w)
              (set_replays (<[hash := now + 5 * Minute]> (ot_replays (w_ext w))) (w_ext w))
  end.

Lemma logout_outcome `{Oracle} scoped tenantID subject sid jti now t w first t' w' :
  subject ≠ "" → logout scoped tenantID subject sid jti now (t, w) = (Ok first, (t', w')) →
  logout_accepted scoped tenantID subject sid jti = true ∧ w' = jti_recorded jti now w ∧
  first = bool_decide (ot_replays (w_ext w) !! backchannelLogoutJTIHash jti = None).
Proof.
  intros Hs E.
  assert (∃ where_, (∀ r, where_ r = false) ∧
    logout_accepted scoped tenantID subject sid jti = true ∧
    first_delivery jti now (update_sessions where_ (revoke_row now)) (t, w) = (Ok first, (t', w')))
    as (where_ & Hw & Ha & Ed).
  { unfold logout, ProcessScopedBackchannelLogout, ProcessBackchannelLogout, logout_accepted in *.
    destruct scoped; apply xbind_ok in E as (u & s1 & [Eg ->]%xguard_ok & E);
      (eexists; split; [|split; [by rewrite Eg|exact E]]); intros r; cbn;
      [|by apply no_subject].
    rewrite (bool_decide_eq_false_2 (json_text _ _ = _)) by by destruct (se_PrincipalJSON r).
    apply streq_false in Hs. unfold empty_str. by rewrite Hs, andb_false_r. }
  split; [done|]. unfold first_delivery in Ed. apply xbind_ok in Ed as (c & [t1 w1] & Ec & Ed).
  unfold claim_jti in Ec. apply xwrite_ok in Ec as [Es Ec]. cbv zeta in Ec. cbn [fst snd] in *.
  unfold jti_recorded. cbv zeta.
  destruct (ot_replays (w_ext w) !! _) as [x|] eqn:Er; injection Ec as <- Ew.
  - injection Ed as <- <- <-. split; [|done]. destruct w, w1. cbn in *. congruence.
  - apply xbind_ok in Ed as (u & [t2 w2] & Eu & Er').
    injection Er' as <- <- <-. apply update_nothing in Eu; [|done]. cbn in Eu. subst w2. split; [|done].
    destruct w1. cbn in *. by rewrite Es, Ew.
Qed.
Lemma logout_repeated (o : Oracle) scoped tenantID subject sid jti now t w :
  (∀ t, @o_fault o t = false) → logout_accepted scoped tenantID subject sid jti = true →
  is_Some (ot_replays (w_ext w) !! backchannelLogoutJTIHash jti) →
  ∃ t', @logout o scoped tenantID subject sid jti now (t, w) = (Ok false, (t', w)).
Proof.
  intros Hf Ha [x Hx]. exists (S t).
  assert (Ed : ∀ m, @first_delivery o _ jti now m (t, w) = (Ok false, (S t, w))).
  { intros m. unfold first_delivery, claim_jti, xwrite, mbind, XTx_bind. rewrite Hf, Hx.
    by destruct w. }
  unfold logout, ProcessScopedBackchannelLogout, ProcessBackchannelLogout, logout_accepted in *.
  unfold mbind, XTx_bind, xguard, xlift.
  destruct scoped; apply negb_true_iff in Ha; rewrite Ha; apply Ed.
Qed.

(** C37: A back-channel logout that names a subject revokes nothing, which is a
    defect: the comments of the code promise that every session of the subject
    ends.  Whatever sessions the store holds, a delivery that is acknowledged
    (under central governance with the session's identifier, or without) leaves
    all tables as they were but for its JTI, which is recorded; and delivering
    the same logout again, at any later time, is acknowledged as a repetition
    and changes nothing.  The revocation of a subject's sessions leaves every
    session as it was, too.  The statements look for the member "subject" of the
    stored principal, which is written as "Subject".  Not covered is a
    logout under central governance that names a session and no subject. *)
Theorem logout_revokes_nothing `{Oracle} scoped tenantID subject sid jti now w :
  subject ≠ "" →
  ot_sessions (w_ext (xtransaction (RevokeSessionsForSubject tenantID subject now) w).2) =
    ot_sessions (w_ext w) ∧
  ot_sessions (w_ext (xtransaction (logout scoped tenantID subject sid jti now) w).2) =
    ot_sessions (w_ext w) ∧
  ∀ first w', xtransaction (logout scoped tenantID subject sid jti now) w = (Ok first, w') →
    w_store w' = w_store w ∧ ot_logins (w_ext w') = ot_logins (w_ext w) ∧
    ot_sessions (w_ext w') = ot_sessions (w_ext w) ∧
    (let hash := backchannelLogoutJTIHash jti in
     first = bool_decide (ot_replays (w_ext w) !! hash = None) ∧
     is_Some (ot_replays (w_ext w') !! hash) ∧
     ∀ other, other ≠ hash → ot_replays (w_ext w') !! other = ot_replays (w_ext w) !! other) ∧
    ∀ (o' : Oracle) now', (∀ t, @o_fault o' t = false) → @o_commit o' = None →
      @xtransaction _ o' _ (@logout o' scoped tenantID subject sid jti now') w' = (Ok false, w').
Proof.
  intros Hs. split; [|split].
  - apply (xtransaction_inv (λ w', ot_sessions (w_ext w') = ot_sessions (w_ext w))); [|done].
    intros u t w' E. unfold RevokeSessionsForSubject in E. apply update_nothing in E;
      [|intros r; by apply no_subject]. cbn in E. by subst.
  - apply (xtransaction_inv (λ w', ot_sessions (w_ext w') = ot_sessions (w_ext w))); [|done].
    intros u t w' E. apply logout_outcome in E as (_ & -> & _); [|done].
    unfold jti_recorded. cbv zeta. by case_match.
  - intros first w' [t E]%xtransaction_ok. apply logout_outcome in E as (Ha & -> & ->); [|done].
    assert (Hin : is_Some (ot_replays (w_ext (jti_recorded jti now w)) !! backchannelLogoutJTIHash jti)).
    { unfold jti_recorded. cbv zeta. case_match eqn:Er; [by eexists|]. cbn.
      rewrite lookup_insert_eq. by eexists. }
    split; [unfold jti_recorded; cbv zeta; by case_match|].
    split; [unfold jti_recorded; cbv zeta; by case_match|].
    split; [unfold jti_recorded; cbv zeta; by case_match|].
    split; [split; [done|split; [done|]]|].
    + intros other Ho. unfold jti_recorded. cbv zeta. case_match; [done|]. cbn.
      by rewrite lookup_insert_ne.
    + intros o' now' Hf Hc. unfold xtransaction.
      destruct (logout_repeated o' scoped tenantID subject sid jti now' 0 _ Hf Ha Hin) as [t' ->].
      by rewrite Hc.
Qed.
End Histories.

(** ** A concrete history *)

Definition sample_session (hash : string) (revoked : option Time) : SessionRecord :=
  mkSession hash "t1" "alice" "" (JsonOf (mkPrincipal "kc-1" "t1" "alice" "alice" "" "" "" "" [] ∅ []
    ∅ 7 "16")) (mkTokens [] [] [] 0) (mkCentral [] "" "sid") 7 0 (100 * Hour) None None revoked 0 0.
Definition with_session (r : SessionRecord) : With OIDCTables :=
  mkWith empty_db (mkOIDC ∅ {[ se_SessionIDHash r := r ]} ∅).
Definition sample_login (state : string) : LoginTransactionRecord :=
  mkLogin [] false state "t1" [] [] "/" (10 * Minute) None 0.

Definition after_revocation : list (Oracle * store_op) :=
  [(fine "1", DoTouch "h" (2 * Hour)); (lost "2", DoInteract "h" (2 * Hour) Hour);
   (fine "3", DoUpdate (sample_session "h" None)); (fine "4", DoDeleteExpired (200 * Hour));
   (fine "5", DoCreateSession (sample_session "g" None))].

Lemma session_ends_witness :
  let w := with_session (sample_session "h" (Some Hour)) in
  Forall (λ c, continuing (2 * Hour) Hour "h" c.2) after_revocation ∧
  ¬ usable (2 * Hour) Hour "h" w ∧
  ¬ usable (3 * Hour) Hour "h" (run_store after_revocation w).2.
Proof.
  assert (Hall : Forall (λ c, continuing (2 * Hour) Hour "h" c.2) after_revocation)
    by (repeat constructor; discriminate).
  assert (Hdead : ¬ usable (2 * Hour) Hour "h" (with_session (sample_session "h" (Some Hour)))).
  { intros (r & Hr & Ha). vm_compute in Hr. injection Hr as <-. vm_compute in Ha. discriminate. }
  split; [exact Hall|]. split; [exact Hdead|].
  exact (session_ends (2 * Hour) Hour "h" after_revocation _ Hall Hdead (3 * Hour) ltac:(vm_compute; discriminate)).
Defined.

(** Two callbacks with one state: the second is refused. *)
Example second_callback_refused :
  map snd (run_store
    [(fine "1", DoSaveLogin (sample_login "s")); (fine "2", DoConsumeLogin "s" Minute);
     (fine "3", DoConsumeLogin "s" Minute); (fine "4", DoConsumeLogin "other" Minute)]
    (mkWith empty_db (mkOIDC ∅ ∅ ∅))).1 =
  [Ok tt; Ok tt; Err ErrUnauthenticated; Err ErrUnauthenticated].
Proof. vm_compute. reflexivity. Qed.

Lemma logout_revokes_nothing_witness :
  let w := with_session (sample_session "h" None) in
  let delivery o now := @xtransaction _ o _ (@logout _ o false "t1" "kc-1" "sid" "jti" now) in
  ∃ w', delivery (fine "1") Hour w = (Ok true, w') ∧ ot_sessions (w_ext w') = ot_sessions (w_ext w) ∧
    delivery (fine "2") (2 * Hour) w' = (Ok false, w').
Proof.
  intros w delivery. destruct (delivery (fine "1") Hour w) as [r w'] eqn:E.
  assert (r = Ok true) as -> by (change r with (r, w').1; rewrite <- E; vm_compute; reflexivity).
  exists w'. split; [reflexivity|].
  destruct (@logout_revokes_nothing _ (fine "1") false "t1" "kc-1" "sid" "jti" Hour w ltac:(discriminate))
    as (_ & _ & Hall).
  destruct (Hall true w' E) as (_ & _ & Hsess & _ & Hagain). split; [exact Hsess|].
  exact (Hagain (fine "2") (2 * Hour) (λ _, eq_refl) eq_refl).
Defined.
