(* ===== verification/Authenticator.v ===== *)
(** * infrastructure/platform/oidc.go, session_governance.go, session_rotation.go,
      contract_import_actor.go, backchannel_logout.go and sessiongovernance/client.go:
      who sends a request

    The browser's cookie leads to a session, the session to the principal the
    platform granted.  In the central mode the platform also keeps the lifetime of
    the session.  The identity provider, the platform and the random source are the
    class [Network]; other requests work on the same tables between two steps
    ([rq_others]).

    [authenticated_access]: whatever an authenticated request may do is justified by
    an answer of the platform.  [authenticated_session]: the session behind it was
    valid.  [callback_signs_in]: what a login needs, and what it leaves. *)

From Stdlib Require Import Btauto.
From S2P Require Import Prelude GoStrings Decimal GoTime NumberRule PhoneCipher Status Store.
From S2P Require Import Repository Access Service Tables Scenario Authorization SessionStore.

#[local] Open Scope string_scope.
#[local] Open Scope Z_scope.
#[local] Open Scope list_scope.

(** ** sessiongovernance: the central session *)

Record CentralContext : Type := mkCentralContext {
  cc_SessionID : string; cc_TenantID : string; cc_SubjectID : string; cc_ClientID : string;
  cc_ApplicationCode : string; cc_EnvironmentCode : string; cc_PolicyVersion : Z;
  cc_IdleTimeoutSeconds : Z; cc_IdleRemainingMS : Z; cc_AbsoluteExpiresAt : Time;
  cc_AbsoluteRemainingMS : Z
}.
Record Binding : Type := mkBinding { bi_Token : string; bi_Context : CentralContext }.
Record Expectation : Type := mkExpectation {
  ex_TenantID : string; ex_ClientID : string; ex_ApplicationCode : string;
  ex_EnvironmentCode : string
}.

(** [Validate]. *)
Definition ValidateCentral (value : CentralContext) (expected : Expectation) (subject : string)
    : res unit :=
  fail_if ((1800 <? cc_IdleTimeoutSeconds value) ||
           (wrap_int64 (cc_IdleTimeoutSeconds value * 1000) <? cc_IdleRemainingMS value) ||
           (8 * 60 * 60 * 1000 <? cc_AbsoluteRemainingMS value) ||
           (cc_AbsoluteRemainingMS value <? cc_IdleRemainingMS value)) ErrUnavailable;;
  fail_if (empty_str (cc_SessionID value) || negb (cc_TenantID value =s ex_TenantID expected) ||
           negb (cc_SubjectID value =s subject) || negb (cc_ClientID value =s ex_ClientID expected) ||
           negb (cc_ApplicationCode value =s ex_ApplicationCode expected) ||
           negb (cc_EnvironmentCode value =s ex_EnvironmentCode expected) ||
           (cc_PolicyVersion value =? 0) || (cc_IdleTimeoutSeconds value <=? 0) ||
           (cc_IdleRemainingMS value <=? 0) || (cc_AbsoluteRemainingMS value <=? 0) ||
           IsZero (cc_AbsoluteExpiresAt value)) ErrInactive;;
  Ok tt.

(** The answer to a request of the central protocol; [decoded] is what the body
    decodes to (a body over 64 KiB does not decode). *)
Inductive CentralAnswer (A : Type) : Type :=
  | NoCentralAnswer
  | CentralAnswered (status : Z) (json_type : bool) (decoded : res A).
Arguments NoCentralAnswer {A}.
Arguments CentralAnswered {A} _ _ _.

(** [request]. *)
Definition central_request {A} (answer : CentralAnswer A) : res A :=
  match answer with
  | NoCentralAnswer => Err ErrUnavailable
  | CentralAnswered status json_type decoded =>
      if status =? 401 then Err ErrInactive
      else if status =? 409 then Err ErrBindingConflict
      else if negb (status =? 200) then Err ErrUnavailable
      else if negb json_type then Err ErrUnavailable
      else match decoded with Ok a => Ok a | Err _ => Err ErrUnavailable end
  end.

(** The short-lived cache of [State], keyed by the digest of the binding. *)
Record stateCacheEntry : Type := mkCacheEntry { ce_value : CentralContext; ce_at : Time }.
Definition stateCacheMaxItems : nat := 4096.
Definition stateCacheDefault : Duration := 2000 * Millisecond.

(** [stateCacheTTL]: [raw] is the environment variable. *)
Definition stateCacheTTL (raw : option string) : Duration :=
  match raw with
  | None => stateCacheDefault
  | Some raw =>
      let raw := TrimSpace raw in
      if empty_str raw then stateCacheDefault
      else match parse_int64 (bytes raw) with
           | None => stateCacheDefault
           | Some ms => Z.min (Z.max ms 0) 5000 * Millisecond
           end
  end.

Lemma stateCacheTTL_bound raw : 0 ≤ stateCacheTTL raw ≤ 5 * Second.
Proof.
  unfold stateCacheTTL, stateCacheDefault, Second, Millisecond.
  repeat case_match; lia.
Qed.

Abbreviation StateCache := (gmap string stateCacheEntry).

Section Cache.
Context `{Sha256}.
Variable cacheTTL : Duration.

Definition cachedState (now : Time) (key : string) (cache : StateCache)
    : option CentralContext * StateCache :=
  if cacheTTL <=? 0 then (None, cache)
  else match cache !! key with
       | None => (None, cache)
       | Some entry =>
           if cacheTTL <=? now - ce_at entry then (None, delete key cache)
           else (Some (ce_value entry), cache)
       end.
Definition storeState (now : Time) (key : string) (value : CentralContext) (cache : StateCache)
    : StateCache :=
  if cacheTTL <=? 0 then cache
  else
    let cache := if (stateCacheMaxItems <=? size cache)%nat then ∅ else cache in
    <[key := mkCacheEntry value now]> cache.
Definition dropState (key : string) (cache : StateCache) : StateCache := delete key cache.

(** [State]: [asked] and [answered] are the clock at the lookup and at the store;
    [answer] is what the platform says if it is asked. *)
Definition State (binding : string) (asked answered : Time) (answer : CentralAnswer CentralContext)
    (cache : StateCache) : res CentralContext * StateCache :=
  let key := sha256_hex binding in
  let '(found, cache) := if empty_str binding then (None, cache) else cachedState asked key cache in
  match found with
  | Some value => (Ok value, cache)
  | None =>
      let result := central_request answer in
      let cache :=
        if empty_str binding then cache
        else match result with
             | Ok value => storeState answered key value cache
             | Err e => if bool_decide (e = ErrInactive) || bool_decide (e = ErrBindingConflict)
                        then dropState key cache else cache
             end in
      (result, cache)
  end.

(** Every entry is an answer the platform gave for that binding, at the noted time;
    [log] holds the answers with their bindings. *)
Definition cache_sound (log : list (string * CentralContext * Time)) (cache : StateCache) : Prop :=
  ∀ key entry, cache !! key = Some entry → ∃ binding,
    key = sha256_hex binding ∧ (binding, ce_value entry, ce_at entry) ∈ log.

Definition answers_of (calls : list (string * Time * Time * CentralAnswer CentralContext))
    : list (string * CentralContext * Time) :=
  omap (λ '(binding, asked, answered, answer),
          match central_request answer with Ok v => Some (binding, v, answered) | Err _ => None end)
    calls.

Lemma cachedState_sound log now key cache found cache' :
  cache_sound log cache → cachedState now key cache = (found, cache') →
  cache_sound log cache' ∧
  ∀ v, found = Some v → ∃ other at_,
    key = sha256_hex other ∧ (other, v, at_) ∈ log ∧ now - at_ < cacheTTL.
Proof.
  intros Hc. unfold cachedState. destruct (cacheTTL <=? 0); [by intros [= <- <-]|].
  destruct (cache !! key) as [entry|] eqn:E; [|by intros [= <- <-]].
  destruct (cacheTTL <=? now - ce_at entry) eqn:Et; intros [= <- <-].
  - split; [|done]. intros k e [_ Hk]%lookup_delete_Some. by apply Hc.
  - split; [done|]. intros v [= <-]. apply Hc in E as (other & -> & Hin). apply Z.leb_gt in Et. eauto.
Qed.

Lemma storeState_sound log now binding value cache :
  cache_sound log cache →
  cache_sound ((binding, value, now) :: log) (storeState now (sha256_hex binding) value cache).
Proof.
  intros Hc. assert (Hold : cache_sound ((binding, value, now) :: log) cache).
  { intros k e He. apply Hc in He as (b & -> & Hin). exists b. split; [done|by right]. }
  unfold storeState. destruct (cacheTTL <=? 0); [done|]. intros k e.
  intros [[<- <-]|[_ He]]%lookup_insert_Some; [exists binding; split; [done|by left]|].
  apply Hold. destruct (_ <=? _)%nat; [|done]. by rewrite lookup_empty in He.
Qed.

Lemma State_sound log binding asked answered answer cache r cache' :
  cache_sound log cache → State binding asked answered answer cache = (r, cache') →
  cache_sound (answers_of [(binding, asked, answered, answer)] ++ log) cache' ∧
  ∀ v, r = Ok v →
    central_request answer = Ok v ∨
    ∃ other at_, sha256_hex other = sha256_hex binding ∧ (other, v, at_) ∈ log ∧
      asked - at_ < cacheTTL.
Proof.
  intros Hc. unfold State, answers_of. cbn.
  destruct (if empty_str binding then _ else _) as [found cache1] eqn:E1.
  assert (H1 : cache_sound log cache1 ∧ ∀ v, found = Some v → ∃ other at_,
            sha256_hex binding = sha256_hex other ∧ (other, v, at_) ∈ log ∧ asked - at_ < cacheTTL).
  { destruct (empty_str binding); [by injection E1 as <- <-|]. by eapply cachedState_sound. }
  destruct H1 as [Hc1 Hf]. destruct found as [v|].
  - intros [= <- <-]. split.
    + intros k e He. apply Hc1 in He as (b & -> & Hin). exists b. split; [done|].
      apply elem_of_app. by right.
    + intros w [= <-]. right. destruct (Hf v eq_refl) as (other & at_ & ? & ? & ?). eauto 6.
  - intros [= <- <-]. split; [|by left]. destruct (central_request answer) as [v|e].
    + destruct (empty_str binding); [|by apply storeState_sound].
      intros k e He. apply Hc1 in He as (b & -> & Hin). exists b. split; [done|by right].
    + destruct (empty_str binding); [done|]. destruct (_ || _); [|done].
      unfold dropState. intros k x [_ Hk]%lookup_delete_Some. by apply Hc1.
Qed.

(** A binding the platform ended is asked about again. *)
Lemma State_drops binding asked answered answer cache e cache' :
  binding ≠ "" → central_request answer = Err e → e ∈ [ErrInactive; ErrBindingConflict] →
  State binding asked answered answer cache = (Err e, cache') →
  cache' !! sha256_hex binding = None.
Proof.
  unfold State, empty_str. intros Hb%streq_false Ha He. rewrite Hb.
  destruct (cachedState _ _ _) as [[v|] cache1]; [done|]. rewrite Ha. intros [= <-].
  replace (_ || _) with true; [apply lookup_delete_eq|]. symmetry. apply orb_true_iff.
  rewrite !bool_decide_eq_true. set_solver.
Qed.
End Cache.

(** ** The identity provider *)

Record oidcIDTokenClaims : Type := mkClaims {
  cl_Subject : string; cl_IdentityID : string; cl_TenantID : string; cl_PersonID : string;
  cl_Nonce : string; cl_TokenUse : string; cl_SessionID : string
}.
#[export] Instance compactIdentity_eq_dec : EqDecision compactIdentity.
Proof. solve_decision. Defined.
Record oidcUserInfoClaims : Type := mkUserInfo {
  ui_Subject : string; ui_Name : string; ui_PreferredUsername : string; ui_Email : string
}.
(** The claims of a logout token; [None]: the event is missing, or it is not an
    empty object. *)
Inductive logoutAudience : Type := OneAudience (a : string) | Audiences (l : list string) | NoAudience.
Record backchannelLogoutClaims : Type := mkLogoutClaims {
  bl_Subject : string; bl_Session : string; bl_Audience : logoutAudience; bl_Issued : Z;
  bl_Expires : Z; bl_JTI : string; bl_EmptyEvent : bool
}.

(** What the others answer at the n-th moment: the clock, random values, the
    identity provider ([Verify] checks signature, issuer, audience and expiry), and
    the platform.  [nw_cache] is what the process then holds in its cache of central
    states, [nw_cache_setting] the environment variable of its life time and
    [nw_state] what the platform would say if it were asked. *)
Class Network := {
  nw_now : nat → Time;
  nw_random : nat → Z → res string;
  nw_nonce : nat → res (list byte);
  nw_verifier : nat → string;
  nw_exchange : nat → string → string → res Token;
  nw_refresh : nat → string → res Token;
  nw_verify : nat → string → res (oidcIDTokenClaims * Time);
  nw_userinfo : nat → string → res (string * oidcUserInfoClaims);
  nw_logout_token : nat → string → res (option backchannelLogoutClaims);
  nw_context : nat → string → ContextAnswer;
  nw_cache_setting : option string;
  nw_cache : nat → StateCache;
  nw_state : nat → string → CentralAnswer CentralContext;
  nw_activity : nat → string → res CentralContext;
  nw_complete : nat → string → string → string → res Binding
}.

Record OIDCOptions : Type := mkOptions {
  oo_central : bool; oo_ClientID : string; oo_ApplicationCode : string;
  oo_EnvironmentCode : string; oo_TenantID : string; oo_PathPrefix : string;
  oo_SessionTTL : Duration; oo_SessionIdleTTL : Duration;
  oo_AuthorizationRefreshInterval : Duration; oo_AuthorizationMaxStale : Duration;
  oo_key : list byte; oo_catalog : AuthorizationCatalog
}.

(** [NewOIDCAuthenticator]: the settings it refuses. *)
Definition options_accepted (key : list byte) (decoded : res permissionManifest)
    (central : bool) (ttl idle : Duration) : res AuthorizationCatalog :=
  fail_if (negb central && ((idle <=? 0) || (ttl <=? idle))) ErrOther;;
  newSecretCodec key;;
  LoadAuthorizationCatalog decoded.

Definition validateCompactIDTokenClaims (claims : oidcIDTokenClaims)
    (expectedNonce expectedTenantID : string) : res compactIdentity :=
  let subject := TrimSpace (cl_Subject claims) in
  let identityID := TrimSpace (cl_IdentityID claims) in
  fail_if (empty_str identityID) ErrOther;;
  fail_if (empty_str subject || negb (subject =s cl_Subject claims) ||
           negb (cl_TokenUse claims =s "id_token") ||
           negb (cl_TenantID claims =s expectedTenantID) ||
           (negb (empty_str expectedNonce) && negb (cl_Nonce claims =s expectedNonce))) ErrOther;;
  Ok (mkIdentity subject identityID (cl_TenantID claims) (TrimSpace (cl_PersonID claims))
        (cl_SessionID claims)).

Definition validBackchannelClaims (claims : backchannelLogoutClaims) (clientID : string)
    (now : Time) : bool :=
  negb (empty_str (bl_Subject claims) || empty_str (bl_JTI claims) || (bl_Issued claims <=? 0) ||
        (bl_Expires claims <=? unix now) ||
        (300 <? wrap_int64 (bl_Expires claims - bl_Issued claims))) &&
  bl_EmptyEvent claims &&
  match bl_Audience claims with
  | OneAudience a => a =s clientID
  | Audiences l => contains l clientID
  | NoAudience => false
  end.

(** A zero time does not count. *)
Definition earliestExpiry (values : list Time) : Time :=
  foldl (λ result v,
    if negb (IsZero v) && (IsZero result || (v <? result)) then v else result) zero_time values.

Definition with_subject (subject : string) (p : Principal) : Principal :=
  mkPrincipal subject (p_TenantID p) (p_UserID p) (p_IdentityID p) (p_PersonID p)
    (p_DisplayName p) (p_UserName p) (p_Email p) (p_Roles p) (p_Permissions p) (p_DataScopes p)
    (p_PermissionScopes p) (p_AuthorizationRevision p) (p_CatalogVersion p).
Definition with_display (display user email : string) (p : Principal) : Principal :=
  mkPrincipal (p_Subject p) (p_TenantID p) (p_UserID p) (p_IdentityID p) (p_PersonID p)
    display user email (p_Roles p) (p_Permissions p) (p_DataScopes p)
    (p_PermissionScopes p) (p_AuthorizationRevision p) (p_CatalogVersion p).

Definition principalFromJSON (raw : json Principal) : res Principal :=
  principal ← unmarshal raw;
  let principal := if empty_str (p_Subject principal)
                   then with_subject (p_UserID principal) principal else principal in
  fail_if (empty_str (p_IdentityID principal) ||
           negb (p_UserID principal =s p_IdentityID principal) ||
           empty_str (p_TenantID principal) || (p_AuthorizationRevision principal =? 0))
    ErrAuthorizationInvalid;;
  Ok principal.

Definition safeStaleMethod (method : string) : bool := contains ["GET"; "HEAD"; "OPTIONS"] method.

Definition centralAuthenticationError (e : goerr) : goerr :=
  if rejecting e then ErrUnauthenticated else ErrAuthorizationServiceUnavailable.

(** A missing session is an authentication failure; any other error of the store
    is a failing dependency. *)
Definition store_answer {A} (r : res A) : res A :=
  match r with
  | Ok a => Ok a
  | Err e => Err (if bool_decide (e = ErrUnauthenticated) then ErrUnauthenticated
                  else ErrAuthorizationServiceUnavailable)
  end.

(** ** Tokens and authorization *)

Section Authenticator.
Context `{GoUnicode} `{Sha256} `{Aead}.
Variable o : OIDCOptions.

Definition interactiveBaseline (r : SessionRecord) : Time :=
  match se_LastInteractiveAt r with
  | Some t => if IsZero t then se_CreatedAt r else t
  | None => se_CreatedAt r
  end.
Definition sessionIdleValid (r : SessionRecord) (now : Time) : bool :=
  if (oo_SessionIdleTTL o <=? 0) || negb (now <? se_SessionExpiresAt r) then false
  else now <? interactiveBaseline r + oo_SessionIdleTTL o.
Definition sessionIdleRemaining (r : SessionRecord) (now : Time) : Duration :=
  Z.max 0 (earliestExpiry [interactiveBaseline r + oo_SessionIdleTTL o; se_SessionExpiresAt r] - now).

Definition own_principal (r : SessionRecord) (p : Principal) : bool :=
  (p_IdentityID p =s se_IdentityID r) && (p_TenantID p =s se_TenantID r).

Definition publicPath (path : string) : string :=
  let strip := fix strip l := match l with c :: r => if code c =? 47 then strip r else l | [] => [] end in
  let prefix := of_bytes (rev (strip (rev (bytes (oo_PathPrefix o))))) in
  if path =s "/" then prefix +:+ "/" else prefix +:+ "/" +:+ of_bytes (strip (bytes path)).

Section Questions.
Context `{Network}.

Definition seal_ (plaintext : string) : Ask (list byte) :=
  nonce ← ask_try (ask nw_nonce); aret (encrypt (oo_key o) nonce plaintext).
Definition open_ (e : goerr) (cipher : list byte) : Ask string :=
  aret (wrapped e (decrypt (oo_key o) cipher)).

Definition refreshTokens (token : Token) : Ask Token :=
  aret (fail_if (empty_str (TrimSpace (tk_RefreshToken token))) ErrRefreshTokenMissing);;
  refreshed ← ask (λ n, nw_refresh n (tk_RefreshToken token));
  mret (if empty_str (tk_RefreshToken refreshed)
        then mkToken (tk_AccessToken refreshed) (tk_RefreshToken token) (tk_Expiry refreshed)
               (tk_IDToken refreshed)
        else refreshed).

Definition verifyIDToken (token : Token) (expectedNonce : string)
    : Ask (compactIdentity * string * Time) :=
  raw ← aret (match tk_IDToken token with
              | Some raw => if empty_str (TrimSpace raw) then Err ErrOther else Ok raw
              | None => Err ErrOther
              end);
  verified ← ask (λ n, nw_verify n raw);
  identity ← aret (validateCompactIDTokenClaims verified.1 expectedNonce (oo_TenantID o));
  mret (identity, raw, verified.2).

Definition resolve (accessToken : string) : Ask AuthorizationContext :=
  ask (λ n, Resolve accessToken (nw_context n accessToken)).

Record Refreshed : Type := mkRefreshed {
  rf_token : Token; rf_identity : compactIdentity; rf_idToken : string; rf_expiry : Time
}.
(** New tokens and the verified identity behind them. *)
Definition rotate (token : Token) : Ask Refreshed :=
  token ← refreshTokens token;
  verified ← verifyIDToken token "";
  mret (mkRefreshed token verified.1.1 verified.1.2 (earliestExpiry [verified.2; tk_Expiry token])).

Definition admit_context (identity : compactIdentity) (snapshot : AuthorizationContext)
    : res Principal :=
  principalFromAuthorizationContext identity snapshot (oo_catalog o) (oo_ClientID o)
    (oo_ApplicationCode o) (oo_EnvironmentCode o).

Definition refresh_due (r : SessionRecord) (now : Time) : bool :=
  negb (now <? st_TokenExpiresAt (se_tokens r)) ||
  (oo_central o && negb (now + Minute <? st_TokenExpiresAt (se_tokens r))).

(** [refreshAuthorization]; the third result of [rotated] says whether the tokens
    were refreshed. *)
Definition refreshAuthorization (r : SessionRecord) (current : Principal) (now : Time)
    (canRefresh : bool) : Ask (SessionRecord * bool) :=
  accessToken ← open_ ErrAuthorizationInvalid (st_AccessTokenCiphertext (se_tokens r));
  refreshToken ← open_ ErrAuthorizationInvalid (st_RefreshTokenCiphertext (se_tokens r));
  idToken ← open_ ErrAuthorizationInvalid (st_IDTokenCiphertext (se_tokens r));
  let subject := firstNonEmpty [p_Subject current; p_UserID current] in
  let held := mkRefreshed
    (mkToken accessToken refreshToken (st_TokenExpiresAt (se_tokens r)) None)
    (mkIdentity subject (p_IdentityID current) (p_TenantID current) (p_PersonID current) "")
    idToken (st_TokenExpiresAt (se_tokens r)) in
  first ← (if refresh_due r now
           then aret (fail_if (negb canRefresh) ErrAuthorizationServiceUnavailable);;
                f ← rotate (rf_token held); mret (f, true)
           else mret (held, false) : Ask (Refreshed * bool));
  answer ← ask_try (resolve (tk_AccessToken (rf_token first.1)));
  last ← (match answer with
          | Ok snapshot => mret (first, snapshot)
          | Err e =>
              if bool_decide (e = ErrAuthorizationUnauthorized) && negb first.2 && canRefresh
              then f ← rotate (rf_token first.1);
                   snapshot ← resolve (tk_AccessToken (rf_token f)); mret ((f, true), snapshot)
              else aret (Err e)
          end : Ask (Refreshed * bool * AuthorizationContext));
  let '(f, rotated, snapshot) := last in
  aret (fail_if (oo_central o && rotated &&
                 (empty_str (sc_OIDCSessionID (se_central r)) ||
                  negb (ci_SessionID (rf_identity f) =s sc_OIDCSessionID (se_central r))))
          ErrAuthorizationInvalid);;
  principal ← aret (admit_context (rf_identity f) snapshot);
  aret (fail_if (negb (p_Subject principal =s subject) ||
                 negb (p_IdentityID principal =s p_IdentityID current) ||
                 negb (p_TenantID principal =s p_TenantID current)) ErrAuthorizationInvalid);;
  let principal := with_display (p_DisplayName current) (p_UserName current) (p_Email current)
                     principal in
  accessCipher ← seal_ (tk_AccessToken (rf_token f));
  refreshCipher ← seal_ (firstNonEmpty [tk_RefreshToken (rf_token f); refreshToken]);
  idCipher ← seal_ (rf_idToken f);
  mret (mkSession (se_SessionIDHash r) (se_TenantID r) (se_IdentityID r) (p_PersonID principal)
          (JsonOf principal) (mkTokens accessCipher refreshCipher idCipher (rf_expiry f))
          (se_central r) (p_AuthorizationRevision principal) now (se_SessionExpiresAt r)
          (se_LastSeenAt r) (se_LastInteractiveAt r) (se_RevokedAt r) (se_CreatedAt r) now, true).

Definition resolveInitialAuthorization (token : Token) (identity : compactIdentity)
    (rawIDToken : string) (expiry : Time)
    : Ask (AuthorizationContext * Token * compactIdentity * string * Time) :=
  answer ← ask_try (resolve (tk_AccessToken token));
  match answer with
  | Ok snapshot => mret (snapshot, token, identity, rawIDToken, expiry)
  | Err e =>
      if negb (bool_decide (e = ErrAuthorizationUnauthorized)) then aret (Err e)
      else
        refreshed ← refreshTokens token;
        verified ← ask_try (verifyIDToken refreshed "");
        match verified with
        | Ok (identity', raw', expiry') =>
            aret (fail_if (negb (bool_decide (identity' = identity))) ErrAuthorizationUnauthorized);;
            snapshot ← resolve (tk_AccessToken refreshed);
            mret (snapshot, refreshed, identity', raw', expiry')
        | Err _ => aret (Err ErrAuthorizationUnauthorized)
        end
  end.

Definition loadCurrentUserInfo (token : Token) (expectedSubject : string)
    : Ask (string * string * string) :=
  info ← ask (λ n, nw_userinfo n (tk_AccessToken token));
  let claims := info.2 in
  aret (fail_if (negb (info.1 =s expectedSubject) ||
                 (negb (empty_str (ui_Subject claims)) && negb (ui_Subject claims =s expectedSubject)))
          ErrOther);;
  mret (firstNonEmpty [TrimSpace (ui_Name claims); TrimSpace (ui_PreferredUsername claims);
                       TrimSpace (ui_Email claims); expectedSubject],
        TrimSpace (ui_PreferredUsername claims), TrimSpace (ui_Email claims)).

Definition newSessionRecord (rawSession : string) (principal : Principal) (token : Token)
    (rawIDToken : string) (tokenExpiry now : Time) : Ask SessionRecord :=
  accessCipher ← seal_ (tk_AccessToken token);
  refreshCipher ← seal_ (tk_RefreshToken token);
  idCipher ← seal_ rawIDToken;
  mret (mkSession (tokenHash rawSession) (p_TenantID principal) (p_IdentityID principal)
          (p_PersonID principal) (JsonOf principal)
          (mkTokens accessCipher refreshCipher idCipher tokenExpiry) (mkCentral [] "" "")
          (p_AuthorizationRevision principal) now (now + oo_SessionTTL o) (Some now) (Some now) None
          now now).

(** ** The central session of a record *)

Definition centralExpectation : Expectation :=
  mkExpectation (oo_TenantID o) (oo_ClientID o) (oo_ApplicationCode o) (oo_EnvironmentCode o).
Definition central_secret (r : SessionRecord) : res string :=
  fail_if (is_empty (sc_CentralBindingCiphertext (se_central r))) ErrUnauthenticated;;
  secret ← wrapped ErrUnauthenticated
             (decrypt (oo_key o) (sc_CentralBindingCiphertext (se_central r)));
  fail_if (empty_str secret) ErrUnauthenticated;;
  Ok secret.
(** What the client's [State] returns: a cached answer or the platform's. *)
Definition client_state (n : nat) (secret : string) : res CentralContext :=
  (State (stateCacheTTL nw_cache_setting) secret (nw_now n) (nw_now n) (nw_state n secret)
     (nw_cache n)).1.
Definition central_call (r : SessionRecord) (interact : bool) (secret : string)
    : Ask CentralContext :=
  state ← ask (λ n, if interact then nw_activity n secret else client_state n secret);
  aret (ValidateCentral state centralExpectation (se_IdentityID r));;
  mret state.
Definition central_ended (e : goerr) : bool :=
  bool_decide (e = ErrInactive) || bool_decide (e = ErrBindingConflict).
Definition central_result (r : SessionRecord) (answer : res CentralContext) : res CentralContext :=
  match answer with
  | Ok state =>
      fail_if (negb (cc_SessionID state =s sc_CentralSessionID (se_central r))) ErrUnauthenticated;;
      Ok state
  | Err e => Err (if central_ended e then ErrUnauthenticated else ErrAuthorizationServiceUnavailable)
  end.
(** [centralState] with [revoke = false]. *)
Definition centralState_locked (r : SessionRecord) (interact : bool) : Ask CentralContext :=
  secret ← aret (central_secret r);
  answer ← ask_try (central_call r interact secret);
  aret (central_result r answer).

(** [rotateCentralTokens]: the first of the two transactions. *)
Definition rotateCentralTokens (r : SessionRecord) (now : Time) : Ask (SessionRecord * bool) :=
  centralState_locked r false;;
  (if now + Minute <? st_TokenExpiresAt (se_tokens r) then mret (r, false)
   else
     current ← aret (wrapped ErrUnauthenticated (principalFromJSON (se_PrincipalJSON r)));
     refresh ← open_ ErrUnauthenticated (st_RefreshTokenCiphertext (se_tokens r));
     token ← refreshTokens (mkToken "" refresh zero_time None);
     verified ← verifyIDToken token "";
     let '(identity, rawID, expiry) := verified in
     aret (fail_if (negb (ci_Subject identity =s p_Subject current) ||
                    negb (ci_IdentityID identity =s se_IdentityID r) ||
                    negb (ci_TenantID identity =s se_TenantID r) ||
                    empty_str (sc_OIDCSessionID (se_central r)) ||
                    negb (ci_SessionID identity =s sc_OIDCSessionID (se_central r)))
             ErrUnauthenticated);;
     accessCipher ← seal_ (tk_AccessToken token);
     refreshCipher ← seal_ (tk_RefreshToken token);
     idCipher ← seal_ rawID;
     mret (mkSession (se_SessionIDHash r) (se_TenantID r) (se_IdentityID r) (se_PersonID r)
             (se_PrincipalJSON r)
             (mkTokens accessCipher refreshCipher idCipher (earliestExpiry [expiry; tk_Expiry token]))
             (se_central r) (se_AuthorizationRevision r) (of_unix 1) (se_SessionExpiresAt r)
             (se_LastSeenAt r) (se_LastInteractiveAt r) (se_RevokedAt r) (se_CreatedAt r) now, true)
   : Ask (SessionRecord * bool)).

(** The token and the last authorization check are recent. *)
Definition settled_session (r : SessionRecord) (now : Time) : bool :=
  (now + Minute <? st_TokenExpiresAt (se_tokens r)) &&
  (now - se_AuthorizationCheckedAt r <? oo_AuthorizationRefreshInterval o).

Definition ask_now : Ask Time := ask (λ n, Ok (nw_now n)).

(** The callbacks of the two transactions of [authenticateCentral]. *)
Definition rotation (current : SessionRecord) : Ask (SessionRecord * bool) :=
  now ← ask_now; rotateCentralTokens current now.
Definition recheck (current : SessionRecord) : Ask (SessionRecord * bool) :=
  lockedNow ← ask_now;
  centralState_locked current false;;
  (if settled_session current lockedNow then mret (current, false)
   else
     principal ← aret (wrapped ErrUnauthenticated (principalFromJSON (se_PrincipalJSON current)));
     refreshAuthorization current principal lockedNow false : Ask (SessionRecord * bool)).
End Questions.

(** ** Requests *)

Section RequestFlows.
Context `{Requests OIDCTables}.
Variable network : nat → Network.

Abbreviation SReq := (Req OIDCTables).

(** A question outside of a transaction, at its own step. *)
Definition rask {A} (m : Network → Ask A) : SReq A := n ← rtick; rpure (m (network n) 0%nat).1.
Definition rlock (hash : string) (now : Time)
    (update : Network → SessionRecord → Ask (SessionRecord * bool)) : SReq SessionRecord :=
  n ← rtick;
  r ← rchange_under (xtransaction (H := rq_oracle n)
        (WithSessionLock (H := rq_oracle n) hash now (update (network n))));
  rpure r.
Definition rwrite_ {A} (m : Oracle → STx A) : SReq A := rwrites (λ oracle, xtransaction (H := oracle) (m oracle)).

Definition TouchSessionLastSeen (hash : string) (now : Time) : SReq unit :=
  changed ← rwrite_ (λ oracle, touch_update (H := oracle) hash now);
  if changed =? 1 then mret tt
  else rreads (λ oracle, take_session (H := oracle) hash (valid_at now));; mret tt.
Definition RecordInteraction (hash : string) (now : Time) (idleTimeout : Duration) : SReq unit :=
  rcheck (idleTimeout <=? 0) ErrUnauthenticated;;
  changed ← rwrite_ (λ oracle, interaction_update (H := oracle) hash now idleTimeout);
  if changed =? 1 then mret tt
  else rreads (λ oracle, take_session (H := oracle) hash (active_at now idleTimeout));; mret tt.

(** [revoke = true]: an ended session is revoked on the way. *)
Definition centralState (r : SessionRecord) (interact : bool) : SReq CentralContext :=
  secret ← rpure (central_secret r);
  answer ← rtry (rask (λ net, central_call r interact secret));
  match answer with
  | Err e =>
      if central_ended e
      then
        now ← rclock;
        revoked ← rtry (rwrite_ (λ oracle, RevokeSession (H := oracle) (se_SessionIDHash r) now));
        rrefuse (match revoked with Ok _ => ErrUnauthenticated
                                  | Err _ => ErrAuthorizationServiceUnavailable end)
      else rpure (central_result r answer)
  | Ok _ => rpure (central_result r answer)
  end.

Definition authenticateCentral (r : SessionRecord) (now : Time) : SReq Principal :=
  centralState r false;;
  principal ← rpure (wrapped ErrUnauthenticated (principalFromJSON (se_PrincipalJSON r)));
  rcheck (negb (own_principal r principal)) ErrUnauthenticated;;
  if settled_session r now then mret principal
  else
    early ← rclock;
    r ← (if negb (early + Minute <? st_TokenExpiresAt (se_tokens r))
         then
           at_ ← rclock;
           rotated ← rtry (rlock (se_SessionIDHash r) at_ (λ net, rotation));
           rpure (match rotated with Ok r => Ok r | Err e => Err (centralAuthenticationError e) end)
         else mret r : SReq SessionRecord);
    updated ← rtry (rlock (se_SessionIDHash r) now (λ net, recheck));
    match updated with
    | Ok updated => rpure (principalFromJSON (se_PrincipalJSON updated))
    | Err e => rrefuse (centralAuthenticationError e)
    end.

(** The cookie; its digest names the session. *)
Definition session_cookie (cookie : option string) : res string :=
  match cookie with
  | Some value => fail_if (empty_str (TrimSpace value)) ErrUnauthenticated;; Ok (tokenHash value)
  | None => Err ErrUnauthenticated
  end.
Definition find_session (hash : string) (now : Time) : SReq SessionRecord :=
  found ← rtry (rreads (λ oracle, FindSession (H := oracle) hash now));
  r ← rpure (store_answer found);
  rcheck (negb (se_TenantID r =s oo_TenantID o)) ErrUnauthenticated;;
  mret r.

Definition refresh_outdated (r : SessionRecord) (now : Time) : bool :=
  (oo_AuthorizationRefreshInterval o <=? now - se_AuthorizationCheckedAt r) ||
  negb (now <? st_TokenExpiresAt (se_tokens r)).

(** What follows a refresh: the new session, the end of all of the identity's
    sessions, or a bounded use of what was known. *)
Definition after_refresh (r : SessionRecord) (principal : Principal) (method : string) (now : Time)
    (answer : res (SessionRecord * bool)) : SReq Principal :=
  match answer with
  | Ok (updated, refreshed) =>
      if refreshed : bool
      then
        stored ← rtry (rwrite_ (λ oracle, UpdateSession (H := oracle) updated));
        match stored with
        | Ok _ => rpure (principalFromJSON (se_PrincipalJSON updated))
        | Err _ => rrefuse ErrAuthorizationServiceUnavailable
        end
      else mret principal
  | Err e =>
      if bool_decide (e = ErrAuthorizationForbidden) || bool_decide (e = ErrAuthorizationUnauthorized) ||
         bool_decide (e = ErrAuthorizationInvalid) || refreshTokenWasRejected e
      then
        rtry (rwrite_ (λ oracle, RevokeSessionsForIdentity (H := oracle) (se_TenantID r)
                                   (se_IdentityID r) now));;
        rrefuse ErrUnauthenticated
      else if bool_decide (e = ErrAuthorizationUnavailable) && safeStaleMethod method &&
              (now - se_AuthorizationCheckedAt r <=? oo_AuthorizationMaxStale o) &&
              (now <? st_TokenExpiresAt (se_tokens r))
      then mret principal
      else rrefuse ErrAuthorizationServiceUnavailable
  end.

Definition authenticateLocal (hash : string) (r : SessionRecord) (method : string) (now : Time)
    : SReq Principal :=
  match principalFromJSON (se_PrincipalJSON r) with
  | Ok principal =>
      if own_principal r principal
      then
        rcheck (negb (sessionIdleValid r now)) ErrUnauthenticated;;
        touched ← rtry (TouchSessionLastSeen hash now);
        rpure (store_answer touched);;
        if negb (refresh_outdated r now) then mret principal
        else
          answer ← rtry (rask (λ net, refreshAuthorization r principal now true));
          after_refresh r principal method now answer
      else
        rtry (rwrite_ (λ oracle, RevokeSession (H := oracle) (se_SessionIDHash r) now));;
        rrefuse ErrUnauthenticated
  | Err _ =>
      rtry (rwrite_ (λ oracle, RevokeSession (H := oracle) (se_SessionIDHash r) now));;
      rrefuse ErrUnauthenticated
  end.

Definition Authenticate (cookie : option string) (method : string) : SReq Principal :=
  hash ← rpure (session_cookie cookie);
  now ← rclock;
  r ← find_session hash now;
  if oo_central o then authenticateCentral r now else authenticateLocal hash r method now.

(** ** Activity *)

Definition interactiveSession (cookie : option string) (now : Time) : SReq (SessionRecord * string) :=
  hash ← rpure (session_cookie cookie);
  r ← find_session hash now;
  principal ← rpure (wrapped ErrUnauthenticated (principalFromJSON (se_PrincipalJSON r)));
  rcheck (negb (own_principal r principal)) ErrUnauthenticated;;
  rcheck (negb (oo_central o) && negb (sessionIdleValid r now)) ErrUnauthenticated;;
  mret (r, hash).

Definition central_window (state : CentralContext) : Duration * Duration :=
  (wrap_int64 (cc_IdleTimeoutSeconds state * Second),
   wrap_int64 (cc_IdleRemainingMS state * Millisecond)).

(** The idle time and what is left of it. *)
Definition SessionIdle (cookie : option string) : SReq (Duration * Duration) :=
  now ← rclock;
  found ← interactiveSession cookie now;
  if oo_central o then state ← centralState found.1 false; mret (central_window state)
  else mret (oo_SessionIdleTTL o, sessionIdleRemaining found.1 now).
Definition RecordActivity (cookie : option string) : SReq (Duration * Duration) :=
  now ← rclock;
  found ← interactiveSession cookie now;
  if oo_central o then state ← centralState found.1 true; mret (central_window state)
  else
    recorded ← rtry (RecordInteraction found.2 now (oo_SessionIdleTTL o));
    rpure (store_answer recorded);;
    mret (oo_SessionIdleTTL o, sessionIdleRemaining (interactive_row now (se_UpdatedAt found.1) found.1) now).

(** [SessionState] and [Activity]: the HTTP status and the state shown; [trusted] is
    the check of the Origin and X-CSRF-Token headers. *)
Definition lifecycle (cookie : option string) (method : string) (interact trusted : bool)
    : SReq (Z * option CentralContext) :=
  if negb (oo_central o) then mret (503, None)
  else if interact && negb trusted then mret (403, None)
  else
    let status e := if bool_decide (e = ErrUnauthenticated) then 401 else 503 in
    who ← rtry (Authenticate cookie method);
    match who, cookie with
    | Err e, _ => mret (status e, None)
    | Ok _, None => mret (401, None)
    | Ok _, Some value =>
        now ← rclock;
        found ← rtry (rreads (λ oracle, FindSession (H := oracle) (tokenHash value) now));
        match found with
        | Err _ => mret (503, None)
        | Ok r =>
            state ← rtry (centralState r interact);
            mret (match state with Ok st => (200, Some st) | Err e => (status e, None) end)
        end
    end.

(** ** Background jobs *)

Definition ImportExecutionSession (cookie : option string) : res string :=
  match cookie with
  | Some value => fail_if (empty_str value) ErrUnauthenticated;; Ok (tokenHash value)
  | None => Err ErrUnauthenticated
  end.
Definition ResolveImportActor (hash tenant actor : string) : SReq Principal :=
  now ← rclock;
  found ← rtry (rreads (λ oracle, FindSession (H := oracle) hash now));
  r ← rpure (wrapped ErrUnauthenticated found);
  rcheck (negb (tenant =s oo_TenantID o) || negb (se_TenantID r =s tenant) ||
          negb (se_IdentityID r =s actor)) ErrUnauthenticated;;
  current ← rpure (wrapped ErrUnauthenticated (principalFromJSON (se_PrincipalJSON r)));
  rcheck (negb (p_IdentityID current =s actor) || negb (p_TenantID current =s tenant))
    ErrUnauthenticated;;
  updated ← rask (λ net, refreshAuthorization r current now true);
  stored ← rtry (rwrite_ (λ oracle, UpdateSession (H := oracle) updated.1));
  rpure (wrapped ErrAuthorizationServiceUnavailable stored);;
  rpure (principalFromJSON (se_PrincipalJSON updated.1)).

(** ** Login *)

(** Where the browser is sent: with a state cookie to the platform, which binds the
    state and the digest of the nonce, or to the identity provider. *)
Inductive LoginOutcome : Type :=
  | LoginError (status : Z)
  | LoginAt (state nonce verifier : string) (forceLogin : bool)
  | LoginThroughPlatform (state nonce : string).
Definition loginTransactionTTL : Duration := 10 * Minute.

Definition Login (prompt : string) : SReq LoginOutcome :=
  let forceLogin := EqualFold (TrimSpace prompt) "login" in
  now ← rclock;
  prepared ← rtry (rask (λ net,
    state ← ask (λ n, nw_random n 32);
    nonce ← ask (λ n, nw_random n 32);
    verifier ← ask (λ n, Ok (nw_verifier n));
    nonceCipher ← seal_ nonce;
    verifierCipher ← seal_ verifier;
    mret (state, nonce, verifier, nonceCipher, verifierCipher)));
  match prepared with
  | Err _ => mret (LoginError 500)
  | Ok (state, nonce, verifier, nonceCipher, verifierCipher) =>
      saved ← rtry (rwrite_ (λ oracle, SaveLoginTransaction (H := oracle)
        (mkLogin [] forceLogin (tokenHash state) (oo_TenantID o) nonceCipher verifierCipher
           (publicPath "/") (now + loginTransactionTTL) None now)));
      mret (match saved with
            | Err _ => LoginError 503
            | Ok _ => if oo_central o then LoginThroughPlatform state nonce
                      else LoginAt state nonce verifier forceLogin
            end)
  end.

Inductive CallbackOutcome : Type :=
  | CallbackFailed (stage : string) (status : Z)
  | CallbackError (status : Z)
  | LinkAccepted (nonce verifier : string) (forceLogin : bool)
  | SignedIn (rawSession returnPath : string) (expires : Time).

Record CallbackQuery : Type := mkCallbackQuery {
  cq_state : string; cq_code : string; cq_error : string; cq_ticket : string;
  cq_state_cookie : option string
}.

Definition acceptSessionLink (query : CallbackQuery) (state : string) : SReq CallbackOutcome :=
  let ticket := cq_ticket query in
  if negb (empty_str (cq_code query)) || (128 <? slen ticket)
  then mret (CallbackFailed "central_ticket" 401)
  else
    sealed ← rtry (rask (λ net, seal_ ticket));
    match sealed with
    | Err _ => mret (CallbackError 503)
    | Ok cipher =>
        now ← rclock;
        attached ← rtry (rwrite_ (λ oracle, AttachSessionLink (H := oracle) (tokenHash state) cipher now));
        match attached with
        | Err e => mret (CallbackFailed "central_ticket"
                           (if bool_decide (e = ErrUnauthenticated) then 401 else 503))
        | Ok transaction =>
            mret (match decrypt (oo_key o) (lt_NonceCiphertext transaction),
                        decrypt (oo_key o) (lt_CodeVerifierCiphertext transaction) with
                  | Ok nonce, Ok verifier => LinkAccepted nonce verifier (lt_ForceLogin transaction)
                  | _, _ => CallbackError 401
                  end)
        end
    end.

(** The stages of a callback: an error ends it with the stage and the HTTP status
    it is reported with. *)
Definition stage {A} (name : string) (status : goerr → Z) (m : SReq A)
    (next : A → SReq CallbackOutcome) : SReq CallbackOutcome :=
  r ← rtry m;
  match r with Ok a => next a | Err e => mret (CallbackFailed name (status e)) end.
Definition always (status : Z) (e : goerr) : Z := status.

Definition authorization_status (e : goerr) : Z :=
  if bool_decide (e = ErrAuthorizationForbidden) || bool_decide (e = ErrAuthorizationInvalid)
  then 403
  else if bool_decide (e = ErrAuthorizationUnavailable) then 503 else 401.
Definition local_status (e : goerr) : Z :=
  if bool_decide (e = ErrAuthorizationInvalid) then 401 else 403.
Definition binding_status (e : goerr) : Z := if central_ended e then 401 else 503.

Record SignIn : Type := mkSignIn {
  si_identity : compactIdentity; si_snapshot : AuthorizationContext; si_token : Token;
  si_idToken : string; si_expiry : Time; si_binding : option Binding
}.

(** The central session is completed with the ticket of the transaction. *)
Definition complete_central (transaction : LoginTransactionRecord) (token : Token)
    (rawIDToken : string) (identity : compactIdentity)
    (next : option Binding → SReq CallbackOutcome) : SReq CallbackOutcome :=
  if negb (oo_central o) then next None
  else
    stage "central_ticket" (always 401)
      (rpure (ticket ← decrypt (oo_key o) (lt_CentralTicketCiphertext transaction);
              fail_if (empty_str ticket) ErrUnauthenticated;; Ok ticket)) (λ ticket,
    stage "central_binding" binding_status
      (rask (λ net,
         binding ← ask (λ n, nw_complete n ticket (tk_AccessToken token) rawIDToken);
         aret (ValidateCentral (bi_Context binding) centralExpectation (ci_IdentityID identity));;
         mret binding)) (λ binding, next (Some binding))).

(** The record of the new session: a central session fixes its deadline. *)
Definition session_to_store (signin : SignIn) (r : SessionRecord) (binding : list byte)
    : SessionRecord :=
  match si_binding signin with
  | None => r
  | Some b =>
      mkSession (se_SessionIDHash r) (se_TenantID r) (se_IdentityID r) (se_PersonID r)
        (se_PrincipalJSON r) (se_tokens r)
        (mkCentral binding (cc_SessionID (bi_Context b)) (ci_SessionID (si_identity signin)))
        (se_AuthorizationRevision r) (se_AuthorizationCheckedAt r)
        (cc_AbsoluteExpiresAt (bi_Context b)) (se_LastSeenAt r) (se_LastInteractiveAt r)
        (se_RevokedAt r) (se_CreatedAt r) (se_UpdatedAt r)
  end.

Definition open_session (transaction : LoginTransactionRecord) (signin : SignIn) (now : Time)
    : SReq CallbackOutcome :=
  stage "local_authorization" local_status
    (rpure (admit_context (si_identity signin) (si_snapshot signin))) (λ principal,
  stage "userinfo" (always 503)
    (rask (λ net, loadCurrentUserInfo (si_token signin) (p_Subject principal))) (λ info,
  let principal := with_display info.1.1 info.1.2 info.2 principal in
  stage "token_exchange" (always 401)
    (rcheck (empty_str (TrimSpace (tk_RefreshToken (si_token signin)))) ErrRefreshTokenMissing) (λ _,
  stage "session" (always 500)
    (rask (λ net,
       rawSession ← ask (λ n, nw_random n 48);
       r ← newSessionRecord rawSession principal (si_token signin) (si_idToken signin)
             (earliestExpiry [si_expiry signin; tk_Expiry (si_token signin)]) now;
       mret (rawSession, r))) (λ made,
  stage "central_storage" (always 503)
    (match si_binding signin with
     | Some b => rask (λ net, seal_ (bi_Token b))
     | None => mret []
     end) (λ binding,
  let r := session_to_store signin made.2 binding in
  stage "session" (always 503) (rwrite_ (λ oracle, CreateSession (H := oracle) r)) (λ _,
  mret (SignedIn made.1 (lt_ReturnPath transaction) (se_SessionExpiresAt r)))))))).

Definition finish_callback (state code : string) : SReq CallbackOutcome :=
  now ← rclock;
  stage "login_state" (always 401)
    (transaction ← rwrite_ (λ oracle, ConsumeLoginTransaction (H := oracle) (tokenHash state) now);
     rcheck (negb (lt_TenantID transaction =s oo_TenantID o)) ErrUnauthenticated;;
     nonce ← rpure (decrypt (oo_key o) (lt_NonceCiphertext transaction));
     verifier ← rpure (decrypt (oo_key o) (lt_CodeVerifierCiphertext transaction));
     mret (transaction, nonce, verifier)) (λ login,
  let '(transaction, nonce, verifier) := login in
  stage "token_exchange" (always 401)
    (rask (λ net, ask (λ n, nw_exchange n code verifier))) (λ token,
  stage "id_token" (always 401) (rask (λ net, verifyIDToken token nonce)) (λ verified,
  let '(identity, rawIDToken, idExpiry) := verified in
  complete_central transaction token rawIDToken identity (λ binding,
  stage "authorization_context" authorization_status
    (rask (λ net, resolveInitialAuthorization token identity rawIDToken idExpiry)) (λ resolved,
  let '(snapshot, token, identity', rawIDToken, idExpiry) := resolved in
  if oo_central o && (empty_str (ci_SessionID identity) ||
                      negb (ci_SessionID identity' =s ci_SessionID identity))
  then mret (CallbackFailed "central_sid" 401)
  else open_session transaction (mkSignIn identity' snapshot token rawIDToken idExpiry binding) now))))).

Definition Callback (query : CallbackQuery) : SReq CallbackOutcome :=
  let state := TrimSpace (cq_state query) in
  let code := TrimSpace (cq_code query) in
  let continue :=
    if negb (empty_str (TrimSpace (cq_error query))) then mret (CallbackFailed "authorization" 401)
    else if empty_str state || empty_str code
    then mret (CallbackFailed "callback_parameters" 401)
    else finish_callback state code in
  if oo_central o
  then
    match cq_state_cookie query with
    | Some value =>
        if empty_str value || negb (value =s cq_state query)
        then mret (CallbackFailed "browser_state" 401)
        else if negb (empty_str (cq_ticket query)) then acceptSessionLink query value
        else continue
    | None => mret (CallbackFailed "browser_state" 401)
    end
  else continue.

(** ** Logout *)

(** [clearLocalSession]: the id token that the provider's logout page gets. *)
Definition clearLocalSession (cookie : option string) : SReq string :=
  match cookie with
  | Some value =>
      if empty_str value then mret ""
      else
        now ← rclock;
        found ← rtry (rreads (λ oracle, FindSession (H := oracle) (tokenHash value) now));
        rtry (rwrite_ (λ oracle, RevokeSession (H := oracle) (tokenHash value) now));;
        mret (match found with
              | Ok r => match decrypt (oo_key o) (st_IDTokenCiphertext (se_tokens r)) with
                        | Ok token => token | Err _ => "" end
              | Err _ => ""
              end)
  | None => mret ""
  end.

(** The HTTP status of a logout sent by the identity provider. *)
Definition BackchannelLogout (method raw : string) : SReq Z :=
  let raw := TrimSpace raw in
  if negb (method =s "POST") then mret 405
  else if empty_str raw || (64 * 1024 <? slen raw) then mret 400
  else
    claims ← rtry (rask (λ net, ask (λ n, nw_logout_token n raw)));
    checked ← rclock;
    match claims with
    | Ok (Some claims) =>
        if negb (validBackchannelClaims claims (oo_ClientID o) checked) then mret 401
        else
          now ← rclock;
          done_ ← rtry (rwrite_ (λ oracle,
            if oo_central o && negb (empty_str (bl_Session claims))
            then ProcessScopedBackchannelLogout (H := oracle) (oo_TenantID o) (bl_Subject claims)
                   (bl_Session claims) (bl_JTI claims) now
            else ProcessBackchannelLogout (H := oracle) (oo_TenantID o) (bl_Subject claims)
                   (bl_JTI claims) now));
          mret (match done_ with Ok _ => 200 | Err _ => 503 end)
    | _ => mret 401
    end.
End RequestFlows.
End Authenticator.

(** ** Reasoning about questions and requests *)

Definition asks {A} (m : Ask A) (Q : A → Prop) : Prop := ∀ n a, (m n).1 = Ok a → Q a.

Lemma asks_bind {A B} (m : Ask A) (f : A → Ask B) P Q :
  asks m P → (∀ a, P a → asks (f a) Q) → asks (m ≫= f) Q.
Proof.
  intros Hm Hf n b. unfold mbind, Ask_bind. specialize (Hm n). destruct (m n) as [[a|e] n']; [|done].
  apply Hf. by apply Hm.
Qed.
Lemma asks_step {A B} (m : Ask A) (f : A → Ask B) Q : (∀ a, asks (f a) Q) → asks (m ≫= f) Q.
Proof. intros Hf. by apply (asks_bind _ _ (λ _, True)). Qed.
Lemma asks_ret {A} (a : A) (Q : A → Prop) : Q a → asks (mret a) Q.
Proof. by intros HQ n b [= <-]. Qed.
Lemma asks_aret {A} (r : res A) (Q : A → Prop) : (∀ a, r = Ok a → Q a) → asks (aret r) Q.
Proof. intros HQ n a E. by apply HQ. Qed.
Lemma asks_ask {A} (answer : nat → res A) (Q : A → Prop) :
  (∀ n a, answer n = Ok a → Q a) → asks (ask answer) Q.
Proof. intros HQ n a E. exact (HQ _ _ E). Qed.
Lemma asks_try {A} (m : Ask A) (Q : A → Prop) :
  asks m Q → asks (ask_try m) (λ r, ∀ a, r = Ok a → Q a).
Proof.
  intros Hm n r E a ->. specialize (Hm n). unfold ask_try in E. destruct (m n) as [r' n'].
  injection E as ->. by apply Hm.
Qed.
Lemma asks_weaken {A} (m : Ask A) (P Q : A → Prop) : asks m P → (∀ a, P a → Q a) → asks m Q.
Proof. intros Hm HQ n a E. by eapply HQ, Hm. Qed.

Section RequestRules.
Context `{Requests OIDCTables}.
Lemma rbind_ok {A B} (m : Req OIDCTables A) (f : A → Req OIDCTables B) s b s' :
  (m ≫= f) s = (Ok b, s') ↔ ∃ a s1, m s = (Ok a, s1) ∧ f a s1 = (Ok b, s').
Proof.
  unfold mbind, Req_bind. destruct (m s) as [[a|e] s1]; split.
  - intros Eq. by exists a, s1.
  - intros (a' & s1' & Eq & Eq'). by simplify_eq.
  - intros [=].
  - by intros (a' & s1' & [=] & _).
Qed.
Lemma rret_ok {A} (a b : A) (s s' : Run OIDCTables) :
  (mret a : Req OIDCTables A) s = (Ok b, s') ↔ a = b ∧ s = s'.
Proof. split; [by intros [=]|by intros [-> ->]]. Qed.
Lemma rpure_ok {A} (r : res A) b (s s' : Run OIDCTables) :
  rpure r s = (Ok b, s') ↔ r = Ok b ∧ s = s'.
Proof. split; [by intros [=]|by intros [-> ->]]. Qed.
Lemma rcheck_ok c e u (s s' : Run OIDCTables) : rcheck c e s = (Ok u, s') ↔ c = false ∧ s = s'.
Proof. unfold rcheck. rewrite rpure_ok. destruct c, u; cbn; split; intros [Eq ->]; done. Qed.
Lemma rtry_ok {A} (m : Req OIDCTables A) r (s s' : Run OIDCTables) :
  rtry m s = (Ok r, s') → m s = (r, s').
Proof. unfold rtry. destruct (m s) as [r' s1]. by intros [= <- <-]. Qed.

(** The invariant [I] of the tables holds before and after, and the result
    satisfies [Q]. *)
Variable I : With OIDCTables → Prop.
Definition rsafe {A} (m : Req OIDCTables A) (Q : A → Prop) : Prop :=
  ∀ s, I (rn_tables s) → I (rn_tables (m s).2) ∧ ∀ a, (m s).1 = Ok a → Q a.
Definition xsafe {A} (m : STx A) (Q : A → Prop) : Prop :=
  ∀ s a s', I s.2 → m s = (Ok a, s') → I s'.2 ∧ Q a.
Hypothesis others_safe : ∀ n w, I w → I (rq_others n w).

Lemma rsafe_bind {A B} (m : Req OIDCTables A) (f : A → Req OIDCTables B) P Q :
  rsafe m P → (∀ a, P a → rsafe (f a) Q) → rsafe (m ≫= f) Q.
Proof.
  intros Hm Hf s Hs. unfold mbind, Req_bind. destruct (Hm s Hs) as [Hs1 Ha].
  destruct (m s) as [[a|e] s1]; [|done]. apply Hf; [by apply Ha|done].
Qed.
Lemma rsafe_step {A B} (m : Req OIDCTables A) (f : A → Req OIDCTables B) Q :
  rsafe m (λ _, True) → (∀ a, rsafe (f a) Q) → rsafe (m ≫= f) Q.
Proof. intros Hm Hf. by eapply rsafe_bind. Qed.
Lemma rsafe_pure {A} (r : res A) (Q : A → Prop) : (∀ a, r = Ok a → Q a) → rsafe (rpure r) Q.
Proof. intros HQ s Hs. by split. Qed.
Lemma rsafe_ret {A} (a : A) (Q : A → Prop) : Q a → rsafe (mret a) Q.
Proof. intros HQ s Hs. split; [done|]. by intros b [= <-]. Qed.
Lemma rsafe_refuse {A} e (Q : A → Prop) : rsafe (rrefuse e) Q.
Proof. by apply rsafe_pure. Qed.
Lemma rsafe_check c e (Q : () → Prop) : (c = false → Q tt) → rsafe (rcheck c e) Q.
Proof. intros HQ. apply rsafe_pure. intros [] E%fail_if_ok. auto. Qed.
Lemma rsafe_guard {A} c e (f : () → Req OIDCTables A) Q :
  (c = false → rsafe (f tt) Q) → rsafe (rcheck c e ≫= f) Q.
Proof.
  intros Hf. apply (rsafe_bind _ _ (λ _, c = false)); [by apply rsafe_check|]. intros []. apply Hf.
Qed.
Lemma rsafe_tick (Q : nat → Prop) : (∀ n, Q n) → rsafe rtick Q.
Proof. intros HQ s Hs. split; [by apply others_safe|done]. Qed.
Lemma rsafe_clock (Q : Time → Prop) : (∀ t, Q t) → rsafe rclock Q.
Proof.
  intros HQ. apply (rsafe_step _ (λ n : nat, mret (@o_now (rq_oracle n) 0))).
  - by apply rsafe_tick.
  - intros n. by apply rsafe_ret.
Qed.
Lemma rsafe_try {A} (m : Req OIDCTables A) (Q : A → Prop) :
  rsafe m Q → rsafe (rtry m) (λ r, ∀ a, r = Ok a → Q a).
Proof.
  intros Hm s Hs. destruct (Hm s Hs) as [Hs' Ha]. unfold rtry. destruct (m s) as [r s'].
  split; [done|]. intros r' [= <-] a ->. by apply Ha.
Qed.
Lemma rsafe_reads {A} (m : Oracle → STx A) (Q : A → Prop) :
  (∀ oracle, xsafe (m oracle) Q) → rsafe (rreads m) Q.
Proof.
  intros Hm. eapply (rsafe_step _ (λ n, rread_under (m (rq_oracle n)))); [by apply rsafe_tick|].
  intros n s Hs. split; [done|]. intros a E. unfold rread_under, xquery in E. cbn in E.
  destruct (m (rq_oracle n) (0%nat, rn_tables s)) as [r s1] eqn:Em. cbn in E. subst r.
  eapply (Hm (rq_oracle n)); [|exact Em]. done.
Qed.
Lemma xsafe_transaction {A} (oracle : Oracle) (m : STx A) (Q : A → Prop) w :
  xsafe m Q → I w →
  I (xtransaction (H := oracle) m w).2 ∧ ∀ a, (xtransaction (H := oracle) m w).1 = Ok a → Q a.
Proof.
  intros Hm Hw. destruct (xtransaction m w) as [r w'] eqn:E. cbn.
  apply xtransaction_cases in E as [[-> (e & ->)]|(a & t & E & Hr)]; [done|].
  destruct (Hm (0%nat, w) _ _ Hw E) as [Hw' HQ]. split; [done|]. intros b ->. destruct Hr as [[= ->]|[=]]. done.
Qed.
Lemma rsafe_writes {A} (m : Oracle → STx A) (Q : A → Prop) :
  (∀ oracle, xsafe (m oracle) Q) → rsafe (rwrite_ m) Q.
Proof.
  intros Hm. eapply (rsafe_step _ (λ n, rchange_under (xtransaction (H := rq_oracle n) (m (rq_oracle n)))));
    [by apply rsafe_tick|].
  intros n s Hs. by apply xsafe_transaction.
Qed.
Lemma rsafe_ask {A} (network : nat → Network) (m : Network → Ask A) (Q : A → Prop) :
  (∀ n, asks (m (network n)) Q) → rsafe (rask network m) Q.
Proof.
  intros Hm. eapply (rsafe_step _ (λ n, rpure (m (network n) 0%nat).1)); [by apply rsafe_tick|].
  intros n. apply rsafe_pure. intros a E. by eapply Hm.
Qed.
Lemma rsafe_lock (network : nat → Network) hash now
    (update : Network → SessionRecord → Ask (SessionRecord * bool)) (Q : SessionRecord → Prop) :
  (∀ n (oracle : Oracle), xsafe (WithSessionLock hash now (update (network n)))
                            (λ r, ∀ a, r = Ok a → Q a)) →
  rsafe (rlock network hash now update) Q.
Proof.
  intros Hm. apply (rsafe_bind _ _ (λ _, True)); [by apply rsafe_tick|]. intros n _.
  eapply (rsafe_bind _ _ (λ r, ∀ a, r = Ok a → Q a)).
  - intros s Hs. by apply xsafe_transaction.
  - intros r Hr. by apply rsafe_pure.
Qed.
End RequestRules.

(** ** Principals come from the platform *)

Section Authenticated.
Context `{GoUnicode} `{Sha256} `{Aead} `{Requests OIDCTables}.
Variable o : OIDCOptions.
Variable network : nat → Network.

(** At some moment the platform gave this answer to some access token. *)
Definition answered (context : AuthorizationContext) : Prop :=
  ∃ n t token, Resolve token (@nw_context (network n) t token) = Ok context.
(** The principal is what an answer for the configured tenant says, checked against
    the local catalog. *)
Definition issued (p : Principal) : Prop :=
  p_Subject p ≠ "" ∧ ∃ identity context,
    answered context ∧ ci_TenantID identity = oo_TenantID o ∧
    Admission identity context (oo_catalog o) (oo_EnvironmentCode o) p.
Definition issued_row (r : SessionRecord) : Prop :=
  ∃ p, se_PrincipalJSON r = JsonOf p ∧ issued p.
Definition issued_sessions (w : With OIDCTables) : Prop :=
  ∀ h r, session_of w h = Some r → issued_row r.

Lemma issued_display display user email p : issued p → issued (with_display display user email p).
Proof.
  intros [Hs (identity & context & Ha & Ht & Hadm)]. split; [done|].
  exists identity, context. split_and!; [done..|]. by destruct Hadm.
Qed.
Lemma issued_json p p' : issued p → principalFromJSON (JsonOf p) = Ok p' → p' = p.
Proof.
  intros [Hs _] E. unfold principalFromJSON in E. cbn [unmarshal mbind res_bind] in E.
  apply streq_false in Hs. unfold empty_str at 1 in E. rewrite Hs in E. by inv_ok E.
Qed.
Lemma issued_tenant p : issued p → p_TenantID p = oo_TenantID o.
Proof. intros [_ (i & c & _ & <- & Ha)]. apply (ad_tenant _ _ _ _ _ Ha). Qed.

Lemma asks_verify n token nonce :
  asks (@verifyIDToken o (network n) token nonce) (λ v,
    ci_TenantID v.1.1 = oo_TenantID o ∧ ci_Subject v.1.1 ≠ "" ∧
    ∃ t claims, @nw_verify (network n) t v.1.2 = Ok (claims, v.2) ∧
      (nonce ≠ "" → cl_Nonce claims = nonce)).
Proof.
  apply asks_step. intros raw.
  eapply (asks_bind _ _ (λ v, ∃ t, @nw_verify (network n) t raw = Ok v)); [apply asks_ask; eauto|].
  intros [claims expiry] [t Hv]. eapply (asks_bind _ _ (λ identity,
    validateCompactIDTokenClaims claims nonce (oo_TenantID o) = Ok identity)); [by apply asks_aret|].
  intros identity Hid. apply asks_ret. cbn. unfold validateCompactIDTokenClaims in Hid. inv_ok Hid.
  bool_hyps. repeat match goal with
  | E : (_ =s _) = true |- _ => apply streq_true in E
  | E : empty_str _ = false |- _ => apply streq_false in E
  end. cbn. split_and!; [done..|]. exists t, claims. split; [done|]. intros Hn.
  match goal with E : _ && _ = false |- _ => apply andb_false_iff in E as [E|E] end; bool_hyps;
    [|by apply streq_true].
  match goal with E : empty_str _ = true |- _ => by apply streq_true in E end.
Qed.

Lemma asks_rotate n token :
  asks (@rotate o (network n) token) (λ f,
    ci_TenantID (rf_identity f) = oo_TenantID o ∧ ci_Subject (rf_identity f) ≠ "").
Proof.
  apply asks_step. intros t. eapply asks_bind; [apply asks_verify|].
  intros v (Ht & Hs & _). by apply asks_ret.
Qed.
Lemma asks_resolve n token : asks (@resolve (network n) token) answered.
Proof. apply asks_ask. intros t c E. by exists n, t, token. Qed.

Lemma admit_issued identity context p :
  answered context → ci_TenantID identity = oo_TenantID o → ci_Subject identity ≠ "" →
  admit_context o identity context = Ok p → issued p.
Proof.
  intros Ha Ht Hs Hadm%principal_admitted. split; [by rewrite (ad_subject _ _ _ _ _ Hadm)|]. eauto.
Qed.

(** A refresh yields a session with a principal that the platform issued anew, for
    the same identity. *)
Lemma asks_refresh n r current now can :
  issued current →
  asks (@refreshAuthorization _ _ o (network n) r current now can) (λ u,
    u.2 = true ∧ issued_row u.1 ∧ se_SessionIDHash u.1 = se_SessionIDHash r ∧
    ∃ p, se_PrincipalJSON u.1 = JsonOf p ∧ p_IdentityID p = p_IdentityID current ∧
      p_TenantID p = p_TenantID current).
Proof.
  intros Hcur. pose proof (issued_tenant _ Hcur) as Ht. pose proof Hcur as [Hs _].
  assert (Hsub : firstNonEmpty [p_Subject current; p_UserID current] ≠ "").
  { cbn. destruct (empty_str (p_Subject current)) eqn:E; [|done]. by apply streq_true in E. }
  do 3 (apply asks_step; intros ?).
  set (good := λ f : Refreshed,
    ci_TenantID (rf_identity f) = oo_TenantID o ∧ ci_Subject (rf_identity f) ≠ "").
  eapply (asks_bind _ _ (λ f : Refreshed * bool, good f.1)).
  { destruct (refresh_due _ _ _); [|by apply asks_ret]. apply asks_step. intros _.
    eapply asks_bind; [apply asks_rotate|]. intros f Hf. by apply asks_ret. }
  intros first Hfirst. eapply asks_bind; [apply asks_try, asks_resolve|]. intros answer Hans.
  eapply (asks_bind _ _ (λ last : Refreshed * bool * AuthorizationContext,
    good last.1.1 ∧ answered last.2)).
  { destruct answer as [snapshot|e]; [apply asks_ret; split; [done|by apply Hans]|].
    destruct (_ && _); [|by apply asks_aret]. eapply asks_bind; [apply asks_rotate|].
    intros f Hf. eapply asks_bind; [apply asks_resolve|]. intros s Ha. by apply asks_ret. }
  intros [[f rotated] snapshot] [[Hft Hfs] Ha]. cbn in Hft, Hfs, Ha. apply asks_step. intros _.
  eapply (asks_bind _ _ issued); [apply asks_aret; intros p; by apply admit_issued|].
  intros p Hp. eapply asks_bind; [apply asks_aret; intros u E; exact E|]. intros [] E.
  apply fail_if_ok in E. bool_hyps.
  do 3 (apply asks_step; intros ?). apply asks_ret. cbn. split_and!; [done| |done|].
  - eexists. split; [done|]. by apply issued_display.
  - eexists. split; [done|]. cbn. by split; apply streq_true.
Qed.

(** ** The sessions stay issued *)

Abbreviation Issued := issued_sessions.
Definition keeps_issued (w w' : With OIDCTables) : Prop := Issued w → Issued w'.
#[local] Instance keeps_issued_preorder : PreOrder keeps_issued.
Proof. split; [by intros w Hw|by intros w1 w2 w3 H12 H23 Hw; apply H23, H12]. Qed.

Lemma issued_update where_ f :
  (∀ r, issued_row r → where_ r = true → issued_row (f r)) → keeps_update keeps_issued where_ f.
Proof.
  intros Hf w w' g E Hg Hw h r. unfold session_of. rewrite E. cbn.
  destruct (Hg (ot_sessions (w_ext w)) h) as [->| ->]; [apply Hw|].
  intros (r0 & Hr0 & ->)%fmap_Some. apply Hw in Hr0. unfold touched.
  destruct (where_ r0) eqn:Ew; auto.
Qed.
Lemma issued_same (w w' : With OIDCTables) :
  ot_sessions (w_ext w') = ot_sessions (w_ext w) → keeps_issued w w'.
Proof. intros E Hw h r. unfold session_of. rewrite E. apply Hw. Qed.

Lemma xsafe_keeps {A} (m : STx A) : xkeeps keeps_issued m → xsafe Issued m (λ _, True).
Proof. intros Hm s a s' Hs E. split; [|done]. by apply (Hm _ _ _ E). Qed.
Lemma xsafe_take `{Oracle} hash where_ :
  xsafe Issued (take_session hash where_)
    (λ r, issued_row r ∧ where_ r = true).
Proof. intros s r s' Hs (-> & Hr & Hw)%take_session_ok. split; [done|]. split; [by eapply Hs|done]. Qed.

Lemma revoke_keeps `{Oracle} hash where_ now : xkeeps keeps_issued (update_session hash where_ (revoke_row now)).
Proof. by apply xkeeps_update, issued_update. Qed.
Lemma refreshed_keeps `{Oracle} hash where_ u :
  issued_row u → xkeeps keeps_issued (update_session hash where_ (refreshed_row u)).
Proof. intros Hu. by apply xkeeps_update, issued_update. Qed.
Lemma RevokeSession_keeps `{Oracle} hash now : xkeeps keeps_issued (RevokeSession hash now).
Proof. xkeep_steps. by apply issued_update. Qed.
Lemma UpdateSession_keeps `{Oracle} u : issued_row u → xkeeps keeps_issued (UpdateSession u).
Proof. intros Hu. xkeep_steps. by apply issued_update. Qed.

(** The callbacks of a lock return the row, or an issued one. *)
Lemma xsafe_lock `{Oracle} hash now update :
  (∀ r, issued_row r → asks (update r) (λ u, u.2 = true → issued_row u.1)) →
  xsafe Issued (WithSessionLock hash now update) (λ r, ∀ a, r = Ok a → issued_row a).
Proof.
  intros Hu s r s' Hs (row & s1 & Ht & E)%xbind_ok. apply take_session_ok in Ht as (Hs1 & Hrow & _).
  pose proof (Hs _ _ Hrow) as Hir. apply xbind_ok in E as (answer & s2 & [Hs2 ->]%xask_ok & E).
  rewrite <- Hs1, <- Hs2 in Hs. clear Hs1 Hs2 Hrow.
  destruct (update row s1.1).1 as [[updated changed]|e] eqn:Eu.
  - specialize (Hu _ Hir _ _ Eu). destruct changed; cbn [negb] in E.
    + apply xbind_ok in E as (n & s3 & E & [<- <-]%xret_ok). split; [|by intros a [= <-]; apply Hu].
      by apply (refreshed_keeps _ _ _ (Hu eq_refl) _ _ _ E).
    + apply xret_ok in E as [<- <-]. split; [done|]. by intros a [= <-].
  - destruct (rejecting e); [|by apply xthrow_ok in E].
    apply xbind_ok in E as (n & s3 & E & [<- <-]%xret_ok). split; [|done].
    by apply (revoke_keeps _ _ _ _ _ _ E).
Qed.

Lemma asks_rotation n r :
  issued_row r → asks (@rotation _ _ o (network n) r) (λ u, u.2 = true → issued_row u.1).
Proof.
  intros Hr. do 2 (apply asks_step; intros ?). destruct (_ <? _); [by apply asks_ret|].
  do 3 (apply asks_step; intros ?). apply asks_step. intros [[identity raw] expiry].
  do 4 (apply asks_step; intros ?). by apply asks_ret.
Qed.
Lemma asks_recheck n r :
  issued_row r → asks (@recheck _ _ _ o (network n) r) (λ u, u.2 = true → issued_row u.1).
Proof.
  intros (p & Hj & Hp). do 2 (apply asks_step; intros ?). destruct (settled_session _ _ _); [by apply asks_ret|].
  eapply (asks_bind _ _ (λ q, q = p)).
  { apply asks_aret. rewrite Hj. intros q Hq%wrapped_ok. by apply issued_json. }
  intros q ->. eapply asks_weaken; [by apply asks_refresh|]. by intros u (_ & Hu & _).
Qed.

Hypothesis others_issued : ∀ n w, Issued w → Issued (rq_others n w).

Lemma rsafe_find hash now :
  rsafe Issued (find_session o hash now)
    (λ r, issued_row r ∧ se_TenantID r = oo_TenantID o ∧ valid_at now r = true).
Proof.
  eapply rsafe_bind; [apply rsafe_try, rsafe_reads; [done|intros oracle; apply xsafe_take]|].
  intros found Hf. apply (rsafe_bind _ _ _ (λ r, issued_row r ∧ valid_at now r = true)).
  { apply rsafe_pure. intros r E. destruct found as [r'|]; [|done]. injection E as <-. exact (Hf _ eq_refl). }
  intros r Hr. apply rsafe_guard. intros E%negb_false_iff%streq_true. apply rsafe_ret. naive_solver.
Qed.
Lemma rsafe_json r :
  issued_row r → rsafe Issued (rpure (principalFromJSON (se_PrincipalJSON r))) issued.
Proof. intros (p & -> & Hp). apply rsafe_pure. intros q Hq. by rewrite (issued_json _ _ Hp Hq). Qed.

Lemma rsafe_keeps {A} (m : Oracle → STx A) :
  (∀ oracle, xkeeps keeps_issued (m oracle)) → rsafe Issued (rwrite_ m) (λ _, True).
Proof. intros Hm. apply rsafe_writes; [done|]. intros oracle. by apply xsafe_keeps. Qed.
Lemma rsafe_ended {A} (m : Oracle → STx ()) e (Q : A → Prop) :
  (∀ oracle, xkeeps keeps_issued (m oracle)) →
  rsafe Issued (rtry (rwrite_ m);; rrefuse e) Q.
Proof.
  intros Hm. eapply rsafe_bind; [by apply rsafe_try, rsafe_keeps|]. intros _ _. apply rsafe_refuse.
Qed.

Lemma rsafe_touch hash now : rsafe Issued (TouchSessionLastSeen hash now) (λ _, True).
Proof.
  apply rsafe_step.
  { apply rsafe_keeps. intros oracle. xkeep_steps. by apply issued_update. }
  intros changed. destruct (_ =? _); [by apply rsafe_ret|].
  eapply rsafe_bind; [apply rsafe_reads; [done|intros oracle; apply xsafe_take]|].
  intros _ _. by apply rsafe_ret.
Qed.

Lemma rsafe_central r interact :
  rsafe Issued (centralState o network r interact) (λ _, True).
Proof.
  apply rsafe_step; [by apply rsafe_pure|]. intros secret. eapply rsafe_bind.
  { apply rsafe_try, (rsafe_ask _ others_issued _ _ (λ _, True)). by intros n t a _. }
  intros [state|e] _; [by apply rsafe_pure|]. destruct (central_ended e); [|by apply rsafe_pure].
  apply rsafe_step; [by apply rsafe_clock|]. intros now. eapply rsafe_bind.
  { apply rsafe_try, rsafe_keeps. intros oracle. apply RevokeSession_keeps. }
  intros revoked _. apply rsafe_refuse.
Qed.

Lemma rsafe_rlock hash now update :
  (∀ n r, issued_row r → asks (update (network n) r) (λ u, u.2 = true → issued_row u.1)) →
  rsafe Issued (rlock network hash now update) issued_row.
Proof.
  intros Hu. apply rsafe_lock; [done|]. intros n oracle. apply xsafe_lock. apply Hu.
Qed.

Lemma rsafe_authenticateCentral r now :
  issued_row r → rsafe Issued (authenticateCentral o network r now) issued.
Proof.
  intros Hr. apply rsafe_step; [apply rsafe_central|]. intros _. eapply rsafe_bind.
  { destruct Hr as (p & -> & Hp). apply (rsafe_pure _ _ issued). intros q Hq%wrapped_ok.
    by rewrite (issued_json _ _ Hp Hq). }
  intros principal Hp. apply rsafe_guard. intros _.
  destruct (settled_session _ _ _); [by apply rsafe_ret|].
  apply rsafe_step; [by apply rsafe_clock|]. intros early.
  eapply (rsafe_bind _ _ _ issued_row).
  { destruct (negb _); [|by apply rsafe_ret]. apply rsafe_step; [by apply rsafe_clock|]. intros at_.
    eapply rsafe_bind; [apply rsafe_try, rsafe_rlock; intros; by apply asks_rotation|].
    intros rotated Hrot. apply rsafe_pure. intros r' E. apply Hrot. by destruct rotated. }
  intros r' Hr'. eapply rsafe_bind; [apply rsafe_try, rsafe_rlock; intros; by apply asks_recheck|].
  intros [updated|e] Hup; [|apply rsafe_refuse]. by apply rsafe_json, Hup.
Qed.

Lemma rsafe_after r principal method now answer :
  issued principal → (∀ u, answer = Ok u → issued_row u.1) →
  rsafe Issued (after_refresh o r principal method now answer) issued.
Proof.
  intros Hp Hu. destruct answer as [[updated []]|e]; cbn [after_refresh].
  - eapply rsafe_bind.
    { apply rsafe_try, rsafe_keeps. intros oracle. by apply UpdateSession_keeps, (Hu _ eq_refl). }
    intros [[]|e] _; [|apply rsafe_refuse]. by apply rsafe_json, (Hu _ eq_refl).
  - by apply rsafe_ret.
  - destruct (_ || _).
    { apply rsafe_ended. intros oracle. by apply xkeeps_updates, issued_update. }
    destruct (_ && _); [by apply rsafe_ret|apply rsafe_refuse].
Qed.

Lemma rsafe_authenticateLocal hash r method now :
  issued_row r → rsafe Issued (authenticateLocal o network hash r method now) issued.
Proof.
  intros (p & Hj & Hp). unfold authenticateLocal. rewrite Hj.
  destruct (principalFromJSON (JsonOf p)) as [q|e] eqn:E;
    [|apply rsafe_ended; intros oracle; apply RevokeSession_keeps].
  apply issued_json in E as ->; [|done].
  destruct (own_principal r p); [|apply rsafe_ended; intros oracle; apply RevokeSession_keeps].
  apply rsafe_guard. intros _. eapply rsafe_bind; [apply rsafe_try, rsafe_touch|]. intros touched _.
  apply rsafe_step; [by apply rsafe_pure|]. intros _. destruct (negb _); [by apply rsafe_ret|].
  eapply rsafe_bind; [apply rsafe_try, rsafe_ask; [done|intros n; by apply asks_refresh]|].
  intros answer Hans. apply rsafe_after; [done|]. intros u Eu. by apply Hans.
Qed.

Lemma rsafe_Authenticate cookie method : rsafe Issued (Authenticate o network cookie method) issued.
Proof.
  apply rsafe_step; [by apply rsafe_pure|]. intros hash.
  apply rsafe_step; [by apply rsafe_clock|]. intros now.
  eapply rsafe_bind; [apply rsafe_find|]. intros r (Hr & _ & _).
  destruct (oo_central o); [by apply rsafe_authenticateCentral|by apply rsafe_authenticateLocal].
Qed.

(** ** The other requests *)

Lemma rsafe_any_ask {A} (m : Network → Ask A) : rsafe Issued (rask network m) (λ _, True).
Proof. by apply rsafe_ask. Qed.
Lemma rsafe_any_try {A} (m : Req OIDCTables A) :
  rsafe Issued m (λ _, True) → rsafe Issued (rtry m) (λ _, True).
Proof. intros Hm s Hs. split; [|done]. by apply (rsafe_try _ _ _ Hm). Qed.
Lemma rsafe_any {A} (m : Req OIDCTables A) Q : rsafe Issued m Q → rsafe Issued m (λ _, True).
Proof. intros Hm s Hs. split; [by apply Hm|done]. Qed.
Lemma rsafe_any_find hash now :
  rsafe Issued (rreads (λ oracle, FindSession (H := oracle) hash now)) (λ _, True).
Proof. eapply rsafe_any, rsafe_reads; [done|intros oracle; apply xsafe_take]. Qed.

(** Walks through a handler whose steps keep the sessions issued. *)
Ltac rsafe_steps :=
  repeat first
    [ by apply rsafe_ret | by apply rsafe_pure | apply rsafe_refuse | by apply rsafe_clock
    | by apply rsafe_check | apply rsafe_any_ask | apply rsafe_central | apply rsafe_any_find
    | apply rsafe_any_try
    | apply rsafe_step; [|intros ?] ].

Lemma rsafe_stage {A} name status (m : Req OIDCTables A) (next : A → Req OIDCTables CallbackOutcome) P :
  rsafe Issued m P → (∀ a, P a → rsafe Issued (next a) (λ _, True)) →
  rsafe Issued (stage name status m next) (λ _, True).
Proof.
  intros Hm Hn. eapply rsafe_bind; [apply rsafe_try, Hm|]. intros [a|e] Ha; [|by apply rsafe_ret].
  by apply Hn, Ha.
Qed.
Lemma rsafe_any_stage {A} name status (m : Req OIDCTables A) next :
  rsafe Issued m (λ _, True) → (∀ a, rsafe Issued (next a) (λ _, True)) →
  rsafe Issued (stage name status m next) (λ _, True).
Proof. intros Hm Hn. eapply rsafe_stage; [exact Hm|]. intros a _. apply Hn. Qed.

Lemma Consume_keeps `{Oracle} hash now : xkeeps keeps_issued (ConsumeLoginTransaction hash now).
Proof.
  xkeep_steps. apply xkeeps_write. intros w b t' E. apply issued_same. cbn.
  repeat case_match; by simplify_eq.
Qed.
Lemma Save_keeps `{Oracle} login : xkeeps keeps_issued (SaveLoginTransaction login).
Proof. apply xkeeps_write. intros w b t' E. apply issued_same. repeat case_match; by simplify_eq. Qed.
Lemma Attach_keeps `{Oracle} hash cipher now : xkeeps keeps_issued (AttachSessionLink hash cipher now).
Proof. xkeep_steps. apply xkeeps_write. intros w b t' [= _ <-]. by apply issued_same. Qed.
Lemma Create_keeps `{Oracle} r : issued_row r → xkeeps keeps_issued (CreateSession r).
Proof.
  intros Hr. apply xkeeps_write. intros w b t' E Hw h r'. unfold session_of. cbn.
  destruct (ot_sessions _ !! _); [done|]. injection E as _ <-. cbn.
  intros [[<- <-]|[_ Hr']]%lookup_insert_Some; [done|by eapply Hw].
Qed.
Lemma interaction_keeps `{Oracle} hash now idle : xkeeps keeps_issued (interaction_update hash now idle).
Proof. xkeep_steps. by apply issued_update. Qed.
Lemma delivery_keeps `{Oracle} jti now where_ :
  xkeeps keeps_issued (first_delivery jti now (update_sessions where_ (revoke_row now))).
Proof.
  xkeep_steps; [|by apply issued_update]. apply xkeeps_write. intros w b t' E. cbv zeta in E.
  apply issued_same. repeat case_match; by simplify_eq.
Qed.

Lemma rsafe_open_session transaction signin now :
  answered (si_snapshot signin) → ci_TenantID (si_identity signin) = oo_TenantID o →
  ci_Subject (si_identity signin) ≠ "" →
  rsafe Issued (open_session o network transaction signin now) (λ _, True).
Proof.
  intros Ha Ht Hs. apply (rsafe_stage _ _ _ _ issued).
  { apply rsafe_pure. intros p. by apply admit_issued. }
  intros p Hp. apply rsafe_any_stage; [apply rsafe_any_ask|]. intros info.
  apply rsafe_any_stage; [by apply rsafe_check|]. intros _.
  apply (rsafe_stage _ _ _ _ (λ made, issued_row made.2)).
  { apply rsafe_ask; [done|]. intros n. apply asks_step. intros raw. apply (asks_bind _ _ issued_row).
    - do 3 (apply asks_step; intros ?). apply asks_ret. eexists. split; [done|]. by apply issued_display.
    - intros r Hr. by apply asks_ret. }
  intros made Hmade. apply rsafe_any_stage.
  { destruct (si_binding signin); [apply rsafe_any_ask|by apply rsafe_ret]. }
  intros binding. apply rsafe_any_stage; [|intros ?; by apply rsafe_ret].
  apply rsafe_keeps. intros oracle. apply Create_keeps. unfold session_to_store.
  by destruct (si_binding signin).
Qed.

Lemma asks_initial n token identity raw expiry :
  ci_TenantID identity = oo_TenantID o → ci_Subject identity ≠ "" →
  asks (@resolveInitialAuthorization o (network n) token identity raw expiry) (λ v,
    answered v.1.1.1.1 ∧ v.1.1.2 = identity).
Proof.
  intros Ht Hs. eapply asks_bind; [apply asks_try, asks_resolve|]. intros [snapshot|e] Ha.
  { apply asks_ret. cbn. split; [by apply Ha|done]. }
  destruct (negb _); [by apply asks_aret|]. apply asks_step. intros refreshed. apply asks_step.
  intros [[[identity' raw'] expiry']|e']; [|by apply asks_aret].
  eapply (asks_bind _ _ (λ _, identity' = identity)).
  { apply asks_aret. intros u E%fail_if_ok. by bool_hyps. }
  intros _ ->. eapply asks_bind; [apply asks_resolve|]. intros snapshot Hsn. by apply asks_ret.
Qed.

Lemma rsafe_complete transaction token raw identity next :
  (∀ b, rsafe Issued (next b) (λ _, True)) →
  rsafe Issued (complete_central o network transaction token raw identity next) (λ _, True).
Proof.
  intros Hn. unfold complete_central. destruct (negb _); [done|].
  apply rsafe_any_stage; [by apply rsafe_pure|]. intros ticket.
  apply rsafe_any_stage; [apply rsafe_any_ask|]. intros b. apply Hn.
Qed.

Lemma rsafe_finish state code : rsafe Issued (finish_callback o network state code) (λ _, True).
Proof.
  apply rsafe_step; [by apply rsafe_clock|]. intros now. apply rsafe_any_stage.
  { apply rsafe_step; [apply rsafe_keeps; intros oracle; apply Consume_keeps|]. intros l. rsafe_steps. }
  intros [[transaction nonce] verifier]. apply rsafe_any_stage; [apply rsafe_any_ask|]. intros token.
  apply (rsafe_stage _ _ _ _ (λ v, ci_TenantID v.1.1 = oo_TenantID o ∧ ci_Subject v.1.1 ≠ "")).
  { apply rsafe_ask; [done|]. intros n. eapply asks_weaken; [apply asks_verify|].
    by intros v (? & ? & _). }
  intros [[identity raw] expiry] (Ht & Hs). cbn in Ht, Hs. apply rsafe_complete. intros binding.
  eapply rsafe_stage; [apply rsafe_ask; [done|intros n; by apply asks_initial]|].
  intros [[[[snapshot token'] identity'] raw'] expiry'] [Ha Hid]. cbn in Ha, Hid. subst identity'.
  destruct (_ && _); [by apply rsafe_ret|]. by apply rsafe_open_session.
Qed.

Lemma rsafe_Callback query : rsafe Issued (Callback o network query) (λ _, True).
Proof.
  assert (Hc : rsafe Issued
    (if negb (empty_str (TrimSpace (cq_error query))) then mret (CallbackFailed "authorization" 401)
     else if empty_str (TrimSpace (cq_state query)) || empty_str (TrimSpace (cq_code query))
     then mret (CallbackFailed "callback_parameters" 401)
     else finish_callback o network (TrimSpace (cq_state query)) (TrimSpace (cq_code query)))
    (λ _, True)).
  { repeat case_match; try by apply rsafe_ret. apply rsafe_finish. }
  unfold Callback. destruct (oo_central o); [|exact Hc].
  destruct (cq_state_cookie query) as [value|]; [|by apply rsafe_ret].
  destruct (empty_str value || _); [by apply rsafe_ret|].
  destruct (negb (empty_str (cq_ticket query))); [|exact Hc]. unfold acceptSessionLink.
  destruct (negb (empty_str (cq_code query)) || _); [by apply rsafe_ret|].
  apply rsafe_step; [apply rsafe_any_try, rsafe_any_ask|]. intros [cipher|e]; [|by apply rsafe_ret].
  apply rsafe_step; [by apply rsafe_clock|]. intros now.
  apply rsafe_step; [apply rsafe_any_try, rsafe_keeps; intros oracle; apply Attach_keeps|].
  intros [l|e]; by apply rsafe_ret.
Qed.

(** ** Every handler *)

Inductive web_request : Type :=
  | RqLogin (prompt : string)
  | RqCallback (query : CallbackQuery)
  | RqAuthenticate (cookie : option string) (method : string)
  | RqSessionIdle (cookie : option string)
  | RqActivity (cookie : option string)
  | RqLifecycle (cookie : option string) (method : string) (interact trusted : bool)
  | RqLogout (cookie : option string)
  | RqBackchannel (method raw : string)
  | RqImportActor (hash tenant actor : string).
Definition ignoring {A} (m : Req OIDCTables A) : Req OIDCTables () := m;; mret tt.
Definition handle_request (rq : web_request) : Req OIDCTables () :=
  match rq with
  | RqLogin prompt => ignoring (Login o network prompt)
  | RqCallback query => ignoring (Callback o network query)
  | RqAuthenticate cookie method => ignoring (Authenticate o network cookie method)
  | RqSessionIdle cookie => ignoring (SessionIdle o network cookie)
  | RqActivity cookie => ignoring (RecordActivity o network cookie)
  | RqLifecycle cookie method interact trusted =>
      ignoring (lifecycle o network cookie method interact trusted)
  | RqLogout cookie => ignoring (clearLocalSession o cookie)
  | RqBackchannel method raw => ignoring (BackchannelLogout o network method raw)
  | RqImportActor hash tenant actor => ignoring (ResolveImportActor o network hash tenant actor)
  end.

Lemma rsafe_interactive cookie now : rsafe Issued (interactiveSession o cookie now) (λ _, True).
Proof.
  apply rsafe_step; [by apply rsafe_pure|]. intros hash.
  apply rsafe_step; [eapply rsafe_any, rsafe_find|]. intros r. rsafe_steps.
Qed.
Lemma rsafe_idle cookie : rsafe Issued (SessionIdle o network cookie) (λ _, True).
Proof.
  apply rsafe_step; [by apply rsafe_clock|]. intros now.
  apply rsafe_step; [apply rsafe_interactive|]. intros found. destruct (oo_central o); rsafe_steps.
Qed.
Lemma rsafe_activity cookie : rsafe Issued (RecordActivity o network cookie) (λ _, True).
Proof.
  apply rsafe_step; [by apply rsafe_clock|]. intros now.
  apply rsafe_step; [apply rsafe_interactive|]. intros found. destruct (oo_central o); [rsafe_steps|].
  apply rsafe_step; [|intros ?; rsafe_steps]. apply rsafe_any_try.
  apply rsafe_step; [by apply rsafe_check|]. intros _.
  apply rsafe_step; [apply rsafe_keeps; intros oracle; apply interaction_keeps|]. intros changed.
  destruct (_ =? _); [by apply rsafe_ret|].
  eapply rsafe_bind; [apply rsafe_reads; [done|intros oracle; apply xsafe_take]|].
  intros _ _. by apply rsafe_ret.
Qed.
Lemma rsafe_login prompt : rsafe Issued (Login o network prompt) (λ _, True).
Proof.
  apply rsafe_step; [by apply rsafe_clock|]. intros now.
  apply rsafe_step; [apply rsafe_any_try, rsafe_any_ask|].
  intros [[[[[state nonce] verifier] nc] vc]|e]; [|by apply rsafe_ret].
  apply rsafe_step; [|intros ?; by apply rsafe_ret].
  apply rsafe_any_try, rsafe_keeps. intros oracle. apply Save_keeps.
Qed.
Lemma rsafe_lifecycle cookie method interact trusted :
  rsafe Issued (lifecycle o network cookie method interact trusted) (λ _, True).
Proof.
  unfold lifecycle. destruct (negb (oo_central o)); [by apply rsafe_ret|].
  destruct (interact && negb trusted); [by apply rsafe_ret|].
  apply rsafe_step; [eapply rsafe_any_try, rsafe_any, rsafe_Authenticate|].
  intros [p|e]; [|by apply rsafe_ret]. destruct cookie as [value|]; [|by apply rsafe_ret].
  apply rsafe_step; [by apply rsafe_clock|]. intros now.
  apply rsafe_step; [apply rsafe_any_try, rsafe_any_find|]. intros [r|e]; rsafe_steps.
Qed.
Lemma rsafe_backchannel method raw : rsafe Issued (BackchannelLogout o network method raw) (λ _, True).
Proof.
  unfold BackchannelLogout. destruct (negb (method =s "POST")); [by apply rsafe_ret|].
  destruct (empty_str (TrimSpace raw) || _); [by apply rsafe_ret|].
  apply rsafe_step; [apply rsafe_any_try, rsafe_any_ask|]. intros claims.
  apply rsafe_step; [by apply rsafe_clock|]. intros checked.
  destruct claims as [[claims|]|e]; try by apply rsafe_ret.
  destruct (negb (validBackchannelClaims _ _ _)); [by apply rsafe_ret|].
  apply rsafe_step; [by apply rsafe_clock|]. intros now.
  apply rsafe_step; [|intros ?; by apply rsafe_ret]. apply rsafe_any_try, rsafe_keeps. intros oracle.
  destruct (oo_central o && _); (apply xkeeps_bind; [apply _| |intros ?; apply delivery_keeps]);
    xkeep_steps.
Qed.
Lemma rsafe_logout cookie : rsafe Issued (clearLocalSession o cookie) (λ _, True).
Proof.
  unfold clearLocalSession. destruct cookie as [value|]; [|by apply rsafe_ret].
  destruct (empty_str value); [by apply rsafe_ret|].
  apply rsafe_step; [by apply rsafe_clock|]. intros now.
  apply rsafe_step; [apply rsafe_any_try, rsafe_any_find|]. intros found.
  apply rsafe_step; [|intros ?; by apply rsafe_ret].
  apply rsafe_any_try, rsafe_keeps. intros oracle. apply RevokeSession_keeps.
Qed.

Lemma rsafe_import hash tenant actor :
  rsafe Issued (ResolveImportActor o network hash tenant actor) issued.
Proof.
  apply rsafe_step; [by apply rsafe_clock|]. intros now.
  eapply rsafe_bind; [apply rsafe_try, rsafe_reads; [done|intros oracle; apply xsafe_take]|].
  intros found Hf. apply (rsafe_bind _ _ _ issued_row).
  { apply rsafe_pure. intros r E%wrapped_ok. by apply (Hf r). }
  intros r (p & Hj & Hp). apply rsafe_guard. intros _. apply (rsafe_bind _ _ _ issued).
  { apply rsafe_pure. intros q Hq%wrapped_ok. rewrite Hj in Hq. by rewrite (issued_json _ _ Hp Hq). }
  intros current Hcur. apply rsafe_guard. intros _.
  eapply rsafe_bind; [apply rsafe_ask; [done|intros n; by apply asks_refresh]|].
  intros u (_ & Hu & _). apply rsafe_step.
  { apply rsafe_any_try, rsafe_keeps. intros oracle. by apply UpdateSession_keeps. }
  intros stored. apply rsafe_step; [by apply rsafe_pure|]. intros _. by apply rsafe_json.
Qed.

Lemma rsafe_ignoring {A} (m : Req OIDCTables A) Q : rsafe Issued m Q → rsafe Issued (ignoring m) (λ _, True).
Proof. intros Hm. eapply rsafe_bind; [exact Hm|]. intros a _. by apply rsafe_ret. Qed.

(** C14: Every handler keeps the sessions issued: the principal stored with a session
    is what some answer of the platform says for the configured tenant, admitted
    against the local catalog, provided the other requests keep them so. *)
Theorem handlers_keep_issued rq s :
  issued_sessions (rn_tables s) → issued_sessions (rn_tables (handle_request rq s).2).
Proof.
  intros Hs. refine (proj1 ((_ : rsafe Issued (handle_request rq) (λ _, True)) s Hs)).
  destruct rq; eapply rsafe_ignoring.
  - apply rsafe_login.
  - apply rsafe_Callback.
  - apply rsafe_Authenticate.
  - apply rsafe_idle.
  - apply rsafe_activity.
  - apply rsafe_lifecycle.
  - apply rsafe_logout.
  - apply rsafe_backchannel.
  - apply rsafe_import.
Qed.

(** C4: Whatever an authenticated request may do is justified: the platform answered
    with the permission, the contract belongs to the configured tenant, and a data
    scope of the same answer covers it for a role that carries the permission in
    the local catalog.  This holds in both session modes, whether the principal was
    stored, refreshed or used while the platform was away. *)
Theorem authenticated_access cookie method s p :
  issued_sessions (rn_tables s) → (Authenticate o network cookie method s).1 = Ok p →
  ∀ permission c, may_access p permission c = true →
    k_TenantID c = oo_TenantID o ∧
    ∃ identity context raw, answered context ∧ p_IdentityID p = TrimSpace (ci_IdentityID identity) ∧
      permission ∈ ax_Permissions context ∧ raw ∈ ax_DataScopes context ∧
      justifies context (oo_catalog o) identity (oo_EnvironmentCode o) permission c raw.
Proof.
  intros Hs E permission c Hc.
  destruct (proj2 (rsafe_Authenticate cookie method s Hs) p E) as [_ Hp].
  destruct Hp as (who & context & Ha & Ht & Hadm).
  destruct (proj1 (access_admitted _ _ _ _ _ _ _ Hadm) Hc) as (Hq & Hten & raw & Hraw & Hj).
  rewrite Ht in Hten. split; [done|]. exists who, context, raw.
  split_and!; [done|apply (ad_identity _ _ _ _ _ Hadm)|done..].
Qed.
End Authenticated.

(** ** The session behind a request *)

Section Sessions.
Context `{GoUnicode} `{Sha256} `{Aead} `{Requests OIDCTables}.
Variable o : OIDCOptions.
Variable network : nat → Network.

(** The tables that the n-th and the next step of a request find. *)
Definition seen_at (n : nat) (w : With OIDCTables) : With OIDCTables :=
  rq_others (S n) (rq_others n w).
Definition clock_at (n : nat) : Time := @o_now (rq_oracle n) 0.

Lemma rclock_ok now s s' :
  rclock s = (Ok now, s') ↔
  now = clock_at (rn_step s) ∧ s' = mkRun (S (rn_step s)) (rq_others (rn_step s) (rn_tables s)).
Proof. split; [by intros [= <- <-]|by intros [-> ->]]. Qed.

Lemma reads_ok {A} (m : Oracle → STx A) a s s' :
  rreads m s = (Ok a, s') →
  (m (rq_oracle (rn_step s)) (0%nat, rq_others (rn_step s) (rn_tables s))).1 = Ok a ∧
  rn_step s' = S (rn_step s).
Proof. by intros [= <- <-]. Qed.

Lemma find_ok hash now r s s' :
  find_session o hash now s = (Ok r, s') →
  session_of (rq_others (rn_step s) (rn_tables s)) hash = Some r ∧ valid_at now r = true ∧
  se_TenantID r = oo_TenantID o ∧ rn_step s' = S (rn_step s).
Proof.
  intros (found & s1 & Hf%rtry_ok & E)%rbind_ok. apply rbind_ok in E as (r' & s2 & Hr%rpure_ok & E).
  destruct Hr as [Hr <-]. apply rbind_ok in E as (u & s3 & Hc%rcheck_ok & [-> <-]%rret_ok).
  destruct Hc as [Hc%negb_false_iff%streq_true <-]. destruct found as [r1|]; [|done].
  injection Hr as ->. apply reads_ok in Hf as [Hf Hs]. unfold FindSession in Hf.
  destruct (take_session _ _ _) as [[r1|e] s4] eqn:E4; [|done]. injection Hf as ->.
  by apply take_session_ok in E4 as (_ & Hrow & Hv).
Qed.

Lemma session_cookie_ok cookie hash :
  session_cookie cookie = Ok hash → ∃ v, cookie = Some v ∧ TrimSpace v ≠ "" ∧ hash = tokenHash v.
Proof.
  destruct cookie as [v|]; [|done]. cbn. intros E. inv_ok E. exists v.
  split_and!; [done| |done]. by apply streq_false.
Qed.

(** The platform's word on a binding at step [n]: it says so at that step, or it
    said so, for a binding with the same digest, less than five seconds before.
    [log] holds the platform's answers. *)
Definition platform_says (log : list (string * CentralContext * Time)) (n : nat)
    (secret : string) (state : CentralContext) : Prop :=
  central_request (@nw_state (network n) 0 secret) = Ok state ∨
  ∃ other said, sha256_hex other = sha256_hex secret ∧ (other, state, said) ∈ log ∧
    @nw_now (network n) 0 - said < 5 * Second.

(** At step [n] the platform says that the central session of [r] lives. *)
Definition centrally_alive (log : list (string * CentralContext * Time)) (n : nat)
    (r : SessionRecord) : Prop :=
  ∃ secret state, central_secret o r = Ok secret ∧ platform_says log n secret state ∧
    ValidateCentral state (centralExpectation o) (se_IdentityID r) = Ok tt ∧
    cc_SessionID state = sc_CentralSessionID (se_central r).

Lemma client_state_ok log n secret state :
  cache_sound log (@nw_cache (network n) 0) →
  @client_state _ (network n) 0 secret = Ok state → platform_says log n secret state.
Proof.
  unfold client_state, platform_says. intros Hc E.
  destruct (State _ _ _ _ _ _) as [answer cache'] eqn:Es. cbn in E. subst answer.
  destruct (State_sound _ _ _ _ _ _ _ _ _ Hc Es) as [_ Hr].
  destruct (Hr _ eq_refl) as [Hv|(other & said & Eo & Hin & Ht)]; [by left|]. right.
  exists other, said. split_and!; [done..|].
  pose proof (stateCacheTTL_bound (@nw_cache_setting (network n))). lia.
Qed.

Lemma rask_ok {A} (m : Network → Ask A) a s s' :
  rask network m s = (Ok a, s') →
  (m (network (rn_step s)) 0%nat).1 = Ok a ∧ rn_step s' = S (rn_step s) ∧
  rn_tables s' = rq_others (rn_step s) (rn_tables s).
Proof. by intros [= <- <-]. Qed.
Lemma ask_bind_ok {A B} (m : Ask A) (f : A → Ask B) n b :
  ((m ≫= f) n).1 = Ok b → ∃ a n', (m n).1 = Ok a ∧ (f a n').1 = Ok b.
Proof. unfold mbind, Ask_bind. destruct (m n) as [[a|e] n']; [|done]. eauto. Qed.

Lemma centralState_ok log r state s s' :
  cache_sound log (@nw_cache (network (rn_step s)) 0) →
  centralState o network r false s = (Ok state, s') → centrally_alive log (rn_step s) r.
Proof.
  intros Hlog (secret & s1 & [Hsec <-]%rpure_ok & E)%rbind_ok.
  apply rbind_ok in E as (answer & s2 & Ha%rtry_ok & E). destruct answer as [st|e].
  - apply rpure_ok in E as [E _]. unfold central_result in E. inv_ok E.
    apply negb_false_iff, streq_true in Hv. apply rask_ok in Ha as [Ha _].
    apply ask_bind_ok in Ha as (st' & n1 & Hst & Ha).
    apply ask_bind_ok in Ha as ([] & n2 & Hval & Ha). injection Ha as ->.
    exists secret, state. split_and!; [done| |done..]. by apply client_state_ok.
  - destruct (central_ended e); [|by apply rpure_ok in E as [[=] _]].
    apply rbind_ok in E as (now & s3 & _ & E). apply rbind_ok in E as (rv & s4 & _ & E).
    by apply rpure_ok in E as [[=] _].
Qed.

Lemma authenticateCentral_ok log r now p s s' :
  cache_sound log (@nw_cache (network (rn_step s)) 0) →
  authenticateCentral o network r now s = (Ok p, s') →
  ∃ q, principalFromJSON (se_PrincipalJSON r) = Ok q ∧ own_principal r q = true ∧
    centrally_alive log (rn_step s) r.
Proof.
  intros Hlog (state & s1 & Hst%(centralState_ok log) & E)%rbind_ok; [|done].
  apply rbind_ok in E as (q & s2 & [Hq%wrapped_ok _]%rpure_ok & E).
  apply rbind_ok in E as ([] & s3 & [Ho%negb_false_iff _]%rcheck_ok & _). by exists q.
Qed.

Lemma authenticateLocal_ok hash r method now p s s' :
  authenticateLocal o network hash r method now s = (Ok p, s') →
  sessionIdleValid o r now = true ∧
  ∃ q, principalFromJSON (se_PrincipalJSON r) = Ok q ∧ own_principal r q = true.
Proof.
  unfold authenticateLocal. destruct (principalFromJSON _) as [q|e].
  2: { intros (? & ? & _ & E)%rbind_ok. by apply rpure_ok in E as [[=] _]. }
  destruct (own_principal r q) eqn:Eo.
  2: { intros (? & ? & _ & E)%rbind_ok. by apply rpure_ok in E as [[=] _]. }
  intros (? & ? & [Hi%negb_false_iff _]%rcheck_ok & _)%rbind_ok. eauto.
Qed.

(** C5: An authenticated request presents the cookie of a session that the tables
    hold at that moment: not revoked, within its absolute deadline, of the
    configured tenant, with a stored principal that is the session's own.  In the
    local mode the session has seen interaction within the idle time.  In the
    central mode the client was asked about its central session at the very next
    step, and the platform confirms it: with its answer at that step, or with an
    answer less than five seconds old that the client's cache kept for the same
    binding digest.  (The cache holds only answers of the platform, which [State]
    preserves.) *)
Theorem authenticated_session log cookie method s p s' :
  (∀ n, cache_sound log (@nw_cache (network n) 0)) →
  Authenticate o network cookie method s = (Ok p, s') →
  let n := rn_step s in
  let now := clock_at n in
  ∃ value r q, cookie = Some value ∧
    session_of (seen_at n (rn_tables s)) (tokenHash value) = Some r ∧
    se_RevokedAt r = None ∧ now < se_SessionExpiresAt r ∧ se_TenantID r = oo_TenantID o ∧
    principalFromJSON (se_PrincipalJSON r) = Ok q ∧
    p_IdentityID q = se_IdentityID r ∧ p_TenantID q = oo_TenantID o ∧
    if oo_central o then centrally_alive log (S (S n)) r
    else now < interactiveBaseline r + oo_SessionIdleTTL o.
Proof.
  intros Hlog (hash & s1 & [Hcookie <-]%rpure_ok & E)%rbind_ok n now.
  apply session_cookie_ok in Hcookie as (value & -> & _ & ->).
  apply rbind_ok in E as (now' & s2 & [-> ->]%rclock_ok & E). fold n now in E.
  apply rbind_ok in E as (r & s3 & (Hr & Hvalid & Ht & Hstep)%find_ok & E).
  unfold valid_at, unrevoked in Hvalid. bool_hyps.
  assert (Hrev : se_RevokedAt r = None) by (destruct (se_RevokedAt r); naive_solver).
  assert (Hown : ∃ q, principalFromJSON (se_PrincipalJSON r) = Ok q ∧ own_principal r q = true ∧
            if oo_central o then centrally_alive log (S (S n)) r
            else now < interactiveBaseline r + oo_SessionIdleTTL o).
  { destruct (oo_central o).
    - cbn in Hstep. rewrite <- Hstep. by eapply authenticateCentral_ok.
    - apply authenticateLocal_ok in E as (Hidle & q & Hq & Hown). exists q. split_and!; [done..|].
      unfold sessionIdleValid in Hidle. destruct (_ || _); [done|]. by apply Z.ltb_lt in Hidle. }
  destruct Hown as (q & Hq & Hown & Hend). unfold own_principal in Hown. bool_hyps.
  exists value, r, q. split_and!; try done; [by apply streq_true|]. rewrite <- Ht. by apply streq_true.
Qed.

(** ** Signing in *)

Lemma stage_ok {A} name status (m : Req OIDCTables A) next out s s' :
  stage name status m next s = (Ok out, s') →
  (∀ name' status', out ≠ CallbackFailed name' status') →
  ∃ a s1, m s = (Ok a, s1) ∧ next a s1 = (Ok out, s').
Proof.
  intros (r & s1 & Hm%rtry_ok & E)%rbind_ok Hout. destruct r as [a|e]; [eauto|].
  apply rret_ok in E as [<- _]. by destruct (Hout name (status e)).
Qed.
Lemma rask_asks {A} (m : Network → Ask A) (Q : A → Prop) a s s' :
  rask network m s = (Ok a, s') → asks (m (network (rn_step s))) Q → Q a.
Proof. intros [E _]%rask_ok HQ. by eapply HQ. Qed.
Lemma writes_ok {A} (m : Oracle → STx A) a s s' :
  rwrite_ m s = (Ok a, s') →
  ∃ t, m (rq_oracle (rn_step s)) (0%nat, rq_others (rn_step s) (rn_tables s)) =
       (Ok a, (t, rn_tables s')) ∧ rn_step s' = S (rn_step s).
Proof.
  intros E. unfold rwrite_, rwrites, mbind, Req_bind, rtick, rchange_under in E. cbn in E.
  destruct (xtransaction _ _) as [r w'] eqn:Ex. injection E as -> <-. cbn.
  apply xtransaction_ok in Ex as [t Ex]. by exists t.
Qed.

(** The stored session of a sign-in. *)
Record session_made (signin : SignIn) (raw : string) (now : Time) (r : SessionRecord) : Prop := {
  sm_hash : se_SessionIDHash r = tokenHash raw;
  sm_unrevoked : se_RevokedAt r = None;
  sm_tenant : se_TenantID r = ci_TenantID (si_identity signin);
  sm_identity : se_IdentityID r = TrimSpace (ci_IdentityID (si_identity signin));
  sm_expiry : se_SessionExpiresAt r =
    match si_binding signin with
    | Some b => cc_AbsoluteExpiresAt (bi_Context b)
    | None => now + oo_SessionTTL o
    end
}.

Section Closed.
(** No other request saves a login under the state with digest [h] again. *)
Variable h : string.
Hypothesis others_closed : ∀ n w, no_new_login h w (rq_others n w).

Lemma rask_closed {A} (m : Network → Ask A) a s s' :
  rask network m s = (Ok a, s') → no_new_login h (rn_tables s) (rn_tables s').
Proof. intros (_ & _ & ->)%rask_ok. apply others_closed. Qed.
Lemma create_closed r u s s' :
  rwrite_ (λ oracle, CreateSession (H := oracle) r) s = (Ok u, s') →
  no_new_login h (rn_tables s) (rn_tables s').
Proof.
  intros (t & Hc & _)%writes_ok. etrans; [apply others_closed|]. apply no_new_login_same.
  unfold CreateSession in Hc. apply xwrite_ok in Hc as [_ Hw]. cbn in Hw.
  destruct (ot_sessions _ !! _); [done|]. injection Hw as _ <-. reflexivity.
Qed.

Lemma open_session_ok transaction signin now raw path expires s s' :
  open_session o network transaction signin now s = (Ok (SignedIn raw path expires), s') →
  path = lt_ReturnPath transaction ∧ no_new_login h (rn_tables s) (rn_tables s') ∧ ∃ r,
    session_of (rn_tables s') (tokenHash raw) = Some r ∧ session_made signin raw now r ∧
    expires = se_SessionExpiresAt r.
Proof.
  intros (p & s1 & [Hp <-]%rpure_ok & E)%stage_ok; [|done].
  apply stage_ok in E as (info & s2 & Hinfo%rask_closed & E); [|done].
  apply stage_ok in E as ([] & s3 & [_ <-]%rcheck_ok & E); [|done].
  apply stage_ok in E as ([raw' r0] & s4 & Hmade & E); [|done].
  apply stage_ok in E as (binding & s5 & Hsealed & E); [|done].
  apply stage_ok in E as ([] & s6 & Hc & E); [|done]. apply rret_ok in E as [[= <- <- <-] <-].
  split; [done|]. split.
  { etrans; [exact Hinfo|]. etrans; [by eapply rask_closed|].
    trans (rn_tables s5).
    - destruct (si_binding signin); [by eapply rask_closed in Hsealed|by apply rret_ok in Hsealed as [_ <-]].
    - by apply create_closed in Hc. }
  exists (session_to_store signin r0 binding).
  apply principal_admitted in Hp.
  set (bare := mkSignIn (si_identity signin) (si_snapshot signin) (si_token signin)
                 (si_idToken signin) (si_expiry signin) None).
  assert (Hr0 : session_made bare raw' now r0).
  { pose proof (rask_asks _ (λ made, session_made bare made.1 now made.2) _ _ _ Hmade) as Hm.
    apply Hm. clear -Hp. apply asks_step. intros raw. apply (asks_bind _ _ (session_made bare raw now)).
    - do 3 (apply asks_step; intros ?). apply asks_ret. destruct (ad_identity _ _ _ _ _ Hp).
      by split; cbn; try apply (ad_tenant _ _ _ _ _ Hp).
    - intros r Hr. by apply asks_ret. }
  assert (Hr : session_made signin raw' now (session_to_store signin r0 binding)).
  { destruct Hr0. unfold session_to_store. destruct (si_binding signin) eqn:Eb;
      split; cbn in *; rewrite ?Eb; done. }
  split_and!; [|done|done]. apply writes_ok in Hc as (t & Hc & _). unfold CreateSession in Hc. apply xwrite_ok in Hc as [_ Hw]. cbn in Hw.
  destruct (ot_sessions _ !! _) in Hw; [done|]. injection Hw as Hw. unfold session_of. rewrite <- Hw.
  rewrite <- (sm_hash _ _ _ _ Hr). cbn. apply lookup_insert_eq.
Qed.

(** The binding of a sign-in: in the central mode the platform completed, at step
    [n], the ticket of the login transaction with these tokens, and the session it
    opened is of this identity, tenant and application. *)
Definition bound_to (n : nat) (login : LoginTransactionRecord) (token : Token) (rawID : string)
    (who : compactIdentity) (binding : option Binding) : Prop :=
  if oo_central o
  then ∃ ticket b, binding = Some b ∧ ticket ≠ "" ∧
       decrypt (oo_key o) (lt_CentralTicketCiphertext login) = Ok ticket ∧
       @nw_complete (network n) 0 ticket (tk_AccessToken token) rawID = Ok b ∧
       ValidateCentral (bi_Context b) (centralExpectation o) (ci_IdentityID who) = Ok tt
  else binding = None.

Lemma complete_ok transaction token rawID who next out s s' :
  complete_central o network transaction token rawID who next s = (Ok out, s') →
  (∀ name' status', out ≠ CallbackFailed name' status') →
  ∃ binding s1, bound_to (rn_step s) transaction token rawID who binding ∧
    no_new_login h (rn_tables s) (rn_tables s1) ∧ next binding s1 = (Ok out, s').
Proof.
  unfold complete_central, bound_to. destruct (oo_central o); cbn [negb]; [|by exists None, s].
  intros E Hout. apply stage_ok in E as (ticket & s1 & [Hticket <-]%rpure_ok & E); [|done].
  apply stage_ok in E as (b & s2 & Hb & E); [|done]. exists (Some b), s2.
  pose proof (rask_closed _ _ _ _ Hb) as Hclosed. split_and!; [|done..].
  inv_ok Hticket. apply rask_ok in Hb as [Hb _].
  apply ask_bind_ok in Hb as (b' & n1 & Hb' & Hb). apply ask_bind_ok in Hb as ([] & n2 & Hval & Hb).
  injection Hb as ->. exists ticket, b. unfold empty_str in *. split_and!; try done. by apply streq_false.
Qed.

Lemma consume_ok `{Oracle} hash now l w t w' :
  ConsumeLoginTransaction hash now (0%nat, w) = (Ok l, (t, w')) →
  ∃ login, ot_logins (w_ext w) !! hash = Some login ∧ lt_ConsumedAt login = None ∧
    now < lt_ExpiresAt login ∧ l = consumed_login now login.
Proof.
  unfold ConsumeLoginTransaction. intros E. xtx. cbn in Hwrite.
  destruct (ot_logins (w_ext w) !! hash) as [login|]; [|by injection Hwrite as <- _].
  destruct (pending_login now login) eqn:Ep; [|by injection Hwrite as <- _].
  injection Hwrite as <- Hext. unfold pending_login in Ep. bool_hyps.
  exists login. split_and!; [done..|]. rewrite <- Hext in Hrow. cbn in Hrow.
  rewrite lookup_insert_eq in Hrow. by injection Hrow as <-.
Qed.

Ltac lia_closed :=
  unfold no_new_login in *;
  match goal with |- open_login ?h ?w = 0 => pose proof (open_login_range h w); lia end.

(** The identity of an id token's claims: the nonce of the login is compared unless
    it is empty, which [Login] never stores. *)
Record claims_prove (claims : oidcIDTokenClaims) (nonce : string) (who : compactIdentity) : Prop := {
  cp_subject : ci_Subject who = cl_Subject claims ∧ cl_Subject claims ≠ "";
  cp_identity : ci_IdentityID who = TrimSpace (cl_IdentityID claims) ∧ ci_IdentityID who ≠ "";
  cp_tenant : ci_TenantID who = cl_TenantID claims ∧ cl_TenantID claims = oo_TenantID o;
  cp_session : ci_SessionID who = cl_SessionID claims;
  cp_use : cl_TokenUse claims = "id_token";
  cp_nonce : nonce ≠ "" → cl_Nonce claims = nonce
}.

Lemma claims_proved claims nonce who :
  validateCompactIDTokenClaims claims nonce (oo_TenantID o) = Ok who → claims_prove claims nonce who.
Proof.
  unfold validateCompactIDTokenClaims. intros E. inv_ok E. unfold empty_str in *. bool_hyps.
  repeat match goal with
  | h : negb _ = false |- _ => apply negb_false_iff in h
  | h : (_ =s _) = true |- _ => apply streq_true in h
  | h : (_ =s _) = false |- _ => apply streq_false in h
  end.
  split; cbn; split_and?; try congruence. intros Hn.
  match goal with h : negb _ && _ = false |- _ => apply andb_false_iff in h as [h|h];
    apply negb_false_iff, streq_true in h end; congruence.
Qed.

Lemma verify_ok n token nonce who rawID expiry :
  (@verifyIDToken o (network n) token nonce 0%nat).1 = Ok (who, rawID, expiry) →
  ∃ claims, tk_IDToken token = Some rawID ∧ @nw_verify (network n) 0 rawID = Ok (claims, expiry) ∧
    claims_prove claims nonce who.
Proof.
  unfold verifyIDToken. destruct (tk_IDToken token) as [raw|]; [|done].
  destruct (empty_str (TrimSpace raw)); [done|]. intros E.
  unfold mbind, Ask_bind, aret, ask in E. cbn in E.
  destruct (@nw_verify (network n) 0 raw) as [[claims at_]|] eqn:Ev; [|done]. cbn in E.
  destruct (validateCompactIDTokenClaims _ _ _) as [i|] eqn:Ei; [|done].
  injection E as <- <- <-. exists claims. split_and!; [done..|]. by apply claims_proved.
Qed.

(** What a sign-in of [signin] at step [n] consumed and proved: an open login of this
    service under the state; the provider's answer to its code and verifier; a
    verified id token that proves the identity for its nonce; and the central
    session. *)
Definition login_proved (w : With OIDCTables) (n : nat) (state code : string) (path : string)
    (signin : SignIn) : Prop :=
  ∃ login nonce verifier token rawID claims expiry,
    ot_logins (w_ext w) !! tokenHash state = Some login ∧ lt_ConsumedAt login = None ∧
    clock_at n < lt_ExpiresAt login ∧ lt_TenantID login = oo_TenantID o ∧
    path = lt_ReturnPath login ∧
    decrypt (oo_key o) (lt_NonceCiphertext login) = Ok nonce ∧
    decrypt (oo_key o) (lt_CodeVerifierCiphertext login) = Ok verifier ∧
    @nw_exchange (network (2 + n)) 0 code verifier = Ok token ∧ tk_IDToken token = Some rawID ∧
    @nw_verify (network (3 + n)) 0 rawID = Ok (claims, expiry) ∧
    claims_prove claims nonce (si_identity signin) ∧
    bound_to (4 + n) login token rawID (si_identity signin) (si_binding signin).

Lemma finish_ok state code raw path expires s s' :
  h = tokenHash state →
  finish_callback o network state code s = (Ok (SignedIn raw path expires), s') →
  let n := rn_step s in
  ∃ signin r, login_proved (seen_at n (rn_tables s)) n state code path signin ∧
    open_login h (rn_tables s') = 0 ∧
    session_of (rn_tables s') (tokenHash raw) = Some r ∧ session_made signin raw (clock_at n) r ∧
    expires = se_SessionExpiresAt r.
Proof.
  intros Eh (at_ & s1 & [-> ->]%rclock_ok & E)%rbind_ok n. fold n in E.
  apply stage_ok in E as ([[transaction nonce] verifier] & s2 & Hl & E); [|done].
  apply rbind_ok in Hl as (l & s3 & (t & Hl & Hs3)%writes_ok & Hr). cbn in Hs3.
  pose proof (consume_uses _ _ _ _ _ Hl) as (_ & Hzero & _).
  cbn in Hzero. rewrite <- Eh in Hzero.
  apply consume_ok in Hl. destruct Hl as (login & Hlogin & Hopen & Hexp & ->).
  apply rbind_ok in Hr as ([] & s4 & [Hten <-]%rcheck_ok & Hr).
  apply rbind_ok in Hr as (nonce' & s5 & [Hn <-]%rpure_ok & Hr).
  apply rbind_ok in Hr as (v' & s6 & [Hv' <-]%rpure_ok & [[= <- <- <-] <-]%rret_ok).
  apply negb_false_iff, streq_true in Hten.
  apply stage_ok in E as (token & s7 & Htoken & E); [|done].
  pose proof (rask_closed _ _ _ _ Htoken) as H7. apply rask_ok in Htoken as (Htoken & Hs7 & _).
  apply stage_ok in E as ([[who rawID] idExpiry] & s8 & Hv & E); [|done].
  pose proof (rask_closed _ _ _ _ Hv) as H8. apply rask_ok in Hv as (Hv & Hs8 & _).
  apply verify_ok in Hv as (claims & Hraw & Hver & Hclaims).
  apply complete_ok in E as (binding & s9 & Hb & H9 & E); [|done].
  apply stage_ok in E as ([[[[snapshot token'] who'] rawID'] idExpiry'] & s10 & Hi & E); [|done].
  pose proof (rask_closed _ _ _ _ Hi) as H10.
  eapply rask_asks in Hi; [|by apply asks_initial; destruct Hclaims as [[] _ [] _ _ _]; congruence].
  destruct Hi as [_ Hw]. cbn in Hw. subst who'.
  destruct (oo_central o && _); [by apply rret_ok in E as [[=] _]|].
  apply open_session_ok in E as (-> & H11 & r & Hrow & Hmade & ->).
  rewrite Hs3 in Htoken, Hs7. rewrite Hs7 in Hver, Hs8. rewrite Hs8 in Hb.
  exists (mkSignIn who snapshot token' rawID' idExpiry' binding), r. split_and!; [|by lia_closed|done..].
  by exists login, nonce', v', token, rawID, claims, idExpiry.
Qed.
End Closed.

(** C6: A callback signs a browser in only with an open login transaction of this
    tenant under its state, with the provider's answer to the transaction's
    verifier, and with a verified id token of this tenant that carries the
    transaction's nonce (an empty nonce, which a login never stores, is not
    compared); the identity signed in is the one of that token's claims.  In the
    central mode the browser must also present the state as its cookie, and the
    platform must have completed the transaction's ticket with these tokens into a
    session of that identity.  The transaction is consumed: provided no other
    request saves a login under the same state, none is open under it afterwards.
    The tables then hold the new session under the digest of the returned value,
    for that identity, until the central deadline or for the configured time. *)
Theorem callback_signs_in query s raw path expires s' :
  let state := TrimSpace (cq_state query) in
  (∀ n w, no_new_login (tokenHash state) w (rq_others n w)) →
  Callback o network query s = (Ok (SignedIn raw path expires), s') →
  let n := rn_step s in
  (oo_central o = true → cq_state_cookie query = Some (cq_state query) ∧ cq_ticket query = "") ∧
  ∃ signin r,
    login_proved (seen_at n (rn_tables s)) n state (TrimSpace (cq_code query)) path signin ∧
    open_login (tokenHash state) (rn_tables s') = 0 ∧
    session_of (rn_tables s') (tokenHash raw) = Some r ∧ session_made signin raw (clock_at n) r ∧
    expires = se_SessionExpiresAt r.
Proof.
  intros state Hothers E n. unfold Callback in E.
  assert (Hfin : (if negb (empty_str (TrimSpace (cq_error query)))
      then mret (CallbackFailed "authorization" 401)
      else if empty_str (TrimSpace (cq_state query)) || empty_str (TrimSpace (cq_code query))
      then mret (CallbackFailed "callback_parameters" 401)
      else finish_callback o network (TrimSpace (cq_state query)) (TrimSpace (cq_code query))) s =
      (Ok (SignedIn raw path expires), s') ∧
      (oo_central o = true → cq_state_cookie query = Some (cq_state query) ∧ cq_ticket query = "")).
  { destruct (oo_central o); [|done]. destruct (cq_state_cookie query) as [v|]; [|by apply rret_ok in E as [[=] _]].
    destruct (empty_str v || negb (v =s cq_state query)) eqn:Ev; [by apply rret_ok in E as [[=] _]|].
    apply orb_false_iff in Ev as [_ Ev%negb_false_iff%streq_true].
    destruct (negb (empty_str (cq_ticket query))) eqn:Et; [|by apply negb_false_iff, streq_true in Et; subst].
    unfold acceptSessionLink in E. exfalso. revert E.
    destruct (negb (empty_str (cq_code query)) || _); [by intros [[=] _]%rret_ok|].
    intros (sealed & s1 & _ & E)%rbind_ok. destruct sealed; [|by apply rret_ok in E as [[=] _]].
    apply rbind_ok in E as (t & s2 & _ & E). apply rbind_ok in E as (att & s3 & _ & E).
    destruct att; apply rret_ok in E as [E _]; [|done]. repeat case_match; done. }
  destruct Hfin as [E' Hcookie]. clear E. split; [done|].
  destruct (negb _); [by apply rret_ok in E' as [[=] _]|].
  destruct (_ || _); [by apply rret_ok in E' as [[=] _]|]. by eapply finish_ok.
Qed.
End Sessions.

(** ** A concrete sign-in

    The identity provider hands out the nonce as code and id token; the platform
    answers with [sample_grants]. *)

#[local] Existing Instance sample_aead.
Definition sample_moment (n t : nat) : string := Itoa (Z.of_nat n) +:+ "." +:+ Itoa (Z.of_nat t).
Definition sample_central : CentralContext :=
  mkCentralContext "cs-1" "t1" "alice" "client" "contract_management" "prod" 1 1800 1800000
    (1700000000 * Second + 4 * Hour) 14400000.
Definition sample_network (n : nat) : Network := {|
  nw_now := λ t, 1700000000 * Second; nw_random := λ t size, Ok ("r" +:+ sample_moment n t);
  nw_nonce := λ t, Ok (replicate nonce_size (chr 7));
  nw_verifier := λ t, "v" +:+ sample_moment n t;
  nw_exchange := λ t code verifier,
    Ok (mkToken "access" "refresh" (1700003600 * Second) (Some code));
  nw_refresh := λ t refresh, Err ErrRefreshTokenRejected;
  nw_verify := λ t raw,
    Ok (mkClaims "kc-1" "alice" "t1" "" raw "id_token" "sid-1", 1700003600 * Second);
  nw_userinfo := λ t access, Ok ("kc-1", mkUserInfo "kc-1" "Alice" "alice" "");
  nw_logout_token := λ t raw, Err ErrOther;
  nw_context := λ t access, ContextAnswered 200 (Ok (sample_answer sample_grants)) true;
  nw_cache_setting := None; nw_cache := λ t, ∅;
  nw_state := λ t secret, CentralAnswered 200 true (Ok sample_central);
  nw_activity := λ t secret, Ok sample_central;
  nw_complete := λ t ticket access id, Ok (mkBinding "binding" sample_central)
|}.
#[local] Instance sample_requests : Requests OIDCTables := {|
  rq_oracle := λ n, fine (Itoa (Z.of_nat n)); rq_others := λ n w, w; rq_license := λ n, Granted
|}.
Definition sample_options : OIDCOptions :=
  mkOptions false "client" "contract_management" "prod" "t1" "/contract/" (8 * Hour) Hour
    (5 * Minute) Hour (replicate 32 (chr 1)) sample_catalog.
Definition sample_start : Run OIDCTables := mkRun 0 (mkWith empty_db (mkOIDC ∅ ∅ ∅)).

Definition sample_logged_in : res LoginOutcome * Run OIDCTables :=
  Login sample_options sample_network "" sample_start.
Definition sample_query : CallbackQuery := mkCallbackQuery "r1.0" "r1.1" "" "" None.
Definition sample_callback : res CallbackOutcome * Run OIDCTables :=
  Callback sample_options sample_network sample_query sample_logged_in.2.
Definition sample_cookie : option string :=
  match sample_callback.1 with Ok (SignedIn raw _ _) => Some raw | _ => None end.
Definition sample_authenticated : res Principal * Run OIDCTables :=
  Authenticate sample_options sample_network sample_cookie "GET" sample_callback.2.

Example sample_login_at : sample_logged_in.1 = Ok (LoginAt "r1.0" "r1.1" "v1.2" false).
Proof. vm_compute. reflexivity. Qed.
Example sample_signed_in :
  sample_callback.1 = Ok (SignedIn "r9.0" "/contract/" (1700000000 * Second + 8 * Hour)).
Proof. vm_compute. reflexivity. Qed.
(** The same callback again, and a callback with a nonce that is not the login's. *)
Example replay_refused :
  (Callback sample_options sample_network sample_query sample_callback.2).1 =
  Ok (CallbackFailed "login_state" 401).
Proof. vm_compute. reflexivity. Qed.
Example other_nonce_refused :
  (Callback sample_options sample_network (mkCallbackQuery "r1.0" "other" "" "" None)
     sample_logged_in.2).1 = Ok (CallbackFailed "id_token" 401).
Proof. vm_compute. reflexivity. Qed.
Example sample_authenticates : is_ok sample_authenticated.1 = true.
Proof. vm_compute. reflexivity. Qed.

Definition sample_issued (w : With OIDCTables) : Prop :=
  issued_sessions sample_options sample_network w.
Lemma sample_others n w : sample_issued w → sample_issued (rq_others n w).
Proof. done. Qed.
Lemma sample_start_issued : sample_issued (rn_tables sample_start).
Proof. intros h r Hr. unfold session_of in Hr. cbn in Hr. by rewrite lookup_empty in Hr. Qed.
Lemma sample_callback_issued : sample_issued (rn_tables sample_callback.2).
Proof.
  apply (rsafe_Callback _ _ sample_others). apply (rsafe_login _ _ sample_others).
  apply sample_start_issued.
Qed.

Lemma handlers_keep_issued_witness :
  sample_issued (rn_tables sample_start) ∧
  sample_issued (rn_tables (handle_request sample_options sample_network (RqLogin "") sample_start).2).
Proof.
  split; [exact sample_start_issued|].
  exact (handlers_keep_issued _ _ sample_others (RqLogin "") sample_start sample_start_issued).
Defined.

Definition sample_user : Principal := admitted_principal sample_authenticated.1.

Lemma authenticated_access_witness :
  sample_issued (rn_tables sample_callback.2) ∧ sample_authenticated.1 = Ok sample_user ∧
  may_access sample_user "contract.edit" own_contract = true ∧ k_TenantID own_contract = "t1".
Proof.
  assert (E : sample_authenticated.1 = Ok sample_user) by (vm_compute; reflexivity).
  assert (Ha : may_access sample_user "contract.edit" own_contract = true)
    by (vm_compute; reflexivity).
  split; [exact sample_callback_issued|]. split; [exact E|]. split; [exact Ha|].
  exact (proj1 (authenticated_access _ _ sample_others _ _ _ _ sample_callback_issued E _ _ Ha)).
Defined.

(** The same in the central mode: the platform's ticket comes first. *)
Definition central_options : OIDCOptions :=
  mkOptions true "client" "contract_management" "prod" "t1" "/contract/" (8 * Hour) Hour
    (5 * Minute) Hour (replicate 32 (chr 1)) sample_catalog.
Definition central_linked : res CallbackOutcome * Run OIDCTables :=
  Callback central_options sample_network (mkCallbackQuery "r1.0" "" "" "ticket" (Some "r1.0"))
    (Login central_options sample_network "" sample_start).2.
Definition central_query : CallbackQuery := mkCallbackQuery "r1.0" "r1.1" "" "" (Some "r1.0").
Definition central_callback : res CallbackOutcome * Run OIDCTables :=
  Callback central_options sample_network central_query central_linked.2.
Definition central_cookie : string :=
  match central_callback.1 with Ok (SignedIn raw _ _) => raw | _ => "" end.
Definition central_authenticated : res Principal * Run OIDCTables :=
  Authenticate central_options sample_network (Some central_cookie) "GET" central_callback.2.

Lemma authenticated_session_witness :
  ∃ r q, session_of (rn_tables central_callback.2) (tokenHash central_cookie) = Some r ∧
    principalFromJSON (se_PrincipalJSON r) = Ok q ∧ p_IdentityID q = se_IdentityID r ∧
    centrally_alive central_options sample_network [] (S (S (rn_step central_callback.2))) r.
Proof.
  assert (E : Authenticate central_options sample_network (Some central_cookie) "GET" central_callback.2 =
              (Ok sample_user, central_authenticated.2)) by (vm_compute; reflexivity).
  assert (Hlog : ∀ n, cache_sound [] (@nw_cache (sample_network n) 0))
    by (intros n key entry Hk; cbn in Hk; by rewrite lookup_empty in Hk).
  pose proof (authenticated_session central_options sample_network [] (Some central_cookie) "GET"
    central_callback.2 sample_user central_authenticated.2 Hlog E) as Hs.
  destruct Hs as (value & r & q & Hv & Hr & _ & _ & _ & Hq & Hi & _ & Hc).
  apply (inj Some) in Hv. rewrite <- Hv in Hr. exists r, q. split; [exact Hr|]. split; [exact Hq|]. split; [exact Hi|exact Hc].
Defined.

Lemma callback_signs_in_witness :
  ∃ r, session_of (rn_tables central_callback.2) (tokenHash central_cookie) = Some r ∧
    se_SessionExpiresAt r = 1700000000 * Second + 4 * Hour ∧
    open_login (tokenHash (TrimSpace (cq_state central_query))) (rn_tables central_callback.2) = 0.
Proof.
  assert (E : Callback central_options sample_network central_query central_linked.2 =
              (Ok (SignedIn central_cookie "/contract/" (1700000000 * Second + 4 * Hour)),
               central_callback.2)) by (vm_compute; reflexivity).
  assert (Ho : ∀ h n w, no_new_login h w (rq_others n w)) by (intros h n w; apply Z.le_refl).
  pose proof (callback_signs_in central_options sample_network central_query central_linked.2
    central_cookie "/contract/" (1700000000 * Second + 4 * Hour) central_callback.2 (Ho _) E) as Hs.
  destruct Hs as (_ & signin & r & _ & Hz & Hr & _ & Hx).
  exists r. split; [exact Hr|]. split; [symmetry; exact Hx|exact Hz].
Defined.
